(* ===== verification/_CoqProject ===== *)
-Q . S2P
Prelude.v
GoFloat.v
FloatBounds.v
Timer.v
VarInt.v
Protocol.v
AckFrame.v
Frames.v
LinkedList.v
FrameSorter.v
CryptoStream.v
ReceivedHistory.v
ReceivedTracker.v
FlowControl.v
SendStream.v
ReceiveStream.v
Stream.v
StreamsMap.v
RTTStats.v
SentHistory.v
WindowedFilter.v
BandwidthSampler.v
Cubic.v
CubicProperties.v
BBR.v
BBRProperties.v
SentPacketHandler.v
PacketLinks.v
LossRecovery.v
HandlerProperties.v
Headers.v
Framer.v
Aead.v
PacketPacker.v
Retransmission.v
TransportParameters.v
CryptoSetup.v
Session.v
SessionProperties.v
SessionBuffers.v
SessionExamples.v
PacketHandlers.v
Tokens.v
Server.v
ServerProperties.v
Client.v
ServerExamples.v
Http3Frames.v
Http3.v
Http3Properties.v
Http3Server.v
Http3Examples.v
