(* ===== verification/Prelude.v ===== *)
(** * A verification library for the QUIC implementation

    The program is a QUIC transport (draft 20) in Go, with BBR congestion control, and HTTP/3 on top of it.  A server accepts
    sessions and a client dials one; a datagram is routed to a session (session.go), which parses headers, removes the protection of the packets, and handles their frames: CRYPTO frames
    go to the handshake, STREAM frames to the streams, ACK frames to the loss recovery, which drives the congestion
    controller.  In the other direction the packet packer asks the framer for frames, the framer asks the streams, and
    what was packed is recorded by the loss recovery until it is acknowledged or declared lost and packed again.  HTTP/3 sends
    requests and responses over the streams of a session.

    ** The files, and what they model

    Foundations
    - Prelude: machine integers, the results of calls ([outcome]: a value, a Go error, or a panic), readers of bytes,
      times and durations, record update, hints and tactics.
    - GoFloat: float64 and float32 on the executable IEEE specification of the Standard Library; FloatBounds: how far float32
      is from the exact values.
    - LinkedList: internal/utils/linkedlist/linkedlist.go, as programs on a heap.  Timer: internal/utils/timer.go.
    - VarInt: internal/utils/varint.go, byteorder_big_endian.go.
    - Protocol: internal/protocol (packet numbers, stream IDs, constants), internal/utils/minmax.go.

    The wire
    - AckFrame: internal/wire/ack_frame.go, ack_range.go.  Frames: all other frames, frame_parser.go.
    - Headers: internal/wire/header.go, extended_header.go, version_negotiation.go, internal/protocol/version.go,
      connection_id.go.
    - Aead: internal/handshake/aead.go.  PacketPacker: packet_packer.go, packet_unpacker.go,
      internal/ackhandler/ack_eliciting.go.  Retransmission: properties of PackRetransmission.

    Streams
    - FrameSorter: frame_sorter.go.  CryptoStream: crypto_stream.go, crypto_stream_manager.go.
    - FlowControl: internal/flowcontrol.
    - SendStream, ReceiveStream, Stream: send_stream.go, receive_stream.go, stream.go.
    - StreamsMap: streams_map.go and the generic maps behind streams_map_{incoming,outgoing}_{bidi,uni}.go.
    - Framer: framer.go, window_update_queue.go.

    Loss recovery and congestion control
    - ReceivedHistory, ReceivedTracker: internal/ackhandler/received_packet_{history,tracker,handler}.go.
    - RTTStats, WindowedFilter, BandwidthSampler, BBR: internal/congestion; BBRProperties: the invariants of the sender.
    - Cubic: internal/congestion/cubic.go, cubic_sender.go, hybrid_slow_start.go, prr_sender.go, the second congestion
      controller; CubicProperties: its properties.
    - SentHistory: internal/ackhandler/sent_packet_history.go, packet.go, packet_number_generator.go.
    - SentPacketHandler: internal/ackhandler/sent_packet_handler.go; PacketLinks, LossRecovery, HandlerProperties: its
      invariants, for any congestion controller that satisfies [SafeController], and its properties with the BBR sender.

    The connection
    - TransportParameters: internal/handshake/transport_parameters.go.
    - CryptoSetup: internal/handshake/crypto_setup.go, initial_aead.go, tls_extension_handler.go.
    - Session: session.go and the reference counts of buffer_pool.go; SessionProperties, SessionBuffers: its
      properties; SessionExamples: the theorems applied to a session.

    Server and client
    - PacketHandlers: packet_handler_map.go, multiplexer.go (routing of datagrams, stateless resets).
    - Tokens: internal/handshake/token_generator.go, token_protector.go.
    - Server: server.go; ServerProperties: its properties.  Client: client.go.  ServerExamples: the theorems applied to them.

    HTTP/3
    - Http3Frames: http3/frames.go, body.go.
    - Http3: http3/request_writer.go, request.go, response_writer.go, client.go, roundtrip.go, and the handling of requests of
      server.go; Http3Properties: a request and its response, end to end.  Http3Server: the listener of http3/server.go.
      Http3Examples: the theorems applied to a request.

    ** How code becomes definitions

    A struct is a record with the fields of the code, under the same names with a prefix; a method is a function from
    the state, with the same guards in the same order.  A call that can fail returns an [outcome]; where the code keeps
    what it changed before an error, the error is a component of the result instead.  Integers that can wrap are
    followed by the wrap-around of their type.  A map is a [gmap], and where the code iterates over a map, the order is
    an argument.  A method that blocks is cut at its waits: each definition is a section of code that runs without
    giving up its mutex, and step relations ([writer_step], [consume_step], [incoming_step], [outgoing_step], [hs_step],
    [session_step], [handler_step], [accept_step], [closing_step], [dial_step], [timer_step], ...) interleave the sections.  The clock, random numbers and the results of system calls are arguments.
    Callbacks are values of the result ([notification], [hsEvent]) that the caller then carries out.  The handler of an
    HTTP request is a tree of the calls it makes, whose branches are the results it gets.

    Components that the code separates by interfaces are separated by type classes here: [StreamGetter] and
    [WindowUpdates] (framer and streams), [PacketNumberManager] (packer and loss recovery), [SendAlgorithm] (loss recovery
    and congestion control), [ConnectionFlowControllerI] (flow control of a stream and of the connection), and
    [CryptoStreamHandler] (session and handshake).  Their laws are classes too ([PopsFrames], [PacketNumbers],
    [SafeController], [TokenLibraryLaws], [H3LibraryLaws]); theorems about the client are proved against the laws.

    ** What the theorems show

    - Nothing is lost or invented between the endpoints: round trips of varints, frames, ACK frames, headers, packets
      and transport parameters; streams and CRYPTO streams arrive as they were written; a retransmission carries what
      the lost packet carried; a packet carries all the frames that the streams handed out for it; HTTP requests and responses
      arrive with their headers and bodies.
    - The answers of a server are understood by a client: Version Negotiation, Retry with its token, the refusal of a busy server,
      stateless resets.
    - No peer can make the code panic where that was proved: the parsers, the frame sorter, the streams, the CRYPTO
      streams, the sent packet handler, the BBR and the Cubic sender, in every state they can reach; the routing of
      datagrams, the server, and the parser of HTTP/3 frames for any input.
    - Limits are kept: flow control (but for what a stream that is abandoned more than once is credited), stream limits, packet
      sizes, queues, the congestion window, the packet buffers.
    - Nothing waits for ever: reads, writes, opening of streams, probes, and the conversation between the goroutines
      of the handshake, the timer of a session, and calls of Accept.
    - Refinements and equivalences: the interval lists against sets of packet numbers, the merged loop over ACK ranges
      against a filter, the code with its internal checks against the code without them, linked lists against sequences, the
      timer against one deadline, and what an HTTP handler does against the response it specifies.
    - Where the code does something else than it means to, a theorem proves it on the definitions; the manifest lists
      these findings.

    ** Bounds and fuel

    Loops that are not structurally recursive have fuel, and running out of it is a panic (or [None]), which the theorems exclude:
    parsing loops take one round per byte at most, so that the length of the data plus one is enough
    ([parse_frames_total], [transport_parameters_checked]); the loops of the packer are bounded by the number of frames and of bytes
    ([retransmission_complete]); [sendPackets] by the number of packets that the pacing allows
    ([send_packets_terminates]); [run_system] by the size of the system, which every step decreases
    ([handshake_completes]).  Datagrams have at most 1452 bytes, stream offsets are below 2^62, packet numbers below 2^62; the bounds are hypotheses where
    they come from the peer's input format, and are proved where the code enforces them.

    ** Not modelled

    - The TLS stack (qtls), HKDF, AES and the AEADs, which are not part of the sources: they are parameters, with the
      laws of their documentation as hypotheses ([AEADLaws], [BlockLaws]).
    - ASN.1, QPACK, gzip, the checks of HTTP header fields, URLs and host names, which are libraries as well: parameters, with laws where
      a theorem needs them ([TokenLibraryLaws], [H3LibraryLaws]).
    - Reading and writing of sockets (conn.go, the loop of packet_handler_map.go), name resolution and certificates; the lazily
      started gzip reader and the ListenAndServe functions of http3/.
    - Examples, mocks and test tools; logging and the texts of errors.  The three instances of the linked list are generated from
      the list that is modelled; the components that use them use the list of their values.
    - The buffers of packets that are sent: they have one reference, which is released when the packet was written.
    - The race detector's view of the program: sections of code that the program protects with a mutex are atomic. *)

From stdpp Require Export base numbers list option strings sets gmap.
From Stdlib Require Export ZArith Lia.

#[export] Set Default Goal Selector "!".
Global Open Scope Z_scope.

(** ** Machine integers

    A Go integer of width [w] is a [Z]; an operation that can leave the range
    is followed by the wrap-around of its type.  [uint64], [int64], ... name
    the wrap-around (that is, the Go conversion to the type), [is_uint64], ...
    the range. *)

Definition uint8 (x : Z) : Z := x mod 2 ^ 8.
Definition uint16 (x : Z) : Z := x mod 2 ^ 16.
Definition uint32 (x : Z) : Z := x mod 2 ^ 32.
Definition uint64 (x : Z) : Z := x mod 2 ^ 64.
Definition int64 (x : Z) : Z := (x + 2 ^ 63) mod 2 ^ 64 - 2 ^ 63.

Definition is_uint8 (x : Z) : Prop := 0 <= x < 2 ^ 8.
Definition is_uint16 (x : Z) : Prop := 0 <= x < 2 ^ 16.
Definition is_uint32 (x : Z) : Prop := 0 <= x < 2 ^ 32.
Definition is_uint64 (x : Z) : Prop := 0 <= x < 2 ^ 64.
Definition is_int64 (x : Z) : Prop := - 2 ^ 63 <= x < 2 ^ 63.

Create HintDb go discriminated.

Lemma uint8_id x : is_uint8 x -> uint8 x = x.
Proof. apply Z.mod_small. Qed.
Lemma uint16_id x : is_uint16 x -> uint16 x = x.
Proof. apply Z.mod_small. Qed.
Lemma uint32_id x : is_uint32 x -> uint32 x = x.
Proof. apply Z.mod_small. Qed.
Lemma uint64_id x : is_uint64 x -> uint64 x = x.
Proof. apply Z.mod_small. Qed.
Lemma int64_id x : is_int64 x -> int64 x = x.
Proof. unfold is_int64, int64; intros; rewrite Z.mod_small; lia. Qed.

Lemma uint8_range x : is_uint8 (uint8 x).
Proof. apply Z.mod_pos_bound; lia. Qed.
Lemma uint16_range x : is_uint16 (uint16 x).
Proof. apply Z.mod_pos_bound; lia. Qed.
Lemma uint32_range x : is_uint32 (uint32 x).
Proof. apply Z.mod_pos_bound; lia. Qed.
Lemma uint64_range x : is_uint64 (uint64 x).
Proof. apply Z.mod_pos_bound; lia. Qed.
Lemma int64_range x : is_int64 (int64 x).
Proof.
  unfold is_int64, int64.
  pose proof (Z.mod_pos_bound (x + 2 ^ 63) (2 ^ 64)); lia.
Qed.

#[export] Hint Resolve uint8_range uint16_range uint32_range uint64_range
  int64_range : go.

(** [go_ints] drops every wrap-around whose argument is provably in range. *)
Ltac go_range := unfold is_uint8, is_uint16, is_uint32, is_uint64, is_int64 in *; lia.

Ltac go_ints :=
  repeat match goal with
  | |- context [uint64 ?x] => rewrite (uint64_id x) by go_range
  | |- context [int64 ?x] => rewrite (int64_id x) by go_range
  | |- context [uint32 ?x] => rewrite (uint32_id x) by go_range
  | |- context [uint16 ?x] => rewrite (uint16_id x) by go_range
  | |- context [uint8 ?x] => rewrite (uint8_id x) by go_range
  end.

Ltac go_ints_in H :=
  repeat match type of H with
  | context [uint64 ?x] => rewrite (uint64_id x) in H by go_range
  | context [int64 ?x] => rewrite (int64_id x) in H by go_range
  | context [uint32 ?x] => rewrite (uint32_id x) in H by go_range
  | context [uint16 ?x] => rewrite (uint16_id x) in H by go_range
  | context [uint8 ?x] => rewrite (uint8_id x) in H by go_range
  end.

(** Case analysis on the boolean comparisons of a program. *)
Ltac zbool :=
  repeat match goal with
  | H : (_ && _)%bool = true |- _ => apply andb_true_iff in H as [? ?]
  | H : (_ || _)%bool = false |- _ => apply orb_false_iff in H as [? ?]
  | H : negb _ = true |- _ => apply negb_true_iff in H
  | H : negb _ = false |- _ => apply negb_false_iff in H
  | H : (_ <? _) = true |- _ => apply Z.ltb_lt in H
  | H : (_ <? _) = false |- _ => apply Z.ltb_ge in H
  | H : (_ <=? _) = true |- _ => apply Z.leb_le in H
  | H : (_ <=? _) = false |- _ => apply Z.leb_gt in H
  | H : (_ >? _) = true |- _ => rewrite Z.gtb_ltb in H
  | H : (_ >? _) = false |- _ => rewrite Z.gtb_ltb in H
  | H : (_ >=? _) = true |- _ => rewrite Z.geb_leb in H
  | H : (_ >=? _) = false |- _ => rewrite Z.geb_leb in H
  | H : (_ =? _) = true |- _ => apply Z.eqb_eq in H
  | H : (_ =? _) = false |- _ => apply Z.eqb_neq in H
  end.

Ltac case_if :=
  match goal with
  | |- context [if ?b then _ else _] => destruct b eqn:?
  end.

Ltac case_if_in H :=
  match type of H with
  | context [if ?b then _ else _] => destruct b eqn:?
  end.

Ltac case_ifs := repeat case_if.

(** ** Outcomes

    What a Go call does: return a value, return an error value, or panic. *)

Inductive goerr : Type :=
| EOF
| UnexpectedEOF
| ErrorString (msg : string)
| Errorf (format : string) (args : list Z)
| ErrorText (text : list Z)             (* a text received from the peer *)
| QuicError (code : Z) (cause : goerr)
| TimeoutError (msg : string)
| ApplicationError (code : Z) (cause : goerr)
| StreamCanceledError (errorCode : Z) (cause : goerr).

Inductive outcome (A : Type) : Type :=
| Ret (a : A)
| Error (e : goerr)
| Panic (msg : string).
Arguments Ret {A} a.
Arguments Error {A} e.
Arguments Panic {A} msg.

#[global] Instance outcome_ret : MRet outcome := fun A a => Ret a.
#[global] Instance outcome_bind : MBind outcome := fun A B k m =>
  match m with
  | Ret a => k a
  | Error e => Error e
  | Panic s => Panic s
  end.

(** The panic of a nil pointer. *)
Definition nil_dereference : string := "invalid memory address or nil pointer dereference".

#[global] Instance goerr_eq_dec : EqDecision goerr.
Proof. solve_decision. Defined.

Lemma outcome_bind_eq {A B} (m : outcome A) (k : A -> outcome B) a : m = Ret a -> m ≫= k = k a.
Proof. by intros ->. Qed.

Lemma outcome_bind_Ret {A B} (m : outcome A) (k : A -> outcome B) b :
  m ≫= k = Ret b -> exists a, m = Ret a /\ k a = Ret b.
Proof. destruct m as [a| |]; intros H; [by exists a|discriminate H..]. Qed.

(** ** Readers

    [bytes.Reader]: the unread bytes are threaded through the calls. *)

Definition byte := Z.
Definition bytes := list byte.
Definition bytes_ok (bs : bytes) : Prop := Forall is_uint8 bs.

Definition reader (A : Type) : Type := bytes -> outcome (A * bytes).

#[global] Instance reader_ret : MRet reader := fun A a r => Ret (a, r).
#[global] Instance reader_bind : MBind reader := fun A B k m r =>
  match m r with
  | Ret (a, r') => k a r'
  | Error e => Error e
  | Panic s => Panic s
  end.

Definition fail {A} (e : goerr) : reader A := fun _ => Error e.

(** [bytes.Reader.ReadByte]: the next byte, or [io.EOF]. *)
Definition ReadByte : reader byte := fun r =>
  match r with
  | [] => Error EOF
  | b :: r' => Ret (b, r')
  end.

(** [bytes.Reader.Len]: the number of unread bytes. *)
Definition Len : reader Z := fun r => Ret (Z.of_nat (length r), r).

(** [io.ReadFull(r, buf)] for a [buf] of [n] bytes: [io.EOF] when nothing can
    be read, [io.ErrUnexpectedEOF] when fewer than [n] bytes can. *)
Definition ReadFull (n : nat) : reader bytes := fun r =>
  if (n <=? length r)%nat then Ret (take n r, drop n r)
  else match r with [] => Error EOF | _ :: _ => Error UnexpectedEOF end.

Lemma reader_bind_Ret {A B} (m : reader A) (k : A -> reader B) r b r' :
  (m ≫= k) r = Ret (b, r') -> exists a r1, m r = Ret (a, r1) /\ k a r1 = Ret (b, r').
Proof.
  unfold mbind, reader_bind. destruct (m r) as [[a r1]| |]; [|discriminate..].
  intros H; by exists a, r1.
Qed.

Lemma reader_bind_eq {A B} (m : reader A) (k : A -> reader B) r a r1 :
  m r = Ret (a, r1) -> (m ≫= k) r = k a r1.
Proof. unfold mbind, reader_bind. by intros ->. Qed.

Lemma ReadFull_app (d r : bytes) : ReadFull (length d) (d ++ r) = Ret (d, r).
Proof.
  unfold ReadFull. rewrite length_app, (proj2 (Nat.leb_le _ _)) by lia.
  by rewrite take_app_length, drop_app_length.
Qed.

Lemma ReadFull_app_n n (d r : bytes) :
  n = length d -> ReadFull n (d ++ r) = Ret (d, r).
Proof. intros ->; apply ReadFull_app. Qed.

Lemma ReadFull_Ret n r d r' : ReadFull n r = Ret (d, r') -> r = d ++ r' /\ length d = n.
Proof.
  unfold ReadFull. case_if; [|by destruct r].
  intros [= <- <-]. apply Nat.leb_le in Heqb.
  split; [by rewrite take_drop|]. rewrite length_take; lia.
Qed.

(** ** Time

    A [time.Time] is the number of nanoseconds since Go's zero time, so that
    [time.Time{}] is [0]; a [time.Duration] is an [int64] of nanoseconds. *)

Definition time := Z.
Definition duration := Z.

Definition zero_time : time := 0.
Definition IsZero (t : time) : bool := t =? 0.
Definition After (t u : time) : bool := u <? t.
Definition Before (t u : time) : bool := t <? u.
Definition Add (t : time) (d : duration) : time := t + d.

Definition MaxInt64 : Z := 2 ^ 63 - 1.
Definition MinInt64 : Z := - 2 ^ 63.

(** [Time.Sub] saturates at the largest and smallest duration. *)
Definition Sub (t u : time) : duration :=
  if t - u <? MinInt64 then MinInt64
  else if MaxInt64 <? t - u then MaxInt64
  else t - u.

Definition Nanosecond : duration := 1.
Definition Microsecond : duration := 1000 * Nanosecond.
Definition Millisecond : duration := 1000 * Microsecond.
Definition Second : duration := 1000 * Millisecond.

Lemma Sub_range t u : is_int64 (Sub t u).
Proof. unfold Sub, is_int64, MinInt64, MaxInt64. case_ifs; zbool; lia. Qed.

Lemma Sub_pos t u : u < t -> 0 < Sub t u.
Proof. unfold Sub, MinInt64, MaxInt64. case_ifs; zbool; lia. Qed.

#[export] Hint Resolve Sub_range : go.

(** ** Record update

    [r <| f := v |>] is [r] with the field [f] replaced.  The setter is
    computed from the record's eta-expansion, given once per record. *)

Class Eta (R : Type) : Type := eta : R -> R.
Class Setter {R F : Type} (proj : R -> F) : Type := over : (F -> F) -> R -> R.
#[global] Hint Mode Setter - - + : typeclass_instances.

Ltac derive_setter :=
  match goal with
  | |- @Setter ?R ?F ?proj =>
      let e := constr:(_ : Eta R) in
      let e' := eval hnf in e in
      match eval pattern proj in e' with
      | ?g _ => exact (fun f => g (fun r => f (proj r)))
      end
  end.

#[export] Hint Extern 0 (@Setter _ _ _) => derive_setter : typeclass_instances.

Notation "r <| p := v |>" := (over (proj := p) (fun _ => v) r)
  (at level 12, left associativity, p at level 11, v at level 200,
   format "r  <| p  :=  v |>").

(** ** Lists *)

(** The sum of a measure over a list. *)
Definition sumZ {A} (f : A -> Z) (l : list A) : Z := foldr (fun a s => f a + s) 0 l.

Lemma sumZ_app {A} (f : A -> Z) l1 l2 : sumZ f (l1 ++ l2) = sumZ f l1 + sumZ f l2.
Proof. induction l1; simpl; [done|]. rewrite IHl1. lia. Qed.

Lemma sumZ_nonneg {A} (f : A -> Z) l : (forall a, a ∈ l -> 0 <= f a) -> 0 <= sumZ f l.
Proof.
  induction l as [|a l IH]; simpl; intros H; [lia|].
  assert (0 <= f a) by (apply H; set_solver).
  assert (0 <= sumZ f l) by (apply IH; set_solver). lia.
Qed.

(** ** Finite maps *)

(** The sum of a measure over the values of a map. *)
Definition map_sum {A} (f : A -> Z) (m : gmap Z A) : Z := map_fold (fun _ a acc => f a + acc) 0 m.

Lemma map_sum_insert {A} (f : A -> Z) m k a :
  m !! k = None -> map_sum f (<[k := a]> m) = f a + map_sum f m.
Proof.
  intros Hm. unfold map_sum. rewrite map_fold_insert_L; [done| |done]. intros. lia.
Qed.

Lemma map_sum_delete {A} (f : A -> Z) m k a :
  m !! k = Some a -> map_sum f m = f a + map_sum f (delete k m).
Proof.
  intros Hm. rewrite <- (insert_id m k a Hm) at 1. rewrite <- insert_delete_eq.
  apply map_sum_insert, lookup_delete_eq.
Qed.

Lemma map_sum_update {A} (f : A -> Z) m k a a' :
  m !! k = Some a -> map_sum f (<[k := a']> m) = map_sum f m + f a' - f a.
Proof.
  intros Hm. rewrite (map_sum_delete f m k a Hm), <- insert_delete_eq.
  rewrite map_sum_insert by apply lookup_delete_eq. lia.
Qed.

Lemma map_sum_nonneg {A} (f : A -> Z) m : map_Forall (fun _ a => 0 <= f a) m -> 0 <= map_sum f m.
Proof.
  induction m as [|k a m Hm IH] using map_ind; [done|]. intros Hf.
  rewrite map_sum_insert by done. apply map_Forall_insert in Hf as [? ?]; [|done].
  specialize (IH ltac:(done)). lia.
Qed.

Lemma map_sum_member {A} (f : A -> Z) m k a :
  map_Forall (fun _ a => 0 <= f a) m -> m !! k = Some a -> f a <= map_sum f m.
Proof.
  intros Hf Hm. rewrite (map_sum_delete f m k a Hm).
  assert (0 <= map_sum f (delete k m)); [|lia].
  apply map_sum_nonneg. intros j b Hj. apply lookup_delete_Some in Hj as [_ Hj]. by apply (Hf j).
Qed.

Lemma map_sum_le {A} (f g : A -> Z) m :
  map_Forall (fun _ a => f a <= g a) m -> map_sum f m <= map_sum g m.
Proof.
  induction m as [|k a m Hm IH] using map_ind; [done|]. intros Hf.
  rewrite !map_sum_insert by done. apply map_Forall_insert in Hf as [? ?]; [|done].
  specialize (IH ltac:(done)). lia.
Qed.

(** ** Bytes and bit fields *)

(** A boolean property of a small range, decided by enumeration. *)
Lemma small_range_check (P : Z -> bool) n x :
  forallb P (seqZ 0 n) = true -> 0 <= x < n -> P x = true.
Proof.
  intros H Hx. rewrite forallb_forall in H. apply H.
  apply list_elem_of_In, elem_of_seqZ. lia.
Qed.

(** [small_cases H] proves a boolean equation about the variable bounded by
    [H : 0 <= x < n], for a closed [n], by evaluating every case. *)
Ltac small_cases H :=
  match type of H with
  | 0 <= ?x < ?n =>
      match goal with
      | |- ?P => 
          let Q := eval pattern x in P in
          match Q with
          | ?f x =>
              let t := constr:(small_range_check (fun y => bool_decide (f y)) n x) in
              apply (bool_decide_eq_true_1 (f x));
              exact (t ltac:(vm_compute; reflexivity) H)
          end
      end
  end.

Lemma shiftr_div x k : 0 <= k -> Z.shiftr x k = x / 2 ^ k.
Proof. intros; by apply Z.shiftr_div_pow2. Qed.

Lemma shiftl_mul x k : 0 <= k -> Z.shiftl x k = x * 2 ^ k.
Proof. intros; by apply Z.shiftl_mul_pow2. Qed.

(** One more base-256 digit of a quotient. *)
Lemma div_digit x k k' :
  0 <= k -> k' = k + 8 -> x / 2 ^ k = 256 * (x / 2 ^ k') + (x / 2 ^ k) mod 2 ^ 8.
Proof.
  intros Hk ->. rewrite Z.pow_add_r, <- Z.div_div by lia.
  rewrite (Z.div_mod (x / 2 ^ k) (2 ^ 8)) at 1 by lia. lia.
Qed.
