(* ===== verification/GoFloat.v ===== *)
(** * Floating point (Go's float64 and float32)

    IEEE 754 arithmetic through the Standard Library's executable
    specification [SpecFloat]: binary64 for [float64], binary32 for [float32],
    rounding to nearest even.  A conversion from a float to an integer
    truncates towards zero; when the value does not fit in the integer type
    the Go specification leaves the result to the implementation, so it is a
    parameter here. *)

From Stdlib Require Import Floats.SpecFloat.
From S2P Require Import Prelude.

Definition float := spec_float.

(** ** float64 *)

Definition prec64 : Z := 53.
Definition emax64 : Z := 1024.

(** [float64(x)] for an integer [x]. *)
Definition float64 (x : Z) : float := binary_normalize prec64 emax64 x 0 false.

Definition fmul64 (x y : float) : float := SFmul prec64 emax64 x y.
Definition fadd64 (x y : float) : float := SFadd prec64 emax64 x y.
Definition fsub64 (x y : float) : float := SFsub prec64 emax64 x y.
Definition fdiv64 (x y : float) : float := SFdiv prec64 emax64 x y.

(** A constant [m / d], rounded once, as the Go compiler rounds an untyped
    constant. *)
Definition fconst64 (m d : Z) : float := fdiv64 (float64 m) (float64 d).

(** ** float32 *)

Definition prec32 : Z := 24.
Definition emax32 : Z := 128.

Definition float32 (x : Z) : float := binary_normalize prec32 emax32 x 0 false.
Definition fmul32 (x y : float) : float := SFmul prec32 emax32 x y.
Definition fadd32 (x y : float) : float := SFadd prec32 emax32 x y.
Definition fsub32 (x y : float) : float := SFsub prec32 emax32 x y.
Definition fdiv32 (x y : float) : float := SFdiv prec32 emax32 x y.
Definition fconst32 (m d : Z) : float := fdiv32 (float32 m) (float32 d).

(** ** Comparisons *)

Definition flt (x y : float) : bool := SFltb x y.
Definition fle (x y : float) : bool := SFleb x y.
Definition feq (x y : float) : bool := SFeqb x y.

(** [math.Ceil]: a finite value with a fraction is below 2^53, so that its
    ceiling is representable. *)
Definition fceil (x : float) : float :=
  match x with
  | S754_finite s m e =>
      if 0 <=? e then x
      else if s then
        let z := Zpos m / 2 ^ (- e) in
        if z =? 0 then S754_zero true else binary_normalize prec64 emax64 (- z) 0 true
      else binary_normalize prec64 emax64 ((Zpos m + 2 ^ (- e) - 1) / 2 ^ (- e)) 0 false
  | _ => x
  end.

(** ** Conversions to integers *)

(** The integer part of a finite float. *)
Definition ftrunc (x : float) : option Z :=
  match x with
  | S754_zero _ => Some 0
  | S754_finite s m e =>
      let a := if 0 <=? e then Zpos m * 2 ^ e else Zpos m / 2 ^ (- e) in
      Some (if s then - a else a)
  | S754_infinity _ | S754_nan => None
  end.

(** What an implementation does with a value that does not fit. *)
Class FloatConv : Type := {
  to_int64_overflow : float -> Z;
  to_uint64_overflow : float -> Z;
  to_int64_overflow_range : forall x, is_int64 (to_int64_overflow x);
  to_uint64_overflow_range : forall x, is_uint64 (to_uint64_overflow x)
}.

(** [int64(x)] (and [time.Duration(x)]) and [uint64(x)] for a float [x]. *)
Definition f2int64 `{FloatConv} (x : float) : Z :=
  match ftrunc x with
  | Some z => if (MinInt64 <=? z) && (z <=? MaxInt64) then z else to_int64_overflow x
  | None => to_int64_overflow x
  end.

Definition f2uint64 `{FloatConv} (x : float) : Z :=
  match ftrunc x with
  | Some z => if (0 <=? z) && (z <? 2 ^ 64) then z else to_uint64_overflow x
  | None => to_uint64_overflow x
  end.

(** The conversions of the amd64 port: [CVTTSD2SQ] gives the smallest [int64]
    for every value it cannot represent; the unsigned conversion uses it on
    the value, or on the value less [2^63] with the top bit flipped. *)
Definition cvttsd2sq (z : option Z) : Z :=
  match z with
  | Some z => if (MinInt64 <=? z) && (z <=? MaxInt64) then z else MinInt64
  | None => MinInt64
  end.

Definition amd64_uint64 (x : float) : Z :=
  if flt x (float64 (2 ^ 63)) then uint64 (cvttsd2sq (ftrunc x))
  else uint64 (Z.lxor (cvttsd2sq (ftrunc (fsub64 x (float64 (2 ^ 63))))) (2 ^ 63)).

Lemma cvttsd2sq_range z : is_int64 (cvttsd2sq z).
Proof.
  unfold cvttsd2sq, is_int64, MinInt64, MaxInt64. destruct z; [|lia].
  case_if; zbool; lia.
Qed.

Lemma amd64_uint64_range x : is_uint64 (amd64_uint64 x).
Proof. unfold amd64_uint64. case_if; apply uint64_range. Qed.

Definition amd64 : FloatConv := {|
  to_int64_overflow x := cvttsd2sq (ftrunc x);
  to_uint64_overflow x := amd64_uint64 x;
  to_int64_overflow_range x := cvttsd2sq_range (ftrunc x);
  to_uint64_overflow_range x := amd64_uint64_range x
|}.

Section Conversions.
Context `{FloatConv}.

Lemma f2int64_range x : is_int64 (f2int64 x).
Proof.
  unfold f2int64. pose proof (to_int64_overflow_range x). destruct (ftrunc x); [|done].
  case_if; [|done]. unfold is_int64, MinInt64, MaxInt64 in *. zbool. lia.
Qed.

Lemma f2uint64_range x : is_uint64 (f2uint64 x).
Proof.
  unfold f2uint64. pose proof (to_uint64_overflow_range x). destruct (ftrunc x); [|done].
  case_if; [|done]. unfold is_uint64 in *. zbool. lia.
Qed.

End Conversions.

#[export] Hint Resolve f2int64_range f2uint64_range : go.

(** ** Exact products

    A product of an integer and a constant that needs at most 53 bits is
    computed without rounding, so that its truncation is the integer division
    of the exact product. *)

Lemma digits2_pos_bounds p : 2 ^ (Zpos (digits2_pos p) - 1) <= Zpos p < 2 ^ Zpos (digits2_pos p).
Proof.
  induction p as [p IH|p IH|]; cbn [digits2_pos]; [| |done];
    rewrite Pos2Z.inj_succ, Z.sub_1_r, Z.pred_succ, Z.pow_succ_r by lia;
    replace (Zpos (digits2_pos p)) with (Z.succ (Zpos (digits2_pos p) - 1)) at 1 by lia;
    rewrite Z.pow_succ_r by lia; lia.
Qed.

Lemma digits_le p n : 0 <= n -> Zpos p < 2 ^ n -> Zpos (digits2_pos p) <= n.
Proof.
  intros Hn Hp. pose proof (digits2_pos_bounds p) as [Hl _].
  assert (2 ^ (Zpos (digits2_pos p) - 1) < 2 ^ n) as Hlt by lia.
  apply Z.pow_lt_mono_r_iff in Hlt; lia.
Qed.

Lemma shr_1_even k : 0 <= k -> shr_1 (Build_shr_record (2 * k) false false) = Build_shr_record k false false.
Proof. intros Hk. destruct k; done || lia. Qed.

Lemma iter_shr_exact p k :
  0 <= k ->
  SpecFloat.iter_pos shr_1 p (Build_shr_record (k * 2 ^ Zpos p) false false) = Build_shr_record k false false.
Proof.
  revert k. induction p as [p IH|p IH|]; intros k Hk; cbn [SpecFloat.iter_pos].
  - rewrite Pos2Z.inj_xI, Z.pow_add_r, Z.pow_1_r by lia.
    replace (k * (2 ^ (2 * Zpos p) * 2)) with (2 * (k * 2 ^ (2 * Zpos p))) by lia.
    rewrite shr_1_even by (apply Z.mul_nonneg_nonneg; lia).
    replace (2 * Zpos p) with (Zpos p + Zpos p) by lia. rewrite Z.pow_add_r, Z.mul_assoc by lia.
    rewrite !IH by (try apply Z.mul_nonneg_nonneg; lia). done.
  - rewrite (Pos2Z.inj_xO p). replace (2 * Zpos p) with (Zpos p + Zpos p) by lia.
    rewrite Z.pow_add_r, Z.mul_assoc by lia. rewrite !IH by (try apply Z.mul_nonneg_nonneg; lia). done.
  - rewrite Z.mul_comm. by apply shr_1_even.
Qed.

(** Rounding an integer of at most 53 significant bits does nothing. *)
Lemma round_aux_exact s m e k n :
  0 < k < 2 ^ 53 -> 0 <= n -> m = k * 2 ^ n -> -1000 <= e -> e + n <= 900 ->
  exists p e', binary_round_aux prec64 emax64 s m e loc_Exact = S754_finite s p e' /\
    e <= e' /\ m = Zpos p * 2 ^ (e' - e).
Proof.
  intros Hk Hn Hm He Hen. assert (0 < m) as Hpos by (subst m; apply Z.mul_pos_pos; lia).
  destruct m as [|pm|pm]; [lia| |lia].
  pose proof (digits2_pos_bounds pm) as [Hdl Hdu]. set (d := Zpos (digits2_pos pm)) in *.
  assert (Hdn : d <= 53 + n).
  { apply digits_le; [lia|]. rewrite Hm, Z.pow_add_r by lia. apply Z.mul_lt_mono_pos_r; lia. }
  unfold binary_round_aux, shr_fexp, SpecFloat.fexp, emin. cbn [Zdigits2]. fold d.
  replace (Z.max (d + e - prec64) (3 - emax64 - prec64) - e) with (Z.max (d - 53) (-1074 - e))
    by (unfold prec64, emax64; lia).
  destruct (Z.max (d - 53) (-1074 - e)) as [|q|q] eqn:Hq.
  1,3: exists pm, e; cbn [shr shr_record_of_loc shr_m loc_of_shr_record round_nearest_even Zdigits2]; fold d;
    replace (Z.max (d + e - prec64) (3 - emax64 - prec64) - e) with (Z.max (d - 53) (-1074 - e))
      by (unfold prec64, emax64; lia); rewrite Hq; cbn [shr shr_m shr_record_of_loc];
    rewrite (proj2 (Z.leb_le _ _)) by (unfold prec64, emax64; lia);
    (split_and!; [done|lia|rewrite Z.sub_diag; lia]).
  assert (Hqd : Zpos q = d - 53) by lia.
  assert (Hc : exists c, Zpos pm = Zpos c * 2 ^ Zpos q).
  { exists (Z.to_pos (k * 2 ^ (n - Zpos q))). rewrite Z2Pos.id by (apply Z.mul_pos_pos; lia).
    rewrite <- Z.mul_assoc, <- Z.pow_add_r by lia. by replace (n - Zpos q + Zpos q) with n by lia. }
  destruct Hc as [c Hc]. cbn [shr shr_record_of_loc]. rewrite Hc, iter_shr_exact by lia.
  cbn [shr_m loc_of_shr_record round_nearest_even Zdigits2 shr_record_of_loc].
  assert (Hdc : Zpos (digits2_pos c) <= 53).
  { apply digits_le; [lia|]. replace d with (53 + Zpos q) in Hdu by lia.
    rewrite Hc, Z.pow_add_r in Hdu by lia. by apply Z.mul_lt_mono_pos_r in Hdu; [|lia]. }
  replace (Z.max (Zpos (digits2_pos c) + (e + Zpos q) - prec64) (3 - emax64 - prec64) - (e + Zpos q))
    with (Z.max (Zpos (digits2_pos c) - 53) (-1074 - e - Zpos q)) by (unfold prec64, emax64; lia).
  exists c, (e + Zpos q).
  destruct (Z.max (Zpos (digits2_pos c) - 53) (-1074 - e - Zpos q)) as [|z|z] eqn:Hz; [|lia|];
    cbn [shr shr_m]; rewrite (proj2 (Z.leb_le _ _)) by (unfold prec64, emax64; lia);
    (split_and!; [done|lia|by replace (e + Zpos q - e) with (Zpos q) by lia]).
Qed.

Lemma iter_xO p q : Zpos (Pos.iter xO p q) = Zpos p * 2 ^ Zpos q.
Proof.
  induction q as [|q IH] using Pos.peano_ind; [cbn; lia|].
  rewrite Pos.iter_succ, Pos2Z.inj_succ, Z.pow_succ_r, Pos2Z.inj_xO, IH by lia. lia.
Qed.

(** An integer below 2^53 is converted exactly: the value [p * 2^e] is [x]. *)
Lemma float64_exact x :
  0 < x < 2 ^ 53 ->
  exists p e, float64 x = S754_finite false p e /\ -60 <= e <= 60 /\ Zpos p * 2 ^ (e + 60) = x * 2 ^ 60.
Proof.
  intros Hx. destruct x as [|px|px]; [lia| |lia]. unfold float64, binary_normalize, binary_round.
  pose proof (digits2_pos_bounds px) as [Hdl Hdu]. pose proof (digits_le px 53 ltac:(lia) ltac:(lia)) as Hd.
  set (d := Zpos (digits2_pos px)) in *.
  replace (SpecFloat.fexp prec64 emax64 (d + 0)) with (d - 53)
    by (unfold SpecFloat.fexp, emin, prec64, emax64; lia).
  assert (G : forall mz ez, -53 <= ez <= 0 -> Zpos mz = Zpos px * 2 ^ (- ez) -> Zpos mz < 2 ^ 53 ->
    exists p e, binary_round_aux prec64 emax64 false (Zpos mz) ez loc_Exact = S754_finite false p e /\
      -60 <= e <= 60 /\ Zpos p * 2 ^ (e + 60) = Zpos px * 2 ^ 60).
  { intros mz ez Hez Hmz Hlt.
    destruct (round_aux_exact false (Zpos mz) ez (Zpos mz) 0) as (p & e & E & He & Hv); try lia.
    assert (Hval : Zpos p * 2 ^ (e + 60) = Zpos px * 2 ^ 60).
    { replace (e + 60) with ((e - ez) + (ez + 60)) by lia. rewrite Z.pow_add_r, Z.mul_assoc, <- Hv, Hmz by lia.
      rewrite <- Z.mul_assoc, <- Z.pow_add_r by lia. by replace (- ez + (ez + 60)) with 60 by lia. }
    exists p, e. split_and!; [done|lia| |done].
    destruct (Z.le_gt_cases e 60); [done|]. assert (2 ^ 120 <= 2 ^ (e + 60)) by (apply Z.pow_le_mono_r; lia). nia. }
  unfold shl_align. rewrite Z.sub_0_r. destruct (d - 53) as [|q|q] eqn:Hq; [apply G; lia|lia|].
  apply G; [lia|by rewrite iter_xO|]. rewrite iter_xO. replace 53 with (d + Zpos q) by lia.
  rewrite Z.pow_add_r by lia. apply Z.mul_lt_mono_pos_r; lia.
Qed.

Lemma trunc_scaled P E M N k :
  P * 2 ^ (E + N) = M * 2 ^ (N - k) -> 0 <= k <= N -> - N <= E ->
  (if 0 <=? E then P * 2 ^ E else P / 2 ^ (- E)) = M / 2 ^ k.
Proof.
  intros Hv Hk HE. rewrite <- (Z.div_mul_cancel_r M (2 ^ k) (2 ^ (N - k))) by lia.
  rewrite <- Hv, <- (Z.pow_add_r 2 k) by lia. replace (k + (N - k)) with N by lia.
  destruct (Z.leb_spec 0 E).
  - rewrite Z.pow_add_r, Z.mul_assoc by lia. by rewrite Z.div_mul by lia.
  - replace N with (- E + (E + N)) at 2 by lia. rewrite (Z.pow_add_r 2 (- E)) by lia.
    by rewrite Z.div_mul_cancel_r by lia.
Qed.

(** [c / 2^k] as a float: the constants [1.25], [0.75], ... *)
Definition dyadic (y : float) (c k : Z) : Prop :=
  exists m j, y = S754_finite false m (- k - j) /\ Zpos m = c * 2 ^ j /\ 0 <= j <= 60 /\ 0 <= k <= 60 /\ 0 < c.

Lemma fmul64_trunc x y c k :
  dyadic y c k -> 0 <= x -> x * c < 2 ^ 53 -> ftrunc (fmul64 (float64 x) y) = Some (x * c / 2 ^ k).
Proof.
  intros (m & j & -> & Hm & Hj & Hk & Hc) Hx Hlt.
  destruct (Z.eq_dec x 0) as [->|Hne]; [done|].
  destruct (float64_exact x) as (p & e & -> & He & Hp); [nia|].
  assert (Hkn : exists k' n, 0 < k' < 2 ^ 53 /\ 0 <= n <= 120 /\ Zpos (p * m) = k' * 2 ^ n).
  { rewrite Pos2Z.inj_mul, Hm. destruct (Z.le_gt_cases e 0).
    - exists (x * c), (j - e). split_and!; [nia|lia|lia|lia|].
      assert (Zpos p = x * 2 ^ (- e)) as ->.
      { apply (Z.mul_reg_r _ _ (2 ^ (e + 60))); [lia|]. rewrite Hp, <- Z.mul_assoc, <- Z.pow_add_r by lia.
        by replace (- e + (e + 60)) with 60 by lia. }
      replace (j - e) with (j + - e) by lia. rewrite Z.pow_add_r by lia. lia.
    - exists (Zpos p * c), j. assert (Zpos p <= x).
      { rewrite Z.pow_add_r in Hp by lia. assert (Zpos p * 2 ^ e = x) by lia.
        assert (0 < 2 ^ e) by lia. nia. }
      split_and!; [lia|nia|lia|lia|lia]. }
  destruct Hkn as (k' & n & Hk' & Hn & Hpm).
  unfold fmul64, SFmul. cbn [xorb].
  destruct (round_aux_exact false (Zpos (p * m)) (e + (- k - j)) k' n) as (P & E & -> & HE & HP); try lia.
  cbn [ftrunc]. f_equal. apply (trunc_scaled _ _ _ 400); [|lia|lia].
  replace (E + 400) with ((E - (e + (- k - j))) + ((e + 60) + (340 - k - j))) by lia.
  rewrite Z.pow_add_r, Z.mul_assoc, <- HP, Pos2Z.inj_mul, Hm, (Z.pow_add_r 2 (e + 60)) by lia.
  replace (400 - k) with (60 + (j + (340 - k - j))) by lia.
  rewrite (Z.pow_add_r 2 60), (Z.pow_add_r 2 j) by lia.
  replace (Zpos p * (c * 2 ^ j) * (2 ^ (e + 60) * 2 ^ (340 - k - j)))
    with ((Zpos p * 2 ^ (e + 60)) * (c * 2 ^ j * 2 ^ (340 - k - j))) by lia.
  rewrite Hp. lia.
Qed.

Lemma fmul64_comm x y : fmul64 x y = fmul64 y x.
Proof.
  unfold fmul64, SFmul. destruct x, y; try done; try (by rewrite xorb_comm).
  by rewrite xorb_comm, Pos.mul_comm, Z.add_comm.
Qed.

Section ExactConversions.
Context `{FloatConv}.

Lemma f2uint64_mul x y c k :
  dyadic y c k -> 0 <= x -> x * c < 2 ^ 53 -> f2uint64 (fmul64 (float64 x) y) = x * c / 2 ^ k.
Proof.
  intros Hy Hx Hlt. unfold f2uint64. rewrite (fmul64_trunc x y c k Hy Hx Hlt).
  destruct Hy as (_ & _ & _ & _ & _ & Hk & Hc).
  assert (0 <= x * c / 2 ^ k <= x * c).
  { split; [apply Z.div_pos; lia|]. apply Z.div_le_upper_bound; [lia|]. assert (0 < 2 ^ k) by lia. nia. }
  rewrite (proj2 (Z.leb_le _ _)), (proj2 (Z.ltb_lt _ _)) by lia. done.
Qed.

Lemma f2int64_mul x y c k :
  dyadic y c k -> 0 <= x -> x * c < 2 ^ 53 -> f2int64 (fmul64 (float64 x) y) = x * c / 2 ^ k.
Proof.
  intros Hy Hx Hlt. unfold f2int64. rewrite (fmul64_trunc x y c k Hy Hx Hlt).
  destruct Hy as (_ & _ & _ & _ & _ & Hk & Hc).
  assert (0 <= x * c / 2 ^ k <= x * c).
  { split; [apply Z.div_pos; lia|]. apply Z.div_le_upper_bound; [lia|]. assert (0 < 2 ^ k) by lia. nia. }
  unfold MinInt64, MaxInt64. rewrite (proj2 (Z.leb_le _ _)), (proj2 (Z.leb_le _ _)) by lia. done.
Qed.

End ExactConversions.
