(* ===== verification/FloatBounds.v ===== *)
(** * Bounds on float32 arithmetic

    A result of [float32] is at most a little larger than the exact value.  Values are measured in units of 2^-300, below every
    exponent that occurs. *)

From Stdlib Require Import Floats.SpecFloat.
From S2P Require Import Prelude GoFloat.

(** A nonnegative finite float with at most 24 bits, and its value. *)
Definition finite32 (x : float) (v : Z) : Prop :=
  (x = S754_zero false /\ v = 0) \/
  exists p e, x = S754_finite false p e /\ Zpos p < 2 ^ 24 /\ -149 <= e <= 104 /\ v = Zpos p * 2 ^ (e + 300).

Lemma finite32_nonneg x v : finite32 x v -> 0 <= v.
Proof. intros [[_ ->]|(p & e & _ & _ & _ & ->)]; [done|apply Z.mul_nonneg_nonneg; lia]. Qed.

Lemma iter_shr_m p r : 0 <= shr_m r -> shr_m (SpecFloat.iter_pos shr_1 p r) = shr_m r / 2 ^ Zpos p.
Proof.
  assert (H1 : forall r, 0 <= shr_m r -> shr_m (shr_1 r) = shr_m r / 2).
  { intros [[|[q|q|]|q] ? ?]; cbn -[Z.div]; intros Hr; [done| | |done|lia].
    - rewrite (Pos2Z.inj_xI q). apply (Z.div_unique _ 2 (Zpos q) 1); lia.
    - rewrite (Pos2Z.inj_xO q). apply (Z.div_unique _ 2 (Zpos q) 0); lia. }
  revert r. induction p as [p IH|p IH|]; intros r Hr; cbn [SpecFloat.iter_pos].
  - rewrite IH, IH, H1 by (rewrite ?IH, ?H1 by (rewrite ?H1 by done; apply Z.div_pos; lia); repeat (apply Z.div_pos; [|lia]); done || (rewrite H1 by done; apply Z.div_pos; lia)).
    rewrite !Z.div_div by lia. f_equal. rewrite Pos2Z.inj_xI, Z.pow_add_r, Z.mul_comm, Z.pow_1_r by lia.
    replace (2 * Zpos p) with (Zpos p + Zpos p) by lia. rewrite Z.pow_add_r by lia. lia.
  - rewrite IH, IH by (rewrite ?IH by done; repeat (apply Z.div_pos; [|lia]); done). rewrite Z.div_div by lia. f_equal.
    rewrite (Pos2Z.inj_xO p). replace (2 * Zpos p) with (Zpos p + Zpos p) by lia. by rewrite Z.pow_add_r by lia.
  - by apply H1.
Qed.

Lemma round_nearest_bounds m l : m <= round_nearest_even m l <= m + 1.
Proof. unfold round_nearest_even. destruct l as [|[]]; [lia|case_if; lia|lia|lia]. Qed.

Lemma Zdigits2_bounds m : 0 <= m -> 0 <= Zdigits2 m /\ m < 2 ^ Zdigits2 m /\ (0 < m -> 2 ^ (Zdigits2 m - 1) <= m).
Proof.
  intros Hm. destruct m as [|p|p]; cbn; [split_and!; lia| |lia]. pose proof (digits2_pos_bounds p). split_and!; lia.
Qed.

Lemma fexp32 e : SpecFloat.fexp prec32 emax32 e = Z.max (e - 24) (-149).
Proof. done. Qed.

(** The last step: the rounded mantissa has at most 24 bits, or is 2^24. *)
Lemma round_finish m e :
  0 <= m <= 2 ^ 24 -> -149 <= e -> m * 2 ^ (e + 300) < 2 ^ 400 ->
  exists r, (let '(mrs, e') := shr_fexp prec32 emax32 m e loc_Exact in
    match shr_m mrs with
    | Z0 => S754_zero false
    | Zpos m => if e' <=? emax32 - prec32 then S754_finite false m e' else S754_infinity false
    | Zneg _ => S754_nan
    end) = r /\ finite32 r (m * 2 ^ (e + 300)).
Proof.
  intros Hm He Hb. eexists. split; [reflexivity|]. unfold shr_fexp. rewrite fexp32. destruct m as [|p|p]; [| |lia].
  { cbn [Zdigits2]. destruct (Z.max (0 + e - 24) (-149) - e) as [|q|q] eqn:E; [|lia|]; cbn; by left. }
  assert (Hx : Zpos p < 2 ^ 24 \/ Zpos p = 2 ^ 24) by lia. cbn [Zdigits2]. right.
  assert (He100 : e < 100).
  { destruct (Z.lt_ge_cases e 100) as [|Hge]; [done|]. assert (2 ^ 400 <= 2 ^ (e + 300)) by (apply Z.pow_le_mono_r; lia). nia. }
  destruct Hx as [Hx|Hx].
  - pose proof (digits_le p 24 ltac:(lia) Hx) as Hd.
    assert (Hs : Z.max (Zpos (digits2_pos p) + e - 24) (-149) - e <= 0) by lia.
    exists p, e. destruct (Z.max (Zpos (digits2_pos p) + e - 24) (-149) - e); [|lia|]; cbn [shr shr_record_of_loc shr_m];
      rewrite (proj2 (Z.leb_le _ _)) by (unfold emax32, prec32; lia); split_and!; done || lia.
  - assert (p = Z.to_pos (2 ^ 24)) as -> by (rewrite <- Hx; done). change (Z.to_pos (2 ^ 24)) with 16777216%positive in *. change (digits2_pos 16777216) with 25%positive.
    exists 8388608%positive, (e + 1). replace (Z.max (25 + e - 24) (-149) - e) with 1 by lia. cbn [shr shr_record_of_loc SpecFloat.iter_pos shr_1 shr_m].
    rewrite (proj2 (Z.leb_le _ _)) by (unfold emax32, prec32; lia). split_and!; [done|done|lia|lia|].
    replace (e + 1 + 300) with (1 + (e + 300)) by lia. rewrite (Z.pow_add_r 2 1) by lia. ring.
Qed.

Lemma shr_spec m l e k :
  0 <= m -> exists r l', shr (shr_record_of_loc m l) e k = (r, e + Z.max 0 k) /\ loc_of_shr_record r = l' /\
    shr_m r = m / 2 ^ Z.max 0 k /\ (k <= 0 -> l' = l).
Proof.
  intros Hm. assert (Hr : shr_m (shr_record_of_loc m l) = m) by (by destruct l as [|[]]).
  assert (Hl : loc_of_shr_record (shr_record_of_loc m l) = l) by (by destruct l as [|[]]).
  destruct k as [|q|q]; cbn [shr]; do 2 eexists.
  - cbn [Z.max Z.compare]. rewrite Z.add_0_r, Z.pow_0_r, Z.div_1_r. split_and!; done.
  - split_and!; [done|done| |lia]. by rewrite iter_shr_m, Hr by (by rewrite Hr).
  - cbn [Z.max Z.compare]. rewrite Z.add_0_r, Z.pow_0_r, Z.div_1_r. split_and!; done.
Qed.

(** A unit in the last place, when bits are shifted out, is a 2^23rd part of the value or the smallest one. *)
Lemma ulp_bound m e k :
  0 <= m -> -300 <= e -> k = Z.max (Zdigits2 m + e - 24) (-149) - e -> 0 < k -> 2 ^ (e + k + 300) * 2 ^ 23 <= m * 2 ^ (e + 300) + 2 ^ 174.
Proof.
  intros Hm He -> Hk. destruct (Zdigits2_bounds m Hm) as (Hd0 & Hdu & Hdl). set (d := Zdigits2 m) in *.
  assert (Hm0 : 0 <= m * 2 ^ (e + 300)) by (apply Z.mul_nonneg_nonneg; lia).
  replace (e + (Z.max (d + e - 24) (-149) - e) + 300) with (Z.max (d + e - 24) (-149) + 300) by lia.
  destruct (Z.max_spec (d + e - 24) (-149)) as [[_ ->]|[Hge ->]]; [change (2 ^ (-149 + 300) * 2 ^ 23) with (2 ^ 174); lia|].
  rewrite <- Z.pow_add_r by lia. replace (d + e - 24 + 300 + 23) with ((d - 1) + (e + 300)) by lia.
  assert (0 < m) by (destruct (Z.eq_dec m 0) as [->|]; [by cbn in d; lia|lia]). assert (0 < d) by (destruct (Z.eq_dec d 0) as [E|]; [rewrite E in Hdu; lia|lia]).
  rewrite Z.pow_add_r by lia. assert (2 ^ (d - 1) * 2 ^ (e + 300) <= m * 2 ^ (e + 300)) by (apply Z.mul_le_mono_nonneg_r; lia). lia.
Qed.

(** Rounding changes a value by at most a 2^23rd part, or by a unit in the last place of the mantissa or of the smallest exponent. *)
Lemma round_bounds m e l :
  0 <= m -> -300 <= e -> m * 2 ^ (e + 300) < 2 ^ 398 -> 2 ^ (e + 300) < 2 ^ 398 ->
  exists v, finite32 (binary_round_aux prec32 emax32 false m e l) v /\
    m * 2 ^ (e + 300) * 2 ^ 23 - m * 2 ^ (e + 300) - 2 ^ 174 <= v * 2 ^ 23 /\
    v * 2 ^ 23 <= m * 2 ^ (e + 300) * 2 ^ 23 + m * 2 ^ (e + 300) + 2 ^ 174 + (if l then 0 else 2 ^ (e + 300) * 2 ^ 23).
Proof.
  intros Hm He Hb He398. unfold binary_round_aux. unfold shr_fexp at 1. rewrite fexp32.
  destruct (Zdigits2_bounds m Hm) as (Hd0 & Hdu & _). pose proof (ulp_bound m e _ Hm He eq_refl) as Hulp.
  set (d := Zdigits2 m) in *. set (k := Z.max (d + e - 24) (-149) - e) in *.
  destruct (shr_spec m l e k Hm) as (r & l' & -> & -> & -> & Hl). set (j := Z.max 0 k). set (p := round_nearest_even (m / 2 ^ j) l').
  pose proof (round_nearest_bounds (m / 2 ^ j) l') as Hp. fold p in Hp.
  assert (Hj : 0 <= j) by lia. assert (H2j : 0 < 2 ^ j) by lia. pose proof (Z.div_mod m (2 ^ j) ltac:(lia)) as Hdm. pose proof (Z.mod_pos_bound m (2 ^ j) H2j) as Hmod.
  pose proof (Z.div_pos m (2 ^ j) Hm H2j) as Hq0. assert (H300 : 0 < 2 ^ (e + 300)) by lia.
  assert (Hq : m / 2 ^ j < 2 ^ 24).
  { apply Z.div_lt_upper_bound; [done|]. rewrite <- Z.pow_add_r by lia. eapply Z.lt_le_trans; [exact Hdu|]. apply Z.pow_le_mono_r; lia. }
  assert (Hm0 : 0 <= m * 2 ^ (e + 300)) by (apply Z.mul_nonneg_nonneg; lia).
  assert (Hsplit : 2 ^ (e + j + 300) = 2 ^ j * 2 ^ (e + 300)) by (rewrite <- Z.pow_add_r by lia; f_equal; lia).
  assert (Hlow : m * 2 ^ (e + 300) - 2 ^ (e + j + 300) < m / 2 ^ j * 2 ^ (e + j + 300) <= m * 2 ^ (e + 300)) by (rewrite Hsplit; nia).
  set (B := 2 ^ (e + j + 300)) in *. set (V := m * 2 ^ (e + 300)) in *.
  assert (HpB : V * 2 ^ 23 - V - 2 ^ 174 <= p * B * 2 ^ 23 /\ p * B * 2 ^ 23 <= V * 2 ^ 23 + V + 2 ^ 174 + (if l then 0 else 2 ^ (e + 300) * 2 ^ 23)).
  { assert (HB : 0 < B) by (unfold B; lia). assert (Hmono : m / 2 ^ j * B <= p * B <= m / 2 ^ j * B + B) by nia.
    destruct (Z.le_gt_cases k 0) as [Hk|Hk].
    - assert (j = 0) as Ej by lia. assert (HeqV : m / 2 ^ j * B = V) by (unfold B, V; rewrite Ej, Z.pow_0_r, Z.div_1_r, Z.add_0_r; done).
      assert (HB' : B = 2 ^ (e + 300)) by (unfold B; by rewrite Ej, Z.add_0_r). destruct l; [|lia].
      assert (p = m / 2 ^ j) as -> by (unfold p; by rewrite (Hl Hk)). lia.
    - specialize (Hulp Hk). assert (k = j) as Ek by lia. rewrite Ek in Hulp. fold B in Hulp. destruct l; lia. }
  destruct (round_finish p (e + j)) as (f & Ef & Hf); [lia|lia|fold B; destruct l; lia|]. fold B in Hf. exists (p * B). rewrite <- Ef in Hf. split; [exact Hf|exact HpB].
Qed.

(** ** The operations *)

Lemma float32_bounds x :
  0 <= x < 2 ^ 64 -> exists v, finite32 (float32 x) v /\
    x * 2 ^ 300 * 2 ^ 23 - x * 2 ^ 300 - 2 ^ 174 <= v * 2 ^ 23 /\ v * 2 ^ 23 <= x * 2 ^ 300 * 2 ^ 23 + x * 2 ^ 300 + 2 ^ 174.
Proof.
  intros Hx. destruct x as [|p|p]; [|clear -Hx|lia].
  { exists 0. split_and!; [by left|lia|lia]. }
  unfold float32, binary_normalize, binary_round. rewrite fexp32. unfold shl_align.
  pose proof (digits2_pos_bounds p) as Hd. pose proof (digits_le p 64 ltac:(lia) ltac:(lia)) as Hd64. rewrite !Z.add_0_r, Z.sub_0_r.
  destruct (Z.max (Zpos (digits2_pos p) - 24) (-149)) as [|q|q] eqn:Eq.
  1,2: destruct (round_bounds (Zpos p) 0 loc_Exact) as (v & Hv & Hl & Hu); [lia|lia|lia|lia|]; exists v; split_and!; [exact Hv|lia|lia].
  assert (Hq : 2 ^ Zpos q * 2 ^ (Zneg q + 300) = 2 ^ 300) by (rewrite <- Z.pow_add_r by lia; f_equal; lia).
  rewrite iter_xO. destruct (round_bounds (Zpos p * 2 ^ Zpos q) (Zneg q) loc_Exact) as (v & Hv & Hl & Hu).
  - lia.
  - lia.
  - rewrite <- Z.mul_assoc, Hq. lia.
  - apply Z.pow_lt_mono_r; lia.
  - rewrite <- (Z.mul_assoc (Zpos p)), Hq in Hl, Hu. exists v. split_and!; [exact Hv|lia|lia].
Qed.

Lemma fmul32_bounds x y v w :
  finite32 x v -> finite32 y w -> v * w < 2 ^ 690 -> exists u, finite32 (fmul32 x y) u /\
    v * w * 2 ^ 23 - v * w - 2 ^ 474 <= u * 2 ^ 323 /\ u * 2 ^ 323 <= v * w * 2 ^ 23 + v * w + 2 ^ 474.
Proof.
  intros Hx Hy Hvw. destruct Hx as [[-> ->]|(p & e & -> & Hp & He & ->)].
  { exists 0. split; [|lia]. destruct Hy as [[-> _]|(p & e & -> & _)]; by left. }
  destruct Hy as [[-> ->]|(q & f & -> & Hq & Hf & ->)]; [exists 0; split; [by left|lia]|].
  assert (HV : Zpos p * 2 ^ (e + 300) * (Zpos q * 2 ^ (f + 300)) = Zpos (p * q) * 2 ^ (e + f + 300) * 2 ^ 300).
  { assert (Hpow : 2 ^ (e + 300) * 2 ^ (f + 300) = 2 ^ (e + f + 300) * 2 ^ 300) by (rewrite <- !Z.pow_add_r by lia; f_equal; lia).
    rewrite Pos2Z.inj_mul, <- (Z.mul_assoc _ _ (2 ^ 300)), <- Hpow. ring. }
  rewrite HV in *. unfold fmul32, SFmul. cbn [xorb].
  assert (Hlt : Zpos (p * q) * 2 ^ (e + f + 300) < 2 ^ 390) by lia.
  destruct (round_bounds (Zpos (p * q)) (e + f) loc_Exact) as (u & Hu & Hl & Hr); [lia|lia|lia|nia|]. exists u. split; [exact Hu|lia].
Qed.

(** A quotient by a value of at least 1, in units of 2^-300. *)
Lemma div_core_bounds p e q f m e' l :
  SFdiv_core_binary prec32 emax32 (Zpos p) e (Zpos q) f = (m, e', l) -> -149 <= e <= 104 -> -149 <= f <= 104 ->
  let v := Zpos p * 2 ^ (e + 300) in let w := Zpos q * 2 ^ (f + 300) in
  0 <= m /\ -300 <= e' /\ m * 2 ^ (e' + 300) * w <= v * 2 ^ 300 /\ 2 ^ (e' + 300) * 2 ^ 23 * w <= v * 2 ^ 300 + 2 ^ 174 * w.
Proof.
  intros E He Hf v w. unfold SFdiv_core_binary in E. rewrite fexp32 in E. cbn [Zdigits2] in E.
  pose proof (digits2_pos_bounds p) as Hd1. pose proof (digits2_pos_bounds q) as Hd2.
  set (d1 := Zpos (digits2_pos p)) in *. set (d2 := Zpos (digits2_pos q)) in *.
  set (e2 := Z.min (Z.max (d1 + e - (d2 + f) - 24) (-149)) (e - f)) in *. set (s := e - f - e2) in *.
  assert (Hs : match s with Z0 => Zpos p | Zpos _ => Z.shiftl (Zpos p) s | Zneg _ => 0 end = Zpos p * 2 ^ s).
  { assert (0 <= s) by lia. rewrite <- Z.shiftl_mul_pow2 by done. destruct s; [by rewrite Z.shiftl_0_r|done|lia]. }
  rewrite Hs in E. destruct (Z.div_eucl (Zpos p * 2 ^ s) (Zpos q)) as [m0 r0] eqn:Ed. injection E as <- <- _.
  assert (Hm : m0 = Zpos p * 2 ^ s / Zpos q) by (unfold Z.div; by rewrite Ed). assert (Hps : 0 < 2 ^ s) by lia.
  assert (Hq0 : m0 * Zpos q <= Zpos p * 2 ^ s) by (rewrite Hm, Z.mul_comm; apply Z.mul_div_le; lia).
  assert (Hef : 2 ^ s * 2 ^ (e2 + 300) * 2 ^ (f + 300) = 2 ^ (e + 300) * 2 ^ 300) by (rewrite <- !Z.pow_add_r by lia; f_equal; lia).
  assert (0 < 2 ^ (e2 + 300)) by lia. assert (0 < 2 ^ (f + 300)) by lia. unfold v, w. split_and!.
  - rewrite Hm. apply Z.div_pos; lia.
  - lia.
  - transitivity (Zpos p * 2 ^ s * (2 ^ (e2 + 300) * 2 ^ (f + 300))); [|apply Z.eq_le_incl; rewrite <- !Z.mul_assoc, <- Hef; ring].
    replace (m0 * 2 ^ (e2 + 300) * (Zpos q * 2 ^ (f + 300))) with (m0 * Zpos q * (2 ^ (e2 + 300) * 2 ^ (f + 300))) by ring. apply Z.mul_le_mono_nonneg_r; lia.
  - destruct (Z.le_gt_cases e2 (-149)) as [Hsm|Hbig].
    + assert (2 ^ (e2 + 300) <= 2 ^ 151) by (apply Z.pow_le_mono_r; lia). assert (0 <= Zpos p * 2 ^ (e + 300)) by lia.
      assert (2 ^ (e2 + 300) * 2 ^ 23 * (Zpos q * 2 ^ (f + 300)) <= 2 ^ 174 * (Zpos q * 2 ^ (f + 300))); [|lia]. apply Z.mul_le_mono_nonneg_r; lia.
    + set (z := d1 - 1 - d2 + e - f + 300). assert (Hz : 2 ^ (e2 + 300) * 2 ^ 23 <= 2 ^ z) by (rewrite <- Z.pow_add_r by lia; apply Z.pow_le_mono_r; lia).
      assert (Hzz : 2 ^ z * 2 ^ d2 * 2 ^ (f + 300) = 2 ^ (d1 - 1) * 2 ^ (e + 300) * 2 ^ 300) by (rewrite <- !Z.pow_add_r by lia; f_equal; lia).
      assert (2 ^ (d1 - 1) * (2 ^ (e + 300) * 2 ^ 300) <= Zpos p * (2 ^ (e + 300) * 2 ^ 300)) by (apply Z.mul_le_mono_nonneg_r; lia).
      assert (2 ^ (e2 + 300) * 2 ^ 23 * (Zpos q * 2 ^ (f + 300)) <= 2 ^ z * (2 ^ d2 * 2 ^ (f + 300))) by (apply Z.mul_le_mono_nonneg; [lia|done|lia|apply Z.mul_le_mono_nonneg_r; lia]). lia.
Qed.

Lemma fdiv32_bound x y v w :
  finite32 x v -> finite32 y w -> 2 ^ 300 <= w -> v < 2 ^ 380 ->
  exists u, finite32 (fdiv32 x y) u /\ u * 2 ^ 23 * w <= v * 2 ^ 300 * (2 ^ 23 + 2) + 2 ^ 175 * w.
Proof.
  intros Hx Hy Hw Hv. destruct Hy as [[_ ->]|(q & f & -> & Hq & Hf & ->)]; [lia|].
  destruct Hx as [[-> ->]|(p & e & -> & Hp & He & ->)]; [exists 0; split; [by left|lia]|].
  unfold fdiv32, SFdiv. destruct (SFdiv_core_binary prec32 emax32 (Zpos p) e (Zpos q) f) as [[m e'] l] eqn:E.
  destruct (div_core_bounds _ _ _ _ _ _ _ E He Hf) as (Hm & He' & HV & HU). set (v := Zpos p * 2 ^ (e + 300)) in *. set (w := Zpos q * 2 ^ (f + 300)) in *.
  set (V := m * 2 ^ (e' + 300)) in *. set (U := 2 ^ (e' + 300)) in *. assert (0 <= V) by (unfold V; apply Z.mul_nonneg_nonneg; lia). assert (0 < U) by lia.
  destruct (round_bounds m e' l Hm He') as (u & Hu & _ & Hle); [fold U V; nia|fold U; nia|]. fold U V in Hle. exists u. split; [exact Hu|].
  assert (u * 2 ^ 23 <= V * 2 ^ 23 + V + 2 ^ 174 + U * 2 ^ 23) by (destruct l; lia). nia.
Qed.

(** ** Conversion to an integer *)

Lemma f2uint64_bounds `{FloatConv} x v : finite32 x v -> v < 2 ^ 364 -> f2uint64 x * 2 ^ 300 <= v < (f2uint64 x + 1) * 2 ^ 300.
Proof.
  intros Hx Hv. assert (Hz : exists z, ftrunc x = Some z /\ 0 <= z /\ z * 2 ^ 300 <= v < (z + 1) * 2 ^ 300).
  { destruct Hx as [[-> ->]|(p & e & -> & Hp & He & ->)]; [exists 0; split_and!; [done|lia|lia|lia]|]. eexists. split; [reflexivity|].
    destruct (Z.leb_spec 0 e).
    - rewrite (Z.pow_add_r 2 e) by lia. assert (0 < 2 ^ e) by lia. split_and!; lia.
    - pose proof (Z.div_mod (Zpos p) (2 ^ (- e)) ltac:(lia)). pose proof (Z.mod_pos_bound (Zpos p) (2 ^ (- e)) ltac:(lia)).
      assert (2 ^ (- e) * 2 ^ (e + 300) = 2 ^ 300) by (rewrite <- Z.pow_add_r by lia; f_equal; lia). assert (0 < 2 ^ (e + 300)) by lia.
      split_and!; [apply Z.div_pos; lia|nia|nia]. }
  destruct Hz as (z & E & Hz0 & Hz). unfold f2uint64. rewrite E, (proj2 (Z.leb_le _ _)), (proj2 (Z.ltb_lt _ _)) by lia. done.
Qed.
