(* ===== verification/Timer.v ===== *)
(** * The timer of the run loop

    internal/utils/timer.go wraps a timer of the standard library, so that it can be set anew whether or not it has fired and whether or not that was noticed.  The
    session sees it as one deadline: here the wrapper, with the channel of the library's timer, is shown to refine that view. *)

From S2P Require Import Prelude.

(** ** The timer of the standard library *)

Record goTimer := mkGoTimer {
  gt_when : option time;                (* when it fires, if it is active *)
  gt_C : bool                           (* there is a value in its channel, which has room for one *)
}.

Definition go_Stop (t : goTimer) : goTimer * bool := (mkGoTimer None (gt_C t), bool_decide (is_Some (gt_when t))).

(** A timer that is set to a time in the past fires at once. *)
Definition go_Reset (t : goTimer) (when : time) : goTimer := mkGoTimer (Some when) (gt_C t).

(** ** The wrapper *)

Record Timer := mkTimer {
  tm_t : goTimer;
  tm_read : bool;
  tm_deadline : time
}.

#[global] Instance Timer_eta : Eta Timer := fun t => mkTimer (tm_t t) (tm_read t) (tm_deadline t).

Definition NewTimer (now : time) : Timer := mkTimer (mkGoTimer (Some (now + MaxInt64)) false) false zero_time.

(** [None] when it waits for ever: nothing is sent to the channel of a timer that is not active. *)
Definition Reset (t : Timer) (deadline : time) : option Timer :=
  if (deadline =? tm_deadline t) && negb (tm_read t) then Some t else
  let '(gt, stopped) := go_Stop (tm_t t) in
  (* drain the timer if the value from its channel was not read yet *)
  gt ← (if negb stopped && negb (tm_read t) then if gt_C gt then Some (mkGoTimer (gt_when gt) false) else None else Some gt);
  let gt := if negb (IsZero deadline) then go_Reset gt deadline else gt in
  Some (mkTimer gt false deadline).

Definition SetRead (t : Timer) : Timer := t <| tm_read := true |>.

(** What the run loop sees: it sets a deadline, and is woken up. *)
Inductive timerEvent := TimerSet (deadline : time) | TimerWoke (now : time).

(** What happens to the timer of a session, at a time, with the events that the run loop sees: it fires, the run loop reads from its channel and says
    so, or sets it. *)
Inductive timer_step : time * Timer -> list timerEvent -> time * Timer -> Prop :=
| timer_waits now now' t : now <= now' -> timer_step (now, t) [] (now', t)
| timer_expires now t when : gt_when (tm_t t) = Some when -> when <= now -> timer_step (now, t) [] (now, t <| tm_t := mkGoTimer None true |>)
| timer_read now t :
    gt_C (tm_t t) = true -> timer_step (now, t) [TimerWoke now] (now, SetRead (t <| tm_t := mkGoTimer (gt_when (tm_t t)) false |>))
| timer_reset now t d t' : IsZero d = false -> Reset t d = Some t' -> timer_step (now, t) [TimerSet d] (now, t').

Inductive timer_run (start : time) : list timerEvent -> time * Timer -> Prop :=
| timer_run_start : timer_run start [] (start, NewTimer start)
| timer_run_step evs x evs' y : timer_run start evs x -> timer_step x evs' y -> timer_run start (evs ++ evs') y.

(** ** One deadline *)

(** The deadline that is waited for after some events: the one that was set last, if nothing woke the run loop since. A timer that was never
    set stands for one that is as far away as the library can express. *)
Definition deadline_after (start : time) (evs : list timerEvent) : option time :=
  foldl (fun _ ev => match ev with TimerSet d => Some d | TimerWoke _ => None end) (Some (start + MaxInt64)) evs.

(** A run loop with one deadline: each event that wakes it up comes when there is a deadline, and not before it. *)
Fixpoint deadline_trace (pending : option time) (evs : list timerEvent) : Prop :=
  match evs with
  | [] => True
  | TimerSet d :: evs => deadline_trace (Some d) evs
  | TimerWoke now :: evs => (exists d, pending = Some d /\ d <= now) /\ deadline_trace None evs
  end.

Lemma deadline_trace_app p evs evs' :
  deadline_trace p (evs ++ evs') <-> deadline_trace p evs /\
    deadline_trace (foldl (fun _ ev => match ev with TimerSet d => Some d | TimerWoke _ => None end) p evs) evs'.
Proof. revert p. induction evs as [|[d|now] evs IH]; intros p; cbn; [naive_solver|apply IH|rewrite IH; naive_solver]. Qed.

Lemma deadline_after_app start evs ev :
  deadline_after start (evs ++ [ev]) = match ev with TimerSet d => Some d | TimerWoke _ => None end.
Proof. unfold deadline_after. by rewrite foldl_app. Qed.

(** A deadline that is waited for is either still to come, in the library's timer, or its value is in the channel. *)
Definition timer_ok (start : time) (evs : list timerEvent) (x : time * Timer) : Prop :=
  let '(now, t) := x in
  match deadline_after start evs with
  | None => tm_read t = true /\ tm_t t = mkGoTimer None false
  | Some d =>
      tm_read t = false /\ (tm_deadline t = d \/ tm_deadline t = zero_time /\ d = start + MaxInt64) /\
      (tm_t t = mkGoTimer (Some d) false \/ tm_t t = mkGoTimer None true /\ d <= now)
  end.

Lemma Reset_ok start evs now t d :
  timer_ok start evs (now, t) -> IsZero d = false -> exists t', Reset t d = Some t' /\ timer_ok start (evs ++ [TimerSet d]) (now, t').
Proof.
  intros Hk Hd. unfold timer_ok in *. rewrite deadline_after_app. unfold Reset. destruct (deadline_after start evs) as [d0|].
  - destruct Hk as (Hr & Hd0 & Ht). rewrite Hr, andb_true_r. destruct (Z.eqb_spec d (tm_deadline t)) as [E|E].
    + exists t. assert (d0 = d) as -> by (destruct Hd0 as [?|[Ez _]]; [congruence|rewrite Ez in E; subst d; done]). split_and!; [done|done|by left|done].
    + destruct Ht as [->|[-> _]]; rewrite Hd; cbn; (eexists; split; [done|]; cbn; split_and!; [done|by left|by left]).
  - destruct Hk as [Hr ->]. rewrite Hr, andb_false_r, Hd. cbn. eexists. split; [done|]. cbn. split_and!; [done|by left|by left].
Qed.

Lemma timer_step_ok start evs x evs' y :
  timer_ok start evs x -> timer_step x evs' y -> timer_ok start (evs ++ evs') y /\ deadline_trace (deadline_after start evs) evs'.
Proof.
  intros Hk Hs. destruct Hs as [now now' t Hn|now t when Hw Hl|now t HC|now t d t' Hd Hr]; rewrite ?app_nil_r.
  - split; [|done]. unfold timer_ok in *. destruct (deadline_after start evs); [|done]. destruct Hk as (? & ? & [?|[? ?]]); split_and!; auto; right; split; [done|lia].
  - split; [|done]. unfold timer_ok in *. cbn. destruct (deadline_after start evs) as [d|]; [|by destruct Hk as [_ E]; rewrite E in Hw].
    destruct Hk as (? & ? & [E|[E _]]); rewrite E in Hw; cbn in Hw; simplify_eq. split_and!; [done|done|]. by right.
  - unfold timer_ok in *. rewrite deadline_after_app. cbn. destruct (deadline_after start evs) as [d|]; [|by destruct Hk as [_ E]; rewrite E in HC].
    destruct Hk as (? & ? & [E|[E Hd]]); rewrite E in *; cbn in *; [done|]. split; [done|]. by split; [exists d|].
  - destruct (Reset_ok start evs now t d Hk Hd) as (t2 & E & Hk2). simplify_eq. by split.
Qed.

Lemma timer_run_ok start evs x : timer_run start evs x -> timer_ok start evs x /\ deadline_trace (Some (start + MaxInt64)) evs.
Proof.
  induction 1 as [|evs x evs' y _ [Hk Ht] Hs]; [split; [|done]; cbn; split_and!; [done|by right|by left]|].
  destruct (timer_step_ok _ _ _ _ _ Hk Hs) as [Hk' Ht']. split; [done|]. apply deadline_trace_app. by split.
Qed.

(** C26. The timer of a session is one deadline: through every interleaving of the library's timer with the calls of the run loop, the run loop is woken up
    at most once for each deadline that it sets, and not before the one that it set last; [Reset] never waits for ever; and when the deadline
    has passed and nothing woke the run loop, the value is in the channel or is put there next. *)
Theorem timer_refines_deadline start evs now t :
  timer_run start evs (now, t) ->
  deadline_trace (Some (start + MaxInt64)) evs /\
  (forall d, IsZero d = false -> is_Some (Reset t d)) /\
  (forall d, deadline_after start evs = Some d -> d <= now -> gt_C (tm_t t) = true \/ exists t', timer_step (now, t) [] (now, t') /\ gt_C (tm_t t') = true).
Proof.
  intros [Hk Ht]%timer_run_ok. split_and!; [done| |].
  - intros d Hd. destruct (Reset_ok start evs now t d Hk Hd) as (t' & E & _). by exists t'.
  - intros d Hd Hl. unfold timer_ok in Hk. rewrite Hd in Hk. destruct Hk as (_ & _ & [E|[E _]]); rewrite E; [right|by left].
    eexists. split; [eapply timer_expires; [by rewrite E|exact Hl]|done].
Qed.

(** A timer that was set to no deadline cannot be set again: [Reset] waits for a value that nothing sends. *)
Theorem zero_deadline_blocks now d d' :
  IsZero d = false -> IsZero d' = false -> exists t1 t2, Reset (NewTimer now) d = Some t1 /\ Reset t1 zero_time = Some t2 /\ Reset t2 d' = None.
Proof.
  intros Hd Hd'. unfold IsZero in *. apply Z.eqb_neq in Hd, Hd'. exists (mkTimer (mkGoTimer (Some d) false) false d), (mkTimer (mkGoTimer None false) false 0).
  unfold Reset, IsZero, zero_time. cbn -[Z.eqb]. rewrite (proj2 (Z.eqb_neq d 0) Hd), (proj2 (Z.eqb_neq d' 0) Hd'), (proj2 (Z.eqb_neq 0 d) ltac:(lia)).
  unfold zero_time. rewrite (proj2 (Z.eqb_neq d 0) Hd). split_and!; reflexivity.
Qed.

(** A timer is set to 5, fires before that was noticed, is set to 9 instead, and wakes the run loop at 10. *)
Definition demo_events : list timerEvent := [TimerSet 5; TimerSet 9; TimerWoke 10].
Definition demo_timer : Timer := mkTimer (mkGoTimer None false) true 9.

Lemma demo_timer_run : timer_run 1 demo_events (10, demo_timer).
Proof.
  change demo_events with ((((((([] ++ [TimerSet 5]) ++ []) ++ []) ++ [TimerSet 9]) ++ []) ++ []) ++ [TimerWoke 10]).
  eapply timer_run_step; [|by eapply (timer_read 10 (mkTimer (mkGoTimer None true) false 9))].
  eapply timer_run_step; [|by eapply (timer_expires 10 (mkTimer (mkGoTimer (Some 9) false) false 9) 9)].
  eapply timer_run_step; [|by apply (timer_waits 7)].
  eapply timer_run_step; [|by eapply (timer_reset 7 (mkTimer (mkGoTimer None true) false 5))].
  eapply timer_run_step; [|by eapply (timer_expires 7 (mkTimer (mkGoTimer (Some 5) false) false 5) 5)].
  eapply timer_run_step; [|by apply (timer_waits 1)].
  eapply timer_run_step; [apply timer_run_start|by apply (timer_reset 1)].
Qed.

Lemma timer_refines_deadline_witness :
  deadline_trace (Some (1 + MaxInt64)) demo_events /\
  (forall d, IsZero d = false -> is_Some (Reset demo_timer d)) /\
  (forall d, deadline_after 1 demo_events = Some d -> d <= 10 -> gt_C (tm_t demo_timer) = true \/ exists t', timer_step (10, demo_timer) [] (10, t') /\ gt_C (tm_t t') = true).
Proof. exact (timer_refines_deadline 1 demo_events 10 demo_timer demo_timer_run). Defined.
