(* ===== verification/VarInt.v ===== *)
(** * Variable-length integers and big-endian integers (internal/utils)

    [varint.go] and [byteorder_big_endian.go]: the readers and writers every
    frame and header codec is built from, with their round trips, the length
    function, and the behaviour at the 62-bit bound. *)

From S2P Require Import Prelude.

(** ** varint.go *)

Definition maxVarInt1 : Z := 63.
Definition maxVarInt2 : Z := 16383.
Definition maxVarInt4 : Z := 1073741823.
Definition maxVarInt8 : Z := 4611686018427387903.

Definition ReadVarInt : reader Z :=
  firstByte ← ReadByte;
  (* the first two bits of the first byte encode the length *)
  let len := Z.shiftl 1 (Z.shiftr (Z.land firstByte 0xc0) 6) in
  let b1 := Z.land firstByte (0xff - 0xc0) in
  if len =? 1 then mret b1 else
  b2 ← ReadByte;
  if len =? 2 then mret (uint64 (b2 + Z.shiftl b1 8)) else
  b3 ← ReadByte;
  b4 ← ReadByte;
  if len =? 4 then
    mret (uint64 (b4 + Z.shiftl b3 8 + Z.shiftl b2 16 + Z.shiftl b1 24)) else
  b5 ← ReadByte;
  b6 ← ReadByte;
  b7 ← ReadByte;
  b8 ← ReadByte;
  mret (uint64 (b8 + Z.shiftl b7 8 + Z.shiftl b6 16 + Z.shiftl b5 24 +
                Z.shiftl b4 32 + Z.shiftl b3 40 + Z.shiftl b2 48 + Z.shiftl b1 56)).

(** The buffer [b] is the bytes written so far. *)
Definition WriteVarInt (b : bytes) (i : Z) : outcome bytes :=
  if i <=? maxVarInt1 then
    Ret (b ++ [uint8 i])
  else if i <=? maxVarInt2 then
    Ret (b ++ [Z.lor (uint8 (Z.shiftr i 8)) 0x40; uint8 i])
  else if i <=? maxVarInt4 then
    Ret (b ++ [Z.lor (uint8 (Z.shiftr i 24)) 0x80; uint8 (Z.shiftr i 16);
               uint8 (Z.shiftr i 8); uint8 i])
  else if i <=? maxVarInt8 then
    Ret (b ++ [Z.lor (uint8 (Z.shiftr i 56)) 0xc0; uint8 (Z.shiftr i 48);
               uint8 (Z.shiftr i 40); uint8 (Z.shiftr i 32);
               uint8 (Z.shiftr i 24); uint8 (Z.shiftr i 16);
               uint8 (Z.shiftr i 8); uint8 i])
  else Panic "doesn't fit into 62 bits".

Definition VarIntLen (i : Z) : outcome Z :=
  if i <=? maxVarInt1 then Ret 1
  else if i <=? maxVarInt2 then Ret 2
  else if i <=? maxVarInt4 then Ret 4
  else if i <=? maxVarInt8 then Ret 8
  else Panic "doesn't fit into 62 bits".

(** ** byteorder_big_endian.go *)

(** The loop of [ReadUintN] from index [i] with [n] bytes left to read.  The
    shift count is computed in [uint8]; a shift by 64 or more gives 0. *)
Fixpoint ReadUintN_loop (n : nat) (length i : Z) (res : Z) : reader Z :=
  match n with
  | O => mret res
  | S n' =>
      bt ← ReadByte;
      ReadUintN_loop n' length (i + 1)
        (Z.lxor res (uint64 (Z.shiftl bt (uint8 ((length - 1 - i) * 8)))))
  end.

Definition ReadUintN (length : Z) : reader Z :=
  ReadUintN_loop (Z.to_nat length) length 0 0.

Definition ReadUint32 : reader Z :=
  b4 ← ReadByte;
  b3 ← ReadByte;
  b2 ← ReadByte;
  b1 ← ReadByte;
  mret (uint32 (b1 + Z.shiftl b2 8 + Z.shiftl b3 16 + Z.shiftl b4 24)).

Definition ReadUint16 : reader Z :=
  b2 ← ReadByte;
  b1 ← ReadByte;
  mret (uint16 (b1 + Z.shiftl b2 8)).

(** The loop [for j := length; j > 0; j--]. *)
Fixpoint WriteUintN (b : bytes) (length : nat) (i : Z) : bytes :=
  match length with
  | O => b
  | S j => WriteUintN (b ++ [uint8 (Z.shiftr i (uint8 (8 * Z.of_nat j)))]) j i
  end.

Definition WriteUint32 (b : bytes) (i : Z) : bytes :=
  b ++ [uint8 (Z.shiftr i 24); uint8 (Z.shiftr i 16); uint8 (Z.shiftr i 8); uint8 i].

Definition WriteUint16 (b : bytes) (i : Z) : bytes :=
  b ++ [uint8 (Z.shiftr i 8); uint8 i].

(** ** Properties *)

(** The encoding of a value that fits in 62 bits. *)
Definition varint_bytes (i : Z) : bytes :=
  match WriteVarInt [] i with Ret bs => bs | _ => [] end.

Definition is_varint (i : Z) : Prop := 0 <= i <= maxVarInt8.

Lemma WriteVarInt_app b i :
  is_varint i -> WriteVarInt b i = Ret (b ++ varint_bytes i).
Proof.
  unfold is_varint, varint_bytes, WriteVarInt, maxVarInt1, maxVarInt2, maxVarInt4, maxVarInt8.
  intros Hi. case_ifs; zbool; try lia; by rewrite ?app_nil_l.
Qed.

Lemma WriteVarInt_panics b i : maxVarInt8 < i -> exists s, WriteVarInt b i = Panic s.
Proof.
  unfold WriteVarInt, maxVarInt1, maxVarInt2, maxVarInt4, maxVarInt8.
  intros Hi. case_ifs; zbool; try lia. eauto.
Qed.

Lemma VarIntLen_length i :
  is_varint i -> VarIntLen i = Ret (Z.of_nat (length (varint_bytes i))).
Proof.
  unfold is_varint, varint_bytes, VarIntLen, WriteVarInt, maxVarInt1, maxVarInt2, maxVarInt4, maxVarInt8.
  intros Hi. case_ifs; zbool; by try lia.
Qed.

(** The tag and the value bits of a first byte. *)
Lemma first_byte_tag x t :
  0 <= x < 64 -> t ∈ [0; 64; 128; 192] -> Z.land (Z.lor x t) 192 = t.
Proof. intros Hx Ht. set_unfold in Ht. destruct_or! Ht; subst t; small_cases Hx. Qed.

Lemma first_byte_value x t :
  0 <= x < 64 -> t ∈ [0; 64; 128; 192] -> Z.land (Z.lor x t) (255 - 192) = x.
Proof. intros Hx Ht. set_unfold in Ht. destruct_or! Ht; subst t; small_cases Hx. Qed.

(** The top byte of a value below [64 * 2^k] has its two tag bits free. *)
Lemma top_byte_small i k : 0 <= k -> 0 <= i < 2 ^ (k + 6) -> 0 <= uint8 (Z.shiftr i k) < 64.
Proof.
  intros Hk Hi. rewrite shiftr_div by done.
  assert (0 <= i / 2 ^ k < 64).
  { split; [apply Z.div_pos; lia|]. apply Z.div_lt_upper_bound; [lia|].
    rewrite Z.pow_add_r in Hi by lia. lia. }
  rewrite uint8_id; [lia|go_range].
Qed.

(** The value of a first byte with a free tag, and the sum of the digits. *)
Lemma top_byte_value i k : 0 <= k -> 0 <= i < 2 ^ (k + 6) -> uint8 (Z.shiftr i k) = i / 2 ^ k.
Proof.
  intros Hk Hi. rewrite shiftr_div by done. apply uint8_id.
  assert (0 <= i / 2 ^ k < 64); [|go_range].
  split; [apply Z.div_pos; lia|]. apply Z.div_lt_upper_bound; [lia|].
  rewrite Z.pow_add_r in Hi by lia. lia.
Qed.

Ltac first_byte H :=
  rewrite ?first_byte_tag, ?first_byte_value
    by first [exact H | set_solver].

Ltac digits i :=
  unfold uint8; rewrite ?shiftr_div, ?shiftl_mul by lia;
  pose proof (div_digit i 0 8 ltac:(lia) eq_refl);
  pose proof (div_digit i 8 16 ltac:(lia) eq_refl);
  pose proof (div_digit i 16 24 ltac:(lia) eq_refl);
  pose proof (div_digit i 24 32 ltac:(lia) eq_refl);
  pose proof (div_digit i 32 40 ltac:(lia) eq_refl);
  pose proof (div_digit i 40 48 ltac:(lia) eq_refl);
  pose proof (div_digit i 48 56 ltac:(lia) eq_refl);
  rewrite ?Z.pow_0_r, ?Z.div_1_r in *.

Lemma ReadVarInt_varint_bytes i r :
  is_varint i -> ReadVarInt (varint_bytes i ++ r) = Ret (i, r).
Proof.
  unfold is_varint, varint_bytes, WriteVarInt, maxVarInt1, maxVarInt2, maxVarInt4, maxVarInt8.
  unfold ReadVarInt, mbind, reader_bind, ReadByte, mret, reader_ret.
  intros Hi. case_ifs; zbool; [| | | |lia].
  - assert (Hb : 0 <= uint8 i < 64) by (unfold uint8; rewrite Z.mod_small; lia).
    replace (uint8 i) with (Z.lor (uint8 i) 0) by apply Z.lor_0_r.
    cbn -[uint8 Z.lor Z.land]. first_byte Hb. by rewrite uint8_id by go_range.
  - pose proof (top_byte_small i 8 ltac:(lia) ltac:(lia)) as Hb.
    cbn -[Z.shiftr uint8 Z.lor Z.land Z.shiftl]. first_byte Hb.
    change (Z.shiftl 1 (Z.shiftr 64 6)) with 2. cbn -[Z.shiftr uint8 Z.shiftl uint64].
    rewrite (top_byte_value i 8) by lia.
    do 2 f_equal. digits i.
    go_ints; lia.
  - pose proof (top_byte_small i 24 ltac:(lia) ltac:(lia)) as Hb.
    cbn -[Z.shiftr uint8 Z.lor Z.land Z.shiftl]. first_byte Hb.
    change (Z.shiftl 1 (Z.shiftr 128 6)) with 4. cbn -[Z.shiftr uint8 Z.shiftl uint64].
    rewrite (top_byte_value i 24) by lia.
    do 2 f_equal. digits i.
    go_ints; lia.
  - pose proof (top_byte_small i 56 ltac:(lia) ltac:(lia)) as Hb.
    cbn -[Z.shiftr uint8 Z.lor Z.land Z.shiftl]. first_byte Hb.
    change (Z.shiftl 1 (Z.shiftr 192 6)) with 8. cbn -[Z.shiftr uint8 Z.shiftl uint64].
    rewrite (top_byte_value i 56) by lia.
    do 2 f_equal. digits i.
    go_ints; lia.
Qed.

Lemma first_byte_cases b :
  is_uint8 b ->
  let len := Z.shiftl 1 (Z.shiftr (Z.land b 0xc0) 6) in
  (len = 1 \/ len = 2 \/ len = 4 \/ len = 8) /\ 0 <= Z.land b (0xff - 0xc0) < 64.
Proof. intros Hb; unfold is_uint8 in Hb; simpl; small_cases Hb. Qed.

Lemma VarIntLen_le i n :
  is_varint i ->
  (n = 1 /\ i <= maxVarInt1 \/ n = 2 /\ i <= maxVarInt2 \/ n = 4 /\ i <= maxVarInt4 \/ n = 8) ->
  exists l, VarIntLen i = Ret l /\ l <= n.
Proof.
  unfold is_varint, VarIntLen, maxVarInt1, maxVarInt2, maxVarInt4, maxVarInt8.
  intros Hi Hn. case_ifs; zbool; [..|lia]; eexists; (split; [reflexivity|lia]).
Qed.

(** Whatever the input, a successful read consumes a non-empty prefix of 1, 2,
    4 or 8 bytes, gives a 62-bit value, and no encoding of that value is
    shorter than the one [WriteVarInt] chooses. *)
Lemma ReadVarInt_inv r v r' :
  bytes_ok r -> ReadVarInt r = Ret (v, r') ->
  is_varint v /\ bytes_ok r' /\
  exists d l, r = d ++ r' /\ d <> [] /\ VarIntLen v = Ret l /\ l <= Z.of_nat (length d).
Proof.
  unfold bytes_ok, ReadVarInt, mbind, reader_bind, ReadByte, mret, reader_ret. intros Hr.
  assert (Hfin : forall n d v' r1, r = d ++ r1 -> Forall is_uint8 r1 ->
    Z.of_nat (length d) = n -> is_varint v' ->
    (n = 1 /\ v' <= maxVarInt1 \/ n = 2 /\ v' <= maxVarInt2 \/ n = 4 /\ v' <= maxVarInt4 \/ n = 8) ->
    Ret (v', r1) = Ret (v, r') ->
    is_varint v /\ Forall is_uint8 r' /\ exists d l, r = d ++ r' /\ d <> [] /\ VarIntLen v = Ret l /\ l <= Z.of_nat (length d)).
  { intros n d v' r1 Hd Hr1 Hn Hv Hc [= <- <-].
    destruct (VarIntLen_le v' n Hv Hc) as (l & Hl & Hle).
    repeat split; [apply Hv..|done|]. exists d, l.
    repeat split; [done| |done|lia]. intros ->; simpl in *; lia. }
  destruct r as [|b1 r]; [done|]. apply Forall_cons in Hr as [Hb1 Hr].
  destruct (first_byte_cases b1 Hb1) as [Hlen Hval].
  set (b1v := Z.land b1 (0xff - 0xc0)) in *.
  set (len := Z.shiftl 1 (Z.shiftr (Z.land b1 0xc0) 6)) in *. clearbody len b1v.
  destruct (Z.eqb_spec len 1) as [->|?].
  { apply (Hfin 1 [b1]); unfold is_varint, maxVarInt1, maxVarInt8; by try lia. }
  destruct r as [|b2 r]; [done|]. apply Forall_cons in Hr as [Hb2 Hr].
  destruct (Z.eqb_spec len 2) as [->|?].
  { rewrite shiftl_mul by lia. go_ints.
    apply (Hfin 2 [b1; b2]); unfold is_varint, maxVarInt2, maxVarInt8; first [done|go_range]. }
  destruct r as [|b3 r]; [done|]. apply Forall_cons in Hr as [Hb3 Hr].
  destruct r as [|b4 r]; [done|]. apply Forall_cons in Hr as [Hb4 Hr].
  destruct (Z.eqb_spec len 4) as [->|?].
  { rewrite !shiftl_mul by lia. go_ints.
    apply (Hfin 4 [b1; b2; b3; b4]); unfold is_varint, maxVarInt4, maxVarInt8; first [done|go_range]. }
  destruct r as [|b5 r]; [done|]. apply Forall_cons in Hr as [Hb5 Hr].
  destruct r as [|b6 r]; [done|]. apply Forall_cons in Hr as [Hb6 Hr].
  destruct r as [|b7 r]; [done|]. apply Forall_cons in Hr as [Hb7 Hr].
  destruct r as [|b8 r]; [done|]. apply Forall_cons in Hr as [Hb8 Hr].
  rewrite !shiftl_mul by lia. go_ints.
  apply (Hfin 8 [b1; b2; b3; b4; b5; b6; b7; b8]); unfold is_varint, maxVarInt8; first [done|go_range|lia].
Qed.

(** *** Big-endian integers *)

Definition be_bytes (n : nat) (i : Z) : bytes := WriteUintN [] n i.

Lemma WriteUintN_app n b i : WriteUintN b n i = b ++ be_bytes n i.
Proof.
  unfold be_bytes. revert b. induction n as [|n IH]; intros b; simpl; [by rewrite app_nil_r|].
  rewrite (IH (b ++ _)), (IH [_]). by rewrite <- app_assoc.
Qed.

Lemma be_bytes_S n i :
  (n < 32)%nat -> be_bytes (S n) i = uint8 (i / 2 ^ (8 * Z.of_nat n)) :: be_bytes n i.
Proof.
  intros Hn. unfold be_bytes at 1. simpl WriteUintN.
  rewrite WriteUintN_app. cbn [app]. f_equal. f_equal.
  rewrite uint8_id by go_range. by rewrite shiftr_div by lia.
Qed.

Lemma be_bytes_length n i : length (be_bytes n i) = n.
Proof.
  unfold be_bytes. assert (forall b, length (WriteUintN b n i) = (length b + n)%nat) as H.
  { induction n as [|n IH]; intros b; simpl; [lia|]. rewrite IH, length_app. simpl. lia. }
  rewrite H. done.
Qed.

(** Adding a byte below the bits already read is an exclusive or. *)
Lemma lxor_low_byte res bt k :
  0 <= k -> is_uint8 bt -> (2 ^ (k + 8) | res) ->
  Z.lxor res (bt * 2 ^ k) = res + bt * 2 ^ k.
Proof.
  intros Hk Hbt [q ->]. symmetry. apply Z.add_nocarry_lxor.
  apply Z.bits_inj'. intros j Hj. rewrite Z.land_spec, Z.bits_0.
  destruct (Z.lt_ge_cases j (k + 8)) as [Hlt|Hge].
  - by rewrite Z.mul_pow2_bits_low by lia.
  - rewrite (Z.mul_pow2_bits bt) by lia. rewrite andb_comm.
    rewrite <- (Z.mod_small bt (2 ^ 8)) by done.
    by rewrite Z.mod_pow2_bits_high by lia.
Qed.

Lemma ReadUintN_loop_be_bytes n len i res v r :
  (n <= 8)%nat -> len - i = Z.of_nat n -> (2 ^ (8 * Z.of_nat n) | res) ->
  ReadUintN_loop n len i res (be_bytes n v ++ r) = Ret (res + v mod 2 ^ (8 * Z.of_nat n), r).
Proof.
  revert i res. induction n as [|n IH]; intros i res Hn Hlen Hdiv.
  { simpl. unfold mret, reader_ret. rewrite Z.mod_1_r. do 2 f_equal. lia. }
  rewrite be_bytes_S by lia. cbn [ReadUintN_loop]. unfold mbind, reader_bind, ReadByte.
  cbn [app]. set (bt := uint8 _). assert (is_uint8 bt) by apply uint8_range.
  replace ((len - 1 - i) * 8) with (8 * Z.of_nat n) by lia.
  rewrite (uint8_id (8 * _)) by go_range. rewrite shiftl_mul by lia.
  replace (8 * Z.of_nat (S n)) with (8 * Z.of_nat n + 8) in * by lia.
  assert (0 < 2 ^ (8 * Z.of_nat n) <= 2 ^ 56).
  { split; [lia|]. apply Z.pow_le_mono_r; lia. }
  rewrite (uint64_id (bt * _)) by (unfold is_uint8, is_uint64 in *; nia).
  rewrite lxor_low_byte by (done || lia).
  rewrite IH; [|lia..|].
  2: { apply Z.divide_add_r; [|apply Z.divide_factor_r].
    eapply Z.divide_trans; [|exact Hdiv]. rewrite Z.pow_add_r by lia. apply Z.divide_factor_l. }
  do 2 f_equal. rewrite Z.pow_add_r, (Z.rem_mul_r v) by lia.
  unfold bt, uint8. lia.
Qed.

Lemma ReadUintN_be_bytes n v r :
  (n <= 8)%nat ->
  ReadUintN (Z.of_nat n) (be_bytes n v ++ r) = Ret (v mod 2 ^ (8 * Z.of_nat n), r).
Proof.
  intros Hn. unfold ReadUintN. rewrite Nat2Z.id, ReadUintN_loop_be_bytes; [|lia..|].
  - by rewrite Z.add_0_l.
  - apply Z.divide_0_r.
Qed.

Lemma ReadUint16_roundtrip b i r :
  is_uint16 i ->
  exists d, WriteUint16 b i = b ++ d /\ length d = 2%nat /\ ReadUint16 (d ++ r) = Ret (i, r).
Proof.
  intros Hi. eexists. split; [reflexivity|]. split; [done|].
  cbn. unfold ReadUint16, mbind, reader_bind, ReadByte, mret, reader_ret. do 2 f_equal. digits i.
  pose proof (Z.mod_pos_bound i (2 ^ 8)). pose proof (Z.mod_pos_bound (i / 2 ^ 8) (2 ^ 8)).
  rewrite (Z.div_small i (2 ^ 16)) in * by apply Hi.
  go_ints; lia.
Qed.

Lemma ReadUint32_roundtrip b i r :
  is_uint32 i ->
  exists d, WriteUint32 b i = b ++ d /\ length d = 4%nat /\ ReadUint32 (d ++ r) = Ret (i, r).
Proof.
  intros Hi. eexists. split; [reflexivity|]. split; [done|].
  cbn. unfold ReadUint32, mbind, reader_bind, ReadByte, mret, reader_ret. do 2 f_equal. digits i.
  pose proof (Z.mod_pos_bound i (2 ^ 8)). pose proof (Z.mod_pos_bound (i / 2 ^ 8) (2 ^ 8)).
  pose proof (Z.mod_pos_bound (i / 2 ^ 16) (2 ^ 8)). pose proof (Z.mod_pos_bound (i / 2 ^ 24) (2 ^ 8)).
  rewrite (Z.div_small i (2 ^ 32)) in * by apply Hi.
  go_ints; lia.
Qed.

Lemma varint_bytes_length i :
  is_varint i -> (1 <= length (varint_bytes i) <= 8)%nat.
Proof.
  unfold is_varint, varint_bytes, WriteVarInt, maxVarInt1, maxVarInt2, maxVarInt4, maxVarInt8.
  intros. case_ifs; zbool; simpl; lia.
Qed.

Lemma varint_bytes_small i : 0 <= i <= maxVarInt2 -> (length (varint_bytes i) <= 2)%nat.
Proof.
  unfold varint_bytes, WriteVarInt, maxVarInt1, maxVarInt2, maxVarInt4, maxVarInt8.
  intros. case_ifs; zbool; simpl; lia.
Qed.

(** ** Properties *)

(** Round trip of variable-length integers: for every integer up to
    [maxVarInt8], [WriteVarInt] appends an encoding of exactly [VarIntLen]
    bytes, and [ReadVarInt] reads it back, leaving what follows. *)
Theorem varint_roundtrip b i r :
  is_varint i ->
  exists d, WriteVarInt b i = Ret (b ++ d) /\ VarIntLen i = Ret (Z.of_nat (length d)) /\
    ReadVarInt (d ++ r) = Ret (i, r).
Proof.
  intros Hi. exists (varint_bytes i). split_and!.
  - by apply WriteVarInt_app.
  - by apply VarIntLen_length.
  - by apply ReadVarInt_varint_bytes.
Qed.

Lemma varint_roundtrip_witness :
  exists d, WriteVarInt [1] 15293 = Ret ([1] ++ d) /\ VarIntLen 15293 = Ret (Z.of_nat (length d)) /\
    ReadVarInt (d ++ [7]) = Ret (15293, [7]).
Proof. apply (varint_roundtrip [1] 15293 [7]). by vm_compute. Defined.

(** [ReadVarInt] accepts nothing out of range and consumes at least one
    byte; what it reads never takes more bytes when written again, so
    [VarIntLen] is the length of the shortest encoding. *)
Theorem varint_shortest r v r' :
  bytes_ok r -> ReadVarInt r = Ret (v, r') ->
  is_varint v /\ exists d l, r = d ++ r' /\ d <> [] /\ VarIntLen v = Ret l /\ l <= Z.of_nat (length d).
Proof. intros Hr H. destruct (ReadVarInt_inv r v r' Hr H) as (? & _ & ?). done. Qed.

(** The four-byte encoding of 1, which fits in one byte. *)
Lemma varint_shortest_witness :
  is_varint 1 /\ exists d l, [128; 0; 0; 1; 9] = d ++ [9] /\ d <> [] /\ VarIntLen 1 = Ret l /\
    l <= Z.of_nat (length d).
Proof. apply (varint_shortest [128; 0; 0; 1; 9] 1 [9]); [by repeat constructor|by vm_compute]. Defined.
