(* ===== verification/Protocol.v ===== *)
(** * Protocol-level values (internal/protocol, internal/utils/minmax.go)

    Packet numbers and their truncated encoding, stream numbers and stream
    IDs, the constants the components share, and the min/max helpers. *)

From S2P Require Import Prelude VarInt.

(** ** protocol.go, params.go *)

(** [type ByteCount uint64] *)
Definition ByteCount := Z.
Definition MaxByteCount : ByteCount := 2 ^ 62 - 1.
Definition DefaultTCPMSS : ByteCount := 1460.
Definition DefaultAckDelayExponent : Z := 3.
Definition AckDelayExponent : Z := 3.
Definition MaxAckFrameSize : ByteCount := 1000.
Definition MaxTrackedReceivedAckRanges : Z := 1000.
Definition MaxAckDelay : duration := 25 * Millisecond.
Definition InitialCongestionWindow : ByteCount := 32 * DefaultTCPMSS.
Definition DefaultBBRMaxCongestionWindow : ByteCount := 2000 * DefaultTCPMSS.

Inductive EncryptionLevel : Type :=
| EncryptionUnspecified
| EncryptionInitial
| EncryptionHandshake
| Encryption1RTT.

#[global] Instance EncryptionLevel_eq_dec : EqDecision EncryptionLevel.
Proof. solve_decision. Defined.

(** ** minmax.go *)

Definition Max (a b : Z) : Z := if a <? b then b else a.
Definition Min (a b : Z) : Z := if a <? b then a else b.
Definition MinByteCount (a b : ByteCount) : ByteCount := if a <? b then a else b.
Definition MaxByteCount2 (a b : ByteCount) : ByteCount := if a <? b then b else a.
Definition MaxDuration (a b : duration) : duration := if b <? a then a else b.
Definition MinDuration (a b : duration) : duration := if b <? a then b else a.
Definition AbsDuration (d : duration) : duration := if 0 <=? d then d else int64 (- d).
Definition MinTime (a b : time) : time := if After a b then b else a.
Definition MaxTime (a b : time) : time := if After a b then a else b.
Definition MinNonZeroTime (a b : time) : time :=
  if IsZero a then b else if IsZero b then a else MinTime a b.
Definition MaxPacketNumber (a b : Z) : Z := if b <? a then a else b.
Definition MinPacketNumber (a b : Z) : Z := if a <? b then a else b.

(** ** packet_number.go *)

(** [type PacketNumber int64] *)
Definition PacketNumber := Z.
Definition InvalidPacketNumber : PacketNumber := -1.

(** [type PacketNumberLen uint8], in bytes. *)
Definition PacketNumberLen := Z.

Definition delta (a b : PacketNumber) : PacketNumber :=
  if a <? b then int64 (b - a) else int64 (a - b).

Definition closestTo (target a b : PacketNumber) : PacketNumber :=
  if delta target a <? delta target b then a else b.

Definition epochDelta (packetNumberLength : PacketNumberLen) : PacketNumber :=
  if packetNumberLength =? 1 then Z.shiftl 1 8
  else if packetNumberLength =? 2 then Z.shiftl 1 16
  else if packetNumberLength =? 3 then Z.shiftl 1 24
  else if packetNumberLength =? 4 then Z.shiftl 1 32
  else 0.

Definition DecodePacketNumber (packetNumberLength : PacketNumberLen)
    (lastPacketNumber wirePacketNumber : PacketNumber) : PacketNumber :=
  let epochDelta := epochDelta packetNumberLength in
  let epoch := Z.land lastPacketNumber (Z.lnot (epochDelta - 1)) in
  let prevEpochBegin := if epochDelta <? epoch then int64 (epoch - epochDelta) else 0 in
  let nextEpochBegin := int64 (epoch + epochDelta) in
  closestTo
    (int64 (lastPacketNumber + 1))
    (int64 (epoch + wirePacketNumber))
    (closestTo (int64 (lastPacketNumber + 1))
       (int64 (prevEpochBegin + wirePacketNumber))
       (int64 (nextEpochBegin + wirePacketNumber))).

Definition GetPacketNumberLengthForHeader (packetNumber leastUnacked : PacketNumber) :
    PacketNumberLen :=
  let diff := uint64 (int64 (packetNumber - leastUnacked)) in
  if diff <? Z.shiftl 1 (16 - 1) then 2
  else if diff <? Z.shiftl 1 (24 - 1) then 3
  else 4.

Definition GetPacketNumberLength (packetNumber : PacketNumber) : PacketNumberLen :=
  if packetNumber <? Z.shiftl 1 (1 * 8) then 1
  else if packetNumber <? Z.shiftl 1 (2 * 8) then 2
  else if packetNumber <? Z.shiftl 1 (3 * 8) then 3
  else 4.

(** ** stream.go, perspective.go *)

Inductive Perspective : Type := PerspectiveServer | PerspectiveClient.

Definition Opposite (p : Perspective) : Perspective :=
  match p with
  | PerspectiveServer => PerspectiveClient
  | PerspectiveClient => PerspectiveServer
  end.

Inductive StreamType : Type := StreamTypeUni | StreamTypeBidi.

#[global] Instance Perspective_eq_dec : EqDecision Perspective.
Proof. solve_decision. Defined.
#[global] Instance StreamType_eq_dec : EqDecision StreamType.
Proof. solve_decision. Defined.

Definition StreamID := Z.
Definition StreamNum := Z.
Definition InvalidStreamID : StreamID := -1.
Definition MaxStreamCount : StreamNum := 2 ^ 60.

(** [StreamNum.StreamID] *)
Definition StreamNum_StreamID (s : StreamNum) (stype : StreamType) (pers : Perspective) :
    StreamID :=
  if s =? 0 then InvalidStreamID else
  let first :=
    match stype, pers with
    | StreamTypeBidi, PerspectiveClient => 0
    | StreamTypeBidi, PerspectiveServer => 1
    | StreamTypeUni, PerspectiveClient => 2
    | StreamTypeUni, PerspectiveServer => 3
    end in
  int64 (first + int64 (4 * int64 (s - 1))).

(** Go's [%] and [/] truncate towards zero. *)
Definition InitiatedBy (s : StreamID) : Perspective :=
  if Z.rem s 2 =? 0 then PerspectiveClient else PerspectiveServer.

(** [StreamID.Type] *)
Definition StreamID_Type (s : StreamID) : StreamType :=
  if 2 <=? Z.rem s 4 then StreamTypeUni else StreamTypeBidi.

(** [StreamID.StreamNum] *)
Definition StreamID_StreamNum (s : StreamID) : StreamNum := Z.quot s 4 + 1.

(** ** Packet numbers: properties *)

Definition valid_pn_len (n : PacketNumberLen) : Prop := 1 <= n <= 4.

(** What a packet of length class [n] carries. *)
Definition truncate_pn (n : PacketNumberLen) (pn : PacketNumber) : PacketNumber :=
  pn mod 2 ^ (8 * n).

Lemma epochDelta_pow n : valid_pn_len n -> epochDelta n = 2 ^ (8 * n).
Proof.
  unfold valid_pn_len. intros Hn.
  assert (n = 1 \/ n = 2 \/ n = 3 \/ n = 4) as Hc by lia.
  destruct_or! Hc; by subst.
Qed.

Lemma land_epoch x k : 0 <= k -> Z.land x (Z.lnot (2 ^ k - 1)) = x - x mod 2 ^ k.
Proof.
  intros Hk.
  replace (2 ^ k - 1) with (Z.ones k) by (rewrite Z.ones_equiv; lia).
  rewrite <- Z.ldiff_land, Z.ldiff_ones_r, shiftl_mul, shiftr_div by lia.
  pose proof (Z.div_mod x (2 ^ k)). lia.
Qed.

Lemma delta_abs a b : is_int64 (a - b) -> is_int64 (b - a) -> delta a b = Z.abs (a - b).
Proof. intros. unfold delta. case_if; zbool; go_ints; lia. Qed.

Lemma closestTo_spec t a b :
  is_int64 (t - a) -> is_int64 (t - b) -> is_int64 (a - t) -> is_int64 (b - t) ->
  closestTo t a b = if Z.abs (t - a) <? Z.abs (t - b) then a else b.
Proof. intros. unfold closestTo. by rewrite !delta_abs by done. Qed.

(** The receiver recovers every packet number within half a window of the
    next one it expects. *)
Lemma DecodePacketNumber_correct n last pn :
  valid_pn_len n -> 0 <= last < 2 ^ 62 -> 0 <= pn < 2 ^ 62 ->
  Z.abs (pn - (last + 1)) < 2 ^ (8 * n - 1) ->
  DecodePacketNumber n last (truncate_pn n pn) = pn.
Proof.
  intros Hn Hl Hp Hd. unfold DecodePacketNumber, truncate_pn. rewrite epochDelta_pow by done.
  unfold valid_pn_len in Hn. rewrite land_epoch by lia.
  pose proof (Z.div_mod last (2 ^ (8 * n))) as Hlast.
  pose proof (Z.div_mod pn (2 ^ (8 * n))) as Hpn.
  pose proof (Z.mod_pos_bound last (2 ^ (8 * n))) as Hlm.
  pose proof (Z.mod_pos_bound pn (2 ^ (8 * n))) as Hpm.
  set (k := last / 2 ^ (8 * n)) in *. set (q := pn / 2 ^ (8 * n)) in *.
  set (m := last mod 2 ^ (8 * n)) in *. set (w := pn mod 2 ^ (8 * n)) in *.
  assert (0 <= k) by (apply Z.div_pos; lia).
  assert (0 <= q) by (apply Z.div_pos; lia). clearbody k q m w.
  assert (n = 1 \/ n = 2 \/ n = 3 \/ n = 4) as Hc by lia.
  destruct_or! Hc; subst n; simpl Z.mul in *; simpl Z.sub in Hd;
    specialize (Hlast ltac:(lia)); specialize (Hpn ltac:(lia));
    specialize (Hlm ltac:(lia)); specialize (Hpm ltac:(lia));
    case_if; zbool; go_ints;
    match goal with
    | |- closestTo _ _ (closestTo ?t ?b ?c) = _ => rewrite (closestTo_spec t b c) by go_range
    end;
    case_if; zbool; rewrite closestTo_spec by go_range; case_if; zbool; lia.
Qed.

(** The length a sender chooses spans twice the distance to its least
    unacknowledged packet. *)
Lemma GetPacketNumberLengthForHeader_window pn leastUnacked :
  0 <= leastUnacked <= pn -> pn < 2 ^ 62 -> pn - leastUnacked < 2 ^ 31 ->
  let n := GetPacketNumberLengthForHeader pn leastUnacked in
  2 <= n <= 4 /\ pn - leastUnacked < 2 ^ (8 * n - 1) /\ 2 ^ 15 <= 2 ^ (8 * n - 1).
Proof.
  intros Hl Hp Hd. unfold GetPacketNumberLengthForHeader.
  go_ints. rewrite !shiftl_mul by lia. case_ifs; zbool; simpl; lia.
Qed.

(** ** Stream IDs *)

Lemma StreamID_of_num s t p :
  1 <= s <= MaxStreamCount ->
  let id := StreamNum_StreamID s t p in
  0 <= id < 2 ^ 62 /\ StreamID_StreamNum id = s /\ StreamID_Type id = t /\ InitiatedBy id = p.
Proof.
  unfold MaxStreamCount, StreamNum_StreamID, StreamID_StreamNum, StreamID_Type, InitiatedBy.
  intros Hs. rewrite (proj2 (Z.eqb_neq s 0)) by lia.
  destruct t, p; go_ints; rewrite Z.quot_div_nonneg, !Z.rem_mod_nonneg by lia;
    (repeat split; [lia..| | |]); try (Z.div_mod_to_equations; lia);
    case_if; zbool; try done; Z.div_mod_to_equations; lia.
Qed.

Lemma StreamNum_of_id id :
  0 <= id < 2 ^ 62 ->
  StreamNum_StreamID (StreamID_StreamNum id) (StreamID_Type id) (InitiatedBy id) = id.
Proof.
  unfold StreamNum_StreamID, StreamID_StreamNum, StreamID_Type, InitiatedBy. intros Hid.
  rewrite Z.quot_div_nonneg, !Z.rem_mod_nonneg by lia.
  rewrite (proj2 (Z.eqb_neq _ 0)) by (Z.div_mod_to_equations; lia).
  assert (0 <= id / 4 < 2 ^ 60) by (Z.div_mod_to_equations; lia).
  destruct (2 <=? id mod 4) eqn:?, (id mod 2 =? 0) eqn:?; zbool;
    go_ints; Z.div_mod_to_equations; lia.
Qed.

(** ** Properties *)

(** Packet numbers end to end: the bytes a sender writes for its packet
    number, in the length chosen for the header, are read back and expanded to
    that number by a receiver whose largest packet number is not below
    the sender's least unacknowledged one, and not more than 2^15 ahead. *)
Theorem packet_number_roundtrip pn leastUnacked last r :
  0 <= leastUnacked <= pn -> pn < 2 ^ 62 -> pn - leastUnacked < 2 ^ 31 ->
  0 <= last < 2 ^ 62 -> leastUnacked <= last + 1 -> last + 1 < pn + 2 ^ 15 ->
  let n := GetPacketNumberLengthForHeader pn leastUnacked in
  exists w, ReadUintN n (WriteUintN [] (Z.to_nat n) pn ++ r) = Ret (w, r) /\
    DecodePacketNumber n last w = pn.
Proof.
  intros Hl Hp Hd Hlast Hlow Hhigh n.
  destruct (GetPacketNumberLengthForHeader_window pn leastUnacked Hl Hp Hd) as (Hn & Hwin & Hmin).
  fold n in Hn, Hwin, Hmin. exists (truncate_pn n pn). split.
  - rewrite <- (Z2Nat.id n) at 1 by lia. fold (be_bytes (Z.to_nat n) pn).
    rewrite ReadUintN_be_bytes by lia. by rewrite Z2Nat.id by lia.
  - apply DecodePacketNumber_correct; [unfold valid_pn_len; lia|lia|lia|]. lia.
Qed.

Lemma packet_number_roundtrip_witness :
  exists w, ReadUintN 2 (WriteUintN [] 2 70000 ++ [5]) = Ret (w, [5]) /\
    DecodePacketNumber 2 69990 w = 70000.
Proof. apply (packet_number_roundtrip 70000 69900 69990 [5]); by vm_compute. Defined.

(** Stream IDs and stream numbers are in bijection: a stream number, type
    and initiator give a 62-bit ID from which all three are recovered, and every
    62-bit ID is the one of its number, type and initiator. *)
Theorem stream_id_bijection s t p id :
  1 <= s <= MaxStreamCount -> 0 <= id < 2 ^ 62 ->
  (0 <= StreamNum_StreamID s t p < 2 ^ 62 /\
   StreamID_StreamNum (StreamNum_StreamID s t p) = s /\
   StreamID_Type (StreamNum_StreamID s t p) = t /\ InitiatedBy (StreamNum_StreamID s t p) = p) /\
  StreamNum_StreamID (StreamID_StreamNum id) (StreamID_Type id) (InitiatedBy id) = id.
Proof. intros Hs Hid. split; [by apply StreamID_of_num|by apply StreamNum_of_id]. Qed.

Lemma stream_id_bijection_witness :
  StreamID_StreamNum (StreamNum_StreamID 3 StreamTypeUni PerspectiveServer) = 3 /\
  StreamNum_StreamID (StreamID_StreamNum 11) (StreamID_Type 11) (InitiatedBy 11) = 11.
Proof.
  destruct (stream_id_bijection 3 StreamTypeUni PerspectiveServer 11) as [(_ & H & _) H'];
    [by vm_compute|by vm_compute|]. exact (conj H H').
Defined.
