(* ===== verification/AckFrame.v ===== *)
(** * ACK frames (internal/wire/ack_frame.go, ack_range.go)

    Parsing, writing, sizing and querying of ACK frames. *)

From S2P Require Import Prelude VarInt Protocol.

(** ** Data *)

Record AckRange := mkAckRange {
  Smallest : PacketNumber;
  Largest : PacketNumber
}.

#[global] Instance AckRange_eq_dec : EqDecision AckRange.
Proof. solve_decision. Defined.

(** [AckRange.Len] *)
Definition AckRange_Len (r : AckRange) : PacketNumber := int64 (Largest r - Smallest r + 1).

(** The highest ACK range goes first, the lowest ACK range goes last. *)
Record AckFrame := mkAckFrame {
  AckRanges : list AckRange;
  DelayTime : duration
}.

(** [l[i]]: an index out of range panics. *)
Definition index {A} (l : list A) (i : nat) : outcome A :=
  match l !! i with
  | Some a => Ret a
  | None => Panic "index out of range"
  end.

(** ** Operations *)

Definition errInvalidAckRanges : goerr :=
  ErrorString "AckFrame: ACK frame contains invalid ACK ranges".

Definition range_ok (r : AckRange) : bool := negb (Largest r <? Smallest r).

(** The second loop of [validateAckRanges], on neighbours. *)
Fixpoint neighbours_ok (last : AckRange) (l : list AckRange) : bool :=
  match l with
  | [] => true
  | ackRange :: l' =>
      if Smallest last <=? Smallest ackRange then false
      else if Smallest last <=? int64 (Largest ackRange + 1) then false
      else neighbours_ok ackRange l'
  end.

Definition validateAckRanges (f : AckFrame) : bool :=
  match AckRanges f with
  | [] => false
  | r :: l => forallb range_ok (r :: l) && neighbours_ok r l
  end.

(** The loop over the remaining ACK ranges.  Every iteration reads at least one
    byte, so [fuel] at least the number of unread bytes is never exhausted
    before the input is: with no byte left, the next read is an [io.EOF]. *)
Fixpoint parseAckRanges (fuel : nat) (numBlocks : Z) (smallest : PacketNumber)
    (ranges : list AckRange) : reader (list AckRange) :=
  if numBlocks <=? 0 then mret ranges else
  match fuel with
  | O => fail EOF
  | S fuel' =>
      g ← ReadVarInt;
      let gap := int64 g in
      if smallest <? int64 (gap + 2) then fail errInvalidAckRanges else
      let largest := int64 (smallest - gap - 2) in
      ab ← ReadVarInt;
      let ackBlock := int64 ab in
      if largest <? ackBlock then fail errInvalidAckRanges else
      let smallest := int64 (largest - ackBlock) in
      parseAckRanges fuel' (numBlocks - 1) smallest (ranges ++ [mkAckRange smallest largest])
  end.

Definition parseAckFrame (ackDelayExponent : Z) : reader AckFrame :=
  typeByte ← ReadByte;
  let ecn := 0 <? Z.land typeByte 0x1 in
  la ← ReadVarInt;
  let largestAcked := int64 la in
  delay ← ReadVarInt;
  let DelayTime := int64 (int64 (uint64 (Z.shiftl (uint64 (delay * 1)) ackDelayExponent)) * Microsecond) in
  numBlocks ← ReadVarInt;
  (* read the first ACK range *)
  ab ← ReadVarInt;
  let ackBlock := int64 ab in
  if largestAcked <? ackBlock then fail (ErrorString "invalid first ACK range") else
  let smallest := int64 (largestAcked - ackBlock) in
  (* read all the other ACK ranges *)
  unread ← Len;
  ranges ← parseAckRanges (Z.to_nat unread) numBlocks smallest [mkAckRange smallest largestAcked];
  let frame := mkAckFrame ranges DelayTime in
  if negb (validateAckRanges frame) then fail errInvalidAckRanges else
  (* parse (and skip) the ECN section *)
  if ecn then
    _ ← ReadVarInt; _ ← ReadVarInt; _ ← ReadVarInt; mret frame
  else mret frame.

Definition LargestAcked (f : AckFrame) : outcome PacketNumber :=
  r ← index (AckRanges f) 0; mret (Largest r).

Definition LowestAcked (f : AckFrame) : outcome PacketNumber :=
  r ← index (AckRanges f) (length (AckRanges f) - 1); mret (Smallest r).

Definition HasMissingRanges (f : AckFrame) : bool := (1 <? length (AckRanges f))%nat.

Definition encodeAckDelay (delay : duration) : Z :=
  uint64 (Z.quot delay (1000 * Z.shiftl 1 AckDelayExponent)).

Definition encodeAckRange (f : AckFrame) (i : nat) : outcome (Z * Z) :=
  match i with
  | O =>
      r ← index (AckRanges f) 0;
      mret (0, uint64 (int64 (Largest r - Smallest r)))
  | S i' =>
      p ← index (AckRanges f) i';
      r ← index (AckRanges f) i;
      mret (uint64 (int64 (Smallest p - Largest r - 2)), uint64 (int64 (Largest r - Smallest r)))
  end.

(** The loop of [numEncodableAckRanges] at index [i], with [n] ranges left. *)
Fixpoint numEncodableAckRanges_loop (f : AckFrame) (n i : nat) (len : Z) : outcome nat :=
  match n with
  | O => mret (length (AckRanges f))
  | S n' =>
      gl ← encodeAckRange f i;
      gapLen ← VarIntLen (fst gl);
      lenLen ← VarIntLen (snd gl);
      let rangeLen := gapLen + lenLen in
      if MaxAckFrameSize <? len + rangeLen then
        (* Writing range i would exceed the MaxAckFrameSize.
           So encode one range less than that. *)
        mret (i - 1)%nat
      else numEncodableAckRanges_loop f n' (S i) (len + rangeLen)
  end.

Definition numEncodableAckRanges (f : AckFrame) : outcome nat :=
  la ← LargestAcked f;
  laLen ← VarIntLen (uint64 la);
  delayLen ← VarIntLen (encodeAckDelay (DelayTime f));
  (* assume that the number of ranges will consume 2 bytes *)
  numEncodableAckRanges_loop f (length (AckRanges f) - 1) 1 (1 + laLen + delayLen + 2).

(** The loops of [Write] and [Length] over the ranges [i], ..., [i + n - 1]. *)
Fixpoint writeAckRanges (b : bytes) (f : AckFrame) (n i : nat) : outcome bytes :=
  match n with
  | O => mret b
  | S n' =>
      gl ← encodeAckRange f i;
      b ← WriteVarInt b (fst gl);
      b ← WriteVarInt b (snd gl);
      writeAckRanges b f n' (S i)
  end.

(** [AckFrame.Write] *)
Definition writeAckFrame (b : bytes) (f : AckFrame) : outcome bytes :=
  let b := b ++ [0x2] in
  la ← LargestAcked f;
  b ← WriteVarInt b (uint64 la);
  b ← WriteVarInt b (encodeAckDelay (DelayTime f));
  numRanges ← numEncodableAckRanges f;
  b ← WriteVarInt b (uint64 (Z.of_nat numRanges - 1));
  (* write the first range *)
  gl ← encodeAckRange f 0;
  b ← WriteVarInt b (snd gl);
  (* write all the other range *)
  writeAckRanges b f (numRanges - 1) 1.

Fixpoint lengthAckRanges (len : Z) (f : AckFrame) (n i : nat) : outcome Z :=
  match n with
  | O => mret len
  | S n' =>
      gl ← encodeAckRange f i;
      gapLen ← VarIntLen (fst gl);
      lenLen ← VarIntLen (snd gl);
      lengthAckRanges (len + gapLen + lenLen) f n' (S i)
  end.

(** [AckFrame.Length] *)
Definition lengthAckFrame (f : AckFrame) : outcome ByteCount :=
  r0 ← index (AckRanges f) 0;
  let largestAcked := Largest r0 in
  numRanges ← numEncodableAckRanges f;
  laLen ← VarIntLen (uint64 largestAcked);
  delayLen ← VarIntLen (encodeAckDelay (DelayTime f));
  numLen ← VarIntLen (uint64 (Z.of_nat numRanges - 1));
  let lowestInFirstRange := Smallest r0 in
  firstLen ← VarIntLen (uint64 (int64 (largestAcked - lowestInFirstRange)));
  lengthAckRanges (1 + laLen + delayLen + numLen + firstLen) f (numRanges - 1) 1.

(** [sort.Search(n, f)]: binary search for the smallest index in [[i, j)] at
    which [f] holds; the interval shrinks at every step, so fuel [j - i]
    suffices. *)
Fixpoint Search_loop (fuel : nat) (f : nat -> bool) (i j : nat) : nat :=
  match fuel with
  | O => i
  | S fuel' =>
      if (i <? j)%nat then
        let h := ((i + j) / 2)%nat in
        if negb (f h) then Search_loop fuel' f (S h) j
        else Search_loop fuel' f i h
      else i
  end.

Definition Search (n : nat) (f : nat -> bool) : nat := Search_loop n f 0 n.

(** The predicate [AcksPacket] searches with. *)
Definition starts_at_or_below (p : PacketNumber) (f : AckFrame) (i : nat) : bool :=
  match AckRanges f !! i with
  | Some r => Smallest r <=? p
  | None => false
  end.

Definition AcksPacket (f : AckFrame) (p : PacketNumber) : outcome bool :=
  lo ← LowestAcked f;
  hi ← LargestAcked f;
  if (p <? lo) || (hi <? p) then mret false else
  r ← index (AckRanges f) (Search (length (AckRanges f)) (starts_at_or_below p f));
  mret (p <=? Largest r).

(** ** Well-formed ranges *)

(** [l] goes down from below [hi], leaving at least one packet out between
    neighbours. *)
Fixpoint descending (hi : PacketNumber) (l : list AckRange) : Prop :=
  match l with
  | [] => True
  | r :: l' => 0 <= Smallest r <= Largest r /\ Largest r + 1 < hi /\ descending (Smallest r) l'
  end.

Definition ranges_wf (l : list AckRange) : Prop :=
  match l with
  | [] => False
  | r :: l' => 0 <= Smallest r <= Largest r /\ Largest r < 2 ^ 62 /\ descending (Smallest r) l'
  end.

(** The packets a list of ranges acknowledges. *)
Definition acked_in (l : list AckRange) (p : PacketNumber) : Prop :=
  exists r, r ∈ l /\ Smallest r <= p <= Largest r.

Lemma descending_below hi l r : descending hi l -> r ∈ l -> 0 <= Smallest r <= Largest r /\ Largest r + 1 < hi.
Proof.
  revert hi. induction l as [|r0 l IH]; intros hi Hd Hr; [set_solver|].
  destruct Hd as (H0 & H1 & Hd). apply elem_of_cons in Hr as [->|Hr]; [lia|].
  destruct (IH _ Hd Hr). lia.
Qed.

Lemma descending_take hi l n : descending hi l -> descending hi (take n l).
Proof.
  revert hi n. induction l as [|r l IH]; intros hi [|n]; simpl; try done.
  intros (? & ? & ?). auto.
Qed.

Lemma neighbours_ok_descending hi l :
  Smallest hi < 2 ^ 62 ->
  Forall (fun r => 0 <= Smallest r /\ 0 <= Largest r < 2 ^ 62) l ->
  forallb range_ok l && neighbours_ok hi l = true <-> descending (Smallest hi) l.
Proof.
  revert hi. induction l as [|r l IH]; intros hi Hhi Hl; [done|].
  apply Forall_cons in Hl as [Hr Hl].
  assert (HIH := IH r). cbn [forallb neighbours_ok descending]. unfold range_ok at 1. go_ints.
  rewrite !andb_true_iff in *. rewrite negb_true_iff, Z.ltb_ge.
  split.
  - intros [[H1 H2] H3]. case_if_in H3; [done|]. case_if_in H3; [done|]. zbool.
    split_and!; [lia..|]. apply HIH; [lia|done|done].
  - intros (H1 & H2 & H3). apply HIH in H3 as [H3 H4]; [|lia|done].
    rewrite (proj2 (Z.leb_gt (Smallest hi) (Smallest r))), (proj2 (Z.leb_gt (Smallest hi) (Largest r + 1))) by lia.
    split_and!; [lia|done..].
Qed.

(** [validateAckRanges] decides well-formedness. *)
Lemma validateAckRanges_wf l d :
  Forall (fun r => 0 <= Smallest r /\ 0 <= Largest r < 2 ^ 62) l ->
  validateAckRanges (mkAckFrame l d) = true <-> ranges_wf l.
Proof.
  destruct l as [|r l]; [done|]. intros [Hr Hl]%Forall_cons.
  unfold validateAckRanges. cbn [AckRanges forallb ranges_wf]. unfold range_ok at 1.
  rewrite <- andb_assoc, andb_true_iff, negb_true_iff, Z.ltb_ge.
  split.
  - intros [H1 H2]. apply neighbours_ok_descending in H2; [|lia|done]. split_and!; by try lia.
  - intros (H1 & H2 & H3). split; [lia|]. apply neighbours_ok_descending; [lia|done|done].
Qed.

Lemma ranges_wf_bounds l :
  ranges_wf l -> Forall (fun r => 0 <= Smallest r /\ 0 <= Largest r < 2 ^ 62) l.
Proof.
  destruct l as [|r l]; [done|]. intros (H1 & H2 & Hd). constructor; [lia|].
  apply Forall_forall. intros r' Hr'. pose proof (descending_below _ _ _ Hd Hr'). lia.
Qed.

Lemma validateAckRanges_true l d : ranges_wf l -> validateAckRanges (mkAckFrame l d) = true.
Proof. intros H. apply validateAckRanges_wf; [by apply ranges_wf_bounds|done]. Qed.

(** *** Parsing *)

Lemma descending_app hi l1 r l2 :
  descending hi (l1 ++ [r]) -> descending (Smallest r) l2 -> descending hi (l1 ++ r :: l2).
Proof.
  revert hi. induction l1 as [|x l1 IH]; intros hi; simpl; [tauto|].
  intros (? & ? & ?) ?. auto.
Qed.

Lemma parseAckRanges_inv fuel n s acc r l r' :
  bytes_ok r -> 0 <= s < 2 ^ 62 -> 0 <= n ->
  parseAckRanges fuel n s acc r = Ret (l, r') ->
  bytes_ok r' /\ exists l', l = acc ++ l' /\ descending s l' /\ Z.of_nat (length l') = n.
Proof.
  revert n s acc r. induction fuel as [|fuel IH]; intros n s acc r Hr Hs Hn; cbn [parseAckRanges].
  { case_if; [|done]. intros [= <- <-]. zbool. split; [done|].
    exists []. rewrite app_nil_r. split_and!; [done|done|simpl; lia]. }
  case_if; zbool.
  { intros [= <- <-]. split; [done|]. exists []. rewrite app_nil_r.
    split_and!; [done|done|simpl; lia]. }
  intros (g & r1 & Hg & H1)%reader_bind_Ret.
  apply ReadVarInt_inv in Hg as (Hgv & Hr1 & _); [|done].
  unfold is_varint, maxVarInt8 in Hgv. revert H1. go_ints. case_if; [done|]. zbool. go_ints.
  intros (ab & r2 & Hab & H2)%reader_bind_Ret.
  apply ReadVarInt_inv in Hab as (Habv & Hr2 & _); [|done].
  unfold is_varint, maxVarInt8 in Habv. revert H2. go_ints. case_if; [done|]. zbool. go_ints.
  intros H2. apply IH in H2 as (Hr' & l' & -> & Hl' & Hlen); [|done|lia|lia].
  split; [done|]. eexists. rewrite <- app_assoc. split; [reflexivity|]. simpl.
  split_and!; [lia..|done|lia].
Qed.

(** Parsing never yields ill-formed ranges, so the explicit validation of
    [parseAckFrame] never rejects what the reading loop let through. *)
Lemma parse_ranges_wf fuel n la ab r l r' :
  bytes_ok r -> is_varint la -> is_varint ab -> is_varint n -> ab <= la ->
  parseAckRanges fuel n (la - ab) [mkAckRange (la - ab) la] r = Ret (l, r') ->
  ranges_wf l /\ bytes_ok r' /\ Z.of_nat (length l) = n + 1.
Proof.
  unfold is_varint, maxVarInt8. intros Hr Hla Hab Hn Hle H.
  apply parseAckRanges_inv in H as (Hr' & l' & -> & Hl' & Hlen); [|done|lia|lia].
  simpl. split_and!; by try lia.
Qed.

Lemma ReadVarInt_shorter r v r' :
  bytes_ok r -> ReadVarInt r = Ret (v, r') -> bytes_ok r' /\ (length r' < length r)%nat.
Proof.
  intros Hr H. apply ReadVarInt_inv in H as (_ & Hr' & d & l & -> & Hd & _); [|done].
  split; [done|]. rewrite length_app. destruct d; [done|simpl; lia].
Qed.

Lemma ReadVarInt_empty : ReadVarInt [] = Error EOF.
Proof. done. Qed.

(** Any fuel not below the number of unread bytes gives the same result. *)
Lemma parseAckRanges_fuel f1 f2 n s acc r :
  bytes_ok r -> (length r <= f1)%nat -> (length r <= f2)%nat ->
  parseAckRanges f1 n s acc r = parseAckRanges f2 n s acc r.
Proof.
  revert f2 n s acc r. induction f1 as [|f1 IH]; intros f2 n s acc r Hr H1 H2.
  - destruct r; [|simpl in H1; lia]. destruct f2; [done|]. cbn [parseAckRanges].
    by case_if.
  - destruct f2 as [|f2].
    { destruct r; [|simpl in H2; lia]. cbn [parseAckRanges]. by case_if. }
    cbn [parseAckRanges]. case_if; [done|]. unfold mbind, reader_bind.
    destruct (ReadVarInt r) as [[g r1]| |] eqn:Hg; [|done..].
    apply ReadVarInt_shorter in Hg as [Hr1 Hlt]; [|done]. case_if; [done|].
    destruct (ReadVarInt r1) as [[ab r2]| |] eqn:Hab; [|done..].
    apply ReadVarInt_shorter in Hab as [Hr2 Hlt2]; [|done]. case_if; [done|].
    apply IH; [done|lia|lia].
Qed.

Lemma parseAckFrame_inv e r f r' :
  bytes_ok r -> parseAckFrame e r = Ret (f, r') ->
  ranges_wf (AckRanges f) /\ is_int64 (DelayTime f) /\ bytes_ok r'.
Proof.
  intros Hr. unfold parseAckFrame.
  intros (tb & r1 & H1 & H)%reader_bind_Ret.
  destruct r as [|b r]; [done|]. injection H1 as <- <-. apply Forall_cons in Hr as [_ Hr].
  apply reader_bind_Ret in H as (la & r2 & H2 & H). apply ReadVarInt_inv in H2 as (Hla & Hr2 & _); [|done].
  apply reader_bind_Ret in H as (delay & r3 & H3 & H). apply ReadVarInt_inv in H3 as (_ & Hr3 & _); [|done].
  apply reader_bind_Ret in H as (nb & r4 & H4 & H). apply ReadVarInt_inv in H4 as (Hnb & Hr4 & _); [|done].
  apply reader_bind_Ret in H as (ab & r5 & H5 & H). apply ReadVarInt_inv in H5 as (Hab & Hr5 & _); [|done].
  pose proof Hla as Hla'. pose proof Hab as Hab'. unfold is_varint, maxVarInt8 in Hla', Hab'.
  set (dt := int64 (_ * Microsecond)) in H. assert (is_int64 dt) by apply int64_range. clearbody dt.
  revert H. go_ints. case_if; [done|]. zbool. go_ints. intros H.
  apply reader_bind_Ret in H as (u & r6 & [= <- <-] & H).
  apply reader_bind_Ret in H as (l & r7 & H6 & H).
  apply parse_ranges_wf in H6 as (Hwf & Hr7 & _); [|done..|lia].
  case_if_in H; [done|]. case_if_in H.
  - apply reader_bind_Ret in H as (? & r8 & H8 & H). apply ReadVarInt_shorter in H8 as [Hr8 _]; [|done].
    apply reader_bind_Ret in H as (? & r9 & H9 & H). apply ReadVarInt_shorter in H9 as [Hr9 _]; [|done].
    apply reader_bind_Ret in H as (? & r10 & H10 & H). apply ReadVarInt_shorter in H10 as [Hr10 _]; [|done].
    by injection H as <- <-.
  - by injection H as <- <-.
Qed.

(** *** Writing *)

(** The bytes of the ranges [l] below a range starting at [s]. *)
Fixpoint enc_ranges (s : PacketNumber) (l : list AckRange) : bytes :=
  match l with
  | [] => []
  | r :: l' =>
      varint_bytes (s - Largest r - 2) ++ varint_bytes (Largest r - Smallest r) ++
      enc_ranges (Smallest r) l'
  end.

Lemma index_app_length {A} (pre : list A) p l i :
  i = length pre -> index (pre ++ p :: l) i = Ret p.
Proof. intros ->. unfold index. by rewrite list_lookup_middle by done. Qed.

Lemma encodeAckRange_S d pre p r l :
  0 <= Smallest r <= Largest r -> Largest r + 1 < Smallest p -> Smallest p < 2 ^ 62 ->
  encodeAckRange (mkAckFrame (pre ++ p :: r :: l) d) (S (length pre)) =
    Ret (Smallest p - Largest r - 2, Largest r - Smallest r).
Proof.
  intros H1 H2 H3. unfold encodeAckRange. cbn [AckRanges].
  rewrite (index_app_length pre p (r :: l) (length pre)) by done. unfold mbind, outcome_bind.
  replace (pre ++ p :: r :: l) with ((pre ++ [p]) ++ r :: l) by by rewrite <- app_assoc.
  rewrite index_app_length by (rewrite length_app; simpl; lia). by go_ints.
Qed.

Lemma writeAckRanges_enc b d pre p l n :
  descending (Smallest p) l -> Smallest p < 2 ^ 62 -> (n <= length l)%nat ->
  writeAckRanges b (mkAckFrame (pre ++ p :: l) d) n (S (length pre)) =
    Ret (b ++ enc_ranges (Smallest p) (take n l)).
Proof.
  revert b pre p n. induction l as [|r l IH]; intros b pre p n Hd Hp Hn.
  { destruct n; [|simpl in Hn; lia]. simpl. by rewrite app_nil_r. }
  destruct n as [|n]; [simpl; by rewrite app_nil_r|].
  destruct Hd as (H1 & H2 & Hd). cbn [writeAckRanges].
  rewrite encodeAckRange_S by lia. unfold mbind, outcome_bind. cbn [fst snd].
  rewrite WriteVarInt_app by (unfold is_varint, maxVarInt8; lia).
  rewrite WriteVarInt_app by (unfold is_varint, maxVarInt8; lia).
  replace (pre ++ p :: r :: l) with ((pre ++ [p]) ++ r :: l) by by rewrite <- app_assoc.
  replace (S (S (length pre))) with (S (length (pre ++ [p]))) by (rewrite length_app; simpl; lia).
  rewrite IH by (try done; simpl in Hn; lia).
  simpl. by rewrite <- !app_assoc.
Qed.

Lemma lengthAckRanges_enc a d pre p l n :
  descending (Smallest p) l -> Smallest p < 2 ^ 62 -> (n <= length l)%nat ->
  lengthAckRanges a (mkAckFrame (pre ++ p :: l) d) n (S (length pre)) =
    Ret (a + Z.of_nat (length (enc_ranges (Smallest p) (take n l)))).
Proof.
  revert a pre p n. induction l as [|r l IH]; intros a pre p n Hd Hp Hn.
  { destruct n; [|simpl in Hn; lia]. simpl. unfold mret, outcome_ret. f_equal; lia. }
  destruct n as [|n]; [simpl; unfold mret, outcome_ret; f_equal; lia|].
  destruct Hd as (H1 & H2 & Hd). cbn [lengthAckRanges].
  rewrite encodeAckRange_S by lia. unfold mbind, outcome_bind. cbn [fst snd].
  rewrite !VarIntLen_length by (unfold is_varint, maxVarInt8; lia).
  replace (pre ++ p :: r :: l) with ((pre ++ [p]) ++ r :: l) by by rewrite <- app_assoc.
  replace (S (S (length pre))) with (S (length (pre ++ [p]))) by (rewrite length_app; simpl; lia).
  rewrite IH by (try done; simpl in Hn; lia).
  simpl. rewrite !length_app. f_equal. lia.
Qed.

Lemma enc_ranges_length s l :
  descending s l -> s < 2 ^ 62 -> (2 * length l <= length (enc_ranges s l))%nat.
Proof.
  revert s. induction l as [|r l IH]; intros s Hd Hs; [done|].
  destruct Hd as (H1 & H2 & Hd). simpl. rewrite !length_app.
  pose proof (varint_bytes_length (s - Largest r - 2)).
  pose proof (varint_bytes_length (Largest r - Smallest r)).
  specialize (IH _ Hd). unfold is_varint, maxVarInt8 in *. lia.
Qed.

Lemma parseAckRanges_enc fuel s acc l rest :
  descending s l -> 0 <= s < 2 ^ 62 -> (length l <= fuel)%nat ->
  parseAckRanges fuel (Z.of_nat (length l)) s acc (enc_ranges s l ++ rest) = Ret (acc ++ l, rest).
Proof.
  revert fuel s acc. induction l as [|r l IH]; intros fuel s acc Hd Hs Hf.
  { destruct fuel; simpl; by rewrite app_nil_r. }
  destruct fuel as [|fuel]; [simpl in Hf; lia|].
  destruct Hd as (H1 & H2 & Hd). cbn [parseAckRanges enc_ranges].
  rewrite (proj2 (Z.leb_gt _ 0)) by (simpl; lia).
  rewrite <- !app_assoc.
  erewrite reader_bind_eq by (apply ReadVarInt_varint_bytes; unfold is_varint, maxVarInt8; lia).
  go_ints. rewrite (proj2 (Z.ltb_ge _ _)) by lia.
  erewrite reader_bind_eq by (apply ReadVarInt_varint_bytes; unfold is_varint, maxVarInt8; lia).
  go_ints. rewrite (proj2 (Z.ltb_ge _ _)) by lia.
  replace (s - (s - Largest r - 2) - 2) with (Largest r) by lia.
  replace (Largest r - (Largest r - Smallest r)) with (Smallest r) by lia.
  go_ints. replace (Z.of_nat (length (r :: l)) - 1) with (Z.of_nat (length l)) by (simpl; lia).
  replace (mkAckRange (Smallest r) (Largest r)) with r by by destruct r.
  rewrite IH by (done || lia || simpl in Hf; lia). by rewrite <- app_assoc.
Qed.

(** What the sizing loop computes: the ranges it counts fit, and it stops
    short of the end only at a range that does not fit. *)
Lemma numEncodableAckRanges_loop_spec d pre p l len :
  descending (Smallest p) l -> Smallest p < 2 ^ 62 -> len <= MaxAckFrameSize ->
  let f := mkAckFrame (pre ++ p :: l) d in
  let sz k := len + Z.of_nat (length (enc_ranges (Smallest p) (take k l))) in
  (numEncodableAckRanges_loop f (length l) (S (length pre)) len = Ret (length (AckRanges f)) /\
   sz (length l) <= MaxAckFrameSize) \/
  (exists k, (k < length l)%nat /\ sz k <= MaxAckFrameSize < sz (S k) /\
   numEncodableAckRanges_loop f (length l) (S (length pre)) len = Ret (length pre + k)%nat).
Proof.
  revert pre p len. induction l as [|r l IH]; intros pre p len Hd Hp Hlen; cbn zeta.
  { left. split; [done|]. simpl. lia. }
  destruct Hd as (H1 & H2 & Hd). cbn [numEncodableAckRanges_loop length].
  rewrite encodeAckRange_S by lia. unfold mbind, outcome_bind. cbn [fst snd].
  rewrite !VarIntLen_length by (unfold is_varint, maxVarInt8; lia).
  case_if; zbool.
  { right. exists 0%nat. cbn [take enc_ranges]. rewrite !length_app. simpl length.
    split_and!; [lia|lia|lia|]. rewrite Nat.add_0_r. unfold mret, outcome_ret. f_equal. lia. }
  replace (pre ++ p :: r :: l) with ((pre ++ [p]) ++ r :: l) by by rewrite <- app_assoc.
  replace (S (S (length pre))) with (S (length (pre ++ [p]))) by (rewrite length_app; simpl; lia).
  destruct (IH (pre ++ [p]) r _ Hd ltac:(lia) Heqb) as [[-> Hsz]|(k & Hk & Hsz & ->)].
  - left. split; [done|]. cbn [take enc_ranges]. rewrite !length_app. lia.
  - right. exists (S k). cbn [take enc_ranges]. rewrite !length_app in *. cbn [take] in Hsz.
    split_and!; [lia|lia|lia|]. f_equal. simpl. lia.
Qed.

Definition encodable (f : AckFrame) : Prop := ranges_wf (AckRanges f) /\ 0 <= DelayTime f < 2 ^ 63.

Lemma encodeAckDelay_val d :
  0 <= d < 2 ^ 63 -> encodeAckDelay d = d / 8000 /\ is_varint (d / 8000) /\ 8000 * (d / 8000) <= d.
Proof.
  intros Hd. unfold encodeAckDelay, is_varint, maxVarInt8.
  change (1000 * Z.shiftl 1 AckDelayExponent) with 8000.
  rewrite Z.quot_div_nonneg by lia.
  assert (0 <= d / 8000 <= d) by (Z.div_mod_to_equations; lia).
  rewrite uint64_id by go_range. split_and!; [done|lia| |]; Z.div_mod_to_equations; lia.
Qed.

(** The size of everything but the range list. *)
Definition fixed_size (r0 : AckRange) (d : duration) : Z :=
  1 + Z.of_nat (length (varint_bytes (Largest r0))) + Z.of_nat (length (varint_bytes (d / 8000))).

Lemma numEncodableAckRanges_spec r0 l d :
  encodable (mkAckFrame (r0 :: l) d) ->
  exists n, numEncodableAckRanges (mkAckFrame (r0 :: l) d) = Ret n /\
    (1 <= n <= S (length l))%nat /\
    fixed_size r0 d + 2 + Z.of_nat (length (enc_ranges (Smallest r0) (take (n - 1) l))) <= MaxAckFrameSize.
Proof.
  intros [(H1 & H2 & Hd) Hdel]. cbn [DelayTime] in Hdel.
  destruct (encodeAckDelay_val d Hdel) as (Hed & Hvd & _).
  unfold numEncodableAckRanges, LargestAcked. cbn. unfold mbind, outcome_bind, mret, outcome_ret.
  rewrite Hed. go_ints. assert (Hvl : is_varint (Largest r0)) by (unfold is_varint, maxVarInt8; lia).
  rewrite !VarIntLen_length by done.
  pose proof (varint_bytes_length _ Hvl). pose proof (varint_bytes_length _ Hvd).
  fold (fixed_size r0 d). rewrite Nat.sub_0_r.
  assert (fixed_size r0 d <= 17) by (unfold fixed_size; lia).
  destruct (numEncodableAckRanges_loop_spec d [] r0 l (fixed_size r0 d + 2) Hd) as [[Hl Hsz]|(k & Hk & Hsz & Hl)];
    [lia|unfold MaxAckFrameSize; lia| |]; simpl app in Hl; simpl length in Hl; rewrite Hl.
  - exists (S (length l)). split_and!; [done|lia|lia|].
    replace (S (length l) - 1)%nat with (length l) by lia. done.
  - destruct k as [|k].
    { exfalso. destruct l as [|r l]; [simpl in Hk; lia|].
      destruct Hd as (? & ? & ?). cbn [take enc_ranges] in Hsz. rewrite !length_app in Hsz.
      pose proof (varint_bytes_length (Smallest r0 - Largest r - 2)).
      pose proof (varint_bytes_length (Largest r - Smallest r)).
      unfold is_varint, maxVarInt8, MaxAckFrameSize in *. simpl in Hsz. lia. }
    exists (S k). split_and!; [done|lia|lia|].
    replace (S k - 1)%nat with k by lia.
    assert (length (enc_ranges (Smallest r0) (take k l)) <= length (enc_ranges (Smallest r0) (take (S k) l)))%nat; [|lia].
    clear. generalize (Smallest r0). revert k. induction l as [|r l IH]; intros [|k] s; simpl; [lia..|].
    rewrite !length_app. specialize (IH k (Smallest r)). lia.
Qed.

(** The bytes of a frame that keeps the first [n] ranges. *)
Definition ack_bytes (r0 : AckRange) (l : list AckRange) (d : duration) (n : nat) : bytes :=
  [0x2] ++ varint_bytes (Largest r0) ++ varint_bytes (d / 8000) ++
  varint_bytes (Z.of_nat n - 1) ++ varint_bytes (Largest r0 - Smallest r0) ++
  enc_ranges (Smallest r0) (take (n - 1) l).

Lemma encodable_ranges_few r0 l d n :
  encodable (mkAckFrame (r0 :: l) d) -> (1 <= n <= S (length l))%nat ->
  fixed_size r0 d + 2 + Z.of_nat (length (enc_ranges (Smallest r0) (take (n - 1) l))) <= MaxAckFrameSize ->
  (n <= 500)%nat.
Proof.
  intros [(H1 & H2 & Hd) _] Hn Hsz.
  pose proof (enc_ranges_length (Smallest r0) (take (n - 1) l) (descending_take _ _ _ Hd) ltac:(lia)) as Hlen.
  rewrite length_take in Hlen. unfold fixed_size, MaxAckFrameSize in Hsz. lia.
Qed.

Lemma writeAckFrame_bytes b r0 l d :
  encodable (mkAckFrame (r0 :: l) d) ->
  exists n, numEncodableAckRanges (mkAckFrame (r0 :: l) d) = Ret n /\ (1 <= n <= S (length l))%nat /\
    (n <= 500)%nat /\
    fixed_size r0 d + 2 + Z.of_nat (length (enc_ranges (Smallest r0) (take (n - 1) l))) <= MaxAckFrameSize /\
    writeAckFrame b (mkAckFrame (r0 :: l) d) = Ret (b ++ ack_bytes r0 l d n) /\
    lengthAckFrame (mkAckFrame (r0 :: l) d) = Ret (Z.of_nat (length (ack_bytes r0 l d n))).
Proof.
  intros He. destruct (numEncodableAckRanges_spec r0 l d He) as (n & Hn & Hrange & Hsz).
  pose proof (encodable_ranges_few _ _ _ _ He Hrange Hsz) as Hfew.
  destruct He as [(H1 & H2 & Hd) Hdel]. cbn [DelayTime] in Hdel.
  destruct (encodeAckDelay_val d Hdel) as (Hed & Hvd & _).
  assert (Hvl : is_varint (Largest r0)) by (unfold is_varint, maxVarInt8; lia).
  assert (Hvn : is_varint (Z.of_nat n - 1)) by (unfold is_varint, maxVarInt8; lia).
  assert (Hvf : is_varint (Largest r0 - Smallest r0)) by (unfold is_varint, maxVarInt8; lia).
  exists n. split_and!; [done|lia|lia|done|done| |].
  - unfold writeAckFrame, LargestAcked, encodeAckRange. rewrite Hn.
    cbn [AckRanges DelayTime index lookup list_lookup]. cbn. unfold mbind, outcome_bind.
    rewrite Hed. go_ints. rewrite !WriteVarInt_app by done. 
    rewrite (writeAckRanges_enc _ d [] r0 l) by (done || lia).
    unfold ack_bytes. by rewrite <- !app_assoc.
  - unfold lengthAckFrame. rewrite Hn.
    cbn [AckRanges DelayTime index lookup list_lookup]. cbn. unfold mbind, outcome_bind.
    rewrite Hed. go_ints. rewrite !VarIntLen_length by done.
    rewrite (lengthAckRanges_enc _ d [] r0 l) by (done || lia).
    unfold ack_bytes. f_equal. rewrite !length_app. simpl length. lia.
Qed.

(** Reading back the bytes of the first [n] ranges. *)
Lemma parseAckFrame_bytes r0 l d n rest :
  encodable (mkAckFrame (r0 :: l) d) -> (1 <= n <= S (length l))%nat -> (n <= 500)%nat ->
  parseAckFrame AckDelayExponent (ack_bytes r0 l d n ++ rest) =
    Ret (mkAckFrame (r0 :: take (n - 1) l) (8000 * (d / 8000)), rest).
Proof.
  intros [(H1 & H2 & Hd) Hdel] Hn Hfew. cbn [DelayTime] in Hdel.
  destruct (encodeAckDelay_val d Hdel) as (Hed & Hvd & Hle).
  unfold ack_bytes, parseAckFrame. rewrite <- !app_assoc.
  erewrite reader_bind_eq by reflexivity.
  erewrite reader_bind_eq by (apply ReadVarInt_varint_bytes; unfold is_varint, maxVarInt8; lia).
  erewrite reader_bind_eq by by apply ReadVarInt_varint_bytes.
  erewrite reader_bind_eq by (apply ReadVarInt_varint_bytes; unfold is_varint, maxVarInt8; lia).
  erewrite reader_bind_eq by (apply ReadVarInt_varint_bytes; unfold is_varint, maxVarInt8; lia).
  unfold is_varint in Hvd. rewrite shiftl_mul by done. unfold AckDelayExponent, Microsecond, Nanosecond.
  go_ints. rewrite (proj2 (Z.ltb_ge _ _)) by lia.
  replace (Largest r0 - (Largest r0 - Smallest r0)) with (Smallest r0) by lia. go_ints.
  erewrite reader_bind_eq by reflexivity.
  set (l' := take (n - 1) l). assert (Hl' : descending (Smallest r0) l') by by apply descending_take.
  assert (Hlen : Z.of_nat n - 1 = Z.of_nat (length l')) by (unfold l'; rewrite length_take; lia).
  rewrite Hlen. erewrite reader_bind_eq.
  2: { apply parseAckRanges_enc; [done|lia|]. rewrite Nat2Z.id, length_app.
       pose proof (enc_ranges_length (Smallest r0) l' Hl'). lia. }
  replace (mkAckRange (Smallest r0) (Largest r0)) with r0 by by destruct r0.
  rewrite validateAckRanges_true by (split_and!; [lia|lia|lia|exact Hl']).
  cbn [negb]. change (0 <? Z.land 2 1) with false. unfold mret, reader_ret. do 3 f_equal. lia.
Qed.

(** *** Queries *)

Lemma Search_loop_spec fuel f i j n :
  (i <= j <= n)%nat -> (j - i <= fuel)%nat ->
  (forall a b, (a <= b < n)%nat -> f a = true -> f b = true) ->
  (forall a, (a < i)%nat -> f a = false) -> (forall a, (j <= a < n)%nat -> f a = true) ->
  let k := Search_loop fuel f i j in
  (k <= n)%nat /\ (forall a, (a < k)%nat -> f a = false) /\ (forall a, (k <= a < n)%nat -> f a = true).
Proof.
  intros Hij Hf Hmono. revert i j Hij Hf.
  induction fuel as [|fuel IH]; intros i j Hij Hf Hlo Hhi; cbn [Search_loop].
  { assert (i = j) as -> by lia. split_and!; [lia|done|done]. }
  destruct (Nat.ltb_spec i j) as [Hlt|Hge].
  2: { assert (i = j) as -> by lia. split_and!; [lia|done|done]. }
  assert (i <= (i + j) / 2 < j)%nat as Hh.
  { split; [apply Nat.div_le_lower_bound; lia|apply Nat.div_lt_upper_bound; lia]. }
  destruct (f ((i + j) / 2)%nat) eqn:Hfh; cbn [negb].
  - apply IH; [lia|lia|done|]. intros a Ha. apply (Hmono ((i + j) / 2)%nat); [lia|done].
  - apply IH; [lia|lia| |done]. intros a Ha.
    destruct (f a) eqn:Hfa; [|done]. rewrite (Hmono a ((i + j) / 2)%nat) in Hfh; [done|lia|done].
Qed.

(** [sort.Search] finds the boundary of a monotone predicate. *)
Lemma Search_spec n f :
  (forall a b, (a <= b < n)%nat -> f a = true -> f b = true) ->
  (Search n f <= n)%nat /\ (forall a, (a < Search n f)%nat -> f a = false) /\
  (forall a, (Search n f <= a < n)%nat -> f a = true).
Proof. intros H. apply Search_loop_spec; [lia|lia|done|lia|lia]. Qed.

Lemma descending_lookup hi l i j r r' :
  descending hi l -> (i < j)%nat -> l !! i = Some r -> l !! j = Some r' ->
  Largest r' + 1 < Smallest r.
Proof.
  revert hi i j. induction l as [|x l IH]; intros hi i j Hd Hij Hi Hj; [done|].
  destruct Hd as (_ & _ & Hd). destruct j as [|j]; [lia|]. simpl in Hj.
  destruct i as [|i]; simpl in Hi.
  - injection Hi as ->. apply (descending_below _ _ _ Hd). by eapply list_elem_of_lookup_2.
  - by apply (IH _ i j Hd); [lia|..].
Qed.

Lemma ranges_wf_descending l : ranges_wf l -> descending (2 ^ 62 + 1) l.
Proof. destruct l; [done|]. intros (? & ? & ?). split_and!; by try lia. Qed.

Lemma starts_mono p l d a b :
  ranges_wf l -> (a <= b < length l)%nat ->
  starts_at_or_below p (mkAckFrame l d) a = true -> starts_at_or_below p (mkAckFrame l d) b = true.
Proof.
  intros Hwf Hab. unfold starts_at_or_below. cbn [AckRanges].
  destruct (l !! a) as [ra|] eqn:Ha; [|done]. intros Hle; zbool.
  destruct (lookup_lt_is_Some_2 l b) as [rb Hb]; [lia|]. rewrite Hb.
  apply Z.leb_le. destruct (decide (a = b)) as [->|]; [simplify_eq; lia|].
  pose proof (ranges_wf_descending _ Hwf) as Hd.
  pose proof (descending_lookup _ _ _ _ _ _ Hd (ltac:(lia) : (a < b)%nat) Ha Hb).
  pose proof (descending_below _ _ rb Hd). 
  assert (rb ∈ l) by by eapply list_elem_of_lookup_2. intuition lia.
Qed.

(** Below the last range, above the first one: nothing is acknowledged. *)
Lemma acked_in_bounds l p r0 rn :
  ranges_wf l -> l !! 0%nat = Some r0 -> l !! (length l - 1)%nat = Some rn ->
  acked_in l p -> Smallest rn <= p <= Largest r0.
Proof.
  intros Hwf H0 Hn (r & Hr & Hp). apply list_elem_of_lookup in Hr as [i Hi].
  pose proof (ranges_wf_descending _ Hwf) as Hd.
  assert (Hin : forall r, r ∈ l -> 0 <= Smallest r <= Largest r)
    by (intros r' Hr'; apply (descending_below _ _ _ Hd Hr')).
  pose proof (Hin r ltac:(by eapply list_elem_of_lookup_2)).
  pose proof (Hin r0 ltac:(by eapply list_elem_of_lookup_2)).
  pose proof (Hin rn ltac:(by eapply list_elem_of_lookup_2)).
  pose proof (lookup_lt_Some _ _ _ Hi). split.
  - destruct (decide (i = length l - 1)%nat) as [->|]; [simplify_eq; lia|].
    pose proof (descending_lookup _ _ i (length l - 1) _ _ Hd ltac:(lia) Hi Hn). lia.
  - destruct (decide (i = 0)%nat) as [->|]; [simplify_eq; lia|].
    pose proof (descending_lookup _ _ 0 i _ _ Hd ltac:(lia) H0 Hi). lia.
Qed.

Lemma AcksPacket_spec l d p :
  ranges_wf l ->
  exists b, AcksPacket (mkAckFrame l d) p = Ret b /\ (b = true <-> acked_in l p).
Proof.
  intros Hwf. assert (length l <> 0)%nat as Hne by by destruct l.
  destruct (lookup_lt_is_Some_2 l 0) as [r0 H0]; [lia|].
  destruct (lookup_lt_is_Some_2 l (length l - 1)) as [rn Hn]; [lia|].
  pose proof (acked_in_bounds l p r0 rn Hwf H0 Hn) as Hbounds.
  unfold AcksPacket, LowestAcked, LargestAcked, index. cbn [AckRanges].
  rewrite Hn, H0. cbn. unfold mret, outcome_ret.
  destruct (Z.ltb_spec p (Smallest rn)); [exists false; split; [done|]; split; [done|]; intros Ha%Hbounds; lia|].
  destruct (Z.ltb_spec (Largest r0) p); [exists false; split; [done|]; split; [done|]; intros Ha%Hbounds; lia|].
  cbn [orb].
  destruct (Search_spec (length l) (starts_at_or_below p (mkAckFrame l d))) as (Hk & Hlo & Hhi).
  { intros a b Hab. by apply starts_mono. }
  set (k := Search _ _) in *. clearbody k.
  assert (k < length l)%nat as Hk'.
  { destruct (decide (k = length l)) as [->|]; [|lia].
    specialize (Hlo (length l - 1)%nat ltac:(lia)). unfold starts_at_or_below in Hlo.
    cbn [AckRanges] in Hlo. rewrite Hn in Hlo. zbool. lia. }
  destruct (lookup_lt_is_Some_2 l k Hk') as [r Hr]. rewrite Hr.
  specialize (Hhi k ltac:(lia)). unfold starts_at_or_below in Hhi. cbn [AckRanges] in Hhi.
  rewrite Hr in Hhi. zbool. eexists. split; [reflexivity|]. rewrite Z.leb_le. split.
  - intros. exists r. split; [by eapply list_elem_of_lookup_2|lia].
  - intros (r' & Hr' & Hp). apply list_elem_of_lookup in Hr' as [i Hi].
    pose proof (ranges_wf_descending _ Hwf) as Hd.
    destruct (Nat.lt_trichotomy i k) as [Hlt|[->|Hgt]].
    + specialize (Hlo i Hlt). unfold starts_at_or_below in Hlo. cbn [AckRanges] in Hlo.
      rewrite Hi in Hlo. zbool. lia.
    + simplify_eq. lia.
    + pose proof (descending_lookup _ _ k i _ _ Hd Hgt Hr Hi). lia.
Qed.

(** ** Properties *)

(** C36. Round trip of ACK frames: a well-formed frame is written without a
    panic, in exactly the number of bytes [Length] announces; reading the bytes
    back gives the frame with its first [n] ranges, the ones
    [numEncodableAckRanges] lets through (at least one), and the delay rounded
    down to the unit of the delay exponent. *)
Theorem ack_frame_roundtrip b f rest :
  encodable f ->
  exists n bs, numEncodableAckRanges f = Ret n /\ (1 <= n)%nat /\
    writeAckFrame b f = Ret (b ++ bs) /\ lengthAckFrame f = Ret (Z.of_nat (length bs)) /\
    parseAckFrame AckDelayExponent (bs ++ rest) =
      Ret (mkAckFrame (take n (AckRanges f)) (8000 * (DelayTime f / 8000)), rest).
Proof.
  destruct f as [[|r0 l] d]; intros Henc; [by destruct Henc|].
  destruct (writeAckFrame_bytes b r0 l d Henc) as (n & Hn & Hr & Hf & _ & Hw & Hl).
  exists n, (ack_bytes r0 l d n). split_and!; try done; [lia|].
  rewrite parseAckFrame_bytes by done. destruct n; [lia|]. cbn. by rewrite Nat.sub_0_r.
Qed.

Lemma ack_frame_roundtrip_witness :
  exists n bs, numEncodableAckRanges (mkAckFrame [mkAckRange 8 10; mkAckRange 1 5] 16001) = Ret n /\
    (1 <= n)%nat /\
    writeAckFrame [9] (mkAckFrame [mkAckRange 8 10; mkAckRange 1 5] 16001) = Ret ([9] ++ bs) /\
    lengthAckFrame (mkAckFrame [mkAckRange 8 10; mkAckRange 1 5] 16001) = Ret (Z.of_nat (length bs)) /\
    parseAckFrame AckDelayExponent (bs ++ [4]) =
      Ret (mkAckFrame (take n [mkAckRange 8 10; mkAckRange 1 5]) (8000 * (16001 / 8000)), [4]).
Proof. apply (ack_frame_roundtrip [9] (mkAckFrame [mkAckRange 8 10; mkAckRange 1 5] 16001) [4]). by vm_compute. Defined.

(** What the parser accepts is well formed (ranges in descending order,
    disjoint, not adjacent, within the 62-bit packet numbers), and on such a
    frame the binary search of [AcksPacket] never panics and decides exactly
    whether the packet is in one of the ranges. *)
Theorem ack_frame_parsed_membership e r f r' p :
  bytes_ok r -> parseAckFrame e r = Ret (f, r') ->
  ranges_wf (AckRanges f) /\
  exists a, AcksPacket f p = Ret a /\ (a = true <-> acked_in (AckRanges f) p).
Proof.
  intros Hr H. destruct (parseAckFrame_inv e r f r' Hr H) as (Hwf & _). split; [done|].
  destruct f as [l d]. by apply AcksPacket_spec.
Qed.

Lemma ack_frame_parsed_membership_witness :
  exists a, AcksPacket (mkAckFrame [mkAckRange 8 10; mkAckRange 1 5] 0) 4 = Ret a /\
    (a = true <-> acked_in [mkAckRange 8 10; mkAckRange 1 5] 4).
Proof.
  refine (proj2 (ack_frame_parsed_membership 3 [2; 10; 0; 1; 2; 1; 4; 77]
    (mkAckFrame [mkAckRange 8 10; mkAckRange 1 5] 0) [77] 4 _ _)); [by repeat constructor|by vm_compute].
Defined.

(** The size of a written ACK frame: at most 8 bytes over
    [MaxAckFrameSize], because the length of the first range is not counted when
    the ranges to encode are chosen. *)
Lemma lengthAckFrame_bound f :
  encodable f -> exists len, lengthAckFrame f = Ret len /\ len <= MaxAckFrameSize + 8.
Proof.
  destruct f as [[|r0 l] d]; intros Henc; [by destruct Henc|].
  destruct (writeAckFrame_bytes [] r0 l d Henc) as (n & _ & Hn & Hf & Hsz & _ & ->).
  eexists. split; [reflexivity|]. destruct Henc as [(H1 & H2 & _) _].
  unfold ack_bytes. rewrite !length_app. unfold fixed_size in Hsz.
  pose proof (varint_bytes_length (Largest r0 - Smallest r0) ltac:(unfold is_varint, maxVarInt8; lia)).
  pose proof (varint_bytes_small (Z.of_nat n - 1) ltac:(unfold maxVarInt2; lia)). cbn [length]. lia.
Qed.

(** A range of 101 packets, and 497 single packets, two apart, below it. *)
Definition long_ack : AckFrame :=
  mkAckFrame (mkAckRange 11000 11100 :: map (fun i => mkAckRange (10998 - 2 * i) (10998 - 2 * i)) (seqZ 0 497)) 0.

(** The limit is really exceeded: a well-formed ACK frame whose
    [Length] is larger than [MaxAckFrameSize]. *)
Theorem ack_frame_exceeds_limit :
  encodable long_ack /\ exists len, lengthAckFrame long_ack = Ret len /\ MaxAckFrameSize < len.
Proof.
  split.
  - split; [|by vm_compute]. apply (validateAckRanges_wf (AckRanges long_ack) 0); [|by vm_compute].
    apply (bool_decide_eq_true_1 (Forall (fun r => 0 <= Smallest r /\ 0 <= Largest r < 2 ^ 62) _)). by vm_compute.
  - eexists. split; [vm_compute; reflexivity|by vm_compute].
Qed.
