(* ===== verification/Frames.v ===== *)
(** * Frames (internal/wire)

    Every frame type but ACK, which has a file of its own: the struct, the
    parser, [Write] and [Length], then the frame parser that dispatches on the
    type byte.  [Write] appends to the buffer and returns an error value, so
    its result is the buffer and the error; a panic of the varint writer is a
    panic of [Write]. *)

From S2P Require Import Prelude VarInt Protocol AckFrame.

(** ** connection_id.go *)

(** [type ConnectionID []byte] *)
Definition ConnectionID := bytes.

(** [io.ReadFull] with [io.ErrUnexpectedEOF] reported as [io.EOF]. *)
Definition ReadFullEOF (n : nat) : reader bytes := fun r =>
  match ReadFull n r with
  | Error UnexpectedEOF => Error EOF
  | x => x
  end.

Definition ReadConnectionID (len : Z) : reader ConnectionID :=
  if len =? 0 then mret [] else ReadFullEOF (Z.to_nat len).

(** ** stream_frame.go *)

Record StreamFrame := mkStreamFrame {
  sf_StreamID : StreamID;
  sf_FinBit : bool;
  sf_DataLenPresent : bool;
  sf_Offset : ByteCount;
  sf_Data : bytes
}.

(** [DataLen] *)
Definition DataLen (f : StreamFrame) : ByteCount := Z.of_nat (length (sf_Data f)).

Definition FrameEncodingError : Z := 0x7.

Definition parseStreamFrame : reader StreamFrame :=
  typeByte ← ReadByte;
  let hasOffset := 0 <? Z.land typeByte 0x4 in
  let finBit := 0 <? Z.land typeByte 0x1 in
  let dataLenPresent := 0 <? Z.land typeByte 0x2 in
  streamID ← ReadVarInt;
  offset ← (if hasOffset then ReadVarInt else mret 0);
  dataLen ← (if dataLenPresent then
               dataLen ← ReadVarInt;
               remaining ← Len;
               (* shortcut to prevent the unnecessary allocation of dataLen bytes *)
               if remaining <? dataLen then fail EOF else mret dataLen
             else (* the rest of the packet is data *) Len);
  data ← (if negb (dataLen =? 0) then ReadFull (Z.to_nat dataLen) else mret []);
  let frame := mkStreamFrame (int64 streamID) finBit dataLenPresent offset data in
  if MaxByteCount <? uint64 (sf_Offset frame + DataLen frame) then
    fail (QuicError FrameEncodingError (ErrorString "stream data overflows maximum offset"))
  else mret frame.

Definition writeStreamFrame (b : bytes) (f : StreamFrame) : outcome (bytes * option goerr) :=
  if (length (sf_Data f) =? 0)%nat && negb (sf_FinBit f) then
    mret (b, Some (ErrorString "StreamFrame: attempting to write empty frame without FIN"))
  else
  let typeByte := 0x8 in
  let typeByte := if sf_FinBit f then Z.lxor typeByte 0x1 else typeByte in
  let hasOffset := negb (sf_Offset f =? 0) in
  let typeByte := if sf_DataLenPresent f then Z.lxor typeByte 0x2 else typeByte in
  let typeByte := if hasOffset then Z.lxor typeByte 0x4 else typeByte in
  let b := b ++ [typeByte] in
  b ← WriteVarInt b (uint64 (sf_StreamID f));
  b ← (if hasOffset then WriteVarInt b (sf_Offset f) else mret b);
  b ← (if sf_DataLenPresent f then WriteVarInt b (DataLen f) else mret b);
  mret (b ++ sf_Data f, None).

Definition lengthStreamFrame (f : StreamFrame) : outcome ByteCount :=
  idLen ← VarIntLen (uint64 (sf_StreamID f));
  let length := 1 + idLen in
  length ← (if negb (sf_Offset f =? 0) then l ← VarIntLen (sf_Offset f); mret (length + l)
            else mret length);
  length ← (if sf_DataLenPresent f then l ← VarIntLen (DataLen f); mret (length + l)
            else mret length);
  mret (length + DataLen f).

(** [StreamFrame.MaxDataLen] *)
Definition MaxDataLen (f : StreamFrame) (maxSize : ByteCount) : outcome ByteCount :=
  idLen ← VarIntLen (uint64 (sf_StreamID f));
  let headerLen := 1 + idLen in
  headerLen ← (if negb (sf_Offset f =? 0) then l ← VarIntLen (sf_Offset f); mret (headerLen + l)
               else mret headerLen);
  (* pretend that the data size will be 1 bytes; if it turns out that varint
     encoding the length will consume 2 bytes, we need to adjust the data
     length afterwards *)
  let headerLen := if sf_DataLenPresent f then headerLen + 1 else headerLen in
  if maxSize <? headerLen then mret 0 else
  let maxDataLen := maxSize - headerLen in
  if sf_DataLenPresent f then
    l ← VarIntLen maxDataLen;
    mret (if negb (l =? 1) then maxDataLen - 1 else maxDataLen)
  else mret maxDataLen.

(** [StreamFrame.MaybeSplitOffFrame]: the frame split off (or nil), the error,
    and the frame that is left.  [f.Data[n:]] panics when [n] is larger than
    the length of the data. *)
Definition MaybeSplitOffFrame (f : StreamFrame) (maxSize : ByteCount) :
    outcome (option StreamFrame * option goerr * StreamFrame) :=
  len ← lengthStreamFrame f;
  if len <=? maxSize then mret (None, None, f) else
  n ← MaxDataLen f maxSize;
  if n =? 0 then mret (None, Some (ErrorString "too small"), f) else
  if DataLen f <? n then Panic "slice bounds out of range" else
  let newFrame := {|
    sf_FinBit := false;
    sf_StreamID := sf_StreamID f;
    sf_Offset := sf_Offset f;
    sf_Data := take (Z.to_nat n) (sf_Data f);
    sf_DataLenPresent := sf_DataLenPresent f |} in
  let f := {|
    sf_FinBit := sf_FinBit f;
    sf_StreamID := sf_StreamID f;
    sf_Offset := uint64 (sf_Offset f + n);
    sf_Data := drop (Z.to_nat n) (sf_Data f);
    sf_DataLenPresent := sf_DataLenPresent f |} in
  mret (Some newFrame, None, f).

(** ** crypto_frame.go *)

Record CryptoFrame := mkCryptoFrame {
  cf_Offset : ByteCount;
  cf_Data : bytes
}.

Definition parseCryptoFrame : reader CryptoFrame :=
  _ ← ReadByte;
  offset ← ReadVarInt;
  dataLen ← ReadVarInt;
  remaining ← Len;
  if remaining <? dataLen then fail EOF else
  data ← (if negb (dataLen =? 0) then ReadFull (Z.to_nat dataLen) else mret []);
  mret (mkCryptoFrame offset data).

Definition writeCryptoFrame (b : bytes) (f : CryptoFrame) : outcome (bytes * option goerr) :=
  let b := b ++ [0x6] in
  b ← WriteVarInt b (cf_Offset f);
  b ← WriteVarInt b (Z.of_nat (length (cf_Data f)));
  mret (b ++ cf_Data f, None).

Definition lengthCryptoFrame (f : CryptoFrame) : outcome ByteCount :=
  l1 ← VarIntLen (cf_Offset f);
  l2 ← VarIntLen (Z.of_nat (length (cf_Data f)));
  mret (1 + l1 + l2 + Z.of_nat (length (cf_Data f))).

(** [CryptoFrame.MaxDataLen] *)
Definition CryptoMaxDataLen (f : CryptoFrame) (maxSize : ByteCount) : outcome ByteCount :=
  l1 ← VarIntLen (cf_Offset f);
  let headerLen := 1 + l1 + 1 in
  if maxSize <? headerLen then mret 0 else
  let maxDataLen := maxSize - headerLen in
  l ← VarIntLen maxDataLen;
  mret (if negb (l =? 1) then maxDataLen - 1 else maxDataLen).

(** ** connection_close_frame.go *)

Record ConnectionCloseFrame := mkConnectionCloseFrame {
  cc_IsApplicationError : bool;
  cc_ErrorCode : Z;
  cc_ReasonPhrase : bytes
}.

Definition parseConnectionCloseFrame : reader ConnectionCloseFrame :=
  typeByte ← ReadByte;
  let isApplicationError := typeByte =? 0x1d in
  ec ← ReadUint16;
  (* read the Frame Type, if this is not an application error *)
  _ ← (if negb isApplicationError then ReadVarInt else mret 0);
  reasonPhraseLen ← ReadVarInt;
  remaining ← Len;
  if remaining <? int64 reasonPhraseLen then fail EOF else
  reasonPhrase ← ReadFull (Z.to_nat reasonPhraseLen);
  mret (mkConnectionCloseFrame isApplicationError ec reasonPhrase).

Definition lengthConnectionCloseFrame (f : ConnectionCloseFrame) : outcome ByteCount :=
  l ← VarIntLen (Z.of_nat (length (cc_ReasonPhrase f)));
  let len := 1 + 2 + l + Z.of_nat (length (cc_ReasonPhrase f)) in
  mret (if negb (cc_IsApplicationError f) then len + 1 else len).

Definition writeConnectionCloseFrame (b : bytes) (f : ConnectionCloseFrame) :
    outcome (bytes * option goerr) :=
  let b := if cc_IsApplicationError f then b ++ [0x1d] else b ++ [0x1c] in
  let b := WriteUint16 b (cc_ErrorCode f) in
  b ← (if negb (cc_IsApplicationError f) then WriteVarInt b 0 else mret b);
  b ← WriteVarInt b (Z.of_nat (length (cc_ReasonPhrase f)));
  mret (b ++ cc_ReasonPhrase f, None).

(** ** reset_stream_frame.go *)

Record ResetStreamFrame := mkResetStreamFrame {
  rs_StreamID : StreamID;
  rs_ErrorCode : Z;
  rs_ByteOffset : ByteCount
}.

Definition parseResetStreamFrame : reader ResetStreamFrame :=
  _ ← ReadByte;
  sid ← ReadVarInt;
  errorCode ← ReadUint16;
  bo ← ReadVarInt;
  mret (mkResetStreamFrame (int64 sid) errorCode bo).

Definition writeResetStreamFrame (b : bytes) (f : ResetStreamFrame) : outcome (bytes * option goerr) :=
  let b := b ++ [0x4] in
  b ← WriteVarInt b (uint64 (rs_StreamID f));
  let b := WriteUint16 b (rs_ErrorCode f) in
  b ← WriteVarInt b (rs_ByteOffset f);
  mret (b, None).

Definition lengthResetStreamFrame (f : ResetStreamFrame) : outcome ByteCount :=
  l1 ← VarIntLen (uint64 (rs_StreamID f));
  l2 ← VarIntLen (rs_ByteOffset f);
  mret (1 + l1 + 2 + l2).

(** ** stop_sending_frame.go *)

Record StopSendingFrame := mkStopSendingFrame {
  ss_StreamID : StreamID;
  ss_ErrorCode : Z
}.

Definition parseStopSendingFrame : reader StopSendingFrame :=
  _ ← ReadByte;
  streamID ← ReadVarInt;
  errorCode ← ReadUint16;
  mret (mkStopSendingFrame (int64 streamID) errorCode).

Definition lengthStopSendingFrame (f : StopSendingFrame) : outcome ByteCount :=
  l ← VarIntLen (uint64 (ss_StreamID f));
  mret (1 + l + 2).

Definition writeStopSendingFrame (b : bytes) (f : StopSendingFrame) : outcome (bytes * option goerr) :=
  let b := b ++ [0x5] in
  b ← WriteVarInt b (uint64 (ss_StreamID f));
  mret (WriteUint16 b (ss_ErrorCode f), None).

(** ** new_token_frame.go *)

Record NewTokenFrame := mkNewTokenFrame {
  nt_Token : bytes
}.

Definition parseNewTokenFrame : reader NewTokenFrame :=
  _ ← ReadByte;
  tokenLen ← ReadVarInt;
  remaining ← Len;
  if remaining <? tokenLen then fail EOF else
  token ← ReadFull (Z.to_nat tokenLen);
  mret (mkNewTokenFrame token).

Definition writeNewTokenFrame (b : bytes) (f : NewTokenFrame) : outcome (bytes * option goerr) :=
  let b := b ++ [0x7] in
  b ← WriteVarInt b (Z.of_nat (length (nt_Token f)));
  mret (b ++ nt_Token f, None).

Definition lengthNewTokenFrame (f : NewTokenFrame) : outcome ByteCount :=
  l ← VarIntLen (Z.of_nat (length (nt_Token f)));
  mret (1 + l + Z.of_nat (length (nt_Token f))).

(** ** max_data_frame.go *)

Record MaxDataFrame := mkMaxDataFrame {
  md_ByteOffset : ByteCount
}.

Definition parseMaxDataFrame : reader MaxDataFrame :=
  _ ← ReadByte;
  byteOffset ← ReadVarInt;
  mret (mkMaxDataFrame byteOffset).

Definition writeMaxDataFrame (b : bytes) (f : MaxDataFrame) : outcome (bytes * option goerr) :=
  let b := b ++ [0x10] in
  b ← WriteVarInt b (md_ByteOffset f);
  mret (b, None).

Definition lengthMaxDataFrame (f : MaxDataFrame) : outcome ByteCount :=
  l ← VarIntLen (md_ByteOffset f);
  mret (1 + l).

(** ** max_stream_data_frame.go *)

Record MaxStreamDataFrame := mkMaxStreamDataFrame {
  msd_StreamID : StreamID;
  msd_ByteOffset : ByteCount
}.

Definition parseMaxStreamDataFrame : reader MaxStreamDataFrame :=
  _ ← ReadByte;
  sid ← ReadVarInt;
  offset ← ReadVarInt;
  mret (mkMaxStreamDataFrame (int64 sid) offset).

Definition writeMaxStreamDataFrame (b : bytes) (f : MaxStreamDataFrame) : outcome (bytes * option goerr) :=
  let b := b ++ [0x11] in
  b ← WriteVarInt b (uint64 (msd_StreamID f));
  b ← WriteVarInt b (msd_ByteOffset f);
  mret (b, None).

Definition lengthMaxStreamDataFrame (f : MaxStreamDataFrame) : outcome ByteCount :=
  l1 ← VarIntLen (uint64 (msd_StreamID f));
  l2 ← VarIntLen (msd_ByteOffset f);
  mret (1 + l1 + l2).

(** ** max_streams_frame.go *)

Record MaxStreamsFrame := mkMaxStreamsFrame {
  ms_Type : StreamType;
  ms_MaxStreamNum : StreamNum
}.

(** [f.Type] keeps its zero value for any other type byte. *)
Definition parseMaxStreamsFrame : reader MaxStreamsFrame :=
  typeByte ← ReadByte;
  let stype := if typeByte =? 0x12 then StreamTypeBidi else StreamTypeUni in
  streamID ← ReadVarInt;
  mret (mkMaxStreamsFrame stype (int64 streamID)).

Definition writeMaxStreamsFrame (b : bytes) (f : MaxStreamsFrame) : outcome (bytes * option goerr) :=
  let b := match ms_Type f with
           | StreamTypeBidi => b ++ [0x12]
           | StreamTypeUni => b ++ [0x13]
           end in
  b ← WriteVarInt b (uint64 (ms_MaxStreamNum f));
  mret (b, None).

Definition lengthMaxStreamsFrame (f : MaxStreamsFrame) : outcome ByteCount :=
  l ← VarIntLen (uint64 (ms_MaxStreamNum f));
  mret (1 + l).

(** ** data_blocked_frame.go *)

Record DataBlockedFrame := mkDataBlockedFrame {
  db_DataLimit : ByteCount
}.

Definition parseDataBlockedFrame : reader DataBlockedFrame :=
  _ ← ReadByte;
  offset ← ReadVarInt;
  mret (mkDataBlockedFrame offset).

Definition writeDataBlockedFrame (b : bytes) (f : DataBlockedFrame) : outcome (bytes * option goerr) :=
  let b := b ++ [0x14] in
  b ← WriteVarInt b (db_DataLimit f);
  mret (b, None).

Definition lengthDataBlockedFrame (f : DataBlockedFrame) : outcome ByteCount :=
  l ← VarIntLen (db_DataLimit f);
  mret (1 + l).

(** ** stream_data_blocked_frame.go *)

Record StreamDataBlockedFrame := mkStreamDataBlockedFrame {
  sdb_StreamID : StreamID;
  sdb_DataLimit : ByteCount
}.

Definition parseStreamDataBlockedFrame : reader StreamDataBlockedFrame :=
  _ ← ReadByte;
  sid ← ReadVarInt;
  offset ← ReadVarInt;
  mret (mkStreamDataBlockedFrame (int64 sid) offset).

Definition writeStreamDataBlockedFrame (b : bytes) (f : StreamDataBlockedFrame) :
    outcome (bytes * option goerr) :=
  let b := b ++ [0x15] in
  b ← WriteVarInt b (uint64 (sdb_StreamID f));
  b ← WriteVarInt b (sdb_DataLimit f);
  mret (b, None).

Definition lengthStreamDataBlockedFrame (f : StreamDataBlockedFrame) : outcome ByteCount :=
  l1 ← VarIntLen (uint64 (sdb_StreamID f));
  l2 ← VarIntLen (sdb_DataLimit f);
  mret (1 + l1 + l2).

(** ** streams_blocked_frame.go *)

Record StreamsBlockedFrame := mkStreamsBlockedFrame {
  sb_Type : StreamType;
  sb_StreamLimit : StreamNum
}.

Definition parseStreamsBlockedFrame : reader StreamsBlockedFrame :=
  typeByte ← ReadByte;
  let stype := if typeByte =? 0x16 then StreamTypeBidi else StreamTypeUni in
  streamLimit ← ReadVarInt;
  mret (mkStreamsBlockedFrame stype (int64 streamLimit)).

Definition writeStreamsBlockedFrame (b : bytes) (f : StreamsBlockedFrame) :
    outcome (bytes * option goerr) :=
  let b := match sb_Type f with
           | StreamTypeBidi => b ++ [0x16]
           | StreamTypeUni => b ++ [0x17]
           end in
  b ← WriteVarInt b (uint64 (sb_StreamLimit f));
  mret (b, None).

Definition lengthStreamsBlockedFrame (f : StreamsBlockedFrame) : outcome ByteCount :=
  l ← VarIntLen (uint64 (sb_StreamLimit f));
  mret (1 + l).

(** ** new_connection_id_frame.go *)

Record NewConnectionIDFrame := mkNewConnectionIDFrame {
  nc_SequenceNumber : Z;
  nc_ConnectionID : ConnectionID;
  nc_StatelessResetToken : bytes (* [16]byte *)
}.

Definition parseNewConnectionIDFrame : reader NewConnectionIDFrame :=
  _ ← ReadByte;
  seq ← ReadVarInt;
  connIDLen ← ReadByte;
  if (connIDLen <? 4) || (18 <? connIDLen) then
    fail (Errorf "invalid connection ID length: %d" [connIDLen])
  else
  connID ← ReadConnectionID connIDLen;
  token ← ReadFullEOF 16;
  mret (mkNewConnectionIDFrame seq connID token).

Definition writeNewConnectionIDFrame (b : bytes) (f : NewConnectionIDFrame) :
    outcome (bytes * option goerr) :=
  let b := b ++ [0x18] in
  b ← WriteVarInt b (nc_SequenceNumber f);
  let connIDLen := Z.of_nat (length (nc_ConnectionID f)) in
  if (connIDLen <? 4) || (18 <? connIDLen) then
    mret (b, Some (Errorf "invalid connection ID length: %d" [connIDLen]))
  else
  mret (b ++ [uint8 connIDLen] ++ nc_ConnectionID f ++ nc_StatelessResetToken f, None).

Definition lengthNewConnectionIDFrame (f : NewConnectionIDFrame) : outcome ByteCount :=
  l ← VarIntLen (nc_SequenceNumber f);
  mret (1 + l + 1 + Z.of_nat (length (nc_ConnectionID f)) + 16).

(** ** retire_connection_id_frame.go *)

Record RetireConnectionIDFrame := mkRetireConnectionIDFrame {
  rc_SequenceNumber : Z
}.

Definition parseRetireConnectionIDFrame : reader RetireConnectionIDFrame :=
  _ ← ReadByte;
  seq ← ReadVarInt;
  mret (mkRetireConnectionIDFrame seq).

Definition writeRetireConnectionIDFrame (b : bytes) (f : RetireConnectionIDFrame) :
    outcome (bytes * option goerr) :=
  let b := b ++ [0x19] in
  b ← WriteVarInt b (rc_SequenceNumber f);
  mret (b, None).

Definition lengthRetireConnectionIDFrame (f : RetireConnectionIDFrame) : outcome ByteCount :=
  l ← VarIntLen (rc_SequenceNumber f);
  mret (1 + l).

(** ** path_challenge_frame.go, path_response_frame.go, ping_frame.go *)

Record PathChallengeFrame := mkPathChallengeFrame {
  pc_Data : bytes (* [8]byte *)
}.

Definition parsePathChallengeFrame : reader PathChallengeFrame :=
  _ ← ReadByte;
  data ← ReadFullEOF 8;
  mret (mkPathChallengeFrame data).

Definition writePathChallengeFrame (b : bytes) (f : PathChallengeFrame) : outcome (bytes * option goerr) :=
  mret (b ++ [0x1a] ++ pc_Data f, None).

Definition lengthPathChallengeFrame (f : PathChallengeFrame) : outcome ByteCount := mret (1 + 8).

Record PathResponseFrame := mkPathResponseFrame {
  pr_Data : bytes (* [8]byte *)
}.

Definition parsePathResponseFrame : reader PathResponseFrame :=
  _ ← ReadByte;
  data ← ReadFullEOF 8;
  mret (mkPathResponseFrame data).

Definition writePathResponseFrame (b : bytes) (f : PathResponseFrame) : outcome (bytes * option goerr) :=
  mret (b ++ [0x1b] ++ pr_Data f, None).

Definition lengthPathResponseFrame (f : PathResponseFrame) : outcome ByteCount := mret (1 + 8).

Definition parsePingFrame : reader unit := _ ← ReadByte; mret tt.
Definition writePingFrame (b : bytes) : outcome (bytes * option goerr) := mret (b ++ [0x1], None).
Definition lengthPingFrame : outcome ByteCount := mret 1.

(** ** interface.go, frame_parser.go *)

(** The implementations of the interface [wire.Frame]. *)
Inductive Frame : Type :=
| FStream (f : StreamFrame)
| FPing
| FAck (f : AckFrame)
| FResetStream (f : ResetStreamFrame)
| FStopSending (f : StopSendingFrame)
| FCrypto (f : CryptoFrame)
| FNewToken (f : NewTokenFrame)
| FMaxData (f : MaxDataFrame)
| FMaxStreamData (f : MaxStreamDataFrame)
| FMaxStreams (f : MaxStreamsFrame)
| FDataBlocked (f : DataBlockedFrame)
| FStreamDataBlocked (f : StreamDataBlockedFrame)
| FStreamsBlocked (f : StreamsBlockedFrame)
| FNewConnectionID (f : NewConnectionIDFrame)
| FRetireConnectionID (f : RetireConnectionIDFrame)
| FPathChallenge (f : PathChallengeFrame)
| FPathResponse (f : PathResponseFrame)
| FConnectionClose (f : ConnectionCloseFrame).

(** The methods of the interface. *)
Definition Write (b : bytes) (fr : Frame) : outcome (bytes * option goerr) :=
  match fr with
  | FStream f => writeStreamFrame b f
  | FPing => writePingFrame b
  | FAck f => b ← writeAckFrame b f; mret (b, None)
  | FResetStream f => writeResetStreamFrame b f
  | FStopSending f => writeStopSendingFrame b f
  | FCrypto f => writeCryptoFrame b f
  | FNewToken f => writeNewTokenFrame b f
  | FMaxData f => writeMaxDataFrame b f
  | FMaxStreamData f => writeMaxStreamDataFrame b f
  | FMaxStreams f => writeMaxStreamsFrame b f
  | FDataBlocked f => writeDataBlockedFrame b f
  | FStreamDataBlocked f => writeStreamDataBlockedFrame b f
  | FStreamsBlocked f => writeStreamsBlockedFrame b f
  | FNewConnectionID f => writeNewConnectionIDFrame b f
  | FRetireConnectionID f => writeRetireConnectionIDFrame b f
  | FPathChallenge f => writePathChallengeFrame b f
  | FPathResponse f => writePathResponseFrame b f
  | FConnectionClose f => writeConnectionCloseFrame b f
  end.

Definition Length (fr : Frame) : outcome ByteCount :=
  match fr with
  | FStream f => lengthStreamFrame f
  | FPing => lengthPingFrame
  | FAck f => lengthAckFrame f
  | FResetStream f => lengthResetStreamFrame f
  | FStopSending f => lengthStopSendingFrame f
  | FCrypto f => lengthCryptoFrame f
  | FNewToken f => lengthNewTokenFrame f
  | FMaxData f => lengthMaxDataFrame f
  | FMaxStreamData f => lengthMaxStreamDataFrame f
  | FMaxStreams f => lengthMaxStreamsFrame f
  | FDataBlocked f => lengthDataBlockedFrame f
  | FStreamDataBlocked f => lengthStreamDataBlockedFrame f
  | FStreamsBlocked f => lengthStreamsBlockedFrame f
  | FNewConnectionID f => lengthNewConnectionIDFrame f
  | FRetireConnectionID f => lengthRetireConnectionIDFrame f
  | FPathChallenge f => lengthPathChallengeFrame f
  | FPathResponse f => lengthPathResponseFrame f
  | FConnectionClose f => lengthConnectionCloseFrame f
  end.

(** A parser of one frame type as a parser of frames. *)
Definition as_frame {A} (c : A -> Frame) (p : reader A) : reader Frame := a ← p; mret (c a).

(** The parser for a type byte; the STREAM types are tested first. *)
Definition parse_by_type (ackDelayExponent : Z) (typeByte : byte) (encLevel : EncryptionLevel) :
    reader Frame :=
  if Z.land typeByte 0xf8 =? 0x8 then as_frame FStream parseStreamFrame
  else if typeByte =? 0x1 then as_frame (fun _ => FPing) parsePingFrame
  else if (typeByte =? 0x2) || (typeByte =? 0x3) then
    let ackDelayExponent :=
      if negb (bool_decide (encLevel = Encryption1RTT)) then DefaultAckDelayExponent else ackDelayExponent in
    as_frame FAck (parseAckFrame ackDelayExponent)
  else if typeByte =? 0x4 then as_frame FResetStream parseResetStreamFrame
  else if typeByte =? 0x5 then as_frame FStopSending parseStopSendingFrame
  else if typeByte =? 0x6 then as_frame FCrypto parseCryptoFrame
  else if typeByte =? 0x7 then as_frame FNewToken parseNewTokenFrame
  else if typeByte =? 0x10 then as_frame FMaxData parseMaxDataFrame
  else if typeByte =? 0x11 then as_frame FMaxStreamData parseMaxStreamDataFrame
  else if (typeByte =? 0x12) || (typeByte =? 0x13) then as_frame FMaxStreams parseMaxStreamsFrame
  else if typeByte =? 0x14 then as_frame FDataBlocked parseDataBlockedFrame
  else if typeByte =? 0x15 then as_frame FStreamDataBlocked parseStreamDataBlockedFrame
  else if (typeByte =? 0x16) || (typeByte =? 0x17) then as_frame FStreamsBlocked parseStreamsBlockedFrame
  else if typeByte =? 0x18 then as_frame FNewConnectionID parseNewConnectionIDFrame
  else if typeByte =? 0x19 then as_frame FRetireConnectionID parseRetireConnectionIDFrame
  else if typeByte =? 0x1a then as_frame FPathChallenge parsePathChallengeFrame
  else if typeByte =? 0x1b then as_frame FPathResponse parsePathResponseFrame
  else if (typeByte =? 0x1c) || (typeByte =? 0x1d) then as_frame FConnectionClose parseConnectionCloseFrame
  else fail (Errorf "unknown type byte 0x%x" [typeByte]).

(** [frameParser.parseFrame]: every error becomes a [FrameEncodingError]. *)
Definition parseFrame (ackDelayExponent : Z) (typeByte : byte) (encLevel : EncryptionLevel) :
    reader Frame := fun r =>
  match parse_by_type ackDelayExponent typeByte encLevel r with
  | Error e => Error (QuicError FrameEncodingError e)
  | x => x
  end.

(** [frameParser.ParseNext]: skips PADDING frames; nil at the end of the packet.
    The type byte is left unread for the parser of the frame. *)
Fixpoint ParseNext (ackDelayExponent : Z) (encLevel : EncryptionLevel) (r : bytes) :
    outcome (option Frame * bytes) :=
  match r with
  | [] => Ret (None, [])
  | typeByte :: r' =>
      if typeByte =? 0x0 then ParseNext ackDelayExponent encLevel r'
      else
        match parseFrame ackDelayExponent typeByte encLevel r with
        | Ret (f, r'') => Ret (Some f, r'')
        | Error e => Error e
        | Panic s => Panic s
        end
  end.

(** ** What a frame type promises to the packer and the parser *)

(** [Write] appends an encoding of [Length] bytes, which starts with a type
    byte of the frame type and which the parser reads back.  [wf f rest] says
    which frames can be written before the bytes [rest]. *)
Class Codec {F : Type} (write : bytes -> F -> outcome (bytes * option goerr))
    (len : F -> outcome ByteCount) (parse : reader F) (types : list byte)
    (wf : F -> bytes -> Prop) : Prop :=
  codec : forall f rest, wf f rest ->
    exists ty bs, ty ∈ types /\ (forall b, write b f = Ret (b ++ ty :: bs, None)) /\
      len f = Ret (1 + Z.of_nat (length bs)) /\ parse (ty :: bs ++ rest) = Ret (f, rest).

Definition uint16_bytes (i : Z) : bytes := WriteUint16 [] i.

Lemma ReadUint16_bytes i r : is_uint16 i -> ReadUint16 (uint16_bytes i ++ r) = Ret (i, r).
Proof.
  intros Hi. destruct (ReadUint16_roundtrip [] i r Hi) as (d & Hw & _ & Hr).
  unfold uint16_bytes. by rewrite Hw.
Qed.

Lemma WriteUint16_app b i : WriteUint16 b i = b ++ uint16_bytes i.
Proof. done. Qed.

Lemma uint16_bytes_length i : length (uint16_bytes i) = 2%nat.
Proof. done. Qed.

Ltac varint := unfold is_varint, maxVarInt8, MaxByteCount in *; lia.

(** Runs a writer whose varints are in range. *)
Ltac run_write :=
  cbn [mbind outcome_bind mret outcome_ret];
  repeat (go_ints; rewrite WriteVarInt_app by varint; cbn [mbind outcome_bind mret outcome_ret];
          rewrite ?WriteUint16_app);
  go_ints; unfold mret, outcome_ret; rewrite <- ?app_assoc; cbn [app].

Ltac run_length :=
  repeat (go_ints; rewrite VarIntLen_length by varint; cbn [mbind outcome_bind mret outcome_ret]);
  unfold mret, outcome_ret; f_equal; rewrite ?length_app, ?uint16_bytes_length; cbn [length]; lia.

(** Runs a parser on the bytes of the values it reads. *)
Ltac run_parse :=
  rewrite <- ?app_assoc;
  repeat first
    [ erewrite reader_bind_eq by (apply ReadVarInt_varint_bytes; varint)
    | erewrite reader_bind_eq by (apply ReadUint16_bytes; go_range)
    | erewrite reader_bind_eq by reflexivity ];
  go_ints; cbn [app]; try reflexivity.

Definition is_id (x : Z) : Prop := 0 <= x < 2 ^ 62.

#[global] Instance reset_stream_codec :
  Codec writeResetStreamFrame lengthResetStreamFrame parseResetStreamFrame [0x4]
    (fun f _ => is_id (rs_StreamID f) /\ is_uint16 (rs_ErrorCode f) /\ is_id (rs_ByteOffset f)).
Proof.
  intros [id ec off] rest (Hid & Hec & Hoff). cbn in *. unfold is_id in *.
  eexists 0x4, (varint_bytes id ++ uint16_bytes ec ++ varint_bytes off). split_and!.
  - set_solver.
  - intros b. unfold writeResetStreamFrame. cbn [rs_StreamID rs_ErrorCode rs_ByteOffset].
    by run_write.
  - unfold lengthResetStreamFrame. cbn [rs_StreamID rs_ErrorCode rs_ByteOffset]. run_length.
  - unfold parseResetStreamFrame. run_parse.
Qed.

#[global] Instance stop_sending_codec :
  Codec writeStopSendingFrame lengthStopSendingFrame parseStopSendingFrame [0x5]
    (fun f _ => is_id (ss_StreamID f) /\ is_uint16 (ss_ErrorCode f)).
Proof.
  intros [id ec] rest (Hid & Hec). cbn in *. unfold is_id in *.
  exists 0x5, (varint_bytes id ++ uint16_bytes ec). split_and!.
  - set_solver.
  - intros b. unfold writeStopSendingFrame. cbn [ss_StreamID ss_ErrorCode]. by run_write.
  - unfold lengthStopSendingFrame. cbn [ss_StreamID ss_ErrorCode]. run_length.
  - unfold parseStopSendingFrame. run_parse.
Qed.

#[global] Instance max_data_codec :
  Codec writeMaxDataFrame lengthMaxDataFrame parseMaxDataFrame [0x10] (fun f _ => is_id (md_ByteOffset f)).
Proof.
  intros [off] rest Hoff. cbn in *. unfold is_id in *. exists 0x10, (varint_bytes off). split_and!.
  - set_solver.
  - intros b. unfold writeMaxDataFrame. cbn [md_ByteOffset]. by run_write.
  - unfold lengthMaxDataFrame. cbn [md_ByteOffset]. run_length.
  - unfold parseMaxDataFrame. run_parse.
Qed.

#[global] Instance max_stream_data_codec :
  Codec writeMaxStreamDataFrame lengthMaxStreamDataFrame parseMaxStreamDataFrame [0x11]
    (fun f _ => is_id (msd_StreamID f) /\ is_id (msd_ByteOffset f)).
Proof.
  intros [id off] rest (Hid & Hoff). cbn in *. unfold is_id in *.
  exists 0x11, (varint_bytes id ++ varint_bytes off). split_and!.
  - set_solver.
  - intros b. unfold writeMaxStreamDataFrame. cbn [msd_StreamID msd_ByteOffset]. by run_write.
  - unfold lengthMaxStreamDataFrame. cbn [msd_StreamID msd_ByteOffset]. run_length.
  - unfold parseMaxStreamDataFrame. run_parse.
Qed.

#[global] Instance max_streams_codec :
  Codec writeMaxStreamsFrame lengthMaxStreamsFrame parseMaxStreamsFrame [0x12; 0x13]
    (fun f _ => is_id (ms_MaxStreamNum f)).
Proof.
  intros [ty n] rest Hn. cbn in *. unfold is_id in *.
  exists (match ty with StreamTypeBidi => 0x12 | StreamTypeUni => 0x13 end), (varint_bytes n). split_and!.
  - destruct ty; set_solver.
  - intros b. unfold writeMaxStreamsFrame. cbn [ms_Type ms_MaxStreamNum]. destruct ty; by run_write.
  - unfold lengthMaxStreamsFrame. cbn [ms_MaxStreamNum]. run_length.
  - unfold parseMaxStreamsFrame. destruct ty; run_parse.
Qed.

#[global] Instance data_blocked_codec :
  Codec writeDataBlockedFrame lengthDataBlockedFrame parseDataBlockedFrame [0x14]
    (fun f _ => is_id (db_DataLimit f)).
Proof.
  intros [off] rest Hoff. cbn in *. unfold is_id in *. exists 0x14, (varint_bytes off). split_and!.
  - set_solver.
  - intros b. unfold writeDataBlockedFrame. cbn [db_DataLimit]. by run_write.
  - unfold lengthDataBlockedFrame. cbn [db_DataLimit]. run_length.
  - unfold parseDataBlockedFrame. run_parse.
Qed.

#[global] Instance stream_data_blocked_codec :
  Codec writeStreamDataBlockedFrame lengthStreamDataBlockedFrame parseStreamDataBlockedFrame [0x15]
    (fun f _ => is_id (sdb_StreamID f) /\ is_id (sdb_DataLimit f)).
Proof.
  intros [id off] rest (Hid & Hoff). cbn in *. unfold is_id in *.
  exists 0x15, (varint_bytes id ++ varint_bytes off). split_and!.
  - set_solver.
  - intros b. unfold writeStreamDataBlockedFrame. cbn [sdb_StreamID sdb_DataLimit]. by run_write.
  - unfold lengthStreamDataBlockedFrame. cbn [sdb_StreamID sdb_DataLimit]. run_length.
  - unfold parseStreamDataBlockedFrame. run_parse.
Qed.

#[global] Instance streams_blocked_codec :
  Codec writeStreamsBlockedFrame lengthStreamsBlockedFrame parseStreamsBlockedFrame [0x16; 0x17]
    (fun f _ => is_id (sb_StreamLimit f)).
Proof.
  intros [ty n] rest Hn. cbn in *. unfold is_id in *.
  exists (match ty with StreamTypeBidi => 0x16 | StreamTypeUni => 0x17 end), (varint_bytes n). split_and!.
  - destruct ty; set_solver.
  - intros b. unfold writeStreamsBlockedFrame. cbn [sb_Type sb_StreamLimit]. destruct ty; by run_write.
  - unfold lengthStreamsBlockedFrame. cbn [sb_StreamLimit]. run_length.
  - unfold parseStreamsBlockedFrame. destruct ty; run_parse.
Qed.

#[global] Instance retire_connection_id_codec :
  Codec writeRetireConnectionIDFrame lengthRetireConnectionIDFrame parseRetireConnectionIDFrame [0x19]
    (fun f _ => is_id (rc_SequenceNumber f)).
Proof.
  intros [n] rest Hn. cbn in *. unfold is_id in *. exists 0x19, (varint_bytes n). split_and!.
  - set_solver.
  - intros b. unfold writeRetireConnectionIDFrame. cbn [rc_SequenceNumber]. by run_write.
  - unfold lengthRetireConnectionIDFrame. cbn [rc_SequenceNumber]. run_length.
  - unfold parseRetireConnectionIDFrame. run_parse.
Qed.

(** *** Frames that carry data *)

Lemma ReadFullEOF_app n (d r : bytes) : n = length d -> ReadFullEOF n (d ++ r) = Ret (d, r).
Proof. intros ->. unfold ReadFullEOF. by rewrite ReadFull_app. Qed.

(** Data of a length read before. *)
Lemma read_data (d r : bytes) :
  (if negb (Z.of_nat (length d) =? 0) then ReadFull (Z.to_nat (Z.of_nat (length d))) else mret []) (d ++ r) =
    Ret (d, r).
Proof.
  rewrite Nat2Z.id. destruct d as [|x d]; [done|].
  rewrite (proj2 (Z.eqb_neq _ _)) by (cbn [length]; lia). apply ReadFull_app.
Qed.

Lemma enough_data (d r : bytes) : (Z.of_nat (length (d ++ r)) <? Z.of_nat (length d)) = false.
Proof. rewrite length_app. apply Z.ltb_ge. lia. Qed.

#[global] Instance path_challenge_codec :
  Codec writePathChallengeFrame lengthPathChallengeFrame parsePathChallengeFrame [0x1a]
    (fun f _ => length (pc_Data f) = 8%nat).
Proof.
  intros [d] rest Hd. cbn in *. exists 0x1a, d. split_and!; [set_solver|done|by rewrite Hd|].
  unfold parsePathChallengeFrame. erewrite reader_bind_eq by reflexivity.
  by erewrite reader_bind_eq by by apply ReadFullEOF_app.
Qed.

#[global] Instance path_response_codec :
  Codec writePathResponseFrame lengthPathResponseFrame parsePathResponseFrame [0x1b]
    (fun f _ => length (pr_Data f) = 8%nat).
Proof.
  intros [d] rest Hd. cbn in *. exists 0x1b, d. split_and!; [set_solver|done|by rewrite Hd|].
  unfold parsePathResponseFrame. erewrite reader_bind_eq by reflexivity.
  by erewrite reader_bind_eq by by apply ReadFullEOF_app.
Qed.

#[global] Instance new_connection_id_codec :
  Codec writeNewConnectionIDFrame lengthNewConnectionIDFrame parseNewConnectionIDFrame [0x18]
    (fun f _ => is_id (nc_SequenceNumber f) /\ (4 <= length (nc_ConnectionID f) <= 18)%nat /\
       length (nc_StatelessResetToken f) = 16%nat).
Proof.
  intros [n id tok] rest (Hn & Hid & Htok). cbn in *. unfold is_id in *.
  set (len := Z.of_nat (length id)). assert (Hlen : (len <? 4) || (18 <? len) = false).
  { apply orb_false_iff. rewrite !Z.ltb_ge. lia. }
  exists 0x18, (varint_bytes n ++ [len] ++ id ++ tok). split_and!.
  - set_solver.
  - intros b. unfold writeNewConnectionIDFrame. cbn [nc_SequenceNumber nc_ConnectionID nc_StatelessResetToken].
    fold len. run_write. by rewrite Hlen.
  - unfold lengthNewConnectionIDFrame. cbn [nc_SequenceNumber nc_ConnectionID nc_StatelessResetToken]. run_length.
  - unfold parseNewConnectionIDFrame. run_parse. rewrite Hlen.
    unfold ReadConnectionID. rewrite (proj2 (Z.eqb_neq len 0)) by lia.
    erewrite reader_bind_eq by (apply ReadFullEOF_app; lia).
    by erewrite reader_bind_eq by by apply ReadFullEOF_app.
Qed.

#[global] Instance new_token_codec :
  Codec writeNewTokenFrame lengthNewTokenFrame parseNewTokenFrame [0x7]
    (fun f _ => Z.of_nat (length (nt_Token f)) <= maxVarInt8).
Proof.
  intros [d] rest Hd. cbn in *. exists 0x7, (varint_bytes (Z.of_nat (length d)) ++ d). split_and!.
  - set_solver.
  - intros b. unfold writeNewTokenFrame. cbn [nt_Token]. by run_write.
  - unfold lengthNewTokenFrame. cbn [nt_Token]. run_length.
  - unfold parseNewTokenFrame. run_parse. rewrite enough_data.
    by erewrite reader_bind_eq by (apply ReadFull_app_n; lia).
Qed.

#[global] Instance crypto_codec :
  Codec writeCryptoFrame lengthCryptoFrame parseCryptoFrame [0x6]
    (fun f _ => is_id (cf_Offset f) /\ Z.of_nat (length (cf_Data f)) <= maxVarInt8).
Proof.
  intros [off d] rest (Hoff & Hd). cbn in *. unfold is_id in *.
  exists 0x6, (varint_bytes off ++ varint_bytes (Z.of_nat (length d)) ++ d). split_and!.
  - set_solver.
  - intros b. unfold writeCryptoFrame. cbn [cf_Offset cf_Data]. by run_write.
  - unfold lengthCryptoFrame. cbn [cf_Offset cf_Data]. run_length.
  - unfold parseCryptoFrame. run_parse. rewrite enough_data.
    by erewrite reader_bind_eq by apply read_data.
Qed.

#[global] Instance connection_close_codec :
  Codec writeConnectionCloseFrame lengthConnectionCloseFrame parseConnectionCloseFrame [0x1c; 0x1d]
    (fun f _ => is_uint16 (cc_ErrorCode f) /\ Z.of_nat (length (cc_ReasonPhrase f)) <= maxVarInt8).
Proof.
  intros [app ec d] rest (Hec & Hd). cbn in *.
  exists (if app then 0x1d else 0x1c),
    (uint16_bytes ec ++ (if app then [] else [0]) ++ varint_bytes (Z.of_nat (length d)) ++ d). split_and!.
  - destruct app; set_solver.
  - intros b. unfold writeConnectionCloseFrame. cbn [cc_IsApplicationError cc_ErrorCode cc_ReasonPhrase].
    rewrite WriteUint16_app. destruct app; cbn [negb]; by run_write.
  - unfold lengthConnectionCloseFrame. cbn [cc_IsApplicationError cc_ErrorCode cc_ReasonPhrase].
    destruct app; cbn [negb]; run_length.
  - unfold parseConnectionCloseFrame. destruct app; [|change [0] with (varint_bytes 0)];
      run_parse; cbn [Z.eqb Pos.eqb negb]; run_parse; unfold maxVarInt8 in *; go_ints; rewrite enough_data;
      by erewrite reader_bind_eq by (apply ReadFull_app_n; lia).
Qed.

(** *** STREAM frames *)

(** A STREAM frame without a length extends to the end of the packet. *)
Definition stream_wf (f : StreamFrame) (rest : bytes) : Prop :=
  is_id (sf_StreamID f) /\ 0 <= sf_Offset f /\ sf_Offset f + DataLen f <= MaxByteCount /\
  (sf_Data f <> [] \/ sf_FinBit f = true) /\ (sf_DataLenPresent f = true \/ rest = []).

Definition stream_type (fin len off : bool) : byte :=
  0x8 + (if fin then 0x1 else 0) + (if len then 0x2 else 0) + (if off then 0x4 else 0).

Definition stream_types : list byte := [0x8; 0x9; 0xa; 0xb; 0xc; 0xd; 0xe; 0xf].

Definition stream_header (f : StreamFrame) : bytes :=
  varint_bytes (sf_StreamID f) ++
  (if sf_Offset f =? 0 then [] else varint_bytes (sf_Offset f)) ++
  (if sf_DataLenPresent f then varint_bytes (DataLen f) else []).

Lemma writeStreamFrame_bytes b f rest :
  stream_wf f rest ->
  writeStreamFrame b f =
    Ret (b ++ stream_type (sf_FinBit f) (sf_DataLenPresent f) (negb (sf_Offset f =? 0)) ::
         stream_header f ++ sf_Data f, None).
Proof.
  intros (Hid & Hoff & Hmax & Hne & _). unfold is_id in *. unfold writeStreamFrame, stream_header.
  assert (Hl : 0 <= DataLen f) by (unfold DataLen; lia).
  rewrite (proj2 (andb_false_iff _ _)).
  2: { destruct Hne as [Hne|Hf]; [left|right; by rewrite Hf]. destruct (sf_Data f); done. }
  rewrite (uint64_id (sf_StreamID f)) by go_range.
  destruct (sf_FinBit f), (sf_DataLenPresent f), (sf_Offset f =? 0) eqn:?; cbn [negb]; zbool; by run_write.
Qed.

Lemma lengthStreamFrame_bytes f :
  is_id (sf_StreamID f) -> 0 <= sf_Offset f -> sf_Offset f + DataLen f <= MaxByteCount ->
  lengthStreamFrame f = Ret (1 + Z.of_nat (length (stream_header f ++ sf_Data f))).
Proof.
  intros Hid Hoff Hmax. unfold is_id in *. unfold lengthStreamFrame, stream_header.
  rewrite !length_app. change (Z.of_nat (length (sf_Data f))) with (DataLen f).
  assert (Hl : DataLen f = Z.of_nat (length (sf_Data f))) by done.
  rewrite (uint64_id (sf_StreamID f)) by go_range.
  destruct (sf_DataLenPresent f), (sf_Offset f =? 0) eqn:?; cbn [negb]; zbool; run_length.
Qed.

Lemma stream_type_bits fin len off :
  let ty := stream_type fin len off in
  (0 <? Z.land ty 0x4) = off /\ (0 <? Z.land ty 0x1) = fin /\ (0 <? Z.land ty 0x2) = len /\
  Z.land ty 0xf8 = 0x8 /\ ty ∈ stream_types.
Proof. destruct fin, len, off; cbn; split_and!; try done; unfold stream_types; set_solver. Qed.

Lemma parseStreamFrame_bytes f rest :
  stream_wf f rest ->
  parseStreamFrame (stream_type (sf_FinBit f) (sf_DataLenPresent f) (negb (sf_Offset f =? 0)) ::
    (stream_header f ++ sf_Data f) ++ rest) = Ret (f, rest).
Proof.
  intros (Hid & Hoff & Hmax & _ & Hrest). unfold is_id in *. unfold parseStreamFrame, stream_header.
  assert (Hl : DataLen f = Z.of_nat (length (sf_Data f))) by done.
  erewrite reader_bind_eq by reflexivity.
  destruct (stream_type_bits (sf_FinBit f) (sf_DataLenPresent f) (negb (sf_Offset f =? 0)))
    as (E1 & E2 & E3 & _). rewrite E1, E2, E3. rewrite <- !app_assoc.
  erewrite reader_bind_eq by (apply ReadVarInt_varint_bytes; varint).
  erewrite (reader_bind_eq _ _ _ (sf_Offset f)).
  2: { destruct (sf_Offset f =? 0) eqn:Ho; cbn [negb]; zbool; [by rewrite Ho|].
       apply ReadVarInt_varint_bytes. varint. }
  erewrite (reader_bind_eq _ _ _ (DataLen f) (sf_Data f ++ rest)).
  2: { destruct (sf_DataLenPresent f); cbn [app].
       - erewrite reader_bind_eq by (apply ReadVarInt_varint_bytes; varint).
         erewrite reader_bind_eq by reflexivity. by rewrite Hl, enough_data.
       - destruct Hrest as [?| ->]; [done|]. rewrite Hl, app_nil_r. done. }
  rewrite Hl. erewrite reader_bind_eq by apply read_data. rewrite int64_id by go_range.
  destruct f as [id fin dlp off d]. cbn in *. rewrite uint64_id by (unfold MaxByteCount in *; go_range).
  by rewrite (proj2 (Z.ltb_ge _ _)) by lia.
Qed.

#[global] Instance stream_codec :
  Codec writeStreamFrame lengthStreamFrame parseStreamFrame stream_types stream_wf.
Proof.
  intros f rest Hwf.
  exists (stream_type (sf_FinBit f) (sf_DataLenPresent f) (negb (sf_Offset f =? 0))),
    (stream_header f ++ sf_Data f). split_and!.
  - apply stream_type_bits.
  - intros b. by eapply writeStreamFrame_bytes.
  - destruct Hwf as (? & ? & ? & _). by apply lengthStreamFrame_bytes.
  - by apply parseStreamFrame_bytes.
Qed.

(** *** All frames *)

(** The frames that can be written before the bytes [rest]. *)
Definition frame_wf (fr : Frame) (rest : bytes) : Prop :=
  match fr with
  | FStream f => stream_wf f rest
  | FPing => True
  | FAck f => encodable f
  | FResetStream f => is_id (rs_StreamID f) /\ is_uint16 (rs_ErrorCode f) /\ is_id (rs_ByteOffset f)
  | FStopSending f => is_id (ss_StreamID f) /\ is_uint16 (ss_ErrorCode f)
  | FCrypto f => is_id (cf_Offset f) /\ Z.of_nat (length (cf_Data f)) <= maxVarInt8
  | FNewToken f => Z.of_nat (length (nt_Token f)) <= maxVarInt8
  | FMaxData f => is_id (md_ByteOffset f)
  | FMaxStreamData f => is_id (msd_StreamID f) /\ is_id (msd_ByteOffset f)
  | FMaxStreams f => is_id (ms_MaxStreamNum f)
  | FDataBlocked f => is_id (db_DataLimit f)
  | FStreamDataBlocked f => is_id (sdb_StreamID f) /\ is_id (sdb_DataLimit f)
  | FStreamsBlocked f => is_id (sb_StreamLimit f)
  | FNewConnectionID f =>
      is_id (nc_SequenceNumber f) /\ (4 <= length (nc_ConnectionID f) <= 18)%nat /\
      length (nc_StatelessResetToken f) = 16%nat
  | FRetireConnectionID f => is_id (rc_SequenceNumber f)
  | FPathChallenge f => length (pc_Data f) = 8%nat
  | FPathResponse f => length (pr_Data f) = 8%nat
  | FConnectionClose f => is_uint16 (cc_ErrorCode f) /\ Z.of_nat (length (cc_ReasonPhrase f)) <= maxVarInt8
  end.

(** The frame a peer receives: an ACK loses the ranges that do not fit and the
    precision of its delay, every other frame arrives as it is. *)
Definition received (fr : Frame) : Frame :=
  match fr with
  | FAck f =>
      match numEncodableAckRanges f with
      | Ret n => FAck (mkAckFrame (take n (AckRanges f)) (8000 * (DelayTime f / 8000)))
      | _ => fr
      end
  | _ => fr
  end.

(** What a frame owes to the packet it is in. *)
Definition frame_ok (lvl : EncryptionLevel) (fr : Frame) (rest : bytes) : Prop :=
  exists ty bs, ty <> 0 /\ (forall b, Write b fr = Ret (b ++ ty :: bs, None)) /\
    Length fr = Ret (1 + Z.of_nat (length bs)) /\
    parse_by_type AckDelayExponent ty lvl (ty :: bs ++ rest) = Ret (received fr, rest).

(** A codec whose type bytes select its parser. *)
Lemma codec_frame_ok {F} write len parse types wf (c : F -> Frame) `{!@Codec F write len parse types wf}
    f rest lvl :
  (forall b, Write b (c f) = write b f) -> Length (c f) = len f -> received (c f) = c f ->
  Forall (fun ty => ty <> 0 /\ parse_by_type AckDelayExponent ty lvl = as_frame c parse) types ->
  wf f rest -> frame_ok lvl (c f) rest.
Proof.
  intros Hw Hl Hr Ht Hwf. destruct (codec f rest Hwf) as (ty & bs & Hty & Hwr & Hlen & Hp).
  rewrite Forall_forall in Ht. destruct (Ht ty Hty) as [Hnz Hsel].
  exists ty, bs. split_and!; [done|intros b; by rewrite Hw|by rewrite Hl|].
  rewrite Hsel, Hr. unfold as_frame. by erewrite reader_bind_eq.
Qed.

Lemma frame_wf_ok lvl fr rest : frame_wf fr rest -> frame_ok lvl fr rest.
Proof.
  destruct fr as [f| |f|f|f|f|f|f|f|f|f|f|f|f|f|f|f|f]; intros Hwf;
    try (eapply codec_frame_ok; [apply _|done|done|done| |exact Hwf]; by repeat constructor).
  - exists 0x1, []. split_and!; done.
  - destruct f as [[|r0 l] d]; [by destruct Hwf|].
    destruct (writeAckFrame_bytes [] r0 l d Hwf) as (n & Hn & Hr & Hf & _ & _ & Hl).
    eexists 0x2, _. split_and!; [done| | |].
    + intros b. destruct (writeAckFrame_bytes b r0 l d Hwf) as (n' & Hn' & _ & _ & _ & Hw & _).
      rewrite Hn in Hn'. injection Hn' as <-. cbn [Write]. rewrite Hw. reflexivity.
    + cbn [Length]. rewrite Hl. unfold ack_bytes. cbn [app length]. by rewrite Nat2Z.inj_succ, <- Z.add_1_l.
    + cbn [received AckRanges DelayTime]. rewrite Hn.
      assert (E : parse_by_type AckDelayExponent 0x2 lvl = as_frame FAck (parseAckFrame AckDelayExponent))
        by (destruct lvl; reflexivity).
      rewrite E. unfold as_frame. erewrite reader_bind_eq.
      2: { apply (parseAckFrame_bytes r0 l d n rest Hwf); lia. }
      destruct n; [lia|]. cbn. by rewrite Nat.sub_0_r.
Qed.

(** ** Parsers on arbitrary input *)

(** A parser that never panics and never gives back more than it was given. *)
Class Tame {A} (p : reader A) : Prop :=
  tame : forall r, match p r with
                   | Ret (_, r') => (length r' <= length r)%nat
                   | Error _ => True
                   | Panic _ => False
                   end.

#[global] Instance tame_ret {A} (a : A) : Tame (mret a).
Proof. intros r. cbn. lia. Qed.
#[global] Instance tame_fail {A} e : Tame (@fail A e).
Proof. done. Qed.
#[global] Instance tame_ReadByte : Tame ReadByte.
Proof. intros [|x r]; cbn; [done|lia]. Qed.
#[global] Instance tame_Len : Tame Len.
Proof. intros r. cbn. lia. Qed.
#[global] Instance tame_ReadFull n : Tame (ReadFull n).
Proof.
  intros r. unfold ReadFull. case_if; [rewrite length_drop; lia|]. by destruct r.
Qed.
#[global] Instance tame_ReadFullEOF n : Tame (ReadFullEOF n).
Proof.
  intros r. unfold ReadFullEOF. pose proof (tame_ReadFull n r) as Hr. by destruct (ReadFull n r) as [| [] |].
Qed.
#[global] Instance tame_bind {A B} (m : reader A) (k : A -> reader B) :
  Tame m -> (forall a, Tame (k a)) -> Tame (m ≫= k).
Proof.
  intros Hm Hk r. unfold mbind, reader_bind. specialize (Hm r). destruct (m r) as [[a r1]| |]; [|done|done].
  specialize (Hk a r1). destruct (k a r1) as [[b r2]| |]; [lia|done|done].
Qed.
#[global] Instance tame_if {A} (c : bool) (p q : reader A) : Tame p -> Tame q -> Tame (if c then p else q).
Proof. by destruct c. Qed.

#[global] Instance tame_ReadVarInt : Tame ReadVarInt.
Proof. unfold ReadVarInt. apply _. Qed.
#[global] Instance tame_ReadUint16 : Tame ReadUint16.
Proof. unfold ReadUint16. apply _. Qed.
#[global] Instance tame_ReadConnectionID n : Tame (ReadConnectionID n).
Proof. unfold ReadConnectionID. apply _. Qed.

#[global] Instance tame_parseAckRanges fuel n s l : Tame (parseAckRanges fuel n s l).
Proof. revert n s l. induction fuel; intros; cbn [parseAckRanges]; apply _. Qed.

#[global] Instance tame_parse_by_type e ty lvl : Tame (parse_by_type e ty lvl).
Proof.
  unfold parse_by_type, as_frame, parseStreamFrame, parsePingFrame, parseAckFrame, parseResetStreamFrame,
    parseStopSendingFrame, parseCryptoFrame, parseNewTokenFrame, parseMaxDataFrame,
    parseMaxStreamDataFrame, parseMaxStreamsFrame, parseDataBlockedFrame, parseStreamDataBlockedFrame,
    parseStreamsBlockedFrame, parseNewConnectionIDFrame, parseRetireConnectionIDFrame,
    parsePathChallengeFrame, parsePathResponseFrame, parseConnectionCloseFrame.
  cbv zeta. apply _.
Qed.

(** A tame parser that consumes at least one byte. *)
Class Eats {A} (p : reader A) : Prop :=
  eats : forall r, match p r with
                   | Ret (_, r') => (length r' < length r)%nat
                   | Error _ => True
                   | Panic _ => False
                   end.

#[global] Instance eats_fail {A} e : Eats (@fail A e).
Proof. done. Qed.
#[global] Instance eats_ReadByte : Eats ReadByte.
Proof. intros [|x r]; cbn; [done|lia]. Qed.
#[global] Instance eats_bind {A B} (m : reader A) (k : A -> reader B) :
  Eats m -> (forall a, Tame (k a)) -> Eats (m ≫= k).
Proof.
  intros Hm Hk r. unfold mbind, reader_bind. specialize (Hm r). destruct (m r) as [[a r1]| |]; [|done|done].
  specialize (Hk a r1). destruct (k a r1) as [[b r2]| |]; [lia|done|done].
Qed.
#[global] Instance eats_if {A} (c : bool) (p q : reader A) : Eats p -> Eats q -> Eats (if c then p else q).
Proof. by destruct c. Qed.

#[global] Instance eats_parse_by_type e ty lvl : Eats (parse_by_type e ty lvl).
Proof.
  unfold parse_by_type, as_frame, parseStreamFrame, parsePingFrame, parseAckFrame, parseResetStreamFrame,
    parseStopSendingFrame, parseCryptoFrame, parseNewTokenFrame, parseMaxDataFrame,
    parseMaxStreamDataFrame, parseMaxStreamsFrame, parseDataBlockedFrame, parseStreamDataBlockedFrame,
    parseStreamsBlockedFrame, parseNewConnectionIDFrame, parseRetireConnectionIDFrame,
    parsePathChallengeFrame, parsePathResponseFrame, parseConnectionCloseFrame.
  cbv zeta. apply _.
Qed.

(** [ParseNext] on any input: a frame and fewer bytes, the end of the packet,
    or a [FrameEncodingError]. *)
Lemma ParseNext_total e lvl r :
  match ParseNext e lvl r with
  | Ret (Some _, r') => (length r' < length r)%nat
  | Ret (None, r') => r' = [] /\ Forall (fun x => x = 0) r
  | Error err => exists cause, err = QuicError FrameEncodingError cause
  | Panic _ => False
  end.
Proof.
  induction r as [|ty r IH]; [done|]. cbn [ParseNext]. case_if.
  - destruct (ParseNext e lvl r) as [[[f|] r']| |]; cbn [length]; zbool; try done; [lia|].
    destruct IH as [? ?]. split; [done|]. by constructor.
  - unfold parseFrame. pose proof (eats_parse_by_type e ty lvl (ty :: r)) as He.
    destruct (parse_by_type e ty lvl (ty :: r)) as [[f r']| |]; [done|by eexists|done].
Qed.

Lemma ParseNext_frame lvl fr rest :
  frame_ok lvl fr rest ->
  exists bs, bs <> [] /\ (forall b, Write b fr = Ret (b ++ bs, None)) /\
    Length fr = Ret (Z.of_nat (length bs)) /\
    ParseNext AckDelayExponent lvl (bs ++ rest) = Ret (Some (received fr), rest).
Proof.
  intros (ty & bs & Hty & Hw & Hl & Hp). exists (ty :: bs). split_and!; [done|done| |].
  - rewrite Hl. cbn [length]. by rewrite Nat2Z.inj_succ, <- Z.add_1_l.
  - cbn [app ParseNext]. rewrite (proj2 (Z.eqb_neq ty 0) Hty). unfold parseFrame. unfold bytes, byte in *. by rewrite Hp.
Qed.

(** ** The payload of a packet *)

(** The loop of [session.handleUnpackedPacket] over the frames of a packet,
    when no frame is rejected by its handler: the frames it hands over.  It ends
    within [S (length r)] rounds. *)
Fixpoint parse_frames (fuel : nat) (e : Z) (lvl : EncryptionLevel) (r : bytes) : outcome (list Frame) :=
  match fuel with
  | O => Panic "out of fuel"
  | S fuel =>
      match ParseNext e lvl r with
      | Ret (Some f, r') => l ← parse_frames fuel e lvl r'; mret (f :: l)
      | Ret (None, _) => mret []
      | Error err => Error err
      | Panic s => Panic s
      end
  end.

(** The bytes of a packet payload: frames one after the other, then padding. *)
Inductive payload : list Frame -> bytes -> Prop :=
| payload_padding n : payload [] (replicate n 0)
| payload_frame fr l bs rest :
    frame_wf fr rest -> (forall b, Write b fr = Ret (b ++ bs, None)) -> payload l rest ->
    payload (fr :: l) (bs ++ rest).

Lemma ParseNext_padding e lvl n : ParseNext e lvl (replicate n 0) = Ret (None, []).
Proof. by induction n. Qed.

Lemma parse_frames_payload lvl l bs fuel :
  payload l bs -> (length bs < fuel)%nat ->
  parse_frames fuel AckDelayExponent lvl bs = Ret (map received l).
Proof.
  intros Hp. revert fuel. induction Hp as [n|fr l bs rest Hwf Hw _ IH]; intros fuel Hf.
  - destruct fuel; [lia|]. cbn [parse_frames]. by rewrite ParseNext_padding.
  - destruct fuel; [lia|]. cbn [parse_frames].
    destruct (ParseNext_frame lvl fr rest (frame_wf_ok lvl fr rest Hwf)) as (bs' & Hne & Hw' & _ & Hn).
    assert (bs' = bs) as ->.
    { specialize (Hw []). specialize (Hw' []). rewrite Hw in Hw'. by injection Hw'. }
    rewrite Hn, IH; [done|]. rewrite length_app in Hf. destruct bs; [done|]. cbn [length] in Hf. lia.
Qed.

(** ** Properties *)

(** C18. Round trip of every frame type: a frame that satisfies the conditions of
    its type is written without error in exactly [Length] bytes, and the frame
    parser reads the same frame back (an ACK as its peer receives it), leaving
    the bytes that follow. *)
Theorem frame_roundtrip lvl fr rest b :
  frame_wf fr rest ->
  exists bs, bs <> [] /\ Write b fr = Ret (b ++ bs, None) /\ Length fr = Ret (Z.of_nat (length bs)) /\
    ParseNext AckDelayExponent lvl (bs ++ rest) = Ret (Some (received fr), rest).
Proof.
  intros Hwf. destruct (ParseNext_frame lvl fr rest (frame_wf_ok lvl fr rest Hwf)) as (bs & ? & Hw & ? & ?).
  by exists bs.
Qed.

Definition demo_stream : StreamFrame := mkStreamFrame 4 true true 1000 [1; 2; 3].

Lemma frame_roundtrip_witness :
  exists bs, bs <> [] /\ Write [9] (FStream demo_stream) = Ret ([9] ++ bs, None) /\
    Length (FStream demo_stream) = Ret (Z.of_nat (length bs)) /\
    ParseNext AckDelayExponent Encryption1RTT (bs ++ [0; 1]) = Ret (Some (FStream demo_stream), [0; 1]).
Proof.
  apply (frame_roundtrip Encryption1RTT (FStream demo_stream) [0; 1] [9]).
  split_and!; [done..|by left|by left].
Defined.

(** Round trip of a packet payload: the loop that handles a packet sees
    exactly the frames that were packed into it, in order, and stops at the
    padding. *)
Theorem payload_roundtrip lvl l bs :
  payload l bs -> parse_frames (S (length bs)) AckDelayExponent lvl bs = Ret (map received l).
Proof. intros Hp. apply parse_frames_payload; [done|lia]. Qed.

Lemma payload_roundtrip_witness :
  parse_frames 8 AckDelayExponent Encryption1RTT [1; 16; 63; 1; 0; 0; 0] =
    Ret [FPing; FMaxData (mkMaxDataFrame 63); FPing].
Proof.
  apply (payload_roundtrip Encryption1RTT [FPing; FMaxData (mkMaxDataFrame 63); FPing]).
  apply (payload_frame FPing _ [1] [16; 63; 1; 0; 0; 0]); [done|done|].
  apply (payload_frame (FMaxData (mkMaxDataFrame 63)) _ [16; 63] [1; 0; 0; 0]);
    [done|by intros b; unfold Write, writeMaxDataFrame; rewrite WriteVarInt_app by done;
       cbn [mbind outcome_bind mret outcome_ret]; rewrite <- app_assoc|].
  apply (payload_frame FPing _ [1] [0; 0; 0]); [done|done|]. apply (payload_padding 3).
Defined.

(** Parsing any packet, however malformed, terminates and does not panic:
    the loop over its frames ends within one round per byte, with the frames or
    with a [FrameEncodingError]. *)
Theorem parse_frames_total e lvl r :
  match parse_frames (S (length r)) e lvl r with
  | Ret _ => True
  | Error err => exists cause, err = QuicError FrameEncodingError cause
  | Panic _ => False
  end.
Proof.
  assert (G : forall fuel r, (length r < fuel)%nat ->
    match parse_frames fuel e lvl r with
    | Ret _ => True
    | Error err => exists cause, err = QuicError FrameEncodingError cause
    | Panic _ => False
    end); [|apply G; lia].
  clear r. intros fuel. induction fuel as [|fuel IH]; intros r Hf; [lia|]. cbn [parse_frames].
  pose proof (ParseNext_total e lvl r) as Hn. destruct (ParseNext e lvl r) as [[[f|] r']| |]; [|done..].
  specialize (IH r' ltac:(lia)). by destruct (parse_frames fuel e lvl r').
Qed.

(** *** Splitting STREAM frames *)

Lemma VarIntLen_cases n :
  is_varint n -> exists l, VarIntLen n = Ret l /\
    (l = 1 /\ n <= 63 \/ l = 2 /\ 63 < n <= 16383 \/ (l = 4 \/ l = 8) /\ 16383 < n).
Proof.
  intros Hn. unfold VarIntLen, is_varint, maxVarInt1, maxVarInt2, maxVarInt4, maxVarInt8 in *.
  case_ifs; zbool; try lia; (eexists; split; [reflexivity|]); lia.
Qed.

(** The frame of the stream with other data. *)
Definition with_data (f : StreamFrame) (d : bytes) : StreamFrame :=
  mkStreamFrame (sf_StreamID f) (sf_FinBit f) (sf_DataLenPresent f) (sf_Offset f) d.

(** The size of the header without the length, the length of the frame with
    some data, and the room for data. *)
Lemma stream_sizes f :
  is_id (sf_StreamID f) -> 0 <= sf_Offset f <= MaxByteCount ->
  exists h, 2 <= h <= 17 /\
    (forall d, sf_Offset f + Z.of_nat (length d) <= MaxByteCount ->
     exists l, VarIntLen (Z.of_nat (length d)) = Ret l /\
       lengthStreamFrame (with_data f d) =
         Ret (h + (if sf_DataLenPresent f then l else 0) + Z.of_nat (length d))) /\
    (forall maxSize, MaxDataLen f maxSize =
      let headerLen := if sf_DataLenPresent f then h + 1 else h in
      if maxSize <? headerLen then mret 0 else
      if sf_DataLenPresent f then
        l ← VarIntLen (maxSize - headerLen);
        mret (if negb (l =? 1) then maxSize - headerLen - 1 else maxSize - headerLen)
      else mret (maxSize - headerLen)).
Proof.
  intros Hid Hoff. unfold is_id in *.
  destruct (VarIntLen_cases (sf_StreamID f)) as (li & Hli & Ci); [varint|].
  destruct (VarIntLen_cases (sf_Offset f)) as (lo & Hlo & Co); [varint|].
  exists (if sf_Offset f =? 0 then 1 + li else 1 + li + lo). split_and!.
  - case_if; lia.
  - case_if; lia.
  - intros d Hd. destruct (VarIntLen_cases (Z.of_nat (length d))) as (l & Hl & _); [varint|].
    exists l. split; [done|]. unfold lengthStreamFrame, with_data, DataLen. cbn. rewrite uint64_id by go_range.
    rewrite Hli. cbn. destruct (sf_Offset f =? 0); cbn; rewrite ?Hlo; cbn; destruct (sf_DataLenPresent f);
      cbn; rewrite ?Hl; cbn; f_equal; lia.
  - intros maxSize. unfold MaxDataLen. rewrite uint64_id by go_range. rewrite Hli. cbn [mbind outcome_bind].
    destruct (sf_Offset f =? 0); cbn [negb]; rewrite ?Hlo; done.
Qed.

(** The largest amount of data that fits, for packets of less than 2^14 bytes. *)
Lemma MaxDataLen_spec f maxSize :
  is_id (sf_StreamID f) -> 0 <= sf_Offset f <= MaxByteCount -> 0 <= maxSize < 2 ^ 14 ->
  exists n, MaxDataLen f maxSize = Ret n /\ 0 <= n <= maxSize /\
    (forall d len, sf_Offset f + Z.of_nat (length d) <= MaxByteCount -> d <> [] ->
       lengthStreamFrame (with_data f d) = Ret len -> len <= maxSize <-> Z.of_nat (length d) <= n).
Proof.
  intros Hid Hoff Hmax. destruct (stream_sizes f Hid Hoff) as (h & Hh & Hlen & Hm). rewrite Hm. clear Hm.
  assert (Hd0 : forall d : bytes, d <> [] -> 1 <= Z.of_nat (length d)) by (intros [] ?; cbn; [done|lia]).
  destruct (sf_DataLenPresent f); cbn zeta.
  - destruct (Z.ltb_spec maxSize (h + 1)).
    { exists 0. split_and!; [done|lia|lia|]. intros d len Hd Hne E. destruct (Hlen d Hd) as (l & El & E').
      rewrite E' in E. injection E as <-. specialize (Hd0 d Hne).
      destruct (VarIntLen_cases (Z.of_nat (length d))) as (l' & El' & Cl); [varint|].
      rewrite El in El'. injection El' as <-. lia. }
    destruct (VarIntLen_cases (maxSize - (h + 1))) as (lm & Elm & Cm); [varint|]. rewrite Elm.
    cbn [mbind outcome_bind]. eexists. split; [reflexivity|]. split; [case_if; zbool; lia|].
    intros d len Hd Hne E. destruct (Hlen d Hd) as (l & El & E'). rewrite E' in E. injection E as <-.
    destruct (VarIntLen_cases (Z.of_nat (length d))) as (l' & El' & Cl); [varint|].
    rewrite El in El'. injection El' as <-. specialize (Hd0 d Hne). case_if; zbool; lia.
  - destruct (Z.ltb_spec maxSize h).
    + exists 0. split_and!; [done|lia|lia|]. intros d len Hd Hne E. destruct (Hlen d Hd) as (l & El & E').
      rewrite E' in E. injection E as <-. specialize (Hd0 d Hne). lia.
    + eexists. split; [reflexivity|]. split; [lia|]. intros d len Hd Hne E.
      destruct (Hlen d Hd) as (l & El & E'). rewrite E' in E. injection E as <-. lia.
Qed.

(** Splitting a STREAM frame loses nothing: for a packet size below 2^14,
    [MaybeSplitOffFrame] never panics; when it splits, the two frames carry
    adjacent parts of the data at the right offsets, only the second one can
    carry the FIN, and the first is not empty and fits; when it does not split,
    the frame is untouched and fits, or there is no room for any data. *)
Theorem stream_frame_split f maxSize :
  is_id (sf_StreamID f) -> 0 <= sf_Offset f -> sf_Offset f + DataLen f <= MaxByteCount ->
  0 <= maxSize < 2 ^ 14 ->
  exists g e f', MaybeSplitOffFrame f maxSize = Ret (g, e, f') /\
  match g with
  | None =>
      f' = f /\ (e = None -> exists len, lengthStreamFrame f = Ret len /\ len <= maxSize) /\
      (e <> None -> MaxDataLen f maxSize = Ret 0)
  | Some g =>
      e = None /\ sf_Data f = sf_Data g ++ sf_Data f' /\ sf_Data g <> [] /\
      sf_Offset g = sf_Offset f /\ sf_Offset f' = sf_Offset f + DataLen g /\
      sf_FinBit g = false /\ sf_FinBit f' = sf_FinBit f /\
      sf_StreamID g = sf_StreamID f /\ sf_StreamID f' = sf_StreamID f /\
      exists len, lengthStreamFrame g = Ret len /\ len <= maxSize
  end.
Proof.
  intros Hid Hoff Hd Hmax. unfold DataLen in *.
  destruct (MaxDataLen_spec f maxSize Hid ltac:(lia) Hmax) as (n & Hn & Hnr & Hfit).
  destruct (stream_sizes f Hid ltac:(lia)) as (h & Hh & Hlen & Hm).
  destruct (Hlen (sf_Data f) Hd) as (l & Hl & Hf).
  assert (E : with_data f (sf_Data f) = f) by by destruct f. rewrite E in Hf.
  unfold MaybeSplitOffFrame. rewrite Hf. cbn [mbind outcome_bind].
  case_if; zbool; [eexists _, _, _; split; [reflexivity|]; split_and!; [done|by eauto|done]|].
  rewrite Hn. cbn [mbind outcome_bind]. case_if; zbool.
  { eexists _, _, _. split; [reflexivity|]. split_and!; [done|done|]. intros _. by subst n. }
  assert (Hle : n <= Z.of_nat (length (sf_Data f))).
  { destruct (sf_Data f) as [|x d0] eqn:Hdata; rewrite <- Hdata in *; [|].
    - rewrite Hdata in Hl, Heqb. injection Hl as <-. cbn [length Z.of_nat] in Heqb. rewrite Hm in Hn.
      destruct (sf_DataLenPresent f); cbn zeta in Hn; rewrite (proj2 (Z.ltb_lt _ _)) in Hn by lia;
        injection Hn as <-; done.
    - assert (Hne : sf_Data f <> []) by congruence. pose proof (Hfit (sf_Data f) _ Hd Hne ltac:(by rewrite E)).
      lia. }
  unfold DataLen. case_if; zbool; [lia|]. eexists _, _, _. split; [reflexivity|]. cbn.
  assert (Hlt : length (take (Z.to_nat n) (sf_Data f)) = Z.to_nat n) by (rewrite length_take; lia).
  split_and!; try done.
  - by rewrite take_drop.
  - intros Hnil. rewrite Hnil in Hlt. cbn in Hlt. lia.
  - rewrite Hlt, Z2Nat.id by lia. rewrite uint64_id; [done|unfold MaxByteCount in *; go_range].
  - destruct (Hlen (take (Z.to_nat n) (sf_Data f))) as (lg & Hlg & Hg); [lia|].
    eexists. split.
    + etransitivity; [|exact Hg]. done.
    + apply (Hfit (take (Z.to_nat n) (sf_Data f)) _); [lia| |exact Hg|lia].
      intros Hnil. rewrite Hnil in Hlt. cbn in Hlt. lia.
Qed.

Lemma stream_frame_split_witness :
  exists g e f', MaybeSplitOffFrame demo_stream 7 = Ret (g, e, f') /\
  match g with
  | None =>
      f' = demo_stream /\ (e = None -> exists len, lengthStreamFrame demo_stream = Ret len /\ len <= 7) /\
      (e <> None -> MaxDataLen demo_stream 7 = Ret 0)
  | Some g =>
      e = None /\ sf_Data demo_stream = sf_Data g ++ sf_Data f' /\ sf_Data g <> [] /\
      sf_Offset g = sf_Offset demo_stream /\ sf_Offset f' = sf_Offset demo_stream + DataLen g /\
      sf_FinBit g = false /\ sf_FinBit f' = sf_FinBit demo_stream /\
      sf_StreamID g = sf_StreamID demo_stream /\ sf_StreamID f' = sf_StreamID demo_stream /\
      exists len, lengthStreamFrame g = Ret len /\ len <= 7
  end.
Proof. apply (stream_frame_split demo_stream 7); by vm_compute. Defined.
