(* ===== verification/LinkedList.v ===== *)
(** * Linked lists (internal/utils/linkedlist/linkedlist.go)

    The doubly linked lists that the histories of packets, the received ranges and the gaps of streams are kept in (the code for each
    element type is generated from this file).  The elements live in a heap of cells with pointers; the theorem of this file
    is that the operations refine those on lists, which is how the other files model these lists. *)

From S2P Require Import Prelude.

Section LinkedList.
Context {Item : Type}.

(** Pointers to elements: the sentinel of a list, or an element that was allocated. *)
Inductive loc := Root (l : positive) | Elem (a : positive).

#[global] Instance loc_eq_dec : EqDecision loc.
Proof. solve_decision. Defined.
#[global] Instance loc_countable : Countable loc.
Proof.
  apply (inj_countable' (fun p => match p with Root l => inl l | Elem a => inr a end) (fun x => match x with inl l => Root l | inr a => Elem a end)).
  by intros [].
Defined.

Definition pointer := option loc.            (* nil is [None] *)

Record ItemElement := mkItemElement {
  el_next : pointer;
  el_prev : pointer;
  el_list : option positive;                 (* The list to which this element belongs. *)
  el_Value : option Item                     (* [None] in a sentinel *)
}.

#[global] Instance ItemElement_eta : Eta ItemElement := fun e => mkItemElement (el_next e) (el_prev e) (el_list e) (el_Value e).

(** The elements, with those inside of lists, the lengths of the lists, and the next address. *)
Record heap := mkHeap {
  hp_elements : gmap loc ItemElement;
  hp_len : gmap positive Z;
  hp_fresh : positive
}.

#[global] Instance heap_eta : Eta heap := fun h => mkHeap (hp_elements h) (hp_len h) (hp_fresh h).

Definition prog (A : Type) : Type := heap -> outcome (A * heap).

#[global] Instance prog_ret : MRet prog := fun A a h => Ret (a, h).
#[global] Instance prog_bind : MBind prog := fun A B k m h => '(a, h) ← m h; k a h.

Definition deref (p : pointer) : prog ItemElement := fun h =>
  match p ≫= fun l => hp_elements h !! l with None => Panic nil_dereference | Some e => Ret (e, h) end.
Definition assign (p : pointer) (f : ItemElement -> ItemElement) : prog unit := fun h =>
  match p with
  | Some l => match hp_elements h !! l with
              | Some e => Ret (tt, h <| hp_elements := <[l := f e]> (hp_elements h) |>)
              | None => Panic nil_dereference
              end
  | None => Panic nil_dereference
  end.
Definition get_len (l : positive) : prog Z := fun h =>
  match hp_len h !! l with None => Panic nil_dereference | Some n => Ret (n, h) end.
Definition set_len (l : positive) (n : Z) : prog unit := fun h => Ret (tt, h <| hp_len := <[l := n]> (hp_len h) |>).
Definition new_element (v : Item) : prog pointer := fun h =>
  let a := hp_fresh h in
  Ret (Some (Elem a), h <| hp_elements := <[Elem a := mkItemElement None None None (Some v)]> (hp_elements h) |> <| hp_fresh := Pos.succ a |>).

(** ** Operations *)

Definition Next (e : pointer) : prog pointer :=
  x ← deref e;
  let p := el_next x in
  match el_list x with
  | Some l => if bool_decide (p <> Some (Root l)) then mret p else mret None
  | None => mret None
  end.

Definition Prev (e : pointer) : prog pointer :=
  x ← deref e;
  let p := el_prev x in
  match el_list x with
  | Some l => if bool_decide (p <> Some (Root l)) then mret p else mret None
  | None => mret None
  end.

Definition Init (l : positive) : prog unit :=
  assign (Some (Root l)) (fun x => x <| el_next := Some (Root l) |>);;
  assign (Some (Root l)) (fun x => x <| el_prev := Some (Root l) |>);;
  set_len l 0.

(** [new(ItemList)], at a new address. *)
Definition NewItemList : prog positive := fun h =>
  let l := hp_fresh h in
  let h := h <| hp_elements := <[Root l := mkItemElement None None None None]> (hp_elements h) |> <| hp_len := <[l := 0]> (hp_len h) |>
             <| hp_fresh := Pos.succ l |> in
  (Init l;; mret l) h.

Definition list_Len (l : positive) : prog Z := get_len l.

Definition Front (l : positive) : prog pointer :=
  n ← get_len l;
  if n =? 0 then mret None else x ← deref (Some (Root l)); mret (el_next x).

Definition Back (l : positive) : prog pointer :=
  n ← get_len l;
  if n =? 0 then mret None else x ← deref (Some (Root l)); mret (el_prev x).

Definition lazyInit (l : positive) : prog unit :=
  x ← deref (Some (Root l));
  match el_next x with None => Init l | Some _ => mret tt end.

(** insert inserts e after at, increments l.len, and returns e. *)
Definition insert (l : positive) (e at_ : pointer) : prog pointer :=
  x ← deref at_;
  let n := el_next x in
  assign at_ (fun x => x <| el_next := e |>);;
  assign e (fun x => x <| el_prev := at_ |>);;
  assign e (fun x => x <| el_next := n |>);;
  assign n (fun x => x <| el_prev := e |>);;
  assign e (fun x => x <| el_list := Some l |>);;
  len ← get_len l;
  set_len l (len + 1);;
  mret e.

Definition insertValue (l : positive) (v : Item) (at_ : pointer) : prog pointer :=
  e ← new_element v;
  insert l e at_.

Definition remove (l : positive) (e : pointer) : prog pointer :=
  x ← deref e;
  assign (el_prev x) (fun y => y <| el_next := el_next x |>);;
  x ← deref e;
  assign (el_next x) (fun y => y <| el_prev := el_prev x |>);;
  assign e (fun x => x <| el_next := None |>);;
  assign e (fun x => x <| el_prev := None |>);;
  assign e (fun x => x <| el_list := None |>);;
  len ← get_len l;
  set_len l (len - 1);;
  mret e.

Definition Remove (l : positive) (e : pointer) : prog (option Item) :=
  x ← deref e;
  (if bool_decide (el_list x = Some l) then _ ← remove l e; mret tt else mret tt);;
  x ← deref e;
  mret (el_Value x).

Definition PushFront (l : positive) (v : Item) : prog pointer :=
  lazyInit l;;
  insertValue l v (Some (Root l)).

Definition PushBack (l : positive) (v : Item) : prog pointer :=
  lazyInit l;;
  x ← deref (Some (Root l));
  insertValue l v (el_prev x).

Definition InsertBefore (l : positive) (v : Item) (mark : pointer) : prog pointer :=
  x ← deref mark;
  if bool_decide (el_list x <> Some l) then mret None else insertValue l v (el_prev x).

Definition InsertAfter (l : positive) (v : Item) (mark : pointer) : prog pointer :=
  x ← deref mark;
  if bool_decide (el_list x <> Some l) then mret None else insertValue l v mark.

Definition MoveToFront (l : positive) (e : pointer) : prog unit :=
  x ← deref e;
  r ← deref (Some (Root l));
  if bool_decide (el_list x <> Some l) || bool_decide (el_next r = e) then mret tt else
  e ← remove l e;
  _ ← insert l e (Some (Root l));
  mret tt.

(** The Go specification leaves open whether the operand [l.root.prev] (and [mark.prev] below) is read before or after the call of [remove]:
    [first] says that it is read before. *)
Definition MoveToBack (first : bool) (l : positive) (e : pointer) : prog unit :=
  x ← deref e;
  r ← deref (Some (Root l));
  if bool_decide (el_list x <> Some l) || bool_decide (el_prev r = e) then mret tt else
  e ← remove l e;
  r' ← deref (Some (Root l));
  _ ← insert l e (el_prev (if first then r else r'));
  mret tt.

Definition MoveBefore (first : bool) (l : positive) (e mark : pointer) : prog unit :=
  x ← deref e;
  if bool_decide (el_list x <> Some l) || bool_decide (e = mark) then mret tt else
  y ← deref mark;
  if bool_decide (el_list y <> Some l) then mret tt else
  e ← remove l e;
  y' ← deref mark;
  _ ← insert l e (el_prev (if first then y else y'));
  mret tt.

Definition MoveAfter (l : positive) (e mark : pointer) : prog unit :=
  x ← deref e;
  if bool_decide (el_list x <> Some l) || bool_decide (e = mark) then mret tt else
  y ← deref mark;
  if bool_decide (el_list y <> Some l) then mret tt else
  e ← remove l e;
  _ ← insert l e mark;
  mret tt.

(** The loops of [PushBackList] and [PushFrontList]. *)
Fixpoint push_back_loop (l : positive) (i : nat) (e : pointer) : prog unit :=
  match i with
  | O => mret tt
  | S i =>
      x ← deref e;
      r ← deref (Some (Root l));
      match el_Value x with
      | None => fun _ => Panic nil_dereference
      | Some v => _ ← insertValue l v (el_prev r); e ← Next e; push_back_loop l i e
      end
  end.

Fixpoint push_front_loop (l : positive) (i : nat) (e : pointer) : prog unit :=
  match i with
  | O => mret tt
  | S i =>
      x ← deref e;
      match el_Value x with
      | None => fun _ => Panic nil_dereference
      | Some v => _ ← insertValue l v (Some (Root l)); e ← Prev e; push_front_loop l i e
      end
  end.

Definition PushBackList (l other : positive) : prog unit :=
  lazyInit l;;
  n ← list_Len other;
  e ← Front other;
  push_back_loop l (Z.to_nat n) e.

Definition PushFrontList (l other : positive) : prog unit :=
  lazyInit l;;
  n ← list_Len other;
  e ← Back other;
  push_front_loop l (Z.to_nat n) e.

End LinkedList.

(** ** What a heap holds *)

Section Representation.
Context {Item : Type}.
Implicit Types h : heap (Item := Item).
Implicit Types xs ys zs : list (positive * Item).

Definition nxt h (p : loc) : pointer := hp_elements h !! p ≫= el_next.
Definition prv h (p : loc) : pointer := hp_elements h !! p ≫= el_prev.
Definition lst h (p : loc) : option positive := hp_elements h !! p ≫= el_list.
Definition val h (p : loc) : option Item := hp_elements h !! p ≫= el_Value.
Definition allocated h (p : loc) : Prop := is_Some (hp_elements h !! p).

(** Consecutive nodes point to each other. *)
Fixpoint links (nx pv : loc -> pointer) (ns : list loc) : Prop :=
  match ns with
  | a :: (b :: _) as r => nx a = Some b /\ pv b = Some a /\ links nx pv r
  | _ => True
  end.

Definition nodes (l : positive) xs : list loc := Root l :: map (fun x => Elem x.1) xs.

(** The list [l] holds these elements, by address and value. *)
Record is_list h (l : positive) xs : Prop := {
  il_links : links (nxt h) (prv h) (nodes l xs ++ [Root l]);
  il_nodup : NoDup xs.*1;
  il_elements : Forall (fun x => lst h (Elem x.1) = Some l /\ val h (Elem x.1) = Some x.2) xs;
  il_len : hp_len h !! l = Some (Z.of_nat (length xs))
}.

(** The heap holds these lists; every other element belongs to none. *)
Record holds h (m : gmap positive (list (positive * Item))) : Prop := {
  ho_lists : forall l xs, m !! l = Some xs -> is_list h l xs;
  ho_members : forall a l, lst h (Elem a) = Some l -> exists xs, m !! l = Some xs /\ a ∈ xs.*1;
  ho_fresh : forall p, allocated h p -> (match p with Root l => l | Elem a => a end < hp_fresh h)%positive;
  ho_values : forall a, allocated h (Elem a) -> is_Some (val h (Elem a))
}.

(** *** Links *)

Lemma links_app nx pv (P S : list loc) a : links nx pv (P ++ a :: S) <-> links nx pv (P ++ [a]) /\ links nx pv (a :: S).
Proof.
  induction P as [|p P IH]; [cbn; tauto|]. destruct P as [|q P].
  - destruct S; cbn; tauto.
  - change ((p :: q :: P) ++ a :: S) with (p :: q :: (P ++ a :: S)). change ((p :: q :: P) ++ [a]) with (p :: q :: (P ++ [a])).
    cbn [links]. change (q :: P ++ a :: S) with ((q :: P) ++ a :: S). change (q :: P ++ [a]) with ((q :: P) ++ [a]). rewrite IH. tauto.
Qed.

(** Only the [next] pointers before the last node and the [prev] pointers after the first one matter. *)
Lemma links_ext nx pv nx' pv' (P : list loc) b :
  (forall p, p ∈ P -> nx' p = nx p) -> (forall p, p ∈ tail (P ++ [b]) -> pv' p = pv p) ->
  links nx pv (P ++ [b]) -> links nx' pv' (P ++ [b]).
Proof.
  induction P as [|a P IH]; [done|]. intros Hn Hp. destruct P as [|c P].
  - cbn. intros (E1 & E2 & _). rewrite Hn, Hp by (left || right; left). done.
  - cbn [app links]. intros (E1 & E2 & Hl). rewrite Hn, Hp by (cbn; set_solver). split_and!; [done..|].
    apply IH; [set_solver| |done]. intros p Hin. apply Hp. cbn in *. set_solver.
Qed.

(** A list in two parts: the last node of the first part, and the first node of the second one. *)
Definition last_node (l : positive) ys : loc := match last ys with Some x => Elem x.1 | None => Root l end.
Definition first_node (l : positive) zs : loc := match zs with x :: _ => Elem x.1 | [] => Root l end.
Definition back_nodes (l : positive) zs : list loc := map (fun x => Elem x.1) zs ++ [Root l].

Lemma elem_of_nodes l xs p : p ∈ nodes l xs <-> p = Root l \/ exists x, x ∈ xs /\ p = Elem x.1.
Proof. unfold nodes. rewrite elem_of_cons, list_elem_of_fmap. naive_solver. Qed.

Lemma nodes_last l ys : exists Y, nodes l ys = Y ++ [last_node l ys] /\ (NoDup ys.*1 -> last_node l ys ∉ Y).
Proof.
  induction ys as [|x ys _] using rev_ind; [exists []; split; [done|set_solver]|]. exists (nodes l ys).
  unfold last_node. rewrite last_snoc. split; [unfold nodes; by rewrite map_app|]. rewrite fmap_app, NoDup_app. cbn.
  intros (_ & Hd & _) [Hp|(y & Hy & [= E])]%elem_of_nodes; [done|]. apply (Hd y.1); [by apply list_elem_of_fmap_2|]. rewrite E. left.
Qed.

Lemma links_split nx pv l ys zs :
  links nx pv (nodes l (ys ++ zs) ++ [Root l]) <->
  links nx pv (nodes l ys) /\ nx (last_node l ys) = Some (first_node l zs) /\ pv (first_node l zs) = Some (last_node l ys) /\
  links nx pv (back_nodes l zs).
Proof.
  assert (E : nodes l (ys ++ zs) ++ [Root l] = nodes l ys ++ back_nodes l zs) by (unfold nodes, back_nodes; rewrite map_app; by list_simplifier).
  rewrite E. clear E. destruct (nodes_last l ys) as (Y & -> & _). rewrite <- app_assoc. cbn [app]. rewrite links_app.
  assert (Eb : exists S, back_nodes l zs = first_node l zs :: S) by (destruct zs; by eexists). destruct Eb as [S ->]. cbn [links]. tauto.
Qed.

Lemma links_cons_back nx pv l zs x :
  links nx pv (back_nodes l (x :: zs)) <-> nx (Elem x.1) = Some (first_node l zs) /\ pv (first_node l zs) = Some (Elem x.1) /\ links nx pv (back_nodes l zs).
Proof. by destruct zs. Qed.

Lemma front_ext nx pv nx' pv' l ys :
  NoDup ys.*1 -> (forall p, p ∈ nodes l ys -> p <> last_node l ys -> nx' p = nx p) -> (forall x, x ∈ ys -> pv' (Elem x.1) = pv (Elem x.1)) ->
  links nx pv (nodes l ys) -> links nx' pv' (nodes l ys).
Proof.
  intros Hd Hn Hp. assert (Ht : tail (nodes l ys) = map (fun x => Elem x.1) ys) by done. destruct (nodes_last l ys) as (Y & E & Hl). rewrite E in *.
  apply links_ext.
  - intros p Hin. apply Hn; [set_solver|]. intros ->. by apply Hl.
  - rewrite Ht. intros p (x & -> & Hx)%list_elem_of_fmap. by apply Hp.
Qed.

Lemma back_ext nx pv nx' pv' l zs :
  NoDup zs.*1 -> (forall x, x ∈ zs -> nx' (Elem x.1) = nx (Elem x.1)) -> (forall p, p ∈ back_nodes l zs -> p <> first_node l zs -> pv' p = pv p) ->
  links nx pv (back_nodes l zs) -> links nx' pv' (back_nodes l zs).
Proof.
  intros Hd Hn Hp. apply links_ext.
  - intros p (x & -> & Hx)%list_elem_of_fmap. by apply Hn.
  - intros p Hin. destruct zs as [|x zs]; [by apply elem_of_nil in Hin|]. apply Hp; [by right|]. intros ->. cbn in Hd, Hin. apply NoDup_cons in Hd as [Hx _]. apply elem_of_app in Hin as [(y & [= E] & Hy)%list_elem_of_fmap|Hin].
    + apply Hx. rewrite E. by apply list_elem_of_fmap_2.
    + by apply list_elem_of_singleton in Hin.
Qed.

(** *** Cells *)

Definition update h (p : loc) (f : ItemElement -> ItemElement) : heap := h <| hp_elements := alter f p (hp_elements h) |>.

Lemma assign_run h p f : allocated h p -> assign (Some p) f h = Ret (tt, update h p f).
Proof.
  intros [e E]. unfold assign. rewrite E. unfold update. assert (Ea : alter f p (hp_elements h) = <[p := f e]> (hp_elements h)); [|by rewrite Ea].
  apply map_eq. intros q. destruct (decide (p = q)) as [->|]; [by rewrite lookup_insert_eq, lookup_alter_eq, E|by rewrite lookup_insert_ne, lookup_alter_ne].
Qed.

Lemma deref_run h p : allocated h p -> exists e, deref (Some p) h = Ret (e, h) /\
  nxt h p = el_next e /\ prv h p = el_prev e /\ lst h p = el_list e /\ val h p = el_Value e.
Proof. intros [e E]. exists e. unfold deref, nxt, prv, lst, val. cbn. by rewrite E. Qed.

Lemma nxt_allocated h p q : nxt h p = Some q -> allocated h p.
Proof. unfold nxt, allocated. by destruct (hp_elements h !! p). Qed.
Lemma prv_allocated h p q : prv h p = Some q -> allocated h p.
Proof. unfold prv, allocated. by destruct (hp_elements h !! p). Qed.
Lemma lst_allocated h p q : lst h p = Some q -> allocated h p.
Proof. unfold lst, allocated. by destruct (hp_elements h !! p). Qed.

Lemma update_allocated h p f q : allocated (update h p f) q <-> allocated h q.
Proof. unfold allocated, update. cbn. destruct (decide (p = q)) as [->|]; [rewrite lookup_alter_eq, fmap_is_Some|rewrite lookup_alter_ne by done]; done. Qed.

Lemma update_obs {B} (g : ItemElement -> option B) h p f q :
  hp_elements (update h p f) !! q ≫= g = if decide (q = p) then hp_elements h !! p ≫= (fun x => g (f x)) else hp_elements h !! q ≫= g.
Proof.
  unfold update. cbn. destruct (decide (q = p)) as [->|]; [rewrite lookup_alter_eq; by destruct (hp_elements h !! p)|by rewrite lookup_alter_ne by done].
Qed.

(** Two heaps with the same cells, lengths and addresses but for these observations. *)
Record changed h h' (nx pv : loc -> pointer) (ls : loc -> option positive) (len : gmap positive Z) : Prop := {
  ch_next : forall q, nxt h' q = nx q;
  ch_prev : forall q, prv h' q = pv q;
  ch_list : forall q, lst h' q = ls q;
  ch_val : forall q, val h' q = val h q;
  ch_len : hp_len h' = len;
  ch_allocated : forall q, allocated h' q <-> allocated h q;
  ch_fresh : hp_fresh h' = hp_fresh h
}.

(** An assignment to one field of one cell. *)
Ltac changed_assign :=
  let e := fresh "e" in let Ee := fresh "Ee" in
  intros [C1 C2 C3 C4 C5 C6 C7] Ha; apply C6 in Ha as Ha'; eexists; split; [by apply assign_run|];
  unfold nxt, prv, lst, val in *; destruct Ha' as [e Ee];
  split; try done; intros q; unfold nxt, prv, lst, val; rewrite ?update_obs; try (destruct (decide (q = _)) as [->|]; [|done]); rewrite ?Ee; cbn; rewrite ?update_allocated; try done;
  rewrite <- ?C1, <- ?C2, <- ?C3, <- ?C4, ?Ee; done.

Lemma changed_next h0 h p v nx pv ls len :
  changed h0 h nx pv ls len -> allocated h0 p ->
  exists h', assign (Some p) (fun x => x <| el_next := v |>) h = Ret (tt, h') /\
    changed h0 h' (fun q => if decide (q = p) then v else nx q) pv ls len.
Proof. changed_assign. Qed.

Lemma changed_prev h0 h p v nx pv ls len :
  changed h0 h nx pv ls len -> allocated h0 p ->
  exists h', assign (Some p) (fun x => x <| el_prev := v |>) h = Ret (tt, h') /\
    changed h0 h' nx (fun q => if decide (q = p) then v else pv q) ls len.
Proof. changed_assign. Qed.

Lemma changed_list h0 h p v nx pv ls len :
  changed h0 h nx pv ls len -> allocated h0 p ->
  exists h', assign (Some p) (fun x => x <| el_list := v |>) h = Ret (tt, h') /\
    changed h0 h' nx pv (fun q => if decide (q = p) then v else ls q) len.
Proof. changed_assign. Qed.

Lemma changed_len h0 h l k nx pv ls len :
  changed h0 h nx pv ls len -> exists h', set_len l k h = Ret (tt, h') /\ changed h0 h' nx pv ls (<[l := k]> len).
Proof. intros [C1 C2 C3 C4 C5 C6 C7]. eexists. split; [done|]. split; try done. cbn. by rewrite C5. Qed.

Lemma changed_refl h : changed h h (nxt h) (prv h) (lst h) (hp_len h).
Proof. done. Qed.

Lemma prog_bind_eq {A B} (m : prog A) (k : A -> prog B) h a h' : m h = Ret (a, h') -> (m ≫= k) h = k a h'.
Proof. unfold mbind, prog_bind. by intros ->. Qed.

(** One statement of an operation. *)
Ltac run_step E := rewrite (prog_bind_eq _ _ _ _ _ E).

Lemma insert_run h l e a n k :
  allocated h e -> nxt h a = Some n -> allocated h n -> hp_len h !! l = Some k ->
  exists h', insert l (Some e) (Some a) h = Ret (Some e, h') /\
    changed h h' (fun q => if decide (q = e) then Some n else if decide (q = a) then Some e else nxt h q)
      (fun q => if decide (q = n) then Some e else if decide (q = e) then Some a else prv h q)
      (fun q => if decide (q = e) then Some l else lst h q) (<[l := k + 1]> (hp_len h)).
Proof.
  intros He Hn Hna Hk. pose proof (nxt_allocated _ _ _ Hn) as Ha. unfold insert.
  destruct (deref_run h a Ha) as (x & E0 & Ex & _). run_step E0. rewrite <- Ex, Hn. cbv zeta.
  destruct (changed_next h h a (Some e) _ _ _ _ (changed_refl h) Ha) as (h1 & E1 & C1). run_step E1.
  destruct (changed_prev h h1 e (Some a) _ _ _ _ C1 He) as (h2 & E2 & C2). run_step E2.
  destruct (changed_next h h2 e (Some n) _ _ _ _ C2 He) as (h3 & E3 & C3). run_step E3.
  destruct (changed_prev h h3 n (Some e) _ _ _ _ C3 Hna) as (h4 & E4 & C4). run_step E4.
  destruct (changed_list h h4 e (Some l) _ _ _ _ C4 He) as (h5 & E5 & C5). run_step E5.
  assert (E6 : get_len l h5 = Ret (k, h5)) by (unfold get_len; by rewrite (ch_len _ _ _ _ _ _ C5), Hk). run_step E6.
  destruct (changed_len h h5 l (k + 1) _ _ _ _ C5) as (h6 & E7 & C6). run_step E7. by exists h6.
Qed.

Lemma remove_run h l e p n k :
  prv h e = Some p -> nxt h e = Some n -> allocated h p -> allocated h n -> p <> e -> hp_len h !! l = Some k ->
  exists h', remove l (Some e) h = Ret (Some e, h') /\
    changed h h' (fun q => if decide (q = e) then None else if decide (q = p) then Some n else nxt h q)
      (fun q => if decide (q = e) then None else if decide (q = n) then Some p else prv h q)
      (fun q => if decide (q = e) then None else lst h q) (<[l := k - 1]> (hp_len h)).
Proof.
  intros Hp Hn Hpa Hna Hne Hk. pose proof (nxt_allocated _ _ _ Hn) as He. unfold remove.
  destruct (deref_run h e He) as (x & E0 & Ex1 & Ex2 & _). run_step E0. rewrite <- Ex1, <- Ex2, Hn, Hp.
  destruct (changed_next h h p (Some n) _ _ _ _ (changed_refl h) Hpa) as (h1 & E1 & C1). run_step E1.
  destruct (deref_run h1 e) as (y & E2 & Ey1 & Ey2 & _); [by apply (ch_allocated _ _ _ _ _ _ C1)|]. run_step E2.
  rewrite (ch_next _ _ _ _ _ _ C1), decide_False, Hn in Ey1 by done. rewrite (ch_prev _ _ _ _ _ _ C1), Hp in Ey2. rewrite <- Ey1, <- Ey2.
  destruct (changed_prev h h1 n (Some p) _ _ _ _ C1 Hna) as (h2 & E3 & C2). run_step E3.
  destruct (changed_next h h2 e None _ _ _ _ C2 He) as (h3 & E4 & C3). run_step E4.
  destruct (changed_prev h h3 e None _ _ _ _ C3 He) as (h4 & E5 & C4). run_step E5.
  destruct (changed_list h h4 e None _ _ _ _ C4 He) as (h5 & E6 & C5). run_step E6.
  assert (E7 : get_len l h5 = Ret (k, h5)) by (unfold get_len; by rewrite (ch_len _ _ _ _ _ _ C5), Hk). run_step E7.
  destruct (changed_len h h5 l (k - 1) _ _ _ _ C5) as (h6 & E8 & C6). run_step E8. by exists h6.
Qed.

(** *** Lists *)

Lemma is_list_nodup h l ys zs : is_list h l (ys ++ zs) ->
  NoDup ys.*1 /\ NoDup zs.*1 /\ forall a, a ∈ ys.*1 -> a ∈ zs.*1 -> False.
Proof. intros [_ Hd _ _]. rewrite fmap_app in Hd. apply NoDup_app in Hd as (H1 & H2 & H3). naive_solver. Qed.

Lemma node_owner h l xs p : is_list h l xs -> p ∈ nodes l xs ->
  match p with Root l' => l' = l | Elem a => lst h (Elem a) = Some l end.
Proof.
  intros Hl [->|(x & Hx & ->)]%elem_of_nodes; [done|]. pose proof (il_elements _ _ _ Hl) as Hf. rewrite Forall_forall in Hf. by apply Hf.
Qed.

(** A list whose cells did not change. *)
Lemma is_list_frame h h' l xs :
  is_list h l xs -> (forall p, p ∈ nodes l xs -> nxt h' p = nxt h p /\ prv h' p = prv h p /\ lst h' p = lst h p /\ val h' p = val h p) ->
  hp_len h' !! l = hp_len h !! l -> is_list h' l xs.
Proof.
  intros [L1 L2 L3 L4] Hsame Hlen. split; [|done| |by rewrite Hlen].
  - revert L1. apply links_ext.
    + intros p Hp. by apply Hsame.
    + intros p Hp. apply Hsame. unfold nodes in *. cbn in Hp. set_solver.
  - rewrite Forall_forall in *. intros x Hx. destruct (Hsame (Elem x.1)) as (_ & _ & -> & ->); [|by apply L3].
    apply elem_of_nodes. right. by exists x.
Qed.

Lemma last_node_in l ys zs : last_node l ys ∈ nodes l (ys ++ zs).
Proof.
  apply elem_of_nodes. unfold last_node. destruct (last ys) as [x|] eqn:E; [right; exists x|by left]. split; [|done].
  apply last_Some in E as [ys' ->]. set_solver.
Qed.
Lemma first_node_in l ys zs : first_node l zs ∈ nodes l (ys ++ zs).
Proof. apply elem_of_nodes. destruct zs as [|x zs]; [by left|right]. exists x. set_solver. Qed.

Lemma links_allocated h l ys zs : links (nxt h) (prv h) (nodes l (ys ++ zs) ++ [Root l]) ->
  nxt h (last_node l ys) = Some (first_node l zs) /\ prv h (first_node l zs) = Some (last_node l ys) /\
  allocated h (last_node l ys) /\ allocated h (first_node l zs).
Proof. intros (_ & H1 & H2 & _)%links_split. split_and!; [done..|by eapply nxt_allocated|by eapply prv_allocated]. Qed.

Lemma last_node_ne l ys a : a ∉ ys.*1 -> last_node l ys <> Elem a.
Proof.
  unfold last_node. destruct (last ys) as [x|] eqn:E; [|done]. intros Ha [= <-]. apply Ha.
  apply last_Some in E as [ys' ->]. rewrite fmap_app. apply elem_of_app. right. left.
Qed.
Lemma first_node_ne l zs a : a ∉ zs.*1 -> first_node l zs <> Elem a.
Proof. destruct zs as [|x zs]; [done|]. cbn. intros Ha [= <-]. apply Ha. left. Qed.
Lemma elem_fst {B} (x : positive * B) (l : list (positive * B)) : x ∈ l -> x.1 ∈ l.*1.
Proof. apply list_elem_of_fmap_2. Qed.

Lemma insert_links nx pv l ys zs a (v : Item) :
  links nx pv (nodes l (ys ++ zs) ++ [Root l]) -> NoDup ys.*1 -> NoDup zs.*1 -> (forall b, b ∈ ys.*1 -> b ∈ zs.*1 -> False) ->
  a ∉ ys.*1 -> a ∉ zs.*1 ->
  links (fun q => if decide (q = Elem a) then Some (first_node l zs) else if decide (q = last_node l ys) then Some (Elem a) else nx q)
    (fun q => if decide (q = first_node l zs) then Some (Elem a) else if decide (q = Elem a) then Some (last_node l ys) else pv q)
    (nodes l (ys ++ (a, v) :: zs) ++ [Root l]).
Proof.
  intros (L1 & _ & _ & L4)%links_split Hy Hz Hdis Hay Haz. pose proof (last_node_ne l ys a Hay) as Hl. pose proof (first_node_ne l zs a Haz) as Hf.
  apply links_split. split_and!.
  - revert L1. apply front_ext; [done| |].
    + intros p [->|(x & Hx & ->)]%elem_of_nodes Hp; [by rewrite !decide_False|]. rewrite !decide_False; [done|done|].
      intros [= E]. apply Hay. rewrite <- E. by apply elem_fst.
    + intros x Hx%elem_fst. rewrite !decide_False; [done|intros [= E]; by rewrite E in Hx|]. intros E. symmetry in E. revert E. apply first_node_ne. naive_solver.
  - by rewrite decide_False, decide_True by done.
  - cbn. by rewrite decide_False, decide_True by done.
  - apply links_cons_back. rewrite !decide_True by done. split_and!; [done..|]. revert L4. apply back_ext; [done| |].
    + intros x Hx%elem_fst. rewrite !decide_False; [done| |intros [= E]; by rewrite E in Hx]. intros E. symmetry in E. revert E. apply last_node_ne. naive_solver.
    + intros p Hp Hne. rewrite !decide_False; [done| |done]. intros ->. unfold back_nodes in Hp.
      apply elem_of_app in Hp as [(x & [= ->] & Hx%elem_fst)%list_elem_of_fmap|Hp]; [done|by apply list_elem_of_singleton in Hp].
Qed.

Lemma remove_links nx pv l ys zs a (v : Item) :
  links nx pv (nodes l (ys ++ (a, v) :: zs) ++ [Root l]) -> NoDup ys.*1 -> NoDup zs.*1 -> (forall b, b ∈ ys.*1 -> b ∈ zs.*1 -> False) ->
  a ∉ ys.*1 -> a ∉ zs.*1 ->
  links (fun q => if decide (q = Elem a) then None else if decide (q = last_node l ys) then Some (first_node l zs) else nx q)
    (fun q => if decide (q = Elem a) then None else if decide (q = first_node l zs) then Some (last_node l ys) else pv q)
    (nodes l (ys ++ zs) ++ [Root l]).
Proof.
  intros (L1 & _ & _ & L4)%links_split Hy Hz Hdis Hay Haz. pose proof (last_node_ne l ys a Hay) as Hl. pose proof (first_node_ne l zs a Haz) as Hf.
  apply links_cons_back in L4 as (_ & _ & L4').
  apply links_split. split_and!.
  - revert L1. apply front_ext; [done| |].
    + intros p [->|(x & Hx & ->)]%elem_of_nodes Hp; [by rewrite !decide_False|]. rewrite !decide_False; [done|done|].
      intros [= E]. apply Hay. rewrite <- E. by apply elem_fst.
    + intros x Hx%elem_fst. rewrite !decide_False; [done| |intros [= E]; by rewrite E in Hx]. intros E. symmetry in E. revert E. apply first_node_ne. naive_solver.
  - by rewrite decide_False, decide_True by done.
  - by rewrite decide_False, decide_True by done.
  - revert L4'. apply back_ext; [done| |].
    + intros x Hx%elem_fst. rewrite !decide_False; [done| |intros [= E]; by rewrite E in Hx]. intros E. symmetry in E. revert E. apply last_node_ne. naive_solver.
    + intros p Hp Hne. rewrite !decide_False; [done|done|]. intros ->. unfold back_nodes in Hp.
      apply elem_of_app in Hp as [(x & [= ->] & Hx%elem_fst)%list_elem_of_fmap|Hp]; [done|by apply list_elem_of_singleton in Hp].
Qed.

Lemma not_member h l xs a : is_list h l xs -> lst h (Elem a) <> Some l -> a ∉ xs.*1.
Proof.
  intros Hl Hn (x & -> & Hx)%list_elem_of_fmap. apply Hn. pose proof (il_elements _ _ _ Hl) as Hf. rewrite Forall_forall in Hf. by apply Hf.
Qed.

(** The other lists, when only cells of [l] and one that belongs to no other list changed. *)
Lemma holds_others h h' m l xs xs' a nx pv ls k :
  holds h m -> m !! l = Some xs -> is_list h' l xs' -> changed h h' nx pv ls (<[l := k]> (hp_len h)) ->
  (forall q, q ∉ nodes l xs -> q <> Elem a -> nx q = nxt h q /\ pv q = prv h q /\ ls q = lst h q) ->
  (forall l', lst h (Elem a) = Some l' -> l' = l) ->
  (forall b, b ∈ xs.*1 \/ b = a -> forall l', ls (Elem b) = Some l' -> l' = l /\ b ∈ xs'.*1) ->
  holds h' (<[l := xs']> m).
Proof.
  intros [K1 K2 K3 K4] Hl Hl' Hc Hsame Ha Hmem. split.
  - intros l2 xs2 [[<- <-]|[Hne Hl2]]%lookup_insert_Some; [done|]. apply (is_list_frame h h'); [by apply K1| |].
    + intros p Hp. pose proof (node_owner _ _ _ _ (K1 _ _ Hl2) Hp) as Ho.
      destruct (Hsame p) as (E1 & E2 & E3).
      * intros Hin. pose proof (node_owner _ _ _ _ (K1 _ _ Hl) Hin) as Ho'. destruct p; congruence.
      * intros ->. by apply Hne, eq_sym, Ha.
      * by rewrite (ch_next _ _ _ _ _ _ Hc), (ch_prev _ _ _ _ _ _ Hc), (ch_list _ _ _ _ _ _ Hc), (ch_val _ _ _ _ _ _ Hc).
    + by rewrite (ch_len _ _ _ _ _ _ Hc), lookup_insert_ne.
  - intros b l2. rewrite (ch_list _ _ _ _ _ _ Hc). intros Hb. destruct (decide (b ∈ xs.*1 \/ b = a)) as [Hin|Hnin].
    + destruct (Hmem b Hin l2 Hb) as [-> Hx]. exists xs'. by rewrite lookup_insert_eq.
    + destruct (Hsame (Elem b)) as (_ & _ & E).
      * intros [?|(x & Hx & [= ->])]%elem_of_nodes; [done|]. apply Hnin. left. by apply elem_fst.
      * intros [= ->]. apply Hnin. by right.
      * rewrite E in Hb. destruct (K2 b l2 Hb) as (xs2 & Hm & Hx). destruct (decide (l2 = l)) as [->|Hne]; [|exists xs2; by rewrite lookup_insert_ne].
        rewrite Hm in Hl. injection Hl as ->. destruct Hnin. by left.
  - intros p Hp. rewrite (ch_fresh _ _ _ _ _ _ Hc). apply K3. by apply (ch_allocated _ _ _ _ _ _ Hc).
  - intros b Hb. rewrite (ch_val _ _ _ _ _ _ Hc). apply K4. by apply (ch_allocated _ _ _ _ _ _ Hc).
Qed.

Lemma insert_holds h m l ys zs a v :
  holds h m -> m !! l = Some (ys ++ zs) -> allocated h (Elem a) -> lst h (Elem a) = None -> val h (Elem a) = Some v ->
  exists h', insert l (Some (Elem a)) (Some (last_node l ys)) h = Ret (Some (Elem a), h') /\ holds h' (<[l := ys ++ (a, v) :: zs]> m) /\
    (forall q, allocated h' q <-> allocated h q) /\ (forall q, val h' q = val h q) /\ hp_fresh h' = hp_fresh h.
Proof.
  intros Hh Hl Ha Hn Hv. pose proof (ho_lists _ _ Hh _ _ Hl) as Hil. destruct (links_allocated _ _ _ _ (il_links _ _ _ Hil)) as (E1 & E2 & A1 & A2).
  destruct (insert_run h l (Elem a) _ _ _ Ha E1 A2 (il_len _ _ _ Hil)) as (h' & E & Hc). exists h'.
  assert (Hax : a ∉ (ys ++ zs).*1) by (eapply not_member; [done|]; by rewrite Hn). rewrite fmap_app, not_elem_of_app in Hax. destruct Hax as [Hay Haz].
  destruct (is_list_nodup _ _ _ _ Hil) as (Hy & Hz & Hdis).
  split_and!; [done| |apply Hc..]. eapply (holds_others h h' m l (ys ++ zs) _ a); [done|done| |exact Hc| | |].
  - destruct Hil as [L1 L2 L3 L4]. split.
    + apply (insert_links _ _ _ _ _ a v) in L1; [|done..]. revert L1. apply links_ext; intros p _; [apply Hc|apply Hc].
    + rewrite fmap_app, fmap_cons. apply NoDup_app. split_and!; [done| |apply NoDup_cons; done]. intros b Hb [->|?]%elem_of_cons; [done|by eapply Hdis].
    + rewrite Forall_app, Forall_cons in *. destruct L3 as [F1 F2]. rewrite Forall_forall in F1, F2.
      split; [apply Forall_forall|split; [|apply Forall_forall]]; try intros x Hx; cbn; rewrite (ch_list _ _ _ _ _ _ Hc), (ch_val _ _ _ _ _ _ Hc).
      * rewrite decide_False; [by apply F1|]. intros [= <-]. by apply elem_fst in Hx.
      * by rewrite decide_True.
      * rewrite decide_False; [by apply F2|]. intros [= <-]. by apply elem_fst in Hx.
    + rewrite (ch_len _ _ _ _ _ _ Hc), lookup_insert_eq, !length_app. cbn [length]. f_equal. lia.
  - intros q Hq Hqa. pose proof (last_node_in l ys zs). pose proof (first_node_in l ys zs). cbv beta. rewrite !decide_False by congruence. done.
  - by rewrite Hn.
  - intros b Hb l'. rewrite fmap_app, fmap_cons. destruct (decide (Elem b = Elem a)) as [[= ->]|Hne]; [intros [= <-]; split; [done|set_solver]|].
    intros Hl2. destruct Hb as [Hb|Hb]; [|congruence]. rewrite fmap_app in Hb. split; [|set_solver].
    destruct Hil as [_ _ L3 _]. rewrite Forall_forall in L3. rewrite <- fmap_app in Hb. apply list_elem_of_fmap in Hb as (x & -> & Hx). destruct (L3 x Hx). congruence.
Qed.

Lemma remove_holds h m l ys zs a v :
  holds h m -> m !! l = Some (ys ++ (a, v) :: zs) ->
  exists h', remove l (Some (Elem a)) h = Ret (Some (Elem a), h') /\ holds h' (<[l := ys ++ zs]> m) /\
    (forall q, allocated h' q <-> allocated h q) /\ (forall q, val h' q = val h q) /\ lst h' (Elem a) = None /\ val h (Elem a) = Some v /\
    (first_node l zs <> Root l -> prv h' (Root l) = prv h (Root l)).
Proof.
  intros Hh Hl. pose proof (ho_lists _ _ Hh _ _ Hl) as Hil. pose proof (il_links _ _ _ Hil) as L1.
  destruct (links_allocated _ _ _ _ L1) as (_ & E2 & A1 & A2). assert (L1' : links (nxt h) (prv h) (nodes l ((ys ++ [(a, v)]) ++ zs) ++ [Root l])) by by list_simplifier.
  destruct (links_allocated _ _ _ _ L1') as (E3 & E4 & _ & A3). unfold last_node at 1 in E3. rewrite last_snoc in E3. cbn in E2, E3.
  destruct (is_list_nodup _ _ _ _ Hil) as (Hy & Hz & Hdis). cbn in Hz. apply NoDup_cons in Hz as [Haz Hz].
  assert (Hay : a ∉ ys.*1) by (intros Hin; eapply Hdis; [done|left]).
  destruct (remove_run h l (Elem a) _ _ _ E2 E3 A1 A3 (last_node_ne l ys a Hay) (il_len _ _ _ Hil)) as (h' & E & Hc). exists h'.
  pose proof (il_elements _ _ _ Hil) as L3. rewrite Forall_app, Forall_cons in L3. destruct L3 as (F1 & [F2 F3] & F4).
  split_and!; [done| |apply Hc|apply Hc| |done|].
  2: { rewrite (ch_list _ _ _ _ _ _ Hc). by rewrite decide_True. }
  2: { intros Hf. rewrite (ch_prev _ _ _ _ _ _ Hc). by rewrite !decide_False. }
  eapply (holds_others h h' m l (ys ++ (a, v) :: zs) _ a); [done|done| |exact Hc| | |].
  - split.
    + apply remove_links in L1; [|done|done|intros b Hb Hb'; eapply Hdis; [done|by right]|done|done]. revert L1. apply links_ext; intros p _; [apply Hc|apply Hc].
    + rewrite fmap_app. apply NoDup_app. split_and!; [done| |done]. intros b Hb Hb'. eapply Hdis; [done|by right].
    + rewrite Forall_app, !Forall_forall in *. split; intros x Hx; rewrite (ch_list _ _ _ _ _ _ Hc), (ch_val _ _ _ _ _ _ Hc), decide_False; auto;
        intros [= <-]; by apply elem_fst in Hx.
    + rewrite (ch_len _ _ _ _ _ _ Hc), lookup_insert_eq, !length_app. cbn [length]. f_equal. lia.
  - intros q Hq Hqa. pose proof (last_node_in l ys ((a, v) :: zs)) as I1. pose proof (first_node_in l (ys ++ [(a, v)]) zs) as I2.
    rewrite <- app_assoc in I2. cbn [app] in I2. cbv beta. rewrite !decide_False by congruence. done.
  - cbn in F2. congruence.
  - intros b Hb l'. cbv beta. destruct (decide (Elem b = Elem a)) as [Ee|Hne]; [done|]. intros Hl2. destruct Hb as [Hb|Hb]; [|congruence].
    rewrite fmap_app, fmap_cons in Hb. assert (Hin : b ∈ ys.*1 ++ zs.*1) by (assert (b <> a) by congruence; set_solver). rewrite fmap_app. split; [|done].
    rewrite <- fmap_app in Hin. apply list_elem_of_fmap in Hin as (x & -> & Hx). rewrite !Forall_forall in *. apply elem_of_app in Hx as [Hx|Hx]; [destruct (F1 x Hx)|destruct (F4 x Hx)]; congruence.
Qed.

Lemma new_holds h m v : holds h m ->
  exists h', new_element v h = Ret (Some (Elem (hp_fresh h)), h') /\ holds h' m /\ allocated h' (Elem (hp_fresh h)) /\
    lst h' (Elem (hp_fresh h)) = None /\ val h' (Elem (hp_fresh h)) = Some v /\
    forall q, allocated h q -> hp_elements h' !! q = hp_elements h !! q.
Proof.
  intros Hh. pose proof Hh as [K1 K2 K3 K4]. eexists. split; [done|]. assert (Hnew : ~ allocated h (Elem (hp_fresh h))) by (intros Ha; apply K3 in Ha; lia).
  assert (Hold : forall q, allocated h q -> q <> Elem (hp_fresh h)) by (intros q Hq ->; done).
  split_and!; try (unfold allocated, lst, val; cbn; by rewrite lookup_insert_eq).
  2: { intros q Hq. cbn. rewrite lookup_insert_ne; [done|]. by apply not_eq_sym, Hold. }
  split.
  - intros l xs Hl. apply (is_list_frame h); [by apply K1| |done]. intros p Hp. unfold nxt, prv, lst, val. cbn.
    rewrite lookup_insert_ne; [done|]. intros <-. pose proof (node_owner _ _ _ _ (K1 _ _ Hl) Hp) as Ho. by apply lst_allocated in Ho.
  - intros a l. unfold lst. cbn. intros [b E]%bind_Some. destruct (decide (Elem (hp_fresh h) = Elem a)) as [Ea|Ea].
    + rewrite Ea, lookup_insert_eq in E. destruct E as [[= <-] ?]. done.
    + rewrite lookup_insert_ne in E by done. apply K2. unfold lst. destruct E as [-> ?]. done.
  - intros p [e Hp]. cbn in *. destruct (decide (Elem (hp_fresh h) = p)) as [<-|Hne]; [lia|]. rewrite lookup_insert_ne in Hp by done.
    apply Pos.lt_lt_succ, K3. by eexists.
  - intros a Ha. unfold val. cbn. destruct (decide (Elem (hp_fresh h) = Elem a)) as [Ea|Ea]; [rewrite Ea, lookup_insert_eq; by eexists|].
    rewrite lookup_insert_ne by done. apply K4. unfold allocated in *. cbn in Ha. by rewrite lookup_insert_ne in Ha.
Qed.

Lemma insertValue_holds h m l ys zs v :
  holds h m -> m !! l = Some (ys ++ zs) ->
  exists h' a, insertValue l v (Some (last_node l ys)) h = Ret (Some (Elem a), h') /\ holds h' (<[l := ys ++ (a, v) :: zs]> m) /\
    (forall q, allocated h q -> allocated h' q /\ val h' q = val h q).
Proof.
  intros Hh Hl. destruct (new_holds h m v Hh) as (h1 & E1 & Hh1 & A1 & N1 & V1 & S1).
  destruct (insert_holds h1 m l ys zs (hp_fresh h) v Hh1 Hl A1 N1 V1) as (h2 & E2 & Hh2 & A2 & V2 & _). exists h2, (hp_fresh h).
  unfold insertValue. run_step E1. split_and!; [done..|]. intros q Hq. rewrite A2, V2. unfold allocated, val. by rewrite S1.
Qed.

(** ** Lists without pointers *)

(** The elements of a list are known by their addresses. *)
Definition list_delete (a : positive) xs := List.filter (fun x => negb (bool_decide (x.1 = a))) xs.
Fixpoint list_before (mark : positive) (x : positive * Item) xs :=
  match xs with
  | [] => []
  | y :: xs => if bool_decide (y.1 = mark) then x :: y :: xs else y :: list_before mark x xs
  end.
Fixpoint list_after (mark : positive) (x : positive * Item) xs :=
  match xs with
  | [] => []
  | y :: xs => if bool_decide (y.1 = mark) then y :: x :: xs else y :: list_after mark x xs
  end.
Fixpoint list_value (a : positive) xs : option Item :=
  match xs with
  | [] => None
  | y :: xs => if bool_decide (y.1 = a) then Some y.2 else list_value a xs
  end.

(** The operations that change a list; [e] and [mark] are addresses of elements. *)
Inductive operation :=
| OpPushFront (v : Item)
| OpPushBack (v : Item)
| OpInsertBefore (v : Item) (mark : positive)
| OpInsertAfter (v : Item) (mark : positive)
| OpRemove (e : positive)
| OpMoveToFront (e : positive)
| OpMoveToBack (first : bool) (e : positive)
| OpMoveBefore (e mark : positive)
| OpMoveAfter (e mark : positive).

Definition operands (o : operation) : list positive :=
  match o with
  | OpPushFront _ | OpPushBack _ => []
  | OpInsertBefore _ mark | OpInsertAfter _ mark => [mark]
  | OpRemove e | OpMoveToFront e | OpMoveToBack _ e => [e]
  | OpMoveBefore e mark | OpMoveAfter e mark => [e; mark]
  end.

(** The element that is returned, if there is one. *)
Definition run_operation (l : positive) (o : operation) : prog pointer :=
  match o with
  | OpPushFront v => PushFront l v
  | OpPushBack v => PushBack l v
  | OpInsertBefore v mark => InsertBefore l v (Some (Elem mark))
  | OpInsertAfter v mark => InsertAfter l v (Some (Elem mark))
  | OpRemove e => _ ← Remove l (Some (Elem e)); mret None
  | OpMoveToFront e => MoveToFront l (Some (Elem e));; mret None
  | OpMoveToBack first e => MoveToBack first l (Some (Elem e));; mret None
  | OpMoveBefore e mark => MoveBefore false l (Some (Elem e)) (Some (Elem mark));; mret None
  | OpMoveAfter e mark => MoveAfter l (Some (Elem e)) (Some (Elem mark));; mret None
  end.

(** What the operation means; [a] is the address of a new element. *)
Definition list_operation (a : positive) (o : operation) xs : list (positive * Item) * pointer :=
  match o with
  | OpPushFront v => ((a, v) :: xs, Some (Elem a))
  | OpPushBack v => (xs ++ [(a, v)], Some (Elem a))
  | OpInsertBefore v mark => if decide (mark ∈ xs.*1) then (list_before mark (a, v) xs, Some (Elem a)) else (xs, None)
  | OpInsertAfter v mark => if decide (mark ∈ xs.*1) then (list_after mark (a, v) xs, Some (Elem a)) else (xs, None)
  | OpRemove e => (list_delete e xs, None)
  | OpMoveToFront e => match list_value e xs with Some v => ((e, v) :: list_delete e xs, None) | None => (xs, None) end
  | OpMoveToBack _ e => match list_value e xs with Some v => (list_delete e xs ++ [(e, v)], None) | None => (xs, None) end
  | OpMoveBefore e mark =>
      if decide (e = mark) then (xs, None) else
      match list_value e xs with Some v => if decide (mark ∈ xs.*1) then (list_before mark (e, v) (list_delete e xs), None) else (xs, None) | None => (xs, None) end
  | OpMoveAfter e mark =>
      if decide (e = mark) then (xs, None) else
      match list_value e xs with Some v => if decide (mark ∈ xs.*1) then (list_after mark (e, v) (list_delete e xs), None) else (xs, None) | None => (xs, None) end
  end.

Lemma list_delete_none xs a : a ∉ xs.*1 -> list_delete a xs = xs.
Proof. induction xs as [|x l IH]; [done|]. cbn. intros Hn. rewrite bool_decide_eq_false_2 by set_solver. cbn. f_equal. apply IH. set_solver. Qed.
Lemma list_delete_split ys zs a v : a ∉ ys.*1 -> a ∉ zs.*1 -> list_delete a (ys ++ (a, v) :: zs) = ys ++ zs.
Proof.
  intros Hy Hz. unfold list_delete. rewrite List.filter_app. cbn. rewrite bool_decide_eq_true_2 by done. cbn. f_equal; by apply list_delete_none.
Qed.
Lemma list_before_split ys zs a v x : a ∉ ys.*1 -> list_before a x (ys ++ (a, v) :: zs) = ys ++ x :: (a, v) :: zs.
Proof.
  induction ys as [|y ys IH]; cbn; [by rewrite bool_decide_eq_true_2|]. intros Hn. rewrite bool_decide_eq_false_2 by set_solver.
  rewrite IH by set_solver. done.
Qed.
Lemma list_after_split ys zs a v x : a ∉ ys.*1 -> list_after a x (ys ++ (a, v) :: zs) = ys ++ (a, v) :: x :: zs.
Proof.
  induction ys as [|y ys IH]; cbn; [by rewrite bool_decide_eq_true_2|]. intros Hn. rewrite bool_decide_eq_false_2 by set_solver.
  rewrite IH by set_solver. done.
Qed.
Lemma list_value_split ys zs a v : a ∉ ys.*1 -> list_value a (ys ++ (a, v) :: zs) = Some v.
Proof. induction ys as [|y ys IH]; cbn; [by rewrite bool_decide_eq_true_2|]. intros Hn. rewrite bool_decide_eq_false_2 by set_solver. apply IH. set_solver. Qed.
Lemma list_value_none xs a : a ∉ xs.*1 -> list_value a xs = None.
Proof. induction xs as [|y ys IH]; cbn; [done|]. intros Hn. rewrite bool_decide_eq_false_2 by set_solver. apply IH. set_solver. Qed.

(** ** The operations *)

(** An element is in a list or not, and its cell says so. *)
Lemma member_cases h m l xs a : holds h m -> m !! l = Some xs -> allocated h (Elem a) ->
  (lst h (Elem a) <> Some l /\ a ∉ xs.*1) \/
  (lst h (Elem a) = Some l /\ exists ys v zs, xs = ys ++ (a, v) :: zs /\ a ∉ ys.*1 /\ a ∉ zs.*1).
Proof.
  intros Hh Hl Ha. pose proof (ho_lists _ _ Hh _ _ Hl) as Hil. destruct (decide (lst h (Elem a) = Some l)) as [E|E]; [right|left].
  - split; [done|]. destruct (ho_members _ _ Hh a l E) as (xs' & Hm & Hin). rewrite Hm in Hl. injection Hl as ->.
    apply list_elem_of_fmap in Hin as ([b v] & -> & Hx). apply list_elem_of_split in Hx as (ys & zs & ->). exists ys, v, zs.
    destruct (is_list_nodup _ _ _ _ Hil) as (_ & Hz & Hd). cbn in Hz. apply NoDup_cons in Hz as [Hz _].
    split_and!; [done| |done]. intros Hy. eapply Hd; [done|left].
  - split; [done|]. by eapply not_member.
Qed.

Lemma root_allocated h m l xs : holds h m -> m !! l = Some xs -> allocated h (Root l).
Proof. intros Hh Hl. pose proof (il_links _ _ _ (ho_lists _ _ Hh _ _ Hl)) as L. apply (links_allocated h l [] xs) in L. tauto. Qed.

(** The pointers of the sentinel, and of a member. *)
Lemma root_pointers h m l xs : holds h m -> m !! l = Some xs ->
  nxt h (Root l) = Some (first_node l xs) /\ prv h (Root l) = Some (last_node l xs).
Proof.
  intros Hh Hl. pose proof (il_links _ _ _ (ho_lists _ _ Hh _ _ Hl)) as L. split; [apply (links_allocated h l [] xs L)|].
  rewrite <- (app_nil_r xs) in L. apply (links_allocated h l xs [] L).
Qed.
Lemma member_pointers h m l ys a v zs : holds h m -> m !! l = Some (ys ++ (a, v) :: zs) ->
  nxt h (Elem a) = Some (first_node l zs) /\ prv h (Elem a) = Some (last_node l ys) /\ lst h (Elem a) = Some l.
Proof.
  intros Hh Hl. pose proof (ho_lists _ _ Hh _ _ Hl) as Hil. pose proof (il_links _ _ _ Hil) as L.
  pose proof (links_allocated _ _ _ _ L) as (_ & E2 & _). split_and!; [|done|].
  - assert (L' : links (nxt h) (prv h) (nodes l ((ys ++ [(a, v)]) ++ zs) ++ [Root l])) by (by list_simplifier).
    apply links_allocated in L' as (E & _). unfold last_node in E. by rewrite last_snoc in E.
  - pose proof (il_elements _ _ _ Hil) as Hf. rewrite Forall_app, Forall_cons in Hf. tauto.
Qed.

Lemma lazyInit_nop h m l xs : holds h m -> m !! l = Some xs -> lazyInit l h = Ret (tt, h).
Proof.
  intros Hh Hl. unfold lazyInit. destruct (deref_run h (Root l) (root_allocated _ _ _ _ Hh Hl)) as (x & E & En & _). run_step E.
  destruct (root_pointers _ _ _ _ Hh Hl) as [E1 _]. rewrite <- En, E1. done.
Qed.

(** An operation does what it does on lists, and elements stay where they are. *)
Definition refines h (m : gmap positive (list (positive * Item))) l xs o : Prop :=
  exists h' a, run_operation l o h = Ret ((list_operation a o xs).2, h') /\ holds h' (<[l := (list_operation a o xs).1]> m) /\
    forall q, allocated h q -> allocated h' q.

(** The cases in which nothing changes. *)
Lemma refines_same h m l xs o :
  holds h m -> m !! l = Some xs -> run_operation l o h = Ret (None, h) -> list_operation 1 o xs = (xs, None) -> refines h m l xs o.
Proof. intros Hh Hl E El. exists h, 1%positive. rewrite El, E, insert_id by done. done. Qed.

(** The ways to insert a value. *)
Lemma insertValue_refines h m l ys zs v o k :
  holds h m -> m !! l = Some (ys ++ zs) -> run_operation l o h = insertValue l v (Some (last_node l ys)) h ->
  (forall a, list_operation a o (ys ++ zs) = (k a, Some (Elem a))) -> (forall a, k a = ys ++ (a, v) :: zs) -> refines h m l (ys ++ zs) o.
Proof.
  intros Hh Hl E Ho Hk. destruct (insertValue_holds h m l ys zs v Hh Hl) as (h' & a & E1 & Hh' & Ha). exists h', a.
  rewrite Ho, E, E1. cbn. rewrite Hk. split_and!; [done..|]. intros q Hq. by apply Ha.
Qed.

(** Moving an element: it is removed, and inserted where the list was split. *)
Lemma move_holds h m l ys a v zs ys' zs' :
  holds h m -> m !! l = Some (ys ++ (a, v) :: zs) -> ys ++ zs = ys' ++ zs' ->
  exists h1 h', remove l (Some (Elem a)) h = Ret (Some (Elem a), h1) /\ holds h1 (<[l := ys' ++ zs']> m) /\
    insert l (Some (Elem a)) (Some (last_node l ys')) h1 = Ret (Some (Elem a), h') /\ holds h' (<[l := ys' ++ (a, v) :: zs']> m) /\
    (forall q, allocated h1 q <-> allocated h q) /\ (forall q, allocated h' q <-> allocated h q).
Proof.
  intros Hh Hl E. pose proof (member_pointers _ _ _ _ _ _ _ Hh Hl) as (_ & _ & El). apply lst_allocated in El as Ha.
  destruct (remove_holds h m l ys zs a v Hh Hl) as (h1 & E1 & Hh1 & A1 & V1 & L1 & Hv & _). rewrite E in Hh1.
  destruct (insert_holds h1 _ l ys' zs' a v Hh1) as (h' & E2 & Hh' & A2 & _); [by rewrite lookup_insert_eq|by apply A1|done|by rewrite V1|].
  rewrite insert_insert_eq in Hh'. exists h1, h'. split_and!; try done. intros q. by rewrite A2.
Qed.

(** Reading a cell. *)
Ltac run_deref x H := let E := fresh "E" in destruct (deref_run _ _ H) as (x & E & ?En & ?Ep & ?El & ?Ev); run_step E.

Lemma push_refines h m l xs v : holds h m -> m !! l = Some xs -> refines h m l xs (OpPushFront v) /\ refines h m l xs (OpPushBack v).
Proof.
  intros Hh Hl. split.
  - apply (insertValue_refines h m l [] xs v _ (fun a => (a, v) :: xs)); try done. cbn [run_operation]. unfold PushFront.
    by run_step (lazyInit_nop h m l xs Hh Hl).
  - rewrite <- (app_nil_r xs) in Hl |- *. apply (insertValue_refines h m l xs [] v _ (fun a => (xs ++ []) ++ [(a, v)])); try done.
    + cbn [run_operation]. unfold PushBack. run_step (lazyInit_nop h m l _ Hh Hl). run_deref r (root_allocated h m l _ Hh Hl).
      destruct (root_pointers h m l _ Hh Hl) as [_ E']. rewrite app_nil_r in E'. by rewrite <- Ep, E'.
    + intros a. by rewrite app_nil_r.
Qed.

Lemma insert_refines h m l xs v mark : holds h m -> m !! l = Some xs -> allocated h (Elem mark) ->
  refines h m l xs (OpInsertBefore v mark) /\ refines h m l xs (OpInsertAfter v mark).
Proof.
  intros Hh Hl Ha. destruct (member_cases h m l xs mark Hh Hl Ha) as [[Hn Hx]|(El & ys & w & zs & -> & Hy & Hz)].
  - split; apply refines_same; try done; cbn [run_operation list_operation]; try (by rewrite decide_False); unfold InsertBefore, InsertAfter;
      run_deref x Ha; rewrite <- El; by rewrite bool_decide_eq_true_2.
  - assert (Hin : mark ∈ (ys ++ (mark, w) :: zs).*1) by (rewrite fmap_app; set_solver). destruct (member_pointers _ _ _ _ _ _ _ Hh Hl) as (_ & Ep & _). split.
    + apply (insertValue_refines h m l ys _ v _ (fun a => list_before mark (a, v) (ys ++ (mark, w) :: zs))); try done.
      * cbn [run_operation]. unfold InsertBefore. run_deref x Ha. by rewrite <- El0, El, bool_decide_eq_false_2, <- Ep0, Ep by naive_solver.
      * intros a. cbn [list_operation]. by rewrite decide_True.
      * intros a. by apply list_before_split.
    + change ((mark, w) :: zs) with ([(mark, w)] ++ zs) in *. rewrite app_assoc in *.
      apply (insertValue_refines h m l _ zs v _ (fun a => list_after mark (a, v) ((ys ++ [(mark, w)]) ++ zs))); try done.
      * cbn [run_operation]. unfold InsertAfter. run_deref x Ha. rewrite <- El0, El, bool_decide_eq_false_2 by naive_solver. unfold last_node. by rewrite last_snoc.
      * intros a. cbn [list_operation]. by rewrite decide_True.
      * intros a. rewrite <- !app_assoc. by apply list_after_split.
Qed.

Lemma Remove_run h m l xs e : holds h m -> m !! l = Some xs -> allocated h (Elem e) ->
  exists h', Remove l (Some (Elem e)) h = Ret (val h (Elem e), h') /\ holds h' (<[l := list_delete e xs]> m) /\
    forall q, allocated h' q <-> allocated h q.
Proof.
  intros Hh Hl Ha. unfold Remove. run_deref x Ha. rewrite <- El. destruct (member_cases h m l xs e Hh Hl Ha) as [[Hn Hx]|(Em & ys & w & zs & -> & Hy & Hz)].
  - rewrite bool_decide_eq_false_2 by done. run_step (eq_refl (Ret (tt, h))). run_deref y Ha. exists h. rewrite <- Ev0.
    rewrite list_delete_none, insert_id by done. done.
  - rewrite bool_decide_eq_true_2 by done. destruct (remove_holds h m l ys zs e w Hh Hl) as (h1 & E1 & Hh1 & A1 & V1 & _).
    erewrite prog_bind_eq; [|erewrite prog_bind_eq by exact E1; reflexivity]. assert (Ha1 : allocated h1 (Elem e)) by by apply A1. run_deref y Ha1.
    exists h1. rewrite <- Ev0, V1, list_delete_split by done. done.
Qed.

Lemma move_front_refines h m l xs e : holds h m -> m !! l = Some xs -> allocated h (Elem e) -> refines h m l xs (OpMoveToFront e).
Proof.
  intros Hh Hl Ha. destruct (root_pointers h m l xs Hh Hl) as [Er _]. destruct (member_cases h m l xs e Hh Hl Ha) as [[Hn Hx]|(Em & ys & w & zs & -> & Hy & Hz)].
  - apply refines_same; try done; cbn [run_operation list_operation]; [|by rewrite list_value_none]. unfold MoveToFront.
    erewrite prog_bind_eq; [done|]. run_deref x Ha. run_deref r (root_allocated h m l _ Hh Hl). by rewrite <- El, bool_decide_eq_true_2.
  - destruct ys as [|y ys].
    + apply refines_same; try done; cbn [run_operation list_operation]; [|by rewrite list_value_split, list_delete_split by done].
      unfold MoveToFront. erewrite prog_bind_eq; [done|]. run_deref x Ha. run_deref r (root_allocated h m l _ Hh Hl).
      by rewrite (bool_decide_eq_true_2 (el_next r = _)), orb_true_r by (by rewrite <- En0, Er).
    + destruct (move_holds h m l (y :: ys) e w zs [] ((y :: ys) ++ zs) Hh Hl eq_refl) as (h1 & h' & E1 & _ & E2 & Hh' & _ & A2). exists h', 1%positive.
      cbn [run_operation list_operation]. rewrite list_value_split, list_delete_split by done. split_and!; [|done|intros q; apply A2].
      unfold MoveToFront. erewrite prog_bind_eq; [done|]. run_deref x Ha. run_deref r (root_allocated h m l _ Hh Hl).
      rewrite (bool_decide_eq_false_2 (el_list x <> _)) by (rewrite <- El; naive_solver).
      rewrite (bool_decide_eq_false_2 (el_next r = _)) by (rewrite <- En0, Er; intros [= E']; set_solver). cbn [orb]. run_step E1. by run_step E2.
Qed.

Lemma last_node_app l ys zs : zs <> [] -> last_node l (ys ++ zs) = last_node l zs.
Proof. intros Hz. unfold last_node. rewrite last_app. destruct (last zs) eqn:E; [done|]. by apply last_None in E. Qed.

Lemma last_node_eq l xs ys e w zs : xs = ys ++ (e, w) :: zs -> e ∉ zs.*1 -> last_node l xs = Elem e -> zs = [].
Proof.
  intros -> Hz E. destruct zs as [|z zs]; [done|]. exfalso. change ((e, w) :: z :: zs) with ([(e, w)] ++ z :: zs) in E.
  rewrite !last_node_app in E by done. by apply (last_node_ne l (z :: zs) e) in Hz.
Qed.

Lemma move_back_refines h m l xs first e : holds h m -> m !! l = Some xs -> allocated h (Elem e) -> refines h m l xs (OpMoveToBack first e).
Proof.
  intros Hh Hl Ha. destruct (root_pointers h m l xs Hh Hl) as [_ Er]. destruct (member_cases h m l xs e Hh Hl Ha) as [[Hn Hx]|(Em & ys & w & zs & -> & Hy & Hz)].
  - apply refines_same; try done; cbn [run_operation list_operation]; [|by rewrite list_value_none]. unfold MoveToBack.
    erewrite prog_bind_eq; [done|]. run_deref x Ha. run_deref r (root_allocated h m l _ Hh Hl). by rewrite <- El, bool_decide_eq_true_2.
  - destruct (decide (zs = [])) as [->|Hzs].
    + apply refines_same; try done; cbn [run_operation list_operation]; [|by rewrite list_value_split, list_delete_split, app_nil_r by done].
      unfold MoveToBack. erewrite prog_bind_eq; [done|]. run_deref x Ha. run_deref r (root_allocated h m l _ Hh Hl).
      unfold last_node in Er. rewrite last_snoc in Er. by rewrite (bool_decide_eq_true_2 (el_prev r = _)), orb_true_r by (by rewrite <- Ep0, Er).
    + destruct (move_holds h m l ys e w zs (ys ++ zs) [] Hh Hl ltac:(by rewrite app_nil_r)) as (h1 & h' & E1 & Hh1 & E2 & Hh' & A1 & A2). exists h', 1%positive.
      cbn [run_operation list_operation]. rewrite list_value_split, list_delete_split by done. split_and!; [|done|intros q; apply A2].
      unfold MoveToBack. erewrite prog_bind_eq; [done|]. run_deref x Ha. run_deref r (root_allocated h m l _ Hh Hl).
      rewrite (bool_decide_eq_false_2 (el_list x <> _)) by (rewrite <- El; naive_solver).
      rewrite (bool_decide_eq_false_2 (el_prev r = _)) by (rewrite <- Ep0, Er; intros [= ?]; eauto using last_node_eq). cbn [orb]. run_step E1. destruct (root_pointers h1 _ l _ Hh1 ltac:(by rewrite lookup_insert_eq)) as [_ Er1].
      run_deref r' (root_allocated h1 _ l _ Hh1 ltac:(by rewrite lookup_insert_eq)).
      assert (E' : el_prev (if first then r else r') = Some (last_node l (ys ++ zs))).
      { destruct first; [rewrite <- Ep0, Er|rewrite <- Ep1, Er1, app_nil_r; done]. change ((e, w) :: zs) with ([(e, w)] ++ zs). by rewrite !last_node_app. }
      rewrite E'. by run_step E2.
Qed.

(** The element and the mark of a move: the element is where the cell says, and the mark is still in the list without it. *)
Lemma mark_cases h m l ys e w zs mark : holds h m -> m !! l = Some (ys ++ (e, w) :: zs) -> allocated h (Elem mark) -> e <> mark ->
  e ∉ ys.*1 -> e ∉ zs.*1 ->
  (lst h (Elem mark) <> Some l /\ mark ∉ (ys ++ (e, w) :: zs).*1) \/
  (lst h (Elem mark) = Some l /\ mark ∈ (ys ++ (e, w) :: zs).*1 /\ exists ys' v zs', ys ++ zs = ys' ++ (mark, v) :: zs' /\ mark ∉ ys'.*1).
Proof.
  intros Hh Hl Ha Hne Hy Hz. destruct (member_cases h m l _ mark Hh Hl Ha) as [[Hn Hx]|(Em & ys1 & v & zs1 & E & Hy1 & Hz1)]; [by left|right].
  split; [done|]. assert (Hin : mark ∈ (ys ++ (e, w) :: zs).*1) by (rewrite E, fmap_app; set_solver). split; [done|].
  assert (Hin' : mark ∈ (ys ++ zs).*1) by (rewrite fmap_app in *; set_solver). apply list_elem_of_fmap in Hin' as ([b v'] & -> & Hb).
  apply list_elem_of_split in Hb as (ys2 & zs2 & E2). exists ys2, v', zs2. split; [done|]. cbn in *.
  pose proof (il_nodup _ _ _ (ho_lists _ _ Hh _ _ Hl)) as Hd. assert (Hd' : NoDup (ys ++ zs).*1).
  { rewrite fmap_app, fmap_cons in Hd. rewrite fmap_app. apply NoDup_app in Hd as (D1 & D2 & D3). apply NoDup_cons in D3 as [_ D3]. apply NoDup_app. set_solver. }
  rewrite E2, fmap_app in Hd'. apply NoDup_app in Hd' as (_ & D & _). intros Hin2. apply (D b Hin2). left.
Qed.

Lemma move_mark_refines h m l xs e mark : holds h m -> m !! l = Some xs -> allocated h (Elem e) -> allocated h (Elem mark) ->
  refines h m l xs (OpMoveBefore e mark) /\ refines h m l xs (OpMoveAfter e mark).
Proof.
  intros Hh Hl Ha Hma. destruct (decide (e = mark)) as [<-|Hne].
  { split; apply refines_same; try done; cbn [run_operation list_operation]; try (by rewrite decide_True); unfold MoveBefore, MoveAfter;
      (erewrite prog_bind_eq; [done|]); run_deref x Ha; by rewrite (bool_decide_eq_true_2 (Some (Elem e) = _)), orb_true_r. }
  assert (Hptr : bool_decide ((Some (Elem e) : pointer) = Some (Elem mark)) = false) by (apply bool_decide_eq_false_2; congruence).
  destruct (member_cases h m l xs e Hh Hl Ha) as [[Hn Hx]|(Em & ys & w & zs & -> & Hy & Hz)].
  { split; apply refines_same; try done; cbn [run_operation list_operation]; try (by rewrite decide_False, list_value_none); unfold MoveBefore, MoveAfter;
      (erewrite prog_bind_eq; [done|]); run_deref x Ha; by rewrite <- El, bool_decide_eq_true_2. }
  destruct (mark_cases h m l ys e w zs mark Hh Hl Hma Hne Hy Hz) as [[Hn Hx]|(Emk & Hin & ys' & v & zs' & Es & Hy')].
  { split; apply refines_same; try done; cbn [run_operation list_operation]; try (by rewrite decide_False, list_value_split, decide_False); unfold MoveBefore, MoveAfter;
      (erewrite prog_bind_eq; [done|]); run_deref x Ha; rewrite <- El, Em, Hptr, (bool_decide_eq_false_2 (Some l <> _)) by naive_solver; cbn [orb];
      run_deref y Hma; by rewrite <- El0, bool_decide_eq_true_2. }
  split.
  - destruct (move_holds h m l ys e w zs ys' ((mark, v) :: zs') Hh Hl Es) as (h1 & h' & E1 & Hh1 & E2 & Hh' & A1 & A2). exists h', 1%positive.
    cbn [run_operation list_operation]. rewrite decide_False, list_value_split, decide_True, list_delete_split, Es, list_before_split by done.
    split_and!; [|done|intros q; apply A2]. unfold MoveBefore. erewrite prog_bind_eq; [done|]. run_deref x Ha.
    rewrite <- El, Em, Hptr, (bool_decide_eq_false_2 (Some l <> _)) by naive_solver. cbn [orb]. run_deref y Hma.
    rewrite <- El0, Emk, (bool_decide_eq_false_2 (Some l <> _)) by naive_solver. run_step E1. run_deref y' (proj2 (A1 _) Hma).
    destruct (member_pointers h1 _ l ys' mark v zs' Hh1 ltac:(by rewrite lookup_insert_eq)) as (_ & Ep' & _). rewrite <- Ep1, Ep'. by run_step E2.
  - assert (Es' : ys ++ zs = (ys' ++ [(mark, v)]) ++ zs') by by list_simplifier.
    destruct (move_holds h m l ys e w zs _ zs' Hh Hl Es') as (h1 & h' & E1 & Hh1 & E2 & Hh' & A1 & A2). exists h', 1%positive.
    cbn [run_operation list_operation]. rewrite decide_False, list_value_split, decide_True, list_delete_split, Es, list_after_split by done.
    split_and!; [|by rewrite <- app_assoc in Hh'|intros q; apply A2]. unfold MoveAfter. erewrite prog_bind_eq; [done|]. run_deref x Ha.
    rewrite <- El, Em, Hptr, (bool_decide_eq_false_2 (Some l <> _)) by naive_solver. cbn [orb]. run_deref y Hma.
    rewrite <- El0, Emk, (bool_decide_eq_false_2 (Some l <> _)) by naive_solver. run_step E1. unfold last_node in E2. rewrite last_snoc in E2. by run_step E2.
Qed.

(** C10. The pointer operations refine those on lists: whatever lists a heap holds, each operation returns, gives the list the elements that
    the operation on lists gives, returns the element that is said, and leaves every other list as it was. Operands may be elements of
    other lists or of none. *)
Theorem list_operations_refine h m l xs o :
  holds h m -> m !! l = Some xs -> Forall (fun a => allocated h (Elem a)) (operands o) ->
  exists h' a, run_operation l o h = Ret ((list_operation a o xs).2, h') /\ holds h' (<[l := (list_operation a o xs).1]> m) /\
    forall q, allocated h q -> allocated h' q.
Proof.
  intros Hh Hl Ho. change (refines h m l xs o). destruct o; cbn in Ho; repeat match goal with H : Forall _ (_ :: _) |- _ => apply Forall_cons in H as [? ?] end.
  - by apply push_refines.
  - by apply push_refines.
  - by apply insert_refines.
  - by apply insert_refines.
  - destruct (Remove_run h m l xs e Hh Hl) as (h' & E & Hh' & A); [done|]. exists h', 1%positive. cbn [run_operation list_operation]. run_step E.
    split_and!; [done..|]. intros q. apply A.
  - by apply move_front_refines.
  - by apply move_back_refines.
  - by apply move_mark_refines.
  - by apply move_mark_refines.
Qed.

(** ** Reading *)

(** The loop over a list: the elements from [e] on. *)
Fixpoint visit (fuel : nat) (e : pointer) : prog (list Item) :=
  match fuel with
  | O => mret []
  | S fuel =>
      match e with
      | None => mret []
      | Some _ => x ← deref e; e ← Next e; rest ← visit fuel e; mret (option_list (el_Value x) ++ rest)
      end
  end.

Definition node_pointer zs : pointer := match zs with [] => None | x :: _ => Some (Elem x.1) end.

Lemma Next_run h m l ys a v zs : holds h m -> m !! l = Some (ys ++ (a, v) :: zs) -> Next (Some (Elem a)) h = Ret (node_pointer zs, h).
Proof.
  intros Hh Hl. destruct (member_pointers _ _ _ _ _ _ _ Hh Hl) as (E1 & _ & E3). unfold Next. run_deref x (lst_allocated _ _ _ E3).
  rewrite <- El, E3, <- En, E1. destruct zs as [|z zs]; cbn; [by rewrite bool_decide_eq_false_2 by naive_solver|by rewrite bool_decide_eq_true_2].
Qed.

Lemma Prev_run h m l ys a v zs : holds h m -> m !! l = Some (ys ++ (a, v) :: zs) ->
  Prev (Some (Elem a)) h = Ret (match last ys with Some x => Some (Elem x.1) | None => None end, h).
Proof.
  intros Hh Hl. destruct (member_pointers _ _ _ _ _ _ _ Hh Hl) as (_ & E2 & E3). unfold Prev. run_deref x (lst_allocated _ _ _ E3).
  rewrite <- El, E3, <- Ep, E2. unfold last_node. destruct (last ys); [by rewrite bool_decide_eq_true_2|by rewrite bool_decide_eq_false_2 by naive_solver].
Qed.

Lemma get_len_run h m l xs : holds h m -> m !! l = Some xs -> get_len l h = Ret (Z.of_nat (length xs), h).
Proof. intros Hh Hl. unfold get_len. by rewrite (il_len _ _ _ (ho_lists _ _ Hh _ _ Hl)). Qed.

Lemma Front_run h m l xs : holds h m -> m !! l = Some xs -> Front l h = Ret (node_pointer xs, h).
Proof.
  intros Hh Hl. unfold Front. run_step (get_len_run h m l xs Hh Hl). destruct xs as [|x xs]; [done|].
  rewrite (proj2 (Z.eqb_neq _ _)) by (cbn [length]; lia). run_deref r (root_allocated h m l _ Hh Hl). destruct (root_pointers h m l _ Hh Hl) as [E1 _].
  by rewrite <- En, E1.
Qed.

Lemma Back_run h m l xs : holds h m -> m !! l = Some xs -> Back l h = Ret (match last xs with Some x => Some (Elem x.1) | None => None end, h).
Proof.
  intros Hh Hl. unfold Back. run_step (get_len_run h m l xs Hh Hl). destruct (last xs) as [x|] eqn:Ex.
  - rewrite (proj2 (Z.eqb_neq _ _)) by (destruct xs; [done|cbn [length]; lia]). run_deref r (root_allocated h m l _ Hh Hl).
    destruct (root_pointers h m l _ Hh Hl) as [_ E1]. unfold last_node in E1. by rewrite <- Ep, E1, Ex.
  - apply last_None in Ex as ->. done.
Qed.

Lemma visit_run h m l ys zs : holds h m -> m !! l = Some (ys ++ zs) -> forall fuel, (length zs < fuel)%nat -> visit fuel (node_pointer zs) h = Ret (zs.*2, h).
Proof.
  intros Hh Hl fuel. revert ys zs Hl. induction fuel as [|fuel IH]; intros ys zs Hl Hf; [lia|]. destruct zs as [|[a v] zs]; [done|]. cbn [visit node_pointer].
  destruct (member_pointers _ _ _ _ _ _ _ Hh Hl) as (_ & _ & E3). run_deref x (lst_allocated _ _ _ E3). run_step (Next_run _ _ _ _ _ _ _ Hh Hl).
  pose proof (il_elements _ _ _ (ho_lists _ _ Hh _ _ Hl)) as Hfa. rewrite Forall_app, Forall_cons in Hfa. destruct Hfa as (_ & [_ Hv] & _). cbn in Hv.
  rewrite <- Ev, Hv. change ((a, v) :: zs) with ([(a, v)] ++ zs) in Hl. rewrite app_assoc in Hl. cbn in Hf. by run_step (IH (ys ++ [(a, v)]) zs Hl ltac:(lia)).
Qed.

(** A loop over a list, by [Front] and [Next], sees the values in their order, and ends after as many steps as [Len] says. *)
Theorem list_visited h m l xs :
  holds h m -> m !! l = Some xs ->
  exists n, list_Len l h = Ret (Z.of_nat n, h) /\ n = length xs /\ (e ← Front l; visit (S n) e) h = Ret (xs.*2, h).
Proof.
  intros Hh Hl. exists (length xs). split_and!; [by eapply get_len_run|done|]. run_step (Front_run h m l xs Hh Hl). eapply (visit_run h m l [] xs); [done..|lia].
Qed.

(** ** Copies of lists *)

Definition back_pointer ys : pointer := match last ys with Some x => Some (Elem x.1) | None => None end.

Lemma member_value h m l ys a v zs : holds h m -> m !! l = Some (ys ++ (a, v) :: zs) -> allocated h (Elem a) /\ val h (Elem a) = Some v.
Proof.
  intros Hh Hl. destruct (member_pointers _ _ _ _ _ _ _ Hh Hl) as (_ & _ & E). split; [by eapply lst_allocated|].
  pose proof (il_elements _ _ _ (ho_lists _ _ Hh _ _ Hl)) as Hfa. rewrite Forall_app, Forall_cons in Hfa. tauto.
Qed.

(** The list that is copied can be the one that grows. *)
Lemma push_back_loop_holds zs h m l other pre ext xs :
  holds h m -> m !! other = Some (pre ++ zs ++ ext) -> m !! l = Some xs ->
  exists h' new, push_back_loop l (length zs) (node_pointer (zs ++ ext)) h = Ret (tt, h') /\ holds h' (<[l := xs ++ new]> m) /\ new.*2 = zs.*2.
Proof.
  revert h m pre ext xs. induction zs as [|[a v] zs IH]; intros h m pre ext xs Hh Ho Hl.
  { exists h, []. rewrite app_nil_r, insert_id by done. done. }
  cbn [length push_back_loop node_pointer app]. destruct (member_value _ _ _ _ _ _ _ Hh Ho) as [Ha Hv]. run_deref x Ha. run_deref r (root_allocated _ _ _ _ Hh Hl).
  rewrite <- Ev, Hv. destruct (root_pointers _ _ _ _ Hh Hl) as [_ Er]. rewrite <- Ep0, Er. rewrite <- (app_nil_r xs) in Hl.
  destruct (insertValue_holds h m l xs [] v Hh Hl) as (h1 & b & E1 & Hh1 & _). run_step E1.
  assert (Ho1 : exists ext', <[l := xs ++ [(b, v)]]> m !! other = Some (pre ++ (a, v) :: zs ++ ext')).
  { destruct (decide (l = other)) as [->|Hne]; [|exists ext; by rewrite lookup_insert_ne]. exists (ext ++ [(b, v)]). rewrite lookup_insert_eq.
    rewrite Ho, app_nil_r in Hl. injection Hl as <-. by list_simplifier. }
  destruct Ho1 as [ext' Ho1]. run_step (Next_run _ _ _ _ _ _ _ Hh1 Ho1). change ((a, v) :: zs ++ ext') with ([(a, v)] ++ zs ++ ext') in Ho1.
  rewrite app_assoc in Ho1. destruct (IH h1 _ _ _ (xs ++ [(b, v)]) Hh1 Ho1 ltac:(by rewrite lookup_insert_eq)) as (h' & new & E2 & Hh' & Hn).
  exists h', ((b, v) :: new). rewrite insert_insert_eq, <- app_assoc in Hh'. split_and!; [done..|]. cbn. by rewrite Hn.
Qed.

Lemma push_front_loop_holds zs h m l other pre ext xs :
  holds h m -> m !! other = Some (ext ++ zs ++ pre) -> m !! l = Some xs ->
  exists h' new, push_front_loop l (length zs) (back_pointer (ext ++ zs)) h = Ret (tt, h') /\ holds h' (<[l := new ++ xs]> m) /\ new.*2 = zs.*2.
Proof.
  revert h m pre ext xs. induction zs as [|[a v] zs IH] using rev_ind; intros h m pre ext xs Hh Ho Hl.
  { exists h, []. cbn [app]. rewrite insert_id by done. done. }
  rewrite length_app, Nat.add_comm. cbn [length Nat.add push_front_loop]. unfold back_pointer. rewrite app_assoc, last_snoc. cbn [fst].
  replace (ext ++ (zs ++ [(a, v)]) ++ pre) with ((ext ++ zs) ++ (a, v) :: pre) in Ho by by list_simplifier.
  destruct (member_value _ _ _ _ _ _ _ Hh Ho) as [Ha Hv]. run_deref x Ha. rewrite <- Ev, Hv. change xs with ([] ++ xs) in Hl.
  destruct (insertValue_holds h m l [] xs v Hh Hl) as (h1 & b & E1 & Hh1 & _). change (last_node l []) with (Root l) in E1. run_step E1.
  assert (Ho1 : exists ext', <[l := [] ++ (b, v) :: xs]> m !! other = Some ((ext' ++ zs) ++ (a, v) :: pre)).
  { destruct (decide (l = other)) as [->|Hne]; [|exists ext; by rewrite lookup_insert_ne]. exists ((b, v) :: ext). rewrite lookup_insert_eq.
    rewrite Ho in Hl. injection Hl as Hl. cbn [app] in *. by rewrite <- Hl. }
  destruct Ho1 as [ext' Ho1]. run_step (Prev_run _ _ _ _ _ _ _ Hh1 Ho1). rewrite <- app_assoc in Ho1.
  destruct (IH h1 _ _ _ ((b, v) :: xs) Hh1 Ho1 ltac:(by rewrite lookup_insert_eq)) as (h' & new & E2 & Hh' & Hn).
  exists h', (new ++ [(b, v)]). rewrite insert_insert_eq in Hh'. split_and!; [done|by rewrite <- app_assoc|]. rewrite !fmap_app. by rewrite Hn.
Qed.

(** [PushBackList] and [PushFrontList] add copies of the elements of another list, or of the same list, in their order. *)
Theorem list_copied h m l other xs ys :
  holds h m -> m !! l = Some xs -> m !! other = Some ys ->
  (exists h' new, PushBackList l other h = Ret (tt, h') /\ holds h' (<[l := xs ++ new]> m) /\ new.*2 = ys.*2) /\
  (exists h' new, PushFrontList l other h = Ret (tt, h') /\ holds h' (<[l := new ++ xs]> m) /\ new.*2 = ys.*2).
Proof.
  intros Hh Hl Ho. split.
  - unfold PushBackList. run_step (lazyInit_nop h m l xs Hh Hl). run_step (get_len_run h m other ys Hh Ho). run_step (Front_run h m other ys Hh Ho).
    rewrite Nat2Z.id. rewrite <- (app_nil_r ys) in Ho. destruct (push_back_loop_holds ys h m l other [] [] xs Hh Ho Hl) as (h' & new & E & Hr).
    rewrite app_nil_r in E. exists h', new. by rewrite E.
  - unfold PushFrontList. run_step (lazyInit_nop h m l xs Hh Hl). run_step (get_len_run h m other ys Hh Ho). run_step (Back_run h m other ys Hh Ho).
    rewrite Nat2Z.id. rewrite <- (app_nil_r ys) in Ho. destruct (push_front_loop_holds ys h m l other [] [] xs Hh Ho Hl) as (h' & new & E & Hr).
    exists h', new. by rewrite <- E.
Qed.

(** ** New lists *)

Lemma new_list_holds h m : holds h m ->
  exists h', NewItemList h = Ret (hp_fresh h, h') /\ holds h' (<[hp_fresh h := []]> m) /\ m !! hp_fresh h = None.
Proof.
  intros Hh. pose proof Hh as [K1 K2 K3 K4]. set (l := hp_fresh h).
  assert (Hm : m !! l = None). { destruct (m !! l) as [xs|] eqn:E; [|done]. pose proof (root_allocated _ _ _ _ Hh E) as Ha%K3. cbn in Ha. lia. }
  unfold NewItemList. fold l. set (h0 := _ <| hp_fresh := _ |>).
  assert (A0 : allocated h0 (Root l)) by (unfold allocated; cbn; rewrite lookup_insert_eq; by eexists).
  destruct (changed_next h0 h0 (Root l) (Some (Root l)) _ _ _ _ (changed_refl h0) A0) as (h1 & E1 & C1).
  destruct (changed_prev h0 h1 (Root l) (Some (Root l)) _ _ _ _ C1 A0) as (h2 & E2 & C2).
  destruct (changed_len h0 h2 l 0 _ _ _ _ C2) as (h3 & E3 & C3). exists h3.
  assert (Hold : forall q, q <> Root l -> hp_elements h0 !! q = hp_elements h !! q) by (intros q Hq; cbn; by rewrite lookup_insert_ne).
  split_and!; [|split|done].
  - erewrite prog_bind_eq; [done|]. unfold Init. run_step E1. run_step E2. exact E3.
  - intros l' xs [[<- <-]|[Hne Hl]]%lookup_insert_Some.
    + split; [|constructor|constructor|by rewrite (ch_len _ _ _ _ _ _ C3), lookup_insert_eq]. cbn.
      by rewrite (ch_next _ _ _ _ _ _ C3), (ch_prev _ _ _ _ _ _ C3), !decide_True.
    + apply (is_list_frame h); [by apply K1| |rewrite (ch_len _ _ _ _ _ _ C3); cbn; by rewrite !lookup_insert_ne].
      intros p Hp. assert (Hpl : p <> Root l) by (intros ->; pose proof (node_owner _ _ _ _ (K1 _ _ Hl) Hp); done).
      rewrite (ch_next _ _ _ _ _ _ C3), (ch_prev _ _ _ _ _ _ C3), (ch_list _ _ _ _ _ _ C3), (ch_val _ _ _ _ _ _ C3), !decide_False by done.
      unfold nxt, prv, lst, val. by rewrite Hold.
  - intros a l' Ha. rewrite (ch_list _ _ _ _ _ _ C3) in Ha. unfold lst in Ha. rewrite Hold in Ha by done. destruct (K2 a l' Ha) as (xs & Hx & Hin).
    exists xs. rewrite lookup_insert_ne; [done|]. intros <-. congruence.
  - intros p Hp%(ch_allocated _ _ _ _ _ _ C3). rewrite (ch_fresh _ _ _ _ _ _ C3). cbn. destruct (decide (p = Root l)) as [->|Hne]; [lia|].
    apply Pos.lt_lt_succ, K3. unfold allocated in *. by rewrite Hold in Hp.
  - intros a Ha%(ch_allocated _ _ _ _ _ _ C3). rewrite (ch_val _ _ _ _ _ _ C3). unfold val, allocated in *. rewrite Hold in * by done. by apply K4.
Qed.

Lemma empty_holds : holds (mkHeap ∅ ∅ 1) ∅.
Proof. split; [done|intros ? ?; done|by intros ? [? ?]|by intros ? [? ?]]. Qed.

End Representation.

(** ** Examples *)

(** Three elements, of which the first is moved before the third. *)
Definition demo_list (first : bool) : prog (Item := Z) (list Z) :=
  l ← NewItemList;
  a ← PushBack l 1;
  b ← PushBack l 2;
  c ← PushBack l 3;
  MoveBefore first l a c;;
  MoveBefore first l b a;;
  e ← Front l;
  visit 4 e.

(** [MoveBefore] depends on an order of evaluation that the Go specification leaves open: when the operand [mark.prev] is read after the call
    of [remove], an element that is already before the mark stays there; when it is read before, the element is linked to itself, and the call panics. *)
Theorem move_before_order :
  (exists h, demo_list false (mkHeap ∅ ∅ 1) = Ret ([2; 1; 3], h)) /\ demo_list true (mkHeap ∅ ∅ 1) = Panic nil_dereference.
Proof. split; [eexists; vm_compute; reflexivity|vm_compute; reflexivity]. Qed.

(** [Init] does not clear the elements of a list: a later [Remove] of one of them takes the length below zero. *)
Theorem init_leaves_elements : exists h,
  (l ← NewItemList; a ← PushBack l 7; Init l;; _ ← Remove l a; list_Len l) (mkHeap (Item := Z) ∅ ∅ 1) = Ret (-1, h).
Proof. eexists. vm_compute. reflexivity. Qed.

(** A heap with an empty list. *)
Definition demo_heap : heap (Item := Z) :=
  match NewItemList (mkHeap ∅ ∅ 1) with Ret (_, h) => h | _ => mkHeap ∅ ∅ 1 end.

Lemma demo_heap_holds : holds demo_heap (<[1%positive := []]> ∅).
Proof. destruct (new_list_holds _ _ (empty_holds (Item := Z))) as (h & E & Hh & _). unfold demo_heap. rewrite E. exact Hh. Qed.

(** ... and one with an element in it. *)
Lemma demo_pushed : exists h a, PushBack 1 5 demo_heap = Ret (Some (Elem a), h) /\ holds h (<[1%positive := [(a, 5)]]> ∅) /\ allocated h (Elem a).
Proof.
  destruct (push_refines demo_heap _ 1 [] 5 demo_heap_holds eq_refl) as [_ (h & a & E & Hh & _)]. exists h, a. rewrite insert_insert_eq in Hh. split_and!; [exact E|exact Hh|].
  eapply (member_value h _ 1 [] a 5 []); [exact Hh|apply lookup_insert_eq].
Qed.

Lemma list_operations_refine_witness : exists h a h' b, holds h (<[1%positive := [(a, 5)]]> ∅) /\
  run_operation 1 (OpInsertBefore 6 a) h = Ret (Some (Elem b), h') /\ holds h' (<[1%positive := [(b, 6); (a, 5)]]> ∅).
Proof.
  destruct demo_pushed as (h & a & _ & Hh & Ha).
  destruct (list_operations_refine h _ 1 [(a, 5)] (OpInsertBefore 6 a) Hh (lookup_insert_eq _ _ _) ltac:(constructor; [exact Ha|constructor])) as (h' & b & E & Hh' & _).
  exists h, a, h', b. rewrite insert_insert_eq in Hh'. cbn [list_operation] in E, Hh'. rewrite decide_True in E, Hh' by (cbn; left).
  cbn [list_before] in Hh'. rewrite bool_decide_eq_true_2 in Hh' by reflexivity. split; [exact Hh|]. split; [exact E|exact Hh'].
Defined.

Lemma list_visited_witness : exists h : heap (Item := Z), (e ← Front 1; visit 2 e) h = Ret ([5], h).
Proof.
  destruct demo_pushed as (h & a & _ & Hh & _). destruct (list_visited h _ 1 [(a, 5)] Hh (lookup_insert_eq _ _ _)) as (n & _ & -> & E). exists h. exact E.
Defined.

Lemma list_copied_witness : exists (h h' : heap (Item := Z)) (new : list (positive * Z)), PushBackList 1 1 h = Ret (tt, h') /\ new.*2 = [5].
Proof.
  destruct demo_pushed as (h & a & _ & Hh & _).
  destruct (list_copied h _ 1 1 [(a, 5)] [(a, 5)] Hh (lookup_insert_eq _ _ _) (lookup_insert_eq _ _ _)) as [(h' & new & E & _ & Hn) _]. exists h, h', new. split; [exact E|exact Hn].
Defined.
