(* ===== verification/FrameSorter.v ===== *)
(** * Reassembly of streams (frame_sorter.go)

    The sorter that puts the data of STREAM and CRYPTO frames in order: a queue
    of chunks by offset and the gaps in what has been received.  The list of the
    gaps is modelled by its values, front to back; a slice is the list of its
    bytes, so that copying a cut slice is the identity. *)

From S2P Require Import Prelude Protocol.

(** ** The program *)

Record ByteInterval := mkByteInterval {
  bi_Start : ByteCount;
  bi_End : ByteCount
}.

Record frameSorter := mkFrameSorter {
  fs_queue : gmap Z bytes;
  fs_readPos : ByteCount;
  fs_gaps : list ByteInterval
}.

#[global] Instance frameSorter_eta : Eta frameSorter := fun s =>
  mkFrameSorter (fs_queue s) (fs_readPos s) (fs_gaps s).

Definition MaxStreamFrameSorterGaps : Z := 1000.

Definition errDuplicateStreamData : goerr := ErrorString "Duplicate Stream Data".
Definition errTooManyGaps : goerr := ErrorString "Too many gaps in received data".

Definition newFrameSorter : frameSorter := mkFrameSorter ∅ 0 [mkByteInterval 0 MaxByteCount].

(** [data[n:]] and [data[:n]]. *)
Definition slice_from (data : bytes) (n : Z) : outcome bytes :=
  if Z.of_nat (length data) <? n then Panic "slice bounds out of range" else Ret (drop (Z.to_nat n) data).
Definition slice_to (data : bytes) (n : Z) : outcome bytes :=
  if (n <? 0) || (Z.of_nat (length data) <? n) then Panic "slice bounds out of range"
  else Ret (take (Z.to_nat n) data).

Definition dataLen (data : bytes) : ByteCount := Z.of_nat (length data).

(** The first loop of [push], over the gaps: [before] are those it skipped. *)
Inductive gapSearch :=
| NoGap
| DuplicateData
| FoundGap (before : list ByteInterval) (gap : ByteInterval) (after : list ByteInterval).

Fixpoint find_gap (start end_ : ByteCount) (before gaps : list ByteInterval) : gapSearch :=
  match gaps with
  | [] => NoGap
  | gap :: after =>
      (* the frame is a duplicate. Ignore it *)
      if end_ <=? bi_Start gap then DuplicateData
      else if (bi_Start gap <? end_) && (start <=? bi_End gap) then FoundGap before gap after
      else find_gap start end_ (before ++ [gap]) after
  end.

(** The second loop of [push].  [es_same] tells that [endGap] is [gap] itself,
    [es_removed] that it has been removed from the list; [es_rest] are the gaps
    after it; the gaps between [gap] and [endGap] have been removed. *)
Record endSearch := mkEndSearch {
  es_same : bool;
  es_endGap : ByteInterval;
  es_removed : bool;
  es_rest : list ByteInterval;
  es_queue : gmap Z bytes;
  es_err : option goerr
}.

Fixpoint find_end (end_ : ByteCount) (same : bool) (endGap : ByteInterval) (rest : list ByteInterval)
    (queue : gmap Z bytes) : endSearch :=
  if bi_End endGap <=? end_ then
    match rest with
    | [] => mkEndSearch same endGap false [] queue
              (Some (ErrorString "StreamFrameSorter BUG: no end gap found"))
    | nextEndGap :: rest' =>
        (* endGap is removed here, unless it is gap *)
        if end_ <=? bi_Start nextEndGap then mkEndSearch same endGap (negb same) rest queue None
        else
          (* delete queued frames completely covered by the current frame *)
          find_end end_ false nextEndGap rest' (delete (bi_End endGap) queue)
    end
  else mkEndSearch same endGap false rest queue None.

(** The gaps after a frame from [start] to [end_], which begins in [gap] and
    ends in [endGap]. *)
Definition update_gaps (start end_ : ByteCount) (before : list ByteInterval) (gap : ByteInterval)
    (es : endSearch) : list ByteInterval :=
  let endGap := es_endGap es in
  (* endGap, where it is an element of its own *)
  let own e := if es_same es || es_removed es then [] else [e] in
  if start =? bi_Start gap then
    let shrunk := if end_ <? bi_End endGap then mkByteInterval end_ (bi_End endGap) else endGap in
    before ++
    (* the frame completely fills this gap *)
    (if bi_End gap <=? end_ then [] else [if es_same es then shrunk else gap]) ++
    (* the frame covers the beginning of the gap *)
    own shrunk ++ es_rest es
  else if end_ =? bi_End endGap then
    (* the frame covers the end of the gap *)
    before ++ [mkByteInterval (bi_Start gap) start] ++ own endGap ++ es_rest es
  else if es_same es then
    (* the frame lies within the current gap, splitting it into two *)
    before ++ [mkByteInterval (bi_Start gap) start; mkByteInterval end_ (bi_End gap)] ++ es_rest es
  else
    before ++ [mkByteInterval (bi_Start gap) start] ++ own (mkByteInterval end_ (bi_End endGap)) ++ es_rest es.

(** The data and the offset without what is queued at the offset; [None] when
    nothing is left. *)
Definition cut_queued (s : frameSorter) (data : bytes) (offset : ByteCount) :
    outcome (option (bytes * ByteCount)) :=
  match fs_queue s !! offset with
  | Some oldData =>
      if dataLen data <=? dataLen oldData then mret None
      else data ← slice_from data (dataLen oldData);
           mret (Some (data, uint64 (offset + dataLen oldData)))
  | None => mret (Some (data, offset))
  end.

(** What of the data lies after the beginning of the gap, and before the end of
    a gap. *)
Definition cut_front (data : bytes) (offset gapStart : ByteCount) : outcome (bytes * ByteCount) :=
  if offset <? gapStart then
    data ← slice_from data (gapStart - offset); mret (data, gapStart)
  else mret (data, offset).

Definition cut_back (data : bytes) (end_ gapEnd : ByteCount) : outcome (bytes * ByteCount) :=
  if gapEnd <? end_ then
    let cutLen := end_ - gapEnd in
    data ← slice_to data (dataLen data - cutLen); mret (data, end_ - cutLen)
  else mret (data, end_).

(** [push], from the gap where the frame begins.  [start] is [offset]. *)
Definition push_at (s : frameSorter) (data : bytes) (offset end_ : ByteCount)
    (before : list ByteInterval) (gap : ByteInterval) (after : list ByteInterval) :
    outcome (frameSorter * option goerr) :=
  '(data, offset) ← cut_front data offset (bi_Start gap);
  (* find the highest gaps whose Start lies before the end of the frame *)
  let es := find_end end_ true gap after (fs_queue s) in
  let endGap := es_endGap es in
  match es_err es with
  | Some err =>
      mret (s <| fs_queue := es_queue es |>
              <| fs_gaps := before ++ gap :: (if es_same es then [] else [endGap]) |>, Some err)
  | None =>
      '(data, end_) ← cut_back data end_ (bi_End endGap);
      let s := s <| fs_queue := es_queue es |> <| fs_gaps := update_gaps offset end_ before gap es |> in
      if MaxStreamFrameSorterGaps <? Z.of_nat (length (fs_gaps s)) then mret (s, Some errTooManyGaps)
      else mret (s <| fs_queue := <[offset := data]> (fs_queue s) |>, None)
  end.

Definition push (s : frameSorter) (data : bytes) (offset : ByteCount) :
    outcome (frameSorter * option goerr) :=
  if dataLen data =? 0 then mret (s, None) else
  cut ← cut_queued s data offset;
  match cut with
  | None => mret (s, Some errDuplicateStreamData)
  | Some (data, offset) =>
      let end_ := uint64 (offset + dataLen data) in
      match find_gap offset end_ [] (fs_gaps s) with
      | DuplicateData => mret (s, Some errDuplicateStreamData)
      | NoGap => mret (s, Some (ErrorString "StreamFrameSorter BUG: no gap found"))
      | FoundGap before gap after => push_at s data offset end_ before gap after
      end
  end.

Definition Push (s : frameSorter) (data : bytes) (offset : ByteCount) :
    outcome (frameSorter * option goerr) :=
  '(s, err) ← push s data offset;
  mret (s, if bool_decide (err = Some errDuplicateStreamData) then None else err).

(** [Pop]: the offset and the data, [None] for nil. *)
Definition Pop (s : frameSorter) : frameSorter * (ByteCount * option bytes) :=
  match fs_queue s !! fs_readPos s with
  | None => (s, (fs_readPos s, None))
  | Some data =>
      (s <| fs_queue := delete (fs_readPos s) (fs_queue s) |>
         <| fs_readPos := uint64 (fs_readPos s + dataLen data) |>, (fs_readPos s, Some data))
  end.

Definition HasMoreData (s : frameSorter) : bool := bool_decide (fs_queue s <> ∅).

(** ** The gaps *)

(** The positions in a list of gaps. *)
Definition in_gap (x : Z) (g : ByteInterval) : Prop := bi_Start g <= x < bi_End g.
Definition in_gaps (x : Z) (gs : list ByteInterval) : Prop := exists g, g ∈ gs /\ in_gap x g.

(** The gaps are not empty, in order, and not adjacent. *)
Fixpoint sorted_gaps (lo : Z) (gs : list ByteInterval) : Prop :=
  match gs with
  | [] => True
  | g :: gs => lo < bi_Start g < bi_End g /\ sorted_gaps (bi_End g) gs
  end.

(** The reference definition of receiving the positions from [start] to [end_]:
    each gap loses them. *)
Definition interval (a b : Z) : list ByteInterval := if a <? b then [mkByteInterval a b] else [].
Definition subtract (start end_ : Z) (g : ByteInterval) : list ByteInterval :=
  interval (bi_Start g) (Z.min (bi_End g) start) ++ interval (Z.max (bi_Start g) end_) (bi_End g).

Lemma sorted_gaps_lower lo gs g : sorted_gaps lo gs -> g ∈ gs -> lo < bi_Start g < bi_End g.
Proof.
  revert lo. induction gs as [|h gs IH]; intros lo; cbn; [set_solver|].
  intros [Hh Hs] [->|Hg]%elem_of_cons; [done|]. specialize (IH _ Hs Hg). lia.
Qed.

Lemma sorted_gaps_weaken lo lo' gs : lo' <= lo -> sorted_gaps lo gs -> sorted_gaps lo' gs.
Proof. destruct gs; cbn; [done|]. intros ? [? ?]. split; [lia|done]. Qed.

Lemma sorted_gaps_split lo l1 g l2 :
  sorted_gaps lo (l1 ++ g :: l2) ->
  (forall h, h ∈ l1 -> bi_Start h < bi_End h < bi_Start g) /\ bi_Start g < bi_End g /\
  sorted_gaps (bi_End g) l2.
Proof.
  revert lo. induction l1 as [|h l1 IH]; intros lo; cbn.
  - intros [? ?]. split; [set_solver|]. split; [lia|done].
  - intros [Hh Hs]. pose proof (sorted_gaps_lower _ _ g Hs ltac:(set_solver)).
    destruct (IH _ Hs) as (H1 & H2 & H3). split; [|done]. intros k [->|Hk]%elem_of_cons; [lia|auto].
Qed.

(** The end of a gap has been received. *)
Lemma gap_end_received lo gs g : sorted_gaps lo gs -> g ∈ gs -> ~ in_gaps (bi_End g) gs.
Proof.
  intros Hs Hg (h & Hh & Hin). unfold in_gap in Hin. apply list_elem_of_split in Hg as (l1 & l2 & ->).
  destruct (sorted_gaps_split _ _ _ _ Hs) as (H1 & H2 & H3).
  apply elem_of_app in Hh as [Hh|[->|Hh]%elem_of_cons].
  - specialize (H1 h Hh). lia.
  - lia.
  - pose proof (sorted_gaps_lower _ _ _ H3 Hh). lia.
Qed.

Lemma in_interval a b x : in_gaps x (interval a b) <-> a <= x < b.
Proof.
  unfold in_gaps, in_gap, interval. case_if; zbool.
  - split; [by intros (g & ->%list_elem_of_singleton & ?)|]. intros. eexists. split; [by apply list_elem_of_singleton|done].
  - split; [intros (g & []%elem_of_nil & _)|lia].
Qed.

Lemma in_gaps_app x l1 l2 : in_gaps x (l1 ++ l2) <-> in_gaps x l1 \/ in_gaps x l2.
Proof. unfold in_gaps. setoid_rewrite elem_of_app. naive_solver. Qed.

Lemma in_subtract start end_ g x :
  start < end_ -> in_gaps x (subtract start end_ g) <-> in_gap x g /\ ~ (start <= x < end_).
Proof. intros Hse. unfold subtract, in_gap. rewrite in_gaps_app, !in_interval. lia. Qed.

Lemma in_gaps_subtract start end_ gs x :
  start < end_ -> in_gaps x (gs ≫= subtract start end_) <-> in_gaps x gs /\ ~ (start <= x < end_).
Proof.
  intros Hse. split.
  - intros (h & (g & Hh & Hg)%list_elem_of_bind & Hx).
    destruct (proj1 (in_subtract start end_ g x Hse)) as [? ?]; [by exists h|]. split; [by exists g|done].
  - intros [(g & Hg & Hx) Hout]. destruct (proj2 (in_subtract start end_ g x Hse)) as (h & Hh & Hi); [done|].
    exists h. split; [|done]. apply list_elem_of_bind. by exists g.
Qed.

(** A gap outside of the interval is kept, one inside is dropped. *)
Lemma interval_pos a b : a < b -> interval a b = [mkByteInterval a b].
Proof. intros. unfold interval. by rewrite (proj2 (Z.ltb_lt a b)). Qed.
Lemma interval_neg a b : b <= a -> interval a b = [].
Proof. intros. unfold interval. by rewrite (proj2 (Z.ltb_ge a b)). Qed.

Lemma subtract_out start end_ g :
  start < end_ -> bi_Start g < bi_End g -> bi_End g <= start \/ end_ <= bi_Start g -> subtract start end_ g = [g].
Proof.
  intros Hse Hg Hout. destruct g as [a b]. unfold subtract. cbn in *. destruct Hout.
  - by rewrite Z.min_l, interval_pos, interval_neg by lia.
  - by rewrite Z.max_l, interval_neg, interval_pos by lia.
Qed.

Lemma subtract_in start end_ g : start <= bi_Start g -> bi_End g <= end_ -> subtract start end_ g = [].
Proof. intros H1 H2. unfold subtract. by rewrite !interval_neg by lia. Qed.

Lemma sorted_subtract start end_ lo gs :
  start < end_ -> sorted_gaps lo gs -> sorted_gaps lo (gs ≫= subtract start end_).
Proof.
  intros Hse. revert lo. induction gs as [|g gs IH]; intros lo; [done|]. intros [Hg Hs].
  specialize (IH _ Hs). rewrite bind_cons. set (gs' := gs ≫= _) in *. clearbody gs'. unfold subtract, interval.
  case_if; case_if; zbool; cbn; split_and?; try lia; eapply sorted_gaps_weaken; try exact IH; lia.
Qed.

(** ** The searches *)

Lemma find_gap_spec start end_ lo acc gs :
  start < end_ -> sorted_gaps lo gs ->
  match find_gap start end_ acc gs with
  | NoGap => forall h, h ∈ gs -> bi_End h < start
  | DuplicateData => forall x, start <= x < end_ -> ~ in_gaps x gs
  | FoundGap before gap after =>
      exists skipped, before = acc ++ skipped /\ gs = skipped ++ gap :: after /\
      (forall h, h ∈ skipped -> bi_End h < start) /\ bi_Start gap < end_ /\ start <= bi_End gap
  end.
Proof.
  intros Hse. revert lo acc. induction gs as [|g gs IH]; intros lo acc; cbn; [set_solver|]. intros [Hg Hs].
  destruct (Z.leb_spec end_ (bi_Start g)).
  { intros x Hx (h & [->|Hh]%elem_of_cons & Hi); unfold in_gap in Hi; [lia|].
    pose proof (sorted_gaps_lower _ _ _ Hs Hh). lia. }
  destruct (_ && _) eqn:E; zbool; [exists []; rewrite app_nil_r; split_and!; [done|done|set_solver|lia|lia]|].
  assert (bi_End g < start). { apply andb_false_iff in E as [?|?]; zbool; lia. }
  specialize (IH _ (acc ++ [g]) Hs). destruct (find_gap _ _ _ gs) as [| |before gap after].
  - intros h [->|Hh]%elem_of_cons; [done|auto].
  - intros x Hx (h & [->|Hh]%elem_of_cons & Hi); unfold in_gap in Hi; [lia|]. apply (IH x Hx). by exists h.
  - destruct IH as (sk & -> & -> & H1 & H2). exists (g :: sk). rewrite <- app_assoc. split_and!; try (done || lia).
    intros h [->|Hh]%elem_of_cons; auto.
Qed.

(** Where the frame ends: [mid] are the gaps it covers on the way. *)
Record end_found (end_ : Z) (same0 : bool) (gap : ByteInterval) (after : list ByteInterval)
    (queue : gmap Z bytes) (mid : list ByteInterval) (es : endSearch) : Prop := {
  ef_list : gap :: after = mid ++ es_endGap es :: es_rest es;
  ef_same : es_same es = same0 && bool_decide (mid = []);
  ef_mid : forall h, h ∈ mid -> bi_End h <= end_;
  ef_start : mid <> [] -> bi_Start (es_endGap es) < end_;
  ef_end : end_ < bi_End (es_endGap es) /\ es_removed es = false \/
           bi_End (es_endGap es) <= end_ /\ es_removed es = negb (es_same es) /\
           forall h, h ∈ es_rest es -> end_ <= bi_Start h;
  ef_queue : forall k, (forall h, h ∈ mid -> k <> bi_End h) -> es_queue es !! k = queue !! k;
  ef_sub : es_queue es ⊆ queue
}.

Lemma find_end_spec end_ same gap after queue lo :
  sorted_gaps lo (gap :: after) ->
  let es := find_end end_ same gap after queue in
  match es_err es with
  | None => exists mid, end_found end_ same gap after queue mid es
  | Some _ => forall h, h ∈ gap :: after -> bi_End h <= end_
  end.
Proof.
  revert gap same queue lo. induction after as [|g after IH]; intros gap same queue lo [Hg Hs]; cbn.
  - destruct (Z.leb_spec (bi_End gap) end_); cbn; [intros h ->%list_elem_of_singleton; lia|].
    exists []. split; cbn; try done; [by rewrite andb_true_r|set_solver|lia].
  - destruct (Z.leb_spec (bi_End gap) end_); cbn.
    2: { exists []. split; cbn; try done; [by rewrite andb_true_r|set_solver|lia]. }
    destruct (Z.leb_spec end_ (bi_Start g)); cbn.
    { exists []. split; cbn; try done; [by rewrite andb_true_r|set_solver|]. right. split_and!; try done.
      intros h [->|Hh]%elem_of_cons; [done|]. destruct Hs as [? Hs]. pose proof (sorted_gaps_lower _ _ _ Hs Hh). lia. }
    specialize (IH g false (delete (bi_End gap) queue) _ Hs). cbn in IH.
    destruct (es_err _); [intros h [->|Hh]%elem_of_cons; [done|auto]|].
    destruct IH as [mid []]. exists (gap :: mid). split; try done.
    + cbn. by f_equal.
    + by rewrite ef_same0, andb_false_r.
    + intros h [->|Hh]%elem_of_cons; auto.
    + intros _. destruct mid as [|m0 mid]; [|by apply ef_start0]. cbn in ef_list0. injection ef_list0 as <- _. lia.
    + intros k Hk. rewrite ef_queue0 by set_solver. apply lookup_delete_ne. intros <-. by apply (Hk gap); [left|].
    + etransitivity; [done|]. apply delete_subseteq.
Qed.

Lemma bind_subtract_out start end_ gs :
  start < end_ -> (forall h, h ∈ gs -> bi_Start h < bi_End h /\ (bi_End h <= start \/ end_ <= bi_Start h)) ->
  gs ≫= subtract start end_ = gs.
Proof.
  intros Hse. induction gs as [|g gs IH]; intros Hg; [done|]. rewrite bind_cons, IH by set_solver.
  by rewrite subtract_out by (try apply Hg; set_solver).
Qed.

Lemma bind_subtract_in start end_ gs :
  (forall h, h ∈ gs -> start <= bi_Start h /\ bi_End h <= end_) -> gs ≫= subtract start end_ = [].
Proof.
  induction gs as [|g gs IH]; intros Hg; [done|]. rewrite bind_cons, IH by set_solver.
  by rewrite subtract_in by (apply Hg; set_solver).
Qed.

Lemma subtract_cross start end_ g :
  bi_Start g <= start < bi_End g -> start < end_ ->
  subtract start end_ g = interval (bi_Start g) start ++ interval end_ (bi_End g).
Proof. intros. unfold subtract. by rewrite Z.min_r, Z.max_r by lia. Qed.

(** The case distinction of [push] is the reference definition. *)
Lemma update_gaps_spec start end_ lo before gap after queue mid es :
  sorted_gaps lo (before ++ gap :: after) -> (forall h, h ∈ before -> bi_End h < start) ->
  bi_Start gap <= start < bi_End gap -> start < end_ -> end_found end_ true gap after queue mid es ->
  update_gaps start (Z.min end_ (bi_End (es_endGap es))) before gap es =
    (before ++ gap :: after) ≫= subtract start end_.
Proof.
  intros Hs Hb Hg Hse [Hl Hsame Hm Hst He _ _]. destruct (sorted_gaps_split _ _ _ _ Hs) as (Hbef & _ & Ha).
  rewrite bind_app, (bind_subtract_out start end_ before) by (try done; intros h Hh; specialize (Hb h Hh); specialize (Hbef h Hh); lia).
  destruct es as [same endGap removed rest q err]. cbn in *. unfold update_gaps. cbn.
  assert (Hr : rest ≫= subtract start end_ = rest).
  { assert (Hso : sorted_gaps lo ((before ++ mid) ++ endGap :: rest)) by (by rewrite <- app_assoc, <- Hl).
    destruct (sorted_gaps_split _ _ _ _ Hso) as (_ & ? & Hrest).
    apply bind_subtract_out; [done|]. intros h Hh. pose proof (sorted_gaps_lower _ _ _ Hrest Hh).
    split; [lia|]. destruct He as [[? _]|(? & _ & Hf)]; [lia|]. specialize (Hf h Hh). lia. }
  destruct mid as [|m0 mid]; cbn in Hl; injection Hl as <- ->.
  - rewrite bool_decide_eq_true_2 in Hsame by done. cbn in Hsame. subst same. cbn.
    rewrite Hr, subtract_cross by done.
    destruct He as [[? ->]|(? & -> & _)]; [rewrite Z.min_l by lia|rewrite Z.min_r by lia]; cbn.
    + rewrite (interval_pos end_) by lia. rewrite (proj2 (Z.ltb_lt end_ _)), (proj2 (Z.leb_gt (bi_End gap) _)), (proj2 (Z.eqb_neq end_ _)) by lia.
      destruct (Z.eqb_spec start (bi_Start gap)); [rewrite interval_neg by lia|rewrite interval_pos by lia]; done.
    + rewrite (interval_neg end_) by lia. rewrite Z.leb_refl, Z.eqb_refl.
      destruct (Z.eqb_spec start (bi_Start gap)); [rewrite interval_neg by lia|rewrite interval_pos by lia]; done.
  - cbn in Hsame. subst same. cbn. specialize (Hst ltac:(done)).
    assert (Hgap : bi_End gap <= end_) by (apply Hm; set_solver).
    destruct (sorted_gaps_split _ _ _ _ Ha) as (Hmid & ? & _).
    assert (bi_End gap < bi_Start endGap) by (apply (sorted_gaps_lower _ _ _ Ha); set_solver).
    rewrite bind_app, bind_cons, Hr, (bind_subtract_in start end_ mid).
    2: { intros h Hh. split; [|apply Hm; set_solver].
         pose proof (sorted_gaps_lower _ _ h Ha ltac:(set_solver)). lia. }
    rewrite subtract_cross, (interval_neg end_ (bi_End gap)), app_nil_r by lia. cbn.
    unfold subtract. rewrite (interval_neg (bi_Start endGap)), Z.max_r by lia. cbn.
    rewrite (proj2 (Z.leb_le (bi_End gap) _)) by lia.
    destruct He as [[? ->]|(? & -> & _)]; [rewrite Z.min_l by lia|rewrite Z.min_r by lia]; cbn.
    + rewrite (interval_pos end_) by lia. rewrite (proj2 (Z.ltb_lt end_ _)), (proj2 (Z.eqb_neq end_ _)) by lia.
      destruct (Z.eqb_spec start (bi_Start gap)); [rewrite interval_neg by lia|rewrite interval_pos by lia]; done.
    + rewrite (interval_neg end_) by lia. rewrite Z.eqb_refl.
      destruct (Z.eqb_spec start (bi_Start gap)); [rewrite interval_neg by lia|rewrite interval_pos by lia]; done.
Qed.

(** ** The queue *)

(** From [x] the queued chunks lead, one after the other, to a position of [m]. *)
Inductive tiled (q : gmap Z bytes) (m : Z -> Prop) : Z -> Prop :=
| tiled_end x : m x -> tiled q m x
| tiled_chunk x d : q !! x = Some d -> tiled q m (x + dataLen d) -> tiled q m x.

Lemma tiled_none q m x : tiled q m x -> q !! x = None -> m x.
Proof. by destruct 1 as [|x d ->]. Qed.

Lemma tiled_next q m x d : tiled q m x -> q !! x = Some d -> ~ m x -> tiled q m (x + dataLen d).
Proof. destruct 1 as [|x d' -> Ht]; [done|]. by intros [= ->]. Qed.

(** What is known of the bytes at an offset; it is kept by cutting them. *)
Class Content (P : Z -> bytes -> Prop) : Prop := {
  content_drop k d j : P k d -> (j <= length d)%nat -> P (k + Z.of_nat j) (drop j d);
  content_take k d j : P k d -> P k (take j d)
}.

(** Any bytes; the bytes of the stream [c]. *)
Definition any_bytes (_ : Z) (_ : bytes) : Prop := True.
Definition segment (c : Z -> byte) (offset : Z) (n : nat) : bytes := map c (seqZ offset (Z.of_nat n)).
Definition bytes_of (c : Z -> byte) (k : Z) (d : bytes) : Prop := d = segment c k (length d).

(** The chunks are contents that have been received. *)
Definition chunks_ok (P : Z -> bytes -> Prop) (q : gmap Z bytes) (m : Z -> Prop) : Prop :=
  forall k d, q !! k = Some d -> d <> [] /\ P k d /\
    forall x, k <= x < k + dataLen d -> ~ m x.

#[global] Instance any_content : Content any_bytes.
Proof. by split. Qed.

Lemma segment_length c k n : length (segment c k n) = n.
Proof. unfold segment. rewrite length_map, length_seqZ. lia. Qed.

Lemma dataLen_segment c k n : dataLen (segment c k n) = Z.of_nat n.
Proof. unfold dataLen. by rewrite segment_length. Qed.

Lemma segment_app c k n1 n2 :
  segment c k (n1 + n2) = segment c k n1 ++ segment c (k + Z.of_nat n1) n2.
Proof. unfold segment. rewrite Nat2Z.inj_add, seqZ_app by lia. by rewrite map_app. Qed.

Lemma segment_drop c k n j : (j <= n)%nat -> drop j (segment c k n) = segment c (k + Z.of_nat j) (n - j).
Proof.
  intros. replace n with (j + (n - j))%nat at 1 by lia. rewrite segment_app.
  by rewrite drop_app_length' by (by rewrite segment_length).
Qed.

Lemma segment_take c k n j : (j <= n)%nat -> take j (segment c k n) = segment c k j.
Proof.
  intros. replace n with (j + (n - j))%nat at 1 by lia. rewrite segment_app.
  by rewrite take_app_length' by (by rewrite segment_length).
Qed.

#[global] Instance stream_content c : Content (bytes_of c).
Proof.
  unfold bytes_of. split; intros k d j E.
  - intros Hj. rewrite length_drop, <- segment_drop, <- E by done. done.
  - destruct (Nat.le_gt_cases j (length d)).
    + rewrite length_take, Nat.min_l, <- (segment_take c k (length d)), <- E by done. done.
    + by rewrite take_ge by lia.
Qed.

Lemma bytes_of_segment c k n : bytes_of c k (segment c k n).
Proof. unfold bytes_of. by rewrite segment_length. Qed.

Lemma dataLen_pos d : d <> [] -> 0 < dataLen d.
Proof. destruct d; [done|]. unfold dataLen. cbn. lia. Qed.

Section Contents.
Context (P : Z -> bytes -> Prop) `{!Content P}.

(** A new chunk from [start] to [end_] keeps what is tiled outside of it. *)
Lemma tiled_insert q m q' m' start end_ new :
  chunks_ok P q m -> m start -> start < end_ -> dataLen new = end_ - start ->
  (forall x, m' x <-> m x /\ ~ (start <= x < end_)) ->
  (forall k, k < start \/ end_ <= k -> q' !! k = q !! k) -> q' !! start = Some new ->
  m' end_ \/ tiled q m end_ ->
  forall x, tiled q m x -> x <= start \/ end_ <= x -> tiled q' m' x.
Proof.
  intros Hq Hstart Hse Hlen Hm Hk Hnew Hend.
  assert (Hup : forall x, tiled q m x -> end_ <= x -> tiled q' m' x).
  { intros x Ht. induction Ht as [x Hx|x d Hd _ IH]; intros Hge.
    - apply tiled_end, Hm. split; [done|lia].
    - destruct (Hq x d Hd) as (Hne & _ & _). pose proof (dataLen_pos d Hne).
      eapply tiled_chunk; [rewrite Hk by lia; exact Hd|]. apply IH. lia. }
  assert (Hat : tiled q' m' start).
  { eapply tiled_chunk; [exact Hnew|]. rewrite Hlen. replace (start + (end_ - start)) with end_ by lia.
    destruct Hend as [He|He]; [by apply tiled_end|]. by apply Hup. }
  intros x Ht [Hle|Hge]; [|auto].
  induction Ht as [x Hx|x d Hd _ IH]; (destruct (Z.eq_dec x start) as [->|Hne]; [done|]).
  - apply tiled_end, Hm. split; [done|lia].
  - eapply tiled_chunk; [rewrite Hk by lia; exact Hd|]. apply IH.
    destruct (Hq x d Hd) as (_ & _ & Hout). destruct (Z.le_gt_cases (x + dataLen d) start); [done|].
    exfalso. apply (Hout start); [lia|done].
Qed.

(** A sorter that holds such contents. *)
Record sorter_ok (s : frameSorter) : Prop := {
  sk_sorted : sorted_gaps (-1) (fs_gaps s);
  sk_last : in_gaps (MaxByteCount - 1) (fs_gaps s);
  sk_read : 0 <= fs_readPos s /\ forall x, in_gaps x (fs_gaps s) -> fs_readPos s <= x;
  sk_chunks : chunks_ok P (fs_queue s) (fun x => in_gaps x (fs_gaps s));
  sk_bound : forall k d, fs_queue s !! k = Some d -> k + dataLen d < MaxByteCount;
  sk_first : tiled (fs_queue s) (fun x => in_gaps x (fs_gaps s)) (fs_readPos s);
  sk_ends : forall g, g ∈ fs_gaps s -> bi_End g = MaxByteCount \/
              tiled (fs_queue s) (fun x => in_gaps x (fs_gaps s)) (bi_End g)
}.

(** What a frame from [start] to [end_] does to a sorter. *)
Definition covers (s s' : frameSorter) (start end_ : Z) : Prop :=
  fs_readPos s' = fs_readPos s /\
  forall x, in_gaps x (fs_gaps s') <-> in_gaps x (fs_gaps s) /\ ~ (start <= x < end_).

Lemma in_gap_subtract_end start end_ gs g :
  g ∈ gs ≫= subtract start end_ -> exists h, h ∈ gs /\ (bi_End g = bi_End h \/ bi_End g = start) /\
    (bi_End g <= start \/ end_ <= bi_Start g).
Proof.
  intros (h & Hg & Hh)%list_elem_of_bind. exists h. split; [done|]. unfold subtract, interval in Hg.
  apply elem_of_app in Hg as [Hg|Hg]; case_if_in Hg; try (by apply elem_of_nil in Hg);
    apply list_elem_of_singleton in Hg as ->; zbool; cbn; lia.
Qed.

(** Where the frame ends, seen from the positions: nothing is missing between
    the end of the last gap it reaches and its end, and the chunks deleted on the
    way are inside of it. *)
Lemma end_found_positions lo before gap after end_ start queue mid es :
  sorted_gaps lo (before ++ gap :: after) -> bi_Start gap <= start < bi_End gap -> bi_Start gap < end_ ->
  end_found end_ true gap after queue mid es ->
  let e := Z.min end_ (bi_End (es_endGap es)) in
  es_endGap es ∈ gap :: after /\ bi_Start (es_endGap es) < e /\ (start < end_ -> start < e) /\
  (forall x, e <= x < end_ -> ~ in_gaps x (before ++ gap :: after)) /\
  (forall h, h ∈ mid -> start < bi_End h < e).
Proof.
  intros Hs Hg Hge [Hl _ Hm Hst He _ _]. set (e := Z.min _ _). cbn.
  assert (Hso : sorted_gaps lo ((before ++ mid) ++ es_endGap es :: es_rest es)) by (by rewrite <- app_assoc, <- Hl).
  rewrite Hl, app_assoc. destruct (sorted_gaps_split _ _ _ _ Hso) as (Hbef & Hend & Hrest).
  assert (Hmid : forall h, h ∈ mid -> start < bi_End h < bi_Start (es_endGap es)).
  { intros h Hh. split; [|apply Hbef; set_solver].
    assert (h ∈ gap :: after) as [->|Ha]%elem_of_cons by (rewrite Hl; set_solver); [lia|].
    destruct (sorted_gaps_split _ _ _ _ Hs) as (_ & _ & Hsa). pose proof (sorted_gaps_lower _ _ _ Hsa Ha). lia. }
  assert (Hse : bi_Start (es_endGap es) < end_).
  { destruct mid as [|m0 mid]; [|by apply Hst]. cbn in Hl. injection Hl as <- _. lia. }
  assert (Hee : start < bi_End (es_endGap es)).
  { destruct mid as [|m0 mid]; [cbn in Hl; injection Hl as <- _; lia|]. specialize (Hmid m0 ltac:(set_solver)). lia. }
  split_and!; [set_solver|lia|lia| |].
  - intros x Hx (h & Hh & Hi). unfold in_gap in Hi. apply elem_of_app in Hh as [Hh|[->|Hh]%elem_of_cons].
    + specialize (Hbef h Hh). lia.
    + lia.
    + destruct He as [[? _]|(_ & _ & Hr)]; [lia|]. specialize (Hr h Hh). lia.
  - intros h Hh. specialize (Hmid h Hh). lia.
Qed.

(** Recording a chunk that fills [start, e) of the gaps. *)
Lemma sorter_insert s q' start e end_ new :
  sorter_ok s -> in_gaps start (fs_gaps s) -> start < e <= end_ -> end_ < MaxByteCount ->
  P start new -> dataLen new = e - start ->
  (forall x, e <= x < end_ -> ~ in_gaps x (fs_gaps s)) ->
  (forall k, k < start \/ e <= k -> q' !! k = fs_queue s !! k) -> q' ⊆ fs_queue s ->
  (e = end_ /\ in_gaps e (fs_gaps s) \/ exists g, g ∈ fs_gaps s /\ e = bi_End g) ->
  sorter_ok (mkFrameSorter (<[start := new]> q') (fs_readPos s) (fs_gaps s ≫= subtract start end_)).
Proof.
  intros [Hso Hla [Hr0 Hr] Hch Hbo Hfi Hen] Hst Hse Hmax Hnew Hlen Hout Hk Hsub He.
  assert (Hin : forall x, in_gaps x (fs_gaps s ≫= subtract start end_) <->
    in_gaps x (fs_gaps s) /\ ~ (start <= x < e)).
  { intros x. rewrite in_gaps_subtract by lia. split; intros [H1 H2]; (split; [done|]); [lia|].
    intros Hx. destruct (Z.lt_ge_cases x e); [lia|]. by apply (Hout x); [lia|]. }
  assert (Ht : forall x, tiled (fs_queue s) (fun x => in_gaps x (fs_gaps s)) x -> x <= start \/ e <= x ->
    tiled (<[start := new]> q') (fun x => in_gaps x (fs_gaps s ≫= subtract start end_)) x).
  { eapply tiled_insert; try done; [lia|..].
    - intros k Hk'. rewrite lookup_insert_ne by lia. by apply Hk.
    - apply lookup_insert_eq.
    - destruct He as [[-> He]|(g & Hg & ->)].
      + left. apply Hin. split; [done|lia].
      + right. destruct (Hen g Hg); [lia|done]. }
  split; cbn.
  - apply sorted_subtract; [lia|done].
  - apply Hin. split; [done|lia].
  - split; [done|]. intros x [Hx _]%Hin. auto.
  - intros k d [[<- <-]|[Hne Hd]]%lookup_insert_Some.
    + split_and!; [intros ->; unfold dataLen in Hlen; cbn in Hlen; lia|done|]. intros x Hx [_ Hx']%Hin. lia.
    + eapply lookup_weaken in Hd; [|done]. destruct (Hch k d Hd) as (? & ? & Hx). split_and!; [done|done|].
      intros x Hx' [Hx'' _]%Hin. by apply (Hx x).
  - intros k d [[<- <-]|[Hne Hd]]%lookup_insert_Some; [lia|]. eapply Hbo, lookup_weaken; done.
  - apply Ht; [done|]. left. by apply Hr.
  - intros g Hg. destruct (in_gap_subtract_end _ _ _ _ Hg) as (h & Hh & [E|E] & Hpos).
    + rewrite E. destruct (Hen h Hh) as [->|Hti]; [by left|]. right. apply Ht; [done|].
      pose proof (sorted_gaps_lower _ _ _ (sorted_subtract start end_ _ _ ltac:(lia) Hso) Hg). lia.
    + right. rewrite E. apply Ht; [by apply tiled_end|lia].
Qed.

Lemma cut_front_data data offset gapStart :
  gapStart <= offset + dataLen data ->
  let start := Z.max offset gapStart in
  cut_front data offset gapStart = Ret (drop (Z.to_nat (start - offset)) data, start).
Proof.
  intros Hle start. unfold cut_front. destruct (Z.ltb_spec offset gapStart).
  - unfold slice_from. rewrite (proj2 (Z.ltb_ge _ _)) by (unfold dataLen in *; lia). cbn.
    unfold start. by rewrite Z.max_r by lia.
  - unfold start. rewrite Z.max_l by lia. by rewrite Z.sub_diag.
Qed.

Lemma cut_back_data data start end_ gapEnd :
  start <= gapEnd -> end_ = start + dataLen data ->
  let e := Z.min end_ gapEnd in
  cut_back data end_ gapEnd = Ret (take (Z.to_nat (e - start)) data, e).
Proof.
  intros Hle Hend e. unfold cut_back, e. destruct (Z.ltb_spec gapEnd end_).
  - unfold slice_to. rewrite Z.min_r by lia.
    replace (dataLen data - (end_ - gapEnd)) with (gapEnd - start) by lia.
    rewrite (proj2 (Z.ltb_ge _ 0)), (proj2 (Z.ltb_ge _ _)) by (unfold dataLen in *; lia).
    cbn. unfold mret, outcome_ret. do 2 f_equal. lia.
  - rewrite Z.min_l by lia. unfold mret, outcome_ret. rewrite take_ge; [done|]. unfold dataLen in *. lia.
Qed.

Lemma push_at_ok s data offset before gap after :
  sorter_ok s -> fs_gaps s = before ++ gap :: after -> (forall h, h ∈ before -> bi_End h < offset) ->
  let end_ := offset + dataLen data in
  bi_Start gap < end_ -> offset < bi_End gap -> offset < end_ < MaxByteCount -> 0 <= offset -> P offset data ->
  exists s' e, push_at s data offset end_ before gap after = Ret (s', e) /\
    (e = None /\ sorter_ok s' /\ covers s s' offset end_ \/ e = Some errTooManyGaps).
Proof.
  intros Hok Hgs Hb end_ Hge Hoe Hoff Ho HP. pose proof (sk_sorted _ Hok) as Hso. rewrite Hgs in Hso.
  destruct (sorted_gaps_split _ _ _ _ Hso) as (Hbef & Hgg & Haft).
  unfold push_at. rewrite cut_front_data by lia. set (start := Z.max offset (bi_Start gap)).
  assert (Hst : bi_Start gap <= start < bi_End gap) by lia. assert (Hse : offset <= start < end_) by lia.
  assert (Hcov : forall x, offset <= x < start -> ~ in_gaps x (fs_gaps s)).
  { intros x Hx (h & Hh & Hi). unfold in_gap in Hi. rewrite Hgs in Hh. apply elem_of_app in Hh as [Hh|[->|Hh]%elem_of_cons].
    - specialize (Hb h Hh). lia.
    - lia.
    - pose proof (sorted_gaps_lower _ _ _ Haft Hh). lia. }
  clearbody start. cbn [mbind outcome_bind].
  set (data1 := drop _ data). assert (Hlen1 : dataLen data1 = end_ - start).
  { unfold data1, dataLen in *. rewrite length_drop. lia. }
  assert (HP1 : P start data1).
  { replace start with (offset + Z.of_nat (Z.to_nat (start - offset))) by lia. apply content_drop; [done|].
    unfold dataLen in *. lia. }
  pose proof (find_end_spec end_ true gap after (fs_queue s) (bi_Start gap - 1) ltac:(split; [lia|done])) as Hfe.
  cbn in Hfe. set (es := find_end end_ true gap after (fs_queue s)) in *. destruct (es_err es).
  { exfalso. destruct (sk_last _ Hok) as (h & Hh & Hi). unfold in_gap in Hi. rewrite Hgs in Hh.
    apply elem_of_app in Hh as [Hh|Hh]; [specialize (Hb h Hh)|specialize (Hfe h Hh)]; lia. }
  destruct Hfe as [mid Hef].
  destruct (end_found_positions _ _ _ _ end_ start _ _ _ Hso Hst Hge Hef) as (Hein & Hes & Hel & Hnone & Hmid).
  specialize (Hel ltac:(lia)). rewrite (cut_back_data data1 start) by lia. set (e := Z.min _ _) in *. cbn [mbind outcome_bind].
  assert (Hb' : forall h, h ∈ before -> bi_End h < start) by (intros h Hh; specialize (Hb h Hh); lia).
  pose proof (update_gaps_spec start end_ _ before gap after _ _ es Hso Hb' Hst ltac:(lia) Hef) as Eu.
  fold e in Eu. rewrite Eu, <- Hgs. cbn. case_if; [eexists _, _; split; [reflexivity|by right]|]. eexists _, _. split; [reflexivity|]. left. split; [done|].
  split.
  - apply (sorter_insert s _ start e end_); try done; try lia.
    + exists gap. split; [rewrite Hgs; set_solver|done].
    + by apply content_take.
    + unfold dataLen in *. rewrite length_take. lia.
    + by rewrite Hgs.
    + intros k Hk. apply (ef_queue _ _ _ _ _ _ _ Hef). intros h Hh ->. specialize (Hmid h Hh). lia.
    + apply (ef_sub _ _ _ _ _ _ _ Hef).
    + destruct (Z.lt_ge_cases end_ (bi_End (es_endGap es))) as [?|?].
      * left. split; [lia|]. exists (es_endGap es). split; [rewrite Hgs; set_solver|unfold in_gap; lia].
      * right. exists (es_endGap es). split; [rewrite Hgs; set_solver|lia].
  - split; [done|]. intros x. cbn. rewrite in_gaps_subtract by lia. split; intros [H1 H2]; (split; [done|]); [|lia].
    intros Hx. destruct (Z.lt_ge_cases x start); [by apply (Hcov x); [lia|]|lia].
Qed.

Lemma covers_received s start end_ :
  sorter_ok s -> (forall x, start <= x < end_ -> ~ in_gaps x (fs_gaps s)) -> covers s s start end_.
Proof. intros _ Hx. split; [done|]. intros x. specialize (Hx x). naive_solver. Qed.

(** [push] after the cut of what is queued at the offset: no chunk begins at
    [offset], unless it is where a chunk ends. *)
Definition fresh_offset (s : frameSorter) (offset : Z) : Prop :=
  fs_queue s !! offset = None \/ ~ in_gaps (offset - 1) (fs_gaps s).

Lemma push_gaps_ok s data offset :
  sorter_ok s -> 0 <= offset -> let end_ := offset + dataLen data in
  offset < end_ < MaxByteCount -> fresh_offset s offset -> P offset data ->
  exists s' e,
    match find_gap offset end_ [] (fs_gaps s) with
    | DuplicateData => mret (s, Some errDuplicateStreamData)
    | NoGap => mret (s, Some (ErrorString "StreamFrameSorter BUG: no gap found"))
    | FoundGap before gap after => push_at s data offset end_ before gap after
    end = Ret (s', e) /\
    ((e = None \/ e = Some errDuplicateStreamData) /\ sorter_ok s' /\ covers s s' offset end_ \/
     e = Some errTooManyGaps).
Proof.
  intros Hok Ho end_ Hend Hfresh HP. pose proof (sk_sorted _ Hok) as Hso.
  pose proof (find_gap_spec offset end_ (-1) [] (fs_gaps s) ltac:(lia) Hso) as Hfg.
  destruct (find_gap _ _ _ _) as [| |before gap after].
  - exfalso. destruct (sk_last _ Hok) as (h & Hh & Hi). unfold in_gap in Hi. specialize (Hfg h Hh). lia.
  - eexists _, _. split; [reflexivity|]. left. split; [by right|]. split; [done|]. by apply covers_received.
  - destruct Hfg as (sk & -> & Hgs & Hsk & Hge & Hle). cbn [app].
    assert (Hgap : gap ∈ fs_gaps s) by (rewrite Hgs; set_solver).
    assert (Hlt : offset < bi_End gap).
    { destruct (Z.eq_dec offset (bi_End gap)) as [E|]; [|lia]. exfalso.
      destruct (sk_ends _ Hok gap Hgap) as [?|Ht]; [lia|].
      destruct Hfresh as [Hq|Hf].
      - apply (gap_end_received _ _ _ Hso Hgap). apply (tiled_none _ _ _ Ht). by rewrite <- E.
      - apply Hf. exists gap. split; [done|]. pose proof (sorted_gaps_lower _ _ _ Hso Hgap). unfold in_gap. lia. }
    destruct (push_at_ok s data offset sk gap after Hok Hgs Hsk Hge Hlt Hend Ho HP) as (s' & e & E & Hr).
    exists s', e. split; [done|]. destruct Hr as [(-> & ? & ?)| ->]; [left|right]; auto.
Qed.

Lemma Push_ok s data offset :
  sorter_ok s -> 0 <= offset -> offset + dataLen data < MaxByteCount -> P offset data ->
  exists s' e, Push s data offset = Ret (s', e) /\
    (e = None /\ sorter_ok s' /\ covers s s' offset (offset + dataLen data) \/ e = Some errTooManyGaps).
Proof.
  intros Hok Ho Hmax HP. assert (MaxByteCount < 2 ^ 64) by done. assert (0 <= dataLen data) by (unfold dataLen; lia).
  assert (Hp : exists s' e, push s data offset = Ret (s', e) /\
    ((e = None \/ e = Some errDuplicateStreamData) /\ sorter_ok s' /\ covers s s' offset (offset + dataLen data) \/
     e = Some errTooManyGaps)).
  { unfold push. destruct (Z.eqb_spec (dataLen data) 0).
    { eexists _, _. split; [reflexivity|]. left. split; [by left|]. split; [done|]. apply covers_received; [done|lia]. }
    unfold cut_queued.
    match goal with |- context [match ?x with Some _ => _ | None => _ end] => destruct x as [old|] eqn:Eold end;
      cbn -[uint64].
    2: { rewrite uint64_id by go_range. apply push_gaps_ok; try done; [lia|by left]. }
    destruct (sk_chunks _ Hok offset old Eold) as (Hne & _ & Hrec). pose proof (dataLen_pos old Hne) as Hpos.
    destruct (Z.leb_spec (dataLen data) (dataLen old)) as [Hle|Hlt]; cbn -[uint64].
    { eexists _, _. split; [reflexivity|]. left. split; [by right|]. split; [done|]. apply covers_received; [done|].
      intros x Hx. apply Hrec. lia. }
    unfold slice_from. rewrite (proj2 (Z.ltb_ge _ _)) by (unfold dataLen in *; lia). cbn -[uint64].
    set (data1 := drop _ data). assert (Hlen1 : dataLen data1 = dataLen data - dataLen old).
    { unfold data1, dataLen in *. rewrite length_drop. lia. }
    rewrite !uint64_id by go_range. destruct (push_gaps_ok s data1 (offset + dataLen old) Hok) as (s' & e & E & Hr); [lia|lia| | |].
    { right. apply Hrec. lia. }
    { unfold data1, dataLen. rewrite Nat2Z.id. apply content_drop; [done|]. unfold dataLen in *. lia. }
    replace (offset + dataLen old + dataLen data1) with (offset + dataLen data) in * by lia.
    exists s', e. split; [done|]. destruct Hr as [(He & Hs' & Hrd & Hcov)| ->]; [left|by right].
    split; [done|]. split; [done|]. split; [done|]. intros x. rewrite Hcov. split; intros [H1 H2]; (split; [done|]); [|lia].
    intros Hx. destruct (Z.lt_ge_cases x (offset + dataLen old)); [by apply (Hrec x); [lia|]|lia]. }
  destruct Hp as (s' & e & E & Hr). unfold Push. rewrite E. cbn. eexists _, _. split; [reflexivity|].
  destruct Hr as [([-> | ->] & ? & ?)| ->]; [left|left|right]; done.
Qed.

(** What is tiled above a chunk that is taken from the queue stays tiled. *)
Lemma tiled_delete q m k x :
  chunks_ok P q m -> tiled q m x -> k < x -> tiled (delete k q) m x.
Proof.
  intros Hq Ht. induction Ht as [x Hx|x d Hd _ IH]; intros Hlt; [by apply tiled_end|].
  destruct (Hq x d Hd) as (Hne & _). pose proof (dataLen_pos d Hne).
  eapply tiled_chunk; [rewrite lookup_delete_ne by lia; exact Hd|]. apply IH. lia.
Qed.

Lemma Pop_ok s s' offset data :
  sorter_ok s -> Pop s = (s', (offset, data)) ->
  sorter_ok s' /\ fs_gaps s' = fs_gaps s /\ offset = fs_readPos s /\
  match data with
  | None => s' = s /\ in_gaps (fs_readPos s) (fs_gaps s)
  | Some d => d <> [] /\ P (fs_readPos s) d /\ fs_readPos s' = fs_readPos s + dataLen d /\
              ~ in_gaps (fs_readPos s) (fs_gaps s)
  end.
Proof.
  intros Hok. unfold Pop. destruct (fs_queue s !! fs_readPos s) as [d|] eqn:E; intros [= <- <- <-].
  2: { split_and!; try done. exact (tiled_none _ _ _ (sk_first _ Hok) E). }
  destruct Hok as [Hso Hla [Hr0 Hr] Hch Hbo Hfi Hen]. pose proof (Hbo _ _ E) as Hb.
  destruct (Hch _ _ E) as (Hne & Hseg & Hrec). pose proof (dataLen_pos d Hne).
  assert (MaxByteCount < 2 ^ 64) by done.
  assert (Hri : ~ in_gaps (fs_readPos s) (fs_gaps s)) by (apply Hrec; lia).
  rewrite !(uint64_id (fs_readPos s + dataLen d)) by go_range. cbn. split_and!; try done.
  assert (Hle : forall x, in_gaps x (fs_gaps s) -> fs_readPos s + dataLen d <= x).
  { intros x Hx. pose proof (Hr x Hx). destruct (Z.lt_ge_cases x (fs_readPos s + dataLen d)); [|done].
    by destruct (Hrec x ltac:(lia)). }
  split; cbn; try done.
  - split; [lia|done].
  - intros k d' [_ Hd]%lookup_delete_Some. by apply Hch.
  - intros k d' [_ Hd]%lookup_delete_Some. by apply Hbo.
  - apply tiled_delete; [done| |lia]. by apply tiled_next.
  - intros g Hg. destruct (Hen g Hg) as [?|Ht]; [by left|right]. apply tiled_delete; [done|done|].
    pose proof (sorted_gaps_lower _ _ _ Hso Hg). specialize (Hle (bi_Start g)).
    assert (in_gaps (bi_Start g) (fs_gaps s)) by (exists g; split; [done|unfold in_gap; lia]).
    specialize (Hle ltac:(done)). lia.
Qed.

Lemma Pop_size s s' o d : Pop s = (s', (o, Some d)) -> (size (fs_queue s') < size (fs_queue s))%nat.
Proof.
  unfold Pop. destruct (fs_queue s !! fs_readPos s) as [d'|] eqn:E; [|done]. intros [= <- _ _].
  change (size (delete (fs_readPos s) (fs_queue s)) < size (fs_queue s))%nat.
  rewrite map_size_delete_Some by (exists d'; exact E).
  assert (size (fs_queue s) <> 0%nat) by (intros Hz%map_size_empty_inv; rewrite Hz in E; done). lia.
Qed.

Lemma newFrameSorter_ok : sorter_ok newFrameSorter.
Proof.
  assert (Hin : forall x, in_gaps x (fs_gaps newFrameSorter) <-> 0 <= x < MaxByteCount).
  { intros x. unfold in_gaps. cbn. split; [by intros (g & ->%list_elem_of_singleton & ?)|].
    intros. eexists. split; [by apply list_elem_of_singleton|done]. }
  split; cbn; try done.
  - by apply Hin.
  - split; [done|]. intros x Hx%Hin. lia.
  - by apply tiled_end, Hin.
  - intros g ->%list_elem_of_singleton. by left.
Qed.

End Contents.

(** ** Receiving a stream *)

(** A sorter, the frames it was given (offset and length) and the data popped. *)
Definition sorter_state : Type := frameSorter * list (Z * nat) * bytes.
Definition in_frames (x : Z) (frames : list (Z * nat)) : Prop :=
  exists o n, (o, n) ∈ frames /\ o <= x < o + Z.of_nat n.

(** The frames carry parts of the stream [c], in any order and with any overlap. *)
Inductive sorter_step (c : Z -> byte) : sorter_state -> sorter_state -> Prop :=
| sorter_push s frames out o n s' :
    0 <= o -> o + Z.of_nat n < MaxByteCount -> Push s (segment c o n) o = Ret (s', None) ->
    sorter_step c (s, frames, out) (s', (o, n) :: frames, out)
| sorter_pop s frames out s' o d :
    Pop s = (s', (o, Some d)) -> sorter_step c (s, frames, out) (s', frames, out ++ d).

Record received_ok (c : Z -> byte) (st : sorter_state) : Prop := {
  rc_sorter : sorter_ok (bytes_of c) st.1.1;
  rc_gaps : forall x, in_gaps x (fs_gaps st.1.1) <-> 0 <= x < MaxByteCount /\ ~ in_frames x st.1.2;
  rc_frames : forall x, in_frames x st.1.2 -> 0 <= x < MaxByteCount - 1;
  rc_pos : fs_readPos st.1.1 = dataLen st.2;
  rc_out : st.2 = segment c 0 (length st.2)
}.

Lemma Push_segment c s n offset :
  sorter_ok (bytes_of c) s -> 0 <= offset -> offset + Z.of_nat n < MaxByteCount ->
  exists s' e, Push s (segment c offset n) offset = Ret (s', e) /\
    (e = None /\ sorter_ok (bytes_of c) s' /\ covers s s' offset (offset + Z.of_nat n) \/ e = Some errTooManyGaps).
Proof.
  intros Hok Ho Hmax. rewrite <- (dataLen_segment c offset n) in *. apply Push_ok; try done; [apply _|].
  apply bytes_of_segment.
Qed.

Lemma in_frames_cons x o n frames :
  in_frames x ((o, n) :: frames) <-> o <= x < o + Z.of_nat n \/ in_frames x frames.
Proof. unfold in_frames. setoid_rewrite elem_of_cons. naive_solver. Qed.

Lemma sorter_step_ok c st st' : received_ok c st -> sorter_step c st st' -> received_ok c st'.
Proof.
  intros [Hs Hg Hf Hp Hout] Hstep. destruct Hstep as [s frames out o n s' Ho Hmax Hpush|s frames out s' o d Hpop]; cbn in *.
  - destruct (Push_segment c s n o Hs Ho Hmax) as (s1 & e & E & Hr). rewrite Hpush in E. injection E as <- <-.
    destruct Hr as [(_ & Hs' & Hrd & Hcov)|?]; [|done]. split; cbn; try done.
    + intros x. rewrite Hcov, Hg, in_frames_cons. naive_solver.
    + intros x [Hx|Hx]%in_frames_cons; [lia|auto].
    + congruence.
  - destruct (Pop_ok (bytes_of c) s s' o (Some d) Hs Hpop) as (Hs' & Eg & -> & Hne & Hd & Hrd & _). split; cbn; try done.
    + by rewrite Eg.
    + rewrite Hrd, Hp. unfold dataLen. rewrite length_app. lia.
    + rewrite length_app, segment_app, <- Hout. f_equal. rewrite Hp in Hd. exact Hd.
Qed.

Lemma received_start c : received_ok c (newFrameSorter, [], []).
Proof.
  split; cbn; try done; [apply newFrameSorter_ok| |].
  - intros x. unfold in_gaps. split.
    + intros (g & ->%list_elem_of_singleton & ?). split; [done|]. intros (o & n & []%elem_of_nil & _).
    + intros [? _]. eexists. split; [by apply list_elem_of_singleton|done].
  - intros x (o & n & []%elem_of_nil & _).
Qed.

Lemma received_reachable c st : rtc (sorter_step c) (newFrameSorter, [], []) st -> received_ok c st.
Proof. intros Hr. pose proof (received_start c) as H0. induction Hr; [done|]. eauto using sorter_step_ok. Qed.

(** C20. Reassembly is correct and complete: whatever parts of a stream arrive, in
    whatever order, repeated or overlapping, the data popped is a prefix of the
    stream, and [Pop] has no data exactly when the next byte has not arrived; a
    frame is always taken, unless it leaves too many gaps, and no call panics. *)
Theorem reassembly c s frames out :
  rtc (sorter_step c) (newFrameSorter, [], []) (s, frames, out) ->
  out = segment c 0 (length out) /\
  ((Pop s).2.2 = None <-> ~ in_frames (dataLen out) frames) /\
  forall o n, 0 <= o -> o + Z.of_nat n < MaxByteCount ->
    exists s' e, Push s (segment c o n) o = Ret (s', e) /\ (e = None \/ e = Some errTooManyGaps).
Proof.
  intros Hr. destruct (received_reachable c _ Hr) as [Hs Hg Hf Hp Hout]; cbn in *. split; [done|]. split.
  - destruct (Pop s) as [s' [o data]] eqn:E. cbn. destruct (Pop_ok (bytes_of c) s s' o data Hs E) as (_ & _ & _ & Hd).
    rewrite <- Hp. destruct data as [d|].
    + destruct Hd as (_ & _ & _ & Hn). split; [done|]. intros Hno. destruct Hn. apply Hg. split; [|done].
      destruct (sk_read _ _ Hs) as [? Hle]. specialize (Hle _ (sk_last _ _ Hs)). lia.
    + destruct Hd as [_ Hi]. split; [|done]. intros _ Hin. by apply Hg in Hi as [_ ?].
  - intros o n Ho Hmax. destruct (Push_segment c s n o Hs Ho Hmax) as (s' & e & E & Hr'). exists s', e. split; [done|].
    naive_solver.
Qed.

Lemma no_more_received c st x :
  received_ok c st -> HasMoreData st.1.1 = false -> in_frames x st.1.2 -> x < fs_readPos st.1.1.
Proof.
  destruct st as [[s frames] out]. intros [Hs Hg Hf Hp Hout] Hno Hx; cbn in *.
  unfold HasMoreData in Hno. apply bool_decide_eq_false, dec_stable in Hno.
  assert (Ht : forall y, tiled (fs_queue s) (fun z => in_gaps z (fs_gaps s)) y -> in_gaps y (fs_gaps s)).
  { intros y Hy. apply (tiled_none _ _ _ Hy). rewrite Hno. apply lookup_empty. }
  destruct (Z.lt_ge_cases x (fs_readPos s)); [done|]. exfalso.
  destruct (Ht _ (sk_first _ _ Hs)) as (g & Hgi & Hi). unfold in_gap in Hi.
  assert (E : bi_End g = MaxByteCount).
  { destruct (sk_ends _ _ Hs g Hgi) as [?|Hti]; [done|]. destruct (gap_end_received _ _ _ (sk_sorted _ _ Hs) Hgi). auto. }
  assert (Hxg : in_gaps x (fs_gaps s)) by (exists g; split; [done|]; specialize (Hf x Hx); unfold in_gap; lia).
  by apply Hg in Hxg as [_ ?].
Qed.

(** A sorter that reports no more data has delivered everything it received. *)
Theorem no_more_data_sound c s frames out :
  rtc (sorter_step c) (newFrameSorter, [], []) (s, frames, out) ->
  HasMoreData s = false -> forall x, in_frames x frames -> x < dataLen out.
Proof.
  intros Hr Hno x Hx. pose proof (received_reachable c _ Hr) as Hok.
  pose proof (no_more_received c _ x Hok Hno Hx). pose proof (rc_pos _ _ Hok). cbn in *. lia.
Qed.

(** ** Arbitrary input *)

Inductive any_step : frameSorter -> frameSorter -> Prop :=
| any_push s data o s' :
    0 <= o -> o + dataLen data < MaxByteCount -> Push s data o = Ret (s', None) -> any_step s s'
| any_pop s : any_step s (Pop s).1.

(** No input makes a sorter fail: whatever frames a peer sends, also such
    that contradict each other, every further frame is taken or rejected for
    leaving too many gaps; the slicing never panics and the internal errors of
    the sorter are not reached. *)
Theorem sorter_total s data o :
  rtc any_step newFrameSorter s -> 0 <= o -> o + dataLen data < MaxByteCount ->
  exists s' e, Push s data o = Ret (s', e) /\ (e = None \/ e = Some errTooManyGaps).
Proof.
  intros Hr Ho Hmax. assert (Hok : sorter_ok any_bytes s).
  { assert (H0 : sorter_ok any_bytes newFrameSorter) by apply newFrameSorter_ok.
    induction Hr as [|s1 s2 s3 Hs Hr IH]; [done|]. apply IH. destruct Hs as [s1 d' o' s2 Ho' Hm' E|s1].
    - destruct (Push_ok any_bytes s1 d' o' H0 Ho' Hm' I) as (s'' & e & E' & He).
      rewrite E in E'. injection E' as <- <-. naive_solver.
    - destruct (Pop s1) as [s' [o' d']] eqn:E. cbn. by destruct (Pop_ok any_bytes s1 s' o' d' H0 E). }
  destruct (Push_ok any_bytes s data o Hok Ho Hmax I) as (s' & e & E & He). exists s', e. split; [done|]. naive_solver.
Qed.

(** ** Examples *)

Definition demo_content (x : Z) : byte := x mod 256.
Definition push_or (s : frameSorter) (o : Z) (n : nat) : frameSorter :=
  match Push s (segment demo_content o n) o with Ret (s', _) => s' | _ => s end.

(** Two frames behind a gap, then one that covers them and more, popped. *)
Definition demo_queued : frameSorter := push_or (push_or newFrameSorter 2 1) 3 1.
Definition demo_covered : frameSorter := push_or demo_queued 0 5.
Definition demo_popped : frameSorter := (Pop demo_covered).1.

Lemma demo_run :
  rtc (sorter_step demo_content) (newFrameSorter, [], [])
    (demo_popped, [(0, 5%nat); (3, 1%nat); (2, 1%nat)], segment demo_content 0 5).
Proof.
  eapply rtc_l; [apply (sorter_push _ _ _ _ 2 1 (push_or newFrameSorter 2 1)); [done|done|vm_compute; reflexivity]|].
  eapply rtc_l; [apply (sorter_push _ _ _ _ 3 1 demo_queued); [done|done|vm_compute; reflexivity]|].
  eapply rtc_l; [apply (sorter_push _ _ _ _ 0 5 demo_covered); [done|done|vm_compute; reflexivity]|].
  eapply rtc_l; [eapply (sorter_pop _ _ _ _ demo_popped); vm_compute; reflexivity|]. apply rtc_refl.
Qed.

Lemma reassembly_witness :
  (Pop demo_popped).2.2 = None /\
  ((Pop demo_popped).2.2 = None <-> ~ in_frames (dataLen (segment demo_content 0 5)) [(0, 5%nat); (3, 1%nat); (2, 1%nat)]).
Proof.
  split; [vm_compute; reflexivity|].
  exact (proj1 (proj2 (reassembly demo_content demo_popped _ _ demo_run))).
Defined.

Definition demo_single : frameSorter := push_or newFrameSorter 0 2.

Lemma no_more_data_sound_witness :
  HasMoreData (Pop demo_single).1 = false /\ forall x, in_frames x [(0, 2%nat)] -> x < 2.
Proof.
  assert (Hr : rtc (sorter_step demo_content) (newFrameSorter, [], [])
    ((Pop demo_single).1, [(0, 2%nat)], segment demo_content 0 2)).
  { eapply rtc_l; [apply (sorter_push _ _ _ _ 0 2 demo_single); [done|done|vm_compute; reflexivity]|].
    eapply rtc_l; [eapply (sorter_pop _ _ _ _ (Pop demo_single).1); vm_compute; reflexivity|]. apply rtc_refl. }
  split; [vm_compute; reflexivity|].
  exact (no_more_data_sound demo_content _ _ _ Hr ltac:(vm_compute; reflexivity)).
Defined.

Lemma sorter_total_witness :
  exists s' e, Push (push_or newFrameSorter 2 1) [7; 7; 7; 7] 0 = Ret (s', e) /\ (e = None \/ e = Some errTooManyGaps).
Proof.
  refine (sorter_total (push_or newFrameSorter 2 1) [7; 7; 7; 7] 0 _ _ _).
  - eapply rtc_l; [apply (any_push _ [2] 2 (push_or newFrameSorter 2 1)); [done|done|vm_compute; reflexivity]|]. apply rtc_refl.
  - done.
  - done.
Defined.
