(* ===== verification/CryptoStream.v ===== *)
(** * CRYPTO streams (crypto_stream.go, crypto_stream_manager.go)

    The streams that carry the handshake: reassembly of CRYPTO frames into TLS
    messages on one side, cutting of the written bytes into frames on the other.
    The handler of the messages (the TLS stack) is a parameter of the manager. *)

From S2P Require Import Prelude VarInt Protocol Frames FrameSorter.

(** ** crypto_stream.go *)

Definition MaxCryptoStreamOffset : ByteCount := 16 * 2 ^ 10.
Definition MaxPostHandshakeCryptoFrameSize : ByteCount := 1000.

Record cryptoStreamImpl := mkCryptoStream {
  cs_queue : frameSorter;
  cs_msgBuf : bytes;
  cs_highestOffset : ByteCount;
  cs_finished : bool;
  cs_writeOffset : ByteCount;
  cs_writeBuf : bytes
}.

#[global] Instance cryptoStream_eta : Eta cryptoStreamImpl := fun s =>
  mkCryptoStream (cs_queue s) (cs_msgBuf s) (cs_highestOffset s) (cs_finished s) (cs_writeOffset s)
    (cs_writeBuf s).

Definition newCryptoStream : cryptoStreamImpl := mkCryptoStream newFrameSorter [] 0 false 0 [].

(** The loop of [HandleCryptoFrame]: every round takes a chunk from the queue. *)
Fixpoint pop_all (fuel : nat) (q : frameSorter) (buf : bytes) : outcome (frameSorter * bytes) :=
  match fuel with
  | O => Panic "out of fuel"
  | S fuel =>
      match Pop q with
      | (q, (_, None)) => mret (q, buf)
      | (q, (_, Some data)) => pop_all fuel q (buf ++ data)
      end
  end.

Definition HandleCryptoFrame (s : cryptoStreamImpl) (f : CryptoFrame) :
    outcome (cryptoStreamImpl * option goerr) :=
  let highestOffset := uint64 (cf_Offset f + dataLen (cf_Data f)) in
  if MaxCryptoStreamOffset <? highestOffset then
    mret (s, Some (Errorf "received invalid offset %d on crypto stream, maximum allowed %d"
                     [highestOffset; MaxCryptoStreamOffset]))
  else if cs_finished s then
    if cs_highestOffset s <? highestOffset then
      (* reject crypto data received after this stream was already finished *)
      mret (s, Some (ErrorString "received crypto data after change of encryption level"))
    else
      (* ignore data with a smaller offset than the highest received *)
      mret (s, None)
  else
  let s := s <| cs_highestOffset := MaxByteCount2 (cs_highestOffset s) highestOffset |> in
  '(q, err) ← Push (cs_queue s) (cf_Data f) (cf_Offset f);
  let s := s <| cs_queue := q |> in
  match err with
  | Some err => mret (s, Some err)
  | None =>
      '(q, buf) ← pop_all (S (size (fs_queue q))) q (cs_msgBuf s);
      mret (s <| cs_queue := q |> <| cs_msgBuf := buf |>, None)
  end.

(** The length of the message at the beginning of the buffer. *)
Definition msgLen (buf : bytes) : Z :=
  4 + Z.shiftl (nth 1 buf 0) 16 + Z.shiftl (nth 2 buf 0) 8 + nth 3 buf 0.

(** [GetCryptoData]: [None] for nil. *)
Definition GetCryptoData (s : cryptoStreamImpl) : cryptoStreamImpl * option bytes :=
  if dataLen (cs_msgBuf s) <? 4 then (s, None)
  else if dataLen (cs_msgBuf s) <? msgLen (cs_msgBuf s) then (s, None)
  else let n := Z.to_nat (msgLen (cs_msgBuf s)) in
       (s <| cs_msgBuf := drop n (cs_msgBuf s) |>, Some (take n (cs_msgBuf s))).

Definition Finish (s : cryptoStreamImpl) : cryptoStreamImpl * option goerr :=
  if HasMoreData (cs_queue s) then
    (s, Some (ErrorString "encryption level changed, but crypto stream has more data to read"))
  else (s <| cs_finished := true |>, None).

Definition crypto_Write (s : cryptoStreamImpl) (p : bytes) : cryptoStreamImpl :=
  s <| cs_writeBuf := cs_writeBuf s ++ p |>.

Definition HasData (s : cryptoStreamImpl) : bool := 0 <? dataLen (cs_writeBuf s).

Definition PopCryptoFrame (s : cryptoStreamImpl) (maxLen : ByteCount) : outcome (cryptoStreamImpl * CryptoFrame) :=
  max ← CryptoMaxDataLen (mkCryptoFrame (cs_writeOffset s) []) maxLen;
  let n := MinByteCount max (dataLen (cs_writeBuf s)) in
  mret (s <| cs_writeBuf := drop (Z.to_nat n) (cs_writeBuf s) |>
          <| cs_writeOffset := uint64 (cs_writeOffset s + n) |>,
        mkCryptoFrame (cs_writeOffset s) (take (Z.to_nat n) (cs_writeBuf s))).

(** [postHandshakeCryptoStream.Write]: the frames it queues, in order. *)
Fixpoint queue_all (fuel : nat) (s : cryptoStreamImpl) : outcome (cryptoStreamImpl * list CryptoFrame) :=
  match fuel with
  | O => Panic "out of fuel"
  | S fuel =>
      if HasData s then
        '(s, f) ← PopCryptoFrame s MaxPostHandshakeCryptoFrameSize;
        '(s, fs) ← queue_all fuel s;
        mret (s, f :: fs)
      else mret (s, [])
  end.

Definition postHandshake_Write (s : cryptoStreamImpl) (p : bytes) : outcome (cryptoStreamImpl * list CryptoFrame) :=
  let s := crypto_Write s p in
  queue_all (S (length (cs_writeBuf s))) s.

(** ** crypto_stream_manager.go *)

Section Manager.
(** [cryptoDataHandler]: its state, and [HandleMessage]. *)
Context {St : Type} (HandleMessage : St -> bytes -> EncryptionLevel -> St * bool).

Record cryptoStreamManager := mkManager {
  cm_handler : St;
  cm_initial : cryptoStreamImpl;
  cm_handshake : cryptoStreamImpl;
  cm_oneRTT : cryptoStreamImpl
}.

(** The loop of the manager over the messages of a stream. *)
Fixpoint handle_messages (fuel : nat) (h : St) (str : cryptoStreamImpl) (lvl : EncryptionLevel) :
    outcome (St * cryptoStreamImpl * bool * option goerr) :=
  match fuel with
  | O => Panic "out of fuel"
  | S fuel =>
      match GetCryptoData str with
      | (str, None) => mret (h, str, false, None)
      | (str, Some data) =>
          let '(h, encLevelFinished) := HandleMessage h data lvl in
          if encLevelFinished then let '(str, err) := Finish str in mret (h, str, true, err)
          else handle_messages fuel h str lvl
      end
  end.

Definition handle_level (h : St) (str : cryptoStreamImpl) (frame : CryptoFrame) (lvl : EncryptionLevel) :
    outcome (St * cryptoStreamImpl * bool * option goerr) :=
  '(str, err) ← HandleCryptoFrame str frame;
  match err with
  | Some err => mret (h, str, false, Some err)
  | None => handle_messages (S (length (cs_msgBuf str))) h str lvl
  end.

Definition manager_HandleCryptoFrame (m : cryptoStreamManager) (frame : CryptoFrame) (lvl : EncryptionLevel) :
    outcome (cryptoStreamManager * bool * option goerr) :=
  match lvl with
  | EncryptionInitial =>
      '(h, str, changed, err) ← handle_level (cm_handler m) (cm_initial m) frame lvl;
      mret (mkManager h str (cm_handshake m) (cm_oneRTT m), changed, err)
  | EncryptionHandshake =>
      '(h, str, changed, err) ← handle_level (cm_handler m) (cm_handshake m) frame lvl;
      mret (mkManager h (cm_initial m) str (cm_oneRTT m), changed, err)
  | Encryption1RTT =>
      '(h, str, changed, err) ← handle_level (cm_handler m) (cm_oneRTT m) frame lvl;
      mret (mkManager h (cm_initial m) (cm_handshake m) str, changed, err)
  | _ => mret (m, false, Some (ErrorString "received CRYPTO frame with unexpected encryption level: %s"))
  end.

End Manager.

(** ** Receiving *)

Lemma pop_all_ok c fuel q frames pre buf :
  received_ok c (q, frames, pre ++ buf) -> (size (fs_queue q) < fuel)%nat ->
  exists q' buf', pop_all fuel q buf = Ret (q', buf') /\ received_ok c (q', frames, pre ++ buf') /\
    in_gaps (fs_readPos q') (fs_gaps q').
Proof.
  revert q buf. induction fuel as [|fuel IH]; intros q buf Hr Hf; [lia|]. cbn.
  destruct (Pop q) as [q1 [o [d|]]] eqn:E.
  - assert (Hr1 : received_ok c (q1, frames, pre ++ (buf ++ d))).
    { rewrite app_assoc. eapply sorter_step_ok; [exact Hr|]. by eapply sorter_pop. }
    apply (IH q1 (buf ++ d) Hr1). pose proof (Pop_size _ _ _ _ E). lia.
  - exists q, buf. destruct (Pop_ok (bytes_of c) q q1 o None (rc_sorter _ _ Hr) E) as (_ & _ & _ & -> & Hi). done.
Qed.

(** A stream, the frames it was given (offset and length) and the messages taken
    from it. *)
Definition crypto_state : Type := cryptoStreamImpl * list (Z * nat) * list bytes.

(** The frames carry parts of the stream [c]. *)
Inductive crypto_step (c : Z -> byte) : crypto_state -> crypto_state -> Prop :=
| crypto_handle s frames msgs o n s' :
    0 <= o < 2 ^ 62 -> (0 < n)%nat -> Z.of_nat n < 2 ^ 62 ->
    HandleCryptoFrame s (mkCryptoFrame o (segment c o n)) = Ret (s', None) ->
    crypto_step c (s, frames, msgs) (s', (o, n) :: frames, msgs)
| crypto_get s frames msgs s' msg :
    GetCryptoData s = (s', Some msg) -> crypto_step c (s, frames, msgs) (s', frames, msgs ++ [msg])
| crypto_finish s frames msgs s' :
    Finish s = (s', None) -> crypto_step c (s, frames, msgs) (s', frames, msgs).

(** A complete message: its header gives its length. *)
Definition is_message (m : bytes) : Prop := (4 <= length m)%nat /\ dataLen m = msgLen m.

(** What has been received so far is delivered, and after [Finish] there is
    nothing left below the highest offset. *)
Record crypto_ok (c : Z -> byte) (st : crypto_state) : Prop := {
  co_received : received_ok c (cs_queue st.1.1, st.1.2, concat st.2 ++ cs_msgBuf st.1.1);
  co_drained : in_gaps (fs_readPos (cs_queue st.1.1)) (fs_gaps (cs_queue st.1.1));
  co_highest : 0 <= cs_highestOffset st.1.1 /\
    (cs_highestOffset st.1.1 = 0 \/ in_frames (cs_highestOffset st.1.1 - 1) st.1.2);
  co_finished : cs_finished st.1.1 = true -> cs_highestOffset st.1.1 <= fs_readPos (cs_queue st.1.1);
  co_messages : Forall is_message st.2
}.

Lemma HandleCryptoFrame_ok c s frames msgs o n s' :
  crypto_ok c (s, frames, msgs) -> 0 <= o < 2 ^ 62 -> (0 < n)%nat -> Z.of_nat n < 2 ^ 62 ->
  HandleCryptoFrame s (mkCryptoFrame o (segment c o n)) = Ret (s', None) ->
  crypto_ok c (s', (o, n) :: frames, msgs).
Proof.
  intros [Hr Hd [Hh0 Hh] Hf Hm] Ho Hn Hn2. cbn in *. unfold HandleCryptoFrame. cbn -[Push pop_all MaxCryptoStreamOffset uint64].
  rewrite dataLen_segment, uint64_id by go_range.
  destruct (Z.ltb_spec MaxCryptoStreamOffset (o + Z.of_nat n)); [done|].
  assert (MaxCryptoStreamOffset < MaxByteCount) by done.
  destruct (cs_finished s) eqn:Ef.
  - destruct (Z.ltb_spec (cs_highestOffset s) (o + Z.of_nat n)); [done|]. intros [= <-].
    specialize (Hf eq_refl). destruct Hr as [Hs Hg Hfr Hp Hout]; cbn in *. split; cbn; try done.
    + split; cbn; try done.
      * intros x. rewrite in_frames_cons. split; [|intros (? & ?); apply Hg; naive_solver].
        intros Hx. destruct (sk_read _ _ Hs) as [_ Hle]. specialize (Hle x Hx). apply Hg in Hx as [? ?]. split; [done|].
        intros [?|?]; [lia|done].
      * intros x [Hx|Hx]%in_frames_cons; [lia|auto].
    + split; [done|]. rewrite in_frames_cons. naive_solver.
  - destruct (Push_segment c (cs_queue s) n o (rc_sorter _ _ Hr) ltac:(lia) ltac:(lia)) as (q1 & e & E & He).
    rewrite E. cbn -[pop_all]. destruct e as [e|]; [intros [=]|].
    assert (Hr1 : received_ok c (q1, (o, n) :: frames, concat msgs ++ cs_msgBuf s)).
    { eapply sorter_step_ok; [exact Hr|]. by apply sorter_push; [lia|lia|]. }
    destruct (pop_all_ok c (S (size (fs_queue q1))) q1 ((o, n) :: frames) (concat msgs) (cs_msgBuf s) Hr1 ltac:(lia))
      as (q2 & buf & E2 & Hr2 & Hd2).
    rewrite E2. cbn. intros [= <-]. split; cbn; try done.
    + unfold MaxByteCount2. case_if; zbool; (split; [lia|]); rewrite in_frames_cons; [right; left; lia|naive_solver].
    + by rewrite Ef.
Qed.

(** The reference: the complete messages at the beginning of a string of bytes. *)
Fixpoint messages (fuel : nat) (buf : bytes) : list bytes :=
  match fuel with
  | O => []
  | S fuel =>
      if (dataLen buf <? 4) || (dataLen buf <? msgLen buf) then []
      else take (Z.to_nat (msgLen buf)) buf :: messages fuel (drop (Z.to_nat (msgLen buf)) buf)
  end.

Lemma msgLen_app m r : (4 <= length m)%nat -> msgLen (m ++ r) = msgLen m.
Proof. intros. unfold msgLen. by rewrite !app_nth1 by lia. Qed.

Lemma messages_cons fuel m r : is_message m -> messages (S fuel) (m ++ r) = m :: messages fuel r.
Proof.
  intros [Hl Hm]. cbn. rewrite msgLen_app, <- Hm by done. unfold dataLen. rewrite length_app.
  rewrite !(proj2 (Z.ltb_ge _ _)) by lia. cbn. by rewrite Nat2Z.id, take_app_length, drop_app_length.
Qed.

Lemma messages_concat fuel msgs buf :
  Forall is_message msgs -> messages (length msgs + fuel) (concat msgs ++ buf) = msgs ++ messages fuel buf.
Proof.
  induction 1 as [|m msgs Hm _ IH]; [done|]. cbn [length concat Nat.add].
  rewrite <- app_assoc, messages_cons, IH by done. done.
Qed.

Lemma concat_length msgs : Forall is_message msgs -> (length msgs <= length (concat msgs))%nat.
Proof. induction 1 as [|m msgs [? _] _ IH]; [done|]. cbn. rewrite length_app. lia. Qed.

Section Receiving.
Context (c : Z -> byte) (Hc : forall x, is_uint8 (c x)).

Lemma buffer_bytes st : crypto_ok c st -> bytes_ok (cs_msgBuf st.1.1).
Proof.
  intros [[_ _ _ _ Hout] _ _ _ _]; cbn in *. assert (Hall : bytes_ok (concat st.2 ++ cs_msgBuf st.1.1)).
  { rewrite Hout. unfold bytes_ok, segment. apply Forall_map, Forall_forall. auto. }
  by apply Forall_app in Hall as [_ ?].
Qed.

Lemma msgLen_ge buf : bytes_ok buf -> 4 <= msgLen buf.
Proof.
  intros Hb. assert (Hn : forall i, 0 <= nth i buf 0).
  { intros i. destruct (Nat.lt_ge_cases i (length buf)); [|by rewrite nth_overflow].
    unfold bytes_ok in Hb. rewrite Forall_forall in Hb. apply (Hb _), list_elem_of_In, nth_In. done. }
  unfold msgLen. rewrite !shiftl_mul by lia. pose proof (Hn 1%nat). pose proof (Hn 2%nat). pose proof (Hn 3%nat). lia.
Qed.

Lemma GetCryptoData_message s s' msg :
  bytes_ok (cs_msgBuf s) -> GetCryptoData s = (s', Some msg) ->
  is_message msg /\ cs_msgBuf s = msg ++ cs_msgBuf s' /\ s' = s <| cs_msgBuf := cs_msgBuf s' |>.
Proof.
  intros Hb. unfold GetCryptoData. pose proof (msgLen_ge _ Hb).
  case_if; [done|]. case_if; [done|]. intros [= <- <-]. cbn. zbool. unfold dataLen in *.
  set (n := Z.to_nat (msgLen (cs_msgBuf s))) in *.
  assert (Hl : length (take n (cs_msgBuf s)) = n) by (rewrite length_take; lia).
  split; [|by rewrite take_drop]. split; [lia|]. unfold dataLen. rewrite Hl.
  pose proof (msgLen_app (take n (cs_msgBuf s)) (drop n (cs_msgBuf s)) ltac:(lia)) as E. rewrite take_drop in E. lia.
Qed.

Lemma crypto_step_ok st st' : crypto_ok c st -> crypto_step c st st' -> crypto_ok c st'.
Proof.
  intros Hok Hs. destruct Hs as [s frames msgs o n s' Ho Hn Hn2 He|s frames msgs s' msg He|s frames msgs s' He].
  - by eapply HandleCryptoFrame_ok.
  - destruct (GetCryptoData_message s s' msg (buffer_bytes _ Hok) He) as (Hm & Eb & Es).
    destruct Hok as [Hr Hd Hh Hf Hms]; cbn in *. rewrite Es. split; cbn; try done.
    + rewrite concat_app. cbn. rewrite app_nil_r, <- app_assoc, <- Eb. exact Hr.
    + apply Forall_app. split; [done|]. by constructor.
  - unfold Finish in He. destruct (HasMoreData (cs_queue s)) eqn:Eh; [done|]. injection He as <-.
    destruct Hok as [Hr Hd [Hh0 Hh] Hf Hms]; cbn in *. split; cbn; try done.
    intros _. destruct Hh as [->|Hh]; [apply (sk_read _ _ (rc_sorter _ _ Hr))|].
    pose proof (no_more_received c _ _ Hr Eh Hh) as Hlt. cbn in Hlt. lia.
Qed.

Lemma crypto_reachable st : rtc (crypto_step c) (newCryptoStream, [], []) st -> crypto_ok c st.
Proof.
  intros Hr. assert (H0 : crypto_ok c (newCryptoStream, [], [])).
  { split; cbn; try done; [apply received_start| |by split; [|left]].
    eexists. split; [by apply list_elem_of_singleton|done]. }
  induction Hr; [done|]. eauto using crypto_step_ok.
Qed.

(** C39. However the CRYPTO frames of a stream arrive (out of order, repeated,
    overlapping, after the level is finished), the messages taken from it and
    what is left in its buffer are a prefix of the stream, up to the first byte
    that has not arrived; and when no message is left, the messages taken are
    exactly the complete TLS messages of that prefix. *)
Theorem crypto_messages s frames msgs :
  rtc (crypto_step c) (newCryptoStream, [], []) (s, frames, msgs) ->
  let out := concat msgs ++ cs_msgBuf s in
  out = segment c 0 (length out) /\ ~ in_frames (dataLen out) frames /\
  ((GetCryptoData s).2 = None -> msgs = messages (length out) out).
Proof.
  intros Hr out. destruct (crypto_reachable _ Hr) as [[Hs Hg _ Hp Hout] Hd _ _ Hm]; cbn in *.
  split; [exact Hout|]. split; [intros Hin; apply Hg in Hd as [_ Hd]; apply Hd; rewrite Hp; exact Hin|].
  intros Hn. pose proof (concat_length msgs Hm). unfold out. rewrite length_app.
  replace (length (concat msgs) + length (cs_msgBuf s))%nat with
    (length msgs + (length (concat msgs) - length msgs + length (cs_msgBuf s)))%nat by lia.
  rewrite messages_concat by done. set (fuel := (_ + _)%nat). revert Hn. unfold GetCryptoData.
  destruct fuel; [by rewrite app_nil_r|]. cbn.
  case_if; [by rewrite app_nil_r|]. case_if; [by rewrite app_nil_r|]. done.
Qed.

End Receiving.

(** ** Sending *)

(** A stream, the frames popped from it with the size each had to fit in, and
    the bytes written to it. *)
Definition crypto_sender : Type := cryptoStreamImpl * list (CryptoFrame * ByteCount) * bytes.

Inductive crypto_send_step : crypto_sender -> crypto_sender -> Prop :=
| crypto_write s frames w p :
    dataLen (w ++ p) <= MaxByteCount ->
    crypto_send_step (s, frames, w) (crypto_Write s p, frames, w ++ p)
| crypto_pop s frames w maxLen s' f :
    0 <= maxLen < 2 ^ 14 -> PopCryptoFrame s maxLen = Ret (s', f) ->
    crypto_send_step (s, frames, w) (s', frames ++ [(f, maxLen)], w).

Definition sent_data (frames : list (CryptoFrame * ByteCount)) : bytes :=
  concat (map (fun fm => cf_Data fm.1) frames).
Arguments sent_data : simpl never.

(** The frame is the part of [w] at its offset, and fits. *)
Definition part_of (w : bytes) (fm : CryptoFrame * ByteCount) : Prop :=
  (exists pre post, w = pre ++ cf_Data fm.1 ++ post /\ cf_Offset fm.1 = dataLen pre) /\
  (cf_Data fm.1 <> [] -> exists len, lengthCryptoFrame fm.1 = Ret len /\ len <= fm.2).

Record sender_ok (st : crypto_sender) : Prop := {
  sn_written : st.2 = sent_data st.1.2 ++ cs_writeBuf st.1.1;
  sn_offset : cs_writeOffset st.1.1 = dataLen (sent_data st.1.2);
  sn_bound : dataLen st.2 <= MaxByteCount;
  sn_parts : Forall (part_of st.2) st.1.2;
  sn_places : forall fm pre post, st.1.2 = pre ++ fm :: post -> cf_Offset fm.1 = dataLen (sent_data pre)
}.

Lemma CryptoMaxDataLen_spec o maxSize :
  0 <= o <= MaxByteCount -> 0 <= maxSize < 2 ^ 14 ->
  exists n, CryptoMaxDataLen (mkCryptoFrame o []) maxSize = Ret n /\ 0 <= n <= maxSize /\ (11 <= maxSize -> 0 < n) /\
    forall d, d <> [] -> dataLen d <= n ->
      exists len, lengthCryptoFrame (mkCryptoFrame o d) = Ret len /\ len <= maxSize.
Proof.
  intros Ho Hm. unfold CryptoMaxDataLen, lengthCryptoFrame, dataLen. cbn -[VarIntLen].
  destruct (VarIntLen_cases o) as (lo & -> & Co); [varint|]. cbn -[VarIntLen].
  destruct (Z.ltb_spec maxSize (1 + lo + 1)).
  { exists 0. split_and!; try (done || lia). intros [|b d] Hd Hn; [done|cbn in Hn; lia]. }
  destruct (VarIntLen_cases (maxSize - (1 + lo + 1))) as (lm & -> & Cm); [varint|]. cbn -[VarIntLen].
  eexists. split; [reflexivity|]. split; [case_if; zbool; lia|]. split; [case_if; zbool; lia|].
  intros d Hd Hn. destruct (VarIntLen_cases (Z.of_nat (length d))) as (l & -> & Cl).
  { split; [lia|]. unfold maxVarInt8. case_if_in Hn; zbool; lia. }
  cbn. eexists. split; [reflexivity|]. case_if_in Hn; zbool; lia.
Qed.

(** A popped frame is the next part of what was written; it is not empty when
    there is data and room for it. *)
Lemma PopCryptoFrame_ok s maxLen :
  0 <= cs_writeOffset s -> cs_writeOffset s + dataLen (cs_writeBuf s) <= MaxByteCount -> 0 <= maxLen < 2 ^ 14 ->
  exists s' f, PopCryptoFrame s maxLen = Ret (s', f) /\
    cs_writeBuf s = cf_Data f ++ cs_writeBuf s' /\ cf_Offset f = cs_writeOffset s /\
    cs_writeOffset s' = cs_writeOffset s + dataLen (cf_Data f) /\
    (11 <= maxLen -> HasData s = true -> cf_Data f <> []) /\
    (cf_Data f <> [] -> exists len, lengthCryptoFrame f = Ret len /\ len <= maxLen).
Proof.
  intros Ho Hb Hm. unfold PopCryptoFrame, HasData.
  destruct (CryptoMaxDataLen_spec (cs_writeOffset s) maxLen ltac:(unfold dataLen in *; lia) Hm) as (max & -> & Hmax & Hpos & Hfit).
  cbn -[uint64]. set (n := MinByteCount max (dataLen (cs_writeBuf s))).
  assert (Hn : 0 <= n <= max /\ n <= dataLen (cs_writeBuf s) /\ (0 < max -> 0 < dataLen (cs_writeBuf s) -> 0 < n)).
  { unfold n, MinByteCount. case_if; zbool; unfold dataLen in *; lia. }
  assert (Hlen : dataLen (take (Z.to_nat n) (cs_writeBuf s)) = n).
  { unfold dataLen in *. rewrite length_take. lia. }
  clearbody n. eexists _, _. split; [reflexivity|]. cbn -[uint64]. assert (MaxByteCount < 2 ^ 64) by done.
  rewrite uint64_id, Hlen by go_range. split_and!; try done.
  - by rewrite take_drop.
  - intros H11 Hd E. zbool. rewrite E in Hlen. change (dataLen []) with 0 in Hlen.
    destruct Hn as (_ & _ & Hn). specialize (Hn (Hpos H11) Hd). lia.
  - intros Hne. apply Hfit; [done|lia].
Qed.

Lemma crypto_send_step_ok st st' : sender_ok st -> crypto_send_step st st' -> sender_ok st'.
Proof.
  intros Hok Hs. destruct Hs as [s frames w p Hmax|s frames w maxLen s' f Hm He]; destruct Hok as [Hw Ho Hb Hp Hpl]; cbn in *.
  - split; cbn; try done; [by rewrite Hw, app_assoc|]. eapply Forall_impl; [exact Hp|].
    intros fm [(pre & post & E & Eo) Hl]. split; [|done]. exists pre, (post ++ p). split; [by rewrite E, <- !app_assoc|done].
  - destruct (PopCryptoFrame_ok s maxLen) as (s1 & f1 & E & Eb & Eo & Ew & _ & Hfit); [unfold dataLen in *; lia| |done|].
    { rewrite Ho. rewrite Hw in Hb. unfold dataLen in *. rewrite length_app in Hb. lia. }
    rewrite E in He. injection He as <- <-.
    assert (Es : sent_data (frames ++ [(f1, maxLen)]) = sent_data frames ++ cf_Data f1).
    { unfold sent_data. rewrite map_app, concat_app. cbn. by rewrite app_nil_r. }
    split; cbn; try done.
    + by rewrite Es, <- app_assoc, <- Eb.
    + rewrite Es, Ew, Ho. unfold dataLen. rewrite length_app. lia.
    + apply Forall_app. split; [done|]. constructor; [|constructor]. split; [|done].
      exists (sent_data frames), (cs_writeBuf s1). cbn. by rewrite <- Eb, Eo.
    + intros fm pre post Ef. destruct post as [|g post _] using rev_ind.
      * apply app_inj_tail in Ef as [-> <-]. cbn. by rewrite Eo.
      * rewrite app_comm_cons, app_assoc in Ef. apply app_inj_tail in Ef as [-> _]. by eapply Hpl.
Qed.

Lemma sender_reachable st : rtc crypto_send_step (newCryptoStream, [], []) st -> sender_ok st.
Proof.
  intros Hr. assert (H0 : sender_ok (newCryptoStream, [], [])).
  { split; cbn; try done. intros fm pre post E. by destruct pre. }
  induction Hr; [done|]. eauto using crypto_send_step_ok.
Qed.

(** The stream whose first bytes are [w]. *)
Definition stream_of (w : bytes) (x : Z) : byte := nth (Z.to_nat x) w 0.

Lemma segment_stream_of pre d post :
  segment (stream_of (pre ++ d ++ post)) (dataLen pre) (length d) = d.
Proof.
  apply list_eq. intros i. unfold segment, dataLen. rewrite list_lookup_fmap.
  destruct (Nat.lt_ge_cases i (length d)) as [Hi|Hi].
  - rewrite lookup_seqZ_lt by lia. cbn. unfold stream_of.
    replace (Z.to_nat (Z.of_nat (length pre) + Z.of_nat i)) with (length pre + i)%nat by lia.
    rewrite app_nth2_plus, app_nth1 by done. destruct (lookup_lt_is_Some_2 d i Hi) as [x Hx].
    by rewrite nth_lookup, Hx.
  - rewrite lookup_seqZ_ge by lia. cbn. symmetry. apply lookup_ge_None_2. done.
Qed.

(** The frames cover what was sent. *)
Lemma sent_covered frames x :
  (forall fm pre post, frames = pre ++ fm :: post -> cf_Offset fm.1 = dataLen (sent_data pre)) ->
  0 <= x < dataLen (sent_data frames) ->
  exists fm, fm ∈ frames /\ cf_Data fm.1 <> [] /\ cf_Offset fm.1 <= x < cf_Offset fm.1 + dataLen (cf_Data fm.1).
Proof.
  induction frames as [|fm frames IH] using rev_ind; intros Ho Hx; [change (dataLen (sent_data [])) with 0 in Hx; lia|].
  assert (Es : sent_data (frames ++ [fm]) = sent_data frames ++ cf_Data fm.1).
  { unfold sent_data. rewrite map_app, concat_app. cbn. by rewrite app_nil_r. }
  rewrite Es in Hx. unfold dataLen in Hx. rewrite length_app in Hx.
  destruct (Z.lt_ge_cases x (dataLen (sent_data frames))) as [Hlt|Hge].
  - destruct IH as (f & Hf & Hd); [|lia|exists f; set_solver].
    intros f pre post ->. apply (Ho f pre (post ++ [fm])). by rewrite <- app_assoc.
  - exists fm. pose proof (Ho fm frames [] eq_refl) as E. unfold dataLen in *.
    split_and!; [set_solver| |lia|lia]. intros E0. rewrite E0 in Hx. cbn in Hx. lia.
Qed.

(** What is written to a CRYPTO stream arrives: the frames popped from a
    sender, of whatever sizes, are consecutive parts of the bytes written, each
    within its size; and a receiver that got each of them at least once, in any
    order, has delivered exactly the bytes they carry, in order. *)
Theorem crypto_transfer snd frames w rcv got msgs :
  rtc crypto_send_step (newCryptoStream, [], []) (snd, frames, w) ->
  rtc (crypto_step (stream_of w)) (newCryptoStream, [], []) (rcv, got, msgs) -> bytes_ok w ->
  (forall o n, (o, n) ∈ got -> exists fm, fm ∈ frames /\ o = cf_Offset fm.1 /\ n = length (cf_Data fm.1)) ->
  (forall fm, fm ∈ frames -> cf_Data fm.1 <> [] -> (cf_Offset fm.1, length (cf_Data fm.1)) ∈ got) ->
  w = sent_data frames ++ cs_writeBuf snd /\ Forall (part_of w) frames /\
  concat msgs ++ cs_msgBuf rcv = sent_data frames.
Proof.
  intros Hs Hr Hw Hgot Hall. destruct (sender_reachable _ Hs) as [Ew Eo Hb Hp Hpl]; cbn in *.
  split; [done|]. split; [done|].
  assert (Hc : forall x, is_uint8 (stream_of w x)).
  { intros x. unfold stream_of. destruct (nth_lookup_or_length w (Z.to_nat x) 0) as [E|E].
    - unfold bytes_ok in Hw. rewrite Forall_lookup in Hw. exact (Hw _ _ E).
    - by rewrite nth_overflow. }
  destruct (crypto_reachable (stream_of w) Hc _ Hr) as [[Hso Hg Hf Hpos Hout] Hd _ _ _]; cbn in *.
  set (out := concat msgs ++ cs_msgBuf rcv) in *.
  assert (Elen : length out = length (sent_data frames)).
  { destruct (sk_read _ _ Hso) as [Hr0 Hle].
    assert (H1 : ~ (dataLen out < dataLen (sent_data frames))).
    { intros Hlt. apply Hg in Hd as [_ Hd]. apply Hd. rewrite Hpos.
      destruct (sent_covered frames (dataLen out) Hpl) as (fm & Hfm & Hne & Hx); [unfold dataLen in *; lia|].
      exists (cf_Offset fm.1), (length (cf_Data fm.1)). split; [auto|exact Hx]. }
    assert (H2 : ~ (dataLen (sent_data frames) < dataLen out)).
    { intros Hlt. assert (Hng : ~ in_gaps (dataLen out - 1) (fs_gaps (cs_queue rcv))).
      { intros Hi. specialize (Hle _ Hi). lia. }
      apply Hng, Hg. split.
      - specialize (Hle _ (sk_last _ _ Hso)). unfold dataLen in *. lia.
      - intros (o & n & Hin & Hx). destruct (Hgot o n Hin) as (fm & Hfm & -> & ->).
        apply list_elem_of_split in Hfm as (l1 & l2 & ->). rewrite (Hpl fm l1 l2 eq_refl) in Hx.
        unfold sent_data, dataLen in *. rewrite map_app, concat_app, length_app in Hlt. cbn in Hlt.
        rewrite length_app in Hlt. lia. }
    unfold dataLen in *. lia. }
  rewrite Hout, Elen, Ew. exact (segment_stream_of [] (sent_data frames) (cs_writeBuf snd)).
Qed.

(** A post-handshake message of any size is cut completely into frames of at
    most [MaxPostHandshakeCryptoFrameSize] bytes that carry it in order: the loop
    ends, with nothing left to send. *)
Theorem post_handshake_write s p :
  0 <= cs_writeOffset s -> cs_writeOffset s + dataLen (cs_writeBuf s ++ p) <= MaxByteCount ->
  exists s' fs, postHandshake_Write s p = Ret (s', fs) /\ HasData s' = false /\
    concat (map cf_Data fs) = cs_writeBuf s ++ p /\
    Forall (fun f => exists len, lengthCryptoFrame f = Ret len /\ len <= MaxPostHandshakeCryptoFrameSize) fs.
Proof.
  intros Ho Hb. unfold postHandshake_Write. set (s1 := crypto_Write s p).
  change (cs_writeBuf s ++ p) with (cs_writeBuf s1) in *. change (cs_writeOffset s) with (cs_writeOffset s1) in *.
  clearbody s1. assert (Hf : (length (cs_writeBuf s1) < S (length (cs_writeBuf s1)))%nat) by lia.
  set (fuel := S _) in *. clearbody fuel. revert s1 Ho Hb Hf.
  induction fuel as [|fuel IH]; intros s1 Ho Hb Hf; [lia|]. cbn [queue_all]. destruct (HasData s1) eqn:Ed.
  2: { exists s1, []. split_and!; try done. unfold HasData in Ed. zbool. destruct (cs_writeBuf s1); [done|].
       unfold dataLen in Ed. cbn in Ed. lia. }
  destruct (PopCryptoFrame_ok s1 MaxPostHandshakeCryptoFrameSize Ho Hb ltac:(done)) as (s2 & f & E & Eb & _ & Ew & Hne & Hfit).
  specialize (Hne ltac:(done) Ed). pose proof (dataLen_pos _ Hne) as Hpos. rewrite E. cbn [mbind outcome_bind].
  rewrite Eb in Hb, Hf. unfold dataLen in *. rewrite length_app in Hb, Hf.
  destruct (IH s2) as (s3 & fs & E3 & Hd3 & Ec & Hall); [lia|lia|lia|].
  rewrite E3. exists s3, (f :: fs). split_and!; try done; [cbn; by rewrite Ec, Eb|].
  constructor; [by apply Hfit|done].
Qed.

(** ** The manager *)

(** What holds of the streams whatever a peer sends. *)
Definition byte_content (_ : Z) (d : bytes) : Prop := bytes_ok d.
#[global] Instance byte_content_ok : Content byte_content.
Proof. split; intros k d j Hd; intros; [by apply Forall_drop|by apply Forall_take]. Qed.

Definition stream_ok (s : cryptoStreamImpl) : Prop :=
  sorter_ok byte_content (cs_queue s) /\ bytes_ok (cs_msgBuf s).

Lemma pop_all_total fuel q buf :
  sorter_ok byte_content q -> bytes_ok buf -> (size (fs_queue q) < fuel)%nat ->
  exists q' buf', pop_all fuel q buf = Ret (q', buf') /\ sorter_ok byte_content q' /\ bytes_ok buf'.
Proof.
  revert q buf. induction fuel as [|fuel IH]; intros q buf Hq Hb Hf; [lia|]. cbn.
  destruct (Pop q) as [q1 [o d]] eqn:E. destruct (Pop_ok byte_content q q1 o d Hq E) as (Hq1 & _ & _ & Hd).
  destruct d as [d|]; [|by exists q1, buf]. pose proof (Pop_size _ _ _ _ E). destruct Hd as (_ & Hd & _).
  apply IH; [done| |lia]. by apply Forall_app.
Qed.

Lemma HandleCryptoFrame_total s f :
  stream_ok s -> 0 <= cf_Offset f < 2 ^ 62 -> dataLen (cf_Data f) < 2 ^ 62 -> bytes_ok (cf_Data f) ->
  exists s' e, HandleCryptoFrame s f = Ret (s', e) /\ (e = None -> stream_ok s').
Proof.
  intros [Hq Hb] Ho Hn Hd. unfold HandleCryptoFrame. rewrite uint64_id by (unfold dataLen in *; go_range).
  destruct (Z.ltb_spec MaxCryptoStreamOffset (cf_Offset f + dataLen (cf_Data f))); [eexists _, _; by split|].
  assert (MaxCryptoStreamOffset < MaxByteCount) by done.
  case_if; [case_if; eexists _, _; (split; [reflexivity|]); [done|by split]|].
  destruct (Push_ok byte_content (cs_queue s) (cf_Data f) (cf_Offset f) Hq ltac:(lia) ltac:(lia) Hd) as (q1 & e & E & He).
  cbn -[Push pop_all]. rewrite E. cbn -[pop_all]. destruct e as [e|]; [eexists _, _; by split|].
  destruct He as [(_ & Hq1 & _)|?]; [|done].
  destruct (pop_all_total (S (size (fs_queue q1))) q1 (cs_msgBuf s) Hq1 Hb ltac:(lia)) as (q2 & buf & -> & Hq2 & Hb2).
  cbn. eexists _, _. split; [reflexivity|]. by split.
Qed.

Section ManagerTotal.
Context {St : Type} (HandleMessage : St -> bytes -> EncryptionLevel -> St * bool).

Lemma handle_messages_total fuel h str lvl :
  stream_ok str -> (length (cs_msgBuf str) < fuel)%nat ->
  exists h' str' ch e, handle_messages HandleMessage fuel h str lvl = Ret (h', str', ch, e) /\ stream_ok str'.
Proof.
  revert h str. induction fuel as [|fuel IH]; intros h str Hs Hf; [lia|]. cbn [handle_messages].
  destruct (GetCryptoData str) as [s1 [msg|]] eqn:E.
  - destruct (GetCryptoData_message str s1 msg (proj2 Hs) E) as ([Hl _] & Eb & Es).
    assert (Hs1 : stream_ok s1).
    { rewrite Es. destruct Hs as [Hq Hb]. split; [done|]. cbn. rewrite Eb in Hb. by apply Forall_app in Hb as [_ ?]. }
    destruct (HandleMessage h msg lvl) as [h1 fin]. destruct fin.
    + destruct (Finish s1) as [s2 e] eqn:Ef. eexists _, _, _, _. split; [reflexivity|].
      unfold Finish in Ef. case_if_in Ef; injection Ef as <- <-; done.
    + apply IH; [done|]. rewrite Eb, length_app in Hf. lia.
  - assert (s1 = str) as -> by (unfold GetCryptoData in E; case_if_in E; [by injection E|]; case_if_in E; by injection E).
    by eexists _, _, _, _.
Qed.

Definition manager_ok (m : cryptoStreamManager (St := St)) : Prop :=
  stream_ok (cm_initial m) /\ stream_ok (cm_handshake m) /\ stream_ok (cm_oneRTT m).

Lemma handle_level_total h str f lvl :
  stream_ok str -> 0 <= cf_Offset f < 2 ^ 62 -> dataLen (cf_Data f) < 2 ^ 62 -> bytes_ok (cf_Data f) ->
  exists h' str' ch e, handle_level HandleMessage h str f lvl = Ret (h', str', ch, e) /\ (e = None -> stream_ok str').
Proof.
  intros Hs Ho Hn Hd. unfold handle_level.
  destruct (HandleCryptoFrame_total str f Hs Ho Hn Hd) as (s1 & e & -> & He). cbn [mbind outcome_bind].
  destruct e as [e|]; [by eexists _, _, _, _|].
  destruct (handle_messages_total (S (length (cs_msgBuf s1))) h s1 lvl (He eq_refl) ltac:(lia)) as (h' & s' & ch & e & -> & ?).
  eexists _, _, _, _. by split.
Qed.

(** The frames of a connection, until one is rejected. *)
Inductive manager_step : cryptoStreamManager -> cryptoStreamManager -> Prop :=
| manager_frame m f lvl m' ch :
    0 <= cf_Offset f < 2 ^ 62 -> dataLen (cf_Data f) < 2 ^ 62 -> bytes_ok (cf_Data f) ->
    manager_HandleCryptoFrame HandleMessage m f lvl = Ret (m', ch, None) -> manager_step m m'.

Lemma manager_handle_total m f lvl :
  manager_ok m -> 0 <= cf_Offset f < 2 ^ 62 -> dataLen (cf_Data f) < 2 ^ 62 -> bytes_ok (cf_Data f) ->
  exists m' ch e, manager_HandleCryptoFrame HandleMessage m f lvl = Ret (m', ch, e) /\ (e = None -> manager_ok m').
Proof.
  intros (Hi & Hh & Ho) Hof Hn Hd. unfold manager_HandleCryptoFrame. destruct lvl; [by eexists _, _, _|..].
  1: destruct (handle_level_total (cm_handler m) (cm_initial m) f EncryptionInitial Hi Hof Hn Hd) as (? & ? & ? & ? & -> & ?).
  2: destruct (handle_level_total (cm_handler m) (cm_handshake m) f EncryptionHandshake Hh Hof Hn Hd) as (? & ? & ? & ? & -> & ?).
  3: destruct (handle_level_total (cm_handler m) (cm_oneRTT m) f Encryption1RTT Ho Hof Hn Hd) as (? & ? & ? & ? & -> & ?).
  all: eexists _, _, _; split; [reflexivity|]; intros He; unfold manager_ok; cbn; auto.
Qed.

(** Whatever CRYPTO frames a peer sends, at any level and with any content,
    and whatever the TLS stack answers, handling a frame ends and does not panic. *)
Theorem crypto_manager_total h m f lvl :
  rtc manager_step (mkManager h newCryptoStream newCryptoStream newCryptoStream) m ->
  0 <= cf_Offset f < 2 ^ 62 -> dataLen (cf_Data f) < 2 ^ 62 -> bytes_ok (cf_Data f) ->
  exists m' ch e, manager_HandleCryptoFrame HandleMessage m f lvl = Ret (m', ch, e).
Proof.
  intros Hr Ho Hn Hd. assert (Hok : manager_ok m).
  { assert (H0 : stream_ok newCryptoStream) by (split; [apply newFrameSorter_ok|constructor]).
    assert (Hm : manager_ok (mkManager h newCryptoStream newCryptoStream newCryptoStream)) by done.
    induction Hr as [|m1 m2 m3 Hs Hr IH]; [done|]. apply IH. destruct Hs as [m1 f' lvl' m2 ch Ho' Hn' Hd' E].
    destruct (manager_handle_total m1 f' lvl' Hm Ho' Hn' Hd') as (m' & ch' & e & E' & He).
    rewrite E in E'. injection E' as <- <- <-. auto. }
  destruct (manager_handle_total m f lvl Hok Ho Hn Hd) as (m' & ch & e & E & _). eauto.
Qed.

End ManagerTotal.

(** ** Examples *)

(** A message of five bytes, and its frames. *)
Definition demo_message : bytes := [1; 0; 0; 1; 9].
Definition demo_frame (o : Z) (n : nat) : CryptoFrame := mkCryptoFrame o (segment (stream_of demo_message) o n).
Definition handle_or (s : cryptoStreamImpl) (o : Z) (n : nat) : cryptoStreamImpl :=
  match HandleCryptoFrame s (demo_frame o n) with Ret (s', _) => s' | _ => s end.

Definition demo_crypto1 : cryptoStreamImpl := handle_or newCryptoStream 2 1.
Definition demo_crypto2 : cryptoStreamImpl := handle_or demo_crypto1 3 1.
Definition demo_crypto3 : cryptoStreamImpl := handle_or demo_crypto2 0 5.
Definition demo_crypto4 : cryptoStreamImpl := (GetCryptoData demo_crypto3).1.

Lemma demo_crypto_run :
  rtc (crypto_step (stream_of demo_message)) (newCryptoStream, [], [])
    (demo_crypto4, [(0, 5%nat); (3, 1%nat); (2, 1%nat)], [demo_message]).
Proof.
  eapply rtc_l; [apply (crypto_handle _ _ _ _ 2 1 demo_crypto1); [done|lia|done|vm_compute; reflexivity]|].
  eapply rtc_l; [apply (crypto_handle _ _ _ _ 3 1 demo_crypto2); [done|lia|done|vm_compute; reflexivity]|].
  eapply rtc_l; [apply (crypto_handle _ _ _ _ 0 5 demo_crypto3); [done|lia|done|vm_compute; reflexivity]|].
  eapply rtc_l; [eapply (crypto_get _ _ _ _ demo_crypto4); vm_compute; reflexivity|]. apply rtc_refl.
Qed.

(** A change of the encryption level can be refused although nothing is left
    to read: after two frames behind a gap and one that covers them, the whole
    message has been taken from the stream and its buffer is empty, and [Finish]
    reports that the stream has more data. *)
Theorem finish_refused :
  rtc (crypto_step (stream_of demo_message)) (newCryptoStream, [], [])
    (demo_crypto4, [(0, 5%nat); (3, 1%nat); (2, 1%nat)], [demo_message]) /\
  cs_msgBuf demo_crypto4 = [] /\
  (Finish demo_crypto4).2 =
    Some (ErrorString "encryption level changed, but crypto stream has more data to read").
Proof. split; [exact demo_crypto_run|]. split; vm_compute; reflexivity. Qed.

Lemma stream_of_demo x : is_uint8 (stream_of demo_message x).
Proof. unfold stream_of. destruct (Z.to_nat x) as [|[|[|[|[|[|n]]]]]]; done. Qed.

Lemma crypto_messages_witness :
  (GetCryptoData demo_crypto4).2 = None /\ [demo_message] = messages 5 demo_message.
Proof.
  split; [vm_compute; reflexivity|].
  exact (proj2 (proj2 (crypto_messages (stream_of demo_message) stream_of_demo demo_crypto4 _ _ demo_crypto_run))
    ltac:(vm_compute; reflexivity)).
Defined.

Definition demo_writer : cryptoStreamImpl := crypto_Write newCryptoStream demo_message.
Definition demo_sent : cryptoStreamImpl :=
  match PopCryptoFrame demo_writer 100 with Ret (s, _) => s | _ => demo_writer end.
Definition demo_got : cryptoStreamImpl := handle_or newCryptoStream 0 5.

Lemma crypto_transfer_witness :
  concat [] ++ cs_msgBuf demo_got = sent_data [(mkCryptoFrame 0 demo_message, 100)].
Proof.
  refine (proj2 (proj2 (crypto_transfer demo_sent [(mkCryptoFrame 0 demo_message, 100)] demo_message demo_got
    [(0, 5%nat)] [] _ _ _ _ _))).
  - eapply rtc_l; [apply (crypto_write newCryptoStream [] [] demo_message); done|].
    eapply rtc_l; [apply (crypto_pop demo_writer [] demo_message 100 demo_sent (mkCryptoFrame 0 demo_message));
      [done|vm_compute; reflexivity]|]. apply rtc_refl.
  - eapply rtc_l; [apply (crypto_handle _ _ _ _ 0 5 demo_got); [done|lia|done|vm_compute; reflexivity]|]. apply rtc_refl.
  - repeat constructor; done.
  - intros o n [= -> ->]%list_elem_of_singleton. eexists. split; [by apply list_elem_of_singleton|done].
  - intros fm ->%list_elem_of_singleton _. by apply list_elem_of_singleton.
Defined.

Lemma post_handshake_write_witness :
  exists s' fs, postHandshake_Write newCryptoStream demo_message = Ret (s', fs) /\ HasData s' = false /\
    concat (map cf_Data fs) = demo_message /\
    Forall (fun f => exists len, lengthCryptoFrame f = Ret len /\ len <= MaxPostHandshakeCryptoFrameSize) fs.
Proof. refine (post_handshake_write newCryptoStream demo_message _ _); done. Defined.

(** A TLS stack that counts the messages and finishes the level at the second. *)
Definition demo_handler (n : Z) (m : bytes) (lvl : EncryptionLevel) : Z * bool := (n + 1, n =? 1).

Lemma crypto_manager_total_witness :
  exists m' ch e, manager_HandleCryptoFrame demo_handler
    (mkManager 0 newCryptoStream newCryptoStream newCryptoStream) (mkCryptoFrame 0 demo_message) EncryptionInitial =
    Ret (m', ch, e).
Proof.
  refine (crypto_manager_total demo_handler 0 (mkManager 0 newCryptoStream newCryptoStream newCryptoStream)
    (mkCryptoFrame 0 demo_message) EncryptionInitial _ _ _ _).
  - apply rtc_refl.
  - done.
  - done.
  - repeat constructor; done.
Defined.
