(* ===== verification/ReceivedHistory.v ===== *)
(** * The history of received packets (internal/ackhandler/received_packet_history.go)

    The ranges of packet numbers received so far, kept in a list of disjoint
    intervals; the code walks the list from its back.  The abstract state is
    the set of packet numbers; every operation is shown to act on that set,
    and the interval list is shown to be a canonical representation of it. *)

From S2P Require Import Prelude VarInt Protocol AckFrame.

(** [utils.PacketInterval] *)
Record PacketInterval := mkPI {
  Start : PacketNumber;
  End : PacketNumber
}.

Record receivedPacketHistory := mkHistory {
  ranges : list PacketInterval; (* [utils.PacketIntervalList], front to back *)
  lowestInReceivedPacketNumbers : PacketNumber
}.

#[global] Instance PacketInterval_eq_dec : EqDecision PacketInterval.
Proof. solve_decision. Defined.

#[global] Instance history_eta : Eta receivedPacketHistory :=
  fun h => mkHistory (ranges h) (lowestInReceivedPacketNumbers h).

Definition errTooManyOutstandingReceivedAckRanges : goerr :=
  QuicError 1 (ErrorString "Too many outstanding received ACK ranges").

Definition newReceivedPacketHistory : receivedPacketHistory := mkHistory [] 0.

(** The loop of [ReceivedPacket]: [back] is the unvisited part of the list,
    back first, and [after] the visited part, front first. *)
Fixpoint receive_loop (p : PacketNumber) (back after : list PacketInterval) : list PacketInterval :=
  match back with
  | [] =>
      (* create a new range at the beginning *)
      mkPI p p :: after
  | el :: back' =>
      (* p already included in an existing range. Nothing to do here *)
      if (Start el <=? p) && (p <=? End el) then rev back ++ after else
      let extended :=
        if End el =? int64 (p - 1) then Some (mkPI (Start el) p)
        else if Start el =? int64 (p + 1) then Some (mkPI p (End el))
        else None in
      match extended with
      | Some el =>
          match back' with
          | prev :: back'' =>
              if int64 (End prev + 1) =? Start el then (* merge two ranges *)
                rev back'' ++ mkPI (Start prev) (End el) :: after
              else rev back' ++ el :: after
          | [] => el :: after
          end
      | None =>
          (* create a new range at the end *)
          if End el <? p then rev back ++ mkPI p p :: after
          else receive_loop p back' (el :: after)
      end
  end.

(** [receivedPacketHistory.ReceivedPacket] *)
Definition history_ReceivedPacket (h : receivedPacketHistory) (p : PacketNumber) :
    outcome receivedPacketHistory :=
  if MaxTrackedReceivedAckRanges <=? Z.of_nat (length (ranges h)) then
    Error errTooManyOutstandingReceivedAckRanges
  else if (length (ranges h) =? 0)%nat then
    Ret (h <| ranges := [mkPI p p] |>)
  else
    Ret (h <| ranges := receive_loop p (rev (ranges h)) [] |>).

Fixpoint delete_loop (p : PacketNumber) (l : list PacketInterval) : list PacketInterval :=
  match l with
  | [] => []
  | el :: l' =>
      if (Start el <? p) && (p <=? End el) then mkPI p (End el) :: delete_loop p l'
      else if End el <? p then (* delete a whole range *) delete_loop p l'
      else (* no ranges affected. Nothing to do *) l
  end.

Definition DeleteBelow (h : receivedPacketHistory) (p : PacketNumber) : receivedPacketHistory :=
  if p <=? lowestInReceivedPacketNumbers h then h
  else h <| lowestInReceivedPacketNumbers := p |> <| ranges := delete_loop p (ranges h) |>.

Definition GetAckRanges (h : receivedPacketHistory) : list AckRange :=
  map (fun el => mkAckRange (Start el) (End el)) (rev (ranges h)).

Definition GetHighestAckRange (h : receivedPacketHistory) : AckRange :=
  match rev (ranges h) with
  | [] => mkAckRange 0 0
  | r :: _ => mkAckRange (Start r) (End r)
  end.

(** ** The set a list of intervals stands for *)

Definition mem (l : list PacketInterval) (p : PacketNumber) : Prop :=
  exists i, i ∈ l /\ Start i <= p <= End i.

(** Ascending above [lo], with at least one number missing between neighbours. *)
Fixpoint ascending (lo : PacketNumber) (l : list PacketInterval) : Prop :=
  match l with
  | [] => True
  | i :: l' => lo < Start i /\ Start i <= End i /\ End i < 2 ^ 62 /\ ascending (End i + 1) l'
  end.

Definition intervals_wf (l : list PacketInterval) : Prop := ascending (-1) l.

Lemma mem_nil p : mem [] p <-> False.
Proof. split; [intros (i & Hi & _); set_solver|done]. Qed.

Lemma mem_cons i l p : mem (i :: l) p <-> Start i <= p <= End i \/ mem l p.
Proof. unfold mem. set_solver. Qed.

Lemma mem_app l1 l2 p : mem (l1 ++ l2) p <-> mem l1 p \/ mem l2 p.
Proof. unfold mem. set_solver. Qed.

#[export] Hint Rewrite mem_nil mem_cons mem_app : mem.

Lemma ascending_weaken lo lo' l : ascending lo l -> lo' <= lo -> ascending lo' l.
Proof. destruct l; [done|]. intros (? & ? & ? & ?) ?. split_and!; by try lia. Qed.

Lemma ascending_mem lo l p : ascending lo l -> mem l p -> lo < p < 2 ^ 62.
Proof.
  revert lo. induction l as [|i l IH]; intros lo Ha; [by rewrite mem_nil|].
  destruct Ha as (? & ? & ? & Ha). rewrite mem_cons. intros [?|Hm]; [lia|].
  specialize (IH _ Ha Hm). lia.
Qed.

(** The last element of a non-empty ascending list bounds what comes before. *)
Lemma ascending_snoc lo l i :
  ascending lo (l ++ [i]) <->
  ascending lo l /\ (lo < Start i <= End i /\ End i < 2 ^ 62) /\ (forall j, j ∈ l -> End j + 1 < Start i).
Proof.
  revert lo. induction l as [|x l IH]; intros lo; cbn [app ascending].
  { split; [intros (? & ? & ? & _)|]; [split_and!; [done|lia..|set_solver]|]. intros (_ & ? & _). split_and!; by try lia. }
  rewrite IH. split.
  - intros (? & ? & ? & ? & ? & Hall). split_and!; try (done || lia).
    intros j Hj. apply elem_of_cons in Hj as [->|Hj]; [lia|by apply Hall].
  - intros ((? & ? & ? & ?) & ? & Hall). split_and!; try (done || lia).
    + specialize (Hall x ltac:(set_solver)). lia.
    + intros j Hj. apply Hall. set_solver.
Qed.

Lemma ascending_middle lo l1 i l2 :
  ascending lo (l1 ++ i :: l2) <-> ascending lo (l1 ++ [i]) /\ ascending (End i + 1) l2.
Proof.
  revert lo. induction l1 as [|x l1 IH]; intros lo; cbn [app ascending]; [tauto|].
  rewrite IH. tauto.
Qed.

(** Replacing the last interval before [after]. *)
Lemma ascending_replace lo l1 i l2 :
  ascending lo l1 -> lo < Start i <= End i -> End i < 2 ^ 62 ->
  (forall j, j ∈ l1 -> End j + 1 < Start i) -> ascending (End i + 1) l2 ->
  ascending lo (l1 ++ i :: l2).
Proof. intros. apply ascending_middle. split; [|done]. apply ascending_snoc. split_and!; by try lia. Qed.

Lemma receive_loop_correct p back after :
  0 <= p < 2 ^ 62 -> intervals_wf (rev back ++ after) -> ascending (p + 1) after ->
  let l := receive_loop p back after in
  intervals_wf l /\ (forall q, mem l q <-> q = p \/ mem (rev back ++ after) q).
Proof.
  intros Hp. unfold intervals_wf. revert after.
  induction back as [|el back IH]; intros after Hwf Hafter; cbn [receive_loop rev app].
  { split; [split_and!; by try (simpl; lia)|]. intros q. rewrite mem_cons. simpl. intuition lia. }
  cbn [rev] in Hwf. rewrite <- app_assoc in *. cbn [app] in *.
  pose proof Hwf as Hwf'. apply ascending_middle in Hwf' as [Hback Hel].
  apply ascending_snoc in Hback as (Hback & Hse & Hprev). go_ints.
  destruct ((Start el <=? p) && (p <=? End el)) eqn:Hin; zbool.
  { split; [done|]. intros q. autorewrite with mem. intuition lia. }
  assert (Hout : p < Start el \/ End el < p).
  { apply andb_false_iff in Hin as [?|?]; zbool; lia. }
  destruct (Z.eqb_spec (End el) (p - 1)) as [He|Hne]; [|destruct (Z.eqb_spec (Start el) (p + 1)) as [Hs|Hns]].
  - (* extended at the end *)
    assert (Hres : ascending (-1) (rev back ++ mkPI (Start el) p :: after) /\
      (forall q, mem (rev back ++ mkPI (Start el) p :: after) q <-> q = p \/ mem (rev back ++ el :: after) q)).
    { split; [apply ascending_replace; simpl; by try lia|].
      intros q. autorewrite with mem. simpl. intuition lia. }
    destruct back as [|prev back]; [done|]. cbn [Start].
    assert (End prev + 1 < Start el) by (apply Hprev; simpl; set_solver).
    assert (-1 < Start prev <= End prev) as Hpr.
    { cbn [rev] in Hback. apply ascending_snoc in Hback as (_ & ? & _). lia. }
    go_ints. by rewrite (proj2 (Z.eqb_neq _ _)) by lia.
  - (* extended at the beginning, maybe merged with the previous range *)
    destruct back as [|prev back].
    { split; [apply (ascending_replace _ []); simpl; by try (lia || set_solver)|].
      intros q. autorewrite with mem. simpl. intuition lia. }
    cbn [Start End]. assert (End prev + 1 < Start el) by (apply Hprev; simpl; set_solver).
    cbn [rev] in Hback. apply ascending_snoc in Hback as (Hback & Hpr & Hprev').
    go_ints. destruct (Z.eqb_spec (End prev + 1) p) as [Hm|Hnm].
    + split; [apply ascending_replace; simpl; by try lia|].
      intros q. cbn [rev]. autorewrite with mem. simpl. intuition lia.
    + split.
      * apply ascending_replace; simpl; try (done || lia).
        { apply ascending_snoc. split_and!; by try lia. }
        intros j Hj. apply elem_of_app in Hj as [Hj|Hj]; [specialize (Hprev' j Hj); lia|].
        apply list_elem_of_singleton in Hj as ->. lia.
      * intros q. cbn [rev]. autorewrite with mem. simpl. intuition lia.
  - destruct (Z.ltb_spec (End el) p) as [Hlt|Hge].
    + (* a new range *)
      split.
      * apply ascending_replace; simpl; try (done || lia).
        { apply ascending_snoc. split_and!; by try lia. }
        intros j Hj. apply elem_of_app in Hj as [Hj|Hj]; [specialize (Hprev j Hj); lia|].
        apply list_elem_of_singleton in Hj as ->. lia.
      * intros q. autorewrite with mem. simpl. intuition lia.
    + apply IH; [done|]. split_and!; by try lia.
Qed.

Lemma history_ReceivedPacket_Ret h p :
  intervals_wf (ranges h) -> 0 <= p < 2 ^ 62 ->
  Z.of_nat (length (ranges h)) < MaxTrackedReceivedAckRanges ->
  exists h', history_ReceivedPacket h p = Ret h' /\ intervals_wf (ranges h') /\
    lowestInReceivedPacketNumbers h' = lowestInReceivedPacketNumbers h /\
    (forall q, mem (ranges h') q <-> q = p \/ mem (ranges h) q).
Proof.
  intros Hwf Hp Hlen. unfold history_ReceivedPacket.
  rewrite (proj2 (Z.leb_gt _ _)) by done.
  destruct (ranges h) as [|i l] eqn:Hr; cbn [length Nat.eqb].
  - eexists. split; [reflexivity|]. split; [split_and!; simpl; by try lia|]. split; [done|].
    intros q. simpl. autorewrite with mem. simpl. intuition lia.
  - eexists. split; [reflexivity|]. cbn [ranges over].
    destruct (receive_loop_correct p (rev (i :: l)) []) as [H1 H2]; [done|by rewrite rev_involutive, app_nil_r|done|].
    split; [exact H1|]. split; [done|]. intros q. etrans; [apply H2|].
    by rewrite rev_involutive, app_nil_r.
Qed.

Lemma history_ReceivedPacket_Error h p :
  MaxTrackedReceivedAckRanges <= Z.of_nat (length (ranges h)) ->
  history_ReceivedPacket h p = Error errTooManyOutstandingReceivedAckRanges.
Proof. intros. unfold history_ReceivedPacket. by rewrite (proj2 (Z.leb_le _ _)). Qed.

Lemma delete_loop_correct p lo l :
  ascending lo l ->
  ascending (Z.max lo (p - 1)) (delete_loop p l) /\ (forall q, mem (delete_loop p l) q <-> mem l q /\ p <= q).
Proof.
  revert lo. induction l as [|el l IH]; intros lo Ha; cbn [delete_loop].
  { split; [done|]. intros q. rewrite mem_nil. tauto. }
  destruct Ha as (H1 & H2 & H3 & Ha). destruct (IH _ Ha) as [IH1 IH2].
  assert (Hge : forall q, mem l q -> End el + 1 < q) by (intros q Hq; apply (ascending_mem _ _ _ Ha Hq)).
  case_if; [|case_if]; zbool.
  - split; [split_and!; simpl; [lia..|]|].
    + eapply ascending_weaken; [exact IH1|lia].
    + intros q. autorewrite with mem. simpl. rewrite IH2. specialize (Hge q). intuition lia.
  - split; [eapply ascending_weaken; [exact IH1|lia]|].
    intros q. autorewrite with mem. rewrite IH2. intuition lia.
  - apply andb_false_iff in Heqb as [?|?]; zbool; [|lia].
    split; [split_and!; by try lia|].
    intros q. autorewrite with mem. specialize (Hge q). intuition lia.
Qed.

(** Two well-formed lists that stand for the same set are equal. *)
Lemma intervals_canonical lo1 lo2 l1 l2 :
  ascending lo1 l1 -> ascending lo2 l2 -> (forall q, mem l1 q <-> mem l2 q) -> l1 = l2.
Proof.
  revert lo1 lo2 l2. induction l1 as [|i1 l1 IH]; intros lo1 lo2 [|i2 l2] H1 H2 Hq; [done|..].
  - destruct (proj1 (mem_nil (Start i2))). apply Hq, mem_cons. destruct H2 as (? & ? & ? & ?). lia.
  - destruct (proj1 (mem_nil (Start i1))). apply Hq, mem_cons. destruct H1 as (? & ? & ? & ?). lia.
  - destruct H1 as (? & ? & ? & H1), H2 as (? & ? & ? & H2).
    assert (Hlow1 : forall q, mem l1 q -> End i1 + 1 < q) by (intros q; apply (ascending_mem _ _ _ H1)).
    assert (Hlow2 : forall q, mem l2 q -> End i2 + 1 < q) by (intros q; apply (ascending_mem _ _ _ H2)).
    assert (Hc : forall q, (Start i1 <= q <= End i1 \/ mem l1 q) <-> (Start i2 <= q <= End i2 \/ mem l2 q))
      by (intros q; specialize (Hq q); by rewrite !mem_cons in Hq).
    assert (Start i1 = Start i2).
    { destruct (proj1 (Hc (Start i1)) ltac:(lia)) as [?|?%Hlow2]; destruct (proj2 (Hc (Start i2)) ltac:(lia)) as [?|?%Hlow1]; lia. }
    assert (End i1 = End i2).
    { destruct (Z.lt_trichotomy (End i1) (End i2)) as [Hlt|[?|Hlt]]; [|done|].
      - destruct (proj2 (Hc (End i1 + 1)) ltac:(lia)) as [?|?%Hlow1]; lia.
      - destruct (proj1 (Hc (End i2 + 1)) ltac:(lia)) as [?|?%Hlow2]; lia. }
    assert (i1 = i2) as -> by (destruct i1, i2; simpl in *; congruence). f_equal.
    apply (IH _ _ _ H1 H2). intros q. specialize (Hc q). specialize (Hlow1 q). specialize (Hlow2 q). intuition lia.
Qed.

(** *** What the history reports *)

Definition to_AckRange (el : PacketInterval) : AckRange := mkAckRange (Start el) (End el).

Lemma rev_ascending_descending lo l hi :
  ascending lo l -> -1 <= lo -> (forall i, i ∈ l -> End i + 1 < hi) -> descending hi (map to_AckRange (rev l)).
Proof.
  revert hi. induction l as [|i l IH] using rev_ind; intros hi Ha Hlo Hhi; [done|].
  apply ascending_snoc in Ha as (Ha & Hi & Hall). rewrite rev_app_distr. cbn.
  split_and!; [lia..| |].
  - specialize (Hhi i ltac:(set_solver)). lia.
  - apply IH; [done|done|]. intros j Hj. apply Hall, Hj.
Qed.

Lemma GetAckRanges_wf h :
  intervals_wf (ranges h) -> ranges h <> [] -> ranges_wf (GetAckRanges h).
Proof.
  intros Hwf Hne. unfold GetAckRanges. destruct (ranges h) as [|i l _] using rev_ind; [done|].
  apply ascending_snoc in Hwf as (Ha & Hi & Hall). rewrite rev_app_distr. cbn.
  split_and!; [lia..|]. by apply (rev_ascending_descending (-1)).
Qed.

Lemma GetAckRanges_acked h p : acked_in (GetAckRanges h) p <-> mem (ranges h) p.
Proof.
  unfold acked_in, mem, GetAckRanges. split.
  - intros (r & Hr & Hp). apply list_elem_of_fmap in Hr as (i & -> & Hi).
    exists i. split; [|done]. apply list_elem_of_In, in_rev, list_elem_of_In, Hi.
  - intros (i & Hi & Hp). exists (to_AckRange i). split; [|done].
    apply list_elem_of_fmap. exists i. split; [done|]. apply list_elem_of_In. rewrite <- in_rev.
    by apply list_elem_of_In.
Qed.

(** ** Properties *)

(** The packets of a list recorded one after the other. *)
Fixpoint receive_all (h : receivedPacketHistory) (ps : list PacketNumber) : outcome receivedPacketHistory :=
  match ps with
  | [] => mret h
  | p :: ps => h ← history_ReceivedPacket h p; receive_all h ps
  end.

Lemma receive_all_spec ps h h' :
  intervals_wf (ranges h) -> Forall (fun p => 0 <= p < 2 ^ 62) ps -> receive_all h ps = Ret h' ->
  intervals_wf (ranges h') /\ (forall q, mem (ranges h') q <-> q ∈ ps \/ mem (ranges h) q).
Proof.
  revert h. induction ps as [|p ps IH]; intros h Hwf Hps H.
  { injection H as <-. split; [done|]. intros q. rewrite elem_of_nil. tauto. }
  apply Forall_cons in Hps as [Hp Hps]. cbn [receive_all] in H.
  apply outcome_bind_Ret in H as (h1 & H1 & H2).
  destruct (Z.ltb_spec (Z.of_nat (length (ranges h))) MaxTrackedReceivedAckRanges) as [Hlt|Hge].
  - destruct (history_ReceivedPacket_Ret h p Hwf Hp Hlt) as (h2 & E & Hwf2 & _ & Hmem).
    rewrite E in H1. injection H1 as <-. destruct (IH h2 Hwf2 Hps H2) as [Hwf' Hmem'].
    split; [done|]. intros q. rewrite Hmem', Hmem, elem_of_cons. tauto.
  - by rewrite history_ReceivedPacket_Error in H1.
Qed.

(** C40. The history is a set of packet numbers: after any sequence of received
    packets and one deletion, the intervals are sorted, disjoint and not
    adjacent, and hold exactly the packets received that are not below the
    deletion bound. *)
Theorem history_is_set ps p h :
  Forall (fun p => 0 <= p < 2 ^ 62) ps -> 0 < p ->
  receive_all newReceivedPacketHistory ps = Ret h ->
  intervals_wf (ranges (DeleteBelow h p)) /\
  (forall q, mem (ranges (DeleteBelow h p)) q <-> q ∈ ps /\ p <= q).
Proof.
  intros Hps Hp H. destruct (receive_all_spec ps newReceivedPacketHistory h) as [Hwf Hmem]; try done.
  assert (Hl : lowestInReceivedPacketNumbers h = 0).
  { clear Hmem Hwf. assert (G : forall h0, receive_all h0 ps = Ret h ->
      lowestInReceivedPacketNumbers h = lowestInReceivedPacketNumbers h0).
    { clear. induction ps as [|q ps IH]; cbn [receive_all]; intros h0 E; [by injection E as <-|].
      apply outcome_bind_Ret in E as (h1 & E1 & E2). rewrite (IH h1 E2).
      unfold history_ReceivedPacket in E1. repeat case_if_in E1; try done; by injection E1 as <-. }
    by rewrite (G _ H). }
  unfold DeleteBelow. rewrite Hl, (proj2 (Z.leb_gt _ _)) by lia. cbn.
  destruct (delete_loop_correct p (-1) (ranges h) Hwf) as [Hasc Hdel].
  split; [eapply ascending_weaken; [exact Hasc|lia]|].
  intros q. rewrite Hdel, Hmem. cbn. rewrite mem_nil. tauto.
Qed.

Lemma history_is_set_witness :
  intervals_wf (ranges (DeleteBelow (mkHistory [mkPI 3 5; mkPI 9 9] 0) 4)) /\
  (forall q, mem (ranges (DeleteBelow (mkHistory [mkPI 3 5; mkPI 9 9] 0) 4)) q <->
     q ∈ [5; 3; 9; 4; 4] /\ 4 <= q).
Proof.
  apply (history_is_set [5; 3; 9; 4; 4] 4); [|by vm_compute|by vm_compute].
  by repeat constructor.
Defined.

(** Reordering and duplication are harmless: two sequences with the same
    packets leave the same intervals, whatever the order of arrival. *)
Theorem history_order_independent ps1 ps2 h1 h2 :
  Forall (fun p => 0 <= p < 2 ^ 62) ps1 -> (forall p, p ∈ ps1 <-> p ∈ ps2) ->
  receive_all newReceivedPacketHistory ps1 = Ret h1 ->
  receive_all newReceivedPacketHistory ps2 = Ret h2 ->
  ranges h1 = ranges h2.
Proof.
  intros Hps Hsame H1 H2.
  destruct (receive_all_spec ps1 newReceivedPacketHistory h1) as [Hwf1 Hmem1]; try done.
  destruct (receive_all_spec ps2 newReceivedPacketHistory h2) as [Hwf2 Hmem2]; try done.
  { apply Forall_forall. intros p Hp. rewrite Forall_forall in Hps. by apply Hps, Hsame. }
  apply (intervals_canonical (-1) (-1)); try done. intros q. by rewrite Hmem1, Hmem2, Hsame.
Qed.

Lemma history_order_independent_witness :
  ranges (mkHistory [mkPI 1 3] 0) = [mkPI 1 3].
Proof.
  apply (history_order_independent [1; 2; 3] [3; 1; 1; 2] (mkHistory [mkPI 1 3] 0) (mkHistory [mkPI 1 3] 0));
    [by repeat constructor|set_solver|by vm_compute|by vm_compute].
Defined.
