(* ===== verification/ReceivedTracker.v ===== *)
(** * Acknowledgement decisions (internal/ackhandler/received_packet_tracker.go,
    received_packet_handler.go)

    One tracker per packet number space: what was received, whether an ACK is
    queued, and when the ACK alarm fires; and the handler that owns the three
    trackers. *)

From S2P Require Import Prelude GoFloat VarInt Protocol AckFrame ReceivedHistory.

(** ** received_packet_handler.go: constants *)

Definition initialAckElicitingPacketsBeforeAck : Z := 2.
Definition ackElicitingPacketsBeforeAck : Z := 10.
Definition ackDecimationDelay : float := fconst64 1 4.
Definition shortAckDecimationDelay : float := fconst64 1 8.
Definition minReceivedBeforeAckDecimation : Z := 100.
Definition maxPacketsAfterNewMissing : Z := 4.

(** ** received_packet_tracker.go *)

Record receivedPacketTracker := mkTracker {
  largestObserved : PacketNumber;
  ignoreBelow : PacketNumber;
  largestObservedReceivedTime : time;
  packetHistory : receivedPacketHistory;
  maxAckDelay : duration;
  packetsReceivedSinceLastAck : Z;
  ackElicitingPacketsReceivedSinceLastAck : Z;
  ackQueued : bool;
  ackAlarm : time;
  lastAck : option AckFrame
}.

#[global] Instance tracker_eta : Eta receivedPacketTracker := fun h =>
  mkTracker (largestObserved h) (ignoreBelow h) (largestObservedReceivedTime h)
    (packetHistory h) (maxAckDelay h) (packetsReceivedSinceLastAck h)
    (ackElicitingPacketsReceivedSinceLastAck h) (ackQueued h) (ackAlarm h) (lastAck h).

Definition newReceivedPacketTracker : receivedPacketTracker :=
  mkTracker 0 0 zero_time newReceivedPacketHistory MaxAckDelay 0 0 false zero_time None.

Section Tracker.
Context `{FloatConv}.

(** isMissing says if a packet was reported missing in the last ACK. *)
Definition isMissing (h : receivedPacketTracker) (p : PacketNumber) : outcome bool :=
  match lastAck h with
  | None => mret false
  | Some ack =>
      if p <? ignoreBelow h then mret false else
      la ← LargestAcked ack;
      if p <? la then (acks ← AcksPacket ack p; mret (negb acks)) else mret false
  end.

Definition hasNewMissingPackets (h : receivedPacketTracker) : outcome bool :=
  match lastAck h with
  | None => mret false
  | Some ack =>
      let highestRange := GetHighestAckRange (packetHistory h) in
      la ← LargestAcked ack;
      mret ((la <=? Smallest highestRange) && (AckRange_Len highestRange <=? maxPacketsAfterNewMissing))
  end.

(** The part of [maybeQueueAck] for an ack-eliciting packet when no ACK is
    queued yet.  [minRTT] is what [rttStats.MinRTT()] returns. *)
Definition queueAckEliciting (h : receivedPacketTracker) (minRTT : duration)
    (packetNumber : PacketNumber) (rcvTime : time) : outcome receivedPacketTracker :=
  let h := h <| ackElicitingPacketsReceivedSinceLastAck :=
                 ackElicitingPacketsReceivedSinceLastAck h + 1 |> in
  let h :=
    if minReceivedBeforeAckDecimation <? packetNumber then
      (* ack up to 10 packets at once *)
      if ackElicitingPacketsBeforeAck <=? ackElicitingPacketsReceivedSinceLastAck h then
        h <| ackQueued := true |>
      else if IsZero (ackAlarm h) then
        (* wait for the minimum of the ack decimation delay or the delayed ack
           time before sending an ack *)
        let ackDelay := MinDuration (maxAckDelay h)
                          (f2int64 (fmul64 (float64 minRTT) ackDecimationDelay)) in
        h <| ackAlarm := Add rcvTime ackDelay |>
      else h
    else
      (* send an ACK every 2 ack-eliciting packets *)
      if initialAckElicitingPacketsBeforeAck <=? ackElicitingPacketsReceivedSinceLastAck h then
        h <| ackQueued := true |>
      else if IsZero (ackAlarm h) then
        h <| ackAlarm := Add rcvTime (maxAckDelay h) |>
      else h in
  (* If there are new missing packets to report, set a short timer to send an ACK. *)
  newMissing ← hasNewMissingPackets h;
  if (newMissing : bool) then
    (* wait the minimum of 1/8 min RTT and the existing ack time *)
    let ackDelay := f2int64 (fmul64 (float64 minRTT) shortAckDecimationDelay) in
    let ackTime := Add rcvTime ackDelay in
    if IsZero (ackAlarm h) || After (ackAlarm h) ackTime then
      mret (h <| ackAlarm := ackTime |>)
    else mret h
  else mret h.

Definition maybeQueueAck (h : receivedPacketTracker) (minRTT : duration)
    (packetNumber : PacketNumber) (rcvTime : time) (shouldInstigateAck wasMissing : bool) :
    outcome receivedPacketTracker :=
  let h := h <| packetsReceivedSinceLastAck := packetsReceivedSinceLastAck h + 1 |> in
  (* always ack the first packet *)
  match lastAck h with
  | None => mret (h <| ackQueued := true |>)
  | Some _ =>
      (* Send an ACK if this packet was reported missing in an ACK sent before. *)
      let h := if wasMissing then h <| ackQueued := true |> else h in
      h ← (if negb (ackQueued h) && shouldInstigateAck
           then queueAckEliciting h minRTT packetNumber rcvTime else mret h);
      (* cancel the ack alarm *)
      mret (if ackQueued h then h <| ackAlarm := zero_time |> else h)
  end.

(** [receivedPacketTracker.ReceivedPacket]: the new state, with the error that
    is returned to the caller, if any. *)
Definition tracker_ReceivedPacket (h : receivedPacketTracker) (minRTT : duration)
    (packetNumber : PacketNumber) (rcvTime : time) (shouldInstigateAck : bool) :
    outcome (receivedPacketTracker * option goerr) :=
  if packetNumber <? ignoreBelow h then mret (h, None) else
  missing ← isMissing h packetNumber;
  let h :=
    if largestObserved h <=? packetNumber then
      h <| largestObserved := packetNumber |> <| largestObservedReceivedTime := rcvTime |>
    else h in
  match history_ReceivedPacket (packetHistory h) packetNumber with
  | Error e => mret (h, Some e)
  | Panic s => Panic s
  | Ret hist =>
      h ← maybeQueueAck (h <| packetHistory := hist |>) minRTT packetNumber rcvTime
            shouldInstigateAck missing;
      mret (h, None)
  end.

End Tracker.

(** [receivedPacketTracker.IgnoreBelow] *)
Definition tracker_IgnoreBelow (h : receivedPacketTracker) (p : PacketNumber) :
    receivedPacketTracker :=
  if p <=? ignoreBelow h then h
  else h <| ignoreBelow := p |> <| packetHistory := DeleteBelow (packetHistory h) p |>.

(** [receivedPacketTracker.GetAckFrame] at time [now]. *)
Definition tracker_GetAckFrame (h : receivedPacketTracker) (now : time) :
    receivedPacketTracker * option AckFrame :=
  if negb (ackQueued h) && (IsZero (ackAlarm h) || After (ackAlarm h) now) then (h, None) else
  let ack := mkAckFrame (GetAckRanges (packetHistory h))
               (Sub now (largestObservedReceivedTime h)) in
  (h <| lastAck := Some ack |> <| ackAlarm := zero_time |> <| ackQueued := false |>
     <| packetsReceivedSinceLastAck := 0 |> <| ackElicitingPacketsReceivedSinceLastAck := 0 |>,
   Some ack).

(** ** received_packet_handler.go *)

(** A dropped packet number space is a nil tracker. *)
Record receivedPacketHandler := mkHandler {
  initialPackets : option receivedPacketTracker;
  handshakePackets : option receivedPacketTracker;
  oneRTTPackets : receivedPacketTracker
}.

#[global] Instance handler_eta : Eta receivedPacketHandler := fun h =>
  mkHandler (initialPackets h) (handshakePackets h) (oneRTTPackets h).

Definition NewReceivedPacketHandler : receivedPacketHandler :=
  mkHandler (Some newReceivedPacketTracker) (Some newReceivedPacketTracker) newReceivedPacketTracker.

(** [receivedPacketHandler.ReceivedPacket] *)
Definition handler_ReceivedPacket `{FloatConv} (h : receivedPacketHandler) (minRTT : duration)
    (pn : PacketNumber) (encLevel : EncryptionLevel) (rcvTime : time) (shouldInstigateAck : bool) :
    outcome (receivedPacketHandler * option goerr) :=
  match encLevel with
  | EncryptionInitial =>
      match initialPackets h with
      | None => Panic nil_dereference
      | Some t =>
          te ← tracker_ReceivedPacket t minRTT pn rcvTime shouldInstigateAck;
          mret (h <| initialPackets := Some (fst te) |>, snd te)
      end
  | EncryptionHandshake =>
      match handshakePackets h with
      | None => Panic nil_dereference
      | Some t =>
          te ← tracker_ReceivedPacket t minRTT pn rcvTime shouldInstigateAck;
          mret (h <| handshakePackets := Some (fst te) |>, snd te)
      end
  | Encryption1RTT =>
      te ← tracker_ReceivedPacket (oneRTTPackets h) minRTT pn rcvTime shouldInstigateAck;
      mret (h <| oneRTTPackets := fst te |>, snd te)
  | EncryptionUnspecified =>
      mret (h, Some (ErrorString "received packet with unknown encryption level: unknown"))
  end.

(** [receivedPacketHandler.IgnoreBelow] *)
Definition handler_IgnoreBelow (h : receivedPacketHandler) (pn : PacketNumber) : receivedPacketHandler :=
  h <| oneRTTPackets := tracker_IgnoreBelow (oneRTTPackets h) pn |>.

(** [receivedPacketHandler.DropPackets] *)
Definition handler_DropPackets (h : receivedPacketHandler) (encLevel : EncryptionLevel) :
    outcome receivedPacketHandler :=
  match encLevel with
  | EncryptionInitial => mret (h <| initialPackets := None |>)
  | EncryptionHandshake => mret (h <| handshakePackets := None |>)
  | _ => Panic "Cannot drop keys for encryption level"
  end.

(** [receivedPacketHandler.GetAlarmTimeout] *)
Definition handler_GetAlarmTimeout (h : receivedPacketHandler) : time :=
  let initialAlarm := from_option ackAlarm zero_time (initialPackets h) in
  let handshakeAlarm := from_option ackAlarm zero_time (handshakePackets h) in
  let oneRTTAlarm := ackAlarm (oneRTTPackets h) in
  MinNonZeroTime (MinNonZeroTime initialAlarm handshakeAlarm) oneRTTAlarm.

(** The Initial and Handshake branches of [GetAckFrame]: the frame returned is
    the one the tracker keeps as its last ACK, so that setting its delay to 0
    changes both. *)
Definition get_ack_no_delay (t : receivedPacketTracker) (now : time) :
    receivedPacketTracker * option AckFrame :=
  match tracker_GetAckFrame t now with
  | (t, None) => (t, None)
  | (t, Some ack) =>
      let ack := mkAckFrame (AckRanges ack) 0 in
      (t <| lastAck := Some ack |>, Some ack)
  end.

(** [receivedPacketHandler.GetAckFrame] *)
Definition handler_GetAckFrame (h : receivedPacketHandler) (encLevel : EncryptionLevel) (now : time) :
    receivedPacketHandler * option AckFrame :=
  match encLevel with
  | EncryptionInitial =>
      match initialPackets h with
      | None => (h, None)
      | Some t => let '(t, ack) := get_ack_no_delay t now in (h <| initialPackets := Some t |>, ack)
      end
  | EncryptionHandshake =>
      match handshakePackets h with
      | None => (h, None)
      | Some t => let '(t, ack) := get_ack_no_delay t now in (h <| handshakePackets := Some t |>, ack)
      end
  | Encryption1RTT =>
      let '(t, ack) := tracker_GetAckFrame (oneRTTPackets h) now in (h <| oneRTTPackets := t |>, ack)
  | EncryptionUnspecified => (h, None)
  end.

(** ** Invariant *)

(** An ACK will be sent: now, or when the alarm fires. *)
Definition ack_pending (h : receivedPacketTracker) : Prop :=
  ackQueued h = true \/ ackAlarm h <> zero_time.

Record tracker_ok (h : receivedPacketTracker) : Prop := {
  tok_history : intervals_wf (ranges (packetHistory h));
  tok_lowest : lowestInReceivedPacketNumbers (packetHistory h) = ignoreBelow h;
  tok_above : forall q, mem (ranges (packetHistory h)) q -> ignoreBelow h <= q;
  tok_lastAck : forall ack, lastAck h = Some ack -> ranges_wf (AckRanges ack);
  tok_pending : ack_pending h -> exists q, mem (ranges (packetHistory h)) q
}.

Lemma newReceivedPacketTracker_ok : tracker_ok newReceivedPacketTracker.
Proof.
  split; try done.
  - intros q Hq. by apply mem_nil in Hq.
  - intros [?|?]; done.
Qed.

Lemma LargestAcked_wf ack : ranges_wf (AckRanges ack) -> exists la, LargestAcked ack = Ret la.
Proof. destruct ack as [[|r l] d]; [done|]. intros _. by eexists. Qed.

Section Invariant.
Context `{FloatConv}.

Lemma isMissing_total h p : tracker_ok h -> exists b, isMissing h p = Ret b.
Proof.
  intros Hok. unfold isMissing. destruct (lastAck h) as [ack|] eqn:Hl; [|by eexists].
  pose proof (tok_lastAck h Hok _ Hl) as Hwf. case_if; [by eexists|].
  destruct (LargestAcked_wf ack Hwf) as [la Hla]. rewrite Hla. cbn. case_if; [|by eexists].
  destruct (AcksPacket_spec (AckRanges ack) (DelayTime ack) p Hwf) as (b & Hb & _).
  replace ack with (mkAckFrame (AckRanges ack) (DelayTime ack)) by by destruct ack.
  rewrite Hb. by eexists.
Qed.

Lemma hasNewMissingPackets_total h :
  (forall ack, lastAck h = Some ack -> ranges_wf (AckRanges ack)) ->
  exists b, hasNewMissingPackets h = Ret b.
Proof.
  intros Hwf. unfold hasNewMissingPackets. destruct (lastAck h) as [ack|]; [|by eexists].
  destruct (LargestAcked_wf ack) as [la Hla]; [by apply Hwf|]. rewrite Hla. by eexists.
Qed.

(** The fields the ACK decision leaves alone. *)
Definition same_record (h h' : receivedPacketTracker) : Prop :=
  packetHistory h' = packetHistory h /\ ignoreBelow h' = ignoreBelow h /\
  lastAck h' = lastAck h /\ maxAckDelay h' = maxAckDelay h.

Lemma queueAckEliciting_total h minRTT p t :
  (forall ack, lastAck h = Some ack -> ranges_wf (AckRanges ack)) ->
  exists h', queueAckEliciting h minRTT p t = Ret h' /\ same_record h h'.
Proof.
  intros Hwf. unfold queueAckEliciting.
  match goal with |- context [hasNewMissingPackets ?x] => set (h1 := x) end.
  assert (Hs : same_record h h1) by (unfold h1, same_record; case_ifs; done).
  destruct (hasNewMissingPackets_total h1) as [b ->].
  { intros ack Ha. apply Hwf. destruct Hs as (_ & _ & Hs & _). congruence. }
  clearbody h1. cbn. case_ifs; by eexists.
Qed.

Lemma maybeQueueAck_total h minRTT p t e m :
  (forall ack, lastAck h = Some ack -> ranges_wf (AckRanges ack)) ->
  exists h', maybeQueueAck h minRTT p t e m = Ret h' /\ same_record h h'.
Proof.
  intros Hwf. unfold maybeQueueAck. cbn [lastAck over].
  destruct (lastAck h) as [ack|] eqn:Hl; [|by eexists].
  match goal with |- context [queueAckEliciting ?x] => set (h1 := x) end.
  assert (Hs : same_record h h1) by (unfold h1, same_record; case_ifs; done). clearbody h1.
  assert (exists h2, (if negb (ackQueued h1) && e then queueAckEliciting h1 minRTT p t else mret h1) = Ret h2
    /\ same_record h h2) as (h2 & -> & Hs2).
  { case_if; [|by eexists]. destruct (queueAckEliciting_total h1 minRTT p t) as (h2 & Hq & Hs').
    - destruct Hs as (_ & _ & Hs & _). rewrite Hs, Hl. intros ? [= <-]. by apply Hwf.
    - exists h2. split; [done|]. unfold same_record in *. intuition congruence. }
  cbn. case_if; by eexists.
Qed.

(** Receiving a packet never panics, keeps the invariant, and records the
    packet exactly when it is not ignored and the history is not full. *)
Lemma tracker_ReceivedPacket_ok h minRTT p t e :
  tracker_ok h -> 0 <= p < 2 ^ 62 ->
  exists h' err, tracker_ReceivedPacket h minRTT p t e = Ret (h', err) /\ tracker_ok h' /\
    ignoreBelow h' = ignoreBelow h /\
    (err = None -> forall q, mem (ranges (packetHistory h')) q <->
       mem (ranges (packetHistory h)) q \/ q = p /\ ignoreBelow h <= p) /\
    (err <> None -> MaxTrackedReceivedAckRanges <= Z.of_nat (length (ranges (packetHistory h))) /\
       packetHistory h' = packetHistory h).
Proof.
  intros Hok Hp. unfold tracker_ReceivedPacket. case_if; zbool.
  { exists h, None. split_and!; try done. intros _ q. intuition lia. }
  destruct (isMissing_total h p Hok) as [m ->]. cbn.
  match goal with |- context [history_ReceivedPacket (packetHistory ?x)] => set (h1 := x) end.
  assert (Hs : same_record h h1 /\ ackQueued h1 = ackQueued h /\ ackAlarm h1 = ackAlarm h)
    by (unfold h1, same_record; case_ifs; done).
  clearbody h1. destruct Hs as ((Hh & Hi & Hl & Hd) & Hq1 & Ha1). rewrite Hh.
  destruct Hok as [Hwf Hlow Habove Hack Hpend].
  destruct (Z.lt_ge_cases (Z.of_nat (length (ranges (packetHistory h)))) MaxTrackedReceivedAckRanges) as [Hlt|Hge].
  - destruct (history_ReceivedPacket_Ret _ p Hwf Hp Hlt) as (hist & -> & Hwf' & Hlow' & Hmem).
    destruct (maybeQueueAck_total (h1 <| packetHistory := hist |>) minRTT p t e m) as (h2 & -> & Hh2 & Hi2 & Hl2 & _).
    { cbn. rewrite Hl. done. }
    cbn in Hh2, Hi2, Hl2. cbn. exists h2, None. split; [done|]. split; [|split_and!].
    + split.
      * by rewrite Hh2.
      * rewrite Hh2, Hi2, Hi. congruence.
      * intros q. rewrite Hh2, Hi2, Hi, Hmem. intros [->|Hm]; [done|]. by apply Habove.
      * rewrite Hl2, Hl. done.
      * intros _. exists p. rewrite Hh2, Hmem. by left.
    + congruence.
    + intros _ q. rewrite Hh2, Hmem. intuition.
    + done.
  - rewrite history_ReceivedPacket_Error by done. cbn. exists h1, (Some errTooManyOutstandingReceivedAckRanges).
    split; [done|]. split; [|split_and!; try done].
    split; rewrite ?Hh, ?Hi, ?Hl; try done.
    unfold ack_pending. rewrite Hq1, Ha1. done.
Qed.

End Invariant.

Lemma tracker_IgnoreBelow_ok h p :
  tracker_ok h ->
  (ack_pending h -> exists q, mem (ranges (packetHistory h)) q /\ p <= q) ->
  tracker_ok (tracker_IgnoreBelow h p) /\
  (forall q, mem (ranges (packetHistory (tracker_IgnoreBelow h p))) q <->
     mem (ranges (packetHistory h)) q /\ p <= q).
Proof.
  intros [Hwf Hlow Habove Hack Hpend] Hp. unfold tracker_IgnoreBelow. case_if; zbool.
  { split; [done|]. intros q. split; [|tauto]. intros Hq. specialize (Habove q Hq). split; [done|lia]. }
  unfold DeleteBelow. rewrite Hlow, (proj2 (Z.leb_gt _ _)) by lia.
  destruct (delete_loop_correct p _ _ Hwf) as [Hd Hmem]. split; [|intros q; apply Hmem].
  split; cbn.
  - eapply ascending_weaken; [exact Hd|lia].
  - done.
  - intros q Hq. by destruct (proj1 (Hmem q) Hq).
  - done.
  - intros Hpd. destruct (Hp Hpd) as (q & Hq & Hle). exists q. by apply Hmem.
Qed.

Lemma tracker_GetAckFrame_ok h now h' ack :
  tracker_ok h -> tracker_GetAckFrame h now = (h', ack) ->
  tracker_ok h' /\ packetHistory h' = packetHistory h /\
  (forall f, ack = Some f -> ranges_wf (AckRanges f) /\
     (forall q, acked_in (AckRanges f) q <-> mem (ranges (packetHistory h)) q)).
Proof.
  intros Hok. unfold tracker_GetAckFrame.
  destruct (negb (ackQueued h) && (IsZero (ackAlarm h) || After (ackAlarm h) now)) eqn:Hc.
  { intros [= <- <-]. split_and!; done. }
  intros [= <- <-].
  assert (Hpd : ack_pending h).
  { unfold ack_pending. apply andb_false_iff in Hc as [Hc|Hc]; zbool; [by left|right].
    unfold IsZero in *. zbool. done. }
  assert (Hgood : ranges_wf (GetAckRanges (packetHistory h))).
  { destruct (tok_pending h Hok Hpd) as [q Hq]. apply GetAckRanges_wf; [apply Hok|].
    intros Hnil. rewrite Hnil in Hq. by apply mem_nil in Hq. }
  destruct Hok as [Hwf Hlow Habove Hack Hpend]. split; [split; cbn; try done|split; [done|]].
  - intros f [= <-]. done.
  - intros [?|?]; done.
  - intros f [= <-]. split; [done|]. intros q. apply GetAckRanges_acked.
Qed.

(** The trackers of a session at time [now], whatever was received, acknowledged and ignored. *)
Definition tracker_at (now : time) (t : receivedPacketTracker) : Prop :=
  intervals_wf (ranges (packetHistory t)) /\ largestObservedReceivedTime t <= now.

Definition opt_at (now : time) (t : option receivedPacketTracker) : Prop :=
  match t with Some t => tracker_at now t | None => True end.

Record acks_ok (now : time) (h : receivedPacketHandler) : Prop := {
  ao_initial : opt_at now (initialPackets h);
  ao_handshake : opt_at now (handshakePackets h);
  ao_oneRTT : tracker_at now (oneRTTPackets h)
}.

(** The ACK frames that a tracker gives can be written, unless they have no ranges. *)
Definition ack_writable (ack : option AckFrame) : Prop := forall f, ack = Some f -> AckRanges f <> [] -> encodable f.

Lemma tracker_at_ack now t t' ack :
  tracker_at now t -> tracker_GetAckFrame t now = (t', ack) -> tracker_at now t' /\ ack_writable ack.
Proof.
  intros [Hwf Ht]. unfold tracker_GetAckFrame. case_if; intros [= <- <-]; [done|]. split; [done|]. intros f [= <-] Hne. split; cbn in *.
  - apply GetAckRanges_wf; [done|]. intros E. apply Hne. unfold GetAckRanges. by rewrite E.
  - pose proof (Sub_range now (largestObservedReceivedTime t)). unfold Sub, MinInt64, MaxInt64 in *. repeat case_if; zbool; go_range.
Qed.

Lemma get_ack_no_delay_at now t t' ack :
  tracker_at now t -> get_ack_no_delay t now = (t', ack) -> tracker_at now t' /\ ack_writable ack.
Proof.
  intros Hat. unfold get_ack_no_delay. destruct (tracker_GetAckFrame t now) as [t1 [f|]] eqn:E; intros [= <- <-];
    destruct (tracker_at_ack now t t1 _ Hat E) as [Ht Henc]; [|done].
  split; [done|]. intros f' [= <-] Hne. destruct (Henc f eq_refl Hne) as [Hw _]. split; [done|]. cbn. lia.
Qed.

Lemma handler_GetAckFrame_ok now h lvl h' ack :
  acks_ok now h -> handler_GetAckFrame h lvl now = (h', ack) -> acks_ok now h' /\ ack_writable ack.
Proof.
  intros [Hi Hh Ho]. unfold handler_GetAckFrame. destruct lvl; [by intros [= <- <-]|..].
  - destruct (initialPackets h) as [t|] eqn:Et; [|intros [= <- <-]; split; [by split; rewrite ?Et|done]].
    destruct (get_ack_no_delay t now) as [t' a] eqn:E. intros [= <- <-]. by destruct (get_ack_no_delay_at now t t' a Hi E).
  - destruct (handshakePackets h) as [t|] eqn:Et; [|intros [= <- <-]; split; [by split; rewrite ?Et|done]].
    destruct (get_ack_no_delay t now) as [t' a] eqn:E. intros [= <- <-]. by destruct (get_ack_no_delay_at now t t' a Hh E).
  - destruct (tracker_GetAckFrame (oneRTTPackets h) now) as [t' a] eqn:E. intros [= <- <-].
    by destruct (tracker_at_ack now _ t' a Ho E).
Qed.

(** ** Runs of a tracker *)

(** The calls of a session on one tracker.  [IgnoreBelow] is only called for a
    packet number that does not lie above everything received while an ACK is
    pending. *)
Inductive tracker_step `{FloatConv} : receivedPacketTracker -> receivedPacketTracker -> Prop :=
| step_receive h minRTT p t e h' err :
    0 <= p < 2 ^ 62 -> tracker_ReceivedPacket h minRTT p t e = Ret (h', err) -> tracker_step h h'
| step_ignore h p :
    (ack_pending h -> exists q, mem (ranges (packetHistory h)) q /\ p <= q) ->
    tracker_step h (tracker_IgnoreBelow h p)
| step_get h now h' ack :
    tracker_GetAckFrame h now = (h', ack) -> tracker_step h h'.

Lemma tracker_step_ok `{FloatConv} h h' : tracker_ok h -> tracker_step h h' -> tracker_ok h'.
Proof.
  intros Hok Hs. destruct Hs as [h minRTT p t e h' err Hp Hr|h p Hp|h now h' ack Hg].
  - destruct (tracker_ReceivedPacket_ok h minRTT p t e Hok Hp) as (h'' & err' & Hr' & Hok' & _).
    rewrite Hr in Hr'. by simplify_eq.
  - by apply tracker_IgnoreBelow_ok.
  - by eapply tracker_GetAckFrame_ok.
Qed.

Lemma tracker_reachable_ok `{FloatConv} h :
  rtc tracker_step newReceivedPacketTracker h -> tracker_ok h.
Proof.
  intros Hr. pose proof newReceivedPacketTracker_ok as Hok. revert Hok.
  induction Hr as [|h1 h2 h3 Hs _ IH]; [done|]. intros Hok. apply IH. by eapply tracker_step_ok.
Qed.

(** ** Properties *)

(** A tracker that has only been used through its methods, where
    [IgnoreBelow] never drops everything an ACK is still owed for, never panics
    on a received packet: it records the packet (unless it is below the ignored
    bound), or reports an error and records nothing, which happens only with
    [MaxTrackedReceivedAckRanges] ranges. *)
Theorem tracker_receive_total `{FloatConv} h minRTT p t e :
  rtc tracker_step newReceivedPacketTracker h -> 0 <= p < 2 ^ 62 ->
  exists h' err, tracker_ReceivedPacket h minRTT p t e = Ret (h', err) /\
    (err = None -> forall q, mem (ranges (packetHistory h')) q <->
       mem (ranges (packetHistory h)) q \/ q = p /\ ignoreBelow h <= p) /\
    (err <> None -> MaxTrackedReceivedAckRanges <= Z.of_nat (length (ranges (packetHistory h))) /\
       packetHistory h' = packetHistory h).
Proof.
  intros Hr Hp. destruct (tracker_ReceivedPacket_ok h minRTT p t e (tracker_reachable_ok h Hr) Hp)
    as (h' & err & H1 & _ & _ & H2 & H3). by exists h', err.
Qed.

(** Packet 5 is received. *)
Definition tracker_5 : receivedPacketTracker :=
  newReceivedPacketTracker
    <| largestObserved := 5 |> <| largestObservedReceivedTime := 1000 |>
    <| packetHistory := mkHistory [mkPI 5 5] 0 |> <| packetsReceivedSinceLastAck := 1 |>
    <| ackQueued := true |>.

Lemma tracker_5_reachable : rtc (@tracker_step amd64) newReceivedPacketTracker tracker_5.
Proof.
  eapply rtc_l; [|apply rtc_refl].
  apply (@step_receive amd64 newReceivedPacketTracker 0 5 1000 true tracker_5 None); by vm_compute.
Qed.

Lemma tracker_receive_total_witness :
  exists h' err, @tracker_ReceivedPacket amd64 tracker_5 0 7 2000 true = Ret (h', err) /\
    (err = None -> forall q, mem (ranges (packetHistory h')) q <->
       mem (ranges (packetHistory tracker_5)) q \/ q = 7 /\ ignoreBelow tracker_5 <= 7) /\
    (err <> None -> MaxTrackedReceivedAckRanges <= Z.of_nat (length (ranges (packetHistory tracker_5))) /\
       packetHistory h' = packetHistory tracker_5).
Proof. apply (@tracker_receive_total amd64 tracker_5 0 7 2000 true tracker_5_reachable). by vm_compute. Defined.

(** The ACK frames such a tracker produces acknowledge exactly the packets
    in its history, are well formed, and, when the clock has not gone back, can
    be written to the wire without a panic. *)
Theorem tracker_ack_exact `{FloatConv} h now h' f :
  rtc tracker_step newReceivedPacketTracker h -> tracker_GetAckFrame h now = (h', Some f) ->
  ranges_wf (AckRanges f) /\
  (forall q, acked_in (AckRanges f) q <-> mem (ranges (packetHistory h)) q) /\
  (largestObservedReceivedTime h <= now -> exists bs, writeAckFrame [] f = Ret bs).
Proof.
  intros Hr Hg. destruct (tracker_GetAckFrame_ok h now h' (Some f) (tracker_reachable_ok h Hr) Hg)
    as (_ & _ & Hf). destruct (Hf f eq_refl) as [Hwf Hq]. split_and!; [done|done|]. intros Ht.
  unfold tracker_GetAckFrame in Hg. case_if_in Hg; [done|]. injection Hg as _ <-.
  assert (Henc : encodable (mkAckFrame (GetAckRanges (packetHistory h)) (Sub now (largestObservedReceivedTime h)))).
  { split; [done|]. cbn. pose proof (Sub_range now (largestObservedReceivedTime h)).
    unfold Sub, MinInt64, MaxInt64 in *. repeat case_if; zbool; go_range. }
  destruct (GetAckRanges (packetHistory h)) as [|r0 l]; [by destruct Henc|].
  destruct (writeAckFrame_bytes [] r0 l _ Henc) as (n & _ & _ & _ & _ & Hw & _). eauto.
Qed.

Lemma tracker_ack_exact_witness :
  acked_in [mkAckRange 5 5] 5 <-> mem [mkPI 5 5] 5.
Proof.
  exact (proj1 (proj2 (@tracker_ack_exact amd64 tracker_5 3000 (fst (tracker_GetAckFrame tracker_5 3000))
    (mkAckFrame [mkAckRange 5 5] 2000) tracker_5_reachable eq_refl)) 5).
Defined.

(** The calls of a connection whose peer numbers its packets out of order. *)
Definition crash_trace `{FloatConv} : outcome (option AckFrame) :=
  r ← tracker_ReceivedPacket newReceivedPacketTracker 0 5 1000 true;
  let h := fst (tracker_GetAckFrame (fst r) 1000) in
  (* packet 3 was reported missing: an ACK is queued *)
  r ← tracker_ReceivedPacket h 0 3 2000 true;
  (* packet 4 acknowledges the ACK of packet 5 *)
  let h := tracker_IgnoreBelow (fst r) 6 in
  r ← tracker_ReceivedPacket h 0 4 3000 true;
  mret (snd (tracker_GetAckFrame (fst r) 3000)).

(** Without that restriction on [IgnoreBelow] the tracker produces an ACK
    frame with no ranges, and computing its length (which happens before it is
    packed) panics with an index out of range: an ACK queued for an old packet
    survives the deletion of everything below the confirmed ACK. *)
Theorem tracker_empty_ack `{FloatConv} :
  exists f, crash_trace = Ret (Some f) /\ AckRanges f = [] /\ exists s, lengthAckFrame f = Panic s.
Proof. eexists. split; [vm_compute; reflexivity|]. split; [done|]. eexists. by vm_compute. Qed.
