(* ===== verification/FlowControl.v ===== *)
(** * Flow control (internal/flowcontrol)

    The accounting shared by streams and the connection
    (base_flow_controller.go), the connection's controller and the streams'
    controllers, which call the connection's through an interface.  What a call
    reads from outside (the clock, the smoothed RTT) is an argument; a call of
    the [queueWindowUpdate] callback is part of the result.  The mutexes only
    serialise the calls. *)

From Stdlib Require Import Sorted.
From S2P Require Import Prelude GoFloat Protocol.

(** ** Constants (params.go, error_codes.go) *)

Definition ConnectionFlowControlMultiplier : float := fconst64 3 2.
Definition FlowControlError : Z := 0x3.
Definition FinalSizeError : Z := 0x6.

(** ** base_flow_controller.go *)

Record baseFlowController := mkBase {
  (* for sending data *)
  bytesSent : ByteCount;
  sendWindow : ByteCount;
  lastBlockedAt : ByteCount;
  (* for receiving data *)
  bytesRead : ByteCount;
  highestReceived : ByteCount;
  receiveWindow : ByteCount;
  receiveWindowSize : ByteCount;
  maxReceiveWindowSize : ByteCount;
  epochStartTime : time;
  epochStartOffset : ByteCount
}.

#[global] Instance base_eta : Eta baseFlowController := fun c =>
  mkBase (bytesSent c) (sendWindow c) (lastBlockedAt c) (bytesRead c) (highestReceived c)
    (receiveWindow c) (receiveWindowSize c) (maxReceiveWindowSize c) (epochStartTime c)
    (epochStartOffset c).

Definition sendWindowSize (c : baseFlowController) : ByteCount :=
  (* this only happens during connection establishment, when data is sent
     before we receive the peer's transport parameters *)
  if sendWindow c <? bytesSent c then 0 else sendWindow c - bytesSent c.

Definition IsNewlyBlocked (c : baseFlowController) : baseFlowController * (bool * ByteCount) :=
  if negb (sendWindowSize c =? 0) || (sendWindow c =? lastBlockedAt c) then (c, (false, 0))
  else (c <| lastBlockedAt := sendWindow c |>, (true, sendWindow c)).

Definition AddBytesSent (c : baseFlowController) (n : ByteCount) : baseFlowController :=
  c <| bytesSent := uint64 (bytesSent c + n) |>.

Definition UpdateSendWindow (c : baseFlowController) (offset : ByteCount) : baseFlowController :=
  if sendWindow c <? offset then c <| sendWindow := offset |> else c.

Definition startNewAutoTuningEpoch (c : baseFlowController) (now : time) : baseFlowController :=
  c <| epochStartTime := now |> <| epochStartOffset := bytesRead c |>.

Definition AddBytesRead (c : baseFlowController) (now : time) (n : ByteCount) : baseFlowController :=
  (* pretend we sent a WindowUpdate when reading the first byte *)
  let c := if bytesRead c =? 0 then startNewAutoTuningEpoch c now else c in
  c <| bytesRead := uint64 (bytesRead c + n) |>.

Definition checkFlowControlViolation (c : baseFlowController) : bool :=
  receiveWindow c <? highestReceived c.

Section Base.
Context `{FloatConv}.

(** [float64((1 - protocol.WindowUpdateThreshold))] is the constant [1 - 0.25]. *)
Definition hasWindowUpdate (c : baseFlowController) : bool :=
  let bytesRemaining := uint64 (receiveWindow c - bytesRead c) in
  bytesRemaining <=? f2uint64 (fmul64 (float64 (receiveWindowSize c)) (fconst64 3 4)).

Definition maybeAdjustWindowSize (c : baseFlowController) (now : time) (rtt : duration) :
    baseFlowController :=
  let bytesReadInEpoch := uint64 (bytesRead c - epochStartOffset c) in
  (* don't do anything if less than half the window has been consumed *)
  if bytesReadInEpoch <=? receiveWindowSize c / 2 then c else
  if rtt =? 0 then c else
  let fraction := fdiv64 (float64 bytesReadInEpoch) (float64 (receiveWindowSize c)) in
  let c :=
    if Sub now (epochStartTime c) <?
       f2int64 (fmul64 (fmul64 (fconst64 4 1) fraction) (float64 rtt))
    then (* window is consumed too fast, try to increase the window size *)
      c <| receiveWindowSize :=
        MinByteCount (uint64 (2 * receiveWindowSize c)) (maxReceiveWindowSize c) |>
    else c in
  startNewAutoTuningEpoch c now.

(** [getWindowUpdate]: the new offset, or 0. *)
Definition getWindowUpdate (c : baseFlowController) (now : time) (rtt : duration) :
    baseFlowController * ByteCount :=
  if negb (hasWindowUpdate c) then (c, 0) else
  let c := maybeAdjustWindowSize c now rtt in
  let c := c <| receiveWindow := uint64 (bytesRead c + receiveWindowSize c) |> in
  (c, receiveWindow c).

(** ** The interface of the connection's controller (interface.go) *)

Class ConnectionFlowControllerI (C : Type) : Type := {
  conn_SendWindowSize : C -> ByteCount;
  conn_AddBytesSent : C -> ByteCount -> C;
  (* whether a window update is queued *)
  conn_AddBytesRead : C -> time -> ByteCount -> C * bool;
  conn_IncrementHighestReceived : C -> ByteCount -> C * option goerr;
  conn_EnsureMinimumWindowSize : C -> time -> ByteCount -> C
}.

(** ** connection_flow_controller.go *)

(** [type connectionFlowController struct { baseFlowController; ... }] *)
Record connectionFlowController := mkConnFC { cfc_base : baseFlowController }.

#[global] Instance connfc_eta : Eta connectionFlowController := fun c => mkConnFC (cfc_base c).

Definition NewConnectionFlowController (receiveWindow maxReceiveWindow : ByteCount) :
    connectionFlowController :=
  mkConnFC (mkBase 0 0 0 0 0 receiveWindow receiveWindow maxReceiveWindow zero_time 0).

Definition IncrementHighestReceived (c : connectionFlowController) (increment : ByteCount) :
    connectionFlowController * option goerr :=
  let b := cfc_base c in
  let b := b <| highestReceived := uint64 (highestReceived b + increment) |> in
  (c <| cfc_base := b |>,
   if checkFlowControlViolation b then
     Some (QuicError FlowControlError
       (Errorf "Received %d bytes for the connection, allowed %d bytes" [highestReceived b; receiveWindow b]))
   else None).

(** [connectionFlowController.AddBytesRead], then [maybeQueueWindowUpdate]. *)
Definition connection_AddBytesRead (c : connectionFlowController) (now : time) (n : ByteCount) :
    connectionFlowController * bool :=
  let c := c <| cfc_base := AddBytesRead (cfc_base c) now n |> in
  (c, hasWindowUpdate (cfc_base c)).

Definition connection_GetWindowUpdate (c : connectionFlowController) (now : time) (rtt : duration) :
    connectionFlowController * ByteCount :=
  let '(b, offset) := getWindowUpdate (cfc_base c) now rtt in
  (c <| cfc_base := b |>, offset).

Definition EnsureMinimumWindowSize (c : connectionFlowController) (now : time) (inc : ByteCount) :
    connectionFlowController :=
  let b := cfc_base c in
  if receiveWindowSize b <? inc then
    let b := b <| receiveWindowSize := MinByteCount inc (maxReceiveWindowSize b) |> in
    c <| cfc_base := startNewAutoTuningEpoch b now |>
  else c.

#[global] Instance connectionFlowController_I : ConnectionFlowControllerI connectionFlowController := {
  conn_SendWindowSize c := sendWindowSize (cfc_base c);
  conn_AddBytesSent c n := c <| cfc_base := AddBytesSent (cfc_base c) n |>;
  conn_AddBytesRead := connection_AddBytesRead;
  conn_IncrementHighestReceived := IncrementHighestReceived;
  conn_EnsureMinimumWindowSize := EnsureMinimumWindowSize
}.

(** ** stream_flow_controller.go *)

Record streamFlowController := mkStreamFC {
  sfc_base : baseFlowController;
  sfc_streamID : StreamID;
  receivedFinalOffset : bool
}.

#[global] Instance streamfc_eta : Eta streamFlowController := fun s =>
  mkStreamFC (sfc_base s) (sfc_streamID s) (receivedFinalOffset s).

Definition NewStreamFlowController (streamID : StreamID)
    (receiveWindow maxReceiveWindow initialSendWindow : ByteCount) : streamFlowController :=
  mkStreamFC (mkBase 0 initialSendWindow 0 0 0 receiveWindow receiveWindow maxReceiveWindow zero_time 0)
    streamID false.

(** The methods that call the connection's controller [c], shared by all the
    streams, take and return it. *)
Section Stream.
Context {C : Type} `{!ConnectionFlowControllerI C}.

Definition UpdateHighestReceived (s : streamFlowController) (c : C) (offset : ByteCount) (final : bool) :
    streamFlowController * C * option goerr :=
  let hr := highestReceived (sfc_base s) in
  (* If the final offset for this stream is already known, check for consistency. *)
  if receivedFinalOffset s && final && negb (offset =? hr) then
    (s, c, Some (QuicError FinalSizeError
      (Errorf "Received inconsistent final offset for stream %d (old: %#x, new: %#x bytes)"
        [sfc_streamID s; hr; offset])))
  else if receivedFinalOffset s && (hr <? offset) then
    (s, c, Some (QuicError FinalSizeError
      (Errorf "Received offset %#x for stream %d. Final offset was already received at %#x"
        [offset; sfc_streamID s; hr])))
  else
  let s := if final then s <| receivedFinalOffset := true |> else s in
  if offset =? hr then (s, c, None) else
  (* A higher offset was received before.  This can happen due to reordering. *)
  if offset <=? hr then
    (s, c, if final then
             Some (QuicError FinalSizeError
               (Errorf "Received final offset %#x for stream %d, but already received offset %#x before"
                 [offset; sfc_streamID s; hr]))
           else None)
  else
  let increment := offset - hr in
  let s := s <| sfc_base := sfc_base s <| highestReceived := offset |> |> in
  if checkFlowControlViolation (sfc_base s) then
    (s, c, Some (QuicError FlowControlError
      (Errorf "Received %#x bytes on stream %d, allowed %#x bytes"
        [offset; sfc_streamID s; receiveWindow (sfc_base s)])))
  else
  let '(c, err) := conn_IncrementHighestReceived c increment in (s, c, err).

(** [AddBytesRead]: whether updates of the stream's and of the connection's
    window are queued. *)
Definition stream_AddBytesRead (s : streamFlowController) (c : C) (now : time) (n : ByteCount) :
    streamFlowController * C * (bool * bool) :=
  let s := s <| sfc_base := AddBytesRead (sfc_base s) now n |> in
  let queued := negb (receivedFinalOffset s) && hasWindowUpdate (sfc_base s) in
  let '(c, connQueued) := conn_AddBytesRead c now n in
  (s, c, (queued, connQueued)).

Definition Abandon (s : streamFlowController) (c : C) (now : time) : C * bool :=
  let unread := uint64 (highestReceived (sfc_base s) - bytesRead (sfc_base s)) in
  if 0 <? unread then conn_AddBytesRead c now unread else (c, false).

Definition stream_AddBytesSent (s : streamFlowController) (c : C) (n : ByteCount) :
    streamFlowController * C :=
  (s <| sfc_base := AddBytesSent (sfc_base s) n |>, conn_AddBytesSent c n).

Definition stream_SendWindowSize (s : streamFlowController) (c : C) : ByteCount :=
  MinByteCount (sendWindowSize (sfc_base s)) (conn_SendWindowSize c).

Definition stream_GetWindowUpdate (s : streamFlowController) (c : C) (now : time) (rtt : duration) :
    streamFlowController * C * ByteCount :=
  (* if we already received the final offset for this stream, the peer won't
     need any additional flow control credit *)
  if receivedFinalOffset s then (s, c, 0) else
  let oldWindowSize := receiveWindowSize (sfc_base s) in
  let '(b, offset) := getWindowUpdate (sfc_base s) now rtt in
  let s := s <| sfc_base := b |> in
  let c :=
    if oldWindowSize <? receiveWindowSize b then (* auto-tuning enlarged the window size *)
      conn_EnsureMinimumWindowSize c now
        (f2uint64 (fmul64 (float64 (receiveWindowSize b)) ConnectionFlowControlMultiplier))
    else c in
  (s, c, offset).

End Stream.
End Base.

(** ** One controller *)

(** The receiving side: what counts as read has been received, except for [excess] bytes, what
    has been received was allowed, and what is allowed fits in the window. *)
Record recv_within (excess : Z) (b : baseFlowController) : Prop := {
  ro_epoch : 0 <= epochStartOffset b <= bytesRead b;
  ro_read : bytesRead b <= highestReceived b + excess;
  ro_allowed : highestReceived b <= receiveWindow b;
  ro_window : receiveWindow b <= bytesRead b + receiveWindowSize b;
  ro_size : 0 < receiveWindowSize b <= maxReceiveWindowSize b;
  ro_max : maxReceiveWindowSize b < 2 ^ 50;
  ro_excess : 0 <= excess;
  ro_range : 0 <= highestReceived b /\ highestReceived b + excess < 2 ^ 63
}.

Notation recv_ok := (recv_within 0).

(** What a change of the windows leaves alone, and in which direction they move. *)
Record window_step (b b' : baseFlowController) : Prop := {
  ws_read : bytesRead b' = bytesRead b;
  ws_received : highestReceived b' = highestReceived b;
  ws_window : receiveWindow b <= receiveWindow b';
  ws_size : receiveWindowSize b <= receiveWindowSize b';
  ws_max : maxReceiveWindowSize b' = maxReceiveWindowSize b
}.

Section Receive.
Context `{FloatConv}.

Lemma threequarters_dyadic : dyadic (fconst64 3 4) 3 2.
Proof. eexists _, 51. split; [reflexivity|done]. Qed.

Lemma hasWindowUpdate_spec b :
  recv_ok b ->
  hasWindowUpdate b = (receiveWindow b - bytesRead b <=? receiveWindowSize b * 3 / 4).
Proof.
  intros []. unfold hasWindowUpdate.
  rewrite (f2uint64_mul _ _ 3 2 threequarters_dyadic), uint64_id by go_range. done.
Qed.

(** With an excess the unsigned difference can wrap around: then there is no update. *)
Lemma hasWindowUpdate_within excess b :
  recv_within excess b -> hasWindowUpdate b = true -> 0 <= receiveWindow b - bytesRead b <= receiveWindowSize b * 3 / 4.
Proof.
  intros []. unfold hasWindowUpdate. rewrite (f2uint64_mul _ _ 3 2 threequarters_dyadic) by go_range. intros Hle. zbool.
  assert (receiveWindowSize b * 3 / 4 <= receiveWindowSize b) by (apply Z.div_le_upper_bound; lia). unfold uint64 in Hle. change (2 ^ 2) with 4 in Hle.
  destruct (Z.lt_ge_cases (receiveWindow b - bytesRead b) 0).
  - replace ((receiveWindow b - bytesRead b) mod 2 ^ 64) with (receiveWindow b - bytesRead b + 2 ^ 64) in Hle; [lia|].
    apply Z.mod_unique with (-1); lia.
  - rewrite Z.mod_small in Hle by lia. lia.
Qed.

Lemma MinByteCount_min a b : MinByteCount a b = Z.min a b.
Proof. unfold MinByteCount. case_if; zbool; lia. Qed.

(** A larger window size, from a new epoch. *)
Lemma grow_window_ok excess b size now :
  recv_within excess b -> receiveWindowSize b <= size <= maxReceiveWindowSize b ->
  let b' := startNewAutoTuningEpoch (b <| receiveWindowSize := size |>) now in
  recv_within excess b' /\ window_step b b'.
Proof. intros [] Hs. split; split; cbn; lia. Qed.

Lemma maybeAdjustWindowSize_ok excess b now rtt :
  recv_within excess b -> recv_within excess (maybeAdjustWindowSize b now rtt) /\ window_step b (maybeAdjustWindowSize b now rtt).
Proof.
  intros Hok. unfold maybeAdjustWindowSize.
  assert (Hrefl : window_step b b) by (split; lia).
  case_if; [done|]. case_if; [done|]. case_if.
  - apply grow_window_ok; [done|]. destruct Hok. rewrite MinByteCount_min, uint64_id by go_range. lia.
  - destruct Hok. split; split; cbn; lia.
Qed.

(** The offset announced is the window's new end; the window never moves
    back, and the peer is told about at least a quarter of it. *)
Lemma getWindowUpdate_ok excess b now rtt b' off :
  recv_within excess b -> getWindowUpdate b now rtt = (b', off) ->
  recv_within excess b' /\ window_step b b' /\
  (hasWindowUpdate b = false /\ off = 0 /\ b' = b \/
   hasWindowUpdate b = true /\ off = receiveWindow b' /\ off = bytesRead b + receiveWindowSize b' /\
   receiveWindowSize b <= 4 * (off - receiveWindow b)).
Proof.
  intros Hok. unfold getWindowUpdate. pose proof (hasWindowUpdate_within excess b Hok) as Hu.
  destruct (hasWindowUpdate b) eqn:Eh; cbn [negb].
  2: { intros [= <- <-]. split; [done|]. split; [split; lia|by left]. }
  specialize (Hu eq_refl). destruct (maybeAdjustWindowSize_ok excess b now rtt Hok) as [Hok1 Hs1].
  set (b1 := maybeAdjustWindowSize b now rtt) in *. clearbody b1. cbn. intros [= <- <-].
  destruct Hok as [? ? ? Hw Hsz ? ? Hr], Hok1 as [? ? ? ? Hsz1 Hm1 ? Hr1], Hs1 as [E1 E2 ? ? E3].
  rewrite uint64_id by go_range. pose proof (Z.mul_div_le (receiveWindowSize b * 3) 4 ltac:(lia)).
  split_and!; [split; cbn; lia|split; cbn; lia|]. right. cbn. lia.
Qed.

Lemma AddBytesRead_ok excess b now n :
  recv_within excess b -> 0 <= n <= highestReceived b + excess - bytesRead b ->
  recv_within excess (AddBytesRead b now n) /\ bytesRead (AddBytesRead b now n) = bytesRead b + n /\
  highestReceived (AddBytesRead b now n) = highestReceived b /\
  receiveWindow (AddBytesRead b now n) = receiveWindow b /\
  maxReceiveWindowSize (AddBytesRead b now n) = maxReceiveWindowSize b.
Proof.
  intros [] Hn. unfold AddBytesRead.
  match goal with |- context [?x <| bytesRead := _ |>] => set (b1 := x) end.
  assert (H1 : 0 <= epochStartOffset b1 <= bytesRead b /\ bytesRead b1 = bytesRead b /\
    highestReceived b1 = highestReceived b /\ receiveWindow b1 = receiveWindow b /\
    receiveWindowSize b1 = receiveWindowSize b /\ maxReceiveWindowSize b1 = maxReceiveWindowSize b).
  { unfold b1. case_if; cbn; lia. }
  clearbody b1. destruct H1 as (? & E1 & ? & ? & ? & ?). rewrite E1, uint64_id by go_range.
  split; [split; cbn; lia|]. cbn. lia.
Qed.

Lemma EnsureMinimumWindowSize_ok excess c now inc :
  recv_within excess (cfc_base c) ->
  recv_within excess (cfc_base (EnsureMinimumWindowSize c now inc)) /\
  window_step (cfc_base c) (cfc_base (EnsureMinimumWindowSize c now inc)).
Proof.
  intros Hok. unfold EnsureMinimumWindowSize. case_if; zbool; [|split; [done|split; lia]].
  cbn [cfc_base over]. apply grow_window_ok; [done|]. destruct Hok. rewrite MinByteCount_min. lia.
Qed.

End Receive.

(** ** Streams and their connection *)

Section System.
Context `{FloatConv}.

(** What an accepted offset does: the highest offset of the stream is raised to
    it, and the connection is charged with the difference. *)
Lemma UpdateHighestReceived_ok excess s (c : connectionFlowController) offset final s' c' :
  recv_ok (sfc_base s) -> recv_within excess (cfc_base c) -> 0 <= offset ->
  highestReceived (cfc_base c) + excess + offset < 2 ^ 63 ->
  UpdateHighestReceived s c offset final = (s', c', None) ->
  recv_ok (sfc_base s') /\ recv_within excess (cfc_base c') /\
  highestReceived (sfc_base s') = Z.max (highestReceived (sfc_base s)) offset /\
  highestReceived (cfc_base c') =
    highestReceived (cfc_base c) + (highestReceived (sfc_base s') - highestReceived (sfc_base s)) /\
  bytesRead (sfc_base s') = bytesRead (sfc_base s) /\ bytesRead (cfc_base c') = bytesRead (cfc_base c) /\
  maxReceiveWindowSize (cfc_base c') = maxReceiveWindowSize (cfc_base c) /\
  receivedFinalOffset s' = receivedFinalOffset s || final /\
  (receivedFinalOffset s = true -> s' = s).
Proof.
  intros Hs Hc Ho Hmax. unfold UpdateHighestReceived.
  destruct (receivedFinalOffset s && final && negb (offset =? highestReceived (sfc_base s))); [intros [=]|].
  destruct (receivedFinalOffset s && (highestReceived (sfc_base s) <? offset)) eqn:Hf; [intros [=]|].
  match goal with |- context [checkFlowControlViolation (sfc_base (?x <| sfc_base := _ |>))] => set (s1 := x) end.
  assert (Hs1 : sfc_base s1 = sfc_base s /\ receivedFinalOffset s1 = receivedFinalOffset s || final /\
    (receivedFinalOffset s = true -> s1 = s)).
  { unfold s1. destruct final; rewrite ?orb_true_r, ?orb_false_r; cbn; split_and!; try done.
    destruct s. by cbn; intros ->. }
  clearbody s1. destruct Hs1 as (Eb & Ef & Es). cbn. rewrite Eb.
  destruct (Z.eqb_spec offset (highestReceived (sfc_base s))).
  { intros [= <- <-]. rewrite Eb. split_and!; try (done || lia). }
  destruct (Z.leb_spec offset (highestReceived (sfc_base s))).
  { destruct final; intros [= <- <-]. rewrite Eb. split_and!; try (done || lia). }
  unfold checkFlowControlViolation, IncrementHighestReceived. cbn.
  destruct Hs, Hc. rewrite uint64_id by go_range. case_if; [intros [=]|]. case_if; [intros [=]|]. zbool.
  intros [= <- <-]. cbn. split_and!; try (done || lia).
  - split; cbn; lia.
  - split; cbn; lia.
  - intros Hr. rewrite Hr in Hf. cbn in Hf. zbool. lia.
Qed.

(** The receiving side of a connection: its controller, its open streams, each with whether it was
    abandoned; and two ghosts, the bytes of the streams that are gone, and the bytes that the connection was
    credited with more than once. *)
Record flow := mkFlow {
  fl_conn : connectionFlowController;
  fl_streams : gmap Z (streamFlowController * bool);
  fl_completed : Z;
  fl_excess : Z
}.

(** What the halves of streams do (receive_stream.go).  A stream that was canceled is abandoned with every frame that has
    the FIN bit (handleStreamFrameImpl) and with the first RESET_STREAM, so that it can be abandoned more than once; and a Read that is copying data
    when the stream is abandoned reports the bytes after that. *)
Inductive flow_step : flow -> flow -> Prop :=
| flow_open fl id window maxWindow sendWindow :
    fl_streams fl !! id = None -> 0 < window <= maxWindow -> maxWindow < 2 ^ 50 ->
    flow_step fl (mkFlow (fl_conn fl)
      (<[id := (NewStreamFlowController id window maxWindow sendWindow, false)]> (fl_streams fl)) (fl_completed fl) (fl_excess fl))
| flow_receive fl id s ab offset final s' c' :
    fl_streams fl !! id = Some (s, ab) -> 0 <= offset ->
    highestReceived (cfc_base (fl_conn fl)) + fl_excess fl + offset < 2 ^ 63 ->
    UpdateHighestReceived s (fl_conn fl) offset final = (s', c', None) ->
    flow_step fl (mkFlow c' (<[id := (s', ab)]> (fl_streams fl)) (fl_completed fl) (fl_excess fl))
| flow_read fl id s ab now n s' c' q :
    fl_streams fl !! id = Some (s, ab) ->
    0 <= n <= highestReceived (sfc_base s) - bytesRead (sfc_base s) ->
    highestReceived (cfc_base (fl_conn fl)) + fl_excess fl + n < 2 ^ 63 ->
    stream_AddBytesRead s (fl_conn fl) now n = (s', c', q) ->
    flow_step fl (mkFlow c' (<[id := (s', ab)]> (fl_streams fl)) (fl_completed fl) (fl_excess fl + if ab : bool then n else 0))
| flow_update fl id s ab now rtt s' c' off :
    fl_streams fl !! id = Some (s, ab) -> stream_GetWindowUpdate s (fl_conn fl) now rtt = (s', c', off) ->
    flow_step fl (mkFlow c' (<[id := (s', ab)]> (fl_streams fl)) (fl_completed fl) (fl_excess fl))
| flow_conn_update fl now rtt c' off :
    connection_GetWindowUpdate (fl_conn fl) now rtt = (c', off) ->
    flow_step fl (mkFlow c' (fl_streams fl) (fl_completed fl) (fl_excess fl))
| flow_abandon fl id s ab now c' q :
    fl_streams fl !! id = Some (s, ab) -> receivedFinalOffset s = true ->
    highestReceived (cfc_base (fl_conn fl)) + fl_excess fl + highestReceived (sfc_base s) < 2 ^ 63 ->
    Abandon s (fl_conn fl) now = (c', q) ->
    flow_step fl (mkFlow c' (<[id := (s, true)]> (fl_streams fl)) (fl_completed fl)
      (fl_excess fl + if ab : bool then highestReceived (sfc_base s) - bytesRead (sfc_base s) else 0))
| flow_complete fl id s ab :
    fl_streams fl !! id = Some (s, ab) -> ab = true \/ bytesRead (sfc_base s) = highestReceived (sfc_base s) ->
    flow_step fl (mkFlow (fl_conn fl) (delete id (fl_streams fl))
      (fl_completed fl + highestReceived (sfc_base s)) (fl_excess fl)).

(** What a stream has received, and what the connection has to be credited with for it: what was read, and everything once the
    stream is abandoned. *)
Definition stream_received (x : streamFlowController * bool) : Z := highestReceived (sfc_base x.1).
Definition stream_credited (x : streamFlowController * bool) : Z := if x.2 then highestReceived (sfc_base x.1) else bytesRead (sfc_base x.1).

(** The connection's books are the sums of the streams' books, and the excess. *)
Record flow_ok (maxConn : ByteCount) (fl : flow) : Prop := {
  fo_conn : recv_within (fl_excess fl) (cfc_base (fl_conn fl));
  fo_streams : map_Forall (fun _ x => recv_ok (sfc_base x.1)) (fl_streams fl);
  fo_final : map_Forall (fun _ x => x.2 = true -> receivedFinalOffset x.1 = true) (fl_streams fl);
  fo_received : highestReceived (cfc_base (fl_conn fl)) =
                map_sum stream_received (fl_streams fl) + fl_completed fl;
  fo_read : bytesRead (cfc_base (fl_conn fl)) = map_sum stream_credited (fl_streams fl) + fl_completed fl + fl_excess fl;
  fo_max : maxReceiveWindowSize (cfc_base (fl_conn fl)) = maxConn
}.

Lemma credited_le x : recv_ok (sfc_base x.1) -> stream_credited x <= stream_received x.
Proof. intros []. unfold stream_credited, stream_received. destruct (x.2); lia. Qed.

(** An open stream has no more uncredited data than the connection. *)
Lemma flow_unread M fl id x :
  flow_ok M fl -> fl_streams fl !! id = Some x ->
  stream_received x - stream_credited x <=
    highestReceived (cfc_base (fl_conn fl)) + fl_excess fl - bytesRead (cfc_base (fl_conn fl)).
Proof.
  intros [] Hs. rewrite fo_received0, fo_read0.
  rewrite (map_sum_delete _ _ _ _ Hs), (map_sum_delete stream_credited _ _ _ Hs).
  assert (map_sum stream_credited (delete id (fl_streams fl)) <= map_sum stream_received (delete id (fl_streams fl))); [|lia].
  apply map_sum_le. intros j t Hj. apply lookup_delete_Some in Hj as [_ Hj]. by apply credited_le, (fo_streams0 j).
Qed.

(** A stream and the connection change together. *)
Lemma flow_ok_update M fl id x x' c' ex :
  flow_ok M fl -> fl_streams fl !! id = Some x -> recv_ok (sfc_base x'.1) -> recv_within ex (cfc_base c') ->
  (x'.2 = true -> receivedFinalOffset x'.1 = true) ->
  highestReceived (cfc_base c') - highestReceived (cfc_base (fl_conn fl)) = stream_received x' - stream_received x ->
  bytesRead (cfc_base c') - bytesRead (cfc_base (fl_conn fl)) = stream_credited x' - stream_credited x + (ex - fl_excess fl) ->
  maxReceiveWindowSize (cfc_base c') = maxReceiveWindowSize (cfc_base (fl_conn fl)) ->
  flow_ok M (mkFlow c' (<[id := x']> (fl_streams fl)) (fl_completed fl) ex).
Proof.
  intros [] Hs Hs' Hc' Hf Hr Hb Hm. split; cbn; try done.
  - intros j t [[<- <-]|[Hne Hj]]%lookup_insert_Some; [done|by apply (fo_streams0 j)].
  - intros j t [[<- <-]|[Hne Hj]]%lookup_insert_Some; [done|by apply (fo_final0 j)].
  - rewrite (map_sum_update _ _ _ _ _ Hs). lia.
  - rewrite (map_sum_update _ _ _ _ _ Hs). lia.
  - congruence.
Qed.

Lemma recv_within_more excess excess' b :
  recv_within excess b -> excess <= excess' -> highestReceived b + excess' < 2 ^ 63 -> recv_within excess' b.
Proof. intros [] H1 H2. split; lia. Qed.

Lemma connection_AddBytesRead_ok excess (c : connectionFlowController) now n c' q :
  recv_within excess (cfc_base c) -> 0 <= n <= highestReceived (cfc_base c) + excess - bytesRead (cfc_base c) ->
  conn_AddBytesRead c now n = (c', q) ->
  recv_within excess (cfc_base c') /\ bytesRead (cfc_base c') = bytesRead (cfc_base c) + n /\
  highestReceived (cfc_base c') = highestReceived (cfc_base c) /\
  maxReceiveWindowSize (cfc_base c') = maxReceiveWindowSize (cfc_base c).
Proof.
  intros Hok Hn [= <- _]. destruct (AddBytesRead_ok excess (cfc_base c) now n Hok Hn) as (? & ? & ? & _ & ?). done.
Qed.

(** Crediting the connection for [n] bytes of a stream, which were credited before if the stream was abandoned. *)
Lemma flow_credit M fl id s ab now n c' q :
  flow_ok M fl -> fl_streams fl !! id = Some (s, ab) -> 0 <= n <= highestReceived (sfc_base s) - bytesRead (sfc_base s) ->
  highestReceived (cfc_base (fl_conn fl)) + fl_excess fl + n < 2 ^ 63 -> conn_AddBytesRead (fl_conn fl) now n = (c', q) ->
  recv_within (fl_excess fl + if ab : bool then n else 0) (cfc_base c') /\ bytesRead (cfc_base c') = bytesRead (cfc_base (fl_conn fl)) + n /\
  highestReceived (cfc_base c') = highestReceived (cfc_base (fl_conn fl)) /\
  maxReceiveWindowSize (cfc_base c') = maxReceiveWindowSize (cfc_base (fl_conn fl)).
Proof.
  intros Hok Hs Hn Hr E. pose proof (flow_unread M fl id _ Hok Hs) as Hu. unfold stream_received, stream_credited in Hu. cbn in Hu.
  eapply connection_AddBytesRead_ok; [|destruct ab; lia|exact E]. apply (recv_within_more (fl_excess fl)); [apply Hok|destruct ab; lia|destruct ab; lia].
Qed.

Lemma flow_abandon_ok M fl id s ab now c' q :
  flow_ok M fl -> fl_streams fl !! id = Some (s, ab) -> receivedFinalOffset s = true ->
  highestReceived (cfc_base (fl_conn fl)) + fl_excess fl + highestReceived (sfc_base s) < 2 ^ 63 -> Abandon s (fl_conn fl) now = (c', q) ->
  flow_ok M (mkFlow c' (<[id := (s, true)]> (fl_streams fl)) (fl_completed fl)
    (fl_excess fl + if ab : bool then highestReceived (sfc_base s) - bytesRead (sfc_base s) else 0)).
Proof.
  intros Hok Hs Hf Hr He. pose proof (fo_streams _ _ Hok id _ Hs) as Hsok. cbn in Hsok. set (n := highestReceived (sfc_base s) - bytesRead (sfc_base s)) in *.
  unfold Abandon in He. rewrite uint64_id in He by (destruct Hsok; go_range). fold n in He.
  assert (Hx : recv_within (fl_excess fl + if ab then n else 0) (cfc_base c') /\ bytesRead (cfc_base c') = bytesRead (cfc_base (fl_conn fl)) + n /\
    highestReceived (cfc_base c') = highestReceived (cfc_base (fl_conn fl)) /\ maxReceiveWindowSize (cfc_base c') = maxReceiveWindowSize (cfc_base (fl_conn fl))).
  { destruct Hsok. case_if_in He; zbool.
    - eapply flow_credit; [done|exact Hs|lia|lia|exact He].
    - injection He as <- _. assert (n = 0) as -> by lia. replace (fl_excess fl + _) with (fl_excess fl) by (destruct ab; lia). split_and!; [apply Hok|lia|done|done]. }
  destruct Hx as (? & ? & ? & ?). eapply flow_ok_update; try done; unfold stream_received, stream_credited; cbn; [lia|destruct ab; lia].
Qed.

Lemma flow_step_ok M fl fl' : flow_ok M fl -> flow_step fl fl' -> flow_ok M fl'.
Proof.
  intros Hok Hs. revert Hok.
  destruct Hs as [fl id w mw sw Hnew Hw Hmw|fl id s ab offset final s' c' Hs Ho Hmax He|fl id s ab now n s' c' q Hs Hn Hmax He
    |fl id s ab now rtt s' c' off Hs He|fl now rtt c' off He|fl id s ab now c' q Hs Hf Hmax He|fl id s ab Hs Hab];
    intros Hok; pose proof (fo_conn _ _ Hok) as Hc; [..|by eapply flow_abandon_ok|]; try (pose proof (fo_streams _ _ Hok id _ Hs) as Hsok; cbn in Hsok; pose proof (fo_final _ _ Hok id _ Hs) as Hfin; cbn in Hfin).
  - destruct Hok. split; cbn; try done.
    + apply map_Forall_insert; [done|]. split; [|done]. split; cbn; lia.
    + by apply map_Forall_insert.
    + by rewrite map_sum_insert.
    + by rewrite map_sum_insert.
  - destruct (UpdateHighestReceived_ok _ s (fl_conn fl) offset final s' c' Hsok Hc Ho Hmax He) as (? & ? & ? & ? & ? & ? & ? & Ef & Es).
    eapply flow_ok_update; try done; unfold stream_received, stream_credited; cbn; [intros Ha; by rewrite Ef, Hfin|lia|]. destruct ab; [rewrite Es by auto; lia|lia].
  - unfold stream_AddBytesRead in He. destruct (conn_AddBytesRead (fl_conn fl) now n) as [c1 q1] eqn:E1. injection He as <- <- _.
    destruct (flow_credit M fl id s ab now n c1 q1 Hok Hs Hn Hmax E1) as (? & ? & ? & ?).
    destruct (AddBytesRead_ok 0 (sfc_base s) now n Hsok ltac:(lia)) as (? & ? & ? & _ & _).
    eapply flow_ok_update; try done; unfold stream_received, stream_credited; cbn -[AddBytesRead]; try done; [lia|destruct ab; lia].
  - unfold stream_GetWindowUpdate in He. destruct (receivedFinalOffset s) eqn:Ef.
    { injection He as <- <- _. eapply flow_ok_update; try done; lia. }
    destruct ab; [by discriminate Hfin|]. destruct (getWindowUpdate (sfc_base s) now rtt) as [b off'] eqn:E1. injection He as <- <- _.
    destruct (getWindowUpdate_ok _ _ _ _ _ _ Hsok E1) as (Hb & [Er Eh _ _ _] & _). unfold stream_credited, stream_received.
    case_if.
    + destruct (EnsureMinimumWindowSize_ok _ (fl_conn fl) now
        (f2uint64 (fmul64 (float64 (receiveWindowSize b)) ConnectionFlowControlMultiplier)) Hc) as [? []].
      eapply flow_ok_update; try done; unfold stream_credited, stream_received; cbn; try done; lia.
    + eapply flow_ok_update; try done; unfold stream_credited, stream_received; cbn; try done; lia.
  - unfold connection_GetWindowUpdate in He. destruct (getWindowUpdate _ now rtt) as [b off'] eqn:E1.
    injection He as <- _. destruct (getWindowUpdate_ok _ _ _ _ _ _ Hc E1) as (Hb & [Er Eh _ _ Em] & _).
    destruct Hok. split; cbn; try done; congruence.
  - destruct Hok. split; cbn; try done.
    + intros j t Hj. apply lookup_delete_Some in Hj as [_ Hj]. by apply (fo_streams0 j).
    + intros j t Hj. apply lookup_delete_Some in Hj as [_ Hj]. by apply (fo_final0 j).
    + rewrite (map_sum_delete _ _ _ _ Hs) in fo_received0. unfold stream_received at 1 in fo_received0. cbn in fo_received0. lia.
    + rewrite (map_sum_delete _ _ _ _ Hs) in fo_read0. unfold stream_credited at 1 in fo_read0. cbn in fo_read0. destruct Hab as [->|E]; [lia|destruct ab; lia].
Qed.

Definition flow_start (window maxWindow : ByteCount) : flow :=
  mkFlow (NewConnectionFlowController window maxWindow) ∅ 0 0.

Lemma flow_reachable_ok window maxWindow fl :
  0 < window <= maxWindow -> maxWindow < 2 ^ 50 ->
  rtc flow_step (flow_start window maxWindow) fl -> flow_ok maxWindow fl.
Proof.
  intros Hw Hm Hr. assert (H0 : flow_ok maxWindow (flow_start window maxWindow)).
  { split; cbn; try done. split; cbn; lia. }
  induction Hr; [done|]. eauto using flow_step_ok.
Qed.

(** The data of a stream that the application has neither read nor given up. *)
Definition stream_unread (x : streamFlowController * bool) : Z := stream_received x - stream_credited x.

Lemma map_sum_unread m : map_sum stream_unread m = map_sum stream_received m - map_sum stream_credited m.
Proof.
  induction m as [|k a m Hm IH] using map_ind; [done|].
  rewrite !map_sum_insert by done. unfold stream_unread at 1. lia.
Qed.

(** C19. In every reachable state of the receiving side the connection's counters
    are the sums over its streams: [highestReceived] is what the open streams
    have received plus the bytes of the streams that are gone; [bytesRead] is what was
    read from them, or given up, and the excess, which is exactly what was credited
    a second time for streams that were abandoned before. The unread data of a stream never exceeds the largest window of the stream,
    and that of all the streams together exceeds the connection's largest window by no more than the excess. *)
Theorem flow_memory_bounded window maxWindow fl :
  0 < window <= maxWindow -> maxWindow < 2 ^ 50 ->
  rtc flow_step (flow_start window maxWindow) fl ->
  highestReceived (cfc_base (fl_conn fl)) = map_sum stream_received (fl_streams fl) + fl_completed fl /\
  bytesRead (cfc_base (fl_conn fl)) = map_sum stream_credited (fl_streams fl) + fl_completed fl + fl_excess fl /\
  0 <= map_sum stream_unread (fl_streams fl) <= maxWindow + fl_excess fl /\
  forall id s ab, fl_streams fl !! id = Some (s, ab) ->
    0 <= highestReceived (sfc_base s) - bytesRead (sfc_base s) <= maxReceiveWindowSize (sfc_base s).
Proof.
  intros Hw Hm Hr. destruct (flow_reachable_ok window maxWindow fl Hw Hm Hr) as [Hc Hs _ E1 E2 E3].
  split_and!; [done|done|..].
  - apply map_sum_nonneg. intros id x Hi. pose proof (credited_le x (Hs id x Hi)). unfold stream_unread. lia.
  - rewrite map_sum_unread. destruct Hc. lia.
  - intros id s ab Hi. destruct (Hs id _ Hi). cbn in *. lia.
Qed.

(** ** Which offsets are accepted *)

(** What the peer may send on the stream [s] of the connection [c]. *)
Definition acceptable (s : streamFlowController) (c : connectionFlowController) (offset : ByteCount) (final : bool) :
    Prop :=
  offset <= receiveWindow (sfc_base s) /\
  highestReceived (cfc_base c) + Z.max 0 (offset - highestReceived (sfc_base s)) <= receiveWindow (cfc_base c) /\
  (final = true -> highestReceived (sfc_base s) <= offset) /\
  (receivedFinalOffset s = true -> offset <= highestReceived (sfc_base s)).

(** A stream accepts an offset exactly when it is within the stream's and
    the connection's window and agrees with the final offset; what violates the
    final offset is a FINAL_SIZE_ERROR, what exceeds a window a
    FLOW_CONTROL_ERROR. *)
Theorem stream_accepts (s : streamFlowController) (c : connectionFlowController) offset final :
  recv_ok (sfc_base s) -> recv_ok (cfc_base c) -> 0 <= offset ->
  highestReceived (cfc_base c) + offset < 2 ^ 63 ->
  let size_error := final = true /\ offset < highestReceived (sfc_base s) \/
    receivedFinalOffset s = true /\ highestReceived (sfc_base s) < offset in
  match (UpdateHighestReceived s c offset final).2 with
  | None => acceptable s c offset final
  | Some (QuicError code _) =>
      ~ acceptable s c offset final /\
      (code = FinalSizeError /\ size_error \/ code = FlowControlError /\ ~ size_error)
  | Some _ => False
  end.
Proof.
  intros [] [] Ho Hmax. unfold UpdateHighestReceived, acceptable.
  destruct (receivedFinalOffset s && final && negb (offset =? highestReceived (sfc_base s))) eqn:E1; cbn.
  { zbool. destruct (Z.lt_ge_cases offset (highestReceived (sfc_base s))); split; [|left| |left]; naive_solver lia. }
  destruct (receivedFinalOffset s && (highestReceived (sfc_base s) <? offset)) eqn:E2; cbn.
  { zbool. split; [|left]; naive_solver lia. }
  set (s1 := if final then _ else s). assert (Eb : sfc_base s1 = sfc_base s) by (unfold s1; by destruct final).
  clearbody s1. rewrite Eb. assert (Hf : receivedFinalOffset s = true -> offset <= highestReceived (sfc_base s)).
  { intros Hr. rewrite Hr in E2. cbn in E2. by zbool. }
  destruct (Z.eqb_spec offset (highestReceived (sfc_base s))); cbn; [split_and!; naive_solver lia|].
  destruct (Z.leb_spec offset (highestReceived (sfc_base s))); cbn.
  { destruct final; cbn; [split; [|left]; naive_solver lia|split_and!; naive_solver lia]. }
  unfold checkFlowControlViolation, IncrementHighestReceived. cbn.
  case_if; zbool; cbn; [split; [lia|right; split; [done|naive_solver lia]]|].
  rewrite uint64_id by go_range. case_if; zbool; cbn.
  - split; [lia|right; split; [done|naive_solver lia]].
  - split_and!; naive_solver lia.
Qed.

End System.

(** ** Updates of the window *)

Section Updates.
Context `{FloatConv} {C : Type} `{!ConnectionFlowControllerI C}.

(** Reading from a stream queues a window update exactly when the next
    [GetWindowUpdate] will announce one, whenever it is called and whatever the
    connection's controller does; the offset announced gives the peer a full
    window from what has been read, and at least a quarter of the window more
    than before; in particular a peer that has used its whole window is always
    given a new one once the application has read all the data. *)
Theorem window_update_queued s (c : C) now n s' c' q qc later rtt s'' c'' off :
  recv_ok (sfc_base s) -> receivedFinalOffset s = false ->
  0 <= n <= highestReceived (sfc_base s) - bytesRead (sfc_base s) ->
  stream_AddBytesRead s c now n = (s', c', (q, qc)) ->
  stream_GetWindowUpdate s' c' later rtt = (s'', c'', off) ->
  (q = false -> off = 0 /\ s'' = s' /\ c'' = c') /\
  (q = true -> off = receiveWindow (sfc_base s'') /\
     off = bytesRead (sfc_base s) + n + receiveWindowSize (sfc_base s'') /\
     receiveWindowSize (sfc_base s) <= receiveWindowSize (sfc_base s'') /\
     receiveWindowSize (sfc_base s) <= 4 * (off - receiveWindow (sfc_base s))) /\
  (bytesRead (sfc_base s) + n = receiveWindow (sfc_base s) -> q = true).
Proof.
  intros Hok Hf Hn. destruct (AddBytesRead_ok 0 (sfc_base s) now n Hok ltac:(lia)) as (Hok' & Er & Eh & Ew & Em).
  assert (Es : receiveWindowSize (AddBytesRead (sfc_base s) now n) = receiveWindowSize (sfc_base s)).
  { unfold AddBytesRead. by case_if. }
  unfold stream_AddBytesRead. cbn -[AddBytesRead]. rewrite Hf. destruct (conn_AddBytesRead c now n) as [c1 qc1].
  intros [= <- <- <- <-]. unfold stream_GetWindowUpdate. cbn -[AddBytesRead]. rewrite Hf.
  destruct (getWindowUpdate (AddBytesRead (sfc_base s) now n) later rtt) as [b off'] eqn:E.
  destruct (getWindowUpdate_ok _ _ _ _ _ _ Hok' E) as (Hb & [] & Hu).
  pose proof (hasWindowUpdate_spec _ Hok') as Ehas. rewrite Er, Ew, Es in Ehas. destruct Hok.
  pose proof (Z.div_pos (receiveWindowSize (sfc_base s) * 3) 4).
  destruct Hu as [(Hh & -> & ->)|(Hh & ? & ? & ?)]; rewrite Hh in *; intros [= <- <- <-].
  - rewrite Z.ltb_irrefl. split; [done|]. split; [done|]. zbool. lia.
  - split; [done|]. split; [|done]. cbn. lia.
Qed.

End Updates.

(** ** Sending *)

Section Sending.
Context `{FloatConv}.

(** The sending side: the connection's controller, the open streams, and the
    bytes sent on the completed ones (a ghost). *)
Record sending := mkSending {
  sd_conn : connectionFlowController;
  sd_streams : gmap Z streamFlowController;
  sd_completed : Z
}.

(** A stream sends what [SendWindowSize] allows (getDataForWriting in
    send_stream.go); MAX_DATA and MAX_STREAM_DATA frames carry any offset, in
    any order. *)
Inductive send_step : sending -> sending -> Prop :=
| send_open sd id window maxWindow sendWindow :
    sd_streams sd !! id = None -> 0 <= sendWindow <= MaxByteCount ->
    send_step sd (mkSending (sd_conn sd)
      (<[id := NewStreamFlowController id window maxWindow sendWindow]> (sd_streams sd)) (sd_completed sd))
| send_data sd id s n s' c' :
    sd_streams sd !! id = Some s -> 0 <= n <= stream_SendWindowSize s (sd_conn sd) ->
    stream_AddBytesSent s (sd_conn sd) n = (s', c') ->
    send_step sd (mkSending c' (<[id := s']> (sd_streams sd)) (sd_completed sd))
| send_max_stream_data sd id s offset :
    sd_streams sd !! id = Some s -> 0 <= offset <= MaxByteCount ->
    send_step sd (mkSending (sd_conn sd)
      (<[id := s <| sfc_base := UpdateSendWindow (sfc_base s) offset |>]> (sd_streams sd)) (sd_completed sd))
| send_max_data sd offset :
    0 <= offset <= MaxByteCount ->
    send_step sd (mkSending (sd_conn sd <| cfc_base := UpdateSendWindow (cfc_base (sd_conn sd)) offset |>)
      (sd_streams sd) (sd_completed sd))
| send_complete sd id s :
    sd_streams sd !! id = Some s ->
    send_step sd (mkSending (sd_conn sd) (delete id (sd_streams sd))
      (sd_completed sd + bytesSent (sfc_base s))).

Record send_ok (b : baseFlowController) : Prop := {
  so_sent : 0 <= bytesSent b <= sendWindow b;
  so_window : sendWindow b <= MaxByteCount
}.

Definition stream_sent (s : streamFlowController) : Z := bytesSent (sfc_base s).

Record sending_ok (sd : sending) : Prop := {
  sg_conn : send_ok (cfc_base (sd_conn sd));
  sg_streams : map_Forall (fun _ s => send_ok (sfc_base s)) (sd_streams sd);
  sg_sum : bytesSent (cfc_base (sd_conn sd)) = map_sum stream_sent (sd_streams sd) + sd_completed sd
}.

Lemma UpdateSendWindow_ok b offset :
  send_ok b -> 0 <= offset <= MaxByteCount ->
  send_ok (UpdateSendWindow b offset) /\ bytesSent (UpdateSendWindow b offset) = bytesSent b.
Proof. intros [] ?. unfold UpdateSendWindow. case_if; zbool; [|done]. split; [|done]. split; cbn; lia. Qed.

Lemma AddBytesSent_ok b n :
  send_ok b -> 0 <= n <= sendWindowSize b ->
  send_ok (AddBytesSent b n) /\ bytesSent (AddBytesSent b n) = bytesSent b + n.
Proof.
  intros [] Hn. unfold sendWindowSize in Hn. case_if_in Hn; zbool; [lia|].
  assert (MaxByteCount < 2 ^ 64) by done. unfold AddBytesSent. cbn. rewrite uint64_id by go_range.
  split; [split; cbn; lia|done].
Qed.

Lemma send_step_ok sd sd' : sending_ok sd -> send_step sd sd' -> sending_ok sd'.
Proof.
  intros Hok Hs. revert Hok.
  destruct Hs as [sd id w mw sw Hnew Hw|sd id s n s' c' Hs Hn He|sd id s offset Hs Ho|sd offset Ho|sd id s Hs];
    intros [Hc Hall Hsum].
  - split; cbn; [done| |].
    + apply map_Forall_insert; [done|]. split; [|done]. split; cbn; lia.
    + by rewrite map_sum_insert.
  - unfold stream_SendWindowSize in Hn. rewrite MinByteCount_min in Hn. injection He as <- <-.
    destruct (AddBytesSent_ok (sfc_base s) n (Hall id s Hs) ltac:(lia)) as [? E1].
    destruct (AddBytesSent_ok (cfc_base (sd_conn sd)) n Hc) as [? E2]; [cbn in *; lia|].
    split; cbn -[AddBytesSent]; [done|by apply map_Forall_insert_2|].
    rewrite (map_sum_update _ _ _ _ _ Hs), E2. unfold stream_sent at 2 3. cbn -[AddBytesSent]. lia.
  - destruct (UpdateSendWindow_ok (sfc_base s) offset (Hall id s Hs) Ho) as [? E].
    split; cbn -[UpdateSendWindow]; [done|by apply map_Forall_insert_2|].
    rewrite (map_sum_update _ _ _ _ _ Hs). unfold stream_sent at 2 3. cbn -[UpdateSendWindow]. lia.
  - destruct (UpdateSendWindow_ok (cfc_base (sd_conn sd)) offset Hc Ho) as [? E].
    split; cbn -[UpdateSendWindow]; [done|done|lia].
  - split; cbn; [done| |].
    + intros j t Hj. apply lookup_delete_Some in Hj as [_ Hj]. by apply (Hall j).
    + rewrite (map_sum_delete _ _ _ _ Hs) in Hsum. unfold stream_sent at 1 in Hsum. lia.
Qed.

Definition send_start (window maxWindow : ByteCount) : sending :=
  mkSending (NewConnectionFlowController window maxWindow) ∅ 0.

Lemma sending_reachable window maxWindow sd : rtc send_step (send_start window maxWindow) sd -> sending_ok sd.
Proof.
  intros Hr. assert (H0 : sending_ok (send_start window maxWindow)) by (split; cbn; [by split|done|done]).
  induction Hr; [done|]. eauto using send_step_ok.
Qed.

(** However streams send and window updates arrive, no stream and not the
    connection ever sends more than the peer allowed, and the bytes counted
    against the connection's limit are exactly those of its streams. *)
Theorem send_within_limits window maxWindow sd :
  rtc send_step (send_start window maxWindow) sd ->
  bytesSent (cfc_base (sd_conn sd)) <= sendWindow (cfc_base (sd_conn sd)) /\
  bytesSent (cfc_base (sd_conn sd)) = map_sum stream_sent (sd_streams sd) + sd_completed sd /\
  forall id s, sd_streams sd !! id = Some s -> bytesSent (sfc_base s) <= sendWindow (sfc_base s).
Proof.
  intros Hr. destruct (sending_reachable window maxWindow sd Hr) as [[] Hall Hsum]. split; [lia|]. split; [done|]. intros id s Hi. destruct (Hall id s Hi). lia.
Qed.

End Sending.

(** ** Blocking *)

(** One controller and the offsets at which it reported to be blocked, the
    last first. *)
Inductive blocked_step : baseFlowController * list ByteCount -> baseFlowController * list ByteCount -> Prop :=
| blocked_send b r n : 0 <= n <= sendWindowSize b -> blocked_step (b, r) (AddBytesSent b n, r)
| blocked_update b r offset : 0 <= offset <= MaxByteCount -> blocked_step (b, r) (UpdateSendWindow b offset, r)
| blocked_ask b r b' off : IsNewlyBlocked b = (b', (true, off)) -> blocked_step (b, r) (b', off :: r)
| blocked_no b r b' off : IsNewlyBlocked b = (b', (false, off)) -> blocked_step (b, r) (b', r).

Record blocked_ok (x : baseFlowController * list ByteCount) : Prop := {
  bl_send : send_ok x.1;
  bl_last : 0 <= lastBlockedAt x.1 <= sendWindow x.1;
  bl_head : default 0 (head x.2) = lastBlockedAt x.1;
  bl_sorted : StronglySorted Z.gt x.2;
  bl_pos : Forall (fun o => 0 < o <= lastBlockedAt x.1) x.2
}.

Lemma blocked_step_ok x y : blocked_ok x -> blocked_step x y -> blocked_ok y.
Proof.
  intros Hok Hs. revert Hok. destruct Hs as [b r n Hn|b r off Ho|b r b' off He|b r b' off He]; intros [Hs Hl Hh Hst Hp]; cbn in *.
  - destruct (AddBytesSent_ok b n Hs Hn). split; done.
  - destruct (UpdateSendWindow_ok b off Hs Ho). unfold UpdateSendWindow in *. case_if; zbool; split; cbn; try done; lia.
  - unfold IsNewlyBlocked in He. destruct (_ || _) eqn:E; [done|]. zbool. injection He as <- <-. destruct Hs.
    split; cbn; try done; [lia| |].
    + constructor; [done|]. eapply Forall_impl; [exact Hp|]. cbn. lia.
    + constructor; [lia|]. eapply Forall_impl; [exact Hp|]. cbn. lia.
  - unfold IsNewlyBlocked in He. case_if_in He; [|done]. injection He as <- <-. by split.
Qed.

(** A controller reports to be blocked at strictly increasing offsets,
    whatever is sent and whatever updates arrive in between; and it reports
    exactly when its window (of a peer that granted one) is used up and has not
    been reported yet. *)
Theorem blocked_reported_once (b0 : baseFlowController) b r :
  send_ok b0 -> lastBlockedAt b0 = 0 -> rtc blocked_step (b0, []) (b, r) ->
  StronglySorted Z.gt r /\
  (0 < sendWindow b ->
   (IsNewlyBlocked b).2.1 = bool_decide (bytesSent b = sendWindow b /\ sendWindow b ∉ r)).
Proof.
  intros Hs Hl Hr. assert (Hok : blocked_ok (b, r)).
  { assert (H0 : blocked_ok (b0, [])) by (split; cbn; [done|destruct Hs; lia|done|constructor|done]).
    remember (b0, []) as x. remember (b, r) as y. clear Heqx Heqy. induction Hr; [done|]. eauto using blocked_step_ok. }
  destruct Hok as [[] Hla Hh Hst Hp]; cbn in *. split; [done|]. intros Hpos.
  assert (Hin : sendWindow b ∈ r <-> sendWindow b = lastBlockedAt b).
  { split; [|intros E; rewrite <- Hh in E; destruct r; cbn in *; [lia|subst; set_solver]].
    intros Hi. rewrite Forall_forall in Hp. specialize (Hp _ Hi). cbn in Hp. lia. }
  unfold IsNewlyBlocked, sendWindowSize. rewrite (proj2 (Z.ltb_ge _ _)) by lia.
  destruct (_ || _) eqn:E; cbn; symmetry; [apply bool_decide_eq_false|apply bool_decide_eq_true].
  - rewrite Hin. apply orb_true_iff in E as [?|?]; zbool; lia.
  - rewrite Hin. zbool. lia.
Qed.

(** ** Examples *)

Section Examples.
#[local] Existing Instance amd64.

(** A connection with one stream that received 90 of 100 bytes and had all of
    them read. *)
Definition demo_stream : streamFlowController := NewStreamFlowController 4 100 1000 50.
Definition demo_received : streamFlowController * connectionFlowController * option goerr :=
  UpdateHighestReceived demo_stream (NewConnectionFlowController 150 1500) 90 false.
Definition demo_read : streamFlowController * connectionFlowController * (bool * bool) :=
  stream_AddBytesRead demo_received.1.1 demo_received.1.2 7 90.

(** The final offset arrives, 5 bytes later; then the stream is abandoned twice. *)
Definition demo_final : streamFlowController * connectionFlowController * option goerr := UpdateHighestReceived demo_read.1.1 demo_read.1.2 95 true.
Definition demo_abandoned (c : connectionFlowController) : connectionFlowController * bool := Abandon demo_final.1.1 c 8.
Definition demo_flow : flow := mkFlow (demo_abandoned (demo_abandoned demo_final.1.2).1).1 {[ 4 := (demo_final.1.1, true) ]} 0 5.

Lemma flow_memory_bounded_witness :
  rtc flow_step (flow_start 150 1500) demo_flow /\ bytesRead (cfc_base (fl_conn demo_flow)) = 100 /\
  bytesRead (cfc_base (fl_conn demo_flow)) = map_sum stream_credited (fl_streams demo_flow) + fl_completed demo_flow + fl_excess demo_flow.
Proof.
  assert (Hr : rtc flow_step (flow_start 150 1500) demo_flow).
  { eapply rtc_l; [apply (flow_open (flow_start 150 1500) 4 100 1000 50); [done|lia|lia]|].
    eapply rtc_l; [eapply (flow_receive _ 4 demo_stream false 90 false demo_received.1.1 demo_received.1.2);
      [reflexivity|lia|reflexivity|reflexivity]|].
    eapply rtc_l; [eapply (flow_read _ 4 demo_received.1.1 false 7 90 demo_read.1.1 demo_read.1.2 demo_read.2);
      [reflexivity|done|reflexivity|reflexivity]|].
    eapply rtc_l; [eapply (flow_receive _ 4 demo_read.1.1 false 95 true demo_final.1.1 demo_final.1.2);
      [reflexivity|lia|reflexivity|reflexivity]|].
    eapply rtc_l; [eapply (flow_abandon _ 4 demo_final.1.1 false 8 (demo_abandoned demo_final.1.2).1); reflexivity|].
    eapply rtc_l; [eapply (flow_abandon _ 4 demo_final.1.1 true 8 (demo_abandoned (demo_abandoned demo_final.1.2).1).1); reflexivity|].
    replace (mkFlow _ _ _ _) with demo_flow; [apply rtc_refl|]. vm_compute. reflexivity. }
  split; [exact Hr|]. split; [reflexivity|]. exact (proj1 (proj2 (flow_memory_bounded 150 1500 demo_flow ltac:(lia) ltac:(lia) Hr))).
Defined.

Lemma demo_stream_ok : recv_ok (sfc_base demo_stream).
Proof. split; cbn; lia. Qed.

Lemma demo_conn_ok : recv_ok (cfc_base (NewConnectionFlowController 150 1500)).
Proof. split; cbn; lia. Qed.

Lemma stream_accepts_witness :
  (UpdateHighestReceived demo_stream (NewConnectionFlowController 150 1500) 90 false).2 = None /\
  acceptable demo_stream (NewConnectionFlowController 150 1500) 90 false.
Proof.
  split; [reflexivity|].
  exact (stream_accepts demo_stream (NewConnectionFlowController 150 1500) 90 false
    demo_stream_ok demo_conn_ok ltac:(lia) ltac:(done)).
Defined.

Lemma window_update_queued_witness :
  (stream_AddBytesRead demo_received.1.1 demo_received.1.2 7 90).2.1 = true /\
  (stream_GetWindowUpdate demo_read.1.1 demo_read.1.2 8 0).2 = 190.
Proof.
  split; [vm_compute; reflexivity|].
  refine (eq_trans (proj1 (proj2 (proj1 (proj2 (window_update_queued demo_received.1.1 demo_received.1.2 7 90
    demo_read.1.1 demo_read.1.2 true demo_read.2.2 8 0
    (stream_GetWindowUpdate demo_read.1.1 demo_read.1.2 8 0).1.1
    (stream_GetWindowUpdate demo_read.1.1 demo_read.1.2 8 0).1.2
    (stream_GetWindowUpdate demo_read.1.1 demo_read.1.2 8 0).2 _ _ _ _ _)) _))) _).
  - split; vm_compute; first [reflexivity|split; discriminate|discriminate|split; [reflexivity|discriminate]|split; [discriminate|reflexivity]].
  - reflexivity.
  - vm_compute; split; discriminate.
  - vm_compute. reflexivity.
  - vm_compute. reflexivity.
  - reflexivity.
  - vm_compute. reflexivity.
Defined.

Lemma send_within_limits_witness :
  exists sd, rtc send_step (send_start 150 1500) sd /\ bytesSent (cfc_base (sd_conn sd)) = 30 /\
    bytesSent (cfc_base (sd_conn sd)) <= sendWindow (cfc_base (sd_conn sd)).
Proof.
  eexists. match goal with |- ?A /\ _ => assert (Hr : A) end.
  { eapply rtc_l; [apply (send_max_data _ 40); done|].
    eapply rtc_l; [apply (send_open _ 4 100 1000 50); done|].
    eapply rtc_l; [eapply (send_data _ 4 demo_stream 30); [reflexivity|done|reflexivity]|].
    apply rtc_refl. }
  split; [exact Hr|]. split; [reflexivity|]. exact (proj1 (send_within_limits 150 1500 _ Hr)).
Defined.

Definition demo_window : baseFlowController := sfc_base demo_stream.

Lemma blocked_reported_once_witness :
  let b := UpdateSendWindow (IsNewlyBlocked (AddBytesSent demo_window 50)).1 80 in
  rtc blocked_step (demo_window, []) (b, [50]) /\
  (IsNewlyBlocked b).2.1 = false /\ (IsNewlyBlocked (AddBytesSent b 30)).2.1 = true.
Proof.
  intros b. assert (H0 : send_ok demo_window) by (by split).
  assert (Hr : rtc blocked_step (demo_window, []) (b, [50])).
  { eapply rtc_l; [apply (blocked_send demo_window [] 50); done|].
    eapply rtc_l; [eapply blocked_ask; reflexivity|].
    eapply rtc_l; [apply (blocked_update _ _ 80); done|]. apply rtc_refl. }
  assert (Hr' : rtc blocked_step (demo_window, []) (AddBytesSent b 30, [50])).
  { eapply rtc_r; [exact Hr|]. apply (blocked_send b [50] 30). done. }
  split; [exact Hr|]. split.
  - rewrite (proj2 (blocked_reported_once demo_window b [50] H0 eq_refl Hr) ltac:(done)). reflexivity.
  - rewrite (proj2 (blocked_reported_once demo_window (AddBytesSent b 30) [50] H0 eq_refl Hr') ltac:(done)). reflexivity.
Defined.

End Examples.
