(* ===== verification/SendStream.v ===== *)
(** * The sending half of a stream (send_stream.go)

    The state of a [sendStream] and the sections of code that run under its
    mutex.  [Write] waits on a channel between two such sections: it is modelled
    by the section from its beginning to the first wait and the one from a wait
    to the next.  The channel of capacity one, on which nobody blocks when
    sending, is a flag.  What a call tells the session is a list of
    notifications, in order.  The flow controller of the stream, which a
    bidirectional stream shares between its halves, and that of the connection
    are threaded through the calls. *)

From S2P Require Import Prelude VarInt Protocol AckFrame Frames FrameSorter GoFloat FlowControl.

(** ** The program *)

(** The calls of [streamSender] (stream.go), and of the callbacks of the flow
    controllers. *)
Inductive notification : Type :=
| QueueControlFrame (f : Frame)
| OnHasStreamData (id : StreamID)
| OnStreamCompleted (id : StreamID)
| OnHasStreamWindowUpdate (id : StreamID)
| OnHasConnectionWindowUpdate.

Definition errorCodeStopping : Z := 0.
Definition errDeadline : goerr := ErrorString "deadline exceeded".

Record sendStream := mkSendStream {
  snd_streamID : StreamID;
  snd_writeOffset : ByteCount;
  snd_cancelWriteErr : option goerr;
  snd_closeForShutdownErr : option goerr;
  snd_closedForShutdown : bool;  (* set when CloseForShutdown() is called *)
  snd_finishedWriting : bool;    (* set once Close() is called *)
  snd_canceledWrite : bool;      (* set when CancelWrite() is called, or a STOP_SENDING frame is received *)
  snd_finSent : bool;            (* set when a STREAM frame with FIN bit has been sent *)
  snd_dataForWriting : option bytes;
  snd_writeChan : bool;
  snd_deadline : time;
  snd_ctxDone : bool
}.

#[global] Instance sendStream_eta : Eta sendStream := fun s =>
  mkSendStream (snd_streamID s) (snd_writeOffset s) (snd_cancelWriteErr s) (snd_closeForShutdownErr s)
    (snd_closedForShutdown s) (snd_finishedWriting s) (snd_canceledWrite s) (snd_finSent s)
    (snd_dataForWriting s) (snd_writeChan s) (snd_deadline s) (snd_ctxDone s).

Definition newSendStream (streamID : StreamID) : sendStream :=
  mkSendStream streamID 0 None None false false false false None false zero_time false.

Definition isNone {A} (o : option A) : bool := match o with None => true | Some _ => false end.

(** A non-blocking send on [writeChan]. *)
Definition signalWrite (s : sendStream) : sendStream := s <| snd_writeChan := true |>.

(** How a section of [Write] ends: it returns, or waits with a deadline. *)
Inductive writeResult :=
| Written (n : Z) (err : option goerr)
| WriteWaits (deadline : time).

Definition deadline_passed (now deadline : time) : bool := negb (IsZero deadline) && negb (Before now deadline).

(** One round of the loop of [Write], up to the wait. *)
Definition write_loop (now : time) (s : sendStream) (p : bytes) (notifiedSender : bool) :
    sendStream * list notification * writeResult :=
  let bytesWritten := dataLen p - dataLen (default [] (snd_dataForWriting s)) in
  if deadline_passed now (snd_deadline s) then
    (s <| snd_dataForWriting := None |>, [], Written bytesWritten (Some errDeadline))
  else if isNone (snd_dataForWriting s) || snd_canceledWrite s || snd_closedForShutdown s then
    (s, [], Written bytesWritten
              (if isNone (snd_closeForShutdownErr s) then snd_cancelWriteErr s else snd_closeForShutdownErr s))
  else (s, if notifiedSender then [] else [OnHasStreamData (snd_streamID s)], WriteWaits (snd_deadline s)).

(** [Write], up to the first wait. *)
Definition stream_Write (now : time) (s : sendStream) (p : bytes) : sendStream * list notification * writeResult :=
  if snd_finishedWriting s then
    (s, [], Written 0 (Some (Errorf "write on closed stream %d" [snd_streamID s])))
  else if snd_canceledWrite s then (s, [], Written 0 (snd_cancelWriteErr s))
  else if negb (isNone (snd_closeForShutdownErr s)) then (s, [], Written 0 (snd_closeForShutdownErr s))
  else if deadline_passed now (snd_deadline s) then (s, [], Written 0 (Some errDeadline))
  else if dataLen p =? 0 then (s, [], Written 0 None)
  else write_loop now (s <| snd_dataForWriting := Some p |>) p false.

(** [Write], from a wait to the next: it ends by a receive from [writeChan], or
    by the timer. *)
Definition write_signaled (now : time) (s : sendStream) (p : bytes) : sendStream * list notification * writeResult :=
  write_loop now (s <| snd_writeChan := false |>) p true.
Definition write_timer (now : time) (s : sendStream) (p : bytes) : sendStream * list notification * writeResult :=
  write_loop now s p true.

Definition hasData (s : sendStream) : bool := 0 <? dataLen (default [] (snd_dataForWriting s)).

Section Operations.
Context {C : Type} `{!ConnectionFlowControllerI C}.

(** The data to send and whether to send the FIN. *)
Definition getDataForWriting (s : sendStream) (fc : streamFlowController) (c : C) (maxBytes : ByteCount) :
    sendStream * streamFlowController * C * (bytes * bool) :=
  match snd_dataForWriting s with
  | None => (s, fc, c, ([], snd_finishedWriting s && negb (snd_finSent s)))
  | Some data =>
      let maxBytes := MinByteCount maxBytes (stream_SendWindowSize fc c) in
      if maxBytes =? 0 then (s, fc, c, ([], false)) else
      let '(ret, s) :=
        if maxBytes <? dataLen data then
          (take (Z.to_nat maxBytes) data, s <| snd_dataForWriting := Some (drop (Z.to_nat maxBytes) data) |>)
        else (data, signalWrite (s <| snd_dataForWriting := None |>)) in
      let s := s <| snd_writeOffset := uint64 (snd_writeOffset s + dataLen ret) |> in
      let '(fc, c) := stream_AddBytesSent fc c (dataLen ret) in
      (s, fc, c, (ret, snd_finishedWriting s && isNone (snd_dataForWriting s) && negb (snd_finSent s)))
  end.

(** [popStreamFrameImpl]: whether the stream is completed, the frame, and
    whether there is more data to send. *)
Definition popStreamFrameImpl (s : sendStream) (fc : streamFlowController) (c : C) (maxBytes : ByteCount) :
    outcome (sendStream * streamFlowController * C * list notification * (bool * option StreamFrame * bool)) :=
  if snd_canceledWrite s || negb (isNone (snd_closeForShutdownErr s)) then
    mret (s, fc, c, [], (false, None, false))
  else
  let frame := mkStreamFrame (snd_streamID s) false true (snd_writeOffset s) [] in
  maxDataLen ← MaxDataLen frame maxBytes;
  (* a STREAM frame must have at least one byte of data *)
  if maxDataLen =? 0 then mret (s, fc, c, [], (false, None, negb (isNone (snd_dataForWriting s)))) else
  let '(s, fc, c, (data, fin)) := getDataForWriting s fc c maxDataLen in
  if (dataLen data =? 0) && negb fin then
    if isNone (snd_dataForWriting s) then mret (s, fc, c, [], (false, None, false)) else
    let '(b, (isBlocked, offset)) := IsNewlyBlocked (sfc_base fc) in
    let fc := fc <| sfc_base := b |> in
    if isBlocked then
      mret (s, fc, c, [QueueControlFrame (FStreamDataBlocked (mkStreamDataBlockedFrame (snd_streamID s) offset))],
            (false, None, false))
    else mret (s, fc, c, [], (false, None, true))
  else
  let s := if fin then s <| snd_finSent := true |> else s in
  mret (s, fc, c, [],
        (fin, Some (mkStreamFrame (snd_streamID s) fin true (sf_Offset frame) data),
         negb (isNone (snd_dataForWriting s)))).

Definition popStreamFrame (s : sendStream) (fc : streamFlowController) (c : C) (maxBytes : ByteCount) :
    outcome (sendStream * streamFlowController * C * list notification * (option StreamFrame * bool)) :=
  '(s, fc, c, notes, (completed, frame, hasMoreData)) ← popStreamFrameImpl s fc c maxBytes;
  mret (s, fc, c, notes ++ (if completed : bool then [OnStreamCompleted (snd_streamID s)] else []), (frame, hasMoreData)).

End Operations.

Definition send_Close (s : sendStream) : sendStream * list notification * option goerr :=
  if snd_canceledWrite s then
    (s, [], Some (Errorf "Close called for canceled stream %d" [snd_streamID s]))
  else (s <| snd_finishedWriting := true |> <| snd_ctxDone := true |>, [OnHasStreamData (snd_streamID s)], None).

(** [cancelWriteImpl]: whether the stream is completed. *)
Definition cancelWriteImpl (s : sendStream) (errorCode : Z) (writeErr : goerr) : sendStream * list notification * bool :=
  if snd_canceledWrite s || snd_finishedWriting s then (s, [], false) else
  let s := signalWrite (s <| snd_canceledWrite := true |> <| snd_cancelWriteErr := Some writeErr |>) in
  (s <| snd_ctxDone := true |>,
   [QueueControlFrame (FResetStream (mkResetStreamFrame (snd_streamID s) errorCode (snd_writeOffset s)))], true).

Definition completed_note (id : StreamID) (r : sendStream * list notification * bool) : sendStream * list notification :=
  let '(s, notes, completed) := r in (s, notes ++ (if completed : bool then [OnStreamCompleted id] else [])).

Definition CancelWrite (s : sendStream) (errorCode : Z) : sendStream * list notification :=
  completed_note (snd_streamID s) (cancelWriteImpl s errorCode
    (Errorf "Write on stream %d canceled with error code %d" [snd_streamID s; errorCode])).

Definition handleMaxStreamDataFrame (s : sendStream) (fc : streamFlowController) (frame : MaxStreamDataFrame) :
    sendStream * streamFlowController * list notification :=
  let hasStreamData := negb (isNone (snd_dataForWriting s)) in
  (s, fc <| sfc_base := UpdateSendWindow (sfc_base fc) (msd_ByteOffset frame) |>,
   if hasStreamData then [OnHasStreamData (snd_streamID s)] else []).

(** [handleStopSendingFrame], with [handleStopSendingFrameImpl]. *)
Definition handleStopSendingFrame (s : sendStream) (frame : StopSendingFrame) : sendStream * list notification :=
  completed_note (snd_streamID s) (cancelWriteImpl s errorCodeStopping
    (StreamCanceledError (ss_ErrorCode frame)
      (Errorf "Stream %d was reset with error code %d" [snd_streamID s; ss_ErrorCode frame]))).

Definition SetWriteDeadline (s : sendStream) (t : time) : sendStream := signalWrite (s <| snd_deadline := t |>).

Definition send_closeForShutdown (s : sendStream) (err : option goerr) : sendStream :=
  signalWrite (s <| snd_closedForShutdown := true |> <| snd_closeForShutdownErr := err |>) <| snd_ctxDone := true |>.

(** ** A stream that is written to and sent

    The stream, the sending side of its connection (all controllers), the [Write]
    that waits, if any, the bytes that the [Write]s which returned reported as
    written, and the frames popped, each with the size it had to fit in. *)

Section Writer.
Context `{!FloatConv}.

Record writer := mkWriter {
  wr_stream : sendStream;
  wr_flow : sending;
  wr_call : option (bytes * time);
  wr_accepted : bytes;
  wr_frames : list (StreamFrame * ByteCount)
}.

#[global] Instance writer_eta : Eta writer := fun w =>
  mkWriter (wr_stream w) (wr_flow w) (wr_call w) (wr_accepted w) (wr_frames w).

Definition with_fc (sd : sending) (id : StreamID) (fc : streamFlowController) (c : connectionFlowController) : sending :=
  mkSending c (<[id := fc]> (sd_streams sd)) (sd_completed sd).

Definition after_write (w : writer) (p : bytes) (r : sendStream * list notification * writeResult) : writer :=
  match r with
  | (s, _, Written n _) =>
      w <| wr_stream := s |> <| wr_call := None |> <| wr_accepted := wr_accepted w ++ take (Z.to_nat n) p |>
  | (s, _, WriteWaits d) => w <| wr_stream := s |> <| wr_call := Some (p, d) |>
  end.

(** What can happen to it.  [Write] is not called again before it returned; the
    session passes an error when it closes the stream. *)
Inductive write_step : writer -> writer -> Prop :=
| step_write w now p :
    wr_call w = None -> write_step w (after_write w p (stream_Write now (wr_stream w) p))
| step_signaled w now p d :
    wr_call w = Some (p, d) -> snd_writeChan (wr_stream w) = true ->
    write_step w (after_write w p (write_signaled now (wr_stream w) p))
| step_timer w now p d :
    wr_call w = Some (p, d) -> deadline_passed now d = true ->
    write_step w (after_write w p (write_timer now (wr_stream w) p))
| step_pop w fc maxBytes s' fc' c' notes frame more :
    sd_streams (wr_flow w) !! snd_streamID (wr_stream w) = Some fc -> 0 <= maxBytes < 2 ^ 14 ->
    popStreamFrame (wr_stream w) fc (sd_conn (wr_flow w)) maxBytes = Ret (s', fc', c', notes, (frame, more)) ->
    write_step w (mkWriter s' (with_fc (wr_flow w) (snd_streamID (wr_stream w)) fc' c') (wr_call w) (wr_accepted w)
      (wr_frames w ++ match frame with Some f => [(f, maxBytes)] | None => [] end))
| step_close w : write_step w (w <| wr_stream := (send_Close (wr_stream w)).1.1 |>)
| step_cancel w errorCode : write_step w (w <| wr_stream := (CancelWrite (wr_stream w) errorCode).1 |>)
| step_stop_sending w frame : write_step w (w <| wr_stream := (handleStopSendingFrame (wr_stream w) frame).1 |>)
| step_max_stream_data w fc frame s' fc' notes :
    sd_streams (wr_flow w) !! snd_streamID (wr_stream w) = Some fc -> 0 <= msd_ByteOffset frame <= MaxByteCount ->
    handleMaxStreamDataFrame (wr_stream w) fc frame = (s', fc', notes) ->
    write_step w (w <| wr_stream := s' |>
      <| wr_flow := with_fc (wr_flow w) (snd_streamID (wr_stream w)) fc' (sd_conn (wr_flow w)) |>)
| step_deadline w t : write_step w (w <| wr_stream := SetWriteDeadline (wr_stream w) t |>)
| step_shutdown w err : write_step w (w <| wr_stream := send_closeForShutdown (wr_stream w) (Some err) |>)
| step_others w sd' :
    (* the other streams, and MAX_DATA frames *)
    send_step (wr_flow w) sd' ->
    sd_streams sd' !! snd_streamID (wr_stream w) = sd_streams (wr_flow w) !! snd_streamID (wr_stream w) ->
    write_step w (w <| wr_flow := sd' |>).

(** The data of the frames, in the order they were popped. *)
Definition frames_data (frames : list (StreamFrame * ByteCount)) : bytes := concat (map (fun fm => sf_Data fm.1) frames).
Arguments frames_data : simpl never.

Lemma frames_data_snoc frames fm : frames_data (frames ++ [fm]) = frames_data frames ++ sf_Data fm.1.
Proof. unfold frames_data. rewrite map_app, concat_app. cbn. by rewrite app_nil_r. Qed.

Lemma dataLen_app (a b : bytes) : dataLen (a ++ b) = dataLen a + dataLen b.
Proof. unfold dataLen. rewrite length_app. lia. Qed.

(** The stream sends nothing any more. *)
Definition stopped (s : sendStream) : Prop := snd_canceledWrite s = true \/ snd_closeForShutdownErr s <> None.

(** The stream and the frames it has sent. *)
Record frames_ok (s : sendStream) (sd : sending) (frames : list (StreamFrame * ByteCount)) : Prop := {
  so_flow : sending_ok sd;
  so_id : is_id (snd_streamID s);
  so_fc : exists fc, sd_streams sd !! snd_streamID s = Some fc /\ bytesSent (sfc_base fc) = snd_writeOffset s;
  so_offset : snd_writeOffset s = dataLen (frames_data frames);
  so_rest : snd_dataForWriting s <> Some [];
  so_closed : snd_closedForShutdown s = negb (isNone (snd_closeForShutdownErr s));
  so_exclusive : snd_canceledWrite s = true -> snd_finishedWriting s = false;
  so_finSent : snd_finSent s = existsb (fun fm => sf_FinBit fm.1) frames;
  so_finished : snd_finSent s = true -> snd_finishedWriting s = true /\ snd_dataForWriting s = None;
  so_fin : forall fm pre post, frames = pre ++ fm :: post -> sf_FinBit fm.1 = true -> post = [];
  so_places : forall fm pre post, frames = pre ++ fm :: post -> sf_Offset fm.1 = dataLen (frames_data pre);
  so_fits : Forall (fun fm => sf_StreamID fm.1 = snd_streamID s /\ (sf_Data fm.1 <> [] \/ sf_FinBit fm.1 = true) /\
                      exists len, lengthStreamFrame fm.1 = Ret len /\ len <= fm.2) frames
}.

(** What the frames carry, in terms of the calls of [Write]. *)
Definition written_ok (s : sendStream) (call : option (bytes * time)) (accepted sent : bytes) : Prop :=
  match call with
  | None => sent = accepted /\ (snd_dataForWriting s = None \/ stopped s)
  | Some (p, _) => exists q, sent = accepted ++ q /\ p = q ++ default [] (snd_dataForWriting s)
  end.

(** A [Write] that waits, and that nothing will wake, has reason to wait. *)
Definition wait_ok (s : sendStream) (call : option (bytes * time)) : Prop :=
  match call with
  | None => True
  | Some (_, d) => snd_writeChan s = false -> snd_dataForWriting s <> None /\ ~ stopped s /\ d = snd_deadline s
  end.

Record writer_ok (w : writer) : Prop := {
  wo_sent : frames_ok (wr_stream w) (wr_flow w) (wr_frames w);
  wo_written : written_ok (wr_stream w) (wr_call w) (wr_accepted w) (frames_data (wr_frames w));
  wo_wait : wait_ok (wr_stream w) (wr_call w)
}.

(** The largest frame that [MaxDataLen] allows fits, also one without data. *)
Lemma frame_fits id fin offset d maxBytes n :
  is_id id -> 0 <= offset -> offset + dataLen d <= MaxByteCount -> 0 <= maxBytes < 2 ^ 14 ->
  MaxDataLen (mkStreamFrame id false true offset []) maxBytes = Ret n -> n <> 0 -> dataLen d <= n ->
  exists len, lengthStreamFrame (mkStreamFrame id fin true offset d) = Ret len /\ len <= maxBytes.
Proof.
  intros Hid Ho Hmax Hm Hn Hn0 Hd. set (f := mkStreamFrame id false true offset []) in *.
  assert (Hof : 0 <= sf_Offset f <= MaxByteCount) by (unfold dataLen in *; cbn; lia).
  destruct (stream_sizes f Hid Hof) as (h & Hh & Hlen & Emax).
  destruct (Hlen d Hmax) as (l & El & E). exists (h + l + dataLen d). split; [exact E|].
  destruct d as [|b d].
  - rewrite Emax in Hn. cbn in Hn, El. injection El as <-. change (dataLen []) with 0.
    destruct (Z.ltb_spec maxBytes (h + 1)); [by injection Hn as <-|lia].
  - destruct (MaxDataLen_spec f maxBytes Hid Hof Hm) as (n' & E' & _ & Hiff).
    rewrite Hn in E'. injection E' as <-. by apply (Hiff (b :: d) _ Hmax ltac:(done) E).
Qed.

Lemma room_for_data id offset maxBytes :
  is_id id -> 0 <= offset <= MaxByteCount -> 20 <= maxBytes < 2 ^ 14 ->
  exists n, MaxDataLen (mkStreamFrame id false true offset []) maxBytes = Ret n /\ 0 < n.
Proof.
  intros Hid Ho Hm. set (f := mkStreamFrame id false true offset []).
  destruct (stream_sizes f Hid Ho) as (h & Hh & _ & Emax). rewrite Emax. cbn.
  destruct (Z.ltb_spec maxBytes (h + 1)); [lia|].
  destruct (VarIntLen_cases (maxBytes - (h + 1))) as (l & -> & Hl); [varint|]. eexists. split; [reflexivity|].
  case_if; zbool; lia.
Qed.

(** What [getDataForWriting] takes is the next part of the data; the last part
    wakes the writer. *)
Lemma getDataForWriting_ok s fc (c : connectionFlowController) maxBytes s' fc' c' d fin :
  send_ok (sfc_base fc) -> send_ok (cfc_base c) -> bytesSent (sfc_base fc) = snd_writeOffset s ->
  snd_dataForWriting s <> Some [] -> 0 <= maxBytes ->
  getDataForWriting s fc c maxBytes = (s', fc', c', (d, fin)) ->
  exists data' ch,
    s' = s <| snd_dataForWriting := data' |> <| snd_writeChan := ch |>
           <| snd_writeOffset := snd_writeOffset s + dataLen d |> /\
    default [] (snd_dataForWriting s) = d ++ default [] data' /\ data' <> Some [] /\ dataLen d <= maxBytes /\
    fin = snd_finishedWriting s && isNone data' && negb (snd_finSent s) /\
    (snd_writeChan s = true -> ch = true) /\ (data' = None -> snd_dataForWriting s = None \/ ch = true) /\
    (snd_dataForWriting s = None -> data' = None) /\
    (d = [] /\ s' = s /\ fc' = fc /\ c' = c /\ (snd_dataForWriting s = None \/ maxBytes = 0 \/ stream_SendWindowSize fc c = 0) \/
     0 < dataLen d <= stream_SendWindowSize fc c /\ stream_AddBytesSent fc c (dataLen d) = (fc', c')).
Proof.
  intros Hf Hc Hb Hne Hm. unfold getDataForWriting. destruct (snd_dataForWriting s) as [data|] eqn:Ed.
  2: { intros [= <- <- <- <- <-]. exists None, (snd_writeChan s). split.
       { destruct s; cbn in *. subst. change (dataLen []) with 0. by rewrite Z.add_0_r. }
       split_and!; try done; [by rewrite andb_true_r|by left|]. left. split_and!; try done. by left. }
  assert (Hw : 0 <= stream_SendWindowSize fc c /\ snd_writeOffset s + stream_SendWindowSize fc c <= MaxByteCount /\ 0 <= snd_writeOffset s).
  { destruct Hf, Hc. unfold stream_SendWindowSize, sendWindowSize. rewrite MinByteCount_min. cbn. unfold sendWindowSize. case_ifs; zbool; lia. }
  rewrite MinByteCount_min. destruct (Z.eqb_spec (Z.min maxBytes (stream_SendWindowSize fc c)) 0) as [E0|E0].
  { intros [= <- <- <- <- <-]. exists (Some data), (snd_writeChan s). split.
    { destruct s; cbn in *. subst. change (dataLen []) with 0. by rewrite Z.add_0_r. }
    split_and!; try done; [by rewrite andb_false_r|]. left. split_and!; try done. lia. }
  assert (Hpos : 0 < dataLen data) by (apply dataLen_pos; intros ->; by apply Hne).
  assert (MaxByteCount < 2 ^ 64) by done.
  destruct (Z.ltb_spec (Z.min maxBytes (stream_SendWindowSize fc c)) (dataLen data)) as [Hlt|Hge].
  - set (n := Z.min _ _) in *. assert (Hn : dataLen (take (Z.to_nat n) data) = n).
    { unfold dataLen in *. rewrite length_take. lia. }
    cbn -[uint64]. intros [= <- <- <- <- <-]. rewrite Hn, uint64_id by go_range.
    exists (Some (drop (Z.to_nat n) data)), (snd_writeChan s). split; [by destruct s|]. cbn. rewrite take_drop.
    split_and!; try done; [|lia|right; split; [lia|done]].
    intros [= E]. assert (El : dataLen (drop (Z.to_nat n) data) = 0) by (rewrite E; done).
    unfold dataLen in *. rewrite length_drop in El. lia.
  - cbn -[uint64]. intros [= <- <- <- <- <-]. rewrite uint64_id by go_range.
    exists None, true. split; [by destruct s|]. cbn. rewrite app_nil_r. split_and!; try done; [lia|by right|].
    right. split; [lia|done].
Qed.

Lemma IsNewlyBlocked_ok b b' r :
  send_ok b -> IsNewlyBlocked b = (b', r) -> send_ok b' /\ bytesSent b' = bytesSent b /\ sendWindow b' = sendWindow b.
Proof. intros [] E. unfold IsNewlyBlocked in E. case_if_in E; injection E as <- <-; (split; [by split|done]). Qed.

Lemma stream_AddBytesSent_ok fc (c : connectionFlowController) n fc' c' :
  send_ok (sfc_base fc) -> send_ok (cfc_base c) -> 0 <= n <= stream_SendWindowSize fc c ->
  stream_AddBytesSent fc c n = (fc', c') ->
  send_ok (sfc_base fc') /\ send_ok (cfc_base c') /\ bytesSent (sfc_base fc') = bytesSent (sfc_base fc) + n /\
  bytesSent (cfc_base c') = bytesSent (cfc_base c) + n.
Proof.
  intros Hf Hc Hn [= <- <-]. unfold stream_SendWindowSize in Hn. rewrite MinByteCount_min in Hn. cbn in Hn.
  destruct (AddBytesSent_ok (sfc_base fc) n Hf ltac:(lia)), (AddBytesSent_ok (cfc_base c) n Hc ltac:(lia)). done.
Qed.

(** What a popped frame carries, and what it leaves. *)
Record popped (s : sendStream) (fc : streamFlowController) (c : connectionFlowController) (maxBytes : ByteCount)
    (s' : sendStream) (fc' : streamFlowController) (c' : connectionFlowController) (frame : option StreamFrame) : Prop :=
  mkPopped {
  pp_data : bytes;
  pp_fin : bool;
  pp_rest : option bytes;
  pp_chan : bool;
  pp_stream : s' = s <| snd_dataForWriting := pp_rest |> <| snd_writeChan := pp_chan |>
                     <| snd_writeOffset := snd_writeOffset s + dataLen pp_data |>
                     <| snd_finSent := snd_finSent s || pp_fin |>;
  pp_split : default [] (snd_dataForWriting s) = pp_data ++ default [] pp_rest;
  pp_nonempty : pp_rest <> Some [];
  pp_signal : snd_writeChan s = true -> pp_chan = true;
  pp_wake : pp_rest = None -> snd_dataForWriting s = None \/ pp_chan = true;
  pp_none : snd_dataForWriting s = None -> pp_rest = None;
  pp_end : pp_fin = true -> snd_finishedWriting s = true /\ pp_rest = None /\ snd_finSent s = false;
  pp_frame : match frame with
             | None => pp_data = [] /\ pp_fin = false
             | Some f => ~ stopped s /\ f = mkStreamFrame (snd_streamID s) pp_fin true (snd_writeOffset s) pp_data /\
                         (pp_data <> [] \/ pp_fin = true) /\
                         exists len, lengthStreamFrame f = Ret len /\ len <= maxBytes
             end;
  pp_send : send_ok (sfc_base fc') /\ send_ok (cfc_base c');
  pp_sent : bytesSent (sfc_base fc') = bytesSent (sfc_base fc) + dataLen pp_data /\
            bytesSent (cfc_base c') = bytesSent (cfc_base c) + dataLen pp_data
}.

(** A frame is not popped. *)
Lemma not_popped s fc (c : connectionFlowController) maxBytes fc' :
  send_ok (sfc_base fc') -> send_ok (cfc_base c) -> bytesSent (sfc_base fc') = bytesSent (sfc_base fc) ->
  snd_dataForWriting s <> Some [] -> popped s fc c maxBytes s fc' c None.
Proof.
  intros Hf Hc Hb Hne.
  refine (mkPopped _ _ _ _ _ _ _ _ [] false (snd_dataForWriting s) (snd_writeChan s) _ _ _ _ _ _ _ _ _ _); try done.
  - destruct s; cbn. change (dataLen []) with 0. by rewrite Z.add_0_r, orb_false_r.
  - by left.
  - split; [|by change (dataLen []) with 0; rewrite Z.add_0_r]. change (dataLen []) with 0. lia.
Qed.

Lemma popStreamFrame_ok s fc (c : connectionFlowController) maxBytes :
  send_ok (sfc_base fc) -> send_ok (cfc_base c) -> bytesSent (sfc_base fc) = snd_writeOffset s ->
  is_id (snd_streamID s) -> snd_dataForWriting s <> Some [] -> 0 <= maxBytes < 2 ^ 14 ->
  exists s' fc' c' notes frame more,
    popStreamFrame s fc c maxBytes = Ret (s', fc', c', notes, (frame, more)) /\ popped s fc c maxBytes s' fc' c' frame.
Proof.
  intros Hf Hc Hb Hid Hne Hm. unfold popStreamFrame, popStreamFrameImpl.
  destruct (snd_canceledWrite s || _) eqn:Est.
  { do 6 eexists. split; [reflexivity|]. by apply not_popped. }
  assert (Hns : ~ stopped s).
  { apply orb_false_iff in Est as [E1 E2]. intros [?|Hn]; [congruence|]. by destruct (snd_closeForShutdownErr s). }
  set (f0 := mkStreamFrame (snd_streamID s) false true (snd_writeOffset s) []).
  assert (Hof : 0 <= snd_writeOffset s <= MaxByteCount) by (destruct Hf; lia).
  destruct (MaxDataLen_spec f0 maxBytes Hid Hof Hm) as (n & En & Hn & _). rewrite En. cbn [mbind outcome_bind].
  destruct (Z.eqb_spec n 0) as [E0|E0].
  { do 6 eexists. split; [reflexivity|]. by apply not_popped. }
  destruct (getDataForWriting s fc c n) as [[[s1 fc1] c1] [d fin]] eqn:E.
  destruct (getDataForWriting_ok s fc c n s1 fc1 c1 d fin Hf Hc Hb Hne ltac:(lia) E)
    as (data' & ch & Es & Ed & Hd & Hmax & Efin & Hch & Hwk & Hno & Hfl).
  assert (Hflow : send_ok (sfc_base fc1) /\ send_ok (cfc_base c1) /\
    bytesSent (sfc_base fc1) = bytesSent (sfc_base fc) + dataLen d /\ bytesSent (cfc_base c1) = bytesSent (cfc_base c) + dataLen d).
  { destruct Hfl as [(-> & _ & -> & -> & _)|[Hd1 Ea]]; [change (dataLen []) with 0; rewrite !Z.add_0_r; done|].
    apply (stream_AddBytesSent_ok fc c); [done|done|lia|done]. }
  destruct Hflow as (Hf1 & Hc1 & Eb1 & Ec1).
  destruct ((dataLen d =? 0) && negb fin) eqn:Ee.
  { destruct Hfl as [(-> & -> & -> & -> & _)|[? _]]; [|zbool; lia].
    case_if; [do 6 eexists; split; [reflexivity|]; by apply not_popped|].
    destruct (IsNewlyBlocked (sfc_base fc)) as [b [isBlocked off]] eqn:Eb.
    destruct (IsNewlyBlocked_ok _ _ _ Hf Eb) as (? & ? & ?).
    destruct isBlocked; (do 6 eexists; split; [reflexivity|]; by apply not_popped). }
  do 6 eexists. split; [reflexivity|]. clear E. subst s1.
  refine (mkPopped _ _ _ _ _ _ _ _ d fin data' ch _ _ _ _ _ _ _ _ _ _); try done.
  - destruct fin; [by rewrite orb_true_r|by destruct s; rewrite orb_false_r].
  - intros ->. symmetry in Efin. zbool. by destruct data'.
  - assert (Ei : snd_streamID (if fin then s <| snd_dataForWriting := data' |> <| snd_writeChan := ch |>
      <| snd_writeOffset := snd_writeOffset s + dataLen d |> <| snd_finSent := true |>
      else s <| snd_dataForWriting := data' |> <| snd_writeChan := ch |>
      <| snd_writeOffset := snd_writeOffset s + dataLen d |>) = snd_streamID s) by by destruct fin.
    rewrite Ei. split_and!; try done.
    + apply andb_false_iff in Ee as [Ee|Ee]; zbool; [left; intros ->; done|by right].
    + change (sf_Offset f0) with (snd_writeOffset s). apply (frame_fits _ _ _ d maxBytes n); try done; [lia|]. destruct Hf1. lia.
Qed.
Lemma with_fc_ok sd id fc fc' c' :
  sending_ok sd -> sd_streams sd !! id = Some fc -> send_ok (sfc_base fc') -> send_ok (cfc_base c') ->
  bytesSent (cfc_base c') - bytesSent (cfc_base (sd_conn sd)) = bytesSent (sfc_base fc') - bytesSent (sfc_base fc) ->
  sending_ok (with_fc sd id fc' c').
Proof.
  intros [Hc Hall Hsum] Hl Hf' Hc' Hb. split; cbn; [done|by apply map_Forall_insert_2|].
  rewrite (map_sum_update _ _ _ _ _ Hl). unfold stream_sent at 2 3. lia.
Qed.

(** A change of the data and of the signal only. *)
Lemma frames_ok_data s sd frames data ch :
  frames_ok s sd frames -> data <> Some [] -> (snd_finSent s = true -> data = None) ->
  frames_ok (s <| snd_dataForWriting := data |> <| snd_writeChan := ch |>) sd frames.
Proof. intros [] Hd Hf. split; cbn; try done. intros E. split; [by apply so_finished0|by apply Hf]. Qed.

(** One round of [Write]. *)
Lemma write_loop_ok w now s p b q :
  frames_ok s (wr_flow w) (wr_frames w) -> frames_data (wr_frames w) = wr_accepted w ++ q ->
  p = q ++ default [] (snd_dataForWriting s) -> writer_ok (after_write w p (write_loop now s p b)).
Proof.
  intros Hs Eq Ep.
  assert (En : take (Z.to_nat (dataLen p - dataLen (default [] (snd_dataForWriting s)))) p = q).
  { rewrite Ep, dataLen_app. replace (Z.to_nat _) with (length q) by (unfold dataLen; lia). apply take_app_length. }
  assert (Hacc : frames_data (wr_frames w) =
    wr_accepted w ++ take (Z.to_nat (dataLen p - dataLen (default [] (snd_dataForWriting s)))) p) by by rewrite En.
  unfold write_loop. destruct (deadline_passed now (snd_deadline s)) eqn:Ed; [|case_if].
  - split; cbn -[dataLen]; [|by split; [|left]|done].
    pose proof (frames_ok_data s _ _ None (snd_writeChan s) Hs ltac:(done) ltac:(done)) as Hs'. by destruct s.
  - split; cbn -[dataLen]; [done| |done]. split; [done|].
    apply orb_true_iff in Heqb0 as [[Hn|Hn]%orb_true_iff|Hn]; [left|right; by left|right; right].
    + by destruct (snd_dataForWriting s).
    + rewrite (so_closed _ _ _ Hs) in Hn. by destruct (snd_closeForShutdownErr s).
  - split; cbn; [done|by exists q|]. intros _. apply orb_false_iff in Heqb0 as [[H1 H2]%orb_false_iff H3].
    split; [by destruct (snd_dataForWriting s)|]. split; [|done]. intros [?|Hn]; [congruence|].
    rewrite (so_closed _ _ _ Hs) in H3. by destruct (snd_closeForShutdownErr s).
Qed.

Lemma returned_nothing w s p err :
  writer_ok w -> wr_call w = None -> s = wr_stream w -> writer_ok (after_write w p (s, [], Written 0 err)).
Proof.
  intros [Hs Hw _] Hc ->. split; cbn; [done| |done]. rewrite Hc in Hw. by rewrite app_nil_r.
Qed.

Lemma stream_Write_ok w now p :
  writer_ok w -> wr_call w = None -> writer_ok (after_write w p (stream_Write now (wr_stream w) p)).
Proof.
  intros Hok Hc. unfold stream_Write. destruct (snd_finishedWriting _) eqn:Ef; [by apply returned_nothing|].
  destruct (snd_canceledWrite _) eqn:Ecw; [by apply returned_nothing|].
  destruct (negb _) eqn:Es; [by apply returned_nothing|].
  destruct (deadline_passed _ _); [by apply returned_nothing|].
  destruct (Z.eqb_spec (dataLen p) 0) as [E0|E0]; [by apply returned_nothing|].
  destruct Hok as [Hs Hw _]. rewrite Hc in Hw. destruct Hw as [Hw _].
  apply (write_loop_ok w now _ p false []); [|by rewrite app_nil_r|done].
  assert (Hs' : frames_ok (wr_stream w <| snd_dataForWriting := Some p |> <| snd_writeChan := snd_writeChan (wr_stream w) |>)
    (wr_flow w) (wr_frames w)).
  { apply frames_ok_data; [done|by intros [= ->]|]. intros Hf. apply (so_finished _ _ _ Hs) in Hf as [Hf _]. congruence. }
  by destruct (wr_stream w).
Qed.

Lemma write_resumed_ok w now p d s :
  writer_ok w -> wr_call w = Some (p, d) -> (s = wr_stream w \/ s = wr_stream w <| snd_writeChan := false |>) ->
  writer_ok (after_write w p (write_loop now s p true)).
Proof.
  intros [Hs Hw _] Hc Es. rewrite Hc in Hw. destruct Hw as (q & E1 & E2).
  assert (Hs' : frames_ok s (wr_flow w) (wr_frames w)) by (destruct Es as [-> | ->]; [done|by destruct Hs]).
  apply (write_loop_ok w now s p true q Hs' E1). by destruct Es as [-> | ->].
Qed.

(** A frame is added. *)
Lemma snoc_split {A} (l : list A) x pre y post :
  l ++ [x] = pre ++ y :: post -> (pre = l /\ y = x /\ post = []) \/ exists post', post = post' ++ [x] /\ l = pre ++ y :: post'.
Proof.
  intros E. destruct post as [|z post _] using rev_ind.
  - apply app_inj_tail in E as [-> ->]. by left.
  - rewrite app_comm_cons, app_assoc in E. apply app_inj_tail in E as [-> ->]. right. by exists post.
Qed.

Lemma popped_data frames s fin d (maxBytes : ByteCount) (frame : option StreamFrame) :
  match frame with
  | None => d = [] /\ fin = false
  | Some f => ~ stopped s /\ f = mkStreamFrame (snd_streamID s) fin true (snd_writeOffset s) d /\
      (d <> [] \/ fin = true) /\ exists len, lengthStreamFrame f = Ret len /\ len <= maxBytes
  end ->
  frames_data (frames ++ match frame with Some f => [(f, maxBytes)] | None => [] end) = frames_data frames ++ d.
Proof.
  destruct frame as [f|]; [|intros [-> _]; by rewrite !app_nil_r]. intros (_ & -> & _). apply frames_data_snoc.
Qed.

Lemma pop_frames_ok s sd frames fc maxBytes s' fc' c' frame :
  frames_ok s sd frames -> sd_streams sd !! snd_streamID s = Some fc ->
  popped s fc (sd_conn sd) maxBytes s' fc' c' frame ->
  frames_ok s' (with_fc sd (snd_streamID s) fc' c') (frames ++ match frame with Some f => [(f, maxBytes)] | None => [] end).
Proof.
  intros Hs Hl [d fin rest ch -> Esp Hne _ _ Hno Hend Hfr [Hf' Hc'] [Eb Ec]].
  destruct Hs as [Hsd Hid (fc0 & Hl' & Hb) Ho Hr Hcl Hex Hfs Hfi Hfin Hpl Hfit].
  rewrite Hl in Hl'. injection Hl' as <-.
  pose proof (popped_data frames s fin d maxBytes frame Hfr) as Hdata.
  split; cbn -[dataLen]; try done.
  - eapply with_fc_ok; try done. lia.
  - exists fc'. split; [apply lookup_insert_eq|]. lia.
  - rewrite Hdata, dataLen_app. lia.
  - rewrite existsb_app, Hfs. destruct frame as [f|]; [|destruct Hfr as [_ ->]; done]. destruct Hfr as (_ & -> & _). cbn.
    by rewrite orb_false_r.
  - intros [E|E]%orb_true_iff; [|by apply Hend in E as (? & ? & _)]. apply Hfi in E as [? ?]. split; [done|auto].
  - intros fm pre post. destruct frame as [f|]; [|rewrite app_nil_r; apply Hfin].
    intros [(-> & -> & ->)|(post' & -> & E)]%snoc_split Hb'; [done|]. exfalso.
    pose proof (Hfin _ _ _ E Hb') as ->. assert (Ht : snd_finSent s = true).
    { rewrite Hfs, E, existsb_app. cbn. by rewrite Hb', orb_true_r. }
    destruct Hfr as (_ & _ & [Hd|Hf] & _); [|apply Hend in Hf as (_ & _ & ?); congruence].
    apply Hfi in Ht as [_ Ht]. rewrite Ht in Esp. by destruct d.
  - intros fm pre post. destruct frame as [f|]; [|rewrite app_nil_r; apply Hpl].
    intros [(-> & -> & ->)|(post' & -> & E)]%snoc_split; [|by eapply Hpl]. destruct Hfr as (_ & -> & _). done.
  - apply Forall_app. split; [done|]. destruct frame as [f|]; [|done]. constructor; [|constructor].
    destruct Hfr as (_ & -> & ? & ?). done.
Qed.

Lemma pop_ok w fc maxBytes s' fc' c' frame :
  writer_ok w -> sd_streams (wr_flow w) !! snd_streamID (wr_stream w) = Some fc ->
  popped (wr_stream w) fc (sd_conn (wr_flow w)) maxBytes s' fc' c' frame ->
  writer_ok (mkWriter s' (with_fc (wr_flow w) (snd_streamID (wr_stream w)) fc' c') (wr_call w) (wr_accepted w)
    (wr_frames w ++ match frame with Some f => [(f, maxBytes)] | None => [] end)).
Proof.
  intros [Hs Hw Hwt] Hl Hp. pose proof (pop_frames_ok _ _ _ _ _ _ _ _ _ Hs Hl Hp) as Hs'.
  destruct Hp as [d fin rest ch -> Esp Hne Hsig Hwk Hno Hend Hfr _ _]. split; [exact Hs'|..]; cbn.
  - rewrite (popped_data (wr_frames w) (wr_stream w) fin d maxBytes frame Hfr). destruct (wr_call w) as [[p dl]|]; cbn in *.
    + destruct Hw as (q & -> & ->). exists (q ++ d). by rewrite Esp, !app_assoc.
    + destruct Hw as [-> Hd]. assert (d = []) as ->.
      { destruct frame as [f|]; [|by destruct Hfr]. destruct Hfr as (Hn & _).
        destruct Hd as [Hd|?]; [|done]. rewrite Hd in Esp. by destruct d. }
      rewrite app_nil_r. split; [done|]. destruct Hd as [Hd|Hd]; [left; auto|by right].
  - destruct (wr_call w) as [[p dl]|]; cbn in *; [|done]. intros ->.
    destruct (snd_writeChan (wr_stream w)) eqn:Ech; [discriminate (Hsig eq_refl)|].
    destruct (Hwt eq_refl) as (H1 & H2 & H3). split; [|done]. intros ->. by destruct (Hwk eq_refl).
Qed.

(** The calls that change the flags, and not the data. *)
Lemma flags_ok w s' :
  writer_ok w -> let s := wr_stream w in
  snd_streamID s' = snd_streamID s -> snd_writeOffset s' = snd_writeOffset s ->
  snd_dataForWriting s' = snd_dataForWriting s -> snd_finSent s' = snd_finSent s ->
  snd_closedForShutdown s' = negb (isNone (snd_closeForShutdownErr s')) ->
  (snd_canceledWrite s' = true -> snd_finishedWriting s' = false) ->
  (snd_finishedWriting s = true -> snd_finishedWriting s' = true) -> (stopped s -> stopped s') ->
  (snd_writeChan s' = false ->
     snd_writeChan s = false /\ snd_deadline s' = snd_deadline s /\ (stopped s' -> stopped s)) ->
  writer_ok (w <| wr_stream := s' |>).
Proof.
  intros [Hs Hw Hwt] s Ei Eo Ed Ef Hcl Hex Hfin Hst Hch. subst s. split; cbn.
  - destruct Hs. split; rewrite ?Ei, ?Eo, ?Ed, ?Ef; try done. intros E. destruct (so_finished0 E). auto.
  - unfold written_ok in *. rewrite Ed. destruct (wr_call w) as [[p d]|]; [done|]. naive_solver.
  - unfold wait_ok in *. rewrite Ed. destruct (wr_call w) as [[p d]|]; [|done]. intros E.
    destruct (Hch E) as (E1 & E2 & E3). destruct (Hwt E1) as (H1 & H2 & H3). rewrite E2. split_and!; auto.
Qed.

Lemma cancelWriteImpl_ok w errorCode err :
  writer_ok w -> writer_ok (w <| wr_stream := (cancelWriteImpl (wr_stream w) errorCode err).1.1 |>).
Proof.
  intros Hok. unfold cancelWriteImpl. destruct (snd_canceledWrite _) eqn:Ec; cbn [orb].
  { apply flags_ok; try done; [apply Hok|]. apply (so_exclusive _ _ _ (wo_sent _ Hok)). }
  destruct (snd_finishedWriting _) eqn:Ef.
  { apply flags_ok; try done; [apply Hok|cbn; congruence]. }
  apply flags_ok; cbn; try done; [apply Hok|]. intros _. by left.
Qed.

Lemma completed_note_stream id r : (completed_note id r).1 = r.1.1.
Proof. by destruct r as [[s notes] completed]. Qed.

Lemma write_step_ok w w' : writer_ok w -> write_step w w' -> writer_ok w'.
Proof.
  intros Hok Hs. revert Hok. destruct Hs as [w now p Hc|w now p d Hc Hch|w now p d Hc Hd
    |w fc maxBytes s' fc' c' notes frame more Hl Hm E|w|w code|w frame|w fc frame s' fc' notes Hl Hm E|w t|w err|w sd' Hsd El];
    intros Hok.
  - by apply stream_Write_ok.
  - eapply write_resumed_ok; [done|done|by right].
  - eapply write_resumed_ok; [done|done|by left].
  - destruct (wo_sent _ Hok) as [[Hc Hall _] Hid (fc0 & Hl' & Hb) _ Hr _ _ _ _ _ _ _].
    rewrite Hl in Hl'. injection Hl' as <-.
    destruct (popStreamFrame_ok (wr_stream w) fc (sd_conn (wr_flow w)) maxBytes (Hall _ _ Hl) Hc Hb Hid Hr Hm)
      as (s1 & fc1 & c1 & n1 & f1 & m1 & E1 & Hp).
    rewrite E1 in E. injection E as <- <- <- _ <- _. by eapply pop_ok.
  - unfold send_Close. case_if; cbn.
    + apply flags_ok; try done; [apply Hok|]. apply (so_exclusive _ _ _ (wo_sent _ Hok)).
    + apply flags_ok; try done; [apply Hok|cbn; congruence].
  - unfold CancelWrite. rewrite completed_note_stream. by apply cancelWriteImpl_ok.
  - unfold handleStopSendingFrame. rewrite completed_note_stream. by apply cancelWriteImpl_ok.
  - injection E as <- <- _. destruct Hok as [Hs Hw Hwt]. split; cbn; [|done|done].
    destruct Hs as [Hsd Hid (fc0 & Hl' & Hb) Ho Hr Hcl Hex Hfs Hfi Hfin Hpl Hfit]. rewrite Hl in Hl'. injection Hl' as <-.
    destruct (UpdateSendWindow_ok (sfc_base fc) (msd_ByteOffset frame) (sg_streams _ Hsd _ _ Hl) Hm) as [Hu Eu].
    split; try done.
    + eapply with_fc_ok; [done|exact Hl|done|apply Hsd|cbn -[UpdateSendWindow]; lia].
    + eexists. split; [apply lookup_insert_eq|]. cbn -[UpdateSendWindow]. congruence.
  - apply flags_ok; try done; [apply Hok|]. apply (so_exclusive _ _ _ (wo_sent _ Hok)).
  - apply flags_ok; try done; [apply (so_exclusive _ _ _ (wo_sent _ Hok))|]. intros _. by right.
  - destruct Hok as [Hs Hw Hwt]. split; cbn; [|done|done]. destruct Hs. split; try done; [by eapply send_step_ok|].
    by rewrite El.
Qed.

(** A new stream of a connection. *)
Definition writer_start (sd : sending) (id : StreamID) : writer := mkWriter (newSendStream id) sd None [] [].

Definition writer_reachable (w : writer) : Prop :=
  exists sd id connWindow maxConnWindow window maxWindow sendWindow,
    is_id id /\ rtc send_step (send_start connWindow maxConnWindow) sd /\
    sd_streams sd !! id = Some (NewStreamFlowController id window maxWindow sendWindow) /\
    rtc write_step (writer_start sd id) w.

Lemma writer_reachable_ok w : writer_reachable w -> writer_ok w.
Proof.
  intros (sd & id & cw & mcw & win & mw & sw & Hid & Hsd & Hl & Hr).
  assert (Hok : sending_ok sd) by by eapply sending_reachable.
  assert (H0 : writer_ok (writer_start sd id)).
  { split; cbn; [|by split; [|left]|done]. split; cbn; try done.
    - eexists. split; [exact Hl|done].
    - intros fm pre post E. by destruct pre.
    - intros fm pre post E. by destruct pre. }
  clear Hl Hsd. induction Hr; [done|]. eauto using write_step_ok.
Qed.

(** ** Properties *)

(** A stream sends what was written to it, and nothing else: at any time, the
    frames popped so far carry, at consecutive offsets, exactly the bytes that
    the finished [Write]s reported, followed by a part of the data of the [Write]
    that is waiting; each is within its size; only the last frame can carry the
    FIN, only after [Close] and when no data is left; and the peer's limits are
    kept. *)
Theorem stream_sends_written w :
  writer_reachable w ->
  match wr_call w with
  | None => frames_data (wr_frames w) = wr_accepted w
  | Some (p, _) => exists q rest, p = q ++ rest /\ frames_data (wr_frames w) = wr_accepted w ++ q
  end /\
  (forall f m pre post, wr_frames w = pre ++ (f, m) :: post ->
     sf_StreamID f = snd_streamID (wr_stream w) /\ sf_Offset f = dataLen (frames_data pre) /\
     (exists len, lengthStreamFrame f = Ret len /\ len <= m) /\ (sf_Data f <> [] \/ sf_FinBit f = true) /\
     (sf_FinBit f = true -> post = [] /\ snd_finishedWriting (wr_stream w) = true /\
        snd_dataForWriting (wr_stream w) = None)) /\
  exists fc, sd_streams (wr_flow w) !! snd_streamID (wr_stream w) = Some fc /\
    dataLen (frames_data (wr_frames w)) <= sendWindow (sfc_base fc).
Proof.
  intros Hr. destruct (writer_reachable_ok w Hr) as [Hs Hw _]. split; [|split].
  - destruct (wr_call w) as [[p d]|]; cbn in Hw; [|by destruct Hw]. destruct Hw as (q & E1 & E2). by eexists _, _.
  - intros f m pre post E. assert (Hin : (f, m) ∈ wr_frames w) by (rewrite E; set_solver).
    destruct (proj1 (Forall_forall _ _) (so_fits _ _ _ Hs) _ Hin) as (H1 & H2 & H3).
    split_and!; [done|by apply (so_places _ _ _ Hs _ _ _ E)|done|done|]. intros Hf.
    split; [by apply (so_fin _ _ _ Hs _ _ _ E)|]. apply (so_finished _ _ _ Hs). rewrite (so_finSent _ _ _ Hs), E, existsb_app.
    cbn. by rewrite Hf, orb_true_r.
  - destruct (so_fc _ _ _ Hs) as (fc & Hl & Hb). exists fc. split; [done|].
    destruct (sg_streams _ (so_flow _ _ _ Hs) _ _ Hl). rewrite <- (so_offset _ _ _ Hs). lia.
Qed.

(** No [Write] is left waiting: as soon as all its data has been sent, or
    writing was canceled, or the stream was closed, a signal is pending on the
    channel it waits on; on receiving it, [Write] returns, and the number it
    returns is the number of bytes of its data that frames carry. *)
Theorem write_returns w p d now :
  writer_reachable w -> wr_call w = Some (p, d) ->
  snd_dataForWriting (wr_stream w) = None \/ snd_canceledWrite (wr_stream w) = true \/
    snd_closedForShutdown (wr_stream w) = true ->
  snd_writeChan (wr_stream w) = true /\
  exists s' n err, write_signaled now (wr_stream w) p = (s', [], Written n err) /\
    frames_data (wr_frames w) = wr_accepted w ++ take (Z.to_nat n) p /\ 0 <= n <= dataLen p /\
    (snd_dataForWriting (wr_stream w) = None -> n = dataLen p).
Proof.
  intros Hr Hc Hx. destruct (writer_reachable_ok w Hr) as [Hs Hw Hwt]. rewrite Hc in Hw, Hwt. cbn in Hw, Hwt.
  split.
  { destruct (snd_writeChan (wr_stream w)); [done|]. destruct (Hwt eq_refl) as (H1 & H2 & _). exfalso.
    destruct Hx as [?|[?|Hx]]; [done|by destruct H2; left|]. destruct H2. right.
    rewrite (so_closed _ _ _ Hs) in Hx. by destruct (snd_closeForShutdownErr _). }
  destruct Hw as (q & Eq & Ep). set (rest := default [] (snd_dataForWriting (wr_stream w))) in *.
  assert (Hn : frames_data (wr_frames w) = wr_accepted w ++ take (Z.to_nat (dataLen p - dataLen rest)) p /\
    0 <= dataLen p - dataLen rest <= dataLen p /\ (snd_dataForWriting (wr_stream w) = None -> dataLen p - dataLen rest = dataLen p)).
  { rewrite Eq, Ep, dataLen_app. replace (Z.to_nat _) with (length q) by (unfold dataLen; lia).
    rewrite take_app_length. split; [done|]. split; [unfold dataLen; lia|]. intros En. unfold rest. rewrite En. cbn. apply Z.sub_0_r. }
  unfold write_signaled, write_loop. cbn -[dataLen]. fold rest.
  destruct (deadline_passed now _); [by do 3 eexists|].
  replace (isNone _ || _ || _) with true; [by do 3 eexists|]. symmetry.
  destruct Hx as [-> | [-> | ->]]; cbn; rewrite ?orb_true_r; done.
Qed.

(** Sending makes progress: with room for 20 bytes, a stream that is neither
    canceled nor closed gives a frame with data when it has data and both windows
    are open, and a frame with the FIN when all data was sent and the FIN was
    not; when a window is closed it gives no frame, and it leaves the queue of
    active streams only after telling the peer that it is blocked. *)
Theorem send_progress w fc maxBytes :
  writer_reachable w -> sd_streams (wr_flow w) !! snd_streamID (wr_stream w) = Some fc ->
  snd_canceledWrite (wr_stream w) = false -> snd_closedForShutdown (wr_stream w) = false -> 20 <= maxBytes < 2 ^ 14 ->
  exists s' fc' c' notes frame more,
    popStreamFrame (wr_stream w) fc (sd_conn (wr_flow w)) maxBytes = Ret (s', fc', c', notes, (frame, more)) /\
    match snd_dataForWriting (wr_stream w) with
    | Some data =>
        if 0 <? stream_SendWindowSize fc (sd_conn (wr_flow w)) then
          exists f, frame = Some f /\ sf_Data f <> [] /\ data = sf_Data f ++ default [] (snd_dataForWriting s')
        else frame = None /\ s' = wr_stream w /\
          (more = false -> notes = [QueueControlFrame (FStreamDataBlocked
             (mkStreamDataBlockedFrame (snd_streamID (wr_stream w)) (sendWindow (sfc_base fc))))])
    | None =>
        more = false /\
        if snd_finishedWriting (wr_stream w) && negb (snd_finSent (wr_stream w)) then
          notes = [OnStreamCompleted (snd_streamID (wr_stream w))] /\
          exists f, frame = Some f /\ sf_Data f = [] /\ sf_FinBit f = true
        else frame = None /\ notes = []
    end.
Proof.
  intros Hr Hl Hca Hcl Hm. destruct (writer_reachable_ok w Hr) as [Hs _ _]. clear Hr.
  destruct Hs as [[Hc Hall _] Hid (fc0 & Hl' & Hb) _ Hr Hcl' _ _ _ _ _ _]. rewrite Hl in Hl'. injection Hl' as <-.
  set (s := wr_stream w) in *. set (c := sd_conn (wr_flow w)) in *. pose proof (Hall _ _ Hl) as Hf.
  assert (Es : snd_canceledWrite s || negb (isNone (snd_closeForShutdownErr s)) = false) by by rewrite Hca, <- Hcl', Hcl.
  unfold popStreamFrame, popStreamFrameImpl. rewrite Es.
  assert (Hof : 0 <= snd_writeOffset s <= MaxByteCount) by (destruct Hf; lia).
  destruct (room_for_data (snd_streamID s) (snd_writeOffset s) maxBytes Hid Hof Hm) as (n & -> & Hn).
  cbn [mbind outcome_bind]. rewrite (proj2 (Z.eqb_neq n 0)) by lia.
  destruct (getDataForWriting s fc c n) as [[[s1 fc1] c1] [d fin]] eqn:E.
  destruct (getDataForWriting_ok s fc c n s1 fc1 c1 d fin Hf Hc Hb Hr ltac:(lia) E)
    as (data' & ch & Es1 & Ed & Hd & _ & Efin & _ & _ & Hno & Hfl).
  destruct (snd_dataForWriting s) as [data|] eqn:Edata; cbn [default id] in *.
  - destruct (Z.ltb_spec 0 (stream_SendWindowSize fc c)) as [Hw|Hw].
    + destruct Hfl as [(_ & _ & _ & _ & [?|[?|?]])|[Hd1 Ea]]; [done|lia|lia|].
      rewrite (proj2 (Z.eqb_neq (dataLen d) 0)) by lia. cbn [andb]. do 6 eexists. split; [reflexivity|].
      eexists. split; [reflexivity|]. cbn. split; [intros ->; change (dataLen []) with 0 in Hd1; lia|]. rewrite Ed. subst s1. by destruct fin.
    + destruct Hfl as [(-> & -> & -> & -> & _)|[? _]]; [|lia].
      assert (fin = false) as -> by (rewrite Efin; destruct data'; [by rewrite andb_false_r|by rewrite Ed in Hr]).
      change (dataLen [] =? 0) with true. cbn [andb negb]. rewrite Edata. cbn [isNone negb].
      unfold IsNewlyBlocked. destruct (negb (sendWindowSize _ =? 0) || _); (do 6 eexists; split; [reflexivity|]; by cbn).
  - rewrite (Hno eq_refl) in *. destruct d; [|done]. destruct Hfl as [(_ & -> & -> & -> & _)|[? _]]; [|change (dataLen []) with 0 in *; lia].
    rewrite Efin. change (dataLen [] =? 0) with true. cbn [isNone andb]. rewrite andb_true_r.
    destruct (snd_finishedWriting s && negb (snd_finSent s)) eqn:Ef; cbn [negb].
    + do 6 eexists. split; [reflexivity|]. cbn. rewrite Edata. split; [done|]. split; [done|]. eexists. by split.
    + rewrite Edata. do 6 eexists. split; [reflexivity|]. done.
Qed.

End Writer.

(** ** Examples *)

#[local] Existing Instance amd64.

(** A stream with room for two bytes on a connection with room for 40, and a
    [Write] of three bytes. *)
Definition demo_sd : sending :=
  mkSending (NewConnectionFlowController 150 1500 <| cfc_base := UpdateSendWindow (cfc_base (NewConnectionFlowController 150 1500)) 40 |>)
    {[ 4 := NewStreamFlowController 4 100 1000 2 ]} 0.
Definition demo_writer0 : writer := writer_start demo_sd 4.
Definition demo_writer1 : writer := after_write demo_writer0 [1; 2; 3] (stream_Write 7 (wr_stream demo_writer0) [1; 2; 3]).
Definition pop_frame (w : writer) (maxBytes : ByteCount) : writer :=
  match sd_streams (wr_flow w) !! snd_streamID (wr_stream w) with
  | Some fc =>
      match popStreamFrame (wr_stream w) fc (sd_conn (wr_flow w)) maxBytes with
      | Ret (s, fc, c, _, (frame, _)) =>
          mkWriter s (with_fc (wr_flow w) (snd_streamID (wr_stream w)) fc c) (wr_call w) (wr_accepted w)
            (wr_frames w ++ match frame with Some f => [(f, maxBytes)] | None => [] end)
      | _ => w
      end
  | None => w
  end.
Definition demo_writer2 : writer := pop_frame demo_writer1 100.
Definition demo_writer3 : writer :=
  demo_writer2 <| wr_flow := with_fc (wr_flow demo_writer2) 4
    (NewStreamFlowController 4 100 1000 2 <| sfc_base := UpdateSendWindow (AddBytesSent (mkBase 0 2 0 0 0 100 100 1000 0 0) 2) 10 |>)
    (sd_conn (wr_flow demo_writer2)) |>.
Definition demo_writer4 : writer := pop_frame demo_writer3 100.

Lemma demo_sd_reachable : rtc send_step (send_start 150 1500) demo_sd.
Proof.
  eapply rtc_l; [apply (send_max_data _ 40); done|]. eapply rtc_l; [apply (send_open _ 4 100 1000 2); done|].
  replace (mkSending _ _ _) with demo_sd by reflexivity. apply rtc_refl.
Qed.

Lemma demo_writer4_reachable : writer_reachable demo_writer4.
Proof.
  exists demo_sd, 4, 150, 1500, 100, 1000, 2. split; [done|]. split; [apply demo_sd_reachable|]. split; [reflexivity|].
  eapply rtc_l; [apply (step_write demo_writer0 7 [1; 2; 3]); reflexivity|].
  eapply rtc_l; [eapply (step_pop demo_writer1 (NewStreamFlowController 4 100 1000 2) 100); [reflexivity|done|reflexivity]|].
  change (rtc write_step demo_writer2 demo_writer4).
  eapply rtc_l; [eapply (step_max_stream_data demo_writer2 _ (mkMaxStreamDataFrame 4 10)); [reflexivity|done|reflexivity]|].
  eapply rtc_l; [eapply (step_pop _ _ 100); [reflexivity|done|reflexivity]|].
  match goal with |- rtc _ ?x _ => replace x with demo_writer4 end; [apply rtc_refl|vm_compute; reflexivity].
Qed.

Lemma stream_sends_written_witness :
  map (fun fm => (sf_Offset fm.1, sf_Data fm.1)) (wr_frames demo_writer4) = [(0, [1; 2]); (2, [3])] /\
  exists q rest, [1; 2; 3] = q ++ rest /\ frames_data (wr_frames demo_writer4) = wr_accepted demo_writer4 ++ q.
Proof. split; [reflexivity|]. exact (proj1 (stream_sends_written demo_writer4 demo_writer4_reachable)). Defined.

Lemma write_returns_witness :
  exists s' n err, write_signaled 8 (wr_stream demo_writer4) [1; 2; 3] = (s', [], Written n err) /\ n = 3.
Proof.
  destruct (write_returns demo_writer4 [1; 2; 3] 0 8 demo_writer4_reachable eq_refl (or_introl eq_refl))
    as (_ & s' & n & err & E & _ & _ & Hn).
  exists s', n, err. split; [exact E|]. exact (Hn eq_refl).
Defined.

Lemma send_progress_witness :
  exists s' fc' c' notes frame more,
    popStreamFrame (wr_stream demo_writer4) (NewStreamFlowController 4 100 1000 2
      <| sfc_base := AddBytesSent (UpdateSendWindow (AddBytesSent (mkBase 0 2 0 0 0 100 100 1000 0 0) 2) 10) 1 |>)
      (sd_conn (wr_flow demo_writer4)) 50 = Ret (s', fc', c', notes, (frame, more)) /\ frame = None.
Proof.
  destruct (send_progress demo_writer4 (NewStreamFlowController 4 100 1000 2
      <| sfc_base := AddBytesSent (UpdateSendWindow (AddBytesSent (mkBase 0 2 0 0 0 100 100 1000 0 0) 2) 10) 1 |>) 50
      demo_writer4_reachable eq_refl eq_refl eq_refl ltac:(lia)) as (s' & fc' & c' & notes & frame & more & E & H).
  exists s', fc', c', notes, frame, more. split; [exact E|]. exact (proj1 (proj2 H)).
Defined.
