(* ===== verification/ReceiveStream.v ===== *)
(** * The receiving half of a stream (receive_stream.go)

    The state of a [receiveStream] and the sections of code that run under its
    mutex.  [Read] gives the mutex up while it waits for data and while it copies:
    it is modelled by the section from its beginning, the one after a wait, and
    the copy with the section that follows it, each up to the next wait, copy or
    return.  The data a call has copied is a list of bytes, the buffer only its
    length.  Channels, notifications and flow controllers are as in the sending
    half. *)

From S2P Require Import Prelude Protocol AckFrame Frames FrameSorter GoFloat FlowControl SendStream.

(** ** The program *)

Record receiveStream := mkReceiveStream {
  rcv_streamID : StreamID;
  rcv_frameQueue : frameSorter;
  rcv_readOffset : ByteCount;
  rcv_finalOffset : ByteCount;
  rcv_currentFrame : option bytes;
  rcv_currentFrameIsLast : bool;  (* is the currentFrame the last frame on this stream *)
  rcv_readPosInFrame : Z;
  rcv_closeForShutdownErr : option goerr;
  rcv_cancelReadErr : option goerr;
  rcv_resetRemotelyErr : option goerr;
  rcv_closedForShutdown : bool;   (* set when CloseForShutdown() is called *)
  rcv_finRead : bool;             (* set once we read a frame with a FinBit *)
  rcv_canceledRead : bool;        (* set when CancelRead() is called *)
  rcv_resetRemotely : bool;       (* set when HandleResetStreamFrame() is called *)
  rcv_readChan : bool;
  rcv_deadline : time
}.

#[global] Instance receiveStream_eta : Eta receiveStream := fun s =>
  mkReceiveStream (rcv_streamID s) (rcv_frameQueue s) (rcv_readOffset s) (rcv_finalOffset s) (rcv_currentFrame s)
    (rcv_currentFrameIsLast s) (rcv_readPosInFrame s) (rcv_closeForShutdownErr s) (rcv_cancelReadErr s)
    (rcv_resetRemotelyErr s) (rcv_closedForShutdown s) (rcv_finRead s) (rcv_canceledRead s) (rcv_resetRemotely s)
    (rcv_readChan s) (rcv_deadline s).

Definition newReceiveStream (streamID : StreamID) : receiveStream :=
  mkReceiveStream streamID newFrameSorter 0 MaxByteCount None false 0 None None None false false false false false zero_time.

(** A non-blocking send on [readChan]. *)
Definition signalRead (s : receiveStream) : receiveStream := s <| rcv_readChan := true |>.

Definition dequeueNextFrame (s : receiveStream) : receiveStream :=
  let '(q, (offset, frame)) := Pop (rcv_frameQueue s) in
  s <| rcv_frameQueue := q |> <| rcv_currentFrame := frame |>
    <| rcv_currentFrameIsLast := rcv_finalOffset s <=? uint64 (offset + dataLen (default [] frame)) |>
    <| rcv_readPosInFrame := 0 |>.

(** How a section of [Read] ends: it returns (whether the stream is completed,
    and the error), waits with a deadline, or copies. *)
Inductive readResult :=
| ReadReturns (completed : bool) (err : option goerr)
| ReadWaits (deadline : time)
| ReadCopies.

(** The inner loop of [readImpl], up to the wait or the copy; [len] is the
    length of the buffer, [bytesRead] what has been copied into it. *)
Definition read_inner (now : time) (s : receiveStream) (len bytesRead : Z) : readResult :=
  (* Stop waiting on errors *)
  if rcv_closedForShutdown s then ReadReturns false (rcv_closeForShutdownErr s)
  else if rcv_canceledRead s then ReadReturns false (rcv_cancelReadErr s)
  else if rcv_resetRemotely s then ReadReturns false (rcv_resetRemotelyErr s)
  else if deadline_passed now (rcv_deadline s) then ReadReturns false (Some errDeadline)
  else if negb (isNone (rcv_currentFrame s)) || rcv_currentFrameIsLast s then
    if len <? bytesRead then
      ReadReturns false (Some (Errorf "BUG: bytesRead (%d) > len(p) (%d) in stream.Read" [bytesRead; len]))
    else if dataLen (default [] (rcv_currentFrame s)) <? rcv_readPosInFrame s then
      ReadReturns false (Some (Errorf "BUG: readPosInFrame (%d) > frame.DataLen (%d) in stream.Read"
        [rcv_readPosInFrame s; dataLen (default [] (rcv_currentFrame s))]))
    else ReadCopies
  else ReadWaits (rcv_deadline s).

(** The outer loop, from its condition. *)
Definition read_loop (now : time) (s : receiveStream) (len bytesRead : Z) : receiveStream * readResult :=
  if negb (bytesRead <? len) then (s, ReadReturns false None) else
  let s := if isNone (rcv_currentFrame s) || (dataLen (default [] (rcv_currentFrame s)) <=? rcv_readPosInFrame s)
           then dequeueNextFrame s else s in
  if isNone (rcv_currentFrame s) && (0 <? bytesRead) then (s, ReadReturns false (rcv_closeForShutdownErr s))
  else (s, read_inner now s len bytesRead).

(** [readImpl], up to the first wait or copy. *)
Definition read_start (now : time) (s : receiveStream) (len : Z) : receiveStream * readResult :=
  if rcv_finRead s then (s, ReadReturns false (Some EOF))
  else if rcv_canceledRead s then (s, ReadReturns false (rcv_cancelReadErr s))
  else if rcv_resetRemotely s then (s, ReadReturns false (rcv_resetRemotelyErr s))
  else if rcv_closedForShutdown s then (s, ReadReturns false (rcv_closeForShutdownErr s))
  else read_loop now s len 0.

(** [readImpl] after a wait, which ends by a receive from [readChan], or by the
    timer. *)
Definition read_resume (now : time) (s : receiveStream) (len bytesRead : Z) : receiveStream * readResult :=
  let s := if isNone (rcv_currentFrame s) then dequeueNextFrame s else s in
  (s, read_inner now s len bytesRead).
Definition read_signaled (now : time) (s : receiveStream) (len bytesRead : Z) : receiveStream * readResult :=
  read_resume now (s <| rcv_readChan := false |>) len bytesRead.

(** What is copied. *)
Definition chunk (s : receiveStream) (room : Z) : bytes :=
  take (Z.to_nat room) (drop (Z.to_nat (rcv_readPosInFrame s)) (default [] (rcv_currentFrame s))).

Section Operations.
Context `{!FloatConv} {C : Type} `{!ConnectionFlowControllerI C}.

(** [streamCompleted] *)
Definition streamCompleted (s : receiveStream) (fc : streamFlowController) (c : C) (now : time) : C * list notification :=
  let '(c, queued) := if rcv_finRead s then (c, false) else Abandon fc c now in
  (c, (if queued then [OnHasConnectionWindowUpdate] else []) ++ [OnStreamCompleted (rcv_streamID s)]).

Definition if_completed (completed : bool) (s : receiveStream) (fc : streamFlowController) (c : C) (now : time) :
    C * list notification :=
  if completed then streamCompleted s fc c now else (c, []).

(** The copy, and [readImpl] after it. *)
Definition read_copied (now : time) (s : receiveStream) (fc : streamFlowController) (c : C) (len bytesRead : Z) :
    receiveStream * streamFlowController * C * list notification * readResult :=
  let m := dataLen (chunk s (len - bytesRead)) in
  let s := s <| rcv_readPosInFrame := rcv_readPosInFrame s + m |>
             <| rcv_readOffset := uint64 (rcv_readOffset s + m) |> in
  let '(fc, c, notes) :=
    (* when a RESET_STREAM was received, the flow controller was already
       informed about the final byteOffset for this stream *)
    if rcv_resetRemotely s then (fc, c, []) else
    let '(fc, c, (queued, connQueued)) := stream_AddBytesRead fc c now m in
    (fc, c, (if queued : bool then [OnHasStreamWindowUpdate (rcv_streamID s)] else []) ++
            (if connQueued : bool then [OnHasConnectionWindowUpdate] else [])) in
  if (dataLen (default [] (rcv_currentFrame s)) <=? rcv_readPosInFrame s) && rcv_currentFrameIsLast s then
    (s <| rcv_finRead := true |>, fc, c, notes, ReadReturns true (Some EOF))
  else
    let '(s, r) := read_loop now s len (bytesRead + m) in (s, fc, c, notes, r).

(** [CancelRead], with [cancelReadImpl]. *)
Definition CancelRead (s : receiveStream) (fc : streamFlowController) (c : C) (now : time) (errorCode : Z) :
    receiveStream * C * list notification :=
  if rcv_finRead s || rcv_canceledRead s || rcv_resetRemotely s then (s, c, []) else
  let s := signalRead (s <| rcv_canceledRead := true |> <| rcv_cancelReadErr :=
    Some (Errorf "Read on stream %d canceled with error code %d" [rcv_streamID s; errorCode]) |>) in
  (* We're done with this stream if the final offset was already received. *)
  let '(c, notes) := if_completed (negb (rcv_finalOffset s =? MaxByteCount)) s fc c now in
  (s, c, QueueControlFrame (FStopSending (mkStopSendingFrame (rcv_streamID s) errorCode)) :: notes).

(** [handleStreamFrameImpl]: whether the stream is completed, and the error. *)
Definition handleStreamFrameImpl (s : receiveStream) (fc : streamFlowController) (c : C) (frame : StreamFrame) :
    outcome (receiveStream * streamFlowController * C * (bool * option goerr)) :=
  let maxOffset := uint64 (sf_Offset frame + DataLen frame) in
  let '(fc, c, err) := UpdateHighestReceived fc c maxOffset (sf_FinBit frame) in
  match err with
  | Some e => mret (s, fc, c, (false, Some e))
  | None =>
      let s := if sf_FinBit frame then s <| rcv_finalOffset := maxOffset |> else s in
      if rcv_canceledRead s then mret (s, fc, c, (sf_FinBit frame, None)) else
      '(q, err) ← Push (rcv_frameQueue s) (sf_Data frame) (sf_Offset frame);
      let s := s <| rcv_frameQueue := q |> in
      match err with
      | Some e => mret (s, fc, c, (false, Some e))
      | None => mret (signalRead s, fc, c, (false, None))
      end
  end.

Definition handleStreamFrame (s : receiveStream) (fc : streamFlowController) (c : C) (now : time) (frame : StreamFrame) :
    outcome (receiveStream * streamFlowController * C * list notification * option goerr) :=
  '(s, fc, c, (completed, err)) ← handleStreamFrameImpl s fc c frame;
  let '(c, notes) := if_completed completed s fc c now in
  mret (s, fc, c, notes, err).

(** [handleResetStreamFrame], with [handleResetStreamFrameImpl]. *)
Definition handleResetStreamFrame (s : receiveStream) (fc : streamFlowController) (c : C) (now : time)
    (frame : ResetStreamFrame) : receiveStream * streamFlowController * C * list notification * option goerr :=
  if rcv_closedForShutdown s then (s, fc, c, [], None) else
  let '(fc, c, err) := UpdateHighestReceived fc c (rs_ByteOffset frame) true in
  match err with
  | Some e => (s, fc, c, [], Some e)
  | None =>
      let s := s <| rcv_finalOffset := rs_ByteOffset frame |> in
      (* ignore duplicate RESET_STREAM frames for this stream (after checking their final offset) *)
      if rcv_resetRemotely s then (s, fc, c, [], None) else
      let s := signalRead (s <| rcv_resetRemotely := true |> <| rcv_resetRemotelyErr :=
        Some (StreamCanceledError (rs_ErrorCode frame)
          (Errorf "Stream %d was reset with error code %d" [rcv_streamID s; rs_ErrorCode frame])) |>) in
      let '(c, notes) := streamCompleted s fc c now in
      (s, fc, c, notes, None)
  end.

Definition CloseRemote (s : receiveStream) (fc : streamFlowController) (c : C) (now : time) (offset : ByteCount) :
    outcome (receiveStream * streamFlowController * C * list notification * option goerr) :=
  handleStreamFrame s fc c now (mkStreamFrame 0 true false offset []).

Definition receive_getWindowUpdate (fc : streamFlowController) (c : C) (now : time) (rtt : duration) :
    streamFlowController * C * ByteCount := stream_GetWindowUpdate fc c now rtt.

End Operations.

Definition SetReadDeadline (s : receiveStream) (t : time) : receiveStream := signalRead (s <| rcv_deadline := t |>).

Definition receive_closeForShutdown (s : receiveStream) (err : option goerr) : receiveStream :=
  signalRead (s <| rcv_closedForShutdown := true |> <| rcv_closeForShutdownErr := err |>).

(** ** A stream that is received and read

    The stream with its flow controllers, the [Read] that waits or copies, what
    the [Read]s that returned have delivered, and the frames that were queued
    (offset and length).  The connection's controller is any, and other streams
    use it as well. *)

Section Consumer.
Context `{!FloatConv} {C : Type} `{!ConnectionFlowControllerI C}.

(** The length of the buffer, the data copied, and the deadline when waiting. *)
Record readCall := mkReadCall {
  rc_len : Z;
  rc_data : bytes;
  rc_waits : option time
}.

Record consumer := mkConsumer {
  cn_stream : receiveStream;
  cn_fc : streamFlowController;
  cn_conn : C;
  cn_call : option readCall;
  cn_returned : list (bytes * option goerr);
  cn_frames : list (Z * nat)
}.

#[global] Instance consumer_eta : Eta consumer := fun k =>
  mkConsumer (cn_stream k) (cn_fc k) (cn_conn k) (cn_call k) (cn_returned k) (cn_frames k).

(** A section of [Read] has ended. *)
Definition after_read (now : time) (k : consumer) (len : Z) (data : bytes) (r : receiveStream * readResult) : consumer :=
  let '(s, r) := r in
  let k := k <| cn_stream := s |> in
  match r with
  | ReadReturns completed err =>
      k <| cn_conn := (if_completed completed s (cn_fc k) (cn_conn k) now).1 |> <| cn_call := None |>
        <| cn_returned := cn_returned k ++ [(data, err)] |>
  | ReadWaits d => k <| cn_call := Some (mkReadCall len data (Some d)) |>
  | ReadCopies => k <| cn_call := Some (mkReadCall len data None) |>
  end.

(** The content of the frames, and the final offsets that the peer announces. *)
Variable P : Z -> bytes -> Prop.
Variable Fin : ByteCount -> Prop.
Context `{!Content P}.

(** What can happen.  [Read] is not called again before it returned; the
    session, which closes the connection when a frame is refused, passes an error
    when it closes the stream. *)
Inductive consume_step : consumer -> consumer -> Prop :=
| consume_read k now len :
    cn_call k = None -> 0 <= len -> consume_step k (after_read now k len [] (read_start now (cn_stream k) len))
| consume_signaled k now len data d :
    cn_call k = Some (mkReadCall len data (Some d)) -> rcv_readChan (cn_stream k) = true ->
    consume_step k (after_read now k len data (read_signaled now (cn_stream k) len (dataLen data)))
| consume_timer k now len data d :
    cn_call k = Some (mkReadCall len data (Some d)) -> deadline_passed now d = true ->
    consume_step k (after_read now k len data (read_resume now (cn_stream k) len (dataLen data)))
| consume_copied k now len data s' fc' c' notes r :
    cn_call k = Some (mkReadCall len data None) ->
    read_copied now (cn_stream k) (cn_fc k) (cn_conn k) len (dataLen data) = (s', fc', c', notes, r) ->
    consume_step k (after_read now (k <| cn_fc := fc' |> <| cn_conn := c' |>) len
      (data ++ chunk (cn_stream k) (len - dataLen data)) (s', r))
| consume_frame k now f s' fc' c' notes :
    P (sf_Offset f) (sf_Data f) -> 0 <= sf_Offset f -> sf_Offset f + dataLen (sf_Data f) < MaxByteCount ->
    (sf_FinBit f = true -> Fin (sf_Offset f + dataLen (sf_Data f))) ->
    handleStreamFrame (cn_stream k) (cn_fc k) (cn_conn k) now f = Ret (s', fc', c', notes, None) ->
    consume_step k (mkConsumer s' fc' c' (cn_call k) (cn_returned k)
      (if rcv_canceledRead (cn_stream k) then cn_frames k else (sf_Offset f, length (sf_Data f)) :: cn_frames k))
| consume_reset k now f s' fc' c' notes :
    0 <= rs_ByteOffset f < MaxByteCount -> Fin (rs_ByteOffset f) ->
    handleResetStreamFrame (cn_stream k) (cn_fc k) (cn_conn k) now f = (s', fc', c', notes, None) ->
    consume_step k (mkConsumer s' fc' c' (cn_call k) (cn_returned k) (cn_frames k))
| consume_cancel k now errorCode s' c' notes :
    CancelRead (cn_stream k) (cn_fc k) (cn_conn k) now errorCode = (s', c', notes) ->
    consume_step k (k <| cn_stream := s' |> <| cn_conn := c' |>)
| consume_update k now rtt fc' c' off :
    receive_getWindowUpdate (cn_fc k) (cn_conn k) now rtt = (fc', c', off) ->
    consume_step k (k <| cn_fc := fc' |> <| cn_conn := c' |>)
| consume_deadline k t : consume_step k (k <| cn_stream := SetReadDeadline (cn_stream k) t |>)
| consume_shutdown k err :
    err <> EOF -> consume_step k (k <| cn_stream := receive_closeForShutdown (cn_stream k) (Some err) |>)
| consume_others k c' : consume_step k (k <| cn_conn := c' |>).

(** All that has been delivered, also by a call that has not returned. *)
Definition delivered (k : consumer) : bytes :=
  concat (map fst (cn_returned k)) ++ match cn_call k with Some call => rc_data call | None => [] end.

(** Bytes that are put together from contents at their offsets. *)
Inductive assembled : bytes -> Prop :=
| assembled_nil : assembled []
| assembled_snoc out d : assembled out -> P (dataLen out) d -> assembled (out ++ d).

(** ** The flow controller *)

Definition received_end (fc : streamFlowController) : ByteCount := highestReceived (sfc_base fc).

Lemma UpdateHighestReceived_end fc (c : C) offset final fc' c' :
  UpdateHighestReceived fc c offset final = (fc', c', None) ->
  received_end fc' = Z.max (received_end fc) offset /\ receivedFinalOffset fc' = receivedFinalOffset fc || final /\
  (final = true -> received_end fc' = offset) /\ (receivedFinalOffset fc = true -> received_end fc' = received_end fc).
Proof.
  unfold UpdateHighestReceived, received_end.
  destruct (receivedFinalOffset fc && final && negb (offset =? highestReceived (sfc_base fc))) eqn:E1; [done|].
  destruct (receivedFinalOffset fc && (highestReceived (sfc_base fc) <? offset)) eqn:E2; [done|].
  set (s1 := if final then _ else fc).
  assert (Hs1 : sfc_base s1 = sfc_base fc /\ receivedFinalOffset s1 = receivedFinalOffset fc || final).
  { unfold s1. destruct final; rewrite ?orb_true_r, ?orb_false_r; done. }
  clearbody s1. destruct Hs1 as [Eb Ef]. rewrite Eb.
  assert (Hold : receivedFinalOffset fc = true -> offset <= highestReceived (sfc_base fc)).
  { intros Hr. rewrite Hr in E2. cbn in E2. by zbool. }
  destruct (Z.eqb_spec offset (highestReceived (sfc_base fc))).
  { intros [= <- <-]. rewrite Eb, Ef. split_and!; try done; lia. }
  destruct (Z.leb_spec offset (highestReceived (sfc_base fc))).
  { destruct final; intros [= <- <-]. rewrite Eb, Ef. split_and!; try done; lia. }
  case_if; [done|]. destruct (conn_IncrementHighestReceived _ _) as [c1 err]. intros [= <- <- _]. cbn.
  split_and!; try done; [lia|]. intros Hr. specialize (Hold Hr). lia.
Qed.

Lemma stream_AddBytesRead_end fc (c : C) now n fc' c' q :
  stream_AddBytesRead fc c now n = (fc', c', q) ->
  received_end fc' = received_end fc /\ receivedFinalOffset fc' = receivedFinalOffset fc.
Proof.
  unfold stream_AddBytesRead. destruct (conn_AddBytesRead c now n). intros [= <- _ _].
  unfold received_end, AddBytesRead. cbn. split; [|done]. by case_if.
Qed.

Lemma stream_GetWindowUpdate_end fc (c : C) now rtt fc' c' off :
  stream_GetWindowUpdate fc c now rtt = (fc', c', off) ->
  received_end fc' = received_end fc /\ receivedFinalOffset fc' = receivedFinalOffset fc.
Proof.
  unfold stream_GetWindowUpdate, received_end. case_if; [by intros [= <- _ _]|].
  destruct (getWindowUpdate _ _ _) as [b o] eqn:E. intros [= <- _ _]. cbn. split; [|done].
  unfold getWindowUpdate, maybeAdjustWindowSize in E. repeat case_if_in E; by injection E as <- _.
Qed.

(** ** The invariant *)

(** The queue, the frame that is being read, and the end of the stream. *)
Record queue_ok (s : receiveStream) (fc : streamFlowController) (frames : list (Z * nat)) : Prop := {
  qo_sorter : sorter_ok P (rcv_frameQueue s);
  qo_gaps : forall x, in_gaps x (fs_gaps (rcv_frameQueue s)) <-> 0 <= x < MaxByteCount /\ ~ in_frames x frames;
  qo_frames : forall x, in_frames x frames -> 0 <= x < received_end fc;
  qo_end : 0 <= received_end fc < MaxByteCount;
  qo_pos : 0 <= fs_readPos (rcv_frameQueue s) <= received_end fc;
  qo_final : (rcv_finalOffset s = MaxByteCount /\ receivedFinalOffset fc = false) \/
             (rcv_finalOffset s = received_end fc /\ receivedFinalOffset fc = true);
  qo_peer : receivedFinalOffset fc = true -> Fin (received_end fc);
  qo_current : match rcv_currentFrame s with
               | None => rcv_readPosInFrame s = 0 /\ rcv_readOffset s = fs_readPos (rcv_frameQueue s)
               | Some d => 0 <= rcv_readPosInFrame s <= dataLen d /\
                   P (rcv_readOffset s) (drop (Z.to_nat (rcv_readPosInFrame s)) d) /\
                   rcv_readOffset s + dataLen d - rcv_readPosInFrame s = fs_readPos (rcv_frameQueue s)
               end;
  qo_start : 0 <= rcv_readOffset s;
  qo_last : rcv_currentFrameIsLast s = true -> rcv_finalOffset s <= fs_readPos (rcv_frameQueue s);
  qo_fin : rcv_finRead s = true -> rcv_readOffset s = rcv_finalOffset s
}.

Definition not_eof (e : option goerr) : Prop := e <> Some EOF.

(** Between two sections of [Read] by a call that has copied [data]. *)
Record idle_ok (k : consumer) (data : bytes) : Prop := {
  io_queue : queue_ok (cn_stream k) (cn_fc k) (cn_frames k);
  io_out : assembled (concat (map fst (cn_returned k)) ++ data);
  io_len : dataLen (concat (map fst (cn_returned k)) ++ data) = rcv_readOffset (cn_stream k);
  io_errs : not_eof (rcv_closeForShutdownErr (cn_stream k)) /\ not_eof (rcv_cancelReadErr (cn_stream k)) /\
            not_eof (rcv_resetRemotelyErr (cn_stream k));
  io_eof : forall d, (d, Some EOF) ∈ cn_returned k -> rcv_finRead (cn_stream k) = true
}.

Definition halted (s : receiveStream) : bool :=
  rcv_closedForShutdown s || rcv_canceledRead s || rcv_resetRemotely s.

(** There is nothing to read, and the end has not been reached. *)
Definition starved (s : receiveStream) : Prop :=
  in_gaps (fs_readPos (rcv_frameQueue s)) (fs_gaps (rcv_frameQueue s)) /\
  fs_readPos (rcv_frameQueue s) < rcv_finalOffset s.

Definition call_ok (s : receiveStream) (call : readCall) : Prop :=
  rcv_finRead s = false /\ dataLen (rc_data call) < rc_len call /\
  match rc_waits call with
  | Some d => rc_data call = [] /\ rcv_currentFrame s = None /\
      (rcv_readChan s = false -> halted s = false /\ starved s /\ d = rcv_deadline s)
  | None => rcv_currentFrame s <> None \/ rcv_currentFrameIsLast s = true
  end.

Record consumer_ok (k : consumer) : Prop := {
  co_idle : idle_ok k (match cn_call k with Some call => rc_data call | None => [] end);
  co_call : match cn_call k with Some call => call_ok (cn_stream k) call | None => True end
}.

(** What a section of [Read] may end with. *)
Definition result_ok (s : receiveStream) (len : Z) (data : bytes) (r : readResult) : Prop :=
  match r with
  | ReadReturns _ err => err = Some EOF -> rcv_finRead s = true
  | ReadWaits d => call_ok s (mkReadCall len data (Some d)) /\ starved s
  | ReadCopies => call_ok s (mkReadCall len data None)
  end.

Lemma after_read_ok now k len data s r :
  idle_ok (k <| cn_stream := s |>) data -> result_ok s len data r -> consumer_ok (after_read now k len data (s, r)).
Proof.
  intros [Hq Ho Hl He Hf] Hr. destruct r as [completed err|d|]; cbn in *.
  - split; [|done]. split; cbn; try done.
    + rewrite map_app, concat_app. cbn. by rewrite !app_nil_r.
    + rewrite map_app, concat_app. cbn. by rewrite !app_nil_r.
    + intros d' [Hd'|[= <- <-]%list_elem_of_singleton]%elem_of_app; [by apply (Hf d')|auto].
  - split; cbn; [by split|tauto].
  - split; cbn; [by split|done].
Qed.

Lemma dequeueNextFrame_ok s fc frames :
  queue_ok s fc frames -> rcv_currentFrame s = None \/ dataLen (default [] (rcv_currentFrame s)) <= rcv_readPosInFrame s ->
  exists q d,
    dequeueNextFrame s = s <| rcv_frameQueue := q |> <| rcv_currentFrame := d |>
      <| rcv_currentFrameIsLast := rcv_finalOffset s <=? fs_readPos q |> <| rcv_readPosInFrame := 0 |> /\
    queue_ok (dequeueNextFrame s) fc frames /\ (d = None -> in_gaps (fs_readPos q) (fs_gaps q)) /\ d <> Some [].
Proof.
  intros [Hso Hg Hfr He Hp Hfi Hpe Hc Hst Hla Hfn] Hcur.
  assert (Hro : rcv_readOffset s = fs_readPos (rcv_frameQueue s)).
  { destruct (rcv_currentFrame s) as [d|]; [|by destruct Hc]. destruct Hcur as [?|Hcur]; [done|]. cbn in Hcur.
    change (id d) with d in Hcur. lia. }
  unfold dequeueNextFrame. destruct (Pop (rcv_frameQueue s)) as [q [offset d]] eqn:E.
  destruct (Pop_ok P _ q offset d Hso E) as (Hso' & Eg & -> & Hd).
  assert (Hpos : fs_readPos q = fs_readPos (rcv_frameQueue s) + dataLen (default [] d)).
  { destruct d as [d|]; [by destruct Hd as (_ & _ & ? & _)|]. destruct Hd as [-> _]. symmetry. apply Z.add_0_r. }
  assert (Hlim : 0 <= fs_readPos q < MaxByteCount /\ fs_readPos q <= received_end fc).
  { destruct (sk_read _ _ Hso') as [Hq0 Hle]. pose proof (Hle _ (sk_last _ _ Hso')). split; [lia|].
    destruct d as [d|]; [|destruct Hd as [-> _]; lia]. destruct Hd as (Hne & _ & Hrp & _). pose proof (dataLen_pos d Hne).
    assert (Hin : ~ in_gaps (fs_readPos q - 1) (fs_gaps (rcv_frameQueue s))).
    { rewrite <- Eg. intros Hin. specialize (Hle _ Hin). lia. }
    rewrite Hg in Hin. destruct (decide (fs_readPos q - 1 < received_end fc)); [lia|]. exfalso. apply Hin.
    split; [lia|]. intros Hx%Hfr. lia. }
  assert (MaxByteCount < 2 ^ 64) by done. rewrite <- Hpos, uint64_id by go_range.
  exists q, d. split; [done|]. split; [|split].
  - split; cbn; try done.
    + intros x. rewrite Eg. apply Hg.
    + lia.
    + destruct d as [d|]; [|destruct Hd as [-> _]; done]. destruct Hd as (_ & HP & Hrp & _). rewrite drop_0, Hro.
      split; [unfold dataLen; lia|]. split; [done|lia].
    + intros Hl. zbool. lia.
  - intros ->. by destruct Hd as [-> Hd].
  - intros ->. by destruct Hd.
Qed.

Lemma queue_ok_fc s fc fc' frames :
  queue_ok s fc frames -> received_end fc' = received_end fc -> receivedFinalOffset fc' = receivedFinalOffset fc ->
  queue_ok s fc' frames.
Proof. intros [] E1 E2. split; by rewrite ?E1, ?E2. Qed.

(** The inner loop, right after a frame was dequeued or with one at hand. *)
Lemma read_inner_ok now k s len data :
  idle_ok (k <| cn_stream := s |>) data -> rcv_finRead s = false -> dataLen data < len ->
  (rcv_currentFrame s = None -> data = [] /\
     in_gaps (fs_readPos (rcv_frameQueue s)) (fs_gaps (rcv_frameQueue s)) /\
     rcv_currentFrameIsLast s = (rcv_finalOffset s <=? fs_readPos (rcv_frameQueue s))) ->
  result_ok s len data (read_inner now s len (dataLen data)).
Proof.
  intros [Hq _ _ (H1 & H2 & H3) _] Hf Hlt Hnone. cbn in *. unfold read_inner.
  destruct (rcv_closedForShutdown s) eqn:E1; [by intros []%H1|].
  destruct (rcv_canceledRead s) eqn:E2; [by intros []%H2|].
  destruct (rcv_resetRemotely s) eqn:E3; [by intros []%H3|]. destruct (deadline_passed _ _); [done|].
  destruct (negb (isNone (rcv_currentFrame s)) || rcv_currentFrameIsLast s) eqn:E4.
  - case_if; [done|]. case_if; [done|]. split; [done|]. split; [done|]. cbn.
    apply orb_true_iff in E4 as [E4|E4]; [left|by right]. by destruct (rcv_currentFrame s).
  - apply orb_false_iff in E4 as [E4 E5]. assert (Hn : rcv_currentFrame s = None) by by destruct (rcv_currentFrame s).
    destruct (Hnone Hn) as (-> & Hg & El). rewrite E5 in El. symmetry in El. zbool.
    split; [|done]. split; [done|]. split; [done|]. split_and!; try done. intros _. split_and!; try done.
    unfold halted. by rewrite E1, E2, E3.
Qed.

(** Dequeuing keeps what does not depend on the queue. *)
Lemma dequeue_idle k s data :
  idle_ok (k <| cn_stream := s |>) data ->
  rcv_currentFrame s = None \/ dataLen (default [] (rcv_currentFrame s)) <= rcv_readPosInFrame s ->
  let s' := dequeueNextFrame s in
  idle_ok (k <| cn_stream := s' |>) data /\ rcv_finRead s' = rcv_finRead s /\
  (rcv_currentFrame s' = None ->
     in_gaps (fs_readPos (rcv_frameQueue s')) (fs_gaps (rcv_frameQueue s')) /\
     rcv_currentFrameIsLast s' = (rcv_finalOffset s' <=? fs_readPos (rcv_frameQueue s'))).
Proof.
  intros [Hq Ho Hl He Hf] Hc s'. cbn in *.
  destruct (dequeueNextFrame_ok _ _ _ Hq Hc) as (q & d & E & Hq' & Hg & _). subst s'. rewrite E in *. split; [by split|].
  split; [done|]. intros Hd. split; [by apply Hg|done].
Qed.

Lemma read_loop_ok now k s len data :
  idle_ok (k <| cn_stream := s |>) data -> rcv_finRead s = false ->
  consumer_ok (after_read now k len data (read_loop now s len (dataLen data))).
Proof.
  intros Hi Hf. unfold read_loop. destruct (Z.ltb_spec (dataLen data) len) as [Hlt|Hge]; cbn [negb].
  2: { apply after_read_ok; [done|by intros ?]. }
  set (b := isNone (rcv_currentFrame s) || _). set (s1 := if b then dequeueNextFrame s else s).
  assert (Hs1 : idle_ok (k <| cn_stream := s1 |>) data /\ rcv_finRead s1 = false /\
    (rcv_currentFrame s1 = None -> in_gaps (fs_readPos (rcv_frameQueue s1)) (fs_gaps (rcv_frameQueue s1)) /\
     rcv_currentFrameIsLast s1 = (rcv_finalOffset s1 <=? fs_readPos (rcv_frameQueue s1)))).
  { unfold s1. destruct b eqn:Eb; unfold b in Eb.
    - rewrite <- Hf. apply dequeue_idle; [done|]. apply orb_true_iff in Eb as [Eb|Eb]; [left|right; by zbool].
      by destruct (rcv_currentFrame s).
    - apply orb_false_iff in Eb as [Eb _]. split_and!; [done|done|]. intros E. by rewrite E in Eb. }
  clearbody s1. destruct Hs1 as (Hi1 & Hf1 & Hg). destruct (isNone (rcv_currentFrame s1) && _) eqn:Er.
  - apply after_read_ok; [done|]. cbn. intros E. destruct (io_errs _ _ Hi1) as (He & _). by apply He in E.
  - apply after_read_ok; [done|]. eapply read_inner_ok; try done. intros Hn. rewrite Hn in Er. cbn in Er. zbool.
    split; [|by apply Hg]. destruct data; [done|]. unfold dataLen in Er. cbn in Er. lia.
Qed.

Lemma read_start_ok now k len :
  consumer_ok k -> cn_call k = None -> consumer_ok (after_read now k len [] (read_start now (cn_stream k) len)).
Proof.
  intros [Hi _] Hc. rewrite Hc in Hi. assert (Hi' : idle_ok (k <| cn_stream := cn_stream k |>) []) by by destruct k.
  destruct (io_errs _ _ Hi) as (H1 & H2 & H3). unfold read_start.
  destruct (rcv_finRead _) eqn:Ef; [apply after_read_ok; [done|by intros _]|]. destruct (rcv_canceledRead _); [apply after_read_ok; [done|by intros []%H2]|].
  destruct (rcv_resetRemotely _); [apply after_read_ok; [done|by intros []%H3]|].
  destruct (rcv_closedForShutdown _); [apply after_read_ok; [done|by intros []%H1]|].
  change 0 with (dataLen []). by apply read_loop_ok.
Qed.

Lemma read_resume_ok now k len data d ch :
  consumer_ok k -> cn_call k = Some (mkReadCall len data (Some d)) ->
  consumer_ok (after_read now k len data (read_resume now (cn_stream k <| rcv_readChan := ch |>) len (dataLen data))).
Proof.
  intros [Hi Hca] Hc. rewrite Hc in Hi, Hca. destruct Hca as (Hf & Hlt & Hd & Hn & _). cbn in Hi, Hf, Hlt, Hd, Hn.
  assert (Hi' : idle_ok (k <| cn_stream := cn_stream k <| rcv_readChan := ch |> |>) data).
  { destruct Hi as [[] ? ? ? ?]. by split. }
  unfold read_resume. set (s := cn_stream k <| rcv_readChan := ch |>) in *. assert (En : rcv_currentFrame s = None) by done.
  rewrite En. cbn [isNone]. destruct (dequeue_idle k s data Hi' (or_introl En)) as (Hi1 & Hf1 & Hg).
  apply after_read_ok; [done|]. eapply read_inner_ok; [done|by rewrite Hf1|done|]. intros Hx. split; [done|by apply Hg].
Qed.

(** The frame that is being read, [None] being without data. *)
Lemma queue_current s fc frames :
  queue_ok s fc frames -> let d := default [] (rcv_currentFrame s) in
  0 <= rcv_readPosInFrame s <= dataLen d /\ rcv_readOffset s + dataLen d - rcv_readPosInFrame s = fs_readPos (rcv_frameQueue s).
Proof.
  intros Hq. pose proof (qo_current _ _ _ Hq) as Hc. destruct (rcv_currentFrame s) as [d|]; cbn.
  - change (id d) with d. tauto.
  - change (dataLen []) with 0. lia.
Qed.

(** The part of the frame that is copied, and what is left of it. *)
Lemma copy_ok s fc frames room :
  queue_ok s fc frames -> 0 <= room -> let m := dataLen (chunk s room) in
  let s' := s <| rcv_readPosInFrame := rcv_readPosInFrame s + m |> <| rcv_readOffset := uint64 (rcv_readOffset s + m) |> in
  0 <= m <= room /\ rcv_readOffset s' = rcv_readOffset s + m /\ rcv_readOffset s' <= fs_readPos (rcv_frameQueue s) /\
  (rcv_finRead s = false -> queue_ok s' fc frames) /\ (chunk s room <> [] -> P (rcv_readOffset s) (chunk s room)).
Proof.
  intros Hq Hroom m s'. destruct (queue_current _ _ _ Hq) as [Hp Hr].
  set (d := default [] (rcv_currentFrame s)) in *.
  assert (Hm : 0 <= m <= room /\ rcv_readPosInFrame s + m <= dataLen d).
  { unfold m, chunk. fold d. unfold dataLen in *. rewrite length_take, length_drop. lia. }
  destruct Hq as [Hso Hg Hfr He Hpos Hfi Hpe Hc Hst Hla Hfn]. assert (MaxByteCount < 2 ^ 64) by done.
  assert (Eu : uint64 (rcv_readOffset s + m) = rcv_readOffset s + m) by (apply uint64_id; go_range).
  assert (Ero : rcv_readOffset s' = rcv_readOffset s + m) by exact Eu.
  split_and!; [lia|lia|done|lia| |].
  - intros Hnf. split; cbn -[uint64]; try done; rewrite ?Eu; [|lia|by rewrite Hnf].
    destruct (rcv_currentFrame s) as [f|] eqn:Ef; [|cbn in *; change (dataLen []) with 0 in *; lia].
    change d with f in *. destruct Hc as (_ & HP & _). split; [lia|]. split; [|lia].
    replace (Z.to_nat (rcv_readPosInFrame s + m)) with (Z.to_nat (rcv_readPosInFrame s) + Z.to_nat m)%nat by lia.
    rewrite <- drop_drop. replace (rcv_readOffset s + m) with (rcv_readOffset s + Z.of_nat (Z.to_nat m)) by lia.
    apply content_drop; [done|]. rewrite length_drop. unfold dataLen in *. lia.
  - unfold chunk. fold d. destruct (rcv_currentFrame s) as [f|]; [|by unfold d; cbn; rewrite drop_nil, take_nil].
    intros _. apply content_take. tauto.
Qed.

Lemma read_copied_ok now k len data s' fc' c' notes r :
  consumer_ok k -> cn_call k = Some (mkReadCall len data None) ->
  read_copied now (cn_stream k) (cn_fc k) (cn_conn k) len (dataLen data) = (s', fc', c', notes, r) ->
  consumer_ok (after_read now (k <| cn_fc := fc' |> <| cn_conn := c' |>) len
    (data ++ chunk (cn_stream k) (len - dataLen data)) (s', r)).
Proof.
  intros [Hi Hca] Hc. rewrite Hc in Hi, Hca. destruct Hca as (Hf & Hlt & Hcur). cbn in Hi, Hf, Hlt, Hcur.
  destruct Hi as [Hq Ho Hl He Hret]. destruct (copy_ok _ _ _ (len - dataLen data) Hq ltac:(lia)) as (Hm & Ero & Hle & Hq1 & HP).
  unfold read_copied. set (ch := chunk (cn_stream k) (len - dataLen data)) in *. set (m := dataLen ch) in *. cbv zeta in *.
  set (s1 := cn_stream k <| rcv_readPosInFrame := _ |> <| rcv_readOffset := _ |>) in *. specialize (Hq1 Hf).
  set (fcr := if rcv_resetRemotely s1 then _ else _). destruct fcr as [[fc1 c1] n1] eqn:Efc.
  assert (Hfc : received_end fc1 = received_end (cn_fc k) /\ receivedFinalOffset fc1 = receivedFinalOffset (cn_fc k)).
  { unfold fcr in Efc. case_if_in Efc; [by injection Efc as <- _ _|].
    destruct (stream_AddBytesRead (cn_fc k) (cn_conn k) now m) as [[fc2 c2] [q1 q2]] eqn:Ea. injection Efc as <- _ _.
    by eapply stream_AddBytesRead_end. }
  destruct Hfc as [Ef1 Ef2]. assert (Hq2 : queue_ok s1 fc1 (cn_frames k)) by by apply (queue_ok_fc _ (cn_fc k)).
  assert (Hi1 : idle_ok (k <| cn_fc := fc1 |> <| cn_conn := c1 |> <| cn_stream := s1 |>) (data ++ ch)).
  { split; cbn -[uint64]; try done.
    - rewrite app_assoc. destruct ch as [|b ch'] eqn:Ech; [by rewrite app_nil_r|]. constructor; [done|]. rewrite Hl. by apply HP.
    - change (uint64 _) with (rcv_readOffset s1). rewrite app_assoc, dataLen_app, Hl, Ero. done. }
  case_if.
  - intros [= <- <- <- _ <-]. zbool. destruct (queue_current _ _ _ Hq2) as [Hp2 Hr2].
    apply after_read_ok; [|done]. destruct Hi1 as [[] ? ? ? ?]. split; try done. split; try done. intros _.
    change (rcv_readOffset s1 = rcv_finalOffset s1). specialize (qo_last0 ltac:(done)). cbn -[uint64] in *. lia.
  - destruct (read_loop now s1 len (dataLen data + m)) as [s2 r2] eqn:El. intros [= <- <- <- _ <-].
    assert (Em : dataLen (data ++ ch) = dataLen data + m) by apply dataLen_app.
    pose proof (read_loop_ok now (k <| cn_fc := fc1 |> <| cn_conn := c1 |>) s1 len (data ++ ch) Hi1 Hf) as Hx.
    by rewrite Em, El in Hx.
Qed.

(** A change that is not made by [Read]. *)
Lemma consumer_update k s' fc' c' frames' :
  consumer_ok k -> let s := cn_stream k in queue_ok s' fc' frames' ->
  rcv_readOffset s' = rcv_readOffset s -> rcv_finRead s' = rcv_finRead s ->
  rcv_currentFrame s' = rcv_currentFrame s -> rcv_currentFrameIsLast s' = rcv_currentFrameIsLast s ->
  not_eof (rcv_closeForShutdownErr s') -> not_eof (rcv_cancelReadErr s') -> not_eof (rcv_resetRemotelyErr s') ->
  (rcv_readChan s' = false ->
     rcv_readChan s = false /\ halted s' = halted s /\ rcv_deadline s' = rcv_deadline s /\
     (halted s = false -> starved s -> starved s')) ->
  consumer_ok (mkConsumer s' fc' c' (cn_call k) (cn_returned k) frames').
Proof.
  intros [[Hq Ho Hl He Hret] Hc] s Hq' Eo Ef Ec El H1 H2 H3 Hch. subst s. split; cbn.
  - split; cbn; rewrite ?Eo, ?Ef; done.
  - destruct (cn_call k) as [call|]; [|done]. destruct Hc as (Hf & Hlt & Hw). unfold call_ok. rewrite Ef, Ec, El.
    split_and!; try done. destruct (rc_waits call) as [d|]; [|done]. destruct Hw as (Hd & Hn & Hw).
    split_and!; try done. intros E. destruct (Hch E) as (E1 & E2 & E3 & E4). destruct (Hw E1) as (Hh & Hs & ->).
    rewrite E2, E3. auto.
Qed.

(** An offset that the flow controller has accepted. *)
Lemma accepted_queue_ok s fc frames (c : C) off fin fc' c' :
  queue_ok s fc frames -> 0 <= off < MaxByteCount -> (fin = true -> Fin off) ->
  UpdateHighestReceived fc c off fin = (fc', c', None) ->
  let s' := if fin : bool then s <| rcv_finalOffset := off |> else s in
  queue_ok s' fc' frames /\ (rcv_finalOffset s <> MaxByteCount -> rcv_finalOffset s' = rcv_finalOffset s) /\
  off <= received_end fc' /\ exists fo, s' = s <| rcv_finalOffset := fo |>.
Proof.
  intros [Hso Hg Hfr He Hpos Hfi Hpe Hc Hst Hla Hfn] Hoff HF E s'.
  destruct (UpdateHighestReceived_end _ _ _ _ _ _ E) as (E1 & E2 & E3 & E4).
  assert (Ex : s' = s <| rcv_finalOffset := rcv_finalOffset s' |>) by (unfold s'; destruct fin; by destruct s).
  assert (Hsame : rcv_finalOffset s <> MaxByteCount -> rcv_finalOffset s' = rcv_finalOffset s).
  { intros Hne. unfold s'. destruct fin; [|done]. destruct Hfi as [[? _]|[-> Hr]]; [done|]. cbn.
    rewrite <- (E4 Hr). symmetry. by apply E3. }
  assert (Hfi' : (rcv_finalOffset s' = MaxByteCount /\ receivedFinalOffset fc' = false) \/
    (rcv_finalOffset s' = received_end fc' /\ receivedFinalOffset fc' = true)).
  { rewrite E2. unfold s'. destruct fin; cbn; rewrite ?orb_true_r, ?orb_false_r; [right; by rewrite E3|].
    destruct Hfi as [[? ?]|[? Hr]]; [by left|right]. by rewrite (E4 Hr). }
  assert (Hlim : rcv_readOffset s <= fs_readPos (rcv_frameQueue s)).
  { destruct (rcv_currentFrame s) as [d|]; [|lia]. destruct Hc as (? & _ & ?). lia. }
  clearbody s'. split; [|split; [done|split; [lia|by eexists]]]. rewrite Ex in *. split; cbn in *; try done; try lia.
  - intros x Hx%Hfr. lia.
  - rewrite E2. intros [Hr|Hf]%orb_true_iff; [rewrite (E4 Hr); auto|rewrite (E3 Hf); auto].
  - intros Hl. specialize (Hla Hl). rewrite Hsame; lia.
  - intros Hl. specialize (Hfn Hl). rewrite Hsame; lia.
Qed.

Lemma push_queue_ok s fc frames data offset q e :
  queue_ok s fc frames -> 0 <= offset -> offset + dataLen data < MaxByteCount -> offset + dataLen data <= received_end fc ->
  P offset data -> Push (rcv_frameQueue s) data offset = Ret (q, e) -> e = None ->
  queue_ok (s <| rcv_frameQueue := q |>) fc ((offset, length data) :: frames).
Proof.
  intros [Hso Hg Hfr He Hpos Hfi Hpe Hc Hst Hla Hfn] Ho Hmax Hend HP E ->.
  destruct (Push_ok P _ data offset Hso Ho Hmax HP) as (q' & e & E' & Hr). rewrite E in E'. injection E' as <- <-.
  destruct Hr as [(_ & Hso' & Erp & Hcov)|?]; [|done]. split; cbn; rewrite ?Erp; try done.
  - intros x. rewrite Hcov, Hg, in_frames_cons. unfold dataLen. naive_solver.
  - intros x [Hx|Hx]%in_frames_cons; [unfold dataLen in *; lia|auto].
Qed.

Lemma handleStreamFrame_ok k now f s' fc' c' notes :
  consumer_ok k -> P (sf_Offset f) (sf_Data f) -> 0 <= sf_Offset f ->
  sf_Offset f + dataLen (sf_Data f) < MaxByteCount ->
  (sf_FinBit f = true -> Fin (sf_Offset f + dataLen (sf_Data f))) ->
  handleStreamFrame (cn_stream k) (cn_fc k) (cn_conn k) now f = Ret (s', fc', c', notes, None) ->
  consumer_ok (mkConsumer s' fc' c' (cn_call k) (cn_returned k)
    (if rcv_canceledRead (cn_stream k) then cn_frames k else (sf_Offset f, length (sf_Data f)) :: cn_frames k)).
Proof.
  intros Hok HP Ho Hmax HF. unfold handleStreamFrame.
  intros ([[[s1 fc1] c1] [completed err]] & E & E2)%outcome_bind_Ret.
  destruct (if_completed completed s1 fc1 c1 now) as [c2 n2] eqn:Ec. injection E2 as <- <- <- _ ->. revert E.
  unfold handleStreamFrameImpl, DataLen. fold (dataLen (sf_Data f)). assert (MaxByteCount < 2 ^ 64) by done.
  assert (0 <= dataLen (sf_Data f)) by (unfold dataLen; lia). rewrite uint64_id by go_range.
  destruct (UpdateHighestReceived _ _ _ _) as [[fc2 c3] [e|]] eqn:Eu; [done|].
  pose proof (io_queue _ _ (co_idle _ Hok)) as Hq. destruct (io_errs _ _ (co_idle _ Hok)) as (He1 & He2 & He3).
  destruct (accepted_queue_ok _ _ _ _ (sf_Offset f + dataLen (sf_Data f)) _ _ _ Hq ltac:(lia) HF Eu) as (Hq1 & _ & Hend & fo & Es).
  set (s2 := if sf_FinBit f then _ else _) in *. clearbody s2. subst s2.
  change (rcv_canceledRead (cn_stream k <| rcv_finalOffset := fo |>)) with (rcv_canceledRead (cn_stream k)).
  destruct (rcv_canceledRead (cn_stream k)) eqn:Ecr.
  - intros [= <- <- _ _]. apply consumer_update; try done. intros Hch. split_and!; try done.
    unfold halted. by rewrite Ecr, orb_true_r.
  - intros ([q e] & Ep & E)%outcome_bind_Ret. destruct e as [e|]; [done|]. injection E as <- <- _ _.
    pose proof (push_queue_ok _ _ _ _ _ _ _ Hq1 Ho Hmax Hend HP Ep eq_refl) as Hq2.
    apply consumer_update; try done. destruct Hq2. by split.
Qed.

Lemma handleResetStreamFrame_ok k now f s' fc' c' notes :
  consumer_ok k -> 0 <= rs_ByteOffset f < MaxByteCount -> Fin (rs_ByteOffset f) ->
  handleResetStreamFrame (cn_stream k) (cn_fc k) (cn_conn k) now f = (s', fc', c', notes, None) ->
  consumer_ok (mkConsumer s' fc' c' (cn_call k) (cn_returned k) (cn_frames k)).
Proof.
  intros Hok Hoff HF. pose proof (io_queue _ _ (co_idle _ Hok)) as Hq.
  destruct (io_errs _ _ (co_idle _ Hok)) as (H1 & H2 & H3). unfold handleResetStreamFrame.
  destruct (rcv_closedForShutdown _); [intros [= <- <- <- _]; by apply consumer_update|].
  destruct (UpdateHighestReceived _ _ _ _) as [[fc2 c3] [e|]] eqn:Eu; [done|].
  destruct (accepted_queue_ok _ _ _ _ _ true _ _ Hq Hoff (fun _ => HF) Eu) as (Hq1 & _ & _ & _). cbn [rcv_resetRemotely over].
  destruct (rcv_resetRemotely (cn_stream k)) eqn:Er.
  - intros [= <- <- <- _]. apply consumer_update; try done. intros E. split_and!; try done.
    unfold halted. by rewrite Er, orb_true_r.
  - destruct (streamCompleted _ _ _ _) as [c4 n4]. intros [= <- <- <- _]. apply (consumer_update k); try done.
    destruct Hq1. by split.
Qed.

Lemma consume_step_ok k k' : consumer_ok k -> consume_step k k' -> consumer_ok k'.
Proof.
  intros Hok Hs. revert Hok. destruct Hs as [k now len Hc Hlen|k now len data d Hc Hch|k now len data d Hc Hd
    |k now len data s' fc' c' notes r Hc E|k now f s' fc' c' notes HP Ho Hmax HF E|k now f s' fc' c' notes Ho HF E
    |k now code s' c' notes E|k now rtt fc' c' off E|k t|k err He|k c']; intros Hok.
  - by apply read_start_ok.
  - by eapply read_resume_ok.
  - pose proof (read_resume_ok now k len data d (rcv_readChan (cn_stream k)) Hok Hc) as Hx. by destruct (cn_stream k).
  - by eapply read_copied_ok.
  - by eapply handleStreamFrame_ok.
  - by eapply handleResetStreamFrame_ok.
  - pose proof (io_queue _ _ (co_idle _ Hok)) as Hq. destruct (io_errs _ _ (co_idle _ Hok)) as (H1 & H2 & H3).
    unfold CancelRead in E. destruct (_ || rcv_resetRemotely _); [injection E as <- <- _; by apply (consumer_update k)|].
    destruct (if_completed _ _ _ _ _) as [c1 n1]. injection E as <- <- _. apply (consumer_update k); try done.
    destruct Hq. by split.
  - pose proof (io_queue _ _ (co_idle _ Hok)) as Hq. destruct (io_errs _ _ (co_idle _ Hok)) as (H1 & H2 & H3).
    destruct (stream_GetWindowUpdate_end _ _ _ _ _ _ _ E) as [Ee Ef]. apply (consumer_update k); try done.
    by apply (queue_ok_fc _ (cn_fc k)).
  - pose proof (io_queue _ _ (co_idle _ Hok)) as Hq. destruct (io_errs _ _ (co_idle _ Hok)) as (H1 & H2 & H3).
    apply (consumer_update k); try done. destruct Hq. by split.
  - pose proof (io_queue _ _ (co_idle _ Hok)) as Hq. destruct (io_errs _ _ (co_idle _ Hok)) as (H1 & H2 & H3).
    apply (consumer_update k); try done; [destruct Hq; by split|]. by intros [= ->].
  - pose proof (io_queue _ _ (co_idle _ Hok)) as Hq. destruct (io_errs _ _ (co_idle _ Hok)) as (H1 & H2 & H3).
    by apply (consumer_update k).
Qed.

Definition consumer_start (id : StreamID) (window maxWindow sendWindow : ByteCount) (c : C) : consumer :=
  mkConsumer (newReceiveStream id) (NewStreamFlowController id window maxWindow sendWindow) c None [] [].

Lemma consumer_start_ok id window maxWindow sendWindow c : consumer_ok (consumer_start id window maxWindow sendWindow c).
Proof.
  split; [|done]. split; cbn; try done; [|by constructor|by intros d []%elem_of_nil].
  split; cbn; try done; [apply newFrameSorter_ok| | |by left].
  - intros x. unfold in_gaps. split.
    + intros (g & ->%list_elem_of_singleton & ?). split; [done|]. intros (o & n & []%elem_of_nil & _).
    + intros [? _]. eexists. split; [by apply list_elem_of_singleton|done].
  - intros x (o & n & []%elem_of_nil & _).
Qed.

Lemma consumer_reachable_ok id window maxWindow sendWindow c k :
  rtc consume_step (consumer_start id window maxWindow sendWindow c) k -> consumer_ok k.
Proof.
  intros Hr. pose proof (consumer_start_ok id window maxWindow sendWindow c) as H0.
  induction Hr; [done|]. eauto using consume_step_ok.
Qed.

Lemma delivered_len k : consumer_ok k -> dataLen (delivered k) = rcv_readOffset (cn_stream k).
Proof. intros [Hi _]. apply Hi. Qed.

(** Nothing before the next byte to be read is missing, nor is it when it has
    arrived. *)
Lemma next_byte k :
  consumer_ok k -> let s := cn_stream k in
  rcv_currentFrame s = None \/ dataLen (default [] (rcv_currentFrame s)) <= rcv_readPosInFrame s ->
  rcv_readOffset s = fs_readPos (rcv_frameQueue s) /\
  (in_gaps (fs_readPos (rcv_frameQueue s)) (fs_gaps (rcv_frameQueue s)) <-> ~ in_frames (rcv_readOffset s) (cn_frames k)).
Proof.
  intros [Hi _] s Hc. subst s. pose proof (io_queue _ _ Hi) as Hq. destruct (queue_current _ _ _ Hq) as [Hp Hr].
  assert (E : rcv_readOffset (cn_stream k) = fs_readPos (rcv_frameQueue (cn_stream k))).
  { destruct Hc as [Hc|Hc]; [|lia]. rewrite Hc in *. cbn in *. change (dataLen []) with 0 in *. lia. }
  split; [done|]. rewrite E, (qo_gaps _ _ _ Hq). pose proof (qo_pos _ _ _ Hq). pose proof (qo_end _ _ _ Hq).
  split; [tauto|]. intros ?. split; [lia|done].
Qed.
End Consumer.

(** ** Properties *)

Section Properties.
Context `{!FloatConv} {C : Type} `{!ConnectionFlowControllerI C}.

Lemma assembled_segment c out : assembled (bytes_of c) out -> out = segment c 0 (length out).
Proof.
  induction 1 as [|out d _ IH HP]; [done|]. rewrite length_app, segment_app, <- IH. f_equal. exact HP.
Qed.

(** An application reads the stream that was sent: whatever parts of the
    stream [content] arrive, in whatever order, interleaved with the calls of
    [Read] (also while one of them copies), resets, cancellations and deadlines,
    the data delivered by all [Read]s together is a prefix of the stream; and
    [Read] reports the end of the stream only when the final offset is known and
    everything before it was delivered. *)
Theorem read_in_order content Fin id window maxWindow sendWindow (c : C) k :
  rtc (consume_step (bytes_of content) Fin) (consumer_start id window maxWindow sendWindow c) k ->
  delivered k = segment content 0 (length (delivered k)) /\
  forall d, (d, Some EOF) ∈ cn_returned k ->
    receivedFinalOffset (cn_fc k) = true /\ dataLen (delivered k) = received_end (cn_fc k).
Proof.
  intros Hr. pose proof (consumer_reachable_ok _ _ _ _ _ _ _ _ Hr) as Hok. split.
  - apply assembled_segment. apply Hok.
  - intros d Hd. destruct (co_idle _ _ _ Hok) as [Hq _ _ _ He]. rewrite (delivered_len _ _ _ Hok).
    pose proof (qo_fin _ _ _ _ _ Hq (He d Hd)) as Hf. destruct (queue_current _ _ _ _ _ Hq) as [Hp Hrp].
    pose proof (qo_pos _ _ _ _ _ Hq). pose proof (qo_end _ _ _ _ _ Hq).
    destruct (qo_final _ _ _ _ _ Hq) as [[E _]|[E ?]]; [lia|]. split; [done|]. lia.
Qed.

(** No [Read] is left waiting: one that waits while no signal is pending has
    nothing to return, that is, the next byte has not arrived, the end of the
    stream has not been reached, and the stream was not closed, canceled or reset;
    and the deadline it waits for is the current one. *)
Theorem read_waits_for_data P Fin `{!Content P} id window maxWindow sendWindow (c : C) k len data d :
  rtc (consume_step P Fin) (consumer_start id window maxWindow sendWindow c) k ->
  cn_call k = Some (mkReadCall len data (Some d)) -> rcv_readChan (cn_stream k) = false ->
  data = [] /\ d = rcv_deadline (cn_stream k) /\ halted (cn_stream k) = false /\
  ~ in_frames (dataLen (delivered k)) (cn_frames k) /\
  (receivedFinalOffset (cn_fc k) = true -> dataLen (delivered k) < received_end (cn_fc k)).
Proof.
  intros Hr Hc Hch. pose proof (consumer_reachable_ok _ _ _ _ _ _ _ _ Hr) as Hok.
  rewrite (delivered_len _ _ _ Hok). pose proof (co_call _ _ _ Hok) as Hx. rewrite Hc in Hx.
  destruct Hx as (_ & _ & Hd & Hn & Hw). destruct (Hw Hch) as (Hh & [Hg Hf] & Ed).
  destruct (next_byte P Fin k Hok (or_introl Hn)) as [E Hiff]. split_and!; try done; [by apply Hiff|].
  intros Hfin. destruct (qo_final _ _ _ _ _ (io_queue _ _ _ _ (co_idle _ _ _ Hok))) as [[_ ?]|[Ef _]]; [congruence|]. lia.
Qed.

(** The state after a [Read] has looked for a frame. *)
Definition looked_up (s : receiveStream) : receiveStream :=
  if isNone (rcv_currentFrame s) || (dataLen (default [] (rcv_currentFrame s)) <=? rcv_readPosInFrame s)
  then dequeueNextFrame s else s.

Lemma read_start_looks now s len :
  0 < len -> halted s = false -> rcv_finRead s = false ->
  read_start now s len = (looked_up s, read_inner now (looked_up s) len 0).
Proof.
  intros Hlen Hh Hf. apply orb_false_iff in Hh as [[Hh1 Hh2]%orb_false_iff Hh3].
  unfold read_start. rewrite Hf, Hh2, Hh3, Hh1. unfold read_loop. rewrite (proj2 (Z.ltb_lt 0 len) Hlen). cbn [negb].
  fold (looked_up s). by rewrite andb_false_r.
Qed.

Lemma looked_up_flags s :
  halted (looked_up s) = halted s /\ rcv_deadline (looked_up s) = rcv_deadline s /\ rcv_finRead (looked_up s) = rcv_finRead s.
Proof. unfold looked_up, dequeueNextFrame. case_if; [|done]. by destruct (Pop _) as [q [o d]]. Qed.

(** A frame that is found is not empty; there is none only when the next byte is
    missing, and then the last frame is recognised. *)
Lemma looked_up_ok P Fin `{!Content P} (k : consumer (C := C)) :
  consumer_ok P Fin k -> let s := looked_up (cn_stream k) in
  queue_ok P Fin s (cn_fc k) (cn_frames k) /\ rcv_readOffset s = rcv_readOffset (cn_stream k) /\
  match rcv_currentFrame s with
  | Some d => rcv_readPosInFrame s < dataLen d
  | None => ~ in_frames (rcv_readOffset s) (cn_frames k) /\ rcv_readPosInFrame s = 0 /\
            rcv_currentFrameIsLast s = (rcv_finalOffset s <=? rcv_readOffset s)
  end.
Proof.
  intros Hok s. subst s. pose proof (io_queue _ _ _ _ (co_idle _ _ _ Hok)) as Hq. unfold looked_up.
  set (s := cn_stream k) in *. destruct (isNone (rcv_currentFrame s) || _) eqn:Eb.
  - assert (Hcur : rcv_currentFrame s = None \/ dataLen (default [] (rcv_currentFrame s)) <= rcv_readPosInFrame s).
    { apply orb_true_iff in Eb as [Eb|Eb]; [left; by destruct (rcv_currentFrame s)|right; by zbool]. }
    destruct (next_byte P Fin k Hok Hcur) as [Ero Hiff]. fold s in Ero, Hiff.
    destruct (dequeueNextFrame_ok P Fin s _ _ Hq Hcur) as (q & d & E & Hq' & Hg & Hne). rewrite E in *.
    pose proof (qo_current _ _ _ _ _ Hq') as Hcu. cbn in Hcu. split_and!; [done|done|]. cbn -[dataLen].
    destruct d as [d|]; [apply dataLen_pos; by intros ->|]. destruct Hcu as [_ Hcu]. rewrite Hcu. split_and!; try done.
    specialize (Hg eq_refl). apply (qo_gaps _ _ _ _ _ Hq') in Hg. cbn in Hg. rewrite <- Hcu in Hg |- *. tauto.
  - apply orb_false_iff in Eb as [Eb1 Eb2]. zbool. split_and!; [done|done|]. by destruct (rcv_currentFrame s).
Qed.

(** Reading makes progress: when the next byte of the stream has arrived, a
    [Read] into a buffer that is not empty does not wait and copies at least one
    byte; when everything before the final offset was read, it reports the end of
    the stream and completes it. *)
Theorem read_progress P Fin `{!Content P} id window maxWindow sendWindow (c : C) k now len :
  rtc (consume_step P Fin) (consumer_start id window maxWindow sendWindow c) k ->
  0 < len -> halted (cn_stream k) = false -> rcv_finRead (cn_stream k) = false ->
  deadline_passed now (rcv_deadline (cn_stream k)) = false -> cn_call k = None ->
  let s' := looked_up (cn_stream k) in
  (in_frames (dataLen (delivered k)) (cn_frames k) ->
     read_start now (cn_stream k) len = (s', ReadCopies) /\ chunk s' len <> []) /\
  (receivedFinalOffset (cn_fc k) = true -> dataLen (delivered k) = received_end (cn_fc k) ->
     read_start now (cn_stream k) len = (s', ReadCopies) /\
     exists s'' fc' c' notes,
       read_copied now s' (cn_fc k) (cn_conn k) len 0 = (s'', fc', c', notes, ReadReturns true (Some EOF))).
Proof.
  intros Hr Hlen Hh Hnf Hdl _ s'. pose proof (consumer_reachable_ok _ _ _ _ _ _ _ _ Hr) as Hok.
  rewrite (delivered_len _ _ _ Hok), (read_start_looks now _ len Hlen Hh Hnf). fold s'.
  destruct (looked_up_ok P Fin k Hok) as (Hq & Ero & Hcu). destruct (looked_up_flags (cn_stream k)) as (Eh & Ed & Ef).
  fold s' in Hq, Ero, Hcu, Eh, Ed, Ef. rewrite <- Ero. rewrite Hh in Eh. rewrite <- Ed in Hdl. clearbody s'.
  assert (Hin : read_inner now s' len 0 = if negb (isNone (rcv_currentFrame s')) || rcv_currentFrameIsLast s'
    then ReadCopies else ReadWaits (rcv_deadline s')).
  { apply orb_false_iff in Eh as [[Hh1 Hh2]%orb_false_iff Hh3]. unfold read_inner. rewrite Hh1, Hh2, Hh3, Hdl.
    case_if; [|done]. rewrite (proj2 (Z.ltb_ge len 0)) by lia. destruct (queue_current _ _ _ _ _ Hq) as [[_ Hp] _].
    by rewrite (proj2 (Z.ltb_ge _ _) Hp). }
  rewrite Hin. destruct (rcv_currentFrame s') as [d|] eqn:Ecf; cbn [isNone negb orb].
  - split.
    + intros _. split; [done|]. unfold chunk. rewrite Ecf. cbn. change (Datatypes.id d) with d. destruct (queue_current _ _ _ _ _ Hq) as [Hp _].
      intros E%(f_equal length). rewrite length_take, length_drop in E. unfold dataLen in *. cbn in E. lia.
    + intros _ E. exfalso. destruct (queue_current _ _ _ _ _ Hq) as [_ Hp]. rewrite Ecf in Hp. cbn in Hp.
      change (Datatypes.id d) with d in Hp. pose proof (qo_pos _ _ _ _ _ Hq). lia.
  - destruct Hcu as (Hno & Hp & Hl). split; [done|]. intros Hfin E.
    destruct (qo_final _ _ _ _ _ Hq) as [[_ ?]|[Efo _]]; [congruence|]. rewrite Efo, E, Z.leb_refl in Hl. rewrite Hl.
    split; [done|]. unfold read_copied, chunk. rewrite Ecf. cbn [default]. rewrite drop_nil, take_nil. change (dataLen []) with 0.
    destruct (if rcv_resetRemotely _ then _ else _) as [[fc1 c1] n1].
    cbn [rcv_currentFrame rcv_readPosInFrame rcv_currentFrameIsLast over default]. rewrite Ecf, Hl, Hp. cbn. by do 4 eexists.
Qed.

End Properties.

Section Connection.
Context `{!FloatConv}.

Lemma UpdateHighestReceived_errors fc (c : connectionFlowController) offset final e :
  (UpdateHighestReceived fc c offset final).2 = Some e ->
  exists code cause, e = QuicError code cause /\ (code = FlowControlError \/ code = FinalSizeError).
Proof.
  unfold UpdateHighestReceived, conn_IncrementHighestReceived, connectionFlowController_I, IncrementHighestReceived.
  repeat case_if; cbn; intros [= <-]; (do 2 eexists; split; [reflexivity|]); auto.
Qed.

(** No STREAM frame makes a stream fail: whatever a peer has sent before, and
    whatever the application does, a frame is taken, or refused for exceeding the
    flow control windows, for contradicting the final size, or for leaving too
    many gaps; nothing panics and no internal error is reported. *)
Theorem stream_frame_total id window maxWindow sendWindow (c : connectionFlowController) k now f :
  rtc (consume_step any_bytes (fun _ => True)) (consumer_start id window maxWindow sendWindow c) k ->
  0 <= sf_Offset f -> sf_Offset f + dataLen (sf_Data f) < MaxByteCount ->
  exists s' fc' c' notes err,
    handleStreamFrame (cn_stream k) (cn_fc k) (cn_conn k) now f = Ret (s', fc', c', notes, err) /\
    (err = None \/ err = Some errTooManyGaps \/
     exists code cause, err = Some (QuicError code cause) /\ (code = FlowControlError \/ code = FinalSizeError)).
Proof.
  intros Hr Ho Hmax. pose proof (consumer_reachable_ok _ _ _ _ _ _ _ _ Hr) as Hok.
  pose proof (io_queue _ _ _ _ (co_idle _ _ _ Hok)) as Hq. unfold handleStreamFrame, handleStreamFrameImpl.
  destruct (UpdateHighestReceived _ _ _ _) as [[fc1 c1] [e|]] eqn:Eu.
  { pose proof (UpdateHighestReceived_errors (cn_fc k) (cn_conn k) (uint64 (sf_Offset f + DataLen f)) (sf_FinBit f) e) as He.
    rewrite Eu in He. destruct (He eq_refl) as (code & cause & -> & Hc). do 5 eexists. split; [reflexivity|].
    right; right. by do 2 eexists. }
  set (s1 := if sf_FinBit f then _ else _). assert (Es : rcv_frameQueue s1 = rcv_frameQueue (cn_stream k)) by (unfold s1; by case_if).
  clearbody s1. destruct (rcv_canceledRead s1).
  { cbn [mbind outcome_bind mret outcome_ret]. destruct (if_completed _ _ _ _ _) as [c2 n2].
    do 5 eexists. split; [reflexivity|]. by left. }
  destruct (Push_ok any_bytes _ (sf_Data f) (sf_Offset f) (qo_sorter _ _ _ _ _ Hq) Ho Hmax I) as (q & e & Ep & He).
  rewrite Es, Ep. cbn [mbind outcome_bind mret outcome_ret].
  destruct He as [(-> & _ & _)| ->]; cbn; (do 5 eexists; split; [reflexivity|]); auto.
Qed.

(** What reading tells the flow controller. *)
Definition credited (k : consumer (C := connectionFlowController)) : Prop :=
  rcv_resetRemotely (cn_stream k) = false -> bytesRead (sfc_base (cn_fc k)) = rcv_readOffset (cn_stream k).

Lemma UpdateHighestReceived_read fc (c : connectionFlowController) offset final fc' c' err :
  UpdateHighestReceived fc c offset final = (fc', c', err) -> bytesRead (sfc_base fc') = bytesRead (sfc_base fc).
Proof.
  unfold UpdateHighestReceived. repeat case_if; intros E; try (by injection E as <- _ _);
    destruct (conn_IncrementHighestReceived _ _); by injection E as <- _ _.
Qed.

Lemma stream_AddBytesRead_read fc (c : connectionFlowController) now n fc' c' q :
  stream_AddBytesRead fc c now n = (fc', c', q) -> bytesRead (sfc_base fc') = uint64 (bytesRead (sfc_base fc) + n).
Proof.
  unfold stream_AddBytesRead. destruct (conn_AddBytesRead c now n). intros [= <- _ _].
  cbn -[uint64]. unfold AddBytesRead. by case_if.
Qed.

Lemma stream_GetWindowUpdate_read fc (c : connectionFlowController) now rtt fc' c' off :
  stream_GetWindowUpdate fc c now rtt = (fc', c', off) -> bytesRead (sfc_base fc') = bytesRead (sfc_base fc).
Proof.
  unfold stream_GetWindowUpdate. case_if; [by intros [= <- _ _]|].
  destruct (getWindowUpdate _ _ _) as [b o] eqn:E. intros [= <- _ _]. cbn.
  unfold getWindowUpdate, maybeAdjustWindowSize in E. repeat case_if_in E; by injection E as <- _.
Qed.

Lemma read_loop_keeps now s len n :
  rcv_readOffset (read_loop now s len n).1 = rcv_readOffset s /\
  rcv_resetRemotely (read_loop now s len n).1 = rcv_resetRemotely s.
Proof.
  unfold read_loop. destruct (negb _); [done|]. fold (looked_up s).
  assert (E : rcv_readOffset (looked_up s) = rcv_readOffset s /\ rcv_resetRemotely (looked_up s) = rcv_resetRemotely s).
  { unfold looked_up, dequeueNextFrame. case_if; [|done]. by destruct (Pop _) as [q [o d]]. }
  by case_if.
Qed.

Lemma read_start_keeps now s len :
  rcv_readOffset (read_start now s len).1 = rcv_readOffset s /\
  rcv_resetRemotely (read_start now s len).1 = rcv_resetRemotely s.
Proof.
  destruct (read_loop_keeps now s len 0) as [E1 E2]. unfold read_start. repeat case_if; (split; [done|cbn; congruence]).
Qed.

Lemma read_resume_keeps now s len n :
  rcv_readOffset (read_resume now s len n).1 = rcv_readOffset s /\
  rcv_resetRemotely (read_resume now s len n).1 = rcv_resetRemotely s.
Proof. unfold read_resume, dequeueNextFrame. case_if; [|done]. by destruct (Pop _) as [q [o d]]. Qed.

Lemma after_read_credited now k len data s r :
  (rcv_resetRemotely s = false -> bytesRead (sfc_base (cn_fc k)) = rcv_readOffset s) ->
  credited (after_read now k len data (s, r)).
Proof. unfold credited. by destruct r. Qed.

Lemma read_copied_credited now k len n s' fc' c' notes r :
  credited k -> read_copied now (cn_stream k) (cn_fc k) (cn_conn k) len n = (s', fc', c', notes, r) ->
  rcv_resetRemotely s' = false -> bytesRead (sfc_base fc') = rcv_readOffset s'.
Proof.
  intros Hk. unfold read_copied. set (m := dataLen _). set (s1 := cn_stream k <| rcv_readPosInFrame := _ |> <| rcv_readOffset := _ |>).
  set (fcr := if rcv_resetRemotely s1 then _ else _). destruct fcr as [[fc1 c1] n1] eqn:Efc.
  assert (H1 : rcv_resetRemotely s1 = false -> bytesRead (sfc_base fc1) = rcv_readOffset s1).
  { unfold fcr in Efc. intros Hr. rewrite Hr in Efc.
    destruct (stream_AddBytesRead _ _ _ _) as [[fc2 c2] [q1 q2]] eqn:Ea. injection Efc as <- _ _.
    rewrite (stream_AddBytesRead_read _ _ _ _ _ _ _ Ea), (Hk Hr). done. }
  clearbody s1. case_if; [by intros [= <- <- _ _ _]|].
  destruct (read_loop_keeps now s1 len (n + m)) as [E1 E2]. destruct (read_loop _ _ _ _) as [s2 r2].
  intros [= <- <- _ _ _]. cbn in E1, E2. by rewrite E1, E2.
Qed.

Lemma credited_step P Fin k k' : consume_step P Fin k k' -> credited k -> credited k'.
Proof.
  destruct 1 as [k now len Hc Hlen|k now len data d Hc Hch|k now len data d Hc Hd
    |k now len data s' fc' c' notes r Hc E|k now f s' fc' c' notes HP Ho Hmax HF E|k now f s' fc' c' notes Ho HF E
    |k now code s' c' notes E|k now rtt fc' c' off E|k t|k err He|k c']; intros Hk; try done.
  - destruct (read_start_keeps now (cn_stream k) len) as [E1 E2]. destruct (read_start _ _ _) as [s r].
    apply after_read_credited. cbn in *. by rewrite E1, E2.
  - destruct (read_resume_keeps now (cn_stream k <| rcv_readChan := false |>) len (dataLen data)) as [E1 E2].
    unfold read_signaled. destruct (read_resume _ _ _ _) as [s r]. apply after_read_credited. cbn in *. by rewrite E1, E2.
  - destruct (read_resume_keeps now (cn_stream k) len (dataLen data)) as [E1 E2].
    destruct (read_resume _ _ _ _) as [s r]. apply after_read_credited. cbn in *. by rewrite E1, E2.
  - apply after_read_credited. by eapply read_copied_credited.
  - unfold handleStreamFrame in E. apply outcome_bind_Ret in E as ([[[s1 fc1] c1] [cm err]] & E & E2).
    destruct (if_completed _ _ _ _ _) as [c2 n2]. injection E2 as <- <- <- _ ->. revert E. unfold handleStreamFrameImpl.
    destruct (UpdateHighestReceived _ _ _ _) as [[fc2 c3] [e|]] eqn:Eu; [done|].
    apply UpdateHighestReceived_read in Eu. unfold credited in *. cbn in *.
    case_if; [intros [= <- <- _ _]; rewrite Eu; by case_if|].
    intros ([q [e|]] & _ & [= <- <- _ _])%outcome_bind_Ret. cbn. rewrite Eu. by case_if.
  - unfold handleResetStreamFrame in E. destruct (rcv_closedForShutdown _); [by injection E as <- <- <- _|].
    destruct (UpdateHighestReceived _ _ _ _) as [[fc2 c3] [e|]] eqn:Eu; [done|].
    apply UpdateHighestReceived_read in Eu. unfold credited in *. cbn in *. destruct (rcv_resetRemotely (cn_stream k)) eqn:Er.
    + injection E as <- <- <- _. cbn. by rewrite Er.
    + destruct (streamCompleted _ _ _ _) as [c4 n4]. by injection E as <- <- <- _.
  - unfold CancelRead in E. destruct (_ || rcv_resetRemotely _); [by injection E as <- _ _|].
    destruct (if_completed _ _ _ _ _) as [c1 n1]. by injection E as <- _ _.
  - unfold credited in *. cbn. rewrite (stream_GetWindowUpdate_read _ _ _ _ _ _ _ E). done.
Qed.

(** Reading credits flow control exactly: at any time, unless the peer has
    reset the stream, the bytes counted as read by the flow controller of the
    stream are the bytes delivered to the application, and never more than were
    received. *)
Theorem read_credit P Fin `{!Content P} id window maxWindow sendWindow (c : connectionFlowController) k :
  rtc (consume_step P Fin) (consumer_start id window maxWindow sendWindow c) k ->
  rcv_resetRemotely (cn_stream k) = false ->
  bytesRead (sfc_base (cn_fc k)) = dataLen (delivered k) /\ dataLen (delivered k) <= highestReceived (sfc_base (cn_fc k)).
Proof.
  intros Hr Hn. pose proof (consumer_reachable_ok _ _ _ _ _ _ _ _ Hr) as Hok. rewrite (delivered_len _ _ _ Hok). split.
  - assert (Hk : credited k); [|by apply Hk]. assert (H0 : credited (consumer_start id window maxWindow sendWindow c)) by done.
    clear Hok Hn. induction Hr; [done|]. eauto using credited_step.
  - pose proof (io_queue _ _ _ _ (co_idle _ _ _ Hok)) as Hq. pose proof (qo_pos _ _ _ _ _ Hq).
    destruct (queue_current _ _ _ _ _ Hq). unfold received_end in *. lia.
Qed.

(** A retransmitted FIN credits the connection again: once reading was canceled
    and the final offset is known, every further frame with the FIN, which is an
    exact repetition, completes the receiving half once more, and its unread bytes
    are credited to the connection each time. *)
Theorem fin_repeated_credit s fc (c : connectionFlowController) now f :
  rcv_canceledRead s = true -> rcv_finRead s = false -> receivedFinalOffset fc = true -> sf_FinBit f = true ->
  uint64 (sf_Offset f + DataLen f) = received_end fc -> 0 < uint64 (received_end fc - bytesRead (sfc_base fc)) ->
  exists s' c' notes, handleStreamFrame s fc c now f = Ret (s', fc, c', notes ++ [OnStreamCompleted (rcv_streamID s)], None) /\
    rcv_canceledRead s' = true /\ rcv_finRead s' = false /\
    highestReceived (cfc_base c') = highestReceived (cfc_base c) /\
    bytesRead (cfc_base c') = uint64 (bytesRead (cfc_base c) + uint64 (received_end fc - bytesRead (sfc_base fc))).
Proof.
  intros Hca Hnf Hrf Hfin Hoff Hun. unfold handleStreamFrame, handleStreamFrameImpl, UpdateHighestReceived, received_end in *.
  rewrite Hoff, Hfin, Hrf, Z.eqb_refl, Z.ltb_irrefl. cbn [andb negb].
  replace (fc <| receivedFinalOffset := true |>) with fc by (destruct fc; cbn in *; by subst).
  change (rcv_canceledRead (s <| rcv_finalOffset := highestReceived (sfc_base fc) |>)) with (rcv_canceledRead s). rewrite Hca.
  cbn [mbind outcome_bind mret outcome_ret if_completed]. unfold streamCompleted, Abandon.
  change (rcv_finRead (s <| rcv_finalOffset := highestReceived (sfc_base fc) |>)) with (rcv_finRead s).
  rewrite Hnf, (proj2 (Z.ltb_lt _ _) Hun). cbn -[uint64]. do 3 eexists. split; [reflexivity|]. split_and!; try done; cbn -[uint64];
    unfold AddBytesRead; by case_if.
Qed.
End Connection.

(** ** Examples *)

#[local] Existing Instance amd64.

Definition demo_conn : connectionFlowController := NewConnectionFlowController 150 1500.
Definition demo_k : Type := consumer (C := connectionFlowController).
Definition demo_steps : demo_k -> demo_k -> Prop := rtc (consume_step (bytes_of demo_content) (fun o => o = 3)).

(** A [Read] that waits, three bytes that arrive, the FIN, and the next [Read]. *)
Definition take_frame (k : demo_k) (f : StreamFrame) : demo_k :=
  match handleStreamFrame (cn_stream k) (cn_fc k) (cn_conn k) 7 f with
  | Ret (s, fc, c, _, None) =>
      mkConsumer s fc c (cn_call k) (cn_returned k)
        (if rcv_canceledRead (cn_stream k) then cn_frames k else (sf_Offset f, length (sf_Data f)) :: cn_frames k)
  | _ => k
  end.
Definition demo_part : StreamFrame := mkStreamFrame 4 false true 0 (segment demo_content 0 3).
Definition demo_fin : StreamFrame := mkStreamFrame 4 true true 3 [].
Definition demo_k0 : demo_k := consumer_start 4 100 1000 50 demo_conn.
Definition demo_k1 : demo_k := after_read 7 demo_k0 10 [] (read_start 7 (cn_stream demo_k0) 10).
Definition demo_k2 : demo_k := take_frame demo_k1 demo_part.
Definition demo_k3 : demo_k := after_read 7 demo_k2 10 [] (read_signaled 7 (cn_stream demo_k2) 10 (dataLen [])).
Definition copied (k : demo_k) (len : Z) (data : bytes) : demo_k :=
  let '(s, fc, c, _, r) := read_copied 7 (cn_stream k) (cn_fc k) (cn_conn k) len (dataLen data) in
  after_read 7 (k <| cn_fc := fc |> <| cn_conn := c |>) len (data ++ chunk (cn_stream k) (len - dataLen data)) (s, r).
Definition demo_k4 : demo_k := copied demo_k3 10 [].
Definition demo_k5 : demo_k := take_frame demo_k4 demo_fin.
Definition demo_k6 : demo_k := after_read 7 demo_k5 10 [] (read_start 7 (cn_stream demo_k5) 10).
Definition demo_k7 : demo_k := copied demo_k6 10 [].

Lemma take_frame_step P Fin (k : demo_k) f :
  P (sf_Offset f) (sf_Data f) -> 0 <= sf_Offset f -> sf_Offset f + dataLen (sf_Data f) < MaxByteCount ->
  (sf_FinBit f = true -> Fin (sf_Offset f + dataLen (sf_Data f))) ->
  match handleStreamFrame (cn_stream k) (cn_fc k) (cn_conn k) 7 f with Ret (_, _, _, _, None) => True | _ => False end ->
  consume_step P Fin k (take_frame k f).
Proof.
  intros HP Ho Hm Hf Hx. unfold take_frame.
  destruct (handleStreamFrame _ _ _ _ _) as [[[[[s fc] c] n] [e|]]| |] eqn:E; [done| |done|done].
  by apply (consume_frame P Fin k 7 f s fc c n).
Qed.

Lemma copied_step P Fin (k : demo_k) len data :
  cn_call k = Some (mkReadCall len data None) -> consume_step P Fin k (copied k len data).
Proof.
  intros Hc. unfold copied. destruct (read_copied _ _ _ _ _ _) as [[[[s fc] c] n] r] eqn:E. by apply (consume_copied P Fin k 7 len data s fc c n r).
Qed.

Lemma demo_k1_reachable : demo_steps demo_k0 demo_k1.
Proof. apply rtc_once, (consume_read _ _ demo_k0 7 10); [reflexivity|lia]. Qed.

Definition demo_step : demo_k -> demo_k -> Prop := consume_step (bytes_of demo_content) (fun o => o = 3).

Lemma demo_k2_step : demo_step demo_k1 demo_k2.
Proof. apply take_frame_step; [reflexivity|done|done|done|vm_compute; exact I]. Qed.
Lemma demo_k2_waits : cn_call demo_k2 = Some (mkReadCall 10 [] (Some 0)) /\ rcv_readChan (cn_stream demo_k2) = true.
Proof. split; vm_compute; reflexivity. Qed.
Lemma demo_k3_step : demo_step demo_k2 demo_k3.
Proof. unfold demo_k3. exact (consume_signaled _ _ demo_k2 7 10 [] 0 (proj1 demo_k2_waits) (proj2 demo_k2_waits)). Qed.
Lemma demo_k4_step : demo_step demo_k3 demo_k4.
Proof. apply copied_step. vm_compute. reflexivity. Qed.
Lemma demo_k5_step : demo_step demo_k4 demo_k5.
Proof. apply take_frame_step; [reflexivity|done|done|done|vm_compute; exact I]. Qed.
Lemma demo_k5_idle : cn_call demo_k5 = None.
Proof. vm_compute. reflexivity. Qed.
Lemma demo_k6_step : demo_step demo_k5 demo_k6.
Proof. unfold demo_k6. exact (consume_read _ _ demo_k5 7 10 demo_k5_idle ltac:(lia)). Qed.
Lemma demo_k7_step : demo_step demo_k6 demo_k7.
Proof. apply copied_step. vm_compute. reflexivity. Qed.

Lemma demo_k5_reachable : demo_steps demo_k0 demo_k5.
Proof.
  exact (rtc_r _ _ _ (rtc_r _ _ _ (rtc_r _ _ _ (rtc_r _ _ _ demo_k1_reachable demo_k2_step) demo_k3_step) demo_k4_step) demo_k5_step).
Qed.

Lemma demo_k7_reachable : demo_steps demo_k0 demo_k7.
Proof. exact (rtc_r _ _ _ (rtc_r _ _ _ demo_k5_reachable demo_k6_step) demo_k7_step). Qed.

Lemma read_in_order_witness :
  (@nil byte, Some EOF) ∈ cn_returned demo_k7 /\ delivered demo_k7 = segment demo_content 0 3 /\
  dataLen (delivered demo_k7) = received_end (cn_fc demo_k7).
Proof.
  assert (Hin : (@nil byte, Some EOF) ∈ cn_returned demo_k7) by (vm_compute; right; left).
  split; [exact Hin|]. destruct (read_in_order demo_content (fun o => o = 3) 4 100 1000 50 demo_conn demo_k7 demo_k7_reachable) as [E He].
  split; [exact E|]. exact (proj2 (He _ Hin)).
Defined.

Lemma read_waits_for_data_witness :
  cn_call demo_k1 = Some (mkReadCall 10 [] (Some 0)) /\ ~ in_frames (dataLen (delivered demo_k1)) (cn_frames demo_k1).
Proof.
  split; [vm_compute; reflexivity|].
  apply (read_waits_for_data (bytes_of demo_content) (fun o => o = 3) 4 100 1000 50 demo_conn demo_k1 10 [] 0 demo_k1_reachable);
    vm_compute; reflexivity.
Defined.

Lemma read_progress_witness :
  dataLen (delivered demo_k5) = 3 /\
  read_start 7 (cn_stream demo_k5) 10 = (looked_up (cn_stream demo_k5), ReadCopies).
Proof.
  split; [vm_compute; reflexivity|].
  refine (proj1 (proj2 (read_progress (bytes_of demo_content) (fun o => o = 3) 4 100 1000 50 demo_conn demo_k5 7 10
    demo_k5_reachable _ _ _ _ _) _ _)); try lia; vm_compute; reflexivity.
Defined.

Lemma demo_any_reachable : rtc (consume_step any_bytes (fun _ => True)) demo_k0 demo_k1.
Proof. apply rtc_once, (consume_read _ _ demo_k0 7 10); [reflexivity|lia]. Qed.

Lemma stream_frame_total_witness :
  exists s' fc' c' notes err,
    handleStreamFrame (cn_stream demo_k1) (cn_fc demo_k1) (cn_conn demo_k1) 7 (mkStreamFrame 4 false true 1000 [1]) =
      Ret (s', fc', c', notes, err) /\ err <> None.
Proof.
  destruct (stream_frame_total 4 100 1000 50 demo_conn demo_k1 7 (mkStreamFrame 4 false true 1000 [1]) demo_any_reachable
    ltac:(done) ltac:(done)) as (s' & fc' & c' & notes & err & E & _).
  exists s', fc', c', notes, err. split; [exact E|]. intros ->. vm_compute in E. discriminate E.
Defined.

Lemma read_credit_witness : bytesRead (sfc_base (cn_fc demo_k5)) = dataLen (delivered demo_k5) /\ dataLen (delivered demo_k5) = 3.
Proof.
  split; [|vm_compute; reflexivity].
  apply (read_credit (bytes_of demo_content) (fun o => o = 3) 4 100 1000 50 demo_conn demo_k5 demo_k5_reachable). vm_compute. reflexivity.
Defined.

(** Three bytes and the FIN arrive, reading is canceled, and the FIN is repeated:
    the connection has received three bytes, and counts nine as read after two
    repetitions. *)
Definition demo_abandoned : demo_k :=
  let k := take_frame (take_frame demo_k0 demo_part) demo_fin in
  let '(s, c, _) := CancelRead (cn_stream k) (cn_fc k) (cn_conn k) 7 0 in k <| cn_stream := s |> <| cn_conn := c |>.

Lemma fin_repeated_credit_witness :
  exists s' c' notes, handleStreamFrame (cn_stream demo_abandoned) (cn_fc demo_abandoned) (cn_conn demo_abandoned) 7 demo_fin =
      Ret (s', cn_fc demo_abandoned, c', notes ++ [OnStreamCompleted 4], None) /\
    bytesRead (cfc_base (cn_conn demo_abandoned)) = 3 /\ bytesRead (cfc_base c') = 6 /\ highestReceived (cfc_base c') = 3.
Proof.
  destruct (fin_repeated_credit (cn_stream demo_abandoned) (cn_fc demo_abandoned) (cn_conn demo_abandoned) 7 demo_fin)
    as (s' & c' & notes & E & _ & _ & Eh & Eb); [vm_compute; reflexivity..|].
  exists s', c', notes. split; [exact E|]. split; [vm_compute; reflexivity|]. rewrite Eb, Eh. split; vm_compute; reflexivity.
Defined.
