(* ===== verification/Stream.v ===== *)
(** * Bidirectional streams, and a stream from end to end (stream.go)

    A [stream] is a receiving and a sending half that share a flow controller;
    each half reports its completion to the stream, which reports its own
    completion to the session when both have.  The last part puts the sending half
    of one endpoint and the receiving half of the other together. *)

From S2P Require Import Prelude Protocol AckFrame Frames FrameSorter GoFloat FlowControl SendStream ReceiveStream.

(** ** The program *)

Record stream := mkStream {
  str_receiveStream : receiveStream;
  str_sendStream : sendStream;
  str_receiveStreamCompleted : bool;
  str_sendStreamCompleted : bool
}.

#[global] Instance stream_eta : Eta stream := fun s =>
  mkStream (str_receiveStream s) (str_sendStream s) (str_receiveStreamCompleted s) (str_sendStreamCompleted s).

Definition newStream (streamID : StreamID) : stream :=
  mkStream (newReceiveStream streamID) (newSendStream streamID) false false.

Definition checkIfCompleted (s : stream) : list notification :=
  if str_sendStreamCompleted s && str_receiveStreamCompleted s
  then [OnStreamCompleted (snd_streamID (str_sendStream s))] else [].

Inductive half := Receiving | Sending.

(** [onStreamCompletedImpl] of the [uniStreamSender]s. *)
Definition half_completed (h : half) (s : stream) : stream :=
  match h with
  | Receiving => s <| str_receiveStreamCompleted := true |>
  | Sending => s <| str_sendStreamCompleted := true |>
  end.

(** The notifications of a half, as its [uniStreamSender] passes them on. *)
Fixpoint uniStreamSender (h : half) (s : stream) (notes : list notification) : stream * list notification :=
  match notes with
  | [] => (s, [])
  | OnStreamCompleted _ :: notes =>
      let s := half_completed h s in
      let '(s', out) := uniStreamSender h s notes in (s', checkIfCompleted s ++ out)
  | note :: notes => let '(s', out) := uniStreamSender h s notes in (s', note :: out)
  end.

(** The methods that [stream] defines itself. *)
Definition stream_Close (s : stream) : stream * list notification * option goerr :=
  let '(snd, notes, err) := send_Close (str_sendStream s) in
  let '(s, notes) := uniStreamSender Sending (s <| str_sendStream := snd |>) notes in (s, notes, err).

Definition SetDeadline (s : stream) (t : time) : stream :=
  s <| str_receiveStream := SetReadDeadline (str_receiveStream s) t |>
    <| str_sendStream := SetWriteDeadline (str_sendStream s) t |>.

Definition stream_closeForShutdown (s : stream) (err : option goerr) : stream :=
  s <| str_sendStream := send_closeForShutdown (str_sendStream s) err |>
    <| str_receiveStream := receive_closeForShutdown (str_receiveStream s) err |>.

Section Operations.
Context `{!FloatConv} {C : Type} `{!ConnectionFlowControllerI C}.

Definition stream_handleResetStreamFrame (s : stream) (fc : streamFlowController) (c : C) (now : time)
    (frame : ResetStreamFrame) : stream * streamFlowController * C * list notification * option goerr :=
  let '(r, fc, c, notes, err) := handleResetStreamFrame (str_receiveStream s) fc c now frame in
  let '(s, notes) := uniStreamSender Receiving (s <| str_receiveStream := r |>) notes in (s, fc, c, notes, err).

End Operations.

(** ** Completion *)

(** The halves that report their completion, in order. *)
Fixpoint report (s : stream) (hs : list half) : stream * list notification :=
  match hs with
  | [] => (s, [])
  | h :: hs =>
      let '(s, out) := uniStreamSender h s [OnStreamCompleted (snd_streamID (str_sendStream s))] in
      let '(s, out') := report s hs in (s, out ++ out')
  end.

(** The session is told about the completion when both halves have reported it,
    and not before. *)
Lemma report_completed s hs :
  str_receiveStreamCompleted s && str_sendStreamCompleted s = false ->
  (report s hs).2 = [] <->
  ~ ((str_receiveStreamCompleted s = true \/ Receiving ∈ hs) /\ (str_sendStreamCompleted s = true \/ Sending ∈ hs)).
Proof.
  revert s. induction hs as [|h hs IH]; intros s Hs; cbn.
  - split; [|done]. intros _ [[E1|[]%elem_of_nil] [E2|[]%elem_of_nil]]. by rewrite E1, E2 in Hs.
  - set (s1 := half_completed h s). destruct (report s1 hs) as [s2 out] eqn:E. cbn. rewrite app_nil_r.
    unfold checkIfCompleted. destruct (str_sendStreamCompleted s1 && str_receiveStreamCompleted s1) eqn:Eb; cbn.
    + split; [done|]. intros []. zbool. unfold s1 in *. destruct h; cbn in *; split; try (by left); right; left.
    + specialize (IH s1). rewrite E, andb_comm in IH. cbn in IH. rewrite (IH Eb). unfold s1.
      rewrite !elem_of_cons. destruct h; cbn in *; naive_solver.
Qed.

(** ** From end to end *)

(** The part of [w] at an offset. *)
Definition part_at (w : bytes) (o : Z) (d : bytes) : Prop :=
  0 <= o /\ exists pre post, w = pre ++ d ++ post /\ dataLen pre = o.

#[global] Instance part_at_content w : Content (part_at w).
Proof.
  split.
  - intros k d j (Hk & pre & post & E & El) Hj. split; [lia|]. exists (pre ++ take j d), post.
    split; [rewrite E, <- app_assoc; f_equal; by rewrite app_assoc, take_drop|].
    rewrite dataLen_app, El. unfold dataLen. rewrite length_take. lia.
  - intros k d j (Hk & pre & post & E & El). split; [done|]. exists pre, (drop j d ++ post).
    split; [|done]. rewrite E. f_equal. by rewrite app_assoc, take_drop.
Qed.

Lemma assembled_part w out : assembled (part_at w) out -> exists rest, w = out ++ rest.
Proof.
  induction 1 as [|out d _ IH (_ & pre & post & E & El)]; [by exists w|]. destruct IH as [rest Er].
  exists post. assert (pre = out) as ->; [|by rewrite <- app_assoc].
  rewrite Er in E. unfold dataLen in El. apply (f_equal (take (length out))) in E. rewrite take_app_length in E.
  assert (El' : length out = length pre) by lia. rewrite El', take_app_length in E. done.
Qed.

Section Transfer.
Context `{!FloatConv} {C : Type} `{!ConnectionFlowControllerI C}.

(** What was written to a stream, also by a [Write] that has not returned. *)
Definition written (w : writer) : bytes :=
  wr_accepted w ++ match wr_call w with Some (p, _) => p | None => [] end.

(** The final offset that the frames of a sender announce. *)
Definition announced (w : writer) (o : ByteCount) : Prop :=
  o = dataLen (frames_data (wr_frames w)) /\ exists f m, (f, m) ∈ wr_frames w /\ sf_FinBit f = true.

(** What the receiver takes are parts of the frames of the sender, and the FIN. *)
Lemma sent_parts w f m :
  writer_reachable w -> (f, m) ∈ wr_frames w ->
  part_at (frames_data (wr_frames w)) (sf_Offset f) (sf_Data f) /\
  (sf_FinBit f = true -> announced w (sf_Offset f + dataLen (sf_Data f))).
Proof.
  intros Hr Hin. destruct (wo_sent _ (writer_reachable_ok w Hr)) as [_ _ _ _ _ _ _ _ _ Hfin Hpl _].
  pose proof Hin as Hin'. apply list_elem_of_split in Hin' as (pre & post & E).
  pose proof (Hpl _ _ _ E) as Ho. cbn in Ho. split.
  - split; [rewrite Ho; unfold dataLen; lia|]. exists (frames_data pre), (frames_data post). split; [|done].
    rewrite E. unfold frames_data. by rewrite map_app, concat_app.
  - intros Hf. pose proof (Hfin _ _ _ E Hf) as ->. split; [|by exists f, m].
    rewrite E, frames_data_snoc, dataLen_app. cbn. lia.
Qed.

(** C2. A stream arrives as it was written: for a sender in any state and a
    receiver at the other end of the network, which gets any parts of the sender's
    frames in any order and any number of times, the application that reads sees a
    prefix of what the other application wrote; and when it sees the end of the
    stream, it has seen everything, and the writer has closed the stream. *)
Theorem stream_transfer w id window maxWindow sendWindow (c : C) k :
  writer_reachable w ->
  rtc (consume_step (part_at (frames_data (wr_frames w))) (announced w)) (consumer_start id window maxWindow sendWindow c) k ->
  (exists rest, written w = delivered k ++ rest) /\
  forall d, (d, Some EOF) ∈ cn_returned k ->
    delivered k = written w /\ snd_finishedWriting (wr_stream w) = true.
Proof.
  intros Hw Hr. destruct (writer_reachable_ok w Hw) as [Hs Hwr _]. pose proof (consumer_reachable_ok _ _ _ _ _ _ _ _ Hr) as Hok.
  destruct (co_idle _ _ _ Hok) as [Hq Ho Hl _ He]. apply assembled_part in Ho as [rest Erest].
  fold (delivered k) in Erest, Hl.
  assert (Hsent : exists more, written w = frames_data (wr_frames w) ++ more /\
    (snd_dataForWriting (wr_stream w) = None -> more = [])).
  { unfold written, written_ok in *. destruct (wr_call w) as [[p dl]|].
    - destruct Hwr as (q & -> & Ep). exists (default [] (snd_dataForWriting (wr_stream w))).
      split; [by rewrite Ep, app_assoc|]. by intros ->.
    - destruct Hwr as [-> _]. exists []. by split. }
  destruct Hsent as (more & Emore & Hmore). split; [exists (rest ++ more); by rewrite Emore, Erest, app_assoc|].
  intros d Hd. pose proof (qo_fin _ _ _ _ _ Hq (He d Hd)) as Hf.
  pose proof (qo_pos _ _ _ _ _ Hq). pose proof (qo_end _ _ _ _ _ Hq). destruct (queue_current _ _ _ _ _ Hq) as [Hp Hrp].
  destruct (qo_final _ _ _ _ _ Hq) as [[E _]|[E Hrf]]; [lia|].
  destruct (qo_peer _ _ _ _ _ Hq Hrf) as (Elen & f & m & Hin & Hfin).
  destruct (so_finished _ _ _ Hs) as [Hfi Hnone].
  { rewrite (so_finSent _ _ _ Hs). apply existsb_exists. exists (f, m). split; [by apply list_elem_of_In|done]. }
  split; [|done]. rewrite Emore, (Hmore Hnone), app_nil_r. rewrite Erest in Elen |- *. rewrite dataLen_app in Elen.
  assert (rest = []) as ->; [|by rewrite app_nil_r]. destruct rest as [|b rest]; [done|].
  unfold dataLen at 2 in Elen. cbn in Elen. lia.
Qed.

End Transfer.

(** ** Examples *)

#[local] Existing Instance amd64.

(** The three bytes of the sender are sent in two frames and the FIN in a third;
    the receiver gets the second frame first. *)
Definition demo_writer5 : writer := after_write demo_writer4 [1; 2; 3] (write_signaled 8 (wr_stream demo_writer4) [1; 2; 3]).
Definition demo_writer6 : writer := demo_writer5 <| wr_stream := (send_Close (wr_stream demo_writer5)).1.1 |>.
Definition demo_writer7 : writer := pop_frame demo_writer6 100.

Lemma pop_frame_step w maxBytes :
  0 <= maxBytes < 2 ^ 14 ->
  match sd_streams (wr_flow w) !! snd_streamID (wr_stream w) with
  | Some fc => match popStreamFrame (wr_stream w) fc (sd_conn (wr_flow w)) maxBytes with Ret _ => True | _ => False end
  | None => False
  end -> write_step w (pop_frame w maxBytes).
Proof.
  intros Hm Hx. unfold pop_frame. destruct (_ !! _) as [fc|] eqn:Ef; [|done].
  destruct (popStreamFrame _ _ _ _) as [[[[[s fc'] c] n] [fr more]]| |] eqn:E; try done. by apply (step_pop w fc maxBytes s fc' c n fr more).
Qed.

Lemma demo_writer7_reachable : writer_reachable demo_writer7.
Proof.
  destruct demo_writer4_reachable as (sd & id & cw & mcw & win & mw & sw & H1 & H2 & H3 & Hr).
  exists sd, id, cw, mcw, win, mw, sw. split_and!; [done..|].
  assert (S5 : write_step demo_writer4 demo_writer5) by (apply (step_signaled demo_writer4 8 [1; 2; 3] 0); vm_compute; reflexivity).
  assert (S7 : write_step demo_writer6 demo_writer7) by (apply pop_frame_step; [done|vm_compute; exact I]).
  exact (rtc_r _ _ _ (rtc_r _ _ _ (rtc_r _ _ _ Hr S5) (step_close demo_writer5)) S7).
Qed.

Definition nth_frame (n : nat) : StreamFrame := (nth n (wr_frames demo_writer7) (demo_fin, 0)).1.
Definition demo_r0 : demo_k := consumer_start 4 100 1000 50 demo_conn.
Definition demo_r1 : demo_k := take_frame demo_r0 (nth_frame 1).
Definition demo_r2 : demo_k := take_frame demo_r1 (nth_frame 0).
Definition demo_r3 : demo_k := take_frame demo_r2 (nth_frame 2).
Definition demo_r4 : demo_k := after_read 7 demo_r3 10 [] (read_start 7 (cn_stream demo_r3) 10).
Definition demo_r5 : demo_k := copied demo_r4 10 [].
Definition demo_r6 : demo_k := copied demo_r5 10 [1; 2].

Definition demo_r_step : demo_k -> demo_k -> Prop :=
  consume_step (part_at (frames_data (wr_frames demo_writer7))) (announced demo_writer7).

Lemma demo_r_frame k n :
  (n < 3)%nat ->
  match handleStreamFrame (cn_stream k) (cn_fc k) (cn_conn k) 7 (nth_frame n) with Ret (_, _, _, _, None) => True | _ => False end ->
  demo_r_step k (take_frame k (nth_frame n)).
Proof.
  intros Hn Hx. assert (Hin : exists m, (nth_frame n, m) ∈ wr_frames demo_writer7).
  { exists (nth n (wr_frames demo_writer7) (demo_fin, 0)).2. unfold nth_frame. rewrite <- surjective_pairing.
    apply list_elem_of_In, nth_In. exact Hn. }
  destruct Hin as [m Hin]. destruct (sent_parts demo_writer7 (nth_frame n) m demo_writer7_reachable Hin) as [H1 H2].
  apply take_frame_step; [exact H1|apply H1| |exact H2|exact Hx].
  destruct n as [|[|[|n]]]; [vm_compute; reflexivity..|lia].
Qed.

Lemma demo_r3_idle : cn_call demo_r3 = None.
Proof. vm_compute. reflexivity. Qed.
Lemma demo_r4_copies : cn_call demo_r4 = Some (mkReadCall 10 [] None).
Proof. vm_compute. reflexivity. Qed.
Lemma demo_r5_copies : cn_call demo_r5 = Some (mkReadCall 10 [1; 2] None).
Proof. vm_compute. reflexivity. Qed.

Lemma demo_r3_reachable : rtc demo_r_step demo_r0 demo_r3.
Proof.
  assert (S1 : demo_r_step demo_r0 demo_r1) by (apply demo_r_frame; [lia|vm_compute; exact I]).
  assert (S2 : demo_r_step demo_r1 demo_r2) by (apply demo_r_frame; [lia|vm_compute; exact I]).
  assert (S3 : demo_r_step demo_r2 demo_r3) by (apply demo_r_frame; [lia|vm_compute; exact I]).
  exact (rtc_l _ _ _ _ S1 (rtc_l _ _ _ _ S2 (rtc_once _ _ S3))).
Qed.

Lemma demo_r6_reachable : rtc demo_r_step demo_r0 demo_r6.
Proof.
  assert (S4 : demo_r_step demo_r3 demo_r4) by exact (consume_read _ _ demo_r3 7 10 demo_r3_idle ltac:(lia)).
  assert (S5 : demo_r_step demo_r4 demo_r5) by exact (copied_step _ _ demo_r4 10 [] demo_r4_copies).
  assert (S6 : demo_r_step demo_r5 demo_r6) by exact (copied_step _ _ demo_r5 10 [1; 2] demo_r5_copies).
  exact (rtc_r _ _ _ (rtc_r _ _ _ (rtc_r _ _ _ demo_r3_reachable S4) S5) S6).
Qed.

Lemma stream_transfer_witness :
  delivered demo_r6 = [1; 2; 3] /\ written demo_writer7 = [1; 2; 3] /\ delivered demo_r6 = written demo_writer7.
Proof.
  split; [vm_compute; reflexivity|]. split; [vm_compute; reflexivity|].
  refine (proj1 (proj2 (stream_transfer demo_writer7 4 100 1000 50 demo_conn demo_r6 demo_writer7_reachable demo_r6_reachable) [1; 2; 3] _)).
  vm_compute. left.
Defined.
