(* ===== verification/StreamsMap.v ===== *)
(** * The streams of a connection (streams_map.go and its generic parts)

    The maps of the streams that the peer opened and of those this endpoint
    opened, for any type of stream: the code generator makes a copy for
    bidirectional and one for unidirectional streams.  Then the map of all streams,
    which chooses by the stream ID.  A call that blocks is modelled by the section
    from its beginning to the wait, and from the wait on; the condition variable
    and the channels are part of the systems below. *)

From Stdlib Require Import Sorted.
From stdpp Require Import sorting.
From S2P Require Import Prelude Protocol AckFrame Frames FrameSorter GoFloat FlowControl SendStream ReceiveStream Stream.

(** ** Errors (streams_map.go) *)

Definition InvalidStreamNum : StreamNum := -1.
Definition StreamLimitError : Z := 0x4.
Definition StreamStateError : Z := 0x5.

(** [streamError], with stream numbers, or another error. *)
Inductive mapError :=
| StreamErrorNums (message : string) (nums : list StreamNum)
| OtherError (err : goerr).

Definition convertStreamError (err : mapError) (stype : StreamType) (pers : Perspective) : goerr :=
  match err with
  | StreamErrorNums message nums => Errorf message (map (fun num => StreamNum_StreamID num stype pers) nums)
  | OtherError err => err
  end.

Definition errTooManyOpenStreams : goerr := ErrorString "too many open streams".

(** ** Streams of the peer (streams_map_incoming_generic.go) *)

Section Incoming.
Context {item : Type}.
Variable newItem : StreamNum -> item.
Variable closeItem : item -> option goerr -> item.
Variable streamTypeGeneric : StreamType.

Record incomingItemsMap := mkIncoming {
  in_streams : gmap StreamNum item;
  (* When a stream is deleted before it was accepted, we can't delete it
     immediately. *)
  in_streamsToDelete : gset StreamNum;
  in_nextStreamToAccept : StreamNum;
  in_nextStreamToOpen : StreamNum;
  in_maxStream : StreamNum;   (* the highest stream that the peer is allowed to open *)
  in_maxNumStreams : Z;       (* maximum number of streams *)
  in_closeErr : option goerr
}.

#[global] Instance incoming_eta : Eta incomingItemsMap := fun m =>
  mkIncoming (in_streams m) (in_streamsToDelete m) (in_nextStreamToAccept m) (in_nextStreamToOpen m)
    (in_maxStream m) (in_maxNumStreams m) (in_closeErr m).

Definition newIncomingItemsMap (maxStreams : Z) : incomingItemsMap :=
  mkIncoming ∅ ∅ 1 1 (int64 maxStreams) maxStreams None.

Definition map_len (m : gmap StreamNum item) : Z := Z.of_nat (size m).

(** [deleteStream]: the frame that is queued, and the error. *)
Definition deleteStream (m : incomingItemsMap) (num : StreamNum) :
    incomingItemsMap * list notification * option mapError :=
  match in_streams m !! num with
  | None => (m, [], Some (StreamErrorNums "Tried to delete unknown stream %d" [num]))
  | Some _ =>
      (* Don't delete this stream yet, if it was not yet accepted. *)
      if in_nextStreamToAccept m <=? num then
        if bool_decide (num ∈ in_streamsToDelete m) then
          (m, [], Some (StreamErrorNums "Tried to delete stream %d multiple times" [num]))
        else (m <| in_streamsToDelete := {[num]} ∪ in_streamsToDelete m |>, [], None)
      else
      let m := m <| in_streams := delete num (in_streams m) |> in
      (* queue a MAX_STREAM_ID frame, giving the peer the option to open a new stream *)
      if map_len (in_streams m) <? in_maxNumStreams m then
        let numNewStreams := in_maxNumStreams m - map_len (in_streams m) in
        let m := m <| in_maxStream := int64 (in_nextStreamToOpen m + numNewStreams - 1) |> in
        (m, [QueueControlFrame (FMaxStreams (mkMaxStreamsFrame streamTypeGeneric (in_maxStream m)))], None)
      else (m, [], None)
  end.

(** One round of the loop of [AcceptStream]: it waits, or returns. *)
Inductive acceptResult :=
| AcceptWaits
| Accepted (str : option item) (err : option mapError).

Definition AcceptStream (m : incomingItemsMap) : incomingItemsMap * list notification * acceptResult :=
  let num := in_nextStreamToAccept m in
  match in_closeErr m with
  | Some err => (m, [], Accepted None (Some (OtherError err)))
  | None =>
      match in_streams m !! num with
      | None => (m, [], AcceptWaits)
      | Some str =>
          let m := m <| in_nextStreamToAccept := num + 1 |> in
          (* If this stream was completed before being accepted, we can delete it now. *)
          if bool_decide (num ∈ in_streamsToDelete m) then
            let m := m <| in_streamsToDelete := in_streamsToDelete m ∖ {[num]} |> in
            match deleteStream m num with
            | (m, notes, Some err) => (m, notes, Accepted None (Some err))
            | (m, notes, None) => (m, notes, Accepted (Some str) None)
            end
          else (m, [], Accepted (Some str) None)
      end
  end.

(** The loop of [GetOrOpenStream] over the new streams. *)
Fixpoint open_streams (n : nat) (newNum : StreamNum) (streams : gmap StreamNum item) : gmap StreamNum item :=
  match n with
  | O => streams
  | S n => open_streams n (newNum + 1) (<[newNum := newItem newNum]> streams)
  end.

(** [GetOrOpenStream]: the stream, or nil, or an error. *)
Definition GetOrOpenStream (m : incomingItemsMap) (num : StreamNum) :
    incomingItemsMap * (option item + mapError) :=
  if in_maxStream m <? num then
    (m, inr (StreamErrorNums "peer tried to open stream %d (current limit: %d)" [num; in_maxStream m]))
  else if num <? in_nextStreamToOpen m then
    (* If the stream was already queued for deletion, and is just waiting to be accepted, don't return it. *)
    (m, inl (if bool_decide (num ∈ in_streamsToDelete m) then None else in_streams m !! num))
  else
  let streams := open_streams (Z.to_nat (num - in_nextStreamToOpen m + 1)) (in_nextStreamToOpen m) (in_streams m) in
  let m := m <| in_streams := streams |> <| in_nextStreamToOpen := num + 1 |> in
  (m, inl (in_streams m !! num)).

Definition incoming_CloseWithError (m : incomingItemsMap) (err : option goerr) : incomingItemsMap :=
  m <| in_closeErr := err |> <| in_streams := (fun str => closeItem str err) <$> in_streams m |>.

End Incoming.
Arguments incomingItemsMap : clear implicits.
Arguments acceptResult : clear implicits.

(** ** Streams of this endpoint (streams_map_outgoing_generic.go) *)

Section Outgoing.
Context {item : Type}.
Variable newItem : StreamNum -> item.
Variable closeItem : item -> option goerr -> item.
Variable streamTypeGeneric : StreamType.

(** A call of [OpenStreamSync] that waits: who it is, whether a value is in its
    channel, whether the channel is closed, and whether it has received and waits
    for the mutex. *)
Record waiter := mkWaiter {
  wt_id : nat;
  wt_signaled : bool;
  wt_closed : bool;
  wt_running : bool
}.

#[global] Instance waiter_eta : Eta waiter := fun w =>
  mkWaiter (wt_id w) (wt_signaled w) (wt_closed w) (wt_running w).

Record outgoingItemsMap := mkOutgoing {
  out_openQueue : list waiter;
  out_streams : gmap StreamNum item;
  out_nextStream : StreamNum;
  out_maxStream : StreamNum;
  out_blockedSent : bool;     (* was a STREAMS_BLOCKED sent for the current maxStream *)
  out_closeErr : option goerr
}.

#[global] Instance outgoing_eta : Eta outgoingItemsMap := fun m =>
  mkOutgoing (out_openQueue m) (out_streams m) (out_nextStream m) (out_maxStream m) (out_blockedSent m) (out_closeErr m).

Definition newOutgoingItemsMap : outgoingItemsMap := mkOutgoing [] ∅ 1 InvalidStreamNum false None.

Definition openStream (m : outgoingItemsMap) : outgoingItemsMap * item :=
  let s := newItem (out_nextStream m) in
  (m <| out_streams := <[out_nextStream m := s]> (out_streams m) |>
     <| out_nextStream := out_nextStream m + 1 |>, s).

Definition maybeSendBlockedFrame (m : outgoingItemsMap) : outgoingItemsMap * list notification :=
  if out_blockedSent m then (m, []) else
  let streamNum := if out_maxStream m =? InvalidStreamNum then 0 else out_maxStream m in
  (m <| out_blockedSent := true |>,
   [QueueControlFrame (FStreamsBlocked (mkStreamsBlockedFrame streamTypeGeneric streamNum))]).

(** A non-blocking send to the first waiter. *)
Definition unblockOpenSync (m : outgoingItemsMap) : outcome outgoingItemsMap :=
  match out_openQueue m with
  | [] => mret m
  | w :: queue =>
      if wt_closed w then Panic "send on closed channel"
      else mret (m <| out_openQueue := w <| wt_signaled := true |> :: queue |>)
  end.

Definition OpenStream (m : outgoingItemsMap) : outgoingItemsMap * list notification * (item + mapError) :=
  match out_closeErr m with
  | Some err => (m, [], inr (OtherError err))
  | None =>
      (* if there are OpenStreamSync calls waiting, return an error here *)
      if negb (Nat.eqb (length (out_openQueue m)) 0) || (out_maxStream m <? out_nextStream m) then
        let '(m, notes) := maybeSendBlockedFrame m in (m, notes, inr (OtherError errTooManyOpenStreams))
      else let '(m, s) := openStream m in (m, [], inl s)
  end.

(** How a section of [OpenStreamSync] ends. *)
Inductive syncResult :=
| SyncWaits
| SyncReturns (r : item + mapError).

(** [OpenStreamSync], up to the wait of the new waiter [id]. *)
Definition OpenStreamSync (m : outgoingItemsMap) (id : nat) : outgoingItemsMap * list notification * syncResult :=
  match out_closeErr m with
  | Some err => (m, [], SyncReturns (inr (OtherError err)))
  | None =>
      if Nat.eqb (length (out_openQueue m)) 0 && (out_nextStream m <=? out_maxStream m) then
        let '(m, s) := openStream m in (m, [], SyncReturns (inl s))
      else
        let m := m <| out_openQueue := out_openQueue m ++ [mkWaiter id false false false] |> in
        let '(m, notes) := maybeSendBlockedFrame m in (m, notes, SyncWaits)
  end.

(** [OpenStreamSync] after a receive from its channel. *)
Definition sync_resume (m : outgoingItemsMap) : outcome (outgoingItemsMap * syncResult) :=
  match out_closeErr m with
  | Some err => mret (m, SyncReturns (inr (OtherError err)))
  | None =>
      if out_maxStream m <? out_nextStream m then (* no stream available. Continue waiting *) mret (m, SyncWaits)
      else
        let '(m, str) := openStream m in
        m ← unblockOpenSync (m <| out_openQueue := tail (out_openQueue m) |>);
        mret (m, SyncReturns (inl str))
  end.

Definition GetStream (m : outgoingItemsMap) (num : StreamNum) : option item + mapError :=
  if out_nextStream m <=? num then inr (StreamErrorNums "peer attempted to open stream %d" [num])
  else inl (out_streams m !! num).

Definition outgoing_DeleteStream (m : outgoingItemsMap) (num : StreamNum) : outgoingItemsMap * option mapError :=
  match out_streams m !! num with
  | None => (m, Some (StreamErrorNums "Tried to delete unknown stream %d" [num]))
  | Some _ => (m <| out_streams := delete num (out_streams m) |>, None)
  end.

Definition SetMaxStream (m : outgoingItemsMap) (num : StreamNum) : outcome outgoingItemsMap :=
  if num <=? out_maxStream m then mret m
  else unblockOpenSync (m <| out_maxStream := num |> <| out_blockedSent := false |>).

(** From a closed channel every waiter can receive. *)
Definition outgoing_CloseWithError (m : outgoingItemsMap) (err : option goerr) : outgoingItemsMap :=
  m <| out_closeErr := err |> <| out_streams := (fun str => closeItem str err) <$> out_streams m |>
    <| out_openQueue := (fun w => w <| wt_closed := true |>) <$> out_openQueue m |>.

End Outgoing.
Arguments outgoingItemsMap : clear implicits.
Arguments syncResult : clear implicits.

(** ** All streams (streams_map.go) *)

(** A stream with its flow controller. *)
Definition bidiItem : Type := stream * streamFlowController.
Definition sendItem : Type := sendStream * streamFlowController.
Definition receiveItem : Type := receiveStream * streamFlowController.

Definition close_bidi (s : bidiItem) (err : option goerr) : bidiItem := (stream_closeForShutdown s.1 err, s.2).
Definition close_send (s : sendItem) (err : option goerr) : sendItem := (send_closeForShutdown s.1 err, s.2).
Definition close_receive (s : receiveItem) (err : option goerr) : receiveItem := (receive_closeForShutdown s.1 err, s.2).

Record streamsMap := mkStreamsMap {
  sm_perspective : Perspective;
  sm_newFlowController : StreamID -> streamFlowController;
  sm_outgoingBidiStreams : outgoingItemsMap bidiItem;
  sm_outgoingUniStreams : outgoingItemsMap sendItem;
  sm_incomingBidiStreams : incomingItemsMap bidiItem;
  sm_incomingUniStreams : incomingItemsMap receiveItem
}.

#[global] Instance streamsMap_eta : Eta streamsMap := fun m =>
  mkStreamsMap (sm_perspective m) (sm_newFlowController m) (sm_outgoingBidiStreams m) (sm_outgoingUniStreams m)
    (sm_incomingBidiStreams m) (sm_incomingUniStreams m).

Definition newStreamsMap (newFlowController : StreamID -> streamFlowController)
    (maxIncomingBidiStreams maxIncomingUniStreams : Z) (perspective : Perspective) : streamsMap :=
  mkStreamsMap perspective newFlowController newOutgoingItemsMap newOutgoingItemsMap
    (newIncomingItemsMap maxIncomingBidiStreams) (newIncomingItemsMap maxIncomingUniStreams).

(** The functions that the maps make streams with. *)
Definition new_outgoing_bidi (m : streamsMap) (num : StreamNum) : bidiItem :=
  let id := StreamNum_StreamID num StreamTypeBidi (sm_perspective m) in (newStream id, sm_newFlowController m id).
Definition new_incoming_bidi (m : streamsMap) (num : StreamNum) : bidiItem :=
  let id := StreamNum_StreamID num StreamTypeBidi (Opposite (sm_perspective m)) in (newStream id, sm_newFlowController m id).
Definition new_outgoing_uni (m : streamsMap) (num : StreamNum) : sendItem :=
  let id := StreamNum_StreamID num StreamTypeUni (sm_perspective m) in (newSendStream id, sm_newFlowController m id).
Definition new_incoming_uni (m : streamsMap) (num : StreamNum) : receiveItem :=
  let id := StreamNum_StreamID num StreamTypeUni (Opposite (sm_perspective m)) in
  (newReceiveStream id, sm_newFlowController m id).

Definition DeleteStream (m : streamsMap) (id : StreamID) : streamsMap * list notification * option mapError :=
  let num := StreamID_StreamNum id in
  match StreamID_Type id with
  | StreamTypeUni =>
      if bool_decide (InitiatedBy id = sm_perspective m) then
        let '(o, err) := outgoing_DeleteStream (sm_outgoingUniStreams m) num in
        (m <| sm_outgoingUniStreams := o |>, [], err)
      else
        let '(i, notes, err) := deleteStream StreamTypeUni (sm_incomingUniStreams m) num in
        (m <| sm_incomingUniStreams := i |>, notes, err)
  | StreamTypeBidi =>
      if bool_decide (InitiatedBy id = sm_perspective m) then
        let '(o, err) := outgoing_DeleteStream (sm_outgoingBidiStreams m) num in
        (m <| sm_outgoingBidiStreams := o |>, [], err)
      else
        let '(i, notes, err) := deleteStream StreamTypeBidi (sm_incomingBidiStreams m) num in
        (m <| sm_incomingBidiStreams := i |>, notes, err)
  end.

(** A half of a stream that a frame is for. *)
Inductive receiver := ReceiverUni (s : receiveItem) | ReceiverBidi (s : bidiItem).
Inductive sender := SenderUni (s : sendItem) | SenderBidi (s : bidiItem).

Definition found {A B} (c : A -> B) (r : option A + mapError) (stype : StreamType) (pers : Perspective) :
    option B + goerr :=
  match r with
  | inl s => inl (c <$> s)
  | inr err => inr (convertStreamError err stype pers)
  end.

Definition getOrOpenReceiveStream (m : streamsMap) (id : StreamID) : streamsMap * (option receiver + goerr) :=
  let num := StreamID_StreamNum id in
  match StreamID_Type id with
  | StreamTypeUni =>
      if bool_decide (InitiatedBy id = sm_perspective m) then
        (* an outgoing unidirectional stream is a send stream, not a receive stream *)
        (m, inr (Errorf "peer attempted to open receive stream %d" [id]))
      else
        let '(i, r) := GetOrOpenStream (new_incoming_uni m) (sm_incomingUniStreams m) num in
        (m <| sm_incomingUniStreams := i |>, found ReceiverUni r StreamTypeUni (sm_perspective m))
  | StreamTypeBidi =>
      if bool_decide (InitiatedBy id = sm_perspective m) then
        (m, found ReceiverBidi (GetStream (sm_outgoingBidiStreams m) num) StreamTypeBidi (InitiatedBy id))
      else
        let '(i, r) := GetOrOpenStream (new_incoming_bidi m) (sm_incomingBidiStreams m) num in
        (m <| sm_incomingBidiStreams := i |>, found ReceiverBidi r StreamTypeBidi (InitiatedBy id))
  end.

Definition getOrOpenSendStream (m : streamsMap) (id : StreamID) : streamsMap * (option sender + goerr) :=
  let num := StreamID_StreamNum id in
  match StreamID_Type id with
  | StreamTypeUni =>
      if bool_decide (InitiatedBy id = sm_perspective m) then
        (m, found SenderUni (GetStream (sm_outgoingUniStreams m) num) StreamTypeUni (sm_perspective m))
      else
        (* an incoming unidirectional stream is a receive stream, not a send stream *)
        (m, inr (Errorf "peer attempted to open send stream %d" [id]))
  | StreamTypeBidi =>
      if bool_decide (InitiatedBy id = sm_perspective m) then
        (m, found SenderBidi (GetStream (sm_outgoingBidiStreams m) num) StreamTypeBidi (InitiatedBy id))
      else
        let '(i, r) := GetOrOpenStream (new_incoming_bidi m) (sm_incomingBidiStreams m) num in
        (m <| sm_incomingBidiStreams := i |>, found SenderBidi r StreamTypeBidi (InitiatedBy id))
  end.

Definition state_error {A} (r : option A + goerr) : option A + goerr :=
  match r with inl s => inl s | inr err => inr (QuicError StreamStateError err) end.

Definition GetOrOpenReceiveStream (m : streamsMap) (id : StreamID) : streamsMap * (option receiver + goerr) :=
  let '(m, r) := getOrOpenReceiveStream m id in (m, state_error r).
Definition GetOrOpenSendStream (m : streamsMap) (id : StreamID) : streamsMap * (option sender + goerr) :=
  let '(m, r) := getOrOpenSendStream m id in (m, state_error r).

Definition HandleMaxStreamsFrame (m : streamsMap) (f : MaxStreamsFrame) : outcome (streamsMap * option goerr) :=
  if MaxStreamCount <? ms_MaxStreamNum f then mret (m, Some (QuicError StreamLimitError (ErrorString EmptyString))) else
  match ms_Type f with
  | StreamTypeUni =>
      o ← SetMaxStream (sm_outgoingUniStreams m) (ms_MaxStreamNum f);
      mret (m <| sm_outgoingUniStreams := o |>, None)
  | StreamTypeBidi =>
      o ← SetMaxStream (sm_outgoingBidiStreams m) (ms_MaxStreamNum f);
      mret (m <| sm_outgoingBidiStreams := o |>, None)
  end.

(** [UpdateLimits], with the two limits of the transport parameters. *)
Definition UpdateLimits (m : streamsMap) (maxBidiStreamNum maxUniStreamNum : StreamNum) :
    outcome (streamsMap * option goerr) :=
  if (MaxStreamCount <? maxBidiStreamNum) || (MaxStreamCount <? maxUniStreamNum) then
    mret (m, Some (QuicError StreamLimitError (ErrorString EmptyString)))
  else
    b ← SetMaxStream (sm_outgoingBidiStreams m) maxBidiStreamNum;
    u ← SetMaxStream (sm_outgoingUniStreams m) maxUniStreamNum;
    mret (m <| sm_outgoingBidiStreams := b |> <| sm_outgoingUniStreams := u |>, None).

(** Opening and accepting, with the errors converted. *)
Definition opened {A} (r : A + mapError) (stype : StreamType) (pers : Perspective) : A + goerr :=
  match r with inl s => inl s | inr err => inr (convertStreamError err stype pers) end.

Definition map_OpenStream (m : streamsMap) : streamsMap * list notification * (bidiItem + goerr) :=
  let '(o, notes, r) := OpenStream (new_outgoing_bidi m) StreamTypeBidi (sm_outgoingBidiStreams m) in
  (m <| sm_outgoingBidiStreams := o |>, notes, opened r StreamTypeBidi (sm_perspective m)).
Definition map_OpenUniStream (m : streamsMap) : streamsMap * list notification * (sendItem + goerr) :=
  let '(o, notes, r) := OpenStream (new_outgoing_uni m) StreamTypeUni (sm_outgoingUniStreams m) in
  (m <| sm_outgoingUniStreams := o |>, notes, opened r StreamTypeBidi (sm_perspective m)).
Definition accepted {A} (r : acceptResult A) (stype : StreamType) (pers : Perspective) : option (option A * option goerr) :=
  match r with
  | AcceptWaits => None
  | Accepted str err => Some (str, (fun e => convertStreamError e stype pers) <$> err)
  end.

Definition map_AcceptStream (m : streamsMap) : streamsMap * list notification * option (option bidiItem * option goerr) :=
  let '(i, notes, r) := AcceptStream StreamTypeBidi (sm_incomingBidiStreams m) in
  (m <| sm_incomingBidiStreams := i |>, notes, accepted r StreamTypeBidi (Opposite (sm_perspective m))).
Definition map_AcceptUniStream (m : streamsMap) : streamsMap * list notification * option (option receiveItem * option goerr) :=
  let '(i, notes, r) := AcceptStream StreamTypeUni (sm_incomingUniStreams m) in
  (m <| sm_incomingUniStreams := i |>, notes, accepted r StreamTypeUni (Opposite (sm_perspective m))).

(** [OpenStreamSync] and [OpenUniStreamSync], up to the wait. *)
Definition synced {A} (r : syncResult A) (stype : StreamType) (pers : Perspective) : option (A + goerr) :=
  match r with SyncWaits => None | SyncReturns r => Some (opened r stype pers) end.

Definition map_OpenStreamSync (m : streamsMap) (id : nat) : streamsMap * list notification * option (bidiItem + goerr) :=
  let '(o, notes, r) := OpenStreamSync (new_outgoing_bidi m) StreamTypeBidi (sm_outgoingBidiStreams m) id in
  (m <| sm_outgoingBidiStreams := o |>, notes, synced r StreamTypeBidi (sm_perspective m)).
Definition map_OpenUniStreamSync (m : streamsMap) (id : nat) : streamsMap * list notification * option (sendItem + goerr) :=
  let '(o, notes, r) := OpenStreamSync (new_outgoing_uni m) StreamTypeUni (sm_outgoingUniStreams m) id in
  (m <| sm_outgoingUniStreams := o |>, notes, synced r StreamTypeUni (sm_perspective m)).

Definition CloseWithError (m : streamsMap) (err : option goerr) : streamsMap :=
  m <| sm_outgoingBidiStreams := outgoing_CloseWithError close_bidi (sm_outgoingBidiStreams m) err |>
    <| sm_outgoingUniStreams := outgoing_CloseWithError close_send (sm_outgoingUniStreams m) err |>
    <| sm_incomingBidiStreams := incoming_CloseWithError close_bidi (sm_incomingBidiStreams m) err |>
    <| sm_incomingUniStreams := incoming_CloseWithError close_receive (sm_incomingUniStreams m) err |>.

(** ** The streams of the peer *)

Section IncomingProofs.
Context {item : Type}.
Variable newItem : StreamNum -> item.
Variable stype : StreamType.

(** A map, and the streams that were deleted from it. *)
Definition incoming : Type := incomingItemsMap item * gset StreamNum.

(** The calls of the session and of the application; what a stream does itself
    changes it in place. *)
Inductive incoming_step : incoming -> incoming -> Prop :=
| incoming_open m D (num : StreamNum) m' r :
    1 <= num <= MaxStreamCount -> GetOrOpenStream newItem m num = (m', inl r) -> incoming_step (m, D) (m', D)
| incoming_delete m D (num : StreamNum) m' notes :
    deleteStream stype m num = (m', notes, None) ->
    incoming_step (m, D) (m', if num <? in_nextStreamToAccept m then {[num]} ∪ D else D)
| incoming_accept m D m' notes str :
    AcceptStream stype m = (m', notes, Accepted (Some str) None) ->
    incoming_step (m, D)
      (m', if bool_decide (in_nextStreamToAccept m ∈ in_streamsToDelete m) then {[in_nextStreamToAccept m]} ∪ D else D)
| incoming_use m D (num : StreamNum) str str' :
    in_streams m !! num = Some str -> incoming_step (m, D) (m <| in_streams := <[num := str']> (in_streams m) |>, D).

Record incoming_ok (maxStreams : Z) (x : incoming) : Prop := {
  io_maxNum : in_maxNumStreams x.1 = maxStreams /\ 0 <= maxStreams <= MaxStreamCount;
  io_dom : forall n : StreamNum, n ∈ dom (in_streams x.1) <-> 1 <= n < in_nextStreamToOpen x.1 /\ n ∉ x.2;
  io_deleted : forall n : StreamNum, n ∈ x.2 -> 1 <= n < in_nextStreamToAccept x.1;
  io_toDelete : forall n : StreamNum, n ∈ in_streamsToDelete x.1 -> in_nextStreamToAccept x.1 <= n < in_nextStreamToOpen x.1;
  io_next : 1 <= in_nextStreamToAccept x.1 <= in_nextStreamToOpen x.1 /\
            in_nextStreamToOpen x.1 <= in_maxStream x.1 + 1 /\ in_nextStreamToOpen x.1 <= MaxStreamCount + 1;
  io_max : in_maxStream x.1 = maxStreams + Z.of_nat (size x.2);
  io_size : map_len (in_streams x.1) + Z.of_nat (size x.2) = in_nextStreamToOpen x.1 - 1
}.

Lemma open_streams_spec n (next : StreamNum) (streams : gmap StreamNum item) :
  (forall k : StreamNum, next <= k < next + Z.of_nat n -> streams !! k = None) ->
  (forall k : StreamNum, open_streams newItem n next streams !! k =
     if (next <=? k) && (k <? next + Z.of_nat n) then Some (newItem k) else streams !! k) /\
  map_len (open_streams newItem n next streams) = map_len streams + Z.of_nat n.
Proof.
  revert next streams. induction n as [|n IH]; intros next streams Hf; cbn [open_streams].
  { split; [|unfold map_len; lia]. intros k. destruct (Z.leb_spec next k), (Z.ltb_spec k (next + Z.of_nat 0)); try done; lia. }
  destruct (IH (next + 1) (<[next := newItem next]> streams)) as [H1 H2].
  { intros k Hk. rewrite lookup_insert_ne by lia. apply Hf. lia. }
  split.
  - intros k. rewrite H1. destruct (Z.eq_dec k next) as [->|Hne].
    + rewrite lookup_insert_eq. destruct (Z.leb_spec (next + 1) next), (Z.leb_spec next next),
        (Z.ltb_spec next (next + Z.of_nat (S n))); try lia. done.
    + rewrite lookup_insert_ne by lia. destruct (Z.leb_spec (next + 1) k), (Z.ltb_spec k (next + 1 + Z.of_nat n)),
        (Z.leb_spec next k), (Z.ltb_spec k (next + Z.of_nat (S n))); try lia; done.
  - etrans; [exact H2|]. unfold map_len. rewrite map_size_insert_None by (apply Hf; lia). lia.
Qed.

(** Deleting a stream that was accepted gives the peer exactly one more. *)
Lemma delete_accepted M m D (num : StreamNum) str :
  incoming_ok M (m, D) -> in_streams m !! num = Some str -> num < in_nextStreamToAccept m ->
  exists m', deleteStream stype m num =
      (m', [QueueControlFrame (FMaxStreams (mkMaxStreamsFrame stype (in_maxStream m + 1)))], None) /\
    incoming_ok M (m', {[num]} ∪ D) /\ in_maxStream m' = in_maxStream m + 1 /\ in_streams m' !! num = None.
Proof.
  intros [Hmn Hdom Hdel Htd Hnx Hmax Hsz] Hl Hlt. cbn in *. unfold deleteStream. rewrite Hl.
  destruct (Z.leb_spec (in_nextStreamToAccept m) num); [lia|].
  assert (Hin : 1 <= num < in_nextStreamToOpen m /\ num ∉ D) by (apply Hdom, elem_of_dom; by exists str).
  assert (Hlen : map_len (delete num (in_streams m)) = map_len (in_streams m) - 1).
  { unfold map_len. rewrite map_size_delete_Some by (by exists str).
    assert (size (in_streams m) <> 0%nat) by (intros Hz%map_size_empty_inv; rewrite Hz in Hl; done). lia. }
  assert (HD : Z.of_nat (size ({[num]} ∪ D)) = Z.of_nat (size D) + 1).
  { rewrite size_union by set_solver. rewrite size_singleton. lia. }
  assert (Hpos : 0 <= map_len (in_streams m)) by (unfold map_len; lia).
  cbn -[map_len int64]. assert (Hnew : int64 (in_nextStreamToOpen m + (in_maxNumStreams m - map_len (delete num (in_streams m))) - 1) =
    in_maxStream m + 1) by (rewrite int64_id; unfold is_int64, MaxStreamCount in *; lia).
  destruct (Z.ltb_spec (map_len (delete num (in_streams m))) (in_maxNumStreams m)) as [Hy|Hy].
  2: { rewrite Hlen in Hy. lia. }
  eexists. split; [by rewrite Hnew|]. split; [|cbn -[int64]; split; [done|apply lookup_delete_eq]].
  split; cbn -[map_len int64]; try done.
  - intros n. rewrite dom_delete, elem_of_difference, Hdom. set_solver.
  - intros n [->%elem_of_singleton|Hn]%elem_of_union; [lia|by apply Hdel].
  - lia.
  - lia.
  - lia.
Qed.

Lemma incoming_step_ok M x y : incoming_ok M x -> incoming_step x y -> incoming_ok M y.
Proof.
  intros Hok Hs. revert Hok. destruct Hs as [m D num m' r Hn E|m D num m' notes E|m D m' notes str E|m D num str str' Hl]; intros Hok.
  - unfold GetOrOpenStream in E. case_if_in E; [done|]. case_if_in E; [by injection E as <- _|]. zbool. injection E as <- _.
    destruct Hok as [Hmn Hdom Hdel Htd Hnx Hmax Hsz]; cbn in *.
    set (n := Z.to_nat (num - in_nextStreamToOpen m + 1)). assert (Hn' : Z.of_nat n = num - in_nextStreamToOpen m + 1) by lia.
    destruct (open_streams_spec n (in_nextStreamToOpen m) (in_streams m)) as [H1 H2].
    { intros k Hk. apply not_elem_of_dom. rewrite Hdom. lia. }
    split; cbn -[map_len]; try done; try lia.
    + intros k. rewrite elem_of_dom, H1. destruct ((_ <=? k) && (k <? _)) eqn:Eb.
      * zbool. split; [intros _|done]. split; [lia|]. intros Hk%Hdel. lia.
      * rewrite <- elem_of_dom, Hdom. apply andb_false_iff in Eb as [Eb%Z.leb_gt|Eb%Z.ltb_ge]; (split; (intros [? ?]; split; [lia|done])).
    + intros k Hk%Htd. lia.
  - destruct (in_streams m !! num) as [str|] eqn:Hl; [|by unfold deleteStream in E; rewrite Hl in E].
    destruct (Z.ltb_spec num (in_nextStreamToAccept m)) as [Hlt|Hge].
    { destruct (delete_accepted M m D num str Hok Hl Hlt) as (m1 & E1 & Hok1 & _). rewrite E1 in E. by injection E as <- _. }
    unfold deleteStream in E. rewrite Hl in E. destruct (Z.leb_spec (in_nextStreamToAccept m) num); [|lia].
    case_bool_decide; [done|]. injection E as <- _. destruct Hok as [Hmn Hdom Hdel Htd Hnx Hmax Hsz]; cbn in *. split; cbn; try done.
    assert (num ∈ dom (in_streams m)) as [? _]%Hdom by (apply elem_of_dom; by exists str).
    intros k [->%elem_of_singleton|Hk]%elem_of_union; [lia|by apply Htd].
  - unfold AcceptStream in E. destruct (in_closeErr m); [done|]. set (num := in_nextStreamToAccept m : StreamNum) in *.
    destruct (in_streams m !! num) as [str'|] eqn:Hl; [|done].
    assert (Hnum : num ∈ dom (in_streams m)) by (apply elem_of_dom; by exists str'). pose proof Hok as Hok0.
    destruct Hok as [Hmn Hdom Hdel Htd Hnx Hmax Hsz]; cbn in *. apply Hdom in Hnum as [Hnum HnD].
    case_bool_decide as Htdel.
    + set (m1 := m <| in_nextStreamToAccept := num + 1 |> <| in_streamsToDelete := in_streamsToDelete m ∖ {[num]} |>).
      assert (Hok1 : incoming_ok M (m1, D)).
      { split; cbn -[map_len]; try done; try lia.
        - intros k Hk%Hdel. lia.
        - intros k [Hk Hne]%elem_of_difference. pose proof (Htd k Hk). assert (k <> num) by set_solver. lia. }
      destruct (delete_accepted M m1 D num str' Hok1 Hl ltac:(cbn; lia)) as (m2 & E2 & Hok2 & _).
      change (in_streamsToDelete (m <| in_nextStreamToAccept := num + 1 |>)) with (in_streamsToDelete m) in E.
      fold m1 in E. rewrite E2 in E. by injection E as <- _ _.
    + injection E as <- _ _. split; cbn -[map_len]; try done; try lia.
      * intros k Hk%Hdel. lia.
      * intros k Hk. pose proof (Htd k Hk). assert (k <> num) by set_solver. lia.
  - destruct Hok as [Hmn Hdom Hdel Htd Hnx Hmax Hsz]; cbn in *. split; cbn -[map_len]; try done.
    + intros n. rewrite dom_insert_lookup_L by (by exists str). apply Hdom.
    + unfold map_len in *. rewrite map_size_insert_Some by (by exists str). done.
Qed.

Lemma incoming_reachable_ok M x :
  0 <= M <= MaxStreamCount -> rtc incoming_step (newIncomingItemsMap M, ∅) x -> incoming_ok M x.
Proof.
  intros HM Hr. assert (H0 : incoming_ok M (newIncomingItemsMap M, ∅)).
  { unfold newIncomingItemsMap. split; cbn -[int64]; try done; rewrite ?int64_id by (unfold is_int64, MaxStreamCount in *; lia).
    - intros n. split; [set_solver|lia].
    - unfold MaxStreamCount in *. lia.
    - rewrite size_empty. lia. }
  induction Hr; [done|]. eauto using incoming_step_ok.
Qed.

(** C28. The peer never has more streams open than it was granted: in every
    reachable state the map holds at most [maxStreams] streams, and the limit is
    [maxStreams] plus the number of streams that are finished; a frame for a stream
    above the limit is refused; a stream that is finished is never found again, and
    any other one below the limit is found or opened. *)
Theorem incoming_streams_limit M m D (num : StreamNum) :
  0 <= M <= MaxStreamCount -> rtc incoming_step (newIncomingItemsMap M, ∅) (m, D) -> 1 <= num ->
  map_len (in_streams m) <= M /\ in_maxStream m = M + Z.of_nat (size D) /\
  match GetOrOpenStream newItem m num with
  | (_, inr _) => in_maxStream m < num
  | (_, inl None) => num ∈ D \/ num ∈ in_streamsToDelete m
  | (m', inl (Some str)) =>
      num <= in_maxStream m /\ num ∉ D /\ num ∉ in_streamsToDelete m /\ in_streams m' !! num = Some str
  end.
Proof.
  intros HM Hr Hn. destruct (incoming_reachable_ok M _ HM Hr) as [Hmn Hdom Hdel Htd Hnx Hmax Hsz]; cbn in *.
  split; [lia|]. split; [done|]. unfold GetOrOpenStream. destruct (Z.ltb_spec (in_maxStream m) num); [done|].
  destruct (Z.ltb_spec num (in_nextStreamToOpen m)) as [Hlt|Hge].
  - case_bool_decide as Hd; [by right|]. destruct (in_streams m !! num) as [str|] eqn:El.
    + split; [lia|]. split; [|done]. apply Hdom, elem_of_dom. by exists str.
    + left. destruct (decide (num ∈ D)) as [|HnD]; [done|]. apply not_elem_of_dom in El. destruct El. apply Hdom. split; [lia|done].
  - set (n := Z.to_nat (num - in_nextStreamToOpen m + 1)). assert (Hn' : Z.of_nat n = num - in_nextStreamToOpen m + 1) by lia.
    destruct (open_streams_spec n (in_nextStreamToOpen m) (in_streams m)) as [H1 _].
    { intros k Hk. apply not_elem_of_dom. rewrite Hdom. lia. }
    cbn. rewrite H1. destruct (Z.leb_spec (in_nextStreamToOpen m) num); [|lia].
    destruct (Z.ltb_spec num (in_nextStreamToOpen m + Z.of_nat n)); [|lia]. cbn.
    split_and!; [lia| | |done]; intros Hx; [apply Hdel in Hx|apply Htd in Hx]; lia.
Qed.
End IncomingProofs.

(** ** The streams of this endpoint *)

Section OutgoingProofs.
Context {item : Type}.
Variable newItem : StreamNum -> item.
Variable stype : StreamType.

(** A map, and the calls of [OpenStreamSync] that returned, with the stream each one got. *)
Definition outgoing : Type := outgoingItemsMap item * list (nat * StreamNum).

(** A waiter receives from its channel, or goes on once it has the mutex. *)
Inductive wake_step : outgoing -> outgoing -> Prop :=
| wake_receive m L q1 w q2 :
    out_openQueue m = q1 ++ w :: q2 -> wt_signaled w = true ->
    wake_step (m, L) (m <| out_openQueue := q1 ++ (w <| wt_signaled := false |> <| wt_running := true |>) :: q2 |>, L)
| wake_resume m L q1 w q2 m' r :
    out_openQueue m = q1 ++ w :: q2 -> wt_running w = true ->
    sync_resume newItem (m <| out_openQueue := q1 ++ (w <| wt_running := false |>) :: q2 |>) = Ret (m', r) ->
    wake_step (m, L) (m', match r with SyncReturns (inl _) => L ++ [(wt_id w, out_nextStream m)] | _ => L end).

(** Everything that can happen before the map is closed. *)
Inductive outgoing_step : outgoing -> outgoing -> Prop :=
| outgoing_wake x y : wake_step x y -> outgoing_step x y
| outgoing_open m L m' notes r :
    OpenStream newItem stype m = (m', notes, r) -> outgoing_step (m, L) (m', L)
| outgoing_sync m L id m' notes r :
    OpenStreamSync newItem stype m id = (m', notes, r) ->
    outgoing_step (m, L) (m', match r with SyncReturns (inl _) => L ++ [(id, out_nextStream m)] | _ => L end)
| outgoing_max m L num m' : SetMaxStream m num = Ret m' -> outgoing_step (m, L) (m', L)
| outgoing_delete m L num m' : outgoing_DeleteStream m num = (m', None) -> outgoing_step (m, L) (m', L)
| outgoing_use m L (num : StreamNum) str str' :
    out_streams m !! num = Some str -> outgoing_step (m, L) (m <| out_streams := <[num := str']> (out_streams m) |>, L).

Definition idle (w : waiter) : Prop := wt_signaled w = false /\ wt_running w = false /\ wt_closed w = false.

(** Only the first waiter is ever woken, and it is woken whenever there is a stream for it. *)
Definition queue_ok (available : Prop) (queue : list waiter) : Prop :=
  match queue with
  | [] => True
  | w :: q => wt_closed w = false /\ (available -> wt_signaled w = true \/ wt_running w = true) /\ Forall idle q
  end.

Record outgoing_ok (x : outgoing) : Prop := {
  oo_closeErr : out_closeErr x.1 = None;
  oo_next : 1 <= out_nextStream x.1 <= Z.max 0 (out_maxStream x.1) + 1;
  oo_dom : forall n : StreamNum, n ∈ dom (out_streams x.1) -> 1 <= n < out_nextStream x.1;
  oo_queue : queue_ok (out_nextStream x.1 <= out_maxStream x.1) (out_openQueue x.1);
  oo_log : StronglySorted Z.lt x.2.*2 /\ Forall (fun n => 1 <= n < out_nextStream x.1) x.2.*2
}.

Lemma log_grows (L : list (nat * StreamNum)) id next :
  1 <= next -> StronglySorted Z.lt L.*2 -> Forall (fun n => 1 <= n < next) L.*2 ->
  StronglySorted Z.lt (L ++ [(id, next)]).*2 /\ Forall (fun n => 1 <= n < next + 1) (L ++ [(id, next)]).*2.
Proof.
  intros Hn Hs Hf. rewrite fmap_app. cbn. split.
  - apply StronglySorted_app_2; [|done|by repeat constructor].
    intros a b Ha [->|[]%elem_of_nil]%elem_of_cons. rewrite Forall_forall in Hf. apply Hf in Ha. lia.
  - apply Forall_app. split; [|apply Forall_singleton; lia]. eapply Forall_impl; [exact Hf|]. cbn. lia.
Qed.

(** Opening a stream that is allowed. *)
Lemma opened_ok queue streams (next : StreamNum) max blocked blocked' q L L' :
  outgoing_ok (mkOutgoing queue streams next max blocked None, L) -> next <= max ->
  queue_ok (next + 1 <= max) q -> L' = L \/ (exists id, L' = L ++ [(id, next)]) ->
  outgoing_ok (mkOutgoing q (<[next := newItem next]> streams) (next + 1) max blocked' None, L').
Proof.
  intros [_ Hn Hd _ [Hs Hf]] Hle Hq HL. cbn in *. split; cbn; try done; [lia| |].
  - intros n. rewrite dom_insert, elem_of_union, elem_of_singleton. intros [->|Hx%Hd]; lia.
  - destruct HL as [->|(id & ->)]; [|apply log_grows; [lia|done|done]].
    split; [done|]. eapply Forall_impl; [exact Hf|]. cbn. lia.
Qed.

Lemma queue_head P q1 w q2 :
  queue_ok P (q1 ++ w :: q2) -> wt_signaled w = true \/ wt_running w = true -> q1 = [].
Proof.
  destruct q1 as [|w1 q1]; [done|]. intros (_ & _ & Hf) Hw. cbn in Hf. apply Forall_app in Hf as [_ Hf].
  apply Forall_cons in Hf as [(H1 & H2 & _) _]. destruct Hw; congruence.
Qed.

(** A waiter that goes on opens its stream and wakes the next one, when there is a stream. *)
Lemma resume_serves m L w q :
  outgoing_ok (m, L) -> out_openQueue m = w :: q -> out_nextStream m <= out_maxStream m ->
  exists m' str, sync_resume newItem (m <| out_openQueue := (w <| wt_running := false |>) :: q |>) =
      Ret (m', SyncReturns (inl str)) /\
    outgoing_ok (m', L ++ [(wt_id w, out_nextStream m)]) /\
    wt_id <$> out_openQueue m' = wt_id <$> q /\
    out_nextStream m' = out_nextStream m + 1 /\ out_maxStream m' = out_maxStream m.
Proof.
  intros Hok Hqu Hle. pose proof (oo_closeErr _ Hok) as Hc. pose proof (oo_queue _ Hok) as Hq.
  destruct m as [queue streams next max blocked cerr]. cbn in *. subst cerr queue. destruct Hq as (_ & _ & Hf).
  unfold sync_resume. cbn. destruct (Z.ltb_spec max next); [lia|]. unfold unblockOpenSync. cbn.
  destruct q as [|w2 q]; cbn.
  - do 2 eexists. split; [done|]. split; [|done]. eapply opened_ok; [exact Hok|done|done|eauto].
  - apply Forall_cons in Hf as [(Hs & Hr & Hcl) Hf]. rewrite Hcl. cbn. do 2 eexists. split; [done|]. split; [|done].
    eapply opened_ok; [exact Hok|done| |eauto]. cbn. eauto.
Qed.

Lemma wake_step_ok x y : wake_step x y -> outgoing_ok x -> outgoing_ok y.
Proof.
  intros [m L q1 w q2 Hqu Hw|m L q1 w q2 m' r Hqu Hw E] Hok; pose proof (oo_queue _ Hok) as Hq; cbn in Hq; rewrite Hqu in Hq;
    pose proof (queue_head _ _ _ _ Hq ltac:(by auto)) as ->; cbn [app] in *; destruct Hq as (Hcl & Ha & Hf).
  - destruct Hok. split; try done. cbn. eauto.
  - destruct (Z.ltb_spec (out_maxStream m) (out_nextStream m)) as [Hlt|Hle].
    + destruct Hok as [Hc Hn Hd _ Hl]. unfold sync_resume in E. cbn in *. rewrite Hc in E.
      destruct (Z.ltb_spec (out_maxStream m) (out_nextStream m)); [|lia]. injection E as <- <-.
      split; try done. cbn. split; [done|]. split; [lia|done].
    + destruct (resume_serves m L w q2 Hok Hqu Hle) as (m1 & str & E1 & Hok1 & _). rewrite E1 in E. by injection E as <- <-.
Qed.

Lemma queue_ok_snoc (P : Prop) queue id : ~ P \/ queue <> [] -> queue_ok P queue -> queue_ok P (queue ++ [mkWaiter id false false false]).
Proof.
  destruct queue as [|w q]; cbn.
  - intros [HP|[]]; [|done]. naive_solver.
  - intros _ (H1 & H2 & H3). split; [done|]. split; [done|]. apply Forall_app. split; [done|]. by apply Forall_singleton.
Qed.

Lemma outgoing_step_ok x y : outgoing_step x y -> outgoing_ok x -> outgoing_ok y.
Proof.
  intros [x' y' Hw|m L m' notes r E|m L id m' notes r E|m L num m' E|m L num m' E|m L num str str' Hl] Hok;
    [by eapply wake_step_ok| | | | |]; pose proof (oo_closeErr _ Hok) as Hc; pose proof (oo_queue _ Hok) as Hq;
    destruct m as [queue streams next max blocked cerr]; cbn in Hc, Hq; subst cerr.
  - unfold OpenStream in E. cbn in E. case_if_in E.
    + unfold maybeSendBlockedFrame in E. cbn in E. destruct blocked; injection E as <- _ _; [done|]. by destruct Hok; split.
    + zbool. injection E as <- _ _. destruct queue; [|done]. eapply opened_ok; [exact Hok|done|done|by left].
  - unfold OpenStreamSync in E. cbn in E. case_if_in E.
    + zbool. injection E as <- _ <-. destruct queue; [|done]. eapply opened_ok; [exact Hok|done|done|cbn; eauto].
    + assert (queue_ok (next <= max) (queue ++ [mkWaiter id false false false])).
      { apply queue_ok_snoc; [|done]. destruct queue; [left|by right]. cbn in *. zbool. lia. }
      destruct Hok as [_ Hn Hd _ Hl]. unfold maybeSendBlockedFrame in E. cbn in E. destruct blocked; injection E as <- _ <-; by split.
  - unfold SetMaxStream in E. cbn in E. case_if_in E; [by injection E as <-|]. zbool. destruct Hok as [_ Hn Hd _ Hl]. cbn in *.
    unfold unblockOpenSync in E. cbn in E. destruct queue as [|w q]; [injection E as <-; split; cbn; try done; lia|].
    destruct Hq as (Hcl & _ & Hf). rewrite Hcl in E. injection E as <-. split; cbn; try done; [lia|eauto].
  - unfold outgoing_DeleteStream in E. cbn in E. destruct (streams !! num); [|done]. injection E as <-.
    destruct Hok as [_ Hn Hd _ Hl]. split; try done. cbn in *. intros n Hn'. apply Hd. set_solver.
  - destruct Hok as [_ Hn Hd _ Hl']. cbn in *. split; try done. cbn. intros n. rewrite dom_insert_lookup_L by (by exists str). apply Hd.
Qed.

Lemma outgoing_reachable_ok x : rtc outgoing_step (newOutgoingItemsMap, []) x -> outgoing_ok x.
Proof.
  intros Hr. assert (H0 : outgoing_ok (newOutgoingItemsMap, [])).
  { split; cbn; try done; try set_solver. split; constructor. }
  induction Hr; [done|]. eauto using outgoing_step_ok.
Qed.

(** This endpoint never opens a stream that the peer did not allow, no two calls of
    [OpenStreamSync] get the same stream, and the numbers only grow; every allowed
    stream number below the next one was handed out. Waking a waiter never panics. *)
Theorem outgoing_streams_limit m L num :
  rtc outgoing_step (newOutgoingItemsMap, []) (m, L) ->
  out_nextStream m <= Z.max 0 (out_maxStream m) + 1 /\
  (forall n, n ∈ dom (out_streams m) -> 1 <= n < out_nextStream m) /\
  StronglySorted Z.lt L.*2 /\ Forall (fun n => 1 <= n < out_nextStream m) L.*2 /\
  exists m', SetMaxStream m num = Ret m'.
Proof.
  intros [Hc Hn Hd Hq [Hs Hf]]%outgoing_reachable_ok. cbn in *. split_and!; try done; [lia|].
  unfold SetMaxStream, unblockOpenSync. cbn. case_if; [by eexists|]. destruct (out_openQueue m) as [|w q]; [by eexists|].
  destruct Hq as (-> & _). by eexists.
Qed.

(** One wake-up after the other serves the first waiter. *)
Lemma head_served m L w q :
  outgoing_ok (m, L) -> out_openQueue m = w :: q -> out_nextStream m <= out_maxStream m ->
  exists m', rtc wake_step (m, L) (m', L ++ [(wt_id w, out_nextStream m)]) /\
    outgoing_ok (m', L ++ [(wt_id w, out_nextStream m)]) /\
    wt_id <$> out_openQueue m' = wt_id <$> q /\
    out_nextStream m' = out_nextStream m + 1 /\ out_maxStream m' = out_maxStream m.
Proof.
  intros Hok Hqu Hle. pose proof (oo_queue _ Hok) as Hq. cbn in Hq. rewrite Hqu in Hq. destruct Hq as (_ & Ha & _).
  destruct (wt_running w) eqn:Hr.
  { destruct (resume_serves m L w q Hok Hqu Hle) as (m' & str & E & Hrest). exists m'. split; [|done].
    apply rtc_once. exact (wake_resume m L [] w q m' _ Hqu Hr E). }
  destruct (Ha Hle) as [Hs|]; [|done].
  set (w1 := w <| wt_signaled := false |> <| wt_running := true |>). set (m1 := m <| out_openQueue := w1 :: q |>).
  assert (S1 : wake_step (m, L) (m1, L)) by exact (wake_receive m L [] w q Hqu Hs).
  destruct (resume_serves m1 L w1 q (wake_step_ok _ _ S1 Hok) eq_refl Hle) as (m' & str & E & Hrest).
  exists m'. split; [|done]. apply (rtc_l _ _ _ _ S1), rtc_once. exact (wake_resume m1 L [] w1 q m' _ eq_refl eq_refl E).
Qed.

(** C35. No wake-up is lost, and the waiting calls are served in the order in which they
    came: when the limit allows it, the wake-ups that are pending alone let the call
    at position [i] of the queue return, with the stream [i] after the next one. *)
Theorem open_sync_served m L i id :
  rtc outgoing_step (newOutgoingItemsMap, []) (m, L) ->
  (wt_id <$> out_openQueue m) !! i = Some id -> out_nextStream m + Z.of_nat i <= out_maxStream m ->
  exists m' L', rtc wake_step (m, L) (m', L') /\ (id, out_nextStream m + Z.of_nat i) ∈ L' /\
    wt_id <$> out_openQueue m' = drop (S i) (wt_id <$> out_openQueue m).
Proof.
  intros Hok%outgoing_reachable_ok. revert m L Hok. induction i as [|i IH]; intros m L Hok Hl Hle;
    (destruct (out_openQueue m) as [|w q] eqn:Hqu; [done|]);
    destruct (head_served m L w q Hok Hqu ltac:(lia)) as (m1 & R1 & Hok1 & Hq1 & Hn1 & Hm1).
  - cbn in Hl. injection Hl as <-. exists m1, (L ++ [(wt_id w, out_nextStream m)]). split; [done|]. split; [|by cbn].
    replace (out_nextStream m + Z.of_nat 0) with (out_nextStream m) by lia. set_solver.
  - cbn in Hl. rewrite <- Hq1 in Hl. destruct (IH m1 _ Hok1 Hl ltac:(lia)) as (m2 & L2 & R2 & Hin & Hq2).
    exists m2, L2. split; [by etrans|]. rewrite Hn1 in Hin.
    replace (out_nextStream m + Z.of_nat (S i)) with (out_nextStream m + 1 + Z.of_nat i) by lia.
    split; [done|]. rewrite Hq2, Hq1. done.
Qed.
End OutgoingProofs.

(** ** Which stream a frame reaches *)

Section Typed.
Context {item : Type}.
Variable newItem : StreamNum -> item.
Variable stype : StreamType.
Variable P : StreamNum -> item -> Prop.
Hypothesis P_new : forall num, P num (newItem num).

Lemma open_streams_typed n num streams : map_Forall P streams -> map_Forall P (open_streams newItem n num streams).
Proof. revert num streams. induction n as [|n IH]; intros num streams H; [done|]. apply IH. by apply map_Forall_insert_2. Qed.

Lemma getOrOpen_typed (m : incomingItemsMap item) num :
  map_Forall P (in_streams m) ->
  map_Forall P (in_streams (GetOrOpenStream newItem m num).1) /\
  forall s, (GetOrOpenStream newItem m num).2 = inl (Some s) -> P num s.
Proof.
  intros H. unfold GetOrOpenStream. case_if; [done|]. case_if.
  - split; [done|]. cbn. case_bool_decide; [done|]. intros s [= Hs]. by apply H.
  - cbn. pose proof (open_streams_typed (Z.to_nat (num - in_nextStreamToOpen m + 1)) (in_nextStreamToOpen m) _ H) as H'.
    split; [done|]. intros s [= Hs]. by apply H'.
Qed.

Lemma deleteStream_typed (m : incomingItemsMap item) num :
  map_Forall P (in_streams m) -> map_Forall P (in_streams (deleteStream stype m num).1.1).
Proof.
  intros H. unfold deleteStream. destruct (in_streams m !! num); [|done]. case_if; [by case_bool_decide|].
  case_if; cbn; by apply map_Forall_delete.
Qed.

Lemma accept_typed (m : incomingItemsMap item) :
  map_Forall P (in_streams m) -> map_Forall P (in_streams (AcceptStream stype m).1.1).
Proof.
  intros H. unfold AcceptStream. destruct (in_closeErr m); [done|]. destruct (in_streams m !! _); [|done].
  case_bool_decide; [|done].
  match goal with |- context [deleteStream stype ?m1 ?n] => pose proof (deleteStream_typed m1 n H) as H'; destruct (deleteStream stype m1 n) as [[m' notes] [err|]] end; done.
Qed.

Lemma openStream_typed (m : outgoingItemsMap item) :
  map_Forall P (out_streams m) -> map_Forall P (out_streams (openStream newItem m).1).
Proof. intros H. by apply map_Forall_insert_2. Qed.

Lemma blocked_streams (m : outgoingItemsMap item) : out_streams (maybeSendBlockedFrame stype m).1 = out_streams m.
Proof. unfold maybeSendBlockedFrame. by destruct (out_blockedSent m). Qed.

Lemma unblock_streams (m m' : outgoingItemsMap item) : unblockOpenSync m = Ret m' -> out_streams m' = out_streams m.
Proof. unfold unblockOpenSync. destruct (out_openQueue m) as [|w q]; [by intros [= ->]|]. destruct (wt_closed w); [done|]. by intros [= <-]. Qed.

Lemma open_typed (m : outgoingItemsMap item) :
  map_Forall P (out_streams m) -> map_Forall P (out_streams (OpenStream newItem stype m).1.1).
Proof.
  intros H. unfold OpenStream. destruct (out_closeErr m); [done|]. case_if; [|by apply openStream_typed].
  pose proof (blocked_streams m) as E. destruct (maybeSendBlockedFrame stype m). cbn in *. by rewrite E.
Qed.

Lemma openSync_typed (m : outgoingItemsMap item) id :
  map_Forall P (out_streams m) -> map_Forall P (out_streams (OpenStreamSync newItem stype m id).1.1).
Proof.
  intros H. unfold OpenStreamSync. destruct (out_closeErr m); [done|]. case_if; [by apply openStream_typed|].
  match goal with |- context [maybeSendBlockedFrame stype ?m1] => pose proof (blocked_streams m1) as E; destruct (maybeSendBlockedFrame stype m1) end.
  cbn in *. by rewrite E.
Qed.

Lemma wake_typed x y :
  wake_step newItem x y -> map_Forall P (out_streams x.1) -> map_Forall P (out_streams y.1).
Proof.
  intros [m L q1 w q2 Hqu Hw|m L q1 w q2 m' r Hqu Hw E] H; [done|]. cbn in *. unfold sync_resume in E. cbn in E.
  destruct (out_closeErr m); [by injection E as <- _|]. case_if_in E; [by injection E as <- _|].
  apply outcome_bind_Ret in E as (m1 & E1 & [= <- _]). rewrite (unblock_streams _ _ E1). by apply map_Forall_insert_2.
Qed.

Lemma outgoing_delete_typed (m : outgoingItemsMap item) num :
  map_Forall P (out_streams m) -> map_Forall P (out_streams (outgoing_DeleteStream m num).1).
Proof. intros H. unfold outgoing_DeleteStream. destruct (out_streams m !! num); [|done]. by apply map_Forall_delete. Qed.

Lemma setMax_typed (m m' : outgoingItemsMap item) num :
  SetMaxStream m num = Ret m' -> map_Forall P (out_streams m) -> map_Forall P (out_streams m').
Proof. unfold SetMaxStream. intros E H. case_if_in E; [by injection E as <-|]. by rewrite (unblock_streams _ _ E). Qed.
End Typed.

Definition bidi_id (s : bidiItem) (id : StreamID) : Prop :=
  rcv_streamID (str_receiveStream s.1) = id /\ snd_streamID (str_sendStream s.1) = id.

(** A stream that has the ID with this number, type and initiator. *)
Definition bidi_at (pers : Perspective) (num : StreamNum) (s : bidiItem) : Prop :=
  bidi_id s (StreamNum_StreamID num StreamTypeBidi pers).
Definition send_at (pers : Perspective) (num : StreamNum) (s : sendItem) : Prop :=
  snd_streamID s.1 = StreamNum_StreamID num StreamTypeUni pers.
Definition receive_at (pers : Perspective) (num : StreamNum) (s : receiveItem) : Prop :=
  rcv_streamID s.1 = StreamNum_StreamID num StreamTypeUni pers.

(** Every stream is filed under the number of its ID, in the map for its type and its initiator. *)
Record streams_typed (m : streamsMap) : Prop := {
  st_outgoingBidi : map_Forall (bidi_at (sm_perspective m))
    (out_streams (sm_outgoingBidiStreams m));
  st_outgoingUni : map_Forall (send_at (sm_perspective m))
    (out_streams (sm_outgoingUniStreams m));
  st_incomingBidi : map_Forall (bidi_at (Opposite (sm_perspective m)))
    (in_streams (sm_incomingBidiStreams m));
  st_incomingUni : map_Forall (receive_at (Opposite (sm_perspective m)))
    (in_streams (sm_incomingUniStreams m))
}.

(** What happens to the map: the calls of the session and of the application, the
    calls that were waiting, and what the streams do, which keeps their ID. *)
Inductive map_step : streamsMap -> streamsMap -> Prop :=
| map_getReceive m id : map_step m (GetOrOpenReceiveStream m id).1
| map_getSend m id : map_step m (GetOrOpenSendStream m id).1
| map_delete m id : map_step m (DeleteStream m id).1.1
| map_open m : map_step m (map_OpenStream m).1.1
| map_openUni m : map_step m (map_OpenUniStream m).1.1
| map_openSync m id : map_step m (map_OpenStreamSync m id).1.1
| map_openUniSync m id : map_step m (map_OpenUniStreamSync m id).1.1
| map_wakeBidi m L o L' :
    wake_step (new_outgoing_bidi m) (sm_outgoingBidiStreams m, L) (o, L') -> map_step m (m <| sm_outgoingBidiStreams := o |>)
| map_wakeUni m L o L' :
    wake_step (new_outgoing_uni m) (sm_outgoingUniStreams m, L) (o, L') -> map_step m (m <| sm_outgoingUniStreams := o |>)
| map_accept m : map_step m (map_AcceptStream m).1.1
| map_acceptUni m : map_step m (map_AcceptUniStream m).1.1
| map_max m f m' err : HandleMaxStreamsFrame m f = Ret (m', err) -> map_step m m'
| map_limits m bidi uni m' err : UpdateLimits m bidi uni = Ret (m', err) -> map_step m m'
| map_close m err : map_step m (CloseWithError m err)
| map_useOutgoingBidi m num s s' id :
    out_streams (sm_outgoingBidiStreams m) !! num = Some s -> bidi_id s id -> bidi_id s' id ->
    map_step m (m <| sm_outgoingBidiStreams := sm_outgoingBidiStreams m <| out_streams := <[num := s']> (out_streams (sm_outgoingBidiStreams m)) |> |>)
| map_useOutgoingUni m num s s' :
    out_streams (sm_outgoingUniStreams m) !! num = Some s -> snd_streamID s'.1 = snd_streamID s.1 ->
    map_step m (m <| sm_outgoingUniStreams := sm_outgoingUniStreams m <| out_streams := <[num := s']> (out_streams (sm_outgoingUniStreams m)) |> |>)
| map_useIncomingBidi m num s s' id :
    in_streams (sm_incomingBidiStreams m) !! num = Some s -> bidi_id s id -> bidi_id s' id ->
    map_step m (m <| sm_incomingBidiStreams := sm_incomingBidiStreams m <| in_streams := <[num := s']> (in_streams (sm_incomingBidiStreams m)) |> |>)
| map_useIncomingUni m num s s' :
    in_streams (sm_incomingUniStreams m) !! num = Some s -> rcv_streamID s'.1 = rcv_streamID s.1 ->
    map_step m (m <| sm_incomingUniStreams := sm_incomingUniStreams m <| in_streams := <[num := s']> (in_streams (sm_incomingUniStreams m)) |> |>).

Lemma new_outgoing_bidi_at m num : bidi_at (sm_perspective m) num (new_outgoing_bidi m num).
Proof. done. Qed.
Lemma new_incoming_bidi_at m num : bidi_at (Opposite (sm_perspective m)) num (new_incoming_bidi m num).
Proof. done. Qed.
Lemma new_outgoing_uni_at m num : send_at (sm_perspective m) num (new_outgoing_uni m num).
Proof. done. Qed.
Lemma new_incoming_uni_at m num : receive_at (Opposite (sm_perspective m)) num (new_incoming_uni m num).
Proof. done. Qed.

Section Replace.
Variable m : streamsMap.
Hypothesis typed : streams_typed m.

Lemma typed_outgoingBidi o :
  map_Forall (bidi_at (sm_perspective m)) (out_streams o) ->
  streams_typed (m <| sm_outgoingBidiStreams := o |>).
Proof. by destruct typed; split. Qed.

Lemma typed_outgoingUni o :
  map_Forall (send_at (sm_perspective m)) (out_streams o) ->
  streams_typed (m <| sm_outgoingUniStreams := o |>).
Proof. by destruct typed; split. Qed.

Lemma typed_incomingBidi i :
  map_Forall (bidi_at (Opposite (sm_perspective m))) (in_streams i) ->
  streams_typed (m <| sm_incomingBidiStreams := i |>).
Proof. by destruct typed; split. Qed.

Lemma typed_incomingUni i :
  map_Forall (receive_at (Opposite (sm_perspective m))) (in_streams i) ->
  streams_typed (m <| sm_incomingUniStreams := i |>).
Proof. by destruct typed; split. Qed.

Lemma delete_stream_typed id : streams_typed (DeleteStream m id).1.1.
Proof.
  unfold DeleteStream. destruct (StreamID_Type id); case_bool_decide.
  - pose proof (outgoing_delete_typed _ _ (StreamID_StreamNum id) (st_outgoingUni m typed)) as H'.
    destruct (outgoing_DeleteStream _ _). by apply typed_outgoingUni.
  - pose proof (deleteStream_typed StreamTypeUni _ _ (StreamID_StreamNum id) (st_incomingUni m typed)) as H'.
    destruct (deleteStream _ _ _) as [[? ?] ?]. by apply typed_incomingUni.
  - pose proof (outgoing_delete_typed _ _ (StreamID_StreamNum id) (st_outgoingBidi m typed)) as H'.
    destruct (outgoing_DeleteStream _ _). by apply typed_outgoingBidi.
  - pose proof (deleteStream_typed StreamTypeBidi _ _ (StreamID_StreamNum id) (st_incomingBidi m typed)) as H'.
    destruct (deleteStream _ _ _) as [[? ?] ?]. by apply typed_incomingBidi.
Qed.

Lemma max_streams_typed f m' err : HandleMaxStreamsFrame m f = Ret (m', err) -> streams_typed m'.
Proof.
  unfold HandleMaxStreamsFrame. intros E. case_if_in E; [by injection E as <- _|].
  destruct (ms_Type f); apply outcome_bind_Ret in E as (o & E & [= <- _]).
  - apply typed_outgoingUni. eapply setMax_typed; [exact E|apply typed].
  - apply typed_outgoingBidi. eapply setMax_typed; [exact E|apply typed].
Qed.

Lemma limits_typed bidi uni m' err : UpdateLimits m bidi uni = Ret (m', err) -> streams_typed m'.
Proof.
  unfold UpdateLimits. intros E. case_if_in E; [by injection E as <- _|].
  apply outcome_bind_Ret in E as (b & Eb & (u & Eu & [= <- _])%outcome_bind_Ret). destruct typed. split; try done.
  - eapply setMax_typed; [exact Eb|done].
  - eapply setMax_typed; [exact Eu|done].
Qed.

Lemma close_typed err : streams_typed (CloseWithError m err).
Proof. destruct typed. split; cbn; apply map_Forall_fmap; (eapply map_Forall_impl; [eassumption|]); done. Qed.
End Replace.

Definition receiver_id (r : receiver) : StreamID :=
  match r with ReceiverUni s => rcv_streamID s.1 | ReceiverBidi s => rcv_streamID (str_receiveStream s.1) end.
Definition sender_id (s : sender) : StreamID :=
  match s with SenderUni s => snd_streamID s.1 | SenderBidi s => snd_streamID (str_sendStream s.1) end.

Lemma Opposite_neq p q : p <> q -> Opposite q = p.
Proof. by destruct p, q. Qed.

Lemma found_Some {A B} (c : A -> B) r st pers b :
  state_error (found c r st pers) = inl (Some b) -> exists s, r = inl (Some s) /\ b = c s.
Proof. destruct r as [[s|]|]; cbn; intros [= <-]. eauto. Qed.

Lemma GetStream_Some {A} (m : outgoingItemsMap A) num s : GetStream m num = inl (Some s) -> out_streams m !! num = Some s.
Proof. unfold GetStream. case_if; [done|]. by intros [= ->]. Qed.

Section Lookup.
Variable m : streamsMap.
Hypothesis typed : streams_typed m.
Variable id : StreamID.

(** What looking up an incoming bidirectional stream does, for either half. *)
Lemma incoming_bidi_found {B} (c : bidiItem -> B) :
  InitiatedBy id <> sm_perspective m -> StreamID_Type id = StreamTypeBidi ->
  let x := GetOrOpenStream (new_incoming_bidi m) (sm_incomingBidiStreams m) (StreamID_StreamNum id) in
  streams_typed (m <| sm_incomingBidiStreams := x.1 |>) /\
  (0 <= id < 2 ^ 62 -> forall b, state_error (found c x.2 StreamTypeBidi (InitiatedBy id)) = inl (Some b) ->
    exists s, b = c s /\ bidi_id s id).
Proof.
  intros Hby Hty x. destruct (getOrOpen_typed (new_incoming_bidi m) _ (new_incoming_bidi_at m) (sm_incomingBidiStreams m)
    (StreamID_StreamNum id) (st_incomingBidi m typed)) as [H1 H2].
  split; [by apply typed_incomingBidi|]. intros Hid b (s & Es & ->)%found_Some. exists s. split; [done|].
  apply H2 in Es. unfold bidi_at in Es. rewrite (Opposite_neq _ _ Hby), <- Hty in Es. by rewrite StreamNum_of_id in Es.
Qed.

Lemma outgoing_bidi_found {B} (c : bidiItem -> B) b :
  InitiatedBy id = sm_perspective m -> StreamID_Type id = StreamTypeBidi -> 0 <= id < 2 ^ 62 ->
  state_error (found c (GetStream (sm_outgoingBidiStreams m) (StreamID_StreamNum id)) StreamTypeBidi (InitiatedBy id)) = inl (Some b) ->
  exists s, b = c s /\ bidi_id s id.
Proof.
  intros Hby Hty Hid (s & Es%GetStream_Some & ->)%found_Some. exists s. split; [done|].
  apply (st_outgoingBidi m typed) in Es. unfold bidi_at in Es. rewrite <- Hby, <- Hty in Es. by rewrite StreamNum_of_id in Es.
Qed.

Lemma receive_lookup :
  streams_typed (GetOrOpenReceiveStream m id).1 /\
  (0 <= id < 2 ^ 62 -> forall r, (GetOrOpenReceiveStream m id).2 = inl (Some r) -> receiver_id r = id).
Proof.
  unfold GetOrOpenReceiveStream, getOrOpenReceiveStream.
  destruct (StreamID_Type id) eqn:Hty; (destruct (decide (InitiatedBy id = sm_perspective m)) as [Hby|Hby];
    [rewrite bool_decide_eq_true_2 by done|rewrite bool_decide_eq_false_2 by done]).
  - done.
  - destruct (getOrOpen_typed (new_incoming_uni m) _ (new_incoming_uni_at m) (sm_incomingUniStreams m) (StreamID_StreamNum id) (st_incomingUni m typed)) as [H1 H2].
    destruct (GetOrOpenStream _ _ _) as [i r]. cbn in *. split; [by apply typed_incomingUni|].
    intros Hid b (s & Es & ->)%found_Some. apply H2 in Es. cbn. unfold receive_at in Es. rewrite (Opposite_neq _ _ Hby), <- Hty in Es. by rewrite StreamNum_of_id in Es.
  - cbn. split; [done|]. intros Hid r Hr. by destruct (outgoing_bidi_found ReceiverBidi r Hby Hty Hid Hr) as (s & -> & [Hs _]).
  - destruct (incoming_bidi_found ReceiverBidi Hby Hty) as [H1 H2]. destruct (GetOrOpenStream _ _ _) as [i r']. cbn in *.
    split; [done|]. intros Hid r Hr. by destruct (H2 Hid r Hr) as (s & -> & [Hs _]).
Qed.

Lemma send_lookup :
  streams_typed (GetOrOpenSendStream m id).1 /\
  (0 <= id < 2 ^ 62 -> forall s, (GetOrOpenSendStream m id).2 = inl (Some s) -> sender_id s = id).
Proof.
  unfold GetOrOpenSendStream, getOrOpenSendStream.
  destruct (StreamID_Type id) eqn:Hty; (destruct (decide (InitiatedBy id = sm_perspective m)) as [Hby|Hby];
    [rewrite bool_decide_eq_true_2 by done|rewrite bool_decide_eq_false_2 by done]).
  - cbn. split; [done|]. intros Hid b (s & Es%GetStream_Some & ->)%found_Some. apply (st_outgoingUni m typed) in Es.
    unfold send_at in Es. cbn in *. rewrite <- Hby, <- Hty in Es. by rewrite StreamNum_of_id in Es.
  - done.
  - cbn. split; [done|]. intros Hid r Hr. by destruct (outgoing_bidi_found SenderBidi r Hby Hty Hid Hr) as (s & -> & [_ Hs]).
  - destruct (incoming_bidi_found SenderBidi Hby Hty) as [H1 H2]. destruct (GetOrOpenStream _ _ _) as [i r']. cbn in *.
    split; [done|]. intros Hid r Hr. by destruct (H2 Hid r Hr) as (s & -> & [_ Hs]).
Qed.
End Lookup.

Lemma map_step_typed m m' : map_step m m' -> streams_typed m -> streams_typed m'.
Proof.
  intros Hs Ht. pose proof Ht as [Hob Hou Hib Hiu]. destruct Hs.
  - by apply receive_lookup.
  - by apply send_lookup.
  - by apply delete_stream_typed.
  - pose proof (open_typed (new_outgoing_bidi m) StreamTypeBidi _ (new_outgoing_bidi_at m) _ Hob) as H. unfold map_OpenStream.
    destruct (OpenStream _ _ _) as [[? ?] ?]. by apply typed_outgoingBidi.
  - pose proof (open_typed (new_outgoing_uni m) StreamTypeUni _ (new_outgoing_uni_at m) _ Hou) as H. unfold map_OpenUniStream.
    destruct (OpenStream _ _ _) as [[? ?] ?]. by apply typed_outgoingUni.
  - pose proof (openSync_typed (new_outgoing_bidi m) StreamTypeBidi _ (new_outgoing_bidi_at m) _ id Hob) as H. unfold map_OpenStreamSync.
    destruct (OpenStreamSync _ _ _ _) as [[? ?] ?]. by apply typed_outgoingBidi.
  - pose proof (openSync_typed (new_outgoing_uni m) StreamTypeUni _ (new_outgoing_uni_at m) _ id Hou) as H. unfold map_OpenUniStreamSync.
    destruct (OpenStreamSync _ _ _ _) as [[? ?] ?]. by apply typed_outgoingUni.
  - apply typed_outgoingBidi; [done|]. by eapply (wake_typed (new_outgoing_bidi m) _ (new_outgoing_bidi_at m) _ (o, L')).
  - apply typed_outgoingUni; [done|]. by eapply (wake_typed (new_outgoing_uni m) _ (new_outgoing_uni_at m) _ (o, L')).
  - pose proof (accept_typed StreamTypeBidi _ _ Hib) as H. unfold map_AcceptStream.
    destruct (AcceptStream _ _) as [[? ?] ?]. by apply typed_incomingBidi.
  - pose proof (accept_typed StreamTypeUni _ _ Hiu) as H. unfold map_AcceptUniStream.
    destruct (AcceptStream _ _) as [[? ?] ?]. by apply typed_incomingUni.
  - by eapply max_streams_typed.
  - by eapply limits_typed.
  - by apply close_typed.
  - apply typed_outgoingBidi; [done|]. apply map_Forall_insert_2; [|done]. destruct (Hob _ _ H), H0, H1. split; congruence.
  - apply typed_outgoingUni; [done|]. apply map_Forall_insert_2; [|done]. etrans; [exact H0|]. exact (Hou _ _ H).
  - apply typed_incomingBidi; [done|]. apply map_Forall_insert_2; [|done]. destruct (Hib _ _ H), H0, H1. split; congruence.
  - apply typed_incomingUni; [done|]. apply map_Forall_insert_2; [|done]. etrans; [exact H0|]. exact (Hiu _ _ H).
Qed.

(** C29. A frame reaches the stream it names: whatever calls were made before, every
    stream is filed by its type, its initiator and its number, a lookup for a stream
    ID returns the half of the stream that has this ID, and a frame for the half that a
    unidirectional stream does not have is refused with STREAM_STATE_ERROR. *)
Theorem frames_reach_their_stream newFlowController bidi uni pers m id :
  rtc map_step (newStreamsMap newFlowController bidi uni pers) m -> 0 <= id < 2 ^ 62 ->
  streams_typed m /\
  (forall r, (GetOrOpenReceiveStream m id).2 = inl (Some r) -> receiver_id r = id) /\
  (forall s, (GetOrOpenSendStream m id).2 = inl (Some s) -> sender_id s = id) /\
  (StreamID_Type id = StreamTypeUni ->
   let refused A (r : option A + goerr) := exists err, r = inr (QuicError StreamStateError err) in
   if bool_decide (InitiatedBy id = sm_perspective m) then refused _ (GetOrOpenReceiveStream m id).2
   else refused _ (GetOrOpenSendStream m id).2).
Proof.
  intros Hr Hid. assert (Ht : streams_typed m).
  { assert (H0 : streams_typed (newStreamsMap newFlowController bidi uni pers)) by by split.
    induction Hr; [done|]. eauto using map_step_typed. }
  split; [done|]. split; [by apply receive_lookup|]. split; [by apply send_lookup|]. intros Hty.
  case_bool_decide as Hby.
  - unfold GetOrOpenReceiveStream, getOrOpenReceiveStream. rewrite Hty, bool_decide_eq_true_2 by done. eauto.
  - unfold GetOrOpenSendStream, getOrOpenSendStream. rewrite Hty, bool_decide_eq_false_2 by done. eauto.
Qed.

(** ** Example runs *)

(** The peer opens its only stream, which is accepted and finished. *)
Definition demo_in1 : incomingItemsMap Z := (GetOrOpenStream id (newIncomingItemsMap 1) 1).1.
Definition demo_in2 : incomingItemsMap Z := (AcceptStream StreamTypeBidi demo_in1).1.1.
Definition demo_in3 : incomingItemsMap Z := (deleteStream StreamTypeBidi demo_in2 1).1.1.

Lemma demo_in_reachable :
  rtc (incoming_step id StreamTypeBidi) (newIncomingItemsMap 1, ∅) (demo_in3, {[1]} ∪ ∅).
Proof.
  apply (rtc_l _ _ (demo_in1, ∅)).
  { apply (incoming_open _ _ _ _ 1 _ (Some 1)); [unfold MaxStreamCount; lia|vm_compute; reflexivity]. }
  apply (rtc_l _ _ (demo_in2, ∅)).
  { apply (incoming_accept _ _ demo_in1 ∅ demo_in2 [] 1). vm_compute. reflexivity. }
  apply rtc_once.
  apply (incoming_delete _ _ demo_in2 ∅ 1 demo_in3 [QueueControlFrame (FMaxStreams (mkMaxStreamsFrame StreamTypeBidi 2))]).
  vm_compute. reflexivity.
Qed.

Lemma incoming_streams_limit_witness :
  map_len (in_streams demo_in3) <= 1 /\ in_maxStream demo_in3 = 2 /\
  exists m', GetOrOpenStream id demo_in3 2 = (m', inl (Some 2)).
Proof.
  destruct (incoming_streams_limit id StreamTypeBidi 1 demo_in3 ({[1]} ∪ ∅) 2) as (H1 & H2 & _);
    [unfold MaxStreamCount; lia|exact demo_in_reachable|lia|].
  split; [exact H1|]. split; [exact H2|]. eexists. vm_compute. reflexivity.
Defined.

(** Two calls wait for the limit to be raised. *)
Definition demo_out1 : outgoingItemsMap Z := (OpenStreamSync id StreamTypeUni newOutgoingItemsMap 7).1.1.
Definition demo_out2 : outgoingItemsMap Z := (OpenStreamSync id StreamTypeUni demo_out1 8).1.1.
Definition demo_out3 : outgoingItemsMap Z :=
  match SetMaxStream demo_out2 5 with Ret m => m | _ => demo_out2 end.

Lemma demo_out_reachable : rtc (outgoing_step id StreamTypeUni) (newOutgoingItemsMap, []) (demo_out3, []).
Proof.
  apply (rtc_l _ _ (demo_out1, [])).
  { exact (outgoing_sync id StreamTypeUni newOutgoingItemsMap [] 7 demo_out1 _ _ eq_refl). }
  apply (rtc_l _ _ (demo_out2, [])).
  { exact (outgoing_sync id StreamTypeUni demo_out1 [] 8 demo_out2 _ _ eq_refl). }
  apply rtc_once. apply (outgoing_max _ _ _ _ 5). vm_compute. reflexivity.
Qed.

Lemma outgoing_streams_limit_witness :
  out_nextStream demo_out3 = 1 /\ exists m', SetMaxStream demo_out3 6 = Ret m'.
Proof.
  destruct (outgoing_streams_limit id StreamTypeUni demo_out3 [] 6 demo_out_reachable) as (_ & _ & _ & _ & H).
  split; [reflexivity|exact H].
Defined.

Lemma open_sync_served_witness :
  exists m' L', rtc (wake_step id) (demo_out3, []) (m', L') /\ (8%nat, 2) ∈ L' /\ out_openQueue m' = [].
Proof.
  destruct (open_sync_served id StreamTypeUni demo_out3 [] 1 8 demo_out_reachable) as (m' & L' & R & Hin & Hq);
    [reflexivity|vm_compute; discriminate|].
  exists m', L'. split; [exact R|]. split; [exact Hin|]. destruct (out_openQueue m'); [reflexivity|discriminate Hq].
Defined.

(** A client that opened its first stream. *)
Definition demo_map0 : streamsMap := newStreamsMap (fun id => NewStreamFlowController id 100 1000 50) 10 10 PerspectiveClient.
Definition demo_map1 : streamsMap := match UpdateLimits demo_map0 3 3 with Ret (m, _) => m | _ => demo_map0 end.
Definition demo_map2 : streamsMap := (map_OpenStream demo_map1).1.1.

Lemma demo_map_reachable : rtc map_step demo_map0 demo_map2.
Proof.
  apply (rtc_l _ _ demo_map1); [apply (map_limits _ 3 3 _ None); reflexivity|]. apply rtc_once, map_open.
Qed.

Lemma frames_reach_their_stream_witness :
  (exists r, (GetOrOpenReceiveStream demo_map2 0).2 = inl (Some r) /\ receiver_id r = 0) /\
  exists err, (GetOrOpenSendStream demo_map2 3).2 = inr (QuicError StreamStateError err).
Proof.
  destruct (frames_reach_their_stream _ 10 10 PerspectiveClient demo_map2 0 demo_map_reachable) as (_ & H & _); [lia|].
  destruct (frames_reach_their_stream _ 10 10 PerspectiveClient demo_map2 3 demo_map_reachable) as (_ & _ & _ & H3); [lia|].
  split; [|exact (H3 eq_refl)]. eexists. split; [reflexivity|]. apply H. reflexivity.
Defined.
