(* ===== verification/RTTStats.v ===== *)
(** * Round-trip statistics (internal/congestion/rtt_stats.go)

    The estimates of the round-trip time that the loss recovery and the flow
    control read. *)

From S2P Require Import Prelude GoFloat Protocol.

Definition rttAlpha : float := fconst32 1 8.
Definition oneMinusAlpha : float := fconst32 7 8.
Definition rttBeta : float := fconst32 1 4.
Definition oneMinusBeta : float := fconst32 3 4.
Definition defaultInitialRTT : duration := 100 * Millisecond.
Definition InfDuration : duration := MaxInt64.

Record RTTStats := mkRTTStats {
  minRTT : duration;
  latestRTT : duration;
  smoothedRTT : duration;
  meanDeviation : duration
}.

#[global] Instance RTTStats_eta : Eta RTTStats := fun r =>
  mkRTTStats (minRTT r) (latestRTT r) (smoothedRTT r) (meanDeviation r).

Definition NewRTTStats : RTTStats := mkRTTStats 0 0 0 0.

Definition SmoothedOrInitialRTT (r : RTTStats) : duration :=
  if negb (smoothedRTT r =? 0) then smoothedRTT r else defaultInitialRTT.

Section RTT.
Context `{FloatConv}.

(** [time.Duration(x) * time.Microsecond] for a float [x]. *)
Definition microseconds (x : float) : duration := int64 (f2int64 x * Microsecond).

Definition UpdateRTT (r : RTTStats) (sendDelta ackDelay : duration) : RTTStats :=
  if (sendDelta =? InfDuration) || (sendDelta <=? 0) then r else
  (* Update r.minRTT first. *)
  let r := if (minRTT r =? 0) || (sendDelta <? minRTT r) then r <| minRTT := sendDelta |> else r in
  (* Correct for ackDelay if information received from the peer results in a
     an RTT sample at least as large as minRTT. *)
  let sample := sendDelta in
  let sample := if ackDelay <=? int64 (sample - minRTT r) then int64 (sample - ackDelay) else sample in
  let r := r <| latestRTT := sample |> in
  (* First time call. *)
  if smoothedRTT r =? 0 then
    r <| smoothedRTT := sample |> <| meanDeviation := Z.quot sample 2 |>
  else
    let r := r <| meanDeviation := microseconds
      (fadd32 (fmul32 oneMinusBeta (float32 (Z.quot (meanDeviation r) Microsecond)))
         (fmul32 rttBeta (float32 (Z.quot (AbsDuration (int64 (smoothedRTT r - sample))) Microsecond)))) |> in
    r <| smoothedRTT := microseconds
      (fadd32 (fmul32 (float32 (Z.quot (smoothedRTT r) Microsecond)) oneMinusAlpha)
         (fmul32 (float32 (Z.quot sample Microsecond)) rttAlpha)) |>.

Definition OnConnectionMigration (r : RTTStats) : RTTStats :=
  r <| latestRTT := 0 |> <| minRTT := 0 |> <| smoothedRTT := 0 |> <| meanDeviation := 0 |>.

Definition ExpireSmoothedMetrics (r : RTTStats) : RTTStats :=
  let r := r <| meanDeviation :=
    MaxDuration (meanDeviation r) (AbsDuration (int64 (smoothedRTT r - latestRTT r))) |> in
  r <| smoothedRTT := MaxDuration (smoothedRTT r) (latestRTT r) |>.

End RTT.

(** ** Samples *)

(** A sequence of samples (send delta and ack delay). *)
Definition update_all `{FloatConv} (r : RTTStats) (samples : list (duration * duration)) : RTTStats :=
  foldl (fun r s => UpdateRTT r s.1 s.2) r samples.

(** The samples that count. *)
Definition valid_sample (s : duration * duration) : Prop := 0 < s.1 < InfDuration.
#[global] Instance valid_sample_dec s : Decision (valid_sample s).
Proof. unfold valid_sample. apply _. Defined.

Section Samples.
Context `{FloatConv}.

Lemma UpdateRTT_min r d a :
  0 < d < InfDuration -> 0 <= minRTT r ->
  minRTT (UpdateRTT r d a) = if minRTT r =? 0 then d else Z.min (minRTT r) d.
Proof.
  intros Hd Hm. unfold UpdateRTT.
  rewrite (proj2 (Z.eqb_neq d _)), (proj2 (Z.leb_gt d 0)) by lia. cbn [orb].
  set (r1 := if (minRTT r =? 0) || (d <? minRTT r) then _ else r).
  assert (E : minRTT r1 = if minRTT r =? 0 then d else Z.min (minRTT r) d).
  { unfold r1. destruct (Z.eqb_spec (minRTT r) 0); cbn [orb]; [done|].
    destruct (Z.ltb_spec d (minRTT r)); cbn; lia. }
  clearbody r1. rewrite <- E. case_if; done.
Qed.

Lemma UpdateRTT_latest r d a :
  0 < d < InfDuration -> 0 <= minRTT r -> 0 <= a ->
  let r' := UpdateRTT r d a in minRTT r' <= latestRTT r' <= d.
Proof.
  intros Hd Hm Ha r'. pose proof (UpdateRTT_min r d a Hd Hm) as E. fold r' in E.
  assert (Hmin : 0 < minRTT r' <= d) by (rewrite E; destruct (Z.eqb_spec (minRTT r) 0); lia).
  assert (El : latestRTT r' = if a <=? d - minRTT r' then d - a else d).
  { unfold r', UpdateRTT in *. unfold InfDuration, MaxInt64 in *.
    rewrite (proj2 (Z.eqb_neq d _)), (proj2 (Z.leb_gt d 0)) in * by lia. cbn [orb] in *.
    set (r1 := if (minRTT r =? 0) || (d <? minRTT r) then _ else r) in *. clearbody r1.
    destruct (smoothedRTT _ =? 0); cbn in *; rewrite (int64_id (d - minRTT r1)) by go_range;
      (destruct (Z.leb_spec a (d - minRTT r1)); [rewrite int64_id by go_range|]; done). }
  rewrite El. destruct (Z.leb_spec a (d - minRTT r')); lia.
Qed.

Lemma UpdateRTT_invalid r d a : ~ (0 < d < InfDuration) -> d <= InfDuration -> UpdateRTT r d a = r.
Proof. intros Hd Hi. unfold UpdateRTT. case_if; [done|]. zbool. lia. Qed.

(** Over any sequence of samples, [minRTT] is the smallest send delta that
    counts (positive and finite), and zero exactly when there is none; the ack
    delay reported by the peer never makes the latest sample smaller than it. *)
Theorem min_rtt_is_minimum (samples : list (duration * duration)) :
  Forall (fun s => s.1 <= InfDuration /\ 0 <= s.2) samples ->
  let r := update_all NewRTTStats samples in
  (minRTT r = 0 <-> forall s, s ∈ samples -> ~ valid_sample s) /\
  (forall s, s ∈ samples -> valid_sample s -> minRTT r <= s.1) /\
  (minRTT r <> 0 -> exists s, s ∈ samples /\ valid_sample s /\ minRTT r = s.1) /\
  0 <= minRTT r <= latestRTT r.
Proof.
  induction samples as [|s samples IH] using rev_ind; intros Hall; [set_solver by lia|].
  apply Forall_app in Hall as [Hall Hs]. inversion_clear Hs as [|? ? [Hinf Ha] _].
  unfold update_all. rewrite foldl_app. cbn [foldl]. fold (update_all NewRTTStats samples).
  specialize (IH Hall). cbv zeta in IH. set (r := update_all NewRTTStats samples) in *. clearbody r.
  destruct IH as (I1 & I2 & I3 & I4). destruct (decide (valid_sample s)) as [Hv|Hv].
  - pose proof (UpdateRTT_min r s.1 s.2 Hv ltac:(lia)) as Em.
    pose proof (UpdateRTT_latest r s.1 s.2 Hv ltac:(lia) Ha) as El. cbv zeta in El.
    set (r' := UpdateRTT r s.1 s.2) in *. clearbody r'. unfold valid_sample in Hv.
    destruct (Z.eqb_spec (minRTT r) 0) as [E0|E0].
    + split_and!; try lia.
      * split; [lia|]. intros Hn. by destruct (Hn s ltac:(set_solver)).
      * intros t [Ht|Ht]%elem_of_app Hvt; [by destruct (proj1 I1 E0 t Ht)|].
        apply list_elem_of_singleton in Ht as ->. lia.
      * intros _. exists s. split; [set_solver|]. split; [done|lia].
    + split_and!; try lia.
      * split; [lia|]. intros Hn. by destruct (Hn s ltac:(set_solver)).
      * intros t [Ht|Ht]%elem_of_app Hvt; [specialize (I2 t Ht Hvt); lia|].
        apply list_elem_of_singleton in Ht as ->. lia.
      * intros _. destruct (Z.le_gt_cases (minRTT r) s.1).
        -- destruct (I3 E0) as (t & Ht & Hvt & Et). exists t. split; [set_solver|]. split; [done|lia].
        -- exists s. split; [set_solver|]. split; [done|lia].
  - rewrite UpdateRTT_invalid by done. split_and!; try lia.
    + rewrite I1. split; intros Hn t Ht; [|apply Hn; set_solver].
      apply elem_of_app in Ht as [Ht| ->%list_elem_of_singleton]; [by apply Hn|done].
    + intros t [Ht| ->%list_elem_of_singleton]%elem_of_app Hvt; [by apply I2|done].
    + intros E0. destruct (I3 E0) as (t & Ht & ?). exists t. split; [set_solver|done].
Qed.

End Samples.

Lemma min_rtt_is_minimum_witness :
  minRTT (@update_all amd64 NewRTTStats [(30 * Millisecond, 0); (-1, 0); (20 * Millisecond, 5 * Millisecond)]) <=
    30 * Millisecond.
Proof.
  refine (proj1 (proj2 (@min_rtt_is_minimum amd64
    [(30 * Millisecond, 0); (-1, 0); (20 * Millisecond, 5 * Millisecond)] _)) (30 * Millisecond, 0) _ _).
  - repeat constructor; done.
  - left.
  - done.
Defined.
