(* ===== verification/SentHistory.v ===== *)
(** * The history of sent packets (internal/ackhandler)

    sent_packet_history.go, packet.go and packet_number_generator.go: the
    packets in flight of one packet number space, and the numbers of the packets
    to come.  A packet number is used once, so that a packet is identified by its
    number: the map from numbers to list elements is the lookup in the list, and
    a pointer to an element is its number. *)

From Stdlib Require Import Sorted.
From S2P Require Import Prelude Protocol AckFrame Frames.

(** ** packet.go *)

(** [type Packet struct] *)
Record SentPacket := mkSentPacket {
  sp_PacketNumber : PacketNumber;
  sp_PacketType : Z;
  sp_Ack : option AckFrame;
  sp_Frames : list Frame;
  sp_Length : ByteCount;
  sp_EncryptionLevel : EncryptionLevel;
  sp_SendTime : time;
  (* if the packet contains an ACK, the LargestAcked value of that ACK *)
  sp_largestAcked : PacketNumber;
  sp_canBeRetransmitted : bool;
  sp_includedInBytesInFlight : bool;
  sp_retransmittedAs : list PacketNumber;
  sp_isRetransmission : bool;
  sp_retransmissionOf : PacketNumber
}.

#[global] Instance SentPacket_eta : Eta SentPacket := fun p =>
  mkSentPacket (sp_PacketNumber p) (sp_PacketType p) (sp_Ack p) (sp_Frames p) (sp_Length p)
    (sp_EncryptionLevel p) (sp_SendTime p) (sp_largestAcked p) (sp_canBeRetransmitted p)
    (sp_includedInBytesInFlight p) (sp_retransmittedAs p) (sp_isRetransmission p) (sp_retransmissionOf p).

(** ** sent_packet_history.go *)

Record sentPacketHistory := mkSentHistory {
  sh_packets : list SentPacket;
  sh_numOutstandingPackets : Z;
  sh_firstOutstanding : option PacketNumber
}.

#[global] Instance sentHistory_eta : Eta sentPacketHistory := fun h =>
  mkSentHistory (sh_packets h) (sh_numOutstandingPackets h) (sh_firstOutstanding h).

Definition newSentPacketHistory : sentPacketHistory := mkSentHistory [] 0 None.

(** The element with a number, and the change of an element in place. *)
Definition has_number (pn : PacketNumber) (p : SentPacket) : bool := sp_PacketNumber p =? pn.
Definition find_packet (pn : PacketNumber) (l : list SentPacket) : option SentPacket :=
  List.find (has_number pn) l.
Definition update_packet (pn : PacketNumber) (f : SentPacket -> SentPacket) (l : list SentPacket) :
    list SentPacket :=
  map (fun p => if has_number pn p then f p else p) l.

(** [sentPacketImpl] *)
Definition history_sent (h : sentPacketHistory) (p : SentPacket) : sentPacketHistory :=
  let h := h <| sh_packets := sh_packets h ++ [p] |> in
  let h := match sh_firstOutstanding h with
           | None => h <| sh_firstOutstanding := Some (sp_PacketNumber p) |>
           | Some _ => h
           end in
  if sp_canBeRetransmitted p
  then h <| sh_numOutstandingPackets := sh_numOutstandingPackets h + 1 |> else h.

Definition history_SentPacketsAsRetransmission (h : sentPacketHistory) (packets : list SentPacket)
    (retransmissionOf : PacketNumber) : sentPacketHistory :=
  match find_packet retransmissionOf (sh_packets h) with
  | None =>
      (* The retransmitted packet is not present anymore.
         Just treat the retransmissions as normal packets. *)
      foldl history_sent h packets
  | Some _ =>
      let h := h <| sh_packets := update_packet retransmissionOf
        (fun p => p <| sp_retransmittedAs := map sp_PacketNumber packets |>) (sh_packets h) |> in
      foldl (fun h packet => history_sent h
        (packet <| sp_isRetransmission := true |> <| sp_retransmissionOf := retransmissionOf |>)) h packets
  end.

Definition GetPacket (h : sentPacketHistory) (pn : PacketNumber) : option SentPacket :=
  find_packet pn (sh_packets h).

Definition FirstOutstanding (h : sentPacketHistory) : option SentPacket :=
  pn ← sh_firstOutstanding h; find_packet pn (sh_packets h).

(** [el.Next()] and what follows. *)
Fixpoint packets_after (pn : PacketNumber) (l : list SentPacket) : list SentPacket :=
  match l with
  | [] => []
  | p :: l => if has_number pn p then l else packets_after pn l
  end.

(** [readjustFirstOutstanding], for the first outstanding packet [pn]. *)
Definition readjustFirstOutstanding (h : sentPacketHistory) (pn : PacketNumber) : sentPacketHistory :=
  h <| sh_firstOutstanding :=
    sp_PacketNumber <$> List.find sp_canBeRetransmitted (packets_after pn (sh_packets h)) |>.

Definition is_first (h : sentPacketHistory) (pn : PacketNumber) : bool :=
  bool_decide (sh_firstOutstanding h = Some pn).

Definition decrement_outstanding (h : sentPacketHistory) : outcome sentPacketHistory :=
  let h := h <| sh_numOutstandingPackets := sh_numOutstandingPackets h - 1 |> in
  if sh_numOutstandingPackets h <? 0 then Panic "numOutstandingHandshakePackets negative" else Ret h.

Definition MarkCannotBeRetransmitted (h : sentPacketHistory) (pn : PacketNumber) :
    outcome (sentPacketHistory * option goerr) :=
  match find_packet pn (sh_packets h) with
  | None => mret (h, Some (Errorf "sent packet history: packet %d not found" [pn]))
  | Some p =>
      h ← (if sp_canBeRetransmitted p then decrement_outstanding h else mret h);
      let h := h <| sh_packets := update_packet pn (fun p => p <| sp_canBeRetransmitted := false |>) (sh_packets h) |> in
      mret (if is_first h pn then readjustFirstOutstanding h pn else h, None)
  end.

Definition history_Len (h : sentPacketHistory) : Z := Z.of_nat (length (sh_packets h)).

Definition history_Remove (h : sentPacketHistory) (pn : PacketNumber) :
    outcome (sentPacketHistory * option goerr) :=
  match find_packet pn (sh_packets h) with
  | None => mret (h, Some (Errorf "packet %d not found in sent packet history" [pn]))
  | Some p =>
      let h := if is_first h pn then readjustFirstOutstanding h pn else h in
      h ← (if sp_canBeRetransmitted p then decrement_outstanding h else mret h);
      mret (h <| sh_packets := List.filter (fun p => negb (has_number pn p)) (sh_packets h) |>, None)
  end.

Definition HasOutstandingPackets (h : sentPacketHistory) : bool := 0 <? sh_numOutstandingPackets h.

(** ** packet_number_generator.go *)

Definition SkipPacketAveragePeriodLength : PacketNumber := 500.
Definition MaxTrackedSkippedPackets : Z := 10.

Record packetNumberGenerator := mkGenerator {
  pg_averagePeriod : PacketNumber;
  pg_next : PacketNumber;
  pg_nextToSkip : PacketNumber;
  pg_history : list PacketNumber
}.

#[global] Instance generator_eta : Eta packetNumberGenerator := fun g =>
  mkGenerator (pg_averagePeriod g) (pg_next g) (pg_nextToSkip g) (pg_history g).

(** [num] is what [getRandomNumber] returns, a number of 16 bits. *)
Definition generateNewSkip (g : packetNumberGenerator) (num : Z) : packetNumberGenerator :=
  let skip := Z.quot (num * (pg_averagePeriod g - 1)) (65535 / 2) in
  (* make sure that there are never two consecutive packet numbers that are skipped *)
  g <| pg_nextToSkip := int64 (pg_next g + 2 + skip) |>.

Definition newPacketNumberGenerator (initial averagePeriod : PacketNumber) (num : Z) : packetNumberGenerator :=
  generateNewSkip (mkGenerator averagePeriod initial 0 []) num.

(** [Pop]; [num] is the random number it may need. *)
Definition generator_Pop (g : packetNumberGenerator) (num : Z) : packetNumberGenerator * PacketNumber :=
  let next := pg_next g in
  (* generate a new packet number for the next packet *)
  let g := g <| pg_next := int64 (next + 1) |> in
  let g :=
    if pg_next g =? pg_nextToSkip g then
      let g := if MaxTrackedSkippedPackets <? Z.of_nat (length (pg_history g)) + 1
               then g <| pg_history := tail (pg_history g) |> else g in
      let g := g <| pg_history := pg_history g ++ [pg_next g] |> in
      let g := g <| pg_next := int64 (pg_next g + 1) |> in
      generateNewSkip g num
    else g in
  (g, next).

(** [Validate]: no packet number that was skipped is acknowledged. *)
Fixpoint validate_loop (ack : AckFrame) (l : list PacketNumber) : outcome bool :=
  match l with
  | [] => mret true
  | pn :: l => b ← AcksPacket ack pn; if b : bool then mret false else validate_loop ack l
  end.
Definition Validate (g : packetNumberGenerator) (ack : AckFrame) : outcome bool :=
  validate_loop ack (pg_history g).

(** ** Properties of the history *)

(** Sorted by packet number; the counter and the pointer describe the list. *)
Record history_ok (h : sentPacketHistory) : Prop := {
  hk_sorted : StronglySorted Z.lt (map sp_PacketNumber (sh_packets h));
  hk_count : sh_numOutstandingPackets h = Z.of_nat (length (List.filter sp_canBeRetransmitted (sh_packets h)));
  hk_first : sh_firstOutstanding h = sp_PacketNumber <$> List.find sp_canBeRetransmitted (sh_packets h)
}.

Definition numbers (l : list SentPacket) : list PacketNumber := map sp_PacketNumber l.

Lemma sorted_app (l1 l2 : list Z) :
  StronglySorted Z.lt (l1 ++ l2) <->
  StronglySorted Z.lt l1 /\ StronglySorted Z.lt l2 /\ forall x y, x ∈ l1 -> y ∈ l2 -> x < y.
Proof.
  induction l1 as [|a l1 IH]; cbn.
  - split; [|tauto]. intros. split; [constructor|]. split; [done|]. set_solver.
  - split.
    + inversion_clear 1 as [|? ? Hs Hf]. apply IH in Hs as (H1 & H2 & H3). rewrite Forall_app in Hf.
      destruct Hf as [Hf1 Hf2]. rewrite Forall_forall in Hf2. split; [by constructor|]. split; [done|].
      intros x y [->|Hx]%elem_of_cons Hy; auto.
    + intros (Hs & H2 & H3). inversion_clear Hs as [|? ? Hs1 Hf]. constructor; [apply IH; set_solver|].
      apply Forall_app. split; [done|]. apply Forall_forall. intros y Hy. apply H3; set_solver.
Qed.

Lemma has_number_true pn p : has_number pn p = true <-> sp_PacketNumber p = pn.
Proof. unfold has_number. apply Z.eqb_eq. Qed.

(** The list around the packet with a number. *)
Lemma find_packet_split pn l p :
  StronglySorted Z.lt (numbers l) -> find_packet pn l = Some p ->
  exists l1 l2, l = l1 ++ p :: l2 /\ sp_PacketNumber p = pn /\
    (forall q, q ∈ l1 -> sp_PacketNumber q < pn) /\ (forall q, q ∈ l2 -> pn < sp_PacketNumber q).
Proof.
  unfold find_packet. intros Hs Hf. pose proof (List.find_some _ _ Hf) as [Hin Hn].
  apply has_number_true in Hn. apply list_elem_of_In, list_elem_of_split in Hin as (l1 & l2 & ->).
  unfold numbers in Hs. rewrite map_app in Hs. cbn in Hs. apply sorted_app in Hs as (_ & H2 & H3).
  inversion_clear H2 as [|? ? _ Hl2]. rewrite Forall_forall in Hl2.
  exists l1, l2. split_and!; [done|done|..]; rewrite <- Hn.
  - intros q Hq. apply H3; [by apply list_elem_of_fmap_2|set_solver].
  - intros q Hq. apply Hl2. by apply list_elem_of_fmap_2.
Qed.

Lemma find_packet_elem l p :
  StronglySorted Z.lt (numbers l) -> p ∈ l -> find_packet (sp_PacketNumber p) l = Some p.
Proof.
  intros Hs Hp. unfold find_packet. induction l as [|q l IH]; [set_solver|]. cbn in *.
  inversion_clear Hs as [|? ? Hs' Hf]. rewrite Forall_forall in Hf. apply elem_of_cons in Hp as [->|Hp].
  - by rewrite (proj2 (has_number_true _ _) eq_refl).
  - unfold has_number at 1. specialize (Hf (sp_PacketNumber p)). rewrite (proj2 (Z.eqb_neq _ _)).
    + by apply IH.
    + assert (sp_PacketNumber p ∈ numbers l) by (by apply list_elem_of_fmap_2). specialize (Hf ltac:(done)). lia.
Qed.

Section Split.
Context (pn : PacketNumber) (l1 l2 : list SentPacket) (p : SentPacket).
Hypothesis (Hp : sp_PacketNumber p = pn).
Hypothesis (H1 : forall q, q ∈ l1 -> sp_PacketNumber q < pn).
Hypothesis (H2 : forall q, q ∈ l2 -> pn < sp_PacketNumber q).

Lemma has_number_split :
  has_number pn p = true /\ (forall q, q ∈ l1 -> has_number pn q = false) /\
  (forall q, q ∈ l2 -> has_number pn q = false).
Proof.
  split; [by apply has_number_true|]. split; intros q Hq; apply Z.eqb_neq; [specialize (H1 q Hq)|specialize (H2 q Hq)]; lia.
Qed.

Lemma update_packet_out f l : (forall q, q ∈ l -> has_number pn q = false) -> update_packet pn f l = l.
Proof.
  intros Hl. unfold update_packet. induction l as [|q l IH]; [done|]. cbn.
  rewrite (Hl q), IH by set_solver. done.
Qed.

Lemma update_packet_split f : update_packet pn f (l1 ++ p :: l2) = l1 ++ f p :: l2.
Proof.
  destruct has_number_split as (Hn & Hl1 & Hl2). unfold update_packet. rewrite map_app. cbn. rewrite Hn.
  fold (update_packet pn f l1). fold (update_packet pn f l2). by rewrite !update_packet_out by done.
Qed.

Lemma remove_packet_out l :
  (forall q, q ∈ l -> has_number pn q = false) -> List.filter (fun q => negb (has_number pn q)) l = l.
Proof. intros Hl. induction l as [|q l IH]; [done|]. cbn. rewrite (Hl q) by set_solver. cbn. rewrite IH; set_solver. Qed.

Lemma remove_packet_split : List.filter (fun q => negb (has_number pn q)) (l1 ++ p :: l2) = l1 ++ l2.
Proof.
  destruct has_number_split as (Hn & Hl1 & Hl2). rewrite List.filter_app. cbn. rewrite Hn. cbn.
  by rewrite !remove_packet_out.
Qed.

Lemma packets_after_split : packets_after pn (l1 ++ p :: l2) = l2.
Proof.
  destruct has_number_split as (Hn & Hl1 & _). clear -Hn Hl1. induction l1 as [|q l IH]; cbn; [by rewrite Hn|].
  rewrite (Hl1 q) by set_solver. apply IH. set_solver.
Qed.

Lemma find_app (f : SentPacket -> bool) l l' :
  List.find f (l ++ l') = match List.find f l with Some q => Some q | None => List.find f l' end.
Proof. induction l as [|q l IH]; cbn; [done|]. by destruct (f q). Qed.

(** [p] is the first outstanding packet when none before it is outstanding. *)
Lemma is_first_split h :
  history_ok h -> sh_packets h = l1 ++ p :: l2 ->
  is_first h pn = match List.find sp_canBeRetransmitted l1 with Some _ => false | None => sp_canBeRetransmitted p end.
Proof.
  intros [_ _ Hf] El. unfold is_first. rewrite Hf, El, find_app.
  destruct (List.find sp_canBeRetransmitted l1) as [q|] eqn:E; cbn.
  - apply List.find_some in E as [Hq _]. apply list_elem_of_In, H1 in Hq. apply bool_decide_eq_false. intros [= E0]; lia.
  - destruct (sp_canBeRetransmitted p) eqn:Ec; cbn; [apply bool_decide_eq_true; by rewrite Hp|].
    apply bool_decide_eq_false. destruct (List.find _ l2) as [q|] eqn:Eq; cbn; [|done].
    apply List.find_some in Eq as [Hq _]. apply list_elem_of_In, H2 in Hq. intros [= E0]; lia.
Qed.

End Split.

(** The number of outstanding packets. *)
Definition outstanding (l : list SentPacket) : Z := Z.of_nat (length (List.filter sp_canBeRetransmitted l)).
Definition b2z (b : bool) : Z := if b then 1 else 0.

Lemma outstanding_app l1 l2 : outstanding (l1 ++ l2) = outstanding l1 + outstanding l2.
Proof. unfold outstanding. rewrite List.filter_app, length_app. lia. Qed.

Lemma outstanding_cons p l : outstanding (p :: l) = b2z (sp_canBeRetransmitted p) + outstanding l.
Proof. unfold outstanding. cbn. destruct (sp_canBeRetransmitted p); cbn; lia. Qed.

Lemma outstanding_nonneg l : 0 <= outstanding l.
Proof. unfold outstanding. lia. Qed.

Lemma history_sent_ok h p :
  history_ok h -> sp_canBeRetransmitted p = true -> (forall q, q ∈ sh_packets h -> sp_PacketNumber q < sp_PacketNumber p) ->
  history_ok (history_sent h p) /\ sh_packets (history_sent h p) = sh_packets h ++ [p].
Proof.
  intros [Hs Hc Hf] Hp Hlt. unfold history_sent. cbn [sh_firstOutstanding over]. cbv zeta. rewrite Hp.
  assert (Hso : StronglySorted Z.lt (map sp_PacketNumber (sh_packets h ++ [p]))).
  { rewrite map_app. apply sorted_app. split_and!; [done|repeat constructor|].
    intros x y (q & -> & Hq)%list_elem_of_fmap ->%list_elem_of_singleton. auto. }
  assert (Hco : outstanding (sh_packets h ++ [p]) = sh_numOutstandingPackets h + 1).
  { rewrite outstanding_app, outstanding_cons, Hp, Hc. unfold outstanding at 2. cbn. fold (outstanding (sh_packets h)). lia. }
  change (sh_firstOutstanding (h <| sh_packets := sh_packets h ++ [p] |>)) with (sh_firstOutstanding h).
  destruct (sh_firstOutstanding h) as [f|] eqn:Ef; (split; [|done]); split; cbn; try done.
  - rewrite find_app. destruct (List.find _ (sh_packets h)); [|done]. by rewrite Ef.
  - rewrite find_app. destruct (List.find _ (sh_packets h)); [done|]. cbn. by rewrite Hp.
Qed.

(** One outstanding packet less. *)
Lemma decrement_ok h l1 p l2 :
  history_ok h -> sh_packets h = l1 ++ p :: l2 -> sp_canBeRetransmitted p = true ->
  forall h', sh_numOutstandingPackets h' = sh_numOutstandingPackets h ->
  decrement_outstanding h' = Ret (h' <| sh_numOutstandingPackets := outstanding l1 + outstanding l2 |>).
Proof.
  intros [_ Hc _] El Hp h' En. unfold decrement_outstanding. cbn -[Z.sub].
  assert (E : sh_numOutstandingPackets h' - 1 = outstanding l1 + outstanding l2).
  { rewrite En, Hc, El. fold (outstanding (l1 ++ p :: l2)). rewrite outstanding_app, outstanding_cons, Hp. cbn. lia. }
  rewrite E. pose proof (outstanding_nonneg l1). pose proof (outstanding_nonneg l2). by rewrite (proj2 (Z.ltb_ge _ _)) by lia.
Qed.

Definition no_retransmit (p : SentPacket) : SentPacket := p <| sp_canBeRetransmitted := false |>.

Lemma MarkCannotBeRetransmitted_ok h pn p :
  history_ok h -> find_packet pn (sh_packets h) = Some p ->
  exists h', MarkCannotBeRetransmitted h pn = Ret (h', None) /\ history_ok h' /\
    sh_packets h' = update_packet pn no_retransmit (sh_packets h).
Proof.
  intros Hok Hfind. pose proof (hk_sorted _ Hok) as Hs.
  destruct (find_packet_split pn _ p Hs Hfind) as (l1 & l2 & El & Hp & H1 & H2).
  unfold MarkCannotBeRetransmitted. rewrite Hfind.
  assert (Hn : (if sp_canBeRetransmitted p then decrement_outstanding h else mret h) =
    Ret (h <| sh_numOutstandingPackets := outstanding l1 + outstanding l2 |>)).
  { destruct (sp_canBeRetransmitted p) eqn:Ec; [by apply (decrement_ok h l1 p l2)|]. unfold mret, outcome_ret. f_equal.
    destruct h as [l n f], Hok as [_ Hc _]. cbn in *. rewrite El in Hc. fold (outstanding (l1 ++ p :: l2)) in Hc.
    rewrite outstanding_app, outstanding_cons, Ec in Hc. cbn [b2z] in Hc. rewrite Z.add_0_l in Hc. by rewrite Hc. }
  rewrite Hn. cbn [mbind outcome_bind]. unfold mret, outcome_ret. eexists. split; [reflexivity|].
  set (h1 := _ <| sh_packets := _ |>).
  assert (Eh1 : sh_packets h1 = l1 ++ no_retransmit p :: l2).
  { unfold h1. cbn. rewrite El. by apply update_packet_split. }
  assert (Efirst : is_first h1 pn = is_first h pn) by done.
  assert (Eup : update_packet pn no_retransmit (sh_packets h) = l1 ++ no_retransmit p :: l2) by (rewrite El; by apply update_packet_split).
  rewrite Efirst, (is_first_split pn l1 l2 p Hp H1 H2 h Hok El), Eup.
  assert (Hso : StronglySorted Z.lt (map sp_PacketNumber (l1 ++ no_retransmit p :: l2))).
  { rewrite El, map_app in Hs. rewrite map_app. exact Hs. }
  assert (Hco : sh_numOutstandingPackets h1 = outstanding (l1 ++ no_retransmit p :: l2)).
  { rewrite outstanding_app, outstanding_cons. cbn. lia. }
  assert (Hfi : sh_firstOutstanding h1 = sp_PacketNumber <$> List.find sp_canBeRetransmitted (l1 ++ p :: l2)).
  { change (sh_firstOutstanding h1) with (sh_firstOutstanding h). by rewrite (hk_first _ Hok), El. }
  set (c := match List.find _ l1 with Some _ => _ | None => _ end). set (h2 := if c then _ else h1).
  assert (E2 : sh_packets h2 = sh_packets h1 /\ sh_numOutstandingPackets h2 = sh_numOutstandingPackets h1 /\
    sh_firstOutstanding h2 = sp_PacketNumber <$> List.find sp_canBeRetransmitted (l1 ++ no_retransmit p :: l2)).
  { unfold h2. destruct c eqn:Ec; (split_and!; [done|done|]); rewrite find_app; unfold c in Ec.
    - destruct (List.find _ l1); [done|].
      transitivity (sp_PacketNumber <$> List.find sp_canBeRetransmitted (packets_after pn (sh_packets h1))); [done|].
      by rewrite Eh1, (packets_after_split pn l1 l2 (no_retransmit p)).
    - rewrite Hfi, find_app. destruct (List.find _ l1); [done|]. cbn. by rewrite Ec. }
  clearbody h2. destruct E2 as (Ep & En & Ef). rewrite <- Eh1, <- Ep. split; [|done].
  rewrite <- Eh1, <- Ep in Hso, Hco, Ef. split; [done| |done]. by rewrite En.
Qed.

Lemma history_Remove_ok h pn p :
  history_ok h -> find_packet pn (sh_packets h) = Some p ->
  exists h', history_Remove h pn = Ret (h', None) /\ history_ok h' /\
    sh_packets h' = List.filter (fun q => negb (has_number pn q)) (sh_packets h).
Proof.
  intros Hok Hfind. pose proof (hk_sorted _ Hok) as Hs.
  destruct (find_packet_split pn _ p Hs Hfind) as (l1 & l2 & El & Hp & H1 & H2).
  unfold history_Remove. rewrite Hfind. set (h1 := if is_first h pn then _ else h).
  assert (E1 : sh_packets h1 = sh_packets h /\ sh_numOutstandingPackets h1 = sh_numOutstandingPackets h /\
    sh_firstOutstanding h1 = sp_PacketNumber <$> List.find sp_canBeRetransmitted (l1 ++ l2)).
  { unfold h1. rewrite (is_first_split pn l1 l2 p Hp H1 H2 h Hok El). rewrite find_app.
    pose proof (hk_first _ Hok) as Hf. rewrite El, find_app in Hf. cbn in Hf.
    destruct (List.find sp_canBeRetransmitted l1); [done|]. destruct (sp_canBeRetransmitted p); [|done].
    split_and!; [done|done|].
    transitivity (sp_PacketNumber <$> List.find sp_canBeRetransmitted (packets_after pn (sh_packets h))); [reflexivity|].
    by rewrite El, (packets_after_split pn l1 l2 p). }
  clearbody h1. destruct E1 as (Ep & En & Ef).
  assert (Hn : (if sp_canBeRetransmitted p then decrement_outstanding h1 else mret h1) =
    Ret (h1 <| sh_numOutstandingPackets := outstanding l1 + outstanding l2 |>)).
  { destruct (sp_canBeRetransmitted p) eqn:Ec; [by apply (decrement_ok h l1 p l2)|]. unfold mret, outcome_ret. f_equal.
    pose proof (hk_count _ Hok) as Hc. rewrite El in Hc. fold (outstanding (l1 ++ p :: l2)) in Hc.
    rewrite outstanding_app, outstanding_cons, Ec in Hc. cbn [b2z] in Hc. destruct h1. cbn in *. rewrite Z.add_0_l in Hc.
    by rewrite En, Hc. }
  rewrite Hn. cbn [mbind outcome_bind]. unfold mret, outcome_ret. eexists. split; [reflexivity|].
  assert (Er : List.filter (fun q => negb (has_number pn q)) (sh_packets h1) = l1 ++ l2).
  { rewrite Ep, El. by apply remove_packet_split. }
  split; [split|]; cbn; rewrite ?Er, ?Ep; try done.
  - rewrite El, map_app in Hs. rewrite map_app. cbn in Hs. apply sorted_app in Hs as (? & Hs2 & Hs3).
    inversion_clear Hs2. apply sorted_app. split_and!; try done. intros x y Hx Hy. apply Hs3; [done|by right].
  - fold (outstanding (l1 ++ l2)). by rewrite outstanding_app.
  - by rewrite <- Er, Ep.
Qed.

(** ** Packet numbers *)

Lemma generateNewSkip_ok g num :
  is_uint16 num -> 0 <= pg_next g < 2 ^ 62 -> 1 <= pg_averagePeriod g < 2 ^ 32 ->
  pg_next g + 2 <= pg_nextToSkip (generateNewSkip g num).
Proof.
  intros Hn Hg Ha. unfold generateNewSkip. cbn -[Z.quot Z.div].
  assert (0 <= Z.quot (num * (pg_averagePeriod g - 1)) (65535 / 2) < 2 ^ 48).
  { change (65535 / 2) with 32767. unfold is_uint16 in Hn. rewrite Z.quot_div_nonneg by nia. split; [apply Z.div_pos; nia|].
    apply Z.div_lt_upper_bound; [lia|]. nia. }
  rewrite int64_id by go_range. lia.
Qed.

(** A generator, the numbers popped from it and the numbers it skipped, the
    last first. *)
Record generated := mkGenerated {
  gn_generator : packetNumberGenerator;
  gn_sent : list PacketNumber;
  gn_skipped : list PacketNumber
}.

Inductive pop_step : generated -> generated -> Prop :=
| pop_number g sent skipped num g' pn :
    is_uint16 num -> pg_next g < 2 ^ 61 -> generator_Pop g num = (g', pn) ->
    pop_step (mkGenerated g sent skipped)
      (mkGenerated g' (pn :: sent) (if pg_next g' =? pn + 1 then skipped else pn + 1 :: skipped)).

(** Every number below the next one was sent or skipped, never two in a row are
    skipped, and the last ten of the skipped numbers are remembered. *)
Record generated_ok (initial : PacketNumber) (x : generated) : Prop := {
  gd_next : initial <= pg_next (gn_generator x) < 2 ^ 62;
  gd_skip : pg_next (gn_generator x) < pg_nextToSkip (gn_generator x);
  gd_period : 1 <= pg_averagePeriod (gn_generator x) < 2 ^ 32;
  gd_cover : forall pn, initial <= pn < pg_next (gn_generator x) <-> pn ∈ gn_sent x \/ pn ∈ gn_skipped x;
  gd_disjoint : forall pn, pn ∈ gn_sent x -> pn ∈ gn_skipped x -> False;
  gd_apart : forall pn, pn ∈ gn_skipped x -> pn - 1 ∈ gn_sent x /\ pn + 1 ∉ gn_skipped x;
  gd_sorted : StronglySorted Z.gt (gn_sent x);
  gd_history : pg_history (gn_generator x) = reverse (take 10 (gn_skipped x))
}.

Lemma generator_Pop_cases g num :
  is_uint16 num -> 0 <= pg_next g < 2 ^ 61 -> 1 <= pg_averagePeriod g < 2 ^ 32 -> pg_next g < pg_nextToSkip g ->
  let g' := (generator_Pop g num).1 in
  (generator_Pop g num).2 = pg_next g /\ pg_averagePeriod g' = pg_averagePeriod g /\ pg_next g' < pg_nextToSkip g' /\
  (pg_next g' = pg_next g + 1 /\ pg_history g' = pg_history g \/
   pg_next g' = pg_next g + 2 /\
   pg_history g' = (if 10 <? Z.of_nat (length (pg_history g)) + 1 then tail (pg_history g) else pg_history g) ++ [pg_next g + 1] ).
Proof.
  intros Hn Hg Ha Hs. unfold generator_Pop. cbn -[int64 generateNewSkip]. rewrite (int64_id (pg_next g + 1)) by go_range.
  split; [done|]. destruct (Z.eqb_spec (pg_next g + 1) (pg_nextToSkip g)); cbn -[int64 generateNewSkip].
  2: { split; [done|]. split; [lia|]. by left. }
  set (g1 := if _ <? _ then _ else _).
  assert (E1 : pg_averagePeriod g1 = pg_averagePeriod g /\ pg_next g1 = pg_next g + 1 /\
    pg_history g1 = if 10 <? Z.of_nat (length (pg_history g)) + 1 then tail (pg_history g) else pg_history g).
  { unfold g1, MaxTrackedSkippedPackets. by destruct (10 <? _). }
  clearbody g1. destruct E1 as (Ea & En & Eh).
  set (g2 := (g1 <| pg_history := _ |>) <| pg_next := _ |>).
  assert (E2 : pg_next g2 = pg_next g + 2).
  { unfold g2. cbn -[int64]. rewrite En, int64_id by go_range. lia. }
  pose proof (generateNewSkip_ok g2 num Hn ltac:(lia) ltac:(change (pg_averagePeriod g2) with (pg_averagePeriod g1); lia)).
  split_and!; [done|change (pg_next (generateNewSkip g2 num)) with (pg_next g2); lia|]. right.
  split; [exact E2|]. change (pg_history (generateNewSkip g2 num)) with (pg_history g1 ++ [pg_next g1]).
  by rewrite Eh, En.
Qed.

Lemma keep_ten {A} (x : A) l :
  reverse (take 10 (x :: l)) =
    (if 10 <? Z.of_nat (length (reverse (take 10 l))) + 1 then tail (reverse (take 10 l)) else reverse (take 10 l)) ++ [x].
Proof.
  change (take 10 (x :: l)) with (x :: take 9 l). rewrite reverse_cons, length_reverse, length_take. f_equal.
  destruct (Nat.le_gt_cases 10 (length l)).
  - rewrite (proj2 (Z.ltb_lt _ _)) by lia. destruct (lookup_lt_is_Some_2 l 9) as [y Hy]; [lia|].
    rewrite (take_S_r l 9 y Hy), reverse_app. done.
  - rewrite (proj2 (Z.ltb_ge _ _)) by lia. by rewrite !take_ge by lia.
Qed.

Lemma pop_step_ok initial x y : 0 <= initial -> generated_ok initial x -> pop_step x y -> generated_ok initial y.
Proof.
  intros Hi Hok Hs. destruct Hs as [g sent sk num g' pn Hn Hlt E].
  destruct Hok as [Hnext Hskip Hper Hcov Hdis Hap Hso Hh]; cbn in *.
  pose proof (generator_Pop_cases g num Hn ltac:(lia) Hper Hskip) as Hc. rewrite E in Hc. cbn in Hc.
  destruct Hc as (-> & Hper' & Hskip' & Hc).
  assert (Hbound : forall p, p ∈ sent \/ p ∈ sk -> initial <= p < pg_next g) by (intros p Hp; by apply Hcov).
  assert (Hsorted : StronglySorted Z.gt (pg_next g :: sent)).
  { constructor; [done|]. apply Forall_forall. intros p Hp. specialize (Hbound p (or_introl Hp)). lia. }
  destruct Hc as [[En Eh]|[En Eh]].
  - rewrite (proj2 (Z.eqb_eq _ _) En). split; cbn; rewrite ?Hper'; try (done || lia).
    + intros p. rewrite elem_of_cons. specialize (Hcov p). rewrite En. split.
      * intros Hp. destruct (Z.eq_dec p (pg_next g)) as [->|]; [tauto|]. destruct (proj1 Hcov ltac:(lia)); tauto.
      * intros [[->|Hp]|Hp]; [lia|..]; specialize (Hbound p); [destruct (Hbound ltac:(by left))|destruct (Hbound ltac:(by right))]; lia.
    + intros p [->|Hp]%elem_of_cons Hp'; [|by eapply Hdis]. specialize (Hbound (pg_next g) (or_intror Hp')). lia.
    + intros p Hp. destruct (Hap p Hp). set_solver.
    + by rewrite Eh.
  - rewrite (proj2 (Z.eqb_neq _ _)) by lia. split; cbn; rewrite ?Hper'; try (done || lia).
    + intros p. rewrite !elem_of_cons. specialize (Hcov p). rewrite En. split.
      * intros Hp. destruct (Z.eq_dec p (pg_next g)) as [->|]; [tauto|]. destruct (Z.eq_dec p (pg_next g + 1)) as [->|]; [tauto|].
        destruct (proj1 Hcov ltac:(lia)); tauto.
      * intros [[->|Hp]|[->|Hp]]; [lia| |lia|]; specialize (Hbound p); [destruct (Hbound ltac:(by left))|destruct (Hbound ltac:(by right))]; lia.
    + intros p [->|Hp]%elem_of_cons [Hp'|Hp']%elem_of_cons; [lia| | |by eapply Hdis].
      * specialize (Hbound (pg_next g) (or_intror Hp')). lia.
      * specialize (Hbound p (or_introl Hp)). lia.
    + intros p [->|Hp]%elem_of_cons.
      * replace (pg_next g + 1 - 1) with (pg_next g) by lia. split; [by left|]. intros [?|Hp]%elem_of_cons; [lia|].
        specialize (Hbound _ (or_intror Hp)). lia.
      * destruct (Hap p Hp) as [? Hn1]. split; [by right|]. intros [?|?]%elem_of_cons; [|done].
        specialize (Hbound p (or_intror Hp)). assert (p = pg_next g) by lia. lia.
    + rewrite Eh, Hh. symmetry. exact (keep_ten (pg_next g + 1) sk).
Qed.

Lemma validate_loop_spec l d pns :
  ranges_wf l ->
  exists b, validate_loop (mkAckFrame l d) pns = Ret b /\ (b = true <-> forall pn, pn ∈ pns -> ~ acked_in l pn).
Proof.
  intros Hwf. induction pns as [|pn pns IH]; cbn; [exists true; set_solver|].
  destruct (AcksPacket_spec l d pn Hwf) as ([] & -> & Hb); cbn.
  - exists false. split; [done|]. split; [done|]. intros Hn. destruct (Hn pn); [by left|by apply Hb].
  - destruct IH as (b & E & IH). exists b. split; [done|]. rewrite IH. split; intros Hn p.
    + intros [->|Hp]%elem_of_cons; [|by apply Hn]. intros Ha. by apply Hb in Ha.
    + intros Hp. apply Hn. by right.
Qed.

(** The packet numbers of a space are used once and in increasing order, and
    never two in a row are skipped; an acknowledgement is rejected exactly when
    it covers one of the last ten numbers that were skipped, so that a peer which
    acknowledges only packets that were sent is never rejected. *)
Theorem packet_numbers initial averagePeriod num0 x l d :
  0 <= initial < 2 ^ 61 -> 1 <= averagePeriod < 2 ^ 32 -> is_uint16 num0 ->
  rtc pop_step (mkGenerated (newPacketNumberGenerator initial averagePeriod num0) [] []) x -> ranges_wf l ->
  StronglySorted Z.gt (gn_sent x) /\
  (forall pn, pn ∈ gn_skipped x -> pn - 1 ∈ gn_sent x /\ pn + 1 ∉ gn_skipped x) /\
  (exists b, Validate (gn_generator x) (mkAckFrame l d) = Ret b /\
     (b = true <-> forall pn, pn ∈ take 10 (gn_skipped x) -> ~ acked_in l pn)) /\
  ((forall pn, initial <= pn -> acked_in l pn -> pn ∈ gn_sent x) ->
   Validate (gn_generator x) (mkAckFrame l d) = Ret true).
Proof.
  intros Hi Ha Hn Hr Hwf. assert (Hok : generated_ok initial x).
  { assert (H0 : generated_ok initial (mkGenerated (newPacketNumberGenerator initial averagePeriod num0) [] [])).
    { pose proof (generateNewSkip_ok (mkGenerator averagePeriod initial 0 []) num0 Hn ltac:(cbn; lia) Ha) as Hg. cbn in Hg.
      split; cbn -[generateNewSkip].
      - cbn. lia.
      - unfold newPacketNumberGenerator. cbn in *. lia.
      - done.
      - intros pn. cbn. rewrite !elem_of_nil. lia.
      - set_solver.
      - set_solver.
      - constructor.
      - done. }
    induction Hr; [done|]. apply IHHr. eapply pop_step_ok; [|done|done]. lia. }
  destruct Hok as [Hnext Hskip Hper Hcov Hdis Hap Hso Hh]. split; [done|]. split; [done|].
  destruct (validate_loop_spec l d (pg_history (gn_generator x)) Hwf) as (b & E & Hb).
  assert (Hmem : forall pn, pn ∈ pg_history (gn_generator x) <-> pn ∈ take 10 (gn_skipped x)).
  { intros pn. by rewrite Hh, elem_of_reverse. }
  setoid_rewrite Hmem in Hb. split; [by exists b|].
  intros Hhonest. unfold Validate. rewrite E. f_equal. apply Hb. intros pn Hp Hack.
  assert (Hsk : pn ∈ gn_skipped x) by (by eapply elem_of_take in Hp as (? & Hp & _); apply list_elem_of_lookup_2 in Hp).
  apply (Hdis pn); [|done]. apply Hhonest; [|done]. apply (Hcov pn). by right.
Qed.

Definition demo_generator : packetNumberGenerator := newPacketNumberGenerator 0 2 0.
Definition demo_popped : generated :=
  mkGenerated (generator_Pop (generator_Pop demo_generator 5).1 7).1 [1; 0] [2].

Lemma packet_numbers_witness :
  Validate (gn_generator demo_popped) (mkAckFrame [mkAckRange 0 1] 0) = Ret true /\
  StronglySorted Z.gt (gn_sent demo_popped).
Proof.
  assert (Hr : rtc pop_step (mkGenerated demo_generator [] []) demo_popped).
  { eapply rtc_l; [apply (pop_number demo_generator [] [] 5 (generator_Pop demo_generator 5).1 0); [unfold is_uint16; lia|vm_compute; reflexivity|reflexivity]|].
    eapply rtc_l; [apply (pop_number (generator_Pop demo_generator 5).1 [0] [] 7 (gn_generator demo_popped) 1); [unfold is_uint16; lia|vm_compute; reflexivity|reflexivity]|].
    apply rtc_refl. }
  pose proof (packet_numbers 0 2 0 demo_popped [mkAckRange 0 1] 0 ltac:(lia) ltac:(lia) ltac:(unfold is_uint16; lia) Hr ltac:(cbn; lia))
    as (H1 & _ & _ & H2).
  split; [|exact H1]. apply H2. intros pn _ (r & ->%list_elem_of_singleton & Hp). cbn in Hp.
  change (gn_sent demo_popped) with [1; 0]. rewrite !elem_of_cons. lia.
Defined.
