(* ===== verification/WindowedFilter.v ===== *)
(** * The windowed filter of the BBR sender (internal/congestion/windowed_filter.go)

    Keeps the best, second best and third best estimate over a sliding window.
    The properties are proved for any comparator that is a total preorder, an
    interface both [MaxFilter] and [MinFilter] implement. *)

From S2P Require Import Prelude.

Record Sample := mkSample {
  sample : Z;
  stime : Z
}.

(** The slice of three estimates, by index. *)
Record WindowedFilter := mkFilter {
  windowLength : Z;
  estimate0 : Sample;
  estimate1 : Sample;
  estimate2 : Sample;
  comparator : Z -> Z -> bool
}.

#[global] Instance filter_eta : Eta WindowedFilter := fun f =>
  mkFilter (windowLength f) (estimate0 f) (estimate1 f) (estimate2 f) (comparator f).

Definition MaxFilter (a b : Z) : bool := b <=? a.
Definition MinFilter (a b : Z) : bool := a <=? b.

Definition NewWindowedFilter (windowLength : Z) (comparator : Z -> Z -> bool) : WindowedFilter :=
  mkFilter windowLength (mkSample 0 0) (mkSample 0 0) (mkSample 0 0) comparator.

Definition SetWindowLength (f : WindowedFilter) (len : Z) : WindowedFilter :=
  f <| windowLength := len |>.

Definition GetBest (f : WindowedFilter) : Z := sample (estimate0 f).
Definition GetSecondBest (f : WindowedFilter) : Z := sample (estimate1 f).
Definition GetThirdBest (f : WindowedFilter) : Z := sample (estimate2 f).

Definition Reset (f : WindowedFilter) (newSample newTime : Z) : WindowedFilter :=
  f <| estimate0 := mkSample newSample newTime |>
    <| estimate1 := mkSample newSample newTime |>
    <| estimate2 := mkSample newSample newTime |>.

(** [WindowedFilter.Update] *)
Definition Update (f : WindowedFilter) (s t : Z) : WindowedFilter :=
  if (stime (estimate0 f) =? 0) || comparator f s (sample (estimate0 f)) ||
     (windowLength f <? int64 (t - stime (estimate2 f)))
  then Reset f s t else
  let f :=
    if comparator f s (sample (estimate1 f)) then
      f <| estimate1 := mkSample s t |> <| estimate2 := mkSample s t |>
    else if comparator f s (sample (estimate2 f)) then
      f <| estimate2 := mkSample s t |>
    else f in
  (* Expire and update estimates as necessary. *)
  if windowLength f <? int64 (t - stime (estimate0 f)) then
    (* The best estimate hasn't been updated for an entire window, so promote
       second and third best estimates. *)
    let f := f <| estimate0 := estimate1 f |> in
    let f := f <| estimate1 := estimate2 f |> in
    let f := f <| estimate2 := mkSample s t |> in
    (* Need to iterate one more time. *)
    if windowLength f <? int64 (t - stime (estimate0 f)) then
      let f := f <| estimate0 := estimate1 f |> in
      f <| estimate1 := estimate2 f |>
    else f
  else if (sample (estimate1 f) =? sample (estimate0 f)) &&
          (Z.shiftr (windowLength f) 2 <? int64 (t - stime (estimate1 f))) then
    (* A quarter of the window has passed without a better sample *)
    f <| estimate1 := mkSample s t |> <| estimate2 := mkSample s t |>
  else if (sample (estimate2 f) =? sample (estimate1 f)) &&
          (Z.shiftr (windowLength f) 1 <? int64 (t - stime (estimate2 f))) then
    (* We've passed a half of the window without a better estimate *)
    f <| estimate2 := mkSample s t |>
  else f.

(** ** The interface of a comparator *)

Class FilterOrder (cmp : Z -> Z -> bool) : Prop := {
  cmp_refl : forall a, cmp a a = true;
  cmp_trans : forall a b c, cmp a b = true -> cmp b c = true -> cmp a c = true;
  cmp_total : forall a b, cmp a b = false -> cmp b a = true
}.

#[global] Instance MaxFilter_order : FilterOrder MaxFilter.
Proof. split; unfold MaxFilter; intros; zbool; rewrite ?Z.leb_le in *; lia. Qed.

#[global] Instance MinFilter_order : FilterOrder MinFilter.
Proof. split; unfold MinFilter; intros; zbool; rewrite ?Z.leb_le in *; lia. Qed.

Section Filter.
Context (cmp : Z -> Z -> bool) `{!FilterOrder cmp} (W : Z).

(** [e] was fed in, and nothing better came after it.  [hist] lists what was
    fed in, latest first. *)
Definition dominates_since (hist : list Sample) (e : Sample) : Prop :=
  exists newer older, hist = newer ++ e :: older /\
    Forall (fun x => cmp (sample e) (sample x) = true) newer.

(** The state of a filter after the samples [hist], the latest at time [now]. *)
Record filter_inv (hist : list Sample) (now : Z) (f : WindowedFilter) : Prop := {
  fi_cmp : comparator f = cmp;
  fi_window : windowLength f = W;
  fi_order01 : cmp (sample (estimate0 f)) (sample (estimate1 f)) = true;
  fi_order12 : cmp (sample (estimate1 f)) (sample (estimate2 f)) = true;
  fi_times : 0 < stime (estimate0 f) <= stime (estimate1 f) /\
             stime (estimate1 f) <= stime (estimate2 f) <= now;
  fi_fresh : now - stime (estimate0 f) <= W;
  fi_dom0 : dominates_since hist (estimate0 f);
  fi_dom1 : dominates_since hist (estimate1 f);
  fi_dom2 : dominates_since hist (estimate2 f)
}.

Lemma dominates_new hist s t : dominates_since (mkSample s t :: hist) (mkSample s t).
Proof. by exists [], hist. Qed.

Lemma dominates_keep hist e s t :
  dominates_since hist e -> cmp (sample e) s = true -> dominates_since (mkSample s t :: hist) e.
Proof.
  intros (newer & older & -> & Hf) Hs. exists (mkSample s t :: newer), older.
  split; [done|]. by constructor.
Qed.

Lemma Reset_inv hist f s t :
  comparator f = cmp -> windowLength f = W -> 0 < t -> 0 <= W ->
  filter_inv (mkSample s t :: hist) t (Reset f s t).
Proof.
  intros Hc Hw Ht HW. split; cbn; try done; try apply cmp_refl; try lia; apply dominates_new.
Qed.

Hint Resolve dominates_new dominates_keep cmp_refl cmp_total : filter.

Lemma Update_inv hist now f s t :
  filter_inv hist now f -> now <= t < 2 ^ 62 -> 0 <= W ->
  filter_inv (mkSample s t :: hist) t (Update f s t).
Proof.
  intros [Hc Hw H01 H12 Ht Hfr Hd0 Hd1 Hd2] Hnow HW. unfold Update. rewrite Hc.
  rewrite (proj2 (Z.eqb_neq _ 0)) by lia. cbn [orb].
  destruct (cmp s (sample (estimate0 f))) eqn:Hs0; cbn [orb].
  { apply Reset_inv; by try lia. }
  rewrite int64_id by go_range. rewrite Hw.
  destruct (Z.ltb_spec W (t - stime (estimate2 f))) as [?|Hw2].
  { apply Reset_inv; by try lia. }
  apply cmp_total in Hs0.
  (* the estimates after the new sample is entered *)
  match goal with |- filter_inv _ _ (if windowLength ?x <? _ then _ else _) => set (f1 := x) end.
  assert (Hf1 : comparator f1 = cmp /\ windowLength f1 = W /\ estimate0 f1 = estimate0 f /\
    cmp (sample (estimate0 f1)) (sample (estimate1 f1)) = true /\
    cmp (sample (estimate1 f1)) (sample (estimate2 f1)) = true /\
    cmp (sample (estimate1 f1)) s = true /\ cmp (sample (estimate2 f1)) s = true /\
    stime (estimate0 f1) <= stime (estimate1 f1) <= stime (estimate2 f1) /\
    stime (estimate2 f1) <= t /\ t - stime (estimate2 f1) <= W /\
    dominates_since (mkSample s t :: hist) (estimate1 f1) /\
    dominates_since (mkSample s t :: hist) (estimate2 f1)).
  { unfold f1. destruct (cmp s (sample (estimate1 f))) eqn:Hs1; [|apply cmp_total in Hs1;
      destruct (cmp s (sample (estimate2 f))) eqn:Hs2; [|apply cmp_total in Hs2]];
      cbn; split_and!; try (done || lia); eauto with filter. }
  clearbody f1. destruct Hf1 as (Hc1 & Hw1 & He0 & H01' & H12' & Hs1 & Hs2 & Ht' & Ht2 & Hfr2 & Hd1' & Hd2').
  rewrite Hw1. rewrite !int64_id by (rewrite ?He0 in *; go_range).
  assert (Hd0' : dominates_since (mkSample s t :: hist) (estimate0 f1))
    by (rewrite He0; eauto with filter).
  assert (Hs0' : cmp (sample (estimate0 f1)) s = true) by by rewrite He0.
  assert (Ht0 : 0 < stime (estimate0 f1)) by (rewrite He0; lia).
  destruct (Z.ltb_spec W (t - stime (estimate0 f1))) as [Hex|Hin].
  - cbn. rewrite Hw1, int64_id by go_range.
    destruct (Z.ltb_spec W (t - stime (estimate1 f1))) as [Hex'|Hin'];
      split; cbn; try (done || lia); eauto with filter.
  - destruct (_ && _); [split; cbn; try (done || lia); eauto with filter|].
    destruct (_ && _); split; cbn; try (done || lia); eauto with filter.
Qed.

(** A run of the filter on samples with increasing, positive times. *)
Fixpoint run_filter (f : WindowedFilter) (l : list Sample) : WindowedFilter :=
  match l with
  | [] => f
  | x :: l' => run_filter (Update f (sample x) (stime x)) l'
  end.

Fixpoint times_from (now : Z) (l : list Sample) : Prop :=
  match l with
  | [] => True
  | x :: l' => now <= stime x < 2 ^ 62 /\ times_from (stime x) l'
  end.

Definition last_time (now : Z) (l : list Sample) : Z := from_option stime now (last l).

Lemma run_filter_inv hist now f l :
  filter_inv hist now f -> times_from now l -> 0 <= W ->
  filter_inv (rev l ++ hist) (last_time now l) (run_filter f l).
Proof.
  intros Hi Hl HW. revert hist now f Hi Hl.
  induction l as [|x l IH]; intros hist now f Hi Hl; [done|]. destruct Hl as [Hx Hl].
  cbn [run_filter rev]. rewrite <- app_assoc. cbn [app].
  replace (last_time now (x :: l)) with (last_time (stime x) l).
  2: { unfold last_time. rewrite last_cons. by destruct (last l). }
  destruct x as [s t]. apply IH; [|done]. by eapply Update_inv.
Qed.

Lemma first_update_inv s t :
  0 < t -> 0 <= W -> filter_inv [mkSample s t] t (Update (NewWindowedFilter W cmp) s t).
Proof. intros Ht HW. apply Reset_inv; done. Qed.

End Filter.

(** ** Properties *)

(** A filter fed with samples at positive, non-decreasing times reports as
    its best estimate one of the samples, taken within the last [W] time units,
    that no later sample beats; the same holds for each comparator that is a
    total preorder, such as [MaxFilter] and [MinFilter]. *)
Theorem filter_best cmp `{!FilterOrder cmp} W x l :
  0 <= W -> 0 < stime x -> times_from (stime x) l ->
  let f := run_filter (NewWindowedFilter W cmp) (x :: l) in
  exists older t newer, x :: l = older ++ mkSample (GetBest f) t :: newer /\
    last_time (stime x) l - t <= W /\
    Forall (fun y => cmp (GetBest f) (sample y) = true) newer.
Proof.
  intros HW Hx Hl f. destruct x as [s0 t0]. cbn [stime] in *.
  pose proof (run_filter_inv cmp W [mkSample s0 t0] t0 _ l (first_update_inv cmp W s0 t0 Hx HW) Hl HW) as Hi.
  change (run_filter _ l) with f in Hi. destruct (fi_dom0 _ _ _ _ _ Hi) as (newer & older & Hh & Hf).
  exists (rev older), (stime (estimate0 f)), (rev newer). split_and!.
  - apply (f_equal (@rev Sample)) in Hh. rewrite rev_app_distr, rev_involutive in Hh. cbn [rev app] in Hh.
    rewrite Hh, rev_app_distr. cbn [rev]. rewrite <- app_assoc. unfold GetBest. by destruct (estimate0 f).
  - exact (fi_fresh _ _ _ _ _ Hi).
  - by apply Forall_rev.
Qed.

Lemma filter_best_witness :
  exists older t newer,
    [mkSample 8 1; mkSample 5 4; mkSample 6 12] = older ++ mkSample 6 t :: newer /\
    12 - t <= 10 /\ Forall (fun y => MaxFilter 6 (sample y) = true) newer.
Proof.
  apply (filter_best MaxFilter 10 (mkSample 8 1) [mkSample 5 4; mkSample 6 12]); by vm_compute.
Defined.
