(* ===== verification/BandwidthSampler.v ===== *)
(** * Bandwidth samples (internal/congestion/bandwidth_sampler.go, bandwidth.go)

    The sampler records, for every packet in flight, the connection's state
    when it was sent, and gives a bandwidth sample when it is acknowledged. *)

From S2P Require Import Prelude Protocol.

(** ** bandwidth.go *)

(** [type Bandwidth uint64], in bits per second. *)
Definition Bandwidth := Z.
Definition BytesPerSecond : Bandwidth := 8.
Definition InfiniteBandwidth : Bandwidth := 2 ^ 64 - 1.
Definition InfiniteRTT : duration := MaxInt64.

(** The division by zero panics. *)
Definition BandwidthFromDelta (nbytes : ByteCount) (delta : duration) : outcome Bandwidth :=
  if uint64 delta =? 0 then Panic "integer divide by zero"
  else Ret (uint64 (uint64 (nbytes * uint64 Second) / uint64 delta * BytesPerSecond)).

Definition minBandwidth (a b : Bandwidth) : Bandwidth := if a <? b then a else b.
Definition maxBandwidth2 (a b : Bandwidth) : Bandwidth := if b <? a then a else b.

(** ** bandwidth_sampler.go *)

Record SendTimeState := mkSendTimeState {
  isValid : bool;
  isAppLimited : bool;
  st_totalBytesSent : ByteCount;
  st_totalBytesAcked : ByteCount;
  st_totalBytesLost : ByteCount
}.

Record ConnectionStateOnSentPacket := mkConnectionState {
  cs_packetNumber : PacketNumber;
  cs_sendTime : time;
  cs_size : ByteCount;
  cs_totalBytesSentAtLastAckedPacket : ByteCount;
  cs_lastAckedPacketSentTime : time;
  cs_lastAckedPacketAckTime : time;
  cs_sendTimeState : SendTimeState
}.

Record BandwidthSample := mkBandwidthSample {
  bandwidth : Bandwidth;
  rtt : duration;
  stateAtSend : SendTimeState
}.

Definition zeroSendTimeState : SendTimeState := mkSendTimeState false false 0 0 0.

Definition NewBandwidthSample : BandwidthSample :=
  mkBandwidthSample 0 InfiniteRTT zeroSendTimeState.

(** [connectionStats] is a Go map from packet numbers to the recorded states. *)
Record BandwidthSampler := mkSampler {
  totalBytesSent : ByteCount;
  totalBytesAcked : ByteCount;
  totalBytesLost : ByteCount;
  totalBytesSentAtLastAckedPacket : ByteCount;
  lastAckedPacketSentTime : time;
  lastAckedPacketAckTime : time;
  s_lastSendPacket : PacketNumber;
  s_isAppLimited : bool;
  endOfAppLimitedPhase : PacketNumber;
  connectionStats : gmap Z ConnectionStateOnSentPacket
}.

#[global] Instance sampler_eta : Eta BandwidthSampler := fun s =>
  mkSampler (totalBytesSent s) (totalBytesAcked s) (totalBytesLost s)
    (totalBytesSentAtLastAckedPacket s) (lastAckedPacketSentTime s)
    (lastAckedPacketAckTime s) (s_lastSendPacket s) (s_isAppLimited s)
    (endOfAppLimitedPhase s) (connectionStats s).

Definition NewBandwidthSampler : BandwidthSampler :=
  mkSampler 0 0 0 0 zero_time zero_time 0 false 0 ∅.

Definition NewConnectionStateOnSentPacket (packetNumber : PacketNumber) (sentTime : time)
    (nbytes : ByteCount) (s : BandwidthSampler) : ConnectionStateOnSentPacket :=
  {| cs_packetNumber := packetNumber;
     cs_sendTime := sentTime;
     cs_size := nbytes;
     cs_lastAckedPacketSentTime := lastAckedPacketSentTime s;
     cs_lastAckedPacketAckTime := lastAckedPacketAckTime s;
     cs_totalBytesSentAtLastAckedPacket := totalBytesSentAtLastAckedPacket s;
     cs_sendTimeState :=
       {| isValid := true;
          isAppLimited := s_isAppLimited s;
          st_totalBytesSent := totalBytesSent s;
          st_totalBytesAcked := totalBytesAcked s;
          st_totalBytesLost := totalBytesLost s |} |}.

(** [ConnectionStates.Insert]: an existing entry is kept. *)
Definition stats_Insert (s : BandwidthSampler) (packetNumber : PacketNumber) (sentTime : time)
    (nbytes : ByteCount) : BandwidthSampler :=
  match connectionStats s !! packetNumber with
  | Some _ => s
  | None =>
      s <| connectionStats :=
        <[packetNumber := NewConnectionStateOnSentPacket packetNumber sentTime nbytes s]>
          (connectionStats s) |>
  end.

(** [ConnectionStates.Remove] *)
Definition stats_Remove (s : BandwidthSampler) (packetNumber : PacketNumber) :
    BandwidthSampler * option ConnectionStateOnSentPacket :=
  (s <| connectionStats := delete packetNumber (connectionStats s) |>,
   connectionStats s !! packetNumber).

(** [BandwidthSampler.OnPacketSent] *)
Definition sampler_OnPacketSent (s : BandwidthSampler) (sentTime : time)
    (lastSentPacket : PacketNumber) (sentBytes bytesInFlight : ByteCount)
    (hasRetransmittableData : bool) : BandwidthSampler :=
  let s := s <| s_lastSendPacket := lastSentPacket |> in
  if negb hasRetransmittableData then s else
  let s := s <| totalBytesSent := uint64 (totalBytesSent s + sentBytes) |> in
  (* If there are no packets in flight, the time at which the new transmission
     opens can be treated as the A_0 point for the purpose of bandwidth
     sampling. *)
  let s :=
    if bytesInFlight =? 0 then
      s <| lastAckedPacketAckTime := sentTime |>
        <| totalBytesSentAtLastAckedPacket := totalBytesSent s |>
        <| lastAckedPacketSentTime := sentTime |>
    else s in
  stats_Insert s lastSentPacket sentTime sentBytes.

(** [SentPacketToSendTimeState] *)
Definition SentPacketToSendTimeState (sentPacket : ConnectionStateOnSentPacket) : SendTimeState :=
  {| isValid := true;
     isAppLimited := isAppLimited (cs_sendTimeState sentPacket);
     st_totalBytesSent := st_totalBytesSent (cs_sendTimeState sentPacket);
     st_totalBytesAcked := st_totalBytesAcked (cs_sendTimeState sentPacket);
     st_totalBytesLost := st_totalBytesLost (cs_sendTimeState sentPacket) |}.

Definition onPacketAckedInner (s : BandwidthSampler) (ackTime : time)
    (lastAckedPacket : PacketNumber) (sentPacket : ConnectionStateOnSentPacket) :
    outcome (BandwidthSampler * BandwidthSample) :=
  let s := s <| totalBytesAcked := uint64 (totalBytesAcked s + cs_size sentPacket) |>
             <| totalBytesSentAtLastAckedPacket := st_totalBytesSent (cs_sendTimeState sentPacket) |>
             <| lastAckedPacketSentTime := cs_sendTime sentPacket |>
             <| lastAckedPacketAckTime := ackTime |> in
  (* Exit app-limited phase once a packet that was sent while the connection is
     not app-limited is acknowledged. *)
  let s :=
    if s_isAppLimited s && (endOfAppLimitedPhase s <? lastAckedPacket)
    then s <| s_isAppLimited := false |> else s in
  (* There might have been no packets acknowledged at the moment when the
     current packet was sent. *)
  if IsZero (cs_lastAckedPacketSentTime sentPacket) then mret (s, NewBandwidthSample) else
  sendRate ←
    (if After (cs_sendTime sentPacket) (cs_lastAckedPacketSentTime sentPacket) then
       BandwidthFromDelta
         (uint64 (st_totalBytesSent (cs_sendTimeState sentPacket) -
                  cs_totalBytesSentAtLastAckedPacket sentPacket))
         (Sub (cs_sendTime sentPacket) (cs_lastAckedPacketSentTime sentPacket))
     else mret InfiniteBandwidth);
  (* During the slope calculation, ensure that ack time of the current packet is
     always larger than the time of the previous packet, otherwise division by
     zero or integer underflow can occur. *)
  if negb (After ackTime (cs_lastAckedPacketAckTime sentPacket)) then
    mret (s, NewBandwidthSample)
  else
  ackRate ← BandwidthFromDelta
    (uint64 (totalBytesAcked s - st_totalBytesAcked (cs_sendTimeState sentPacket)))
    (Sub ackTime (cs_lastAckedPacketAckTime sentPacket));
  mret (s, {| bandwidth := minBandwidth sendRate ackRate;
              rtt := Sub ackTime (cs_sendTime sentPacket);
              stateAtSend := SentPacketToSendTimeState sentPacket |}).

(** [BandwidthSampler.OnPacketAcked] *)
Definition sampler_OnPacketAcked (s : BandwidthSampler) (ackTime : time)
    (lastAckedPacket : PacketNumber) : outcome (BandwidthSampler * BandwidthSample) :=
  match connectionStats s !! lastAckedPacket with
  | None => mret (s, NewBandwidthSample)
  | Some sentPacketState =>
      r ← onPacketAckedInner s ackTime lastAckedPacket sentPacketState;
      let '(s, smpl) := r in
      mret (fst (stats_Remove s lastAckedPacket), smpl)
  end.

(** [BandwidthSampler.OnPacketLost] *)
Definition sampler_OnPacketLost (s : BandwidthSampler) (packetNumber : PacketNumber) :
    BandwidthSampler * SendTimeState :=
  let '(s, sentPacket) := stats_Remove s packetNumber in
  match sentPacket with
  | None => (s, zeroSendTimeState)
  | Some sentPacket =>
      (s <| totalBytesLost := uint64 (totalBytesLost s + cs_size sentPacket) |>,
       SentPacketToSendTimeState sentPacket)
  end.

(** [BandwidthSampler.OnAppLimited] *)
Definition sampler_OnAppLimited (s : BandwidthSampler) : BandwidthSampler :=
  s <| s_isAppLimited := true |> <| endOfAppLimitedPhase := s_lastSendPacket s |>.

(** ** Conservation of bytes *)

(** The bytes of the packets the sampler still tracks. *)
Definition tracked_bytes (m : gmap Z ConnectionStateOnSentPacket) : Z := map_sum cs_size m.

(** The totals recorded with a packet never exceed the current totals. *)
Definition snapshot_ok (s : BandwidthSampler) (c : ConnectionStateOnSentPacket) : Prop :=
  0 <= cs_size c /\
  0 <= st_totalBytesSent (cs_sendTimeState c) <= totalBytesSent s /\
  0 <= st_totalBytesAcked (cs_sendTimeState c) <= totalBytesAcked s /\
  0 <= st_totalBytesLost (cs_sendTimeState c) <= totalBytesLost s /\
  0 <= cs_totalBytesSentAtLastAckedPacket c <= st_totalBytesSent (cs_sendTimeState c) /\
  isValid (cs_sendTimeState c) = true.

(** The bytes sent that are neither acknowledged, lost nor tracked: a packet
    whose number is still in use is not tracked. *)
Definition untracked (s : BandwidthSampler) : Z :=
  totalBytesSent s - totalBytesAcked s - totalBytesLost s - tracked_bytes (connectionStats s).

Record sampler_ok (s : BandwidthSampler) : Prop := {
  sok_conserved : 0 <= untracked s;
  sok_range : 0 <= totalBytesAcked s /\ 0 <= totalBytesLost s /\ totalBytesSent s < 2 ^ 63;
  sok_last : 0 <= totalBytesSentAtLastAckedPacket s <= totalBytesSent s;
  sok_snapshots : map_Forall (fun _ c => snapshot_ok s c) (connectionStats s)
}.

Lemma NewBandwidthSampler_ok : sampler_ok NewBandwidthSampler.
Proof. split; done. Qed.

Lemma sok_tracked_nonneg s : sampler_ok s -> 0 <= tracked_bytes (connectionStats s).
Proof.
  intros Hok. apply map_sum_nonneg. eapply map_Forall_impl; [apply Hok|].
  by intros pn c (? & _).
Qed.

(** Totals that only grow keep every snapshot valid. *)
Lemma snapshot_ok_mono s s' c :
  snapshot_ok s c -> totalBytesSent s <= totalBytesSent s' ->
  totalBytesAcked s <= totalBytesAcked s' -> totalBytesLost s <= totalBytesLost s' ->
  snapshot_ok s' c.
Proof. unfold snapshot_ok. intuition lia. Qed.

Lemma sampler_OnPacketSent_ok s t pn n inflight ret :
  sampler_ok s -> 0 <= n -> totalBytesSent s + n < 2 ^ 63 ->
  let s' := sampler_OnPacketSent s t pn n inflight ret in
  sampler_ok s' /\ totalBytesAcked s' = totalBytesAcked s /\ totalBytesLost s' = totalBytesLost s /\
  totalBytesSent s' = totalBytesSent s + (if ret then n else 0) /\
  (connectionStats s !! pn = None -> untracked s' = untracked s).
Proof.
  intros Hok Hn Hmax. unfold sampler_OnPacketSent.
  pose proof (sok_tracked_nonneg s Hok) as Htr.
  destruct Hok as [Hc (Ha & Hl & Hs) Hlast Hsn]. destruct ret; cbn [negb].
  2: { split; [split; cbn; done|]. cbn. split_and!; try (done || lia). }
  unfold untracked, tracked_bytes in *.
  cbn [totalBytesSent over]. rewrite (uint64_id (_ + n)) by go_range.
  match goal with |- context [stats_Insert ?x] => set (s1 := x) end.
  assert (H1 : connectionStats s1 = connectionStats s /\ totalBytesSent s1 = totalBytesSent s + n /\
    totalBytesAcked s1 = totalBytesAcked s /\ totalBytesLost s1 = totalBytesLost s /\
    0 <= totalBytesSentAtLastAckedPacket s1 <= totalBytesSent s + n /\ s_isAppLimited s1 = s_isAppLimited s).
  { unfold s1. case_if; cbn; split_and!; try (done || lia). }
  clearbody s1. destruct H1 as (Hm1 & Hs1 & Ha1 & Hl1 & Hla1 & Hap1).
  assert (Hsn1 : map_Forall (fun _ c => snapshot_ok s1 c) (connectionStats s)).
  { eapply map_Forall_impl; [exact Hsn|]. intros q c Hq. cbn. eapply snapshot_ok_mono; [exact Hq|lia..]. }
  unfold stats_Insert. rewrite Hm1. destruct (connectionStats s !! pn) as [c|] eqn:Hpn.
  { split; [split|]; unfold untracked, tracked_bytes; rewrite ?Hm1; try (done || lia). }
  split; [split|]; unfold untracked, tracked_bytes; cbn; rewrite ?map_sum_insert by done; cbn; try lia.
  apply map_Forall_insert; [done|]. split; [|exact Hsn1].
  unfold snapshot_ok. cbn. rewrite Hs1, Ha1, Hl1. split_and!; try (done || lia).
Qed.

(** The tracker's totals after the packet [pn], recorded as [c], is gone. *)
Lemma sampler_remove_ok s s' pn c da dl :
  sampler_ok s -> connectionStats s !! pn = Some c ->
  connectionStats s' = delete pn (connectionStats s) ->
  totalBytesSent s' = totalBytesSent s ->
  totalBytesAcked s' = totalBytesAcked s + da -> totalBytesLost s' = totalBytesLost s + dl ->
  0 <= da -> 0 <= dl -> da + dl = cs_size c ->
  0 <= totalBytesSentAtLastAckedPacket s' <= totalBytesSent s ->
  sampler_ok s' /\ untracked s' = untracked s.
Proof.
  intros Hok Hpn Hm Hs Ha Hl Hda Hdl Hsum Hlast.
  destruct Hok as [Hc (Hra & Hrl & Hrs) _ Hsn]. assert (E : untracked s' = untracked s).
  { unfold untracked, tracked_bytes. rewrite Hm, (map_sum_delete _ (connectionStats s) _ _ Hpn). lia. }
  split; [|done]. split; rewrite ?E; try lia; rewrite Hm.
  intros q d Hq. apply lookup_delete_Some in Hq as [_ Hq].
  eapply snapshot_ok_mono; [by apply (Hsn q)|lia..].
Qed.

Lemma tracked_size_bound s pn c :
  sampler_ok s -> connectionStats s !! pn = Some c ->
  0 <= cs_size c /\ totalBytesAcked s + cs_size c < 2 ^ 63 /\ totalBytesLost s + cs_size c < 2 ^ 63.
Proof.
  intros Hok Hpn. pose proof (sok_snapshots s Hok pn c Hpn) as (Hsz & _).
  assert (0 <= tracked_bytes (delete pn (connectionStats s))).
  { apply map_sum_nonneg. intros q d Hq. apply lookup_delete_Some in Hq as [_ Hq].
    by destruct (sok_snapshots s Hok q d Hq). }
  destruct Hok as [Hc Hr _ _]. unfold untracked, tracked_bytes in *. rewrite (map_sum_delete _ _ _ _ Hpn) in Hc. lia.
Qed.

Lemma BandwidthFromDelta_total n d : 0 < d < 2 ^ 63 -> exists bw, BandwidthFromDelta n d = Ret bw.
Proof.
  intros Hd. unfold BandwidthFromDelta. rewrite uint64_id by go_range.
  rewrite (proj2 (Z.eqb_neq d 0)) by lia. by eexists.
Qed.

(** No overflow: the rate, rounded down to a multiple of 8 bits per second. *)
Lemma BandwidthFromDelta_exact n d :
  0 < d < 2 ^ 63 -> 0 <= n < 2 ^ 31 ->
  BandwidthFromDelta n d = Ret (n * 10 ^ 9 / d * 8).
Proof.
  intros Hd Hn. unfold BandwidthFromDelta, BytesPerSecond.
  rewrite (uint64_id d) by go_range. rewrite (proj2 (Z.eqb_neq d 0)) by lia.
  change (uint64 Second) with (10 ^ 9). rewrite (uint64_id (n * 10 ^ 9)) by go_range.
  assert (0 <= n * 10 ^ 9 / d <= n * 10 ^ 9).
  { split; [apply Z.div_pos; lia|]. apply Z.div_le_upper_bound; nia. }
  by rewrite uint64_id by go_range.
Qed.

(** The delivery of the packets acknowledged since the last acknowledgement
    that preceded the sending of [c]. *)
Definition delivered (s : BandwidthSampler) (c : ConnectionStateOnSentPacket) : Z :=
  totalBytesAcked s + cs_size c - st_totalBytesAcked (cs_sendTimeState c).

Definition ack_interval (ackTime : time) (c : ConnectionStateOnSentPacket) : duration :=
  Sub ackTime (cs_lastAckedPacketAckTime c).

(** The sample [smpl] for the packet recorded as [c], acknowledged at [ackTime]. *)
Definition sample_ok (s : BandwidthSampler) (ackTime : time) (c : ConnectionStateOnSentPacket)
    (smpl : BandwidthSample) : Prop :=
  smpl = NewBandwidthSample \/
  (0 < ack_interval ackTime c /\ rtt smpl = Sub ackTime (cs_sendTime c) /\
   stateAtSend smpl = SentPacketToSendTimeState c /\
   exists ackRate, BandwidthFromDelta (delivered s c) (ack_interval ackTime c) = Ret ackRate /\
     bandwidth smpl <= ackRate /\
     (After (cs_sendTime c) (cs_lastAckedPacketSentTime c) = true ->
      exists sendRate,
        BandwidthFromDelta
          (st_totalBytesSent (cs_sendTimeState c) - cs_totalBytesSentAtLastAckedPacket c)
          (Sub (cs_sendTime c) (cs_lastAckedPacketSentTime c)) = Ret sendRate /\
        bandwidth smpl = Z.min sendRate ackRate)).

Lemma minBandwidth_min a b : minBandwidth a b = Z.min a b.
Proof. unfold minBandwidth. case_if; zbool; lia. Qed.

Lemma After_lt t u : After t u = true <-> u < t.
Proof. apply Z.ltb_lt. Qed.

(** The state and the sample [onPacketAckedInner] computes. *)
Lemma onPacketAckedInner_ok s t pn c :
  sampler_ok s -> connectionStats s !! pn = Some c ->
  exists s' smpl, onPacketAckedInner s t pn c = Ret (s', smpl) /\
    totalBytesSent s' = totalBytesSent s /\ totalBytesAcked s' = totalBytesAcked s + cs_size c /\
    totalBytesLost s' = totalBytesLost s /\ connectionStats s' = connectionStats s /\
    totalBytesSentAtLastAckedPacket s' = st_totalBytesSent (cs_sendTimeState c) /\
    s_lastSendPacket s' = s_lastSendPacket s /\
    endOfAppLimitedPhase s' = endOfAppLimitedPhase s /\
    s_isAppLimited s' = s_isAppLimited s && negb (endOfAppLimitedPhase s <? pn) /\
    sample_ok s t c smpl.
Proof.
  intros Hok Hpn. destruct (tracked_size_bound s pn c Hok Hpn) as (Hsz & Hac & _).
  pose proof (sok_snapshots s Hok pn c Hpn) as (_ & Hts & Hta & Htl & Hlast & _).
  pose proof (sok_range s Hok) as (Hra & Hrl & Hrs).
  unfold onPacketAckedInner. cbn [totalBytesAcked over]. rewrite (uint64_id (_ + cs_size c)) by go_range.
  match goal with |- context [mret (?x, NewBandwidthSample)] => set (s1 := x) end.
  assert (Hs1 : totalBytesSent s1 = totalBytesSent s /\ totalBytesAcked s1 = totalBytesAcked s + cs_size c /\
    totalBytesLost s1 = totalBytesLost s /\ connectionStats s1 = connectionStats s /\
    totalBytesSentAtLastAckedPacket s1 = st_totalBytesSent (cs_sendTimeState c) /\
    s_lastSendPacket s1 = s_lastSendPacket s /\ endOfAppLimitedPhase s1 = endOfAppLimitedPhase s /\
    s_isAppLimited s1 = s_isAppLimited s && negb (endOfAppLimitedPhase s <? pn)).
  { unfold s1. cbn. destruct (s_isAppLimited s) eqn:Hl, (endOfAppLimitedPhase s <? pn); cbn; split_and!; done. }
  assert (Hnew : sample_ok s t c NewBandwidthSample) by by left.
  clearbody s1. destruct Hs1 as (? & Ha1 & ?).
  case_if; [exists s1, NewBandwidthSample; tauto|].
  match goal with |- context [mbind _ ?m] => set (rate := m) end.
  assert (Hrate : exists sr, rate = Ret sr /\
    (After (cs_sendTime c) (cs_lastAckedPacketSentTime c) = true ->
     BandwidthFromDelta (st_totalBytesSent (cs_sendTimeState c) - cs_totalBytesSentAtLastAckedPacket c)
       (Sub (cs_sendTime c) (cs_lastAckedPacketSentTime c)) = Ret sr)).
  { unfold rate. case_if; [|by exists InfiniteBandwidth]. rewrite uint64_id by go_range.
    apply After_lt in Heqb0. pose proof (Sub_pos _ _ Heqb0).
    destruct (BandwidthFromDelta_total (st_totalBytesSent (cs_sendTimeState c) - cs_totalBytesSentAtLastAckedPacket c)
      (Sub (cs_sendTime c) (cs_lastAckedPacketSentTime c))) as [bw Hbw].
    { pose proof (Sub_range (cs_sendTime c) (cs_lastAckedPacketSentTime c)). go_range. }
    by exists bw. }
  clearbody rate. destruct Hrate as (sr & -> & Hsr). cbn.
  case_if; [exists s1, NewBandwidthSample; tauto|].
  apply negb_false_iff, After_lt in Heqb0. pose proof (Sub_pos _ _ Heqb0) as Hpos.
  rewrite Ha1, (uint64_id (_ - _)) by go_range.
  destruct (BandwidthFromDelta_total (delivered s c) (ack_interval t c)) as [ar Har].
  { unfold ack_interval. pose proof (Sub_range t (cs_lastAckedPacketAckTime c)). go_range. }
  fold (delivered s c). fold (ack_interval t c). rewrite Har. cbn.
  eexists s1, _. split; [reflexivity|]. split_and!; try tauto.
  right. cbn. split_and!; try done. exists ar. rewrite minBandwidth_min.
  split_and!; [done|lia|]. intros Haf. exists sr. split; [by apply Hsr|done].
Qed.

Lemma sampler_OnPacketAcked_ok s t pn :
  sampler_ok s ->
  exists s' smpl, sampler_OnPacketAcked s t pn = Ret (s', smpl) /\ sampler_ok s' /\
    connectionStats s' = delete pn (connectionStats s) /\ untracked s' = untracked s /\
    totalBytesSent s' = totalBytesSent s /\ totalBytesAcked s <= totalBytesAcked s' /\
    match connectionStats s !! pn with
    | None => s' = s /\ smpl = NewBandwidthSample
    | Some c =>
        totalBytesAcked s' = totalBytesAcked s + cs_size c /\
        s_isAppLimited s' = s_isAppLimited s && negb (endOfAppLimitedPhase s <? pn) /\
        endOfAppLimitedPhase s' = endOfAppLimitedPhase s /\
        sample_ok s t c smpl
    end.
Proof.
  intros Hok. unfold sampler_OnPacketAcked.
  destruct (connectionStats s !! pn) as [c|] eqn:Hpn.
  - destruct (onPacketAckedInner_ok s t pn c Hok Hpn)
      as (s1 & smpl & -> & Hs & Ha & Hl & Hm & Hla & Hlp & He & Hap & Hsm).
    pose proof (sok_snapshots s Hok pn c Hpn) as (Hsz & Hts & _).
    eexists _, smpl. split; [reflexivity|].
    match goal with |- sampler_ok ?x /\ _ => assert (R : sampler_ok x /\ untracked x = untracked s) end.
    { eapply (sampler_remove_ok s _ pn c (cs_size c) 0 Hok Hpn); cbn; try (done || lia); rewrite ?Hm; try (done || lia); congruence. }
    destruct R as [R1 R2]. cbn -[untracked] in *. rewrite Hm in *. split_and!; try (done || lia).
  - exists s, NewBandwidthSample. split_and!; try (done || lia). by rewrite delete_id.
Qed.

Lemma sampler_OnPacketLost_ok s pn :
  sampler_ok s ->
  let s' := fst (sampler_OnPacketLost s pn) in
  sampler_ok s' /\ connectionStats s' = delete pn (connectionStats s) /\ untracked s' = untracked s /\
  totalBytesSent s' = totalBytesSent s /\ totalBytesAcked s' = totalBytesAcked s /\
  s_isAppLimited s' = s_isAppLimited s /\ endOfAppLimitedPhase s' = endOfAppLimitedPhase s.
Proof.
  intros Hok. unfold sampler_OnPacketLost, stats_Remove. cbn zeta.
  destruct (connectionStats s !! pn) as [c|] eqn:Hpn; cbn.
  - destruct (tracked_size_bound s pn c Hok Hpn) as (Hsz & _ & Hlo).
    pose proof (sok_range s Hok) as (Hra & Hrl & Hrs). rewrite uint64_id by go_range.
    match goal with |- sampler_ok ?x /\ _ => assert (R : sampler_ok x /\ untracked x = untracked s) end.
    { eapply (sampler_remove_ok s _ pn c 0 (cs_size c) Hok Hpn); cbn; try (done || lia). apply Hok. }
    split; [apply R|]. split; [done|]. split; [apply R|done].
  - destruct Hok. unfold untracked in *. cbn. rewrite ?delete_id by done.
    split; [split; unfold untracked; cbn; rewrite ?delete_id by done; done|done].
Qed.

Lemma sampler_OnAppLimited_ok s : sampler_ok s -> sampler_ok (sampler_OnAppLimited s).
Proof. intros [? ? ? ?]. split; done. Qed.

(** ** Properties *)

(** The calls of a connection: packets are sent under fresh numbers, less than
    2^63 bytes in all. *)
Inductive sampler_step : BandwidthSampler -> BandwidthSampler -> Prop :=
| sampler_sent s t pn n inflight ret :
    connectionStats s !! pn = None -> 0 <= n -> totalBytesSent s + n < 2 ^ 63 ->
    sampler_step s (sampler_OnPacketSent s t pn n inflight ret)
| sampler_acked s t pn s' smpl :
    sampler_OnPacketAcked s t pn = Ret (s', smpl) -> sampler_step s s'
| sampler_lost s pn : sampler_step s (fst (sampler_OnPacketLost s pn))
| sampler_limited s : sampler_step s (sampler_OnAppLimited s).

Lemma sampler_reachable_ok s : rtc sampler_step NewBandwidthSampler s -> sampler_ok s /\ untracked s = 0.
Proof.
  intros Hr. assert (Hok : sampler_ok NewBandwidthSampler /\ untracked NewBandwidthSampler = 0).
  { split; [apply NewBandwidthSampler_ok|done]. }
  revert Hok. induction Hr as [|s1 s2 s3 Hs _ IH]; [done|]. intros [Hok Hu]. apply IH. destruct Hs.
  - destruct (sampler_OnPacketSent_ok s t pn n inflight ret Hok) as (? & _ & _ & _ & E); [done..|].
    split; [done|]. by rewrite E.
  - destruct (sampler_OnPacketAcked_ok s t pn Hok) as (s2 & smpl' & E & ? & _ & E' & _).
    rewrite E in H. injection H as -> ->. split; [done|]. by rewrite E'.
  - destruct (sampler_OnPacketLost_ok s pn Hok) as (? & _ & E & _). split; [done|]. by rewrite E.
  - split; [by apply sampler_OnAppLimited_ok|done].
Qed.

(** Conservation: at any time the bytes sent are the bytes acknowledged, the
    bytes lost and the bytes of the packets still tracked, and the
    acknowledgement of any packet (tracked or not) returns a sample without
    dividing by zero. *)
Theorem sampler_conserves s t pn :
  rtc sampler_step NewBandwidthSampler s ->
  totalBytesSent s = totalBytesAcked s + totalBytesLost s + tracked_bytes (connectionStats s) /\
  exists s' smpl, sampler_OnPacketAcked s t pn = Ret (s', smpl).
Proof.
  intros Hr. destruct (sampler_reachable_ok s Hr) as [Hok Hu]. split; [unfold untracked in Hu; lia|].
  destruct (sampler_OnPacketAcked_ok s t pn Hok) as (s' & smpl & E & _). by exists s', smpl.
Qed.

Definition sampler_one : BandwidthSampler := sampler_OnPacketSent NewBandwidthSampler 1000 1 1200 0 true.

Lemma sampler_one_reachable : rtc sampler_step NewBandwidthSampler sampler_one.
Proof. eapply rtc_l; [|apply rtc_refl]. by apply (sampler_sent NewBandwidthSampler 1000 1 1200 0 true). Qed.

Lemma sampler_conserves_witness :
  totalBytesSent sampler_one =
    totalBytesAcked sampler_one + totalBytesLost sampler_one + tracked_bytes (connectionStats sampler_one) /\
  exists s' smpl, sampler_OnPacketAcked sampler_one 1000 1 = Ret (s', smpl).
Proof. apply (sampler_conserves sampler_one 1000 1 sampler_one_reachable). Defined.

(** A sample never exceeds the rate of delivery: for a tracked packet, the
    sample is the empty one, or its bandwidth is at most the bytes delivered
    since the acknowledgement before the packet was sent over the time since
    then, and the minimum of that and the send rate when the latter is known.
    Acknowledging the same packet again changes nothing and gives no sample. *)
Theorem sampler_sample_bounded s t pn c :
  rtc sampler_step NewBandwidthSampler s -> connectionStats s !! pn = Some c ->
  exists s' smpl, sampler_OnPacketAcked s t pn = Ret (s', smpl) /\ sample_ok s t c smpl /\
    totalBytesAcked s' = totalBytesAcked s + cs_size c /\
    (forall t', sampler_OnPacketAcked s' t' pn = Ret (s', NewBandwidthSample)).
Proof.
  intros Hr Hc. destruct (sampler_OnPacketAcked_ok s t pn (proj1 (sampler_reachable_ok s Hr)))
    as (s' & smpl & E & _ & Hm & _ & _ & _ & Hx). rewrite Hc in Hx. destruct Hx as (Ha & _ & _ & Hs).
  exists s', smpl. split_and!; try done. intros t'. unfold sampler_OnPacketAcked.
  by rewrite Hm, lookup_delete_eq.
Qed.

Lemma sampler_sample_bounded_witness :
  exists s' smpl, sampler_OnPacketAcked sampler_one 5000 1 = Ret (s', smpl) /\
    totalBytesAcked s' = totalBytesAcked sampler_one + 1200.
Proof.
  destruct (sampler_sample_bounded sampler_one 5000 1
    (NewConnectionStateOnSentPacket 1 1000 1200 (mkSampler 1200 0 0 1200 1000 1000 1 false 0 ∅))
    sampler_one_reachable eq_refl) as (s' & smpl & E & _ & Ha & _).
  exists s', smpl. exact (conj E Ha).
Defined.
