(* ===== verification/Cubic.v ===== *)
(** * The CUBIC and Reno congestion control (internal/congestion/cubic.go, cubic_sender.go, hybrid_slow_start.go, prr_sender.go)

    The second congestion controller of the repository.  [math.Cbrt] is a parameter, and nothing is assumed of it; the
    round-trip statistics, which the sender shares with the connection, are inputs of the operations that read them. *)

From S2P Require Import Prelude GoFloat Protocol RTTStats BandwidthSampler.

(** ** Hybrid slow start (hybrid_slow_start.go) *)

Definition hybridStartLowWindow : ByteCount := 16.
Definition hybridStartMinSamples : Z := 8.
Definition hybridStartDelayFactorExp : Z := 3.
Definition hybridStartDelayMinThresholdUs : Z := 4000.
Definition hybridStartDelayMaxThresholdUs : Z := 16000.

Record HybridSlowStart := mkHybridSlowStart {
  hs_endPacketNumber : PacketNumber;
  hs_lastSentPacketNumber : PacketNumber;
  hs_started : bool;
  hs_currentMinRTT : duration;
  hs_rttSampleCount : Z;                  (* uint32 *)
  hs_hystartFound : bool
}.

#[global] Instance HybridSlowStart_eta : Eta HybridSlowStart := fun s =>
  mkHybridSlowStart (hs_endPacketNumber s) (hs_lastSentPacketNumber s) (hs_started s) (hs_currentMinRTT s) (hs_rttSampleCount s) (hs_hystartFound s).

Definition StartReceiveRound (s : HybridSlowStart) (lastSent : PacketNumber) : HybridSlowStart :=
  s <| hs_endPacketNumber := lastSent |> <| hs_currentMinRTT := 0 |> <| hs_rttSampleCount := 0 |> <| hs_started := true |>.

Definition IsEndOfRound (s : HybridSlowStart) (ack : PacketNumber) : bool := hs_endPacketNumber s <? ack.

(** The increase of the round-trip time that counts. *)
Definition rtt_threshold (minRTT : duration) : duration :=
  let us := Z.shiftr (Z.quot minRTT Microsecond) hybridStartDelayFactorExp in
  let us := Min us hybridStartDelayMaxThresholdUs in
  int64 (Max us hybridStartDelayMinThresholdUs * Microsecond).

Definition ShouldExitSlowStart (s : HybridSlowStart) (latestRTT minRTT : duration) (congestionWindow : ByteCount) : HybridSlowStart * bool :=
  (* Time to start the hybrid slow start. *)
  let s := if negb (hs_started s) then StartReceiveRound s (hs_lastSentPacketNumber s) else s in
  if hs_hystartFound s then (s, true) else
  let s := s <| hs_rttSampleCount := uint32 (hs_rttSampleCount s + 1) |> in
  let s := if hs_rttSampleCount s <=? hybridStartMinSamples then
             if (hs_currentMinRTT s =? 0) || (latestRTT <? hs_currentMinRTT s) then s <| hs_currentMinRTT := latestRTT |> else s
           else s in
  (* We only need to check this once per round. *)
  let s := if hs_rttSampleCount s =? hybridStartMinSamples then
             if int64 (minRTT + rtt_threshold minRTT) <? hs_currentMinRTT s then s <| hs_hystartFound := true |> else s
           else s in
  (s, (hybridStartLowWindow <=? congestionWindow) && hs_hystartFound s).

Definition hs_OnPacketSent (s : HybridSlowStart) (packetNumber : PacketNumber) : HybridSlowStart := s <| hs_lastSentPacketNumber := packetNumber |>.
Definition hs_OnPacketAcked (s : HybridSlowStart) (ackedPacketNumber : PacketNumber) : HybridSlowStart :=
  if IsEndOfRound s ackedPacketNumber then s <| hs_started := false |> else s.
Definition Restart (s : HybridSlowStart) : HybridSlowStart := s <| hs_started := false |> <| hs_hystartFound := false |>.

(** ** Proportional rate reduction (prr_sender.go) *)

Record PrrSender := mkPrrSender {
  prr_bytesSentSinceLoss : ByteCount;
  prr_bytesDeliveredSinceLoss : ByteCount;
  prr_ackCountSinceLoss : ByteCount;
  prr_bytesInFlightBeforeLoss : ByteCount
}.

#[global] Instance PrrSender_eta : Eta PrrSender := fun p =>
  mkPrrSender (prr_bytesSentSinceLoss p) (prr_bytesDeliveredSinceLoss p) (prr_ackCountSinceLoss p) (prr_bytesInFlightBeforeLoss p).

Definition prr_OnPacketSent (p : PrrSender) (sentBytes : ByteCount) : PrrSender :=
  p <| prr_bytesSentSinceLoss := uint64 (prr_bytesSentSinceLoss p + sentBytes) |>.

Definition prr_OnPacketLost (p : PrrSender) (priorInFlight : ByteCount) : PrrSender := mkPrrSender 0 0 0 priorInFlight.

Definition prr_OnPacketAcked (p : PrrSender) (ackedBytes : ByteCount) : PrrSender :=
  p <| prr_bytesDeliveredSinceLoss := uint64 (prr_bytesDeliveredSinceLoss p + ackedBytes) |>
    <| prr_ackCountSinceLoss := uint64 (prr_ackCountSinceLoss p + 1) |>.

Definition prr_CanSend (p : PrrSender) (congestionWindow bytesInFlight slowstartThreshold : ByteCount) : bool :=
  if (prr_bytesSentSinceLoss p =? 0) || (bytesInFlight <? DefaultTCPMSS) then true
  else if bytesInFlight <? congestionWindow then
    prr_bytesSentSinceLoss p <? uint64 (prr_bytesDeliveredSinceLoss p + uint64 (prr_ackCountSinceLoss p * DefaultTCPMSS))
  else uint64 (prr_bytesSentSinceLoss p * prr_bytesInFlightBeforeLoss p) <? uint64 (prr_bytesDeliveredSinceLoss p * slowstartThreshold).

(** ** The cubic function (cubic.go) *)

Definition cubeScale : Z := 40.
Definition cubeCongestionWindowScale : Z := 410.
Definition cubeFactor : ByteCount := 2 ^ cubeScale / cubeCongestionWindowScale / DefaultTCPMSS.
Definition defaultNumConnections : Z := 2.
Definition cubicBeta : float := fconst32 7 10.
Definition cubicBetaLastMax : float := fconst32 17 20.

Record Cubic := mkCubic {
  cu_numConnections : Z;
  cu_epoch : time;
  cu_lastMaxCongestionWindow : ByteCount;
  cu_ackedBytesCount : ByteCount;
  cu_estimatedTCPcongestionWindow : ByteCount;
  cu_originPointCongestionWindow : ByteCount;
  cu_timeToOriginPoint : Z;               (* uint32 *)
  cu_lastTargetCongestionWindow : ByteCount
}.

#[global] Instance Cubic_eta : Eta Cubic := fun c =>
  mkCubic (cu_numConnections c) (cu_epoch c) (cu_lastMaxCongestionWindow c) (cu_ackedBytesCount c) (cu_estimatedTCPcongestionWindow c)
    (cu_originPointCongestionWindow c) (cu_timeToOriginPoint c) (cu_lastTargetCongestionWindow c).

Definition cubic_Reset (c : Cubic) : Cubic := mkCubic (cu_numConnections c) zero_time 0 0 0 0 0 0.
Definition NewCubic : Cubic := cubic_Reset (mkCubic defaultNumConnections zero_time 0 0 0 0 0 0).

(** The effective multiplier of [numConnections] connections. *)
Definition connections_beta (b : float) (numConnections : Z) : float :=
  fdiv32 (fadd32 (fsub32 (float32 numConnections) (float32 1)) b) (float32 numConnections).

Definition cubic_beta (c : Cubic) : float := connections_beta cubicBeta (cu_numConnections c).
Definition cubic_betaLastMax (c : Cubic) : float := connections_beta cubicBetaLastMax (cu_numConnections c).
Definition cubic_alpha (c : Cubic) : float :=
  let b := cubic_beta c in
  let n := float32 (cu_numConnections c) in
  fdiv32 (fmul32 (fmul32 (fmul32 (float32 3) n) n) (fsub32 (float32 1) b)) (fadd32 (float32 1) b).

Definition OnApplicationLimited (c : Cubic) : Cubic := c <| cu_epoch := zero_time |>.
Definition SetNumConnections (c : Cubic) (n : Z) : Cubic := c <| cu_numConnections := n |>.

Section Cubic.
Context `{FloatConv} (Cbrt : float -> float).

Definition CongestionWindowAfterPacketLoss (c : Cubic) (currentCongestionWindow : ByteCount) : Cubic * ByteCount :=
  let c := if uint64 (currentCongestionWindow + DefaultTCPMSS) <? cu_lastMaxCongestionWindow c then
             (* We never reached the old max, so assume we are competing with another flow. *)
             c <| cu_lastMaxCongestionWindow := f2uint64 (fmul32 (cubic_betaLastMax c) (float32 currentCongestionWindow)) |>
           else c <| cu_lastMaxCongestionWindow := currentCongestionWindow |> in
  let c := c <| cu_epoch := zero_time |> in
  (c, f2uint64 (fmul32 (float32 currentCongestionWindow) (cubic_beta c))).

(** The first ACK after a loss event. *)
Definition start_epoch (c : Cubic) (ackedBytes currentCongestionWindow : ByteCount) (eventTime : time) : Cubic :=
  let c := c <| cu_epoch := eventTime |> <| cu_ackedBytesCount := ackedBytes |>
             <| cu_estimatedTCPcongestionWindow := currentCongestionWindow |> in
  if cu_lastMaxCongestionWindow c <=? currentCongestionWindow then
    c <| cu_timeToOriginPoint := 0 |> <| cu_originPointCongestionWindow := currentCongestionWindow |>
  else
    c <| cu_timeToOriginPoint :=
           uint32 (f2int64 (Cbrt (float64 (uint64 (cubeFactor * uint64 (cu_lastMaxCongestionWindow c - currentCongestionWindow)))))) |>
      <| cu_originPointCongestionWindow := cu_lastMaxCongestionWindow c |>.

(** The window of the cubic function at a time. *)
Definition cubic_target (c : Cubic) (delayMin : duration) (eventTime : time) : ByteCount :=
  let elapsedTime := Z.quot (int64 (Z.quot (Sub (Prelude.Add eventTime delayMin) (cu_epoch c)) Microsecond * 1024)) (1000 * 1000) in
  let offset := int64 (cu_timeToOriginPoint c - elapsedTime) in
  let offset := if offset <? 0 then int64 (- offset) else offset in
  let deltaCongestionWindow :=
    Z.shiftr (uint64 (uint64 (int64 (cubeCongestionWindowScale * offset * offset * offset)) * DefaultTCPMSS)) cubeScale in
  if cu_timeToOriginPoint c <? elapsedTime then uint64 (cu_originPointCongestionWindow c + deltaCongestionWindow)
  else uint64 (cu_originPointCongestionWindow c - deltaCongestionWindow).

(** The bytes that the estimate of a Reno window grows by. *)
Definition reno_increase (c : Cubic) : ByteCount :=
  f2uint64 (fdiv32 (fmul32 (fmul32 (float32 (cu_ackedBytesCount c)) (cubic_alpha c)) (float32 DefaultTCPMSS))
              (float32 (cu_estimatedTCPcongestionWindow c))).

Definition CongestionWindowAfterAck (c : Cubic) (ackedBytes currentCongestionWindow : ByteCount) (delayMin : duration) (eventTime : time) :
    Cubic * ByteCount :=
  let c := c <| cu_ackedBytesCount := uint64 (cu_ackedBytesCount c + ackedBytes) |> in
  let c := if IsZero (cu_epoch c) then start_epoch c ackedBytes currentCongestionWindow eventTime else c in
  let targetCongestionWindow := cubic_target c delayMin eventTime in
  (* Limit the CWND increase to half the acked bytes. *)
  let targetCongestionWindow := MinByteCount targetCongestionWindow (uint64 (currentCongestionWindow + cu_ackedBytesCount c / 2)) in
  let c := c <| cu_estimatedTCPcongestionWindow := uint64 (cu_estimatedTCPcongestionWindow c + reno_increase c) |> in
  let c := c <| cu_ackedBytesCount := 0 |> <| cu_lastTargetCongestionWindow := targetCongestionWindow |> in
  (c, if targetCongestionWindow <? cu_estimatedTCPcongestionWindow c then cu_estimatedTCPcongestionWindow c else targetCongestionWindow).

(** ** The sender (cubic_sender.go) *)

Definition maxBurstBytes : ByteCount := 3 * DefaultTCPMSS.
Definition renoBeta : float := fconst32 7 10.
Definition defaultMinimumCongestionWindow : ByteCount := 2 * DefaultTCPMSS.

Record cubicSender := mkCubicSender {
  cs_hybridSlowStart : HybridSlowStart;
  cs_prr : PrrSender;
  cs_slowstartPacketsLost : PacketNumber;
  cs_slowstartBytesLost : ByteCount;
  cs_cubic : Cubic;
  cs_noPRR : bool;
  cs_reno : bool;
  cs_largestSentPacketNumber : PacketNumber;
  cs_largestAckedPacketNumber : PacketNumber;
  cs_largestSentAtLastCutback : PacketNumber;
  cs_lastCutbackExitedSlowstart : bool;
  cs_slowStartLargeReduction : bool;
  cs_congestionWindow : ByteCount;
  cs_minCongestionWindow : ByteCount;
  cs_maxCongestionWindow : ByteCount;
  cs_slowstartThreshold : ByteCount;
  cs_numConnections : Z;
  cs_numAckedPackets : Z;                 (* uint64 *)
  cs_initialCongestionWindow : ByteCount;
  cs_initialMaxCongestionWindow : ByteCount;
  cs_minSlowStartExitWindow : ByteCount
}.

#[global] Instance cubicSender_eta : Eta cubicSender := fun c =>
  mkCubicSender (cs_hybridSlowStart c) (cs_prr c) (cs_slowstartPacketsLost c) (cs_slowstartBytesLost c) (cs_cubic c) (cs_noPRR c) (cs_reno c)
    (cs_largestSentPacketNumber c) (cs_largestAckedPacketNumber c) (cs_largestSentAtLastCutback c) (cs_lastCutbackExitedSlowstart c)
    (cs_slowStartLargeReduction c) (cs_congestionWindow c) (cs_minCongestionWindow c) (cs_maxCongestionWindow c) (cs_slowstartThreshold c)
    (cs_numConnections c) (cs_numAckedPackets c) (cs_initialCongestionWindow c) (cs_initialMaxCongestionWindow c) (cs_minSlowStartExitWindow c).

Definition NewCubicSender (reno : bool) (initialCongestionWindow initialMaxCongestionWindow : ByteCount) : cubicSender :=
  mkCubicSender (mkHybridSlowStart 0 0 false 0 0 false) (mkPrrSender 0 0 0 0) 0 0 NewCubic false reno InvalidPacketNumber InvalidPacketNumber
    InvalidPacketNumber false false initialCongestionWindow defaultMinimumCongestionWindow initialMaxCongestionWindow initialMaxCongestionWindow
    defaultNumConnections 0 initialCongestionWindow initialMaxCongestionWindow 0.

Definition InRecovery (c : cubicSender) : bool :=
  negb (cs_largestAckedPacketNumber c =? InvalidPacketNumber) && (cs_largestAckedPacketNumber c <=? cs_largestSentAtLastCutback c).
Definition InSlowStart (c : cubicSender) : bool := cs_congestionWindow c <? cs_slowstartThreshold c.
Definition GetCongestionWindow (c : cubicSender) : ByteCount := cs_congestionWindow c.
Definition GetSlowStartThreshold (c : cubicSender) : ByteCount := cs_slowstartThreshold c.
Definition ExitSlowstart (c : cubicSender) : cubicSender := c <| cs_slowstartThreshold := cs_congestionWindow c |>.

Definition cubic_TimeUntilSend (c : cubicSender) (r : RTTStats) (bytesInFlight : ByteCount) : outcome duration :=
  if negb (cs_noPRR c) && InRecovery c && prr_CanSend (cs_prr c) (GetCongestionWindow c) bytesInFlight (GetSlowStartThreshold c) then mret 0 else
  let d := int64 (uint64 (2 * GetCongestionWindow c)) in
  if d =? 0 then Panic "integer divide by zero"
  else mret (int64 (Z.quot (int64 (smoothedRTT r * DefaultTCPMSS)) d)).

Definition cubic_OnPacketSent (c : cubicSender) (packetNumber : PacketNumber) (bytes : ByteCount) (isRetransmittable : bool) : cubicSender :=
  if negb isRetransmittable then c else
  let c := if InRecovery c then c <| cs_prr := prr_OnPacketSent (cs_prr c) bytes |> else c in
  c <| cs_largestSentPacketNumber := packetNumber |> <| cs_hybridSlowStart := hs_OnPacketSent (cs_hybridSlowStart c) packetNumber |>.

Definition cubic_CanSend (c : cubicSender) (bytesInFlight : ByteCount) : bool :=
  if negb (cs_noPRR c) && InRecovery c then prr_CanSend (cs_prr c) (GetCongestionWindow c) bytesInFlight (GetSlowStartThreshold c)
  else bytesInFlight <? GetCongestionWindow c.

Definition cubic_MaybeExitSlowStart (c : cubicSender) (r : RTTStats) : cubicSender :=
  if InSlowStart c then
    let '(hs, exits) := ShouldExitSlowStart (cs_hybridSlowStart c) (latestRTT r) (minRTT r) (GetCongestionWindow c / DefaultTCPMSS) in
    let c := c <| cs_hybridSlowStart := hs |> in
    if exits : bool then ExitSlowstart c else c
  else c.

Definition RenoBeta (c : cubicSender) : float := connections_beta renoBeta (cs_numConnections c).

Definition isCwndLimited (c : cubicSender) (bytesInFlight : ByteCount) : bool :=
  let congestionWindow := GetCongestionWindow c in
  if congestionWindow <=? bytesInFlight then true else
  let availableBytes := uint64 (congestionWindow - bytesInFlight) in
  let slowStartLimited := InSlowStart c && (congestionWindow / 2 <? bytesInFlight) in
  slowStartLimited || (availableBytes <=? maxBurstBytes).

Definition maybeIncreaseCwnd (c : cubicSender) (r : RTTStats) (ackedBytes priorInFlight : ByteCount) (eventTime : time) : cubicSender :=
  (* Do not increase the congestion window unless the sender is close to using the current window. *)
  if negb (isCwndLimited c priorInFlight) then c <| cs_cubic := OnApplicationLimited (cs_cubic c) |>
  else if cs_maxCongestionWindow c <=? cs_congestionWindow c then c
  (* TCP slow start, exponential growth, increase by one for each ACK. *)
  else if InSlowStart c then c <| cs_congestionWindow := uint64 (cs_congestionWindow c + DefaultTCPMSS) |>
  else if cs_reno c then
    (* Classic Reno congestion avoidance. *)
    let c := c <| cs_numAckedPackets := uint64 (cs_numAckedPackets c + 1) |> in
    if cs_congestionWindow c / DefaultTCPMSS <=? uint64 (cs_numAckedPackets c * uint64 (cs_numConnections c)) then
      c <| cs_congestionWindow := uint64 (cs_congestionWindow c + DefaultTCPMSS) |> <| cs_numAckedPackets := 0 |>
    else c
  else
    let '(cubic, w) := CongestionWindowAfterAck (cs_cubic c) ackedBytes (cs_congestionWindow c) (minRTT r) eventTime in
    c <| cs_cubic := cubic |> <| cs_congestionWindow := MinByteCount (cs_maxCongestionWindow c) w |>.

Definition cubic_OnPacketAcked (c : cubicSender) (r : RTTStats) (ackedPacketNumber : PacketNumber) (ackedBytes priorInFlight : ByteCount)
    (eventTime : time) : cubicSender :=
  let c := c <| cs_largestAckedPacketNumber := MaxPacketNumber ackedPacketNumber (cs_largestAckedPacketNumber c) |> in
  if InRecovery c then
    if negb (cs_noPRR c) then c <| cs_prr := prr_OnPacketAcked (cs_prr c) ackedBytes |> else c
  else
  let c := maybeIncreaseCwnd c r ackedBytes priorInFlight eventTime in
  if InSlowStart c then c <| cs_hybridSlowStart := hs_OnPacketAcked (cs_hybridSlowStart c) ackedPacketNumber |> else c.

(** What a loss that ends the round trip records, before the window changes. *)
Definition record_cutback (c : cubicSender) (priorInFlight : ByteCount) : cubicSender :=
  let c := c <| cs_lastCutbackExitedSlowstart := InSlowStart c |> in
  let c := if InSlowStart c then c <| cs_slowstartPacketsLost := cs_slowstartPacketsLost c + 1 |> else c in
  if negb (cs_noPRR c) then c <| cs_prr := prr_OnPacketLost (cs_prr c) priorInFlight |> else c.

Definition reduce_window (c : cubicSender) : cubicSender :=
  if cs_slowStartLargeReduction c && InSlowStart c then
    let c := if uint64 (2 * cs_initialCongestionWindow c) <=? cs_congestionWindow c
             then c <| cs_minSlowStartExitWindow := cs_congestionWindow c / 2 |> else c in
    c <| cs_congestionWindow := uint64 (cs_congestionWindow c - DefaultTCPMSS) |>
  else if cs_reno c then
    c <| cs_congestionWindow := f2uint64 (fmul32 (float32 (cs_congestionWindow c)) (RenoBeta c)) |>
  else
    let '(cubic, w) := CongestionWindowAfterPacketLoss (cs_cubic c) (cs_congestionWindow c) in
    c <| cs_cubic := cubic |> <| cs_congestionWindow := w |>.

Definition cubic_OnPacketLost (c : cubicSender) (packetNumber : PacketNumber) (lostBytes priorInFlight : ByteCount) : cubicSender :=
  (* TCP NewReno (RFC6582) says that once a loss occurs, any losses in packets already sent should be treated as a single loss event *)
  if packetNumber <=? cs_largestSentAtLastCutback c then
    if cs_lastCutbackExitedSlowstart c then
      let c := c <| cs_slowstartPacketsLost := cs_slowstartPacketsLost c + 1 |>
                 <| cs_slowstartBytesLost := uint64 (cs_slowstartBytesLost c + lostBytes) |> in
      if cs_slowStartLargeReduction c then
        let c := c <| cs_congestionWindow := MaxByteCount2 (uint64 (cs_congestionWindow c - lostBytes)) (cs_minSlowStartExitWindow c) |> in
        c <| cs_slowstartThreshold := cs_congestionWindow c |>
      else c
    else c
  else
  let c := reduce_window (record_cutback c priorInFlight) in
  let c := if cs_congestionWindow c <? cs_minCongestionWindow c then c <| cs_congestionWindow := cs_minCongestionWindow c |> else c in
  c <| cs_slowstartThreshold := cs_congestionWindow c |> <| cs_largestSentAtLastCutback := cs_largestSentPacketNumber c |>
    <| cs_numAckedPackets := 0 |>.

Definition BandwidthEstimate (c : cubicSender) (r : RTTStats) : outcome Bandwidth :=
  let srtt := smoothedRTT r in
  if srtt =? 0 then mret 0 else BandwidthFromDelta (GetCongestionWindow c) srtt.

Definition SetNumEmulatedConnections (c : cubicSender) (n : Z) : cubicSender :=
  let c := c <| cs_numConnections := Max n 1 |> in
  c <| cs_cubic := SetNumConnections (cs_cubic c) (cs_numConnections c) |>.

Definition cubic_OnRetransmissionTimeout (c : cubicSender) (packetsRetransmitted : bool) : cubicSender :=
  let c := c <| cs_largestSentAtLastCutback := InvalidPacketNumber |> in
  if negb packetsRetransmitted then c else
  let c := c <| cs_hybridSlowStart := Restart (cs_hybridSlowStart c) |> <| cs_cubic := cubic_Reset (cs_cubic c) |> in
  let c := c <| cs_slowstartThreshold := cs_congestionWindow c / 2 |> in
  c <| cs_congestionWindow := cs_minCongestionWindow c |>.

Definition cubic_OnConnectionMigration (c : cubicSender) : cubicSender :=
  c <| cs_hybridSlowStart := Restart (cs_hybridSlowStart c) |> <| cs_prr := mkPrrSender 0 0 0 0 |>
    <| cs_largestSentPacketNumber := InvalidPacketNumber |> <| cs_largestAckedPacketNumber := InvalidPacketNumber |>
    <| cs_largestSentAtLastCutback := InvalidPacketNumber |> <| cs_lastCutbackExitedSlowstart := false |>
    <| cs_cubic := cubic_Reset (cs_cubic c) |> <| cs_numAckedPackets := 0 |> <| cs_congestionWindow := cs_initialCongestionWindow c |>
    <| cs_slowstartThreshold := cs_initialMaxCongestionWindow c |> <| cs_maxCongestionWindow := cs_initialMaxCongestionWindow c |>.

Definition SetSlowStartLargeReduction (c : cubicSender) (enabled : bool) : cubicSender := c <| cs_slowStartLargeReduction := enabled |>.

End Cubic.
