(* ===== verification/CubicProperties.v ===== *)
(** * What the CUBIC sender guarantees

    The congestion window stays between its smallest and largest values through every sequence of events, a loss cuts it once for
    all the packets of a round trip, and the reduction that is off by default can take it below zero. *)

From Stdlib Require Import Floats.SpecFloat.
From S2P Require Import Prelude GoFloat FloatBounds Protocol RTTStats Cubic.

Section Sender.
Context `{FloatConv} (Cbrt : float -> float).

(** ** The events of a connection *)

Inductive cubic_event :=
| sent (packetNumber : PacketNumber) (bytes : ByteCount) (isRetransmittable : bool)
| maybe_exit_slow_start (r : RTTStats)
| acked (r : RTTStats) (ackedPacketNumber : PacketNumber) (ackedBytes priorInFlight : ByteCount) (eventTime : time)
| lost (packetNumber : PacketNumber) (lostBytes priorInFlight : ByteCount)
| timed_out (packetsRetransmitted : bool)
| migrated.

Definition cubic_run (c : cubicSender) (e : cubic_event) : cubicSender :=
  match e with
  | sent n b rt => cubic_OnPacketSent c n b rt
  | maybe_exit_slow_start r => cubic_MaybeExitSlowStart c r
  | acked r n b prior t => cubic_OnPacketAcked Cbrt c r n b prior t
  | lost n b prior => cubic_OnPacketLost c n b prior
  | timed_out retransmitted => cubic_OnRetransmissionTimeout c retransmitted
  | migrated => cubic_OnConnectionMigration c
  end.

(** An ACK is for less than a terabyte. *)
Definition event_ok (e : cubic_event) : Prop := match e with acked _ _ b _ _ => 0 <= b <= 2 ^ 40 | _ => True end.

(** ** The arithmetic of a cut and of an increase *)

Definition two_connections_beta : float := S754_finite false 14260634 (-24).

Lemma two_connections : connections_beta cubicBeta defaultNumConnections = two_connections_beta /\ connections_beta renoBeta defaultNumConnections = two_connections_beta.
Proof. split; vm_compute; reflexivity. Qed.

Lemma beta_finite : finite32 two_connections_beta (14260634 * 2 ^ 276).
Proof. right. exists 14260634%positive, (-24). split_and!; [done|lia|lia|lia|done]. Qed.

(** Two connections reduce the window by 15 per cent. *)
Lemma window_cut w :
  defaultMinimumCongestionWindow <= w < 2 ^ 62 -> 84 * w <= 100 * f2uint64 (fmul32 (float32 w) two_connections_beta) <= 86 * w.
Proof.
  unfold defaultMinimumCongestionWindow, DefaultTCPMSS. intros Hw. destruct (float32_bounds w) as (v & Hv & Hvl & Hvu); [lia|].
  destruct (fmul32_bounds _ _ _ _ Hv beta_finite) as (u & Hu & Hul & Huu); [lia|].
  pose proof (f2uint64_bounds _ _ Hu ltac:(lia)) as Hf. lia.
Qed.

Lemma alpha_finite c : cu_numConnections c = defaultNumConnections -> exists v, finite32 (cubic_alpha c) v /\ v <= 2 ^ 300.
Proof.
  intros E. unfold cubic_alpha, cubic_beta. rewrite E. set (a := fdiv32 _ _). vm_compute in a.
  exists (Z.pos (match a with S754_finite _ p _ => p | _ => 1 end) * 2 ^ (match a with S754_finite _ _ e => e | _ => 0 end + 300)).
  split; [right; do 2 eexists; split_and!; [reflexivity|vm_compute; done|vm_compute; done|vm_compute; done|done]|vm_compute; done].
Qed.

(** The estimate of a Reno window grows by at most the acknowledged bytes. *)
Lemma reno_increase_bound c :
  cu_numConnections c = defaultNumConnections -> 0 <= cu_ackedBytesCount c <= 2 ^ 40 ->
  defaultMinimumCongestionWindow <= cu_estimatedTCPcongestionWindow c < 2 ^ 63 -> 0 <= reno_increase c <= cu_ackedBytesCount c + 1.
Proof.
  unfold defaultMinimumCongestionWindow, DefaultTCPMSS. intros Hn Ha He. destruct (alpha_finite c Hn) as (va & Hva & Hle).
  destruct (float32_bounds (cu_ackedBytesCount c)) as (v & Hv & Hvl & Hvu); [lia|].
  destruct (float32_bounds (cu_estimatedTCPcongestionWindow c)) as (w & Hw & Hwl & Hwu); [lia|].
  destruct (float32_bounds 1460) as (s & Hs & Hsl & Hsu); [done|].
  pose proof (finite32_nonneg _ _ Hv) as Hv0. pose proof (finite32_nonneg _ _ Hva) as Hva0. pose proof (finite32_nonneg _ _ Hs) as Hs0.
  set (a := cu_ackedBytesCount c) in *. set (est := cu_estimatedTCPcongestionWindow c) in *.
  assert (Hv1 : 10 * v <= 11 * (a + 1) * 2 ^ 300) by lia. assert (Hvva : 0 <= v * va <= v * 2 ^ 300) by nia.
  destruct (fmul32_bounds _ _ _ _ Hv Hva) as (u1 & Hu1 & _ & Hle1); [lia|]. pose proof (finite32_nonneg _ _ Hu1) as Hu10.
  assert (Hu1b : 10 * u1 <= 12 * (a + 1) * 2 ^ 300) by lia. assert (Hs1 : s <= 1461 * 2 ^ 300) by lia. assert (Hus : 0 <= u1 * s <= u1 * (1461 * 2 ^ 300)) by nia.
  destruct (fmul32_bounds _ _ _ _ Hu1 Hs) as (u2 & Hu2 & _ & Hle2); [lia|]. assert (Hu2b : 10 * u2 <= 13 * 1461 * (a + 1) * 2 ^ 300) by lia.
  assert (Hw1 : 2919 * 2 ^ 300 <= w) by lia. destruct (fdiv32_bound _ _ _ _ Hu2 Hw) as (u & Hu & Hleu); [lia|lia|].
  assert (Hub : 100 * u <= 70 * (a + 1) * 2 ^ 300).
  { apply (Z.mul_le_mono_pos_r _ _ w); [lia|]. assert (2919 * 2 ^ 300 * (a + 1) <= w * (a + 1)) by nia. lia. }
  pose proof (f2uint64_bounds _ _ Hu ltac:(lia)) as Hf. pose proof (finite32_nonneg _ _ Hu). unfold reno_increase. fold a est. change DefaultTCPMSS with 1460. lia.
Qed.

(** ** The invariant *)

Record cubic_ok (init max : ByteCount) (c : cubicSender) : Prop := {
  ok_min : cs_minCongestionWindow c = defaultMinimumCongestionWindow;
  ok_max : cs_maxCongestionWindow c = max;
  ok_initial : cs_initialCongestionWindow c = init;
  ok_initial_max : cs_initialMaxCongestionWindow c = max;
  ok_no_large_reduction : cs_slowStartLargeReduction c = false;
  ok_connections : cs_numConnections c = defaultNumConnections;
  ok_cubic_connections : cu_numConnections (cs_cubic c) = defaultNumConnections;
  ok_window : defaultMinimumCongestionWindow <= cs_congestionWindow c < max + DefaultTCPMSS;
  ok_acked : cu_ackedBytesCount (cs_cubic c) = 0;
  ok_reno : cs_reno c = true -> cu_epoch (cs_cubic c) = zero_time;
  ok_estimate : cu_epoch (cs_cubic c) = zero_time \/
    defaultMinimumCongestionWindow <= cu_estimatedTCPcongestionWindow (cs_cubic c) /\
    (cu_estimatedTCPcongestionWindow (cs_cubic c) <= cs_congestionWindow c \/ max <= cs_congestionWindow c)
}.

Ltac cubic_ok_tac := constructor; cbn; unfold defaultMinimumCongestionWindow, DefaultTCPMSS in *; rewrite ?uint64_id by (unfold is_uint64; lia); try done; try lia.

(** The window after an ACK is at least the estimate of a Reno window, which only grows. *)
Lemma after_ack_bounds c ackedBytes w delayMin t :
  0 <= ackedBytes <= 2 ^ 40 -> defaultMinimumCongestionWindow <= w < 2 ^ 62 -> cu_ackedBytesCount c = 0 -> cu_numConnections c = defaultNumConnections ->
  cu_epoch c = zero_time \/ defaultMinimumCongestionWindow <= cu_estimatedTCPcongestionWindow c <= w ->
  let '(c', w') := CongestionWindowAfterAck Cbrt c ackedBytes w delayMin t in
  cu_numConnections c' = defaultNumConnections /\ cu_ackedBytesCount c' = 0 /\
  defaultMinimumCongestionWindow <= cu_estimatedTCPcongestionWindow c' <= w'.
Proof.
  intros Ha Hw H0 Hn He. unfold CongestionWindowAfterAck.
  set (c1 := if IsZero _ then _ else _).
  assert (Hc1 : cu_numConnections c1 = defaultNumConnections /\ cu_ackedBytesCount c1 = ackedBytes /\
    defaultMinimumCongestionWindow <= cu_estimatedTCPcongestionWindow c1 <= w).
  { unfold c1. cbn. rewrite H0, uint64_id by (unfold is_uint64; lia). unfold IsZero. destruct (Z.eqb_spec (cu_epoch c) 0) as [E|E].
    - unfold start_epoch. case_if; cbn; split_and!; done || lia.
    - destruct He as [|He]; [done|]. cbn. split_and!; done || lia. }
  destruct Hc1 as (Hn1 & Ha1 & He1). clearbody c1.
  pose proof (reno_increase_bound c1 Hn1) as Hr. rewrite Ha1 in Hr. specialize (Hr Ha ltac:(lia)).
  unfold defaultMinimumCongestionWindow, DefaultTCPMSS in *. cbn. rewrite (uint64_id (_ + reno_increase c1)) by (unfold is_uint64; lia).
  split_and!; [done|done|lia|]. case_if; zbool; lia.
Qed.

Lemma increase_keeps init max c r ackedBytes prior t :
  max < 2 ^ 61 -> 0 <= ackedBytes <= 2 ^ 40 -> cubic_ok init max c -> cubic_ok init max (maybeIncreaseCwnd Cbrt c r ackedBytes prior t).
Proof.
  intros Hm Ha Hok. pose proof Hok as [Hmin Hmax Hini Him Hsl Hnc Hcn Hw Hcb Hre He]. unfold maybeIncreaseCwnd.
  case_if; [cubic_ok_tac; by left|]. rewrite Hmax. destruct (Z.leb_spec max (cs_congestionWindow c)); [done|].
  case_if; [cubic_ok_tac|]. case_if; [case_if; cubic_ok_tac|].
  pose proof (after_ack_bounds (cs_cubic c) ackedBytes (cs_congestionWindow c) (minRTT r) t Ha) as Hb.
  destruct (CongestionWindowAfterAck Cbrt (cs_cubic c) ackedBytes (cs_congestionWindow c) (minRTT r) t) as [c' w'].
  destruct Hb as (Hn' & Hc' & He'); [unfold defaultMinimumCongestionWindow, DefaultTCPMSS in *; lia|done|done|destruct He as [|He]; [by left|right; lia]|].
  unfold MinByteCount. cubic_ok_tac; [|congruence|]; rewrite ?Hmax; case_if; zbool; lia.
Qed.

(** ** A loss *)

#[local] Opaque f2uint64 fmul32 float32 connections_beta.

(** A loss of a packet sent before the last cut changes no window; another one cuts it by 15 per cent, not below the smallest window. *)
Lemma lost_before c n b prior :
  cs_slowStartLargeReduction c = false -> n <= cs_largestSentAtLastCutback c ->
  exists p q, cubic_OnPacketLost c n b prior = c <| cs_slowstartPacketsLost := p |> <| cs_slowstartBytesLost := q |>.
Proof.
  intros Hs Hn. unfold cubic_OnPacketLost. rewrite (proj2 (Z.leb_le _ _) Hn). destruct (cs_lastCutbackExitedSlowstart c).
  - cbn. rewrite Hs. by do 2 eexists.
  - exists (cs_slowstartPacketsLost c), (cs_slowstartBytesLost c). by destruct c.
Qed.

Lemma record_cutback_keeps c prior :
  exists a b p, record_cutback c prior = c <| cs_lastCutbackExitedSlowstart := a |> <| cs_slowstartPacketsLost := b |> <| cs_prr := p |>.
Proof.
  unfold record_cutback. exists (InSlowStart c), (if InSlowStart c then cs_slowstartPacketsLost c + 1 else cs_slowstartPacketsLost c),
    (if negb (cs_noPRR c) then prr_OnPacketLost (cs_prr c) prior else cs_prr c).
  destruct c as [? ? ? ? ? noPRR ? ? ? ? ? ? cwnd ? ? threshold ? ? ? ? ?]. unfold InSlowStart. cbn. by destruct (cwnd <? threshold), noPRR.
Qed.

(** The window of a sender without the large reduction, after a cut. *)
Lemma reduce_window_cuts c :
  cs_slowStartLargeReduction c = false -> cs_numConnections c = defaultNumConnections -> cu_numConnections (cs_cubic c) = defaultNumConnections ->
  defaultMinimumCongestionWindow <= cs_congestionWindow c < 2 ^ 62 -> (cs_reno c = true -> cu_epoch (cs_cubic c) = zero_time) ->
  exists w cu, reduce_window c = c <| cs_cubic := cu |> <| cs_congestionWindow := w |> /\ 84 * cs_congestionWindow c <= 100 * w <= 86 * cs_congestionWindow c /\
    cu_numConnections cu = defaultNumConnections /\ cu_ackedBytesCount cu = cu_ackedBytesCount (cs_cubic c) /\ cu_epoch cu = zero_time.
Proof.
  intros Hs Hn Hcn Hw Hr. destruct two_connections as [Hbc Hbr]. pose proof (window_cut _ Hw) as Hcut. unfold reduce_window. rewrite Hs. cbn [andb].
  destruct (cs_reno c) eqn:Er.
  - unfold RenoBeta. rewrite Hn, Hbr. do 2 eexists. split; [|split; [exact Hcut|]]; [|split_and!; [exact Hcn|done|by apply Hr]]. by destruct c.
  - assert (Hcw : exists lm, CongestionWindowAfterPacketLoss (cs_cubic c) (cs_congestionWindow c) =
      (cs_cubic c <| cu_lastMaxCongestionWindow := lm |> <| cu_epoch := zero_time |>, f2uint64 (fmul32 (float32 (cs_congestionWindow c)) two_connections_beta))).
    { unfold CongestionWindowAfterPacketLoss, cubic_beta. rewrite <- Hbc, <- Hcn. destruct (_ <? _); by eexists. }
    destruct Hcw as (lm & ->). do 2 eexists. split; [reflexivity|]. split; [exact Hcut|]. exact (conj Hcn (conj eq_refl eq_refl)).
Qed.

Lemma lost_cuts init max c n b prior :
  max < 2 ^ 61 -> cubic_ok init max c -> cs_largestSentAtLastCutback c < n ->
  let c' := cubic_OnPacketLost c n b prior in
  exists w, 84 * cs_congestionWindow c <= 100 * w <= 86 * cs_congestionWindow c /\ cs_congestionWindow c' = Z.max defaultMinimumCongestionWindow w /\
    cs_slowstartThreshold c' = cs_congestionWindow c' /\ cs_largestSentAtLastCutback c' = cs_largestSentPacketNumber c /\ cubic_ok init max c'.
Proof.
  intros Hm [Hmin Hmax Hini Him Hsl Hnc Hcn Hw Hcb Hre He] Hn. unfold cubic_OnPacketLost. rewrite (proj2 (Z.leb_gt _ _) Hn).
  destruct (record_cutback_keeps c prior) as (x & y & p & ->). set (c1 := c <| cs_lastCutbackExitedSlowstart := x |> <| cs_slowstartPacketsLost := y |> <| cs_prr := p |>).
  destruct (reduce_window_cuts c1) as (w & cu & -> & Hcut & Hcu & Hca & Hce); [done|done|done|unfold DefaultTCPMSS in *; cbn; lia|done|].
  cbn in Hcut, Hca. exists w. split; [done|]. cbn. rewrite Hmin. unfold defaultMinimumCongestionWindow, DefaultTCPMSS in *.
  destruct (Z.ltb_spec w (2 * 1460)); cbn; (split_and!; [lia|done|done|]); cubic_ok_tac; rewrite ?Hca; done || by left.
Qed.

(** ** Every event *)

Lemma event_keeps init max c e :
  defaultMinimumCongestionWindow <= init <= max -> max < 2 ^ 61 -> event_ok e -> cubic_ok init max c -> cubic_ok init max (cubic_run c e).
Proof.
  intros Hi Hm He Hok. pose proof Hok as [Hmin Hmax Hini Him Hsl Hnc Hcn Hw Hcb Hre Hest]. destruct e as [n b rt|r|r n b prior t|n b prior|rt|]; cbn [cubic_run event_ok] in *.
  - unfold cubic_OnPacketSent. destruct rt; [|done]. cbn. case_if; by constructor.
  - unfold cubic_MaybeExitSlowStart. case_if; [|done]. destruct (ShouldExitSlowStart _ _ _ _) as [hs []]; by constructor.
  - unfold cubic_OnPacketAcked. set (c1 := c <| cs_largestAckedPacketNumber := _ |>). assert (Hc1 : cubic_ok init max c1) by (by constructor).
    case_if; [case_if; by destruct Hc1; constructor|]. pose proof (increase_keeps init max c1 r b prior t Hm He Hc1) as Hc2. cbv zeta. case_if; [|done]. by destruct Hc2; constructor.
  - destruct (Z.le_gt_cases n (cs_largestSentAtLastCutback c)) as [Hn|Hn].
    + destruct (lost_before c n b prior Hsl Hn) as (p & q & ->). by constructor.
    + by destruct (lost_cuts init max c n b prior Hm Hok ltac:(lia)) as (_ & _ & _ & _ & _ & ?).
  - unfold cubic_OnRetransmissionTimeout. destruct rt; [|by constructor]. cbn. cubic_ok_tac; by left.
  - unfold cubic_OnConnectionMigration. cubic_ok_tac; by left.
Qed.

Definition cubic_connection (reno : bool) (init max : ByteCount) (evs : list cubic_event) : cubicSender := foldl cubic_run (NewCubicSender reno init max) evs.

Lemma connection_ok reno init max evs :
  defaultMinimumCongestionWindow <= init <= max -> max < 2 ^ 61 -> Forall event_ok evs -> cubic_ok init max (cubic_connection reno init max evs).
Proof.
  intros Hi Hm. unfold cubic_connection. assert (H0 : cubic_ok init max (NewCubicSender reno init max)) by (cubic_ok_tac; by left).
  revert H0. generalize (NewCubicSender reno init max). induction evs as [|e evs IH]; intros c Hc He; [done|].
  apply Forall_cons in He as [He Hes]. cbn [foldl]. apply IH; [|done]. by apply event_keeps.
Qed.

(** C11. Through every sequence of packets sent, acknowledged and lost, timeouts and migrations, with CUBIC or with Reno, the congestion window stays at two
    packets or more and below the largest window and one packet, and the delay between packets is computed without a division by zero. *)
Theorem cubic_window_bounds reno init max evs :
  defaultMinimumCongestionWindow <= init <= max -> max < 2 ^ 61 -> Forall event_ok evs ->
  let c := cubic_connection reno init max evs in
  defaultMinimumCongestionWindow <= GetCongestionWindow c < max + DefaultTCPMSS /\
  forall r bytesInFlight, exists d, cubic_TimeUntilSend c r bytesInFlight = Ret d.
Proof.
  intros Hi Hm He c. destruct (connection_ok reno init max evs Hi Hm He) as [_ _ _ _ _ _ _ Hw _ _ _]. fold c in Hw. split; [exact Hw|].
  intros r b. unfold cubic_TimeUntilSend, GetCongestionWindow. case_if; [by eexists|]. unfold defaultMinimumCongestionWindow, DefaultTCPMSS in *.
  rewrite uint64_id, int64_id by (unfold is_uint64, is_int64; lia). destruct (Z.eqb_spec (2 * cs_congestionWindow c) 0); [lia|by eexists].
Qed.

(** C21. A loss cuts the window by 14 to 16 per cent, not below two packets, and ends slow start; the losses of packets that were sent before it, in any
    number and order, do not cut it again. *)
Theorem cubic_cuts_once reno init max evs n b prior losses :
  defaultMinimumCongestionWindow <= init <= max -> max < 2 ^ 61 -> Forall event_ok evs ->
  let c := cubic_connection reno init max evs in
  cs_largestSentAtLastCutback c < n -> Forall (fun '(m, _, _) => m <= cs_largestSentPacketNumber c) losses ->
  let c' := foldl (fun c '(m, b, prior) => cubic_OnPacketLost c m b prior) (cubic_OnPacketLost c n b prior) losses in
  exists w, 84 * GetCongestionWindow c <= 100 * w <= 86 * GetCongestionWindow c /\
    GetCongestionWindow c' = Z.max defaultMinimumCongestionWindow w /\ InSlowStart c' = false.
Proof.
  intros Hi Hm He c Hn Hl c'. pose proof (connection_ok reno init max evs Hi Hm He) as Hok. fold c in Hok.
  destruct (lost_cuts init max c n b prior Hm Hok Hn) as (w & Hcut & Hw & Ht & Hb & [_ _ _ _ Hs _ _ _ _ _ _]). exists w. split; [exact Hcut|].
  unfold c'. clear c'. revert Hw Ht Hb Hs. generalize (cubic_OnPacketLost c n b prior). induction losses as [|[[m b'] prior'] losses IH]; intros c1 Hw Ht Hb Hs; cbn [foldl].
  { split; [exact Hw|]. unfold InSlowStart. rewrite Ht. apply Z.ltb_irrefl. }
  apply Forall_cons in Hl as [Hm1 Hl]. destruct (lost_before c1 m b' prior' Hs) as (p & q & ->); [by rewrite Hb|]. by apply IH.
Qed.

(** ** The large reduction of slow start *)

(** Packets of a size, sent while the window allows it. *)
Fixpoint fill_window (fuel : nat) (c : cubicSender) (n : PacketNumber) (size inFlight : ByteCount) : cubicSender * PacketNumber :=
  match fuel with
  | O => (c, n)
  | S fuel => if cubic_CanSend c inFlight then fill_window fuel (cubic_OnPacketSent c n size true) (n + 1) size (inFlight + size) else (c, n)
  end.

Definition lose_all (c : cubicSender) (sent : nat) (size : ByteCount) : cubicSender :=
  foldl (fun c i => cubic_OnPacketLost c (Z.of_nat i) size 0) c (seq 1 sent).

(** With the large reduction of slow start, which [SetSlowStartLargeReduction] turns on, the loss of the packets of a first window takes the window
    to zero, where the delay between packets is a division by zero, or, when the packets are a byte shorter than the maximum, below zero, which is an unsigned window of
    almost 2^64 bytes. *)
Theorem large_reduction_wraps (r : RTTStats) :
  let c := SetSlowStartLargeReduction (NewCubicSender false (10 * DefaultTCPMSS) (100 * DefaultTCPMSS)) true in
  let '(full, next) := fill_window 20 c 1 DefaultTCPMSS 0 in
  let '(more, next') := fill_window 20 c 1 (DefaultTCPMSS - 1) 0 in
  next = 11 /\ GetCongestionWindow (lose_all full 10 DefaultTCPMSS) = 0 /\
  cubic_TimeUntilSend (lose_all full 10 DefaultTCPMSS) r DefaultTCPMSS = Panic "integer divide by zero" /\
  next' = 12 /\ GetCongestionWindow (lose_all more 11 (DefaultTCPMSS - 1)) = 2 ^ 64 - 1450.
Proof. vm_compute. split_and!; reflexivity. Qed.

End Sender.

(** ** An example *)

#[local] Existing Instance amd64.

Definition example_rtt : RTTStats := UpdateRTT NewRTTStats (100 * Millisecond) 0.

(** Ten packets and an ACK in slow start. *)
Definition example_events : list cubic_event :=
  map (fun i => sent (Z.of_nat i) 1460 true) (seq 1 10) ++ [maybe_exit_slow_start example_rtt; acked example_rtt 1 1460 14600 (10 * Second)].

Lemma cubic_window_bounds_witness :
  let c := cubic_connection (fun x => x) false 14600 146000 example_events in
  defaultMinimumCongestionWindow <= GetCongestionWindow c < 146000 + DefaultTCPMSS /\
  forall r bytesInFlight, exists d, cubic_TimeUntilSend c r bytesInFlight = Ret d.
Proof.
  apply (cubic_window_bounds (fun x => x) false 14600 146000 example_events).
  - unfold defaultMinimumCongestionWindow, DefaultTCPMSS. lia.
  - lia.
  - unfold example_events. repeat constructor; cbn; done.
Defined.

(** Packet 3 is lost, then packets 5 and 4: the window of 16060 bytes is cut to 13651. *)
Lemma cubic_cuts_once_witness :
  let c := cubic_connection (fun x => x) false 14600 146000 example_events in
  (let c' := foldl (fun c '(m, b, prior) => cubic_OnPacketLost c m b prior) (cubic_OnPacketLost c 3 1460 13140) [(5, 1460, 11680); (4, 1460, 10220)] in
   exists w, 84 * GetCongestionWindow c <= 100 * w <= 86 * GetCongestionWindow c /\
    GetCongestionWindow c' = Z.max defaultMinimumCongestionWindow w /\ InSlowStart c' = false) /\
  GetCongestionWindow c = 16060 /\ GetCongestionWindow (cubic_OnPacketLost c 3 1460 13140) = 13651.
Proof.
  cbv zeta. split; [|split; vm_compute; reflexivity].
  refine (cubic_cuts_once (fun x => x) false 14600 146000 example_events 3 1460 13140 [(5, 1460, 11680); (4, 1460, 10220)] _ _ _ _ _).
  - unfold defaultMinimumCongestionWindow, DefaultTCPMSS. lia.
  - lia.
  - unfold example_events. repeat constructor; cbn; done.
  - vm_compute. reflexivity.
  - repeat constructor; vm_compute; discriminate.
Defined.
