(* ===== verification/BBR.v ===== *)
(** * The BBR sender (internal/congestion/bbr_sender.go)

    The congestion controller: its model of the path (bandwidth, round-trip
    time, round counter), the STARTUP / DRAIN / PROBE_BW / PROBE_RTT state
    machine, loss recovery, and the pacing rate and congestion window computed
    from them.  What the sender reads from its surroundings during a call (the
    bytes in flight, the connection's minimum RTT, random numbers) is the
    [Env] of the call. *)

From S2P Require Import Prelude GoFloat Protocol AckFrame WindowedFilter BandwidthSampler.

(** ** Constants *)

Definition MaxOutgoingPacketSize : ByteCount := 1452.
Definition MaxSegmentSize : ByteCount := DefaultTCPMSS.
Definition InitialRtt : duration := 100 * Millisecond.
Definition DefaultMinimumCongestionWindow : ByteCount := 4 * DefaultTCPMSS.
Definition fone : float := fconst64 1 1.
Definition DefaultHighGain : float := fconst64 2885 1000.
Definition StartupAfterLossGain : float := fconst64 3 2.
Definition PacingGain : list float :=
  [fconst64 5 4; fconst64 3 4; fone; fone; fone; fone; fone; fone].
Definition GainCycleLength : Z := 8.
Definition BandwidthWindowSize : Z := GainCycleLength + 2.
Definition MinRttExpiry : duration := 10 * Second.
Definition ProbeRttTime : duration := Millisecond * 200.
Definition StartupGrowthTarget : float := fconst64 5 4.
Definition RoundTripsWithoutGrowthBeforeExitingStartup : Z := 3.
Definition ModerateProbeRttMultiplier : float := fconst64 3 4.
Definition SimilarMinRttThreshold : float := fconst64 9 8.
Definition DefaultCongestionWindowGainConst : float := fconst64 2 1.

(** ** State *)

Inductive bbrMode : Type := STARTUP | DRAIN | PROBE_BW | PROBE_RTT.
Inductive bbrRecoveryState : Type := NOT_IN_RECOVERY | CONSERVATION | GROWTH.

#[global] Instance bbrMode_eq_dec : EqDecision bbrMode.
Proof. solve_decision. Defined.
#[global] Instance bbrRecoveryState_eq_dec : EqDecision bbrRecoveryState.
Proof. solve_decision. Defined.

(** [protocol.Packet] *)
Record Packet := mkPacket {
  pkt_PacketNumber : PacketNumber;
  pkt_PacketType : Z;
  pkt_Length : ByteCount;
  pkt_SendTime : time
}.

Record bbrSender := mkbbr {
  mode : bbrMode;
  sampler : BandwidthSampler;
  roundTripCount : Z;
  lastSendPacket : PacketNumber;
  currentRoundTripEnd : PacketNumber;
  maxBandwidth : WindowedFilter;
  maxAckHeight : WindowedFilter;
  aggregationEpochStartTime : time;
  aggregationEpochBytes : ByteCount;
  minRtt : duration;
  minRttTimestamp : time;
  congestionWindow : ByteCount;
  initialCongestionWindow : ByteCount;
  maxCongestionWindow : ByteCount;
  minCongestionWindow : ByteCount;
  highGain : float;
  highCwndGain : float;
  drainGain : float;
  pacingRate : Bandwidth;
  pacingGain : float;
  congestionWindowGain : float;
  congestionWindowGainConst : float;
  numStartupRtts : Z;
  exitStartupOnLoss : bool;
  cycleCurrentOffset : Z;
  lastCycleStart : time;
  isAtFullBandwidth : bool;
  roundsWithoutBandwidthGain : Z;
  bandwidthAtLastRound : Bandwidth;
  exitingQuiescence : bool;
  exitProbeRttAt : time;
  probeRttRoundPassed : bool;
  lastSampleIsAppLimited : bool;
  hasNoAppLimitedSample : bool;
  flexibleAppLimited : bool;
  recoveryState : bbrRecoveryState;
  endRecoveryAt : PacketNumber;
  recoveryWindow : ByteCount;
  isAppLimitedRecovery : bool;
  slowerStartup : bool;
  rateBasedStartup : bool;
  startupRateReductionMultiplier : Z;
  startupBytesLost : ByteCount;
  enableAckAggregationDuringStartup : bool;
  expireAckAggregationInStartup : bool;
  drainToTarget : bool;
  probeRttBasedOnBdp : bool;
  probeRttSkippedIfSimilarRtt : bool;
  probeRttDisabledIfAppLimited : bool;
  appLimitedSinceLastProbeRtt : bool;
  minRttSinceLastProbeRtt : duration;
  alwaysGetBwSampleWhenAcked : bool
}.

#[global] Instance bbr_eta : Eta bbrSender := fun b =>
  mkbbr (mode b) (sampler b) (roundTripCount b) (lastSendPacket b) (currentRoundTripEnd b)
    (maxBandwidth b) (maxAckHeight b) (aggregationEpochStartTime b) (aggregationEpochBytes b)
    (minRtt b) (minRttTimestamp b) (congestionWindow b) (initialCongestionWindow b)
    (maxCongestionWindow b) (minCongestionWindow b) (highGain b) (highCwndGain b) (drainGain b)
    (pacingRate b) (pacingGain b) (congestionWindowGain b) (congestionWindowGainConst b)
    (numStartupRtts b) (exitStartupOnLoss b) (cycleCurrentOffset b) (lastCycleStart b)
    (isAtFullBandwidth b) (roundsWithoutBandwidthGain b) (bandwidthAtLastRound b)
    (exitingQuiescence b) (exitProbeRttAt b) (probeRttRoundPassed b) (lastSampleIsAppLimited b)
    (hasNoAppLimitedSample b) (flexibleAppLimited b) (recoveryState b) (endRecoveryAt b)
    (recoveryWindow b) (isAppLimitedRecovery b) (slowerStartup b) (rateBasedStartup b)
    (startupRateReductionMultiplier b) (startupBytesLost b) (enableAckAggregationDuringStartup b)
    (expireAckAggregationInStartup b) (drainToTarget b) (probeRttBasedOnBdp b)
    (probeRttSkippedIfSimilarRtt b) (probeRttDisabledIfAppLimited b)
    (appLimitedSinceLastProbeRtt b) (minRttSinceLastProbeRtt b) (alwaysGetBwSampleWhenAcked b).

(** What a call reads from outside the sender: [GetBytesInFlight()],
    [rttStats.MinRTT()], and the results of [rand.Int()] on leaving DRAIN and
    on leaving PROBE_RTT. *)
Record Env := mkEnv {
  inFlight : ByteCount;
  statsMinRTT : duration;
  randDrain : Z;
  randProbeRtt : Z
}.

Definition NewBBRSender (initialCwnd maxCwnd : ByteCount) : bbrSender := {|
  mode := STARTUP;
  sampler := NewBandwidthSampler;
  roundTripCount := 0;
  lastSendPacket := 0;
  currentRoundTripEnd := 0;
  maxBandwidth := NewWindowedFilter BandwidthWindowSize MaxFilter;
  maxAckHeight := NewWindowedFilter BandwidthWindowSize MaxFilter;
  aggregationEpochStartTime := zero_time;
  aggregationEpochBytes := 0;
  minRtt := 0;
  minRttTimestamp := zero_time;
  congestionWindow := initialCwnd;
  initialCongestionWindow := initialCwnd;
  maxCongestionWindow := maxCwnd;
  minCongestionWindow := DefaultMinimumCongestionWindow;
  highGain := DefaultHighGain;
  highCwndGain := DefaultHighGain;
  drainGain := fdiv64 fone DefaultHighGain;
  pacingRate := 0;
  pacingGain := fone;
  congestionWindowGain := fone;
  congestionWindowGainConst := DefaultCongestionWindowGainConst;
  numStartupRtts := RoundTripsWithoutGrowthBeforeExitingStartup;
  exitStartupOnLoss := false;
  cycleCurrentOffset := 0;
  lastCycleStart := zero_time;
  isAtFullBandwidth := false;
  roundsWithoutBandwidthGain := 0;
  bandwidthAtLastRound := 0;
  exitingQuiescence := false;
  exitProbeRttAt := zero_time;
  probeRttRoundPassed := false;
  lastSampleIsAppLimited := false;
  hasNoAppLimitedSample := false;
  flexibleAppLimited := false;
  recoveryState := NOT_IN_RECOVERY;
  endRecoveryAt := 0;
  recoveryWindow := maxCwnd;
  isAppLimitedRecovery := false;
  slowerStartup := false;
  rateBasedStartup := false;
  startupRateReductionMultiplier := 0;
  startupBytesLost := 0;
  enableAckAggregationDuringStartup := false;
  expireAckAggregationInStartup := false;
  drainToTarget := false;
  probeRttBasedOnBdp := false;
  probeRttSkippedIfSimilarRtt := false;
  probeRttDisabledIfAppLimited := false;
  appLimitedSinceLastProbeRtt := false;
  minRttSinceLastProbeRtt := InfiniteRTT;
  alwaysGetBwSampleWhenAcked := false
|}.

Definition minRtt2 (a b : duration) : duration := if a <? b then a else b.
Definition maxByteCount (a b : ByteCount) : ByteCount := if b <? a then a else b.
Definition minByteCount (a b : ByteCount) : ByteCount := if a <? b then a else b.

Section BBR.
Context `{FloatConv}.

(** ** Queries *)

Definition BandwidthEstimate (b : bbrSender) : Bandwidth := uint64 (GetBest (maxBandwidth b)).

Definition GetMinRtt (b : bbrSender) : duration :=
  if 0 <? minRtt b then minRtt b else InitialRtt.

Definition InRecovery (b : bbrSender) : bool := negb (bool_decide (recoveryState b = NOT_IN_RECOVERY)).

Definition InSlowStart (b : bbrSender) : bool := bool_decide (mode b = STARTUP).

Definition GetTargetCongestionWindow (b : bbrSender) (gain : float) : ByteCount :=
  let bdp := uint64 (uint64 (GetMinRtt b) * BandwidthEstimate b) in
  let cwnd := f2uint64 (fmul64 gain (float64 bdp)) in
  (* BDP estimate will be zero if no bandwidth samples are available yet. *)
  let cwnd :=
    if cwnd =? 0 then f2uint64 (fmul64 gain (float64 (initialCongestionWindow b))) else cwnd in
  maxByteCount cwnd (minCongestionWindow b).

Definition ProbeRttCongestionWindow (b : bbrSender) : ByteCount :=
  if probeRttBasedOnBdp b then GetTargetCongestionWindow b ModerateProbeRttMultiplier
  else minCongestionWindow b.

Definition GetCongestionWindow (b : bbrSender) : ByteCount :=
  if bool_decide (mode b = PROBE_RTT) then ProbeRttCongestionWindow b else
  if InRecovery b && negb (rateBasedStartup b && bool_decide (mode b = STARTUP)) then
    minByteCount (congestionWindow b) (recoveryWindow b)
  else congestionWindow b.

Definition CanSend (b : bbrSender) (bytesInFlight : ByteCount) : bool :=
  bytesInFlight <? GetCongestionWindow b.

Definition TimeUntilSend (b : bbrSender) (bytesInFlight : ByteCount) : duration := Microsecond.

Definition IsPipeSufficientlyFull (b : bbrSender) (env : Env) : bool :=
  (* See if we need more bytes in flight to see more bandwidth. *)
  if bool_decide (mode b = STARTUP) then
    GetTargetCongestionWindow b (fconst64 3 2) <=? inFlight env
  else if flt fone (pacingGain b) then
    (* Super-unity PROBE_BW doesn't exit until 1.25 * BDP is achieved. *)
    GetTargetCongestionWindow b (pacingGain b) <=? inFlight env
  else GetTargetCongestionWindow b (fconst64 11 10) <=? inFlight env.

Definition ShouldSendProbingPacket (b : bbrSender) (env : Env) : bool :=
  if fle (pacingGain b) fone then false
  else if flexibleAppLimited b then negb (IsPipeSufficientlyFull b env)
  else true.

(** ** Sending *)

(** [bbrSender.OnPacketSent] *)
Definition bbr_OnPacketSent (b : bbrSender) (sentTime : time) (bytesInFlight : ByteCount)
    (packetNumber : PacketNumber) (nbytes : ByteCount) (isRetransmittable : bool) : bbrSender :=
  let b := b <| lastSendPacket := packetNumber |> in
  let b := if (bytesInFlight =? 0) && s_isAppLimited (sampler b)
           then b <| exitingQuiescence := true |> else b in
  let b := if IsZero (aggregationEpochStartTime b)
           then b <| aggregationEpochStartTime := sentTime |> else b in
  b <| sampler := sampler_OnPacketSent (sampler b) sentTime packetNumber nbytes bytesInFlight
                    isRetransmittable |>.

(** The per-packet callbacks are not to be used with this sender. *)
Definition bbr_OnPacketAcked (b : bbrSender) (number : PacketNumber)
    (ackedBytes priorInFlight : ByteCount) (eventTime : time) : outcome bbrSender :=
  Panic "should call OnCongestionEvent()".
Definition bbr_OnPacketLost (b : bbrSender) (number : PacketNumber)
    (lostBytes priorInFlight : ByteCount) : outcome bbrSender :=
  Panic "should call OnCongestionEvent()".

(** ** The model of the path *)

Definition UpdateRoundTripCounter (b : bbrSender) (lastAckedPacket : PacketNumber) :
    bbrSender * bool :=
  if (currentRoundTripEnd b =? 0) || (currentRoundTripEnd b <? lastAckedPacket) then
    (b <| currentRoundTripEnd := lastAckedPacket |>
       <| roundTripCount := int64 (roundTripCount b + 1) |>, true)
  else (b, false).

(** The body of the loop of [UpdateBandwidthAndMinRtt] for one packet. *)
Definition update_bandwidth_one (now : time) (st : bbrSender * duration) (packet : Packet) :
    outcome (bbrSender * duration) :=
  let '(b, sampleMinRtt) := st in
  if negb (alwaysGetBwSampleWhenAcked b) && (pkt_Length packet =? 0) then
    (* Skip acked packets with 0 in flight bytes when updating bandwidth. *)
    mret (b, sampleMinRtt)
  else
  r ← sampler_OnPacketAcked (sampler b) now (pkt_PacketNumber packet);
  let '(s, bandwidthSample) := r in
  let b := b <| sampler := s |> in
  if alwaysGetBwSampleWhenAcked b && negb (isValid (stateAtSend bandwidthSample)) then
    (* From the sampler's perspective, the packet has never been sent, or the
       packet has been acked or marked as lost previously. *)
    mret (b, sampleMinRtt)
  else
  let b := b <| lastSampleIsAppLimited := isAppLimited (stateAtSend bandwidthSample) |> in
  let b := if negb (isAppLimited (stateAtSend bandwidthSample))
           then b <| hasNoAppLimitedSample := true |> else b in
  let sampleMinRtt :=
    if 0 <? rtt bandwidthSample then minRtt2 sampleMinRtt (rtt bandwidthSample) else sampleMinRtt in
  let b :=
    if negb (isAppLimited (stateAtSend bandwidthSample)) ||
       (BandwidthEstimate b <? bandwidth bandwidthSample)
    then b <| maxBandwidth :=
           Update (maxBandwidth b) (int64 (bandwidth bandwidthSample)) (roundTripCount b) |>
    else b in
  mret (b, sampleMinRtt).

Fixpoint update_bandwidth_loop (now : time) (st : bbrSender * duration) (ackedPackets : list Packet) :
    outcome (bbrSender * duration) :=
  match ackedPackets with
  | [] => mret st
  | packet :: l => st ← update_bandwidth_one now st packet; update_bandwidth_loop now st l
  end.

Definition ShouldExtendMinRttExpiry (b : bbrSender) : bool :=
  if probeRttDisabledIfAppLimited b && appLimitedSinceLastProbeRtt b then true else
  let minRttIncreasedSinceLastProbe :=
    f2int64 (fmul64 (float64 (minRtt b)) SimilarMinRttThreshold) <? minRttSinceLastProbeRtt b in
  if probeRttSkippedIfSimilarRtt b && appLimitedSinceLastProbeRtt b &&
     negb minRttIncreasedSinceLastProbe
  then true else false.

Definition UpdateBandwidthAndMinRtt (b : bbrSender) (now : time) (ackedPackets : list Packet) :
    outcome (bbrSender * bool) :=
  st ← update_bandwidth_loop now (b, InfiniteRTT) ackedPackets;
  let '(b, sampleMinRtt) := st in
  (* If none of the RTT samples are valid, return immediately. *)
  if sampleMinRtt =? InfiniteRTT then mret (b, false) else
  let b := b <| minRttSinceLastProbeRtt := minRtt2 (minRttSinceLastProbeRtt b) sampleMinRtt |> in
  (* Do not expire min_rtt if none was ever available. *)
  let minRttExpired := (0 <? minRtt b) && After now (Add (minRttTimestamp b) MinRttExpiry) in
  if minRttExpired || (sampleMinRtt <? minRtt b) || (minRtt b =? 0) then
    let '(b, minRttExpired) :=
      if minRttExpired && ShouldExtendMinRttExpiry b then (b, false)
      else (b <| minRtt := sampleMinRtt |>, minRttExpired) in
    let b := b <| minRttTimestamp := now |>
               (* Reset since_last_probe_rtt fields. *)
               <| minRttSinceLastProbeRtt := InfiniteRTT |>
               <| appLimitedSinceLastProbeRtt := false |> in
    mret (b, minRttExpired)
  else mret (b, minRttExpired).

Fixpoint DiscardLostPackets (b : bbrSender) (lostPackets : list Packet) : bbrSender :=
  match lostPackets with
  | [] => b
  | packet :: l =>
      let b := b <| sampler := fst (sampler_OnPacketLost (sampler b) (pkt_PacketNumber packet)) |> in
      let b :=
        if bool_decide (mode b = STARTUP) && negb (startupRateReductionMultiplier b =? 0)
        then b <| startupBytesLost := uint64 (startupBytesLost b + pkt_Length packet) |> else b in
      DiscardLostPackets b l
  end.

(** ** Loss recovery *)

(** The [GROWTH] case of the switch, which [CONSERVATION] falls through to. *)
Definition maybe_exit_recovery (b : bbrSender) (hasLosses : bool) : bbrSender :=
  if negb hasLosses && (endRecoveryAt b <? lastSendPacket b) then
    b <| recoveryState := NOT_IN_RECOVERY |> <| isAppLimitedRecovery := false |>
  else b.

(** The switch of [UpdateRecoveryState]. *)
Definition recovery_switch (b : bbrSender) (hasLosses isRoundStart : bool) : bbrSender :=
  match recoveryState b with
  | NOT_IN_RECOVERY =>
      (* Enter conservation on the first loss; the branch that would set
         [isAppLimitedRecovery] is disabled by a constant [false]. *)
      if hasLosses then
        b <| recoveryState := CONSERVATION |>
          <| recoveryWindow := 0 |>
          <| currentRoundTripEnd := lastSendPacket b |>
      else b
  | CONSERVATION =>
      maybe_exit_recovery (if isRoundStart then b <| recoveryState := GROWTH |> else b) hasLosses
  | GROWTH => maybe_exit_recovery b hasLosses
  end.

Definition UpdateRecoveryState (b : bbrSender) (lastAckedPacket : PacketNumber)
    (hasLosses isRoundStart : bool) : bbrSender :=
  (* Exit recovery when there are no losses for a round. *)
  let b := if negb hasLosses then b <| endRecoveryAt := lastSendPacket b |> else b in
  let b := recovery_switch b hasLosses isRoundStart in
  if negb (bool_decide (recoveryState b = NOT_IN_RECOVERY)) && isAppLimitedRecovery b then
    b <| sampler := sampler_OnAppLimited (sampler b) |>
  else b.

Definition UpdateAckAggregationBytes (b : bbrSender) (ackTime : time) (ackedBytes : ByteCount) :
    bbrSender * ByteCount :=
  (* Compute how many bytes are expected to be delivered, assuming max bandwidth
     is correct. *)
  let expectedAckedBytes :=
    uint64 (uint64 (GetBest (maxBandwidth b)) *
            uint64 (Sub ackTime (aggregationEpochStartTime b))) in
  if aggregationEpochBytes b <=? expectedAckedBytes then
    (* Reset to start measuring a new aggregation epoch. *)
    (b <| aggregationEpochBytes := ackedBytes |> <| aggregationEpochStartTime := ackTime |>, 0)
  else
    let b := b <| aggregationEpochBytes := uint64 (aggregationEpochBytes b + ackedBytes) |> in
    let excess := uint64 (aggregationEpochBytes b - expectedAckedBytes) in
    (b <| maxAckHeight := Update (maxAckHeight b) (int64 excess) (roundTripCount b) |>, excess).

(** ** The state machine *)

(** [PacingGain[i]] *)
Definition gain_at (i : Z) : outcome float :=
  if i <? 0 then Panic "index out of range" else index PacingGain (Z.to_nat i).

Definition UpdateGainCyclePhase (b : bbrSender) (env : Env) (now : time) (priorInFlight : ByteCount)
    (hasLosses : bool) : outcome bbrSender :=
  let bytesInFlight := inFlight env in
  (* In most cases, the cycle is advanced after an RTT passes. *)
  let shouldAdvanceGainCycling := GetMinRtt b <? Sub now (lastCycleStart b) in
  let shouldAdvanceGainCycling :=
    if flt fone (pacingGain b) && negb hasLosses &&
       (priorInFlight <? GetTargetCongestionWindow b (pacingGain b))
    then false else shouldAdvanceGainCycling in
  let shouldAdvanceGainCycling :=
    if flt (pacingGain b) fone && (bytesInFlight <=? GetTargetCongestionWindow b fone)
    then true else shouldAdvanceGainCycling in
  if shouldAdvanceGainCycling then
    let b := b <| cycleCurrentOffset := Z.rem (cycleCurrentOffset b + 1) GainCycleLength |>
               <| lastCycleStart := now |> in
    gain ← gain_at (cycleCurrentOffset b);
    (* Stay in low gain mode until the target BDP is hit. *)
    if drainToTarget b && flt (pacingGain b) fone && feq gain fone &&
       (GetTargetCongestionWindow b fone <? bytesInFlight)
    then mret b
    else mret (b <| pacingGain := gain |>)
  else mret b.

Definition CheckIfFullBandwidthReached (b : bbrSender) : bbrSender :=
  if lastSampleIsAppLimited b then b else
  let target := f2uint64 (fmul64 (float64 (bandwidthAtLastRound b)) StartupGrowthTarget) in
  if target <=? BandwidthEstimate b then
    let b := b <| bandwidthAtLastRound := BandwidthEstimate b |>
               <| roundsWithoutBandwidthGain := 0 |> in
    if expireAckAggregationInStartup b then
      (* Expire old excess delivery measurements now that bandwidth increased. *)
      b <| maxAckHeight := Reset (maxAckHeight b) 0 (roundTripCount b) |>
    else b
  else
    let b := b <| roundsWithoutBandwidthGain := int64 (roundsWithoutBandwidthGain b + 1) |> in
    if (numStartupRtts b <=? roundsWithoutBandwidthGain b) || (exitStartupOnLoss b && InRecovery b)
    then b <| isAtFullBandwidth := true |> else b.

Definition EnterProbeBandwidthMode (b : bbrSender) (rnd : Z) (now : time) : outcome bbrSender :=
  let b := b <| mode := PROBE_BW |> <| congestionWindowGain := congestionWindowGainConst b |> in
  (* Pick a random offset for the gain cycle out of {0, 2..7} range. *)
  let offset := Z.rem rnd (GainCycleLength - 1) in
  let offset := if 1 <=? offset then offset + 1 else offset in
  let b := b <| cycleCurrentOffset := offset |> <| lastCycleStart := now |> in
  gain ← gain_at (cycleCurrentOffset b);
  mret (b <| pacingGain := gain |>).

Definition EnterStartupMode (b : bbrSender) : bbrSender :=
  b <| mode := STARTUP |> <| pacingGain := highGain b |> <| congestionWindowGain := highCwndGain b |>.

(** [OnExitStartup] has no effect on the sender. *)
Definition OnExitStartup (b : bbrSender) : bbrSender := b.

Definition MaybeExitStartupOrDrain (b : bbrSender) (env : Env) (now : time) : outcome bbrSender :=
  let b :=
    if bool_decide (mode b = STARTUP) && isAtFullBandwidth b then
      let b := OnExitStartup b in
      b <| mode := DRAIN |> <| pacingGain := drainGain b |> <| congestionWindowGain := highCwndGain b |>
    else b in
  if bool_decide (mode b = DRAIN) && (inFlight env <=? GetTargetCongestionWindow b fone) then
    EnterProbeBandwidthMode b (randDrain env) now
  else mret b.

(** Its first part: enter PROBE_RTT when the minimum RTT has expired. *)
Definition enter_probe_rtt (b : bbrSender) (minRttExpired : bool) : bbrSender :=
  if minRttExpired && negb (exitingQuiescence b) && negb (bool_decide (mode b = PROBE_RTT)) then
    let b := if InSlowStart b then OnExitStartup b else b in
    b <| mode := PROBE_RTT |>
      <| pacingGain := fone |>
      (* Do not decide on the time to exit PROBE_RTT until the
         |bytes_in_flight| is at the target small value. *)
      <| exitProbeRttAt := zero_time |>
  else b.

(** Its second part, in PROBE_RTT: schedule the exit, or exit. *)
Definition run_probe_rtt (b : bbrSender) (env : Env) (now : time) (isRoundStart : bool) :
    outcome bbrSender :=
  let b := b <| sampler := sampler_OnAppLimited (sampler b) |> in
  if IsZero (exitProbeRttAt b) then
    (* If the window has reached the appropriate size, schedule exiting
       PROBE_RTT. *)
    if inFlight env <? uint64 (ProbeRttCongestionWindow b + MaxOutgoingPacketSize) then
      mret (b <| exitProbeRttAt := Add now ProbeRttTime |> <| probeRttRoundPassed := false |>)
    else mret b
  else
    let b := if isRoundStart then b <| probeRttRoundPassed := true |> else b in
    if negb (Before now (exitProbeRttAt b)) && probeRttRoundPassed b then
      let b := b <| minRttTimestamp := now |> in
      if negb (isAtFullBandwidth b) then mret (EnterStartupMode b)
      else EnterProbeBandwidthMode b (randProbeRtt env) now
    else mret b.

Definition MaybeEnterOrExitProbeRtt (b : bbrSender) (env : Env) (now : time)
    (isRoundStart minRttExpired : bool) : outcome bbrSender :=
  let b := enter_probe_rtt b minRttExpired in
  b ← (if bool_decide (mode b = PROBE_RTT) then run_probe_rtt b env now isRoundStart else mret b);
  mret (b <| exitingQuiescence := false |>).

(** ** Pacing rate and windows *)

Definition CalculatePacingRate (b : bbrSender) (env : Env) : outcome bbrSender :=
  if BandwidthEstimate b =? 0 then mret b else
  let targetRate := f2uint64 (fmul64 (pacingGain b) (float64 (BandwidthEstimate b))) in
  if isAtFullBandwidth b then mret (b <| pacingRate := targetRate |>) else
  (* Pace at the rate of initial_window / RTT as soon as RTT measurements are
     available. *)
  if (pacingRate b =? 0) && (0 <? statsMinRTT env) then
    rate ← BandwidthFromDelta (initialCongestionWindow b) (statsMinRTT env);
    mret (b <| pacingRate := rate |>)
  else
  (* Slow the pacing rate in STARTUP once loss has ever been detected. *)
  let hasEverDetectedLoss := 0 <? endRecoveryAt b in
  if slowerStartup b && hasEverDetectedLoss && hasNoAppLimitedSample b then
    mret (b <| pacingRate := f2uint64 (fmul64 StartupAfterLossGain (float64 (BandwidthEstimate b))) |>)
  else
  (* Slow the pacing rate in STARTUP by the bytes_lost / CWND. *)
  if negb (startupRateReductionMultiplier b =? 0) && hasEverDetectedLoss && hasNoAppLimitedSample b then
    let b := b <| pacingRate :=
      f2uint64 (fmul64
        (fsub64 fone (fdiv64 (fmul64 (float64 (startupBytesLost b))
                                     (float64 (startupRateReductionMultiplier b)))
                             (float64 (congestionWindow b))))
        (float64 targetRate)) |> in
    (* Ensure the pacing rate doesn't drop below the startup growth target times
       the bandwidth estimate. *)
    mret (b <| pacingRate :=
      maxBandwidth2 (pacingRate b)
        (f2uint64 (fmul64 StartupGrowthTarget (float64 (BandwidthEstimate b)))) |>)
  else
  (* Do not decrease the pacing rate during startup. *)
  mret (b <| pacingRate := maxBandwidth2 (pacingRate b) targetRate |>).

Definition CalculateCongestionWindow (b : bbrSender) (ackedBytes excessAcked : ByteCount) : bbrSender :=
  if bool_decide (mode b = PROBE_RTT) then b else
  let targetWindow := GetTargetCongestionWindow b (congestionWindowGain b) in
  let targetWindow :=
    if isAtFullBandwidth b then
      (* Add the max recently measured ack aggregation to CWND. *)
      uint64 (targetWindow + uint64 (GetBest (maxAckHeight b)))
    else if enableAckAggregationDuringStartup b then
      (* Add the most recent excess acked. *)
      uint64 (targetWindow + excessAcked)
    else targetWindow in
  (* BBR grows the CWND towards |target_window| by only increasing it
     |bytes_acked| at a time. *)
  let b :=
    if isAtFullBandwidth b then
      b <| congestionWindow :=
        minByteCount targetWindow (uint64 (congestionWindow b + ackedBytes)) |>
    else if (congestionWindow b <? targetWindow) ||
            (totalBytesAcked (sampler b) <? initialCongestionWindow b) then
      (* If the connection is not yet out of startup phase, do not decrease the
         window. *)
      b <| congestionWindow := uint64 (congestionWindow b + ackedBytes) |>
    else b in
  (* Enforce the limits on the congestion window. *)
  let b := b <| congestionWindow := maxByteCount (congestionWindow b) (minCongestionWindow b) |> in
  b <| congestionWindow := minByteCount (congestionWindow b) (maxCongestionWindow b) |>.

Definition CalculateRecoveryWindow (b : bbrSender) (env : Env) (ackedBytes lostBytes : ByteCount) :
    bbrSender :=
  if rateBasedStartup b && bool_decide (mode b = STARTUP) then b else
  if bool_decide (recoveryState b = NOT_IN_RECOVERY) then b else
  (* Set up the initial recovery window. *)
  if recoveryWindow b =? 0 then
    b <| recoveryWindow := maxByteCount (uint64 (inFlight env + ackedBytes)) (minCongestionWindow b) |>
  else
  (* Remove losses from the recovery window, while accounting for a potential
     integer underflow. *)
  let b :=
    if lostBytes <=? recoveryWindow b then
      b <| recoveryWindow := uint64 (recoveryWindow b - lostBytes) |>
    else b <| recoveryWindow := MaxSegmentSize |> in
  (* In CONSERVATION mode, just subtracting losses is sufficient.  In GROWTH,
     release additional |bytes_acked| to achieve a slow-start-like behavior. *)
  let b :=
    if bool_decide (recoveryState b = GROWTH) then
      b <| recoveryWindow := uint64 (recoveryWindow b + ackedBytes) |>
    else b in
  (* Sanity checks.  Ensure that we always allow to send at least an MSS or
     |bytes_acked| in response, whichever is larger. *)
  let b := b <| recoveryWindow := maxByteCount (recoveryWindow b) (uint64 (inFlight env + ackedBytes)) |> in
  b <| recoveryWindow := maxByteCount (recoveryWindow b) (minCongestionWindow b) |>.

(** ** OnCongestionEvent *)

Fixpoint sum_lengths (acc : ByteCount) (packets : list Packet) : ByteCount :=
  match packets with
  | [] => acc
  | packet :: l => sum_lengths (uint64 (acc + pkt_Length packet)) l
  end.

(** The part of [OnCongestionEvent] run when packets were acknowledged: the
    new state, [isRoundStart], [minRttExpired] and [excessAcked]. *)
Definition on_acked (b : bbrSender) (eventTime : time) (ackedPackets lostPackets : list Packet)
    (totalBytesAckedBefore : ByteCount) : outcome (bbrSender * bool * bool * ByteCount) :=
  match last ackedPackets with
  | None => mret (b, false, false, 0)
  | Some lastPacket =>
      let lastAckedPacket := pkt_PacketNumber lastPacket in
      let hasLosses := (0 <? length lostPackets)%nat in
      let '(b, isRoundStart) := UpdateRoundTripCounter b lastAckedPacket in
      r ← UpdateBandwidthAndMinRtt b eventTime ackedPackets;
      let '(b, minRttExpired) := r in
      let b := UpdateRecoveryState b lastAckedPacket hasLosses isRoundStart in
      let bytesAcked := uint64 (totalBytesAcked (sampler b) - totalBytesAckedBefore) in
      let '(b, excessAcked) := UpdateAckAggregationBytes b eventTime bytesAcked in
      mret (b, isRoundStart, minRttExpired, excessAcked)
  end.

(** The part of [OnCongestionEvent] that drives the state machine. *)
Definition run_machine (b : bbrSender) (env : Env) (priorInFlight : ByteCount) (eventTime : time)
    (hasLosses isRoundStart minRttExpired : bool) : outcome bbrSender :=
  (* Handle logic specific to PROBE_BW mode. *)
  b ← (if bool_decide (mode b = PROBE_BW)
       then UpdateGainCyclePhase b env eventTime priorInFlight hasLosses else mret b);
  (* Handle logic specific to STARTUP and DRAIN modes. *)
  let b := if isRoundStart && negb (isAtFullBandwidth b) then CheckIfFullBandwidthReached b else b in
  b ← MaybeExitStartupOrDrain b env eventTime;
  (* Handle logic specific to PROBE_RTT. *)
  MaybeEnterOrExitProbeRtt b env eventTime isRoundStart minRttExpired.

Definition OnCongestionEvent (b : bbrSender) (env : Env) (priorInFlight : ByteCount)
    (eventTime : time) (ackedPackets lostPackets : list Packet) : outcome bbrSender :=
  let totalBytesAckedBefore := totalBytesAcked (sampler b) in
  let hasLosses := (0 <? length lostPackets)%nat in
  let b := DiscardLostPackets b lostPackets in
  (* Input the new data into the BBR model of the connection. *)
  r ← on_acked b eventTime ackedPackets lostPackets totalBytesAckedBefore;
  let '(b, isRoundStart, minRttExpired, excessAcked) := r in
  b ← run_machine b env priorInFlight eventTime hasLosses isRoundStart minRttExpired;
  (* Calculate number of packets acked and lost. *)
  let bytesAcked := uint64 (totalBytesAcked (sampler b) - totalBytesAckedBefore) in
  let bytesLost := sum_lengths 0 lostPackets in
  (* After the model is updated, recalculate the pacing rate and congestion
     window. *)
  b ← CalculatePacingRate b env;
  let b := CalculateCongestionWindow b bytesAcked excessAcked in
  mret (CalculateRecoveryWindow b env bytesAcked bytesLost).

End BBR.
