(* ===== verification/BBRProperties.v ===== *)
(** * Invariants of the BBR sender

    What every operation of [BBR.v] keeps, the invariant of the sender at the
    boundaries of its public calls, and the properties that follow for every
    reachable state. *)

From Stdlib Require Import Sorting.Sorted.
From S2P Require Import Prelude GoFloat Protocol AckFrame WindowedFilter BandwidthSampler BBR.

(** ** What no operation changes, and what only ever grows *)

(** The fields nothing assigns after construction. *)
Record Config := mkConfig {
  cf_minCongestionWindow : ByteCount;
  cf_maxCongestionWindow : ByteCount;
  cf_initialCongestionWindow : ByteCount;
  cf_highGain : float;
  cf_highCwndGain : float;
  cf_drainGain : float;
  cf_congestionWindowGainConst : float;
  cf_numStartupRtts : Z;
  cf_exitStartupOnLoss : bool;
  cf_flexibleAppLimited : bool;
  cf_slowerStartup : bool;
  cf_rateBasedStartup : bool;
  cf_startupRateReductionMultiplier : Z;
  cf_enableAckAggregationDuringStartup : bool;
  cf_expireAckAggregationInStartup : bool;
  cf_drainToTarget : bool;
  cf_probeRttBasedOnBdp : bool;
  cf_probeRttSkippedIfSimilarRtt : bool;
  cf_probeRttDisabledIfAppLimited : bool;
  cf_alwaysGetBwSampleWhenAcked : bool
}.

Definition config (b : bbrSender) : Config := {|
  cf_minCongestionWindow := minCongestionWindow b;
  cf_maxCongestionWindow := maxCongestionWindow b;
  cf_initialCongestionWindow := initialCongestionWindow b;
  cf_highGain := highGain b;
  cf_highCwndGain := highCwndGain b;
  cf_drainGain := drainGain b;
  cf_congestionWindowGainConst := congestionWindowGainConst b;
  cf_numStartupRtts := numStartupRtts b;
  cf_exitStartupOnLoss := exitStartupOnLoss b;
  cf_flexibleAppLimited := flexibleAppLimited b;
  cf_slowerStartup := slowerStartup b;
  cf_rateBasedStartup := rateBasedStartup b;
  cf_startupRateReductionMultiplier := startupRateReductionMultiplier b;
  cf_enableAckAggregationDuringStartup := enableAckAggregationDuringStartup b;
  cf_expireAckAggregationInStartup := expireAckAggregationInStartup b;
  cf_drainToTarget := drainToTarget b;
  cf_probeRttBasedOnBdp := probeRttBasedOnBdp b;
  cf_probeRttSkippedIfSimilarRtt := probeRttSkippedIfSimilarRtt b;
  cf_probeRttDisabledIfAppLimited := probeRttDisabledIfAppLimited b;
  cf_alwaysGetBwSampleWhenAcked := alwaysGetBwSampleWhenAcked b
|}.

(** [b'] is a later state of the sender than [b]. *)
Record evolves (b b' : bbrSender) : Prop := {
  ev_config : config b' = config b;
  ev_recovery : InRecovery b = true -> InRecovery b' = true;
  ev_full : isAtFullBandwidth b = true -> isAtFullBandwidth b' = true;
  ev_acked : totalBytesAcked (sampler b) <= totalBytesAcked (sampler b');
  ev_sent : totalBytesSent (sampler b) <= totalBytesSent (sampler b')
}.

#[global] Instance evolves_preorder : PreOrder evolves.
Proof.
  split.
  - intros b. by split.
  - intros b1 b2 b3 [] []. split; [congruence|auto|auto|lia|lia].
Qed.

(** ** The invariant *)

(** The pacing gain of the phase. *)
Definition phase_gain (b : bbrSender) : Prop :=
  match mode b with
  | STARTUP => pacingGain b = fone \/ pacingGain b = DefaultHighGain
  | DRAIN => pacingGain b = fdiv64 fone DefaultHighGain
  | PROBE_BW => gain_at (cycleCurrentOffset b) = Ret (pacingGain b)
  | PROBE_RTT => pacingGain b = fone
  end.

Section Invariant.
Context (initialCwnd maxCwnd : ByteCount).

(** [b] has the configuration of a new sender. *)
Record configured (b : bbrSender) : Prop := {
  is_configured : config b = config (NewBBRSender initialCwnd maxCwnd)
}.

Lemma configured_same b b' : config b' = config b -> configured b -> configured b'.
Proof. intros E [E']. split. by rewrite E. Qed.

(** What holds between the parts of an event; [recoveryWindow] is zero from
    the entry into recovery until [CalculateRecoveryWindow] sets it up. *)
Record core (b : bbrSender) : Prop := {
  co_config : configured b;
  co_sampler : sampler_ok (sampler b);
  co_cwnd : DefaultMinimumCongestionWindow <= congestionWindow b <= maxCwnd;
  co_recovery : DefaultMinimumCongestionWindow <= recoveryWindow b \/
                (recoveryWindow b = 0 /\ InRecovery b = true);
  co_full : mode b = DRAIN \/ mode b = PROBE_BW -> isAtFullBandwidth b = true;
  co_cycle : 0 <= cycleCurrentOffset b < GainCycleLength;
  co_gain : phase_gain b
}.

(** The invariant at the boundaries of the public calls. *)
Record bbr_ok (b : bbrSender) : Prop := {
  ok_core : core b;
  ok_recovery : DefaultMinimumCongestionWindow <= recoveryWindow b;
  ok_startup : isAtFullBandwidth b = true -> mode b <> STARTUP
}.

Definition limits_ok : Prop :=
  DefaultMinimumCongestionWindow <= initialCwnd <= maxCwnd /\ maxCwnd < 2 ^ 62.

Lemma NewBBRSender_ok : limits_ok -> bbr_ok (NewBBRSender initialCwnd maxCwnd).
Proof.
  intros [? ?]. split; [split|cbn; lia|done]; cbn; try (done || lia); try apply NewBandwidthSampler_ok;
    try (by intros [?|?]); by left.
Qed.

(** ** Every part of an event keeps the invariant *)

(** The part [b'] of an event that starts in [b] is a later, well-formed state. *)
Definition advances (b b' : bbrSender) : Prop := core b' /\ evolves b b'.

Lemma advances_trans b1 b2 b3 : advances b1 b2 -> (core b2 -> advances b2 b3) -> advances b1 b3.
Proof. intros [H1 E1] H. destruct (H H1) as [H2 E2]. split; [done|by etransitivity]. Qed.

Lemma advances_refl b : core b -> advances b b.
Proof. by split. Qed.

(** [b'] has the values of [b] in the fields the invariant reads, by group. *)
Record same_base (b b' : bbrSender) : Prop := {
  sk_config : config b' = config b;
  sk_sampler : sampler b' = sampler b;
  sk_cwnd : congestionWindow b' = congestionWindow b;
  sk_full : isAtFullBandwidth b' = isAtFullBandwidth b
}.

Record same_recovery (b b' : bbrSender) : Prop := {
  sk_recovery : recoveryState b' = recoveryState b;
  sk_window : recoveryWindow b' = recoveryWindow b
}.

Record same_phase (b b' : bbrSender) : Prop := {
  sk_mode : mode b' = mode b;
  sk_cycle : cycleCurrentOffset b' = cycleCurrentOffset b;
  sk_gain : pacingGain b' = pacingGain b
}.

Record same_key (b b' : bbrSender) : Prop := {
  sk_base : same_base b b';
  sk_rec : same_recovery b b';
  sk_phase : same_phase b b'
}.

Lemma same_key_advances b b' : same_key b b' -> core b -> advances b b'.
Proof.
  intros [[Hcf Hsa Hcw Hfu] [Hrs Hrw] [Hmo Hcy Hpg]] [].
  assert (InRecovery b' = InRecovery b) by (unfold InRecovery; by rewrite Hrs).
  split; split; try (by eapply configured_same); unfold phase_gain in *; rewrite ?Hcf, ?Hsa, ?Hcw, ?Hrw, ?Hmo, ?Hfu, ?Hcy, ?Hpg; try congruence; try done.
Qed.

Context `{FloatConv}.

Lemma UpdateRoundTripCounter_key b pn : same_key b (fst (UpdateRoundTripCounter b pn)).
Proof. unfold UpdateRoundTripCounter. by case_if. Qed.

Lemma UpdateAckAggregationBytes_key b t n : same_key b (fst (UpdateAckAggregationBytes b t n)).
Proof. unfold UpdateAckAggregationBytes. by case_if. Qed.

(** Replacing the sampler by a later one. *)
Lemma sampler_advances b b' s :
  core b -> sampler_ok s -> totalBytesSent (sampler b) <= totalBytesSent s ->
  totalBytesAcked (sampler b) <= totalBytesAcked s ->
  same_key (b <| sampler := s |>) b' -> advances b b'.
Proof.
  intros Hc Hs Hse Hac Hk. eapply advances_trans; [|intros ?; by eapply same_key_advances].
  destruct Hc. split; [split; try done; by apply (configured_same b)|by split].
Qed.

Lemma update_bandwidth_one_advances now b m p :
  core b -> exists b' m', update_bandwidth_one now (b, m) p = Ret (b', m') /\ advances b b'.
Proof.
  intros Hc. unfold update_bandwidth_one. case_if; [eexists _, _; split; by try apply advances_refl|].
  destruct (sampler_OnPacketAcked_ok (sampler b) now (pkt_PacketNumber p) (co_sampler b Hc))
    as (s' & smpl & -> & Hok & _ & _ & Hse & Hac & _). cbn [mbind outcome_bind].
  case_if; (eexists _, _; split; [reflexivity|]; eapply (sampler_advances b _ s'); try (done || lia));
    destruct (isAppLimited _); cbn [negb orb]; try case_if; done.
Qed.

Lemma update_bandwidth_loop_advances now l b m :
  core b -> exists b' m', update_bandwidth_loop now (b, m) l = Ret (b', m') /\ advances b b'.
Proof.
  revert b m. induction l as [|p l IH]; intros b m Hc.
  { exists b, m. split; by try apply advances_refl. }
  destruct (update_bandwidth_one_advances now b m p Hc) as (b1 & m1 & H1 & A1).
  destruct (IH b1 m1 (proj1 A1)) as (b2 & m2 & H2 & A2).
  exists b2, m2. cbn [update_bandwidth_loop]. rewrite H1. cbn [mbind outcome_bind]. split; [done|].
  by eapply advances_trans.
Qed.

Lemma UpdateBandwidthAndMinRtt_advances b now l :
  core b -> exists b' e, UpdateBandwidthAndMinRtt b now l = Ret (b', e) /\ advances b b'.
Proof.
  intros Hc. unfold UpdateBandwidthAndMinRtt.
  destruct (update_bandwidth_loop_advances now l b InfiniteRTT Hc) as (b1 & m & -> & A).
  cbn [mbind outcome_bind]. case_if; [by eexists _, _|].
  destruct (_ || _ || _); [destruct (_ && ShouldExtendMinRttExpiry _)|];
    (eexists _, _; split; [reflexivity|]; eapply advances_trans; [exact A|];
     by apply same_key_advances).
Qed.

Lemma DiscardLostPackets_advances b l : core b -> advances b (DiscardLostPackets b l).
Proof.
  revert b. induction l as [|p l IH]; intros b Hc; cbn [DiscardLostPackets]; [by apply advances_refl|].
  destruct (sampler_OnPacketLost_ok (sampler b) (pkt_PacketNumber p) (co_sampler b Hc))
    as (Hok & _ & _ & Hse & Hac & _).
  eapply advances_trans; [|apply IH].
  eapply sampler_advances; [done|exact Hok|lia|lia|]. by case_if.
Qed.

(** The recovery state that the switch leaves: with no losses in the event,
    [endRecoveryAt] has just been set to [lastSendPacket], and recovery is
    not left. *)
Lemma recovery_switch_state b hasLosses isRoundStart :
  (hasLosses = false -> endRecoveryAt b = lastSendPacket b) ->
  let b' := recovery_switch b hasLosses isRoundStart in
  recoveryState b' =
    match recoveryState b with
    | NOT_IN_RECOVERY => if hasLosses then CONSERVATION else NOT_IN_RECOVERY
    | CONSERVATION => if isRoundStart then GROWTH else CONSERVATION
    | GROWTH => GROWTH
    end /\
  recoveryWindow b' =
    (if bool_decide (recoveryState b = NOT_IN_RECOVERY) && hasLosses then 0 else recoveryWindow b) /\
  same_base b b' /\ same_phase b b'.
Proof.
  intros He. unfold recovery_switch, maybe_exit_recovery.
  destruct hasLosses; cbn [negb andb].
  - destruct (recoveryState b) eqn:Hs, isRoundStart; cbn; rewrite ?Hs; done.
  - specialize (He eq_refl). destruct (recoveryState b) eqn:Hs, isRoundStart; cbn; rewrite ?He, ?Z.ltb_irrefl, ?Hs; done.
Qed.

Lemma InRecovery_true b : InRecovery b = true <-> recoveryState b <> NOT_IN_RECOVERY.
Proof. unfold InRecovery. rewrite negb_true_iff, bool_decide_eq_false. done. Qed.

(** A change of the recovery fields that does not leave recovery. *)
Lemma recovery_advances b b' :
  core b ->
  same_base b b' -> same_phase b b' ->
  (InRecovery b = true -> InRecovery b' = true) ->
  (recoveryWindow b' = recoveryWindow b \/ (recoveryWindow b' = 0 /\ InRecovery b' = true) \/
   DefaultMinimumCongestionWindow <= recoveryWindow b') ->
  advances b b'.
Proof.
  intros [] [Hcf Hsa Hcw Hfu] [Hmo Hcy Hpg] Hr Hw.
  split; split; try (by eapply configured_same); unfold phase_gain in *; rewrite ?Hcf, ?Hsa, ?Hcw, ?Hmo, ?Hfu, ?Hcy, ?Hpg; try done.
  destruct Hw as [Hw |[?|?]]; [|by right|by left]. rewrite Hw.
  destruct co_recovery0 as [?|[? ?]]; [by left|right; auto].
Qed.

Lemma UpdateRecoveryState_advances b pn hasLosses isRoundStart :
  core b -> advances b (UpdateRecoveryState b pn hasLosses isRoundStart).
Proof.
  intros Hc. unfold UpdateRecoveryState.
  match goal with |- context [recovery_switch ?x] => set (b1 := x) end.
  assert (K1 : same_key b b1) by (unfold b1; by destruct hasLosses).
  assert (He : hasLosses = false -> endRecoveryAt b1 = lastSendPacket b1)
    by (unfold b1; by intros ->).
  clearbody b1. eapply advances_trans; [by apply (same_key_advances b b1)|]. clear Hc K1 b. intros Hc.
  destruct (recovery_switch_state b1 hasLosses isRoundStart He) as (Hst & Hw & Kb & Kp).
  set (b2 := recovery_switch _ _ _) in *. clearbody b2.
  apply (advances_trans _ b2).
  - apply recovery_advances; try done; rewrite ?InRecovery_true, ?Hst, ?Hw;
      destruct (recoveryState b1), hasLosses, isRoundStart; cbn; auto.
  - intros Hc2. case_if; [|by apply advances_refl].
    eapply sampler_advances; [done|by apply sampler_OnAppLimited_ok, Hc2|done|done|done].
Qed.

Lemma gain_at_total i : 0 <= i < GainCycleLength -> exists g, gain_at i = Ret g.
Proof.
  intros Hi. unfold gain_at. rewrite (proj2 (Z.ltb_ge _ _)) by lia.
  change GainCycleLength with 8 in Hi.
  assert (Hl : (Z.to_nat i < length PacingGain)%nat) by (change (length PacingGain) with 8%nat; lia).
  apply lookup_lt_is_Some in Hl as [g Hg]. exists g. unfold index. by rewrite Hg.
Qed.

(** A new gain for PROBE_BW at a valid place of the cycle. *)
Lemma probe_bw_advances b b' :
  core b -> isAtFullBandwidth b = true -> mode b' = PROBE_BW ->
  0 <= cycleCurrentOffset b' < GainCycleLength ->
  gain_at (cycleCurrentOffset b') = Ret (pacingGain b') ->
  same_base b b' -> same_recovery b b' ->
  advances b b'.
Proof.
  intros [] Hf Hm Ho Hg [Hcf Hsa Hcw Hfu] [Hrs Hrw].
  assert (InRecovery b' = InRecovery b) by (unfold InRecovery; by rewrite Hrs).
  split; split; try (by eapply configured_same); unfold phase_gain in *; rewrite ?Hcf, ?Hsa, ?Hcw, ?Hrw, ?Hm, ?Hfu; try congruence; done.
Qed.

Lemma core_drainToTarget b : core b -> drainToTarget b = false.
Proof. intros Hc. exact (f_equal cf_drainToTarget (is_configured b (co_config b Hc))). Qed.

Lemma UpdateGainCyclePhase_advances b env now prior hasLosses :
  core b -> mode b = PROBE_BW ->
  exists b', UpdateGainCyclePhase b env now prior hasLosses = Ret b' /\ advances b b' /\
    mode b' = PROBE_BW.
Proof.
  intros Hc Hm. unfold UpdateGainCyclePhase.
  match goal with |- context [if ?c then (_ ≫= _) else mret b] => destruct c end.
  2: { exists b. by split_and!; try apply advances_refl. }
  assert (Ho : 0 <= Z.rem (cycleCurrentOffset b + 1) GainCycleLength < GainCycleLength).
  { apply Z.rem_bound_pos; [|done]. pose proof (co_cycle b Hc). lia. }
  cbn [cycleCurrentOffset over drainToTarget]. destruct (gain_at_total _ Ho) as [g Hg].
  rewrite Hg. cbn [mbind outcome_bind]. rewrite (core_drainToTarget b Hc). cbn [andb].
  eexists. split; [reflexivity|]. split; [|done].
  apply probe_bw_advances; try done. apply Hc. auto.
Qed.

(** STARTUP is left once the full bandwidth is reached. *)
Definition startup_left (b : bbrSender) : Prop := isAtFullBandwidth b = true -> mode b <> STARTUP.

Lemma CheckIfFullBandwidthReached_advances b :
  core b -> advances b (CheckIfFullBandwidthReached b).
Proof.
  intros Hc. unfold CheckIfFullBandwidthReached.
  destruct (lastSampleIsAppLimited b); [by apply advances_refl|].
  case_if; [case_if; by apply same_key_advances|].
  case_if; [|by apply same_key_advances].
  destruct Hc. split; split; try done. by apply (configured_same b).
Qed.

(** A change of mode, cycle and gain only. *)
Lemma phase_advances b b' :
  core b -> same_base b b' -> same_recovery b b' ->
  cycleCurrentOffset b' = cycleCurrentOffset b ->
  (mode b' = DRAIN \/ mode b' = PROBE_BW -> isAtFullBandwidth b = true) ->
  phase_gain b' ->
  advances b b'.
Proof.
  intros [] [Hcf Hsa Hcw Hfu] [Hrs Hrw] Hcy Hf Hg.
  assert (InRecovery b' = InRecovery b) by (unfold InRecovery; by rewrite Hrs).
  split; split; try (by eapply configured_same); try done; rewrite ?Hcf, ?Hsa, ?Hcw, ?Hrw, ?Hfu, ?Hcy;
    try congruence; done.
Qed.

Lemma core_highGain b : core b -> highGain b = DefaultHighGain.
Proof. intros Hc. exact (f_equal cf_highGain (is_configured b (co_config b Hc))). Qed.
Lemma core_drainGain b : core b -> drainGain b = fdiv64 fone DefaultHighGain.
Proof. intros Hc. exact (f_equal cf_drainGain (is_configured b (co_config b Hc))). Qed.
Lemma core_minCwnd b : core b -> minCongestionWindow b = DefaultMinimumCongestionWindow.
Proof. intros Hc. exact (f_equal cf_minCongestionWindow (is_configured b (co_config b Hc))). Qed.
Lemma core_maxCwnd b : core b -> maxCongestionWindow b = maxCwnd.
Proof. intros Hc. exact (f_equal cf_maxCongestionWindow (is_configured b (co_config b Hc))). Qed.
Lemma core_initialCwnd b : core b -> initialCongestionWindow b = initialCwnd.
Proof. intros Hc. exact (f_equal cf_initialCongestionWindow (is_configured b (co_config b Hc))). Qed.
Lemma core_rateBased b : core b -> rateBasedStartup b = false.
Proof. intros Hc. exact (f_equal cf_rateBasedStartup (is_configured b (co_config b Hc))). Qed.
Lemma core_basedOnBdp b : core b -> probeRttBasedOnBdp b = false.
Proof. intros Hc. exact (f_equal cf_probeRttBasedOnBdp (is_configured b (co_config b Hc))). Qed.

(** The random offset is one of [0, 2, ..., 7]. *)
Lemma EnterProbeBandwidthMode_advances b rnd now :
  core b -> isAtFullBandwidth b = true -> 0 <= rnd ->
  exists b', EnterProbeBandwidthMode b rnd now = Ret b' /\ advances b b' /\ mode b' = PROBE_BW /\
    cycleCurrentOffset b' <> 1 /\ lastCycleStart b' = now /\
    congestionWindowGain b' = congestionWindowGainConst b.
Proof.
  intros Hc Hf Hr. unfold EnterProbeBandwidthMode.
  match goal with |- context [over (fun _ => ?o) _ <| lastCycleStart := _ |>] => set (off := o) end.
  assert (Ho : 0 <= off < GainCycleLength /\ off <> 1).
  { unfold off, GainCycleLength. pose proof (Z.rem_bound_pos rnd 7 Hr eq_refl).
    change (8 - 1) with 7. case_if; zbool; lia. }
  clearbody off. destruct Ho as [Ho Hn]. cbn [cycleCurrentOffset over].
  destruct (gain_at_total off Ho) as [g Hg]. rewrite Hg. cbn [mbind outcome_bind].
  eexists. split; [reflexivity|]. split; [|done].
  apply probe_bw_advances; try done.
Qed.

Definition env_ok (env : Env) : Prop :=
  is_uint64 (inFlight env) /\ is_int64 (statsMinRTT env) /\ 0 <= randDrain env /\ 0 <= randProbeRtt env.

Lemma MaybeExitStartupOrDrain_advances b env now :
  core b -> env_ok env ->
  exists b', MaybeExitStartupOrDrain b env now = Ret b' /\ advances b b' /\ startup_left b' /\
    (mode b = PROBE_RTT -> b' = b).
Proof.
  intros Hc (_ & _ & Hr & _). unfold MaybeExitStartupOrDrain, OnExitStartup.
  match goal with |- context [if bool_decide (mode ?x = DRAIN) && _ then _ else _] => set (b1 := x) end.
  assert (H1 : advances b b1 /\ startup_left b1 /\ (mode b = PROBE_RTT -> b1 = b)).
  { unfold b1. case_if.
    - apply andb_true_iff in Heqb0 as [Hm Hf]. apply bool_decide_eq_true in Hm. split_and!; [|done|congruence].
      apply phase_advances; cbn; try done. by rewrite core_drainGain.
    - split_and!; [by apply advances_refl| |done]. intros Hf Hm.
      by rewrite Hf, (bool_decide_eq_true_2 _ Hm) in Heqb0. }
  clearbody b1. destruct H1 as (A1 & Hl & Hp).
  destruct (bool_decide (mode b1 = DRAIN)) eqn:Hm; cbn [andb]; [|by exists b1].
  apply bool_decide_eq_true in Hm. case_if; [|by exists b1].
  destruct (EnterProbeBandwidthMode_advances b1 (randDrain env) now (proj1 A1)) as (b2 & -> & A2 & Hm2 & _);
    [by apply (co_full _ (proj1 A1)); left|done|].
  exists b2. split_and!; [done|by eapply advances_trans|by intros _; rewrite Hm2|].
  intros E. rewrite (Hp E) in Hm. congruence.
Qed.

Lemma app_limited_advances b b' :
  core b -> same_key (b <| sampler := sampler_OnAppLimited (sampler b) |>) b' -> advances b b'.
Proof. intros Hc. apply sampler_advances; [done|by apply sampler_OnAppLimited_ok, Hc|done..]. Qed.

Lemma enter_probe_rtt_advances b e :
  core b -> startup_left b -> advances b (enter_probe_rtt b e) /\ startup_left (enter_probe_rtt b e).
Proof.
  intros Hc Hl. unfold enter_probe_rtt, OnExitStartup. case_if; [|by split; [apply advances_refl|]].
  rewrite Tauto.if_same. split; [|done]. apply phase_advances; try done. by intros [?|?].
Qed.

Lemma EnterStartupMode_advances b :
  core b -> isAtFullBandwidth b = false ->
  advances b (EnterStartupMode b) /\ startup_left (EnterStartupMode b).
Proof.
  intros Hc Hf. split.
  - apply phase_advances; try done; [by intros [?|?]|]. right. by apply core_highGain.
  - intros Hf'. cbn in Hf'. congruence.
Qed.

Lemma run_probe_rtt_advances b env now isRoundStart :
  core b -> mode b = PROBE_RTT -> env_ok env ->
  exists b', run_probe_rtt b env now isRoundStart = Ret b' /\ advances b b' /\ startup_left b' /\
    (exitProbeRttAt b <> zero_time -> exitProbeRttAt b <= now -> isRoundStart = true ->
     mode b' = if isAtFullBandwidth b then PROBE_BW else STARTUP).
Proof.
  intros Hc Hm (_ & _ & _ & Hr). unfold run_probe_rtt. cbn [exitProbeRttAt over].
  destruct (IsZero (exitProbeRttAt b)) eqn:Hz; unfold IsZero in Hz; zbool.
  { case_if; (eexists; split; [reflexivity|]; split_and!; [by apply app_limited_advances| |done]);
      intros _; cbn; congruence. }
  match goal with |- context [Before now (exitProbeRttAt ?x)] => set (b1 := x) end.
  assert (H1 : advances b b1 /\ mode b1 = mode b /\ isAtFullBandwidth b1 = isAtFullBandwidth b /\
    exitProbeRttAt b1 = exitProbeRttAt b /\ (isRoundStart = true -> probeRttRoundPassed b1 = true)).
  { split; [apply app_limited_advances; [done|]|]; unfold b1; by destruct isRoundStart. }
  clearbody b1. destruct H1 as (A1 & Hm1 & Hf1 & He1 & Hp1). rewrite He1.
  destruct (negb (Before now (exitProbeRttAt b)) && probeRttRoundPassed b1) eqn:Hx; cycle 1.
  { exists b1. split_and!; [done..|intros _; congruence|]. intros _ Ht Hrs.
    rewrite (Hp1 Hrs), andb_true_r in Hx. unfold Before in Hx. zbool. lia. }
  match goal with |- context [EnterStartupMode ?x] => set (b2 := x) end.
  assert (A2 : advances b b2) by (eapply advances_trans; [exact A1|by apply same_key_advances]).
  assert (Hf2 : isAtFullBandwidth b2 = isAtFullBandwidth b) by done. clearbody b2. rewrite Hf2.
  destruct (isAtFullBandwidth b) eqn:Hf; cbn [negb].
  - destruct (EnterProbeBandwidthMode_advances b2 (randProbeRtt env) now (proj1 A2) Hf2 Hr)
      as (b3 & -> & A3 & Hm3 & _). exists b3.
    split_and!; [done|by eapply advances_trans|by intros _; rewrite Hm3|done].
  - destruct (EnterStartupMode_advances b2 (proj1 A2) Hf2) as [A3 Hl]. eexists. split; [reflexivity|].
    split_and!; [by eapply advances_trans|done|done].
Qed.

(** PROBE_RTT is left for STARTUP or PROBE_BW once its time and a round have
    passed. *)
Lemma MaybeEnterOrExitProbeRtt_advances b env now isRoundStart minRttExpired :
  core b -> startup_left b -> env_ok env ->
  exists b', MaybeEnterOrExitProbeRtt b env now isRoundStart minRttExpired = Ret b' /\
    advances b b' /\ startup_left b' /\
    (mode b = PROBE_RTT -> exitProbeRttAt b <> zero_time -> exitProbeRttAt b <= now ->
     isRoundStart = true -> mode b' = if isAtFullBandwidth b then PROBE_BW else STARTUP).
Proof.
  intros Hc Hl Henv. unfold MaybeEnterOrExitProbeRtt.
  assert (Hsame : mode b = PROBE_RTT -> enter_probe_rtt b minRttExpired = b).
  { intros Hm. unfold enter_probe_rtt. by rewrite (bool_decide_eq_true_2 _ Hm), andb_false_r. }
  destruct (enter_probe_rtt_advances b minRttExpired Hc Hl) as [A1 Hl1].
  set (b1 := enter_probe_rtt b minRttExpired) in *. clearbody b1.
  destruct (bool_decide (mode b1 = PROBE_RTT)) eqn:Hm1.
  - apply bool_decide_eq_true in Hm1.
    destruct (run_probe_rtt_advances b1 env now isRoundStart (proj1 A1) Hm1 Henv)
      as (b2 & -> & A2 & Hl2 & Hx). cbn [mbind outcome_bind].
    eexists. split; [reflexivity|]. split_and!; [|done|].
    + eapply advances_trans; [by eapply advances_trans|]. by apply same_key_advances.
    + intros Hm. rewrite (Hsame Hm) in Hx. done.
  - cbn [mbind outcome_bind]. eexists. split; [reflexivity|]. split_and!; [|done|].
    + eapply advances_trans; [exact A1|]. by apply same_key_advances.
    + intros Hm. rewrite (Hsame Hm) in Hm1. by apply bool_decide_eq_false in Hm1.
Qed.

(** ** The pacing rate and the windows *)

Lemma maxBandwidth2_max a b : maxBandwidth2 a b = Z.max a b.
Proof. unfold maxBandwidth2. case_if; zbool; lia. Qed.
Lemma maxByteCount_max a b : maxByteCount a b = Z.max a b.
Proof. unfold maxByteCount. case_if; zbool; lia. Qed.
Lemma minByteCount_min a b : minByteCount a b = Z.min a b.
Proof. unfold minByteCount. case_if; zbool; lia. Qed.

Lemma GetTargetCongestionWindow_min b gain : minCongestionWindow b <= GetTargetCongestionWindow b gain.
Proof. unfold GetTargetCongestionWindow. rewrite maxByteCount_max. lia. Qed.

Lemma core_slowerStartup b : core b -> slowerStartup b = false.
Proof. intros Hc. exact (f_equal cf_slowerStartup (is_configured b (co_config b Hc))). Qed.
Lemma core_multiplier b : core b -> startupRateReductionMultiplier b = 0.
Proof. intros Hc. exact (f_equal cf_startupRateReductionMultiplier (is_configured b (co_config b Hc))). Qed.

(** Until the full bandwidth is reached, the pacing rate never decreases. *)
Lemma CalculatePacingRate_same b env :
  core b -> env_ok env ->
  exists b', CalculatePacingRate b env = Ret b' /\ same_key b b' /\
    (isAtFullBandwidth b = false -> pacingRate b <= pacingRate b').
Proof.
  intros Hc (_ & Hrtt & _). unfold CalculatePacingRate.
  rewrite (core_slowerStartup b Hc), (core_multiplier b Hc). cbn [andb negb Z.eqb].
  case_if; [by exists b|]. destruct (isAtFullBandwidth b); [by eexists|].
  destruct ((pacingRate b =? 0) && (0 <? statsMinRTT env)) eqn:Hz.
  - zbool. destruct (BandwidthFromDelta_total (initialCongestionWindow b) (statsMinRTT env)) as [bw Hbw];
      [go_range|]. rewrite Hbw. cbn [mbind outcome_bind].
    eexists. split; [reflexivity|]. split; [done|]. intros _. cbn.
    unfold BandwidthFromDelta in Hbw. case_if_in Hbw; [done|]. injection Hbw as <-.
    pose proof (uint64_range (uint64 (initialCongestionWindow b * uint64 Second) /
      uint64 (statsMinRTT env) * BytesPerSecond)). go_range.
  - eexists. split; [reflexivity|]. split; [done|]. intros _. cbn. rewrite maxBandwidth2_max. lia.
Qed.

(** The window moves by at most the bytes acknowledged, within its limits, and
    does not shrink until the full bandwidth is reached. *)
Lemma CalculateCongestionWindow_advances b acked excess :
  core b -> limits_ok -> 0 <= acked < 2 ^ 63 ->
  let b' := CalculateCongestionWindow b acked excess in
  advances b b' /\ same_recovery b b' /\ same_phase b b' /\
  (mode b = PROBE_RTT -> b' = b) /\
  (sampler b' = sampler b /\ isAtFullBandwidth b' = isAtFullBandwidth b /\ pacingRate b' = pacingRate b) /\
  congestionWindow b' <= congestionWindow b + acked /\
  (isAtFullBandwidth b = false -> congestionWindow b <= congestionWindow b').
Proof.
  intros Hc [Hlim Hmax] Ha. unfold CalculateCongestionWindow.
  destruct (bool_decide (mode b = PROBE_RTT)) eqn:Hm.
  { split; [by apply advances_refl|]. split_and!; try done; lia. }
  apply bool_decide_eq_false in Hm.
  pose proof (co_cwnd b Hc) as Hcw. pose proof (core_minCwnd b Hc) as Emin.
  assert (0 < DefaultMinimumCongestionWindow) by done.
  pose proof (core_maxCwnd b Hc) as Emax.
  match goal with |- context [minByteCount ?t (uint64 (congestionWindow b + acked))] =>
    set (target := t) end. clearbody target.
  rewrite (uint64_id (congestionWindow b + acked)) by go_range.
  match goal with |- context [maxByteCount (congestionWindow ?x) (minCongestionWindow ?x)] =>
    set (b1 := x) end.
  assert (H1 : config b1 = config b /\ sampler b1 = sampler b /\ isAtFullBandwidth b1 = isAtFullBandwidth b /\
    same_recovery b b1 /\ same_phase b b1 /\ pacingRate b1 = pacingRate b /\
    congestionWindow b1 <= congestionWindow b + acked /\
    (isAtFullBandwidth b = false -> congestionWindow b <= congestionWindow b1)).
  { unfold b1. destruct (isAtFullBandwidth b) eqn:Hf;
      [|case_if]; cbn; rewrite ?minByteCount_min; split_and!; done || lia. }
  clearbody b1. destruct H1 as (Hcf & Hsa & Hfu & [Hrs Hrw] & [Hmo Hcy Hpg] & Hpr & Hup & Hdn).
  cbn. rewrite minByteCount_min, maxByteCount_max.
  pose proof (f_equal cf_minCongestionWindow Hcf) as Emin1. cbn in Emin1.
  pose proof (f_equal cf_maxCongestionWindow Hcf) as Emax1. cbn in Emax1.
  split; [|split_and!; try done; [lia|intros Hf; specialize (Hdn Hf); lia]]. destruct Hc.
  assert (HR : InRecovery b1 = InRecovery b) by (unfold InRecovery; by rewrite Hrs).
  split; split; unfold phase_gain in *; cbn; rewrite ?Hsa, ?Hrw, ?Hfu, ?Hmo, ?Hcy, ?Hpg, ?minByteCount_min, ?maxByteCount_max;
    try done; try lia.
  - by apply (configured_same b).
  - destruct co_recovery0 as [?|[? ?]]; [by left|right; by rewrite <- HR in *].
  - intros ?. by rewrite <- HR in *.
Qed.

(** In recovery the window is at least the minimum, and at least what is in
    flight plus what was acknowledged. *)
Lemma CalculateRecoveryWindow_advances b env acked lost :
  core b ->
  let b' := CalculateRecoveryWindow b env acked lost in
  advances b b' /\ same_base b b' /\ same_phase b b' /\ recoveryState b' = recoveryState b /\
  DefaultMinimumCongestionWindow <= recoveryWindow b' /\
  (InRecovery b = true -> uint64 (inFlight env + acked) <= recoveryWindow b').
Proof.
  intros Hc. unfold CalculateRecoveryWindow. rewrite (core_rateBased b Hc). cbn [andb].
  pose proof (core_minCwnd b Hc) as Emin.
  assert (Hkeep : forall b', same_base b b' -> same_phase b b' -> recoveryState b' = recoveryState b ->
    DefaultMinimumCongestionWindow <= recoveryWindow b' ->
    (InRecovery b = true -> uint64 (inFlight env + acked) <= recoveryWindow b') ->
    advances b b' /\ same_base b b' /\ same_phase b b' /\ recoveryState b' = recoveryState b /\
    DefaultMinimumCongestionWindow <= recoveryWindow b' /\
    (InRecovery b = true -> uint64 (inFlight env + acked) <= recoveryWindow b')).
  { intros b' ? ? Hrs ? ?. split; [|done]. apply recovery_advances; [done..| |by right; right].
    unfold InRecovery. by rewrite Hrs. }
  destruct (bool_decide (recoveryState b = NOT_IN_RECOVERY)) eqn:Hr.
  { apply Hkeep; try done.
    - destruct (co_recovery b Hc) as [?|[_ HR]]; [done|]. by unfold InRecovery in HR; rewrite Hr in HR.
    - unfold InRecovery. by rewrite Hr. }
  case_if; [apply Hkeep; cbn; rewrite ?maxByteCount_max; try done; lia|].
  match goal with |- context [maxByteCount (recoveryWindow ?x) (uint64 _)] => set (b1 := x) end.
  assert (H1 : same_base b b1 /\ same_phase b b1 /\ recoveryState b1 = recoveryState b)
    by (unfold b1; destruct (_ <=? _); case_if; done).
  clearbody b1. destruct H1 as ([Hcf ? ? ?] & [? ? ?] & ?).
  pose proof (f_equal cf_minCongestionWindow Hcf) as Emin1. cbn in Emin1.
  apply Hkeep; cbn; rewrite ?maxByteCount_max; try done; lia.
Qed.

(** ** Events *)

Lemma on_acked_advances b now acked lost before :
  core b -> exists b' r e x, on_acked b now acked lost before = Ret (b', r, e, x) /\ advances b b'.
Proof.
  intros Hc. unfold on_acked. destruct (last acked) as [p|]; cycle 1.
  { eexists _, _, _, _. split; [reflexivity|by apply advances_refl]. }
  destruct (UpdateRoundTripCounter b (pkt_PacketNumber p)) as [b1 r] eqn:E1.
  assert (A1 : advances b b1).
  { replace b1 with (fst (UpdateRoundTripCounter b (pkt_PacketNumber p))) by by rewrite E1.
    apply same_key_advances; [apply UpdateRoundTripCounter_key|done]. }
  destruct (UpdateBandwidthAndMinRtt_advances b1 now acked (proj1 A1)) as (b2 & e & -> & A2).
  cbn [mbind outcome_bind].
  match goal with |- context [UpdateRecoveryState b2 ?p ?l ?r] =>
    pose proof (UpdateRecoveryState_advances b2 p l r (proj1 A2)) as A3;
    set (b3 := UpdateRecoveryState b2 p l r) in * end. clearbody b3.
  destruct (UpdateAckAggregationBytes b3 now _) as [b4 x] eqn:E4.
  eexists _, _, _, _. split; [reflexivity|].
  eapply advances_trans; [exact A1|]. intros _. eapply advances_trans; [exact A2|].
  intros _. eapply advances_trans; [exact A3|]. intros Hc3.
  match type of E4 with ?t = _ => replace b4 with (fst t) by by rewrite E4 end.
  apply same_key_advances; [apply UpdateAckAggregationBytes_key|done].
Qed.

Lemma bytes_acked_range b b' :
  core b -> core b' -> evolves b b' ->
  0 <= uint64 (totalBytesAcked (sampler b') - totalBytesAcked (sampler b)) < 2 ^ 63.
Proof.
  intros Hc Hc' Hev. pose proof (ev_acked _ _ Hev).
  pose proof (sok_range _ (co_sampler _ Hc)). pose proof (sok_range _ (co_sampler _ Hc')).
  pose proof (sok_conserved _ (co_sampler _ Hc')) as Hu. unfold untracked in Hu.
  pose proof (sok_tracked_nonneg _ (co_sampler _ Hc')).
  rewrite uint64_id by go_range. lia.
Qed.

(** What updating the model of the path leaves alone. *)
Record same_control (b b' : bbrSender) : Prop := {
  sc_mode : mode b' = mode b;
  sc_full : isAtFullBandwidth b' = isAtFullBandwidth b;
  sc_exit : exitProbeRttAt b' = exitProbeRttAt b;
  sc_cwnd : congestionWindow b' = congestionWindow b;
  sc_rate : pacingRate b' = pacingRate b
}.

#[local] Instance same_control_preorder : PreOrder same_control.
Proof. split; [by split|]. intros b1 b2 b3 [] []. split; congruence. Qed.

Lemma DiscardLostPackets_control b l : same_control b (DiscardLostPackets b l).
Proof.
  revert b. induction l as [|p l IH]; intros b; cbn [DiscardLostPackets]; [done|].
  etransitivity; [|apply IH]. by case_if.
Qed.

Lemma update_bandwidth_control now l b m b' m' :
  update_bandwidth_loop now (b, m) l = Ret (b', m') ->
  same_control b b'.
Proof.
  revert b m. induction l as [|p l IH]; intros b m; cbn [update_bandwidth_loop]; [by intros [= -> ->]|].
  intros ([b1 m1] & H1 & H2)%outcome_bind_Ret. apply IH in H2. etransitivity; [|exact H2].
  { clear H2 IH. unfold update_bandwidth_one in H1. case_if_in H1; [by injection H1 as <- <-|].
    apply outcome_bind_Ret in H1 as ([s smpl] & _ & H1). case_if_in H1; injection H1 as <- <-; [done|].
    destruct (isAppLimited _); cbn [negb orb]; try case_if; done. }
Qed.

Lemma UpdateBandwidthAndMinRtt_control b now l b' e :
  UpdateBandwidthAndMinRtt b now l = Ret (b', e) -> same_control b b'.
Proof.
  unfold UpdateBandwidthAndMinRtt. intros ([b1 m] & H1 & H2)%outcome_bind_Ret.
  apply update_bandwidth_control in H1. etransitivity; [exact H1|].
  case_if_in H2; [by injection H2 as <- <-|].
  destruct (_ || _ || _); [destruct (_ && ShouldExtendMinRttExpiry _)|]; injection H2 as <- <-; done.
Qed.

Lemma UpdateRecoveryState_control b pn hasLosses isRoundStart :
  same_control b (UpdateRecoveryState b pn hasLosses isRoundStart).
Proof.
  unfold UpdateRecoveryState.
  match goal with |- context [recovery_switch ?x] => set (b1 := x) end.
  assert (H1 : same_control b b1) by (unfold b1; by destruct hasLosses). clearbody b1.
  assert (H2 : same_control b1 (recovery_switch b1 hasLosses isRoundStart)).
  { unfold recovery_switch, maybe_exit_recovery.
    destruct (recoveryState b1), hasLosses, isRoundStart; cbn [negb andb]; try case_if; done. }
  etransitivity; [exact H1|]. etransitivity; [exact H2|]. by case_if.
Qed.

Lemma on_acked_control b now acked lost before b' r e x :
  on_acked b now acked lost before = Ret (b', r, e, x) ->
  same_control b b' /\
  r = match last acked with
      | None => false
      | Some p => (currentRoundTripEnd b =? 0) || (currentRoundTripEnd b <? pkt_PacketNumber p)
      end.
Proof.
  unfold on_acked. destruct (last acked) as [p|]; [|by intros [= <- <- <- <-]].
  destruct (UpdateRoundTripCounter b (pkt_PacketNumber p)) as [b1 r1] eqn:E1.
  intros ([b2 e2] & H2 & H3)%outcome_bind_Ret. apply UpdateBandwidthAndMinRtt_control in H2.
  pose proof (UpdateRecoveryState_control b2 (pkt_PacketNumber p) (0 <? length lost)%nat r1) as H4.
  set (b3 := UpdateRecoveryState _ _ _ _) in *. clearbody b3.
  destruct (UpdateAckAggregationBytes b3 now _) as [b4 x4] eqn:E4. injection H3 as <- <- <- <-.
  assert (same_control b b1 /\ r1 = (currentRoundTripEnd b =? 0) || (currentRoundTripEnd b <? pkt_PacketNumber p))
    as [H1 ->].
  { unfold UpdateRoundTripCounter in E1. destruct (_ || _); injection E1 as <- <-; done. }
  assert (same_control b3 b4).
  { unfold UpdateAckAggregationBytes in E4. destruct (_ <=? _); injection E4 as <- <-; done. }
  split; [|done]. by repeat (etransitivity; [eassumption|]).
Qed.

(** What the state machine leaves alone. *)
Record same_windows (b b' : bbrSender) : Prop := {
  sw_cwnd : congestionWindow b' = congestionWindow b;
  sw_rate : pacingRate b' = pacingRate b;
  sw_recovery : recoveryState b' = recoveryState b
}.

#[local] Instance same_windows_preorder : PreOrder same_windows.
Proof. split; [by split|]. intros b1 b2 b3 [] []. split; congruence. Qed.

Lemma UpdateGainCyclePhase_windows b env now prior hasLosses b' :
  UpdateGainCyclePhase b env now prior hasLosses = Ret b' -> same_windows b b'.
Proof.
  unfold UpdateGainCyclePhase.
  match goal with |- context [if ?c then (_ ≫= _) else mret b] => destruct c end; [|by intros [= <-]].
  intros (g & _ & H2)%outcome_bind_Ret. case_if_in H2; injection H2 as <-; done.
Qed.

Lemma EnterProbeBandwidthMode_windows b rnd now b' :
  EnterProbeBandwidthMode b rnd now = Ret b' -> same_windows b b'.
Proof. unfold EnterProbeBandwidthMode. by intros (g & _ & [= <-])%outcome_bind_Ret. Qed.

Lemma MaybeExitStartupOrDrain_windows b env now b' :
  MaybeExitStartupOrDrain b env now = Ret b' -> same_windows b b'.
Proof.
  unfold MaybeExitStartupOrDrain, OnExitStartup.
  match goal with |- context [if bool_decide (mode ?x = DRAIN) && _ then _ else _] => set (b1 := x) end.
  assert (W : same_windows b b1) by (unfold b1; by case_if). clearbody b1.
  case_if; [|by intros [= <-]]. intros Hx%EnterProbeBandwidthMode_windows. by etransitivity.
Qed.

Lemma run_probe_rtt_windows b env now r b' : run_probe_rtt b env now r = Ret b' -> same_windows b b'.
Proof.
  unfold run_probe_rtt. case_if; [case_if; by intros [= <-]|].
  match goal with |- context [Before now (exitProbeRttAt ?x)] => set (b1 := x) end.
  assert (W : same_windows b b1) by (unfold b1; by destruct r). clearbody b1.
  case_if; [|by intros [= <-]]. case_if; [intros [= <-]; by etransitivity|].
  intros Hx%EnterProbeBandwidthMode_windows. etransitivity; [exact W|by destruct Hx].
Qed.

Lemma MaybeEnterOrExitProbeRtt_windows b env now r e b' :
  MaybeEnterOrExitProbeRtt b env now r e = Ret b' -> same_windows b b'.
Proof.
  unfold MaybeEnterOrExitProbeRtt. intros (b1 & H1 & [= <-])%outcome_bind_Ret.
  assert (W : same_windows b (enter_probe_rtt b e)).
  { unfold enter_probe_rtt, OnExitStartup. rewrite Tauto.if_same. by case_if. }
  etransitivity; [exact W|].
  case_if_in H1; [apply run_probe_rtt_windows in H1 as []|injection H1 as <-]; done.
Qed.

Lemma run_machine_windows b env prior now l r e b' :
  run_machine b env prior now l r e = Ret b' -> same_windows b b'.
Proof.
  unfold run_machine. intros (b1 & H1 & H2)%outcome_bind_Ret.
  assert (same_windows b b1)
    by (case_if_in H1; [by eapply UpdateGainCyclePhase_windows|by injection H1 as <-]).
  apply outcome_bind_Ret in H2 as (b3 & H3%MaybeExitStartupOrDrain_windows & H4%MaybeEnterOrExitProbeRtt_windows).
  etransitivity; [eassumption|]. etransitivity; [|exact H4]. etransitivity; [|exact H3].
  case_if; [|done]. unfold CheckIfFullBandwidthReached. by repeat case_if.
Qed.

(** The state machine runs to the end and keeps the invariant. *)
Lemma run_machine_advances b env prior now l r e :
  core b -> env_ok env ->
  exists b', run_machine b env prior now l r e = Ret b' /\ advances b b' /\ startup_left b' /\
    (mode b = PROBE_RTT -> exitProbeRttAt b <> zero_time -> exitProbeRttAt b <= now -> r = true ->
     mode b' = PROBE_BW \/ mode b' = STARTUP).
Proof.
  intros Hc Henv. unfold run_machine.
  assert (exists b1, (if bool_decide (mode b = PROBE_BW)
       then UpdateGainCyclePhase b env now prior l else mret b) = Ret b1 /\ advances b b1 /\
       (mode b = PROBE_RTT -> b1 = b)) as (b1 & -> & A1 & E1).
  { destruct (bool_decide (mode b = PROBE_BW)) eqn:Hm; [|exists b; by split_and!; try apply advances_refl].
    apply bool_decide_eq_true in Hm.
    destruct (UpdateGainCyclePhase_advances b env now prior l Hc Hm) as (b1 & ? & ? & ?).
    exists b1. split_and!; [done..|congruence]. }
  cbn [mbind outcome_bind].
  match goal with |- context [MaybeExitStartupOrDrain ?x] => set (b2 := x) end.
  assert (A2 : advances b1 b2 /\ mode b2 = mode b1 /\ exitProbeRttAt b2 = exitProbeRttAt b1).
  { split; unfold b2.
    - case_if; [apply CheckIfFullBandwidthReached_advances|apply advances_refl]; apply A1.
    - unfold CheckIfFullBandwidthReached. by repeat case_if. }
  clearbody b2. destruct A2 as (A2 & Hm2 & He2).
  destruct (MaybeExitStartupOrDrain_advances b2 env now (proj1 A2) Henv) as (b3 & -> & A3 & L3 & E3).
  cbn [mbind outcome_bind].
  destruct (MaybeEnterOrExitProbeRtt_advances b3 env now r e (proj1 A3) L3 Henv) as (b4 & -> & A4 & L4 & E4).
  exists b4. split_and!; [done| |done|].
  - eapply advances_trans; [exact A1|]. intros _. eapply advances_trans; [exact A2|]. intros _.
    eapply advances_trans; [exact A3|]. done.
  - intros Hm Hz Ht Hr. rewrite (E1 Hm) in *. rewrite E3 in E4 by congruence.
    rewrite E4 by congruence. destruct (isAtFullBandwidth b2); auto.
Qed.

(** The recalculations at the end of an event. *)
Lemma recalculate_ok b env n x lost :
  core b -> limits_ok -> env_ok env -> 0 <= n < 2 ^ 63 ->
  exists b',
    (b1 ← CalculatePacingRate b env;
     mret (CalculateRecoveryWindow (CalculateCongestionWindow b1 n x) env n lost)) = Ret b' /\
    advances b b' /\ same_phase b b' /\
    sampler b' = sampler b /\ isAtFullBandwidth b' = isAtFullBandwidth b /\
    DefaultMinimumCongestionWindow <= recoveryWindow b' /\
    congestionWindow b' <= congestionWindow b + n /\
    (isAtFullBandwidth b = false ->
     congestionWindow b <= congestionWindow b' /\ pacingRate b <= pacingRate b').
Proof.
  intros Hc Hlim Henv Hn. destruct (CalculatePacingRate_same b env Hc Henv) as (b1 & -> & K1 & R1).
  cbn [mbind outcome_bind]. pose proof (same_key_advances b b1 K1 Hc) as A1.
  destruct K1 as [[_ S1 W1 F1] _ [M1 Y1 G1]].
  destruct (CalculateCongestionWindow_advances b1 n x (proj1 A1) Hlim Hn)
    as (A2 & _ & [M2 Y2 G2] & _ & (S2 & F2 & R2) & Up & Dn).
  set (b2 := CalculateCongestionWindow b1 n x) in *. clearbody b2.
  destruct (CalculateRecoveryWindow_advances b2 env n lost (proj1 A2))
    as (A3 & [_ S3 W3 F3] & [M3 Y3 G3] & _ & Hw & _).
  assert (R3 : pacingRate (CalculateRecoveryWindow b2 env n lost) = pacingRate b2).
  { unfold CalculateRecoveryWindow. repeat case_if; done. }
  eexists. split; [reflexivity|]. set (b3 := CalculateRecoveryWindow _ _ _ _) in *. clearbody b3.
  split_and!; try congruence.
  - eapply advances_trans; [exact A1|]. intros _. by eapply advances_trans; [exact A2|].
  - split; congruence.
  - intros Hf. specialize (R1 Hf). rewrite F1 in Dn. specialize (Dn Hf). lia.
Qed.

Lemma OnCongestionEvent_ok b env prior now acked lost :
  bbr_ok b -> limits_ok -> env_ok env ->
  exists b', OnCongestionEvent b env prior now acked lost = Ret b' /\ bbr_ok b' /\ evolves b b' /\
    congestionWindow b' <=
      congestionWindow b + (totalBytesAcked (sampler b') - totalBytesAcked (sampler b)) /\
    (isAtFullBandwidth b' = false ->
     congestionWindow b <= congestionWindow b' /\ pacingRate b <= pacingRate b') /\
    (mode b = PROBE_RTT -> exitProbeRttAt b <> zero_time -> exitProbeRttAt b <= now ->
     (exists p, last acked = Some p /\
        currentRoundTripEnd (DiscardLostPackets b lost) < pkt_PacketNumber p) ->
     mode b' = PROBE_BW \/ mode b' = STARTUP).
Proof.
  intros [Hc _ _] Hlim Henv. unfold OnCongestionEvent.
  pose proof (DiscardLostPackets_advances b lost Hc) as A1.
  pose proof (DiscardLostPackets_control b lost) as [M1 F1 X1 W1 R1].
  set (b1 := DiscardLostPackets b lost) in *. clearbody b1.
  destruct (on_acked_advances b1 now acked lost (totalBytesAcked (sampler b)) (proj1 A1))
    as (b2 & r & e & x & E2 & A2). rewrite E2. cbn [mbind outcome_bind].
  apply on_acked_control in E2 as [[M2 F2 X2 W2 R2] Hr].
  destruct (run_machine_advances b2 env prior now (0 <? length lost)%nat r e (proj1 A2) Henv)
    as (b3 & E3 & A3 & L3 & P3). rewrite E3. cbn [mbind outcome_bind].
  apply run_machine_windows in E3 as [W3 R3 _].
  assert (A : advances b b3).
  { eapply advances_trans; [exact A1|]. intros _. by eapply advances_trans; [exact A2|]. }
  pose proof (bytes_acked_range b b3 Hc (proj1 A) (proj2 A)) as Ha.
  destruct (recalculate_ok b3 env (uint64 (totalBytesAcked (sampler b3) - totalBytesAcked (sampler b))) x
    (sum_lengths 0 lost) (proj1 A3) Hlim Henv Ha) as (b4 & E4 & A4 & [M4 _ _] & S4 & F4 & Hw & Up & Dn).
  exists b4. split; [exact E4|]. split_and!.
  - split; [apply A4|done|]. intros Hf. rewrite M4. apply L3. congruence.
  - by destruct (advances_trans b b3 b4 A (fun _ => A4)).
  - rewrite S4. rewrite uint64_id in Up; [rewrite W3, W2, W1 in Up; exact Up|].
    pose proof (ev_acked _ _ (proj2 A)). pose proof (sok_range _ (co_sampler _ Hc)).
    pose proof (sok_conserved _ (co_sampler _ (proj1 A))) as Hu. unfold untracked in Hu.
    destruct (sok_range _ (co_sampler _ (proj1 A))) as (? & ? & ?). pose proof (sok_tracked_nonneg _ (co_sampler _ (proj1 A))). go_range.
  - intros Hf. rewrite <- W1, <- W2, <- W3, <- R1, <- R2, <- R3. apply Dn. congruence.
  - intros Hm Hz Ht (p & Hl & Hp). rewrite M4. apply P3; try congruence.
    rewrite Hr, Hl, (proj2 (Z.ltb_lt _ _) Hp). apply orb_true_r.
Qed.

(** *** Recovery is entered by events that report both acknowledged and lost packets *)

Lemma UpdateBandwidthAndMinRtt_recovery b now l b' e :
  UpdateBandwidthAndMinRtt b now l = Ret (b', e) -> recoveryState b' = recoveryState b.
Proof.
  unfold UpdateBandwidthAndMinRtt. intros ([b1 m] & H1 & H2)%outcome_bind_Ret.
  assert (E1 : recoveryState b1 = recoveryState b).
  { clear H2. revert b H1. generalize InfiniteRTT as m0.
    induction l as [|p l IH]; intros m0 b; cbn [update_bandwidth_loop]; [by intros [= -> ->]|].
    intros ([b2 m2] & H1 & H2)%outcome_bind_Ret. rewrite (IH _ _ H2). clear H2 IH.
    unfold update_bandwidth_one in H1. case_if_in H1; [by injection H1 as <- <-|].
    apply outcome_bind_Ret in H1 as ([s smpl] & _ & H1). case_if_in H1; injection H1 as <- <-; [done|].
    destruct (isAppLimited _); cbn [negb orb]; try case_if; done. }
  rewrite <- E1. case_if_in H2; [by injection H2 as <- <-|].
  destruct (_ || _ || _); [destruct (_ && ShouldExtendMinRttExpiry _)|]; injection H2 as <- <-; done.
Qed.

Lemma on_acked_recovery b now acked before b' r e x :
  on_acked b now acked [] before = Ret (b', r, e, x) -> recoveryState b = NOT_IN_RECOVERY ->
  recoveryState b' = NOT_IN_RECOVERY.
Proof.
  unfold on_acked. destruct (last acked) as [p|]; [|by intros [= <- <- <- <-]].
  destruct (UpdateRoundTripCounter b (pkt_PacketNumber p)) as [b1 r1] eqn:E1.
  intros ([b2 e2] & H2 & H3)%outcome_bind_Ret Hb. apply UpdateBandwidthAndMinRtt_recovery in H2.
  assert (Hb1 : recoveryState b1 = NOT_IN_RECOVERY).
  { unfold UpdateRoundTripCounter in E1. destruct (_ || _); injection E1 as <- <-; done. }
  rewrite Hb1 in H2. assert (H4 : recoveryState (UpdateRecoveryState b2 (pkt_PacketNumber p) false r1) = NOT_IN_RECOVERY).
  { unfold UpdateRecoveryState, recovery_switch. cbn. rewrite H2. cbn. by rewrite H2. }
  cbn [length Nat.ltb Nat.leb] in H3. set (b3 := UpdateRecoveryState _ _ _ _) in *. clearbody b3.
  destruct (UpdateAckAggregationBytes b3 now _) as [b4 x4] eqn:E4. injection H3 as <- <- <- <-.
  unfold UpdateAckAggregationBytes in E4. destruct (_ <=? _); injection E4 as <- <-; done.
Qed.

Lemma recalculate_recovery b env n x lost b' :
  (b1 ← CalculatePacingRate b env;
   mret (CalculateRecoveryWindow (CalculateCongestionWindow b1 n x) env n lost)) = Ret b' ->
  recoveryState b' = recoveryState b.
Proof.
  intros (b1 & H1 & [= <-])%outcome_bind_Ret. assert (E1 : recoveryState b1 = recoveryState b).
  { unfold CalculatePacingRate in H1. repeat (case_if_in H1; try by injection H1 as <-).
    all: try (apply outcome_bind_Ret in H1 as (bw & _ & [= <-]); done). }
  rewrite <- E1. set (b2 := CalculateCongestionWindow b1 n x).
  assert (E2 : recoveryState b2 = recoveryState b1) by (unfold b2, CalculateCongestionWindow; repeat case_if; done).
  clearbody b2. rewrite <- E2. unfold CalculateRecoveryWindow. repeat case_if; done.
Qed.

(** An event with acknowledged or with lost packets, not with both, does not
    enter recovery. *)
Lemma OnCongestionEvent_recovery b env prior now acked lost b' :
  OnCongestionEvent b env prior now acked lost = Ret b' -> acked = [] \/ lost = [] ->
  recoveryState b = NOT_IN_RECOVERY -> recoveryState b' = NOT_IN_RECOVERY.
Proof.
  unfold OnCongestionEvent. intros ([[[b1 r] e] x] & H1 & H2)%outcome_bind_Ret Hone Hb.
  assert (Hd : recoveryState (DiscardLostPackets b lost) = NOT_IN_RECOVERY).
  { rewrite <- Hb. clear. revert b. induction lost as [|p l IH]; intros b; cbn [DiscardLostPackets]; [done|]. rewrite IH. by case_if. }
  assert (Hb1 : recoveryState b1 = NOT_IN_RECOVERY).
  { destruct Hone as [-> | ->]; [by injection H1 as <- _ _ _|by eapply on_acked_recovery]. }
  apply outcome_bind_Ret in H2 as (b2 & H2%run_machine_windows & H3). apply recalculate_recovery in H3.
  rewrite H3. destruct H2 as [_ _ ->]. done.
Qed.

Lemma bbr_OnPacketSent_ok b t inflight pn n ret :
  bbr_ok b -> 0 <= n -> totalBytesSent (sampler b) + n < 2 ^ 63 ->
  bbr_ok (bbr_OnPacketSent b t inflight pn n ret) /\ evolves b (bbr_OnPacketSent b t inflight pn n ret).
Proof.
  intros [Hc Hw Hl] Hn Hmax. unfold bbr_OnPacketSent.
  match goal with |- context [sampler_OnPacketSent (sampler ?x)] => set (b1 := x) end.
  assert (K : same_key b b1 /\ sampler b1 = sampler b) by (unfold b1; destruct (_ && _); case_if; done).
  clearbody b1. destruct K as [K S1]. pose proof (same_key_advances b b1 K Hc) as A1. rewrite S1.
  destruct (sampler_OnPacketSent_ok (sampler b) t pn n inflight ret (co_sampler b Hc) Hn Hmax)
    as (Hok & Ha & _ & Hs & _).
  match goal with |- bbr_ok ?x /\ _ => assert (A : advances b x) end.
  { eapply advances_trans; [exact A1|]. intros Hc1. eapply sampler_advances; [done|exact Hok|..|done].
    - rewrite Hs, S1. destruct ret; lia.
    - rewrite Ha, S1. lia. }
  split; [|apply A]. destruct K as [[_ _ _ F] [_ W] [M _ _]].
  split; [apply A|cbn; lia|]. cbn. rewrite F, M. exact Hl.
Qed.

End Invariant.

Lemma DiscardLostPackets_round b l :
  currentRoundTripEnd (DiscardLostPackets b l) = currentRoundTripEnd b.
Proof.
  revert b. induction l as [|p l IH]; intros b; cbn [DiscardLostPackets]; [done|].
  rewrite IH. by case_if.
Qed.

(** ** Reachable states *)

Section Reachable.
Context `{FloatConv} (initialCwnd maxCwnd : ByteCount).

(** A call of the connection, which sends less than 2^63 bytes in all. *)
Inductive bbr_step : bbrSender -> bbrSender -> Prop :=
| step_sent b t inflight pn n ret :
    0 <= n -> totalBytesSent (sampler b) + n < 2 ^ 63 ->
    bbr_step b (bbr_OnPacketSent b t inflight pn n ret)
| step_event b b' env prior now acked lost :
    env_ok env -> OnCongestionEvent b env prior now acked lost = Ret b' -> bbr_step b b'.

Definition bbr_reachable (b : bbrSender) : Prop := rtc bbr_step (NewBBRSender initialCwnd maxCwnd) b.

Lemma bbr_step_ok b b' :
  bbr_ok initialCwnd maxCwnd b -> limits_ok initialCwnd maxCwnd -> bbr_step b b' ->
  bbr_ok initialCwnd maxCwnd b' /\ evolves b b'.
Proof.
  intros Hok Hlim Hs. revert Hok.
  destruct Hs as [b0 t inflight pn n ret|b0 b1 env prior now acked lost Henv He]; intros Hok.
  - by apply bbr_OnPacketSent_ok.
  - destruct (OnCongestionEvent_ok _ _ b0 env prior now acked lost Hok Hlim Henv)
      as (b2 & He' & Hok2 & Hev & _). rewrite He' in He. injection He as ->. done.
Qed.

Lemma bbr_steps_ok b b' :
  bbr_ok initialCwnd maxCwnd b -> limits_ok initialCwnd maxCwnd -> rtc bbr_step b b' ->
  bbr_ok initialCwnd maxCwnd b' /\ evolves b b'.
Proof.
  intros Hok Hlim Hs. induction Hs as [b|b b1 b2 H1 _ IH]; [by split|].
  destruct (bbr_step_ok b b1 Hok Hlim H1) as [Hok1 E1]. destruct (IH Hok1) as [Hok2 E2].
  split; [done|by etransitivity].
Qed.

Lemma bbr_reachable_ok b :
  limits_ok initialCwnd maxCwnd -> bbr_reachable b -> bbr_ok initialCwnd maxCwnd b.
Proof. intros Hlim Hr. apply (bbr_steps_ok _ b (NewBBRSender_ok _ _ Hlim) Hlim Hr). Qed.

Lemma GetCongestionWindow_min b :
  bbr_ok initialCwnd maxCwnd b -> DefaultMinimumCongestionWindow <= GetCongestionWindow b.
Proof.
  intros [Hc Hw _]. unfold GetCongestionWindow, ProbeRttCongestionWindow.
  rewrite (core_basedOnBdp _ _ b Hc), (core_minCwnd _ _ b Hc), minByteCount_min.
  pose proof (co_cwnd _ _ b Hc). repeat case_if; lia.
Qed.

(** Traces of calls, run from a state. *)
Inductive call : Type :=
| Sent (t : time) (inflight : ByteCount) (pn : PacketNumber) (n : ByteCount)
| Event (env : Env) (prior : ByteCount) (now : time) (acked lost : list Packet).

#[local] Instance env_ok_dec env : Decision (env_ok env).
Proof. unfold env_ok, is_uint64, is_int64. solve_decision. Defined.

Definition run_call (b : bbrSender) (c : call) : option bbrSender :=
  match c with
  | Sent t inflight pn n =>
      if (0 <=? n) && (totalBytesSent (sampler b) + n <? 2 ^ 63)
      then Some (bbr_OnPacketSent b t inflight pn n true) else None
  | Event env prior now acked lost =>
      if bool_decide (env_ok env) then
        match OnCongestionEvent b env prior now acked lost with Ret b' => Some b' | _ => None end
      else None
  end.

Definition run_calls (b : bbrSender) (l : list call) : option bbrSender :=
  foldl (fun ob c => ob ≫= fun b => run_call b c) (Some b) l.

(** The state a trace ends in, [b] itself when the trace is not a run. *)
Definition state_after (b : bbrSender) (l : list call) : bbrSender :=
  default b (run_calls b l).

Lemma state_after_steps b l : rtc bbr_step b (state_after b l).
Proof.
  unfold state_after, run_calls. induction l as [|c l IH] using rev_ind; [apply rtc_refl|].
  rewrite foldl_app. cbn. destruct (foldl _ _ l) as [b1|]; cbn in *; [|apply rtc_refl].
  destruct (run_call b1 c) as [b2|] eqn:Hc; [|apply rtc_refl].
  eapply rtc_r; [exact IH|]. unfold run_call in Hc. destruct c; case_if_in Hc; try done.
  - injection Hc as <-. apply andb_true_iff in Heqb0 as [Hn Hmax]. zbool. by apply step_sent.
  - apply bool_decide_eq_true in Heqb0. destruct (OnCongestionEvent _ _ _ _ _ _) eqn:He; try done.
    injection Hc as <-. by eapply step_event.
Qed.

End Reachable.

(** ** Properties *)

(** C6. In every reachable state the congestion window lies between the minimum
    and the maximum, the window the sender enforces (in PROBE_RTT and in
    recovery too) is at least the minimum, so a sender with nothing in flight
    can always send; and the next congestion event, whatever it reports,
    completes without a panic. *)
Theorem bbr_reachable_safe `{FloatConv} initialCwnd maxCwnd b env prior now acked lost :
  limits_ok initialCwnd maxCwnd -> bbr_reachable initialCwnd maxCwnd b -> env_ok env ->
  DefaultMinimumCongestionWindow <= congestionWindow b <= maxCwnd /\
  DefaultMinimumCongestionWindow <= GetCongestionWindow b /\ CanSend b 0 = true /\
  exists b', OnCongestionEvent b env prior now acked lost = Ret b'.
Proof.
  intros Hlim Hr Henv. pose proof (bbr_reachable_ok _ _ b Hlim Hr) as Hok.
  pose proof (GetCongestionWindow_min _ _ b Hok) as Hmin. split_and!; try apply Hok; [done| |].
  - unfold CanSend. apply Z.ltb_lt. assert (0 < DefaultMinimumCongestionWindow) by done. lia.
  - destruct (OnCongestionEvent_ok _ _ b env prior now acked lost Hok Hlim Henv) as (b' & ? & _). by exists b'.
Qed.

(** The sender of a new connection sends packets 1 and 2; packet 2 is then
    acknowledged and packet 1 declared lost.  Packet 3 is sent after the loss
    and acknowledged without further losses. *)
Definition new_sender : bbrSender := NewBBRSender InitialCongestionWindow DefaultBBRMaxCongestionWindow.
Definition demo_env : Env := mkEnv 0 (100 * Millisecond) 5 0.
Definition demo_loss : bbrSender :=
  @state_after amd64 new_sender
    [Sent 1000 0 1 1200; Sent 2000 1200 2 1200;
     Event demo_env 2400 100002000 [mkPacket 2 0 1200 2000] [mkPacket 1 0 1200 1000]].
Definition demo_resent : bbrSender := @state_after amd64 demo_loss [Sent 200002000 0 3 1200].
Definition demo_after : bbrSender :=
  @state_after amd64 demo_resent [Event demo_env 1200 300002000 [mkPacket 3 0 1200 200002000] []].

(** Packet 2 is acknowledged more than ten seconds after packet 1, so that the
    minimum RTT has expired; packet 3 is then sent. *)
Definition demo_probe : bbrSender :=
  @state_after amd64 new_sender
    [Sent 1000 0 1 1200; Event demo_env 1200 100001000 [mkPacket 1 0 1200 1000] [];
     Sent 20000000000 0 2 1200; Event demo_env 1200 20100000000 [mkPacket 2 0 1200 20000000000] [];
     Sent 20100000000 0 3 1200].

Definition demo_left : bbrSender :=
  @state_after amd64 demo_probe [Event demo_env 1200 20400000000 [mkPacket 3 0 1200 20100000000] []].

Lemma demo_limits : limits_ok InitialCongestionWindow DefaultBBRMaxCongestionWindow.
Proof. by vm_compute. Qed.

Lemma demo_loss_reachable :
  @bbr_reachable amd64 InitialCongestionWindow DefaultBBRMaxCongestionWindow demo_loss.
Proof. apply state_after_steps. Qed.

Lemma demo_resent_reachable :
  @bbr_reachable amd64 InitialCongestionWindow DefaultBBRMaxCongestionWindow demo_resent.
Proof. unfold bbr_reachable. etransitivity; [apply demo_loss_reachable|apply state_after_steps]. Qed.

Lemma demo_probe_reachable :
  @bbr_reachable amd64 InitialCongestionWindow DefaultBBRMaxCongestionWindow demo_probe.
Proof. apply state_after_steps. Qed.

Lemma bbr_reachable_safe_witness :
  DefaultMinimumCongestionWindow <= @GetCongestionWindow amd64 demo_loss.
Proof.
  apply (@bbr_reachable_safe amd64 InitialCongestionWindow DefaultBBRMaxCongestionWindow demo_loss
    demo_env 0 200002000 [] [] demo_limits demo_loss_reachable). by vm_compute.
Defined.

(** Once the sender has entered loss recovery it never leaves it again: no
    sequence of sends and congestion events ends recovery, since an event
    without losses sets [endRecoveryAt] to [lastSendPacket] right before it
    asks for [lastSendPacket > endRecoveryAt]. *)
Theorem bbr_recovery_never_left `{FloatConv} initialCwnd maxCwnd b b' :
  limits_ok initialCwnd maxCwnd -> bbr_reachable initialCwnd maxCwnd b -> rtc bbr_step b b' ->
  InRecovery b = true -> InRecovery b' = true.
Proof.
  intros Hlim Hr Hs. apply (bbr_steps_ok initialCwnd maxCwnd b b' (bbr_reachable_ok _ _ b Hlim Hr) Hlim Hs).
Qed.

Lemma bbr_recovery_never_left_witness : InRecovery demo_after = true.
Proof.
  apply (@bbr_recovery_never_left amd64 InitialCongestionWindow DefaultBBRMaxCongestionWindow
    demo_resent demo_after demo_limits demo_resent_reachable (state_after_steps _ _)). by vm_compute.
Defined.

(** The phases of a reachable sender: DRAIN and PROBE_BW are only entered
    at full bandwidth, STARTUP is over once the full bandwidth is reached, the
    place in the gain cycle is always one of its eight, and the pacing gain is
    the one of the phase (in PROBE_BW, the one at that place of the cycle). *)
Theorem bbr_phases `{FloatConv} initialCwnd maxCwnd b :
  limits_ok initialCwnd maxCwnd -> bbr_reachable initialCwnd maxCwnd b ->
  (mode b = DRAIN \/ mode b = PROBE_BW -> isAtFullBandwidth b = true) /\
  (isAtFullBandwidth b = true -> mode b <> STARTUP) /\
  0 <= cycleCurrentOffset b < 8 /\ phase_gain b.
Proof.
  intros Hlim Hr. destruct (bbr_reachable_ok _ _ b Hlim Hr) as [[] _ Hl]. done.
Qed.

Lemma bbr_phases_witness : 0 <= cycleCurrentOffset demo_loss < 8.
Proof.
  exact (proj1 (proj2 (proj2 (@bbr_phases amd64 InitialCongestionWindow DefaultBBRMaxCongestionWindow
    demo_loss demo_limits demo_loss_reachable)))).
Defined.

(** One congestion event raises the congestion window by no more than the
    bytes the sampler newly counts as acknowledged, and as long as the full
    bandwidth is not reached it lowers neither the window nor the pacing
    rate. *)
Theorem bbr_event_growth `{FloatConv} initialCwnd maxCwnd b env prior now acked lost b' :
  limits_ok initialCwnd maxCwnd -> bbr_reachable initialCwnd maxCwnd b -> env_ok env ->
  OnCongestionEvent b env prior now acked lost = Ret b' ->
  congestionWindow b' <=
    congestionWindow b + (totalBytesAcked (sampler b') - totalBytesAcked (sampler b)) /\
  (isAtFullBandwidth b' = false ->
   congestionWindow b <= congestionWindow b' /\ pacingRate b <= pacingRate b').
Proof.
  intros Hlim Hr Henv He.
  destruct (OnCongestionEvent_ok _ _ b env prior now acked lost (bbr_reachable_ok _ _ b Hlim Hr) Hlim Henv)
    as (b2 & He' & _ & _ & Hup & Hdn & _). rewrite He' in He. by injection He as ->.
Qed.

Lemma bbr_event_growth_witness :
  congestionWindow demo_after <=
    congestionWindow demo_resent +
    (totalBytesAcked (sampler demo_after) - totalBytesAcked (sampler demo_resent)).
Proof.
  refine (proj1 (@bbr_event_growth amd64 InitialCongestionWindow DefaultBBRMaxCongestionWindow
    demo_resent demo_env 1200 300002000 [mkPacket 3 0 1200 200002000] [] demo_after demo_limits
    demo_resent_reachable _ _)).
  - by vm_compute.
  - vm_compute. reflexivity.
Defined.

(** PROBE_RTT is left: when the exit time has been set and has come, the
    first acknowledgement of a packet beyond the current round brings the sender
    back to PROBE_BW or STARTUP. *)
Theorem bbr_probe_rtt_left `{FloatConv} initialCwnd maxCwnd b env prior now acked lost p b' :
  limits_ok initialCwnd maxCwnd -> bbr_reachable initialCwnd maxCwnd b -> env_ok env ->
  mode b = PROBE_RTT -> exitProbeRttAt b <> zero_time -> exitProbeRttAt b <= now ->
  last acked = Some p -> currentRoundTripEnd b < pkt_PacketNumber p ->
  OnCongestionEvent b env prior now acked lost = Ret b' ->
  mode b' = PROBE_BW \/ mode b' = STARTUP.
Proof.
  intros Hlim Hr Henv Hm Hz Ht Hp Hpn He.
  destruct (OnCongestionEvent_ok _ _ b env prior now acked lost (bbr_reachable_ok _ _ b Hlim Hr) Hlim Henv)
    as (b2 & He' & _ & _ & _ & _ & Hx). rewrite He' in He. injection He as ->.
  apply Hx; try done. exists p. by rewrite DiscardLostPackets_round.
Qed.

Lemma bbr_probe_rtt_left_witness : mode demo_left = PROBE_BW \/ mode demo_left = STARTUP.
Proof.
  refine (@bbr_probe_rtt_left amd64 InitialCongestionWindow DefaultBBRMaxCongestionWindow demo_probe
    demo_env 1200 20400000000 [mkPacket 3 0 1200 20100000000] [] (mkPacket 3 0 1200 20100000000) demo_left
    demo_limits demo_probe_reachable _ _ _ _ _ _ _); by vm_compute.
Defined.

(** The round counter over a sequence of acknowledgements. *)
Definition rounds (b : bbrSender) (acks : list PacketNumber) : bbrSender :=
  foldl (fun b pn => fst (UpdateRoundTripCounter b pn)) b acks.

(** The round counter counts acknowledgements, not round trips: every
    acknowledgement of a packet above the previous one starts a new round,
    whenever those packets were sent, because the end of the round is set to the
    packet just acknowledged and not to the last packet sent. *)
Theorem bbr_rounds_count_acks b acks :
  Sorted Z.lt (currentRoundTripEnd b :: acks) ->
  0 <= roundTripCount b -> roundTripCount b + Z.of_nat (length acks) < 2 ^ 63 ->
  roundTripCount (rounds b acks) = roundTripCount b + Z.of_nat (length acks).
Proof.
  revert b. induction acks as [|pn acks IH]; intros b Hs H0 Hmax; [cbn; lia|].
  apply Sorted_inv in Hs as [Hs Hlt]. apply HdRel_inv in Hlt.
  cbn [rounds foldl]. unfold UpdateRoundTripCounter at 2.
  rewrite (proj2 (Z.ltb_lt _ _) Hlt), orb_true_r. cbn [fst length] in *.
  unfold rounds in IH. rewrite IH; cbn [currentRoundTripEnd roundTripCount over]; go_ints; [lia|done|lia|lia].
Qed.

(** Five packets sent back to back and acknowledged one by one. *)
Lemma bbr_rounds_count_acks_witness : roundTripCount (rounds new_sender [1; 2; 3; 4; 5]) = 5.
Proof.
  apply (bbr_rounds_count_acks new_sender [1; 2; 3; 4; 5]); [|by vm_compute|by vm_compute].
  repeat constructor.
Defined.

Lemma fone_dyadic : dyadic fone 1 0.
Proof. eexists _, 52. split; [reflexivity|done]. Qed.

(** The target window is not in bytes: with gain 1 it is the product of the
    bandwidth estimate in bits per second and the minimum RTT in nanoseconds,
    at least 8 * 10^9 times the bandwidth-delay product in bytes. *)
Theorem bbr_target_window_units `{FloatConv} b bytesPerSecond :
  BandwidthEstimate b = 8 * bytesPerSecond -> 0 < bytesPerSecond -> 0 < minRtt b ->
  8 * bytesPerSecond * minRtt b < 2 ^ 53 ->
  GetTargetCongestionWindow b fone = Z.max (8 * bytesPerSecond * minRtt b) (minCongestionWindow b) /\
  8 * 10 ^ 9 * (bytesPerSecond * minRtt b / Second) <= GetTargetCongestionWindow b fone.
Proof.
  intros Hb Hbw Hr Hmax.
  assert (E : GetTargetCongestionWindow b fone = Z.max (8 * bytesPerSecond * minRtt b) (minCongestionWindow b));
    [|split; [done|]; rewrite E; pose proof (Z.mul_div_le (bytesPerSecond * minRtt b) Second ltac:(done));
      change Second with (10 ^ 9) in *; lia].
  unfold GetTargetCongestionWindow, GetMinRtt.
  rewrite Hb, (proj2 (Z.ltb_lt _ _) Hr), maxByteCount_max.
  rewrite (uint64_id (minRtt b)), uint64_id by (unfold is_uint64; nia).
  rewrite fmul64_comm, (f2uint64_mul _ _ 1 0 fone_dyadic) by nia.
  rewrite Z.mul_1_r, Z.pow_0_r, Z.div_1_r, (proj2 (Z.eqb_neq _ _)) by nia. f_equal. lia.
Qed.

(** One megabyte per second and 100 ms: 100,000 bytes, but a target of
    8 * 10^14. *)
Lemma bbr_target_window_units_witness :
  @GetTargetCongestionWindow amd64
    (new_sender <| maxBandwidth := Update (maxBandwidth new_sender) 8000000 1 |>
                <| minRtt := 100 * Millisecond |>) fone = 800000000000000.
Proof.
  refine (proj1 (@bbr_target_window_units amd64
    (new_sender <| maxBandwidth := Update (maxBandwidth new_sender) 8000000 1 |>
                <| minRtt := 100 * Millisecond |>) 1000000 _ _ _ _)); by vm_compute.
Defined.
