(* ===== verification/SentPacketHandler.v ===== *)
(** * Loss recovery (internal/ackhandler/sent_packet_handler.go)

    The packets in flight of the three packet number spaces, acknowledgements,
    loss detection, retransmissions and the alarm.  The congestion controller is
    used through its interface (congestion/interface.go).  The clock and the
    random numbers of the packet number generator are arguments.  A packet in
    the retransmission queue is the packet as it was when it was queued: only
    its number, level and frames are used later.  Logging is not modelled. *)

From Stdlib Require Import Sorted.
From S2P Require Import Prelude GoFloat Protocol AckFrame Frames RTTStats SentHistory BBR.

(** ** The interface of the congestion controller (congestion/interface.go) *)

(** [SendAlgorithmWithDebugInfos]; a controller that implements [CongestionEvent]
    has an [OnCongestionEvent], which can read the bytes in flight and the
    round-trip statistics of the connection. *)
Class SendAlgorithm (C : Type) : Type := {
  cc_TimeUntilSend : C -> ByteCount -> duration;
  cc_OnPacketSent : C -> time -> ByteCount -> PacketNumber -> ByteCount -> bool -> C;
  cc_CanSend : C -> ByteCount -> bool;
  cc_MaybeExitSlowStart : C -> C;
  cc_OnPacketAcked : C -> PacketNumber -> ByteCount -> ByteCount -> time -> outcome C;
  cc_OnPacketLost : C -> PacketNumber -> ByteCount -> ByteCount -> outcome C;
  cc_OnCongestionEvent :
    option (C -> ByteCount -> RTTStats -> ByteCount -> time -> list Packet -> list Packet -> outcome C)
}.

(** The BBR sender as a controller; its random numbers depend on its state. *)
Section BBRController.
Context `{FloatConv} (randDrain randProbeRtt : bbrSender -> Z).

Definition bbr_algorithm : SendAlgorithm bbrSender := {|
  cc_TimeUntilSend := TimeUntilSend;
  cc_OnPacketSent := bbr_OnPacketSent;
  cc_CanSend := CanSend;
  cc_MaybeExitSlowStart b := b;
  cc_OnPacketAcked := bbr_OnPacketAcked;
  cc_OnPacketLost := bbr_OnPacketLost;
  cc_OnCongestionEvent := Some (fun b inFlight rttStats =>
    OnCongestionEvent b (mkEnv inFlight (minRTT rttStats) (randDrain b) (randProbeRtt b)))
|}.

End BBRController.

(** [Packet.ToPacket] *)
Definition ToPacket (p : SentPacket) : Packet :=
  mkPacket (sp_PacketNumber p) (sp_PacketType p) (sp_Length p) (sp_SendTime p).

(** ** Data *)

Definition timeThreshold : float := fconst64 9 8.
Definition TimerGranularity : duration := Millisecond.
Definition MinPacingDelay : duration := 100 * Microsecond.
Definition MaxOutstandingSentPackets : Z := 2 * 1000.
Definition MaxTrackedSentPackets : Z := MaxOutstandingSentPackets * 5 / 4.
Definition ProtocolViolation : Z := 0xa.

Record packetNumberSpace := mkSpace {
  ps_history : sentPacketHistory;
  ps_pns : packetNumberGenerator;
  ps_largestAcked : PacketNumber;
  ps_largestSent : PacketNumber
}.

#[global] Instance space_eta : Eta packetNumberSpace := fun s =>
  mkSpace (ps_history s) (ps_pns s) (ps_largestAcked s) (ps_largestSent s).

Definition newPacketNumberSpace (initialPN : PacketNumber) (num : Z) : packetNumberSpace :=
  mkSpace newSentPacketHistory (newPacketNumberGenerator initialPN SkipPacketAveragePeriodLength num)
    InvalidPacketNumber InvalidPacketNumber.

Record sentPacketHandler (C : Type) := mkHandler {
  hd_lastSentAckElicitingPacketTime : time;
  hd_lastSentCryptoPacketTime : time;
  hd_nextSendTime : time;
  hd_initialPackets : option packetNumberSpace;
  hd_handshakePackets : option packetNumberSpace;
  hd_oneRTTPackets : packetNumberSpace;
  hd_lowestNotConfirmedAcked : PacketNumber;
  hd_retransmissionQueue : list SentPacket;
  hd_bytesInFlight : ByteCount;
  hd_congestion : C;
  hd_rttStats : RTTStats;
  hd_maxAckDelay : duration;
  hd_cryptoCount : Z;
  hd_ptoCount : Z;
  hd_numProbesToSend : Z;
  hd_lossTime : time;
  hd_alarm : time
}.
Arguments mkHandler {C}.
Arguments hd_lastSentAckElicitingPacketTime {C}.
Arguments hd_lastSentCryptoPacketTime {C}.
Arguments hd_nextSendTime {C}.
Arguments hd_initialPackets {C}.
Arguments hd_handshakePackets {C}.
Arguments hd_oneRTTPackets {C}.
Arguments hd_lowestNotConfirmedAcked {C}.
Arguments hd_retransmissionQueue {C}.
Arguments hd_bytesInFlight {C}.
Arguments hd_congestion {C}.
Arguments hd_rttStats {C}.
Arguments hd_maxAckDelay {C}.
Arguments hd_cryptoCount {C}.
Arguments hd_ptoCount {C}.
Arguments hd_numProbesToSend {C}.
Arguments hd_lossTime {C}.
Arguments hd_alarm {C}.

#[global] Instance handler_eta C : Eta (sentPacketHandler C) := fun h =>
  mkHandler (hd_lastSentAckElicitingPacketTime h) (hd_lastSentCryptoPacketTime h) (hd_nextSendTime h)
    (hd_initialPackets h) (hd_handshakePackets h) (hd_oneRTTPackets h) (hd_lowestNotConfirmedAcked h)
    (hd_retransmissionQueue h) (hd_bytesInFlight h) (hd_congestion h) (hd_rttStats h) (hd_maxAckDelay h)
    (hd_cryptoCount h) (hd_ptoCount h) (hd_numProbesToSend h) (hd_lossTime h) (hd_alarm h).

Inductive SendMode := SendNone | SendAck | SendRetransmission | SendPTO | SendAny.

Section Handler.
Context {C : Type} `{!SendAlgorithm C} `{FloatConv}.
Local Notation handler := (sentPacketHandler C).

Definition getPacketNumberSpace (h : handler) (encLevel : EncryptionLevel) : outcome (option packetNumberSpace) :=
  match encLevel with
  | EncryptionInitial => mret (hd_initialPackets h)
  | EncryptionHandshake => mret (hd_handshakePackets h)
  | Encryption1RTT => mret (Some (hd_oneRTTPackets h))
  | EncryptionUnspecified => Panic "invalid packet number space"
  end.

(** The space a pointer points to, and a change of it. *)
Definition space_of (h : handler) (encLevel : EncryptionLevel) : outcome packetNumberSpace :=
  s ← getPacketNumberSpace h encLevel;
  match s with Some s => mret s | None => Panic nil_dereference end.
Definition set_space (h : handler) (encLevel : EncryptionLevel) (s : packetNumberSpace) : handler :=
  match encLevel with
  | EncryptionInitial => h <| hd_initialPackets := Some s |>
  | EncryptionHandshake => h <| hd_handshakePackets := Some s |>
  | _ => h <| hd_oneRTTPackets := s |>
  end.
Definition set_history (h : handler) (encLevel : EncryptionLevel) (s : packetNumberSpace) (x : sentPacketHistory) : handler :=
  set_space h encLevel (s <| ps_history := x |>).

(** ** The alarm *)

Definition hasOutstandingCryptoPackets (h : handler) : bool :=
  let hasInitial := match hd_initialPackets h with Some s => HasOutstandingPackets (ps_history s) | None => false end in
  let hasHandshake := match hd_handshakePackets h with Some s => HasOutstandingPackets (ps_history s) | None => false end in
  hasInitial || hasHandshake.

Definition hasOutstandingPackets (h : handler) : bool :=
  HasOutstandingPackets (ps_history (hd_oneRTTPackets h)) || hasOutstandingCryptoPackets h.

Definition computeCryptoTimeout (h : handler) : duration :=
  let d := MaxDuration (int64 (2 * SmoothedOrInitialRTT (hd_rttStats h))) TimerGranularity in
  (* exponential backoff *)
  int64 (Z.shiftl d (hd_cryptoCount h)).

Definition computePTOTimeout (h : handler) : duration :=
  let d := int64 (SmoothedOrInitialRTT (hd_rttStats h) +
    MaxDuration (int64 (4 * meanDeviation (hd_rttStats h))) TimerGranularity + hd_maxAckDelay h) in
  int64 (Z.shiftl d (hd_ptoCount h)).

Definition updateLossDetectionAlarm (h : handler) : handler :=
  (* Cancel the alarm if no packets are outstanding *)
  if negb (hasOutstandingPackets h) then h <| hd_alarm := zero_time |>
  else if hasOutstandingCryptoPackets h then
    h <| hd_alarm := Add (hd_lastSentCryptoPacketTime h) (computeCryptoTimeout h) |>
  else if negb (IsZero (hd_lossTime h)) then
    (* Early retransmit timer or time loss detection. *)
    h <| hd_alarm := hd_lossTime h |>
  else (* PTO alarm *)
    h <| hd_alarm := Add (hd_lastSentAckElicitingPacketTime h) (computePTOTimeout h) |>.

(** ** Sending *)

(** What [sentPacketImpl] does for an ack-eliciting packet. *)
Definition count_packet (h : handler) (packet : SentPacket) : handler :=
  let h := if negb (bool_decide (sp_EncryptionLevel packet = Encryption1RTT))
           then h <| hd_lastSentCryptoPacketTime := sp_SendTime packet |> else h in
  let h := h <| hd_lastSentAckElicitingPacketTime := sp_SendTime packet |> in
  let h := h <| hd_bytesInFlight := uint64 (hd_bytesInFlight h + sp_Length packet) |> in
  if 0 <? hd_numProbesToSend h then h <| hd_numProbesToSend := hd_numProbesToSend h - 1 |> else h.

(** [sentPacketImpl]: the packet with the fields it sets, and whether it is
    ack-eliciting. *)
Definition sentPacketImpl (h : handler) (packet : SentPacket) : outcome (handler * SentPacket * bool) :=
  pnSpace ← space_of h (sp_EncryptionLevel packet);
  let h := set_space h (sp_EncryptionLevel packet) (pnSpace <| ps_largestSent := sp_PacketNumber packet |>) in
  largestAcked ← match sp_Ack packet with Some ack => LargestAcked ack | None => mret InvalidPacketNumber end;
  let packet := packet <| sp_largestAcked := largestAcked |> <| sp_Ack := None |> in
  let isAckEliciting := (0 <? length (sp_Frames packet))%nat in
  let packet := if isAckEliciting
    then packet <| sp_includedInBytesInFlight := true |> <| sp_canBeRetransmitted := true |> else packet in
  let h := if isAckEliciting then count_packet h packet else h in
  let h := h <| hd_congestion := cc_OnPacketSent (hd_congestion h) (sp_SendTime packet) (hd_bytesInFlight h)
                 (sp_PacketNumber packet) (sp_Length packet) isAckEliciting |> in
  let h := h <| hd_nextSendTime := Add (MaxTime (hd_nextSendTime h) (sp_SendTime packet))
                 (cc_TimeUntilSend (hd_congestion h) (hd_bytesInFlight h)) |> in
  mret (h, packet, isAckEliciting).

Definition handler_SentPacket (h : handler) (packet : SentPacket) : outcome handler :=
  '(h, packet, isAckEliciting) ← sentPacketImpl h packet;
  if isAckEliciting : bool then
    pnSpace ← space_of h (sp_EncryptionLevel packet);
    mret (updateLossDetectionAlarm
      (set_history h (sp_EncryptionLevel packet) pnSpace (history_sent (ps_history pnSpace) packet)))
  else mret h.

(** The loop of [SentPacketsAsRetransmission]: the ack-eliciting packets. *)
Fixpoint sent_all (h : handler) (packets : list SentPacket) : outcome (handler * list SentPacket) :=
  match packets with
  | [] => mret (h, [])
  | packet :: packets =>
      '(h, packet, isAckEliciting) ← sentPacketImpl h packet;
      '(h, l) ← sent_all h packets;
      mret (h, if isAckEliciting : bool then packet :: l else l)
  end.

Definition handler_SentPacketsAsRetransmission (h : handler) (packets : list SentPacket)
    (retransmissionOf : PacketNumber) : outcome handler :=
  '(h, p) ← sent_all h packets;
  match p with
  | [] => Panic "index out of range"
  | p0 :: _ =>
      pnSpace ← space_of h (sp_EncryptionLevel p0);
      mret (updateLossDetectionAlarm (set_history h (sp_EncryptionLevel p0) pnSpace
        (history_SentPacketsAsRetransmission (ps_history pnSpace) p retransmissionOf)))
  end.

(** ** Retransmissions *)

(** A call that changes the handler and may return an error. *)
Definition result : Type := outcome (handler * option goerr).

Definition and_then (m : result) (k : handler -> result) : result :=
  '(h, err) ← m;
  match err with Some _ => mret (h, err) | None => k h end.

(** A change of the history of a space that may return an error. *)
Definition on_history (h : handler) (encLevel : EncryptionLevel)
    (f : sentPacketHistory -> outcome (sentPacketHistory * option goerr)) : result :=
  pnSpace ← space_of h encLevel;
  '(x, err) ← f (ps_history pnSpace);
  mret (set_history h encLevel pnSpace x, err).

Definition errAlreadyQueued (pn : PacketNumber) : goerr :=
  Errorf "sent packet handler BUG: packet %d already queued for retransmission" [pn].
Definition errNotInHistory (r pn : PacketNumber) : goerr :=
  Errorf "sent packet handler BUG: marking packet as not retransmittable %d (retransmission of %d) not found in history"
    [r; pn].

Definition queuePacketForRetransmission (h : handler) (p : SentPacket) (encLevel : EncryptionLevel) : result :=
  if negb (sp_canBeRetransmitted p) then mret (h, Some (errAlreadyQueued (sp_PacketNumber p))) else
  and_then (on_history h encLevel (fun x => MarkCannotBeRetransmitted x (sp_PacketNumber p))) (fun h =>
  mret (h <| hd_retransmissionQueue := hd_retransmissionQueue h ++ [p] |>, None)).

Fixpoint queue_all (h : handler) (encLevel : EncryptionLevel) (packets : list SentPacket) : result :=
  match packets with
  | [] => mret (h, None)
  | p :: packets =>
      and_then (queuePacketForRetransmission h p encLevel) (fun h => queue_all h encLevel packets)
  end.

Definition queueAllPacketsForRetransmission (h : handler) (encLevel : EncryptionLevel) : result :=
  pnSpace ← space_of h encLevel;
  queue_all h encLevel (List.filter sp_canBeRetransmitted (sh_packets (ps_history pnSpace))).

Definition queueCryptoPacketsForRetransmission (h : handler) : result :=
  and_then (queueAllPacketsForRetransmission h EncryptionInitial) (fun h =>
  queueAllPacketsForRetransmission h EncryptionHandshake).

Definition DequeuePacketForRetransmission (h : handler) : handler * option SentPacket :=
  match hd_retransmissionQueue h with
  | [] => (h, None)
  | packet :: queue => (h <| hd_retransmissionQueue := queue |>, Some packet)
  end.

Definition errNoProbe : goerr := ErrorString "cannot dequeue a probe packet. No outstanding packets".

Definition DequeueProbePacket (h : handler) : outcome (handler * option SentPacket * option goerr) :=
  '(h, err) ←
    match hd_retransmissionQueue h with
    | [] =>
        match FirstOutstanding (ps_history (hd_oneRTTPackets h)) with
        | None => mret (h, Some errNoProbe)
        | Some p => queuePacketForRetransmission h p Encryption1RTT
        end
    | _ :: _ => mret (h, None)
    end;
  match err with
  | Some _ => mret (h, None, err)
  | None => let '(h, p) := DequeuePacketForRetransmission h in mret (h, p, None)
  end.

(** [stopRetransmissionsFor]; a recursion deeper than [fuel] is a recursion
    without end.  The errors of the recursive calls are dropped. *)
Section StopAll.
Variable stop : sentPacketHistory -> SentPacket -> outcome (sentPacketHistory * option goerr).
Fixpoint stop_all (x : sentPacketHistory) (p : SentPacket) (l : list PacketNumber) :
    outcome (sentPacketHistory * option goerr) :=
  match l with
  | [] => mret (x, None)
  | r :: l =>
      match GetPacket x r with
      | None => mret (x, Some (errNotInHistory r (sp_PacketNumber p)))
      | Some packet => '(x, _) ← stop x packet; stop_all x p l
      end
  end.
End StopAll.

Fixpoint stopRetransmissionsFor (fuel : nat) (x : sentPacketHistory) (p : SentPacket) :
    outcome (sentPacketHistory * option goerr) :=
  match fuel with
  | O => Panic "stack overflow"
  | S fuel =>
      '(x, err) ← MarkCannotBeRetransmitted x (sp_PacketNumber p);
      match err with
      | Some _ => mret (x, err)
      | None => stop_all (stopRetransmissionsFor fuel) x p (sp_retransmittedAs p)
      end
  end.

(** ** Acknowledgements *)

(** The change of the parent of an acknowledged retransmission. *)
Definition remove_retransmission (pn : PacketNumber) (parent : SentPacket) : outcome SentPacket :=
  match sp_retransmittedAs parent with
  | [] => Panic "runtime error: makeslice: cap out of range"
  | [_] => mret (parent <| sp_retransmittedAs := [] |>)
  | l => mret (parent <| sp_retransmittedAs := List.filter (fun r => negb (r =? pn)) l |>)
  end.

Definition unlink_parent (x : sentPacketHistory) (p : SentPacket) : outcome sentPacketHistory :=
  if sp_isRetransmission p then
    match GetPacket x (sp_retransmissionOf p) with
    | None => mret x
    | Some parent =>
        parent ← remove_retransmission (sp_PacketNumber p) parent;
        mret (x <| sh_packets := update_packet (sp_retransmissionOf p) (fun _ => parent) (sh_packets x) |>)
    end
  else mret x.

(** [onPacketAcked]; after the lookup [p] is the packet as it is now. *)
Definition onPacketAcked (h : handler) (p : SentPacket) : result :=
  pnSpace ← space_of h (sp_EncryptionLevel p);
  match GetPacket (ps_history pnSpace) (sp_PacketNumber p) with
  | None => mret (h, None)
  | Some p =>
      x ← unlink_parent (ps_history pnSpace) p;
      let h := set_history h (sp_EncryptionLevel p) pnSpace x in
      let h := if sp_includedInBytesInFlight p
               then h <| hd_bytesInFlight := uint64 (hd_bytesInFlight h - sp_Length p) |> else h in
      and_then (on_history h (sp_EncryptionLevel p) (fun x =>
        stopRetransmissionsFor (S (length (sh_packets x))) x p)) (fun h =>
      on_history h (sp_EncryptionLevel p) (fun x => history_Remove x (sp_PacketNumber p)))
  end.

(** The ranges of the frame from the one the loop is at, upwards. *)
Fixpoint skip_ranges (pn : PacketNumber) (ranges : list AckRange) : list AckRange :=
  match ranges with
  | r :: ((_ :: _) as rest) => if Largest r <? pn then skip_ranges pn rest else ranges
  | _ => ranges
  end.

Definition errWrongPacket (pn : PacketNumber) (r : AckRange) : goerr :=
  Errorf "BUG: ackhandler would have acked wrong packet 0x%x, while evaluating range 0x%x -> 0x%x"
    [pn; Smallest r; Largest r].

Fixpoint newly_acked (hasMissing : bool) (lowestAcked largestAcked : PacketNumber) (ranges : list AckRange)
    (l : list SentPacket) : outcome (list SentPacket * option goerr) :=
  match l with
  | [] => mret ([], None)
  | p :: l =>
      (* Ignore packets below the lowest acked *)
      if sp_PacketNumber p <? lowestAcked then newly_acked hasMissing lowestAcked largestAcked ranges l
      (* Break after largest acked is reached *)
      else if largestAcked <? sp_PacketNumber p then mret ([], None)
      else if hasMissing then
        let ranges := skip_ranges (sp_PacketNumber p) ranges in
        ackRange ← index ranges 0;
        if Smallest ackRange <=? sp_PacketNumber p then (* packet i contained in ACK range *)
          if Largest ackRange <? sp_PacketNumber p
          then mret ([], Some (errWrongPacket (sp_PacketNumber p) ackRange))
          else
            '(acked, err) ← newly_acked hasMissing lowestAcked largestAcked ranges l;
            mret (p :: acked, err)
        else newly_acked hasMissing lowestAcked largestAcked ranges l
      else
        '(acked, err) ← newly_acked hasMissing lowestAcked largestAcked ranges l;
        mret (p :: acked, err)
  end.

Definition determineNewlyAckedPackets (h : handler) (ackFrame : AckFrame) (encLevel : EncryptionLevel) :
    outcome (list SentPacket * option goerr) :=
  pnSpace ← space_of h encLevel;
  lowestAcked ← LowestAcked ackFrame;
  largestAcked ← LargestAcked ackFrame;
  newly_acked (HasMissingRanges ackFrame) lowestAcked largestAcked (reverse (AckRanges ackFrame))
    (sh_packets (ps_history pnSpace)).

(** ** Loss detection *)

Definition is_1rtt (encLevel : EncryptionLevel) : bool := bool_decide (encLevel = Encryption1RTT).

Definition loss_delay (h : handler) : duration :=
  let maxRTT := float64 (MaxDuration (latestRTT (hd_rttStats h)) (smoothedRTT (hd_rttStats h))) in
  let lossDelay := f2int64 (fmul64 timeThreshold maxRTT) in
  (* Minimum time of granularity before packets are deemed lost. *)
  MaxDuration lossDelay TimerGranularity.

(** The loss time and the lost packets. *)
Fixpoint find_lost (now : time) (lossDelay : duration) (largestAcked : PacketNumber) (encLevel : EncryptionLevel)
    (lossTime : time) (l : list SentPacket) : time * list SentPacket :=
  match l with
  | [] => (lossTime, [])
  | packet :: l =>
      if largestAcked <? sp_PacketNumber packet then (lossTime, []) else
      let timeSinceSent := Sub now (sp_SendTime packet) in
      if lossDelay <? timeSinceSent then
        let '(t, lost) := find_lost now lossDelay largestAcked encLevel lossTime l in (t, packet :: lost)
      else
        find_lost now lossDelay largestAcked encLevel
          (if IsZero lossTime && is_1rtt encLevel then Add now (int64 (lossDelay - timeSinceSent)) else lossTime) l
  end.

Definition hasCongestionEvent : bool :=
  match cc_OnCongestionEvent with Some _ => true | None => false end.

Fixpoint remove_lost (h : handler) (encLevel : EncryptionLevel) (priorInFlight : ByteCount) (l : list SentPacket) :
    result :=
  match l with
  | [] => mret (h, None)
  | p :: l =>
      (* the bytes in flight need to be reduced no matter if this packet will be retransmitted *)
      h ← (if sp_includedInBytesInFlight p then
             let h := h <| hd_bytesInFlight := uint64 (hd_bytesInFlight h - sp_Length p) |> in
             if hasCongestionEvent then mret h
             else c ← cc_OnPacketLost (hd_congestion h) (sp_PacketNumber p) (sp_Length p) priorInFlight;
                  mret (h <| hd_congestion := c |>)
           else mret h);
      and_then (if sp_canBeRetransmitted p then queuePacketForRetransmission h p encLevel else mret (h, None)) (fun h =>
      '(h, _) ← on_history h encLevel (fun x => history_Remove x (sp_PacketNumber p));
      remove_lost h encLevel priorInFlight l)
  end.

Definition detectLostPackets (h : handler) (now : time) (encLevel : EncryptionLevel) (priorInFlight : ByteCount) :
    outcome (handler * list SentPacket * option goerr) :=
  let h := if is_1rtt encLevel then h <| hd_lossTime := zero_time |> else h in
  pnSpace ← space_of h encLevel;
  let '(lossTime, lostPackets) := find_lost now (loss_delay h) (ps_largestAcked pnSpace) encLevel (hd_lossTime h)
    (sh_packets (ps_history pnSpace)) in
  '(h, err) ← remove_lost (h <| hd_lossTime := lossTime |>) encLevel priorInFlight lostPackets;
  match err with Some _ => mret (h, [], err) | None => mret (h, lostPackets, None) end.

(** [OnCongestionEvent] of a controller that has it. *)
Definition congestion_event (h : handler) (priorInFlight : ByteCount) (t : time) (acked lost : list Packet) :
    outcome handler :=
  match cc_OnCongestionEvent with
  | None => mret h
  | Some event =>
      c ← event (hd_congestion h) (hd_bytesInFlight h) (hd_rttStats h) priorInFlight t acked lost;
      mret (h <| hd_congestion := c |>)
  end.

(** The loop of [ReceivedAck] over the newly acked packets; the list is
    [ackedPacketsForEvent]. *)
Fixpoint ack_packets (h : handler) (encLevel : EncryptionLevel) (rcvTime : time) (priorInFlight : ByteCount)
    (l : list SentPacket) : outcome (handler * list Packet * option goerr) :=
  match l with
  | [] => mret (h, [], None)
  | p :: l =>
      let h :=
        if negb (sp_largestAcked p =? InvalidPacketNumber) && is_1rtt encLevel
        then h <| hd_lowestNotConfirmedAcked :=
          MaxPacketNumber (hd_lowestNotConfirmedAcked h) (int64 (sp_largestAcked p + 1)) |>
        else h in
      '(h, err) ← onPacketAcked h p;
      match err with
      | Some _ => mret (h, [], err)
      | None =>
          '(h, e) ←
            (if sp_includedInBytesInFlight p then
               if hasCongestionEvent then mret (h, [ToPacket p])
               else c ← cc_OnPacketAcked (hd_congestion h) (sp_PacketNumber p) (sp_Length p) priorInFlight rcvTime;
                    mret (h <| hd_congestion := c |>, [])
             else mret (h, []));
          '(h, events, err) ← ack_packets h encLevel rcvTime priorInFlight l;
          mret (h, e ++ events, err)
      end
  end.

Definition errUnsentPacket : goerr := QuicError ProtocolViolation (ErrorString "Received ACK for an unsent packet").
Definition errSkippedPacket : goerr :=
  QuicError ProtocolViolation (ErrorString "Received an ACK for a skipped packet number").

(** The round-trip time measured with the largest acknowledged packet. *)
Definition update_rtt (h : handler) (pnSpace : packetNumberSpace) (ackFrame : AckFrame) (largestAcked : PacketNumber)
    (encLevel : EncryptionLevel) (rcvTime : time) : handler :=
  match GetPacket (ps_history pnSpace) largestAcked with
  | None => h
  | Some p =>
      (* don't use the ack delay for Initial and Handshake packets *)
      let ackDelay := if is_1rtt encLevel then MinDuration (DelayTime ackFrame) (hd_maxAckDelay h) else 0 in
      h <| hd_rttStats := UpdateRTT (hd_rttStats h) (Sub rcvTime (sp_SendTime p)) ackDelay |>
        <| hd_congestion := cc_MaybeExitSlowStart (hd_congestion h) |>
  end.

(** What [ReceivedAck] does with the newly acked packets.  The lost packets are
    assigned to a variable of an inner block: [OnCongestionEvent] gets the outer
    [lostPacketsForEvent], which is never set. *)
Definition process_ack (h : handler) (ackedPackets : list SentPacket) (encLevel : EncryptionLevel) (rcvTime : time) :
    result :=
  let priorInFlight := hd_bytesInFlight h in
  '(h, ackedPacketsForEvent, err) ← ack_packets h encLevel rcvTime priorInFlight ackedPackets;
  match err with
  | Some _ => mret (h, err)
  | None =>
      '(h, _, err) ← detectLostPackets h rcvTime encLevel priorInFlight;
      h ← congestion_event h priorInFlight rcvTime ackedPacketsForEvent [];
      match err with
      | Some _ => mret (h, err)
      | None =>
          let h := h <| hd_ptoCount := 0 |> <| hd_cryptoCount := 0 |> <| hd_numProbesToSend := 0 |> in
          mret (updateLossDetectionAlarm h, None)
      end
  end.

Definition handler_ReceivedAck (h : handler) (ackFrame : AckFrame) (encLevel : EncryptionLevel) (rcvTime : time) :
    result :=
  pnSpace ← space_of h encLevel;
  largestAcked ← LargestAcked ackFrame;
  if ps_largestSent pnSpace <? largestAcked then mret (h, Some errUnsentPacket) else
  let pnSpace := pnSpace <| ps_largestAcked := MaxPacketNumber (ps_largestAcked pnSpace) largestAcked |> in
  let h := set_space h encLevel pnSpace in
  valid ← Validate (ps_pns pnSpace) ackFrame;
  if negb valid then mret (h, Some errSkippedPacket) else
  (* maybe update the RTT *)
  let h := update_rtt h pnSpace ackFrame largestAcked encLevel rcvTime in
  '(ackedPackets, err) ← determineNewlyAckedPackets h ackFrame encLevel;
  match err, ackedPackets with
  | Some _, _ => mret (h, err)
  | None, [] => mret (h, None)
  | None, _ => process_ack h ackedPackets encLevel rcvTime
  end.

(** ** The alarm fires *)

(** [now] and [now'] are the times of the two calls of [time.Now]. *)
Definition onVerifiedAlarm (h : handler) (now now' : time) : result :=
  if hasOutstandingCryptoPackets h then
    queueCryptoPacketsForRetransmission (h <| hd_cryptoCount := uint32 (hd_cryptoCount h + 1) |>)
  else if negb (IsZero (hd_lossTime h)) then
    (* Early retransmit or time loss detection *)
    let priorInFlight := hd_bytesInFlight h in
    '(h, lostPackets, err) ← detectLostPackets h now Encryption1RTT priorInFlight;
    match lostPackets with
    | [] => mret (h, err)
    | _ => h ← congestion_event h priorInFlight now' [] (map ToPacket lostPackets); mret (h, err)
    end
  else (* PTO *)
    mret (h <| hd_ptoCount := uint32 (hd_ptoCount h + 1) |> <| hd_numProbesToSend := hd_numProbesToSend h + 2 |>, None).

Definition OnAlarm (h : handler) (now now' : time) : result :=
  and_then (if hasOutstandingPackets h then onVerifiedAlarm h now now' else mret (h, None)) (fun h =>
  mret (updateLossDetectionAlarm h, None)).

(** ** Construction, keys and packet numbers *)

(** [NewSentPacketHandler], for the controller [cc]; the [num]s are the random
    numbers of the three packet number generators. *)
Definition new_handler (initialPacketNumber : PacketNumber) (rttStats : RTTStats) (cc : C)
    (num1 num2 num3 : Z) : handler := {|
  hd_lastSentAckElicitingPacketTime := zero_time;
  hd_lastSentCryptoPacketTime := zero_time;
  hd_nextSendTime := zero_time;
  hd_initialPackets := Some (newPacketNumberSpace initialPacketNumber num1);
  hd_handshakePackets := Some (newPacketNumberSpace 0 num2);
  hd_oneRTTPackets := newPacketNumberSpace 0 num3;
  hd_lowestNotConfirmedAcked := 0;
  hd_retransmissionQueue := [];
  hd_bytesInFlight := 0;
  hd_congestion := cc;
  hd_rttStats := rttStats;
  hd_maxAckDelay := 0;
  hd_cryptoCount := 0;
  hd_ptoCount := 0;
  hd_numProbesToSend := 0;
  hd_lossTime := zero_time;
  hd_alarm := zero_time
|}.

(** The length in flight of a packet. *)
Definition in_flight (p : SentPacket) : ByteCount := if sp_includedInBytesInFlight p then sp_Length p else 0.

Definition DropPackets (h : handler) (encLevel : EncryptionLevel) : outcome handler :=
  pnSpace ← space_of h encLevel;
  (* remove outstanding packets from bytes_in_flight *)
  let h := h <| hd_bytesInFlight :=
    foldl (fun n p => uint64 (n - in_flight p)) (hd_bytesInFlight h) (sh_packets (ps_history pnSpace)) |> in
  (* remove packets from the retransmission queue *)
  let h := h <| hd_retransmissionQueue :=
    List.filter (fun p => negb (bool_decide (sp_EncryptionLevel p = encLevel))) (hd_retransmissionQueue h) |> in
  (* drop the packet history *)
  match encLevel with
  | EncryptionInitial => mret (h <| hd_initialPackets := None |>)
  | EncryptionHandshake => mret (h <| hd_handshakePackets := None |>)
  | _ => Panic "Cannot drop keys for encryption level"
  end.

Definition SetMaxAckDelay (h : handler) (mad : duration) : handler := h <| hd_maxAckDelay := mad |>.

Definition PeekPacketNumber (h : handler) (encLevel : EncryptionLevel) : outcome (PacketNumber * PacketNumberLen) :=
  pnSpace ← space_of h encLevel;
  let lowestUnacked :=
    match FirstOutstanding (ps_history pnSpace) with
    | Some p => sp_PacketNumber p
    | None => int64 (ps_largestAcked pnSpace + 1)
    end in
  let pn := pg_next (ps_pns pnSpace) in
  mret (pn, GetPacketNumberLengthForHeader pn lowestUnacked).

Definition PopPacketNumber (h : handler) (encLevel : EncryptionLevel) (num : Z) : outcome (handler * PacketNumber) :=
  pnSpace ← space_of h encLevel;
  let '(pns, pn) := generator_Pop (ps_pns pnSpace) num in
  mret (set_space h encLevel (pnSpace <| ps_pns := pns |>), pn).

(** [num] and [num'] are random numbers of the packet number generators. *)
Definition ResetForRetry (h : handler) (num num' : Z) : outcome handler :=
  let h := h <| hd_cryptoCount := 0 |> <| hd_bytesInFlight := 0 |> in
  match hd_initialPackets h with
  | None => Panic nil_dereference
  | Some initialPackets =>
      let packets := List.filter sp_canBeRetransmitted (sh_packets (ps_history initialPackets)) in
      let h := h <| hd_retransmissionQueue := hd_retransmissionQueue h ++ packets |> in
      let '(_, pn) := generator_Pop (ps_pns initialPackets) num in
      mret (updateLossDetectionAlarm (h <| hd_initialPackets := Some (newPacketNumberSpace pn num') |>))
  end.

(** ** What may be sent *)

Definition space_len (s : option packetNumberSpace) : Z :=
  match s with Some s => history_Len (ps_history s) | None => 0 end.

Definition numTrackedPackets (h : handler) : Z :=
  Z.of_nat (length (hd_retransmissionQueue h)) + history_Len (ps_history (hd_oneRTTPackets h)) +
  space_len (hd_initialPackets h) + space_len (hd_handshakePackets h).

Definition handler_SendMode (h : handler) : SendMode :=
  (* Don't send any packets if we're keeping track of the maximum number of packets. *)
  if MaxTrackedSentPackets <=? numTrackedPackets h then SendNone
  else if 0 <? hd_numProbesToSend h then SendPTO
  (* Only send ACKs if we're congestion limited. *)
  else if negb (cc_CanSend (hd_congestion h) (hd_bytesInFlight h)) then SendAck
  (* Send retransmissions first, if there are any. *)
  else if (0 <? length (hd_retransmissionQueue h))%nat then SendRetransmission
  else if MaxOutstandingSentPackets <=? numTrackedPackets h then SendAck
  else SendAny.

Definition ShouldSendNumPackets (h : handler) : Z :=
  (* RTO probes should not be paced, but must be sent immediately. *)
  if 0 <? hd_numProbesToSend h then hd_numProbesToSend h else
  let delay := cc_TimeUntilSend (hd_congestion h) (hd_bytesInFlight h) in
  if (delay =? 0) || (MinPacingDelay <? delay) then 1
  else f2int64 (fceil (fdiv64 (float64 MinPacingDelay) (float64 delay))).

(** ** What session.go does with the handler *)

(** The packer gives the packet [p] the next packet number; [num] is a random
    number. *)
Definition pack (h : handler) (encLevel : EncryptionLevel) (num : Z) (p : SentPacket) : outcome (handler * SentPacket) :=
  '(h, pn) ← PopPacketNumber h encLevel num;
  mret (h, p <| sp_PacketNumber := pn |> <| sp_EncryptionLevel := encLevel |>).

Fixpoint pack_all (h : handler) (encLevel : EncryptionLevel) (l : list (Z * SentPacket)) :
    outcome (handler * list SentPacket) :=
  match l with
  | [] => mret (h, [])
  | (num, p) :: l =>
      '(h, p) ← pack h encLevel num p;
      '(h, ps) ← pack_all h encLevel l;
      mret (h, p :: ps)
  end.

(** [sendPacket] and [maybeSendAckOnlyPacket], for the packet the packer made. *)
Definition sendPacket (h : handler) (encLevel : EncryptionLevel) (num : Z) (p : SentPacket) : outcome handler :=
  '(h, p) ← pack h encLevel num p;
  handler_SentPacket h p.

(** [maybeSendRetransmission], for the packets [PackRetransmission] made. *)
Definition maybeSendRetransmission (h : handler) (l : list (Z * SentPacket)) : outcome handler :=
  let '(h, retransmitPacket) := DequeuePacketForRetransmission h in
  match retransmitPacket with
  | None => mret h
  | Some retransmitPacket =>
      '(h, packets) ← pack_all h (sp_EncryptionLevel retransmitPacket) l;
      handler_SentPacketsAsRetransmission h packets (sp_PacketNumber retransmitPacket)
  end.

Definition sendProbePacket (h : handler) (l : list (Z * SentPacket)) : result :=
  '(h, p, err) ← DequeueProbePacket h;
  match err, p with
  | Some _, _ => mret (h, err)
  | None, None => Panic nil_dereference
  | None, Some p =>
      '(h, packets) ← pack_all h (sp_EncryptionLevel p) l;
      h ← handler_SentPacketsAsRetransmission h packets (sp_PacketNumber p);
      mret (h, None)
  end.

End Handler.

Definition NewSentPacketHandler (initialPacketNumber : PacketNumber) (rttStats : RTTStats) (num1 num2 num3 : Z) :
    sentPacketHandler bbrSender :=
  new_handler initialPacketNumber rttStats (NewBBRSender InitialCongestionWindow DefaultBBRMaxCongestionWindow)
    num1 num2 num3.
