(* ===== verification/PacketLinks.v ===== *)
(** * The packets in flight of one packet number space

    The links between packets and their retransmissions, and what marking,
    acknowledging and losing packets (SentPacketHandler.v) does to the history. *)

From Stdlib Require Import Sorted.
From S2P Require Import Prelude Protocol AckFrame Frames SentHistory SentPacketHandler.

(** ** The packets of a space *)

(** A retransmission [p] of [q]. *)
Definition retransmits (p q : SentPacket) : Prop :=
  sp_isRetransmission p = true /\ sp_retransmissionOf p = sp_PacketNumber q.

(** The packets of the level [lvl], numbered below [next] and sent until [last].
    The links between packets and their retransmissions agree; only the
    retransmission [x] may be missing in its parent. *)
Record packets_ok (x : option PacketNumber) (lvl : EncryptionLevel) (next : PacketNumber) (last : time)
    (l : list SentPacket) : Prop := {
  pk_sorted : StronglySorted Z.lt (numbers l);
  pk_level : forall p, p ∈ l -> sp_EncryptionLevel p = lvl;
  pk_flight : forall p, p ∈ l -> sp_includedInBytesInFlight p = true;
  pk_next : forall p, p ∈ l -> sp_PacketNumber p < next;
  pk_last : forall p, p ∈ l -> sp_SendTime p <= last;
  pk_queued : forall p, p ∈ l -> sp_canBeRetransmitted p = true -> sp_retransmittedAs p = [];
  pk_origin : forall p, p ∈ l -> sp_isRetransmission p = true -> sp_retransmissionOf p < sp_PacketNumber p;
  pk_times : forall p q, p ∈ l -> q ∈ l -> sp_PacketNumber p < sp_PacketNumber q -> sp_SendTime p <= sp_SendTime q;
  pk_child : forall q r, q ∈ l -> r ∈ sp_retransmittedAs q ->
    exists p, p ∈ l /\ sp_PacketNumber p = r /\ sp_PacketNumber q < r /\ retransmits p q;
  pk_parent : forall p q, p ∈ l -> q ∈ l -> retransmits p q ->
    x = Some (sp_PacketNumber p) \/ sp_PacketNumber p ∈ sp_retransmittedAs q
}.

Lemma find_packet_Some pn l p : find_packet pn l = Some p -> p ∈ l /\ sp_PacketNumber p = pn.
Proof. intros [Hp Hn]%List.find_some. apply list_elem_of_In in Hp. by apply has_number_true in Hn. Qed.

Lemma same_number l p q :
  StronglySorted Z.lt (numbers l) -> p ∈ l -> q ∈ l -> sp_PacketNumber p = sp_PacketNumber q -> p = q.
Proof.
  intros Hs Hp Hq E. pose proof (find_packet_elem l p Hs Hp) as Fp. rewrite E, (find_packet_elem l q Hs Hq) in Fp.
  by injection Fp.
Qed.

(** *** Packets that are not to be retransmitted any more *)

Definition marks (p p' : SentPacket) : Prop := p' = p \/ p' = no_retransmit p.
Definition marked : relation (list SentPacket) := Forall2 marks.

#[global] Instance marks_preorder : PreOrder marks.
Proof. split; [by left|]. intros p q r [->| ->] [->| ->]; (by left) || (by right). Qed.
#[global] Instance marked_preorder : PreOrder marked.
Proof. unfold marked. split; apply _. Qed.

(** Everything but [canBeRetransmitted]. *)
Lemma marks_same p p' :
  marks p p' -> sp_PacketNumber p' = sp_PacketNumber p /\ sp_EncryptionLevel p' = sp_EncryptionLevel p /\
    sp_includedInBytesInFlight p' = sp_includedInBytesInFlight p /\ sp_SendTime p' = sp_SendTime p /\
    sp_Length p' = sp_Length p /\ sp_retransmittedAs p' = sp_retransmittedAs p /\
    sp_isRetransmission p' = sp_isRetransmission p /\ sp_retransmissionOf p' = sp_retransmissionOf p /\
    (sp_canBeRetransmitted p' = true -> sp_canBeRetransmitted p = true).
Proof. by intros [->| ->]. Qed.

Lemma marked_numbers l l' : marked l l' -> numbers l' = numbers l.
Proof.
  induction 1 as [|p p' l l' Hp _ IH]; [done|]. unfold numbers in *. cbn. rewrite IH.
  by destruct (marks_same p p' Hp) as [-> _].
Qed.

Lemma marked_old l l' p' : marked l l' -> p' ∈ l' -> exists p, p ∈ l /\ marks p p'.
Proof.
  intros Hm [i Hi]%list_elem_of_lookup. destruct (Forall2_lookup_r _ l l' i p' Hm Hi) as (p & Hp & ?).
  exists p. split; [by eapply list_elem_of_lookup_2|done].
Qed.

Lemma marked_new l l' p : marked l l' -> p ∈ l -> exists p', p' ∈ l' /\ marks p p'.
Proof.
  intros Hm [i Hi]%list_elem_of_lookup. destruct (Forall2_lookup_l _ l l' i p Hm Hi) as (p' & Hp & ?).
  exists p'. split; [by eapply list_elem_of_lookup_2|done].
Qed.

Lemma mark_marked pn l : marked l (update_packet pn no_retransmit l).
Proof.
  unfold marked, update_packet. induction l as [|p l IH]; constructor; [|done]. destruct (has_number pn p); [by right|by left].
Qed.

Lemma packets_ok_later x lvl next next' last last' l :
  packets_ok x lvl next last l -> next <= next' -> last <= last' -> packets_ok x lvl next' last' l.
Proof.
  intros [Hs Hlv Hfl Hn Hla Hq Ho Ht Hc Hp] H1 H2. split; try done.
  - intros p Hi. specialize (Hn p Hi). lia.
  - intros p Hi. specialize (Hla p Hi). lia.
Qed.

Lemma packets_ok_marked x lvl next last l l' :
  packets_ok x lvl next last l -> marked l l' -> packets_ok x lvl next last l'.
Proof.
  intros Hok Hm. destruct Hok as [Hs Hlv Hfl Hn Hla Hq Ho Ht Hc Hp].
  assert (Old : forall p', p' ∈ l' -> exists p, p ∈ l /\ marks p p') by (intros; by eapply marked_old).
  split; [by rewrite (marked_numbers l l' Hm)|..].
  1-6: intros p' (p & Hin & (E1 & E2 & E3 & E4 & E5 & E6 & E7 & E8 & E9)%marks_same)%Old;
    rewrite ?E1, ?E2, ?E3, ?E4, ?E6, ?E7, ?E8; auto.
  - intros p' q' (p & Hin & (E1 & _ & _ & E4 & _)%marks_same)%Old (q & Hiq & (F1 & _ & _ & F4 & _)%marks_same)%Old.
    rewrite E1, F1, E4, F4. auto.
  - intros q' r (q & Hiq & (F1 & _ & _ & _ & _ & F6 & _)%marks_same)%Old. rewrite F6. intros Hr.
    destruct (Hc q r Hiq Hr) as (p & Hin & E & Hlt & R1 & R2). destruct (marked_new l l' p Hm Hin) as (p' & Hp' & Hmk).
    destruct (marks_same _ _ Hmk) as (E1 & _ & _ & _ & _ & _ & E7 & E8 & _).
    exists p'. rewrite E1, F1. unfold retransmits. rewrite E7, E8, F1. done.
  - intros p' q' (p & Hin & (E1 & _ & _ & _ & _ & _ & E7 & E8 & _)%marks_same)%Old
      (q & Hiq & (F1 & _ & _ & _ & _ & F6 & _)%marks_same)%Old. unfold retransmits. rewrite E1, F6, E7, E8, F1.
    apply Hp; done.
Qed.

(** *** [stopRetransmissionsFor] ends, and only marks packets *)

(** The packets that follow [n]. *)
Definition following (n : PacketNumber) (l : list SentPacket) : nat :=
  length (List.filter (fun q => n <? sp_PacketNumber q) l).

Lemma following_marked n l l' : marked l l' -> following n l' = following n l.
Proof.
  unfold following. induction 1 as [|p p' l l' Hp _ IH]; [done|]. cbn. destruct (marks_same p p' Hp) as [-> _].
  destruct (_ <? _); cbn; by rewrite IH.
Qed.

Lemma following_lt l p n : p ∈ l -> n < sp_PacketNumber p -> (following (sp_PacketNumber p) l < following n l)%nat.
Proof.
  unfold following. intros Hp Hn. induction l as [|q l IH]; [set_solver|]. cbn.
  apply elem_of_cons in Hp as [<-|Hp].
  - rewrite Z.ltb_irrefl, (proj2 (Z.ltb_lt _ _) Hn). cbn. apply Nat.lt_succ_r. clear -Hn.
    induction l as [|q l IH]; cbn; [done|]. destruct (Z.ltb_spec (sp_PacketNumber p) (sp_PacketNumber q)).
    + rewrite (proj2 (Z.ltb_lt n (sp_PacketNumber q))) by lia. cbn. lia.
    + destruct (_ <? _); cbn; lia.
  - specialize (IH Hp). destruct (Z.ltb_spec (sp_PacketNumber p) (sp_PacketNumber q)).
    + rewrite (proj2 (Z.ltb_lt n (sp_PacketNumber q))) by lia. cbn. lia.
    + destruct (_ <? _); cbn; lia.
Qed.

Lemma following_le n l : (following n l <= length l)%nat.
Proof. apply List.filter_length_le. Qed.

Section Stop.
Context (x : option PacketNumber) (lvl : EncryptionLevel) (next : PacketNumber) (last : time).

Definition stops (h : sentPacketHistory) (m : outcome (sentPacketHistory * option goerr)) : Prop :=
  exists h', m = Ret (h', None) /\ history_ok h' /\ marked (sh_packets h) (sh_packets h').

Lemma stop_all_ok (stop : sentPacketHistory -> SentPacket -> outcome (sentPacketHistory * option goerr)) p h rs :
  history_ok h -> packets_ok x lvl next last (sh_packets h) ->
  (forall r, r ∈ rs -> exists q, q ∈ sh_packets h /\ sp_PacketNumber q = r) ->
  (forall h' q, history_ok h' -> marked (sh_packets h) (sh_packets h') -> q ∈ sh_packets h' -> sp_PacketNumber q ∈ rs ->
    stops h' (stop h' q)) ->
  stops h (stop_all stop h p rs).
Proof.
  revert h. induction rs as [|r rs IH]; intros h Hh Hok Hrs Hstop; cbn [stop_all]; [by exists h|].
  destruct (Hrs r ltac:(set_solver)) as (q & Hq & Hr). unfold GetPacket.
  rewrite <- Hr, (find_packet_elem _ q (hk_sorted _ Hh) Hq).
  destruct (Hstop h q Hh ltac:(reflexivity) Hq) as (h1 & -> & Hh1 & Hm1); [rewrite Hr; set_solver|].
  cbn [mbind outcome_bind]. destruct (IH h1) as (h2 & -> & Hh2 & Hm2).
  - done.
  - by eapply packets_ok_marked.
  - intros r' Hr'. destruct (Hrs r' ltac:(set_solver)) as (q' & Hq' & E).
    destruct (marked_new _ _ q' Hm1 Hq') as (q1 & Hq1 & Hmk). exists q1. split; [done|].
    destruct (marks_same _ _ Hmk) as [-> _]. done.
  - intros h' q' Hh' Hm' Hq' Hr'. apply Hstop; [done|by etransitivity|done|set_solver].
  - exists h2. split_and!; [done|done|by etransitivity].
Qed.

Lemma stopRetransmissionsFor_ok fuel h p :
  history_ok h -> packets_ok x lvl next last (sh_packets h) -> p ∈ sh_packets h ->
  (following (sp_PacketNumber p) (sh_packets h) < fuel)%nat ->
  stops h (stopRetransmissionsFor fuel h p).
Proof.
  revert h p. induction fuel as [|fuel IH]; intros h p Hh Hok Hp Hf; [lia|]. cbn [stopRetransmissionsFor].
  destruct (MarkCannotBeRetransmitted_ok h (sp_PacketNumber p) p Hh (find_packet_elem _ p (hk_sorted _ Hh) Hp))
    as (h1 & -> & Hh1 & E1). cbn [mbind outcome_bind].
  assert (M1 : marked (sh_packets h) (sh_packets h1)) by (rewrite E1; apply mark_marked).
  destruct (stop_all_ok (stopRetransmissionsFor fuel) p h1 (sp_retransmittedAs p)) as (h2 & -> & Hh2 & M2).
  - done.
  - by eapply packets_ok_marked.
  - intros r Hr. destruct (pk_child _ _ _ _ _ Hok p r Hp Hr) as (q & Hq & Er & _).
    destruct (marked_new _ _ q M1 Hq) as (q1 & Hq1 & Hmk). exists q1. by destruct (marks_same _ _ Hmk) as [-> _].
  - intros h' q Hh' Hm' Hq Hr. assert (M : marked (sh_packets h) (sh_packets h')) by by etransitivity.
    apply IH; [done|by eapply packets_ok_marked|done|].
    destruct (pk_child _ _ _ _ _ Hok p _ Hp Hr) as (q0 & Hq0 & Er & Hlt & _).
    rewrite (following_marked _ _ _ M), <- Er. rewrite <- Er in Hlt. pose proof (following_lt _ q0 _ Hq0 Hlt). lia.
  - exists h2. split_and!; [done|done|by etransitivity].
Qed.

End Stop.

(** *** The history only shrinks *)

(** Every packet of [l'] is one of [l], with no more retransmissions. *)
Definition shrinks (l l' : list SentPacket) : Prop :=
  forall q', q' ∈ l' -> exists q, q ∈ l /\ sp_PacketNumber q' = sp_PacketNumber q /\
    (sp_canBeRetransmitted q' = true -> sp_canBeRetransmitted q = true) /\
    (forall r, r ∈ sp_retransmittedAs q' -> r ∈ sp_retransmittedAs q).

#[global] Instance shrinks_preorder : PreOrder shrinks.
Proof.
  split.
  - intros l q Hq. by exists q.
  - intros l1 l2 l3 H12 H23 q3 Hq3. destruct (H23 q3 Hq3) as (q2 & Hq2 & E2 & C2 & R2).
    destruct (H12 q2 Hq2) as (q1 & Hq1 & E1 & C1 & R1). exists q1. split_and!; [done|congruence|auto|auto].
Qed.

Lemma marked_shrinks l l' : marked l l' -> shrinks l l'.
Proof.
  intros Hm q' Hq'. destruct (marked_old l l' q' Hm Hq') as (q & Hq & (E1 & _ & _ & _ & _ & E6 & _ & _ & E9)%marks_same).
  exists q. split_and!; [done|done|done|by rewrite E6].
Qed.

(** The bytes of a list of packets that are in flight. *)
Definition flight (l : list SentPacket) : Z := sumZ in_flight l.
Arguments flight : simpl never.

Lemma flight_cons p l : flight (p :: l) = in_flight p + flight l.
Proof. done. Qed.
Lemma flight_app l1 l2 : flight (l1 ++ l2) = flight l1 + flight l2.
Proof. apply sumZ_app. Qed.

Lemma marked_flight l l' : marked l l' -> flight l' = flight l.
Proof.
  induction 1 as [|p p' l l' Hp _ IH]; [done|]. rewrite !flight_cons, IH. unfold in_flight.
  by destruct (marks_same p p' Hp) as (_ & _ & -> & _ & -> & _).
Qed.

(** *** Removing a packet *)

Definition removed (pn : PacketNumber) (l : list SentPacket) : list SentPacket :=
  List.filter (fun q => negb (has_number pn q)) l.

Lemma elem_of_removed pn l q : q ∈ removed pn l <-> q ∈ l /\ sp_PacketNumber q <> pn.
Proof.
  unfold removed, has_number. rewrite !list_elem_of_In, List.filter_In, negb_true_iff, Z.eqb_neq. done.
Qed.

Lemma removed_split pn l p :
  StronglySorted Z.lt (numbers l) -> p ∈ l -> sp_PacketNumber p = pn ->
  exists l1 l2, l = l1 ++ p :: l2 /\ removed pn l = l1 ++ l2.
Proof.
  intros Hs Hp <-. destruct (find_packet_split _ _ _ Hs (find_packet_elem l p Hs Hp)) as (l1 & l2 & -> & _ & H1 & H2).
  exists l1, l2. split; [done|]. by apply remove_packet_split.
Qed.

Lemma removed_flight pn l p :
  StronglySorted Z.lt (numbers l) -> p ∈ l -> sp_PacketNumber p = pn -> flight (removed pn l) = flight l - in_flight p.
Proof.
  intros Hs Hp Hn. destruct (removed_split pn l p Hs Hp Hn) as (l1 & l2 & -> & ->).
  rewrite !flight_app, flight_cons. lia.
Qed.

Lemma removed_none pn l : find_packet pn l = None -> removed pn l = l.
Proof.
  unfold find_packet, removed. induction l as [|q l IH]; [done|]. cbn. destruct (has_number pn q); [done|].
  intros E. cbn. by rewrite IH.
Qed.

Lemma removed_shrinks pn l : shrinks l (removed pn l).
Proof. intros q [Hq _]%elem_of_removed. by exists q. Qed.

Lemma packets_ok_removed x lvl next last l pn :
  packets_ok x lvl next last l -> x = None \/ x = Some pn -> (forall q, q ∈ l -> pn ∉ sp_retransmittedAs q) ->
  packets_ok None lvl next last (removed pn l).
Proof.
  intros [Hs Hlv Hfl Hn Hla Hq Ho Ht Hc Hp] Hx Hpn. split.
  - destruct (find_packet pn l) as [p|] eqn:E.
    + apply find_packet_Some in E as [Hin En]. destruct (removed_split pn l p Hs Hin En) as (l1 & l2 & -> & ->).
      unfold numbers in *. rewrite map_app in *. apply sorted_app in Hs as (H1 & H2 & H3). cbn in *.
      inversion_clear H2. apply sorted_app. split_and!; [done|done|]. intros a b Ha Hb. apply H3; [done|by right].
    + by rewrite removed_none.
  - intros p [Hin _]%elem_of_removed; auto.
  - intros p [Hin _]%elem_of_removed; auto.
  - intros p [Hin _]%elem_of_removed; auto.
  - intros p [Hin _]%elem_of_removed; auto.
  - intros p [Hin _]%elem_of_removed; auto.
  - intros p [Hin _]%elem_of_removed; auto.
  - intros p q [Hin _]%elem_of_removed [Hiq _]%elem_of_removed. auto.
  - intros q r [Hiq _]%elem_of_removed Hr. destruct (Hc q r Hiq Hr) as (p & Hin & <- & Hlt & Hre).
    exists p. split_and!; try done. apply elem_of_removed. split; [done|]. intros E. rewrite E in Hr. by apply (Hpn q).
  - intros p q [Hin Ne]%elem_of_removed [Hiq _]%elem_of_removed Hre. right.
    destruct (Hp p q Hin Hiq Hre) as [E|]; [|done]. destruct Hx as [-> | ->]; congruence.
Qed.

(** *** Unlinking an acknowledged retransmission *)

Lemma remove_retransmission_ok pn parent :
  pn ∈ sp_retransmittedAs parent ->
  exists l, remove_retransmission pn parent = Ret (parent <| sp_retransmittedAs := l |>) /\
    forall r, r ∈ l <-> r ∈ sp_retransmittedAs parent /\ r <> pn.
Proof.
  intros Hpn. unfold remove_retransmission. destruct (sp_retransmittedAs parent) as [|a [|b l]]; [set_solver|..].
  - exists []. split; [done|]. set_solver.
  - eexists. split; [reflexivity|]. intros r. rewrite !list_elem_of_In, List.filter_In, negb_true_iff, Z.eqb_neq. done.
Qed.

(** [l'] is [l] with other lists of retransmissions. *)
Definition relinks (p p' : SentPacket) : Prop := p' = p <| sp_retransmittedAs := sp_retransmittedAs p' |>.

Lemma relinks_same p p' :
  relinks p p' -> sp_PacketNumber p' = sp_PacketNumber p /\ sp_EncryptionLevel p' = sp_EncryptionLevel p /\
    sp_includedInBytesInFlight p' = sp_includedInBytesInFlight p /\ sp_SendTime p' = sp_SendTime p /\
    sp_Length p' = sp_Length p /\ sp_canBeRetransmitted p' = sp_canBeRetransmitted p /\
    sp_isRetransmission p' = sp_isRetransmission p /\ sp_retransmissionOf p' = sp_retransmissionOf p.
Proof. unfold relinks. intros ->. done. Qed.

Lemma history_ok_relinks h l :
  history_ok h -> Forall2 relinks (sh_packets h) l -> history_ok (h <| sh_packets := l |>).
Proof.
  intros [Hs Hc Hf] Hl. assert (E : map sp_PacketNumber l = map sp_PacketNumber (sh_packets h) /\
    length (List.filter sp_canBeRetransmitted l) = length (List.filter sp_canBeRetransmitted (sh_packets h)) /\
    sp_PacketNumber <$> List.find sp_canBeRetransmitted l = sp_PacketNumber <$> List.find sp_canBeRetransmitted (sh_packets h)).
  { clear -Hl. induction Hl as [|p p' l0 l Hp _ (IH1 & IH2 & IH3)]; [done|]. cbn.
    destruct (relinks_same p p' Hp) as (-> & _ & _ & _ & _ & -> & _). rewrite IH1.
    destruct (sp_canBeRetransmitted p); cbn; rewrite ?IH2; split_and!; try done.
    by destruct (relinks_same p p' Hp) as (-> & _). }
  destruct E as (E1 & E2 & E3). split; cbn; [by rewrite E1|by rewrite E2|by rewrite E3].
Qed.

Lemma relinks_flight l l' : Forall2 relinks l l' -> flight l' = flight l.
Proof.
  induction 1 as [|p p' l l' Hp _ IH]; [done|]. rewrite !flight_cons, IH. unfold in_flight.
  by destruct (relinks_same p p' Hp) as (_ & _ & -> & _ & -> & _).
Qed.

Lemma update_relinks pn f l : (forall p, p ∈ l -> relinks p (f p)) -> Forall2 relinks l (update_packet pn f l).
Proof.
  intros Hf. unfold update_packet. induction l as [|p l IH]; constructor; [|apply IH; set_solver].
  destruct (has_number pn p); [apply Hf; set_solver|]. by destruct p.
Qed.

(** [q'] is [q] without the retransmission [pn]. *)
Definition unlinks (pn : PacketNumber) (q q' : SentPacket) : Prop :=
  relinks q q' /\ (forall r, r ∈ sp_retransmittedAs q' <-> r ∈ sp_retransmittedAs q /\ r <> pn) /\
  (pn ∉ sp_retransmittedAs q -> q' = q).

Lemma unlinks_none pn q : pn ∉ sp_retransmittedAs q -> unlinks pn q q.
Proof. intros Hn. split; [by destruct q|]. split; [|done]. intros r. split; [|tauto]. intros Hr. split; [done|]. by intros ->. Qed.

Lemma unlinks_all pn l : (forall q, q ∈ l -> pn ∉ sp_retransmittedAs q) -> Forall2 (unlinks pn) l l.
Proof. induction l as [|q l IH]; intros Hl; constructor; [apply unlinks_none; set_solver|apply IH; set_solver]. Qed.

Section Unlink.
Context (lvl : EncryptionLevel) (next : PacketNumber) (last : time) (pn : PacketNumber) (l l' : list SentPacket).
Hypothesis Hok : packets_ok None lvl next last l.
Hypothesis Hu : Forall2 (unlinks pn) l l'.

Lemma unlinks_old q' : q' ∈ l' -> exists q, q ∈ l /\ unlinks pn q q'.
Proof.
  intros [i Hi]%list_elem_of_lookup. destruct (Forall2_lookup_r _ l l' i q' Hu Hi) as (q & Hq & ?).
  exists q. split; [by eapply list_elem_of_lookup_2|done].
Qed.

Lemma unlinks_new q : q ∈ l -> exists q', q' ∈ l' /\ unlinks pn q q'.
Proof.
  intros [i Hi]%list_elem_of_lookup. destruct (Forall2_lookup_l _ l l' i q Hu Hi) as (q' & Hq & ?).
  exists q'. split; [by eapply list_elem_of_lookup_2|done].
Qed.

Lemma unlinks_relinks : Forall2 relinks l l'.
Proof. eapply Forall2_impl; [exact Hu|]. by intros q q' [? _]. Qed.

Lemma unlinks_shrinks : shrinks l l'.
Proof.
  intros q' (q & Hq & Hr & Hs & _)%unlinks_old. destruct (relinks_same q q' Hr) as (E1 & _ & _ & _ & _ & E2 & _).
  exists q. split_and!; [done|done|by rewrite E2|]. intros r Hr'. by apply Hs.
Qed.

Lemma unlinks_numbers : numbers l' = numbers l.
Proof.
  pose proof unlinks_relinks as H. clear -H. induction H as [|q q' l l' Hq _ IH]; [done|]. unfold numbers in *. cbn.
  rewrite IH. by destruct (relinks_same q q' Hq) as [-> _].
Qed.

Lemma packets_ok_unlinks : packets_ok (Some pn) lvl next last l'.
Proof.
  destruct Hok as [Hs Hlv Hfl Hn Hla Hq Ho Ht Hc Hp].
  split; [by rewrite unlinks_numbers|..].
  1-4: intros p' (p & Hin & (E1 & E2 & E3 & E4 & _)%relinks_same & _)%unlinks_old; rewrite ?E1, ?E2, ?E3, ?E4; auto.
  - intros p' (p & Hin & (E1 & _ & _ & _ & _ & E6 & _)%relinks_same & Hr & _)%unlinks_old. rewrite E6. intros Hcan.
    specialize (Hq p Hin Hcan). destruct (sp_retransmittedAs p') as [|r rs]; [done|].
    destruct (proj1 (Hr r) ltac:(set_solver)) as [Hr' _]. rewrite Hq in Hr'. set_solver.
  - intros p' (p & Hin & (E1 & _ & _ & _ & _ & _ & E7 & E8)%relinks_same & _)%unlinks_old. rewrite E1, E7, E8. auto.
  - intros p' q' (p & Hin & (E1 & _ & _ & E4 & _)%relinks_same & _)%unlinks_old
      (q & Hiq & (F1 & _ & _ & F4 & _)%relinks_same & _)%unlinks_old. rewrite E1, F1, E4, F4. auto.
  - intros q' r (q & Hiq & (F1 & _)%relinks_same & Hr & _)%unlinks_old [Hr' _]%Hr.
    destruct (Hc q r Hiq Hr') as (p & Hin & E & Hlt & R1 & R2). destruct (unlinks_new p Hin) as (p' & Hp' & Hre & _).
    destruct (relinks_same _ _ Hre) as (E1 & _ & _ & _ & _ & _ & E7 & E8).
    exists p'. rewrite E1, F1. unfold retransmits. rewrite E7, E8, F1. done.
  - intros p' q' (p & Hin & (E1 & _ & _ & _ & _ & _ & E7 & E8)%relinks_same & _)%unlinks_old
      (q & Hiq & (F1 & _)%relinks_same & Hr & _)%unlinks_old. unfold retransmits. rewrite E1, E7, E8, F1. intros Hre.
    destruct (Hp p q Hin Hiq Hre) as [|Hx]; [done|]. destruct (Z.eq_dec (sp_PacketNumber p) pn) as [->|Ne]; [by left|].
    right. by apply Hr.
Qed.

End Unlink.

Section AckedPacket.
Context (lvl : EncryptionLevel) (next : PacketNumber) (last : time).

(** The only packet that names [p] as its retransmission is its parent. *)
Lemma unlink_parent_ok h p :
  history_ok h -> packets_ok None lvl next last (sh_packets h) -> p ∈ sh_packets h ->
  exists l', unlink_parent h p = Ret (h <| sh_packets := l' |>) /\ Forall2 (unlinks (sp_PacketNumber p)) (sh_packets h) l'.
Proof.
  intros Hh Hok Hp. pose proof (pk_sorted _ _ _ _ _ Hok) as Hs.
  assert (Only : forall q, q ∈ sh_packets h -> sp_PacketNumber p ∈ sp_retransmittedAs q -> retransmits p q).
  { intros q Hq Hr. destruct (pk_child _ _ _ _ _ Hok q _ Hq Hr) as (p' & Hp' & En & _ & Hre).
    by rewrite <- (same_number _ p' p Hs Hp' Hp En). }
  assert (Eta : h = h <| sh_packets := sh_packets h |>) by by destruct h.
  unfold unlink_parent. destruct (sp_isRetransmission p) eqn:Hre.
  2: { exists (sh_packets h). split; [by rewrite <- Eta|]. apply unlinks_all. intros q Hq Hr.
       destruct (Only q Hq Hr). congruence. }
  unfold GetPacket. destruct (find_packet (sp_retransmissionOf p) (sh_packets h)) as [q|] eqn:Ef.
  2: { exists (sh_packets h). split; [by rewrite <- Eta|]. apply unlinks_all. intros q Hq Hr.
       destruct (Only q Hq Hr) as [_ E]. rewrite E, (find_packet_elem _ q Hs Hq) in Ef. done. }
  apply find_packet_Some in Ef as [Hq En].
  destruct (pk_parent _ _ _ _ _ Hok p q Hp Hq) as [|Hin]; [by split|done|].
  destruct (remove_retransmission_ok _ q Hin) as (rs & -> & Hrs). cbn [mbind outcome_bind].
  eexists. split; [reflexivity|]. rewrite <- En.
  destruct (find_packet_split _ _ _ Hs (find_packet_elem _ q Hs Hq)) as (l1 & l2 & El & _ & H1 & H2).
  rewrite El in *. rewrite update_packet_split by done.
  assert (Out : forall q', q' ∈ l1 ++ q :: l2 -> q' <> q -> sp_PacketNumber p ∉ sp_retransmittedAs q').
  { intros q' Hq' Ne Hr. destruct (Only q' Hq' Hr) as [_ E']. apply Ne, (same_number _ _ _ Hs Hq' Hq). congruence. }
  apply Forall2_app; [|constructor].
  - apply unlinks_all. intros q' Hq'. apply Out; [set_solver|]. intros ->. specialize (H1 q Hq'). lia.
  - split; [done|]. split; [exact Hrs|]. done.
  - apply unlinks_all. intros q' Hq'. apply Out; [set_solver|]. intros ->. specialize (H2 q Hq'). lia.
Qed.

(** The packet [p] leaves the history, and its retransmissions are stopped. *)
Lemma acked_history h p :
  history_ok h -> packets_ok None lvl next last (sh_packets h) -> p ∈ sh_packets h ->
  exists h1 h2 h3, unlink_parent h p = Ret h1 /\
    stopRetransmissionsFor (S (length (sh_packets h1))) h1 p = Ret (h2, None) /\
    history_Remove h2 (sp_PacketNumber p) = Ret (h3, None) /\
    history_ok h3 /\ packets_ok None lvl next last (sh_packets h3) /\ shrinks (sh_packets h) (sh_packets h3) /\
    flight (sh_packets h3) = flight (sh_packets h) - in_flight p.
Proof.
  intros Hh Hok Hp. destruct (unlink_parent_ok h p Hh Hok Hp) as (l1 & E1 & Hu).
  pose proof (unlinks_relinks _ _ _ Hu) as Hre.
  pose proof (packets_ok_unlinks _ _ _ _ _ _ Hok Hu) as Hok1.
  pose proof (history_ok_relinks h l1 Hh Hre) as Hh1. set (h1 := h <| sh_packets := l1 |>) in *.
  change l1 with (sh_packets h1) in Hok1, Hu, Hre. clearbody h1. clear l1.
  assert (Hp1 : p ∈ sh_packets h1).
  { destruct (unlinks_new _ _ _ Hu p Hp) as (p' & Hp' & _ & _ & Hsame). rewrite <- Hsame; [done|].
    intros Hr. destruct (pk_child _ _ _ _ _ Hok p _ Hp Hr) as (? & _ & _ & Hlt & _). lia. }
  destruct (stopRetransmissionsFor_ok _ _ _ _ (S (length (sh_packets h1))) h1 p Hh1 Hok1 Hp1) as (h2 & E2 & Hh2 & Hm).
  { pose proof (following_le (sp_PacketNumber p) (sh_packets h1)). lia. }
  pose proof (packets_ok_marked _ _ _ _ _ _ Hok1 Hm) as Hok2.
  destruct (marked_new _ _ p Hm Hp1) as (p2 & Hp2 & Hmk). destruct (marks_same _ _ Hmk) as (En & _ & Ei & _ & Elen & _).
  destruct (history_Remove_ok h2 (sp_PacketNumber p) p2 Hh2) as (h3 & E3 & Hh3 & El3).
  { rewrite <- En. apply find_packet_elem; [apply Hok2|done]. }
  exists h1, h2, h3. fold (removed (sp_PacketNumber p) (sh_packets h2)) in El3. rewrite El3.
  split_and!; try done.
  - apply (packets_ok_removed _ _ _ _ _ _ Hok2); [by right|]. intros q2 Hq2 Hr.
    destruct (marked_old _ _ q2 Hm Hq2) as (q1 & Hq1 & (_ & _ & _ & _ & _ & Er & _)%marks_same). rewrite Er in Hr.
    destruct (unlinks_old _ _ _ Hu q1 Hq1) as (q & Hq & _ & Hrs & _). by apply Hrs in Hr as [_ ?].
  - etransitivity; [by eapply unlinks_shrinks|]. etransitivity; [by apply marked_shrinks|apply removed_shrinks].
  - rewrite (removed_flight _ _ p2 (pk_sorted _ _ _ _ _ Hok2) Hp2 En), (marked_flight _ _ Hm), (relinks_flight _ _ Hre).
    unfold in_flight. by rewrite Ei, Elen.
Qed.

End AckedPacket.

(** *** Losses: the oldest packets *)

Lemma Sub_mono t u v : u <= v -> Sub t v <= Sub t u.
Proof. unfold Sub, MinInt64, MaxInt64. intros. case_ifs; zbool; lia. Qed.

Section LostPackets.
Context (lvl : EncryptionLevel) (next : PacketNumber) (last : time).

Lemma find_lost_none now d n lossTime l :
  (forall p, p ∈ l -> Sub now (sp_SendTime p) <= d) -> (find_lost now d n lvl lossTime l).2 = [].
Proof.
  revert lossTime. induction l as [|p l IH]; intros lossTime Hl; [done|]. cbn [find_lost].
  destruct (_ <? _); [done|]. rewrite (proj2 (Z.ltb_ge _ _)) by (apply Hl; set_solver). apply IH. set_solver.
Qed.

(** The packets that are lost are the first ones of the history. *)
Lemma find_lost_prefix now d n lossTime l :
  packets_ok None lvl next last l -> exists rest, l = (find_lost now d n lvl lossTime l).2 ++ rest.
Proof.
  intros [Hs _ _ _ _ _ _ Ht _ _]. revert lossTime. induction l as [|p l IH]; intros lossTime; [by exists []|]. cbn [find_lost].
  destruct (_ <? _); [by eexists|]. inversion_clear Hs as [|? ? Hs' Hf]. rewrite Forall_forall in Hf.
  destruct (Z.ltb_spec d (Sub now (sp_SendTime p))) as [|Hd].
  - destruct (IH Hs') with (lossTime := lossTime) as [rest E]; [set_solver|]. exists rest.
    destruct (find_lost _ _ _ _ _ l) as [t lost]. cbn in *. by rewrite <- E.
  - rewrite find_lost_none; [by eexists|]. intros q Hq. etransitivity; [|exact Hd]. apply Sub_mono.
    apply Ht; [set_solver..|]. apply Hf. unfold numbers. by apply list_elem_of_fmap_2.
Qed.

Lemma first_removed p l :
  packets_ok None lvl next last (p :: l) ->
  removed (sp_PacketNumber p) (p :: l) = l /\ packets_ok None lvl next last l.
Proof.
  intros Hok. pose proof (pk_sorted _ _ _ _ _ Hok) as Hs. cbn in Hs. inversion_clear Hs as [|? ? Hs' Hf].
  rewrite Forall_forall in Hf.
  assert (Lt : forall q, q ∈ l -> sp_PacketNumber p < sp_PacketNumber q).
  { intros q Hq. apply Hf. by apply list_elem_of_fmap_2. }
  assert (E : removed (sp_PacketNumber p) (p :: l) = l).
  { unfold removed. cbn. rewrite (proj2 (has_number_true _ _) eq_refl). cbn. fold (removed (sp_PacketNumber p) l).
    apply removed_none. destruct (find_packet _ l) as [q|] eqn:Eq; [|done]. apply find_packet_Some in Eq as [Hq En].
    specialize (Lt q Hq). lia. }
  split; [done|]. rewrite <- E. eapply packets_ok_removed; [exact Hok|by left|].
  intros q Hq Hr. destruct (pk_child _ _ _ _ _ Hok q _ Hq Hr) as (_ & _ & _ & Hlt & _).
  apply elem_of_cons in Hq as [->|Hq]; [lia|]. specialize (Lt q Hq). lia.
Qed.

Lemma first_updated f p l :
  packets_ok None lvl next last (p :: l) -> update_packet (sp_PacketNumber p) f (p :: l) = f p :: l.
Proof.
  intros Hok. pose proof (pk_sorted _ _ _ _ _ Hok) as Hs. cbn in Hs. inversion_clear Hs as [|? ? Hs' Hf].
  rewrite Forall_forall in Hf. apply (update_packet_split _ [] l p eq_refl); [set_solver|].
  intros q Hq. apply Hf. by apply list_elem_of_fmap_2.
Qed.

Lemma first_shrinks p l : shrinks (p :: l) l.
Proof. intros q Hq. exists q. split; [by right|done]. Qed.

End LostPackets.

(** ** Newly acknowledged packets *)

(** Whether one of the ranges contains a packet number. *)
Definition acks (l : list AckRange) (pn : PacketNumber) : bool :=
  existsb (fun r => (Smallest r <=? pn) && (pn <=? Largest r)) l.

Lemma acks_acked_in l pn : acks l pn = true <-> acked_in l pn.
Proof.
  unfold acks, acked_in. rewrite existsb_exists. split; intros (r & Hr & Hb); exists r.
  - apply andb_true_iff in Hb as [H1%Z.leb_le H2%Z.leb_le]. split; [by apply list_elem_of_In|lia].
  - split; [by apply list_elem_of_In|]. apply andb_true_iff. split; apply Z.leb_le; lia.
Qed.

Lemma acks_false l pn : (forall r, r ∈ l -> pn < Smallest r \/ Largest r < pn) -> acks l pn = false.
Proof.
  intros Hl. apply not_true_iff_false. rewrite acks_acked_in. intros (r & Hr & ?). specialize (Hl r Hr). lia.
Qed.

(** Ranges from the lowest to the highest. *)
Definition ascending (l : list AckRange) : Prop := StronglySorted (fun r r' => Largest r < Smallest r') l.

Lemma skip_ranges_spec pn l :
  l <> [] -> exists l1 r l2, l = l1 ++ r :: l2 /\ skip_ranges pn l = r :: l2 /\
    (forall r', r' ∈ l1 -> Largest r' < pn) /\ (pn <= Largest r \/ l2 = []).
Proof.
  induction l as [|r [|r' l] IH]; intros Hl; [done|..].
  - exists [], r, []. split_and!; [done|done|set_solver|by right].
  - cbn [skip_ranges]. destruct (Z.ltb_spec (Largest r) pn).
    + destruct IH as (l1 & r0 & l2 & E & E' & H1 & H2); [done|]. exists (r :: l1), r0, l2. split_and!; [by rewrite E|done| |done].
      intros r1 [->|Hr]%elem_of_cons; auto.
    + exists [], r, (r' :: l). split_and!; [done|done|set_solver|by left].
Qed.

Lemma acks_app l1 l2 pn : acks (l1 ++ l2) pn = acks l1 pn || acks l2 pn.
Proof. apply existsb_app. Qed.

Lemma filter_acks_none lo hi rs l :
  StronglySorted Z.lt (numbers l) -> (forall r, r ∈ rs -> lo <= Smallest r /\ Largest r <= hi) ->
  (forall p, p ∈ l -> hi < sp_PacketNumber p) -> List.filter (fun p => acks rs (sp_PacketNumber p)) l = [].
Proof.
  intros _ Hr Hl. induction l as [|p l IH]; [done|]. cbn. rewrite acks_false; [apply IH; set_solver|].
  intros r Hin. right. specialize (Hl p ltac:(set_solver)). specialize (Hr r Hin). lia.
Qed.

Lemma newly_acked_missing lo hi l rs :
  StronglySorted Z.lt (numbers l) -> ascending rs -> rs <> [] ->
  (forall r, r ∈ rs -> lo <= Smallest r /\ Largest r <= hi) -> (forall r, last rs = Some r -> Largest r = hi) ->
  newly_acked true lo hi rs l = Ret (List.filter (fun p => acks rs (sp_PacketNumber p)) l, None).
Proof.
  revert rs. induction l as [|p l IH]; intros rs Hs Ha Hne Hb Hlast; [done|]. cbn [newly_acked List.filter].
  inversion_clear Hs as [|? ? Hs' Hf]. rewrite Forall_forall in Hf.
  assert (Lt : forall q, q ∈ l -> sp_PacketNumber p < sp_PacketNumber q) by (intros; by apply Hf, list_elem_of_fmap_2).
  destruct (Z.ltb_spec (sp_PacketNumber p) lo) as [Hlo|Hlo].
  { rewrite acks_false by (intros r Hr; specialize (Hb r Hr); lia). by apply IH. }
  destruct (Z.ltb_spec hi (sp_PacketNumber p)) as [Hhi|Hhi].
  { rewrite acks_false by (intros r Hr; specialize (Hb r Hr); lia). rewrite (filter_acks_none lo hi); try done.
    intros q Hq. specialize (Lt q Hq). lia. }
  destruct (skip_ranges_spec (sp_PacketNumber p) rs Hne) as (l1 & r & l2 & -> & -> & Hl1 & Hr). cbn [index lookup list_lookup].
  assert (Hlast' : forall r', last (r :: l2) = Some r' -> Largest r' = hi).
  { intros r' Hr'. apply Hlast. by rewrite last_app, Hr'. }
  assert (Ha' : ascending (r :: l2) /\ forall a b, a ∈ l1 -> b ∈ r :: l2 -> Largest a < Smallest b).
  { clear -Ha. unfold ascending in *. induction l1 as [|a l1 IH1]; [split; [done|set_solver]|]. cbn in Ha.
    inversion_clear Ha as [|? ? H1 H2]. destruct (IH1 H1) as [? ?]. split; [done|]. rewrite Forall_app in H2.
    rewrite !Forall_forall in H2. intros x y [->|Hx]%elem_of_cons Hy; [by apply H2|auto]. }
  destruct Ha' as [Ha2 _].
  assert (Eq : forall q, sp_PacketNumber p <= sp_PacketNumber q -> acks (l1 ++ r :: l2) (sp_PacketNumber q) = acks (r :: l2) (sp_PacketNumber q)).
  { intros q Hq. rewrite acks_app, acks_false; [done|]. intros r' Hr'. specialize (Hl1 r' Hr'). lia. }
  assert (Ef : List.filter (fun p => acks (l1 ++ r :: l2) (sp_PacketNumber p)) l = List.filter (fun p => acks (r :: l2) (sp_PacketNumber p)) l).
  { apply List.filter_ext_in. intros q Hq%list_elem_of_In. specialize (Lt q Hq). apply Eq. lia. }
  rewrite Ef, (Eq p) by lia. specialize (IH (r :: l2) Hs' Ha2 ltac:(done) ltac:(set_solver) Hlast'). rewrite !IH.
  cbn [mbind outcome_bind mret outcome_ret]. destruct (Z.leb_spec (Smallest r) (sp_PacketNumber p)) as [Hsm|Hsm].
  - assert (Hla : sp_PacketNumber p <= Largest r).
    { destruct Hr as [|E2]; [done|]. rewrite E2 in Hlast'. rewrite (Hlast' r eq_refl). lia. }
    rewrite (proj2 (Z.ltb_ge _ _)) by lia. rewrite (proj2 (acks_acked_in _ _)); [done|]. exists r. split; [set_solver|lia].
  - rewrite acks_false; [done|]. inversion_clear Ha2 as [|? ? H1 H2]. rewrite Forall_forall in H2.
    intros r' [->|Hr']%elem_of_cons; [by left|]. left. specialize (H2 r' Hr').
    destruct Hr as [|E2]; [lia|]. rewrite E2 in Hr'. set_solver.
Qed.

Lemma numbers_ascending_snoc l r : ascending l -> (forall r', r' ∈ l -> Largest r' < Smallest r) -> ascending (l ++ [r]).
Proof.
  unfold ascending. induction l as [|a l IH]; intros Hs Hr; cbn; [repeat constructor|]. inversion_clear Hs as [|? ? H1 H2].
  constructor; [apply IH; set_solver|]. apply Forall_app. split; [done|]. constructor; [|done]. apply Hr. set_solver.
Qed.

Lemma descending_ascending hi l : descending hi l -> ascending (reverse l).
Proof.
  revert hi. induction l as [|r l IH]; intros hi Hd; [constructor|]. destruct Hd as (H1 & H2 & Hd).
  rewrite reverse_cons. apply numbers_ascending_snoc; [by eapply IH|]. intros r' Hr'. rewrite elem_of_reverse in Hr'.
  pose proof (descending_below _ _ _ Hd Hr'). lia.
Qed.

Lemma descending_lowest hi l r r' :
  descending hi l -> last l = Some r -> r' ∈ l -> Smallest r <= Smallest r'.
Proof.
  revert hi. induction l as [|r0 l IH]; intros hi Hd Hl Hr'; [done|]. destruct Hd as (H1 & H2 & Hd).
  destruct l as [|r1 l].
  - injection Hl as <-. apply list_elem_of_singleton in Hr' as ->. lia.
  - rewrite last_cons_cons in Hl. apply elem_of_cons in Hr' as [->|Hr']; [|by eapply IH].
    assert (Hr1 : r ∈ r1 :: l) by by apply last_Some_elem_of.
    pose proof (descending_below _ _ _ Hd Hr1). lia.
Qed.

(** The loop over the history and the ranges computes the packets the frame
    acknowledges. *)
Lemma newly_acked_ok f l :
  ranges_wf (AckRanges f) -> StronglySorted Z.lt (numbers l) ->
  exists lo hi, LowestAcked f = Ret lo /\ LargestAcked f = Ret hi /\
    newly_acked (HasMissingRanges f) lo hi (reverse (AckRanges f)) l =
      Ret (List.filter (fun p => acks (AckRanges f) (sp_PacketNumber p)) l, None).
Proof.
  unfold LowestAcked, LargestAcked, HasMissingRanges. destruct f as [[|r rs] d]; [done|]. intros (H1 & H2 & Hd) Hs.
  cbn [AckRanges] in *. assert (Hd' : descending (2 ^ 62 + 1) (r :: rs)) by (cbn; lia || (split_and!; [lia..|done])).
  destruct (last (r :: rs)) as [z|] eqn:Hz; [|by apply last_None in Hz].
  assert (Hidx : index (r :: rs) (length (r :: rs) - 1) = Ret z).
  { unfold index. rewrite last_lookup in Hz. replace (length (r :: rs) - 1)%nat with (pred (length (r :: rs))) by lia. by rewrite Hz. }
  exists (Smallest z), (Largest r). rewrite Hidx. split_and!; [done|done|].
  assert (Hb : forall r', r' ∈ r :: rs -> Smallest z <= Smallest r' /\ Largest r' <= Largest r).
  { intros r' Hr'. split; [by eapply descending_lowest|]. apply elem_of_cons in Hr' as [->|Hr']; [done|].
    pose proof (descending_below _ _ _ Hd Hr'). lia. }
  destruct rs as [|r1 rs].
  - injection Hz as <-. clear Hb Hidx Hd Hd'. change (1 <? length [r])%nat with false. generalize (reverse [r]) as rr. intros rr.
    induction l as [|p l IH]; [done|]. inversion_clear Hs as [|? ? Hs' Hf]. rewrite Forall_forall in Hf. specialize (IH Hs').
    cbn [newly_acked List.filter]. destruct (Z.ltb_spec (sp_PacketNumber p) (Smallest r)).
    { rewrite acks_false by (intros r' ->%list_elem_of_singleton; by left). done. }
    destruct (Z.ltb_spec (Largest r) (sp_PacketNumber p)).
    { rewrite acks_false by (intros r' ->%list_elem_of_singleton; by right). rewrite (filter_acks_none (Smallest r) (Largest r)); try done.
      - by intros r' ->%list_elem_of_singleton.
      - intros q Hq. assert (sp_PacketNumber p < sp_PacketNumber q) by by apply Hf, list_elem_of_fmap_2. lia. }
    rewrite IH. cbn [mbind outcome_bind]. rewrite (proj2 (acks_acked_in _ _)); [done|]. exists r. split; [set_solver|lia].
  - change (1 <? length (r :: r1 :: rs))%nat with true. rewrite newly_acked_missing; try done.
    + do 2 f_equal. apply List.filter_ext. intros p. unfold acks. apply eq_true_iff_eq. rewrite !existsb_exists.
      split; intros (r' & Hr' & Hb'); exists r'; (split; [|done]); apply list_elem_of_In; apply list_elem_of_In in Hr';
        by apply elem_of_reverse.
    + by eapply descending_ascending.
    + rewrite reverse_cons. by destruct (reverse (r1 :: rs)).
    + intros r' Hr'. rewrite elem_of_reverse in Hr'. auto.
    + intros r'. rewrite last_reverse. cbn. by intros [= ->].
Qed.

(** ** Sending packets *)

(** Packets that were just sent, after those of [l]. *)
Record sent_ok (lvl : EncryptionLevel) (next next' : PacketNumber) (last last' : time) (new : list SentPacket) : Prop := {
  st_sorted : StronglySorted Z.lt (numbers new);
  st_level : forall p, p ∈ new -> sp_EncryptionLevel p = lvl;
  st_flight : forall p, p ∈ new -> sp_includedInBytesInFlight p = true;
  st_numbers : forall p, p ∈ new -> next <= sp_PacketNumber p < next';
  st_times : forall p, p ∈ new -> last <= sp_SendTime p <= last';
  st_mono : forall p q, p ∈ new -> q ∈ new -> sp_PacketNumber p < sp_PacketNumber q -> sp_SendTime p <= sp_SendTime q;
  st_queued : forall p, p ∈ new -> sp_canBeRetransmitted p = true;
  st_none : forall p, p ∈ new -> sp_retransmittedAs p = []
}.

Section Append.
Context (lvl : EncryptionLevel) (next next' : PacketNumber) (last last' : time) (l new : list SentPacket).
Hypothesis Hnew : sent_ok lvl next next' last last' new.
Hypothesis Hnext : next <= next'.
Hypothesis Hlast : last <= last'.

(** What does not depend on the links. *)
Lemma sorted_append :
  StronglySorted Z.lt (numbers l) -> (forall p, p ∈ l -> sp_PacketNumber p < next) -> StronglySorted Z.lt (numbers (l ++ new)).
Proof.
  intros Hs Hn. unfold numbers in *. rewrite map_app. apply sorted_app. split_and!; [done|apply Hnew|].
  intros x y (p & -> & Hp)%list_elem_of_fmap (q & -> & Hq)%list_elem_of_fmap.
  specialize (Hn p Hp). pose proof (st_numbers _ _ _ _ _ _ Hnew q Hq). lia.
Qed.

(** The links among the old packets stay, a new packet retransmits nothing. *)
Lemma packets_ok_append :
  packets_ok None lvl next last l -> (forall p, p ∈ new -> sp_isRetransmission p = false) ->
  packets_ok None lvl next' last' (l ++ new).
Proof.
  intros [Hs Hlv Hfl Hn Hla Hq Ho Ht Hc Hp] Hre. destruct Hnew as [Ns Nlv Nfl Nn Nt Nm Nq Nr].
  split; [by apply sorted_append|..].
  - intros p [Hi|Hi]%elem_of_app; auto.
  - intros p [Hi|Hi]%elem_of_app; auto.
  - intros p [Hi|Hi]%elem_of_app; [specialize (Hn p Hi); lia|by apply Nn].
  - intros p [Hi|Hi]%elem_of_app; [specialize (Hla p Hi); lia|by apply Nt].
  - intros p [Hi|Hi]%elem_of_app; auto.
  - intros p [Hi|Hi]%elem_of_app; [auto|]. by rewrite (Hre p Hi).
  - intros p q [Hi|Hi]%elem_of_app [Hj|Hj]%elem_of_app Hlt; [by apply Ht| | |by apply Nm].
    + specialize (Hla p Hi). specialize (Nt q Hj). lia.
    + specialize (Nn p Hi). specialize (Hn q Hj). lia.
  - intros q r [Hi|Hi]%elem_of_app Hr; [|rewrite (Nr q Hi) in Hr; set_solver].
    destruct (Hc q r Hi Hr) as (p & ? & ?). exists p. split; [set_solver|done].
  - intros p q [Hi|Hi]%elem_of_app [Hj|Hj]%elem_of_app Hrt; [by apply Hp|..]; destruct Hrt as [H1 H2].
    + specialize (Ho p Hi H1). specialize (Hn p Hi). specialize (Nn q Hj). lia.
    + rewrite (Hre p Hi) in H1. done.
    + rewrite (Hre p Hi) in H1. done.
Qed.

(** The new packets are the retransmissions of [q], which had none. *)
Lemma packets_ok_retransmit q :
  packets_ok None lvl next last l -> q ∈ l -> sp_retransmittedAs q = [] -> sp_canBeRetransmitted q = false ->
  (forall p, p ∈ new -> sp_isRetransmission p = true /\ sp_retransmissionOf p = sp_PacketNumber q) ->
  packets_ok None lvl next' last'
    (update_packet (sp_PacketNumber q) (fun p => p <| sp_retransmittedAs := numbers new |>) l ++ new).
Proof.
  intros Hok Hq Hq0 Hqc Hre. pose proof (pk_next _ _ _ _ _ Hok q Hq) as Hqn.
  set (f := fun p => p <| sp_retransmittedAs := numbers new |>).
  assert (Old : forall p, p ∈ update_packet (sp_PacketNumber q) f l ->
    exists p0, p0 ∈ l /\ relinks p0 p /\ (p0 = q /\ sp_retransmittedAs p = numbers new \/ p = p0 /\ p0 <> q)).
  { intros p (p0 & -> & Hp0)%list_elem_of_fmap. exists p0. split; [done|]. destruct (has_number _ p0) eqn:En.
    - split; [done|]. left. split; [|done]. apply has_number_true in En. by apply (same_number l); [apply Hok|..].
    - split; [by destruct p0|]. right. split; [done|]. intros ->. by rewrite (proj2 (has_number_true _ _) eq_refl) in En. }
  assert (New : forall p0, p0 ∈ l -> exists p, p ∈ update_packet (sp_PacketNumber q) f l /\ relinks p0 p).
  { intros p0 Hp0. eexists. split; [by apply list_elem_of_fmap_2|]. destruct (has_number _ p0); [done|by destruct p0]. }
  assert (En : numbers (update_packet (sp_PacketNumber q) f l) = numbers l).
  { unfold numbers, update_packet. rewrite map_map. apply map_ext. intros p. by destruct (has_number _ p). }
  clearbody f. set (l' := update_packet _ f l) in *. clearbody l'.
  destruct Hok as [Hs Hlv Hfl Hn Hla Hqu Ho Ht Hc Hp]. pose proof Hnew as [Ns Nlv Nfl Nn Nt Nm Nq Nr].
  assert (Rel : forall p, p ∈ l' -> exists p0, p0 ∈ l /\ relinks p0 p) by (intros p (p0 & ? & ? & _)%Old; by exists p0).
  split.
  - replace (numbers (l' ++ new)) with (numbers (l ++ new)); [by apply sorted_append|].
    unfold numbers in *. by rewrite !map_app, En.
  - intros p [(p0 & Hi & (_ & E & _)%relinks_same)%Rel|Hi]%elem_of_app; [rewrite E|]; auto.
  - intros p [(p0 & Hi & (_ & _ & E & _)%relinks_same)%Rel|Hi]%elem_of_app; [rewrite E|]; auto.
  - intros p [(p0 & Hi & (E & _)%relinks_same)%Rel|Hi]%elem_of_app; [specialize (Hn p0 Hi); lia|by apply Nn].
  - intros p [(p0 & Hi & (_ & _ & _ & E & _)%relinks_same)%Rel|Hi]%elem_of_app; [specialize (Hla p0 Hi); lia|by apply Nt].
  - intros p [(p0 & Hi & (_ & _ & _ & _ & _ & E & _)%relinks_same & [[-> _]|[-> _]])%Old|Hi]%elem_of_app; [congruence|auto..].
  - intros p [(p0 & Hi & (E & _ & _ & _ & _ & _ & E7 & E8)%relinks_same)%Rel|Hi]%elem_of_app; [rewrite E, E7, E8; auto|].
    intros _. destruct (Hre p Hi) as [_ ->]. specialize (Nn p Hi). lia.
  - intros p p' [(p0 & Hi & (E & _ & _ & E4 & _)%relinks_same)%Rel|Hi]%elem_of_app
      [(p1 & Hj & (F & _ & _ & F4 & _)%relinks_same)%Rel|Hj]%elem_of_app Hlt; [rewrite E4, F4; apply Ht; auto; lia| | |by apply Nm].
    + specialize (Hla p0 Hi). specialize (Nt p' Hj). lia.
    + specialize (Nn p Hi). specialize (Hn p1 Hj). lia.
  - intros q' r [(q0 & Hi & Hrl & Hcase)%Old|Hi]%elem_of_app Hr; [|rewrite (Nr q' Hi) in Hr; set_solver].
    destruct (relinks_same _ _ Hrl) as (E & _). destruct Hcase as [[-> Era]|[-> _]].
    + rewrite Era in Hr. apply list_elem_of_fmap in Hr as (p & -> & Hp'). exists p. unfold retransmits.
      rewrite E. destruct (Hre p Hp'). specialize (Nn p Hp'). split_and!; [set_solver|done|lia|done|done].
    + destruct (Hc q0 r Hi Hr) as (p & Hpi & E1 & E2 & E3 & E4). destruct (New p Hpi) as (p' & Hp' & Hrl').
      destruct (relinks_same _ _ Hrl') as (F & _ & _ & _ & _ & _ & F7 & F8). exists p'. unfold retransmits. rewrite F, F7, F8.
      split_and!; [set_solver|done..].
  - intros p q' [(p0 & Hi & (E & _ & _ & _ & _ & _ & E7 & E8)%relinks_same)%Rel|Hi]%elem_of_app
      [(q0 & Hj & Hrl & Hcase)%Old|Hj]%elem_of_app [R1 R2]; right.
    + destruct (relinks_same _ _ Hrl) as (F & _). rewrite E7 in R1. rewrite E8, F in R2. rewrite E.
      destruct (Hp p0 q0 Hi Hj) as [|Hin]; [by split|done|]. destruct Hcase as [[-> _]|[-> _]]; [|done]. rewrite Hq0 in Hin. set_solver.
    + rewrite E7 in R1. specialize (Ho p0 Hi R1). specialize (Hn p0 Hi). specialize (Nn q' Hj). lia.
    + destruct (Hre p Hi) as [_ E']. destruct (relinks_same _ _ Hrl) as (F & _).
      destruct Hcase as [[-> ->]|[-> Ne]]; [by apply list_elem_of_fmap_2|]. destruct Ne. apply (same_number l); [done..|congruence].
    + destruct (Hre p Hi) as [_ E']. specialize (Nn q' Hj). lia.
Qed.

End Append.

Lemma history_sent_all new x :
  history_ok x -> StronglySorted Z.lt (numbers (sh_packets x ++ new)) -> (forall p, p ∈ new -> sp_canBeRetransmitted p = true) ->
  history_ok (foldl history_sent x new) /\ sh_packets (foldl history_sent x new) = sh_packets x ++ new.
Proof.
  revert x. induction new as [|p new IH]; intros x Hx Hs Hc; [by rewrite app_nil_r|]. cbn.
  destruct (history_sent_ok x p Hx) as [Hx1 E1].
  - apply Hc. set_solver.
  - intros q Hq. unfold numbers in Hs. rewrite map_app in Hs. apply sorted_app in Hs as (_ & _ & Hlt).
    apply Hlt; [by apply list_elem_of_fmap_2|set_solver].
  - destruct (IH (history_sent x p) Hx1) as [Hx2 E2].
    + by rewrite E1, <- app_assoc.
    + set_solver.
    + split; [done|]. by rewrite E2, E1, <- app_assoc.
Qed.

Section Sent.
Context (lvl : EncryptionLevel) (next next' : PacketNumber) (last last' : time) (x : sentPacketHistory) (new : list SentPacket).
Hypothesis Hx : history_ok x.
Hypothesis Hok : packets_ok None lvl next last (sh_packets x).
Hypothesis Hnew : sent_ok lvl next next' last last' new.
Hypothesis Hfresh : forall p, p ∈ new -> sp_isRetransmission p = false.
Hypothesis Hnext : next <= next'.
Hypothesis Hlast : last <= last'.

(** The history after sending [new], as retransmissions of the packet [n]. *)
Definition history_grows (n : option PacketNumber) (x' : sentPacketHistory) : Prop :=
  history_ok x' /\ packets_ok None lvl next' last' (sh_packets x') /\
  flight (sh_packets x') = flight (sh_packets x) + flight new /\
  forall q, q ∈ sh_packets x' -> next <= sp_PacketNumber q \/ n = Some (sp_PacketNumber q) \/ q ∈ sh_packets x.

Lemma history_sent_grows n : history_grows n (foldl history_sent x new).
Proof.
  destruct (history_sent_all new x Hx) as [Hx' E].
  - eapply sorted_append; [exact Hnew|apply Hok|]. apply Hok.
  - apply Hnew.
  - split; [done|]. rewrite E, flight_app. split_and!; [by eapply packets_ok_append|done|].
    intros q [Hq|Hq]%elem_of_app; [by right; right|]. left. by apply Hnew.
Qed.

Lemma retransmission_flight n f :
  (forall p, in_flight (f p) = in_flight p) -> flight (map f new) = flight new /\ flight (update_packet n f (sh_packets x)) = flight (sh_packets x).
Proof.
  intros Hf. split.
  - clear -Hf. induction new as [|p l IH]; [done|]. cbn. by rewrite !flight_cons, Hf, IH.
  - generalize (sh_packets x). intros l. induction l as [|p l IH]; [done|]. cbn. rewrite !flight_cons.
    fold (update_packet n f l). rewrite IH. by destruct (has_number n p); rewrite ?Hf.
Qed.

Lemma history_SentPacketsAsRetransmission_grows n :
  (forall q, q ∈ sh_packets x -> sp_PacketNumber q = n -> sp_canBeRetransmitted q = false /\ sp_retransmittedAs q = []) ->
  history_grows (Some n) (history_SentPacketsAsRetransmission x new n).
Proof.
  intros Hq. unfold history_SentPacketsAsRetransmission. destruct (find_packet n (sh_packets x)) as [q|] eqn:Ef.
  2: apply history_sent_grows.
  apply find_packet_Some in Ef as [Hqi Hqn]. destruct (Hq q Hqi Hqn) as [Hqc Hqr].
  set (g := fun p => p <| sp_isRetransmission := true |> <| sp_retransmissionOf := n |>).
  set (f := fun p => p <| sp_retransmittedAs := map sp_PacketNumber new |>).
  set (x1 := x <| sh_packets := update_packet n f (sh_packets x) |>).
  assert (Ex : foldl (fun h packet => history_sent h (packet <| sp_isRetransmission := true |> <| sp_retransmissionOf := n |>)) x1 new
    = foldl history_sent x1 (map g new)).
  { generalize x1. clear. induction new as [|p l IH]; intros x1; [done|]. cbn. apply IH. }
  rewrite Ex. clear Ex.
  assert (Hnum : numbers (map g new) = numbers new) by (unfold numbers; rewrite map_map; by apply map_ext).
  assert (Hnew' : sent_ok lvl next next' last last' (map g new)).
  { destruct Hnew as [Ns Nlv Nfl Nn Nt Nm Nq Nr]. split; [by rewrite Hnum|..].
    1-4, 6-7: intros p (p0 & -> & Hp)%list_elem_of_fmap;
      first [exact (Nlv p0 Hp)|exact (Nfl p0 Hp)|exact (Nn p0 Hp)|exact (Nt p0 Hp)|exact (Nq p0 Hp)|exact (Nr p0 Hp)].
    intros p p' (p0 & -> & Hp)%list_elem_of_fmap (p1 & -> & Hp1)%list_elem_of_fmap. exact (Nm p0 p1 Hp Hp1). }
  assert (Hok' : packets_ok None lvl next' last' (sh_packets x1 ++ map g new)).
  { cbn. rewrite <- Hqn. replace f with (fun p => p <| sp_retransmittedAs := numbers (map g new) |>) by by rewrite Hnum.
    apply (packets_ok_retransmit lvl next next' last last' (sh_packets x) (map g new)); try done.
    intros p (p0 & -> & _)%list_elem_of_fmap. by rewrite Hqn. }
  assert (Hx1 : history_ok x1).
  { apply history_ok_relinks; [done|]. by apply update_relinks. }
  destruct (history_sent_all (map g new) x1 Hx1) as [Hx' E].
  - apply Hok'.
  - apply Hnew'.
  - split; [done|]. rewrite E. split_and!; [done| |].
    + rewrite flight_app. destruct (retransmission_flight n f) as [_ E1]; [done|]. destruct (retransmission_flight n g) as [E2 _]; [done|].
      rewrite E2. change (sh_packets x1) with (update_packet n f (sh_packets x)). by rewrite E1.
    + intros q' [Hq'|Hq']%elem_of_app; [|left; by apply Hnew'].
      apply list_elem_of_fmap in Hq' as (q0 & -> & Hq0). destruct (has_number n q0) eqn:En; [|by right; right].
      apply has_number_true in En. right. left. by rewrite <- En.
Qed.

End Sent.
