(* ===== verification/LossRecovery.v ===== *)
(** * Invariants of loss recovery

    What every call of the sent packet handler (SentPacketHandler.v) keeps true
    of the packets in flight, whatever congestion controller it runs; the BBR
    sender discharges the requirements on the controller.  The calls are those of
    session.go: sendPacket, maybeSendRetransmission, sendProbePacket,
    handleAckFrame, the alarm, dropEncryptionLevel and handleRetryPacket. *)

From Stdlib Require Import Sorted.
From S2P Require Import Prelude GoFloat Protocol AckFrame Frames RTTStats SentHistory BandwidthSampler BBR.
From S2P Require Import BBRProperties SentPacketHandler PacketLinks.

(** ** The state of the handler *)

(** What the handler requires of its congestion controller: [cc_ok] is kept by
    every call, and events are handled without a panic, as long as less than
    2^63 bytes are sent.  No event reports both acknowledged and lost packets. *)
Class SafeController (C : Type) `{SendAlgorithm C} : Type := {
  cc_ok : C -> Prop;
  cc_sent : C -> Z;
  cc_sent_ok c t inFlight pn n ret :
    cc_ok c -> 0 <= n -> cc_sent c + n < 2 ^ 63 ->
    cc_ok (cc_OnPacketSent c t inFlight pn n ret) /\ cc_sent (cc_OnPacketSent c t inFlight pn n ret) <= cc_sent c + n;
  cc_exit_ok c : cc_ok c -> cc_ok (cc_MaybeExitSlowStart c);
  cc_acked_ok c pn n prior t : hasCongestionEvent = false -> cc_ok c ->
    exists c', cc_OnPacketAcked c pn n prior t = Ret c' /\ cc_ok c';
  cc_lost_ok c pn n prior : hasCongestionEvent = false -> cc_ok c ->
    exists c', cc_OnPacketLost c pn n prior = Ret c' /\ cc_ok c';
  cc_event_ok event c inFlight rttStats prior t acked lost :
    cc_OnCongestionEvent = Some event -> acked = [] \/ lost = [] -> cc_ok c -> is_uint64 inFlight -> is_int64 (minRTT rttStats) ->
    exists c', event c inFlight rttStats prior t acked lost = Ret c' /\ cc_ok c'
}.

Section Invariant.
Context {C : Type} `{SC : SafeController C} `{FloatConv}.
Local Notation handler := (sentPacketHandler C).

Definition get_space (h : handler) (lvl : EncryptionLevel) : option packetNumberSpace :=
  match lvl with
  | EncryptionInitial => hd_initialPackets h
  | EncryptionHandshake => hd_handshakePackets h
  | Encryption1RTT => Some (hd_oneRTTPackets h)
  | EncryptionUnspecified => None
  end.

Definition packets (s : packetNumberSpace) : list SentPacket := sh_packets (ps_history s).
Definition next_number (s : packetNumberSpace) : PacketNumber := pg_next (ps_pns s).

(** The bytes of the packets the handler tracks. *)
Definition space_flight (s : option packetNumberSpace) : Z :=
  match s with Some s => flight (packets s) | None => 0 end.
Definition tracked_flight (h : handler) : Z :=
  space_flight (hd_initialPackets h) + space_flight (hd_handshakePackets h) + flight (packets (hd_oneRTTPackets h)).

Definition generator_ok (g : packetNumberGenerator) : Prop :=
  0 <= pg_next g < 2 ^ 62 /\ 1 <= pg_averagePeriod g < 2 ^ 32 /\ pg_next g < pg_nextToSkip g.

Record space_ok (last : time) (lvl : EncryptionLevel) (s : packetNumberSpace) : Prop := {
  so_history : history_ok (ps_history s);
  so_packets : packets_ok None lvl (next_number s) last (packets s);
  so_generator : generator_ok (ps_pns s)
}.

Definition key (p : SentPacket) : EncryptionLevel * PacketNumber := (sp_EncryptionLevel p, sp_PacketNumber p).

(** A packet in the retransmission queue was sent, and is not retransmitted yet. *)
Definition queued_ok (h : handler) (p : SentPacket) : Prop :=
  exists s, get_space h (sp_EncryptionLevel p) = Some s /\ sp_PacketNumber p < next_number s /\
    forall q, q ∈ packets s -> sp_PacketNumber q = sp_PacketNumber p ->
      sp_canBeRetransmitted q = false /\ sp_retransmittedAs q = [].

Record handler_ok (h : handler) : Prop := {
  ho_spaces : forall lvl s, get_space h lvl = Some s -> space_ok (hd_lastSentAckElicitingPacketTime h) lvl s;
  ho_crypto : is_Some (hd_initialPackets h) <-> is_Some (hd_handshakePackets h);
  ho_nodup : NoDup (map key (hd_retransmissionQueue h));
  ho_queue : forall p, p ∈ hd_retransmissionQueue h -> queued_ok h p;
  ho_flight : hd_bytesInFlight h = uint64 (tracked_flight h);
  ho_congestion : cc_ok (hd_congestion h);
  ho_rtt : is_int64 (minRTT (hd_rttStats h))
}.

Lemma space_of_get h lvl s : get_space h lvl = Some s -> space_of h lvl = Ret s.
Proof. unfold space_of. destruct lvl; cbn; intros E; [done|by rewrite E|by rewrite E|by injection E as ->]. Qed.

Lemma get_set_space h lvl s l :
  lvl <> EncryptionUnspecified -> get_space (set_space h lvl s) l = if decide (l = lvl) then Some s else get_space h l.
Proof. by destruct lvl, l. Qed.

Lemma tracked_flight_get h :
  tracked_flight h = space_flight (get_space h EncryptionInitial) + space_flight (get_space h EncryptionHandshake) +
    space_flight (get_space h Encryption1RTT).
Proof. done. Qed.

(** Replacing a space changes the bytes by the difference. *)
Lemma tracked_flight_update h h' lvl s s' :
  get_space h lvl = Some s -> (forall l, get_space h' l = if decide (l = lvl) then Some s' else get_space h l) ->
  tracked_flight h' = tracked_flight h + flight (packets s') - flight (packets s).
Proof.
  intros Hs Hg. rewrite !tracked_flight_get, !Hg. repeat case_decide; subst; try done; rewrite ?Hs; cbn [space_flight]; try lia.
  by destruct lvl.
Qed.

Lemma uint64_add_idem a b : uint64 (uint64 a + b) = uint64 (a + b).
Proof. unfold uint64. by rewrite Zplus_mod_idemp_l. Qed.

Lemma uint64_sub_idem a b : uint64 (uint64 a - b) = uint64 (a - b).
Proof. unfold uint64. by rewrite Zminus_mod_idemp_l. Qed.

(** A space whose packets only get fewer keeps the invariant. *)
Lemma handler_ok_update h h' lvl s s' :
  handler_ok h -> get_space h lvl = Some s ->
  (forall l, get_space h' l = if decide (l = lvl) then Some s' else get_space h l) ->
  hd_lastSentAckElicitingPacketTime h' = hd_lastSentAckElicitingPacketTime h ->
  hd_retransmissionQueue h' = hd_retransmissionQueue h ->
  hd_bytesInFlight h' = uint64 (hd_bytesInFlight h + (flight (packets s') - flight (packets s))) ->
  cc_ok (hd_congestion h') -> is_int64 (minRTT (hd_rttStats h')) ->
  space_ok (hd_lastSentAckElicitingPacketTime h) lvl s' -> shrinks (packets s) (packets s') ->
  next_number s <= next_number s' -> handler_ok h'.
Proof.
  intros [Hsp Hcr Hnd Hqu Hfl _ _] Hs Hg El Eq Eb Hcc Hrt Hok Hsh Hnx. split; rewrite ?El, ?Eq; try done.
  - intros l s0. rewrite Hg. case_decide as D; [subst; by intros [= <-]|]. apply Hsp.
  - pose proof (Hg EncryptionInitial) as HI. pose proof (Hg EncryptionHandshake) as HH. cbn in HI, HH. rewrite HI, HH.
    destruct lvl; cbn in Hs |- *; try done; rewrite Hs in Hcr; by rewrite Hcr || by rewrite <- Hcr.
  - intros p Hp. destruct (Hqu p Hp) as (s0 & Hs0 & Hlt & Hq). unfold queued_ok. rewrite Hg. case_decide as D.
    2: { by exists s0. }
    rewrite D, Hs in Hs0. injection Hs0 as <-. exists s'. split_and!; [done|lia|].
    intros q' Hq' En. destruct (Hsh q' Hq') as (q & Hqi & E1 & E2 & E3). destruct (Hq q Hqi) as [Hc Hr]; [congruence|].
    split; [by destruct (sp_canBeRetransmitted q'); [rewrite E2 in Hc|]|]. rewrite Hr in E3.
    destruct (sp_retransmittedAs q') as [|r rs]; [done|]. specialize (E3 r). set_solver.
  - rewrite Eb, Hfl, (tracked_flight_update h h' lvl s s' Hs Hg), uint64_add_idem. f_equal. lia.
Qed.

Lemma get_level h lvl s : get_space h lvl = Some s -> lvl <> EncryptionUnspecified.
Proof. by intros Hs ->. Qed.

(** A change of the history of a space. *)
Lemma on_history_eq h lvl s f x err :
  get_space h lvl = Some s -> f (ps_history s) = Ret (x, err) ->
  on_history h lvl f = Ret (set_history h lvl s x, err).
Proof. intros Hs Hf. unfold on_history. rewrite (space_of_get h lvl s Hs). cbn [mbind outcome_bind]. by rewrite Hf. Qed.

Lemma get_set_history h lvl s x l :
  get_space h lvl = Some s ->
  get_space (set_history h lvl s x) l = if decide (l = lvl) then Some (s <| ps_history := x |>) else get_space h l.
Proof. intros Hs. by apply get_set_space, (get_level h lvl s). Qed.

(** What a change of a space leaves alone. *)
Lemma set_history_fields (h : handler) lvl s x :
  hd_lastSentAckElicitingPacketTime (set_history h lvl s x) = hd_lastSentAckElicitingPacketTime h /\
  hd_retransmissionQueue (set_history h lvl s x) = hd_retransmissionQueue h /\
  hd_bytesInFlight (set_history h lvl s x) = hd_bytesInFlight h /\
  hd_congestion (set_history h lvl s x) = hd_congestion h /\ hd_rttStats (set_history h lvl s x) = hd_rttStats h.
Proof. by destruct lvl. Qed.

Lemma space_ok_history last lvl s x :
  space_ok last lvl s -> history_ok x -> packets_ok None lvl (next_number s) last (sh_packets x) ->
  space_ok last lvl (s <| ps_history := x |>).
Proof. intros [_ _ Hg] Hx Hp. by split. Qed.

Lemma queuePacketForRetransmission_eq h p lvl s x :
  get_space h lvl = Some s -> sp_canBeRetransmitted p = true ->
  MarkCannotBeRetransmitted (ps_history s) (sp_PacketNumber p) = Ret (x, None) ->
  queuePacketForRetransmission h p lvl =
    Ret ((set_history h lvl s x) <| hd_retransmissionQueue := hd_retransmissionQueue h ++ [p] |>, None).
Proof.
  intros Hs Hc E. unfold queuePacketForRetransmission. rewrite Hc. cbn [negb]. rewrite (on_history_eq h lvl s _ x None Hs E).
  cbn [and_then mbind outcome_bind]. by destruct (set_history_fields h lvl s x) as (_ & -> & _).
Qed.

(** The packet [p] of the space [s] is marked, and joins the queue. *)
Lemma queuePacketForRetransmission_ok h p lvl s :
  handler_ok h -> get_space h lvl = Some s -> p ∈ packets s -> sp_canBeRetransmitted p = true ->
  exists x, let h' := (set_history h lvl s x) <| hd_retransmissionQueue := hd_retransmissionQueue h ++ [p] |> in
    MarkCannotBeRetransmitted (ps_history s) (sp_PacketNumber p) = Ret (x, None) /\
    queuePacketForRetransmission h p lvl = Ret (h', None) /\ handler_ok h' /\
    sh_packets x = update_packet (sp_PacketNumber p) no_retransmit (packets s).
Proof.
  intros Hh Hs Hp Hc. destruct (ho_spaces h Hh lvl s Hs) as [Hx Hk Hg].
  destruct (MarkCannotBeRetransmitted_ok (ps_history s) (sp_PacketNumber p) p Hx) as (x & E & Hx' & El).
  { apply find_packet_elem; [apply Hk|done]. }
  assert (Hm : marked (packets s) (sh_packets x)) by (rewrite El; apply mark_marked).
  exists x. cbv zeta. destruct (set_history_fields h lvl s x) as (F1 & F2 & F3 & F4 & F5).
  set (h1 := set_history h lvl s x) in *.
  assert (Hh1 : handler_ok h1).
  { eapply (handler_ok_update h h1 lvl s (s <| ps_history := x |>)); try done.
    - intros l. by apply get_set_history.
    - rewrite F3. change (packets (s <| ps_history := x |>)) with (sh_packets x). rewrite (marked_flight _ _ Hm), Z.sub_diag, Z.add_0_r.
      rewrite (ho_flight h Hh). unfold uint64. by rewrite Zmod_mod.
    - rewrite F4. apply Hh.
    - rewrite F5. apply Hh.
    - apply space_ok_history; [by split|done|]. by eapply packets_ok_marked.
    - by apply marked_shrinks. }
  split_and!; [done|by apply queuePacketForRetransmission_eq|split|done].
  - apply Hh1.
  - apply Hh1.
  - cbn. rewrite map_app. apply NoDup_app. split_and!; [apply Hh| |apply NoDup_singleton].
    intros k (p' & -> & Hp')%list_elem_of_fmap Hk'. cbn in Hk'. apply list_elem_of_singleton in Hk'.
    destruct (ho_queue h Hh p' Hp') as (s' & Hs' & _ & Hq). injection Hk' as E1 E2.
    rewrite E1, (pk_level _ _ _ _ _ Hk p Hp), Hs in Hs'. injection Hs' as <-. destruct (Hq p Hp); [done|]. congruence.
  - intros p' [Hp'| ->%list_elem_of_singleton]%elem_of_app; [by apply (ho_queue h1 Hh1); rewrite F2|].
    exists (s <| ps_history := x |>). rewrite (pk_level _ _ _ _ _ Hk p Hp). split_and!.
    + change (get_space h1 lvl = Some (s <| ps_history := x |>)). unfold h1. rewrite (get_set_history h lvl s x lvl Hs).
      by rewrite decide_True.
    + exact (pk_next _ _ _ _ _ Hk p Hp).
    + change (packets (s <| ps_history := x |>)) with (sh_packets x). intros q Hq En.
      destruct (marked_old _ _ q Hm Hq) as (q0 & Hq0 & Hmk). destruct (marks_same _ _ Hmk) as (E1 & _ & _ & _ & _ & E6 & _).
      assert (q0 = p) as -> by (apply (same_number (packets s)); [apply Hk|done|done|congruence]).
      split; [|rewrite E6; by apply (pk_queued _ _ _ _ _ Hk)].
      rewrite El in Hq. unfold update_packet in Hq. apply list_elem_of_fmap in Hq as (q1 & -> & Hq1).
      destruct (has_number _ q1) eqn:En1; [done|]. apply Z.eqb_neq in En1. done.
  - cbn. rewrite F3. rewrite (ho_flight h Hh). f_equal.
    transitivity (tracked_flight h1); [|done]. rewrite (tracked_flight_update h h1 lvl s (s <| ps_history := x |>) Hs).
    + change (packets (s <| ps_history := x |>)) with (sh_packets x). rewrite (marked_flight _ _ Hm). lia.
    + intros l. by apply get_set_history.
  - apply Hh1.
  - apply Hh1.
Qed.

(** The spaces that exist. *)
Definition same_spaces (h h' : handler) : Prop := forall l, is_Some (get_space h' l) <-> is_Some (get_space h l).

Lemma same_spaces_update h h' lvl s s' :
  get_space h lvl = Some s -> (forall l, get_space h' l = if decide (l = lvl) then Some s' else get_space h l) ->
  same_spaces h h'.
Proof. intros Hs Hg l. rewrite Hg. case_decide as D; [|done]. subst. rewrite Hs. by split; eexists. Qed.

Lemma queue_all_ok ps h lvl s :
  handler_ok h -> get_space h lvl = Some s -> NoDup (numbers ps) ->
  (forall p, p ∈ ps -> p ∈ packets s /\ sp_canBeRetransmitted p = true) ->
  exists h', queue_all h lvl ps = Ret (h', None) /\ handler_ok h' /\ same_spaces h h'.
Proof.
  revert h s. induction ps as [|p ps IH]; intros h s Hh Hs Hnd Hps; [by exists h|]. cbn [queue_all].
  destruct (Hps p ltac:(set_solver)) as [Hp Hc].
  destruct (queuePacketForRetransmission_ok h p lvl s Hh Hs Hp Hc) as (x & _ & -> & Hh1 & El). cbn [and_then mbind outcome_bind].
  inversion_clear Hnd as [|? ? Hout Hnd'].
  match type of Hh1 with handler_ok ?t => set (h1 := t) in * end.
  assert (Hg : forall l, get_space h1 l = if decide (l = lvl) then Some (s <| ps_history := x |>) else get_space h l).
  { intros l. by apply get_set_history. }
  destruct (IH h1 (s <| ps_history := x |>) Hh1) as (h2 & E2 & Hh2 & S2).
  - rewrite Hg. by rewrite decide_True.
  - done.
  - intros p' Hp'. destruct (Hps p' ltac:(set_solver)) as [Hin Hc']. split; [|done].
    change (packets (s <| ps_history := x |>)) with (sh_packets x). rewrite El. unfold update_packet.
    apply list_elem_of_fmap. exists p'. split; [|done]. unfold has_number.
    rewrite (proj2 (Z.eqb_neq _ _)); [done|]. intros En. apply Hout. cbn. rewrite <- En. by apply list_elem_of_fmap_2.
  - exists h2. split_and!; [done|done|]. intros l. rewrite (S2 l). by apply (same_spaces_update h h1 lvl s _ Hs Hg).
Qed.

Lemma filter_numbers_NoDup f l : StronglySorted Z.lt (numbers l) -> NoDup (numbers (List.filter f l)).
Proof.
  induction l as [|p l IH]; [constructor|]. cbn. inversion_clear 1 as [|? ? Hs Hf]. destruct (f p); [|by apply IH].
  cbn. constructor; [|by apply IH]. intros (q & En & Hq)%list_elem_of_fmap. rewrite Forall_forall in Hf.
  apply list_elem_of_In, List.filter_In in Hq as [Hq _]. specialize (Hf (sp_PacketNumber q)).
  rewrite En in Hf. assert (sp_PacketNumber q < sp_PacketNumber q); [|lia]. apply Hf, list_elem_of_fmap_2.
  by apply list_elem_of_In.
Qed.

Lemma queueAllPacketsForRetransmission_ok h lvl :
  handler_ok h -> is_Some (get_space h lvl) ->
  exists h', queueAllPacketsForRetransmission h lvl = Ret (h', None) /\ handler_ok h' /\ same_spaces h h'.
Proof.
  intros Hh [s Hs]. unfold queueAllPacketsForRetransmission. rewrite (space_of_get h lvl s Hs). cbn [mbind outcome_bind].
  apply (queue_all_ok _ h lvl s Hh Hs).
  - apply filter_numbers_NoDup, (ho_spaces h Hh lvl s Hs).
  - intros p Hp. apply list_elem_of_In, List.filter_In in Hp as [Hp Hc]. split; [by apply list_elem_of_In|done].
Qed.

Lemma queueCryptoPacketsForRetransmission_ok h :
  handler_ok h -> is_Some (hd_initialPackets h) ->
  exists h', queueCryptoPacketsForRetransmission h = Ret (h', None) /\ handler_ok h' /\ same_spaces h h'.
Proof.
  intros Hh Hi. unfold queueCryptoPacketsForRetransmission.
  destruct (queueAllPacketsForRetransmission_ok h EncryptionInitial Hh Hi) as (h1 & -> & Hh1 & S1).
  cbn [and_then mbind outcome_bind].
  destruct (queueAllPacketsForRetransmission_ok h1 EncryptionHandshake Hh1) as (h2 & -> & Hh2 & S2).
  - apply (S1 EncryptionHandshake). by apply (ho_crypto h Hh).
  - exists h2. split_and!; [done|done|]. intros l. by rewrite (S2 l).
Qed.

(** *** Acknowledged packets *)

Lemma onPacketAcked_ok h p lvl s :
  handler_ok h -> get_space h lvl = Some s -> sp_EncryptionLevel p = lvl ->
  exists h', onPacketAcked h p = Ret (h', None) /\ handler_ok h' /\ same_spaces h h'.
Proof.
  intros Hh Hs Hl. unfold onPacketAcked. rewrite Hl, (space_of_get h lvl s Hs). cbn [mbind outcome_bind]. unfold GetPacket.
  destruct (find_packet _ _) as [q|] eqn:Ef; [|by exists h]. apply find_packet_Some in Ef as [Hq _].
  destruct (ho_spaces h Hh lvl s Hs) as [Hx Hk Hg]. rewrite (pk_level _ _ _ _ _ Hk q Hq).
  rewrite (pk_flight _ _ _ _ _ Hk q Hq).
  destruct (acked_history lvl _ _ (ps_history s) q Hx Hk Hq) as (x1 & x2 & x3 & -> & E2 & E3 & Hx3 & Hk3 & Hsh & Hfl).
  cbn [mbind outcome_bind]. cbv zeta.
  set (h1 := (set_history h lvl s x1) <| hd_bytesInFlight := _ |>).
  assert (G1 : forall l, get_space h1 l = if decide (l = lvl) then Some (s <| ps_history := x1 |>) else get_space h l).
  { intros l. by apply get_set_history. }
  assert (S1 : get_space h1 lvl = Some (s <| ps_history := x1 |>)) by (rewrite G1; by rewrite decide_True).
  rewrite (on_history_eq h1 lvl _ _ x2 None S1 E2). cbn [and_then mbind outcome_bind].
  set (h2 := set_history h1 lvl _ x2).
  assert (G2 : forall l, get_space h2 l = if decide (l = lvl) then Some (s <| ps_history := x2 |>) else get_space h l).
  { intros l. unfold h2. rewrite (get_set_history h1 lvl _ x2 l S1), G1. by case_decide. }
  assert (S2 : get_space h2 lvl = Some (s <| ps_history := x2 |>)) by (rewrite G2; by rewrite decide_True).
  rewrite (on_history_eq h2 lvl _ _ x3 None S2 E3).
  set (h3 := set_history h2 lvl _ x3).
  assert (G3 : forall l, get_space h3 l = if decide (l = lvl) then Some (s <| ps_history := x3 |>) else get_space h l).
  { intros l. unfold h3. rewrite (get_set_history h2 lvl _ x3 l S2), G2. by case_decide. }
  exists h3. split; [done|]. split; [|by eapply same_spaces_update].
  eapply (handler_ok_update h h3 lvl s (s <| ps_history := x3 |>)); try done.
  - unfold h3, h2, h1. by destruct lvl.
  - unfold h3, h2, h1. by destruct lvl.
  - change (packets (s <| ps_history := x3 |>)) with (sh_packets x3). unfold packets. rewrite Hfl.
    transitivity (uint64 (hd_bytesInFlight h - sp_Length q)); [unfold h3, h2, h1; by destruct lvl|].
    f_equal. unfold in_flight. rewrite (pk_flight _ _ _ _ _ Hk q Hq). lia.
  - replace (hd_congestion h3) with (hd_congestion h) by (unfold h3, h2, h1; by destruct lvl). apply Hh.
  - replace (hd_rttStats h3) with (hd_rttStats h) by (unfold h3, h2, h1; by destruct lvl). apply Hh.
Qed.

(** A state with the same packets, queue and bytes. *)
Lemma handler_ok_frame h h' :
  handler_ok h -> (forall l, get_space h' l = get_space h l) ->
  hd_lastSentAckElicitingPacketTime h' = hd_lastSentAckElicitingPacketTime h ->
  hd_retransmissionQueue h' = hd_retransmissionQueue h -> hd_bytesInFlight h' = hd_bytesInFlight h ->
  cc_ok (hd_congestion h') -> is_int64 (minRTT (hd_rttStats h')) -> handler_ok h'.
Proof.
  intros [Hsp Hcr Hnd Hqu Hfl _ _] Hg El Eq Eb Hcc Hrt. split; rewrite ?El, ?Eq, ?Eb; try done.
  - intros lvl s. rewrite Hg. apply Hsp.
  - pose proof (Hg EncryptionInitial) as HI. pose proof (Hg EncryptionHandshake) as HH. cbn in HI, HH. by rewrite HI, HH.
  - intros p Hp. destruct (Hqu p Hp) as (s & Hs & ?). exists s. by rewrite Hg.
  - by rewrite Hfl, !tracked_flight_get, !Hg.
Qed.

Lemma ack_packets_ok lvl t prior l h :
  handler_ok h -> is_Some (get_space h lvl) -> (forall p, p ∈ l -> sp_EncryptionLevel p = lvl) ->
  exists h' events, ack_packets h lvl t prior l = Ret (h', events, None) /\ handler_ok h' /\ same_spaces h h' /\
    (hasCongestionEvent = true -> (forall p, p ∈ l -> sp_includedInBytesInFlight p = true) -> events = map ToPacket l).
Proof.
  revert h. induction l as [|p l IH]; intros h Hh Hs Hl; [by exists h, []|]. cbn [ack_packets].
  match goal with |- context [onPacketAcked ?t p] => set (h0 := t) end.
  assert (G0 : forall l, get_space h0 l = get_space h l) by (intros; unfold h0; by destruct (_ && _)).
  assert (Hh0 : handler_ok h0).
  { apply (handler_ok_frame h h0 Hh G0); unfold h0; destruct (_ && _); by try apply Hh. }
  destruct Hs as [s Hs]. rewrite <- (G0 lvl) in Hs.
  destruct (onPacketAcked_ok h0 p lvl s Hh0 Hs (Hl p ltac:(set_solver))) as (h1 & -> & Hh1 & S1). cbn [mbind outcome_bind].
  match goal with |- context [mbind _ ?t] => set (m := t) end.
  assert (Hm : exists c e, m = Ret (h1 <| hd_congestion := c |>, e) /\ cc_ok c /\
    (hasCongestionEvent = true -> sp_includedInBytesInFlight p = true -> e = [ToPacket p])).
  { unfold m. assert (E : h1 = h1 <| hd_congestion := hd_congestion h1 |>) by by destruct h1.
    destruct (sp_includedInBytesInFlight p); [|exists (hd_congestion h1), []; rewrite <- E; by split_and!; [|apply Hh1|]].
    destruct hasCongestionEvent eqn:Ev.
    - exists (hd_congestion h1), [ToPacket p]. rewrite <- E. by split_and!; [|apply Hh1|].
    - destruct (cc_acked_ok (hd_congestion h1) (sp_PacketNumber p) (sp_Length p) prior t Ev (ho_congestion h1 Hh1))
        as (c & -> & Hc). by exists c, []. }
  clearbody m. destruct Hm as (c & e & -> & Hc & He). cbn [mbind outcome_bind].
  destruct (IH (h1 <| hd_congestion := c |>)) as (h2 & ev & -> & Hh2 & S2 & Hev).
  - by apply (handler_ok_frame h1); try apply Hh1.
  - apply (S1 lvl). by eexists.
  - set_solver.
  - cbn [mbind outcome_bind]. exists h2, (e ++ ev). split_and!; [done|done| |].
    + intros k. rewrite (S2 k). rewrite <- (G0 k). apply (S1 k).
    + intros Ev Hi. cbn. rewrite He, Hev; [done|done|set_solver|done|apply Hi; set_solver].
Qed.

(** *** Lost packets *)

(** The first packet of a space leaves, after its bytes were subtracted. *)
Lemma drop_first h h1 lvl s p rest :
  handler_ok h -> get_space h lvl = Some s -> packets s = p :: rest ->
  (forall l, get_space h1 l = get_space h l) ->
  hd_lastSentAckElicitingPacketTime h1 = hd_lastSentAckElicitingPacketTime h ->
  hd_retransmissionQueue h1 = hd_retransmissionQueue h ->
  hd_bytesInFlight h1 = uint64 (hd_bytesInFlight h - sp_Length p) ->
  cc_ok (hd_congestion h1) -> hd_rttStats h1 = hd_rttStats h ->
  exists x, let h' := set_history h1 lvl s x in
    on_history h1 lvl (fun x => history_Remove x (sp_PacketNumber p)) = Ret (h', None) /\ handler_ok h' /\
    same_spaces h h' /\ get_space h' lvl = Some (s <| ps_history := x |>) /\ packets (s <| ps_history := x |>) = rest.
Proof.
  intros Hh Hs El Hg E1 E2 E3 Hcc E4. destruct (ho_spaces h Hh lvl s Hs) as [Hx Hk Hge]. rewrite El in Hk.
  destruct (history_Remove_ok (ps_history s) (sp_PacketNumber p) p Hx) as (x & E & Hx' & Ep).
  { apply find_packet_elem; [apply Hx|]. fold (packets s). rewrite El. set_solver. }
  fold (packets s) in Ep. rewrite El in Ep. fold (removed (sp_PacketNumber p) (p :: rest)) in Ep.
  destruct (first_removed _ _ _ _ _ Hk) as [Er Hk']. rewrite Er in Ep.
  assert (Ep' : packets (s <| ps_history := x |>) = rest) by exact Ep.
  exists x. cbv zeta. set (h' := set_history h1 lvl s x). rewrite <- Hg in Hs.
  assert (Hg' : forall l, get_space h' l = if decide (l = lvl) then Some (s <| ps_history := x |>) else get_space h l).
  { intros l. rewrite <- Hg. by apply get_set_history. }
  destruct (set_history_fields h1 lvl s x) as (F1 & F2 & F3 & F4 & F5). fold h' in F1, F2, F3, F4, F5.
  split_and!; [by apply on_history_eq| | |by rewrite Hg', decide_True|done].
  2: { eapply same_spaces_update; [|exact Hg']. by rewrite <- Hg. }
  eapply (handler_ok_update h h' lvl s _ Hh); try rewrite Ep'; try exact Hg'; try congruence; try done.
  - rewrite F3, E3, El, flight_cons. f_equal. unfold in_flight. rewrite (pk_flight _ _ _ _ _ Hk p) by set_solver. lia.
  - rewrite F5, E4. apply Hh.
  - apply space_ok_history; [by split; rewrite ?El|done|]. by rewrite Ep.
  - rewrite El. apply first_shrinks.
Qed.

(** One iteration of the loop over the lost packets. *)
Lemma remove_lost_step h lvl prior s p rest l :
  handler_ok h -> get_space h lvl = Some s -> packets s = p :: rest ->
  exists h' s', remove_lost h lvl prior (p :: l) = remove_lost h' lvl prior l /\ handler_ok h' /\ same_spaces h h' /\
    get_space h' lvl = Some s' /\ packets s' = rest.
Proof.
  intros Hh Hs El. cbn [remove_lost]. destruct (ho_spaces h Hh lvl s Hs) as [Hx Hk Hge]. rewrite El in Hk.
  rewrite (pk_flight _ _ _ _ _ Hk p) by set_solver.
  match goal with |- context [mbind _ ?t] => set (m := t) end.
  assert (Hm : exists c, m = Ret (h <| hd_bytesInFlight := uint64 (hd_bytesInFlight h - sp_Length p) |> <| hd_congestion := c |>) /\ cc_ok c).
  { unfold m. destruct hasCongestionEvent eqn:Ev.
    - exists (hd_congestion h). split; [by destruct h|apply Hh].
    - destruct (cc_lost_ok (hd_congestion h) (sp_PacketNumber p) (sp_Length p) prior Ev (ho_congestion h Hh))
        as (c & E & Hc). exists c. split; [|done]. cbn. by rewrite E. }
  clearbody m. destruct Hm as (c & -> & Hc). cbn [mbind outcome_bind].
  set (h1 := h <| hd_bytesInFlight := _ |> <| hd_congestion := c |>).
  assert (S1 : get_space h1 lvl = Some s) by exact Hs.
  destruct (sp_canBeRetransmitted p) eqn:Hcan.
  2: { cbn [and_then mbind outcome_bind mret outcome_ret].
       destruct (drop_first h h1 lvl s p rest Hh Hs El) as (x & -> & Hh' & S' & Gs & Ep); try done.
       cbn [mbind outcome_bind]. eexists _, _. by split_and!. }
  (* the packet is queued first *)
  destruct (queuePacketForRetransmission_ok h p lvl s Hh Hs) as (y & E1 & _ & Hhq & Ey); [rewrite El; set_solver|done|].
  rewrite (queuePacketForRetransmission_eq h1 p lvl s y S1 Hcan E1). cbn [and_then mbind outcome_bind].
  rewrite El, (first_updated _ _ _ _ _ _ Hk) in Ey.
  set (hq := (set_history h lvl s y) <| hd_retransmissionQueue := _ |>) in *.
  set (h2 := (set_history h1 lvl s y) <| hd_retransmissionQueue := _ |>).
  assert (Gq : forall k, get_space hq k = if decide (k = lvl) then Some (s <| ps_history := y |>) else get_space h k).
  { intros k. by apply get_set_history. }
  destruct (drop_first hq h2 lvl (s <| ps_history := y |>) (no_retransmit p) rest Hhq) as (x & E & Hh' & S' & Gs & Ep).
  - rewrite Gq. by rewrite decide_True.
  - exact Ey.
  - intros k. rewrite Gq. by apply (get_set_history h1 lvl s y k S1).
  - unfold h2, hq. by destruct lvl.
  - done.
  - unfold h2, hq. by destruct lvl.
  - unfold h2. by destruct lvl.
  - unfold h2, hq. by destruct lvl.
  - change (sp_PacketNumber (no_retransmit p)) with (sp_PacketNumber p) in E. rewrite E. cbn [mbind outcome_bind].
    eexists _, _. split_and!; [done|done| |exact Gs|done].
    intros k. rewrite (S' k). by apply (same_spaces_update h hq lvl s _ Hs Gq).
Qed.

Lemma remove_lost_ok lost rest h lvl prior s :
  handler_ok h -> get_space h lvl = Some s -> packets s = lost ++ rest ->
  exists h', remove_lost h lvl prior lost = Ret (h', None) /\ handler_ok h' /\ same_spaces h h'.
Proof.
  revert h s. induction lost as [|p lost IH]; intros h s Hh Hs El; [by exists h|].
  destruct (remove_lost_step h lvl prior s p (lost ++ rest) lost Hh Hs El) as (h1 & s1 & -> & Hh1 & S1 & Hs1 & El1).
  destruct (IH h1 s1 Hh1 Hs1 El1) as (h2 & E2 & Hh2 & S2). exists h2. split_and!; [done|done|]. intros k. by rewrite (S2 k).
Qed.

Lemma detectLostPackets_ok h now lvl prior :
  handler_ok h -> is_Some (get_space h lvl) ->
  exists h' lost, detectLostPackets h now lvl prior = Ret (h', lost, None) /\ handler_ok h' /\ same_spaces h h'.
Proof.
  intros Hh [s Hs]. unfold detectLostPackets.
  set (h1 := if is_1rtt lvl then _ else h).
  assert (G1 : forall l, get_space h1 l = get_space h l) by (intros; unfold h1; by destruct (is_1rtt lvl)).
  assert (Hh1 : handler_ok h1). { apply (handler_ok_frame h h1 Hh G1); unfold h1; destruct (is_1rtt lvl); by try apply Hh. }
  clearbody h1. rewrite <- G1 in Hs. rewrite (space_of_get h1 lvl s Hs). cbn [mbind outcome_bind].
  destruct (find_lost_prefix lvl _ _ now (loss_delay h1) (ps_largestAcked s) (hd_lossTime h1) (packets s)
    (so_packets _ _ _ (ho_spaces h1 Hh1 lvl s Hs))) as [rest El].
  fold (packets s). destruct (find_lost _ _ _ _ _ _) as [lossTime lost]. cbn [snd] in El.
  destruct (remove_lost_ok lost rest (h1 <| hd_lossTime := lossTime |>) lvl prior s) as (h2 & -> & Hh2 & S2).
  - by apply (handler_ok_frame h1); try apply Hh1.
  - exact Hs.
  - exact El.
  - cbn [mbind outcome_bind]. exists h2, lost. split_and!; [done|done|]. intros k. rewrite (S2 k). by rewrite <- (G1 k).
Qed.

Lemma congestion_event_ok h prior t acked lost :
  handler_ok h -> acked = [] \/ lost = [] -> exists c, congestion_event h prior t acked lost = Ret (h <| hd_congestion := c |>) /\
    handler_ok (h <| hd_congestion := c |>).
Proof.
  intros Hh Hone. unfold congestion_event. destruct cc_OnCongestionEvent as [event|] eqn:Ev.
  - destruct (cc_event_ok event (hd_congestion h) (hd_bytesInFlight h) (hd_rttStats h) prior t acked lost Ev Hone)
      as (c & -> & Hc); [apply Hh|rewrite (ho_flight h Hh); apply uint64_range|apply Hh|].
    exists c. split; [done|]. by apply (handler_ok_frame h); try apply Hh.
  - exists (hd_congestion h). replace (h <| hd_congestion := hd_congestion h |>) with h by by destruct h. by split.
Qed.

(** Fields the invariant does not mention. *)
Lemma updateLossDetectionAlarm_ok h :
  handler_ok h -> handler_ok (updateLossDetectionAlarm h) /\ same_spaces h (updateLossDetectionAlarm h).
Proof.
  intros Hh. unfold updateLossDetectionAlarm.
  destruct (negb _); [|destruct (hasOutstandingCryptoPackets h); [|destruct (negb _)]];
    (split; [by apply (handler_ok_frame h); try apply Hh|done]).
Qed.

Lemma process_ack_ok h acked lvl t :
  handler_ok h -> is_Some (get_space h lvl) -> (forall p, p ∈ acked -> sp_EncryptionLevel p = lvl) ->
  exists h', process_ack h acked lvl t = Ret (h', None) /\ handler_ok h' /\ same_spaces h h'.
Proof.
  intros Hh Hs Hl. unfold process_ack.
  destruct (ack_packets_ok lvl t (hd_bytesInFlight h) acked h Hh Hs Hl) as (h1 & ev & -> & Hh1 & S1 & _).
  cbn [mbind outcome_bind].
  destruct (detectLostPackets_ok h1 t lvl (hd_bytesInFlight h) Hh1) as (h2 & lost & -> & Hh2 & S2); [by apply S1|].
  cbn [mbind outcome_bind].
  destruct (congestion_event_ok h2 (hd_bytesInFlight h) t ev [] Hh2 (or_intror eq_refl)) as (c & -> & Hh3). cbn [mbind outcome_bind].
  match goal with |- context [updateLossDetectionAlarm ?x] => destruct (updateLossDetectionAlarm_ok x) as [Hh4 S4] end.
  { by apply (handler_ok_frame _ _ Hh3); try apply Hh3. }
  eexists. split; [reflexivity|]. split; [exact Hh4|]. intros k. rewrite (S4 k). rewrite <- (S1 k), <- (S2 k). done.
Qed.

Lemma UpdateRTT_int64 r d a : is_int64 d -> is_int64 (minRTT r) -> is_int64 (minRTT (UpdateRTT r d a)).
Proof.
  intros Hd Hr. unfold UpdateRTT. case_if; [done|]. set (r1 := if (minRTT r =? 0) || _ then _ else r).
  assert (Hr1 : is_int64 (minRTT r1)) by (unfold r1; destruct ((minRTT r =? 0) || _); [exact Hd|exact Hr]).
  clearbody r1. cbv zeta. destruct (smoothedRTT _ =? 0); exact Hr1.
Qed.

Lemma update_rtt_ok h s f hi lvl t :
  handler_ok h -> handler_ok (update_rtt h s f hi lvl t) /\ forall l, get_space (update_rtt h s f hi lvl t) l = get_space h l.
Proof.
  intros Hh. unfold update_rtt. destruct (GetPacket _ _) as [p|]; [|done]. split; [|done].
  apply (handler_ok_frame h); try done.
  - apply cc_exit_ok, Hh.
  - apply UpdateRTT_int64; [apply Sub_range|apply Hh].
Qed.

(** The error [ReceivedAck] returns. *)
Definition ack_error (s : packetNumberSpace) (f : AckFrame) (hi : PacketNumber) : option goerr :=
  if ps_largestSent s <? hi then Some errUnsentPacket
  else if existsb (acks (AckRanges f)) (pg_history (ps_pns s)) then Some errSkippedPacket
  else None.

Lemma Validate_eq g f : ranges_wf (AckRanges f) -> Validate g f = Ret (negb (existsb (acks (AckRanges f)) (pg_history g))).
Proof.
  intros Hwf. destruct f as [l d]. destruct (validate_loop_spec l d (pg_history g) Hwf) as (b & E & Hb).
  unfold Validate. rewrite E. f_equal. apply eq_true_iff_eq. rewrite Hb, negb_true_iff, <- not_true_iff_false, existsb_exists.
  split.
  - intros Hn (pn & Hin & Ha). apply list_elem_of_In in Hin. by apply (Hn pn Hin), acks_acked_in.
  - intros Hn pn Hin Ha. apply Hn. exists pn. split; [by apply list_elem_of_In|by apply acks_acked_in].
Qed.

Lemma ReceivedAck_ok h f lvl t s :
  handler_ok h -> get_space h lvl = Some s -> ranges_wf (AckRanges f) ->
  exists h' hi, LargestAcked f = Ret hi /\ handler_ReceivedAck h f lvl t = Ret (h', ack_error s f hi) /\
    handler_ok h' /\ same_spaces h h'.
Proof.
  intros Hh Hs Hwf. unfold handler_ReceivedAck. rewrite (space_of_get h lvl s Hs). cbn [mbind outcome_bind].
  destruct (newly_acked_ok f (packets s) Hwf (hk_sorted _ (so_history _ _ _ (ho_spaces h Hh lvl s Hs))))
    as (lo & hi & Elo & Ehi & Enew).
  rewrite Ehi. cbn [mbind outcome_bind].
  match goal with |- exists _ _, _ /\ ?m = _ /\ _ => enough (Hm : exists h', m = Ret (h', ack_error s f hi) /\ handler_ok h' /\ same_spaces h h') end.
  { destruct Hm as (h' & ? & ? & ?). by exists h', hi. }
  unfold ack_error. destruct (_ <? hi); [by exists h|].
  cbv zeta. rewrite Validate_eq by done. cbn [mbind outcome_bind].
  set (s1 := s <| ps_largestAcked := _ |>). set (h1 := set_space h lvl s1).
  assert (G1 : forall l, get_space h1 l = if decide (l = lvl) then Some s1 else get_space h l).
  { intros l. apply get_set_space. by eapply get_level. }
  assert (Hh1 : handler_ok h1).
  { apply (handler_ok_update h h1 lvl s s1 Hh Hs G1); unfold h1; try (by destruct lvl).
    - change (packets s1) with (packets s). rewrite Z.sub_diag, Z.add_0_r.
      transitivity (hd_bytesInFlight h); [by destruct lvl|]. rewrite (ho_flight h Hh). unfold uint64. by rewrite Zmod_mod.
    - destruct lvl; apply Hh.
    - destruct lvl; apply Hh.
    - by destruct (ho_spaces h Hh lvl s Hs). }
  change (pg_history (ps_pns s1)) with (pg_history (ps_pns s)).
  pose proof (same_spaces_update h h1 lvl s s1 Hs G1) as S1.
  destruct (existsb _ _); cbn [negb]; [by exists h1|].
  destruct (update_rtt_ok h1 s1 f hi lvl t Hh1) as [Hh2 G2].
  set (h2 := update_rtt h1 s1 f hi lvl t) in *. clearbody h2.
  assert (Hs2 : get_space h2 lvl = Some s1) by (rewrite G2, G1; by rewrite decide_True).
  assert (S2 : same_spaces h h2) by (intros k; rewrite (G2 k); apply S1).
  unfold determineNewlyAckedPackets. rewrite (space_of_get h2 lvl s1 Hs2). cbn [mbind outcome_bind].
  rewrite Elo, Ehi. cbn [mbind outcome_bind]. unfold packets in Enew. change (ps_history s1) with (ps_history s). rewrite Enew.
  cbn [mbind outcome_bind]. set (acked := List.filter _ _).
  assert (Hl : forall p, p ∈ acked -> sp_EncryptionLevel p = lvl).
  { intros p Hp. apply list_elem_of_In, List.filter_In in Hp as [Hp _]. apply list_elem_of_In in Hp.
    by eapply pk_level; [apply (ho_spaces h Hh lvl s Hs)|]. }
  destruct acked as [|p acked]; [by exists h2|].
  destruct (process_ack_ok h2 (p :: acked) lvl t Hh2) as (h3 & E3 & Hh3 & S3); [by eexists|done|].
  exists h3. split_and!; [exact E3|done|]. intros k. by rewrite (S3 k).
Qed.

(** *** The alarm *)

Lemma outstanding_crypto_spaces h : handler_ok h -> hasOutstandingCryptoPackets h = true -> is_Some (hd_initialPackets h).
Proof.
  intros Hh. unfold hasOutstandingCryptoPackets. rewrite orb_true_iff. intros [Hi|Hi].
  - by destruct (hd_initialPackets h).
  - apply (ho_crypto h Hh). by destruct (hd_handshakePackets h).
Qed.

Lemma OnAlarm_ok h now now' :
  handler_ok h -> exists h', OnAlarm h now now' = Ret (h', None) /\ handler_ok h' /\ same_spaces h h'.
Proof.
  intros Hh. unfold OnAlarm.
  match goal with |- context [and_then ?m _] => assert (Hm : exists h', m = Ret (h', None) /\ handler_ok h' /\ same_spaces h h') end.
  { destruct (hasOutstandingPackets h); [|by exists h]. unfold onVerifiedAlarm.
    destruct (hasOutstandingCryptoPackets h) eqn:Ec; [|destruct (negb _)].
    - destruct (queueCryptoPacketsForRetransmission_ok (h <| hd_cryptoCount := uint32 (hd_cryptoCount h + 1) |>)) as (h1 & E1 & Hh1 & S1).
      + by apply (handler_ok_frame h); try apply Hh.
      + exact (outstanding_crypto_spaces h Hh Ec).
      + exists h1. split_and!; [done|done|]. intros k. by rewrite (S1 k).
    - destruct (detectLostPackets_ok h now Encryption1RTT (hd_bytesInFlight h) Hh) as (h1 & lost & -> & Hh1 & S1); [by eexists|].
      cbn [mbind outcome_bind]. destruct lost as [|p lost]; [by exists h1|].
      destruct (congestion_event_ok h1 (hd_bytesInFlight h) now' [] (map ToPacket (p :: lost)) Hh1 (or_introl eq_refl)) as (c & -> & Hh2).
      cbn [mbind outcome_bind]. by eexists.
    - eexists. split; [reflexivity|]. split; [|done]. by apply (handler_ok_frame h); try apply Hh. }
  destruct Hm as (h1 & -> & Hh1 & S1). cbn [and_then mbind outcome_bind].
  destruct (updateLossDetectionAlarm_ok h1 Hh1) as [Hh2 S2]. eexists. split; [reflexivity|]. split; [done|].
  intros k. by rewrite (S2 k).
Qed.

(** *** Sending *)

(** The packets given to the packer: not sent before, and with valid ACKs. *)
Definition new_packet (p : SentPacket) : Prop :=
  sp_retransmittedAs p = [] /\ sp_isRetransmission p = false /\ 0 <= sp_Length p /\
  match sp_Ack p with Some a => AckRanges a <> [] | None => True end.

(** [p'] is [p] as [sentPacketImpl] leaves it, if it is ack-eliciting. *)
Definition stamps (p p' : SentPacket) : Prop :=
  sp_PacketNumber p' = sp_PacketNumber p /\ sp_EncryptionLevel p' = sp_EncryptionLevel p /\
  sp_SendTime p' = sp_SendTime p /\ sp_Length p' = sp_Length p /\ sp_retransmittedAs p' = sp_retransmittedAs p /\
  sp_isRetransmission p' = sp_isRetransmission p /\
  (0 < length (sp_Frames p) -> sp_includedInBytesInFlight p' = true /\ sp_canBeRetransmitted p' = true)%nat.

(** The state after sending packets of [n] bytes that are in flight, [m] in all. *)
Record sends (h h' : handler) (lvl : EncryptionLevel) (s : packetNumberSpace) (n m : Z) (last : time) : Prop := {
  sn_spaces : exists k, forall l,
    get_space h' l = if decide (l = lvl) then Some (s <| ps_largestSent := k |>) else get_space h l;
  sn_queue : hd_retransmissionQueue h' = hd_retransmissionQueue h;
  sn_bytes : hd_bytesInFlight h' = uint64 (hd_bytesInFlight h + n);
  sn_last : hd_lastSentAckElicitingPacketTime h' = last;
  sn_rtt : hd_rttStats h' = hd_rttStats h;
  sn_ok : cc_ok (hd_congestion h');
  sn_sent : cc_sent (hd_congestion h') <= cc_sent (hd_congestion h) + m
}.

Definition ack_eliciting (p : SentPacket) : bool := (0 <? length (sp_Frames p))%nat.

Lemma sentPacketImpl_ok h p lvl s :
  get_space h lvl = Some s -> sp_EncryptionLevel p = lvl -> new_packet p -> is_uint64 (hd_bytesInFlight h) ->
  cc_ok (hd_congestion h) -> cc_sent (hd_congestion h) + sp_Length p < 2 ^ 63 ->
  exists h' p', sentPacketImpl h p = Ret (h', p', ack_eliciting p) /\ stamps p p' /\
    sends h h' lvl s (if ack_eliciting p then sp_Length p else 0) (sp_Length p)
      (if ack_eliciting p then sp_SendTime p else hd_lastSentAckElicitingPacketTime h).
Proof.
  intros Hs Hl (Hra & Hre & Hlen & Hack) Hb Hcc Hsent. unfold sentPacketImpl. rewrite Hl, (space_of_get h lvl s Hs).
  cbn [mbind outcome_bind].
  match goal with |- context [mbind _ ?m] => assert (Hm : exists la, m = Ret la) end.
  { destruct (sp_Ack p) as [[[|r rs] d]|]; [done|by eexists..]. }
  destruct Hm as [la ->]. cbn [mbind outcome_bind]. cbv zeta.
  set (p1 := p <| sp_largestAcked := la |> <| sp_Ack := None |>).
  change (0 <? length (sp_Frames p1))%nat with (ack_eliciting p).
  set (p2 := if ack_eliciting p then _ else p1). set (h1 := set_space h lvl _).
  match goal with |- context [cc_OnPacketSent (hd_congestion ?x)] => set (h2 := x) end.
  assert (E2 : (exists k, forall l, get_space h2 l = if decide (l = lvl) then Some (s <| ps_largestSent := k |>) else get_space h l) /\
    hd_retransmissionQueue h2 = hd_retransmissionQueue h /\
    hd_bytesInFlight h2 = uint64 (hd_bytesInFlight h + (if ack_eliciting p then sp_Length p else 0)) /\
    hd_lastSentAckElicitingPacketTime h2 = (if ack_eliciting p then sp_SendTime p else hd_lastSentAckElicitingPacketTime h) /\
    hd_rttStats h2 = hd_rttStats h /\ hd_congestion h2 = hd_congestion h).
  { assert (G1 : forall l, get_space h1 l = if decide (l = lvl) then Some (s <| ps_largestSent := sp_PacketNumber p |>) else get_space h l).
    { intros l. apply get_set_space. by eapply get_level. }
    assert (F1 : hd_retransmissionQueue h1 = hd_retransmissionQueue h /\ hd_bytesInFlight h1 = hd_bytesInFlight h /\
      hd_lastSentAckElicitingPacketTime h1 = hd_lastSentAckElicitingPacketTime h /\ hd_rttStats h1 = hd_rttStats h /\
      hd_congestion h1 = hd_congestion h) by (unfold h1; by destruct lvl).
    clearbody h1. destruct F1 as (F1 & F2 & F3 & F4 & F5). unfold h2, p2, count_packet. destruct (ack_eliciting p).
    - split; [exists (sp_PacketNumber p)|]; destruct (negb _); cbn; destruct (0 <? _); cbn; rewrite ?F1, ?F2, ?F4, ?F5; done.
    - split; [by exists (sp_PacketNumber p)|]. rewrite Z.add_0_r, uint64_id by done. done. }
  clearbody h2. destruct E2 as (G2 & F1 & F2 & F3 & F4 & F5).
  eexists _, p2. split; [reflexivity|]. split.
  - unfold p2, stamps, ack_eliciting. destruct (Nat.ltb_spec 0 (length (sp_Frames p))); split_and!; try done. lia.
  - rewrite F5. assert (Et : sp_SendTime p2 = sp_SendTime p /\ sp_Length p2 = sp_Length p) by (unfold p2; by destruct (ack_eliciting p)).
    destruct Et as [Et El]. rewrite El.
    destruct (cc_sent_ok (hd_congestion h) (sp_SendTime p2) (hd_bytesInFlight h2) (sp_PacketNumber p2) (sp_Length p) (ack_eliciting p) Hcc Hlen Hsent)
      as [Hok Hle].
    by split.
Qed.

Definition sizes (l : list SentPacket) : Z := sumZ sp_Length l.
Definition last_time (t : time) (l : list SentPacket) : time := default t (sp_SendTime <$> last l).

Lemma last_time_cons t p l : last_time t (p :: l) = last_time (sp_SendTime p) l.
Proof. unfold last_time. by destruct l as [|q l]; [|rewrite last_cons_cons; destruct (last (q :: l)) eqn:E; [|by apply last_None in E]]. Qed.

Lemma sent_all_ok lvl ps h s :
  get_space h lvl = Some s -> (forall p, p ∈ ps -> sp_EncryptionLevel p = lvl /\ new_packet p /\ ack_eliciting p = true) ->
  is_uint64 (hd_bytesInFlight h) -> cc_ok (hd_congestion h) -> cc_sent (hd_congestion h) + sizes ps < 2 ^ 63 ->
  exists h' ps', sent_all h ps = Ret (h', ps') /\ Forall2 stamps ps ps' /\
    sends h h' lvl s (sizes ps) (sizes ps) (last_time (hd_lastSentAckElicitingPacketTime h) ps).
Proof.
  revert h s. induction ps as [|p ps IH]; intros h s Hs Hps Hb Hcc Hsent.
  { exists h, []. split_and!; [done|constructor|]. split; try (done || lia).
    - exists (ps_largestSent s). intros l. case_decide as D; [|done]. subst. rewrite Hs. by destruct s.
    - by rewrite Z.add_0_r, uint64_id.
    - change (sizes []) with 0. lia. }
  destruct (Hps p (list_elem_of_here p ps)) as (Hl & Hn & He).
  assert (Hsz : sizes (p :: ps) = sp_Length p + sizes ps) by done.
  assert (0 <= sizes ps).
  { apply sumZ_nonneg. intros q Hq. by destruct (Hps q (list_elem_of_further _ p ps Hq)) as (_ & (_ & _ & ? & _) & _). }
  destruct (sentPacketImpl_ok h p lvl s Hs Hl Hn Hb Hcc ltac:(lia)) as (h1 & p1 & E1 & St1 & [[k G1] Q1 B1 L1 R1 C1 N1]).
  cbn [sent_all]. rewrite E1, He in *. cbn [mbind outcome_bind].
  destruct (IH h1 (s <| ps_largestSent := k |>)) as (h2 & ps2 & E2 & St2 & [[k2 G2] Q2 B2 L2 R2 C2 N2]).
  - rewrite G1. by rewrite decide_True.
  - intros q Hq. apply Hps. by right.
  - rewrite B1. apply uint64_range.
  - done.
  - lia.
  - rewrite E2. cbn [mbind outcome_bind]. exists h2, (p1 :: ps2). split_and!; [done|by constructor|].
    split; [exists k2|..]; try congruence; try lia.
    + intros l. rewrite G2, G1. by case_decide.
    + rewrite B2, B1, uint64_add_idem. f_equal. lia.
    + by rewrite last_time_cons, L2, L1.
Qed.

(** The generator only moves on. *)
Lemma pack_ok h lvl s num p :
  get_space h lvl = Some s -> generator_ok (ps_pns s) -> next_number s < 2 ^ 61 -> is_uint16 num ->
  exists g', let s' := s <| ps_pns := g' |> in
    pack h lvl num p = Ret (set_space h lvl s', p <| sp_PacketNumber := next_number s |> <| sp_EncryptionLevel := lvl |>) /\
    generator_ok g' /\ next_number s < next_number s' <= next_number s + 2.
Proof.
  intros Hs (Hn & Ha & Hk) Hmax Hnum. unfold pack, PopPacketNumber. rewrite (space_of_get h lvl s Hs). cbn [mbind outcome_bind].
  destruct (generator_Pop_cases (ps_pns s) num Hnum ltac:(unfold next_number in *; lia) Ha Hk) as (E1 & E2 & E3 & E4).
  destruct (generator_Pop (ps_pns s) num) as [g' pn]. cbn [fst snd] in *. exists g'. cbv zeta. cbn [mbind outcome_bind mret outcome_ret].
  rewrite E1. split; [done|]. unfold generator_ok, next_number in *. cbn. rewrite E2. lia.
Qed.

Definition packed (lvl : EncryptionLevel) (np : Z * SentPacket) (p' : SentPacket) : Prop :=
  p' = np.2 <| sp_PacketNumber := sp_PacketNumber p' |> <| sp_EncryptionLevel := lvl |>.

Lemma pack_all_ok lvl l h s :
  get_space h lvl = Some s -> generator_ok (ps_pns s) -> next_number s + 2 * Z.of_nat (length l) < 2 ^ 61 ->
  Forall (fun np => is_uint16 np.1) l ->
  exists h' g' ps, let s' := s <| ps_pns := g' |> in
    pack_all h lvl l = Ret (h', ps) /\ Forall2 (packed lvl) l ps /\
    (forall k, get_space h' k = if decide (k = lvl) then Some s' else get_space h k) /\
    generator_ok g' /\ next_number s <= next_number s' /\ StronglySorted Z.lt (numbers ps) /\
    (forall p, p ∈ ps -> next_number s <= sp_PacketNumber p < next_number s') /\
    hd_retransmissionQueue h' = hd_retransmissionQueue h /\ hd_bytesInFlight h' = hd_bytesInFlight h /\
    hd_lastSentAckElicitingPacketTime h' = hd_lastSentAckElicitingPacketTime h /\
    hd_rttStats h' = hd_rttStats h /\ hd_congestion h' = hd_congestion h.
Proof.
  revert h s. induction l as [|[num p] l IH]; intros h s Hs Hg Hmax Hnum.
  { exists h, (ps_pns s), []. cbv zeta. replace (s <| ps_pns := ps_pns s |>) with s by by destruct s. split_and!; try done.
    - intros k. case_decide as D; [|done]. by subst.
    - constructor.
    - set_solver. }
  inversion_clear Hnum as [|? ? Hnum1 Hnum2]. cbn [length] in Hmax. cbn [pack_all].
  destruct (pack_ok h lvl s num p Hs Hg ltac:(lia) Hnum1) as (g1 & -> & Hg1 & Hn1). cbn [mbind outcome_bind].
  set (s1 := s <| ps_pns := g1 |>) in *. set (h1 := set_space h lvl s1).
  assert (G1 : forall k, get_space h1 k = if decide (k = lvl) then Some s1 else get_space h k).
  { intros k. apply get_set_space. by eapply get_level. }
  destruct (IH h1 s1) as (h2 & g2 & ps & -> & Hp & G2 & Hg2 & Hn2 & Hso & Hb & F1 & F2 & F3 & F4 & F5); try done.
  { rewrite G1. by rewrite decide_True. }
  { lia. }
  cbn [mbind outcome_bind].
  assert (E2 : next_number (s1 <| ps_pns := g2 |>) = next_number (s <| ps_pns := g2 |>)) by done. rewrite E2 in Hn2, Hb.
  exists h2, g2, (p <| sp_PacketNumber := next_number s |> <| sp_EncryptionLevel := lvl |> :: ps). cbv zeta. split_and!; try done.
  - by constructor.
  - intros k. rewrite G2, G1. by case_decide.
  - lia.
  - cbn. constructor; [done|]. apply Forall_forall. intros n (q & -> & Hq)%list_elem_of_fmap. specialize (Hb q Hq). lia.
  - intros q [->|Hq]%elem_of_cons; [cbn; lia|]. specialize (Hb q Hq). lia.
  - rewrite F1. unfold h1. by destruct lvl.
  - rewrite F2. unfold h1. by destruct lvl.
  - rewrite F3. unfold h1. by destruct lvl.
  - rewrite F4. unfold h1. by destruct lvl.
  - rewrite F5. unfold h1. by destruct lvl.
Qed.

(** A space whose history grows keeps the invariant, if the packet [n] that is
    retransmitted has left the queue. *)
Lemma handler_ok_grow h h' lvl s s' n new :
  handler_ok h -> get_space h lvl = Some s ->
  (forall l, get_space h' l = if decide (l = lvl) then Some s' else get_space h l) ->
  generator_ok (ps_pns s') -> next_number s <= next_number s' ->
  hd_lastSentAckElicitingPacketTime h <= hd_lastSentAckElicitingPacketTime h' ->
  history_grows lvl (next_number s) (next_number s') (hd_lastSentAckElicitingPacketTime h') (ps_history s) new n (ps_history s') ->
  hd_retransmissionQueue h' = hd_retransmissionQueue h ->
  (forall p, p ∈ hd_retransmissionQueue h -> sp_EncryptionLevel p = lvl -> n <> Some (sp_PacketNumber p)) ->
  hd_bytesInFlight h' = uint64 (hd_bytesInFlight h + flight new) ->
  cc_ok (hd_congestion h') -> hd_rttStats h' = hd_rttStats h -> handler_ok h'.
Proof.
  intros Hh Hs Hg Hge Hn Hl (Hx & Hk & Hf & Hq) Eq Hout Eb Hcc Er. split; rewrite ?Eq.
  - intros l s0. rewrite Hg. case_decide as D; [subst; by intros [= <-]|]. intros Hs0.
    destruct (ho_spaces h Hh l s0 Hs0) as [H1 H2 H3]. split; [done| |done]. by eapply packets_ok_later; [| |].
  - pose proof (same_spaces_update h h' lvl s s' Hs Hg) as S. rewrite (S EncryptionInitial), (S EncryptionHandshake). apply Hh.
  - apply Hh.
  - intros p Hp. destruct (ho_queue h Hh p Hp) as (s0 & Hs0 & Hlt & Hqs). unfold queued_ok. rewrite Hg. case_decide as D.
    2: { by exists s0. }
    rewrite D, Hs in Hs0. injection Hs0 as <-. exists s'. split_and!; [done|lia|]. intros q Hqi En.
    destruct (Hq q Hqi) as [?|[E|?]]; [lia| |by apply Hqs]. destruct (Hout p Hp D). congruence.
  - rewrite Eb, (ho_flight h Hh), (tracked_flight_update h h' lvl s s' Hs Hg), uint64_add_idem. f_equal.
    unfold packets. lia.
  - done.
  - rewrite Er. apply Hh.
Qed.

Lemma sorted_mono {A} (f g : A -> Z) l p q :
  StronglySorted Z.lt (map f l) -> StronglySorted Z.le (map g l) -> p ∈ l -> q ∈ l -> f p < f q -> g p <= g q.
Proof.
  induction l as [|a l IH]; [set_solver|]. cbn. intros Hf Hg. inversion_clear Hf as [|? ? Hf1 Hf2].
  inversion_clear Hg as [|? ? Hg1 Hg2]. rewrite Forall_forall in Hf2, Hg2.
  intros [->|Hp]%elem_of_cons [->|Hq]%elem_of_cons Hlt; [lia|by apply Hg2, list_elem_of_fmap_2| |by apply IH].
  assert (f a < f p) by (by apply Hf2, list_elem_of_fmap_2). lia.
Qed.

Lemma last_time_bound t l :
  StronglySorted Z.le (t :: map sp_SendTime l) ->
  t <= last_time t l /\ forall p, p ∈ l -> t <= sp_SendTime p <= last_time t l.
Proof.
  revert t. induction l as [|p l IH]; intros t Hs; [split; [done|set_solver]|]. rewrite last_time_cons.
  inversion_clear Hs as [|? ? Hs1 Hf]. destruct (IH (sp_SendTime p) Hs1) as [H1 H2].
  rewrite Forall_forall in Hf. assert (t <= sp_SendTime p) by (apply Hf; set_solver). split; [lia|].
  intros q [->|Hq]%elem_of_cons; [lia|]. specialize (H2 q Hq). lia.
Qed.

(** The packets [l], with random numbers for their packet numbers, can be sent
    at the level [lvl]. *)
Record sendable (h : handler) (lvl : EncryptionLevel) (l : list (Z * SentPacket)) : Prop := {
  sd_random : Forall (fun np => is_uint16 np.1) l;
  sd_new : forall p, p ∈ map snd l -> new_packet p;
  sd_times : StronglySorted Z.le (hd_lastSentAckElicitingPacketTime h :: map sp_SendTime (map snd l));
  sd_bytes : cc_sent (hd_congestion h) + sizes (map snd l) < 2 ^ 63;
  sd_numbers : forall s, get_space h lvl = Some s -> next_number s + 2 * Z.of_nat (length l) < 2 ^ 61
}.

(** Packets as they are packed, and as they are sent. *)
Lemma packed_same lvl l ps :
  Forall2 (packed lvl) l ps -> map sp_SendTime ps = map sp_SendTime (map snd l) /\ sizes ps = sizes (map snd l) /\
    forall p, p ∈ ps -> sp_EncryptionLevel p = lvl /\ exists p0, p0 ∈ map snd l /\
      (new_packet p0 -> new_packet p) /\ ack_eliciting p = ack_eliciting p0.
Proof.
  unfold sizes. induction 1 as [|[num p] p' l ps Hp _ (E1 & E2 & E3)].
  { split_and!; [done|done|]. intros p Hp. by apply elem_of_nil in Hp. }
  cbn. rewrite E1. unfold packed in Hp. cbn in Hp.
  split_and!.
  - f_equal. by rewrite Hp.
  - f_equal; [by rewrite Hp|exact E2].
  - intros q [->|Hq]%elem_of_cons.
    + split; [by rewrite Hp|]. exists p. split; [by left|]. rewrite Hp. done.
    + destruct (E3 q Hq) as (? & p0 & ? & ?). split; [done|]. exists p0. split; [by right|done].
Qed.

Lemma stamps_sent lvl next next' last ps ps' :
  Forall2 stamps ps ps' -> StronglySorted Z.lt (numbers ps) -> (forall p, p ∈ ps -> next <= sp_PacketNumber p < next') ->
  (forall p, p ∈ ps -> sp_EncryptionLevel p = lvl /\ new_packet p /\ ack_eliciting p = true) ->
  StronglySorted Z.le (last :: map sp_SendTime ps) ->
  sent_ok lvl next next' last (last_time last ps) ps' /\ flight ps' = sizes ps /\
  forall p, p ∈ ps' -> sp_isRetransmission p = false.
Proof.
  intros Hst Hso Hn Hp Ht. destruct (last_time_bound _ _ Ht) as [_ Hlast].
  assert (E : numbers ps' = numbers ps /\ map sp_SendTime ps' = map sp_SendTime ps /\
    (flight ps' = sizes ps) /\ forall p', p' ∈ ps' -> exists p, p ∈ ps /\ stamps p p').
  { clear -Hst Hp. revert Hp. unfold numbers, sizes. induction Hst as [|p p' l l' Hs _ IH]; intros Hp; [split_and!; try done; set_solver|].
    destruct IH as (E1 & E2 & E3 & E4); [intros q Hq; apply Hp; by right|]. cbn. rewrite E1, E2, flight_cons, E3.
    destruct (Hp p (list_elem_of_here p l)) as (_ & _ & He). unfold ack_eliciting in He. apply Nat.ltb_lt in He.
    pose proof Hs as (F1 & F2 & F3 & F4 & F5 & F6 & F7). destruct (F7 He) as [F8 F9]. split_and!; [by rewrite F1|by rewrite F3| |].
    - unfold in_flight. by rewrite F8, F4.
    - intros q [->|Hq]%elem_of_cons; [exists p; set_solver|]. destruct (E4 q Hq) as (q0 & ? & ?). exists q0. set_solver. }
  destruct E as (E1 & E2 & E3 & E4).
  assert (Old : forall p', p' ∈ ps' -> exists p, p ∈ ps /\ stamps p p' /\ new_packet p /\ sp_EncryptionLevel p = lvl /\
    sp_includedInBytesInFlight p' = true /\ sp_canBeRetransmitted p' = true).
  { intros p' (p & Hi & Hs)%E4. destruct (Hp p Hi) as (? & ? & He). exists p. split_and!; try done; apply Hs; by apply Nat.ltb_lt. }
  split_and!; [split|done|].
  - by rewrite E1.
  - intros p' (p & Hi & (F1 & F2 & _) & _ & ? & _)%Old. congruence.
  - intros p' (p & _ & _ & _ & _ & ? & _)%Old. done.
  - intros p' (p & Hi & (F1 & _) & _)%Old. rewrite F1. auto.
  - intros p' (p & Hi & (_ & _ & F3 & _) & _)%Old. rewrite F3. auto.
  - assert (H1 : StronglySorted Z.lt (numbers ps')) by by rewrite E1.
    assert (H2 : StronglySorted Z.le (map sp_SendTime ps')) by (rewrite E2; by inversion_clear Ht).
    intros p q Hpi Hqi. exact (sorted_mono _ _ ps' p q H1 H2 Hpi Hqi).
  - intros p' (p & _ & _ & _ & _ & _ & ?)%Old. done.
  - intros p' (p & _ & (_ & _ & _ & _ & F5 & _) & (? & _) & _)%Old. congruence.
  - intros p' (p & _ & (_ & _ & _ & _ & _ & F6 & _) & (_ & ? & _) & _)%Old. congruence.
Qed.

Lemma bytes_uint64 h : handler_ok h -> is_uint64 (hd_bytesInFlight h).
Proof. intros Hh. rewrite (ho_flight h Hh). apply uint64_range. Qed.

(** The state [h'] after the packets [ps] were packed and sent from [h], before
    they enter the history. *)
Lemma packed_and_sent h lvl s l :
  handler_ok h -> get_space h lvl = Some s -> sendable h lvl l -> (forall p, p ∈ map snd l -> ack_eliciting p = true) ->
  exists h1 h2 ps ps' s2, pack_all h lvl l = Ret (h1, ps) /\ sent_all h1 ps = Ret (h2, ps') /\ length ps' = length l /\
    get_space h2 lvl = Some s2 /\ (forall k, k <> lvl -> get_space h2 k = get_space h k) /\ ps_history s2 = ps_history s /\
    generator_ok (ps_pns s2) /\ next_number s <= next_number s2 /\
    sent_ok lvl (next_number s) (next_number s2) (hd_lastSentAckElicitingPacketTime h) (hd_lastSentAckElicitingPacketTime h2) ps' /\
    (forall p, p ∈ ps' -> sp_isRetransmission p = false) /\
    hd_lastSentAckElicitingPacketTime h <= hd_lastSentAckElicitingPacketTime h2 /\
    hd_retransmissionQueue h2 = hd_retransmissionQueue h /\ hd_bytesInFlight h2 = uint64 (hd_bytesInFlight h + flight ps') /\
    cc_ok (hd_congestion h2) /\ hd_rttStats h2 = hd_rttStats h.
Proof.
  intros Hh Hs [Hr Hn Ht Hb Hnum] He.
  destruct (pack_all_ok lvl l h s Hs (so_generator _ _ _ (ho_spaces h Hh lvl s Hs)) (Hnum s Hs) Hr)
    as (h1 & g & ps & E1 & Hp & G1 & Hg & Hnx & Hso & Hrange & F1 & F2 & F3 & F4 & F5).
  destruct (packed_same lvl l ps Hp) as (Et & Esz & Hold).
  assert (Hps : forall p, p ∈ ps -> sp_EncryptionLevel p = lvl /\ new_packet p /\ ack_eliciting p = true).
  { intros p Hpi. destruct (Hold p Hpi) as (? & p0 & Hp0 & Hnew & Hel). split_and!; [done|auto|]. rewrite Hel. auto. }
  destruct (sent_all_ok lvl ps h1 (s <| ps_pns := g |>)) as (h2 & ps' & E2 & Hst & [[k G2] Q2 B2 L2 R2 C2 _]); try done.
  { rewrite G1. by rewrite decide_True. }
  { rewrite F2. by apply bytes_uint64. }
  { rewrite F5. apply Hh. }
  { by rewrite F5, Esz. }
  rewrite F3 in L2. rewrite <- Et in Ht.
  destruct (stamps_sent lvl _ _ _ ps ps' Hst Hso Hrange Hps Ht) as (Hsent & Hfl & Hre).
  exists h1, h2, ps, ps', (s <| ps_pns := g |> <| ps_largestSent := k |>). split_and!; try done.
  - by rewrite <- (Forall2_length _ _ _ Hst), <- (Forall2_length _ _ _ Hp).
  - rewrite G2. by rewrite decide_True.
  - intros j Hj. rewrite G2, G1. by rewrite !decide_False.
  - by rewrite L2.
  - rewrite L2. apply (proj1 (last_time_bound _ _ Ht)).
  - congruence.
  - by rewrite B2, F2, Hfl.
  - congruence.
Qed.

(** Sending the packets [l] as retransmissions of [q], which has left the queue. *)
Lemma resend_ok h q l :
  handler_ok h -> queued_ok h q -> key q ∉ map key (hd_retransmissionQueue h) -> l <> [] ->
  sendable h (sp_EncryptionLevel q) l -> (forall p, p ∈ map snd l -> ack_eliciting p = true) ->
  exists h1 ps h', pack_all h (sp_EncryptionLevel q) l = Ret (h1, ps) /\
    handler_SentPacketsAsRetransmission h1 ps (sp_PacketNumber q) = Ret h' /\ handler_ok h' /\ same_spaces h h'.
Proof.
  intros Hh (s & Hs & Hlt & Hq) Hkey Hne Hsd He. set (lvl := sp_EncryptionLevel q) in *.
  destruct (packed_and_sent h lvl s l Hh Hs Hsd He)
    as (h1 & h2 & ps & ps' & s2 & E1 & E2 & Elen & Hs2 & Gk & Ex & Hg & Hnx & Hsent & Hre & Hla & Eq & Eb & Hcc & Er).
  exists h1, ps. unfold handler_SentPacketsAsRetransmission. rewrite E2. cbn [mbind outcome_bind].
  destruct ps' as [|p0 tl]; [by destruct l|].
  rewrite (st_level _ _ _ _ _ _ Hsent p0 (list_elem_of_here p0 tl)), (space_of_get h2 lvl s2 Hs2). cbn [mbind outcome_bind].
  set (new := p0 :: tl) in *. clearbody new.
  set (x := history_SentPacketsAsRetransmission (ps_history s2) new (sp_PacketNumber q)).
  set (h3 := set_history h2 lvl s2 x).
  assert (G3 : forall k, get_space h3 k = if decide (k = lvl) then Some (s2 <| ps_history := x |>) else get_space h k).
  { intros k. unfold h3. rewrite (get_set_history h2 lvl s2 x k Hs2). case_decide; [done|by apply Gk]. }
  destruct (set_history_fields h2 lvl s2 x) as (F1 & F2 & F3 & F4 & F5). fold h3 in F1, F2, F3, F4, F5.
  destruct (ho_spaces h Hh lvl s Hs) as [Hx Hk _].
  assert (Hgrow : history_grows lvl (next_number s) (next_number s2) (hd_lastSentAckElicitingPacketTime h2) (ps_history s) new
    (Some (sp_PacketNumber q)) x).
  { unfold x. rewrite Ex. by eapply history_SentPacketsAsRetransmission_grows. }
  assert (Hh3 : handler_ok h3).
  { eapply (handler_ok_grow h h3 lvl s (s2 <| ps_history := x |>) (Some (sp_PacketNumber q)) new Hh Hs G3); try done.
    - by rewrite F1.
    - by rewrite F1.
    - congruence.
    - intros p Hp Hl [= E]. apply Hkey. apply list_elem_of_fmap. exists p. split; [|done]. unfold key. fold lvl. congruence.
    - congruence.
    - by rewrite F4.
    - congruence. }
  destruct (updateLossDetectionAlarm_ok h3 Hh3) as [Hh4 S4].
  eexists. split_and!; [done|reflexivity|done|]. intros k. rewrite (S4 k). by apply (same_spaces_update h h3 lvl s _ Hs G3).
Qed.

(** The first packet of the queue. *)
Lemma dequeue_ok h q rest :
  handler_ok h -> hd_retransmissionQueue h = q :: rest ->
  let h' := h <| hd_retransmissionQueue := rest |> in
  handler_ok h' /\ queued_ok h' q /\ key q ∉ map key (hd_retransmissionQueue h').
Proof.
  intros Hh Eq h'. pose proof (ho_nodup h Hh) as Hnd. rewrite Eq in Hnd. cbn in Hnd. inversion_clear Hnd as [|? ? Hout Hnd'].
  assert (Hq : forall p, p ∈ q :: rest -> queued_ok h' p) by (intros p Hp; apply (ho_queue h Hh); by rewrite Eq).
  split_and!; [|apply Hq; by left|done]. destruct Hh as [Hsp Hcr _ _ Hfl Hcc Hrt]. split; try done.
  intros p Hp. apply Hq. by right.
Qed.

Lemma maybeSendRetransmission_ok h l :
  handler_ok h -> l <> [] -> (forall q, head (hd_retransmissionQueue h) = Some q -> sendable h (sp_EncryptionLevel q) l) ->
  (forall p, p ∈ map snd l -> ack_eliciting p = true) ->
  exists h', maybeSendRetransmission h l = Ret h' /\ handler_ok h' /\ same_spaces h h'.
Proof.
  intros Hh Hne Hsd He. unfold maybeSendRetransmission, DequeuePacketForRetransmission.
  destruct (hd_retransmissionQueue h) as [|q rest] eqn:Eq; [by exists h|].
  destruct (dequeue_ok h q rest Hh Eq) as (Hh1 & Hq1 & Hk1). set (h1 := h <| hd_retransmissionQueue := rest |>) in *.
  destruct (resend_ok h1 q l Hh1 Hq1 Hk1 Hne) as (h2 & ps & h3 & -> & E3 & Hh3 & S3); [|done|].
  - by destruct (Hsd q eq_refl).
  - cbn [mbind outcome_bind]. rewrite E3. by exists h3.
Qed.

Lemma FirstOutstanding_Some x p :
  history_ok x -> FirstOutstanding x = Some p -> p ∈ sh_packets x /\ sp_canBeRetransmitted p = true.
Proof.
  intros Hx. unfold FirstOutstanding. rewrite (hk_first x Hx). destruct (List.find _ _) as [q|] eqn:Ef; [|done]. cbn.
  apply List.find_some in Ef as [Hq Hc]. apply list_elem_of_In in Hq. rewrite (find_packet_elem _ q (hk_sorted x Hx) Hq).
  by intros [= <-].
Qed.

Definition probe_level (h : handler) : EncryptionLevel :=
  match hd_retransmissionQueue h with q :: _ => sp_EncryptionLevel q | [] => Encryption1RTT end.

Lemma sendProbePacket_ok h l :
  handler_ok h -> l <> [] -> sendable h (probe_level h) l -> (forall p, p ∈ map snd l -> ack_eliciting p = true) ->
  exists h' err, sendProbePacket h l = Ret (h', err) /\ handler_ok h' /\ same_spaces h h' /\
    (err = None \/ err = Some errNoProbe /\ h' = h /\ HasOutstandingPackets (ps_history (hd_oneRTTPackets h)) = false).
Proof.
  intros Hh Hne Hsd He. unfold sendProbePacket, DequeueProbePacket, probe_level in *.
  destruct (hd_retransmissionQueue h) as [|q rest] eqn:Eq.
  - destruct (ho_spaces h Hh Encryption1RTT _ eq_refl) as [Hx Hk _].
    destruct (FirstOutstanding (ps_history (hd_oneRTTPackets h))) as [p|] eqn:Ef.
    2: { exists h, (Some errNoProbe). split_and!; try done. right. split_and!; try done. unfold HasOutstandingPackets.
         rewrite (hk_count _ Hx). unfold FirstOutstanding in Ef. rewrite (hk_first _ Hx) in Ef.
         destruct (List.find _ _) as [r|] eqn:Er; cbn in Ef.
         - apply List.find_some in Er as [Hr _]. apply list_elem_of_In in Hr.
           by rewrite (find_packet_elem _ r (hk_sorted _ Hx) Hr) in Ef.
         - apply Z.ltb_ge. destruct (List.filter _ _) as [|r rs] eqn:Efi; [done|].
           assert (Hr : List.In r (List.filter sp_canBeRetransmitted (sh_packets (ps_history (hd_oneRTTPackets h))))) by (rewrite Efi; by left).
           apply List.filter_In in Hr as [Hr1 Hr2]. by rewrite (List.find_none _ _ Er r Hr1) in Hr2. }
    apply (FirstOutstanding_Some _ _ Hx) in Ef as [Hp Hc].
    destruct (queuePacketForRetransmission_ok h p Encryption1RTT _ Hh eq_refl Hp Hc) as (x & _ & -> & Hh1 & _).
    cbn [mbind outcome_bind]. set (h1 := (set_history h Encryption1RTT _ x) <| hd_retransmissionQueue := _ |>) in *.
    assert (Eq1 : hd_retransmissionQueue h1 = [p]) by (cbn; by rewrite Eq). unfold DequeuePacketForRetransmission. rewrite Eq1.
    cbn [mbind outcome_bind mret outcome_ret]. destruct (dequeue_ok h1 p [] Hh1 Eq1) as (Hh2 & Hq2 & Hk2).
    destruct (resend_ok _ p l Hh2 Hq2 Hk2 Hne) as (h3 & ps & h4 & -> & E4 & Hh4 & S4); [|done|].
    + rewrite (pk_level _ _ _ _ _ Hk p Hp). destruct Hsd as [? ? ? ? Hn]. split; try done.
      intros s [= <-]. by apply (Hn (hd_oneRTTPackets h)).
    + cbn [mbind outcome_bind]. rewrite E4. cbn [mbind outcome_bind]. exists h4, None. split_and!; [done|done| |by left].
      intros k. rewrite (S4 k). by destruct k.
  - cbn [mbind outcome_bind mret outcome_ret]. unfold DequeuePacketForRetransmission. rewrite Eq. cbn [mbind outcome_bind mret outcome_ret].
    destruct (dequeue_ok h q rest Hh Eq) as (Hh1 & Hq1 & Hk1).
    destruct (resend_ok _ q l Hh1 Hq1 Hk1 Hne) as (h2 & ps & h3 & -> & E3 & Hh3 & S3); [by destruct Hsd|done|].
    cbn [mbind outcome_bind]. rewrite E3. cbn [mbind outcome_bind]. exists h3, None. split_and!; [done|done|done|by left].
Qed.

Lemma sendPacket_ok h lvl num p s :
  handler_ok h -> get_space h lvl = Some s -> sendable h lvl [(num, p)] ->
  exists h', sendPacket h lvl num p = Ret h' /\ handler_ok h' /\ same_spaces h h'.
Proof.
  intros Hh Hs Hsd. unfold sendPacket, handler_SentPacket. destruct (ack_eliciting p) eqn:He.
  - destruct (packed_and_sent h lvl s [(num, p)] Hh Hs Hsd)
      as (h1 & h2 & ps & ps' & s2 & E1 & E2 & Elen & Hs2 & Gk & Ex & Hg & Hnx & Hsent & Hre & Hla & Eq & Eb & Hcc & Er).
    { by intros p' ->%list_elem_of_singleton. }
    cbn [pack_all] in E1. apply outcome_bind_Ret in E1 as ([h1' p1] & -> & E1). injection E1 as <- <-. cbn [mbind outcome_bind].
    cbn [sent_all] in E2. apply outcome_bind_Ret in E2 as ([[h2' p2] b] & -> & E2). injection E2 as <- <-. cbn [mbind outcome_bind].
    destruct b; [|done]. rewrite (st_level _ _ _ _ _ _ Hsent p2 (list_elem_of_here p2 [])), (space_of_get h2' lvl s2 Hs2).
    cbn [mbind outcome_bind]. set (x := history_sent (ps_history s2) p2). set (h3 := set_history h2' lvl s2 x).
    assert (G3 : forall k, get_space h3 k = if decide (k = lvl) then Some (s2 <| ps_history := x |>) else get_space h k).
    { intros k. unfold h3. rewrite (get_set_history h2' lvl s2 x k Hs2). case_decide; [done|by apply Gk]. }
    destruct (set_history_fields h2' lvl s2 x) as (F1 & F2 & F3 & F4 & F5). fold h3 in F1, F2, F3, F4, F5.
    destruct (ho_spaces h Hh lvl s Hs) as [Hx Hk _].
    assert (Hh3 : handler_ok h3).
    { eapply (handler_ok_grow h h3 lvl s (s2 <| ps_history := x |>) None [p2] Hh Hs G3); try done; rewrite ?F1, ?F4; try congruence; try done.
      unfold x. rewrite Ex. change (history_sent (ps_history s) p2) with (foldl history_sent (ps_history s) [p2]).
      by eapply history_sent_grows. }
    destruct (updateLossDetectionAlarm_ok h3 Hh3) as [Hh4 S4].
    eexists. split_and!; [reflexivity|done|]. intros k. rewrite (S4 k). by apply (same_spaces_update h h3 lvl s _ Hs G3).
  - destruct Hsd as [Hr Hn _ Hb Hnum]. destruct (ho_spaces h Hh lvl s Hs) as [Hx Hk Hgen].
    inversion_clear Hr as [|? ? Hr1 _]. specialize (Hnum s Hs). cbn [length] in Hnum.
    destruct (pack_ok h lvl s num p Hs Hgen ltac:(lia) Hr1) as (g & -> & Hg & Hnx). cbn [mbind outcome_bind].
    set (s1 := s <| ps_pns := g |>) in *. set (h1 := set_space h lvl s1).
    assert (G1 : forall k, get_space h1 k = if decide (k = lvl) then Some s1 else get_space h k).
    { intros k. apply get_set_space. by eapply get_level. }
    assert (F1 : hd_congestion h1 = hd_congestion h /\ hd_bytesInFlight h1 = hd_bytesInFlight h /\ hd_rttStats h1 = hd_rttStats h /\
      hd_retransmissionQueue h1 = hd_retransmissionQueue h /\
      hd_lastSentAckElicitingPacketTime h1 = hd_lastSentAckElicitingPacketTime h) by (unfold h1; by destruct lvl).
    destruct F1 as (Fc & Fb & Fr & Fq & Fl).
    set (p1 := p <| sp_PacketNumber := next_number s |> <| sp_EncryptionLevel := lvl |>).
    destruct (sentPacketImpl_ok h1 p1 lvl s1) as (h2 & p2 & E2 & _ & [[k G2] Q2 B2 L2 R2 C2 _]); try done.
    + rewrite G1. by rewrite decide_True.
    + apply (Hn p). by left.
    + rewrite Fb. by apply bytes_uint64.
    + rewrite Fc. apply Hh.
    + rewrite Fc. unfold sizes in Hb. cbn in Hb. change (sp_Length p1) with (sp_Length p). lia.
    + rewrite E2. change (ack_eliciting p1) with (ack_eliciting p) in *. rewrite He in *. cbn [mbind outcome_bind].
      assert (G : forall l, get_space h2 l = if decide (l = lvl) then Some (s1 <| ps_largestSent := k |>) else get_space h l).
      { intros l. rewrite G2, G1. by case_decide. }
      exists h2. split_and!; [done| |by eapply same_spaces_update].
      eapply (handler_ok_update h h2 lvl s _ Hh Hs G); try congruence; try done.
      * change (packets (s1 <| ps_largestSent := k |>)) with (packets s). rewrite B2, Fb. f_equal. lia.
      * rewrite R2, Fr. apply Hh.
      * split; [done| |done]. eapply packets_ok_later; [exact Hk| |done]. change (next_number (s1 <| ps_largestSent := k |>)) with (next_number s1). lia.
      * change (next_number (s1 <| ps_largestSent := k |>)) with (next_number s1). lia.
Qed.

(** *** Keys are dropped, and a Retry is received *)

Lemma drop_bytes b l :
  is_uint64 b -> foldl (fun n p => uint64 (n - in_flight p)) b l = uint64 (b - flight l).
Proof.
  revert b. induction l as [|p l IH]; intros b Hb; cbn; [rewrite Z.sub_0_r; by rewrite uint64_id|].
  rewrite IH by apply uint64_range. rewrite flight_cons, uint64_sub_idem. f_equal. lia.
Qed.

Lemma NoDup_filter_keys f l : NoDup (map key l) -> NoDup (map key (List.filter f l)).
Proof.
  induction l as [|p l IH]; [done|]. cbn. inversion_clear 1 as [|? ? Hout Hnd]. destruct (f p); [|by apply IH].
  cbn. constructor; [|by apply IH]. intros (q & E & Hq)%list_elem_of_fmap. apply Hout. rewrite E. apply list_elem_of_fmap_2.
  apply list_elem_of_In, List.filter_In in Hq as [Hq _]. by apply list_elem_of_In.
Qed.

(** [Received1RTTAck] drops the Initial and the Handshake keys. *)
Definition drop_crypto_keys (h : handler) : outcome handler :=
  h ← DropPackets h EncryptionInitial;
  DropPackets h EncryptionHandshake.

Lemma drop_crypto_keys_ok h :
  handler_ok h -> is_Some (hd_initialPackets h) -> exists h', drop_crypto_keys h = Ret h' /\ handler_ok h'.
Proof.
  intros Hh [s1 H1]. destruct (proj1 (ho_crypto h Hh)) as [s2 H2]; [by eexists|].
  unfold drop_crypto_keys, DropPackets, space_of. cbn [getPacketNumberSpace mbind outcome_bind mret outcome_ret].
  rewrite H1. cbn -[uint64 foldl]. rewrite H2. cbn -[uint64 foldl]. eexists. split; [reflexivity|].
  set (q1 := List.filter _ (hd_retransmissionQueue h)). set (q2 := List.filter _ q1).
  assert (Hq : forall p, p ∈ q2 -> p ∈ hd_retransmissionQueue h /\ sp_EncryptionLevel p <> EncryptionInitial /\
    sp_EncryptionLevel p <> EncryptionHandshake).
  { unfold q2, q1. intros p Hp. apply list_elem_of_In, List.filter_In in Hp as [Hp HH].
    apply List.filter_In in Hp as [Hp HI]. apply list_elem_of_In in Hp.
    apply negb_true_iff, bool_decide_eq_false in HH, HI. done. }
  split.
  - intros lvl s Hs. apply (ho_spaces h Hh). by destruct lvl.
  - split; intros [? ?]; done.
  - unfold q2, q1. apply NoDup_filter_keys, NoDup_filter_keys, Hh.
  - intros p Hp. destruct (Hq p Hp) as (Hp' & N1 & N2). destruct (ho_queue h Hh p Hp') as (s & Hs & ?). exists s. split; [|done].
    by destruct (sp_EncryptionLevel p).
  - cbn -[uint64 foldl]. rewrite (drop_bytes (hd_bytesInFlight h)) by by apply bytes_uint64. rewrite drop_bytes by apply uint64_range.
    rewrite (ho_flight h Hh). unfold tracked_flight. rewrite H1, H2. cbn [space_flight hd_initialPackets hd_handshakePackets hd_oneRTTPackets over].
    unfold packets. rewrite uint64_sub_idem, <- Z.sub_add_distr, uint64_sub_idem. f_equal. cbn. lia.
  - apply Hh.
  - apply Hh.
Qed.

Definition idle (s : packetNumberSpace) : Prop := packets s = [].

Lemma new_space_ok last lvl pn num :
  0 <= pn < 2 ^ 61 -> is_uint16 num -> space_ok last lvl (newPacketNumberSpace pn num) /\
    packets (newPacketNumberSpace pn num) = [] /\ next_number (newPacketNumberSpace pn num) = pn.
Proof.
  intros Hpn Hnum. pose proof (generateNewSkip_ok (mkGenerator SkipPacketAveragePeriodLength pn 0 []) num Hnum) as Hg.
  cbn in Hg. specialize (Hg ltac:(lia) ltac:(unfold SkipPacketAveragePeriodLength; lia)). split_and!; [split|done|done].
  - split; [constructor|done|done].
  - split; try (intros ? Hp; cbn in Hp; by apply elem_of_nil in Hp); try (intros ? ? Hp; cbn in Hp; by apply elem_of_nil in Hp). constructor.
  - unfold generator_ok. cbn in *. unfold SkipPacketAveragePeriodLength in *. lia.
Qed.

(** A Retry is received before anything but Initial packets is sent. *)
Lemma ResetForRetry_ok h num num' s s2 :
  handler_ok h -> hd_initialPackets h = Some s -> hd_handshakePackets h = Some s2 -> idle s2 -> idle (hd_oneRTTPackets h) ->
  next_number s < 2 ^ 61 -> is_uint16 num -> is_uint16 num' ->
  exists h', ResetForRetry h num num' = Ret h' /\ handler_ok h' /\ same_spaces h h'.
Proof.
  intros Hh H1 H2 I2 I3 Hmax Hn Hn'. destruct (ho_spaces h Hh EncryptionInitial s H1) as [Hx Hk (Hg1 & Hg2 & Hg3)].
  unfold ResetForRetry. cbn [hd_initialPackets over]. rewrite H1.
  destruct (generator_Pop_cases (ps_pns s) num Hn ltac:(unfold next_number in *; lia) Hg2 Hg3) as (Epn & _).
  destruct (generator_Pop (ps_pns s) num) as [g pn]. cbn [snd] in Epn. rewrite Epn. clear Epn pn g.
  destruct (new_space_ok (hd_lastSentAckElicitingPacketTime h) EncryptionInitial (pg_next (ps_pns s)) num') as (Hok & Hem & Hnx);
    [unfold next_number in Hmax; lia|done|].
  set (s' := newPacketNumberSpace _ num') in *. clearbody s'. fold (packets s). fold (next_number s) in Hnx.
  set (new := List.filter sp_canBeRetransmitted (packets s)).
  assert (Hnew : forall p, p ∈ new -> p ∈ packets s /\ sp_canBeRetransmitted p = true).
  { intros p Hp. apply list_elem_of_In, List.filter_In in Hp as [Hp ?]. split; [by apply list_elem_of_In|done]. }
  match goal with |- context [updateLossDetectionAlarm ?x] => set (h1 := x) end.
  assert (Hh1 : handler_ok h1).
  { split.
    - intros lvl s0 Hs0. destruct lvl; cbn in Hs0; try (by apply (ho_spaces h Hh)). by injection Hs0 as <-.
    - split; intros _; cbn; [rewrite H2|]; by eexists.
    - cbn. rewrite map_app. apply NoDup_app. split_and!; [apply Hh| |].
      + intros k (p & -> & Hp)%list_elem_of_fmap (p' & E & Hp')%list_elem_of_fmap. apply Hnew in Hp' as [Hp' Hc'].
        destruct (ho_queue h Hh p Hp) as (s0 & Hs0 & _ & Hq0). injection E as E1 E2.
        rewrite E1, (pk_level _ _ _ _ _ Hk p' Hp') in Hs0. cbn in Hs0. rewrite H1 in Hs0. injection Hs0 as <-.
        destruct (Hq0 p' Hp'); [done|]. congruence.
      + apply NoDup_filter_keys. apply (NoDup_fmap_1 snd). change (NoDup (map snd (map key (packets s)))). rewrite map_map.
        change (NoDup (numbers (packets s))). pose proof (hk_sorted _ Hx) as Hso. clear -Hso. fold (packets s) in Hso.
        fold (numbers (packets s)) in Hso. induction Hso as [|a l Hs IH Hf]; constructor; [|done].
        rewrite Forall_forall in Hf. intros Ha. specialize (Hf a Ha). lia.
    - cbn. intros p [Hp|Hp]%elem_of_app.
      + destruct (ho_queue h Hh p Hp) as (s0 & Hs0 & Hlt & Hq0). unfold queued_ok.
        destruct (decide (sp_EncryptionLevel p = EncryptionInitial)) as [El|El].
        * rewrite El in *. cbn in *. exists s'. split; [done|]. rewrite H1 in Hs0. injection Hs0 as <-. split; [lia|]. rewrite Hem. set_solver.
        * exists s0. split; [|done]. by destruct (sp_EncryptionLevel p).
      + apply Hnew in Hp as [Hp _]. unfold queued_ok. rewrite (pk_level _ _ _ _ _ Hk p Hp). exists s'. split; [done|].
        pose proof (pk_next _ _ _ _ _ Hk p Hp). split; [lia|]. rewrite Hem. set_solver.
    - cbn. unfold tracked_flight. cbn. rewrite H2. cbn. rewrite Hem, I2, I3. done.
    - apply Hh.
    - apply Hh. }
  destruct (updateLossDetectionAlarm_ok h1 Hh1) as [Hh2 S2]. eexists. split_and!; [reflexivity|done|].
  intros k. rewrite (S2 k). destruct k; cbn; try done; rewrite H1; split; by eexists.
Qed.

(** ** The calls of a connection *)

Inductive call : Type :=
| Send (lvl : EncryptionLevel) (num : Z) (p : SentPacket)
| Retransmit (l : list (Z * SentPacket))
| Probe (l : list (Z * SentPacket))
| Ack (f : AckFrame) (lvl : EncryptionLevel) (t : time)
| Alarm (now now' : time)
| DropKeys
| Retry (num num' : Z)
| MaxAckDelayReceived (d : duration).

Definition run (h : handler) (c : call) : result :=
  match c with
  | Send lvl num p => h ← sendPacket h lvl num p; mret (h, None)
  | Retransmit l => h ← maybeSendRetransmission h l; mret (h, None)
  | Probe l => sendProbePacket h l
  | Ack f lvl t => handler_ReceivedAck h f lvl t
  | Alarm now now' => OnAlarm h now now'
  | DropKeys => h ← drop_crypto_keys h; mret (h, None)
  | Retry num num' => h ← ResetForRetry h num num'; mret (h, None)
  | MaxAckDelayReceived d => mret (SetMaxAckDelay h d, None)
  end.

(** What the connection guarantees: the packets are new, the clock does not go
    backwards, packets are sent and acknowledged only at levels that have keys,
    the keys are dropped once, and the ACK frames were parsed. *)
Definition retransmittable (h : handler) (lvl : EncryptionLevel) (l : list (Z * SentPacket)) : Prop :=
  l <> [] /\ sendable h lvl l /\ forall p, p ∈ map snd l -> ack_eliciting p = true.

Definition allowed (h : handler) (c : call) : Prop :=
  match c with
  | Send lvl num p => is_Some (get_space h lvl) /\ sendable h lvl [(num, p)]
  | Retransmit l | Probe l => retransmittable h (probe_level h) l
  | Ack f lvl t => is_Some (get_space h lvl) /\ ranges_wf (AckRanges f)
  | Alarm now now' => True
  | DropKeys => is_Some (hd_initialPackets h)
  | Retry num num' =>
      is_uint16 num /\ is_uint16 num' /\ idle (hd_oneRTTPackets h) /\
      match hd_initialPackets h, hd_handshakePackets h with
      | Some s, Some s2 => next_number s < 2 ^ 61 /\ idle s2
      | _, _ => False
      end
  | MaxAckDelayReceived d => True
  end.

(** The errors that reach the session: those of the peer, and a probe that is not
    needed any more. *)
Definition peer_error (err : option goerr) : Prop :=
  err = None \/ err = Some errUnsentPacket \/ err = Some errSkippedPacket \/ err = Some errNoProbe.

Lemma run_ok h c :
  handler_ok h -> allowed h c -> exists h' err, run h c = Ret (h', err) /\ handler_ok h' /\ peer_error err.
Proof.
  intros Hh Ha. unfold peer_error. destruct c as [lvl num p|l|l|f lvl t|now now'| |num num'|d]; cbn [run allowed] in *.
  - destruct Ha as [[s Hs] Hsd]. destruct (sendPacket_ok h lvl num p s Hh Hs Hsd) as (h' & -> & Hh' & _). cbn. eauto 10.
  - destruct Ha as (Hne & Hsd & He). destruct (maybeSendRetransmission_ok h l Hh Hne) as (h' & -> & Hh' & _); [|done|cbn; eauto 10].
    intros q Hq. unfold probe_level in Hsd. by destruct (hd_retransmissionQueue h); simplify_eq/=.
  - destruct Ha as (Hne & Hsd & He). destruct (sendProbePacket_ok h l Hh Hne Hsd He) as (h' & err & -> & Hh' & _ & Herr).
    exists h', err. split_and!; [done|done|]. destruct Herr as [?|[? _]]; auto.
  - destruct Ha as [[s Hs] Hwf]. destruct (ReceivedAck_ok h f lvl t s Hh Hs Hwf) as (h' & hi & _ & -> & Hh' & _).
    eexists _, _. split_and!; [done|done|]. unfold ack_error. destruct (_ <? _); [by auto|]. destruct (existsb _ _); auto.
  - destruct (OnAlarm_ok h now now' Hh) as (h' & -> & Hh' & _). eauto 10.
  - destruct (drop_crypto_keys_ok h Hh Ha) as (h' & -> & Hh'). cbn. eauto 10.
  - destruct Ha as (Hn & Hn' & I3 & Ha). destruct (hd_initialPackets h) as [s|] eqn:H1; [|done].
    destruct (hd_handshakePackets h) as [s2|] eqn:H2; [|done]. destruct Ha as [Hm I2].
    destruct (ResetForRetry_ok h num num' s s2 Hh H1 H2 I2 I3 Hm Hn Hn') as (h' & -> & Hh' & _). cbn. eauto 10.
  - eexists _, _. split_and!; [done| |by left]. by apply (handler_ok_frame h); try apply Hh.
Qed.

Inductive handler_step (h : handler) : handler -> Prop :=
| step_call c h' err : allowed h c -> run h c = Ret (h', err) -> handler_step h h'.

Lemma handler_steps_ok h h' : handler_ok h -> rtc handler_step h h' -> handler_ok h'.
Proof.
  intros Hh Hr. induction Hr as [|h h1 h2 [c ? err Ha E] _ IH]; [done|]. apply IH.
  destruct (run_ok h c Hh Ha) as (h3 & err3 & E3 & Hh3 & _). rewrite E in E3. by injection E3 as -> _.
Qed.

Lemma new_handler_ok initialPN rttStats cc num1 num2 num3 :
  0 <= initialPN < 2 ^ 61 -> is_uint16 num1 -> is_uint16 num2 -> is_uint16 num3 -> cc_ok cc -> is_int64 (minRTT rttStats) ->
  handler_ok (new_handler initialPN rttStats cc num1 num2 num3).
Proof.
  intros Hp H1 H2 H3 Hcc Hrt. split.
  - intros lvl s Hs. destruct lvl; cbn in Hs; [done|injection Hs as <-..]; apply new_space_ok; (done || lia).
  - split; intros _; by eexists.
  - constructor.
  - intros p Hp'. by apply elem_of_nil in Hp'.
  - done.
  - done.
  - done.
Qed.

End Invariant.
