(* ===== verification/HandlerProperties.v ===== *)
(** * Loss recovery with the BBR sender: properties

    The BBR sender (BBR.v) meets the requirements of the sent packet handler
    (LossRecovery.v); what holds in every state a connection can reach. *)

From Stdlib Require Import Sorted.
From S2P Require Import Prelude GoFloat Protocol AckFrame Frames RTTStats SentHistory BandwidthSampler BBR.
From S2P Require Import BBRProperties SentPacketHandler PacketLinks LossRecovery.

Section BBRHandler.
Context `{FloatConv} (randDrain randProbeRtt : bbrSender -> Z).
Hypothesis Hdrain : forall b, 0 <= randDrain b.
Hypothesis Hprobe : forall b, 0 <= randProbeRtt b.

#[local] Instance bbr_cc : SendAlgorithm bbrSender := bbr_algorithm randDrain randProbeRtt.

(** The invariant of the sender, which never enters recovery. *)
Definition sender_ok (b : bbrSender) : Prop :=
  bbr_ok InitialCongestionWindow DefaultBBRMaxCongestionWindow b /\ recoveryState b = NOT_IN_RECOVERY.

Lemma window_limits : limits_ok InitialCongestionWindow DefaultBBRMaxCongestionWindow.
Proof. by vm_compute. Qed.

Lemma bbr_sent_ok b t inFlight pn n ret :
  sender_ok b -> 0 <= n -> totalBytesSent (sampler b) + n < 2 ^ 63 ->
  sender_ok (bbr_OnPacketSent b t inFlight pn n ret) /\
  totalBytesSent (sampler (bbr_OnPacketSent b t inFlight pn n ret)) <= totalBytesSent (sampler b) + n.
Proof.
  intros [Hok Hr] Hn Hmax. split; [split|].
  - by apply bbr_OnPacketSent_ok.
  - unfold bbr_OnPacketSent. cbn. destruct (_ && _); case_if; done.
  - unfold bbr_OnPacketSent. match goal with |- context [sampler_OnPacketSent (sampler ?x)] => set (b1 := x) end.
    assert (S1 : sampler b1 = sampler b) by (unfold b1; destruct (_ && _); case_if; done). clearbody b1. rewrite S1.
    destruct (sampler_OnPacketSent_ok (sampler b) t pn n inFlight ret (co_sampler _ _ b (ok_core _ _ b Hok)) Hn Hmax)
      as (_ & _ & _ & E & _).
    change (totalBytesSent (sampler_OnPacketSent (sampler b) t pn n inFlight ret) <= totalBytesSent (sampler b) + n).
    rewrite E. destruct ret; lia.
Qed.

#[local] Instance bbr_safe : SafeController bbrSender.
Proof.
  refine {| cc_ok := sender_ok; cc_sent b := totalBytesSent (sampler b) |}.
  - apply bbr_sent_ok.
  - done.
  - done.
  - done.
  - intros event b inFlight rttStats prior t acked lost [= <-] Hone [Hok Hr] Hf Hm.
    destruct (OnCongestionEvent_ok _ _ b (mkEnv inFlight (minRTT rttStats) (randDrain b) (randProbeRtt b)) prior t acked lost Hok
      window_limits) as (b' & E & Hok' & _); [exact (conj Hf (conj Hm (conj (Hdrain b) (Hprobe b))))|].
    exists b'. split; [done|]. split; [done|]. by eapply OnCongestionEvent_recovery.
Defined.

(** The states of a connection. *)
Definition new_connection (initialPN : PacketNumber) (rttStats : RTTStats) (num1 num2 num3 : Z) (h : sentPacketHandler bbrSender) : Prop :=
  0 <= initialPN < 2 ^ 61 /\ is_uint16 num1 /\ is_uint16 num2 /\ is_uint16 num3 /\ is_int64 (minRTT rttStats) /\
  h = NewSentPacketHandler initialPN rttStats num1 num2 num3.

Definition handler_reachable (h : sentPacketHandler bbrSender) : Prop :=
  exists initialPN rttStats num1 num2 num3 h0,
    new_connection initialPN rttStats num1 num2 num3 h0 /\ rtc handler_step h0 h.

Lemma handler_reachable_ok h : handler_reachable h -> handler_ok h.
Proof.
  intros (pn & rtt & n1 & n2 & n3 & h0 & (H1 & H2 & H3 & H4 & H5 & ->) & Hr). eapply handler_steps_ok; [|exact Hr].
  apply new_handler_ok; try done. split; [|done]. apply NewBBRSender_ok, window_limits.
Qed.

(** ** Properties *)

(** C1. Whatever a connection does (sending, retransmitting, probing, ACKs in any
    order, alarms, dropping keys, a Retry), no call of the handler panics: the
    internal errors of the handler are never returned, only those that blame the
    peer or say that there is nothing to probe with. *)
Theorem handler_never_fails h c :
  handler_reachable h -> allowed h c ->
  exists h' err, run h c = Ret (h', err) /\ peer_error err.
Proof.
  intros Hr Ha. destruct (run_ok h c (handler_reachable_ok h Hr) Ha) as (h' & err & E & _ & He). by exists h', err.
Qed.

(** C5. The bytes in flight the congestion controller is asked about are, in
    every reachable state, the bytes of the packets that are tracked in the three
    packet number spaces (modulo 2^64): no byte is counted twice or forgotten. *)
Theorem bytes_in_flight_exact h :
  handler_reachable h -> hd_bytesInFlight h = uint64 (tracked_flight h).
Proof. intros Hr. apply (ho_flight h (handler_reachable_ok h Hr)). Qed.

(** The sender is never in recovery, however many packets are lost: the
    losses found when an ACK is processed are not reported to it, those found by
    the alarm are reported without acknowledged packets, and recovery is entered
    only by an event that reports both. *)
Theorem handler_never_in_recovery h :
  handler_reachable h -> recoveryState (hd_congestion h) = NOT_IN_RECOVERY.
Proof. intros Hr. by destruct (ho_congestion h (handler_reachable_ok h Hr)). Qed.

(** An ACK is refused exactly when it acknowledges a packet number larger than
    any that was sent, or one of the numbers that were skipped on purpose; the
    packets of an ACK that is not refused are processed without an error. *)
Theorem ack_refused h f lvl t s :
  handler_reachable h -> get_space h lvl = Some s -> ranges_wf (AckRanges f) ->
  exists h' hi err, LargestAcked f = Ret hi /\ handler_ReceivedAck h f lvl t = Ret (h', err) /\
    (err = Some errUnsentPacket <-> ps_largestSent s < hi) /\
    (err = Some errSkippedPacket <->
       hi <= ps_largestSent s /\ exists pn, pn ∈ pg_history (ps_pns s) /\ acked_in (AckRanges f) pn) /\
    (err = None \/ err = Some errUnsentPacket \/ err = Some errSkippedPacket).
Proof.
  intros Hr Hs Hwf. destruct (ReceivedAck_ok h f lvl t s (handler_reachable_ok h Hr) Hs Hwf) as (h' & hi & Ehi & E & _).
  exists h', hi, (ack_error s f hi). split; [done|]. split; [done|]. unfold ack_error.
  assert (Hex : existsb (acks (AckRanges f)) (pg_history (ps_pns s)) = true <->
    exists pn, pn ∈ pg_history (ps_pns s) /\ acked_in (AckRanges f) pn).
  { rewrite existsb_exists. split; intros (pn & H1 & H2); exists pn; rewrite ?list_elem_of_In, ?acks_acked_in in *; done. }
  destruct (Z.ltb_spec (ps_largestSent s) hi).
  - split_and!; [done| |auto]. split; [done|]. lia.
  - destruct (existsb _ _).
    + split_and!; [split; [done|lia]| |auto]. split; [|done]. intros _. split; [done|]. by apply Hex.
    + split_and!; [split; [done|lia]| |auto]. split; [done|]. intros [_ Hx]. by apply Hex in Hx.
Qed.

(** C31. The loop that walks the history and the ranges of an ACK frame together
    selects exactly the packets that the frame acknowledges, in order. *)
Theorem newly_acked_is_filter h f lvl s :
  handler_reachable h -> get_space h lvl = Some s -> ranges_wf (AckRanges f) ->
  determineNewlyAckedPackets h f lvl =
    Ret (List.filter (fun p => acks (AckRanges f) (sp_PacketNumber p)) (packets s), None).
Proof.
  intros Hr Hs Hwf. destruct (ho_spaces h (handler_reachable_ok h Hr) lvl s Hs) as [Hx _ _].
  destruct (newly_acked_ok f (packets s) Hwf (hk_sorted _ Hx)) as (lo & hi & E1 & E2 & E3).
  unfold determineNewlyAckedPackets. rewrite (space_of_get h lvl s Hs). cbn [mbind outcome_bind]. rewrite E1, E2.
  cbn [mbind outcome_bind]. exact E3.
Qed.

(** C38. The probe timeout makes progress: when the alarm fires with packets
    outstanding and no loss to detect, probes are to be sent next (unless the
    handler tracks too many packets), and sending a probe succeeds. *)
Theorem pto_sends_probe h now now' l :
  handler_reachable h -> hasOutstandingCryptoPackets h = false ->
  HasOutstandingPackets (ps_history (hd_oneRTTPackets h)) = true -> hd_lossTime h = zero_time -> 0 <= hd_numProbesToSend h ->
  retransmittable h (probe_level h) l ->
  exists h1 h2, OnAlarm h now now' = Ret (h1, None) /\
    handler_SendMode h1 = (if MaxTrackedSentPackets <=? numTrackedPackets h then SendNone else SendPTO) /\
    sendProbePacket h1 l = Ret (h2, None).
Proof.
  intros Hr Hc Ho Hl Hp (Hne & Hsd & He). pose proof (handler_reachable_ok h Hr) as Hh.
  unfold OnAlarm, onVerifiedAlarm, hasOutstandingPackets. rewrite Ho, Hc, Hl. cbn [orb IsZero zero_time Z.eqb negb and_then mbind outcome_bind mret outcome_ret].
  set (h0 := h <| hd_ptoCount := _ |> <| hd_numProbesToSend := _ |>).
  assert (Hh0 : handler_ok h0) by by apply (handler_ok_frame h); try apply Hh.
  destruct (updateLossDetectionAlarm_ok h0 Hh0) as [Hh1 _].
  assert (E1 : exists a, updateLossDetectionAlarm h0 = h0 <| hd_alarm := a |>).
  { unfold updateLossDetectionAlarm. repeat case_if; by eexists. }
  destruct E1 as [a E1]. rewrite E1 in *.
  destruct (sendProbePacket_ok _ l Hh1 Hne) as (h2 & err & E2 & _ & _ & Herr); [by destruct Hsd|done|].
  exists (h0 <| hd_alarm := a |>), h2. split; [done|]. split.
  - unfold handler_SendMode. change (numTrackedPackets (h0 <| hd_alarm := a |>)) with (numTrackedPackets h).
    case_if; [done|]. change (hd_numProbesToSend (h0 <| hd_alarm := a |>)) with (hd_numProbesToSend h + 2).
    by rewrite (proj2 (Z.ltb_lt _ _)) by lia.
  - destruct Herr as [-> |(_ & _ & Hno)]; [done|].
    change (HasOutstandingPackets (ps_history (hd_oneRTTPackets h)) = false) in Hno. congruence.
Qed.

Lemma set_space_congestion (h : sentPacketHandler bbrSender) lvl s : hd_congestion (set_space h lvl s) = hd_congestion h.
Proof. by destruct lvl. Qed.

Lemma sentPacketImpl_congestion (h : sentPacketHandler bbrSender) p h' p' b :
  sentPacketImpl h p = Ret (h', p', b) ->
  exists n, hd_congestion h' = bbr_OnPacketSent (hd_congestion h) (sp_SendTime p) n (sp_PacketNumber p) (sp_Length p) b.
Proof.
  unfold sentPacketImpl. intros (s & _ & E)%outcome_bind_Ret. apply outcome_bind_Ret in E as (la & _ & E). cbv zeta in E.
  set (e := (0 <? _)%nat) in E. set (p2 := if e then _ else p <| sp_largestAcked := la |> <| sp_Ack := None |>) in E. set (h1 := set_space h _ _) in E.
  assert (E1 : hd_congestion h1 = hd_congestion h) by apply set_space_congestion. clearbody h1.
  assert (E2 : hd_congestion (if e then count_packet h1 p2 else h1) = hd_congestion h).
  { rewrite <- E1. destruct e; [|done]. unfold count_packet. destruct (negb _); case_if; done. }
  set (h2 := if e then _ else h1) in *. clearbody h2.
  assert (Ep : sp_SendTime p2 = sp_SendTime p /\ sp_PacketNumber p2 = sp_PacketNumber p /\ sp_Length p2 = sp_Length p)
    by (unfold p2; by destruct e).
  clearbody p2 e. destruct Ep as (<- & <- & <-). injection E as <- <- <-. exists (hd_bytesInFlight h2). by rewrite <- E2.
Qed.

Lemma handler_SentPacket_congestion (h : sentPacketHandler bbrSender) p h' :
  handler_SentPacket h p = Ret h' ->
  exists n b, hd_congestion h' = bbr_OnPacketSent (hd_congestion h) (sp_SendTime p) n (sp_PacketNumber p) (sp_Length p) b.
Proof.
  unfold handler_SentPacket. intros ([[h1 p1] b] & E1%sentPacketImpl_congestion & E2)%outcome_bind_Ret.
  destruct E1 as [n E1]. exists n, b. rewrite <- E1. destruct b; [|by injection E2 as <-].
  apply outcome_bind_Ret in E2 as (s & _ & [= <-]).
  transitivity (hd_congestion (set_history h1 (sp_EncryptionLevel p1) s (history_sent (ps_history s) p1))); [|apply set_space_congestion].
  unfold updateLossDetectionAlarm. repeat case_if; done.
Qed.

(** The sampler of the sender confuses the packets of different packet number
    spaces, whose numbers it uses as keys: a packet that is sent under a number
    which is still in use in another space is not recorded, its acknowledgement is
    evaluated with the send time and the size of the other packet. *)
Theorem sampler_confuses_spaces h lvl num p h' s c :
  get_space h lvl = Some s -> connectionStats (sampler (hd_congestion h)) !! next_number s = Some c ->
  sendPacket h lvl num p = Ret h' ->
  connectionStats (sampler (hd_congestion h')) !! next_number s = Some c.
Proof.
  intros Hs Hc. unfold sendPacket, pack, PopPacketNumber. rewrite (space_of_get h lvl s Hs). cbn [mbind outcome_bind].
  destruct (generator_Pop (ps_pns s) num) as [g pn] eqn:Eg. cbn [mbind outcome_bind mret outcome_ret].
  assert (pn = next_number s) as -> by (unfold generator_Pop in Eg; by injection Eg as _ <-).
  intros (n & b & ->)%handler_SentPacket_congestion. rewrite set_space_congestion.
  unfold bbr_OnPacketSent. match goal with |- context [sampler_OnPacketSent (sampler ?x)] => set (b1 := x) end.
  assert (S1 : sampler b1 = sampler (hd_congestion h)) by (unfold b1; destruct (_ && _); case_if; done). clearbody b1.
  rewrite S1. cbn [sampler over]. unfold sampler_OnPacketSent. destruct b; cbn [negb]; [|done].
  cbn [sp_PacketNumber over]. case_if; unfold stats_Insert; cbn; rewrite Hc; exact Hc.
Qed.

End BBRHandler.

(** ** A connection *)

(** An Initial packet and two 1-RTT packets are sent; the second 1-RTT packet is
    acknowledged, and the first one is declared lost. *)
#[local] Existing Instance amd64.
Definition no_rand : bbrSender -> Z := fun _ => 0.
#[local] Instance demo_cc : SendAlgorithm bbrSender := bbr_cc no_rand no_rand.
Lemma no_rand_ok b : 0 <= no_rand b.
Proof. done. Qed.
#[local] Instance demo_safe : SafeController bbrSender := bbr_safe no_rand no_rand no_rand_ok no_rand_ok.

Definition demo_new : sentPacketHandler bbrSender := NewSentPacketHandler 0 NewRTTStats 1000 1000 1000.
Definition demo_packet (t : time) : SentPacket :=
  mkSentPacket 0 0 None [FPing] 1200 EncryptionUnspecified t 0 false false [] false 0.
Definition after (h : sentPacketHandler bbrSender) (c : call) : sentPacketHandler bbrSender :=
  match run h c with Ret (h', _) => h' | _ => h end.

Definition demo_1 : sentPacketHandler bbrSender := after demo_new (Send EncryptionInitial 5 (demo_packet (1 * Second))).
Definition demo_2 : sentPacketHandler bbrSender := after demo_1 (Send Encryption1RTT 5 (demo_packet (2 * Second))).
Definition demo_3 : sentPacketHandler bbrSender := after demo_2 (Send Encryption1RTT 5 (demo_packet (3 * Second))).
Definition demo_ack : AckFrame := mkAckFrame [mkAckRange 1 1] 0.
Definition demo_4 : sentPacketHandler bbrSender := after demo_3 (Ack demo_ack Encryption1RTT (10 * Second)).

Ltac demo_send :=
  split; [vm_compute; eexists; reflexivity|]; split;
  [ constructor; [unfold is_uint16; cbn; lia|constructor]
  | let p := fresh in let Hp := fresh in intros p Hp; apply list_elem_of_singleton in Hp; subst p;
    split_and!; [reflexivity|reflexivity|cbn; lia|exact I]
  | constructor; [constructor; constructor|constructor; [vm_compute; discriminate|constructor]]
  | vm_compute; reflexivity
  | let s := fresh in let Hs := fresh in intros s Hs; vm_compute in Hs; injection Hs as <-; vm_compute; reflexivity ].

Lemma demo_1_allowed : allowed demo_new (Send EncryptionInitial 5 (demo_packet (1 * Second))).
Proof. demo_send. Qed.
Lemma demo_2_allowed : allowed demo_1 (Send Encryption1RTT 5 (demo_packet (2 * Second))).
Proof. demo_send. Qed.
Lemma demo_3_allowed : allowed demo_2 (Send Encryption1RTT 5 (demo_packet (3 * Second))).
Proof. demo_send. Qed.
Lemma demo_4_allowed : allowed demo_3 (Ack demo_ack Encryption1RTT (10 * Second)).
Proof. split; [vm_compute; eexists; reflexivity|cbn; lia]. Qed.

Lemma demo_step h c : allowed h c -> (exists err, run h c = Ret (after h c, err)) -> handler_step h (after h c).
Proof. intros Ha [err E]. by apply (step_call h c (after h c) err). Qed.

Ltac demo_run := vm_compute; eexists; reflexivity.

Lemma demo_1_step : handler_step demo_new demo_1.
Proof. apply (demo_step demo_new _ demo_1_allowed). demo_run. Qed.
Lemma demo_2_step : handler_step demo_1 demo_2.
Proof. apply (demo_step demo_1 _ demo_2_allowed). demo_run. Qed.
Lemma demo_3_step : handler_step demo_2 demo_3.
Proof. apply (demo_step demo_2 _ demo_3_allowed). demo_run. Qed.
Lemma demo_4_step : handler_step demo_3 demo_4.
Proof. apply (demo_step demo_3 _ demo_4_allowed). demo_run. Qed.

Lemma demo_2_reachable : handler_reachable no_rand no_rand no_rand_ok no_rand_ok demo_2.
Proof.
  exists 0, NewRTTStats, 1000, 1000, 1000, demo_new. split.
  - unfold new_connection, is_uint16, is_int64. cbn. split_and!; (lia || reflexivity).
  - exact (rtc_l _ _ _ _ demo_1_step (rtc_once _ _ demo_2_step)).
Qed.

Lemma demo_4_reachable : handler_reachable no_rand no_rand no_rand_ok no_rand_ok demo_4.
Proof.
  destruct demo_2_reachable as (pn & rtt & n1 & n2 & n3 & h0 & Hnew & Hr). exists pn, rtt, n1, n2, n3, h0. split; [exact Hnew|].
  exact (rtc_r _ _ _ (rtc_r _ _ _ Hr demo_3_step) demo_4_step).
Qed.

(** The first 1-RTT packet is lost in [demo_4], and waits for retransmission. *)
Lemma handler_never_in_recovery_witness :
  map sp_PacketNumber (hd_retransmissionQueue demo_4) = [0] /\ recoveryState (hd_congestion demo_4) = NOT_IN_RECOVERY.
Proof.
  split; [vm_compute; reflexivity|].
  apply (handler_never_in_recovery no_rand no_rand no_rand_ok no_rand_ok demo_4 demo_4_reachable).
Defined.

Lemma bytes_in_flight_exact_witness : hd_bytesInFlight demo_2 = uint64 (tracked_flight demo_2) /\ hd_bytesInFlight demo_2 = 2400.
Proof.
  split; [apply (bytes_in_flight_exact no_rand no_rand no_rand_ok no_rand_ok demo_2 demo_2_reachable)|vm_compute; reflexivity].
Defined.

Lemma handler_never_fails_witness :
  exists h' err, run demo_2 (Send Encryption1RTT 5 (demo_packet (3 * Second))) = Ret (h', err) /\ peer_error err.
Proof.
  apply (handler_never_fails no_rand no_rand no_rand_ok no_rand_ok demo_2 _ demo_2_reachable demo_3_allowed).
Defined.

Lemma ack_refused_witness :
  exists h' hi err, LargestAcked (mkAckFrame [mkAckRange 1 7] 0) = Ret hi /\
    handler_ReceivedAck demo_2 (mkAckFrame [mkAckRange 1 7] 0) Encryption1RTT (5 * Second) = Ret (h', err) /\
    err = Some errUnsentPacket.
Proof.
  destruct (ack_refused no_rand no_rand no_rand_ok no_rand_ok demo_2 (mkAckFrame [mkAckRange 1 7] 0) Encryption1RTT (5 * Second)
    (hd_oneRTTPackets demo_2) demo_2_reachable eq_refl) as (h' & hi & err & E1 & E2 & E3 & _).
  - cbn. lia.
  - exists h', hi, err. split; [exact E1|]. split; [exact E2|]. apply E3. injection E1 as <-. vm_compute. reflexivity.
Defined.

Lemma newly_acked_is_filter_witness :
  determineNewlyAckedPackets demo_2 (mkAckFrame [mkAckRange 0 0] 0) Encryption1RTT =
    Ret (List.filter (fun p => acks [mkAckRange 0 0] (sp_PacketNumber p)) (packets (hd_oneRTTPackets demo_2)), None).
Proof.
  apply (newly_acked_is_filter no_rand no_rand no_rand_ok no_rand_ok demo_2 (mkAckFrame [mkAckRange 0 0] 0) Encryption1RTT
    (hd_oneRTTPackets demo_2) demo_2_reachable eq_refl). cbn. lia.
Defined.

(** The Initial packet 0 is recorded when the 1-RTT packet 0 is sent. *)
Lemma sampler_confuses_spaces_witness :
  cs_sendTime <$> connectionStats (sampler (hd_congestion demo_2)) !! 0 = Some (1 * Second).
Proof.
  destruct (connectionStats (sampler (hd_congestion demo_1)) !! 0) as [c|] eqn:Hc; [|vm_compute in Hc; discriminate Hc].
  assert (Ht : cs_sendTime c = 1 * Second) by (vm_compute in Hc; injection Hc as <-; reflexivity).
  assert (En : next_number (hd_oneRTTPackets demo_1) = 0) by (vm_compute; reflexivity).
  assert (Hrun : @sendPacket _ demo_cc demo_1 Encryption1RTT 5 (demo_packet (2 * Second)) = Ret demo_2) by (vm_compute; reflexivity).
  pose proof (sampler_confuses_spaces no_rand no_rand demo_1 Encryption1RTT 5 (demo_packet (2 * Second)) demo_2
    (hd_oneRTTPackets demo_1) c eq_refl) as Hs.
  rewrite En in Hs. transitivity (cs_sendTime <$> Some c); [exact (f_equal (fmap cs_sendTime) (Hs Hc Hrun))|]. cbn. by rewrite Ht.
Defined.

Definition demo_p : sentPacketHandler bbrSender := after demo_new (Send Encryption1RTT 5 (demo_packet (1 * Second))).
Lemma demo_p_allowed : allowed demo_new (Send Encryption1RTT 5 (demo_packet (1 * Second))).
Proof. demo_send. Qed.
Lemma demo_p_reachable : handler_reachable no_rand no_rand no_rand_ok no_rand_ok demo_p.
Proof.
  exists 0, NewRTTStats, 1000, 1000, 1000, demo_new. split.
  - unfold new_connection, is_uint16, is_int64. cbn. split_and!; (lia || reflexivity).
  - apply rtc_once, (demo_step demo_new _ demo_p_allowed). demo_run.
Qed.
Lemma demo_probe_sendable : allowed demo_p (Send Encryption1RTT 5 (demo_packet (2 * Second))).
Proof. demo_send. Qed.

Lemma pto_sends_probe_witness :
  exists h1 h2, OnAlarm demo_p (3 * Second) (3 * Second) = Ret (h1, None) /\ handler_SendMode h1 = SendPTO /\
    sendProbePacket h1 [(5, demo_packet (2 * Second))] = Ret (h2, None).
Proof.
  refine (pto_sends_probe no_rand no_rand no_rand_ok no_rand_ok demo_p (3 * Second) (3 * Second) [(5, demo_packet (2 * Second))]
    demo_p_reachable _ _ _ _ _).
  - vm_compute. reflexivity.
  - vm_compute. reflexivity.
  - vm_compute. reflexivity.
  - vm_compute. discriminate.
  - split; [discriminate|]. split; [exact (proj2 demo_probe_sendable)|].
    intros p Hp. apply list_elem_of_singleton in Hp. subst p. reflexivity.
Defined.
