(* ===== verification/Headers.v ===== *)
(** * Packet headers (wire/header.go, wire/extended_header.go) and versions

    Parsing of the part of a header that is not protected, of the rest of it once
    the protection is removed, and writing of headers; the choice of a connection ID
    for a received packet; Version Negotiation packets
    (wire/version_negotiation.go), version numbers (protocol/version.go) and
    the connection IDs of the client (protocol/connection_id.go). *)

From S2P Require Import Prelude VarInt Protocol Frames.

(** ** Versions (protocol/version.go) *)

Definition VersionNumber := Z.
Definition VersionTLS : VersionNumber := 0x51474fff.
Definition SupportedVersions : list VersionNumber := [VersionTLS].

Definition IsSupportedVersion (supported : list VersionNumber) (v : VersionNumber) : bool :=
  existsb (fun t => t =? v) supported.

Definition IsValidVersion (v : VersionNumber) : bool := (v =? VersionTLS) || IsSupportedVersion SupportedVersions v.

Definition gquicVersion0 : Z := 0x51303030.
Definition maxGquicVersion : Z := 0x51303439.
Definition isGQUIC (vn : VersionNumber) : bool := (gquicVersion0 <? vn) && (vn <=? maxGquicVersion).
Definition toGQUICVersion (vn : VersionNumber) : Z :=
  Z.quot (uint32 (10 * uint32 (vn - gquicVersion0))) 0x100 + Z.rem vn 0x10.

(** The version, or 0 and false. *)
Fixpoint ChooseSupportedVersion (ours theirs : list VersionNumber) : VersionNumber * bool :=
  match ours with
  | [] => (0, false)
  | ourVer :: ours => if existsb (fun theirVer => ourVer =? theirVer) theirs then (ourVer, true)
                      else ChooseSupportedVersion ours theirs
  end.

(** [b] is the random [uint32]. *)
Definition generateReservedVersion (b : Z) : VersionNumber := Z.land (Z.lor b 0x0a0a0a0a) 0xfafafafa.

(** [r] is the random byte that gives the position. *)
Definition GetGreasedVersions (r b : Z) (supported : list VersionNumber) : list VersionNumber :=
  let randPos := Z.to_nat (Z.rem r (Z.of_nat (length supported) + 1)) in
  take randPos supported ++ generateReservedVersion b :: drop randPos supported.

Definition StripGreasedVersions (versions : list VersionNumber) : list VersionNumber :=
  List.filter (fun v => negb (Z.land v 0x0f0f0f0f =? 0x0a0a0a0a)) versions.

(** ** Connection IDs (protocol/connection_id.go) *)

Definition maxConnectionIDLen : Z := 18.
Definition MinConnectionIDLenInitial : Z := 8.

(** [GenerateConnectionID], from the random bytes. *)
Definition GenerateConnectionID (len : Z) (rand : nat -> byte) : ConnectionID := map rand (seq 0 (Z.to_nat len)).

(** [r] is the random byte that gives the length. *)
Definition GenerateConnectionIDForInitial (r : byte) (rand : nat -> byte) : ConnectionID :=
  GenerateConnectionID (MinConnectionIDLenInitial + Z.rem r (maxConnectionIDLen - MinConnectionIDLenInitial + 1)) rand.

Definition connID_Len (c : ConnectionID) : Z := Z.of_nat (length c).
Definition connID_Equal (c other : ConnectionID) : bool := bool_decide (c = other).

(** ** Parsing (wire/header.go) *)

Definition PacketType := Z.
Definition PacketTypeInitial : PacketType := 1.
Definition PacketTypeRetry : PacketType := 2.
Definition PacketTypeHandshake : PacketType := 3.
Definition PacketType0RTT : PacketType := 4.

Record Header := mkHeader {
  hd_Version : VersionNumber;
  hd_SrcConnectionID : ConnectionID;
  hd_DestConnectionID : ConnectionID;
  hd_IsLongHeader : bool;
  hd_Type : PacketType;
  hd_Length : ByteCount;
  hd_Token : bytes;
  hd_SupportedVersions : list VersionNumber;
  hd_OrigDestConnectionID : ConnectionID;
  hd_typeByte : byte;
  hd_parsedLen : ByteCount
}.

#[global] Instance header_eta : Eta Header := fun h =>
  mkHeader (hd_Version h) (hd_SrcConnectionID h) (hd_DestConnectionID h) (hd_IsLongHeader h) (hd_Type h) (hd_Length h)
    (hd_Token h) (hd_SupportedVersions h) (hd_OrigDestConnectionID h) (hd_typeByte h) (hd_parsedLen h).

Definition zero_header : Header := mkHeader 0 [] [] false 0 0 [] [] [] 0 0.

Definition errUnsupportedVersion : goerr := ErrorString "unsupported version".

Definition decodeSingleConnIDLen (enc : Z) : Z := if enc =? 0 then 0 else enc + 3.
Definition decodeConnIDLen (enc : byte) : Z * Z :=
  (decodeSingleConnIDLen (Z.shiftr enc 4), decodeSingleConnIDLen (Z.land enc 0xf)).

(** The destination connection ID of a packet.  The slices are within the data by the checks. *)
Definition ParseConnectionID (data : bytes) (shortHeaderConnIDLen : Z) : outcome ConnectionID :=
  match data with
  | [] => Error EOF
  | b0 :: _ =>
      let isLongHeader := 0 <? Z.land b0 0x80 in
      if negb isLongHeader then
        if Z.of_nat (length data) <? shortHeaderConnIDLen + 1 then Error EOF
        else mret (take (Z.to_nat shortHeaderConnIDLen) (drop 1 data))
      else
      match data !! 5%nat with
      | None => Error EOF
      | Some lenByte =>
          let '(destConnIDLen, _) := decodeConnIDLen lenByte in
          if Z.of_nat (length data) <? 6 + destConnIDLen then Error EOF
          else mret (take (Z.to_nat destConnIDLen) (drop 6 data))
      end
  end.

Definition IsVersionNegotiationPacket (b : bytes) : bool :=
  match b with
  | b0 :: b1 :: b2 :: b3 :: b4 :: _ => (0 <? Z.land b0 0x80) && (b1 =? 0) && (b2 =? 0) && (b3 =? 0) && (b4 =? 0)
  | _ => false
  end.

Definition parseShortHeader (h : Header) (shortHeaderConnIDLen : Z) : reader Header :=
  id ← ReadConnectionID shortHeaderConnIDLen;
  mret (h <| hd_DestConnectionID := id |>).

(** The loop of [parseVersionNegotiationPacket]. *)
Fixpoint read_versions (n : nat) : reader (list VersionNumber) :=
  match n with
  | O => mret []
  | S n => v ← ReadUint32; vs ← read_versions n; mret (v :: vs)
  end.

Definition parseVersionNegotiationPacket (h : Header) : reader Header :=
  len ← Len;
  if len =? 0 then fail (ErrorString "Version Negoation packet has empty version list")
  else if negb (Z.rem len 4 =? 0) then
    fail (ErrorString "Version Negotation packet has a version list with an invalid length")
  else
  versions ← read_versions (Z.to_nat (Z.quot len 4));
  mret (h <| hd_SupportedVersions := versions |>).

Definition long_type (typeByte : byte) : PacketType :=
  let t := Z.shiftr (Z.land typeByte 0x30) 4 in
  if t =? 0 then PacketTypeInitial else if t =? 1 then PacketType0RTT
  else if t =? 2 then PacketTypeHandshake else PacketTypeRetry.

(** [Header.parseLongHeader], after the connection IDs; the header is used by
    the caller also when the version is not supported. *)
Definition parse_versioned (h : Header) : reader (Header * option goerr) :=
  if hd_Version h =? 0 then h ← parseVersionNegotiationPacket h; mret (h, None) else
  if negb (IsSupportedVersion SupportedVersions (hd_Version h)) then mret (h, Some errUnsupportedVersion) else
  let h := h <| hd_Type := long_type (hd_typeByte h) |> in
  if hd_Type h =? PacketTypeRetry then
    orig ← ReadConnectionID (decodeSingleConnIDLen (Z.land (hd_typeByte h) 0xf));
    len ← Len;
    token ← ReadFull (Z.to_nat len);
    mret (h <| hd_OrigDestConnectionID := orig |> <| hd_Token := token |>, None)
  else
  h ← (if hd_Type h =? PacketTypeInitial then
         tokenLen ← ReadVarInt;
         len ← Len;
         if len <? tokenLen then fail EOF else
         token ← ReadFull (Z.to_nat tokenLen);
         mret (h <| hd_Token := token |>)
       else mret h);
  pl ← ReadVarInt;
  mret (h <| hd_Length := pl |>, None).

Definition parseLongHeader (h : Header) : reader (Header * option goerr) :=
  v ← ReadUint32;
  let h := h <| hd_Version := v |> in
  if negb (v =? 0) && (Z.land (hd_typeByte h) 0x40 =? 0) then fail (ErrorString "not a QUIC packet") else
  connIDLenByte ← ReadByte;
  let '(dcil, scil) := decodeConnIDLen connIDLenByte in
  dest ← ReadConnectionID dcil;
  let h := h <| hd_DestConnectionID := dest |> in
  src ← ReadConnectionID scil;
  parse_versioned (h <| hd_SrcConnectionID := src |>).

Definition parseHeaderImpl (shortHeaderConnIDLen : Z) : reader (Header * option goerr) :=
  typeByte ← ReadByte;
  let h := zero_header <| hd_typeByte := typeByte |> <| hd_IsLongHeader := 0 <? Z.land typeByte 0x80 |> in
  if negb (hd_IsLongHeader h) then
    if Z.land typeByte 0x40 =? 0 then fail (ErrorString "not a QUIC packet") else
    h ← parseShortHeader h shortHeaderConnIDLen;
    mret (h, None)
  else parseLongHeader h.

Definition parseHeader (shortHeaderConnIDLen : Z) : reader (Header * option goerr) :=
  startLen ← Len;
  '(h, err) ← parseHeaderImpl shortHeaderConnIDLen;
  match err with
  | Some err => mret (h, Some err)
  | None => len ← Len; mret (h <| hd_parsedLen := startLen - len |>, None)
  end.

(** The header, the packet, and the rest of the data. *)
Definition ParsePacket (data : bytes) (shortHeaderConnIDLen : Z) : outcome (Header * bytes * bytes) :=
  '((hdr, err), _) ← parseHeader shortHeaderConnIDLen data;
  match err with
  | Some _ => mret (hdr, [], [])
  | None =>
      if hd_IsLongHeader hdr then
        if Z.of_nat (length data) <? hd_parsedLen hdr + hd_Length hdr then
          Error (Errorf "packet length (%d bytes) is smaller than the expected length (%d bytes)"
                   [Z.of_nat (length data) - hd_parsedLen hdr; hd_Length hdr])
        else
          let packetLen := Z.to_nat (hd_parsedLen hdr + hd_Length hdr) in
          mret (hdr, take packetLen data, drop packetLen data)
      else mret (hdr, data, [])
  end.

(** ** Extended headers (wire/extended_header.go) *)

Record ExtendedHeader := mkExtendedHeader {
  eh_Header : Header;
  eh_typeByte : byte;
  eh_PacketNumberLen : PacketNumberLen;
  eh_PacketNumber : PacketNumber;
  eh_KeyPhase : Z
}.

#[global] Instance extended_eta : Eta ExtendedHeader := fun h =>
  mkExtendedHeader (eh_Header h) (eh_typeByte h) (eh_PacketNumberLen h) (eh_PacketNumber h) (eh_KeyPhase h).

Definition toExtendedHeader (h : Header) : ExtendedHeader := mkExtendedHeader h 0 0 0 0.

Definition readPacketNumber (h : ExtendedHeader) : reader ExtendedHeader :=
  let h := h <| eh_PacketNumberLen := Z.land (eh_typeByte h) 0x3 + 1 |> in
  pn ← ReadUintN (eh_PacketNumberLen h);
  mret (h <| eh_PacketNumber := int64 pn |>).

Definition extended_parseLongHeader (h : ExtendedHeader) : reader ExtendedHeader :=
  if negb (Z.land (eh_typeByte h) 0xc =? 0) then fail (ErrorString "5th and 6th bit must be 0")
  else readPacketNumber h.

Definition extended_parseShortHeader (h : ExtendedHeader) : reader ExtendedHeader :=
  if negb (Z.land (eh_typeByte h) 0x18 =? 0) then fail (ErrorString "4th and 5th bit must be 0")
  else readPacketNumber (h <| eh_KeyPhase := Z.shiftr (Z.land (eh_typeByte h) 0x4) 2 |>).

(** [ExtendedHeader.parse]: the first byte, and then the bytes from the packet number on. *)
Definition extended_parse (h : ExtendedHeader) : reader ExtendedHeader := fun data =>
  match data with
  | [] => Error EOF
  | typeByte :: _ =>
      let h := h <| eh_typeByte := typeByte |> in
      let r := drop (Z.to_nat (hd_parsedLen (eh_Header h))) data in
      if hd_IsLongHeader (eh_Header h) then extended_parseLongHeader h r else extended_parseShortHeader h r
  end.

Definition ParseExtended (h : Header) : reader ExtendedHeader := extended_parse (toExtendedHeader h).

(** ** Writing (wire/extended_header.go) *)

Definition encodeSingleConnIDLen (id : ConnectionID) : outcome byte :=
  let len := connID_Len id in
  if len =? 0 then mret 0
  else if (len <? 4) || (18 <? len) then Error (Errorf "invalid connection ID length: %d bytes" [len])
  else mret (uint8 (len - 3)).

Definition encodeConnIDLen (dest src : ConnectionID) : outcome byte :=
  dcil ← encodeSingleConnIDLen dest;
  scil ← encodeSingleConnIDLen src;
  mret (Z.lor scil (uint8 (Z.shiftl dcil 4))).

Definition writePacketNumber (b : bytes) (h : ExtendedHeader) : outcome bytes :=
  if (eh_PacketNumberLen h =? 0) || (4 <? eh_PacketNumberLen h) then
    Error (Errorf "invalid packet number length: %d" [eh_PacketNumberLen h])
  else mret (WriteUintN b (Z.to_nat (eh_PacketNumberLen h)) (uint64 (eh_PacketNumber h))).

Definition type_bits (t : PacketType) : Z :=
  if t =? PacketType0RTT then 1 else if t =? PacketTypeHandshake then 2 else if t =? PacketTypeRetry then 3 else 0.

Definition writeLongHeader (b : bytes) (h : ExtendedHeader) : outcome bytes :=
  let hdr := eh_Header h in
  let firstByte := Z.lor 0xc0 (Z.shiftl (type_bits (hd_Type hdr)) 4) in
  firstByte ← (if hd_Type hdr =? PacketTypeRetry then
                 odcil ← encodeSingleConnIDLen (hd_OrigDestConnectionID hdr); mret (Z.lor firstByte odcil)
               else mret (Z.lor firstByte (uint8 (eh_PacketNumberLen h - 1))));
  let b := WriteUint32 (b ++ [firstByte]) (uint32 (hd_Version hdr)) in
  connIDLen ← encodeConnIDLen (hd_DestConnectionID hdr) (hd_SrcConnectionID hdr);
  let b := b ++ [connIDLen] ++ hd_DestConnectionID hdr ++ hd_SrcConnectionID hdr in
  if hd_Type hdr =? PacketTypeRetry then mret (b ++ hd_OrigDestConnectionID hdr ++ hd_Token hdr) else
  b ← (if hd_Type hdr =? PacketTypeInitial then
         b ← WriteVarInt b (Z.of_nat (length (hd_Token hdr))); mret (b ++ hd_Token hdr)
       else mret b);
  b ← WriteVarInt b (hd_Length hdr);
  writePacketNumber b h.

Definition writeShortHeader (b : bytes) (h : ExtendedHeader) : outcome bytes :=
  let typeByte := Z.lor 0x40 (uint8 (eh_PacketNumberLen h - 1)) in
  let typeByte := Z.lor typeByte (uint8 (Z.shiftl (eh_KeyPhase h) 2)) in
  writePacketNumber (b ++ [typeByte] ++ hd_DestConnectionID (eh_Header h)) h.

Definition writeHeader (b : bytes) (h : ExtendedHeader) : outcome bytes :=
  if hd_IsLongHeader (eh_Header h) then writeLongHeader b h else writeShortHeader b h.

Definition GetLength (h : ExtendedHeader) : outcome ByteCount :=
  let hdr := eh_Header h in
  if hd_IsLongHeader hdr then
    l ← VarIntLen (hd_Length hdr);
    let length := 1 + 4 + 1 + (connID_Len (hd_DestConnectionID hdr) + connID_Len (hd_SrcConnectionID hdr)) +
                  eh_PacketNumberLen h + l in
    if hd_Type hdr =? PacketTypeInitial then
      tl ← VarIntLen (Z.of_nat (List.length (hd_Token hdr)));
      mret (length + tl + Z.of_nat (List.length (hd_Token hdr)))
    else mret length
  else mret (1 + connID_Len (hd_DestConnectionID hdr) + eh_PacketNumberLen h).

(** ** Version Negotiation packets (wire/version_negotiation.go) *)

(** [t], [r] and [b] are the random bytes. *)
Definition ComposeVersionNegotiation (t r b : Z) (destConnID srcConnID : ConnectionID) (versions : list VersionNumber) :
    outcome bytes :=
  let greasedVersions := GetGreasedVersions r b versions in
  let buf := WriteUint32 [Z.lor t 0xc0] 0 in
  connIDLen ← encodeConnIDLen destConnID srcConnID;
  mret (foldl (fun buf v => WriteUint32 buf v) (buf ++ [connIDLen] ++ destConnID ++ srcConnID) greasedVersions).

(** ** Round trips *)

Definition uint32_bytes (i : Z) : bytes := WriteUint32 [] i.

Lemma ReadUint32_bytes i r : is_uint32 i -> ReadUint32 (uint32_bytes i ++ r) = Ret (i, r).
Proof. intros Hi. destruct (ReadUint32_roundtrip [] i r Hi) as (d & Hw & _ & Hr). unfold uint32_bytes. by rewrite Hw. Qed.

Lemma ReadConnectionID_app id r : ReadConnectionID (connID_Len id) (id ++ r) = Ret (id, r).
Proof.
  unfold ReadConnectionID, connID_Len. destruct (Z.eqb_spec (Z.of_nat (length id)) 0) as [E|E].
  - by destruct id.
  - unfold ReadFullEOF. by rewrite Nat2Z.id, ReadFull_app.
Qed.

Definition valid_connID (id : ConnectionID) : Prop := connID_Len id = 0 \/ 4 <= connID_Len id <= 18.

Lemma nibbles a b : 0 <= a < 16 -> 0 <= b < 16 ->
  Z.shiftr (Z.lor b (uint8 (Z.shiftl a 4))) 4 = a /\ Z.land (Z.lor b (uint8 (Z.shiftl a 4))) 0xf = b.
Proof.
  intros Ha Hb. revert b Hb. 
  assert (H : forallb (fun b => (Z.shiftr (Z.lor b (uint8 (Z.shiftl a 4))) 4 =? a) && (Z.land (Z.lor b (uint8 (Z.shiftl a 4))) 0xf =? b)) (seqZ 0 16) = true)
    by small_cases Ha.
  intros b Hb. apply (small_range_check _ 16 b H) in Hb. zbool. done.
Qed.

Lemma single_connIDLen id : valid_connID id ->
  exists e, encodeSingleConnIDLen id = Ret e /\ 0 <= e < 16 /\ decodeSingleConnIDLen e = connID_Len id.
Proof.
  unfold valid_connID, encodeSingleConnIDLen, decodeSingleConnIDLen. intros Hv. destruct (Z.eqb_spec (connID_Len id) 0) as [E|E].
  { exists 0. rewrite E. split_and!; [done|lia|lia|done]. }
  destruct ((connID_Len id <? 4) || (18 <? connID_Len id)) eqn:Eb.
  { apply orb_true_iff in Eb as [Eb|Eb]; zbool; lia. }
  eexists. split; [reflexivity|]. rewrite uint8_id by go_range. split; [lia|]. destruct (Z.eqb_spec (connID_Len id - 3) 0); lia.
Qed.

Lemma connIDLen_roundtrip dest src :
  valid_connID dest -> valid_connID src ->
  exists e, encodeConnIDLen dest src = Ret e /\ decodeConnIDLen e = (connID_Len dest, connID_Len src).
Proof.
  intros (d & Ed & Hd & Dd)%single_connIDLen (s & Es & Hs & Ds)%single_connIDLen.
  unfold encodeConnIDLen. rewrite Ed, Es. eexists. split; [reflexivity|]. unfold decodeConnIDLen.
  destruct (nibbles d s Hd Hs) as [-> ->]. by rewrite Dd, Ds.
Qed.

(** The part of a long header that does not depend on the version. *)
Lemma parseLongHeader_prefix h v e dest src tail :
  is_uint32 v -> decodeConnIDLen e = (connID_Len dest, connID_Len src) ->
  (v = 0 \/ Z.land (hd_typeByte h) 0x40 <> 0) ->
  parseLongHeader h (uint32_bytes v ++ e :: dest ++ src ++ tail) =
  parse_versioned (h <| hd_Version := v |> <| hd_DestConnectionID := dest |> <| hd_SrcConnectionID := src |>) tail.
Proof.
  intros Hv He Ht. unfold parseLongHeader. rewrite (reader_bind_eq _ _ _ _ _ (ReadUint32_bytes v _ Hv)). cbv zeta.
  destruct (negb (v =? 0) && _) eqn:Eb.
  { apply andb_true_iff in Eb as [E1 E2]. zbool. cbn in E2. destruct Ht; [done|]. by rewrite E2 in *. }
  erewrite reader_bind_eq by reflexivity. rewrite He.
  rewrite (reader_bind_eq _ _ _ _ _ (ReadConnectionID_app dest _)), (reader_bind_eq _ _ _ _ _ (ReadConnectionID_app src _)). done.
Qed.

(** The headers of the packets that carry frames. *)
Definition header_wf (h : ExtendedHeader) : Prop :=
  let hdr := eh_Header h in
  1 <= eh_PacketNumberLen h <= 4 /\ 0 <= eh_PacketNumber h < 2 ^ 62 /\ valid_connID (hd_DestConnectionID hdr) /\
  hd_SupportedVersions hdr = [] /\ hd_OrigDestConnectionID hdr = [] /\
  if hd_IsLongHeader hdr then
    hd_Version hdr = VersionTLS /\ valid_connID (hd_SrcConnectionID hdr) /\
    (hd_Type hdr = PacketTypeInitial \/ hd_Type hdr = PacketTypeHandshake \/ hd_Type hdr = PacketType0RTT) /\
    is_varint (hd_Length hdr) /\ is_varint (Z.of_nat (length (hd_Token hdr))) /\
    (hd_Type hdr = PacketTypeInitial \/ hd_Token hdr = []) /\ eh_KeyPhase h = 0
  else
    hd_Version hdr = 0 /\ hd_SrcConnectionID hdr = [] /\ hd_Type hdr = 0 /\ hd_Length hdr = 0 /\ hd_Token hdr = [] /\
    (eh_KeyPhase h = 0 \/ eh_KeyPhase h = 1).

Definition pn_bytes (h : ExtendedHeader) : bytes := be_bytes (Z.to_nat (eh_PacketNumberLen h)) (eh_PacketNumber h).

(** What the first byte of a header says. *)
Definition first_byte_ok (h : ExtendedHeader) (ty : byte) : Prop :=
  Z.land ty 0x3 + 1 = eh_PacketNumberLen h /\ Z.land ty 0x40 <> 0 /\ (0 <? Z.land ty 0x80) = hd_IsLongHeader (eh_Header h) /\
  if hd_IsLongHeader (eh_Header h) then Z.land ty 0xc = 0 /\ long_type ty = hd_Type (eh_Header h)
  else Z.land ty 0x18 = 0 /\ Z.shiftr (Z.land ty 0x4) 2 = eh_KeyPhase h.

(** What of it is not protected, which is all the parser uses before the protection is removed. *)
Definition protected_byte (h : ExtendedHeader) (ty : byte) : Prop :=
  Z.land ty 0x40 <> 0 /\ (0 <? Z.land ty 0x80) = hd_IsLongHeader (eh_Header h) /\
  (hd_IsLongHeader (eh_Header h) = true -> long_type ty = hd_Type (eh_Header h)).

Lemma first_byte_protected h ty : first_byte_ok h ty -> protected_byte h ty.
Proof. unfold first_byte_ok, protected_byte. intros (_ & H40 & H80 & Hx). destruct (hd_IsLongHeader (eh_Header h)); [|done]. split_and!; [done|done|]. intros _. apply Hx. Qed.

(** The header [h] as it is written, up to the packet number, and how it is parsed. *)
Record written (h : ExtendedHeader) (ty : byte) (pre : bytes) : Prop := {
  wr_write : forall b, writeHeader b h = Ret (b ++ ty :: pre ++ pn_bytes h);
  wr_length : GetLength h = Ret (Z.of_nat (length (ty :: pre ++ pn_bytes h)));
  wr_type : first_byte_ok h ty;
  wr_parse : forall n ty' tail, protected_byte h ty' ->
    (hd_IsLongHeader (eh_Header h) = false -> n = connID_Len (hd_DestConnectionID (eh_Header h))) ->
    parseHeaderImpl n (ty' :: pre ++ tail) =
      Ret ((eh_Header h <| hd_typeByte := ty' |> <| hd_parsedLen := 0 |>, None), tail)
}.

Lemma writePacketNumber_bytes b h :
  1 <= eh_PacketNumberLen h <= 4 -> 0 <= eh_PacketNumber h < 2 ^ 62 -> writePacketNumber b h = Ret (b ++ pn_bytes h).
Proof.
  intros Hl Hp. unfold writePacketNumber. destruct ((_ =? 0) || _) eqn:E.
  { apply orb_true_iff in E as [E|E]; zbool; lia. }
  rewrite WriteUintN_app, uint64_id by go_range. done.
Qed.

Lemma pn_bytes_length h : 1 <= eh_PacketNumberLen h -> Z.of_nat (length (pn_bytes h)) = eh_PacketNumberLen h.
Proof. intros. unfold pn_bytes. rewrite be_bytes_length. lia. Qed.

(** Case analysis on the length of a packet number. *)
Lemma four_cases (P : Z -> Prop) n : 1 <= n <= 4 -> P 1 -> P 2 -> P 3 -> P 4 -> P n.
Proof. intros Hn. assert (n = 1 \/ n = 2 \/ n = 3 \/ n = 4) as [->|[->|[->| ->]]] by lia; done. Qed.

Lemma short_header_written h :
  header_wf h -> hd_IsLongHeader (eh_Header h) = false -> exists ty pre, written h ty pre.
Proof.
  intros (Hl & Hp & Hd & Hsv & Ho & Hrest) Hsh. rewrite Hsh in Hrest. destruct Hrest as (Hv & Hs & Hty & Hlen & Htok & Hk).
  exists (Z.lor (Z.lor 0x40 (uint8 (eh_PacketNumberLen h - 1))) (uint8 (Z.shiftl (eh_KeyPhase h) 2))), (hd_DestConnectionID (eh_Header h)).
  assert (Hfb : first_byte_ok h (Z.lor (Z.lor 0x40 (uint8 (eh_PacketNumberLen h - 1))) (uint8 (Z.shiftl (eh_KeyPhase h) 2)))).
  { unfold first_byte_ok. rewrite Hsh. pattern (eh_PacketNumberLen h). apply four_cases; [done|..]; destruct Hk as [-> | ->]; done. }
  set (ty := Z.lor _ (uint8 (Z.shiftl _ 2))) in *. split; [| |done|].
  - intros b. unfold writeHeader. rewrite Hsh. unfold writeShortHeader. rewrite writePacketNumber_bytes by done. cbn.
    by rewrite <- app_assoc.
  - unfold GetLength. rewrite Hsh. cbn [length]. rewrite length_app, Nat2Z.inj_succ, Nat2Z.inj_add, pn_bytes_length by lia. 
    unfold connID_Len, mret, outcome_ret. f_equal. lia.
  - intros n ty' tail Hpb ->; [|done]. unfold parseHeaderImpl. erewrite reader_bind_eq by reflexivity. cbv zeta.
    destruct Hpb as (H40 & H80 & _). cbn. rewrite H80, Hsh. cbn. apply Z.eqb_neq in H40. rewrite H40.
    unfold parseShortHeader. unfold mbind, reader_bind. rewrite ReadConnectionID_app. cbn.
    destruct h as [[ver src dest il t le tok sv o tb pl] ? ? ? ?]. cbn in *. by subst.
Qed.

(** The token and the length of a long header. *)
Definition token_bytes (hdr : Header) : bytes :=
  if hd_Type hdr =? PacketTypeInitial then varint_bytes (Z.of_nat (length (hd_Token hdr))) ++ hd_Token hdr else [].

Lemma parse_versioned_bytes hdr tail :
  hd_Version hdr = VersionTLS -> long_type (hd_typeByte hdr) <> PacketTypeRetry ->
  forall token len, is_varint (Z.of_nat (length token)) -> is_varint len ->
  let hdr' := hdr <| hd_Type := long_type (hd_typeByte hdr) |> <| hd_Length := len |> in
  let hdr' := if long_type (hd_typeByte hdr) =? PacketTypeInitial then hdr' <| hd_Token := token |> else hdr' in
  parse_versioned hdr (token_bytes (hdr' <| hd_Token := token |>) ++ varint_bytes len ++ tail) = Ret ((hdr', None), tail).
Proof.
  intros Hv Hr token len Htok Hlen. cbv zeta. unfold parse_versioned. rewrite Hv. cbn [Z.eqb VersionTLS negb IsSupportedVersion existsb SupportedVersions orb].
  change (IsSupportedVersion _ _) with true. cbn. rewrite (proj2 (Z.eqb_neq _ _) Hr). unfold token_bytes.
  destruct (long_type (hd_typeByte hdr) =? PacketTypeInitial) eqn:Ei; cbn; rewrite Ei.
  - rewrite <- app_assoc. erewrite reader_bind_eq; cycle 1.
    { erewrite reader_bind_eq by by apply ReadVarInt_varint_bytes. erewrite reader_bind_eq by reflexivity.
      rewrite length_app, (proj2 (Z.ltb_ge _ _)) by lia. erewrite reader_bind_eq by (apply ReadFull_app_n; lia). reflexivity. }
    erewrite reader_bind_eq by by apply ReadVarInt_varint_bytes. done.
  - erewrite reader_bind_eq by reflexivity. erewrite reader_bind_eq by by apply ReadVarInt_varint_bytes. done.
Qed.

Lemma long_header_written h :
  header_wf h -> hd_IsLongHeader (eh_Header h) = true -> exists ty pre, written h ty pre.
Proof.
  intros (Hl & Hp & Hd & Hsv & Ho & Hrest) Hlh. rewrite Hlh in Hrest. destruct Hrest as (Hv & Hs & Hty & Hlen & Htl & Htok & Hk).
  destruct (connIDLen_roundtrip _ _ Hd Hs) as (e & Ee & De). set (hdr := eh_Header h) in *.
  set (ty := Z.lor (Z.lor 0xc0 (Z.shiftl (type_bits (hd_Type hdr)) 4)) (uint8 (eh_PacketNumberLen h - 1))).
  assert (Hnr : (hd_Type hdr =? PacketTypeRetry) = false) by by destruct Hty as [-> | [-> | ->]].
  assert (Hfb : first_byte_ok h ty).
  { unfold first_byte_ok, ty. fold hdr. rewrite Hlh. pattern (eh_PacketNumberLen h). apply four_cases; [done|..]; destruct Hty as [-> | [-> | ->]]; done. }
  exists ty, (uint32_bytes (hd_Version hdr) ++ e :: hd_DestConnectionID hdr ++ hd_SrcConnectionID hdr ++ token_bytes hdr ++ varint_bytes (hd_Length hdr)).
  split; [| |done|].
  - intros b. unfold writeHeader. fold hdr. rewrite Hlh. unfold writeLongHeader. fold hdr. rewrite Hnr, Ee. cbn -[uint32_bytes WriteUint32 WriteVarInt].
    fold ty. unfold token_bytes. destruct (hd_Type hdr =? PacketTypeInitial); cbn -[uint32_bytes WriteUint32 WriteVarInt].
    + rewrite WriteVarInt_app by done. cbn -[uint32_bytes WriteUint32 WriteVarInt]. rewrite WriteVarInt_app by done.
      cbn -[uint32_bytes WriteUint32]. rewrite writePacketNumber_bytes by done. f_equal. rewrite Hv. unfold WriteUint32. cbn. by list_simplifier.
    + rewrite WriteVarInt_app by done. cbn -[uint32_bytes WriteUint32].
      rewrite writePacketNumber_bytes by done. f_equal. rewrite Hv. unfold WriteUint32. cbn. by list_simplifier.
  - unfold GetLength. fold hdr. rewrite Hlh, (VarIntLen_length (hd_Length hdr)) by done. cbn -[uint32_bytes Z.of_nat]. unfold token_bytes, connID_Len.
    pose proof (pn_bytes_length h ltac:(lia)) as Hpl.
    destruct (hd_Type hdr =? PacketTypeInitial); [rewrite VarIntLen_length by done; cbn -[uint32_bytes Z.of_nat]|];
      unfold mret, outcome_ret; f_equal; rewrite ?length_app; cbn [length]; rewrite ?length_app; cbn [length]; change (length (uint32_bytes _)) with 4%nat; lia.
  - intros n ty' tail Hpb _. unfold parseHeaderImpl. erewrite reader_bind_eq by reflexivity. cbv zeta.
    destruct Hpb as (H40 & H80 & Hlt). cbn -[uint32_bytes]. fold hdr in H80, Hlt |- *. rewrite Hlh in *. specialize (Hlt eq_refl). rewrite H80. cbn -[uint32_bytes].
    replace ((uint32_bytes (hd_Version hdr) ++ e :: hd_DestConnectionID hdr ++ hd_SrcConnectionID hdr ++ token_bytes hdr ++ varint_bytes (hd_Length hdr)) ++ tail)
      with (uint32_bytes (hd_Version hdr) ++ e :: hd_DestConnectionID hdr ++ hd_SrcConnectionID hdr ++ token_bytes hdr ++ varint_bytes (hd_Length hdr) ++ tail)
      by by list_simplifier.
    rewrite parseLongHeader_prefix; [|rewrite Hv; done|done|by right].
    set (h0 := _ <| hd_SrcConnectionID := _ |>).
    pose proof (parse_versioned_bytes h0 tail Hv ltac:(cbn; rewrite Hlt; by apply Z.eqb_neq) _ _ Htl Hlen) as H. cbv zeta in H.
    change (hd_typeByte h0) with ty' in H. rewrite Hlt in H. unfold token_bytes in *. clear - H Hsv Ho Hlh Htok.
    subst h0. unfold hdr in *. clear hdr. destruct h as [[ver src dest il t le tok sv o tb pl] ? ? ? ?]. cbn in *. subst.
    destruct (Z.eqb_spec t PacketTypeInitial) as [->|Hne]; [exact H|]. destruct Htok as [->| ->]; [done|].
    cbn in H. destruct (Z.eqb_spec t PacketTypeInitial); [done|]. exact H.
Qed.

Lemma header_written h : header_wf h -> exists ty pre, written h ty pre.
Proof. intros Hwf. destruct (hd_IsLongHeader (eh_Header h)) eqn:E; [by apply long_header_written|by apply short_header_written]. Qed.

Lemma parseHeader_Ret n data h r :
  parseHeaderImpl n data = Ret ((h, None), r) ->
  parseHeader n data = Ret ((h <| hd_parsedLen := Z.of_nat (length data) - Z.of_nat (length r) |>, None), r).
Proof. intros E. unfold parseHeader. erewrite reader_bind_eq by reflexivity. by erewrite reader_bind_eq by exact E. Qed.

(** Cutting a datagram after the header was parsed. *)
Lemma ParsePacket_cut n packet rest h tail :
  parseHeaderImpl n (packet ++ rest) = Ret ((h, None), tail ++ rest) -> (length tail <= length packet)%nat ->
  (if hd_IsLongHeader h then hd_Length h = Z.of_nat (length tail) else rest = []) ->
  ParsePacket (packet ++ rest) n = Ret (h <| hd_parsedLen := Z.of_nat (length packet) - Z.of_nat (length tail) |>, packet, rest).
Proof.
  intros E Hle Hcut. unfold ParsePacket. rewrite (parseHeader_Ret _ _ _ _ E). cbn -[Z.of_nat].
  replace (Z.of_nat (length (packet ++ rest)) - Z.of_nat (length (tail ++ rest))) with (Z.of_nat (length packet) - Z.of_nat (length tail))
    by (rewrite !length_app; lia).
  destruct (hd_IsLongHeader h).
  - rewrite Hcut, (proj2 (Z.ltb_ge _ _)) by (rewrite length_app; lia).
    replace (Z.to_nat (Z.of_nat (length packet) - Z.of_nat (length tail) + Z.of_nat (length tail))) with (length packet) by lia.
    by rewrite take_app_length, drop_app_length.
  - subst rest. by rewrite app_nil_r.
Qed.

Lemma readPacketNumber_bytes h tail :
  1 <= Z.land (eh_typeByte h) 0x3 + 1 <= 4 -> forall pn, 0 <= pn < 2 ^ 62 ->
  let n := Z.land (eh_typeByte h) 0x3 + 1 in
  readPacketNumber h (be_bytes (Z.to_nat n) pn ++ tail) =
    Ret (h <| eh_PacketNumberLen := n |> <| eh_PacketNumber := pn mod 2 ^ (8 * n) |>, tail).
Proof.
  cbv zeta. intros Hn pn Hpn. unfold readPacketNumber. set (n := Z.land _ _ + 1) in *. cbn.
  pose proof (ReadUintN_be_bytes (Z.to_nat n) pn tail ltac:(lia)) as E. rewrite Z2Nat.id in E by lia.
  unfold mbind, reader_bind. rewrite E. unfold mret, reader_ret. rewrite int64_id; [done|].
  assert (0 < 2 ^ (8 * n) <= 2 ^ 32) by (split; [lia|apply Z.pow_le_mono_r; lia]).
  pose proof (Z.mod_pos_bound pn (2 ^ (8 * n))). unfold is_int64. lia.
Qed.

(** The protected part of a header, once the protection is removed. *)
Lemma ParseExtended_written h ty pre tail hdr :
  (1 <= eh_PacketNumberLen h <= 4 /\ 0 <= eh_PacketNumber h < 2 ^ 62 /\ (if hd_IsLongHeader (eh_Header h) then eh_KeyPhase h = 0 else True) /\
   hd_IsLongHeader hdr = hd_IsLongHeader (eh_Header h)) ->
  first_byte_ok h ty -> hd_parsedLen hdr = 1 + Z.of_nat (length pre) ->
  ParseExtended hdr (ty :: pre ++ pn_bytes h ++ tail) =
    Ret (h <| eh_Header := hdr |> <| eh_typeByte := ty |>
           <| eh_PacketNumber := eh_PacketNumber h mod 2 ^ (8 * eh_PacketNumberLen h) |>, tail).
Proof.
  intros (Hl & Hpn & Hk & Eil) (Hn & _ & _ & Hx) Epl. unfold ParseExtended, extended_parse. cbn -[Z.of_nat].
  rewrite Epl, Eil. replace (Z.to_nat (1 + Z.of_nat (length pre))) with (S (length pre)) by lia. cbn [drop].
  rewrite drop_app_length. unfold pn_bytes. rewrite <- Hn. destruct (hd_IsLongHeader (eh_Header h)).
  - unfold extended_parseLongHeader. cbn -[Z.of_nat]. rewrite (proj1 Hx). cbn -[Z.of_nat].
    etrans; [by apply readPacketNumber_bytes; cbn; lia|]. rewrite Hn. destruct h. cbn in *. by subst.
  - unfold extended_parseShortHeader. cbn -[Z.of_nat]. rewrite (proj1 Hx). cbn -[Z.of_nat].
    etrans; [by apply readPacketNumber_bytes; cbn; lia|]. destruct Hx as [_ Hx]. destruct h. cbn in *. by rewrite Hx, Hn.
Qed.

(** C32. Round trip of headers: a header is written with exactly [GetLength] bytes.
    From a datagram that starts with it, the parser takes the header and cuts the packet by
    the length field, and leaves what follows; once the protection is removed,
    the rest of the header gives the length of the packet number, its truncated value and
    the key phase. *)
Theorem header_roundtrip h payload rest n :
  header_wf h ->
  (if hd_IsLongHeader (eh_Header h) then hd_Length (eh_Header h) = eh_PacketNumberLen h + Z.of_nat (length payload)
   else n = connID_Len (hd_DestConnectionID (eh_Header h)) /\ rest = []) ->
  exists bs ty,
    let hdr := eh_Header h <| hd_typeByte := ty |> <| hd_parsedLen := Z.of_nat (length bs) - eh_PacketNumberLen h |> in
    (forall b, writeHeader b h = Ret (b ++ bs)) /\ GetLength h = Ret (Z.of_nat (length bs)) /\
    ParsePacket (bs ++ payload ++ rest) n = Ret (hdr, bs ++ payload, rest) /\
    ParseExtended hdr (bs ++ payload) =
      Ret (h <| eh_Header := hdr |> <| eh_typeByte := ty |>
             <| eh_PacketNumber := eh_PacketNumber h mod 2 ^ (8 * eh_PacketNumberLen h) |>, payload).
Proof.
  intros Hwf Hcut. destruct (header_written h Hwf) as (ty & pre & [Hw Hlen Hty Hp]).
  destruct Hwf as (Hl & Hpn & _ & _ & _ & Hrest).
  pose proof (pn_bytes_length h ltac:(lia)) as Hpl. exists (ty :: pre ++ pn_bytes h), ty. cbv zeta.
  set (k := Z.of_nat (length (ty :: pre ++ pn_bytes h))) in *.
  assert (Hk : k = 1 + Z.of_nat (length pre) + eh_PacketNumberLen h) by (unfold k; cbn [length]; rewrite length_app; lia).
  set (hdr := _ <| hd_parsedLen := _ |>). split; [done|]. split; [done|]. split.
  - assert (Ek : Z.of_nat (length ((ty :: pre ++ pn_bytes h) ++ payload)) - Z.of_nat (length (pn_bytes h ++ payload)) = k - eh_PacketNumberLen h)
      by (unfold k; cbn [app length]; rewrite !length_app; lia).
    unfold hdr. rewrite app_assoc, <- Ek.
    rewrite (ParsePacket_cut n ((ty :: pre ++ pn_bytes h) ++ payload) rest (eh_Header h <| hd_typeByte := ty |> <| hd_parsedLen := 0 |>) (pn_bytes h ++ payload)); [done|..].
    + rewrite <- !app_assoc. cbn [app]. rewrite <- !app_assoc. apply Hp; [by apply first_byte_protected|].
      intros E. rewrite E in Hcut. apply Hcut.
    + cbn [app length]. rewrite !length_app. lia.
    + cbn. destruct (hd_IsLongHeader (eh_Header h)); [|apply Hcut]. rewrite length_app, Hcut. lia.
  - change ((ty :: pre ++ pn_bytes h) ++ payload) with (ty :: (pre ++ pn_bytes h) ++ payload). rewrite <- app_assoc.
    apply ParseExtended_written; [|done|cbn; lia]. split; [done|]. split; [done|]. split; [|done].
    destruct (hd_IsLongHeader (eh_Header h)); [apply Hrest|done].
Qed.

(** ** Any input *)

#[global] Instance tame_ReadUint32 : Tame ReadUint32.
Proof. unfold ReadUint32. apply _. Qed.
#[global] Instance tame_read_versions n : Tame (read_versions n).
Proof. induction n; cbn [read_versions]; apply _. Qed.
#[global] Instance tame_parse_versioned h : Tame (parse_versioned h).
Proof. unfold parse_versioned, parseVersionNegotiationPacket. cbv zeta. apply _. Qed.

Lemma ReadConnectionID_Ret n r id r' : 0 <= n -> ReadConnectionID n r = Ret (id, r') -> r = id ++ r' /\ connID_Len id = n.
Proof.
  unfold ReadConnectionID, ReadFullEOF, connID_Len. intros Hn. destruct (Z.eqb_spec n 0) as [->|Hne]; [by intros [= <- <-]|].
  destruct (ReadFull (Z.to_nat n) r) as [[d r1]|[]|] eqn:E; try done. intros [= <- <-].
  apply ReadFull_Ret in E as [-> E]. split; [done|]. lia.
Qed.

Lemma ReadUint32_Ret r v r' : ReadUint32 r = Ret (v, r') -> exists a b c d, r = a :: b :: c :: d :: r'.
Proof. unfold ReadUint32, mbind, reader_bind, ReadByte. destruct r as [|a [|b [|c [|d r]]]]; try done. intros [= _ <-]. eauto. Qed.

(** The version does not change what was parsed before it. *)
Lemma parse_versioned_keeps h r h' err r' :
  parse_versioned h r = Ret ((h', err), r') ->
  hd_DestConnectionID h' = hd_DestConnectionID h /\ hd_IsLongHeader h' = hd_IsLongHeader h /\ hd_parsedLen h' = hd_parsedLen h /\
  (bytes_ok r -> hd_Length h = 0 -> 0 <= hd_Length h') /\ hd_SrcConnectionID h' = hd_SrcConnectionID h.
Proof.
  unfold parse_versioned. cbv zeta. intros E. case_if_in E.
  { apply reader_bind_Ret in E as (h1 & r1 & E & [= <- <- <-]). unfold parseVersionNegotiationPacket in E.
    apply reader_bind_Ret in E as (len & r2 & _ & E). case_if_in E; [done|]. case_if_in E; [done|].
    apply reader_bind_Ret in E as (vs & r3 & _ & [= <- <-]). cbn. split_and!; try done. lia. }
  case_if_in E; [injection E as <- <- <-; split_and!; try done; lia|]. case_if_in E.
  { apply reader_bind_Ret in E as (o & r1 & _ & E). apply reader_bind_Ret in E as (l & r2 & _ & E).
    apply reader_bind_Ret in E as (t & r3 & _ & [= <- <- <-]). cbn. split_and!; try done. lia. }
  apply reader_bind_Ret in E as (h1 & r1 & E1 & E). apply reader_bind_Ret in E as (pl & r2 & Epl & [= <- <- <-]). cbn.
  assert (Hh1 : (exists t, h1 = h <| hd_Type := long_type (hd_typeByte h) |> <| hd_Token := t |>) /\ (bytes_ok r -> bytes_ok r1)).
  { case_if_in E1; [|injection E1 as <- <-; split; [exists (hd_Token h); by destruct h|done]].
    apply reader_bind_Ret in E1 as (tl & r3 & Etl & E1). apply reader_bind_Ret in E1 as (len & r4 & [= <- <-] & E1).
    case_if_in E1; [done|]. apply reader_bind_Ret in E1 as (tok & r5 & Etok & [= <- <-]).
    split; [by eexists|]. intros Hr. apply ReadVarInt_inv in Etl as (_ & Hr3 & _); [|done].
    apply ReadFull_Ret in Etok as [-> _]. by apply Forall_app in Hr3 as [_ ?]. }
  destruct Hh1 as [[t ->] Hok]. cbn. split_and!; try done. intros Hr _.
  apply ReadVarInt_inv in Epl as [Hv _]; [|by apply Hok]. apply Hv.
Qed.

Lemma nibble_high b : is_uint8 b -> 0 <= Z.shiftr b 4 < 16.
Proof. unfold is_uint8. change (2 ^ 8) with 256. intros Hb. rewrite Z.shiftr_div_pow2 by done. change (2 ^ 4) with 16. split; [apply Z.div_pos|apply Z.div_lt_upper_bound]; lia. Qed.
Lemma nibble_low b : is_uint8 b -> 0 <= Z.land b 0xf < 16.
Proof. intros Hb. change 0xf with (Z.ones 4). rewrite Z.land_ones by done. apply Z.mod_pos_bound. done. Qed.

Lemma decoded_length e id : 0 <= e < 16 -> connID_Len id = decodeSingleConnIDLen e -> valid_connID id.
Proof. unfold valid_connID, decodeSingleConnIDLen. intros He ->. destruct (Z.eqb_spec e 0); lia. Qed.

(** The header and the connection ID of any packet. *)
Lemma parseHeaderImpl_any data n h err r :
  0 <= n -> bytes_ok data -> parseHeaderImpl n data = Ret ((h, err), r) ->
  (length r < length data)%nat /\ ParseConnectionID data n = Ret (hd_DestConnectionID h) /\ 0 <= hd_Length h /\
  (err <> None -> hd_parsedLen h = 0) /\ (hd_IsLongHeader h = true -> (6 + length r <= length data)%nat) /\
  (hd_IsLongHeader h = true -> valid_connID (hd_DestConnectionID h) /\ valid_connID (hd_SrcConnectionID h)).
Proof.
  intros Hn Hok E. unfold parseHeaderImpl in E. apply reader_bind_Ret in E as (b0 & r0 & E0 & E).
  destruct data as [|b r1]; [done|]. injection E0 as <- <-. cbv zeta in E. unfold ParseConnectionID. cbn in E.
  destruct (0 <? Z.land b 128); cbn in E |- *.
  - unfold parseLongHeader in E. apply reader_bind_Ret in E as (v & r2 & Ev & E). cbv zeta in E. case_if_in E; [done|].
    apply reader_bind_Ret in E as (lb & r3 & Elb & E). destruct r2 as [|? r4]; [done|]. injection Elb as -> ->.
    unfold decodeConnIDLen in *. assert (Hdec : forall e, 0 <= e -> 0 <= decodeSingleConnIDLen e) by (intros e; unfold decodeSingleConnIDLen; case_if; lia).
    apply ReadUint32_Ret in Ev as (w & x & y & z & ->). cbn -[Z.shiftr].
    assert (Hlb : is_uint8 lb) by (unfold bytes_ok in Hok; rewrite !Forall_cons in Hok; tauto).
    apply reader_bind_Ret in E as (dest & r5 & Ed & E). apply reader_bind_Ret in E as (src & r6 & Es & E).
    apply ReadConnectionID_Ret in Ed as [-> Hd]; [|apply Hdec, Z.shiftr_nonneg; apply Hlb].
    apply ReadConnectionID_Ret in Es as [-> Hs]; [|apply Hdec, Z.land_nonneg; lia].
    pose proof (parse_versioned_keeps _ _ _ _ _ E) as (K1 & _ & K3 & K4 & K5). cbn in K1, K3, K4, K5.
    assert (Hvd : valid_connID dest) by (apply (decoded_length (Z.shiftr lb 4)); [by apply nibble_high|done]).
    assert (Hvs : valid_connID src) by (apply (decoded_length (Z.land lb 0xf)); [by apply nibble_low|done]).
    match type of E with parse_versioned ?h ?r = _ => pose proof (tame_parse_versioned h r) as Ht; rewrite E in Ht end.
    rewrite <- Hd, K1, K5. unfold connID_Len. cbn [length]. rewrite !length_app in *.
    rewrite (proj2 (Z.ltb_ge _ _)) by lia. rewrite Nat2Z.id, drop_0, take_app_length. split_and!; [lia|done| |done|lia|done].
    apply K4; [|done]. unfold bytes_ok in *. rewrite !Forall_cons, !Forall_app in Hok. tauto.
  - case_if_in E; [done|]. apply reader_bind_Ret in E as (h1 & r2 & E & [= <- <- <-]). unfold parseShortHeader in E.
    apply reader_bind_Ret in E as (id & r3 & Eid & [= <- <-]). apply ReadConnectionID_Ret in Eid as [-> Hid]; [|done].
    cbn. rewrite length_app. unfold connID_Len in Hid. rewrite (proj2 (Z.ltb_ge _ _)) by lia.
    rewrite <- Hid, Nat2Z.id, drop_0, take_app_length. split_and!; [lia|done|lia|done|done|done].
Qed.

#[global] Instance tame_parseHeader n : Tame (parseHeader n).
Proof.
  unfold parseHeader, parseHeaderImpl, parseShortHeader, parseLongHeader, decodeConnIDLen. cbv zeta.
  apply tame_bind; [apply _|intros a]. apply tame_bind; [apply _|]. intros [h [e|]]; apply _.
Qed.

(** What is parsed, and how much of the data a packet with a long header takes. *)
Lemma ParsePacket_any data n :
  bytes_ok data -> 0 <= n ->
  match ParsePacket data n with
  | Ret (h, packet, rest) =>
      ParseConnectionID data n = Ret (hd_DestConnectionID h) /\
      (hd_parsedLen h = 0 /\ packet = [] /\ rest = [] \/
       data = packet ++ rest /\ 1 <= hd_parsedLen h <= Z.of_nat (length packet) /\ (rest = [] \/ (6 <= length packet)%nat))
  | Error _ => True
  | Panic _ => False
  end.
Proof.
  intros Hok Hn. unfold ParsePacket. pose proof (tame_parseHeader n data) as Ht.
  destruct (parseHeader n data) as [[[h err] r]| |] eqn:E; cbn -[take drop]; [|done|done].
  unfold parseHeader in E. apply reader_bind_Ret in E as (start & r0 & [= <- <-] & E).
  apply reader_bind_Ret in E as ([h1 err1] & r1 & E1 & E). pose proof (parseHeaderImpl_any _ _ _ _ _ Hn Hok E1) as (H1 & H2 & H3 & H4 & H5 & H6).
  destruct err1 as [e|].
  { injection E as <- <- <-. split; [done|]. left. split; [by apply H4|done]. }
  apply reader_bind_Ret in E as (len & r2 & [= <- <-] & [= <- <- <-]). cbn -[take drop].
  destruct (hd_IsLongHeader h1).
  - case_if; [done|]. zbool. cbn -[take drop]. specialize (H5 eq_refl). split; [done|]. right. rewrite take_drop, length_take.
    split_and!; [done|lia|lia|right; lia].
  - cbn. split; [done|]. right. rewrite app_nil_r. split_and!; [done|lia|lia|by left].
Qed.

(** The connection IDs of a packet with a long header can be sent back. *)
Lemma ParsePacket_ids data n h packet rest :
  bytes_ok data -> 0 <= n -> ParsePacket data n = Ret (h, packet, rest) -> hd_IsLongHeader h = true ->
  valid_connID (hd_DestConnectionID h) /\ valid_connID (hd_SrcConnectionID h).
Proof.
  intros Hok Hn E Hl. unfold ParsePacket in E. destruct (parseHeader n data) as [[[h0 err] r]| |] eqn:Eh; try done.
  unfold parseHeader in Eh. apply reader_bind_Ret in Eh as (start & r0 & [= <- <-] & Eh).
  apply reader_bind_Ret in Eh as ([h1 err1] & r1 & E1 & Eh). pose proof (parseHeaderImpl_any _ _ _ _ _ Hn Hok E1) as (_ & _ & _ & _ & _ & H6).
  destruct err1 as [e|]; [injection Eh as <- <- <-; injection E as <- <- <-; auto|].
  apply reader_bind_Ret in Eh as (len & r2 & [= <- <-] & [= <- <- <-]). cbn -[take drop] in E.
  destruct (hd_IsLongHeader h1) eqn:El; [|injection E as <- <- <-; cbn in Hl; congruence].
  case_if_in E; [done|]. injection E as <- <- <-. by apply H6.
Qed.

(** Any datagram is parsed safely: the parser of headers never panics; what it
    returns are two consecutive parts of the data, the first of which holds the parsed
    header (or, for a version that is not supported, the header alone); and the
    connection ID that the multiplexer routes the packet by is the one the session
    then finds in the header. *)
Theorem parse_packet_any data n :
  bytes_ok data -> 0 <= n ->
  match ParsePacket data n with
  | Ret (h, packet, rest) =>
      ParseConnectionID data n = Ret (hd_DestConnectionID h) /\
      (hd_parsedLen h = 0 /\ packet = [] /\ rest = [] \/
       data = packet ++ rest /\ 1 <= hd_parsedLen h <= Z.of_nat (length packet))
  | Error _ => True
  | Panic _ => False
  end.
Proof.
  intros Hok Hn. pose proof (ParsePacket_any data n Hok Hn) as Ha. destruct (ParsePacket data n) as [[[h packet] rest]| |]; [|done..]. tauto.
Qed.

(** ** Version Negotiation *)

Definition reserved (v : VersionNumber) : bool := Z.land v 0x0f0f0f0f =? 0x0a0a0a0a.

Lemma generateReservedVersion_reserved b : reserved (generateReservedVersion b) = true /\ is_uint32 (generateReservedVersion b).
Proof.
  unfold reserved, generateReservedVersion. rewrite <- Z.land_assoc. change (Z.land 0xfafafafa 0x0f0f0f0f) with 0x0a0a0a0a.
  rewrite Z.land_lor_distr_l, Z.land_diag. split.
  - apply Z.eqb_eq. apply Z.bits_inj'. intros n Hn. rewrite Z.lor_spec, Z.land_spec. by destruct (Z.testbit b n), (Z.testbit _ n).
  - change 0xfafafafa with (Z.land 0xfafafafa (Z.ones 32)). rewrite Z.land_assoc, Z.land_ones by lia.
    apply Z.mod_pos_bound. lia.
Qed.

Lemma strip_greased r b versions :
  Forall (fun v => reserved v = false) versions -> StripGreasedVersions (GetGreasedVersions r b versions) = versions.
Proof.
  intros Hf. unfold StripGreasedVersions, GetGreasedVersions. set (k := Z.to_nat _).
  assert (Hid : forall l, Forall (fun v => reserved v = false) l -> List.filter (fun v => negb (Z.land v 0x0f0f0f0f =? 0x0a0a0a0a)) l = l).
  { intros l. induction 1 as [|v l Hv _ IH]; [done|]. cbn. unfold reserved in Hv. by rewrite Hv, IH. }
  rewrite List.filter_app. cbn [List.filter]. pose proof (generateReservedVersion_reserved b) as [Hr _]. unfold reserved in Hr. rewrite Hr. cbn [negb].
  rewrite !Hid by (by apply Forall_take || by apply Forall_drop). apply take_drop.
Qed.

(** A reserved version is never chosen. *)
Lemma choose_greased r b ours versions :
  Forall (fun v => reserved v = false) ours ->
  ChooseSupportedVersion ours (GetGreasedVersions r b versions) = ChooseSupportedVersion ours versions.
Proof.
  induction 1 as [|v ours Hv _ IH]; [done|]. cbn [ChooseSupportedVersion]. rewrite IH.
  replace (existsb (fun theirVer => v =? theirVer) (GetGreasedVersions r b versions)) with (existsb (fun theirVer => v =? theirVer) versions); [done|].
  unfold GetGreasedVersions. set (k := Z.to_nat _). rewrite existsb_app. cbn [existsb].
  rewrite <- (take_drop k versions) at 1. rewrite existsb_app.
  destruct (Z.eqb_spec v (generateReservedVersion b)) as [->|_]; [|done].
  pose proof (generateReservedVersion_reserved b) as [Hr _]. congruence.
Qed.

Lemma write_versions buf vs : foldl (fun buf v => WriteUint32 buf v) buf vs = buf ++ concat (map uint32_bytes vs).
Proof.
  revert buf. induction vs as [|v vs IH]; intros buf; cbn [foldl map concat]; [by rewrite app_nil_r|].
  rewrite IH. unfold uint32_bytes, WriteUint32. cbn. by rewrite <- app_assoc.
Qed.

Lemma read_versions_bytes vs r :
  Forall is_uint32 vs -> read_versions (length vs) (concat (map uint32_bytes vs) ++ r) = Ret (vs, r).
Proof.
  induction 1 as [|v vs Hv _ IH]; [done|]. cbn [length read_versions map concat]. rewrite <- app_assoc.
  erewrite reader_bind_eq by by apply ReadUint32_bytes. by erewrite reader_bind_eq by exact IH.
Qed.

Lemma versions_length vs : length (concat (map uint32_bytes vs)) = (4 * length vs)%nat.
Proof. induction vs as [|v vs IH]; [done|]. cbn [map concat length]. rewrite length_app, IH. change (length (uint32_bytes v)) with 4%nat. lia. Qed.

Lemma first_byte_long t : is_uint8 t -> (0 <? Z.land (Z.lor t 0xc0) 0x80) = true.
Proof. intros Ht. unfold is_uint8 in Ht. change (2 ^ 8) with 256 in Ht. small_cases Ht. Qed.

Lemma greased_uint32 r b versions : Forall is_uint32 versions -> Forall is_uint32 (GetGreasedVersions r b versions).
Proof.
  intros Hf. unfold GetGreasedVersions. apply Forall_app. split; [by apply Forall_take|].
  constructor; [apply generateReservedVersion_reserved|by apply Forall_drop].
Qed.

(** Round trip of version negotiation: the packet that the server composes is
    recognised as a Version Negotiation packet, the client reads from it the connection
    IDs and the list with one reserved version added, and the reserved version never
    changes which version is chosen. *)
Theorem version_negotiation_roundtrip t r b dest src versions ours n :
  is_uint8 t -> valid_connID dest -> valid_connID src -> Forall is_uint32 versions ->
  Forall (fun v => reserved v = false) versions -> Forall (fun v => reserved v = false) ours ->
  exists data hdr, ComposeVersionNegotiation t r b dest src versions = Ret data /\
    IsVersionNegotiationPacket data = true /\ ParsePacket data n = Ret (hdr, data, []) /\
    hd_Version hdr = 0 /\ hd_DestConnectionID hdr = dest /\ hd_SrcConnectionID hdr = src /\
    StripGreasedVersions (hd_SupportedVersions hdr) = versions /\
    ChooseSupportedVersion ours (hd_SupportedVersions hdr) = ChooseSupportedVersion ours versions.
Proof.
  intros Ht Hd Hs Hvs Hnr Hours. destruct (connIDLen_roundtrip dest src Hd Hs) as (e & Ee & De).
  set (gs := GetGreasedVersions r b versions). assert (Hgs : Forall is_uint32 gs) by by apply greased_uint32.
  assert (Hne : (0 < length gs)%nat) by (unfold gs, GetGreasedVersions; rewrite length_app; cbn; lia).
  set (vb := concat (map uint32_bytes gs)). assert (Hvb : length vb = (4 * length gs)%nat) by apply versions_length.
  set (data := Z.lor t 0xc0 :: uint32_bytes 0 ++ e :: dest ++ src ++ vb).
  set (h0 := zero_header <| hd_typeByte := Z.lor t 0xc0 |> <| hd_IsLongHeader := true |> <| hd_Version := 0 |>
    <| hd_DestConnectionID := dest |> <| hd_SrcConnectionID := src |> <| hd_SupportedVersions := gs |>).
  assert (Ep : parseHeaderImpl n data = Ret ((h0, None), [])).
  { unfold parseHeaderImpl, data. erewrite reader_bind_eq by reflexivity. cbv zeta. cbn -[uint32_bytes parseLongHeader].
    rewrite first_byte_long by done. cbn -[uint32_bytes parseLongHeader]. rewrite parseLongHeader_prefix; [|done|done|by left].
    unfold parse_versioned. cbn. unfold parseVersionNegotiationPacket. unfold mbind at 1, reader_bind at 1. erewrite reader_bind_eq by reflexivity.
    rewrite Hvb. destruct (Z.eqb_spec (Z.of_nat (4 * length gs)) 0) as [|_]; [lia|].
    rewrite Nat2Z.inj_mul, Z.mul_comm, Z.rem_mul, Z.quot_mul, Nat2Z.id by lia. cbn [Z.eqb negb].
    rewrite <- (app_nil_r vb). erewrite reader_bind_eq by by apply read_versions_bytes. done. }
  exists data, (h0 <| hd_parsedLen := Z.of_nat (length data) |>). split_and!; try done.
  - unfold ComposeVersionNegotiation. rewrite Ee. cbn [mbind outcome_bind]. rewrite write_versions. by list_simplifier.
  - unfold IsVersionNegotiationPacket, data. cbn. by rewrite first_byte_long.
  - unfold ParsePacket. rewrite (parseHeader_Ret _ _ _ _ Ep). cbn -[length Z.of_nat take drop data]. rewrite Z.sub_0_r, Z.add_0_r, Z.ltb_irrefl, Nat2Z.id.
    by rewrite firstn_all, drop_all.
  - by apply strip_greased.
  - by apply choose_greased.
Qed.

(** ** Retry packets *)

(** The header that [sendRetry] writes. *)
Definition retry_header (version : VersionNumber) (src dest orig : ConnectionID) (token : bytes) : Header :=
  zero_header <| hd_IsLongHeader := true |> <| hd_Type := PacketTypeRetry |> <| hd_Version := version |>
    <| hd_SrcConnectionID := src |> <| hd_DestConnectionID := dest |> <| hd_OrigDestConnectionID := orig |> <| hd_Token := token |>.

Definition retry_first_byte (e : Z) : byte := Z.lor (Z.lor 0xc0 (Z.shiftl (type_bits PacketTypeRetry) 4)) e.

Lemma retry_first_byte_ok e : 0 <= e < 16 ->
  long_type (retry_first_byte e) = PacketTypeRetry /\ Z.land (retry_first_byte e) 0xf = e /\
  Z.land (retry_first_byte e) 0x40 <> 0 /\ (0 <? Z.land (retry_first_byte e) 0x80) = true.
Proof. intros He. split_and!; small_cases He. Qed.

(** A Retry is parsed to its connection IDs and its token, which fill the datagram. *)
Lemma retry_parsed src dest orig token n :
  valid_connID src -> valid_connID dest -> valid_connID orig ->
  exists data ty, writeHeader [] (toExtendedHeader (retry_header VersionTLS src dest orig token)) = Ret data /\
    IsVersionNegotiationPacket data = false /\
    ParsePacket data n = Ret (retry_header VersionTLS src dest orig token <| hd_typeByte := ty |> <| hd_parsedLen := Z.of_nat (length data) |>, data, []).
Proof.
  intros Hs Hd Ho. set (hdr := retry_header _ _ _ _ _). destruct (connIDLen_roundtrip _ _ Hd Hs) as (e & Ee & De). destruct (single_connIDLen _ Ho) as (o & Eo & Hor & Do).
  destruct (retry_first_byte_ok o Hor) as (T1 & T2 & T3 & T4). remember (retry_first_byte o) as ty eqn:Ety.
  set (data := ty :: uint32_bytes VersionTLS ++ e :: dest ++ src ++ orig ++ token). exists data, ty.
  assert (Ep : parseHeaderImpl n data = Ret ((hdr <| hd_typeByte := ty |>, None), [])).
  { unfold parseHeaderImpl, data. erewrite reader_bind_eq by reflexivity. cbv zeta. cbn -[uint32_bytes parseLongHeader].
    rewrite T4. cbn -[uint32_bytes parseLongHeader]. rewrite parseLongHeader_prefix; [|done|done|by right].
    unfold parse_versioned. cbn -[ReadConnectionID Len ReadFull]. rewrite T1, T2, Do. cbn -[ReadConnectionID Len ReadFull].
    rewrite (reader_bind_eq _ _ _ _ _ (ReadConnectionID_app orig _)). erewrite reader_bind_eq by reflexivity.
    rewrite Nat2Z.id. rewrite <- (app_nil_r token) at 2. erewrite reader_bind_eq by apply ReadFull_app. done. }
  split_and!.
  - unfold writeHeader, writeLongHeader. cbn -[uint32_bytes encodeConnIDLen encodeSingleConnIDLen data]. rewrite Eo. cbn -[uint32_bytes encodeConnIDLen data].
    rewrite Ee. change (Z.lor _ o) with (retry_first_byte o). rewrite <- Ety. cbn. unfold data. by list_simplifier.
  - unfold IsVersionNegotiationPacket, data. cbn. by rewrite T4.
  - unfold ParsePacket. rewrite (parseHeader_Ret _ _ _ _ Ep). cbn -[length Z.of_nat take drop data]. rewrite Z.sub_0_r, Z.add_0_r, Z.ltb_irrefl, Nat2Z.id.
    by rewrite firstn_all, drop_all.
Qed.

(** ** Examples *)

(** An Initial packet with a token, and 1-RTT data. *)
Definition demo_initial : ExtendedHeader :=
  mkExtendedHeader (mkHeader VersionTLS [1; 2; 3; 4] [5; 6; 7; 8; 9] true PacketTypeInitial 7 [0xaa; 0xbb] [] [] 0 0) 0 4 1000 0.
Definition demo_short : ExtendedHeader :=
  mkExtendedHeader (mkHeader 0 [] [5; 6; 7; 8; 9] false 0 0 [] [] [] 0 0) 0 2 70000 1.

Lemma demo_initial_wf : header_wf demo_initial.
Proof.
  unfold header_wf, valid_connID, is_varint, connID_Len, maxVarInt8; cbn.
  split_and!; try done; try lia; right; done.
Qed.

Lemma demo_short_wf : header_wf demo_short.
Proof. unfold header_wf, valid_connID, connID_Len; cbn. split_and!; try done; try lia; right; done. Qed.

Lemma header_roundtrip_witness :
  (exists hdr, ParsePacket ([0xc3; 0x51; 0x47; 0x4f; 0xff; 0x21; 5; 6; 7; 8; 9; 1; 2; 3; 4; 2; 0xaa; 0xbb; 7; 0; 0; 3; 0xe8] ++
     [10; 11; 12] ++ [99]) 0 =
     Ret (hdr, [0xc3; 0x51; 0x47; 0x4f; 0xff; 0x21; 5; 6; 7; 8; 9; 1; 2; 3; 4; 2; 0xaa; 0xbb; 7; 0; 0; 3; 0xe8; 10; 11; 12], [99])) /\
  (exists hdr h, ParsePacket [0x45; 5; 6; 7; 8; 9; 0x11; 0x70; 10] 5 = Ret (hdr, [0x45; 5; 6; 7; 8; 9; 0x11; 0x70; 10], []) /\
     ParseExtended hdr [0x45; 5; 6; 7; 8; 9; 0x11; 0x70; 10] = Ret (h, [10]) /\
     eh_PacketNumber h = 0x1170 /\ eh_KeyPhase h = 1).
Proof.
  split.
  - destruct (header_roundtrip demo_initial [10; 11; 12] [99] 0 demo_initial_wf eq_refl) as (bs & ty & Hw & _ & Hp & _).
    assert (Hbs : [] ++ bs = [0xc3; 0x51; 0x47; 0x4f; 0xff; 0x21; 5; 6; 7; 8; 9; 1; 2; 3; 4; 2; 0xaa; 0xbb; 7; 0; 0; 3; 0xe8]).
    { assert (E : Ret ([] ++ bs) = Ret [0xc3; 0x51; 0x47; 0x4f; 0xff; 0x21; 5; 6; 7; 8; 9; 1; 2; 3; 4; 2; 0xaa; 0xbb; 7; 0; 0; 3; 0xe8])
        by (rewrite <- (Hw []); vm_compute; reflexivity). congruence. }
    cbn [app] in Hbs. subst bs. eexists. exact Hp.
  - destruct (header_roundtrip demo_short [10] [] 5 demo_short_wf (conj eq_refl eq_refl)) as (bs & ty & Hw & _ & Hp & He).
    assert (Hbs : [] ++ bs = [0x45; 5; 6; 7; 8; 9; 0x11; 0x70]).
    { assert (E : Ret ([] ++ bs) = Ret [0x45; 5; 6; 7; 8; 9; 0x11; 0x70]) by (rewrite <- (Hw []); vm_compute; reflexivity). congruence. }
    cbn [app] in Hbs. subst bs. do 2 eexists. split; [exact Hp|]. split; [exact He|]. vm_compute. split; reflexivity.
Defined.

Lemma parse_packet_any_witness :
  match ParsePacket [0x45; 5; 6; 7; 8; 9; 0x11] 5 with
  | Ret (h, packet, rest) => ParseConnectionID [0x45; 5; 6; 7; 8; 9; 0x11] 5 = Ret (hd_DestConnectionID h)
  | _ => False
  end.
Proof.
  assert (Hok : bytes_ok [0x45; 5; 6; 7; 8; 9; 0x11]) by (unfold bytes_ok, is_uint8; repeat constructor; lia).
  pose proof (parse_packet_any [0x45; 5; 6; 7; 8; 9; 0x11] 5 Hok ltac:(lia)) as H. vm_compute in H |- *. exact (proj1 H).
Defined.

Lemma version_negotiation_roundtrip_witness :
  exists data hdr, ComposeVersionNegotiation 0 1 0 [1; 2; 3; 4] [] SupportedVersions = Ret data /\
    ParsePacket data 0 = Ret (hdr, data, []) /\ hd_SupportedVersions hdr = [VersionTLS; 0x0a0a0a0a] /\
    ChooseSupportedVersion SupportedVersions (hd_SupportedVersions hdr) = (VersionTLS, true).
Proof.
  destruct (version_negotiation_roundtrip 0 1 0 [1; 2; 3; 4] [] SupportedVersions SupportedVersions 0) as (data & hdr & E & _ & Hp & _ & _ & _ & _ & Hc).
  - unfold is_uint8. lia.
  - right. unfold connID_Len. cbn. lia.
  - left. reflexivity.
  - constructor; [unfold is_uint32, VersionTLS; lia|constructor].
  - repeat constructor.
  - repeat constructor.
  - exists data, hdr. split; [exact E|]. split; [exact Hp|]. split; [|exact Hc].
    vm_compute in E. injection E as <-. vm_compute in Hp. injection Hp as <-. reflexivity.
Defined.
