(* ===== verification/Framer.v ===== *)
(** * Frames to send (framer.go, window_update_queue.go)

    The queue of control frames and the round robin over the streams that have data,
    against the interface of what holds the streams; and the queue of window
    updates.  While the framer takes a frame from a stream, the stream can report to the
    session, which can queue control frames; this is why the framer is threaded through
    the calls of the interface. *)

From S2P Require Import Prelude VarInt Protocol Frames FlowControl.

Definition MinStreamFrameSize : ByteCount := 128.

Record framerI := mkFramer {
  fr_activeStreams : gset StreamID;
  fr_streamQueue : list StreamID;
  fr_controlFrames : list Frame
}.

#[global] Instance framer_eta : Eta framerI := fun f =>
  mkFramer (fr_activeStreams f) (fr_streamQueue f) (fr_controlFrames f).

Definition newFramer : framerI := mkFramer ∅ [] [].

Definition framer_QueueControlFrame (f : framerI) (frame : Frame) : framerI :=
  f <| fr_controlFrames := fr_controlFrames f ++ [frame] |>.

(** The loop of [AppendControlFrames]; the last frame of the slice is the first of [stack]. *)
Fixpoint append_control (stack frames : list Frame) (length maxLen : ByteCount) :
    outcome (list Frame * list Frame * ByteCount) :=
  match stack with
  | [] => mret ([], frames, length)
  | frame :: stack' =>
      frameLen ← Length frame;
      if maxLen <? uint64 (length + frameLen) then mret (stack, frames, length)
      else append_control stack' (frames ++ [frame]) (uint64 (length + frameLen)) maxLen
  end.

Definition AppendControlFrames (f : framerI) (frames : list Frame) (maxLen : ByteCount) :
    outcome (framerI * list Frame * ByteCount) :=
  '(stack, frames, length) ← append_control (rev (fr_controlFrames f)) frames 0 maxLen;
  mret (f <| fr_controlFrames := rev stack |>, frames, length).

Definition AddActiveStream (f : framerI) (id : StreamID) : framerI :=
  if bool_decide (id ∈ fr_activeStreams f) then f
  else f <| fr_streamQueue := fr_streamQueue f ++ [id] |> <| fr_activeStreams := {[id]} ∪ fr_activeStreams f |>.

(** What the framer uses of the rest of the session [W] (the interfaces
    [streamGetter] and [sendStreamI]): look a stream up, which is found or not, and take a frame from
    the stream that was found. *)
Class StreamGetter (W : Type) := {
  getSendStream : W -> StreamID -> W * bool;
  popFrame : W * framerI -> StreamID -> ByteCount -> outcome (W * framerI * (option StreamFrame * bool))
}.

Section AppendStreamFrames.
Context {W : Type} `{StreamGetter W}.

(** The loop of [AppendStreamFrames], for [n] more streams. *)
Fixpoint append_streams (n : nat) (w : W) (f : framerI) (frames : list Frame) (length : ByteCount) (frameAdded : bool)
    (maxLen : ByteCount) : outcome (W * framerI * list Frame * ByteCount * bool) :=
  match n with
  | O => mret (w, f, frames, length, frameAdded)
  | S n =>
      if maxLen <? uint64 (MinStreamFrameSize + length) then mret (w, f, frames, length, frameAdded) else
      match fr_streamQueue f with
      | [] => Panic "index out of range"
      | id :: queue =>
          let f := f <| fr_streamQueue := queue |> in
          let '(w, found) := getSendStream w id in
          if negb found then
            append_streams n w (f <| fr_activeStreams := fr_activeStreams f ∖ {[id]} |>) frames length frameAdded maxLen
          else
          let remainingLen := uint64 (maxLen - length) in
          l ← VarIntLen remainingLen;
          '(w, f, (frame, hasMoreData)) ← popFrame (w, f) id (uint64 (remainingLen + l));
          let f := if hasMoreData : bool then f <| fr_streamQueue := fr_streamQueue f ++ [id] |>
                   else f <| fr_activeStreams := fr_activeStreams f ∖ {[id]} |> in
          match frame with
          | None => append_streams n w f frames length frameAdded maxLen
          | Some frame =>
              l ← lengthStreamFrame frame;
              append_streams n w f (frames ++ [FStream frame]) (uint64 (length + l)) true maxLen
          end
      end
  end.

(** The last frame, which has to be a STREAM frame, is written without its length. *)
Definition without_last_len (frames : list Frame) : outcome (list Frame) :=
  match rev frames with
  | FStream f :: rest =>
      mret (rev rest ++ [FStream (mkStreamFrame (sf_StreamID f) (sf_FinBit f) false (sf_Offset f) (sf_Data f))])
  | _ :: _ => Panic "interface conversion"
  | [] => Panic "index out of range"
  end.

Definition AppendStreamFrames (w : W) (f : framerI) (frames : list Frame) (maxLen : ByteCount) :
    outcome (W * framerI * list Frame * ByteCount) :=
  let numActiveStreams := length (fr_streamQueue f) in
  '(w, f, frames, length, frameAdded) ← append_streams numActiveStreams w f frames 0 false maxLen;
  if frameAdded : bool then frames ← without_last_len frames; mret (w, f, frames, length)
  else mret (w, f, frames, length).
End AppendStreamFrames.

(** ** The frames fit *)

Definition no_len (f : StreamFrame) : StreamFrame :=
  mkStreamFrame (sf_StreamID f) (sf_FinBit f) false (sf_Offset f) (sf_Data f).

(** The STREAM frames that streams give. *)
Record stream_frame_ok (f : StreamFrame) : Prop := {
  sfo_len : sf_DataLenPresent f = true;
  sfo_id : is_id (sf_StreamID f);
  sfo_offset : 0 <= sf_Offset f;
  sfo_end : sf_Offset f + DataLen f <= MaxByteCount;
  sfo_content : sf_Data f <> [] \/ sf_FinBit f = true
}.

(** Without its length, the last frame of a packet saves what it was allowed to be too long. *)
Lemma no_len_fits f l R v :
  stream_frame_ok f -> lengthStreamFrame f = Ret l -> VarIntLen R = Ret v -> l <= R + v -> MinStreamFrameSize <= R < 2 ^ 14 ->
  exists l', lengthStreamFrame (no_len f) = Ret l' /\ l' <= R /\ 0 <= l' <= l.
Proof.
  intros [Hp Hid Ho He _] El Ev Hl HR. unfold MinStreamFrameSize, is_id, MaxByteCount, DataLen in *.
  destruct (VarIntLen_cases (sf_StreamID f)) as (li & Hli & Ci); [varint|].
  destruct (VarIntLen_cases (sf_Offset f)) as (lo & Hlo & Co); [varint|].
  destruct (VarIntLen_cases (Z.of_nat (length (sf_Data f)))) as (ld & Hld & Cd); [varint|].
  destruct (VarIntLen_cases R) as (v' & Hv & Cv); [varint|]. rewrite Hv in Ev. injection Ev as ->.
  unfold lengthStreamFrame, no_len, DataLen in *. cbn in *. rewrite Hp in El.
  rewrite uint64_id in El |- * by go_range. rewrite Hli in El |- *. cbn in El |- *.
  destruct (sf_Offset f =? 0); cbn in El |- *; rewrite ?Hlo, ?Hld in El; rewrite ?Hlo; cbn in El |- *; injection El as <-;
    (eexists; split; [reflexivity|]); lia.
Qed.

(** The frames of the control queue can be written. *)
Definition has_length (fr : Frame) : Prop := exists l, Length fr = Ret l /\ 0 < l < 2 ^ 62.

Definition control_ok (fr : Frame) : Prop := has_length fr /\ forall rest, frame_wf fr rest.

(** Control frames can only be added at the end of the queue. *)
Definition queued (f f' : framerI) : Prop :=
  exists q, fr_controlFrames f' = fr_controlFrames f ++ q /\ Forall control_ok q.

Lemma queued_refl f f' : fr_controlFrames f' = fr_controlFrames f -> queued f f'.
Proof. intros E. exists []. by rewrite E, app_nil_r. Qed.

Lemma queued_trans f1 f2 f3 : queued f1 f2 -> queued f2 f3 -> queued f1 f3.
Proof.
  intros (q1 & E1 & H1) (q2 & E2 & H2). exists (q1 ++ q2). split; [by rewrite E2, E1, app_assoc|]. by apply Forall_app.
Qed.

(** What the streams promise: taking a frame of at most [maxBytes] succeeds, and does not
    touch the queue of streams. *)
Class PopsFrames {W : Type} `{StreamGetter W} (ok : W -> Prop) : Prop := {
  get_ok w id w' found : ok w -> getSendStream w id = (w', found) -> ok w';
  pop_ok w f id w' maxBytes :
    ok w -> getSendStream w id = (w', true) -> 0 <= maxBytes < 2 ^ 14 ->
    exists w'' f' frame more, popFrame (w', f) id maxBytes = Ret (w'', f', (frame, more)) /\ ok w'' /\
      fr_activeStreams f' = fr_activeStreams f /\ fr_streamQueue f' = fr_streamQueue f /\ queued f f' /\
      forall fr, frame = Some fr ->
        stream_frame_ok fr /\ sf_StreamID fr = id /\ exists l, lengthStreamFrame fr = Ret l /\ l <= maxBytes
}.

(** The turns of the streams [ids], one after the other, while control frames may be queued: a stream that is gone is
    skipped, any other one is asked for a frame, for which it may use all the [room] that is left. [new] are the frames
    that the streams handed out, all of them and in this order, [kept] are the streams that have more to send. *)
Inductive turns {W : Type} `{StreamGetter W} : ByteCount -> W * list Frame -> list StreamID -> list StreamFrame -> list StreamID -> W * list Frame -> ByteCount -> Prop :=
| turns_nil room wq : turns room wq [] [] [] wq room
| turn_gone room w q id w1 ids new kept wq' room' :
    MinStreamFrameSize <= room -> getSendStream w id = (w1, false) -> turns room (w1, q) ids new kept wq' room' ->
    turns room (w, q) (id :: ids) new kept wq' room'
| turn_idle room f maxBytes f' more w id w1 w2 ids new kept wq' room' :
    MinStreamFrameSize <= room <= maxBytes -> getSendStream w id = (w1, true) -> popFrame (w1, f) id maxBytes = Ret (w2, f', (None, more)) ->
    turns room (w2, fr_controlFrames f') ids new kept wq' room' ->
    turns room (w, fr_controlFrames f) (id :: ids) new ((if more then [id] else []) ++ kept) wq' room'
| turn_sent room f maxBytes f' more frame l w id w1 w2 ids new kept wq' room' :
    MinStreamFrameSize <= room <= maxBytes -> getSendStream w id = (w1, true) -> popFrame (w1, f) id maxBytes = Ret (w2, f', (Some frame, more)) ->
    lengthStreamFrame frame = Ret l -> turns (room - l) (w2, fr_controlFrames f') ids new kept wq' room' ->
    turns room (w, fr_controlFrames f) (id :: ids) (frame :: new) ((if more then [id] else []) ++ kept) wq' room'.

(** The active streams are those of the queue, each once. *)
Definition framer_ok (f : framerI) : Prop :=
  NoDup (fr_streamQueue f) /\ forall id, id ∈ fr_activeStreams f <-> id ∈ fr_streamQueue f.

Fixpoint frames_length (frames : list StreamFrame) : outcome ByteCount :=
  match frames with
  | [] => mret 0
  | f :: frames => l ← lengthStreamFrame f; n ← frames_length frames; mret (l + n)
  end.

Lemma frames_length_snoc frames f n l :
  frames_length frames = Ret n -> lengthStreamFrame f = Ret l -> frames_length (frames ++ [f]) = Ret (n + l).
Proof.
  revert n. induction frames as [|g frames IH]; cbn; intros n En El.
  - injection En as <-. rewrite El. cbn. unfold mret, outcome_ret. f_equal. lia.
  - destruct (lengthStreamFrame g) as [lg| |]; cbn in *; try done. destruct (frames_length frames) as [n'| |]; cbn in *; try done.
    injection En as <-. rewrite (IH n') by done. cbn. unfold mret, outcome_ret. f_equal. lia.
Qed.

(** The frames that were added, and that they fit when the last one is written without its length. *)
Record added (maxLen : ByteCount) (new : list StreamFrame) (length : ByteCount) : Prop := {
  ad_ok : Forall stream_frame_ok new;
  ad_length : frames_length new = Ret length;
  ad_bound : 0 <= length <= maxLen + 8;
  ad_fits : forall init last, new = init ++ [last] ->
    exists n l, frames_length init = Ret n /\ lengthStreamFrame (no_len last) = Ret l /\ n + l <= maxLen
}.

Lemma added_snoc maxLen new length fr l v :
  added maxLen new length -> MinStreamFrameSize + length <= maxLen < 2 ^ 14 -> stream_frame_ok fr ->
  lengthStreamFrame fr = Ret l -> VarIntLen (maxLen - length) = Ret v -> l <= maxLen - length + v ->
  added maxLen (new ++ [fr]) (length + l).
Proof.
  intros [Hok Hlen Hb Hf] Hg Hfr El Ev Hl. destruct (no_len_fits fr l _ v Hfr El Ev Hl ltac:(lia)) as (l' & El' & Hl' & Hl0).
  split.
  - apply Forall_app. split; [done|by constructor].
  - by apply frames_length_snoc.
  - destruct (VarIntLen_cases (maxLen - length)) as (v' & Ev' & Cv); [unfold MinStreamFrameSize in *; varint|].
    rewrite Ev in Ev'. injection Ev' as <-. lia.
  - intros init last [-> [= ->]]%app_inj_tail. exists length, l'. split_and!; [done|done|lia].
Qed.

Section Fit.
Context {W : Type} `{PopsFrames W ok}.

(** The queue after the stream [id] had its turn. *)
Lemma requeued id todo done (more : bool) f2 f3 :
  fr_streamQueue f2 = todo ++ done -> (forall id', id' ∈ fr_activeStreams f2 <-> id' ∈ id :: todo ++ done) -> NoDup (id :: todo ++ done) ->
  f3 = (if more then f2 <| fr_streamQueue := fr_streamQueue f2 ++ [id] |> else f2 <| fr_activeStreams := fr_activeStreams f2 ∖ {[id]} |>) ->
  let kept := if more then [id] else [] in
  fr_streamQueue f3 = todo ++ (done ++ kept) /\ (forall id', id' ∈ fr_activeStreams f3 <-> id' ∈ todo ++ (done ++ kept)) /\ NoDup (todo ++ (done ++ kept)).
Proof.
  intros Hq2 Ha2 [Hnin Hnd]%NoDup_cons -> kept. unfold kept. rewrite app_assoc. destruct more; cbn; rewrite ?Hq2, ?app_nil_r.
  - split_and!; [done| |apply NoDup_app; split_and!; [done|set_solver|apply NoDup_singleton]].
    intros id'. rewrite Ha2, elem_of_cons, (elem_of_app (_ ++ _)), list_elem_of_singleton. tauto.
  - split_and!; [done| |done]. intros id'. rewrite elem_of_difference, elem_of_singleton, Ha2, elem_of_cons. split; [tauto|]. intros Hin. split; [by right|]. by intros ->.
Qed.

Lemma append_streams_ok maxLen frames todo : forall w f done new len,
  ok w -> 0 <= maxLen < 2 ^ 14 - 8 -> NoDup (todo ++ done) -> fr_streamQueue f = todo ++ done ->
  (forall id, id ∈ fr_activeStreams f <-> id ∈ todo ++ done) -> added maxLen new len ->
  exists w' f' fresh len' k kept,
    append_streams (length todo) w f (frames ++ map FStream new) len (negb (bool_decide (new = []))) maxLen =
      Ret (w', f', frames ++ map FStream (new ++ fresh), len', negb (bool_decide (new ++ fresh = []))) /\
    ok w' /\ fr_streamQueue f' = drop k todo ++ done ++ kept /\ framer_ok f' /\ added maxLen (new ++ fresh) len' /\ queued f f' /\
    turns (maxLen - len) (w, fr_controlFrames f) (take k todo) fresh kept (w', fr_controlFrames f') (maxLen - len') /\
    (drop k todo = [] \/ maxLen - len' < MinStreamFrameSize).
Proof.
  induction todo as [|id todo IH]; intros w f done new len Hw Hm Hnd Hq Hact Had.
  { exists w, f, [], len, 0%nat, []. cbn. rewrite !app_nil_r. split_and!; try done; [|by apply queued_refl|constructor|by left]. split; [by rewrite Hq|]. intros id. by rewrite Hq, Hact. }
  cbn [length append_streams]. destruct (ad_bound _ _ _ Had) as [Hb1 Hb2].
  rewrite uint64_id by (unfold MinStreamFrameSize; go_range).
  destruct (Z.ltb_spec maxLen (MinStreamFrameSize + len)) as [Hlt|Hge].
  { exists w, f, [], len, 0%nat, []. cbn. rewrite !app_nil_r. split_and!; try done; [|by apply queued_refl|constructor|right; lia].
    split; [by rewrite Hq|]. intros id'. by rewrite Hq, Hact. }
  rewrite Hq. cbn [app]. pose proof (get_ok w id) as Hget. destruct (getSendStream w id) as [w1 found] eqn:Eg.
  specialize (Hget w1 found Hw eq_refl). cbn [app] in Hnd, Hact. apply NoDup_cons in Hnd as [Hnin Hnd].
  destruct found; cbn [negb].
  2: { destruct (IH w1 (f <| fr_streamQueue := todo ++ done |> <| fr_activeStreams := fr_activeStreams f ∖ {[id]} |>) done new len)
      as (w' & f' & fresh & len' & k & kept & E & H1 & H2 & H4 & H5 & H6 & H7 & H8); try done.
    { intros id'. cbn. rewrite elem_of_difference, elem_of_singleton, Hact, elem_of_cons. split; [tauto|]. intros Hin. split; [by right|]. by intros ->. }
    exists w', f', fresh, len', (S k), kept. split; [exact E|]. split_and!; try done. cbn [take]. apply (turn_gone _ _ _ _ w1); [lia|done|exact H7]. }
  rewrite uint64_id by (unfold MinStreamFrameSize in *; go_range).
  destruct (VarIntLen_cases (maxLen - len)) as (v & Ev & Cv); [unfold MinStreamFrameSize in *; varint|]. rewrite Ev. cbn [mbind outcome_bind].
  assert (Hv : 0 <= maxLen - len + v < 2 ^ 14) by (unfold MinStreamFrameSize in *; lia). rewrite uint64_id by (unfold is_uint64; lia).
  set (f0 := f <| fr_streamQueue := todo ++ done |>). destruct (pop_ok w f0 id w1 (maxLen - len + v) Hw Eg Hv)
    as (w2 & f2 & frame & more & Ep & Hw2 & Ha2 & Hq2 & Hqu & Hfr). cbn in Ha2, Hq2. rewrite Ep. cbn [mbind outcome_bind].
  set (f3 := if more then _ else _). assert (Hqu3 : queued f f3) by (by destruct more).
  assert (Hc3 : fr_controlFrames f2 = fr_controlFrames f3) by (by destruct more).
  destruct (requeued id todo done more f2 f3) as (Hq3 & Ha3 & Hnd3); [congruence..|intros; by rewrite Ha2, Hact|by constructor|done|].
  clearbody f3. set (kept0 := if more then [id] else []) in *. destruct frame as [fr|].
  - destruct (Hfr fr eq_refl) as (Hfrok & _ & l & El & Hl). rewrite El. cbn [mbind outcome_bind].
    pose proof (added_snoc maxLen new len fr l v Had ltac:(lia) Hfrok El Ev Hl) as Had'. destruct (ad_bound _ _ _ Had') as [Hb3 Hb4].
    rewrite uint64_id by (unfold is_uint64; lia).
    destruct (IH w2 f3 (done ++ kept0) (new ++ [fr]) (len + l)) as (w' & f' & fresh & len' & k & kept & E & H1 & H2 & H5 & H6 & H7 & H8 & H9); try done.
    exists w', f', (fr :: fresh), len', (S k), (kept0 ++ kept). rewrite map_app, app_assoc, (bool_decide_eq_false_2 (new ++ [fr] = [])), <- (app_assoc new) in E by (by destruct new).
    split; [exact E|]. rewrite <- (app_assoc new) in H6. split_and!; try done; [rewrite H2; cbn [drop]; by rewrite <- (app_assoc done)|by eapply queued_trans|].
    cbn [take]. unfold kept0. refine (turn_sent (maxLen - len) f0 (maxLen - len + v) f2 more fr l w id w1 w2 (take k todo) fresh kept (w', fr_controlFrames f') (maxLen - len') _ _ _ _ _); try done; [lia|]. rewrite Hc3. by replace (maxLen - len - l) with (maxLen - (len + l)) by lia.
  - destruct (IH w2 f3 (done ++ kept0) new len) as (w' & f' & fresh & len' & k & kept & E & H1 & H2 & H5 & H6 & H7 & H8 & H9); try done.
    exists w', f', fresh, len', (S k), (kept0 ++ kept). split; [exact E|]. split_and!; try done; [rewrite H2; cbn [drop]; by rewrite <- (app_assoc done)|by eapply queued_trans|].
    cbn [take]. unfold kept0. refine (turn_idle (maxLen - len) f0 (maxLen - len + v) f2 more w id w1 w2 (take k todo) fresh kept (w', fr_controlFrames f') (maxLen - len') _ _ _ _); try done; [lia|]. by rewrite Hc3.
Qed.

(** The streams that have more to send are among those that had a turn. *)
Lemma turns_kept room wq ids new kept wq' room' : turns room wq ids new kept wq' room' -> sublist kept ids.
Proof.
  induction 1 as [| |room f m f' more w id w1 w2 ids new kept wq' room' _ _ _ _ IH|room f m f' more frame l w id w1 w2 ids new kept wq' room' _ _ _ _ _ IH]; [constructor|by apply sublist_cons|..];
    (destruct more; [by apply sublist_skip|by apply sublist_cons]).
Qed.

(** The frames as they are written: the last one without its length. *)
Definition as_written (new : list StreamFrame) : list StreamFrame :=
  match rev new with
  | [] => []
  | last :: init => rev init ++ [no_len last]
  end.

Lemma without_last_len_spec frames new :
  new <> [] -> without_last_len (frames ++ map FStream new) = Ret (frames ++ map FStream (as_written new)).
Proof.
  intros Hne. destruct (exists_last Hne) as (init & last & ->). unfold without_last_len, as_written.
  rewrite map_app, app_assoc, rev_app_distr. cbn [rev map app]. rewrite rev_involutive, (rev_app_distr init [last]). cbn. rewrite rev_involutive, map_app.
  cbn. by rewrite <- app_assoc.
Qed.

(** What [AppendStreamFrames] adds: all that the streams handed out when they had their turns; the turns end when all streams
    of the queue had one, or when there is no room for another frame. *)
Lemma AppendStreamFrames_ok w f frames maxLen :
  ok w -> framer_ok f -> 0 <= maxLen < 2 ^ 14 - 8 ->
  exists w' f' new len k kept,
    AppendStreamFrames w f frames maxLen = Ret (w', f', frames ++ map FStream (as_written new), len) /\
    ok w' /\ framer_ok f' /\ added maxLen new len /\ queued f f' /\
    fr_streamQueue f' = drop k (fr_streamQueue f) ++ kept /\
    turns maxLen (w, fr_controlFrames f) (take k (fr_streamQueue f)) new kept (w', fr_controlFrames f') (maxLen - len) /\
    (drop k (fr_streamQueue f) = [] \/ maxLen - len < MinStreamFrameSize).
Proof.
  intros Hw [Hnd Hact] Hm. assert (Hnil : added maxLen [] 0) by (split; [done|done|lia|by intros [] ?]).
  destruct (append_streams_ok maxLen frames (fr_streamQueue f) w f [] [] 0) as (w' & f' & new & len & k & kept & E & H1 & H2 & H4 & H5 & H6 & H7 & H8);
    rewrite ?app_nil_r; try done.
  exists w', f', new, len, k, kept. unfold AppendStreamFrames. cbn [app] in E, H5. rewrite Z.sub_0_r in H7.
  rewrite app_nil_r, (bool_decide_eq_true_2 (@nil StreamFrame = [])) in E by done. cbn [negb] in E. rewrite E. cbn [mbind outcome_bind].
  split_and!; try done.
  destruct (decide (new = [])) as [->|Hne]; [rewrite bool_decide_eq_true_2 by done; done|].
  rewrite bool_decide_eq_false_2 by done. cbn [negb]. by rewrite without_last_len_spec.
Qed.

Lemma as_written_fits maxLen new len :
  added maxLen new len -> 0 <= maxLen -> exists n, frames_length (as_written new) = Ret n /\ n <= maxLen.
Proof.
  intros Had Hm. destruct (decide (new = [])) as [->|Hne]; [by exists 0|]. destruct (exists_last Hne) as (init & last & ->).
  destruct (ad_fits _ _ _ Had init last eq_refl) as (n & l & En & El & Hle). exists (n + l). split; [|done].
  unfold as_written. rewrite rev_app_distr. cbn. rewrite rev_involutive. by apply frames_length_snoc.
Qed.

(** Filling a packet with stream data: for packets of less than 2^14 bytes,
    [AppendStreamFrames] never panics, and the frames it adds fit, counting
    the last one without the length that is removed from it in the end. Streams are
    served in turns: the streams at the front of the queue move to its end, or
    leave it when they have nothing more to send, and one stream moves whenever
    there is room. *)
Theorem stream_frames_fit w f frames maxLen :
  ok w -> framer_ok f -> 0 <= maxLen < 2 ^ 14 - 8 ->
  exists w' f' new len k kept,
    AppendStreamFrames w f frames maxLen = Ret (w', f', frames ++ map FStream (as_written new), len) /\
    ok w' /\ framer_ok f' /\
    (exists n, frames_length (as_written new) = Ret n /\ n <= maxLen) /\
    fr_streamQueue f' = drop k (fr_streamQueue f) ++ kept /\ sublist kept (take k (fr_streamQueue f)) /\
    (MinStreamFrameSize <= maxLen -> fr_streamQueue f <> [] -> (1 <= k)%nat).
Proof.
  intros Hw Hf Hm. destruct (AppendStreamFrames_ok w f frames maxLen Hw Hf Hm) as (w' & f' & new & len & k & kept & E & H1 & H2 & H3 & _ & H4 & H5 & H6).
  exists w', f', new, len, k, kept. split_and!; try done; [apply (as_written_fits maxLen new len); [done|lia]|by eapply turns_kept|].
  intros Hroom Hne. destruct k; [|lia]. inversion H5; subst. destruct H6 as [H6|H6]; [by rewrite drop_0 in H6|lia].
Qed.
End Fit.

(** One stream, with one frame to send. *)
Definition demo_frame : StreamFrame := mkStreamFrame 4 false true 0 [1; 2; 3].

#[local] Instance demo_getter : StreamGetter bool := {
  getSendStream w id := (w, w && (id =? 4));
  popFrame wf id maxBytes := Ret (false, wf.2, (if 100 <=? maxBytes then Some demo_frame else None, false))
}.

#[local] Instance demo_pops : PopsFrames (fun _ : bool => True).
Proof.
  split; [done|]. intros w f id w' maxBytes _ Eg Hm. cbn in Eg. injection Eg as <- Eid. zbool.
  eexists _, _, _, _. split; [reflexivity|]. split_and!; try done; [by apply queued_refl|]. intros fr.
  destruct (Z.leb_spec 100 maxBytes) as [Hle|Hgt]; intros [= <-]. split_and!; [|done|].
  - split; cbn; try done. by left.
  - exists 6. split; [done|lia].
Qed.

Lemma stream_frames_fit_witness :
  exists w' f' new len k kept,
    AppendStreamFrames true (AddActiveStream newFramer 4) [] 1000 = Ret (w', f', [] ++ map FStream (as_written new), len) /\
    True /\ framer_ok f' /\ (exists n, frames_length (as_written new) = Ret n /\ n <= 1000) /\
    fr_streamQueue f' = drop k (fr_streamQueue (AddActiveStream newFramer 4)) ++ kept /\
    sublist kept (take k (fr_streamQueue (AddActiveStream newFramer 4))) /\
    (MinStreamFrameSize <= 1000 -> fr_streamQueue (AddActiveStream newFramer 4) <> [] -> (1 <= k)%nat).
Proof.
  apply (stream_frames_fit (ok:=fun _ : bool => True) true (AddActiveStream newFramer 4) [] 1000); [done| |lia].
  split; [apply NoDup_singleton|]. intros id. cbn. set_solver.
Defined.

(** ** Control frames *)

Fixpoint control_length (frames : list Frame) : outcome ByteCount :=
  match frames with
  | [] => mret 0
  | f :: frames => l ← Length f; n ← control_length frames; mret (l + n)
  end.

Lemma append_control_ok maxLen stack : forall frames len,
  Forall has_length stack -> 0 <= len <= maxLen -> maxLen < 2 ^ 62 ->
  exists k n, append_control stack frames len maxLen = Ret (drop k stack, frames ++ take k stack, len + n) /\
    control_length (take k stack) = Ret n /\ len + n <= maxLen /\
    forall fr rest l, drop k stack = fr :: rest -> Length fr = Ret l -> maxLen < len + n + l.
Proof.
  induction stack as [|fr stack IH]; intros frames len Hall Hlen Hm.
  { exists 0%nat, 0. cbn. rewrite app_nil_r, Z.add_0_r. split_and!; try done. lia. }
  apply Forall_cons in Hall as [(l & El & Hl) Hall]. cbn [append_control]. rewrite El. cbn [mbind outcome_bind].
  rewrite uint64_id by (unfold is_uint64; lia). destruct (Z.ltb_spec maxLen (len + l)) as [Hlt|Hge].
  { exists 0%nat, 0. cbn. rewrite app_nil_r, Z.add_0_r. split_and!; try done; [lia|]. intros fr' rest l' [= <- <-]. rewrite El. intros [= <-]. lia. }
  destruct (IH (frames ++ [fr]) (len + l) Hall ltac:(lia) Hm) as (k & n & E & Hn & Hle & Hnext).
  exists (S k), (l + n). cbn [drop take control_length]. rewrite El, Hn. cbn [mbind outcome_bind]. split_and!; [|done|lia|].
  - rewrite E. rewrite <- app_assoc. cbn. do 2 f_equal. lia.
  - intros fr' rest l' E1 E2. specialize (Hnext _ _ _ E1 E2). lia.
Qed.

Lemma AppendControlFrames_ok f frames maxLen :
  Forall has_length (fr_controlFrames f) -> 0 <= maxLen < 2 ^ 62 ->
  exists f' sent len, AppendControlFrames f frames maxLen = Ret (f', frames ++ sent, len) /\
    fr_controlFrames f = fr_controlFrames f' ++ rev sent /\
    control_length sent = Ret len /\ len <= maxLen /\
    fr_streamQueue f' = fr_streamQueue f /\ fr_activeStreams f' = fr_activeStreams f /\
    forall fr rest l, fr_controlFrames f' = rest ++ [fr] -> Length fr = Ret l -> maxLen < len + l.
Proof.
  intros Hall Hm. destruct (append_control_ok maxLen (rev (fr_controlFrames f)) frames 0) as (k & n & E & Hn & Hle & Hnext).
  { apply Forall_rev. done. }
  { lia. }
  { lia. }
  exists (f <| fr_controlFrames := rev (drop k (rev (fr_controlFrames f))) |>), (take k (rev (fr_controlFrames f))), n.
  unfold AppendControlFrames. rewrite E. cbn -[rev take drop]. split_and!; try done.
  - rewrite <- rev_app_distr, take_drop. by rewrite rev_involutive.
  - intros fr rest l Er. apply (f_equal (@rev Frame)) in Er. rewrite rev_involutive, rev_app_distr in Er. cbn in Er.
    intros El. specialize (Hnext _ _ _ Er El). lia.
Qed.

(** The control frames that are added to a packet fit, the others stay queued, in
    their order: none is lost or sent twice. The frames are taken from the end of the queue,
    as many as fit. *)
Theorem control_frames_fit f frames maxLen :
  Forall has_length (fr_controlFrames f) -> 0 <= maxLen < 2 ^ 62 ->
  exists f' sent len, AppendControlFrames f frames maxLen = Ret (f', frames ++ sent, len) /\
    fr_controlFrames f = fr_controlFrames f' ++ rev sent /\
    control_length sent = Ret len /\ len <= maxLen /\
    fr_streamQueue f' = fr_streamQueue f /\ fr_activeStreams f' = fr_activeStreams f /\
    forall fr rest l, fr_controlFrames f' = rest ++ [fr] -> Length fr = Ret l -> maxLen < len + l.
Proof. apply AppendControlFrames_ok. Qed.

Lemma control_frames_fit_witness :
  exists f' sent len,
    AppendControlFrames (framer_QueueControlFrame (framer_QueueControlFrame newFramer FPing) (FMaxData (mkMaxDataFrame 70000))) [] 5 =
      Ret (f', [] ++ sent, len) /\
    [FPing; FMaxData (mkMaxDataFrame 70000)] = fr_controlFrames f' ++ rev sent /\ control_length sent = Ret len /\ len <= 5 /\
    fr_streamQueue f' = [] /\ fr_activeStreams f' = ∅ /\
    forall fr rest l, fr_controlFrames f' = rest ++ [fr] -> Length fr = Ret l -> 5 < len + l.
Proof.
  apply (control_frames_fit (framer_QueueControlFrame (framer_QueueControlFrame newFramer FPing) (FMaxData (mkMaxDataFrame 70000))) [] 5); [|lia].
  repeat constructor; [exists 1; split; [done|lia]|exists 5; split; [done|lia]].
Defined.

(** ** Window updates (window_update_queue.go) *)

Record windowUpdateQueue := mkWindowUpdateQueue {
  wq_queue : gset StreamID;
  wq_queuedConn : bool
}.

#[global] Instance windowUpdateQueue_eta : Eta windowUpdateQueue := fun q => mkWindowUpdateQueue (wq_queue q) (wq_queuedConn q).

Definition newWindowUpdateQueue : windowUpdateQueue := mkWindowUpdateQueue ∅ false.

Definition AddStream (q : windowUpdateQueue) (id : StreamID) : windowUpdateQueue := q <| wq_queue := {[id]} ∪ wq_queue q |>.
Definition AddConnection (q : windowUpdateQueue) : windowUpdateQueue := q <| wq_queuedConn := true |>.

(** What the queue uses of the rest of the session: look a stream up, its new offset, and the one of the connection. *)
Class WindowUpdates (W : Type) := {
  getReceiveStream : W -> StreamID -> W * bool;
  streamWindowUpdate : W -> StreamID -> W * ByteCount;
  connWindowUpdate : W -> W * ByteCount
}.

Section QueueAll.
Context {W : Type} `{WindowUpdates W}.

(** The loop over the streams, in the order [ids] of the iteration of the map. *)
Fixpoint queue_streams (ids : list StreamID) (q : windowUpdateQueue) (w : W) (f : framerI) : windowUpdateQueue * W * framerI :=
  match ids with
  | [] => (q, w, f)
  | id :: ids =>
      let '(w, found) := getReceiveStream w id in
      if negb found then queue_streams ids q w f else
      let '(w, offset) := streamWindowUpdate w id in
      if offset =? 0 then queue_streams ids q w f else
      let f := framer_QueueControlFrame f (FMaxStreamData (mkMaxStreamDataFrame id offset)) in
      queue_streams ids (q <| wq_queue := wq_queue q ∖ {[id]} |>) w f
  end.

Definition QueueAll (ids : list StreamID) (q : windowUpdateQueue) (w : W) (f : framerI) : windowUpdateQueue * W * framerI :=
  let '(q, w, f) :=
    if wq_queuedConn q then
      let '(w, offset) := connWindowUpdate w in
      (q <| wq_queuedConn := false |>, w, framer_QueueControlFrame f (FMaxData (mkMaxDataFrame offset)))
    else (q, w, f) in
  queue_streams ids q w f.

(** The streams of the frames that were queued. *)
Definition updated (fr : Frame) : list StreamID :=
  match fr with FMaxStreamData m => [msd_StreamID m] | _ => [] end.

Lemma queue_streams_spec ids : forall q w f, NoDup ids ->
  let '(q', _, f') := queue_streams ids q w f in
  exists new, fr_controlFrames f' = fr_controlFrames f ++ new /\ sublist (concat (map updated new)) ids /\
    wq_queuedConn q' = wq_queuedConn q /\ wq_queue q' = wq_queue q ∖ list_to_set (concat (map updated new)).
Proof.
  induction ids as [|id ids IH]; intros q w f Hnd; cbn [queue_streams].
  { exists []. cbn. rewrite app_nil_r. split_and!; try done. set_solver. }
  apply NoDup_cons in Hnd as [Hnin Hnd]. destruct (getReceiveStream w id) as [w1 [|]]; cbn [negb].
  2: { specialize (IH q w1 f Hnd). destruct (queue_streams ids q w1 f) as [[q' w'] f']. destruct IH as (new & H1 & H2 & H3 & H4).
    exists new. split_and!; try done. by apply sublist_cons. }
  destruct (streamWindowUpdate w1 id) as [w2 offset]. case_if.
  { specialize (IH q w2 f Hnd). destruct (queue_streams ids q w2 f) as [[q' w'] f']. destruct IH as (new & H1 & H2 & H3 & H4).
    exists new. split_and!; try done. by apply sublist_cons. }
  set (q1 := _ <| wq_queue := _ |>). set (f1 := framer_QueueControlFrame _ _). specialize (IH q1 w2 f1 Hnd).
  destruct (queue_streams ids q1 w2 f1) as [[q' w'] f']. destruct IH as (new & H1 & H2 & H3 & H4).
  exists (FMaxStreamData (mkMaxStreamDataFrame id offset) :: new). split_and!; [|by apply sublist_skip|done|].
  - rewrite H1. unfold f1, framer_QueueControlFrame. cbn. by rewrite <- app_assoc.
  - rewrite H4. unfold q1. cbn. set_solver.
Qed.

(** Queueing the window updates: a stream gets at most one MAX_STREAM_DATA frame, and it
    leaves the queue exactly when it gets one. So a stream that completed before its update
    was sent, which is never found again, stays in the queue for the rest of the connection. *)
Theorem window_updates_queued ids q w f :
  NoDup ids ->
  let '(q', _, f') := QueueAll ids q w f in
  exists new, fr_controlFrames f' = fr_controlFrames f ++ new /\ sublist (concat (map updated new)) ids /\
    wq_queuedConn q' = false /\ forall id, id ∈ wq_queue q' <-> id ∈ wq_queue q /\ id ∉ concat (map updated new).
Proof.
  intros Hnd. unfold QueueAll. destruct (wq_queuedConn q) eqn:Ec.
  - destruct (connWindowUpdate w) as [w1 offset]. set (q1 := _ <| wq_queuedConn := _ |>). set (f1 := framer_QueueControlFrame _ _).
    pose proof (queue_streams_spec ids q1 w1 f1 Hnd) as Hs. destruct (queue_streams ids q1 w1 f1) as [[q' w'] f'].
    destruct Hs as (new & H1 & H2 & H3 & H4). exists (FMaxData (mkMaxDataFrame offset) :: new). split_and!; [|done|done|].
    + rewrite H1. unfold f1, framer_QueueControlFrame. cbn. by rewrite <- app_assoc.
    + intros id. rewrite H4. unfold q1. cbn. set_solver.
  - pose proof (queue_streams_spec ids q w f Hnd) as Hs. destruct (queue_streams ids q w f) as [[q' w'] f'].
    destruct Hs as (new & H1 & H2 & H3 & H4). exists new. rewrite H4. split_and!; try done; [congruence|]. set_solver.
Qed.
End QueueAll.

(** Stream 4 has an update to send, stream 8 was completed. *)
#[local] Instance demo_updates : WindowUpdates unit := {
  getReceiveStream w id := (w, id =? 4);
  streamWindowUpdate w id := (w, 5000);
  connWindowUpdate w := (w, 9000)
}.

Definition demo_wq : windowUpdateQueue := AddConnection (AddStream (AddStream newWindowUpdateQueue 4) 8).

Lemma window_updates_queued_witness :
  let '(q', _, f') := QueueAll [8; 4] demo_wq tt newFramer in
  exists new, fr_controlFrames f' = [] ++ new /\ sublist (concat (map updated new)) [8; 4] /\
    wq_queuedConn q' = false /\ forall id, id ∈ wq_queue q' <-> id ∈ wq_queue demo_wq /\ id ∉ concat (map updated new).
Proof. apply (window_updates_queued [8; 4] demo_wq tt newFramer). by apply NoDup_cons; split; [set_solver|apply NoDup_singleton]. Defined.
