(* ===== verification/Aead.v ===== *)
(** * Packet protection (handshake/aead.go)

    Sealing and opening of packets and protection of their headers.  The AEAD and the block cipher are
    those of the Go library: they are parameters, and what is used of them is stated
    as laws. *)

From S2P Require Import Prelude VarInt Protocol.

(** [cipher.AEAD] and [cipher.Block] *)
Record cipherAEAD := mkAEAD {
  aead_NonceSize : Z;
  aead_Overhead : Z;
  aead_Seal : bytes -> bytes -> bytes -> bytes;           (* nonce, plaintext, additional data *)
  aead_Open : bytes -> bytes -> bytes -> outcome bytes    (* nonce, ciphertext, additional data *)
}.

Record cipherBlock := mkBlock {
  block_BlockSize : Z;
  block_Encrypt : bytes -> bytes
}.

(** What the documentation of [cipher.AEAD] and [cipher.Block] says, for the 16 byte tags
    and blocks of the cipher suites of TLS 1.3. *)
Class AEADLaws (a : cipherAEAD) : Prop := {
  aead_nonce : 8 <= aead_NonceSize a;
  aead_overhead : aead_Overhead a = 16;
  aead_open_seal nonce src ad : aead_Open a nonce (aead_Seal a nonce src ad) ad = Ret src;
  aead_length nonce src ad : Z.of_nat (length (aead_Seal a nonce src ad)) = Z.of_nat (length src) + aead_Overhead a
}.

Class BlockLaws (b : cipherBlock) : Prop := {
  block_size : block_BlockSize b = 16;
  block_length src : length (block_Encrypt b src) = 16%nat
}.

Record sealer := mkSealer {
  sl_aead : cipherAEAD;
  sl_hpEncrypter : cipherBlock;
  sl_is1RTT : bool
}.

Record opener := mkOpener {
  op_aead : cipherAEAD;
  op_pnDecrypter : cipherBlock;
  op_is1RTT : bool
}.

(** The nonce buffer: only its last eight bytes are ever written. *)
Definition nonce (a : cipherAEAD) (pn : PacketNumber) : outcome bytes :=
  if aead_NonceSize a <? 8 then Panic "slice bounds out of range"
  else mret (repeat 0 (Z.to_nat (aead_NonceSize a - 8)) ++ be_bytes 8 (uint64 pn)).

Definition Seal (s : sealer) (src : bytes) (pn : PacketNumber) (ad : bytes) : outcome bytes :=
  n ← nonce (sl_aead s) pn; mret (aead_Seal (sl_aead s) n src ad).

Definition Open (o : opener) (src : bytes) (pn : PacketNumber) (ad : bytes) : outcome bytes :=
  n ← nonce (op_aead o) pn; aead_Open (op_aead o) n src ad.

Definition Overhead (s : sealer) : Z := aead_Overhead (sl_aead s).

(** The loop over the bytes of the packet number; [mask] starts at [hpMask[1]]. *)
Fixpoint xor_mask (pnBytes mask : bytes) : outcome bytes :=
  match pnBytes, mask with
  | [], _ => mret []
  | _ :: _, [] => Panic "index out of range"
  | b :: pnBytes, m :: mask => r ← xor_mask pnBytes mask; mret (Z.lxor b m :: r)
  end.

(** [EncryptHeader] and [DecryptHeader], which is the same: the new first byte and packet number. *)
Definition protect_header (b : cipherBlock) (is1RTT : bool) (sample : bytes) (firstByte : byte) (pnBytes : bytes) :
    outcome (byte * bytes) :=
  if negb (Z.of_nat (length sample) =? block_BlockSize b) then Panic "invalid sample size" else
  match block_Encrypt b sample with
  | [] => Panic "index out of range"
  | m :: mask =>
      let firstByte := Z.lxor firstByte (Z.land m (if is1RTT then 0x1f else 0xf)) in
      pnBytes ← xor_mask pnBytes mask;
      mret (firstByte, pnBytes)
  end.

Definition EncryptHeader (s : sealer) := protect_header (sl_hpEncrypter s) (sl_is1RTT s).
Definition DecryptHeader (o : opener) := protect_header (op_pnDecrypter o) (op_is1RTT o).

(** ** Properties *)

(** An opener that has the keys of a sealer. *)
Definition matching (s : sealer) (o : opener) : Prop :=
  op_aead o = sl_aead s /\ op_pnDecrypter o = sl_hpEncrypter s /\ op_is1RTT o = sl_is1RTT s.

Lemma Seal_total s src pn ad : AEADLaws (sl_aead s) ->
  exists c, Seal s src pn ad = Ret c /\ Z.of_nat (length c) = Z.of_nat (length src) + 16.
Proof.
  intros L. unfold Seal, nonce. pose proof aead_nonce. rewrite (proj2 (Z.ltb_ge _ _)) by done. eexists. split; [reflexivity|].
  rewrite aead_length, aead_overhead. done.
Qed.

Lemma Open_Seal s o src pn ad c : AEADLaws (sl_aead s) -> matching s o -> Seal s src pn ad = Ret c -> Open o c pn ad = Ret src.
Proof.
  intros L (Ea & _ & _) E. unfold Open. rewrite Ea. unfold Seal in E. destruct (nonce (sl_aead s) pn) as [n| |]; try done.
  cbn in *. injection E as <-. apply aead_open_seal.
Qed.

Lemma xor_mask_total pnBytes mask :
  (length pnBytes <= length mask)%nat -> xor_mask pnBytes mask = Ret (zip_with Z.lxor pnBytes mask).
Proof.
  revert mask. induction pnBytes as [|b pnBytes IH]; intros [|m mask] Hl; cbn in *; try done; try lia.
  rewrite IH by lia. done.
Qed.

(** The protection of a header with at most four bytes of packet number, as a function. *)
Definition mask_header (b : cipherBlock) (is1RTT : bool) (sample : bytes) (firstByte : byte) (pnBytes : bytes) : byte * bytes :=
  let mask := block_Encrypt b sample in
  (Z.lxor firstByte (Z.land (hd 0 mask) (if is1RTT then 0x1f else 0xf)), zip_with Z.lxor pnBytes (tail mask)).

Lemma protect_header_total b is1RTT sample firstByte pnBytes :
  BlockLaws b -> length sample = 16%nat -> (length pnBytes <= 4)%nat ->
  protect_header b is1RTT sample firstByte pnBytes = Ret (mask_header b is1RTT sample firstByte pnBytes).
Proof.
  intros L Hs Hp. unfold protect_header, mask_header. rewrite block_size, Hs. cbn [Z.of_nat Z.eqb negb].
  pose proof (block_length sample) as Hl. destruct (block_Encrypt b sample) as [|m mask]; [done|]. cbn in *.
  by rewrite xor_mask_total by lia.
Qed.

Lemma zip_lxor_length (pn mask : bytes) : (length pn <= length mask)%nat -> length (zip_with Z.lxor pn mask) = length pn.
Proof. intros. rewrite length_zip_with. by apply Nat.min_l. Qed.

Lemma zip_lxor_involutive (pn mask : bytes) : (length pn <= length mask)%nat -> zip_with Z.lxor (zip_with Z.lxor pn mask) mask = pn.
Proof.
  revert mask. induction pn as [|b pn IH]; intros [|m mask] Hl; cbn in *; try done; try lia.
  rewrite IH by lia. f_equal. by rewrite Z.lxor_assoc, Z.lxor_nilpotent, Z.lxor_0_r.
Qed.

Lemma zip_lxor_app (pn rest mask : bytes) :
  zip_with Z.lxor (pn ++ rest) mask = zip_with Z.lxor pn mask ++ zip_with Z.lxor rest (drop (length pn) mask).
Proof. revert mask. induction pn as [|b pn IH]; intros [|m mask]; cbn; [done..| |by rewrite IH]. by destruct rest. Qed.

(** Removing the protection of a header gives it back, whatever follows the packet number. *)
Lemma mask_header_involutive b is1RTT sample firstByte pnBytes rest :
  BlockLaws b -> (length (pnBytes ++ rest) <= 4)%nat ->
  let '(fb, pn) := mask_header b is1RTT sample firstByte pnBytes in
  let '(fb', pn') := mask_header b is1RTT sample fb (pn ++ rest) in
  fb' = firstByte /\ take (length pnBytes) pn' = pnBytes /\ length pn' = length (pnBytes ++ rest).
Proof.
  intros L Hl. unfold mask_header. pose proof (block_length sample) as Hb. set (mask := block_Encrypt b sample) in *.
  rewrite length_app in Hl. assert (Ht : length (tail mask) = 15%nat) by (destruct mask; [done|]; cbn in *; lia).
  split_and!.
  - by rewrite Z.lxor_assoc, Z.lxor_nilpotent, Z.lxor_0_r.
  - rewrite zip_lxor_app, zip_lxor_involutive by lia. apply take_app_length.
  - rewrite zip_lxor_length, !length_app, zip_lxor_length by (rewrite ?length_app, ?zip_lxor_length; lia). done.
Qed.

(** ** A cipher that satisfies the laws *)

Definition demo_tag (ad : bytes) : bytes := repeat (uint8 (foldr Z.add 0 ad)) 16.

Definition demo_aead : cipherAEAD := {|
  aead_NonceSize := 12;
  aead_Overhead := 16;
  aead_Seal _ src ad := src ++ demo_tag ad;
  aead_Open _ c ad :=
    let n := (length c - 16)%nat in
    if bool_decide (drop n c = demo_tag ad) then Ret (take n c) else Error (ErrorString "message authentication failed")
|}.

#[global] Instance demo_aead_laws : AEADLaws demo_aead.
Proof.
  split; try done.
  - intros nonce src ad. cbn. rewrite length_app. change (length (demo_tag ad)) with 16%nat.
    rewrite Nat.add_sub, drop_app_length, take_app_length. by rewrite bool_decide_eq_true_2.
  - intros nonce src ad. cbn. rewrite length_app. change (length (demo_tag ad)) with 16%nat. by rewrite Nat2Z.inj_add.
Qed.

Definition demo_block : cipherBlock := {| block_BlockSize := 16; block_Encrypt src := map (fun b => Z.lxor b 0xa5) (take 16 (src ++ repeat 0 16)) |}.

#[global] Instance demo_block_laws : BlockLaws demo_block.
Proof. split; [done|]. intros src. cbn -[repeat take]. rewrite length_map, length_take, length_app, repeat_length. apply Nat.min_l, Nat.le_add_l. Qed.

Definition demo_sealer : sealer := mkSealer demo_aead demo_block true.
Definition demo_opener : opener := mkOpener demo_aead demo_block true.
