(* ===== verification/PacketPacker.v ===== *)
(** * Packing and unpacking packets (packet_packer.go, packet_unpacker.go)

    What a packet carries, its header, its protection, and the reverse.  The packer reads and
    changes its own state, the CRYPTO streams, the framer, the acknowledgements and the packet
    numbers: [env] holds them, and [packing] threads it through the calls,
    which can fail with an error and keep what they changed until then.  The
    sealers and openers come from the handshake and are arguments. *)

From S2P Require Import Prelude VarInt Protocol GoFloat AckFrame Frames CryptoStream ReceivedTracker SentHistory Headers Framer Aead.

Definition MinInitialPacketSize : ByteCount := 1200.
Definition MaxPacketSizeIPv4 : ByteCount := 1252.
Definition MaxPacketSizeIPv6 : ByteCount := 1232.
Definition MaxNonAckElicitingAcks : Z := 19.

(** What the code tells apart of a [net.Addr]. *)
Inductive addr := OtherAddr | IPv4Addr | IPv6Addr.

Definition getMaxPacketSize (a : addr) : ByteCount :=
  match a with OtherAddr => MinInitialPacketSize | IPv4Addr => MaxPacketSizeIPv4 | IPv6Addr => MaxPacketSizeIPv6 end.

(** ** Ack-eliciting frames (ackhandler/ack_eliciting.go) *)

Definition IsFrameAckEliciting (f : Frame) : bool := match f with FAck _ => false | _ => true end.
Definition HasAckElicitingFrames (fs : list Frame) : bool := existsb IsFrameAckEliciting fs.

(** ** The packer *)

Record payload := mkPayload {
  pl_frames : list Frame;
  pl_ack : option AckFrame;
  pl_length : ByteCount
}.

#[global] Instance payload_eta : Eta payload := fun p => mkPayload (pl_frames p) (pl_ack p) (pl_length p).

Record packedPacket := mkPackedPacket {
  pp_header : ExtendedHeader;
  pp_raw : bytes;
  pp_ack : option AckFrame;
  pp_frames : list Frame
}.

Definition pp_EncryptionLevel (p : packedPacket) : EncryptionLevel :=
  let hdr := eh_Header (pp_header p) in
  if negb (hd_IsLongHeader hdr) then Encryption1RTT
  else if hd_Type hdr =? PacketTypeInitial then EncryptionInitial
  else if hd_Type hdr =? PacketTypeHandshake then EncryptionHandshake
  else EncryptionUnspecified.

Definition IsAckEliciting (p : packedPacket) : bool := HasAckElicitingFrames (pp_frames p).

Definition ToAckHandlerPacket (p : packedPacket) (now : time) : SentPacket :=
  mkSentPacket (eh_PacketNumber (pp_header p)) (hd_Type (eh_Header (pp_header p))) (pp_ack p) (pp_frames p)
    (Z.of_nat (length (pp_raw p))) (pp_EncryptionLevel p) now 0 false false [] false 0.

Record packetPacker := mkPacketPacker {
  pk_destConnID : ConnectionID;
  pk_srcConnID : ConnectionID;
  pk_perspective : Perspective;
  pk_version : VersionNumber;
  pk_token : bytes;
  pk_maxPacketSize : ByteCount;
  pk_numNonAckElicitingAcks : Z
}.

#[global] Instance packetPacker_eta : Eta packetPacker := fun p =>
  mkPacketPacker (pk_destConnID p) (pk_srcConnID p) (pk_perspective p) (pk_version p) (pk_token p) (pk_maxPacketSize p)
    (pk_numNonAckElicitingAcks p).

Definition newPacketPacker (destConnID srcConnID : ConnectionID) (remoteAddr : addr) (perspective : Perspective)
    (version : VersionNumber) : packetPacker :=
  mkPacketPacker destConnID srcConnID perspective version [] (getMaxPacketSize remoteAddr) 0.

Definition ChangeDestConnectionID (p : packetPacker) (connID : ConnectionID) : packetPacker := p <| pk_destConnID := connID |>.
Definition SetToken (p : packetPacker) (token : bytes) : packetPacker := p <| pk_token := token |>.

(** [HandleTransportParameters], with the [MaxPacketSize] of the parameters. *)
Definition packer_HandleTransportParameters (p : packetPacker) (maxPacketSize : ByteCount) : packetPacker :=
  if negb (maxPacketSize =? 0) then p <| pk_maxPacketSize := MinByteCount (pk_maxPacketSize p) maxPacketSize |> else p.

(** [packetNumberManager] *)
Class PacketNumberManager (P : Type) := {
  peekPacketNumber : P -> EncryptionLevel -> outcome (PacketNumber * PacketNumberLen);
  popPacketNumber : P -> EncryptionLevel -> outcome (P * PacketNumber)
}.

(** [sealingManager] *)
Record sealingManager := mkSealingManager {
  GetSealer : EncryptionLevel * sealer;
  GetSealerWithEncryptionLevel : EncryptionLevel -> outcome sealer
}.

Section Packer.
Context {W P : Type} `{StreamGetter W} `{PacketNumberManager P}.

Record env := mkEnv {
  ev_packer : packetPacker;
  ev_initialStream : cryptoStreamImpl;
  ev_handshakeStream : cryptoStreamImpl;
  ev_pns : P;
  ev_acks : receivedPacketHandler;
  ev_framer : framerI;
  ev_world : W
}.

#[global] Instance env_eta : Eta env := fun e =>
  mkEnv (ev_packer e) (ev_initialStream e) (ev_handshakeStream e) (ev_pns e) (ev_acks e) (ev_framer e) (ev_world e).

Definition packing (A : Type) : Type := env -> outcome (env * (A + goerr)).

#[global] Instance packing_ret : MRet packing := fun A a e => Ret (e, inl a).
#[global] Instance packing_bind : MBind packing := fun A B k m e =>
  match m e with
  | Ret (e, inl a) => k a e
  | Ret (e, inr err) => Ret (e, inr err)
  | Error err => Error err
  | Panic s => Panic s
  end.

(** A call that changes nothing. *)
Definition call {A} (x : outcome A) : packing A := fun e =>
  match x with Ret a => Ret (e, inl a) | Error err => Ret (e, inr err) | Panic s => Panic s end.
Definition get : packing env := fun e => Ret (e, inl e).
Definition put (e : env) : packing unit := fun _ => Ret (e, inl tt).

(** The length of an ACK, if there is one. *)
Definition ack_length (ack : option AckFrame) : outcome ByteCount :=
  match ack with Some ack => lengthAckFrame ack | None => mret 0 end.

(** The calls of the other components. *)
Definition getAckFrame (now : time) (encLevel : EncryptionLevel) : packing (option AckFrame) := fun e =>
  let '(acks, ack) := handler_GetAckFrame (ev_acks e) encLevel now in
  Ret (e <| ev_acks := acks |>, inl ack).

Definition appendControlFrames (frames : list Frame) (maxLen : ByteCount) : packing (list Frame * ByteCount) :=
  e ← get;
  '(f, frames, length) ← call (AppendControlFrames (ev_framer e) frames maxLen);
  _ ← put (e <| ev_framer := f |>);
  mret (frames, length).

Definition appendStreamFrames (frames : list Frame) (maxLen : ByteCount) : packing (list Frame * ByteCount) :=
  e ← get;
  '(w, f, frames, length) ← call (AppendStreamFrames (ev_world e) (ev_framer e) frames maxLen);
  _ ← put (e <| ev_framer := f |> <| ev_world := w |>);
  mret (frames, length).

Definition getHeader (encLevel : EncryptionLevel) : packing ExtendedHeader :=
  e ← get;
  let p := ev_packer e in
  '(pn, pnLen) ← call (peekPacketNumber (ev_pns e) encLevel);
  let hdr := zero_header <| hd_Version := pk_version p |> <| hd_DestConnectionID := pk_destConnID p |> in
  let header := mkExtendedHeader hdr 0 pnLen pn 0 in
  mret (if bool_decide (encLevel = Encryption1RTT) then header
        else
          (* Always send Initial and Handshake packets with the maximum packet number length. *)
          let hdr := hdr <| hd_IsLongHeader := true |> <| hd_SrcConnectionID := pk_srcConnID p |>
                         <| hd_Length := pk_maxPacketSize p |> in
          let hdr := match encLevel with
                     | EncryptionInitial => hdr <| hd_Type := PacketTypeInitial |>
                     | EncryptionHandshake => hdr <| hd_Type := PacketTypeHandshake |>
                     | _ => hdr
                     end in
          header <| eh_PacketNumberLen := 4 |> <| eh_Header := hdr |>).

(** The loop over the frames of the payload. *)
Fixpoint write_frames (b : bytes) (frames : list Frame) : outcome bytes :=
  match frames with
  | [] => mret b
  | frame :: frames =>
      '(b, err) ← Write b frame;
      match err with Some err => Error err | None => write_frames b frames end
  end.

(** The ACK of the payload, if there is one. *)
Definition write_ack (b : bytes) (ack : option AckFrame) : outcome bytes :=
  match ack with Some ack => writeAckFrame b ack | None => mret b end.

(** The padding: [bytes.Repeat] panics for a negative count. *)
Definition write_padding (b : bytes) (paddingLen : ByteCount) : outcome bytes :=
  if 0 <? paddingLen then
    if int64 paddingLen <? 0 then Panic "bytes: negative Repeat count"
    else mret (b ++ repeat 0 (Z.to_nat paddingLen))
  else mret b.

(** The header and the plaintext of a packet, with the offset of the payload. *)
Definition packet_bytes (header : ExtendedHeader) (pl : payload) (paddingLen : ByteCount) : outcome (bytes * nat) :=
  b ← writeHeader [] header;
  let payloadOffset := length b in
  b ← write_ack b (pl_ack pl);
  b ← write_padding b paddingLen;
  b ← write_frames b (pl_frames pl);
  mret (b, payloadOffset).

(** The encryption of a packet: [raw] is the sealed packet, whose header is then protected. *)
Definition seal_packet (s : sealer) (b : bytes) (payloadOffset : nat) (header : ExtendedHeader) : outcome bytes :=
  c ← Seal s (drop payloadOffset b) (eh_PacketNumber header) (take payloadOffset b);
  let raw := take payloadOffset b ++ c in
  let pnOffset := (payloadOffset - Z.to_nat (eh_PacketNumberLen header))%nat in
  let sample := take 16 (drop (pnOffset + 4) raw) in
  match raw with
  | [] => Panic "index out of range"
  | b0 :: _ =>
      if negb (length sample =? 16)%nat then Panic "slice bounds out of range" else
      '(b0, pn) ← EncryptHeader s sample b0 (take (payloadOffset - pnOffset) (drop pnOffset raw));
      mret (b0 :: take (pnOffset - 1) (drop 1 raw) ++ pn ++ drop payloadOffset raw)
  end.

Definition writeAndSealPacketWithPadding (header : ExtendedHeader) (pl : payload) (paddingLen : ByteCount)
    (encLevel : EncryptionLevel) (s : sealer) : packing packedPacket :=
  '(b, payloadOffset) ← call (packet_bytes header pl paddingLen);
  e ← get;
  let size := Z.of_nat (length b) + Overhead s in
  if pk_maxPacketSize (ev_packer e) <? size then
    call (Error (Errorf "PacketPacker BUG: packet too large (%d bytes, allowed %d bytes)" [size; pk_maxPacketSize (ev_packer e)]))
  else
  raw ← call (seal_packet s b payloadOffset header);
  '(pns, num) ← call (popPacketNumber (ev_pns e) encLevel);
  _ ← put (e <| ev_pns := pns |>);
  if negb (num =? eh_PacketNumber header) then
    call (Error (ErrorString "packetPacker BUG: Peeked and Popped packet numbers do not match"))
  else mret (mkPackedPacket header raw (pl_ack pl) (pl_frames pl)).

Definition writeAndSealPacket (header : ExtendedHeader) (pl : payload) (encLevel : EncryptionLevel) (s : sealer) :
    packing packedPacket :=
  e ← get;
  let p := ev_packer e in
  let hdr := eh_Header header in
  let pnLen := eh_PacketNumberLen header in
  if negb (bool_decide (encLevel = Encryption1RTT)) then
    if bool_decide (pk_perspective p = PerspectiveClient) && (hd_Type hdr =? PacketTypeInitial) then
      let header := header <| eh_Header := hdr <| hd_Token := pk_token p |> |> in
      headerLen ← call (GetLength header);
      let header := header <| eh_Header := eh_Header header <| hd_Length := uint64 (pnLen + MinInitialPacketSize - headerLen) |> |> in
      let paddingLen := uint64 (MinInitialPacketSize - Overhead s - headerLen - pl_length pl) in
      writeAndSealPacketWithPadding header pl paddingLen encLevel s
    else
      let header := header <| eh_Header := hdr <| hd_Length := uint64 (pnLen + Overhead s + pl_length pl) |> |> in
      writeAndSealPacketWithPadding header pl 0 encLevel s
  else
    let paddingLen := if pl_length pl <? uint64 (4 - pnLen) then uint64 (4 - pnLen - pl_length pl) else 0 in
    writeAndSealPacketWithPadding header pl paddingLen encLevel s.

Definition PackConnectionClose (cs : sealingManager) (ccf : ConnectionCloseFrame) : packing packedPacket :=
  length ← call (Length (FConnectionClose ccf));
  let '(encLevel, s) := GetSealer cs in
  header ← getHeader encLevel;
  writeAndSealPacket header (mkPayload [FConnectionClose ccf] None length) encLevel s.

Definition MaybePackAckPacket (cs : sealingManager) (now : time) : packing (option packedPacket) :=
  ack ← getAckFrame now Encryption1RTT;
  match ack with
  | None => mret None
  | Some ack =>
      length ← call (lengthAckFrame ack);
      let '(encLevel, s) := GetSealer cs in
      header ← getHeader encLevel;
      p ← writeAndSealPacket header (mkPayload [] (Some ack) length) encLevel s;
      mret (Some p)
  end.

Definition composeNextPacket (now : time) (maxFrameSize : ByteCount) : packing payload :=
  ack ← getAckFrame now Encryption1RTT;
  ackLen ← call (ack_length ack);
  let length := ackLen in
  '(frames, lengthAdded) ← appendControlFrames [] (uint64 (maxFrameSize - length));
  let length := uint64 (length + lengthAdded) in
  '(frames, lengthAdded) ← appendStreamFrames frames (uint64 (maxFrameSize - length));
  match frames with
  | [] => mret (mkPayload [] ack length)
  | _ :: _ => mret (mkPayload frames ack (uint64 (length + lengthAdded)))
  end.

(** The stream and the level of a packet with handshake data or its acknowledgement, if there is one to send. *)
Definition crypto_level (now : time) : packing (option (EncryptionLevel * bool * option AckFrame)) :=
  e ← get;
  let hasData := HasData (ev_initialStream e) in
  ack ← getAckFrame now EncryptionInitial;
  if hasData || negb (bool_decide (ack = None)) then mret (Some (EncryptionInitial, hasData, ack)) else
  let hasData := HasData (ev_handshakeStream e) in
  ack ← getAckFrame now EncryptionHandshake;
  if hasData || negb (bool_decide (ack = None)) then mret (Some (EncryptionHandshake, hasData, ack)) else mret None.

Definition popCryptoFrame (encLevel : EncryptionLevel) (maxLen : ByteCount) : packing CryptoFrame :=
  e ← get;
  match encLevel with
  | EncryptionInitial =>
      '(s, cf) ← call (PopCryptoFrame (ev_initialStream e) maxLen); _ ← put (e <| ev_initialStream := s |>); mret cf
  | _ =>
      '(s, cf) ← call (PopCryptoFrame (ev_handshakeStream e) maxLen); _ ← put (e <| ev_handshakeStream := s |>); mret cf
  end.

Definition maybePackCryptoPacket (cs : sealingManager) (now : time) : packing (option packedPacket) :=
  lvl ← crypto_level now;
  match lvl with
  | None => mret None
  | Some (encLevel, hasData, ack) =>
      s ← call (GetSealerWithEncryptionLevel cs encLevel);
      ackLen ← call (ack_length ack);
      hdr ← getHeader encLevel;
      hdrLen ← call (GetLength hdr);
      pl ← (if hasData : bool then
              e ← get;
              cf ← popCryptoFrame encLevel (uint64 (pk_maxPacketSize (ev_packer e) - hdrLen - Overhead s - ackLen));
              l ← call (lengthCryptoFrame cf);
              mret (mkPayload [FCrypto cf] ack (uint64 (ackLen + l)))
            else mret (mkPayload [] ack ackLen));
      p ← writeAndSealPacket hdr pl encLevel s;
      mret (Some p)
  end.

(** The end of [PackPacket], with the payload that was composed. *)
Definition pack_payload (header : ExtendedHeader) (pl : payload) (encLevel : EncryptionLevel) (s : sealer) :
    packing (option packedPacket) :=
  (* check if we have anything to send *)
  match pl_frames pl, pl_ack pl with
  | [], None => mret None
  | [], Some _ => (* the packet only contains an ACK *)
      e ← get;
      let p := ev_packer e in
      pl ← (if MaxNonAckElicitingAcks <=? pk_numNonAckElicitingAcks p then
              l ← call (Length FPing);
              _ ← put (e <| ev_packer := p <| pk_numNonAckElicitingAcks := 0 |> |>);
              mret (pl <| pl_frames := [FPing] |> <| pl_length := uint64 (pl_length pl + l) |>)
            else
              _ ← put (e <| ev_packer := p <| pk_numNonAckElicitingAcks := pk_numNonAckElicitingAcks p + 1 |> |>);
              mret pl);
      p ← writeAndSealPacket header pl encLevel s;
      mret (Some p)
  | _ :: _, _ =>
      e ← get;
      _ ← put (e <| ev_packer := ev_packer e <| pk_numNonAckElicitingAcks := 0 |> |>);
      p ← writeAndSealPacket header pl encLevel s;
      mret (Some p)
  end.

Definition PackPacket (cs : sealingManager) (now : time) : packing (option packedPacket) :=
  packet ← maybePackCryptoPacket cs now;
  match packet with
  | Some packet => mret (Some packet)
  | None =>
      let '(encLevel, s) := GetSealer cs in
      header ← getHeader encLevel;
      headerLen ← call (GetLength header);
      e ← get;
      let maxSize := uint64 (pk_maxPacketSize (ev_packer e) - Overhead s - headerLen) in
      pl ← composeNextPacket now maxSize;
      pack_payload header pl encLevel s
  end.

(** ** Retransmissions *)

Definition with_len (f : StreamFrame) (present : bool) : StreamFrame :=
  mkStreamFrame (sf_StreamID f) (sf_FinBit f) present (sf_Offset f) (sf_Data f).

(** The first loop of [PackRetransmission]: the control frames and the STREAM frames. *)
Fixpoint split_frames (frames : list Frame) : list Frame * list StreamFrame :=
  match frames with
  | [] => ([], [])
  | FStream sf :: frames => let '(control, streams) := split_frames frames in (control, with_len sf true :: streams)
  | f :: frames => let '(control, streams) := split_frames frames in (f :: control, streams)
  end.

(** The loop over the control frames: those that are left, the frames of the packet, and their length. *)
Fixpoint take_control (control frames : list Frame) (length maxSize : ByteCount) :
    outcome (list Frame * list Frame * ByteCount) :=
  match control with
  | [] => mret ([], frames, length)
  | frame :: control' =>
      frameLen ← Length frame;
      if maxSize <? uint64 (length + frameLen) then mret (control, frames, length)
      else take_control control' (frames ++ [frame]) (uint64 (length + frameLen)) maxSize
  end.

(** The loop over the STREAM frames; a frame that does not fit is split, and its rest is kept. *)
Fixpoint take_streams (fuel : nat) (streams : list StreamFrame) (frames : list Frame) (length maxSize : ByteCount) :
    outcome (list StreamFrame * list Frame * ByteCount) :=
  match fuel with
  | O => Panic "out of fuel"
  | S fuel =>
      match streams with
      | [] => mret ([], frames, length)
      | frame :: streams' =>
          if negb (uint64 (length + MinStreamFrameSize) <? maxSize) then mret (streams, frames, length) else
          '(sf, err, frame) ← MaybeSplitOffFrame (with_len frame false) (uint64 (maxSize - length));
          match err with
          | Some err => Error err
          | None =>
              let frame := with_len frame true in
              let '(frameToAdd, streams) := match sf with Some sf => (sf, frame :: streams') | None => (frame, streams') end in
              l ← lengthStreamFrame frameToAdd;
              take_streams fuel streams (frames ++ [FStream frameToAdd]) (uint64 (length + l)) maxSize
          end
      end
  end.

(** The last frame of the packet is written without its length. *)
Definition last_without_len (frames : list Frame) : outcome (list Frame) :=
  match rev frames with
  | [] => Panic "index out of range"
  | FStream f :: rest => mret (rev rest ++ [FStream (with_len f false)])
  | _ :: _ => mret frames
  end.

(** The outer loop. *)
Fixpoint retransmit (fuel : nat) (control : list Frame) (streams : list StreamFrame) (encLevel : EncryptionLevel) (s : sealer) :
    packing (list packedPacket) :=
  match fuel with
  | O => call (Panic "out of fuel")
  | S fuel =>
      if (0 <? length control)%nat || (0 <? length streams)%nat then
        header ← getHeader encLevel;
        headerLen ← call (GetLength header);
        e ← get;
        let maxSize := uint64 (pk_maxPacketSize (ev_packer e) - Overhead s - headerLen) in
        '(control, frames, length) ← call (take_control control [] 0 maxSize);
        '(streams, frames, length) ← call (take_streams (S (Z.to_nat maxSize)) streams frames length maxSize);
        frames ← call (last_without_len frames);
        p ← writeAndSealPacket header (mkPayload frames None length) encLevel s;
        ps ← retransmit fuel control streams encLevel s;
        mret (p :: ps)
      else mret []
  end.

(** Enough rounds: every packet takes a control frame, ends a STREAM frame or takes a byte of one. *)
Definition retransmit_fuel (control : list Frame) (streams : list StreamFrame) : nat :=
  S (length control + sum_list_with (fun f => S (length (sf_Data f))) streams).

Definition PackRetransmission (cs : sealingManager) (packet : SentPacket) : packing (list packedPacket) :=
  let '(control, streams) := split_frames (sp_Frames packet) in
  s ← call (GetSealerWithEncryptionLevel cs (sp_EncryptionLevel packet));
  retransmit (retransmit_fuel control streams) control streams (sp_EncryptionLevel packet) s.

End Packer.

(** ** The unpacker (packet_unpacker.go) *)

Record unpackedPacket := mkUnpackedPacket {
  up_packetNumber : PacketNumber;   (* the decoded packet number *)
  up_hdr : ExtendedHeader;
  up_encryptionLevel : EncryptionLevel;
  up_data : bytes
}.

Record packetUnpacker := mkPacketUnpacker {
  un_largestRcvdPacketNumber : PacketNumber
}.

Definition newPacketUnpacker : packetUnpacker := mkPacketUnpacker 0.

(** The protected header: the first byte and the four bytes after [hdrLen] are changed in place. *)
Definition unprotect (o : opener) (data : bytes) (hdrLen : nat) : outcome bytes :=
  match data with
  | [] => Panic "index out of range"
  | b0 :: _ =>
      '(b0, pn) ← DecryptHeader o (take 16 (drop (hdrLen + 4) data)) b0 (take 4 (drop hdrLen data));
      mret (b0 :: take (hdrLen - 1) (drop 1 data) ++ pn ++ drop (hdrLen + 4) data)
  end.

(** [getOpener] is the call [u.cs.GetOpener]. *)
Definition Unpack (getOpener : EncryptionLevel -> outcome opener) (u : packetUnpacker) (hdr : Header) (data : bytes) :
    packetUnpacker * outcome unpackedPacket :=
  let keep {A} (x : outcome A) (k : A -> packetUnpacker * outcome unpackedPacket) :=
    match x with Ret a => k a | Error err => (u, Error err) | Panic s => (u, Panic s) end in
  keep (if hd_Type hdr =? PacketTypeInitial then Ret EncryptionInitial
        else if hd_Type hdr =? PacketTypeHandshake then Ret EncryptionHandshake
        else if hd_IsLongHeader hdr then Error (ErrorString "unknown packet type: %s")
        else Ret Encryption1RTT) (fun encLevel =>
  keep (getOpener encLevel) (fun o =>
  let hdrLen := hd_parsedLen hdr in
  if Z.of_nat (length data) <? hdrLen + 4 + 16 then
    (u, Error (Errorf "Packet too small. Expected at least 20 bytes after the header, got %d" [Z.of_nat (length data) - hdrLen]))
  else
  let n := Z.to_nat hdrLen in
  let origPNBytes := take 4 (drop n data) in
  keep (unprotect o data n) (fun data =>
  match ParseExtended hdr data with
  | Error _ => (u, Error (ErrorString "error parsing extended header: %s"))
  | Panic s => (u, Panic s)
  | Ret (extHdr, _) =>
      let pnLen := Z.to_nat (eh_PacketNumberLen extHdr) in
      let extHdrLen := (n + pnLen)%nat in
      (* if the packet number is shorter than 4 bytes, replace the remaining bytes with the copy we saved earlier *)
      let data := take extHdrLen data ++ drop pnLen origPNBytes ++ drop (n + 4) data in
      let pn := DecodePacketNumber (eh_PacketNumberLen extHdr) (un_largestRcvdPacketNumber u) (eh_PacketNumber extHdr) in
      keep (Open o (drop extHdrLen data) pn (take extHdrLen data)) (fun decrypted =>
      (* Only do this after decrypting, so we are sure the packet is not attacker-controlled *)
      (mkPacketUnpacker (MaxPacketNumber (un_largestRcvdPacketNumber u) pn),
       Ret (mkUnpackedPacket pn extHdr encLevel decrypted)))
  end))).

(** ** A packet end to end *)

Lemma land_lxor a b c : Z.land b c = 0 -> Z.land (Z.lxor a b) c = Z.land a c.
Proof.
  intros Hb. apply Z.bits_inj'. intros n Hn. rewrite !Z.land_spec, Z.lxor_spec.
  apply (f_equal (fun x => Z.testbit x n)) in Hb. rewrite Z.land_spec, Z.bits_0 in Hb.
  destruct (Z.testbit a n), (Z.testbit b n), (Z.testbit c n); done.
Qed.

(** The protection leaves the bits alone that the receiver needs to remove it. *)
Lemma masked_byte h ty m is1RTT :
  first_byte_ok h ty -> is1RTT = negb (hd_IsLongHeader (eh_Header h)) ->
  protected_byte h (Z.lxor ty (Z.land m (if is1RTT then 0x1f else 0xf))).
Proof.
  intros (_ & H40 & H80 & Hx) ->. unfold protected_byte, long_type in *.
  assert (Hm : forall c k, Z.land k c = 0 -> Z.land (Z.lxor ty (Z.land m k)) c = Z.land ty c).
  { intros c k Hk. apply land_lxor. by rewrite <- Z.land_assoc, Hk, Z.land_0_r. }
  destruct (hd_IsLongHeader (eh_Header h)); cbn [negb]; rewrite !Hm by done; split_and!; try done. intros _. apply Hx.
Qed.

Definition level_of (hdr : Header) : EncryptionLevel :=
  if hd_Type hdr =? PacketTypeInitial then EncryptionInitial
  else if hd_Type hdr =? PacketTypeHandshake then EncryptionHandshake else Encryption1RTT.

(** A sealed packet: the protected header, and the ciphertext. *)
Record sealed (s : sealer) (h : ExtendedHeader) (ty : byte) (pre plain c raw : bytes) : Prop := {
  se_cipher : Seal s plain (eh_PacketNumber h) (ty :: pre ++ pn_bytes h) = Ret c;
  se_length : Z.of_nat (length c) = Z.of_nat (length plain) + 16;
  se_raw : let '(ty', pn') := mask_header (sl_hpEncrypter s) (sl_is1RTT s)
             (take 16 (drop (4 - length (pn_bytes h)) c)) ty (pn_bytes h) in
           raw = ty' :: pre ++ pn' ++ c /\ length pn' = length (pn_bytes h)
}.

Lemma mask_header_length b is1RTT sample fb pn : BlockLaws b -> (length pn <= 4)%nat -> length (mask_header b is1RTT sample fb pn).2 = length pn.
Proof.
  intros L Hl. unfold mask_header. cbn. apply zip_lxor_length. pose proof (block_length sample) as Hb.
  destruct (block_Encrypt b sample); cbn in *; [done|lia].
Qed.

Lemma seal_packet_ok s h ty pre plain :
  AEADLaws (sl_aead s) -> BlockLaws (sl_hpEncrypter s) -> 1 <= eh_PacketNumberLen h <= 4 ->
  4 <= eh_PacketNumberLen h + Z.of_nat (length plain) ->
  exists c raw, seal_packet s ((ty :: pre ++ pn_bytes h) ++ plain) (length (ty :: pre ++ pn_bytes h)) h = Ret raw /\
    sealed s h ty pre plain c raw.
Proof.
  intros La Lb Hl Hp. pose proof (pn_bytes_length h ltac:(lia)) as Hpl. set (hb := ty :: pre ++ pn_bytes h).
  unfold seal_packet. rewrite drop_app_length, take_app_length.
  destruct (Seal_total s plain (eh_PacketNumber h) hb La) as (c & Ec & Hc). rewrite Ec. cbn [mbind outcome_bind].
  assert (Hpo : (length hb - Z.to_nat (eh_PacketNumberLen h) = S (length pre))%nat) by (unfold hb; cbn [length]; rewrite length_app; lia).
  rewrite Hpo. unfold hb at 1. cbn [app].
  assert (Hs : drop (S (length pre) + 4) (hb ++ c) = drop (4 - length (pn_bytes h)) c).
  { unfold hb. cbn [app drop Nat.add]. rewrite <- app_assoc, drop_app, drop_ge by lia. cbn [app].
    rewrite drop_app, drop_ge by lia. cbn [app]. f_equal. lia. }
  rewrite Hs. destruct (length (take 16 (drop (4 - length (pn_bytes h)) c)) =? 16)%nat eqn:E16.
  2: { apply Nat.eqb_neq in E16. rewrite length_take, length_drop in E16. lia. }
  cbn [negb]. apply Nat.eqb_eq in E16.
  assert (Hpn : take (length hb - S (length pre)) (drop (S (length pre)) (hb ++ c)) = pn_bytes h).
  { unfold hb. cbn [app drop length]. rewrite length_app, <- app_assoc, drop_app_length.
    replace (S (length pre + length (pn_bytes h)) - S (length pre))%nat with (length (pn_bytes h)) by lia. apply take_app_length. }
  rewrite Hpn. unfold EncryptHeader. rewrite protect_header_total by (done || lia).
  destruct (mask_header _ _ _ ty (pn_bytes h)) as [ty' pn'] eqn:Em. cbn [mbind outcome_bind].
  eexists c, _. split; [reflexivity|]. split; [done|done|]. rewrite Em. split.
  - replace (S (length pre) - 1)%nat with (length pre) by lia. cbn [drop]. unfold hb. cbn [drop app length]. rewrite drop_0, drop_app_length, <- app_assoc, take_app_length. done.
  - pose proof (mask_header_length (sl_hpEncrypter s) (sl_is1RTT s) (take 16 (drop (4 - length (pn_bytes h)) c)) ty (pn_bytes h) Lb ltac:(lia)) as Hm. by rewrite Em in Hm.
Qed.

Lemma sealed_parse s h ty pre plain c raw rest n :
  written h ty pre -> sealed s h ty pre plain c raw -> sl_is1RTT s = negb (hd_IsLongHeader (eh_Header h)) ->
  (if hd_IsLongHeader (eh_Header h) then hd_Length (eh_Header h) = Z.of_nat (length (pn_bytes h)) + Z.of_nat (length c)
   else n = connID_Len (hd_DestConnectionID (eh_Header h)) /\ rest = []) ->
  exists ty', ParsePacket (raw ++ rest) n =
    Ret (eh_Header h <| hd_typeByte := ty' |> <| hd_parsedLen := 1 + Z.of_nat (length pre) |>, raw, rest).
Proof.
  intros [Hw Hlen Hty Hp] [Ec Hc Hraw] H1 Hcut. destruct (mask_header _ _ _ ty (pn_bytes h)) as [ty' pn'] eqn:Em.
  destruct Hraw as [-> Hpl]. exists ty'. assert (Hty' : protected_byte h ty').
  { unfold mask_header in Em. injection Em as <- _. by apply masked_byte. }
  rewrite (ParsePacket_cut n _ rest (eh_Header h <| hd_typeByte := ty' |> <| hd_parsedLen := 0 |>) (pn' ++ c)).
  - assert (Ek : Z.of_nat (length (ty' :: pre ++ pn' ++ c)) - Z.of_nat (length (pn' ++ c)) = 1 + Z.of_nat (length pre))
      by (cbn [length]; rewrite !length_app; lia). by rewrite Ek.
  - cbn [app]. rewrite <- !app_assoc. apply Hp; [done|]. intros E. rewrite E in Hcut. apply Hcut.
  - cbn [length]. rewrite !length_app. lia.
  - cbn. destruct (hd_IsLongHeader (eh_Header h)); [|apply Hcut]. rewrite length_app, Hcut. lia.
Qed.

(** Removing the protection of a sealed packet gives the header and four bytes from the packet number on. *)
Lemma sealed_unprotect s o h ty pre plain c raw :
  BlockLaws (sl_hpEncrypter s) -> matching s o -> 1 <= eh_PacketNumberLen h <= 4 ->
  4 <= eh_PacketNumberLen h + Z.of_nat (length plain) -> sealed s h ty pre plain c raw ->
  let k := (4 - length (pn_bytes h))%nat in
  exists x, unprotect o raw (S (length pre)) = Ret (ty :: pre ++ pn_bytes h ++ x ++ drop k c) /\
    length x = k /\ drop (length (pn_bytes h)) (take 4 (drop (S (length pre)) raw)) = take k c /\ drop (S (length pre) + 4) raw = drop k c.
Proof.
  intros Lb (_ & Eb & E1) Hl Hp [_ Hc Hraw] k. pose proof (pn_bytes_length h ltac:(lia)) as Hpl.
  pose proof (mask_header_involutive (sl_hpEncrypter s) (sl_is1RTT s) (take 16 (drop k c)) ty (pn_bytes h) (take k c) Lb) as Hinv.
  fold k in Hraw. destruct (mask_header _ _ _ ty (pn_bytes h)) as [ty' pn']. destruct Hraw as [-> Hpn].
  rewrite length_app, length_take in Hinv. specialize (Hinv ltac:(lia)).
  assert (Hd1 : drop (S (length pre)) (ty' :: pre ++ pn' ++ c) = pn' ++ c) by (cbn; apply drop_app_length).
  assert (Hd2 : drop (S (length pre) + 4) (ty' :: pre ++ pn' ++ c) = drop k c).
  { rewrite <- drop_drop, Hd1, drop_app, drop_ge by lia. cbn. f_equal. lia. }
  assert (Ht : take 4 (pn' ++ c) = pn' ++ take k c).
  { rewrite take_app, take_ge by lia. do 2 f_equal. lia. }
  unfold unprotect. rewrite Hd2, Hd1, Ht. unfold DecryptHeader. rewrite Eb, E1.
  rewrite protect_header_total; [|done|rewrite length_take, length_drop; lia|rewrite length_app, length_take; lia].
  destruct (mask_header _ _ _ ty' (pn' ++ take k c)) as [ty'' pn'']. destruct Hinv as (-> & Hx & Hlen). cbn [mbind outcome_bind].
  exists (drop (length (pn_bytes h)) pn''). split_and!; [|rewrite length_drop; lia| |done].
  - replace (S (length pre) - 1)%nat with (length pre) by lia. cbn [drop]. rewrite drop_0, take_app_length.
    rewrite <- (take_drop (length (pn_bytes h)) pn'') at 1. rewrite Hx, <- app_assoc. done.
  - rewrite <- Hpn. apply drop_app_length.
Qed.

Lemma sealed_unpacks s o h plain rest n u getOpener :
  AEADLaws (sl_aead s) -> BlockLaws (sl_hpEncrypter s) -> matching s o -> header_wf h ->
  sl_is1RTT s = negb (hd_IsLongHeader (eh_Header h)) ->
  (if hd_IsLongHeader (eh_Header h)
   then (hd_Type (eh_Header h) = PacketTypeInitial \/ hd_Type (eh_Header h) = PacketTypeHandshake) /\
        hd_Length (eh_Header h) = eh_PacketNumberLen h + Z.of_nat (length plain) + 16
   else n = connID_Len (hd_DestConnectionID (eh_Header h)) /\ rest = []) ->
  4 <= eh_PacketNumberLen h + Z.of_nat (length plain) ->
  getOpener (level_of (eh_Header h)) = Ret o ->
  0 <= un_largestRcvdPacketNumber u < 2 ^ 62 ->
  Z.abs (eh_PacketNumber h - (un_largestRcvdPacketNumber u + 1)) < 2 ^ (8 * eh_PacketNumberLen h - 1) ->
  exists hb raw hdr eh, writeHeader [] h = Ret hb /\ seal_packet s (hb ++ plain) (length hb) h = Ret raw /\
    ParsePacket (raw ++ rest) n = Ret (hdr, raw, rest) /\
    Unpack getOpener u hdr raw =
      (mkPacketUnpacker (MaxPacketNumber (un_largestRcvdPacketNumber u) (eh_PacketNumber h)),
       Ret (mkUnpackedPacket (eh_PacketNumber h) eh (level_of (eh_Header h)) plain)).
Proof.
  intros La Lb Hm Hwf H1 Hcut Hmin Ho Hlg Hwin. destruct (header_written h Hwf) as (ty & pre & Hw).
  pose proof Hwf as (Hl & Hpn & _ & _ & _ & Hrest). pose proof (pn_bytes_length h ltac:(lia)) as Hpl.
  destruct (seal_packet_ok s h ty pre plain La Lb Hl Hmin) as (c & raw & Er & Hse).
  destruct (sealed_parse s h ty pre plain c raw rest n Hw Hse H1) as (ty' & Ep).
  { destruct (hd_IsLongHeader (eh_Header h)); [|done]. destruct Hse. lia. }
  set (hdr := _ <| hd_parsedLen := _ |>) in Ep.
  destruct (sealed_unprotect s o h ty pre plain c raw Lb Hm Hl Hmin Hse) as (x & Eu & Hx & Eo & Ed).
  exists (ty :: pre ++ pn_bytes h), raw, hdr. eexists. split; [apply (wr_write _ _ _ Hw [])|]. split; [done|]. split; [done|].
  unfold Unpack. assert (Hlv : (if hd_Type hdr =? PacketTypeInitial then Ret EncryptionInitial
        else if hd_Type hdr =? PacketTypeHandshake then Ret EncryptionHandshake
        else if hd_IsLongHeader hdr then Error (ErrorString "unknown packet type: %s") else Ret Encryption1RTT) = Ret (level_of (eh_Header h))).
  { cbn. unfold level_of. destruct (hd_IsLongHeader (eh_Header h)); [by destruct Hcut as [[-> | ->] _]|].
    by destruct Hrest as (_ & _ & -> & _). }
  rewrite Hlv, Ho. cbn -[Z.of_nat ParseExtended Z.to_nat].
  assert (Hlen : Z.of_nat (length raw) = 1 + Z.of_nat (length pre) + eh_PacketNumberLen h + Z.of_nat (length plain) + 16).
  { destruct Hse as [_ Hc Hraw]. destruct (mask_header _ _ _ ty (pn_bytes h)). destruct Hraw as [-> Hr]. cbn [length]. rewrite !length_app. lia. }
  rewrite (proj2 (Z.ltb_ge _ _)) by lia. replace (Z.to_nat (1 + Z.of_nat (length pre))) with (S (length pre)) by lia. rewrite Eu.
  rewrite (ParseExtended_written h ty pre (x ++ drop (4 - length (pn_bytes h)) c) hdr); [|split; [done|]; split; [done|]; split; [|done]|apply Hw|done].
  2: { destruct (hd_IsLongHeader (eh_Header h)); [apply Hrest|done]. }
  cbn -[Z.of_nat Z.to_nat]. replace (Z.to_nat (eh_PacketNumberLen h)) with (length (pn_bytes h)) by lia.
  assert (Ht : take (length pre + length (pn_bytes h)) (pre ++ pn_bytes h ++ x ++ drop (4 - length (pn_bytes h)) c) = pre ++ pn_bytes h)
    by (rewrite app_assoc, <- length_app; apply take_app_length).
  assert (Hd : drop (length pre + 4) (pre ++ pn_bytes h ++ x ++ drop (4 - length (pn_bytes h)) c) = drop (4 - length (pn_bytes h)) c).
  { rewrite <- drop_drop, drop_app_length, app_assoc, drop_app, drop_ge by (rewrite length_app; lia).
    rewrite length_app. replace (4 - (length (pn_bytes h) + length x))%nat with 0%nat by lia. done. }
  rewrite Ht, Hd, Eo, take_drop, <- length_app, take_app_length, drop_app_length.
  fold (truncate_pn (eh_PacketNumberLen h) (eh_PacketNumber h)). rewrite DecodePacketNumber_correct by done.
  by rewrite (Open_Seal s o plain _ _ c La Hm (se_cipher _ _ _ _ _ _ _ Hse)).
Qed.

(** C15. A packet end to end: the packet that is sealed from a header and a plaintext is
    found in the datagram by the receiver, whatever follows it; with the matching keys the unpacker
    removes the protection of the header, expands the packet number, and
    decrypts exactly the plaintext. *)
Theorem packet_roundtrip s o h plain rest n u getOpener :
  AEADLaws (sl_aead s) -> BlockLaws (sl_hpEncrypter s) -> matching s o -> header_wf h ->
  sl_is1RTT s = negb (hd_IsLongHeader (eh_Header h)) ->
  (if hd_IsLongHeader (eh_Header h)
   then (hd_Type (eh_Header h) = PacketTypeInitial \/ hd_Type (eh_Header h) = PacketTypeHandshake) /\
        hd_Length (eh_Header h) = eh_PacketNumberLen h + Z.of_nat (length plain) + 16
   else n = connID_Len (hd_DestConnectionID (eh_Header h)) /\ rest = []) ->
  4 <= eh_PacketNumberLen h + Z.of_nat (length plain) ->
  getOpener (level_of (eh_Header h)) = Ret o ->
  0 <= un_largestRcvdPacketNumber u < 2 ^ 62 ->
  Z.abs (eh_PacketNumber h - (un_largestRcvdPacketNumber u + 1)) < 2 ^ (8 * eh_PacketNumberLen h - 1) ->
  exists hb raw hdr eh, writeHeader [] h = Ret hb /\ seal_packet s (hb ++ plain) (length hb) h = Ret raw /\
    ParsePacket (raw ++ rest) n = Ret (hdr, raw, rest) /\
    Unpack getOpener u hdr raw =
      (mkPacketUnpacker (MaxPacketNumber (un_largestRcvdPacketNumber u) (eh_PacketNumber h)),
       Ret (mkUnpackedPacket (eh_PacketNumber h) eh (level_of (eh_Header h)) plain)).
Proof. apply sealed_unpacks. Qed.

(** ** The frames of a packet *)

(** Frames that can be written one after the other, and their bytes. *)
Inductive framing : list Frame -> bytes -> Prop :=
| framing_nil : framing [] []
| framing_cons fr l bs rest :
    frame_wf fr rest -> (forall b, Write b fr = Ret (b ++ bs, None)) -> framing l rest -> framing (fr :: l) (bs ++ rest).

Lemma framing_payload l bs : framing l bs -> Frames.payload l bs.
Proof. induction 1; [apply (payload_padding 0)|by constructor]. Qed.

Lemma write_frames_framing l bs b : framing l bs -> write_frames b l = Ret (b ++ bs).
Proof.
  intros Hf. revert b. induction Hf as [|fr l bs rest _ Hw _ IH]; intros b; cbn [write_frames]; [by rewrite app_nil_r|].
  rewrite Hw. cbn [mbind outcome_bind]. by rewrite IH, app_assoc.
Qed.

Lemma ParseNext_skips e lvl n r : ParseNext e lvl (repeat 0 n ++ r) = ParseNext e lvl r.
Proof. by induction n. Qed.

Definition ack_frames (ack : option AckFrame) : list Frame := match ack with Some a => [FAck a] | None => [] end.

Lemma write_padding_bytes b n : 0 <= n < 2 ^ 63 -> write_padding b n = Ret (b ++ repeat 0 (Z.to_nat n)).
Proof.
  intros Hn. unfold write_padding. rewrite int64_id by (unfold is_int64; lia).
  destruct (Z.ltb_spec 0 n); [by rewrite (proj2 (Z.ltb_ge _ _)) by lia|]. replace n with 0 by lia. by rewrite app_nil_r.
Qed.

(** The ACK at the beginning of a packet. *)
Lemma write_ack_bytes ack :
  match ack with Some ack => encodable ack | None => True end ->
  exists ab, (forall b, write_ack b ack = Ret (b ++ ab)) /\ ack_length ack = Ret (Z.of_nat (length ab)) /\
    forall lvl rest fuel, (length ab + length rest < fuel)%nat ->
      exists fuel', (length rest < fuel')%nat /\
      parse_frames fuel AckDelayExponent lvl (ab ++ rest) =
        (l ← parse_frames fuel' AckDelayExponent lvl rest; mret (map received (ack_frames ack) ++ l)).
Proof.
  destruct ack as [ack|]; intros Hack.
  - destruct (ParseNext_frame Encryption1RTT (FAck ack) [] (frame_wf_ok _ (FAck ack) [] Hack)) as (ab & Hne & Hw & Hl & _). exists ab. split_and!.
    + intros b. specialize (Hw b). cbn in *. destruct (writeAckFrame b ack); try done. cbn in Hw. by injection Hw as ->.
    + exact Hl.
    + intros lvl rest fuel Hfu. destruct fuel as [|fuel]; [lia|]. exists fuel. split; [destruct ab; cbn in *; [done|lia]|].
      destruct (ParseNext_frame lvl (FAck ack) rest (frame_wf_ok _ (FAck ack) rest Hack)) as (ab' & _ & Hw' & _ & Hn).
      assert (ab' = ab) as ->. { specialize (Hw []). specialize (Hw' []). rewrite Hw in Hw'. by injection Hw'. }
      cbn [parse_frames]. rewrite Hn. done.
  - exists []. split_and!; [intros b; by rewrite app_nil_r|done|]. intros lvl rest fuel Hfu. exists fuel. split; [cbn in *; lia|].
    cbn. by destruct (parse_frames fuel AckDelayExponent lvl rest).
Qed.

(** The plaintext of a packet: the ACK, the padding, and the frames. *)
Lemma packet_bytes_plain header pl paddingLen hb fb :
  writeHeader [] header = Ret hb -> framing (pl_frames pl) fb -> 0 <= paddingLen < 2 ^ 63 ->
  match pl_ack pl with Some ack => encodable ack | None => True end ->
  exists plain ackLen, packet_bytes header pl paddingLen = Ret (hb ++ plain, length hb) /\
    ack_length (pl_ack pl) = Ret ackLen /\ Z.of_nat (length plain) = ackLen + paddingLen + Z.of_nat (length fb) /\
    forall lvl, parse_frames (S (length plain)) AckDelayExponent lvl plain =
      Ret (map received (ack_frames (pl_ack pl) ++ pl_frames pl)).
Proof.
  intros Eh Hf Hp Hack. destruct (write_ack_bytes (pl_ack pl) Hack) as (ab & Hw & Hl & Hpa).
  exists (ab ++ repeat 0 (Z.to_nat paddingLen) ++ fb), (Z.of_nat (length ab)). split_and!; [|done|rewrite !length_app, repeat_length; rewrite !Nat2Z.inj_add, Z2Nat.id, Z.add_assoc by lia; done|].
  - unfold packet_bytes. rewrite Eh. cbn [mbind outcome_bind]. rewrite Hw. cbn [mbind outcome_bind].
    rewrite write_padding_bytes by done. cbn [mbind outcome_bind]. rewrite (write_frames_framing _ fb) by done. cbn. by rewrite <- !app_assoc.
  - intros lvl. destruct (Hpa lvl (repeat 0 (Z.to_nat paddingLen) ++ fb) (S (length (ab ++ repeat 0 (Z.to_nat paddingLen) ++ fb)))) as (fuel' & Hfu & E).
    { rewrite !length_app. lia. }
    rewrite E. assert (Ef : parse_frames fuel' AckDelayExponent lvl (repeat 0 (Z.to_nat paddingLen) ++ fb) = Ret (map received (pl_frames pl))).
    { destruct fuel' as [|fuel']; [lia|]. rewrite length_app in Hfu.
      etrans; [|apply (parse_frames_payload lvl (pl_frames pl) fb (S fuel') (framing_payload _ _ Hf)); clear - Hfu; unfold bytes, byte in *; lia].
      cbn [parse_frames]. by rewrite ParseNext_skips. }
    rewrite Ef. cbn. by rewrite map_app.
Qed.

(** ** Packing 1-RTT packets *)

(** What the packet numbers promise to the packer, while there are [k] of them ([ok k]): the number that is
    peeked is the one that is popped, its length is valid, and the next one can be used as well. *)
Class PacketNumbers {P : Type} `{PacketNumberManager P} (ok : nat -> P -> Prop) (usable : P -> EncryptionLevel -> Prop) : Prop :=
  pn_ok k p lvl : ok (S k) p -> usable p lvl ->
    exists pn n p', peekPacketNumber p lvl = Ret (pn, n) /\ 2 <= n <= 4 /\ 0 <= pn < 2 ^ 62 /\
      popPacketNumber p lvl = Ret (p', pn) /\ ok k p' /\ usable p' lvl.

Lemma framing_control l bs control :
  framing l bs -> Forall (fun fr => forall rest, frame_wf fr rest) control ->
  exists cb, framing (control ++ l) (cb ++ bs) /\ control_length control = Ret (Z.of_nat (length cb)).
Proof.
  intros Hf. induction 1 as [|fr control Hfr _ (cb & IH & El)]; [by exists []|].
  destruct (ParseNext_frame Encryption1RTT fr (cb ++ bs) (frame_wf_ok _ fr _ (Hfr _))) as (b & _ & Hw & Hl & _).
  exists (b ++ cb). split; [rewrite <- app_assoc; by apply framing_cons|]. cbn [control_length]. rewrite Hl, El. cbn.
  by rewrite length_app, Nat2Z.inj_add.
Qed.

Lemma framing_stream f : stream_frame_ok f -> frame_wf (FStream (no_len f)) [] /\ forall rest, frame_wf (FStream f) rest.
Proof. intros [H1 H2 H3 H4 H5]. split; [split_and!; try done; by right|]. intros rest. split_and!; try done. by left. Qed.

(** The STREAM frames of a packet, the last one without its length. *)
Lemma framing_streams new :
  Forall stream_frame_ok new ->
  exists bs, framing (map FStream (as_written new)) bs /\ frames_length (as_written new) = Ret (Z.of_nat (length bs)) /\
    (new <> [] -> (2 <= length bs)%nat).
Proof.
  intros Hall. destruct (decide (new = [])) as [->|Hne].
  { exists []. split_and!; [constructor|done|done]. }
  destruct (exists_last Hne) as (init & last & ->). apply Forall_app in Hall as [Hinit [Hlast _]%Forall_cons].
  unfold as_written. rewrite rev_app_distr. cbn [rev app]. rewrite rev_involutive, map_app. cbn [map].
  destruct (framing_stream last Hlast) as [Hwf _].
  destruct (ParseNext_frame Encryption1RTT (FStream (no_len last)) [] (frame_wf_ok _ _ _ Hwf)) as (b & Hb & Hw & Hl & _).
  assert (Hlb : (2 <= length b)%nat).
  { specialize (Hw []). cbn in Hw. rewrite (writeStreamFrame_bytes _ _ []) in Hw by done. injection Hw as <-.
    cbn [length]. rewrite length_app. unfold stream_header. rewrite length_app.
    assert (Hv : is_varint (sf_StreamID (no_len last))) by (pose proof (sfo_id _ Hlast) as Hi; unfold is_id in Hi; cbn; varint).
    pose proof (varint_bytes_length _ Hv). lia. }
  pose proof (framing_cons (FStream (no_len last)) [] b [] Hwf Hw framing_nil) as Hf. rewrite app_nil_r in Hf.
  clear Hne. induction Hinit as [|f init Hfo _ (bs & IH1 & IH2 & IH3)].
  { exists b. split_and!; [done| |done]. cbn in *. rewrite Hl. cbn. by rewrite Z.add_0_r. }
  destruct (framing_stream f Hfo) as [_ Hwf'].
  destruct (ParseNext_frame Encryption1RTT (FStream f) bs (frame_wf_ok _ _ _ (Hwf' bs))) as (b' & _ & Hw' & Hl' & _).
  exists (b' ++ bs). split_and!.
  - cbn [map app]. by apply framing_cons.
  - cbn in *. rewrite Hl', IH2. cbn. by rewrite length_app, Nat2Z.inj_add.
  - intros _. rewrite length_app. assert (2 <= length bs)%nat by (apply IH3; by destruct init). lia.
Qed.

Lemma packing_step {W P A B} (m : packing (W:=W) (P:=P) A) (k : A -> packing B) e e' a :
  m e = Ret (e', inl a) -> (m ≫= k) e = k a e'.
Proof. unfold mbind, packing_bind. by intros ->. Qed.

Lemma packing_panic {W P A B} (m : packing (W:=W) (P:=P) A) (k : A -> packing B) e msg :
  m e = Panic msg -> (m ≫= k) e = Panic msg.
Proof. unfold mbind, packing_bind. by intros ->. Qed.

(** One call of a computation, by the equation of what it returns, and a read or a write of the state. *)
Ltac pack_step E := erewrite packing_step by (unfold call; rewrite E; reflexivity); cbv beta iota zeta.
Ltac pack_get := erewrite packing_step by reflexivity; cbv beta iota zeta.

Section Pack1RTT.
Context {W P : Type} `{PopsFrames W wok} `{PacketNumbers P pok usable}.

(** A short header, as it is made and as it is written. *)
Definition short_header (p : packetPacker) (pn n : Z) : ExtendedHeader :=
  mkExtendedHeader (zero_header <| hd_Version := pk_version p |> <| hd_DestConnectionID := pk_destConnID p |>) 0 n pn 0.
Definition wire_header (p : packetPacker) (pn n : Z) : ExtendedHeader :=
  mkExtendedHeader (zero_header <| hd_DestConnectionID := pk_destConnID p |>) 0 n pn 0.

Lemma wire_header_wf p pn n : valid_connID (pk_destConnID p) -> 2 <= n <= 4 -> 0 <= pn < 2 ^ 62 -> header_wf (wire_header p pn n).
Proof. intros Hv Hn Hp. unfold header_wf. cbn. split_and!; try done; lia. Qed.

(** What a receiver with the keys of [s] makes of a packet. *)
Definition arrives (s : sealer) (dest : ConnectionID) (pn n : Z) (raw : bytes) (frames : list Frame) : Prop :=
  forall o u getOpener, matching s o -> getOpener Encryption1RTT = Ret o ->
    0 <= un_largestRcvdPacketNumber u < 2 ^ 62 -> Z.abs (pn - (un_largestRcvdPacketNumber u + 1)) < 2 ^ (8 * n - 1) ->
    exists hdr eh plain, ParsePacket raw (connID_Len dest) = Ret (hdr, raw, []) /\
      Unpack getOpener u hdr raw = (mkPacketUnpacker (MaxPacketNumber (un_largestRcvdPacketNumber u) pn),
        Ret (mkUnpackedPacket pn eh Encryption1RTT plain)) /\
      parse_frames (S (length plain)) AckDelayExponent Encryption1RTT plain = Ret (map received frames).

(** Writing and sealing a 1-RTT packet whose payload fits. *)
Lemma seal_1rtt (e : env (W:=W) (P:=P)) pl fb ackLen s pn n p' :
  AEADLaws (sl_aead s) -> BlockLaws (sl_hpEncrypter s) -> sl_is1RTT s = true ->
  valid_connID (pk_destConnID (ev_packer e)) -> 2 <= n <= 4 -> 0 <= pn < 2 ^ 62 ->
  popPacketNumber (ev_pns e) Encryption1RTT = Ret (p', pn) ->
  framing (pl_frames pl) fb -> match pl_ack pl with Some ack => encodable ack | None => True end ->
  ack_length (pl_ack pl) = Ret ackLen -> 0 <= pl_length pl < 2 ^ 62 ->
  (pl_length pl = ackLen + Z.of_nat (length fb) \/ 2 <= ackLen + Z.of_nat (length fb) /\ 2 <= pl_length pl) ->
  1 + connID_Len (pk_destConnID (ev_packer e)) + n + Z.max 2 (ackLen + Z.of_nat (length fb)) + 16 <= pk_maxPacketSize (ev_packer e) ->
  exists raw, writeAndSealPacket (short_header (ev_packer e) pn n) pl Encryption1RTT s e =
      Ret (e <| ev_pns := p' |>, inl (mkPackedPacket (short_header (ev_packer e) pn n) raw (pl_ack pl) (pl_frames pl))) /\
    Z.of_nat (length raw) <= pk_maxPacketSize (ev_packer e) /\
    arrives s (pk_destConnID (ev_packer e)) pn n raw (ack_frames (pl_ack pl) ++ pl_frames pl).
Proof.
  intros La Lb Hrtt Hd Hn Hpn Ep Hf Hack Eal Hpl Hlen Hfit. set (h := short_header (ev_packer e) pn n).
  assert (Hwf : header_wf (wire_header (ev_packer e) pn n)) by by apply wire_header_wf.
  destruct (header_written _ Hwf) as (ty & pre & Hw). set (hb := ty :: pre ++ pn_bytes (wire_header (ev_packer e) pn n)).
  assert (Eh : writeHeader [] h = Ret hb) by exact (wr_write _ _ _ Hw []).
  assert (Ehl : Z.of_nat (length hb) = 1 + connID_Len (pk_destConnID (ev_packer e)) + n).
  { pose proof (wr_length _ _ _ Hw) as E. cbn in E. injection E as E. symmetry. exact E. }
  set (pad := if pl_length pl <? uint64 (4 - n) then uint64 (4 - n - pl_length pl) else 0).
  destruct (write_ack_bytes (pl_ack pl) Hack) as (ab & _ & Eab & _). rewrite Eal in Eab. injection Eab as ->.
  assert (Hpad : 0 <= pad <= 2 /\ 4 <= n + (Z.of_nat (length ab) + pad + Z.of_nat (length fb)) /\
    Z.of_nat (length ab) + pad + Z.of_nat (length fb) <= Z.max 2 (Z.of_nat (length ab) + Z.of_nat (length fb))).
  { unfold pad. rewrite uint64_id by (unfold is_uint64; lia). destruct (Z.ltb_spec (pl_length pl) (4 - n)); [|lia].
    rewrite uint64_id by (unfold is_uint64; lia). lia. }
  destruct Hpad as (Hp1 & Hp2 & Hp3).
  destruct (packet_bytes_plain h pl pad hb fb Eh Hf ltac:(lia) Hack) as (plain & ackLen & Eb & Eal' & Hpla & Hparse).
  rewrite Eal in Eal'. injection Eal' as <-.
  destruct (seal_packet_ok s (wire_header (ev_packer e) pn n) ty pre plain La Lb ltac:(cbn; lia) ltac:(cbn; lia)) as (c & raw & Er & Hse).
  fold hb in Er. assert (Hraw : Z.of_nat (length raw) = Z.of_nat (length hb) + Z.of_nat (length plain) + 16).
  { destruct Hse as [_ Hc Hr]. destruct (mask_header _ _ _ ty _). destruct Hr as [-> Hr]. unfold hb. cbn [length]. rewrite !length_app. lia. }
  exists raw. split_and!; [|lia|].
  - unfold writeAndSealPacket. pack_get. rewrite bool_decide_eq_true_2 by done. cbn [negb].
    fold h. change (eh_PacketNumberLen h) with n. fold pad. unfold writeAndSealPacketWithPadding.
    pack_step Eb. pack_get.
    unfold Overhead. rewrite (aead_overhead (a:=sl_aead s)), (proj2 (Z.ltb_ge _ _)) by (rewrite length_app; lia).
    pack_step (Er : seal_packet s (hb ++ plain) (length hb) h = Ret raw). pack_step Ep. pack_get.
    change (eh_PacketNumber h) with pn. rewrite Z.eqb_refl. done.
  - intros o u getOpener Hm Ho Hu Hwin.
    destruct (sealed_unpacks s o (wire_header (ev_packer e) pn n) plain [] (connID_Len (pk_destConnID (ev_packer e))) u getOpener)
      as (hb' & raw' & hdr & eh & Eh' & Er' & Ep' & Eu); try done.
    { cbn. lia. }
    rewrite (Eh : writeHeader [] (wire_header (ev_packer e) pn n) = Ret hb) in Eh'. injection Eh' as <-. rewrite Er in Er'. injection Er' as <-.
    rewrite app_nil_r in Ep'. exists hdr, eh, plain. split_and!; [done|done|]. apply Hparse.
Qed.

(** The state in which packets are packed at time [now]; what is kept of it does not depend on the packet numbers. *)
Record env_ok (now : time) (e : env (W:=W) (P:=P)) : Prop := {
  eo_connID : valid_connID (pk_destConnID (ev_packer e));
  eo_size : MinInitialPacketSize <= pk_maxPacketSize (ev_packer e) <= 1452;
  eo_world : wok (ev_world e);
  eo_framer : framer_ok (ev_framer e);
  eo_control : Forall control_ok (fr_controlFrames (ev_framer e));
  eo_acks : acks_ok now (ev_acks e)
}.

(** A payload that fits in [maxSize] bytes. *)
Definition payload_fits (pl : payload) (maxSize : ByteCount) : Prop :=
  exists fb ackLen, framing (pl_frames pl) fb /\ match pl_ack pl with Some ack => encodable ack | None => True end /\
    ack_length (pl_ack pl) = Ret ackLen /\ 0 <= ackLen /\ 0 <= pl_length pl < 2 ^ 62 /\ ackLen + Z.of_nat (length fb) <= maxSize /\
    (pl_length pl = ackLen + Z.of_nat (length fb) \/ 2 <= ackLen + Z.of_nat (length fb) /\ 2 <= pl_length pl).

(** The size of the ACK frame that begins a packet. *)
Lemma ack_length_bound ack :
  match ack with Some ack => encodable ack | None => True end ->
  exists l, ack_length ack = Ret l /\ 0 <= l <= MaxAckFrameSize + 8.
Proof.
  intros Hack. destruct (write_ack_bytes ack Hack) as (ab & _ & El & _). exists (Z.of_nat (length ab)). split; [done|].
  destruct ack as [ack|]; [|cbn in El; injection El as <-; done].
  destruct (lengthAckFrame_bound ack Hack) as (l & El' & Hl). cbn in El. rewrite El in El'. injection El' as <-. lia.
Qed.

Lemma frames_length_pos new len :
  Forall stream_frame_ok new -> frames_length new = Ret len -> new <> [] -> 2 <= len.
Proof.
  intros Hall. revert len. induction Hall as [|f new Hf Hall IH]; [done|]. cbn. intros len El _.
  rewrite lengthStreamFrame_bytes in El by apply Hf. cbn [mbind outcome_bind] in El.
  destruct (frames_length new) as [n| |] eqn:En; try done. injection El as <-.
  assert (0 <= n) by (destruct new; [by injection En as <-|specialize (IH n eq_refl ltac:(done)); lia]).
  assert (Hv : is_varint (sf_StreamID f)) by (pose proof (sfo_id _ Hf) as Hi; unfold is_id in Hi; varint).
  pose proof (varint_bytes_length _ Hv). unfold stream_header. rewrite !length_app. lia.
Qed.

Lemma appendControlFrames_run (e : env (W:=W) (P:=P)) fr maxLen f frames len :
  AppendControlFrames (ev_framer e) fr maxLen = Ret (f, frames, len) ->
  appendControlFrames fr maxLen e = Ret (e <| ev_framer := f |>, inl (frames, len)).
Proof. intros E. unfold appendControlFrames. pack_get. pack_step E. by pack_get. Qed.

Lemma appendStreamFrames_run (e : env (W:=W) (P:=P)) fr maxLen w f frames len :
  AppendStreamFrames (ev_world e) (ev_framer e) fr maxLen = Ret (w, f, frames, len) ->
  appendStreamFrames fr maxLen e = Ret (e <| ev_framer := f |> <| ev_world := w |>, inl (frames, len)).
Proof. intros E. unfold appendStreamFrames. pack_get. pack_step E. by pack_get. Qed.

(** The frames that are taken for a packet. *)
Lemma framing_taken (control : list Frame) new clen len maxLen :
  Forall control_ok control -> control_length control = Ret clen ->
  added maxLen new len -> 0 <= maxLen ->
  exists fb, framing (control ++ map FStream (as_written new)) fb /\ Z.of_nat (length fb) <= clen + maxLen /\ 0 <= clen /\
    (new = [] /\ len = 0 /\ Z.of_nat (length fb) = clen \/ 2 <= Z.of_nat (length fb) /\ 2 <= len).
Proof.
  intros Hc Ec Had Hm. destruct (framing_streams new (ad_ok _ _ _ Had)) as (bs & Hf & Hl & Hne).
  destruct (as_written_fits maxLen new len Had Hm) as (n & En & Hn). rewrite Hl in En. injection En as <-.
  destruct (framing_control _ bs control Hf) as (cb & Hfr & Ecl).
  { eapply Forall_impl; [apply Hc|]. by intros fr [_ ?]. }
  rewrite Ec in Ecl. injection Ecl as ->. exists (cb ++ bs). rewrite length_app, Nat2Z.inj_add. split_and!; [done|lia|lia|].
  destruct (decide (new = [])) as [->|Hn0].
  - left. injection Hl as Hb. pose proof (ad_length _ _ _ Had) as El. injection El as <-. split_and!; [done|done|lia].
  - right. split; [specialize (Hne Hn0); lia|]. eapply frames_length_pos; [apply Had|apply Had|done].
Qed.

Lemma control_length_nonneg sent clen : Forall control_ok sent -> control_length sent = Ret clen -> 0 <= clen.
Proof.
  intros Hcs Hcl. destruct (framing_control [] [] sent framing_nil) as (? & _ & E); [eapply Forall_impl; [done|by intros ? []]|].
  rewrite Hcl in E. injection E as ->. lia.
Qed.

(** The frames that are taken from the control queue, and those that are left. *)
Lemma taken_control f f1 sent clen :
  Forall control_ok (fr_controlFrames f) -> fr_controlFrames f = fr_controlFrames f1 ++ rev sent -> control_length sent = Ret clen ->
  Forall control_ok (fr_controlFrames f1) /\ Forall control_ok sent /\ 0 <= clen.
Proof.
  intros Hc Hsent Hcl. rewrite Hsent in Hc. apply Forall_app in Hc as [Hrest Hc].
  assert (Hcs : Forall control_ok sent) by (rewrite <- (rev_involutive sent); by apply List.Forall_rev).
  split_and!; [done|done|by eapply control_length_nonneg].
Qed.

(** The ACK that is due for a 1-RTT packet. *)
Definition due_ack (now : time) (e : env (W:=W) (P:=P)) : option AckFrame := (handler_GetAckFrame (ev_acks e) Encryption1RTT now).2.

(** The [frames] that are taken, besides an ACK, for a packet with a payload of [maxSize] bytes: the control frames at the end of the queue, until
    the next one does not fit, and then all that the streams hand out in their turns, until every stream had one or there is no room for another frame. *)
Definition frames_taken (now : time) (maxSize : ByteCount) (e e' : env (W:=W) (P:=P)) (frames : list Frame) : Prop :=
  exists sent new rest q ackLen controlLen k kept left,
    frames = sent ++ map FStream (as_written new) /\ ack_length (due_ack now e) = Ret ackLen /\ control_length sent = Ret controlLen /\
    fr_controlFrames (ev_framer e) = rest ++ rev sent /\ fr_controlFrames (ev_framer e') = rest ++ q /\
    (forall fr rest' l, rest = rest' ++ [fr] -> Length fr = Ret l -> maxSize < ackLen + controlLen + l) /\
    turns (maxSize - (ackLen + controlLen)) (ev_world e, rest) (take k (fr_streamQueue (ev_framer e))) new kept (ev_world e', rest ++ q) left /\
    fr_streamQueue (ev_framer e') = drop k (fr_streamQueue (ev_framer e)) ++ kept /\
    (drop k (fr_streamQueue (ev_framer e)) = [] \/ left < MinStreamFrameSize).

(** A composed payload: it fits, and consists of the ACK that is due and of the frames that were taken. *)
Record composed (now : time) (maxSize : ByteCount) (e e' : env (W:=W) (P:=P)) (pl : payload) : Prop := {
  cp_packer : ev_packer e' = ev_packer e;
  cp_pns : ev_pns e' = ev_pns e;
  cp_ok : env_ok now e';
  cp_fits : payload_fits pl maxSize;
  cp_length : pl_length pl < 2 ^ 61;
  cp_ack : pl_ack pl = due_ack now e;
  cp_taken : frames_taken now maxSize e e' (pl_frames pl)
}.

(** An ACK without ranges. *)
Definition empty_ack (ack : option AckFrame) : bool := match ack with Some (mkAckFrame [] _) => true | _ => false end.

Lemma composeNextPacket_ok now e maxSize :
  env_ok now e -> empty_ack (due_ack now e) = false -> MaxAckFrameSize + 8 <= maxSize <= 1452 ->
  exists e' pl, composeNextPacket now maxSize e = Ret (e', inl pl) /\ composed now maxSize e e' pl.
Proof.
  intros Hok Hne Hm. unfold composeNextPacket, getAckFrame, due_ack in *.
  destruct (handler_GetAckFrame (ev_acks e) Encryption1RTT now) as [acks ack] eqn:Ea. cbn [snd] in Hne.
  destruct (handler_GetAckFrame_ok now _ _ _ _ (eo_acks _ _ Hok) Ea) as [Hacks Hack].
  erewrite packing_step by (rewrite Ea; reflexivity). cbv beta.
  assert (Hack' : match ack with Some ack => encodable ack | None => True end) by (destruct ack as [[[] d]|]; [done|by apply Hack|done]).
  destruct (ack_length_bound ack Hack') as (ackLen & Eal & Hal).
  pack_step Eal. unfold MaxAckFrameSize in *. rewrite uint64_id by (unfold is_uint64; lia).
  destruct (AppendControlFrames_ok (ev_framer e) [] (maxSize - ackLen)) as (f1 & sent & clen & Ec & Hsent & Hcl & Hcle & Hq & Hact & Hnext).
  { eapply Forall_impl; [apply (eo_control _ _ Hok)|]. by intros fr [? _]. }
  { lia. }
  set (e1 := e <| ev_acks := acks |>). rewrite (packing_step _ _ e1 _ _ (appendControlFrames_run e1 _ _ _ _ _ Ec)). cbv beta iota zeta.
  destruct (taken_control (ev_framer e) f1 sent clen (eo_control _ _ Hok) Hsent Hcl) as (Hrest & Hcs & Hc0).
  rewrite !uint64_id by (unfold is_uint64; lia). set (e2 := e1 <| ev_framer := f1 |>).
  destruct (AppendStreamFrames_ok (ev_world e) f1 ([] ++ sent) (maxSize - (ackLen + clen))) as (w' & f2 & new & len & k & kept & Es & Hw' & Hf2 & Had & (q & Eq & Hqu) & Hqk & Hturns & Hall).
  { apply (eo_world _ _ Hok). }
  { unfold framer_ok. rewrite Hq, Hact. apply (eo_framer _ _ Hok). }
  { lia. }
  rewrite (packing_step _ _ e2 _ _ (appendStreamFrames_run e2 _ _ _ _ _ _ Es)). cbv beta iota zeta.
  destruct (framing_taken sent new clen len _ Hcs Hcl Had ltac:(lia)) as (fb & Hf & Hfb & _ & Hcase).
  pose proof (ad_bound _ _ _ Had) as Hb. cbn [app].
  set (e3 := e2 <| ev_framer := f2 |> <| ev_world := w' |>).
  assert (Hok3 : env_ok now e3).
  { destruct Hok. split; try done. cbn. rewrite Eq. by apply Forall_app. }
  exists e3, (mkPayload (sent ++ map FStream (as_written new)) ack (ackLen + clen + len)). split.
  { rewrite uint64_id by (unfold is_uint64; lia). destruct (sent ++ map FStream (as_written new)) eqn:E; [|done].
    inversion Hf; subst. destruct Hcase as [(-> & -> & _)|[? _]]; [by rewrite Z.add_0_r|cbn in *; lia]. }
  split; try done; cbn [pl_ack pl_frames].
  - exists fb, ackLen. cbn [pl_frames pl_ack pl_length]. split_and!; try done; lia.
  - cbn [pl_length]. lia.
  - unfold due_ack. by rewrite Ea.
  - exists sent, new, (fr_controlFrames f1), q, ackLen, clen, k, kept, (maxSize - (ackLen + clen) - len). unfold due_ack. rewrite Ea, <- Eq, <- Hq.
    split_and!; try done. intros fr rest' l Er El. specialize (Hnext fr rest' l Er El). lia.
Qed.

Lemma composeNextPacket_empty now (e : env (W:=W) (P:=P)) maxSize :
  empty_ack (due_ack now e) = true -> exists msg, composeNextPacket now maxSize e = Panic msg.
Proof.
  unfold due_ack, composeNextPacket, getAckFrame. destruct (handler_GetAckFrame (ev_acks e) Encryption1RTT now) as [acks ack] eqn:Ea. cbn [snd].
  destruct ack as [[[] d]|]; try done. intros _. erewrite packing_step by (rewrite Ea; reflexivity). eexists. reflexivity.
Qed.

(** Sealing a composed payload, after the number of ACK-only packets [c] was changed. *)
Lemma seal_composed now (e : env (W:=W) (P:=P)) pl s pn n p' c :
  AEADLaws (sl_aead s) -> BlockLaws (sl_hpEncrypter s) -> sl_is1RTT s = true -> env_ok now e -> 2 <= n <= 4 -> 0 <= pn < 2 ^ 62 ->
  popPacketNumber (ev_pns e) Encryption1RTT = Ret (p', pn) ->
  payload_fits pl (pk_maxPacketSize (ev_packer e) - 16 - (1 + connID_Len (pk_destConnID (ev_packer e)) + n)) ->
  let e1 := e <| ev_packer := ev_packer e <| pk_numNonAckElicitingAcks := c |> |> in
  exists raw, writeAndSealPacket (short_header (ev_packer e) pn n) pl Encryption1RTT s e1 =
      Ret (e1 <| ev_pns := p' |>, inl (mkPackedPacket (short_header (ev_packer e) pn n) raw (pl_ack pl) (pl_frames pl))) /\
    env_ok now (e1 <| ev_pns := p' |>) /\
    Z.of_nat (length raw) <= pk_maxPacketSize (ev_packer e) /\
    arrives s (pk_destConnID (ev_packer e)) pn n raw (ack_frames (pl_ack pl) ++ pl_frames pl).
Proof.
  intros La Lb Hrtt Hok Hn Hpn Ep (fb & ackLen & Hf & Hack & Eal & Hal & Hpl & Hfit & Hlen) e1.
  destruct (seal_1rtt e1 pl fb ackLen s pn n p') as (raw & E & Hsz & Har); try done; try apply Hok.
  { cbn. destruct Hok. unfold MinInitialPacketSize, valid_connID in *. lia. }
  exists raw. split_and!; try done. by destruct Hok.
Qed.

(** A PING in a packet that would only contain an ACK. *)
Lemma with_ping pl maxSize :
  payload_fits pl maxSize -> pl_frames pl = [] -> pl_length pl < 2 ^ 61 -> MaxAckFrameSize + 9 <= maxSize ->
  payload_fits (pl <| pl_frames := [FPing] |> <| pl_length := uint64 (pl_length pl + 1) |>) maxSize.
Proof.
  intros (fb & ackLen & Hf & Hack & Eal & Hal & Hpl & Hfit & Hlen) E Hp Hm. rewrite E in Hf. inversion Hf; subst.
  destruct (ack_length_bound (pl_ack pl) Hack) as (l & El & Hl). rewrite Eal in El. injection El as <-.
  unfold MaxAckFrameSize in *. exists [1], ackLen. cbn -[uint64 Z.add]. rewrite uint64_id by (unfold is_uint64; lia).
  cbn [length] in *. split_and!; try done; try lia.
  apply (framing_cons FPing [] [1] []); [done|by intros b|constructor].
Qed.
Lemma getHeader_1rtt (e : env (W:=W) (P:=P)) pn n :
  peekPacketNumber (ev_pns e) Encryption1RTT = Ret (pn, n) ->
  getHeader Encryption1RTT e = Ret (e, inl (short_header (ev_packer e) pn n)).
Proof. intros E. unfold getHeader. pack_get. pack_step E. by rewrite bool_decide_eq_true_2. Qed.

(** A packet that was packed from a payload in the state [e1]. *)
Record packed (s : sealer) (e1 : env (W:=W) (P:=P)) (pn n : Z) (pl : payload) (p : packedPacket) : Prop := {
  pkd_size : Z.of_nat (length (pp_raw p)) <= pk_maxPacketSize (ev_packer e1);
  pkd_arrives : arrives s (pk_destConnID (ev_packer e1)) pn n (pp_raw p) (ack_frames (pp_ack p) ++ pp_frames p);
  pkd_ack : pp_ack p = pl_ack pl;
  pkd_frames : pp_frames p = if bool_decide (pl_frames pl = []) && (MaxNonAckElicitingAcks <=? pk_numNonAckElicitingAcks (ev_packer e1)) then [FPing] else pl_frames pl
}.

(** Packing a payload that has something to send. *)
Lemma pack_composed now s e1 e2 pl pn n p' :
  AEADLaws (sl_aead s) -> BlockLaws (sl_hpEncrypter s) -> sl_is1RTT s = true ->
  2 <= n <= 4 -> 0 <= pn < 2 ^ 62 -> popPacketNumber (ev_pns e1) Encryption1RTT = Ret (p', pn) ->
  composed now (pk_maxPacketSize (ev_packer e1) - 16 - (1 + connID_Len (pk_destConnID (ev_packer e1)) + n)) e1 e2 pl ->
  exists e' r, pack_payload (short_header (ev_packer e1) pn n) pl Encryption1RTT s e2 = Ret (e', inl r) /\
    ev_framer e' = ev_framer e2 /\ ev_world e' = ev_world e2 /\ env_ok now e' /\
    match r with
    | None => pl_frames pl = [] /\ pl_ack pl = None
    | Some p => packed s e1 pn n pl p
    end.
Proof.
  intros La Lb Hrtt Hn Hpn Ep [Epk Epn Hok2 Hfit Hlen _ _]. unfold pack_payload. rewrite <- Epk in Hfit |- *. rewrite <- Epn in Ep.
  destruct (pl_frames pl) as [|fr frs] eqn:Efr; [destruct (pl_ack pl) as [ack|] eqn:Eack|].
  - pack_get. destruct (Z.leb_spec MaxNonAckElicitingAcks (pk_numNonAckElicitingAcks (ev_packer e2))) as [Hc|Hc].
    + set (pl' := pl <| pl_frames := [FPing] |> <| pl_length := uint64 (pl_length pl + 1) |>).
      destruct (seal_composed now e2 pl' s pn n p' 0) as (raw & E & Hok' & Hsz & Har); try done.
      { apply with_ping; try done. destruct Hok2. unfold MinInitialPacketSize, valid_connID, MaxAckFrameSize in *. lia. }
      erewrite packing_step by reflexivity. erewrite packing_step by exact E.
      eexists _, (Some _). split; [reflexivity|]. split_and!; [done..|]. cbn in Har. rewrite Eack in Har. split; cbn; rewrite ?Efr, ?Eack, <- ?Epk, ?(proj2 (Z.leb_le _ _)) by lia; auto.
    + destruct (seal_composed now e2 pl s pn n p' (pk_numNonAckElicitingAcks (ev_packer e2) + 1)) as (raw & E & Hok' & Hsz & Har); try done.
      erewrite packing_step by reflexivity. erewrite packing_step by exact E.
      eexists _, (Some _). split; [reflexivity|]. split_and!; [done..|]. split; cbn; rewrite <- ?Epk; try done. rewrite Efr, (proj2 (Z.leb_gt _ _)) by lia. done.
  - eexists _, None. split; [reflexivity|]. done.
  - destruct (seal_composed now e2 pl s pn n p' 0) as (raw & E & Hok' & Hsz & Har); try done.
    pack_get. pack_get. erewrite packing_step by exact E.
    eexists _, (Some _). split; [reflexivity|]. split_and!; [done..|]. split; cbn; rewrite <- ?Epk; try done. by rewrite Efr.
Qed.

(** What [PackPacket] returns from the state [e1], once there is nothing to send for the handshake. *)
Definition packed_or_idle (now : time) (s : sealer) (e1 e' : env (W:=W) (P:=P)) (r : option packedPacket) : Prop :=
  exists pn n frames, peekPacketNumber (ev_pns e1) Encryption1RTT = Ret (pn, n) /\
  frames_taken now (pk_maxPacketSize (ev_packer e1) - 16 - (1 + connID_Len (pk_destConnID (ev_packer e1)) + n)) e1 e' frames /\
  match r with
  | None => due_ack now e1 = None /\ frames = []
  | Some p =>
      Z.of_nat (length (pp_raw p)) <= pk_maxPacketSize (ev_packer e1) /\
      arrives s (pk_destConnID (ev_packer e1)) pn n (pp_raw p) (ack_frames (pp_ack p) ++ pp_frames p) /\
      pp_ack p = due_ack now e1 /\
      pp_frames p = if bool_decide (frames = []) && (MaxNonAckElicitingAcks <=? pk_numNonAckElicitingAcks (ev_packer e1)) then [FPing] else frames
  end.

(** C17. Packing a 1-RTT packet takes the control frames at the end of their queue, until the next one does not fit, and then all the frames that the streams hand out when they are asked in turns, each for
    as much as there is room for, until every stream had its turn or there is no room for another frame; streams that have more to send go to the end of their queue. The packet is at most as large as
    allowed, and when it arrives at a peer with the keys, its frames are the ACK that was due, followed by exactly these control and STREAM frames; instead of none there is a PING, after too many
    packets with only an ACK. There is no packet only when no ACK is due and no frame was taken. Packing fails only when the ACK that is due has no ranges: then it panics. *)
Theorem pack_packet cs now e e1 s :
  crypto_level now e = Ret (e1, inl None) -> GetSealer cs = (Encryption1RTT, s) ->
  AEADLaws (sl_aead s) -> BlockLaws (sl_hpEncrypter s) -> sl_is1RTT s = true ->
  env_ok now e1 -> pok 1%nat (ev_pns e1) -> usable (ev_pns e1) Encryption1RTT ->
  if empty_ack (due_ack now e1) then exists msg, PackPacket cs now e = Panic msg
  else exists e' r, PackPacket cs now e = Ret (e', inl r) /\ env_ok now e' /\ packed_or_idle now s e1 e' r.
Proof.
  intros Ecl Es La Lb Hrtt Hok Hp Hu. destruct (pn_ok 0 _ _ Hp Hu) as (pn & n & p' & Epeek & Hn & Hpn & Epop & _).
  unfold PackPacket, maybePackCryptoPacket. erewrite packing_step by (erewrite packing_step by exact Ecl; reflexivity). rewrite Es. cbv beta iota zeta.
  erewrite packing_step by exact (getHeader_1rtt e1 pn n Epeek).
  set (maxSize := pk_maxPacketSize (ev_packer e1) - 16 - (1 + connID_Len (pk_destConnID (ev_packer e1)) + n)).
  assert (Hmax : MaxAckFrameSize + 8 <= maxSize <= 1452).
  { destruct Hok. unfold maxSize, MinInitialPacketSize, valid_connID, MaxAckFrameSize in *. lia. }
  erewrite packing_step by reflexivity. pack_get. unfold Overhead. rewrite (aead_overhead (a:=sl_aead s)).
  change (hd_DestConnectionID (eh_Header (short_header (ev_packer e1) pn n))) with (pk_destConnID (ev_packer e1)).
  change (eh_PacketNumberLen (short_header (ev_packer e1) pn n)) with n. fold maxSize.
  rewrite uint64_id by (unfold is_uint64, MaxAckFrameSize in *; lia).
  destruct (empty_ack (due_ack now e1)) eqn:Eack.
  { destruct (composeNextPacket_empty now e1 maxSize Eack) as (msg & Ec). exists msg. by apply packing_panic. }
  destruct (composeNextPacket_ok now e1 maxSize Hok Eack Hmax) as (e2 & pl & Ec & Hcomp).
  destruct (pack_composed now s e1 e2 pl pn n p' La Lb Hrtt Hn Hpn Epop Hcomp) as (e' & r & E & Ef & Ew & Hok' & Hr).
  exists e', r. split_and!; [erewrite packing_step by exact Ec; exact E|done|].
  destruct Hcomp as [_ _ _ _ _ Hack Htaken]. exists pn, n, (pl_frames pl). split_and!; [done|unfold frames_taken in *; by rewrite Ef, Ew|].
  destruct r as [p|]; [destruct Hr as [K1 K2 K3 K4]; split_and!; [done|done|congruence|done]|]. destruct Hr as [K1 K2]. split; congruence.
Qed.
End Pack1RTT.

(** ** An example *)

Definition demo_hdr : ExtendedHeader :=
  mkExtendedHeader (zero_header <| hd_DestConnectionID := [1; 2; 3; 4] |>) 0 2 77 0.

Lemma packet_roundtrip_witness :
  exists hb raw hdr eh, writeHeader [] demo_hdr = Ret hb /\
    seal_packet demo_sealer (hb ++ [1; 1]) (length hb) demo_hdr = Ret raw /\
    ParsePacket (raw ++ []) 4 = Ret (hdr, raw, []) /\
    Unpack (fun _ => Ret demo_opener) (mkPacketUnpacker 70) hdr raw =
      (mkPacketUnpacker 77, Ret (mkUnpackedPacket 77 eh Encryption1RTT [1; 1])).
Proof.
  apply (packet_roundtrip demo_sealer demo_opener demo_hdr [1; 1] [] 4 (mkPacketUnpacker 70) (fun _ => Ret demo_opener));
    try done; try apply _; cbn; try lia. unfold header_wf. cbn. split_and!; try done; try lia. all: first [by left|by right; vm_compute].
Defined.

#[local] Existing Instance demo_getter.
#[local] Existing Instance demo_pops.

(** Packet numbers without gaps. *)
#[local] Instance demo_numbers : PacketNumberManager Z := {
  peekPacketNumber p _ := Ret (p, 2);
  popPacketNumber p _ := Ret (p + 1, p)
}.

#[local] Instance demo_numbers_ok : PacketNumbers (fun k p => 0 <= p /\ p + Z.of_nat k <= 2 ^ 62) (fun _ _ => True).
Proof. intros k p lvl Hp _. exists p, 2, (p + 1). split_and!; try done; lia. Qed.

Definition demo_env : env (W:=bool) (P:=Z) :=
  mkEnv (newPacketPacker [1; 2; 3; 4] [] IPv4Addr PerspectiveServer VersionTLS) newCryptoStream newCryptoStream 9
    NewReceivedPacketHandler (framer_QueueControlFrame (AddActiveStream newFramer 4) FPing) true.

Definition demo_sealing : sealingManager := mkSealingManager (Encryption1RTT, demo_sealer) (fun _ => Error (ErrorString "no keys")).

Lemma demo_env_ok now : 0 <= now -> env_ok (wok:=fun _ : bool => True) now demo_env.
Proof.
  intros Hn. split; try done.
  - right. by vm_compute.
  - split; [apply NoDup_singleton|]. intros id. cbn. set_solver.
  - repeat constructor. exists 1. split; [done|lia].
Qed.

(** An ACK is due, and everything that was received is ignored by now. *)
Definition ignored_env : env (W:=bool) (P:=Z) :=
  demo_env <| ev_acks := NewReceivedPacketHandler <| oneRTTPackets := newReceivedPacketTracker <| ackQueued := true |> |> |>.

Lemma pack_packet_witness :
  (exists e' r, PackPacket demo_sealing 100 demo_env = Ret (e', inl r) /\ env_ok (wok:=fun _ : bool => True) 100 e' /\
    packed_or_idle 100 demo_sealer demo_env e' r) /\
  exists msg, PackPacket demo_sealing 100 ignored_env = Panic msg.
Proof.
  split.
  - apply (pack_packet (wok:=fun _ : bool => True) (pok:=fun k p => 0 <= p /\ p + Z.of_nat k <= 2 ^ 62) (usable:=fun _ _ => True) demo_sealing 100 demo_env demo_env demo_sealer);
      try done; try apply _. by apply demo_env_ok.
  - apply (pack_packet (wok:=fun _ : bool => True) (pok:=fun k p => 0 <= p /\ p + Z.of_nat k <= 2 ^ 62) (usable:=fun _ _ => True) demo_sealing 100 ignored_env ignored_env demo_sealer);
      try done; try apply _. by destruct (demo_env_ok 100 ltac:(lia)).
Defined.

(** A client that has a ClientHello of [n] bytes to send, over IPv4. *)
Definition hello_env (n : nat) : env (W:=bool) (P:=Z) :=
  demo_env <| ev_packer := newPacketPacker [1; 2; 3; 4; 5; 6; 7; 8] [1; 2; 3; 4] IPv4Addr PerspectiveClient VersionTLS |>
           <| ev_initialStream := newCryptoStream <| cs_writeBuf := repeat 1 n |> |>.

Definition hello_sealing : sealingManager :=
  mkSealingManager (Encryption1RTT, demo_sealer) (fun _ => Ret (mkSealer demo_aead demo_block false)).

(** A client pads its Initial packets to 1200 bytes, but fills them up to the maximum of 1252 bytes (1232 for
    IPv6): with a ClientHello of more than about 1150 bytes the size of the padding is negative,
    and the packer panics. A ClientHello of 500 bytes is sent in a packet of 1200 bytes. *)
Theorem initial_padding_panics :
  (exists s, PackPacket hello_sealing 100 (hello_env 1300) = Panic s) /\
  exists e' p, PackPacket hello_sealing 100 (hello_env 500) = Ret (e', inl (Some p)) /\ Z.of_nat (length (pp_raw p)) = MinInitialPacketSize.
Proof. split; [|do 2 eexists]; [eexists|split]; by vm_compute. Qed.
