(* ===== verification/Retransmission.v ===== *)
(** * Retransmissions (packet_packer.go, [PackRetransmission])

    The frames of a lost packet are packed again: the control frames first, then the STREAM frames,
    which are split when they do not fit.  What the new packets carry is compared
    with what the lost packet carried, byte by byte. *)

From S2P Require Import Prelude VarInt Protocol GoFloat AckFrame Frames CryptoStream ReceivedTracker SentHistory Headers Framer Aead PacketPacker.

(** ** What STREAM frames carry *)

Inductive mark := Data (b : byte) | Fin.

(** The bytes of a frame with their offsets, and its FIN. *)
Fixpoint marks (id : StreamID) (offset : ByteCount) (data : bytes) (fin : bool) : list (StreamID * ByteCount * mark) :=
  match data with
  | [] => if fin then [(id, offset, Fin)] else []
  | b :: data => (id, offset, Data b) :: marks id (offset + 1) data fin
  end.

Definition carried (frames : list StreamFrame) : list (StreamID * ByteCount * mark) :=
  concat (map (fun f => marks (sf_StreamID f) (sf_Offset f) (sf_Data f) (sf_FinBit f)) frames).

Lemma marks_split id d1 : forall offset d2 fin,
  marks id offset (d1 ++ d2) fin = marks id offset d1 false ++ marks id (offset + Z.of_nat (length d1)) d2 fin.
Proof.
  induction d1 as [|b d1 IH]; intros offset d2 fin; cbn [app marks length].
  - by rewrite Z.add_0_r.
  - rewrite IH. by replace (offset + 1 + Z.of_nat (length d1)) with (offset + Z.of_nat (S (length d1))) by lia.
Qed.

Lemma carried_app a b : carried (a ++ b) = carried a ++ carried b.
Proof. unfold carried. by rewrite map_app, concat_app. Qed.

(** ** Splitting a frame *)

Lemma split_no_len f maxSize :
  stream_frame_ok f -> MinStreamFrameSize < maxSize < 2 ^ 14 ->
  (exists l, MaybeSplitOffFrame (with_len f false) maxSize = Ret (None, None, with_len f false) /\
     lengthStreamFrame (with_len f false) = Ret l /\ l <= maxSize) \/
  (exists d1 d2, MaybeSplitOffFrame (with_len f false) maxSize =
     Ret (Some (mkStreamFrame (sf_StreamID f) false false (sf_Offset f) d1), None,
          mkStreamFrame (sf_StreamID f) (sf_FinBit f) false (sf_Offset f + Z.of_nat (length d1)) d2) /\
     sf_Data f = d1 ++ d2 /\ d1 <> [] /\ d2 <> [] /\
     lengthStreamFrame (mkStreamFrame (sf_StreamID f) false false (sf_Offset f) d1) = Ret maxSize).
Proof.
  intros [_ Hid Ho He _] Hm. unfold MinStreamFrameSize, DataLen in *.
  destruct (stream_sizes (with_len f false) Hid ltac:(cbn; lia)) as (h & Hh & Hlen & Hmax).
  destruct (Hlen (sf_Data f) He) as (l & _ & El). cbn in El. rewrite Z.add_0_r in El.
  change (with_data (with_len f false) (sf_Data f)) with (with_len f false) in El.
  unfold MaybeSplitOffFrame. rewrite El. cbn [mbind outcome_bind]. destruct (Z.leb_spec (h + Z.of_nat (length (sf_Data f))) maxSize) as [Hle|Hgt].
  { left. by eexists. }
  right. rewrite Hmax. cbn zeta. cbn [sf_DataLenPresent with_len]. rewrite (proj2 (Z.ltb_ge _ _)) by lia. cbn [mbind outcome_bind mret outcome_ret].
  rewrite (proj2 (Z.eqb_neq _ _)) by lia. unfold DataLen. cbn [sf_Data with_len]. rewrite (proj2 (Z.ltb_ge _ _)) by lia.
  set (n := Z.to_nat (maxSize - h)). assert (Hn : length (take n (sf_Data f)) = n) by (rewrite length_take; unfold n; lia).
  exists (take n (sf_Data f)), (drop n (sf_Data f)). split_and!.
  - cbn. do 4 f_equal. rewrite Hn. unfold n. rewrite uint64_id; [|unfold MaxByteCount in *; go_range]. lia.
  - by rewrite take_drop.
  - intros E. rewrite E in Hn. cbn in Hn. unfold n in Hn. lia.
  - intros E. apply (f_equal length) in E. rewrite length_drop in E. cbn in E. unfold n in E. lia.
  - destruct (Hlen (take n (sf_Data f))) as (l' & _ & El'); [rewrite Hn; unfold n; cbn; lia|].
    cbn in El'. rewrite Hn in El'. etransitivity; [|etransitivity; [exact El'|]]; [done|]. f_equal. unfold n. lia.
Qed.

(** ** Filling a packet *)

Lemma as_written_snoc l f : as_written (l ++ [f]) = l ++ [no_len f].
Proof. unfold as_written. rewrite rev_app_distr. cbn. by rewrite rev_involutive. Qed.

Lemma with_len_true f : sf_DataLenPresent f = true -> with_len f true = f.
Proof. destruct f. cbn. by intros ->. Qed.

Lemma carried_as_written l : carried (as_written l) = carried l.
Proof.
  destruct (decide (l = [])) as [->|Hne]; [done|]. destruct (exists_last Hne) as (init & last & ->).
  by rewrite as_written_snoc, !carried_app.
Qed.

(** What is left to do: the STREAM frames and their bytes. *)
Definition weight (streams : list StreamFrame) : nat := sum_list_with (fun f => S (length (sf_Data f))) streams.

(** The STREAM frames [new] that a packet takes from [streams] after [base] bytes of control frames,
    of which [streams'] are left. *)
Record taken (base maxSize : ByteCount) (streams new streams' : list StreamFrame) (len : ByteCount) : Prop := {
  tk_new : Forall stream_frame_ok new;
  tk_left : Forall stream_frame_ok streams';
  tk_fits : exists n, frames_length (as_written new) = Ret n /\ base + n <= maxSize;
  tk_carried : carried new ++ carried streams' = carried streams;
  tk_length : base <= len <= maxSize + 8 /\ (new = [] -> len = base) /\ (new <> [] -> base + 2 <= len);
  tk_weight : (weight streams' + length new <= weight streams)%nat
}.

Lemma no_len_length f l l' :
  stream_frame_ok f -> lengthStreamFrame f = Ret l -> lengthStreamFrame (no_len f) = Ret l' -> l' <= l <= l' + 8.
Proof.
  intros [Hp Hid Ho He _] El El'. unfold is_id, MaxByteCount, DataLen in *.
  destruct (VarIntLen_cases (sf_StreamID f)) as (li & Hli & Ci); [varint|].
  destruct (VarIntLen_cases (sf_Offset f)) as (lo & Hlo & Co); [varint|].
  destruct (VarIntLen_cases (Z.of_nat (length (sf_Data f)))) as (ld & Hld & Cd); [varint|].
  unfold lengthStreamFrame, no_len, DataLen in *. cbn in *. rewrite Hp in El.
  rewrite uint64_id in El, El' by go_range. rewrite Hli in El, El'. cbn in El, El'.
  destruct (sf_Offset f =? 0); cbn in El, El'; rewrite ?Hlo, ?Hld in El; rewrite ?Hlo in El'; cbn in El, El'; injection El as <-; injection El' as <-; lia.
Qed.

Lemma length_total f : stream_frame_ok f -> exists l, lengthStreamFrame f = Ret l /\ 2 <= l.
Proof.
  intros Hf. rewrite lengthStreamFrame_bytes by apply Hf. eexists. split; [reflexivity|].
  assert (Hv : is_varint (sf_StreamID f)) by (pose proof (sfo_id _ Hf) as Hi; unfold is_id in Hi; varint).
  pose proof (varint_bytes_length _ Hv). unfold stream_header. rewrite !length_app. lia.
Qed.

(** A frame that fits, and the first part of one that does not. *)
Lemma taken_whole base maxSize all new f streams len l l' :
  taken base maxSize all new (f :: streams) len -> frames_length new = Ret (len - base) ->
  lengthStreamFrame f = Ret l -> lengthStreamFrame (no_len f) = Ret l' -> l' <= maxSize - len ->
  taken base maxSize all (new ++ [f]) streams (len + l).
Proof.
  intros [Hn Hs _ Hc (Hl1 & Hl2 & Hl3) Hw] Efl El El' Hle. apply Forall_cons in Hs as [Hf Hs].
  destruct (length_total f Hf) as (l2 & El2 & Hl). rewrite El in El2. injection El2 as <-.
  pose proof (no_len_length f l l' Hf El El') as Hd. split.
  - apply Forall_app. split; [done|by constructor].
  - done.
  - exists (len - base + l'). rewrite as_written_snoc. split; [by apply frames_length_snoc|lia].
  - rewrite <- Hc, carried_app, <- app_assoc. cbn. by rewrite app_nil_r.
  - split_and!; [lia|lia|by destruct new|lia].
  - unfold weight in *. rewrite length_app. cbn in *. lia.
Qed.

Lemma taken_part base maxSize all new f d1 d2 streams len :
  taken base maxSize all new (f :: streams) len -> frames_length new = Ret (len - base) -> len <= maxSize - 2 ->
  sf_Data f = d1 ++ d2 -> d1 <> [] -> d2 <> [] ->
  lengthStreamFrame (mkStreamFrame (sf_StreamID f) false false (sf_Offset f) d1) = Ret (maxSize - len) ->
  taken base maxSize all (new ++ [mkStreamFrame (sf_StreamID f) false true (sf_Offset f) d1])
    (mkStreamFrame (sf_StreamID f) (sf_FinBit f) true (sf_Offset f + Z.of_nat (length d1)) d2 :: streams) maxSize.
Proof.
  intros [Hn Hs _ Hc (Hl1 & Hl2 & Hl3) Hw] Efl Hlen Ed Hd1 Hd2 El. apply Forall_cons in Hs as [Hf Hs].
  assert (Hlen1 : (1 <= length d1)%nat) by (destruct d1; [done|cbn; lia]).
  destruct Hf as [_ Hid Ho He _]. unfold DataLen in He. rewrite Ed, length_app in He. split.
  - apply Forall_app. split; [done|]. constructor; [|constructor]. split; cbn; try done; [|by left]. unfold DataLen. cbn. lia.
  - constructor; [|done]. split; cbn; try done; [lia| |by left]. unfold DataLen. cbn. lia.
  - exists (maxSize - base). rewrite as_written_snoc. split; [|lia]. replace (maxSize - base) with (len - base + (maxSize - len)) by lia.
    by apply frames_length_snoc.
  - rewrite <- Hc, carried_app, <- app_assoc. cbn. rewrite app_nil_r, Ed, marks_split. by rewrite <- app_assoc.
  - split_and!; [lia|lia|by destruct new|lia].
  - unfold weight in *. rewrite length_app. cbn in *. rewrite Ed, length_app in Hw. lia.
Qed.

Lemma take_streams_ok prefix base maxSize all fuel : forall streams new len,
  Forall stream_frame_ok streams -> taken base maxSize all new streams len -> frames_length new = Ret (len - base) ->
  0 <= base -> 0 <= maxSize < 2 ^ 14 -> (Z.to_nat (maxSize - len) < fuel)%nat ->
  exists new0 new' streams' len',
    take_streams fuel streams (prefix ++ map FStream new) len maxSize = Ret (streams', prefix ++ map FStream new0, len') /\
    as_written new0 = as_written new' /\ taken base maxSize all new' streams' len' /\
    (new <> [] \/ streams <> [] /\ len + MinStreamFrameSize < maxSize -> new' <> []).
Proof.
  induction fuel as [|fuel IH]; intros streams new len Hs Ht Hn Hb Hm Hfu; [lia|].
  destruct (tk_length _ _ _ _ _ _ Ht) as ((Hl1 & Hl2) & Hl3 & Hl4). cbn [take_streams].
  destruct streams as [|f streams].
  { exists new, new, [], len. split_and!; try done. by intros [?|[? _]]. }
  rewrite uint64_id by (unfold MinStreamFrameSize, is_uint64; lia).
  destruct (Z.ltb_spec (len + MinStreamFrameSize) maxSize) as [Hlt|Hge]; cbn [negb].
  2: { exists new, new, (f :: streams), len. split_and!; try done. intros [?|[_ ?]]; [done|lia]. }
  apply Forall_cons in Hs as [Hf Hs]. unfold MinStreamFrameSize in *. rewrite uint64_id by (unfold is_uint64; lia).
  destruct (split_no_len f (maxSize - len) Hf) as [(l & E & El & Hle)|(d1 & d2 & E & Ed & Hd1 & Hd2 & El)]; [unfold MinStreamFrameSize; lia|..];
    rewrite E; cbn [mbind outcome_bind].
  - change (with_len (with_len f false) true) with (with_len f true). rewrite with_len_true by apply Hf.
    destruct (length_total f Hf) as (lf & Elf & Hlf). rewrite Elf. cbn [mbind outcome_bind].
    pose proof (taken_whole base maxSize all new f streams len lf l Ht Hn Elf El Hle) as Ht'.
    destruct (tk_length _ _ _ _ _ _ Ht') as ((H1 & H2) & _). rewrite uint64_id by (unfold is_uint64; lia).
    destruct (IH streams (new ++ [f]) (len + lf)) as (new0 & new' & streams' & len' & E' & Hw & Ht2 & Hne); try done.
    { rewrite (frames_length_snoc new f (len - base) lf) by done. f_equal. lia. }
    { lia. }
    rewrite map_app, app_assoc in E'. exists new0, new', streams', len'. split_and!; try done. intros _. apply Hne. left. by destruct new.
  - rewrite El. cbn [mbind outcome_bind]. replace (uint64 (len + (maxSize - len))) with maxSize by (rewrite uint64_id; unfold is_uint64; lia).
    destruct fuel as [|fuel]; [lia|]. cbn [take_streams]. unfold MinStreamFrameSize. rewrite uint64_id by (unfold is_uint64; lia).
    rewrite (proj2 (Z.ltb_ge _ _)) by lia. cbn [negb]. rewrite <- app_assoc.
    eexists (new ++ [_]), _, _, _. split; [by rewrite map_app|]. split_and!; [|apply (taken_part base maxSize all new f d1 d2 streams len); try done; lia|].
    + by rewrite !as_written_snoc.
    + intros _. by destruct new.
Qed.

(** ** One packet *)

Definition not_stream (fr : Frame) : Prop := match fr with FStream _ => False | _ => True end.

Lemma take_control_append control : forall frames length maxSize, take_control control frames length maxSize = append_control control frames length maxSize.
Proof.
  induction control as [|fr control IH]; [done|]. intros. cbn. by destruct (Length fr).
Qed.

Lemma last_without_len_streams prefix new0 new :
  as_written new0 = as_written new -> new <> [] ->
  last_without_len (prefix ++ map FStream new0) = Ret (prefix ++ map FStream (as_written new)).
Proof.
  intros E Hne. destruct (decide (new0 = [])) as [->|Hne0].
  { destruct (exists_last Hne) as (init & last & ->). rewrite as_written_snoc in E. by destruct init. }
  destruct (exists_last Hne0) as (init & last & ->). rewrite <- E, as_written_snoc. unfold last_without_len.
  rewrite map_app, app_assoc, rev_app_distr. cbn. by rewrite rev_involutive, <- app_assoc, map_app.
Qed.

Lemma last_without_len_control control : control <> [] -> Forall not_stream control -> last_without_len control = Ret control.
Proof.
  intros Hne Hall. destruct (exists_last Hne) as (init & last & ->). apply Forall_app in Hall as [_ [Hl _]%Forall_cons].
  unfold last_without_len. rewrite rev_app_distr. by destruct last.
Qed.

(** The frames of the packets of a retransmission, and those that are left. *)
Definition control_of (p : packedPacket) : list Frame := (split_frames (pp_frames p)).1.
Definition streams_of (p : packedPacket) : list StreamFrame := (split_frames (pp_frames p)).2.

Lemma split_frames_app control streams :
  Forall not_stream control -> split_frames (control ++ map FStream streams) = (control, map (fun f => with_len f true) streams).
Proof.
  induction 1 as [|fr control Hfr _ IH]; cbn.
  - induction streams as [|f streams IH]; [done|]. cbn. by rewrite IH.
  - by destruct fr; rewrite IH.
Qed.

Lemma carried_with_len l : carried (map (fun f => with_len f true) l) = carried l.
Proof. unfold carried. by rewrite map_map. Qed.

Lemma split_frames_control frames : Forall not_stream (split_frames frames).1.
Proof. induction frames as [|fr frames IH]; [done|]. destruct fr; cbn; destruct (split_frames frames); by constructor || done. Qed.

Section Retransmit.
Context {W P : Type} `{PopsFrames W wok} `{PacketNumbers P pok usable}.

(** The frames that can be retransmitted: what fits in a packet, whatever the length of its packet number. *)
Definition retransmittable (p : packetPacker) (fr : Frame) : Prop :=
  not_stream fr /\ control_ok fr /\ exists l, Length fr = Ret l /\ l <= pk_maxPacketSize p - 21 - connID_Len (pk_destConnID p).

(** A packet of a retransmission. *)
Definition resent (s : sealer) (p : packetPacker) (packet : packedPacket) : Prop :=
  Z.of_nat (length (pp_raw packet)) <= pk_maxPacketSize p /\
  exists pn n, arrives s (pk_destConnID p) pn n (pp_raw packet) (pp_frames packet).

(** The frames that one packet takes. *)
Lemma fill_packet p control streams maxSize :
  Forall (retransmittable p) control -> Forall stream_frame_ok streams -> (control <> [] \/ streams <> []) ->
  pk_maxPacketSize p - 21 - connID_Len (pk_destConnID p) <= maxSize -> 1000 <= maxSize < 2 ^ 14 - 200 ->
  exists sent control' clen new0 new streams' len,
    take_control control [] 0 maxSize = Ret (control', sent, clen) /\
    take_streams (S (Z.to_nat maxSize)) streams sent clen maxSize = Ret (streams', sent ++ map FStream new0, len) /\
    last_without_len (sent ++ map FStream new0) = Ret (sent ++ map FStream (as_written new)) /\
    control = sent ++ control' /\ control_length sent = Ret clen /\ taken clen maxSize streams new streams' len /\
    (length control' + weight streams' < length control + weight streams)%nat.
Proof.
  intros Hc Hs Hne Hp Hm.
  destruct (append_control_ok maxSize control [] 0) as (k & clen & Et & Ecl & Hcl & Hnext); [|lia|lia|].
  { eapply Forall_impl; [apply Hc|]. by intros fr (_ & (? & _) & _). }
  assert (Hk : control <> [] -> (1 <= k)%nat).
  { intros Hn. destruct control as [|fr control]; [done|]. destruct k as [|k]; [|lia]. apply Forall_cons in Hc as [(_ & _ & l & El & Hl) _].
    specialize (Hnext fr control l eq_refl El). cbn in Ecl. injection Ecl as <-. lia. }
  set (sent := take k control) in *. assert (Hsent : Forall control_ok sent).
  { apply Forall_take. eapply Forall_impl; [apply Hc|]. by intros fr (_ & ? & _). }
  pose proof (control_length_nonneg sent clen Hsent Ecl) as Hc0.
  assert (Ht : taken clen maxSize streams [] streams clen).
  { split; try done; [exists 0; split; [done|lia]|split_and!; try done; lia|cbn; lia]. }
  destruct (take_streams_ok sent clen maxSize streams (S (Z.to_nat maxSize)) streams [] clen Hs Ht) as (new0 & new & streams' & len & Es & Hw & Ht' & Hprog);
    [cbn; by rewrite Z.sub_diag|done|lia|lia|]. cbn [map] in Es. rewrite app_nil_r in Es.
  pose proof (tk_weight _ _ _ _ _ _ Ht') as Hwt. pose proof (length_drop control k) as Hld.
  assert (Hsome : control = [] -> new <> []).
  { intros ->. apply Hprog. right. destruct Hne as [?|Hne]; [done|]. split; [done|]. unfold sent in Ecl. rewrite take_nil in Ecl. injection Ecl as <-. unfold MinStreamFrameSize. lia. }
  exists sent, (drop k control), clen, new0, new, streams', len. rewrite take_control_append. split_and!; try done; [|unfold sent; by rewrite take_drop|].
  - destruct (decide (new = [])) as [->|Hn]; [|by apply last_without_len_streams].
    assert (new0 = []) as ->. { destruct (decide (new0 = [])) as [|Hn0]; [done|]. destruct (exists_last Hn0) as (? & ? & ->). rewrite as_written_snoc in Hw. by destruct x. }
    cbn. rewrite app_nil_r. apply last_without_len_control.
    + intros E. apply Hsome; [|done]. destruct control as [|fr control]; [done|]. specialize (Hk ltac:(done)). unfold sent in E. by destruct k; [lia|].
    + apply Forall_take. eapply Forall_impl; [apply Hc|]. by intros fr (? & _).
  - rewrite Hld. destruct control as [|fr control]; [|specialize (Hk ltac:(done)); cbn [length]; lia].
    specialize (Hsome eq_refl). destruct new; [done|cbn in *; lia].
Qed.
Lemma framing_resent sent clen maxSize streams new streams' len :
  Forall control_ok sent -> control_length sent = Ret clen -> taken clen maxSize streams new streams' len ->
  exists fb, framing (sent ++ map FStream (as_written new)) fb /\ Z.of_nat (length fb) <= maxSize /\
    (len = 0 + Z.of_nat (length fb) \/ 2 <= 0 + Z.of_nat (length fb) /\ 2 <= len).
Proof.
  intros Hc Ecl [Hn _ (n & En & Hfit) _ (Hl1 & Hl2 & Hl3) _]. destruct (framing_streams new Hn) as (bs & Hf & El & Hne).
  rewrite El in En. injection En as <-. destruct (framing_control _ bs sent Hf) as (cb & Hfr & Ecb).
  { eapply Forall_impl; [apply Hc|]. by intros fr [_ ?]. }
  rewrite Ecl in Ecb. injection Ecb as ->. exists (cb ++ bs). rewrite length_app, Nat2Z.inj_add. split_and!; [done|lia|].
  destruct (decide (new = [])) as [->|Hn0]; [|right; specialize (Hne Hn0); specialize (Hl3 Hn0); lia].
  left. injection El as Hb. rewrite (Hl2 eq_refl). lia.
Qed.

(** One round of the loop. *)
Lemma retransmit_one now s k fuel control streams e :
  AEADLaws (sl_aead s) -> BlockLaws (sl_hpEncrypter s) -> sl_is1RTT s = true -> env_ok (wok:=wok) now e ->
  pok (S k) (ev_pns e) -> usable (ev_pns e) Encryption1RTT ->
  Forall (retransmittable (ev_packer e)) control -> Forall stream_frame_ok streams -> (control <> [] \/ streams <> []) ->
  exists pns' p control' streams',
    retransmit (S fuel) control streams Encryption1RTT s e =
      (ps ← retransmit fuel control' streams' Encryption1RTT s; mret (p :: ps)) (e <| ev_pns := pns' |>) /\
    pok k pns' /\ usable pns' Encryption1RTT /\ resent s (ev_packer e) p /\
    control_of p ++ control' = control /\ carried (streams_of p) ++ carried streams' = carried streams /\
    Forall stream_frame_ok streams' /\ (length control' + weight streams' < length control + weight streams)%nat.
Proof.
  intros La Lb Hrtt Hok Hpok Hu Hc Hs Hne. destruct (pn_ok k _ _ Hpok Hu) as (pn & n & p' & Epeek & Hn & Hpn & Epop & Hpok' & Hu').
  set (maxSize := pk_maxPacketSize (ev_packer e) - 16 - (1 + connID_Len (pk_destConnID (ev_packer e)) + n)).
  assert (Hmax : pk_maxPacketSize (ev_packer e) - 21 - connID_Len (pk_destConnID (ev_packer e)) <= maxSize /\ 1000 <= maxSize < 2 ^ 14 - 200).
  { destruct Hok. unfold maxSize, MinInitialPacketSize, valid_connID in *. lia. }
  destruct (fill_packet (ev_packer e) control streams maxSize Hc Hs Hne ltac:(lia) ltac:(lia))
    as (sent & control' & clen & new0 & new & streams' & len & E1 & E2 & E3 & Ec & Ecl & Ht & Hw).
  rewrite Ec in Hc. apply Forall_app in Hc as [Hsent _].
  destruct (framing_resent sent clen maxSize streams new streams' len) as (fb & Hf & Hfb & Hcase); try done.
  { eapply Forall_impl; [apply Hsent|]. by intros fr (_ & ? & _). }
  destruct (tk_length _ _ _ _ _ _ Ht) as ((Hl1 & Hl2) & _).
  assert (Hclen : 0 <= clen) by (eapply control_length_nonneg; [eapply Forall_impl; [apply Hsent|]; by intros fr (_ & ? & _)|done]).
  destruct (seal_1rtt e (mkPayload (sent ++ map FStream (as_written new)) None len) fb 0 s pn n p') as (raw & Er & Hsz & Har); try done.
  { apply Hok. }
  { cbn [pl_length]. lia. }
  { destruct Hok. unfold maxSize, MinInitialPacketSize, valid_connID in *. lia. }
  cbn [pl_ack pl_frames ack_frames app] in Er, Har.
  exists p', (mkPackedPacket (short_header (ev_packer e) pn n) raw None (sent ++ map FStream (as_written new))), control', streams'.
  assert (Hns : Forall not_stream sent) by (eapply Forall_impl; [apply Hsent|]; by intros fr (? & _)).
  unfold control_of, streams_of, resent. cbn [pp_frames pp_raw]. rewrite split_frames_app by done. cbn [fst snd].
  rewrite carried_with_len, carried_as_written. split_and!; try done; try apply Ht; [|by eauto].
  cbn [retransmit]. assert ((0 <? length control)%nat || (0 <? length streams)%nat = true) as -> by (destruct control, streams; naive_solver).
  erewrite packing_step by exact (getHeader_1rtt e pn n Epeek). erewrite packing_step by reflexivity. pack_get.
  unfold Overhead. rewrite (aead_overhead (a:=sl_aead s)).
  change (hd_DestConnectionID (eh_Header (short_header (ev_packer e) pn n))) with (pk_destConnID (ev_packer e)).
  change (eh_PacketNumberLen (short_header (ev_packer e) pn n)) with n. fold maxSize.
  rewrite uint64_id by (unfold is_uint64; lia). pack_step E1. pack_step E2. pack_step E3. by erewrite packing_step by exact Er.
Qed.

Lemma retransmit_ok now s fuel : forall control streams e,
  AEADLaws (sl_aead s) -> BlockLaws (sl_hpEncrypter s) -> sl_is1RTT s = true -> env_ok (wok:=wok) now e ->
  pok fuel (ev_pns e) -> usable (ev_pns e) Encryption1RTT ->
  Forall (retransmittable (ev_packer e)) control -> Forall stream_frame_ok streams ->
  (length control + weight streams < fuel)%nat ->
  exists pns' ps, retransmit fuel control streams Encryption1RTT s e = Ret (e <| ev_pns := pns' |>, inl ps) /\
    Forall (resent s (ev_packer e)) ps /\ concat (map control_of ps) = control /\
    carried (concat (map streams_of ps)) = carried streams.
Proof.
  induction fuel as [|fuel IH]; intros control streams e La Lb Hrtt Hok Hpok Hu Hc Hs Hf; [lia|].
  destruct (decide (control = [] /\ streams = [])) as [[-> ->]|Hne].
  { exists (ev_pns e), []. split_and!; try done. by destruct e. }
  destruct (retransmit_one now s fuel fuel control streams e La Lb Hrtt Hok Hpok Hu Hc Hs ltac:(destruct control, streams; naive_solver))
    as (pns' & p & control' & streams' & E & Hpok' & Hu' & Hr & Ec & Es & Hs' & Hw).
  destruct (IH control' streams' (e <| ev_pns := pns' |>)) as (pns2 & ps & E2 & Hall & Ec2 & Es2); try done.
  { by destruct Hok. }
  { rewrite <- Ec in Hc. by apply Forall_app in Hc as [_ ?]. }
  { lia. }
  exists pns2, (p :: ps). split_and!.
  - rewrite E. by erewrite packing_step by exact E2.
  - by constructor.
  - cbn. by rewrite Ec2.
  - cbn [map concat]. by rewrite carried_app, Es2.
Qed.

(** C16. A retransmission loses nothing: the frames of a lost 1-RTT packet are packed into new packets, without an
    error and in finitely many steps. Every new packet has the allowed
    size and arrives at a peer with the keys; together the packets have the same
    control frames in the same order, and their STREAM frames carry exactly the same bytes at the same offsets, and
    the same FINs. *)
Theorem retransmission_complete cs now e s packet :
  sp_EncryptionLevel packet = Encryption1RTT -> GetSealerWithEncryptionLevel cs Encryption1RTT = Ret s ->
  AEADLaws (sl_aead s) -> BlockLaws (sl_hpEncrypter s) -> sl_is1RTT s = true -> env_ok (wok:=wok) now e ->
  usable (ev_pns e) Encryption1RTT ->
  let '(control, streams) := split_frames (sp_Frames packet) in
  pok (retransmit_fuel control streams) (ev_pns e) ->
  Forall (retransmittable (ev_packer e)) control -> Forall stream_frame_ok streams ->
  exists pns' ps, PackRetransmission cs packet e = Ret (e <| ev_pns := pns' |>, inl ps) /\
    Forall (resent s (ev_packer e)) ps /\ concat (map control_of ps) = control /\
    carried (concat (map streams_of ps)) = carried streams.
Proof.
  intros El Es La Lb Hrtt Hok Hu. unfold PackRetransmission. destruct (split_frames (sp_Frames packet)) as [control streams].
  intros Hp Hc Hs. rewrite El. erewrite packing_step by (unfold call; rewrite Es; reflexivity).
  apply (retransmit_ok now); try done. unfold retransmit_fuel, weight. lia.
Qed.
End Retransmit.

(** A lost packet with a PING and 3000 bytes of a stream. *)
#[local] Existing Instance demo_getter.
#[local] Existing Instance demo_pops.
#[local] Existing Instance demo_numbers.
#[local] Existing Instance demo_numbers_ok.

Definition lost_packet : SentPacket :=
  mkSentPacket 5 0 None [FPing; FStream (mkStreamFrame 4 true false 70 (repeat 7 3000))] 1200 Encryption1RTT 0 0 false false [] false 0.

Definition demo_resealing : sealingManager := mkSealingManager (Encryption1RTT, demo_sealer) (fun _ => Ret demo_sealer).

Lemma retransmission_complete_witness :
  exists pns' ps, PackRetransmission demo_resealing lost_packet demo_env = Ret (demo_env <| ev_pns := pns' |>, inl ps) /\
    Forall (resent demo_sealer (ev_packer demo_env)) ps /\ concat (map control_of ps) = [FPing] /\
    carried (concat (map streams_of ps)) = carried [mkStreamFrame 4 true true 70 (repeat 7 3000)].
Proof.
  apply (retransmission_complete (wok:=fun _ : bool => True) (pok:=fun k p => 0 <= p /\ p + Z.of_nat k <= 2 ^ 62) (usable:=fun _ _ => True)
    demo_resealing 100 demo_env demo_sealer lost_packet); try done; try apply _.
  - by apply demo_env_ok.
  - repeat constructor; cbn; try done; [exists 1; split; [done|lia]|exists 1; by split].
  - repeat constructor; cbn; try done; by left.
Defined.
