(* ===== verification/TransportParameters.v ===== *)
(** * Transport parameters (handshake/transport_parameters.go)

    The parameters that the endpoints exchange in the handshake: their encoding, and the parser, which
    checks the values and who sent them.  [Unmarshal] stops at the first error; what
    it has stored by then is not used by its callers, so that it is a value or an error. *)

From stdpp Require Import sorting.
From S2P Require Import Prelude VarInt Protocol Frames Headers.

(** ** The program *)

Definition transportParameterID := Z.
Definition originalConnectionIDParameterID : transportParameterID := 0x0.
Definition idleTimeoutParameterID : transportParameterID := 0x1.
Definition statelessResetTokenParameterID : transportParameterID := 0x2.
Definition maxPacketSizeParameterID : transportParameterID := 0x3.
Definition initialMaxDataParameterID : transportParameterID := 0x4.
Definition initialMaxStreamDataBidiLocalParameterID : transportParameterID := 0x5.
Definition initialMaxStreamDataBidiRemoteParameterID : transportParameterID := 0x6.
Definition initialMaxStreamDataUniParameterID : transportParameterID := 0x7.
Definition initialMaxStreamsBidiParameterID : transportParameterID := 0x8.
Definition initialMaxStreamsUniParameterID : transportParameterID := 0x9.
Definition ackDelayExponentParameterID : transportParameterID := 0xa.
Definition maxAckDelayParameterID : transportParameterID := 0xb.
Definition disableMigrationParameterID : transportParameterID := 0xc.

Definition MinRemoteIdleTimeout : duration := 5 * Second.
Definition MaxAckDelayExponent : Z := 20.
Definition DefaultMaxAckDelay : duration := 25 * Millisecond.
Definition MaxMaxAckDelay : duration := Z.shiftl 1 14 * Millisecond.
Definition MaxReceivePacketSize : ByteCount := 1452.

Record TransportParameters := mkParams {
  tp_InitialMaxStreamDataBidiLocal : ByteCount;
  tp_InitialMaxStreamDataBidiRemote : ByteCount;
  tp_InitialMaxStreamDataUni : ByteCount;
  tp_InitialMaxData : ByteCount;
  tp_MaxAckDelay : duration;
  tp_AckDelayExponent : Z;
  tp_MaxPacketSize : ByteCount;
  tp_MaxUniStreamNum : StreamNum;
  tp_MaxBidiStreamNum : StreamNum;
  tp_IdleTimeout : duration;
  tp_DisableMigration : bool;
  tp_StatelessResetToken : option bytes;
  tp_OriginalConnectionID : ConnectionID
}.

#[global] Instance params_eta : Eta TransportParameters := fun p =>
  mkParams (tp_InitialMaxStreamDataBidiLocal p) (tp_InitialMaxStreamDataBidiRemote p) (tp_InitialMaxStreamDataUni p)
    (tp_InitialMaxData p) (tp_MaxAckDelay p) (tp_AckDelayExponent p) (tp_MaxPacketSize p) (tp_MaxUniStreamNum p)
    (tp_MaxBidiStreamNum p) (tp_IdleTimeout p) (tp_DisableMigration p) (tp_StatelessResetToken p) (tp_OriginalConnectionID p).

Definition zero_params : TransportParameters := mkParams 0 0 0 0 0 0 0 0 0 0 false None [].

(** The switch of [readNumericTransportParameter] on a value. *)
Definition set_numeric (p : TransportParameters) (paramID : transportParameterID) (val : Z) : outcome TransportParameters :=
  if paramID =? initialMaxStreamDataBidiLocalParameterID then mret (p <| tp_InitialMaxStreamDataBidiLocal := val |>)
  else if paramID =? initialMaxStreamDataBidiRemoteParameterID then mret (p <| tp_InitialMaxStreamDataBidiRemote := val |>)
  else if paramID =? initialMaxStreamDataUniParameterID then mret (p <| tp_InitialMaxStreamDataUni := val |>)
  else if paramID =? initialMaxDataParameterID then mret (p <| tp_InitialMaxData := val |>)
  else if paramID =? initialMaxStreamsBidiParameterID then mret (p <| tp_MaxBidiStreamNum := int64 val |>)
  else if paramID =? initialMaxStreamsUniParameterID then mret (p <| tp_MaxUniStreamNum := int64 val |>)
  else if paramID =? idleTimeoutParameterID then
    mret (p <| tp_IdleTimeout := MaxDuration MinRemoteIdleTimeout (int64 (int64 val * Millisecond)) |>)
  else if paramID =? maxPacketSizeParameterID then
    if val <? 1200 then Error (Errorf "invalid value for max_packet_size: %d (minimum 1200)" [val])
    else mret (p <| tp_MaxPacketSize := val |>)
  else if paramID =? ackDelayExponentParameterID then
    if MaxAckDelayExponent <? val then
      Error (Errorf "invalid value for ack_delay_exponent: %d (maximum %d)" [val; MaxAckDelayExponent])
    else mret (p <| tp_AckDelayExponent := uint8 val |>)
  else if paramID =? maxAckDelayParameterID then
    let maxAckDelay := int64 (int64 val * Millisecond) in
    if MaxMaxAckDelay <=? maxAckDelay then
      Error (Errorf "invalid value for max_ack_delay: %dms (maximum %dms)"
               [Z.quot maxAckDelay Millisecond; Z.quot (MaxMaxAckDelay - Millisecond) Millisecond])
    else mret (p <| tp_MaxAckDelay := maxAckDelay |>)
  else Error (Errorf "TransportParameter BUG: transport parameter %d not found" [paramID]).

Definition readNumericTransportParameter (p : TransportParameters) (paramID : transportParameterID) (expectedLen : Z) :
    reader TransportParameters := fun r =>
  match ReadVarInt r with
  | Panic s => Panic s
  | Error _ => Error (Errorf "error while reading transport parameter %d: %s" [paramID])
  | Ret (val, r') =>
      if negb (Z.of_nat (length r) - Z.of_nat (length r') =? expectedLen) then
        Error (Errorf "inconsistent transport parameter length for %d" [paramID])
      else p ← set_numeric p paramID val; mret (p, r')
  end.

(** The local variables of [Unmarshal]. *)
Record unmarshal := mkUnmarshal {
  um_params : TransportParameters;
  um_parameterIDs : list transportParameterID;
  um_readAckDelayExponent : bool;
  um_readMaxAckDelay : bool
}.

#[global] Instance unmarshal_eta : Eta unmarshal := fun u =>
  mkUnmarshal (um_params u) (um_parameterIDs u) (um_readAckDelayExponent u) (um_readMaxAckDelay u).

Definition is_numeric (paramID : transportParameterID) : bool :=
  existsb (Z.eqb paramID)
    [initialMaxStreamDataBidiLocalParameterID; initialMaxStreamDataBidiRemoteParameterID; initialMaxStreamDataUniParameterID;
     initialMaxDataParameterID; initialMaxStreamsBidiParameterID; initialMaxStreamsUniParameterID; idleTimeoutParameterID;
     maxPacketSizeParameterID].

(** The inner switch, for the parameters that are not numbers. *)
Definition read_other (p : TransportParameters) (sentBy : Perspective) (paramID : transportParameterID) (paramLen : Z) :
    reader TransportParameters :=
  remaining ← Len;
  if remaining <? paramLen then
    fail (Errorf "remaining length (%d) smaller than parameter length (%d)" [remaining; paramLen])
  else if paramID =? disableMigrationParameterID then
    if negb (paramLen =? 0) then fail (Errorf "wrong length for disable_migration: %d (expected empty)" [paramLen])
    else mret (p <| tp_DisableMigration := true |>)
  else if paramID =? statelessResetTokenParameterID then
    if bool_decide (sentBy = PerspectiveClient) then fail (ErrorString "client sent a stateless_reset_token")
    else if negb (paramLen =? 16) then fail (Errorf "wrong length for stateless_reset_token: %d (expected 16)" [paramLen])
    else token ← ReadFull 16; mret (p <| tp_StatelessResetToken := Some token |>)
  else if paramID =? originalConnectionIDParameterID then
    if bool_decide (sentBy = PerspectiveClient) then fail (ErrorString "client sent an original_connection_id")
    else id ← ReadConnectionID paramLen; mret (p <| tp_OriginalConnectionID := id |>)
  else _ ← ReadFull (Z.to_nat paramLen); mret p.

(** One round of the loop. *)
Definition read_parameter (sentBy : Perspective) (u : unmarshal) : reader unmarshal :=
  paramID ← ReadUint16;
  paramLen ← ReadUint16;
  let u := u <| um_parameterIDs := um_parameterIDs u ++ [paramID] |> in
  if paramID =? ackDelayExponentParameterID then
    p ← readNumericTransportParameter (um_params u) paramID paramLen;
    mret (u <| um_readAckDelayExponent := true |> <| um_params := p |>)
  else if paramID =? maxAckDelayParameterID then
    p ← readNumericTransportParameter (um_params u) paramID paramLen;
    mret (u <| um_readMaxAckDelay := true |> <| um_params := p |>)
  else if is_numeric paramID then
    p ← readNumericTransportParameter (um_params u) paramID paramLen; mret (u <| um_params := p |>)
  else p ← read_other (um_params u) sentBy paramID paramLen; mret (u <| um_params := p |>).

(** Every round reads four bytes at least, so that the length of the data is enough fuel. *)
Fixpoint read_parameters (fuel : nat) (sentBy : Perspective) (u : unmarshal) : reader unmarshal :=
  match fuel with
  | O => fun _ => Panic "out of fuel"
  | S fuel =>
      remaining ← Len;
      if 4 <=? remaining then u ← read_parameter sentBy u; read_parameters fuel sentBy u
      else mret u
  end.

(** The first element of a sorted list that is repeated. *)
Fixpoint duplicate (ids : list transportParameterID) : option transportParameterID :=
  match ids with
  | a :: (b :: _) as ids => if a =? b then Some a else duplicate ids
  | _ => None
  end.

Definition Unmarshal (data : bytes) (sentBy : Perspective) : outcome TransportParameters :=
  if Z.of_nat (length data) <? 2 then Error (ErrorString "transport parameter data too short") else
  '(length', data) ← ReadUint16 data;
  if Z.of_nat (length data) <? length' then
    Error (Errorf "expected transport parameters to be %d bytes long, have %d" [length'; Z.of_nat (length data)])
  else
  '(u, r) ← read_parameters (S (length data)) sentBy (mkUnmarshal zero_params [] false false) data;
  let p := um_params u in
  let p := if um_readAckDelayExponent u then p else p <| tp_AckDelayExponent := DefaultAckDelayExponent |> in
  let p := if um_readMaxAckDelay u then p else p <| tp_MaxAckDelay := DefaultMaxAckDelay |> in
  (* check that every transport parameter was sent at most once *)
  match duplicate (merge_sort Z.le (um_parameterIDs u)) with
  | Some id => Error (Errorf "received duplicate transport parameter %#x" [id])
  | None =>
      if negb (Z.of_nat (length r) =? 0) then
        Error (Errorf "should have read all data. Still have %d bytes" [Z.of_nat (length r)])
      else mret p
  end.

Definition marshalVarintParam (b : bytes) (id : transportParameterID) (val : Z) : outcome bytes :=
  l ← VarIntLen val;
  WriteVarInt (WriteUint16 (WriteUint16 b id) (uint16 l)) val.

Definition Marshal (p : TransportParameters) : outcome bytes :=
  b ← marshalVarintParam [0; 0] initialMaxStreamDataBidiLocalParameterID (tp_InitialMaxStreamDataBidiLocal p);
  b ← marshalVarintParam b initialMaxStreamDataBidiRemoteParameterID (tp_InitialMaxStreamDataBidiRemote p);
  b ← marshalVarintParam b initialMaxStreamDataUniParameterID (tp_InitialMaxStreamDataUni p);
  b ← marshalVarintParam b initialMaxDataParameterID (tp_InitialMaxData p);
  b ← marshalVarintParam b initialMaxStreamsBidiParameterID (uint64 (tp_MaxBidiStreamNum p));
  b ← marshalVarintParam b initialMaxStreamsUniParameterID (uint64 (tp_MaxUniStreamNum p));
  b ← marshalVarintParam b idleTimeoutParameterID (uint64 (Z.quot (tp_IdleTimeout p) Millisecond));
  b ← marshalVarintParam b maxPacketSizeParameterID MaxReceivePacketSize;
  b ← (if negb (tp_MaxAckDelay p =? DefaultMaxAckDelay)
       then marshalVarintParam b maxAckDelayParameterID (uint64 (Z.quot (tp_MaxAckDelay p) Millisecond)) else mret b);
  b ← (if negb (tp_AckDelayExponent p =? DefaultAckDelayExponent)
       then marshalVarintParam b ackDelayExponentParameterID (tp_AckDelayExponent p) else mret b);
  let b := if tp_DisableMigration p then WriteUint16 (WriteUint16 b disableMigrationParameterID) 0 else b in
  let b := match tp_StatelessResetToken p with
           | Some token => WriteUint16 (WriteUint16 b statelessResetTokenParameterID) 16 ++ token
           | None => b
           end in
  let b := if 0 <? connID_Len (tp_OriginalConnectionID p)
           then WriteUint16 (WriteUint16 b originalConnectionIDParameterID) (uint16 (connID_Len (tp_OriginalConnectionID p))) ++
                tp_OriginalConnectionID p
           else b in
  mret (WriteUint16 [] (uint16 (Z.of_nat (length b) - 2)) ++ drop 2 b).

(** ** Reading what was written *)

(** A parameter on the wire. *)
Definition param (id : transportParameterID) (value : bytes) : bytes :=
  WriteUint16 [] id ++ WriteUint16 [] (Z.of_nat (length value)) ++ value.

Lemma read_uint16 i r : is_uint16 i -> ReadUint16 (WriteUint16 [] i ++ r) = Ret (i, r).
Proof. intros Hi. destruct (ReadUint16_roundtrip [] i r Hi) as (d & E & _ & Er). cbn [app] in E. by rewrite E. Qed.

Lemma write_uint16 b i : WriteUint16 b i = b ++ WriteUint16 [] i.
Proof. done. Qed.

Lemma marshalVarintParam_bytes b id val :
  is_varint val -> marshalVarintParam b id val = Ret (b ++ param id (varint_bytes val)).
Proof.
  intros Hv. unfold marshalVarintParam. rewrite VarIntLen_length by done. cbn [mbind outcome_bind].
  rewrite WriteVarInt_app by done. pose proof (varint_bytes_length val Hv). rewrite uint16_id by (unfold is_uint16; lia).
  unfold param. rewrite (write_uint16 (WriteUint16 b id)), (write_uint16 b). by rewrite <- !app_assoc.
Qed.

(** The parameters that a reader has seen at the end of [data]. *)
Inductive reads (sentBy : Perspective) : unmarshal -> bytes -> unmarshal -> Prop :=
| reads_nil u : reads sentBy u [] u
| reads_cons u id value rest u1 u2 :
    read_parameter sentBy u (param id value ++ rest) = Ret (u1, rest) ->
    reads sentBy u1 rest u2 -> reads sentBy u (param id value ++ rest) u2.

Lemma read_parameters_reads sentBy u data u' :
  reads sentBy u data u' -> forall fuel, (length data < fuel)%nat -> read_parameters fuel sentBy u data = Ret (u', []).
Proof.
  induction 1 as [u|u id value rest u1 u2 E Hr IH]; intros [|fuel] Hf; try lia; cbn [read_parameters]; [done|].
  assert (Hl : (4 <= length (param id value))%nat) by (unfold param; rewrite !length_app; cbn; lia). rewrite length_app in Hf.
  unfold mbind, reader_bind, Len. rewrite length_app, (proj2 (Z.leb_le _ _)) by lia. rewrite E. apply IH. lia.
Qed.

Lemma read_numeric sentBy p0 ids b1 b2 id val rest p :
  is_varint val -> is_uint16 id -> set_numeric p0 id val = Ret p ->
  (id = ackDelayExponentParameterID \/ id = maxAckDelayParameterID \/ is_numeric id = true) ->
  read_parameter sentBy (mkUnmarshal p0 ids b1 b2) (param id (varint_bytes val) ++ rest) =
    Ret (mkUnmarshal p (ids ++ [id]) (b1 || (id =? ackDelayExponentParameterID)) (b2 || (id =? maxAckDelayParameterID)), rest).
Proof.
  intros Hv Hid Es Hnum. pose proof (varint_bytes_length val Hv) as Hl.
  unfold read_parameter, param. rewrite <- !app_assoc. unfold mbind at 1, reader_bind at 1. rewrite read_uint16 by done.
  unfold mbind at 1, reader_bind at 1. rewrite read_uint16 by (unfold is_uint16; lia).
  assert (En : readNumericTransportParameter p0 id (Z.of_nat (length (varint_bytes val))) (varint_bytes val ++ rest) = Ret (p, rest)).
  { unfold readNumericTransportParameter. rewrite ReadVarInt_varint_bytes by done. rewrite length_app.
    rewrite (proj2 (Z.eqb_eq _ _)) by lia. cbn [negb]. by rewrite Es. }
  destruct (Z.eqb_spec id ackDelayExponentParameterID) as [->|N1].
  { unfold mbind, reader_bind. cbn -[readNumericTransportParameter varint_bytes]. rewrite En. cbn. by rewrite orb_true_r, orb_false_r. }
  destruct (Z.eqb_spec id maxAckDelayParameterID) as [->|N2].
  { unfold mbind, reader_bind. cbn -[readNumericTransportParameter varint_bytes]. rewrite En. cbn. by rewrite orb_true_r, orb_false_r. }
  destruct Hnum as [?|[?|Hn]]; [done|done|]. rewrite Hn. unfold mbind, reader_bind. cbn -[readNumericTransportParameter varint_bytes]. rewrite En.
  cbn. by rewrite !orb_false_r.
Qed.

Lemma read_special sentBy p0 ids b1 b2 id value rest p :
  is_uint16 id -> id = disableMigrationParameterID \/ id = statelessResetTokenParameterID \/ id = originalConnectionIDParameterID ->
  Z.of_nat (length value) < 2 ^ 16 ->
  read_other p0 sentBy id (Z.of_nat (length value)) (value ++ rest) = Ret (p, rest) ->
  read_parameter sentBy (mkUnmarshal p0 ids b1 b2) (param id value ++ rest) = Ret (mkUnmarshal p (ids ++ [id]) b1 b2, rest).
Proof.
  intros Hid Hids Hl Er. unfold read_parameter, param. rewrite <- !app_assoc. unfold mbind at 1, reader_bind at 1. rewrite read_uint16 by done.
  unfold mbind at 1, reader_bind at 1. rewrite read_uint16 by (unfold is_uint16; lia).
  destruct Hids as [->|[->| ->]]; unfold mbind, reader_bind; cbn -[read_other]; by rewrite Er.
Qed.

(** A parameter that is only sent if [c]. *)
Lemma reads_if sentBy (c : bool) u id value rest u1 u2 :
  (c = true -> read_parameter sentBy u (param id value ++ rest) = Ret (u1, rest)) ->
  reads sentBy (if c then u1 else u) rest u2 -> reads sentBy u ((if c then param id value else []) ++ rest) u2.
Proof. intros E Hr. destruct c; [|done]. by eapply reads_cons; [apply E|]. Qed.

(** The parameters that can be sent, and what is received of them. *)
Record params_wf (sentBy : Perspective) (p : TransportParameters) : Prop := {
  pw_bidiLocal : is_varint (tp_InitialMaxStreamDataBidiLocal p);
  pw_bidiRemote : is_varint (tp_InitialMaxStreamDataBidiRemote p);
  pw_uni : is_varint (tp_InitialMaxStreamDataUni p);
  pw_data : is_varint (tp_InitialMaxData p);
  pw_bidiNum : is_varint (tp_MaxBidiStreamNum p);
  pw_uniNum : is_varint (tp_MaxUniStreamNum p);
  pw_idle : 0 <= tp_IdleTimeout p < 2 ^ 63;
  pw_delay : 0 <= tp_MaxAckDelay p < MaxMaxAckDelay;
  pw_exponent : 0 <= tp_AckDelayExponent p <= MaxAckDelayExponent;
  pw_token : forall token, tp_StatelessResetToken p = Some token -> length token = 16%nat;
  pw_connID : connID_Len (tp_OriginalConnectionID p) <= maxConnectionIDLen;
  pw_client : sentBy = PerspectiveClient -> tp_StatelessResetToken p = None /\ tp_OriginalConnectionID p = []
}.

Definition received_params (p : TransportParameters) : TransportParameters :=
  p <| tp_IdleTimeout := MaxDuration MinRemoteIdleTimeout (tp_IdleTimeout p / Millisecond * Millisecond) |>
    <| tp_MaxAckDelay := tp_MaxAckDelay p / Millisecond * Millisecond |>
    <| tp_MaxPacketSize := MaxReceivePacketSize |>.

(** The bytes after the length. *)
Definition marshaled (p : TransportParameters) : bytes :=
  param initialMaxStreamDataBidiLocalParameterID (varint_bytes (tp_InitialMaxStreamDataBidiLocal p)) ++
  param initialMaxStreamDataBidiRemoteParameterID (varint_bytes (tp_InitialMaxStreamDataBidiRemote p)) ++
  param initialMaxStreamDataUniParameterID (varint_bytes (tp_InitialMaxStreamDataUni p)) ++
  param initialMaxDataParameterID (varint_bytes (tp_InitialMaxData p)) ++
  param initialMaxStreamsBidiParameterID (varint_bytes (tp_MaxBidiStreamNum p)) ++
  param initialMaxStreamsUniParameterID (varint_bytes (tp_MaxUniStreamNum p)) ++
  param idleTimeoutParameterID (varint_bytes (tp_IdleTimeout p / Millisecond)) ++
  param maxPacketSizeParameterID (varint_bytes MaxReceivePacketSize) ++
  (if negb (tp_MaxAckDelay p =? DefaultMaxAckDelay) then param maxAckDelayParameterID (varint_bytes (tp_MaxAckDelay p / Millisecond)) else []) ++
  (if negb (tp_AckDelayExponent p =? DefaultAckDelayExponent) then param ackDelayExponentParameterID (varint_bytes (tp_AckDelayExponent p)) else []) ++
  (if tp_DisableMigration p then param disableMigrationParameterID [] else []) ++
  (if bool_decide (tp_StatelessResetToken p <> None) then param statelessResetTokenParameterID (default [] (tp_StatelessResetToken p)) else []) ++
  (if 0 <? connID_Len (tp_OriginalConnectionID p) then param originalConnectionIDParameterID (tp_OriginalConnectionID p) else []) ++ [].

Lemma millis d : 0 <= d < 2 ^ 63 -> Z.quot d Millisecond = d / Millisecond /\ is_varint (d / Millisecond) /\
  int64 (int64 (d / Millisecond) * Millisecond) = d / Millisecond * Millisecond.
Proof.
  intros Hd. change Millisecond with 1000000. rewrite Z.quot_div_nonneg by lia.
  assert (0 <= d / 1000000 <= d /\ d / 1000000 * 1000000 <= d) by (Z.div_mod_to_equations; lia).
  split_and!; [done| |]. { unfold is_varint, maxVarInt8. Z.div_mod_to_equations; lia. }
  rewrite (int64_id (d / 1000000)) by go_range. rewrite int64_id by go_range. done.
Qed.

(** The optional parameters. *)
Lemma marshal_if (c : bool) b id v :
  is_varint v -> (if c then marshalVarintParam b id v else mret b) = Ret (b ++ if c then param id (varint_bytes v) else []).
Proof. intros Hv. destruct c; [by apply marshalVarintParam_bytes|by rewrite app_nil_r]. Qed.

Lemma marshal_migration (c : bool) b :
  (if c then WriteUint16 (WriteUint16 b disableMigrationParameterID) 0 else b) = b ++ if c then param disableMigrationParameterID [] else [].
Proof. destruct c; [by rewrite (write_uint16 (WriteUint16 _ _)), (write_uint16 b), <- app_assoc|by rewrite app_nil_r]. Qed.

Lemma marshal_token (o : option bytes) b :
  (forall token, o = Some token -> length token = 16%nat) ->
  match o with Some token => WriteUint16 (WriteUint16 b statelessResetTokenParameterID) 16 ++ token | None => b end =
  b ++ if bool_decide (o <> None) then param statelessResetTokenParameterID (default [] o) else [].
Proof.
  intros Ht. destruct o as [token|]; [|by rewrite app_nil_r]. rewrite bool_decide_eq_true_2 by done. unfold param. cbn [default].
  unfold default, id. rewrite (Ht token eq_refl). by rewrite (write_uint16 (WriteUint16 _ _)), (write_uint16 b), <- !app_assoc.
Qed.

Lemma marshal_connID connID b :
  connID_Len connID <= maxConnectionIDLen ->
  (if 0 <? connID_Len connID then WriteUint16 (WriteUint16 b originalConnectionIDParameterID) (uint16 (connID_Len connID)) ++ connID else b) =
  b ++ if 0 <? connID_Len connID then param originalConnectionIDParameterID connID else [].
Proof.
  intros Hl. case_if; [|by rewrite app_nil_r]. unfold maxConnectionIDLen in Hl. rewrite uint16_id by (unfold connID_Len in *; go_range).
  by rewrite (write_uint16 (WriteUint16 _ _)), (write_uint16 b), <- !app_assoc.
Qed.

Lemma Marshal_bytes sentBy p :
  params_wf sentBy p -> Marshal p = Ret (WriteUint16 [] (uint16 (Z.of_nat (length (marshaled p)))) ++ marshaled p).
Proof.
  intros [H1 H2 H3 H4 H5 H6 H7 H8 H9 H10 H11 _]. unfold Marshal.
  assert (Hm : 0 <= tp_MaxAckDelay p < 2 ^ 63) by (assert (MaxMaxAckDelay < 2 ^ 63) by done; lia).
  destruct (millis _ H7) as (E1 & V1 & _), (millis _ Hm) as (E2 & V2 & _).
  assert (V3 : is_varint (tp_AckDelayExponent p)) by (unfold is_varint, maxVarInt8, MaxAckDelayExponent in *; lia).
  rewrite E1, E2, !uint64_id by (unfold is_varint, maxVarInt8 in *; go_range).
  do 8 (rewrite marshalVarintParam_bytes by (done || by vm_compute); cbn [mbind outcome_bind]).
  do 2 (rewrite marshal_if by done; cbn [mbind outcome_bind]).
  rewrite marshal_migration, marshal_token, marshal_connID by done. rewrite <- !app_assoc. cbv zeta.
  assert (E : forall x : bytes, WriteUint16 [] (uint16 (Z.of_nat (length ([0; 0] ++ x)) - 2)) ++ drop 2 ([0; 0] ++ x) =
    WriteUint16 [] (uint16 (Z.of_nat (length x))) ++ x).
  { intros x. change (drop 2 ([0; 0] ++ x)) with x. change (length ([0; 0] ++ x)) with (S (S (length x))).
    by replace (Z.of_nat (S (S (length x))) - 2) with (Z.of_nat (length x)) by lia. }
  rewrite E. unfold marshaled. by rewrite app_nil_r.
Qed.


(** The parameters that are always sent. *)
Lemma reads_mandatory sentBy bl br uni data bidiNum uniNum idle d rest u :
  is_varint bl -> is_varint br -> is_varint uni -> is_varint data -> is_varint bidiNum -> is_varint uniNum -> is_varint idle ->
  int64 (int64 idle * Millisecond) = d ->
  reads sentBy (mkUnmarshal (mkParams bl br uni data 0 0 MaxReceivePacketSize uniNum bidiNum (MaxDuration MinRemoteIdleTimeout d) false None [])
    [5; 6; 7; 4; 8; 9; 1; 3] false false) rest u ->
  reads sentBy (mkUnmarshal zero_params [] false false)
    (param initialMaxStreamDataBidiLocalParameterID (varint_bytes bl) ++ param initialMaxStreamDataBidiRemoteParameterID (varint_bytes br) ++
     param initialMaxStreamDataUniParameterID (varint_bytes uni) ++ param initialMaxDataParameterID (varint_bytes data) ++
     param initialMaxStreamsBidiParameterID (varint_bytes bidiNum) ++ param initialMaxStreamsUniParameterID (varint_bytes uniNum) ++
     param idleTimeoutParameterID (varint_bytes idle) ++ param maxPacketSizeParameterID (varint_bytes MaxReceivePacketSize) ++ rest) u.
Proof.
  intros V1 V2 V3 V4 V5 V6 V7 <- Hr.
  assert (I5 : int64 bidiNum = bidiNum) by (apply int64_id; unfold is_varint, maxVarInt8 in *; go_range).
  assert (I6 : int64 uniNum = uniNum) by (apply int64_id; unfold is_varint, maxVarInt8 in *; go_range).
  do 8 (eapply reads_cons; [apply read_numeric; [done || by vm_compute|done|cbn -[int64 MaxDuration Millisecond Z.mul]; reflexivity|by right; right]|cbn -[param int64 MaxDuration Millisecond Z.mul varint_bytes]]).
  by rewrite I5, I6.
Qed.

(** The parameters that are sent if [c]. *)
Lemma reads_numeric_if sentBy (c : bool) p0 ids b1 b2 id v p rest u :
  is_varint v -> is_uint16 id -> id = ackDelayExponentParameterID \/ id = maxAckDelayParameterID ->
  set_numeric p0 id v = Ret p ->
  reads sentBy (mkUnmarshal (if c then p else p0) (ids ++ if c then [id] else []) (b1 || c && (id =? ackDelayExponentParameterID))
    (b2 || c && (id =? maxAckDelayParameterID))) rest u ->
  reads sentBy (mkUnmarshal p0 ids b1 b2) ((if c then param id (varint_bytes v) else []) ++ rest) u.
Proof.
  intros Hv Hi Hid Es Hr. destruct c; cbn [andb] in Hr; [|by rewrite app_nil_r, !orb_false_r in Hr].
  eapply reads_cons; [apply read_numeric; [done|done|exact Es|tauto]|exact Hr].
Qed.

Lemma reads_special_if sentBy (c : bool) p0 ids b1 b2 id value p rest u :
  is_uint16 id -> id = disableMigrationParameterID \/ id = statelessResetTokenParameterID \/ id = originalConnectionIDParameterID ->
  Z.of_nat (length value) < 2 ^ 16 ->
  (c = true -> read_other p0 sentBy id (Z.of_nat (length value)) (value ++ rest) = Ret (p, rest)) ->
  reads sentBy (mkUnmarshal (if c then p else p0) (ids ++ if c then [id] else []) b1 b2) rest u ->
  reads sentBy (mkUnmarshal p0 ids b1 b2) ((if c then param id value else []) ++ rest) u.
Proof.
  intros Hi Hid Hl Es Hr. destruct c; [|by rewrite app_nil_r in Hr].
  eapply reads_cons; [apply read_special; [done|done|done|by apply Es]|exact Hr].
Qed.

Lemma read_other_migration p sentBy rest : read_other p sentBy disableMigrationParameterID 0 rest = Ret (p <| tp_DisableMigration := true |>, rest).
Proof. unfold read_other, mbind, reader_bind, Len. by rewrite (proj2 (Z.ltb_ge _ _)) by lia. Qed.

Lemma read_other_token p token rest : length token = 16%nat ->
  read_other p PerspectiveServer statelessResetTokenParameterID (Z.of_nat (length token)) (token ++ rest) =
    Ret (p <| tp_StatelessResetToken := Some token |>, rest).
Proof.
  intros Hl. unfold read_other, mbind, reader_bind, Len. rewrite length_app, (proj2 (Z.ltb_ge _ _)) by lia.
  rewrite Hl, bool_decide_eq_false_2 by done. change (negb (Z.of_nat 16 =? 16)) with false.
  change (statelessResetTokenParameterID =? disableMigrationParameterID) with false. rewrite Z.eqb_refl. by rewrite ReadFull_app_n.
Qed.

Lemma read_other_connID p id rest :
  read_other p PerspectiveServer originalConnectionIDParameterID (Z.of_nat (length id)) (id ++ rest) =
    Ret (p <| tp_OriginalConnectionID := id |>, rest).
Proof.
  unfold read_other, mbind, reader_bind, Len. rewrite length_app, (proj2 (Z.ltb_ge _ _)) by lia.
  rewrite bool_decide_eq_false_2 by done. change (originalConnectionIDParameterID =? disableMigrationParameterID) with false.
  change (originalConnectionIDParameterID =? statelessResetTokenParameterID) with false. rewrite Z.eqb_refl.
  by rewrite (ReadConnectionID_app id rest : ReadConnectionID (Z.of_nat (length id)) _ = _).
Qed.

(** What is left of the optional parameters. *)
Lemma marshaled_reads sentBy p :
  params_wf sentBy p ->
  exists u, reads sentBy (mkUnmarshal zero_params [] false false) (marshaled p) u /\
    (let p := if um_readAckDelayExponent u then um_params u else um_params u <| tp_AckDelayExponent := DefaultAckDelayExponent |> in
     if um_readMaxAckDelay u then p else p <| tp_MaxAckDelay := DefaultMaxAckDelay |>) = received_params p /\
    duplicate (merge_sort Z.le (um_parameterIDs u)) = None.
Proof.
  intros [H1 H2 H3 H4 H5 H6 H7 H8 H9 H10 H11 H12].
  assert (Hm : 0 <= tp_MaxAckDelay p < 2 ^ 63) by (assert (MaxMaxAckDelay < 2 ^ 63) by done; lia).
  destruct (millis _ H7) as (_ & V1 & M1), (millis _ Hm) as (_ & V2 & M2).
  assert (V3 : is_varint (tp_AckDelayExponent p)) by (unfold is_varint, maxVarInt8, MaxAckDelayExponent in *; lia).
  assert (Hs : forall c : bool, (c = true -> tp_StatelessResetToken p <> None \/ tp_OriginalConnectionID p <> []) -> c = true -> sentBy = PerspectiveServer).
  { intros c Hc E. destruct sentBy; [done|]. destruct (H12 eq_refl) as [E1 E2]. destruct (Hc E) as [?|?]; congruence. }
  eexists. split.
  { unfold marshaled. eapply reads_mandatory; [done..|exact M1|].
    eapply reads_numeric_if; [done|done|by right| |].
    { unfold set_numeric. cbn -[MaxMaxAckDelay int64 Z.leb Z.div Z.mul Millisecond]. rewrite M2, (proj2 (Z.leb_gt _ _)); [reflexivity|].
      assert (tp_MaxAckDelay p / Millisecond * Millisecond <= tp_MaxAckDelay p) by (change Millisecond with 1000000; Z.div_mod_to_equations; lia). lia. }
    eapply reads_numeric_if; [done|done|by left| |].
    { unfold set_numeric. cbn -[MaxAckDelayExponent uint8 Z.ltb]. rewrite uint8_id, (proj2 (Z.ltb_ge _ _)) by (unfold MaxAckDelayExponent in *; go_range). reflexivity. }
    eapply reads_special_if; [done|by left|done|intros _; apply read_other_migration|].
    eapply reads_special_if; [done|by right; left| | |].
    { destruct (tp_StatelessResetToken p) as [token|]; [cbn; by rewrite (H10 token eq_refl)|done]. }
    { intros Hb. apply bool_decide_eq_true_1 in Hb. rewrite (Hs true) by auto. apply (read_other_token _ (default [] (tp_StatelessResetToken p))).
      destruct (tp_StatelessResetToken p) as [token|]; [by apply H10|done]. }
    eapply reads_special_if; [done|by right; right| | |apply reads_nil].
    { unfold connID_Len, maxConnectionIDLen in H11. lia. }
    { intros Hb. zbool. rewrite (Hs true); [apply read_other_connID|intros _; right; intros E; rewrite E in Hb; done|done]. } }
  cbn [um_readAckDelayExponent um_readMaxAckDelay um_params um_parameterIDs orb andb]. split.
  - unfold received_params. destruct p as [bl br uni data delay ex mps uniN bidiN idle dis tok id]. cbn [tp_StatelessResetToken tp_OriginalConnectionID tp_MaxAckDelay tp_AckDelayExponent tp_DisableMigration].
    destruct (Z.eqb_spec delay DefaultMaxAckDelay) as [->|]; destruct (Z.eqb_spec ex DefaultAckDelayExponent) as [->|]; destruct dis, tok, id; reflexivity.
  - by destruct (tp_MaxAckDelay p =? _), (tp_AckDelayExponent p =? _), (tp_DisableMigration p), (bool_decide _), (0 <? _); vm_compute.
Qed.

Lemma param_length id value : length (param id value) = (4 + length value)%nat.
Proof. unfold param. rewrite !length_app. done. Qed.

Lemma if_length (c : bool) (b : bytes) n : (length b <= n)%nat -> (length (if c then b else []) <= n)%nat.
Proof. destruct c; cbn; lia. Qed.

Lemma numeric_length id v : is_varint v -> (length (param id (varint_bytes v)) <= 12)%nat.
Proof. intros Hv. rewrite param_length. pose proof (varint_bytes_length v Hv). lia. Qed.

Lemma marshaled_length sentBy p : params_wf sentBy p -> (length (marshaled p) <= 200)%nat.
Proof.
  intros [H1 H2 H3 H4 H5 H6 H7 H8 H9 H10 H11 _].
  assert (Hm : 0 <= tp_MaxAckDelay p < 2 ^ 63) by (assert (MaxMaxAckDelay < 2 ^ 63) by done; lia).
  destruct (millis _ H7) as (_ & V1 & _), (millis _ Hm) as (_ & V2 & _).
  assert (V3 : is_varint (tp_AckDelayExponent p)) by (unfold is_varint, maxVarInt8, MaxAckDelayExponent in *; lia).
  unfold marshaled. rewrite !length_app.
  pose proof (numeric_length initialMaxStreamDataBidiLocalParameterID _ H1). pose proof (numeric_length initialMaxStreamDataBidiRemoteParameterID _ H2).
  pose proof (numeric_length initialMaxStreamDataUniParameterID _ H3). pose proof (numeric_length initialMaxDataParameterID _ H4).
  pose proof (numeric_length initialMaxStreamsBidiParameterID _ H5). pose proof (numeric_length initialMaxStreamsUniParameterID _ H6).
  pose proof (numeric_length idleTimeoutParameterID _ V1).
  pose proof (if_length (negb (tp_MaxAckDelay p =? DefaultMaxAckDelay)) _ _ (numeric_length maxAckDelayParameterID _ V2)).
  pose proof (if_length (negb (tp_AckDelayExponent p =? DefaultAckDelayExponent)) _ _ (numeric_length ackDelayExponentParameterID _ V3)).
  assert (L1 : (length (if tp_DisableMigration p then param disableMigrationParameterID [] else []) <= 4)%nat) by by apply if_length.
  assert (L2 : (length (if bool_decide (tp_StatelessResetToken p <> None) then param statelessResetTokenParameterID (default [] (tp_StatelessResetToken p)) else []) <= 20)%nat).
  { apply if_length. rewrite param_length. destruct (tp_StatelessResetToken p) as [t|]; cbn; [rewrite (H10 t eq_refl)|]; lia. }
  assert (L3 : (length (if (0 <? connID_Len (tp_OriginalConnectionID p))%Z then param originalConnectionIDParameterID (tp_OriginalConnectionID p) else []) <= 22)%nat).
  { apply if_length. rewrite param_length. unfold connID_Len, maxConnectionIDLen in H11. lia. }
  assert (L4 : length (param maxPacketSizeParameterID (varint_bytes MaxReceivePacketSize)) = 6%nat) by done.
  cbn [length]. lia.
Qed.

(** What is marshaled is unmarshaled at the other end. *)
Lemma params_arrive sentBy p :
  params_wf sentBy p ->
  exists data, Marshal p = Ret data /\ Unmarshal data sentBy = Ret (received_params p).
Proof.
  intros Hwf. eexists. split; [by apply (Marshal_bytes sentBy)|]. destruct (marshaled_reads sentBy p Hwf) as (u & Hr & Hp & Hd).
  pose proof (marshaled_length sentBy p Hwf) as Hl. rewrite uint16_id by (unfold is_uint16; lia). unfold Unmarshal.
  rewrite (proj2 (Z.ltb_ge _ _)) by (rewrite length_app; cbn [length WriteUint16 app]; lia).
  rewrite read_uint16 by (unfold is_uint16; lia). cbn [mbind outcome_bind].
  rewrite Z.ltb_irrefl, (read_parameters_reads _ _ _ _ Hr) by lia. cbn [mbind outcome_bind]. rewrite Hd. cbv zeta in Hp. cbn. by rewrite Hp.
Qed.

(** C33. Transport parameters arrive: what [Marshal] writes is read by [Unmarshal] at the other end, for every
    value in range and every combination of optional parameters. Durations are
    rounded to milliseconds, and the idle timeout is raised to its minimum. *)
Theorem transport_parameters_roundtrip sentBy p :
  params_wf sentBy p ->
  exists data, Marshal p = Ret data /\ Unmarshal data sentBy = Ret (received_params p).
Proof. apply params_arrive. Qed.

Definition demo_params : TransportParameters :=
  mkParams 1000 2000 3000 4000000 (30 * Millisecond) 3 0 10 20 (30 * Second) true (Some (repeat 7 16)) [1; 2; 3; 4].

Lemma transport_parameters_roundtrip_witness :
  exists data, Marshal demo_params = Ret data /\ Unmarshal data PerspectiveServer = Ret (received_params demo_params).
Proof.
  apply (transport_parameters_roundtrip PerspectiveServer demo_params). split; try by vm_compute. by intros token [= <-].
Defined.

(** ** Whatever the peer sends *)

(** A reader that does not panic, whose results satisfy [Q]. *)
Definition sound {A} (p : reader A) (Q : A -> Prop) : Prop :=
  forall r, bytes_ok r -> match p r with
                          | Ret (a, r') => Q a /\ bytes_ok r' /\ (length r' <= length r)%nat
                          | Error _ => True
                          | Panic _ => False
                          end.

Lemma sound_ret {A} (a : A) (Q : A -> Prop) : Q a -> sound (mret a) Q.
Proof. intros Hq r Hr. cbn. auto. Qed.
Lemma sound_fail {A} e (Q : A -> Prop) : sound (fail e) Q.
Proof. done. Qed.
Lemma sound_bind {A B} (m : reader A) (k : A -> reader B) (P : A -> Prop) (Q : B -> Prop) :
  sound m P -> (forall a, P a -> sound (k a) Q) -> sound (m ≫= k) Q.
Proof.
  intros Hm Hk r Hr. unfold mbind, reader_bind. specialize (Hm r Hr). destruct (m r) as [[a r1]| |]; try done.
  destruct Hm as (Ha & Hr1 & Hl). specialize (Hk a Ha r1 Hr1). destruct (k a r1) as [[b r2]| |]; try done.
  destruct Hk as (Hb & Hr2 & Hl2). split_and!; [done|done|lia].
Qed.
Lemma sound_if {A} (c : bool) (p q : reader A) (Q : A -> Prop) :
  (c = true -> sound p Q) -> (c = false -> sound q Q) -> sound (if c then p else q) Q.
Proof. destruct c; auto. Qed.

Lemma sound_ReadFull n : sound (ReadFull n) (fun d => length d = n).
Proof.
  intros r Hr. unfold ReadFull. destruct (Nat.leb_spec n (length r)) as [Hn|Hn]; [|by destruct r].
  split_and!; [rewrite length_take; lia|by apply Forall_drop|rewrite length_drop; lia].
Qed.

Lemma sound_ReadUint16 : sound ReadUint16 is_uint16.
Proof.
  intros [|a [|b r]] Hr; [done|done|]. cbn. split_and!; [apply uint16_range| |cbn; lia].
  by apply Forall_cons in Hr as [_ [_ ?]%Forall_cons].
Qed.

Lemma sound_ReadConnectionID n : sound (ReadConnectionID n) (fun _ => True).
Proof.
  unfold ReadConnectionID. apply sound_if; intros _; [by apply sound_ret|]. intros r Hr. unfold ReadFullEOF.
  pose proof (sound_ReadFull (Z.to_nat n) r Hr) as Hs. by destruct (ReadFull _ r) as [[d r']|[]|]; [destruct Hs as (_ & ? & ?)|..].
Qed.

(** The values that are accepted. *)
Record params_valid (sentBy : Perspective) (p : TransportParameters) : Prop := {
  pv_bidiLocal : is_varint (tp_InitialMaxStreamDataBidiLocal p);
  pv_bidiRemote : is_varint (tp_InitialMaxStreamDataBidiRemote p);
  pv_uni : is_varint (tp_InitialMaxStreamDataUni p);
  pv_data : is_varint (tp_InitialMaxData p);
  pv_bidiNum : is_varint (tp_MaxBidiStreamNum p);
  pv_uniNum : is_varint (tp_MaxUniStreamNum p);
  pv_packet : tp_MaxPacketSize p = 0 \/ 1200 <= tp_MaxPacketSize p <= maxVarInt8;
  pv_idle : tp_IdleTimeout p = 0 \/ MinRemoteIdleTimeout <= tp_IdleTimeout p < 2 ^ 63;
  pv_delay : - 2 ^ 63 <= tp_MaxAckDelay p < MaxMaxAckDelay;
  pv_exponent : 0 <= tp_AckDelayExponent p <= MaxAckDelayExponent;
  pv_token : forall token, tp_StatelessResetToken p = Some token -> length token = 16%nat;
  pv_client : sentBy = PerspectiveClient -> tp_StatelessResetToken p = None /\ tp_OriginalConnectionID p = []
}.

Lemma set_numeric_valid sentBy p id v :
  params_valid sentBy p -> is_varint v ->
  match set_numeric p id v with Ret p' => params_valid sentBy p' | Error _ => True | Panic _ => False end.
Proof.
  intros [H1 H2 H3 H4 H5 H6 H7 H8 H9 H10 H11 H12] Hv. unfold set_numeric. pose proof (int64_range (int64 v * Millisecond)) as Hr.
  assert (I : int64 v = v) by (apply int64_id; unfold is_varint, maxVarInt8 in *; go_range).
  do 6 (case_if; [by split; cbn; rewrite ?I|]).
  case_if.
  { split; try done. cbn. right. assert (MinRemoteIdleTimeout < 2 ^ 63) by done. unfold MaxDuration. case_if; zbool; go_range. }
  case_if; [case_if; zbool; [done|]; split; try done; right; cbn; unfold is_varint in Hv; lia|].
  case_if; [case_if; zbool; [done|]; split; try done; cbn|].
  { unfold MaxAckDelayExponent, is_varint in *. rewrite uint8_id; go_range. }
  case_if; [case_if; zbool; [done|]; split; try done; cbn; go_range|done].
Qed.

Lemma read_numeric_valid sentBy p id len : params_valid sentBy p -> sound (readNumericTransportParameter p id len) (params_valid sentBy).
Proof.
  intros Hp r Hr. unfold readNumericTransportParameter. pose proof (tame_ReadVarInt r) as Ht.
  destruct (ReadVarInt r) as [[v r']| |] eqn:E; try done. case_if; [done|].
  destruct (ReadVarInt_inv r v r' Hr E) as (Hv & Hr' & _). pose proof (set_numeric_valid sentBy p id v Hp Hv) as Hs.
  by destruct (set_numeric p id v).
Qed.

Lemma read_other_valid sentBy p id len : params_valid sentBy p -> sound (read_other p sentBy id len) (params_valid sentBy).
Proof.
  intros Hp. unfold read_other. eapply (sound_bind _ _ (fun _ => True)); [intros r Hr; by cbn|]. intros remaining _.
  apply sound_if; intros _; [apply sound_fail|]. apply sound_if; intros _.
  { apply sound_if; intros _; [apply sound_fail|apply sound_ret; by destruct Hp]. }
  apply sound_if; intros _.
  { apply sound_if; intros Hb; [apply sound_fail|]. apply bool_decide_eq_false_1 in Hb. apply sound_if; intros _; [apply sound_fail|].
    eapply sound_bind; [apply sound_ReadFull|]. intros token Ht. apply sound_ret. destruct Hp. split; try done. by intros token' [= <-]. }
  apply sound_if; intros _.
  { apply sound_if; intros Hb; [apply sound_fail|]. apply bool_decide_eq_false_1 in Hb.
    eapply sound_bind; [apply sound_ReadConnectionID|]. intros cid _. apply sound_ret. by destruct Hp. }
  eapply sound_bind; [apply sound_ReadFull|]. intros _ _. by apply sound_ret.
Qed.

Lemma read_parameter_valid sentBy u :
  params_valid sentBy (um_params u) -> sound (read_parameter sentBy u) (fun u' => params_valid sentBy (um_params u')).
Proof.
  intros Hp. unfold read_parameter. eapply sound_bind; [apply sound_ReadUint16|]. intros id _.
  eapply sound_bind; [apply sound_ReadUint16|]. intros len _. cbv zeta.
  repeat (apply sound_if; intros _).
  1-3: eapply sound_bind; [by apply (read_numeric_valid sentBy)|]; intros p Hp'; by apply sound_ret.
  eapply sound_bind; [by apply read_other_valid|]. intros p Hp'. by apply sound_ret.
Qed.

#[global] Instance tame_readNumeric p id len : Tame (readNumericTransportParameter p id len).
Proof.
  intros r. unfold readNumericTransportParameter. pose proof (tame_ReadVarInt r) as Ht. destruct (ReadVarInt r) as [[v r']| |]; try done.
  case_if; [done|]. unfold set_numeric. by case_ifs.
Qed.

#[global] Instance eats_read_parameter sentBy u : Eats (read_parameter sentBy u).
Proof. unfold read_parameter, ReadUint16, read_other. cbv zeta. apply _. Qed.

Lemma read_parameters_valid sentBy fuel : forall u r,
  params_valid sentBy (um_params u) -> bytes_ok r -> (length r < fuel)%nat ->
  match read_parameters fuel sentBy u r with
  | Ret (u', _) => params_valid sentBy (um_params u')
  | Error _ => True
  | Panic _ => False
  end.
Proof.
  induction fuel as [|fuel IH]; intros u r Hp Hr Hf; [lia|]. cbn [read_parameters]. unfold mbind at 1, reader_bind at 1, Len.
  case_if; [|done]. unfold mbind, reader_bind. pose proof (read_parameter_valid sentBy u Hp r Hr) as Hs.
  pose proof (eats_read_parameter sentBy u r) as He. destruct (read_parameter sentBy u r) as [[u' r']| |]; try done.
  destruct Hs as (Hp' & Hr' & _). apply IH; [done|done|lia].
Qed.

(** Transport parameters of the peer: whatever bytes arrive, [Unmarshal] returns parameters or
    an error. The parameters it returns have the values the
    protocol allows: packets of 1200 bytes at least, an ACK delay exponent of at most 20, an idle timeout that is
    not too short, and nothing that only a server may send from a client. *)
Theorem transport_parameters_checked data sentBy :
  bytes_ok data ->
  match Unmarshal data sentBy with
  | Ret p => params_valid sentBy p
  | Error _ => True
  | Panic _ => False
  end.
Proof.
  intros Hd. unfold Unmarshal. case_if; [done|]. pose proof (sound_ReadUint16 data Hd) as Hs.
  destruct (ReadUint16 data) as [[l r]| |]; try done. destruct Hs as (_ & Hr & _). cbn [mbind outcome_bind]. case_if; [done|].
  assert (H0 : params_valid sentBy zero_params) by (split; first [done|by left|by vm_compute]).
  pose proof (read_parameters_valid sentBy (S (length r)) (mkUnmarshal zero_params [] false false) r H0 Hr ltac:(lia)) as Hp.
  destruct (read_parameters _ _ _ r) as [[u r']| |]; cbn [mbind outcome_bind]; [|done|done].
  destruct (duplicate _); [done|]. case_if; [done|]. cbn. destruct Hp. destruct (um_readAckDelayExponent u), (um_readMaxAckDelay u); split; cbn; done || by vm_compute.
Qed.

Lemma transport_parameters_checked_witness :
  match Unmarshal [0; 6; 0; 3; 0; 2; 0x44; 0xb0] PerspectiveClient with
  | Ret p => params_valid PerspectiveClient p
  | Error _ => True
  | Panic _ => False
  end.
Proof. apply (transport_parameters_checked [0; 6; 0; 3; 0; 2; 0x44; 0xb0] PerspectiveClient). by repeat constructor. Defined.

(** The multiplication of the delay by a million is not checked: a [max_ack_delay] of 2^61 ms, far above the
    maximum of 2^14 ms, is accepted, and so is one that makes the delay negative. *)
Theorem max_ack_delay_overflow :
  (exists p, Unmarshal ([0; 12; 0; 11; 0; 8] ++ varint_bytes (2 ^ 61)) PerspectiveClient = Ret p /\ tp_MaxAckDelay p = 0) /\
  exists p, Unmarshal ([0; 12; 0; 11; 0; 8] ++ varint_bytes (2 ^ 62 - 1)) PerspectiveClient = Ret p /\ tp_MaxAckDelay p < 0.
Proof. split; eexists; (split; [by vm_compute|by vm_compute]). Qed.
