(* ===== verification/CryptoSetup.v ===== *)
(** * The handshake (handshake/crypto_setup.go, initial_aead.go, tls_extension_handler.go)

    The keys of a connection and the conversation with the TLS stack.  The stack runs on a goroutine of its
    own: it reads messages from a channel, and hands over keys, transport parameters
    and records.  The session's goroutine is in [HandleMessage], which waits until the stack has
    dealt with the message as far as the code expects it.  [system] holds both
    goroutines, and [hs_step] is one step of one of them.

    The TLS stack, HKDF, and the ciphers are not part of the sources: what the stack does after
    a message is a list of [tlsAction]s, and the cryptography is a [cryptoLibrary]. *)

From S2P Require Import Prelude VarInt Protocol GoFloat Frames Headers Aead PacketPacker.

(** ** Messages *)

Definition alertUnexpectedMessage : Z := 10.

Definition messageType := Z.
Definition typeClientHello : messageType := 1.
Definition typeServerHello : messageType := 2.
Definition typeNewSessionTicket : messageType := 4.
Definition typeEncryptedExtensions : messageType := 8.
Definition typeCertificate : messageType := 11.
Definition typeCertificateRequest : messageType := 13.
Definition typeCertificateVerify : messageType := 15.
Definition typeFinished : messageType := 20.

Definition ErrOpenerNotYetAvailable : goerr :=
  ErrorString "CryptoSetup: opener at this encryption level not yet available".
Definition ErrKeysDropped : goerr := ErrorString "CryptoSetup: keys were already dropped".

(** ** Keys *)

(** What is used of the TLS library, for SHA256 and for the hash of a cipher suite. *)
Record cryptoLibrary := mkLibrary {
  HkdfExtract : bytes -> bytes -> bytes;                       (* secret, salt *)
  HkdfExpandLabel : bytes -> string -> Z -> bytes;             (* secret, label, length *)
  AEADAESGCMTLS13 : bytes -> bytes -> cipherAEAD;              (* key, IV *)
  NewCipher : bytes -> outcome cipherBlock
}.

Record cipherSuite := mkSuite {
  su_KeyLen : Z;
  su_IVLen : Z;
  su_ExpandLabel : bytes -> string -> Z -> bytes;
  su_AEAD : bytes -> bytes -> cipherAEAD
}.

Section Keys.
Variable lib : cryptoLibrary.

Definition quicVersion1Salt : bytes :=
  [0xef; 0x4f; 0xb0; 0xab; 0xb4; 0x74; 0x70; 0xc4; 0x1b; 0xef; 0xcf; 0x80; 0x31; 0x33; 0x4f; 0xae; 0x48; 0x5e; 0x09; 0xa0].

Definition computeSecrets (connID : ConnectionID) : bytes * bytes :=
  let initialSecret := HkdfExtract lib connID quicVersion1Salt in
  (HkdfExpandLabel lib initialSecret "client in" 32, HkdfExpandLabel lib initialSecret "server in" 32).

Definition computeInitialKeyAndIV (secret : bytes) : bytes * bytes * bytes :=
  (HkdfExpandLabel lib secret "quic key" 16, HkdfExpandLabel lib secret "quic hp" 16,
   HkdfExpandLabel lib secret "quic iv" 12).

Definition NewInitialAEAD (connID : ConnectionID) (pers : Perspective) : outcome (sealer * opener) :=
  let '(clientSecret, serverSecret) := computeSecrets connID in
  let '(mySecret, otherSecret) :=
    if bool_decide (pers = PerspectiveClient) then (clientSecret, serverSecret) else (serverSecret, clientSecret) in
  let '(myKey, myHPKey, myIV) := computeInitialKeyAndIV mySecret in
  let '(otherKey, otherHPKey, otherIV) := computeInitialKeyAndIV otherSecret in
  hpEncrypter ← NewCipher lib myHPKey;
  hpDecrypter ← NewCipher lib otherHPKey;
  mret (mkSealer (AEADAESGCMTLS13 lib myKey myIV) hpEncrypter false,
        mkOpener (AEADAESGCMTLS13 lib otherKey otherIV) hpDecrypter false).

(** The first lines of [SetReadKey] and [SetWriteKey]: the ciphers of a traffic secret. *)
Definition traffic_keys (suite : cipherSuite) (trafficSecret : bytes) : outcome (cipherAEAD * cipherBlock) :=
  let key := su_ExpandLabel suite trafficSecret "quic key" (su_KeyLen suite) in
  let iv := su_ExpandLabel suite trafficSecret "quic iv" (su_IVLen suite) in
  let hpKey := su_ExpandLabel suite trafficSecret "quic hp" (su_KeyLen suite) in
  match NewCipher lib hpKey with
  | Ret hp => mret (su_AEAD suite key iv, hp)
  | _ => Panic "error creating new AES cipher: %s"
  end.

(** ** The state *)

(** What the handshake tells the session, and what it writes to the CRYPTO streams. *)
Inductive hsEvent :=
| OnReceivedParams (data : bytes)
| OnHandshakeComplete
| OnError (err : goerr)
| DropKeys (encLevel : EncryptionLevel)
| ClientHelloWritten                                  (* clientHelloWrittenChan is closed *)
| WrittenTo (encLevel : EncryptionLevel) (p : bytes).

Record cryptoSetup := mkSetup {
  h_perspective : Perspective;
  h_closed : bool;
  h_messageChan : list bytes;        (* capacity 100 *)
  h_handshakeDone : bool;
  h_clientHelloWritten : bool;
  h_writeRecord : bool;              (* capacity 1 *)
  h_readEncLevel : EncryptionLevel;
  h_writeEncLevel : EncryptionLevel;
  h_initialOpener : option opener;
  h_initialSealer : option sealer;
  h_handshakeOpener : option opener;
  h_handshakeSealer : option sealer;
  h_opener : option opener;
  h_sealer : option sealer;
  h_events : list hsEvent            (* oldest first *)
}.

#[global] Instance cryptoSetup_eta : Eta cryptoSetup := fun h =>
  mkSetup (h_perspective h) (h_closed h) (h_messageChan h) (h_handshakeDone h) (h_clientHelloWritten h) (h_writeRecord h)
    (h_readEncLevel h) (h_writeEncLevel h) (h_initialOpener h) (h_initialSealer h) (h_handshakeOpener h)
    (h_handshakeSealer h) (h_opener h) (h_sealer h) (h_events h).

Definition tell (h : cryptoSetup) (ev : hsEvent) : cryptoSetup := h <| h_events := h_events h ++ [ev] |>.

Definition newCryptoSetup (connID : ConnectionID) (perspective : Perspective) : outcome cryptoSetup :=
  '(initialSealer, initialOpener) ← NewInitialAEAD connID perspective;
  mret (mkSetup perspective false [] false false false EncryptionInitial EncryptionInitial
          (Some initialOpener) (Some initialSealer) None None None None []).

Definition ChangeConnectionID (h : cryptoSetup) (id : ConnectionID) : outcome cryptoSetup :=
  '(initialSealer, initialOpener) ← NewInitialAEAD id (h_perspective h);
  mret (h <| h_initialSealer := Some initialSealer |> <| h_initialOpener := Some initialOpener |>).

Definition Received1RTTAck (h : cryptoSetup) : cryptoSetup :=
  (* drop initial keys *)
  let h := match h_initialOpener h with
           | Some _ => tell (h <| h_initialOpener := None |> <| h_initialSealer := None |>) (DropKeys EncryptionInitial)
           | None => h
           end in
  (* drop handshake keys *)
  match h_handshakeOpener h with
  | Some _ => tell (h <| h_handshakeOpener := None |> <| h_handshakeSealer := None |>) (DropKeys EncryptionHandshake)
  | None => h
  end.

(** [SetReadKey] and [SetWriteKey], up to the signal to [HandleMessage]. *)
Definition SetReadKey (h : cryptoSetup) (suite : cipherSuite) (trafficSecret : bytes) : outcome cryptoSetup :=
  '(aead, hpDecrypter) ← traffic_keys suite trafficSecret;
  match h_readEncLevel h with
  | EncryptionInitial =>
      mret (h <| h_readEncLevel := EncryptionHandshake |> <| h_handshakeOpener := Some (mkOpener aead hpDecrypter false) |>)
  | EncryptionHandshake =>
      mret (h <| h_readEncLevel := Encryption1RTT |> <| h_opener := Some (mkOpener aead hpDecrypter true) |>)
  | _ => Panic "unexpected read encryption level"
  end.

Definition SetWriteKey (h : cryptoSetup) (suite : cipherSuite) (trafficSecret : bytes) : outcome cryptoSetup :=
  '(aead, hpEncrypter) ← traffic_keys suite trafficSecret;
  match h_writeEncLevel h with
  | EncryptionInitial =>
      mret (h <| h_writeEncLevel := EncryptionHandshake |> <| h_handshakeSealer := Some (mkSealer aead hpEncrypter false) |>)
  | EncryptionHandshake =>
      mret (h <| h_writeEncLevel := Encryption1RTT |> <| h_sealer := Some (mkSealer aead hpEncrypter true) |>)
  | _ => Panic "unexpected write encryption level"
  end.

(** [WriteRecord]: [None] while the channel [writeRecord] is full. *)
Definition WriteRecord (h : cryptoSetup) (p : bytes) : outcome (option cryptoSetup) :=
  match h_writeEncLevel h with
  | EncryptionInitial =>
      let h := tell h (WrittenTo EncryptionInitial p) in
      if negb (h_clientHelloWritten h) && bool_decide (h_perspective h = PerspectiveClient) then
        mret (Some (tell (h <| h_clientHelloWritten := true |>) ClientHelloWritten))
      else if h_writeRecord h then mret None
      else mret (Some (h <| h_writeRecord := true |>))
  | EncryptionHandshake => mret (Some (tell h (WrittenTo EncryptionHandshake p)))
  | Encryption1RTT => mret (Some (tell h (WrittenTo Encryption1RTT p)))
  | _ => Panic "unexpected write encryption level: %s"
  end.

Definition setup_GetSealer (h : cryptoSetup) : EncryptionLevel * option sealer :=
  match h_sealer h with
  | Some s => (Encryption1RTT, Some s)
  | None => match h_handshakeSealer h with
            | Some s => (EncryptionHandshake, Some s)
            | None => (EncryptionInitial, h_initialSealer h)
            end
  end.

(** The result can be nil without an error. *)
Definition setup_GetSealerWithEncryptionLevel (h : cryptoSetup) (level : EncryptionLevel) : outcome (option sealer) :=
  let errNoSealer := ErrorString "CryptoSetup: no sealer with encryption level %s" in
  match level with
  | EncryptionInitial => mret (h_initialSealer h)
  | EncryptionHandshake => match h_handshakeSealer h with None => Error errNoSealer | Some s => mret (Some s) end
  | Encryption1RTT => match h_sealer h with None => Error errNoSealer | Some s => mret (Some s) end
  | _ => Error errNoSealer
  end.

Definition GetOpener (h : cryptoSetup) (level : EncryptionLevel) : outcome opener :=
  match level with
  | EncryptionInitial => match h_initialOpener h with None => Error ErrKeysDropped | Some o => mret o end
  | EncryptionHandshake =>
      match h_handshakeOpener h with
      | None => match h_initialOpener h with
                | Some _ => Error ErrOpenerNotYetAvailable
                (* if the initial opener is also not available, the keys were already dropped *)
                | None => Error ErrKeysDropped
                end
      | Some o => mret o
      end
  | Encryption1RTT => match h_opener h with None => Error ErrOpenerNotYetAvailable | Some o => mret o end
  | _ => Error (ErrorString "CryptoSetup: no opener with encryption level %s")
  end.

(** ** The extension with the transport parameters (tls_extension_handler.go) *)

Definition quicTLSExtensionType : Z := 0xffa5.

(** An extension: its type and its data. *)
Definition extension : Type := Z * bytes.

Definition GetExtensions (perspective : Perspective) (ourParams : bytes) (msgType : messageType) : list extension :=
  if (bool_decide (perspective = PerspectiveClient) && negb (msgType =? typeClientHello)) ||
     (bool_decide (perspective = PerspectiveServer) && negb (msgType =? typeEncryptedExtensions)) then []
  else [(quicTLSExtensionType, ourParams)].

(** [ReceivedExtensions]: what is sent on [paramsChan], if anything.  Nil is the empty list. *)
Definition ReceivedExtensions (perspective : Perspective) (msgType : messageType) (exts : list extension) : option bytes :=
  if (bool_decide (perspective = PerspectiveClient) && negb (msgType =? typeEncryptedExtensions)) ||
     (bool_decide (perspective = PerspectiveServer) && negb (msgType =? typeClientHello)) then None
  else Some (default [] (snd <$> List.find (fun ext => fst ext =? quicTLSExtensionType) exts)).

(** ** Handling a message *)

Definition checkEncryptionLevel (msgType : messageType) (encLevel : EncryptionLevel) : option goerr :=
  let expect expected :=
    if bool_decide (encLevel = expected) then None
    else Some (Errorf "expected handshake message %s to have encryption level %s, has %s" [msgType]) in
  if (msgType =? typeClientHello) || (msgType =? typeServerHello) then expect EncryptionInitial
  else if (msgType =? typeEncryptedExtensions) || (msgType =? typeCertificate) || (msgType =? typeCertificateRequest) ||
          (msgType =? typeCertificateVerify) || (msgType =? typeFinished) then expect EncryptionHandshake
  else if msgType =? typeNewSessionTicket then expect Encryption1RTT
  else Some (Errorf "unexpected handshake message: %d" [msgType]).

(** The cases of a [select], besides [handshakeDone], which every one of them has and which
    returns false.  The flag tells whether the function goes on after the case, or returns false. *)
Inductive selectCase := CaseWriteRecord | CaseParams | CaseReadKey | CaseWriteKey.

#[global] Instance selectCase_eq_dec : EqDecision selectCase.
Proof. solve_decision. Defined.

Definition select : Type := list (selectCase * bool).

(** What [handleMessageForServer] and [handleMessageForClient] wait for, one select
    after the other, and what they return then. *)
Definition handleMessageForServer (msgType : messageType) : list select * bool :=
  if msgType =? typeClientHello then
    ([ [(CaseWriteRecord, false); (CaseParams, true)];
       [(CaseReadKey, true)];      (* get the handshake read key *)
       [(CaseWriteKey, true)];     (* get the handshake write key *)
       [(CaseWriteKey, true)] ],   (* get the 1-RTT write key *)
     true)
  else if (msgType =? typeCertificate) || (msgType =? typeCertificateVerify) then ([], false)
  else if msgType =? typeFinished then ([[(CaseReadKey, true)]], true)   (* get the 1-RTT read key *)
  else ([], false).

Definition handleMessageForClient (msgType : messageType) : list select * bool :=
  if msgType =? typeServerHello then
    ([ [(CaseWriteRecord, false); (CaseWriteKey, true)];    (* get the handshake write key *)
       [(CaseReadKey, true)] ],                             (* get the handshake read key *)
     true)
  else if msgType =? typeEncryptedExtensions then ([[(CaseParams, true)]], false)
  else if (msgType =? typeCertificateRequest) || (msgType =? typeCertificate) || (msgType =? typeCertificateVerify) then
    ([], false)
  else if msgType =? typeFinished then
    ([ [(CaseReadKey, true)];       (* get the 1-RTT read key *)
       [(CaseWriteKey, true)] ],    (* get the 1-RTT write key *)
     true)
  else ([], false).

Definition message_plan (perspective : Perspective) (msgType : messageType) : list select * bool :=
  match perspective with
  | PerspectiveClient => handleMessageForClient msgType
  | PerspectiveServer => handleMessageForServer msgType
  end.

(** What the goroutine of the TLS stack does. *)
Inductive tlsAction :=
| ReadMessage
| WriteMessage (p : bytes)
| InstallReadKey (suite : cipherSuite) (trafficSecret : bytes)
| InstallWriteKey (suite : cipherSuite) (trafficSecret : bytes)
| GotExtensions (msgType : messageType) (exts : list extension)
| Alert (alert : Z) (err : goerr)           (* SendAlert, and Handshake returns the error *)
| Complete.                                 (* Handshake returns *)

(** What it is sending on an unbuffered channel. *)
Inductive rendezvous := ReadKeyReady | WriteKeyReady | ParamsReady (data : bytes).

(** Where the session's goroutine is. *)
Inductive handler :=
| Returned
| SendMessage (data : bytes) (encLevel : EncryptionLevel)     (* at h.messageChan <- data *)
| PostHandshake (data : bytes)                                (* at <-h.handshakeDone *)
| Selecting (sels : list select) (result : bool).

Record system := mkSystem {
  sy_setup : cryptoSetup;
  sy_tls : list tlsAction;
  sy_pending : option rendezvous;
  sy_handler : handler;
  sy_inputs : list (bytes * EncryptionLevel);       (* the messages still to be handled *)
  sy_results : list bool;                           (* what HandleMessage returned, oldest first *)
  sy_post : list (option (Z * goerr))               (* what HandlePostHandshakeMessage returns *)
}.

#[global] Instance system_eta : Eta system := fun s =>
  mkSystem (sy_setup s) (sy_tls s) (sy_pending s) (sy_handler s) (sy_inputs s) (sy_results s) (sy_post s).

Definition messageChanCap : nat := 100.

Definition CryptoError (alert : Z) (err : goerr) : goerr := QuicError (0x100 + alert) err.

(** [HandleMessage] returns. *)
Definition returns (s : system) (result : bool) : system :=
  s <| sy_handler := Returned |> <| sy_results := sy_results s ++ [result] |>.

Definition selecting (s : system) (sels : list select) (result : bool) : system :=
  match sels with [] => returns s result | _ :: _ => s <| sy_handler := Selecting sels result |> end.

(** [HandleMessage] up to the send on the channel. *)
Definition HandleMessage (s : system) (data : bytes) (encLevel : EncryptionLevel) : outcome system :=
  match data with
  | [] => Panic "index out of range"
  | msgType :: _ =>
      match checkEncryptionLevel msgType encLevel with
      | Some err =>
          mret (returns (s <| sy_setup := tell (sy_setup s) (OnError (CryptoError alertUnexpectedMessage err)) |>) false)
      | None => mret (s <| sy_handler := SendMessage data encLevel |>)
      end
  end.

(** The message was sent. *)
Definition message_sent (s : system) (data : bytes) (encLevel : EncryptionLevel) : system :=
  let s := s <| sy_setup := (sy_setup s) <| h_messageChan := h_messageChan (sy_setup s) ++ [data] |> |> in
  if bool_decide (encLevel = Encryption1RTT) then s <| sy_handler := PostHandshake data |>
  else let '(sels, result) := message_plan (h_perspective (sy_setup s)) (hd 0 data) in selecting s sels result.

(** [handlePostHandshakeMessage] after the handshake is done: the stack reads the message from the
    channel, and an error is reported with its alert. *)
Definition handlePostHandshakeMessage (s : system) (data : bytes) : system :=
  let h := sy_setup s in
  let h := h <| h_messageChan := drop 1 (h_messageChan h) |> in
  let '(h, post) := match sy_post s with
                    | Some (alert, err) :: post => (tell h (OnError (CryptoError alert err)), post)
                    | None :: post => (h, post)
                    | [] => (h, [])
                    end in
  let '(sels, result) := message_plan (h_perspective h) (hd 0 data) in
  selecting (s <| sy_setup := h |> <| sy_post := post |>) sels result.

(** A case of the current select, if it is ready. *)
Definition take_case (s : system) (c : selectCase) : option system :=
  match c, sy_pending s with
  | CaseWriteRecord, _ =>
      if h_writeRecord (sy_setup s) then Some (s <| sy_setup := (sy_setup s) <| h_writeRecord := false |> |>) else None
  | CaseParams, Some (ParamsReady data) =>
      Some (s <| sy_pending := None |> <| sy_setup := tell (sy_setup s) (OnReceivedParams data) |>)
  | CaseReadKey, Some ReadKeyReady | CaseWriteKey, Some WriteKeyReady => Some (s <| sy_pending := None |>)
  | _, _ => None
  end.

(** After a case: the rest of the function. *)
Definition after_case (s : system) (go : bool) (sels : list select) (result : bool) : system :=
  if go then selecting s sels result else returns s false.

(** A step of the TLS stack, unless it is blocked or has returned. *)
Definition tls_next (s : system) : option (outcome system) :=
  match sy_pending s, sy_tls s with
  | None, act :: acts =>
      let h := sy_setup s in
      let s := s <| sy_tls := acts |> in
      match act with
      | ReadMessage =>
          match h_messageChan h with
          | _ :: ms => Some (mret (s <| sy_setup := h <| h_messageChan := ms |> |>))
          | [] =>
              (* Close has closed the channel: the handshake returns with an error *)
              if h_closed h then Some (mret (s <| sy_tls := [] |> <| sy_setup := h <| h_handshakeDone := true |> |>)) else None
          end
      | WriteMessage p =>
          match WriteRecord h p with
          | Ret (Some h) => Some (mret (s <| sy_setup := h |>))
          | Ret None => None
          | Error err => Some (Error err)
          | Panic msg => Some (Panic msg)
          end
      | InstallReadKey suite secret =>
          Some (h ← SetReadKey h suite secret; mret (s <| sy_setup := h |> <| sy_pending := Some ReadKeyReady |>))
      | InstallWriteKey suite secret =>
          Some (h ← SetWriteKey h suite secret; mret (s <| sy_setup := h |> <| sy_pending := Some WriteKeyReady |>))
      | GotExtensions msgType exts =>
          Some (mret (s <| sy_pending := ParamsReady <$> ReceivedExtensions (h_perspective h) msgType exts |>))
      | Alert alert err =>
          Some (mret (s <| sy_tls := [] |>
                        <| sy_setup := tell (h <| h_handshakeDone := true |>) (OnError (CryptoError alert err)) |>))
      | Complete => Some (mret (s <| sy_tls := [] |> <| sy_setup := tell (h <| h_handshakeDone := true |>) OnHandshakeComplete |>))
      end
  | _, _ => None
  end.

(** The steps of the session's goroutine: several cases of a select can be ready. *)
Definition handler_next (s : system) : list (outcome system) :=
  match sy_handler s with
  | Returned =>
      match sy_inputs s with
      | [] => []
      | (data, encLevel) :: inputs => [HandleMessage (s <| sy_inputs := inputs |>) data encLevel]
      end
  | SendMessage data encLevel =>
      if (length (h_messageChan (sy_setup s)) <? messageChanCap)%nat then [mret (message_sent s data encLevel)] else []
  | PostHandshake data => if h_handshakeDone (sy_setup s) then [mret (handlePostHandshakeMessage s data)] else []
  | Selecting [] result => [mret (returns s result)]
  | Selecting (sel :: sels) result =>
      omap (fun '(c, go) => (fun s => mret (after_case s go sels result)) <$> take_case s c) sel ++
      (if h_handshakeDone (sy_setup s) then [mret (returns s false)] else [])
  end.

Definition hs_nexts (s : system) : list (outcome system) :=
  match tls_next s with Some r => [r] | None => [] end ++ handler_next s.

Definition hs_step (s s' : system) : Prop := Ret s' ∈ hs_nexts s.

(** [Close], up to the wait for the stack. *)
Definition setup_Close (h : cryptoSetup) : cryptoSetup := h <| h_closed := true |>.

(** One schedule: the stack goes first, and the first ready case of a select is taken. *)
Fixpoint run_system (fuel : nat) (s : system) : outcome system :=
  match fuel with
  | O => Panic "out of fuel"
  | S fuel => match hs_nexts s with [] => mret s | r :: _ => s ← r; run_system fuel s end
  end.

End Keys.

(** ** Keys: properties *)

Section KeyProofs.
Variable lib : cryptoLibrary.

(** The keys of the two ends, from the same secret. *)
Lemma traffic_keys_match suite secret aead hp is1RTT :
  traffic_keys lib suite secret = Ret (aead, hp) -> matching (mkSealer aead hp is1RTT) (mkOpener aead hp is1RTT).
Proof. done. Qed.

(** The Initial keys of a connection: from the connection ID alone, a client and a server derive keys such
    that each can open what the other one seals. *)
Theorem initial_keys_match connID sc oc ss os :
  NewInitialAEAD lib connID PerspectiveClient = Ret (sc, oc) -> NewInitialAEAD lib connID PerspectiveServer = Ret (ss, os) ->
  matching sc os /\ matching ss oc.
Proof.
  unfold NewInitialAEAD, computeSecrets, computeInitialKeyAndIV.
  rewrite bool_decide_eq_true_2, bool_decide_eq_false_2 by done. cbn.
  destruct (NewCipher _ _) as [b1| |] eqn:E1; cbn; try done. destruct (NewCipher _ (HkdfExpandLabel _ _ _ _)) as [b2| |] eqn:E2 in |- *; cbn; try done.
  all: intros [= <- <-].
  all: rewrite ?E1, ?E2; cbn; try done. intros [= <- <-]. done.
Qed.

(** The steps that change keys: those of the stack, and the acknowledgement of a 1-RTT packet, which was sent with
    a 1-RTT sealer and arrived in a packet opened with a 1-RTT opener. *)
Inductive key_step : cryptoSetup -> cryptoSetup -> Prop :=
| key_read h suite secret h' : SetReadKey lib h suite secret = Ret h' -> key_step h h'
| key_write h suite secret h' : SetWriteKey lib h suite secret = Ret h' -> key_step h h'
| key_acked h : is_Some (h_opener h) -> is_Some (h_sealer h) -> key_step h (Received1RTTAck h).

Record keys_ok (h : cryptoSetup) : Prop := {
  ko_read : match h_readEncLevel h with
            | EncryptionInitial => is_Some (h_initialOpener h) /\ h_handshakeOpener h = None /\ h_opener h = None
            | EncryptionHandshake => is_Some (h_initialOpener h) /\ is_Some (h_handshakeOpener h) /\ h_opener h = None
            | Encryption1RTT => (h_initialOpener h = None <-> h_handshakeOpener h = None) /\ is_Some (h_opener h)
            | EncryptionUnspecified => False
            end;
  ko_write : match h_writeEncLevel h with
             | EncryptionInitial => is_Some (h_initialSealer h) /\ h_handshakeSealer h = None /\ h_sealer h = None
             | EncryptionHandshake => is_Some (h_initialSealer h) /\ is_Some (h_handshakeSealer h) /\ h_sealer h = None
             | Encryption1RTT => is_Some (h_sealer h)
             | EncryptionUnspecified => False
             end
}.

Lemma new_keys_ok connID pers h : newCryptoSetup lib connID pers = Ret h -> keys_ok h.
Proof.
  unfold newCryptoSetup. destruct (NewInitialAEAD _ _ _) as [[s o]| |]; cbn; try done. intros [= <-]. split; cbn; eauto.
Qed.

(** The opener of a level after a step: it stays, it is dropped, or it is installed. *)
Definition opener_step (h h' : cryptoSetup) (lvl : EncryptionLevel) : Prop :=
  GetOpener h' lvl = GetOpener h lvl \/ (exists o, GetOpener h lvl = Ret o) /\ GetOpener h' lvl = Error ErrKeysDropped \/
  GetOpener h lvl = Error ErrOpenerNotYetAvailable /\ exists o, GetOpener h' lvl = Ret o.

Ltac key_cases :=
  repeat match goal with
  | H : is_Some ?x |- _ => let y := fresh in destruct H as [y H]
  | H : _ /\ _ |- _ => destruct H
  | H : ?x = Some _ |- context [?x] => rewrite H
  | H : ?x = None |- context [?x] => rewrite H
  end.

Lemma read_key_ok h suite secret h' lvl :
  keys_ok h -> SetReadKey lib h suite secret = Ret h' -> keys_ok h' /\ opener_step h h' lvl.
Proof.
  intros [Hr Hw] E. unfold SetReadKey in E. destruct (traffic_keys _ _ _) as [[a hp]| |]; cbn in E; try done.
  destruct (h_readEncLevel h) eqn:El; try done; injection E as <-.
  - destruct Hr as ([o Ho] & Hh & H1). split; [split; cbn; eauto|].
    unfold opener_step, GetOpener; destruct lvl; cbn; rewrite ?Ho, ?Hh, ?H1; eauto 6.
  - destruct Hr as ([o Ho] & [o2 Hh] & H1). split; [split; cbn; [rewrite Ho, Hh|]; eauto; done|].
    unfold opener_step, GetOpener; destruct lvl; cbn; rewrite ?Ho, ?Hh, ?H1; eauto 6.
Qed.

Lemma write_key_ok h suite secret h' lvl :
  keys_ok h -> SetWriteKey lib h suite secret = Ret h' -> keys_ok h' /\ opener_step h h' lvl.
Proof.
  intros [Hr Hw] E. unfold SetWriteKey in E. destruct (traffic_keys _ _ _) as [[a hp]| |]; cbn in E; try done.
  destruct (h_writeEncLevel h) eqn:El; try done; injection E as <-; (split; [|by left]).
  - destruct Hw as (Hi & Hh & H1). split; cbn; eauto.
  - split; cbn; eauto.
Qed.

Lemma acked_ok h lvl :
  keys_ok h -> is_Some (h_opener h) -> is_Some (h_sealer h) ->
  keys_ok (Received1RTTAck h) /\ opener_step h (Received1RTTAck h) lvl.
Proof.
  intros [Hr Hw] [o Ho] [s Hs].
  assert (El : h_readEncLevel h = Encryption1RTT) by (destruct (h_readEncLevel h); naive_solver congruence).
  assert (Ew : h_writeEncLevel h = Encryption1RTT) by (destruct (h_writeEncLevel h); naive_solver congruence).
  rewrite El in Hr. destruct Hr as [Hr _]. unfold Received1RTTAck, tell.
  destruct (h_initialOpener h) as [oi|] eqn:Ei, (h_handshakeOpener h) as [oh|] eqn:Eh; cbn; rewrite ?Ei, ?Eh; cbn.
  - split; [split; cbn; rewrite ?El, ?Ew; eauto; done|].
    unfold opener_step, GetOpener; destruct lvl; cbn; rewrite ?Ei, ?Eh; eauto 6.
  - naive_solver.
  - naive_solver.
  - split; [split; rewrite ?El, ?Ew; eauto; by rewrite Ei, Eh|by left].
Qed.

Lemma key_step_ok h h' lvl : keys_ok h -> key_step h h' -> keys_ok h' /\ opener_step h h' lvl.
Proof. intros Hk Hs. destruct Hs; [by eapply read_key_ok|by eapply write_key_ok|by apply acked_ok]. Qed.

Lemma key_steps_ok h h' : keys_ok h -> rtc key_step h h' -> keys_ok h'.
Proof. intros Hk Hs. induction Hs as [|h1 h2 h3 H1 _ IH]; [done|]. apply IH. by eapply (key_step_ok _ _ EncryptionInitial). Qed.

(** What later steps can make of the opener of a level. *)
Definition opener_later (x x' : outcome opener) : Prop :=
  match x with
  | Ret o => x' = Ret o \/ x' = Error ErrKeysDropped
  | Error err => err = ErrOpenerNotYetAvailable \/ x' = Error err
  | Panic _ => False
  end.

Lemma opener_later_step h h1 h2 lvl :
  opener_step h h1 lvl -> opener_later (GetOpener h1 lvl) (GetOpener h2 lvl) -> opener_later (GetOpener h lvl) (GetOpener h2 lvl).
Proof.
  intros [E|[[[o E] E1]|[E [o E1]]]] Hl; rewrite ?E, ?E1 in *; cbn in *; try done.
  - right. by destruct Hl.
  - by left.
Qed.

(** C34. Keys appear once and never come back: when the keys of an encryption level were dropped they are reported as dropped
    for ever, and a level whose opener is available keeps that very opener until it is dropped; "not yet available" never
    follows either. (A Retry, which replaces the Initial keys of a client, is not among these steps.) At any time there is a sealer for the level that is written at. *)
Theorem key_lifecycle connID pers h0 h h' lvl :
  newCryptoSetup lib connID pers = Ret h0 -> rtc key_step h0 h -> rtc key_step h h' ->
  opener_later (GetOpener h lvl) (GetOpener h' lvl) /\
  exists s, setup_GetSealer h = (h_writeEncLevel h, Some s).
Proof.
  intros E H1 H2. pose proof (key_steps_ok _ _ (new_keys_ok _ _ _ E) H1) as Hk. split.
  - clear -Hk H2. induction H2 as [h|h1 h2 h3 Hs _ IH].
    + unfold GetOpener. destruct lvl; cbn; repeat case_match; cbn; auto.
    + destruct (key_step_ok _ _ lvl Hk Hs) as [Hk2 Ho]. eapply opener_later_step; eauto.
  - destruct Hk as [_ Hw]. unfold setup_GetSealer. destruct (h_writeEncLevel h); try done; key_cases; eauto.
Qed.

End KeyProofs.

(** ** The conversation: properties *)

Section Conversation.
Variable lib : cryptoLibrary.
Variable pers : Perspective.

(** What the conversation depends on of the state. *)
Record ctl := mkCtl {
  c_read : EncryptionLevel;
  c_write : EncryptionLevel;
  c_token : bool;
  c_done : bool;
  c_params : list bytes
}.

#[global] Instance ctl_eta : Eta ctl := fun c => mkCtl (c_read c) (c_write c) (c_token c) (c_done c) (c_params c).

Definition params_of (evs : list hsEvent) : list bytes :=
  omap (fun ev => match ev with OnReceivedParams data => Some data | _ => None end) evs.

#[local] Arguments params_of : simpl never.

Record ctl_ok (c : ctl) (h : cryptoSetup) : Prop := {
  ct_read : h_readEncLevel h = c_read c;
  ct_write : h_writeEncLevel h = c_write c;
  ct_token : h_writeRecord h = c_token c;
  ct_done : h_handshakeDone h = c_done c;
  ct_params : params_of (h_events h) = c_params c;
  ct_pers : h_perspective h = pers;
  ct_hello : pers = PerspectiveServer \/ h_clientHelloWritten h = true;
  ct_open : h_closed h = false;
  ct_keys : keys_ok h
}.

Definition next_level (lvl : EncryptionLevel) : option EncryptionLevel :=
  match lvl with EncryptionInitial => Some EncryptionHandshake | EncryptionHandshake => Some Encryption1RTT | _ => None end.

Definition signal_of (r : rendezvous) : selectCase :=
  match r with ReadKeyReady => CaseReadKey | WriteKeyReady => CaseWriteKey | ParamsReady _ => CaseParams end.

Definition with_signal (c : ctl) (r : rendezvous) : ctl :=
  match r with ParamsReady data => c <| c_params := c_params c ++ [data] |> | _ => c end.

(** What the stack does after a message follows what [HandleMessage] waits for: [follows c p acts sels res c' r] when
    the stack is sending [p] and then does [acts], the selects [sels] are left, after which
    [res] is returned; in the end the state is [c'] and [r] was returned. *)
Inductive follows : ctl -> option rendezvous -> list tlsAction -> list select -> bool -> ctl -> bool -> Prop :=
| fo_end c res : follows c None [] [] res c res
| fo_complete c res : c_done c = false -> follows c None [Complete] [] res (c <| c_done := true |>) res
| fo_write c p acts sels res c' r :
    c_write c = EncryptionHandshake \/ c_write c = Encryption1RTT -> follows c None acts sels res c' r ->
    follows c None (WriteMessage p :: acts) sels res c' r
| fo_hello c p acts c0 sels res c' r :     (* a record that nobody waits for *)
    c_write c = EncryptionInitial -> c_token c = false -> follows (c <| c_token := true |>) None acts ([(c0, true)] :: sels) res c' r ->
    c0 <> CaseWriteRecord ->
    follows c None (WriteMessage p :: acts) ([(c0, true)] :: sels) res c' r
| fo_retry c p c0 sels res :
    c_write c = EncryptionInitial -> c_token c = false -> c0 <> CaseWriteRecord ->
    follows c None [WriteMessage p] ([(CaseWriteRecord, false); (c0, true)] :: sels) res c false
| fo_token c c0 sels res :
    c_write c = EncryptionInitial -> c_token c = true -> c0 <> CaseWriteRecord ->
    follows c None [] ([(CaseWriteRecord, false); (c0, true)] :: sels) res (c <| c_token := false |>) false
| fo_read_key c suite secret keys lvl acts sels res c' r :
    traffic_keys lib suite secret = Ret keys -> next_level (c_read c) = Some lvl -> sels <> [] ->
    follows (c <| c_read := lvl |>) (Some ReadKeyReady) acts sels res c' r ->
    follows c None (InstallReadKey suite secret :: acts) sels res c' r
| fo_write_key c suite secret keys lvl acts sels res c' r :
    traffic_keys lib suite secret = Ret keys -> next_level (c_write c) = Some lvl -> sels <> [] ->
    follows (c <| c_write := lvl |>) (Some WriteKeyReady) acts sels res c' r ->
    follows c None (InstallWriteKey suite secret :: acts) sels res c' r
| fo_params c msgType exts data acts sels res c' r :
    ReceivedExtensions pers msgType exts = Some data -> sels <> [] ->
    follows c (Some (ParamsReady data)) acts sels res c' r ->
    follows c None (GotExtensions msgType exts :: acts) sels res c' r
| fo_sync c p acts sel sels res c' r :
    sel = [(signal_of p, true)] \/ sel = [(CaseWriteRecord, false); (signal_of p, true)] /\ c_token c = false ->
    follows (with_signal c p) None acts sels res c' r ->
    follows c (Some p) acts (sel :: sels) res c' r.

(** A message, and what the stack does when it has read it. *)
Record exchange := mkExchange {
  ex_data : bytes;
  ex_level : EncryptionLevel;
  ex_acts : list tlsAction;
  ex_result : bool
}.

Record exchange_ok (c : ctl) (x : exchange) (c' : ctl) : Prop := {
  eo_msg : ex_data x <> [];
  eo_level : checkEncryptionLevel (hd 0 (ex_data x)) (ex_level x) = None;
  eo_handshake : ex_level x <> Encryption1RTT;
  eo_follows : follows c None (ex_acts x) (message_plan pers (hd 0 (ex_data x))).1 (message_plan pers (hd 0 (ex_data x))).2 c' (ex_result x);
  eo_silent : (message_plan pers (hd 0 (ex_data x))).1 = [] -> ex_acts x = [];
  eo_token : c_token c = true -> Forall (fun sel => CaseWriteRecord ∉ sel.*1) (message_plan pers (hd 0 (ex_data x))).1
}.

Inductive chained : ctl -> list exchange -> ctl -> Prop :=
| ch_nil c : chained c [] c
| ch_cons c x c1 xs c' : c_done c = false -> exchange_ok c x c1 -> chained c1 xs c' -> chained c (x :: xs) c'.

Definition input (x : exchange) : bytes * EncryptionLevel := (ex_data x, ex_level x).
Definition script (xs : list exchange) : list tlsAction := flat_map (fun x => ReadMessage :: ex_acts x) xs.

(** Where a system is in a conversation that ends in [cend] with the results [rs]. *)
Inductive talking (cend : ctl) (rs : list bool) : system -> Prop :=
| ta_idle c acts k c1 xs h results post chan res r :
    ctl_ok c h -> follows c None acts [] res c1 r -> chained c1 xs cend -> (c_done c1 = true -> k = 0%nat) ->
    h_messageChan h = chan -> length chan = k -> results ++ map ex_result xs = rs ->
    talking cend rs (mkSystem h (acts ++ replicate k ReadMessage ++ script xs) None Returned (map input xs) results post)
| ta_send c acts k c1 x xs h results post chan res r :
    ctl_ok c h -> follows c None acts [] res c1 r -> chained c1 (x :: xs) cend ->
    h_messageChan h = chan -> length chan = k -> results ++ map ex_result (x :: xs) = rs ->
    talking cend rs (mkSystem h (acts ++ replicate k ReadMessage ++ script (x :: xs)) None
                       (SendMessage (ex_data x) (ex_level x)) (map input xs) results post)
| ta_wait c acts k c1 x xs h results post chan sel sels res res0 r :
    ctl_ok c h -> follows c None acts [] res0 c1 r -> chained c1 (x :: xs) cend ->
    message_plan pers (hd 0 (ex_data x)) = (sel :: sels, res) ->
    h_messageChan h = chan -> length chan = S k -> results ++ map ex_result (x :: xs) = rs ->
    talking cend rs (mkSystem h (acts ++ replicate k ReadMessage ++ script (x :: xs)) None
                       (Selecting (sel :: sels) res) (map input xs) results post)
| ta_run c p acts c1 xs h results post sel sels res r :
    ctl_ok c h -> c_done c = false -> follows c p acts (sel :: sels) res c1 r -> chained c1 xs cend ->
    h_messageChan h = [] -> results ++ r :: map ex_result xs = rs ->
    talking cend rs (mkSystem h (acts ++ script xs) p (Selecting (sel :: sels) res) (map input xs) results post).

(** The end of the conversation. *)
Definition talked (cend : ctl) (rs : list bool) (s : system) : Prop :=
  ctl_ok cend (sy_setup s) /\ sy_tls s = [] /\ sy_pending s = None /\ sy_handler s = Returned /\ sy_inputs s = [] /\
  sy_results s = rs.

Lemma keys_ok_frame h h' :
  h_readEncLevel h' = h_readEncLevel h -> h_writeEncLevel h' = h_writeEncLevel h -> h_initialOpener h' = h_initialOpener h ->
  h_initialSealer h' = h_initialSealer h -> h_handshakeOpener h' = h_handshakeOpener h -> h_opener h' = h_opener h ->
  h_handshakeSealer h' = h_handshakeSealer h -> h_sealer h' = h_sealer h -> keys_ok h -> keys_ok h'.
Proof. intros E1 E2 E3 E4 E5 E6 E7 E8 [Hr Hw]. split; rewrite ?E1, ?E2, ?E3, ?E4, ?E5, ?E6, ?E7, ?E8; done. Qed.

Lemma params_of_app evs ev :
  params_of (evs ++ [ev]) = params_of evs ++ match ev with OnReceivedParams data => [data] | _ => [] end.
Proof. unfold params_of. rewrite omap_app. by destruct ev. Qed.

Ltac ctl_frame :=
  split; cbn in *; rewrite ?params_of_app, ?app_nil_r; cbn; rewrite ?app_nil_r; auto; try congruence;
  try match goal with K : keys_ok ?h |- keys_ok _ => by apply (keys_ok_frame h) end.

Lemma token_taken c : c_token c = false -> c <| c_token := true |> <| c_token := false |> = c.
Proof. destruct c. cbn. intros ->. done. Qed.

Lemma no_hello h :
  h_perspective h = pers -> pers = PerspectiveServer \/ h_clientHelloWritten h = true ->
  negb (h_clientHelloWritten h) && bool_decide (h_perspective h = PerspectiveClient) = false.
Proof. intros -> [E|E]; rewrite E; [apply andb_false_r|done]. Qed.

Lemma read_key_next h suite secret keys lvl :
  traffic_keys lib suite secret = Ret keys -> next_level (h_readEncLevel h) = Some lvl ->
  exists h', SetReadKey lib h suite secret = Ret h' /\ h_messageChan h' = h_messageChan h /\
    forall c, ctl_ok c h -> ctl_ok (c <| c_read := lvl |>) h'.
Proof.
  intros E En. destruct keys as [aead hp].
  assert (Hs : exists h', SetReadKey lib h suite secret = Ret h' /\ h_messageChan h' = h_messageChan h /\
    forall c, ctl_ok c h -> keys_ok h' -> ctl_ok (c <| c_read := lvl |>) h').
  { unfold SetReadKey. rewrite E. cbn. destruct (h_readEncLevel h) eqn:El; try done; injection En as <-;
      eexists; (split; [reflexivity|]); (split; [done|]); intros c [] Hk; split; cbn in *; congruence || done. }
  destruct Hs as (h' & E' & Hm & Hc). exists h'. split_and!; try done. intros c Hok. apply Hc; [done|].
  by eapply (read_key_ok lib h suite secret h' EncryptionInitial); [apply Hok|].
Qed.

Lemma write_key_next h suite secret keys lvl :
  traffic_keys lib suite secret = Ret keys -> next_level (h_writeEncLevel h) = Some lvl ->
  exists h', SetWriteKey lib h suite secret = Ret h' /\ h_messageChan h' = h_messageChan h /\
    forall c, ctl_ok c h -> ctl_ok (c <| c_write := lvl |>) h'.
Proof.
  intros E En. destruct keys as [aead hp].
  assert (Hs : exists h', SetWriteKey lib h suite secret = Ret h' /\ h_messageChan h' = h_messageChan h /\
    forall c, ctl_ok c h -> keys_ok h' -> ctl_ok (c <| c_write := lvl |>) h').
  { unfold SetWriteKey. rewrite E. cbn. destruct (h_writeEncLevel h) eqn:El; try done; injection En as <-;
      eexists; (split; [reflexivity|]); (split; [done|]); intros c [] Hk; split; cbn in *; congruence || done. }
  destruct Hs as (h' & E' & Hm & Hc). exists h'. split_and!; try done. intros c Hok. apply Hc; [done|].
  by eapply (write_key_ok lib h suite secret h' EncryptionInitial); [apply Hok|].
Qed.

(** A step of the stack inside what follows a message. *)
Lemma tls_follow c act acts rest sels res c' r h hd ins rs post :
  ctl_ok c h -> follows c None (act :: acts) sels res c' r -> (act = Complete -> rest = []) ->
  exists h' p' c2, tls_next lib (mkSystem h (act :: acts ++ rest) None hd ins rs post) =
      Some (Ret (mkSystem h' (acts ++ rest) p' hd ins rs post)) /\
    ctl_ok c2 h' /\ follows c2 p' acts sels res c' r /\ h_messageChan h' = h_messageChan h /\
    (sels = [] -> p' = None) /\ (sels <> [] -> c_done c2 = c_done c).
Proof.
  intros Hc Hf Hr. destruct Hc as [H1 H2 H3 H4 H5 H6 H7 H8 H9].
  inversion Hf; subst; unfold tls_next, WriteRecord; cbn.
  - rewrite Hr by done. eexists _, None, (c <| c_done := true |>). split; [reflexivity|]. split; [ctl_frame|]. split; [constructor|done].
  - destruct_or!; rewrite H2; match goal with H : c_write _ = _ |- _ => rewrite H end; cbn;
      eexists _, None, c; (split; [reflexivity|]); (split; [|by split_and!]); ctl_frame.
  - rewrite H2. match goal with H : c_write _ = _ |- _ => rewrite H end. cbn. rewrite (no_hello h), H3 by done.
    match goal with H : c_token _ = _ |- _ => rewrite H end.
    eexists _, None, (c <| c_token := true |>). split; [reflexivity|]. split; [|split; [eassumption|done]]. ctl_frame.
  - rewrite H2. match goal with H : c_write _ = _ |- _ => rewrite H end. cbn. rewrite (no_hello h), H3 by done.
    match goal with H : c_token _ = _ |- _ => rewrite H end.
    eexists _, None, (c' <| c_token := true |>). split; [reflexivity|]. split; [ctl_frame|]. split; [|done].
    rewrite <- (token_taken c') at 2 by done. by apply fo_token.
  - destruct (read_key_next h suite secret keys lvl) as (h' & E & Hm & Hc'); [done|congruence|]. rewrite E. cbn.
    eexists h', (Some ReadKeyReady), (c <| c_read := lvl |>). split; [reflexivity|].
    split; [apply Hc'; by split|]. by split_and!.
  - destruct (write_key_next h suite secret keys lvl) as (h' & E & Hm & Hc'); [done|congruence|]. rewrite E. cbn.
    eexists h', (Some WriteKeyReady), (c <| c_write := lvl |>). split; [reflexivity|].
    split; [apply Hc'; by split|]. by split_and!.
  - rewrite H6. match goal with H : ReceivedExtensions _ _ _ = _ |- _ => rewrite H end. cbn.
    eexists h, (Some (ParamsReady data)), c. split; [reflexivity|]. split; [by split|]. done.
Qed.

Lemma ctl_ok_chan c h ms : ctl_ok c h -> ctl_ok c (h <| h_messageChan := ms |>).
Proof. intros [H1 H2 H3 H4 H5 H6 H7 H8 H9]. ctl_frame. Qed.

Lemma local_follow c acts res c1 r :
  follows c None acts [] res c1 r -> c_token c1 = c_token c /\ (c_done c1 = false -> c_done c = false).
Proof.
  intros Hf. remember None as p eqn:Ep. remember [] as sels eqn:Es. revert Ep Es.
  induction Hf; intros Ep Es; try done; simplify_eq; cbn; auto.
Qed.

Lemma follows_complete c acts sels res c' r : follows c None (Complete :: acts) sels res c' r -> c_done c' = true.
Proof. intros Hf. by inversion Hf. Qed.

(** The steps of the stack before it gets to the message that [HandleMessage] deals with. *)
Lemma tls_outer (Q : system -> Prop) T hd ins results post c acts k e c1 h res r :
  ctl_ok c h -> follows c None acts [] res c1 r -> length (h_messageChan h) = (k + e)%nat ->
  (c_done c1 = true -> k = 0%nat /\ T = []) ->
  (forall c' acts' k' h', ctl_ok c' h' -> follows c' None acts' [] res c1 r -> length (h_messageChan h') = (k' + e)%nat ->
     (c_done c1 = true -> k' = 0%nat) -> Q (mkSystem h' (acts' ++ replicate k' ReadMessage ++ T) None hd ins results post)) ->
  acts <> [] \/ k <> 0%nat ->
  exists s', tls_next lib (mkSystem h (acts ++ replicate k ReadMessage ++ T) None hd ins results post) = Some (Ret s') /\ Q s'.
Proof.
  intros Hc Hf Hl Hd HQ Hne. destruct acts as [|a acts].
  - destruct k as [|k]; [naive_solver|]. destruct (h_messageChan h) as [|m ms] eqn:Em; [done|].
    eexists. unfold tls_next. cbn. rewrite Em. split; [reflexivity|]. apply (HQ c [] k); [by apply ctl_ok_chan|done| |].
    + cbn in *. lia.
    + intros E. destruct (Hd E). done.
  - destruct (tls_follow c a acts (replicate k ReadMessage ++ T) [] res c1 r h hd ins results post Hc Hf)
      as (h' & p' & c2 & E & Hc2 & Hf2 & Hm & Hp & _).
    { intros ->. destruct (Hd (follows_complete _ _ _ _ _ _ Hf)) as [-> ->]. done. }
    rewrite (Hp eq_refl) in *. eexists. split; [exact E|]. apply (HQ c2 acts k); try done; [congruence|naive_solver].
Qed.

(** Every step stays in the conversation, and only its end has none. *)
Definition goes_on (cend : ctl) (rs : list bool) (s : system) : Prop :=
  Forall (fun o => exists s', o = Ret s' /\ talking cend rs s') (hs_nexts lib s) /\ (hs_nexts lib s = [] -> talked cend rs s).

Lemma goes_on_both cend rs s s1 : tls_next lib s = Some (Ret s1) -> talking cend rs s1 ->
  Forall (fun o => exists s', o = Ret s' /\ talking cend rs s') (handler_next s) -> goes_on cend rs s.
Proof. intros E Ht Hh. unfold goes_on, hs_nexts. rewrite E. split; [|done]. constructor; eauto. Qed.

Lemma goes_on_handler cend rs s : tls_next lib s = None -> handler_next s <> [] ->
  Forall (fun o => exists s', o = Ret s' /\ talking cend rs s') (handler_next s) -> goes_on cend rs s.
Proof. intros E Hn Hh. unfold goes_on, hs_nexts. rewrite E. cbn. done. Qed.

Lemma tls_waits s xs : h_closed (sy_setup s) = false -> h_messageChan (sy_setup s) = [] -> sy_tls s = script xs -> tls_next lib s = None.
Proof.
  intros Hc Hm Ht. unfold tls_next. rewrite Ht. destruct (sy_pending s); [done|]. destruct xs as [|x xs]; [done|]. cbn. by rewrite Hm, Hc.
Qed.

(** The first message of what is left can be handled. *)
Lemma start_message cend rs c c1 x xs h acts res r k results post :
  ctl_ok c h -> follows c None acts [] res c1 r -> chained c1 (x :: xs) cend -> length (h_messageChan h) = k ->
  results ++ map ex_result (x :: xs) = rs ->
  Forall (fun o => exists s', o = Ret s' /\ talking cend rs s')
    (handler_next (mkSystem h (acts ++ replicate k ReadMessage ++ script (x :: xs)) None Returned (map input (x :: xs)) results post)).
Proof.
  intros Hc Hf Hch Hl Hrs. inversion Hch as [|? ? c2 ? ? Hd [Hmsg Hlvl H1 Hfo Hs Ht] Hch']; subst. cbn.
  apply Forall_singleton. unfold HandleMessage. destruct (ex_data x) as [|mt data] eqn:Ed; [done|].
  cbn in Hlvl. rewrite Hlvl. cbn. eexists. split; [reflexivity|]. rewrite <- Ed. by eapply ta_send.
Qed.

Lemma idle_next cend rs c acts k c1 xs h results post res r :
  ctl_ok c h -> follows c None acts [] res c1 r -> chained c1 xs cend -> (c_done c1 = true -> k = 0%nat) ->
  length (h_messageChan h) = k -> results ++ map ex_result xs = rs ->
  goes_on cend rs (mkSystem h (acts ++ replicate k ReadMessage ++ script xs) None Returned (map input xs) results post).
Proof.
  intros Hc Hf Hch Hd Hl Hrs.
  assert (Hh : Forall (fun o => exists s', o = Ret s' /\ talking cend rs s')
    (handler_next (mkSystem h (acts ++ replicate k ReadMessage ++ script xs) None Returned (map input xs) results post))).
  { destruct xs as [|x xs]; [constructor|]. by eapply start_message. }
  destruct (decide (acts = [] /\ k = 0%nat)) as [[Ha Hk]|Hne].
  - rewrite Ha, Hk in *. apply nil_length_inv in Hl. cbn [app replicate] in *.
    inversion Hf; subst. destruct xs as [|x xs].
    + inversion Hch; subst. split; [constructor|]. intros _. cbn. rewrite app_nil_r. by split_and!.
    + apply goes_on_handler; [|done|done]. by eapply (tls_waits _ (x :: xs)); [apply Hc|..].
  - edestruct (tls_outer (talking cend rs) (script xs) Returned (map input xs) results post c acts k 0) as (s' & E & Ht); try done.
    + lia.
    + intros E. split; [auto|]. destruct xs; [done|]. inversion Hch; congruence.
    + intros c' acts' k' h' Hc' Hf' Hl' Hd'. eapply ta_idle; eauto. lia.
    + destruct (decide (acts = [])); naive_solver.
    + by eapply goes_on_both.
Qed.

Lemma token_follow c p acts sel sels res c1 r :
  follows c p acts (sel :: sels) res c1 r -> c_token c = true -> CaseWriteRecord ∈ sel.*1 ->
  p = None /\ acts = [] /\ c_write c = EncryptionInitial.
Proof.
  intros Hf. remember (sel :: sels) as ss eqn:Es. revert sel sels Es.
  induction Hf; intros sel0 sels0 Es Ht Hw; simplify_eq; try done.
  - destruct (IHHf _ _ eq_refl Ht Hw) as (_ & _ & E). rewrite E in *. by destruct_or!.
  - apply list_elem_of_singleton in Hw. done.
  - congruence.
  - destruct (IHHf _ _ eq_refl Ht Hw) as (E & _). done.
  - destruct (IHHf _ _ eq_refl Ht Hw) as (E & _). done.
  - destruct (IHHf _ _ eq_refl Ht Hw) as (E & _). done.
  - destruct_or!; [|by destruct_and!; congruence]. subst. apply list_elem_of_singleton in Hw. by destruct p.
Qed.

Lemma returned_follow c acts res c1 r : follows c None acts [] res c1 r -> r = res.
Proof.
  intros Hf. remember None as p eqn:Ep. remember [] as sels eqn:Es. revert Ep Es. induction Hf; intros Ep Es; try done; simplify_eq; auto.
Qed.

Lemma replicate_read k T : replicate k ReadMessage ++ ReadMessage :: T = replicate (S k) ReadMessage ++ T.
Proof. induction k as [|k IH]; [done|]. cbn. by rewrite IH. Qed.

Lemma send_next cend rs c acts k c1 x xs h results post res r :
  ctl_ok c h -> follows c None acts [] res c1 r -> chained c1 (x :: xs) cend ->
  length (h_messageChan h) = k -> results ++ map ex_result (x :: xs) = rs ->
  goes_on cend rs (mkSystem h (acts ++ replicate k ReadMessage ++ script (x :: xs)) None
                     (SendMessage (ex_data x) (ex_level x)) (map input xs) results post).
Proof.
  intros Hc Hf Hch Hl Hrs. set (s := mkSystem _ _ _ _ _ _ _).
  assert (Hh : Forall (fun o => exists s', o = Ret s' /\ talking cend rs s') (handler_next s)).
  { subst s. cbn [handler_next sy_handler]. case_match; [|constructor]. apply Forall_singleton. eexists. split; [reflexivity|].
    unfold message_sent. pose proof Hch as Hch0. inversion Hch as [|? ? c2 ? ? Hd [Hmsg Hlvl H1 Hfo Hs Ht] Hch']; subst.
    rewrite bool_decide_eq_false_2 by done. cbn. rewrite (ct_pers _ _ Hc).
    destruct (message_plan pers _) as [[|sel sels] res'] eqn:Em; cbn in *.
    - rewrite (Hs eq_refl) in *. inversion Hfo; subst. cbn. rewrite replicate_read.
      eapply (ta_idle cend _ c acts (S (length (h_messageChan h)))); try done; [by apply ctl_ok_chan|congruence| |].
      + cbn. rewrite length_app. cbn. lia.
      + rewrite <- app_assoc. cbn. by f_equal.
    - eapply ta_wait; try done; [by apply ctl_ok_chan|]. cbn. rewrite length_app. cbn. lia. }
  destruct (decide (acts = [] /\ k = 0%nat)) as [[Ha Hk]|Hne].
  - apply goes_on_handler; [|subst s; cbn; by rewrite Hl, Hk|done].
    apply (tls_waits s (x :: xs)); subst s; cbn; [apply Hc| |by rewrite Ha, Hk]. apply nil_length_inv. congruence.
  - edestruct (tls_outer (talking cend rs) (script (x :: xs)) (SendMessage (ex_data x) (ex_level x)) (map input xs) results post c acts k 0)
      as (s' & E & Ht); try done.
    + lia.
    + inversion Hch; congruence.
    + intros c' acts' k' h' Hc' Hf' Hl' Hd'. eapply ta_send; eauto. lia.
    + destruct (decide (acts = [])); naive_solver.
    + by eapply goes_on_both.
Qed.

Lemma no_case_ready h acts sel sels res ins results post :
  h_handshakeDone h = false -> (h_writeRecord h = true -> CaseWriteRecord ∉ sel.*1) ->
  handler_next (mkSystem h acts None (Selecting (sel :: sels) res) ins results post) = [].
Proof.
  intros Hd Ht. cbn. rewrite Hd, app_nil_r. set (s := mkSystem _ _ _ _ _ _ _).
  assert (Hs : sy_pending s = None /\ sy_setup s = h) by done. clearbody s. destruct Hs as [Hp Hh].
  induction sel as [|[c go] sel IH]; [done|]. cbn. unfold take_case at 1. rewrite Hp, Hh.
  destruct c; cbn; [|apply IH; set_solver..].
  destruct (h_writeRecord h); [exfalso; apply Ht; [done|]; set_solver|]. apply IH. set_solver.
Qed.

Lemma wait_next cend rs c acts k c1 x xs h results post sel sels res res0 r :
  ctl_ok c h -> follows c None acts [] res0 c1 r -> chained c1 (x :: xs) cend ->
  message_plan pers (hd 0 (ex_data x)) = (sel :: sels, res) ->
  length (h_messageChan h) = S k -> results ++ map ex_result (x :: xs) = rs ->
  goes_on cend rs (mkSystem h (acts ++ replicate k ReadMessage ++ script (x :: xs)) None
                     (Selecting (sel :: sels) res) (map input xs) results post).
Proof.
  intros Hc Hf Hch Hp Hl Hrs. destruct (local_follow _ _ _ _ _ Hf) as [Htk Hdn].
  inversion Hch as [|? ? c2 ? ? Hd [Hmsg Hlvl H1 Hfo Hs Ht] Hch']; subst. rewrite Hp in *. cbn in Hfo, Ht.
  assert (Hh : handler_next (mkSystem h (acts ++ replicate k ReadMessage ++ script (x :: xs)) None
    (Selecting (sel :: sels) res) (map input xs) results post) = []).
  { apply no_case_ready; [rewrite (ct_done _ _ Hc); auto|]. rewrite (ct_token _ _ Hc), <- Htk. intros E.
    by apply Forall_cons_1 in Ht as [? _]. }
  destruct (decide (acts = [] /\ k = 0%nat)) as [[Ha Hk]|Hne].
  - subst. cbn [app replicate] in *. destruct (h_messageChan h) as [|m [|? ?]] eqn:Em; try done.
    inversion Hf; subst. eapply goes_on_both; [|eapply (ta_run _ _ c1 None (ex_acts x) c2 xs (h <| h_messageChan := [] |>))|by rewrite Hh].
    + unfold tls_next. cbn. by rewrite Em.
    + by apply ctl_ok_chan.
    + done.
    + done.
    + done.
    + done.
    + done.
  - edestruct (tls_outer (talking cend (results ++ map ex_result (x :: xs))) (script (x :: xs)) (Selecting (sel :: sels) res) (map input xs) results post c acts k 1)
      as (s' & E & Ht'); try done.
    + lia.
    + congruence.
    + intros c' acts' k' h' Hc' Hf' Hl' Hd'. eapply ta_wait; eauto. lia.
    + destruct (decide (acts = [])); naive_solver.
    + eapply goes_on_both; [done..|]. by rewrite Hh.
Qed.

Lemma sync_next cend rs c p acts c1 xs h results post sel sels res r :
  ctl_ok c h -> c_done c = false ->
  sel = [(signal_of p, true)] \/ sel = [(CaseWriteRecord, false); (signal_of p, true)] /\ c_token c = false ->
  follows (with_signal c p) None acts sels res c1 r -> chained c1 xs cend ->
  h_messageChan h = [] -> results ++ r :: map ex_result xs = rs ->
  goes_on cend rs (mkSystem h (acts ++ script xs) (Some p) (Selecting (sel :: sels) res) (map input xs) results post).
Proof.
  intros Hc Hd Hsel Hf Hch Hm Hrs. set (s := mkSystem _ _ _ _ _ _ _).
  set (h' := match p with ParamsReady data => tell h (OnReceivedParams data) | _ => h end).
  assert (Hc' : ctl_ok (with_signal c p) h').
  { destruct Hc as [H1 H2 H3 H4 H5 H6 H7 H8 H9]. subst h'. destruct p; cbn; [by split..|]. ctl_frame. }
  assert (Hm' : h_messageChan h' = []) by (subst h'; by destruct p).
  assert (Hn : handler_next s = [mret (after_case (mkSystem h' (acts ++ script xs) None (Selecting (sel :: sels) res) (map input xs) results post) true sels res)]).
  { subst s h'. cbn. rewrite (ct_done _ _ Hc), Hd.
    destruct Hsel as [E|[E Ht]]; rewrite E; destruct p; cbn; rewrite ?(ct_token _ _ Hc), ?Ht; done. }
  apply goes_on_handler; [done|by rewrite Hn|]. rewrite Hn. apply Forall_singleton. eexists. split; [reflexivity|].
  cbn. destruct sels as [|sel' sels]; cbn.
  - rewrite (returned_follow _ _ _ _ _ Hf) in *.
    eapply (ta_idle cend rs (with_signal c p) acts 0 c1 xs h' (results ++ [res]) post []); try done. by rewrite <- app_assoc.
  - eapply ta_run; try done. by destruct p.
Qed.

Lemma run_next cend rs c p acts c1 xs h results post sel sels res r :
  ctl_ok c h -> c_done c = false -> follows c p acts (sel :: sels) res c1 r -> chained c1 xs cend ->
  h_messageChan h = [] -> results ++ r :: map ex_result xs = rs ->
  goes_on cend rs (mkSystem h (acts ++ script xs) p (Selecting (sel :: sels) res) (map input xs) results post).
Proof.
  intros Hc Hd Hf Hch Hm Hrs. destruct p as [p|].
  { inversion Hf; subst. by eapply sync_next. }
  destruct acts as [|a acts].
  - inversion Hf; subst. set (s := mkSystem _ _ _ _ _ _ _).
    assert (Hn : handler_next s = [mret (returns (s <| sy_setup := h <| h_writeRecord := false |> |>) false)]).
    { subst s. cbn. rewrite (ct_done _ _ Hc), Hd, (ct_token _ _ Hc). match goal with K : c_token c = _ |- _ => rewrite K end.
      cbn. by match goal with K : ?x <> CaseWriteRecord |- _ => destruct x end. }
    apply goes_on_handler; [|by rewrite Hn|].
    { apply (tls_waits _ xs); cbn; [apply Hc|done..]. }
    rewrite Hn. apply Forall_singleton. eexists. split; [reflexivity|]. cbn.
    eapply (ta_idle _ _ (c <| c_token := false |>) [] 0 _ xs _ (results ++ [false]) post [] false false); try done.
    + clear -Hc. destruct Hc as [H1 H2 H3 H4 H5 H6 H7 H8 H9]. ctl_frame.
    + constructor.
    + by rewrite <- app_assoc.
  - destruct (tls_follow c a acts (script xs) (sel :: sels) res c1 r h (Selecting (sel :: sels) res) (map input xs) results post Hc Hf)
      as (h' & p' & c2 & E & Hc2 & Hf2 & Hm2 & _ & Hd2).
    { intros ->. inversion Hf. }
    eapply goes_on_both; [exact E|eapply ta_run; try done; [by rewrite Hd2|congruence]|].
    rewrite no_case_ready; [constructor|by rewrite (ct_done _ _ Hc)|]. rewrite (ct_token _ _ Hc). intros Ht Hw.
    by destruct (token_follow _ _ _ _ _ _ _ _ Hf Ht Hw) as (_ & ? & _).
Qed.

Lemma talking_next cend rs s : talking cend rs s -> goes_on cend rs s.
Proof.
  intros [c acts k c1 xs h results post chan res r Hc Hf Hch Hd Em Hl Hrs
         |c acts k c1 x xs h results post chan res r Hc Hf Hch Em Hl Hrs
         |c acts k c1 x xs h results post chan sel sels res res0 r Hc Hf Hch Hp Em Hl Hrs
         |c p acts c1 xs h results post sel sels res r Hc Hd Hf Hch Em Hrs]; subst.
  - by eapply idle_next.
  - by eapply send_next.
  - by eapply wait_next.
  - by eapply run_next.
Qed.

Lemma talking_steps cend rs s s' : talking cend rs s -> rtc (hs_step lib) s s' -> talking cend rs s'.
Proof.
  intros Ht Hs. induction Hs as [|s1 s2 s3 H12 _ IH]; [done|]. apply IH. destruct (talking_next _ _ _ Ht) as [Hall _].
  rewrite Forall_forall in Hall. destruct (Hall _ H12) as (s' & [= ->] & ?). done.
Qed.

End Conversation.

(** ** Termination *)

Definition handler_size (hd : handler) : nat :=
  match hd with Returned => 0 | SendMessage _ _ => 9 | PostHandshake _ => 7 | Selecting sels _ => 1 + length sels end.

Definition system_size (s : system) : nat :=
  3 * length (sy_tls s) + match sy_pending s with Some _ => 2 | None => 0 end + handler_size (sy_handler s) + 10 * length (sy_inputs s).

Lemma plan_length pers mt : (length (message_plan pers mt).1 <= 4)%nat.
Proof. unfold message_plan, handleMessageForClient, handleMessageForServer. repeat case_match; cbn; lia. Qed.

Lemma selecting_size s sels res : (system_size (selecting s sels res) + handler_size (sy_handler s) <= system_size s + 1 + length sels)%nat.
Proof. unfold system_size. destruct sels; cbn; lia. Qed.

Lemma tls_next_size lib s s' : tls_next lib s = Some (Ret s') -> (system_size s' < system_size s)%nat.
Proof.
  destruct s as [h acts pend hd ins rs post]. unfold tls_next. cbn. destruct pend; [done|]. destruct acts as [|act acts]; [done|].
  destruct act; cbn; repeat case_match; cbn; try done; intros [= E];
    try (destruct (SetReadKey _ _ _ _); cbn in E; try done); try (destruct (SetWriteKey _ _ _ _); cbn in E; try done);
    try injection E as <-; try subst s'; unfold system_size; cbn; try (destruct (ReceivedExtensions _ _ _); cbn); lia.
Qed.

Lemma message_sent_size s data lvl :
  (system_size (message_sent s data lvl) + handler_size (sy_handler s) <= system_size s + 7)%nat.
Proof.
  unfold message_sent. case_match; [unfold system_size; cbn; lia|]. pose proof (plan_length (h_perspective (sy_setup s)) (hd 0 data)) as Hp.
  cbn. destruct (message_plan _ _) as [sels res]. pose proof (selecting_size (s <| sy_setup := (sy_setup s)
    <| h_messageChan := h_messageChan (sy_setup s) ++ [data] |> |>) sels res) as Hs. unfold system_size in *. cbn in *. lia.
Qed.

Lemma post_size s data :
  (system_size (handlePostHandshakeMessage s data) + handler_size (sy_handler s) <= system_size s + 5)%nat.
Proof.
  unfold handlePostHandshakeMessage. pose proof (plan_length (h_perspective (sy_setup s)) (hd 0 data)) as Hp.
  repeat case_match; simplify_eq; cbn in *;
    match goal with |- context [selecting ?s0 ?l ?r] => pose proof (selecting_size s0 l r) as Hs end;
    repeat match goal with K : message_plan _ _ = _ |- _ => rewrite K in Hp; clear K end;
    unfold system_size in *; cbn in *; lia.
Qed.

Lemma take_case_size s c s' : take_case s c = Some s' ->
  (system_size s' <= system_size s)%nat /\ sy_handler s' = sy_handler s.
Proof.
  destruct s as [h acts pend hd ins rs post]. unfold take_case, system_size. cbn. intros E.
  destruct c, pend as [[]|]; repeat case_match; simplify_eq; cbn; split; lia || done.
Qed.

Lemma handler_next_size s s' : Ret s' ∈ handler_next s -> (system_size s' < system_size s)%nat.
Proof.
  unfold handler_next. destruct (sy_handler s) as [|data lvl|data|[|sel sels] res] eqn:Eh.
  - destruct (sy_inputs s) as [|[data lvl] ins] eqn:Ei; [set_solver|]. rewrite list_elem_of_singleton. unfold HandleMessage.
    destruct data as [|mt data]; [by intros [=]|]. case_match; intros [= ->]; unfold system_size; cbn; rewrite Ei, ?Eh; cbn; lia.
  - case_match; [|set_solver]. rewrite list_elem_of_singleton. intros [= ->].
    pose proof (message_sent_size s data lvl). rewrite Eh in *. cbn in *. lia.
  - case_match; [|set_solver]. rewrite list_elem_of_singleton. intros [= ->]. pose proof (post_size s data). rewrite Eh in *. cbn in *. lia.
  - rewrite list_elem_of_singleton. intros [= ->]. unfold system_size. cbn. rewrite Eh. cbn. lia.
  - rewrite elem_of_app, list_elem_of_omap. intros [([c go] & _ & E)|Hd].
    + destruct (take_case s c) as [s1|] eqn:Et; [|done]. injection E as <-. destruct (take_case_size _ _ _ Et) as [Hl Hh].
      unfold after_case. destruct go.
      * pose proof (selecting_size s1 sels res). rewrite Hh, Eh in *. cbn in *. lia.
      * unfold system_size in *. cbn. rewrite Hh, Eh in *. cbn in *. lia.
    + case_match; [|set_solver]. apply list_elem_of_singleton in Hd as [= ->]. unfold system_size. cbn. rewrite Eh. cbn. lia.
Qed.

(** The conversation always comes to an end, whatever the stack does. *)
Lemma hs_step_sn lib s : sn (hs_step lib) s.
Proof.
  remember (system_size s) as n eqn:En. revert s En. induction n as [n IH] using lt_wf_ind. intros s ->.
  constructor. intros s' Hs. eapply (IH (system_size s')); [|done]. unfold hs_step, hs_nexts in Hs. apply elem_of_app in Hs as [Ht|Hh].
  - destruct (tls_next lib s) as [r|] eqn:E; [|set_solver]. apply list_elem_of_singleton in Ht as <-. by eapply tls_next_size.
  - by apply handler_next_size.
Qed.

(** ** A successful handshake *)

(** The messages of the peer and the answers of the stack, in the order that the comments of the code give. *)
Record tlsRun := mkRun {
  tr_retries : list (bytes * bytes);          (* hellos answered with a HelloRetryRequest, or that are one *)
  tr_hello : bytes;
  tr_serverHello : bytes;
  tr_exts : list extension;
  tr_handshakeRead : cipherSuite * bytes;
  tr_handshakeWrite : cipherSuite * bytes;
  tr_read : cipherSuite * bytes;
  tr_write : cipherSuite * bytes;
  tr_flight : list bytes;                     (* the records written at the Handshake level *)
  tr_silent : list (messageType * bytes);     (* certificates and the like *)
  tr_finished : bytes;
  tr_last : list bytes                        (* the records written after the peer's Finished *)
}.

Definition read_key (k : cipherSuite * bytes) : tlsAction := InstallReadKey k.1 k.2.
Definition write_key (k : cipherSuite * bytes) : tlsAction := InstallWriteKey k.1 k.2.

Definition silent (m : messageType * bytes) : exchange := mkExchange (m.1 :: m.2) EncryptionHandshake [] false.

Definition retry (msgType : messageType) (m : bytes * bytes) : exchange :=
  mkExchange (msgType :: m.1) EncryptionInitial [WriteMessage m.2] false.

Definition server_flow (t : tlsRun) : list exchange :=
  map (retry typeClientHello) (tr_retries t) ++
  [mkExchange (typeClientHello :: tr_hello t) EncryptionInitial
     ([GotExtensions typeClientHello (tr_exts t); WriteMessage (tr_serverHello t); read_key (tr_handshakeRead t);
       write_key (tr_handshakeWrite t)] ++ map WriteMessage (tr_flight t) ++ [write_key (tr_write t)]) true] ++
  map silent (tr_silent t) ++
  [mkExchange (typeFinished :: tr_finished t) EncryptionHandshake
     ([read_key (tr_read t)] ++ map WriteMessage (tr_last t) ++ [Complete]) true].

Definition client_flow (t : tlsRun) : list exchange :=
  map (retry typeServerHello) (tr_retries t) ++
  [mkExchange (typeServerHello :: tr_hello t) EncryptionInitial [write_key (tr_handshakeWrite t); read_key (tr_handshakeRead t)] true] ++
  [mkExchange (typeEncryptedExtensions :: tr_serverHello t) EncryptionHandshake [GotExtensions typeEncryptedExtensions (tr_exts t)] false] ++
  map silent (tr_silent t) ++
  [mkExchange (typeFinished :: tr_finished t) EncryptionHandshake
     ([read_key (tr_read t)] ++ map WriteMessage (tr_last t) ++ [write_key (tr_write t); Complete]) true].

Definition flow (pers : Perspective) : tlsRun -> list exchange :=
  match pers with PerspectiveClient => client_flow | PerspectiveServer => server_flow end.

(** The state when the session starts to handle packets: a client has written its first ClientHello. *)
Definition start_setup (lib : cryptoLibrary) (connID : ConnectionID) (pers : Perspective) (hello : bytes) : outcome (option cryptoSetup) :=
  h ← newCryptoSetup lib connID pers;
  match pers with PerspectiveClient => WriteRecord h hello | PerspectiveServer => mret (Some h) end.

Definition start_system (h : cryptoSetup) (xs : list exchange) : system :=
  mkSystem h (script xs) None Returned (map input xs) [] [].

Definition received_params (exts : list extension) : bytes :=
  default [] (snd <$> List.find (fun ext => fst ext =? quicTLSExtensionType) exts).

Section Flow.
Variable lib : cryptoLibrary.

Definition usable (k : cipherSuite * bytes) : Prop := exists keys, traffic_keys lib k.1 k.2 = Ret keys.

Record run_ok (t : tlsRun) : Prop := {
  ro_handshakeRead : usable (tr_handshakeRead t);
  ro_handshakeWrite : usable (tr_handshakeWrite t);
  ro_read : usable (tr_read t);
  ro_write : usable (tr_write t);
  ro_silent : Forall (fun m => m.1 = typeCertificate \/ m.1 = typeCertificateVerify) (tr_silent t)
}.

Lemma follows_writes pers c ws acts sels res c' r :
  c_write c = EncryptionHandshake \/ c_write c = Encryption1RTT -> follows lib pers c None acts sels res c' r ->
  follows lib pers c None (map WriteMessage ws ++ acts) sels res c' r.
Proof. intros Hc Hf. induction ws as [|w ws IH]; [done|]. by apply fo_write. Qed.

Lemma chained_app pers c xs c1 ys c' :
  chained lib pers c xs c1 -> chained lib pers c1 ys c' -> chained lib pers c (xs ++ ys) c'.
Proof. intros H1 H2. induction H1; [done|]. eapply ch_cons; eauto. Qed.

Lemma chained_one pers c x c' : c_done c = false -> exchange_ok lib pers c x c' -> chained lib pers c [x] c'.
Proof. intros Hd Hx. eapply ch_cons; [done..|]. constructor. Qed.

Lemma chained_silent pers c ms :
  c_done c = false -> Forall (fun m => m.1 = typeCertificate \/ m.1 = typeCertificateVerify) ms ->
  chained lib pers c (map silent ms) c.
Proof.
  intros Hd Hms. induction Hms as [|[mt m] ms Hm _ IH]; [constructor|]. eapply ch_cons; [done| |exact IH].
  cbn in Hm. destruct Hm; subst mt; destruct pers; split; try done; constructor.
Qed.

Lemma chained_retries pers mt ms :
  match pers with PerspectiveClient => mt = typeServerHello | PerspectiveServer => mt = typeClientHello end ->
  chained lib pers (mkCtl EncryptionInitial EncryptionInitial false false []) (map (retry mt) ms)
    (mkCtl EncryptionInitial EncryptionInitial false false []).
Proof.
  intros Hmt. induction ms as [|m ms IH]; [constructor|]. eapply ch_cons; [done| |exact IH].
  destruct pers; subst mt; (split; [done..|by apply fo_retry|done|done]).
Qed.

Ltac follow_key K := destruct K as [? K]; eapply fo_read_key || eapply fo_write_key; [exact K|reflexivity|done|]; cbn.

Lemma server_chained t : run_ok t ->
  chained lib PerspectiveServer (mkCtl EncryptionInitial EncryptionInitial false false []) (server_flow t)
    (mkCtl Encryption1RTT Encryption1RTT true true [received_params (tr_exts t)]).
Proof.
  intros [K1 K2 K3 K4 Hs]. unfold server_flow. eapply chained_app; [by apply chained_retries|].
  apply (chained_app _ _ [_] (mkCtl EncryptionHandshake Encryption1RTT true false [received_params (tr_exts t)]));
    [apply chained_one; [done|]|eapply chained_app; [by apply chained_silent|apply chained_one; [done|]]].
  - split; try done. eapply fo_params; [reflexivity|done|]. eapply fo_sync; [by right|]. cbn.
    apply fo_hello; [done..| |done]. follow_key K1. eapply fo_sync; [by left|]. follow_key K2. eapply fo_sync; [by left|].
    apply follows_writes; [by left|]. follow_key K4. eapply fo_sync; [by left|]. apply fo_end.
  - split; try done; [|by intros _; repeat constructor; set_solver]. follow_key K3. eapply fo_sync; [by left|].
    apply follows_writes; [by right|]. by apply (fo_complete lib PerspectiveServer (mkCtl Encryption1RTT Encryption1RTT true false [received_params (tr_exts t)])).
Qed.

Lemma client_chained t : run_ok t ->
  chained lib PerspectiveClient (mkCtl EncryptionInitial EncryptionInitial false false []) (client_flow t)
    (mkCtl Encryption1RTT Encryption1RTT false true [received_params (tr_exts t)]).
Proof.
  intros [K1 K2 K3 K4 Hs]. unfold client_flow. eapply chained_app; [by apply chained_retries|].
  apply (chained_app _ _ [_] (mkCtl EncryptionHandshake EncryptionHandshake false false []));
    [apply chained_one; [done|]|].
  2: apply (chained_app _ _ [_] (mkCtl EncryptionHandshake EncryptionHandshake false false [received_params (tr_exts t)]));
    [apply chained_one; [done|]|eapply chained_app; [by apply chained_silent|apply chained_one; [done|]]].
  - split; try done. follow_key K2. eapply fo_sync; [by right|]. follow_key K1. eapply fo_sync; [by left|]. apply fo_end.
  - split; try done. eapply fo_params; [reflexivity|done|]. eapply fo_sync; [by left|]. apply fo_end.
  - split; try done. follow_key K3. eapply fo_sync; [by left|]. apply follows_writes; [by left|].
    follow_key K4. eapply fo_sync; [by left|].
    by apply (fo_complete lib PerspectiveClient (mkCtl Encryption1RTT Encryption1RTT false false [received_params (tr_exts t)])).
Qed.

(** What a completed handshake has established. *)
Record established (h : cryptoSetup) (exts : list extension) : Prop := {
  es_done : h_handshakeDone h = true;
  es_opener : is_Some (h_opener h);
  es_sealer : is_Some (h_sealer h);
  es_params : params_of (h_events h) = [received_params exts]
}.

(** C3. The handshake completes, for a client and for a server: whatever the order in which the goroutine of the TLS stack and the
    one that handles the messages of the peer take their steps, with any number of messages that the stack sends and any
    number of Retry requests, the conversation over the channels ends, no step fails, no goroutine is left waiting, and
    at the end the handshake is done, the 1-RTT keys for reading and writing are there, and the transport parameters of
    the peer were delivered exactly once. Each call of [HandleMessage] returned what it should: whether its level is finished. *)
Theorem handshake_completes pers connID hello h t :
  start_setup lib connID pers hello = Ret (Some h) -> run_ok t ->
  let s0 := start_system h (flow pers t) in
  sn (hs_step lib) s0 /\
  forall s, rtc (hs_step lib) s0 s ->
    Forall (fun r => exists s', r = Ret s') (hs_nexts lib s) /\
    (nf (hs_step lib) s -> established (sy_setup s) (tr_exts t) /\ sy_handler s = Returned /\ sy_pending s = None /\ sy_inputs s = [] /\
       sy_results s = map ex_result (flow pers t)).
Proof.
  intros Eh Ht s0. split; [apply hs_step_sn|]. intros s Hs.
  assert (Hc : ctl_ok pers (mkCtl EncryptionInitial EncryptionInitial false false []) h /\ h_messageChan h = []).
  { unfold start_setup in Eh. destruct (newCryptoSetup lib connID pers) as [h1| |] eqn:En; cbn in Eh; try done.
    pose proof (new_keys_ok _ _ _ _ En) as Hk. unfold newCryptoSetup in En.
    destruct (NewInitialAEAD _ _ _) as [[sl op]| |]; cbn in En; try done. injection En as <-.
    destruct pers; cbn in Eh; injection Eh as <-; (split; [|done]); split; cbn; auto.
    by eapply keys_ok_frame, Hk. }
  destruct Hc as [Hc Hm].
  assert (Hend : exists cend, chained lib pers (mkCtl EncryptionInitial EncryptionInitial false false []) (flow pers t) cend /\
    c_done cend = true /\ c_read cend = Encryption1RTT /\ c_write cend = Encryption1RTT /\ c_params cend = [received_params (tr_exts t)]).
  { destruct pers; eexists; (split; [by apply server_chained || by apply client_chained|done]). }
  destruct Hend as (cend & Hch & Hd & Hr & Hw & Hp).
  assert (Ht0 : talking lib pers cend (map ex_result (flow pers t)) s0).
  { eapply (ta_idle _ _ _ _ _ [] 0 _ _ _ _ _ [] false false); try done. constructor. }
  pose proof (talking_next _ _ _ _ _ (talking_steps _ _ _ _ _ _ Ht0 Hs)) as [Hall Hlast]. split.
  - eapply Forall_impl; [exact Hall|]. intros r (s' & -> & _). eauto.
  - intros Hn. assert (Hnil : hs_nexts lib s = []).
    { destruct (hs_nexts lib s) as [|r rs] eqn:E; [done|]. exfalso. apply Hn. apply Forall_cons_1 in Hall as [(s' & -> & _) _].
      exists s'. unfold hs_step. rewrite E. left. }
    destruct (Hlast Hnil) as ([H1 H2 H3 H4 H5 H6 H7 H8 H9] & _ & Hpe & Hh & Hi & Hres).
    split; [|done]. destruct H9 as [Kr Kw]. rewrite H1, Hr in Kr. rewrite H2, Hw in Kw. split; [congruence|apply Kr|done|congruence].
Qed.

End Flow.

Lemma run_system_steps lib fuel s s' : run_system lib fuel s = Ret s' -> rtc (hs_step lib) s s' /\ hs_nexts lib s' = [].
Proof.
  revert s. induction fuel as [|fuel IH]; intros s; [done|]. cbn. destruct (hs_nexts lib s) as [|r rs] eqn:E.
  - intros [= <-]. done.
  - destruct r as [s1| |]; cbn; try done. intros Hr. destruct (IH _ Hr) as [H1 H2]. split; [|done].
    eapply rtc_l; [|exact H1]. unfold hs_step. rewrite E. left.
Qed.

Lemma stuck_nf lib s : hs_nexts lib s = [] -> nf (hs_step lib) s.
Proof. intros Hn [s' Hs]. unfold hs_step in Hs. rewrite Hn in Hs. by apply not_elem_of_nil in Hs. Qed.

(** 102 empty ServerHello messages in the Initial packets of a client: 408 bytes. *)
Definition flood : list (bytes * EncryptionLevel) := replicate 102 ([typeServerHello; 0; 0; 0], EncryptionInitial).

(** A peer can block a session: after the TLS handshake of a server has failed with an alert, [HandleMessage] still puts
    every message into the channel that no goroutine reads any more; with 102 messages of four bytes, its goroutine waits for
    ever, and that is the run loop of the session, which then never handles the error. *)
Theorem message_flood_blocks lib connID h err :
  newCryptoSetup lib connID PerspectiveServer = Ret h ->
  exists s, rtc (hs_step lib) (mkSystem h [ReadMessage; Alert alertUnexpectedMessage err] None Returned flood [] []) s /\
    nf (hs_step lib) s /\ sy_handler s = SendMessage [typeServerHello; 0; 0; 0] EncryptionInitial /\
    h_events (sy_setup s) = [OnError (CryptoError alertUnexpectedMessage err)].
Proof.
  intros E. unfold newCryptoSetup in E. destruct (NewInitialAEAD _ _ _) as [[sl op]| |]; cbn in E; try done. injection E as <-.
  destruct (run_system lib 400 (mkSystem (mkSetup PerspectiveServer false [] false false false EncryptionInitial EncryptionInitial
    (Some op) (Some sl) None None None None []) [ReadMessage; Alert alertUnexpectedMessage err] None Returned flood [] []))
    as [s| |] eqn:Er; [|exfalso; by vm_compute in Er..].
  destruct (run_system_steps _ _ _ _ Er) as [Hs Hn]. exists s. split; [exact Hs|]. split.
  - by apply stuck_nf.
  - vm_compute in Er. injection Er as <-. done.
Qed.

(** ** Examples *)

Definition is_ret {A} (x : outcome A) : bool := match x with Ret _ => true | _ => false end.

Definition demo_library : cryptoLibrary :=
  mkLibrary (fun secret salt => secret) (fun secret label n => secret) (fun key iv => demo_aead) (fun key => Ret demo_block).
Definition demo_suite : cipherSuite := mkSuite 16 12 (fun secret label n => secret) (fun key iv => demo_aead).

Lemma initial_keys_match_witness : exists sc oc ss os,
  NewInitialAEAD demo_library [1; 2] PerspectiveClient = Ret (sc, oc) /\
  NewInitialAEAD demo_library [1; 2] PerspectiveServer = Ret (ss, os) /\ matching sc os /\ matching ss oc.
Proof.
  do 4 eexists. split; [reflexivity|]. split; [reflexivity|]. eapply (initial_keys_match demo_library [1; 2]); reflexivity.
Defined.

Definition demo_setup : cryptoSetup :=
  match newCryptoSetup demo_library [1; 2] PerspectiveServer with Ret h => h | _ => mkSetup PerspectiveServer false [] false false false EncryptionInitial EncryptionInitial None None None None None None [] end.

Lemma key_lifecycle_witness : exists h,
  SetReadKey demo_library demo_setup demo_suite [7] = Ret h /\
  opener_later (GetOpener demo_setup EncryptionHandshake) (GetOpener h EncryptionHandshake) /\
  exists s, setup_GetSealer demo_setup = (h_writeEncLevel demo_setup, Some s).
Proof.
  eexists. split; [reflexivity|]. eapply (key_lifecycle demo_library [1; 2] PerspectiveServer demo_setup demo_setup); [reflexivity|apply rtc_refl|].
  apply rtc_once. by eapply (key_read demo_library demo_setup demo_suite [7]).
Defined.

Definition demo_run : tlsRun :=
  mkRun [([0; 0; 0], [3])] [0; 0; 0] [2; 0; 0; 0] [(quicTLSExtensionType, [5; 6])] (demo_suite, [1]) (demo_suite, [2]) (demo_suite, [3])
    (demo_suite, [4]) [[8]; [11]] [(typeCertificate, [0; 0; 0])] [0; 0; 0] [[4]].

Lemma handshake_completes_witness :
  let s0 := start_system demo_setup (flow PerspectiveServer demo_run) in
  exists s, rtc (hs_step demo_library) s0 s /\ nf (hs_step demo_library) s /\ established (sy_setup s) [(quicTLSExtensionType, [5; 6])].
Proof.
  cbv zeta. assert (Hr : is_ret (run_system demo_library 100 (start_system demo_setup (flow PerspectiveServer demo_run))) = true)
    by (vm_compute; reflexivity).
  destruct (run_system _ _ _) as [s| |] eqn:Er; [|discriminate..].
  destruct (run_system_steps _ _ _ _ Er) as [Hs Hn]. exists s. split; [exact Hs|].
  pose proof (stuck_nf _ _ Hn) as Hnf. split; [exact Hnf|].
  destruct (handshake_completes demo_library PerspectiveServer [1; 2] [] demo_setup demo_run) as [_ Hall].
  - reflexivity.
  - split; try (eexists; reflexivity). repeat constructor.
  - apply (Hall s Hs). exact Hnf.
Defined.

Lemma message_flood_blocks_witness : exists s,
  rtc (hs_step demo_library) (mkSystem demo_setup [ReadMessage; Alert alertUnexpectedMessage EOF] None Returned flood [] []) s /\
  nf (hs_step demo_library) s.
Proof.
  destruct (message_flood_blocks demo_library [1; 2] demo_setup EOF eq_refl) as (s & H1 & H2 & _). by exists s.
Defined.
