(* ===== verification/Session.v ===== *)
(** * The session (session.go)

    A connection: what the run loop does with packets, timers and the calls of the application.  [core] holds the
    state of the connection and [session] adds the queues of packets and
    the reference counts of their buffers; every function of session.go that changes state is a definition here.  The
    streams call back into the session: [notify] is what those callbacks do, to the
    [world] that the streams live in and to the framer.

    The handshake is behind the interface [CryptoStreamHandler], as in the code; what it calls back is
    collected in a list of events, which is handled when its function returns.
    The TLS stack runs concurrently: its other events are steps of their own.
    One step sees one time [now].  The results of writes to the network and of
    [NewToken] are inputs. *)

From S2P Require Import Prelude VarInt Protocol GoFloat AckFrame Frames FrameSorter CryptoStream ReceivedTracker FlowControl SendStream ReceiveStream Stream StreamsMap RTTStats SentHistory SentPacketHandler Headers Framer Aead PacketPacker TransportParameters CryptoSetup.

Definition MaxSessionUnprocessedPackets : Z := 1000.
Definition MaxUndecryptablePackets : Z := 10.
Definition InitialMaxStreamData : ByteCount := Z.shiftl 1 10 * 512.
Definition InitialMaxData : ByteCount := InitialMaxStreamData * 3 / 2.
Definition NoError : Z := 0x0.
Definition InternalError : Z := 0x1.

Record config := mkConfig {
  cfg_KeepAlive : bool;
  cfg_IdleTimeout : duration;
  cfg_HandshakeTimeout : duration;
  cfg_MaxReceiveStreamFlowControlWindow : Z;
  cfg_MaxReceiveConnectionFlowControlWindow : Z;
  cfg_MaxIncomingStreams : Z;
  cfg_MaxIncomingUniStreams : Z
}.

(** The calls of [sessionRunner]. *)
Inductive runnerCall :=
| RunnerHandshakeComplete
| RunnerRetire (id : ConnectionID)
| RunnerRemove (id : ConnectionID)
| RunnerAddResetToken (token : bytes).

Record closeError := mkCloseError {
  ce_err : option goerr;
  ce_remote : bool;
  ce_sendClose : bool
}.

(** ** The streams and their callbacks *)

Record world := mkWorld {
  w_streamsMap : streamsMap;
  w_connFlowController : connectionFlowController;
  w_windowUpdateQueue : windowUpdateQueue;
  w_sendingScheduled : bool;             (* capacity 1 *)
  w_closeOnce : bool;
  w_closeChan : option closeError;       (* capacity 1 *)
  w_srcConnID : ConnectionID;
  w_runner : list runnerCall             (* oldest first *)
}.

#[global] Instance world_eta : Eta world := fun w =>
  mkWorld (w_streamsMap w) (w_connFlowController w) (w_windowUpdateQueue w) (w_sendingScheduled w) (w_closeOnce w)
    (w_closeChan w) (w_srcConnID w) (w_runner w).

Definition scheduleSending (w : world) : world := w <| w_sendingScheduled := true |>.

(** [closeOnce.Do] of the three ways to close the session. *)
Definition close_once (w : world) (call : runnerCall) (e : closeError) : world :=
  if w_closeOnce w then w
  else w <| w_closeOnce := true |> <| w_runner := w_runner w ++ [call] |> <| w_closeChan := Some e |>.

Definition closeLocal (w : world) (e : option goerr) : world :=
  close_once w (RunnerRetire (w_srcConnID w)) (mkCloseError e false true).
Definition destroyImpl (w : world) (e : goerr) : world :=
  close_once w (RunnerRemove (w_srcConnID w)) (mkCloseError (Some e) false false).
Definition closeRemote (w : world) (e : goerr) : world :=
  close_once w (RunnerRemove (w_srcConnID w)) (mkCloseError (Some e) true false).

Definition queueControlFrame (wf : world * framerI) (f : Frame) : world * framerI :=
  (scheduleSending wf.1, framer_QueueControlFrame wf.2 f).

(** [onStreamCompleted]; the streams map can queue a MAX_STREAMS frame. *)
Definition onStreamCompleted (wf : world * framerI) (id : StreamID) : world * framerI :=
  let '(w, f) := wf in
  let '(m, notes, err) := DeleteStream (w_streamsMap w) id in
  let w := w <| w_streamsMap := m |> in
  let wf := foldl (fun wf note => match note with QueueControlFrame fr => queueControlFrame wf fr | _ => wf end) (w, f) notes in
  match err with
  | Some (StreamErrorNums message nums) => (closeLocal wf.1 (Some (Errorf message nums)), wf.2)
  | Some (OtherError err) => (closeLocal wf.1 (Some err), wf.2)
  | None => wf
  end.

(** The callbacks: [queueControlFrame], [onHasStreamData], [onStreamCompleted], [onHasStreamWindowUpdate] and
    [onHasConnectionWindowUpdate]. *)
Definition notify (wf : world * framerI) (note : notification) : world * framerI :=
  let '(w, f) := wf in
  match note with
  | QueueControlFrame fr => queueControlFrame wf fr
  | OnHasStreamData id => (scheduleSending w, AddActiveStream f id)
  | OnStreamCompleted id => onStreamCompleted wf id
  | OnHasStreamWindowUpdate id =>
      (scheduleSending (w <| w_windowUpdateQueue := AddStream (w_windowUpdateQueue w) id |>), f)
  | OnHasConnectionWindowUpdate =>
      (scheduleSending (w <| w_windowUpdateQueue := AddConnection (w_windowUpdateQueue w) |>), f)
  end.

Definition notify_all (wf : world * framerI) (notes : list notification) : world * framerI := foldl notify wf notes.

(** The halves of a stream that is found in the map, and writing one back. *)
Definition sender_half (s : sender) : sendStream * streamFlowController :=
  match s with SenderUni (snd, fc) => (snd, fc) | SenderBidi (str, fc) => (str_sendStream str, fc) end.
Definition receiver_half (r : receiver) : receiveStream * streamFlowController :=
  match r with ReceiverUni (rcv, fc) => (rcv, fc) | ReceiverBidi (str, fc) => (str_receiveStream str, fc) end.

Definition put_bidi (m : streamsMap) (id : StreamID) (s : bidiItem) : streamsMap :=
  let num := StreamID_StreamNum id in
  if bool_decide (InitiatedBy id = sm_perspective m) then
    m <| sm_outgoingBidiStreams := (sm_outgoingBidiStreams m) <| out_streams := <[num := s]> (out_streams (sm_outgoingBidiStreams m)) |> |>
  else
    m <| sm_incomingBidiStreams := (sm_incomingBidiStreams m) <| in_streams := <[num := s]> (in_streams (sm_incomingBidiStreams m)) |> |>.
Definition put_send (m : streamsMap) (id : StreamID) (s : sendItem) : streamsMap :=
  m <| sm_outgoingUniStreams := (sm_outgoingUniStreams m)
         <| out_streams := <[StreamID_StreamNum id := s]> (out_streams (sm_outgoingUniStreams m)) |> |>.
Definition put_receive (m : streamsMap) (id : StreamID) (s : receiveItem) : streamsMap :=
  m <| sm_incomingUniStreams := (sm_incomingUniStreams m)
         <| in_streams := <[StreamID_StreamNum id := s]> (in_streams (sm_incomingUniStreams m)) |> |>.

(** The sending half of stream [id] has changed and reported [notes]; a bidirectional stream passes its
    half's reports on. *)
Definition put_sender (m : streamsMap) (id : StreamID) (s : sender) (snd : sendStream) (fc : streamFlowController)
    (notes : list notification) : streamsMap * list notification :=
  match s with
  | SenderUni _ => (put_send m id (snd, fc), notes)
  | SenderBidi (str, _) =>
      let '(str, notes) := uniStreamSender Sending (str <| str_sendStream := snd |>) notes in (put_bidi m id (str, fc), notes)
  end.
Definition put_receiver (m : streamsMap) (id : StreamID) (r : receiver) (rcv : receiveStream) (fc : streamFlowController)
    (notes : list notification) : streamsMap * list notification :=
  match r with
  | ReceiverUni _ => (put_receive m id (rcv, fc), notes)
  | ReceiverBidi (str, _) =>
      let '(str, notes) := uniStreamSender Receiving (str <| str_receiveStream := rcv |>) notes in (put_bidi m id (str, fc), notes)
  end.

(** The change reaches the map, and then the callbacks run. *)
Definition after_sender (wf : world * framerI) (id : StreamID) (s : sender) (snd : sendStream) (fc : streamFlowController)
    (c : connectionFlowController) (notes : list notification) : world * framerI :=
  let '(m, notes) := put_sender (w_streamsMap wf.1) id s snd fc notes in
  notify_all (wf.1 <| w_streamsMap := m |> <| w_connFlowController := c |>, wf.2) notes.
Definition after_receiver (wf : world * framerI) (id : StreamID) (r : receiver) (rcv : receiveStream) (fc : streamFlowController)
    (c : connectionFlowController) (notes : list notification) : world * framerI :=
  let '(m, notes) := put_receiver (w_streamsMap wf.1) id r rcv fc notes in
  notify_all (wf.1 <| w_streamsMap := m |> <| w_connFlowController := c |>, wf.2) notes.

Definition get_sender (w : world) (id : StreamID) : world * (option sender + goerr) :=
  let '(m, r) := GetOrOpenSendStream (w_streamsMap w) id in (w <| w_streamsMap := m |>, r).
Definition get_receiver (w : world) (id : StreamID) : world * (option receiver + goerr) :=
  let '(m, r) := GetOrOpenReceiveStream (w_streamsMap w) id in (w <| w_streamsMap := m |>, r).

(** The streams, as the framer sees them. *)
#[global] Instance world_getter `{FloatConv} : StreamGetter world := {
  getSendStream w id :=
    let '(w, r) := get_sender w id in (w, match r with inl (Some _) => true | _ => false end);
  popFrame wf id maxBytes :=
    match (get_sender wf.1 id).2 with
    | inl (Some s) =>
        '(snd, fc, c, notes, r) ← popStreamFrame (sender_half s).1 (sender_half s).2 (w_connFlowController wf.1) maxBytes;
        mret (after_sender wf id s snd fc c notes, r)
    | _ => Panic nil_dereference
    end
}.

(** And as the window update queue sees them. *)
Definition world_updates `{FloatConv} (now : time) (rtt : duration) : WindowUpdates world := {|
  getReceiveStream w id :=
    let '(w, r) := get_receiver w id in (w, match r with inl (Some _) => true | _ => false end);
  streamWindowUpdate w id :=
    match (get_receiver w id).2 with
    | inl (Some r) =>
        let '(fc, c, offset) := receive_getWindowUpdate (receiver_half r).2 (w_connFlowController w) now rtt in
        let '(m, _) := put_receiver (w_streamsMap w) id r (receiver_half r).1 fc [] in
        (w <| w_streamsMap := m |> <| w_connFlowController := c |>, offset)
    | _ => (w, 0)
    end;
  connWindowUpdate w :=
    let '(c, offset) := connection_GetWindowUpdate (w_connFlowController w) now rtt in
    (w <| w_connFlowController := c |>, offset)
|}.

(** ** The handshake, as the session sees it ([cryptoStreamHandler]) *)

Class CryptoStreamHandler (H : Type) := {
  cs_HandleMessage : H -> bytes -> EncryptionLevel -> outcome (H * bool);
  cs_ChangeConnectionID : H -> ConnectionID -> outcome H;
  cs_Received1RTTAck : H -> H;
  cs_Close : H -> H;
  cs_GetSealer : H -> EncryptionLevel * option sealer;
  cs_GetSealerWithEncryptionLevel : H -> EncryptionLevel -> outcome (option sealer);
  cs_GetOpener : H -> EncryptionLevel -> outcome opener;
  cs_events : H -> H * list hsEvent       (* the calls of the runner and of the streams since the last time *)
}.

Definition non_nil (s : outcome (option sealer)) : outcome sealer :=
  s ← s; match s with Some s => mret s | None => Panic nil_dereference end.

(** The sealers for the packer, which calls methods of what it gets. *)
Definition sealing_manager {H} `{CryptoStreamHandler H} (h : H) : outcome sealingManager :=
  let '(lvl, s) := cs_GetSealer h in
  s ← non_nil (Ret s);
  mret (mkSealingManager (lvl, s) (fun lvl => non_nil (cs_GetSealerWithEncryptionLevel h lvl))).

(** [crypto_setup.go] behind that interface, with one schedule of its goroutines. *)
Section Setup.
Variable lib : cryptoLibrary.

Definition on_setup (s : system) (f : cryptoSetup -> cryptoSetup) : system := s <| sy_setup := f (sy_setup s) |>.

#[global] Instance setup_handler : CryptoStreamHandler system := {
  cs_HandleMessage s data lvl :=
    let s := s <| sy_inputs := [(data, lvl)] |> <| sy_results := [] |> in
    s ← run_system lib (S (system_size s)) s;
    match sy_results s with
    | [finished] => mret (s, finished)
    | _ => Panic "all goroutines are asleep - deadlock!"
    end;
  cs_ChangeConnectionID s id := h ← ChangeConnectionID lib (sy_setup s) id; mret (s <| sy_setup := h |>);
  cs_Received1RTTAck s := on_setup s Received1RTTAck;
  cs_Close s := on_setup s setup_Close;
  cs_GetSealer s := setup_GetSealer (sy_setup s);
  cs_GetSealerWithEncryptionLevel s := setup_GetSealerWithEncryptionLevel (sy_setup s);
  cs_GetOpener s := GetOpener (sy_setup s);
  cs_events s := (on_setup s (fun h => h <| h_events := [] |>), h_events (sy_setup s))
}.
End Setup.

(** ** The connection *)

(** The state of a channel that is only ever closed. *)
Inductive doneChan := ChanOpen | ChanClosed | ChanNil.

(** The sent packet handler and the random numbers it will draw. *)
Record numbers (C : Type) := mkNumbers {
  nm_handler : sentPacketHandler C;
  nm_rand : nat -> Z
}.
Arguments mkNumbers {C}.
Arguments nm_handler {C}.
Arguments nm_rand {C}.

#[global] Instance numbers_eta C : Eta (numbers C) := fun n => mkNumbers (nm_handler n) (nm_rand n).

Definition draw {C} (n : numbers C) : numbers C := n <| nm_rand := fun k => nm_rand n (S k) |>.

Section Session.
Context {C H : Type} `{!SendAlgorithm C} `{!FloatConv} `{!CryptoStreamHandler H}.

#[global] Instance packet_numbers : PacketNumberManager (numbers C) := {
  peekPacketNumber n lvl := PeekPacketNumber (nm_handler n) lvl;
  popPacketNumber n lvl :=
    '(h, pn) ← PopPacketNumber (nm_handler n) lvl (nm_rand n 0%nat);
    mret (draw (n <| nm_handler := h |>), pn)
}.

Record core := mkCore {
  core_env : env (W := world) (P := numbers C);
  core_crypto : H;
  core_oneRTTStream : cryptoStreamImpl;
  core_perspective : Perspective;
  core_config : config;
  core_destConnID : ConnectionID;
  core_origDestConnID : ConnectionID;
  core_unpacker : packetUnpacker;
  core_ackDelayExponent : Z;                  (* of the frame parser *)
  core_peerParams : option TransportParameters;
  core_clientHelloWritten : bool;
  core_handshakeCompleteChan : doneChan;
  core_handshakeComplete : bool;
  core_receivedRetry : bool;
  core_receivedFirstPacket : bool;
  core_sessionCreationTime : time;
  core_lastPacketReceivedTime : time;
  core_firstAckElicitingPacketAfterIdleSentTime : time;
  core_pacingDeadline : time;
  core_keepAlivePingSent : bool;
  core_newToken : outcome bytes;              (* what NewToken returns *)
  core_written : list bytes;                  (* the packets written to the network, oldest first *)
  core_writeErrs : list (option goerr)        (* the results of the next writes *)
}.

#[global] Instance core_eta : Eta core := fun s =>
  mkCore (core_env s) (core_crypto s) (core_oneRTTStream s) (core_perspective s) (core_config s) (core_destConnID s)
    (core_origDestConnID s) (core_unpacker s) (core_ackDelayExponent s) (core_peerParams s) (core_clientHelloWritten s)
    (core_handshakeCompleteChan s) (core_handshakeComplete s) (core_receivedRetry s) (core_receivedFirstPacket s)
    (core_sessionCreationTime s) (core_lastPacketReceivedTime s) (core_firstAckElicitingPacketAfterIdleSentTime s)
    (core_pacingDeadline s) (core_keepAlivePingSent s) (core_newToken s) (core_written s) (core_writeErrs s).

(** The parts of the connection. *)
Definition world_of (s : core) : world := ev_world (core_env s).
Definition handler_of (s : core) : sentPacketHandler C := nm_handler (ev_pns (core_env s)).
Definition rtt_of (s : core) : RTTStats := hd_rttStats (handler_of s).
Definition on_env (s : core) (f : env (W := world) (P := numbers C) -> env (W := world) (P := numbers C)) : core :=
  s <| core_env := f (core_env s) |>.
Definition set_world (s : core) (w : world) : core := on_env s (fun e => e <| ev_world := w |>).
Definition set_handler (s : core) (h : sentPacketHandler C) : core :=
  on_env s (fun e => e <| ev_pns := (ev_pns e) <| nm_handler := h |> |>).
Definition set_packer (s : core) (p : packetPacker) : core := on_env s (fun e => e <| ev_packer := p |>).
Definition set_wf (s : core) (wf : world * framerI) : core := on_env s (fun e => e <| ev_world := wf.1 |> <| ev_framer := wf.2 |>).
Definition wf_of (s : core) : world * framerI := (ev_world (core_env s), ev_framer (core_env s)).

Definition core_closeLocal (s : core) (e : option goerr) : core := set_world s (closeLocal (world_of s) e).
Definition core_queueControlFrame (s : core) (f : Frame) : core := set_wf s (queueControlFrame (wf_of s) f).

(** A write to the network, and its error. *)
Definition conn_Write (s : core) (data : bytes) : core * option goerr :=
  (s <| core_written := core_written s ++ [data] |> <| core_writeErrs := tail (core_writeErrs s) |>,
   match core_writeErrs s with Some err :: _ => Some err | _ => None end).

(** ** Flow control and transport parameters *)

Definition newFlowController (cfg : config) (perspective : Perspective) (peerParams : option TransportParameters)
    (id : StreamID) : streamFlowController :=
  let initialSendWindow :=
    match peerParams with
    | None => 0
    | Some params =>
        match StreamID_Type id with
        | StreamTypeUni => tp_InitialMaxStreamDataUni params
        | StreamTypeBidi =>
            if bool_decide (InitiatedBy id = perspective) then tp_InitialMaxStreamDataBidiRemote params
            else tp_InitialMaxStreamDataBidiLocal params
        end
    end in
  NewStreamFlowController id InitialMaxStreamData (cfg_MaxReceiveStreamFlowControlWindow cfg) initialSendWindow.

Definition processTransportParametersForServer (s : core) (data : bytes) : outcome TransportParameters :=
  Unmarshal data (Opposite (core_perspective s)).

Definition processTransportParametersForClient (s : core) (data : bytes) : outcome TransportParameters :=
  params ← Unmarshal data (Opposite (core_perspective s));
  (* check the Retry token *)
  if negb (connID_Equal (tp_OriginalConnectionID params) (core_origDestConnID s)) then
    Error (ErrorString "expected original_connection_id to equal %s, is %s")
  else mret params.

(** The switch of [processTransportParameters]. *)
Definition parameters_for (s : core) (data : bytes) : outcome TransportParameters :=
  match core_perspective s with
  | PerspectiveClient => processTransportParametersForClient s data
  | PerspectiveServer => processTransportParametersForServer s data
  end.

Definition processTransportParameters (s : core) (data : bytes) : outcome core :=
  match parameters_for s data with
  | Panic msg => Panic msg
  | Error err => mret (core_closeLocal s (Some err))
  | Ret params =>
      let w := world_of s in
      let m := (w_streamsMap w) <| sm_newFlowController := newFlowController (core_config s) (core_perspective s) (Some params) |> in
      let s := set_world (s <| core_peerParams := Some params |>) (w <| w_streamsMap := m |>) in
      '(m, err) ← UpdateLimits m (tp_MaxBidiStreamNum params) (tp_MaxUniStreamNum params);
      let w := (world_of s) <| w_streamsMap := m |> in
      match err with
      | Some err => mret (core_closeLocal (set_world s w) (Some err))
      | None =>
          let s := set_packer s (packer_HandleTransportParameters (ev_packer (core_env s)) (tp_MaxPacketSize params)) in
          let s := s <| core_ackDelayExponent := tp_AckDelayExponent params |> in
          let c := w_connFlowController w in
          let c := c <| cfc_base := UpdateSendWindow (cfc_base c) (tp_InitialMaxData params) |> in
          let w := w <| w_connFlowController := c |> in
          let s := set_handler s (SetMaxAckDelay (handler_of s) (tp_MaxAckDelay params)) in
          mret (set_world s (match tp_StatelessResetToken params with
                             | Some token => w <| w_runner := w_runner w ++ [RunnerAddResetToken token] |>
                             | None => w
                             end))
      end
  end.

(** ** What the handshake calls back *)

Definition dropEncryptionLevel (s : core) (encLevel : EncryptionLevel) : outcome core :=
  h ← DropPackets (handler_of s) encLevel;
  let s := set_handler s h in
  acks ← handler_DropPackets (ev_acks (core_env s)) encLevel;
  mret (on_env s (fun e => e <| ev_acks := acks |>)).

(** The streams that the TLS stack writes to.  A client gave its 1-RTT stream a framer that was still nil. *)
Definition stream_written (s : core) (encLevel : EncryptionLevel) (p : bytes) : outcome core :=
  match encLevel with
  | EncryptionInitial => mret (on_env s (fun e => e <| ev_initialStream := crypto_Write (ev_initialStream e) p |>))
  | EncryptionHandshake => mret (on_env s (fun e => e <| ev_handshakeStream := crypto_Write (ev_handshakeStream e) p |>))
  | _ =>
      '(str, frames) ← postHandshake_Write (core_oneRTTStream s) p;
      match core_perspective s, frames with
      | PerspectiveClient, _ :: _ => Panic nil_dereference
      | _, _ =>
          let s := s <| core_oneRTTStream := str |> in
          mret (on_env s (fun e => e <| ev_framer := foldl framer_QueueControlFrame (ev_framer e) (map FCrypto frames) |>))
      end
  end.

Definition handle_event (s : core) (ev : hsEvent) : outcome core :=
  match ev with
  | OnReceivedParams data => processTransportParameters s data
  | OnHandshakeComplete => mret (s <| core_handshakeCompleteChan := ChanClosed |>)
  | OnError err => mret (core_closeLocal s (Some err))
  | DropKeys encLevel => dropEncryptionLevel s encLevel
  | ClientHelloWritten => mret (s <| core_clientHelloWritten := true |>)
  | WrittenTo encLevel p => stream_written s encLevel p
  end.

Fixpoint handle_all_events (s : core) (evs : list hsEvent) : outcome core :=
  match evs with [] => mret s | ev :: evs => s ← handle_event s ev; handle_all_events s evs end.

Definition handle_events (s : core) : outcome core :=
  let '(h, evs) := cs_events (core_crypto s) in handle_all_events (s <| core_crypto := h |>) evs.

(** ** Frames *)

(** [HandleMessage] for the manager of the crypto streams, which stops when it panics. *)
Definition handle_message (h : outcome H) (data : bytes) (lvl : EncryptionLevel) : outcome H * bool :=
  match h with
  | Ret h => match cs_HandleMessage h data lvl with
             | Ret (h, finished) => (Ret h, finished)
             | Error err => (Error err, false)
             | Panic msg => (Panic msg, false)
             end
  | _ => (h, false)
  end.

(** The result of handling a frame: whether [tryDecryptingQueuedPackets] is to be called, and the error. *)
Definition handled : Type := outcome (core * bool * option goerr).

Definition handleCryptoFrame (s : core) (frame : CryptoFrame) (encLevel : EncryptionLevel) : handled :=
  let e := core_env s in
  '(m, encLevelChanged, err) ← manager_HandleCryptoFrame handle_message
    (mkManager (Ret (core_crypto s)) (ev_initialStream e) (ev_handshakeStream e) (core_oneRTTStream s)) frame encLevel;
  h ← cm_handler m;
  let s := on_env s (fun e => e <| ev_initialStream := cm_initial m |> <| ev_handshakeStream := cm_handshake m |>) in
  s ← handle_events (s <| core_crypto := h |> <| core_oneRTTStream := cm_oneRTT m |>);
  mret (s, match err with Some _ => false | None => encLevelChanged end, err).

Definition handleStreamFrame (s : core) (now : time) (frame : StreamFrame) (encLevel : EncryptionLevel) : handled :=
  if negb (bool_decide (encLevel = Encryption1RTT)) then
    mret (s, false, Some (QuicError ProtocolViolation (Errorf "received unencrypted stream data on stream %d" [sf_StreamID frame])))
  else
  let '(w, str) := get_receiver (world_of s) (sf_StreamID frame) in
  let s := set_world s w in
  match str with
  | inr err => mret (s, false, Some err)
  | inl None => mret (s, false, None)    (* the stream is closed and already garbage collected *)
  | inl (Some r) =>
      '(rcv, fc, c, notes, err) ← ReceiveStream.handleStreamFrame (receiver_half r).1 (receiver_half r).2 (w_connFlowController w) now frame;
      mret (set_wf s (after_receiver (wf_of s) (sf_StreamID frame) r rcv fc c notes), false, err)
  end.

Definition handleResetStreamFrame (s : core) (now : time) (frame : ResetStreamFrame) : handled :=
  let '(w, str) := get_receiver (world_of s) (rs_StreamID frame) in
  let s := set_world s w in
  match str with
  | inr err => mret (s, false, Some err)
  | inl None => mret (s, false, None)
  | inl (Some r) =>
      let '(rcv, fc, c, notes, err) :=
        ReceiveStream.handleResetStreamFrame (receiver_half r).1 (receiver_half r).2 (w_connFlowController w) now frame in
      mret (set_wf s (after_receiver (wf_of s) (rs_StreamID frame) r rcv fc c notes), false, err)
  end.

Definition handleMaxDataFrame (s : core) (frame : MaxDataFrame) : core :=
  let w := world_of s in
  let c := w_connFlowController w in
  set_world s (w <| w_connFlowController := c <| cfc_base := UpdateSendWindow (cfc_base c) (md_ByteOffset frame) |> |>).

Definition handleMaxStreamDataFrame (s : core) (frame : MaxStreamDataFrame) : handled :=
  let '(w, str) := get_sender (world_of s) (msd_StreamID frame) in
  let s := set_world s w in
  match str with
  | inr err => mret (s, false, Some err)
  | inl None => mret (s, false, None)
  | inl (Some x) =>
      let '(snd, fc, notes) := SendStream.handleMaxStreamDataFrame (sender_half x).1 (sender_half x).2 frame in
      mret (set_wf s (after_sender (wf_of s) (msd_StreamID frame) x snd fc (w_connFlowController w) notes), false, None)
  end.

Definition handleMaxStreamsFrame (s : core) (frame : MaxStreamsFrame) : handled :=
  '(m, err) ← HandleMaxStreamsFrame (w_streamsMap (world_of s)) frame;
  mret (set_world s ((world_of s) <| w_streamsMap := m |>), false, err).

Definition handleStopSendingFrame (s : core) (frame : StopSendingFrame) : handled :=
  let '(w, str) := get_sender (world_of s) (ss_StreamID frame) in
  let s := set_world s w in
  match str with
  | inr err => mret (s, false, Some err)
  | inl None => mret (s, false, None)
  | inl (Some x) =>
      let '(snd, notes) := SendStream.handleStopSendingFrame (sender_half x).1 frame in
      mret (set_wf s (after_sender (wf_of s) (ss_StreamID frame) x snd (sender_half x).2 (w_connFlowController w) notes), false, None)
  end.

Definition handlePathChallengeFrame (s : core) (frame : PathChallengeFrame) : core :=
  core_queueControlFrame s (FPathResponse (mkPathResponseFrame (pc_Data frame))).

Definition handleAckFrame (s : core) (frame : AckFrame) (encLevel : EncryptionLevel) : handled :=
  '(h, err) ← handler_ReceivedAck (handler_of s) frame encLevel (core_lastPacketReceivedTime s);
  let s := set_handler s h in
  match err with
  | Some err => mret (s, false, Some err)
  | None =>
      if bool_decide (encLevel = Encryption1RTT) then
        let s := on_env s (fun e => e <| ev_acks := handler_IgnoreBelow (ev_acks e) (hd_lowestNotConfirmedAcked (handler_of s)) |>) in
        s ← handle_events (s <| core_crypto := cs_Received1RTTAck (core_crypto s) |>);
        mret (s, false, None)
      else mret (s, false, None)
  end.

Definition handleConnectionCloseFrame (s : core) (frame : ConnectionCloseFrame) : core :=
  let e := if cc_IsApplicationError frame then ApplicationError (cc_ErrorCode frame) (ErrorText (cc_ReasonPhrase frame))
           else QuicError (cc_ErrorCode frame) (ErrorText (cc_ReasonPhrase frame)) in
  set_world s (closeRemote (world_of s) e).

Definition handleFrame (s : core) (now : time) (f : Frame) (encLevel : EncryptionLevel) : handled :=
  match f with
  | FCrypto frame => handleCryptoFrame s frame encLevel
  | FStream frame => handleStreamFrame s now frame encLevel
  | FAck frame => handleAckFrame s frame encLevel
  | FConnectionClose frame => mret (handleConnectionCloseFrame s frame, false, None)
  | FResetStream frame => handleResetStreamFrame s now frame
  | FMaxData frame => mret (handleMaxDataFrame s frame, false, None)
  | FMaxStreamData frame => handleMaxStreamDataFrame s frame
  | FMaxStreams frame => handleMaxStreamsFrame s frame
  | FDataBlocked _ | FStreamDataBlocked _ | FStreamsBlocked _ => mret (s, false, None)
  | FStopSending frame => handleStopSendingFrame s frame
  | FPing => mret (s, false, None)
  | FPathChallenge frame => mret (handlePathChallengeFrame s frame, false, None)
  (* since we don't send PATH_CHALLENGEs, we don't expect PATH_RESPONSEs *)
  | FPathResponse _ => mret (s, false, Some (ErrorString "unexpected PATH_RESPONSE frame"))
  | FNewToken _ | FNewConnectionID _ => mret (s, false, None)
  (* since we don't send new connection IDs, we don't expect retirements *)
  | FRetireConnectionID _ => mret (s, false, Some (ErrorString "unexpected RETIRE_CONNECTION_ID frame"))
  end.

(** ** Sending *)

(** A call of the packer. *)
Definition packing_call {A} (s : core) (m : sealingManager -> packing (W := world) (P := numbers C) A) : outcome (core * (A + goerr)) :=
  cs ← sealing_manager (core_crypto s);
  '(e, r) ← m cs (core_env s);
  mret (s <| core_env := e |>, r).

Definition sendPackedPacket (s : core) (now : time) (packet : packedPacket) : core * option goerr :=
  let s := if IsZero (core_firstAckElicitingPacketAfterIdleSentTime s) && IsAckEliciting packet
           then s <| core_firstAckElicitingPacketAfterIdleSentTime := now |> else s in
  conn_Write s (pp_raw packet).

(** The loop over the packets of a retransmission. *)
Fixpoint send_all (s : core) (now : time) (packets : list packedPacket) : core * option goerr :=
  match packets with
  | [] => (s, None)
  | packet :: packets =>
      match sendPackedPacket s now packet with
      | (s, Some err) => (s, Some err)
      | (s, None) => send_all s now packets
      end
  end.

Definition maybeSendAckOnlyPacket (s : core) (now : time) : outcome (core * option goerr) :=
  '(s, r) ← packing_call s (fun cs => MaybePackAckPacket cs now);
  match r with
  | inr err => mret (s, Some err)
  | inl None => mret (s, None)
  | inl (Some packet) =>
      h ← handler_SentPacket (handler_of s) (ToAckHandlerPacket packet now);
      mret (sendPackedPacket (set_handler s h) now packet)
  end.

(** The end of [maybeSendRetransmission] and of [sendProbePacket]. *)
Definition send_retransmission (s : core) (now : time) (p : SentPacket) : outcome (core * option goerr) :=
  '(s, r) ← packing_call s (fun cs => PackRetransmission cs p);
  match r with
  | inr err => mret (s, Some err)
  | inl packets =>
      h ← handler_SentPacketsAsRetransmission (handler_of s) (map (fun packet => ToAckHandlerPacket packet now) packets) (sp_PacketNumber p);
      mret (send_all (set_handler s h) now packets)
  end.

Definition maybeSendRetransmission (s : core) (now : time) : outcome (core * (bool * option goerr)) :=
  let '(h, retransmitPacket) := DequeuePacketForRetransmission (handler_of s) in
  let s := set_handler s h in
  match retransmitPacket with
  | None => mret (s, (false, None))
  | Some p =>
      '(s, err) ← send_retransmission s now p;
      mret (s, (isNone err, err))
  end.

Definition sendProbePacket (s : core) (now : time) : outcome (core * option goerr) :=
  '(h, p, err) ← DequeueProbePacket (handler_of s);
  let s := set_handler s h in
  match err, p with
  | Some err, _ => mret (s, Some err)
  | None, Some p => send_retransmission s now p
  | None, None => Panic nil_dereference
  end.

(** [mapOrder] is the order of the iteration over the streams with window updates. *)
Variable mapOrder : gset StreamID -> list StreamID.

Definition queue_window_updates (s : core) (now : time) : core :=
  let w := world_of s in
  let q := w_windowUpdateQueue w in
  let '(q, w, f) := @QueueAll world (world_updates now (smoothedRTT (rtt_of s))) (mapOrder (wq_queue q)) q w (ev_framer (core_env s)) in
  set_wf s (w <| w_windowUpdateQueue := q |>, f).

Definition sendPacket (s : core) (now : time) : outcome (core * (bool * option goerr)) :=
  let w := world_of s in
  let '(b, (isBlocked, offset)) := IsNewlyBlocked (cfc_base (w_connFlowController w)) in
  let w := w <| w_connFlowController := (w_connFlowController w) <| cfc_base := b |> |> in
  let f := ev_framer (core_env s) in
  let f := if isBlocked : bool then framer_QueueControlFrame f (FDataBlocked (mkDataBlockedFrame offset)) else f in
  let s := queue_window_updates (set_wf s (w, f)) now in
  '(s, r) ← packing_call s (fun cs => PackPacket cs now);
  match r with
  | inr err => mret (s, (false, Some err))
  | inl None => mret (s, (false, None))
  | inl (Some packet) =>
      h ← handler_SentPacket (handler_of s) (ToAckHandlerPacket packet now);
      let '(s, err) := sendPackedPacket (set_handler s h) now packet in
      mret (s, (isNone err, err))
  end.

(** How the loop of [sendPackets] is left: by [break], or by [return]. *)
Inductive sendLoop := LoopBreak (numPacketsSent : Z) | LoopReturn (err : option goerr).

(** A round of the loop, up to the comparison with the number of packets: the loop is left, or the number of packets that were sent. *)
Definition send_round (s : core) (now : time) (sendMode : SendMode) (numPacketsSent : Z) : outcome (core * (sendLoop + Z)) :=
  match sendMode with
  | SendNone => mret (s, inl (LoopBreak numPacketsSent))
  | SendAck =>
      if 0 <? numPacketsSent then mret (s, inl (LoopReturn None)) else
      '(s, err) ← maybeSendAckOnlyPacket s now;
      mret (s, inl (LoopReturn err))
  | SendPTO =>
      '(s, err) ← sendProbePacket s now;
      match err with
      | Some err => mret (s, inl (LoopReturn (Some err)))
      | None => mret (s, inr (numPacketsSent + 1))
      end
  | SendRetransmission =>
      '(s, (sentPacket, err)) ← maybeSendRetransmission s now;
      match err with
      | Some err => mret (s, inl (LoopReturn (Some err)))
      | None => mret (s, inr (if sentPacket : bool then numPacketsSent + 1 else numPacketsSent))
      end
  | SendAny =>
      '(s, (sentPacket, err)) ← sendPacket s now;
      match err with
      | Some err => mret (s, inl (LoopReturn (Some err)))
      | None => if negb sentPacket then mret (s, inl (LoopBreak numPacketsSent)) else mret (s, inr (numPacketsSent + 1))
      end
  end.

(** [None]: there was not enough fuel. *)
Fixpoint send_loop (fuel : nat) (s : core) (now : time) (sendMode : SendMode) (numPacketsSent numPackets : Z) :
    option (outcome (core * sendLoop)) :=
  match fuel with
  | O => None
  | S fuel =>
      match send_round s now sendMode numPacketsSent with
      | Ret (s, inl r) => Some (mret (s, r))
      | Ret (s, inr numPacketsSent) =>
          if numPackets <=? numPacketsSent then Some (mret (s, LoopBreak numPacketsSent))
          else send_loop fuel s now (handler_SendMode (handler_of s)) numPacketsSent numPackets
      | Error e => Some (Error e)
      | Panic msg => Some (Panic msg)
      end
  end.

Definition sendPackets (s : core) (now : time) : outcome (core * option goerr) :=
  let s := s <| core_pacingDeadline := zero_time |> in
  let sendMode := handler_SendMode (handler_of s) in
  match sendMode with
  | SendNone => mret (s, None)
  | _ =>
      let numPackets := ShouldSendNumPackets (handler_of s) in
      '(s, r) ← default (Panic "out of fuel") (send_loop (S (Z.to_nat numPackets)) s now sendMode 0 numPackets);
      match r with
      | LoopReturn err => mret (s, err)
      | LoopBreak numPacketsSent =>
          (* Only start the pacing timer if we sent as many packets as we were allowed. *)
          mret (if numPacketsSent =? numPackets then s <| core_pacingDeadline := hd_nextSendTime (handler_of s) |> else s, None)
      end
  end.

(** ** Closing *)

(** [error_text] is [Error()] of an error. *)
Variable error_text : goerr -> bytes.

(** An error that is not a [QuicError] becomes one. *)
Definition ToQuicError (err : goerr) : goerr :=
  match err with
  | QuicError _ _ | TimeoutError _ | ApplicationError _ _ => err
  | _ => QuicError InternalError err
  end.

Definition ErrorCode (quicErr : goerr) : Z :=
  match quicErr with QuicError code _ | ApplicationError code _ => code | _ => 0 end.
Definition ErrorMessage (quicErr : goerr) : bytes :=
  match quicErr with
  | QuicError _ (ErrorText text) | ApplicationError _ (ErrorText text) => text
  | QuicError _ cause | ApplicationError _ cause => error_text cause
  | err => error_text err
  end.
Definition IsCryptoError (quicErr : goerr) : bool := (0x100 <=? ErrorCode quicErr) && (ErrorCode quicErr <? 0x200).

(** [sendConnectionClose], with the packet that is kept. *)
Definition sendConnectionClose (s : core) (quicErr : goerr) : outcome (core * option packedPacket * option goerr) :=
  let reason := if IsCryptoError quicErr then [] else ErrorMessage quicErr in   (* don't send details of crypto errors *)
  '(s, r) ← packing_call s (fun cs => PackConnectionClose cs (mkConnectionCloseFrame false (ErrorCode quicErr) reason));
  match r with
  | inr err => mret (s, None, Some err)
  | inl packet => let '(s, err) := conn_Write s (pp_raw packet) in mret (s, Some packet, err)
  end.

Definition handleCloseError (s : core) (closeErr : closeError) : outcome (core * option packedPacket) :=
  let quicErr := match ce_err closeErr with None => QuicError NoError (ErrorString EmptyString) | Some err => ToQuicError err end in
  let w := world_of s in
  let s := set_world s (w <| w_streamsMap := CloseWithError (w_streamsMap w) (Some quicErr) |>) in
  if negb (ce_sendClose closeErr) then mret (s, None)
  (* If this is a remote close we're done here *)
  else if ce_remote closeErr then mret (s, None)
  else '(s, packet, _) ← sendConnectionClose s quicErr; mret (s, packet).

Definition session_Close (s : core) : core := core_closeLocal s None.
Definition session_CloseWithError (s : core) (code : Z) (desc : bytes) : core := core_closeLocal s (Some (QuicError code (ErrorText desc))).

(** ** Completion of the handshake and timers *)

Definition handleHandshakeComplete (s : core) : outcome core :=
  let w := world_of s in
  let s := set_world (s <| core_handshakeComplete := true |> <| core_handshakeCompleteChan := ChanNil |>)
             (w <| w_runner := w_runner w ++ [RunnerHandshakeComplete] |>) in
  match core_perspective s with
  | PerspectiveClient => mret s
  | PerspectiveServer =>
      match core_newToken s with
      | Panic msg => Panic msg
      | Error err => mret (core_queueControlFrame (core_closeLocal s (Some err)) (FNewToken (mkNewTokenFrame [])))
      | Ret token => mret (core_queueControlFrame s (FNewToken (mkNewTokenFrame token)))
      end
  end.

Definition idleTimeoutStartTime (s : core) : time :=
  MaxTime (core_lastPacketReceivedTime s) (core_firstAckElicitingPacketAfterIdleSentTime s).

Definition peer_idle_timeout (s : core) : outcome duration :=
  match core_peerParams s with Some params => mret (tp_IdleTimeout params) | None => Panic nil_dereference end.

(** [maybeResetTimer]: the deadline that the timer is reset to. *)
Definition maybeResetTimer (s : core) : outcome time :=
  deadline ← (if cfg_KeepAlive (core_config s) && core_handshakeComplete s && negb (core_keepAlivePingSent s) then
                idle ← peer_idle_timeout s; mret (Add (idleTimeoutStartTime s) (idle ÷ 2))
              else mret (Add (idleTimeoutStartTime s) (cfg_IdleTimeout (core_config s))));
  let earlier deadline t := if negb (IsZero t) then MinTime deadline t else deadline in
  let deadline := earlier deadline (handler_GetAlarmTimeout (ev_acks (core_env s))) in
  let deadline := earlier deadline (hd_alarm (handler_of s)) in
  let deadline := if negb (core_handshakeComplete s)
                  then MinTime deadline (Add (core_sessionCreationTime s) (cfg_HandshakeTimeout (core_config s))) else deadline in
  mret (earlier deadline (core_pacingDeadline s)).

(** ** The packets of the session *)

Record receivedPacket := mkReceivedPacket {
  rp_rcvTime : time;
  rp_data : bytes;
  rp_buffer : nat
}.

Record session := mkSession {
  sess_core : core;
  sess_receivedPackets : list receivedPacket;         (* capacity MaxSessionUnprocessedPackets *)
  sess_undecryptablePackets : list receivedPacket;
  sess_refCount : gmap nat Z;                         (* of the buffers that are in use *)
  sess_putBack : list nat;                            (* the buffers put back into the pool, oldest first *)
  sess_stopped : bool;                                (* the run loop was left *)
  sess_closed : bool;
  sess_connectionClosePacket : option packedPacket;
  sess_packetsReceivedAfterClose : Z;
  sess_timer : time
}.

#[global] Instance session_eta : Eta session := fun s =>
  mkSession (sess_core s) (sess_receivedPackets s) (sess_undecryptablePackets s) (sess_refCount s) (sess_putBack s)
    (sess_stopped s) (sess_closed s) (sess_connectionClosePacket s) (sess_packetsReceivedAfterClose s) (sess_timer s).

(** The buffers (buffer_pool.go). *)
Definition refCount (s : session) (b : nat) : Z := default 0 (sess_refCount s !! b).
Definition set_refCount (s : session) (b : nat) (n : Z) : session := s <| sess_refCount := <[b := n]> (sess_refCount s) |>.
Definition Split (s : session) (b : nat) : session := set_refCount s b (refCount s b + 1).
Definition Decrement (s : session) (b : nat) : outcome session :=
  let n := refCount s b - 1 in
  if n <? 0 then Panic "negative packetBuffer refCount" else mret (set_refCount s b n).
Definition MaybeRelease (s : session) (b : nat) : session :=
  if refCount s b =? 0 then s <| sess_putBack := sess_putBack s ++ [b] |> else s.

(** The exponential backoff: [true] for 1, 2, 4, 8, ... *)
Fixpoint power_of_two (fuel : nat) (n : Z) : bool :=
  match fuel with
  | O => true
  | S fuel => if 1 <? n then if negb (n mod 2 =? 0) then false else power_of_two fuel (n / 2) else true
  end.

Definition handlePacketAfterClosed (s : session) : session :=
  let n := sess_packetsReceivedAfterClose s + 1 in
  let s := s <| sess_packetsReceivedAfterClose := n |> in
  match sess_connectionClosePacket s with
  | None => s
  | Some packet => if power_of_two (Z.to_nat n) n then s <| sess_core := (conn_Write (sess_core s) (pp_raw packet)).1 |> else s
  end.

Definition handlePacket (s : session) (p : receivedPacket) : session :=
  let s := if sess_closed s then handlePacketAfterClosed s else s in
  (* Discard packets once the amount of queued packets is larger than the channel size *)
  if Z.of_nat (length (sess_receivedPackets s)) <? MaxSessionUnprocessedPackets
  then s <| sess_receivedPackets := sess_receivedPackets s ++ [p] |> else s.

Definition tryQueueingUndecryptablePacket (s : session) (p : receivedPacket) : session :=
  if core_handshakeComplete (sess_core s) then s
  else if MaxUndecryptablePackets <? Z.of_nat (length (sess_undecryptablePackets s)) + 1 then s
  else s <| sess_undecryptablePackets := sess_undecryptablePackets s ++ [p] |>.

Definition tryDecryptingQueuedPackets (s : session) : session :=
  foldl handlePacket s (sess_undecryptablePackets s) <| sess_undecryptablePackets := [] |>.

(** The loop of [handleUnpackedPacket] over the frames: the error, and whether a frame is ack-eliciting. *)
Fixpoint handle_frames (fuel : nat) (s : session) (now : time) (encLevel : EncryptionLevel) (r : bytes) (isAckEliciting : bool) :
    outcome (session * option goerr * bool) :=
  match fuel with
  | O => Panic "out of fuel"
  | S fuel =>
      match ParseNext (core_ackDelayExponent (sess_core s)) encLevel r with
      | Panic msg => Panic msg
      | Error err => mret (s, Some err, isAckEliciting)
      | Ret (None, _) => mret (s, None, isAckEliciting)
      | Ret (Some frame, r) =>
          let isAckEliciting := isAckEliciting || IsFrameAckEliciting frame in
          '(c, decrypt, err) ← handleFrame (sess_core s) now frame encLevel;
          let s := s <| sess_core := c |> in
          let s := if decrypt : bool then tryDecryptingQueuedPackets s else s in
          match err with
          | Some err => mret (s, Some err, isAckEliciting)
          | None => handle_frames fuel s now encLevel r isAckEliciting
          end
      end
  end.

(** The beginning of [handleUnpackedPacket]: the first packet can change the connection ID. *)
Definition packet_accepted (s : core) (packet : unpackedPacket) (rcvTime : time) : core :=
  let hdr := eh_Header (up_hdr packet) in
  let s := if bool_decide (core_perspective s = PerspectiveClient) && negb (core_receivedFirstPacket s) && hd_IsLongHeader hdr &&
              negb (connID_Equal (hd_SrcConnectionID hdr) (core_destConnID s)) then
             set_packer (s <| core_destConnID := hd_SrcConnectionID hdr |>)
               (ChangeDestConnectionID (ev_packer (core_env s)) (hd_SrcConnectionID hdr))
           else s in
  s <| core_receivedFirstPacket := true |> <| core_lastPacketReceivedTime := rcvTime |>
    <| core_firstAckElicitingPacketAfterIdleSentTime := zero_time |> <| core_keepAlivePingSent := false |>.

Definition handleUnpackedPacket (s : session) (now : time) (packet : unpackedPacket) (rcvTime : time) : outcome (session * option goerr) :=
  match up_data packet with
  | [] => mret (s, Some (QuicError ProtocolViolation (ErrorString "empty packet")))
  | _ :: _ =>
      let s := s <| sess_core := packet_accepted (sess_core s) packet rcvTime |> in
      '(s, err, isAckEliciting) ← handle_frames (S (length (up_data packet))) s now (up_encryptionLevel packet) (up_data packet) false;
      match err with
      | Some err => mret (s, Some err)
      | None =>
          let c := sess_core s in
          '(acks, err) ← handler_ReceivedPacket (ev_acks (core_env c)) (minRTT (rtt_of c)) (up_packetNumber packet)
                           (up_encryptionLevel packet) rcvTime isAckEliciting;
          mret (s <| sess_core := on_env c (fun e => e <| ev_acks := acks |>) |>, err)
      end
  end.

Definition handleRetryPacket (s : core) (hdr : Header) : outcome (core * bool) :=
  if bool_decide (core_perspective s = PerspectiveServer) then mret (s, false)
  else if core_receivedFirstPacket s then mret (s, false)
  else if negb (connID_Equal (hd_OrigDestConnectionID hdr) (core_destConnID s)) then mret (s, false)
  else if connID_Equal (hd_SrcConnectionID hdr) (core_destConnID s) then mret (s, false)
  (* If a token is already set, this means that we already received a Retry from the server. *)
  else if core_receivedRetry s then mret (s, false)
  else
  let s := s <| core_origDestConnID := core_destConnID s |> <| core_destConnID := hd_SrcConnectionID hdr |> <| core_receivedRetry := true |> in
  let n := ev_pns (core_env s) in
  match ResetForRetry (handler_of s) (nm_rand n 0%nat) (nm_rand n 1%nat) with
  | Panic msg => Panic msg
  | Error err => mret (core_closeLocal s (Some err), false)
  | Ret h =>
      let s := on_env s (fun e => e <| ev_pns := draw (draw (n <| nm_handler := h |>)) |>) in
      let s := match cs_ChangeConnectionID (core_crypto s) (core_destConnID s) with Ret c => s <| core_crypto := c |> | _ => s end in
      let p := ev_packer (core_env s) in
      let s := set_packer s (ChangeDestConnectionID (SetToken p (hd_Token hdr)) (core_destConnID s)) in
      mret (set_world s (scheduleSending (world_of s)), true)
  end.

(** [handleSinglePacket], before the deferred [Decrement]: was it processed, and was it queued. *)
Definition single_packet (s : session) (now : time) (p : receivedPacket) (hdr : Header) : outcome (session * bool * bool) :=
  let c := sess_core s in
  if hd_Type hdr =? PacketTypeRetry then
    '(c, processed) ← handleRetryPacket c hdr; mret (s <| sess_core := c |>, processed, false)
  (* After the first packet, all packets with a different source connection have to be ignored. *)
  else if core_receivedFirstPacket c && hd_IsLongHeader hdr && negb (connID_Equal (hd_SrcConnectionID hdr) (core_destConnID c)) then
    mret (s, false, false)
  (* drop 0-RTT packets *)
  else if hd_Type hdr =? PacketType0RTT then mret (s, false, false)
  else
  let '(u, packet) := Unpack (cs_GetOpener (core_crypto c)) (core_unpacker c) hdr (rp_data p) in
  let s := s <| sess_core := c <| core_unpacker := u |> |> in
  match packet with
  | Panic msg => Panic msg
  | Error err =>
      if bool_decide (err = ErrOpenerNotYetAvailable) then mret (tryQueueingUndecryptablePacket s p, false, true)
      else mret (s, false, false)
  | Ret packet =>
      '(s, err) ← handleUnpackedPacket s now packet (rp_rcvTime p);
      match err with
      | Some err => mret (s <| sess_core := core_closeLocal (sess_core s) (Some err) |>, false, false)
      | None => mret (s, true, false)
      end
  end.

Definition handleSinglePacket (s : session) (now : time) (p : receivedPacket) (hdr : Header) : outcome (session * bool) :=
  '(s, processed, wasQueued) ← single_packet s now p hdr;
  if wasQueued : bool then mret (s, processed) else s ← Decrement s (rp_buffer p); mret (s, processed).

(** The loop of [handlePacketImpl] over the packets of a datagram. *)
Fixpoint handle_packets (fuel : nat) (s : session) (now : time) (p : receivedPacket) (data : bytes) (counter : Z)
    (lastConnID : ConnectionID) (processed : bool) : outcome (session * bool) :=
  match fuel with
  | O => Panic "out of fuel"
  | S fuel =>
      match data with
      | [] => mret (s, processed)
      | _ :: _ =>
          let p := if 0 <? counter then mkReceivedPacket (rp_rcvTime p) data (rp_buffer p) else p in
          match ParsePacket (rp_data p) (connID_Len (w_srcConnID (world_of (sess_core s)))) with
          | Panic msg => Panic msg
          | Error _ => mret (s, processed)
          | Ret (hdr, packetData, rest) =>
              if (0 <? counter) && negb (connID_Equal (hd_DestConnectionID hdr) lastConnID) then mret (s, processed) else
              let s := if 0 <? counter then Split s (rp_buffer p) else s in
              let p := mkReceivedPacket (rp_rcvTime p) packetData (rp_buffer p) in
              '(s, wasProcessed) ← handleSinglePacket s now p hdr;
              handle_packets fuel s now p rest (uint8 (counter + 1)) (hd_DestConnectionID hdr) (processed || wasProcessed)
          end
      end
  end.

Definition handlePacketImpl (s : session) (now : time) (rp : receivedPacket) : outcome (session * bool) :=
  '(s, processed) ← handle_packets (S (length (rp_data rp))) s now rp (rp_data rp) 0 [] false;
  mret (MaybeRelease s (rp_buffer rp), processed).

(** ** The run loop *)

(** What the select of the loop found ready; [closeChan] is the beginning of the next round. *)
Inductive wakeup := TimerFired | SendingScheduled | PacketReceived | HandshakeCompleted.

Definition on_core (s : session) (f : core -> core) : session := s <| sess_core := f (sess_core s) |>.

(** The loop was left with an error. *)
Definition run_finish (s : session) (closeErr : closeError) : outcome session :=
  '(c, packet) ← handleCloseError (sess_core s) closeErr;
  let c := c <| core_crypto := cs_Close (core_crypto c) |> in
  mret (s <| sess_core := c |> <| sess_connectionClosePacket := packet |> <| sess_stopped := true |> <| sess_closed := true |>).

(** The beginning of a round, up to the select: [false] when the loop is left.  When the handshake is complete and
    the session is to be closed, the first select takes either: [closeFirst]. *)
Definition run_top (s : session) (closeFirst : bool) : outcome (session * bool) :=
  let w := world_of (sess_core s) in
  let complete := match core_handshakeCompleteChan (sess_core s) with ChanClosed => true | _ => false end in
  match w_closeChan w with
  | Some closeErr =>
      if closeFirst || negb complete then
        s ← run_finish (on_core s (fun c => set_world c (w <| w_closeChan := None |>))) closeErr; mret (s, false)
      else
        c ← handleHandshakeComplete (sess_core s);
        deadline ← maybeResetTimer c;
        mret (s <| sess_core := c |> <| sess_timer := deadline |>, true)
  | None =>
      c ← (if complete then handleHandshakeComplete (sess_core s) else mret (sess_core s));
      deadline ← maybeResetTimer c;
      mret (s <| sess_core := c |> <| sess_timer := deadline |>, true)
  end.

(** The select: [false] when the loop continues with the next round. *)
Definition run_select (s : session) (now : time) (wake : wakeup) : outcome (session * bool) :=
  match wake with
  | TimerFired => mret (s, true)
  | SendingScheduled => mret (on_core s (fun c => set_world c ((world_of c) <| w_sendingScheduled := false |>)), true)
  | PacketReceived =>
      match sess_receivedPackets s with
      | [] => mret (s, false)
      | p :: ps => handlePacketImpl (s <| sess_receivedPackets := ps |>) now p
      end
  | HandshakeCompleted => c ← handleHandshakeComplete (sess_core s); mret (s <| sess_core := c |>, true)
  end.

(** The rest of the round. *)
Definition run_alarm (s : core) (now : time) : outcome core :=
  let timeout := hd_alarm (handler_of s) in
  if negb (IsZero timeout) && Before timeout now then
    '(h, err) ← OnAlarm (handler_of s) now now;
    let s := set_handler s h in
    mret (match err with Some err => core_closeLocal s (Some err) | None => s end)
  else mret s.

Definition keep_alive_due (s : core) (now : time) : outcome bool :=
  if cfg_KeepAlive (core_config s) && negb (core_keepAlivePingSent s) && core_handshakeComplete s &&
     IsZero (core_firstAckElicitingPacketAfterIdleSentTime s)
  then idle ← peer_idle_timeout s; mret (idle ÷ 2 <=? Sub now (core_lastPacketReceivedTime s))
  else mret false.

Definition run_rest (s : core) (now : time) : outcome core :=
  s ← run_alarm s now;
  let pacingDeadline := if IsZero (core_pacingDeadline s) then hd_nextSendTime (handler_of s) else zero_time in
  due ← keep_alive_due s now;
  let wait := negb due && negb (IsZero pacingDeadline) && Before now pacingDeadline in
  let s := if due : bool then (on_env s (fun e => e <| ev_framer := framer_QueueControlFrame (ev_framer e) FPing |>)) <| core_keepAlivePingSent := true |> else s in
  if wait then
    (* we should wait until that deadline *)
    mret (s <| core_pacingDeadline := pacingDeadline |>)
  else if negb (core_handshakeComplete s) && (cfg_HandshakeTimeout (core_config s) <=? Sub now (core_sessionCreationTime s)) then
    mret (set_world s (destroyImpl (world_of s) (TimeoutError "Handshake did not complete in time")))
  else if core_handshakeComplete s && (cfg_IdleTimeout (core_config s) <=? Sub now (idleTimeoutStartTime s)) then
    mret (set_world s (destroyImpl (world_of s) (TimeoutError "No recent network activity")))
  else
  '(s, err) ← sendPackets s now;
  mret (match err with Some err => core_closeLocal s (Some err) | None => s end).

(** What can happen next to a session that runs: the select has to be able to take the case. *)
Definition ready (s : session) (now : time) (wake : wakeup) : bool :=
  match wake with
  | TimerFired => sess_timer s <=? now
  | SendingScheduled => w_sendingScheduled (world_of (sess_core s))
  | PacketReceived => (0 <? length (sess_receivedPackets s))%nat
  | HandshakeCompleted => match core_handshakeCompleteChan (sess_core s) with ChanClosed => true | _ => false end
  end.

(** From a select to the next one; [None] when the case is not ready. *)
Definition run_round (s : session) (now : time) (wake : wakeup) (closeFirst : bool) : outcome (option session) :=
  if sess_stopped s || negb (ready s now wake) then mret None else
  '(s, go) ← run_select s now wake;
  c ← (if go : bool then run_rest (sess_core s) now else mret (sess_core s));
  '(s, _) ← run_top (s <| sess_core := c |>) closeFirst;
  mret (Some s).

(** The select takes [closeChan]. *)
Definition run_close (s : session) : outcome (option session) :=
  let w := world_of (sess_core s) in
  match w_closeChan w with
  | Some closeErr =>
      if sess_stopped s then mret None else
      s ← run_finish (on_core s (fun c => set_world c (w <| w_closeChan := None |>))) closeErr; mret (Some s)
  | None => mret None
  end.

(** ** Construction *)

Definition errCloseForRecreating : goerr := ErrorString "closing session in order to recreate it".

(** [closeForRecreating]: the first packet number of the next session. *)
Definition closeForRecreating (s : core) : outcome (core * PacketNumber) :=
  let s := set_world s (destroyImpl (world_of s) errCloseForRecreating) in
  '(nextPN, _) ← PeekPacketNumber (handler_of s) EncryptionInitial;
  mret (s, nextPN).

(** What [preSetup] makes. *)
Definition preSetup (cfg : config) : RTTStats * receivedPacketHandler * connectionFlowController :=
  (NewRTTStats, NewReceivedPacketHandler,
   NewConnectionFlowController InitialMaxData (cfg_MaxReceiveConnectionFlowControlWindow cfg)).

(** [newSession] and [newClientSession], with the handshake [h], the congestion controller [cc] and random numbers. *)
Definition new_core (perspective : Perspective) (remoteAddr : addr) (destConnID srcConnID : ConnectionID) (cfg : config)
    (initialPacketNumber : PacketNumber) (version : VersionNumber) (h : H) (cc : C) (rand : nat -> Z) (newToken : outcome bytes)
    (writeErrs : list (option goerr)) (now : time) : core :=
  let '(rttStats, acks, connFlowController) := preSetup cfg in
  let handler := new_handler initialPacketNumber rttStats cc (rand 0%nat) (rand 1%nat) (rand 2%nat) in
  let streams := newStreamsMap (newFlowController cfg perspective None) (uint64 (cfg_MaxIncomingStreams cfg))
                   (uint64 (cfg_MaxIncomingUniStreams cfg)) perspective in
  let w := mkWorld streams connFlowController newWindowUpdateQueue false false None srcConnID [] in
  let e := mkEnv (newPacketPacker destConnID srcConnID remoteAddr perspective version) newCryptoStream newCryptoStream
             (mkNumbers handler (fun n => rand (n + 3)%nat)) acks newFramer w in
  mkCore e h newCryptoStream perspective cfg destConnID [] newPacketUnpacker 0 None false ChanOpen false
    false false now now zero_time zero_time false newToken [] writeErrs.

Definition newSession := new_core PerspectiveServer.
Definition newClientSession := new_core PerspectiveClient.

(** [postSetup] *)
Definition new_session (c : core) : session := mkSession c [] [] ∅ [] false false None 0 zero_time.

(** A client that has written its ClientHello sends it. *)
Definition hello_written (s : session) : session :=
  let c := sess_core s in
  if bool_decide (core_perspective c = PerspectiveClient) && core_clientHelloWritten c
  then on_core s (fun c => set_world c (scheduleSending (world_of c))) else s.

(** The beginning of [run]: a client waits for its ClientHello, or for the session to be closed. *)
Definition run_start (s : session) (closeFirst : bool) : outcome (option session) :=
  let c := sess_core s in
  if bool_decide (core_perspective c = PerspectiveClient) && negb (core_clientHelloWritten c) && isNone (w_closeChan (world_of c)) then mret None
  else '(s, _) ← run_top (hello_written s) closeFirst; mret (Some s).

End Session.
