(* ===== verification/SessionProperties.v ===== *)
(** * The session: properties

    How a session ends, which connection IDs it uses, when its timer fires, and that its loops come to an end.
    [moves] is what every function of the session keeps: the identity of the connection,
    and that it is closed at most once. *)

From S2P Require Import Prelude VarInt Protocol GoFloat AckFrame Frames FrameSorter CryptoStream ReceivedTracker FlowControl SendStream ReceiveStream Stream StreamsMap RTTStats SentHistory SentPacketHandler Headers Framer Aead PacketPacker TransportParameters CryptoSetup Session.

(** ** The packer *)

(** What the packer does not change of itself. *)
Record same_packer (p p' : packetPacker) : Prop := {
  sp_dest : pk_destConnID p' = pk_destConnID p;
  sp_src : pk_srcConnID p' = pk_srcConnID p;
  sp_token : pk_token p' = pk_token p
}.

#[global] Instance same_packer_preorder : PreOrder same_packer.
Proof. split; [by split|]. intros p q r [] []. split; congruence. Qed.

Section Packing.
Context {W P : Type} `{StreamGetter W} `{PacketNumberManager P}.
(** A relation between the worlds that the streams keep. *)
Context (R : W -> W -> Prop) `{!PreOrder R}.
Context (get_R : forall w id w' found, getSendStream w id = (w', found) -> R w w').
Context (pop_R : forall w f id n w' f' r, popFrame (w, f) id n = Ret (w', f', r) -> R w w').

Definition env_R (e e' : env (W := W) (P := P)) : Prop := R (ev_world e) (ev_world e') /\ same_packer (ev_packer e) (ev_packer e').

#[local] Instance env_R_preorder : PreOrder env_R.
Proof. split; [by split|]. intros e1 e2 e3 [] []. split; by etrans. Qed.

Definition keeps {A} (m : packing (W := W) (P := P) A) (e : env) : Prop := forall e' r, m e = Ret (e', r) -> env_R e e'.

Lemma keeps_bind {A B} (m : packing A) (k : A -> packing B) e :
  keeps m e -> (forall e1 a, m e = Ret (e1, inl a) -> keeps (k a) e1) -> keeps (m ≫= k) e.
Proof.
  intros Hm Hk e' r E. unfold mbind, packing_bind in E. destruct (m e) as [[e1 [a|err]]| |] eqn:Em; try done.
  - etrans; [by eapply Hm|]. by eapply Hk.
  - injection E as <- <-. by eapply Hm.
Qed.

Lemma keeps_get {B} (k : env -> packing B) e : keeps (k e) e -> keeps (get ≫= k) e.
Proof. done. Qed.

Lemma keeps_put {B} (k : unit -> packing B) e e1 : env_R e e1 -> keeps (k tt) e1 -> keeps (put e1 ≫= k) e.
Proof. intros He Hk e' r E. etrans; [exact He|]. by apply Hk in E. Qed.

Lemma keeps_call {A} (x : outcome A) e : keeps (call x) e.
Proof. intros e' r E. unfold call in E. destruct x; simplify_eq; done. Qed.

Lemma keeps_call_bind {A B} (x : outcome A) (k : A -> packing B) e : (forall a, keeps (k a) e) -> keeps (call x ≫= k) e.
Proof.
  intros Hk. apply keeps_bind; [apply keeps_call|]. intros e1 a E. unfold call in E. destruct x; simplify_eq. apply Hk.
Qed.

Lemma keeps_ret {A} (a : A) e : keeps (mret a) e.
Proof. intros e' r E. unfold mret, packing_ret in E. by simplify_eq. Qed.

Lemma append_streams_R n w f frames len added maxLen w' f' frames' len' added' :
  append_streams n w f frames len added maxLen = Ret (w', f', frames', len', added') -> R w w'.
Proof.
  revert w f frames len added. induction n as [|n IH]; intros w f frames len added; cbn [append_streams].
  { intros E. by injection E as <-. }
  case_match; [intros E; by injection E as <-|]. destruct (fr_streamQueue f) as [|id queue]; [done|].
  destruct (getSendStream w id) as [w1 fnd] eqn:Eg. apply get_R in Eg. destruct fnd; cbn [negb].
  2: { intros E. etrans; [exact Eg|]. by eapply IH. }
  destruct (VarIntLen _) as [l| |]; cbn [mbind outcome_bind]; try done.
  destruct (popFrame _ _ _) as [[[w2 f2] [frame more]]| |] eqn:Ep; cbn [mbind outcome_bind]; try done. apply pop_R in Ep.
  destruct frame as [fr|].
  - destruct (lengthStreamFrame fr) as [l2| |]; cbn [mbind outcome_bind]; try done. intros E. etrans; [exact Eg|]. etrans; [exact Ep|]. by eapply IH.
  - intros E. etrans; [exact Eg|]. etrans; [exact Ep|]. by eapply IH.
Qed.

Lemma appendStreamFrames_keeps frames n e : keeps (appendStreamFrames frames n) e.
Proof.
  unfold appendStreamFrames. apply keeps_get. apply keeps_bind; [apply keeps_call|]. intros e1 [[[w f] frs] l] E.
  unfold call in E. destruct (AppendStreamFrames _ _ _ _) as [[[[w' f'] frs'] l']| |] eqn:Ea; try done. injection E as <- <- <- <- <-.
  apply keeps_put; [|apply keeps_ret]. split; [|done]. cbn. unfold AppendStreamFrames in Ea.
  destruct (append_streams _ _ _ _ _ _ _) as [[[[[w1 f1] frs1] l1] ad]| |] eqn:Es; cbn in Ea; try done. apply append_streams_R in Es.
  destruct ad; [destruct (without_last_len frs1) as [?| |]; cbn in Ea; try done|]; by injection Ea as <- <- <- <-.
Qed.

Lemma appendControlFrames_keeps frames n e : keeps (appendControlFrames frames n) e.
Proof.
  unfold appendControlFrames. apply keeps_get. apply keeps_bind; [apply keeps_call|]. intros e1 [[f frs] l] E.
  unfold call in E. destruct (AppendControlFrames _ _ _) as [x| |]; simplify_eq. apply keeps_put; [by split|apply keeps_ret].
Qed.

Lemma getAckFrame_keeps now lvl e : keeps (getAckFrame now lvl) e.
Proof. intros e' r E. unfold getAckFrame in E. destruct (handler_GetAckFrame _ _ _). by simplify_eq. Qed.

Lemma popCryptoFrame_keeps lvl n e : keeps (popCryptoFrame lvl n) e.
Proof.
  unfold popCryptoFrame. apply keeps_get.
  destruct lvl; (apply keeps_bind; [apply keeps_call|]; intros e1 [s cf] E; unfold call in E;
    destruct (PopCryptoFrame _ _) as [x| |]; simplify_eq; apply keeps_put; [by split|apply keeps_ret]).
Qed.

Lemma getHeader_keeps lvl e : keeps (getHeader lvl) e.
Proof. unfold getHeader. apply keeps_get. apply keeps_bind; [apply keeps_call|]. intros e1 [pn len] E. apply keeps_ret. Qed.

Lemma seal_keeps hdr pl n lvl s e : keeps (writeAndSealPacketWithPadding hdr pl n lvl s) e.
Proof.
  unfold writeAndSealPacketWithPadding. apply keeps_bind; [apply keeps_call|]. intros e1 [b off] _. apply keeps_get.
  case_match; [apply keeps_call|]. apply keeps_bind; [apply keeps_call|]. intros e2 raw E2.
  apply keeps_bind; [apply keeps_call|]. intros e3 [pns num] E3. unfold call in E2, E3.
  destruct (seal_packet _ _ _ _) as [?| |]; simplify_eq. destruct (popPacketNumber _ _) as [?| |]; simplify_eq.
  apply keeps_put; [by split|]. case_match; [apply keeps_call|apply keeps_ret].
Qed.

Lemma writeAndSealPacket_keeps hdr pl lvl s e : keeps (writeAndSealPacket hdr pl lvl s) e.
Proof.
  unfold writeAndSealPacket. apply keeps_get. case_match; [case_match|]; try apply seal_keeps.
  apply keeps_bind; [apply keeps_call|]. intros. apply seal_keeps.
Qed.

(** The rest is made of those. *)
Create HintDb keeps.
#[local] Hint Resolve keeps_call keeps_ret appendStreamFrames_keeps appendControlFrames_keeps getAckFrame_keeps popCryptoFrame_keeps
  getHeader_keeps writeAndSealPacket_keeps : keeps.

Ltac keep :=
  repeat match goal with
  | |- keeps (get ≫= _) _ => apply keeps_get
  | |- keeps (put _ ≫= _) _ => apply keeps_put; [by split|]
  | |- keeps (call _ ≫= _) _ => apply keeps_call_bind; intros
  | |- keeps (mbind _ _) _ => apply keeps_bind; [|intros]
  | |- keeps (let '(_, _) := ?x in _) _ => destruct x
  | |- keeps (match ?x with _ => _ end) _ => destruct x
  | |- keeps _ _ => solve [auto with keeps]
  end.

Lemma composeNextPacket_keeps now n e : keeps (composeNextPacket now n) e.
Proof. unfold composeNextPacket. keep. Qed.

Lemma crypto_level_keeps now e : keeps (crypto_level now) e.
Proof. unfold crypto_level. keep. Qed.
#[local] Hint Resolve composeNextPacket_keeps crypto_level_keeps : keeps.

Lemma maybePackCryptoPacket_keeps cs now e : keeps (maybePackCryptoPacket cs now) e.
Proof. unfold maybePackCryptoPacket. keep. Qed.

Lemma pack_payload_keeps hdr pl lvl s e : keeps (pack_payload hdr pl lvl s) e.
Proof. unfold pack_payload. keep. Qed.
#[local] Hint Resolve maybePackCryptoPacket_keeps pack_payload_keeps : keeps.

Lemma PackPacket_keeps cs now e : keeps (PackPacket cs now) e.
Proof. unfold PackPacket. keep. Qed.

Lemma MaybePackAckPacket_keeps cs now e : keeps (MaybePackAckPacket cs now) e.
Proof. unfold MaybePackAckPacket. keep. Qed.

Lemma PackConnectionClose_keeps cs ccf e : keeps (PackConnectionClose cs ccf) e.
Proof. unfold PackConnectionClose. keep. Qed.

Lemma retransmit_keeps fuel control streams lvl s e : keeps (retransmit fuel control streams lvl s) e.
Proof.
  revert control streams e. induction fuel as [|fuel IH]; intros control streams e; cbn [retransmit]; [apply keeps_call|].
  keep; apply IH.
Qed.
#[local] Hint Resolve retransmit_keeps : keeps.

Lemma PackRetransmission_keeps cs p e : keeps (PackRetransmission cs p) e.
Proof. unfold PackRetransmission. keep. Qed.

End Packing.

(** ** Results *)

(** What holds of the value, if there is one. *)
Definition sat {A} (P : A -> Prop) (x : outcome A) : Prop := match x with Ret a => P a | _ => True end.

Lemma sat_bind {A B} (Q : A -> Prop) (P : B -> Prop) (x : outcome A) (k : A -> outcome B) :
  sat Q x -> (forall a, Q a -> sat P (k a)) -> sat P (x ≫= k).
Proof. intros Hx Hk. destruct x; cbn; auto. Qed.

Lemma sat_any {A B} (P : B -> Prop) (x : outcome A) (k : A -> outcome B) : (forall a, sat P (k a)) -> sat P (x ≫= k).
Proof. intros Hk. destruct x; cbn; auto. Qed.

Lemma sat_mono {A} (P Q : A -> Prop) (x : outcome A) : sat P x -> (forall a, P a -> Q a) -> sat Q x.
Proof. destruct x; cbn; auto. Qed.

Lemma sat_ret {A} (P : A -> Prop) x a : sat P x -> x = Ret a -> P a.
Proof. intros Hs ->. exact Hs. Qed.

Ltac sat_if := match goal with |- sat _ (if ?b then _ else _) => destruct b end.

(** ** Closing the session once *)

Definition is_close (c : runnerCall) : bool := match c with RunnerRetire _ | RunnerRemove _ => true | _ => false end.

(** The calls that take the session out of the runner. *)
Definition closes (w : world) : list runnerCall := List.filter is_close (w_runner w).

Definition close_call (w : world) (e : closeError) : runnerCall :=
  if ce_sendClose e then RunnerRetire (w_srcConnID w) else RunnerRemove (w_srcConnID w).

(** From [w] to [w'] the session is closed at most once, and not at all if it was closed before. *)
Record wle (w w' : world) : Prop := {
  wl_src : w_srcConnID w' = w_srcConnID w;
  wl_closed : w_closeOnce w = true -> w_closeOnce w' = true /\ w_closeChan w' = w_closeChan w /\ closes w' = closes w;
  wl_open : w_closeOnce w = false ->
    w_closeOnce w' = false /\ w_closeChan w' = w_closeChan w /\ closes w' = closes w \/
    w_closeOnce w' = true /\ exists e, w_closeChan w' = Some e /\ (ce_sendClose e = true -> ce_remote e = false) /\
      closes w' = closes w ++ [close_call w e]
}.

Lemma wle_same w w' :
  w_srcConnID w' = w_srcConnID w -> w_closeOnce w' = w_closeOnce w -> w_closeChan w' = w_closeChan w -> closes w' = closes w ->
  wle w w'.
Proof. intros E1 E2 E3 E4. split; [done|intros E; by rewrite E2|]. intros E. left. by rewrite E2. Qed.

#[global] Instance wle_preorder : PreOrder wle.
Proof.
  split; [intros w; by apply wle_same|]. intros w1 w2 w3 [S1 C1 O1] [S2 C2 O2]. split; [congruence|..].
  - intros E. destruct (C1 E) as (E1 & E2 & E3). destruct (C2 E1) as (F1 & F2 & F3). split_and!; congruence.
  - intros E. destruct (O1 E) as [(E1 & E2 & E3)|(E1 & e & E2 & Hr & E3)].
    + destruct (O2 E1) as [(F1 & F2 & F3)|(F1 & e & F2 & Hr & F3)].
      * left. by rewrite F1, F2, F3, E2, E3.
      * right. split; [done|]. exists e. rewrite F3, E3. unfold close_call in *. by rewrite S1.
    + right. destruct (C2 E1) as (F1 & F2 & F3). split; [done|]. exists e. by rewrite F2, F3, E2, E3.
Qed.

Lemma close_once_wle w e :
  (ce_sendClose e = true -> ce_remote e = false) -> wle w (close_once w (close_call w e) e).
Proof.
  intros Hr. unfold close_once. destruct (w_closeOnce w) eqn:E; [done|]. split; [done|congruence|]. intros _. right. split; [done|].
  exists e. split_and!; try done. unfold closes. cbn. rewrite List.filter_app. cbn. unfold close_call. by destruct (ce_sendClose e).
Qed.

Lemma closeLocal_wle w e : wle w (closeLocal w e).
Proof. by apply (close_once_wle w (mkCloseError e false true)). Qed.
Lemma destroyImpl_wle w e : wle w (destroyImpl w e).
Proof. by apply (close_once_wle w (mkCloseError (Some e) false false)). Qed.
Lemma closeRemote_wle w e : wle w (closeRemote w e).
Proof. by apply (close_once_wle w (mkCloseError (Some e) true false)). Qed.

Lemma queue_wle wf f : wle wf.1 (queueControlFrame wf f).1.
Proof. by apply wle_same. Qed.

Lemma queue_all_wle notes : forall wf,
  wle wf.1 (foldl (fun wf note => match note with QueueControlFrame fr => queueControlFrame wf fr | _ => wf end) wf notes).1.
Proof.
  induction notes as [|note notes IH]; intros wf; cbn; [done|]. etrans; [|apply IH]. destruct note; try done. apply queue_wle.
Qed.

Lemma notify_wle wf note : wle wf.1 (notify wf note).1.
Proof.
  destruct wf as [w f]. destruct note; cbn; try by apply wle_same.
  destruct (DeleteStream _ _) as [[m notes] err]. pose proof (queue_all_wle notes (w <| w_streamsMap := m |>, f)) as Hq.
  set (wf := foldl _ _ _) in *. assert (wle w wf.1) by (etrans; [|exact Hq]; by apply wle_same).
  destruct err as [[]|]; cbn; try done; (etrans; [eassumption|apply closeLocal_wle]).
Qed.

Lemma notify_all_wle notes wf : wle wf.1 (notify_all wf notes).1.
Proof. revert wf. induction notes as [|note notes IH]; intros wf; [done|]. cbn. etrans; [apply notify_wle|apply IH]. Qed.

Lemma after_sender_wle wf id s snd fc c notes : wle wf.1 (after_sender wf id s snd fc c notes).1.
Proof. unfold after_sender. destruct (put_sender _ _ _ _ _ _) as [m notes']. etrans; [|apply notify_all_wle]. by apply wle_same. Qed.

Lemma after_receiver_wle wf id r rcv fc c notes : wle wf.1 (after_receiver wf id r rcv fc c notes).1.
Proof. unfold after_receiver. destruct (put_receiver _ _ _ _ _ _) as [m notes']. etrans; [|apply notify_all_wle]. by apply wle_same. Qed.

Lemma get_sender_wle w id : wle w (get_sender w id).1.
Proof. unfold get_sender. destruct (GetOrOpenSendStream _ _). by apply wle_same. Qed.
Lemma get_receiver_wle w id : wle w (get_receiver w id).1.
Proof. unfold get_receiver. destruct (GetOrOpenReceiveStream _ _). by apply wle_same. Qed.

Section Moves.
Context {C H : Type} `{!SendAlgorithm C} `{!FloatConv} `{!CryptoStreamHandler H}.
Implicit Types s : core (C := C) (H := H).

(** What the functions of the session keep, apart from those that deal with the first packet and with a Retry. *)
Record moves (s s' : core (C := C) (H := H)) : Prop := {
  mv_world : wle (world_of s) (world_of s');
  mv_packer : same_packer (ev_packer (core_env s)) (ev_packer (core_env s'));
  mv_perspective : core_perspective s' = core_perspective s;
  mv_dest : core_destConnID s' = core_destConnID s;
  mv_orig : core_origDestConnID s' = core_origDestConnID s;
  mv_retry : core_receivedRetry s' = core_receivedRetry s;
  mv_first : core_receivedFirstPacket s' = core_receivedFirstPacket s
}.

#[global] Instance moves_preorder : PreOrder moves.
Proof. split; [by split|]. intros s1 s2 s3 [] []. split; by etrans || congruence. Qed.

Lemma set_world_moves s w : wle (world_of s) w -> moves s (set_world s w).
Proof. intros Hw. by split. Qed.

Lemma set_wf_moves s wf : wle (world_of s) wf.1 -> moves s (set_wf s wf).
Proof. intros Hw. by split. Qed.

Lemma closeLocal_moves s e : moves s (core_closeLocal s e).
Proof. apply set_world_moves, closeLocal_wle. Qed.

Lemma queueControlFrame_moves s f : moves s (core_queueControlFrame s f).
Proof. apply set_wf_moves, (queue_wle (wf_of s)). Qed.

Lemma conn_Write_moves s data : moves s (conn_Write s data).1.
Proof. by split. Qed.

Create HintDb moves.
#[local] Hint Resolve closeLocal_moves queueControlFrame_moves conn_Write_moves : moves.
#[local] Hint Extern 1 (moves ?s ?s) => reflexivity : moves.

Lemma processTransportParameters_moves s data : sat (moves s) (processTransportParameters s data).
Proof.
  unfold processTransportParameters. destruct (parameters_for s data) as [params|err|]; cbn; auto with moves.
  apply sat_any. intros [m [err|]]; cbn.
  - etrans; [|apply closeLocal_moves]. split; cbn; try done. by apply wle_same.
  - split; cbn; try done; [|destruct (packer_HandleTransportParameters _ _) eqn:E].
    + destruct (tp_StatelessResetToken params); apply wle_same; cbn; try done. unfold closes. cbn. rewrite List.filter_app. cbn. by rewrite app_nil_r.
    + unfold packer_HandleTransportParameters in E. case_match; by split; inversion E; subst.
Qed.

Lemma dropEncryptionLevel_moves s lvl : sat (moves s) (dropEncryptionLevel s lvl).
Proof. unfold dropEncryptionLevel. apply sat_any. intros h. apply sat_any. intros acks. by split. Qed.

Lemma stream_written_moves s lvl p : sat (moves s) (stream_written s lvl p).
Proof.
  unfold stream_written. destruct lvl; try by split.
  all: apply sat_any; intros [str frames]; destruct (core_perspective s), frames; try done; by split.
Qed.

Lemma handle_event_moves s ev : sat (moves s) (handle_event s ev).
Proof.
  destruct ev; cbn; auto with moves; try by split.
  - apply processTransportParameters_moves.
  - apply dropEncryptionLevel_moves.
  - apply stream_written_moves.
Qed.

Lemma handle_all_events_moves evs : forall s, sat (moves s) (handle_all_events s evs).
Proof.
  induction evs as [|ev evs IH]; intros s; cbn; [done|]. eapply sat_bind; [apply handle_event_moves|]. cbn. intros s1 H1.
  eapply sat_mono; [apply IH|]. intros s2 H2. by etrans.
Qed.

Lemma handle_events_moves s : sat (moves s) (handle_events s).
Proof.
  unfold handle_events. destruct (cs_events _) as [h evs]. eapply sat_mono; [apply handle_all_events_moves|].
  intros s' Hm. etrans; [|exact Hm]. by split.
Qed.

Definition handled_moves (s : core) (x : handled) : Prop := sat (fun '(s', _, _) => moves s s') x.

Lemma handleCryptoFrame_moves s frame lvl : handled_moves s (handleCryptoFrame s frame lvl).
Proof.
  unfold handled_moves, handleCryptoFrame. apply sat_any. intros [[m changed] err]. apply sat_any. intros h.
  eapply sat_bind; [apply handle_events_moves|]. intros s' Hm. cbn. etrans; [|exact Hm]. by split.
Qed.

Lemma receiver_moves s (id : StreamID) :
  moves s (set_world s (get_receiver (world_of s) id).1).
Proof. apply set_world_moves, get_receiver_wle. Qed.

Lemma sender_moves s (id : StreamID) : moves s (set_world s (get_sender (world_of s) id).1).
Proof. apply set_world_moves, get_sender_wle. Qed.

Lemma handleStreamFrame_moves s now frame lvl : handled_moves s (Session.handleStreamFrame s now frame lvl).
Proof.
  unfold handled_moves, Session.handleStreamFrame. case_match; [done|]. pose proof (receiver_moves s (sf_StreamID frame)) as Hm.
  destruct (get_receiver _ _) as [w [[r|]|err]]; try done.
  apply sat_any. intros [[[[rcv fc] c] notes] err]. cbn. etrans; [exact Hm|]. apply set_wf_moves. apply (after_receiver_wle (wf_of _)).
Qed.

Lemma handleResetStreamFrame_moves s now frame : handled_moves s (Session.handleResetStreamFrame s now frame).
Proof.
  unfold handled_moves, Session.handleResetStreamFrame. pose proof (receiver_moves s (rs_StreamID frame)) as Hm.
  destruct (get_receiver _ _) as [w [[r|]|err]]; try done.
  destruct (ReceiveStream.handleResetStreamFrame _ _ _ _ _) as [[[[rcv fc] c] notes] err]. cbn. etrans; [exact Hm|]. apply set_wf_moves. apply (after_receiver_wle (wf_of _)).
Qed.

Lemma handleMaxStreamDataFrame_moves s frame : handled_moves s (Session.handleMaxStreamDataFrame s frame).
Proof.
  unfold handled_moves, Session.handleMaxStreamDataFrame. pose proof (sender_moves s (msd_StreamID frame)) as Hm.
  destruct (get_sender _ _) as [w [[x|]|err]]; try done.
  destruct (SendStream.handleMaxStreamDataFrame _ _ _) as [[snd fc] notes]. cbn. etrans; [exact Hm|]. apply set_wf_moves. apply (after_sender_wle (wf_of _)).
Qed.

Lemma handleStopSendingFrame_moves s frame : handled_moves s (Session.handleStopSendingFrame s frame).
Proof.
  unfold handled_moves, Session.handleStopSendingFrame. pose proof (sender_moves s (ss_StreamID frame)) as Hm.
  destruct (get_sender _ _) as [w [[x|]|err]]; try done.
  destruct (SendStream.handleStopSendingFrame _ _) as [snd notes]. cbn. etrans; [exact Hm|]. apply set_wf_moves. apply (after_sender_wle (wf_of _)).
Qed.

Lemma handleAckFrame_moves s frame lvl : handled_moves s (handleAckFrame s frame lvl).
Proof.
  unfold handled_moves, handleAckFrame. apply sat_any. intros [h [err|]]; [by split|]. case_match; [|by split].
  eapply sat_bind; [apply handle_events_moves|]. cbn. intros s' Hm. etrans; [|exact Hm]. by split.
Qed.

Lemma handleFrame_moves s now f lvl : handled_moves s (handleFrame s now f lvl).
Proof.
  destruct f; cbn [handleFrame]; try done.
  - apply handleStreamFrame_moves.
  - apply handleAckFrame_moves.
  - apply handleResetStreamFrame_moves.
  - apply handleStopSendingFrame_moves.
  - apply handleCryptoFrame_moves.
  - apply set_world_moves. by apply wle_same.
  - apply handleMaxStreamDataFrame_moves.
  - unfold handled_moves, handleMaxStreamsFrame. apply sat_any. intros [m err]. apply set_world_moves. by apply wle_same.
  - apply queueControlFrame_moves.
  - apply set_world_moves. apply closeRemote_wle.
Qed.

(** ** Sending *)

#[local] Arguments sendPackedPacket : simpl never.

Lemma world_getter_wle (w : world) id w' fnd : getSendStream w id = (w', fnd) -> wle w w'.
Proof. cbn. pose proof (get_sender_wle w id) as Hw. destruct (get_sender w id). intros E. by injection E as <- <-. Qed.

Lemma world_pop_wle (w : world) f id n w' f' r : popFrame (w, f) id n = Ret (w', f', r) -> wle w w'.
Proof.
  cbn. destruct (get_sender w id) as [w1 [[x|]|err]]; try done. cbn.
  destruct (popStreamFrame _ _ _ _) as [[[[[snd fc] c] notes] r']| |]; cbn; try done. intros E. injection E as E _.
  pose proof (after_sender_wle (w, f) id x snd fc c notes) as Hw. by rewrite E in Hw.
Qed.

Lemma packing_call_moves {A} s (m : sealingManager -> packing (W := world) (P := numbers C) A) :
  (forall cs e, keeps wle (m cs) e) -> sat (fun '(s', _) => moves s s') (packing_call s m).
Proof.
  intros Hk. unfold packing_call. apply sat_any. intros cs. destruct (m cs (core_env s)) as [[e r]| |] eqn:E; try done.
  apply Hk in E as [Hw Hp]. by split.
Qed.

Lemma packing_sat {A} s (m : sealingManager -> packing (W := world) (P := numbers C) A) (Q : core * (A + goerr) -> Prop) :
  (forall cs e, keeps wle (m cs) e) -> (forall s' r, moves s s' -> Q (s', r)) -> sat Q (packing_call s m).
Proof. intros Hk HQ. eapply sat_mono; [by apply packing_call_moves|]. intros [s' r] Hm. auto. Qed.

Lemma sendPackedPacket_moves s now p : moves s (sendPackedPacket s now p).1.
Proof. unfold sendPackedPacket. case_match; by split. Qed.

Lemma send_all_moves packets now : forall s, moves s (send_all s now packets).1.
Proof.
  induction packets as [|p packets IH]; intros s; cbn [send_all]; [done|]. pose proof (sendPackedPacket_moves s now p) as Hm.
  destruct (sendPackedPacket s now p) as [s1 [err|]]; [exact Hm|]. etrans; [exact Hm|apply IH].
Qed.

Lemma maybeSendAckOnlyPacket_moves s now : sat (fun '(s', _) => moves s s') (maybeSendAckOnlyPacket s now).
Proof.
  unfold maybeSendAckOnlyPacket. eapply sat_bind; [apply packing_call_moves; intros; apply MaybePackAckPacket_keeps; apply _|].
  intros [s1 [[packet|]|err]] Hm; try done. apply sat_any. intros h. cbn.
  pose proof (sendPackedPacket_moves (set_handler s1 h) now packet) as Hp. destruct (sendPackedPacket _ _ _). cbn in *.
  etrans; [exact Hm|]. etrans; [|exact Hp]. by split.
Qed.

Lemma send_retransmission_moves s now p : sat (fun '(s', _) => moves s s') (send_retransmission s now p).
Proof.
  unfold send_retransmission. eapply sat_bind; [apply packing_call_moves; intros; apply PackRetransmission_keeps; apply _|].
  intros [s1 [packets|err]] Hm; try done. apply sat_any. intros h. cbn.
  pose proof (send_all_moves packets now (set_handler s1 h)) as Hp. destruct (send_all _ _ _). cbn in *.
  etrans; [exact Hm|]. etrans; [|exact Hp]. by split.
Qed.

Lemma maybeSendRetransmission_moves s now : sat (fun '(s', _) => moves s s') (Session.maybeSendRetransmission s now).
Proof.
  unfold Session.maybeSendRetransmission. destruct (DequeuePacketForRetransmission _) as [h [p|]]; [|by split].
  eapply sat_bind; [apply send_retransmission_moves|]. intros [s1 err] Hm. cbn. etrans; [|exact Hm]. by split.
Qed.

Lemma sendProbePacket_moves s now : sat (fun '(s', _) => moves s s') (Session.sendProbePacket s now).
Proof.
  unfold Session.sendProbePacket. apply sat_any. intros [[h p] [err|]]; [by split|]. destruct p as [p|]; [|done].
  eapply sat_mono; [apply send_retransmission_moves|]. intros [s1 err] Hm. etrans; [|exact Hm]. by split.
Qed.

Variable mapOrder : gset StreamID -> list StreamID.

Lemma queue_streams_wle `{WindowUpdates world} ids :
  (forall w id, wle w (getReceiveStream w id).1) -> (forall w id, wle w (streamWindowUpdate w id).1) ->
  forall q w f, wle w (queue_streams ids q w f).1.2.
Proof.
  intros Hg Hu. induction ids as [|id ids IH]; intros q w f; cbn [queue_streams]; [done|].
  specialize (Hg w id). destruct (getReceiveStream w id) as [w1 [|]]; cbn [negb]; [|etrans; [exact Hg|apply IH]].
  specialize (Hu w1 id). destruct (streamWindowUpdate w1 id) as [w2 o]. cbn in *.
  case_match; (etrans; [exact Hg|]; etrans; [exact Hu|apply IH]).
Qed.

Lemma queue_window_updates_moves s now : moves s (queue_window_updates mapOrder s now).
Proof.
  unfold queue_window_updates, QueueAll.
  assert (Hg : forall w id, wle w ((@getReceiveStream _ (world_updates now (smoothedRTT (rtt_of s)))) w id).1).
  { intros w id. cbn. pose proof (get_receiver_wle w id). by destruct (get_receiver w id). }
  assert (Hu : forall w id, wle w ((@streamWindowUpdate _ (world_updates now (smoothedRTT (rtt_of s)))) w id).1).
  { intros w id. cbn. destruct (get_receiver w id).2 as [[r|]|err]; try done.
    destruct (receive_getWindowUpdate _ _ _ _) as [[fc c] o]. destruct (put_receiver _ _ _ _ _ _). by apply wle_same. }
  assert (Hc : forall w, wle w ((@connWindowUpdate _ (world_updates now (smoothedRTT (rtt_of s)))) w).1).
  { intros w. cbn. destruct (connection_GetWindowUpdate _ _ _). by apply wle_same. }
  set (U := world_updates _ _) in *. set (w := world_of s).
  destruct (wq_queuedConn _).
  - specialize (Hc w). destruct (connWindowUpdate w) as [w1 o]. cbn in Hc.
    pose proof (queue_streams_wle (mapOrder (wq_queue (w_windowUpdateQueue w))) Hg Hu
      (w_windowUpdateQueue w <| wq_queuedConn := false |>) w1 (framer_QueueControlFrame (ev_framer (core_env s)) (FMaxData (mkMaxDataFrame o)))) as Hq.
    destruct (queue_streams _ _ _ _) as [[q w2] f]. apply set_wf_moves. cbn in *. etrans; [exact Hc|]. etrans; [exact Hq|]. by apply wle_same.
  - pose proof (queue_streams_wle (mapOrder (wq_queue (w_windowUpdateQueue w))) Hg Hu (w_windowUpdateQueue w) w (ev_framer (core_env s))) as Hq.
    destruct (queue_streams _ _ _ _) as [[q w2] f]. apply set_wf_moves. cbn in *. etrans; [exact Hq|]. by apply wle_same.
Qed.

Lemma sendPacket_moves s now : sat (fun '(s', _) => moves s s') (Session.sendPacket mapOrder s now).
Proof.
  unfold Session.sendPacket. destruct (IsNewlyBlocked _) as [b [blocked o]].
  set (s0 := set_wf s _). assert (Hm0 : moves s s0) by (apply set_wf_moves; by apply wle_same).
  assert (H1 : moves s (queue_window_updates mapOrder s0 now)) by (etrans; [exact Hm0|apply queue_window_updates_moves]).
  eapply sat_bind; [apply packing_call_moves; intros; apply PackPacket_keeps; [apply _|apply world_getter_wle|apply world_pop_wle]|].
  intros [s1 [[packet|]|err]] Hm; cbn; try (by etrans). apply sat_any. intros h. cbn.
  pose proof (sendPackedPacket_moves (set_handler s1 h) now packet) as Hp. destruct (sendPackedPacket _ _ _). cbn in *.
  etrans; [exact H1|]. etrans; [exact Hm|]. etrans; [|exact Hp]. by split.
Qed.

Lemma send_round_moves s now mode k : sat (fun '(s', _) => moves s s') (send_round mapOrder s now mode k).
Proof.
  destruct mode; cbn [send_round]; try done.
  - case_match; [done|]. eapply sat_bind; [apply maybeSendAckOnlyPacket_moves|]. by intros [s1 err] Hm.
  - eapply sat_bind; [apply maybeSendRetransmission_moves|]. by intros [s1 [snt [err|]]] Hm.
  - eapply sat_bind; [apply sendProbePacket_moves|]. by intros [s1 [err|]] Hm.
  - eapply sat_bind; [apply sendPacket_moves|]. intros [s1 [snt [err|]]] Hm; [done|]. by case_match.
Qed.

Lemma send_loop_moves fuel now n : forall s mode k, sat (fun '(s', _) => moves s s') (default (Panic "out of fuel") (send_loop mapOrder fuel s now mode k n)).
Proof.
  induction fuel as [|fuel IH]; intros s mode k; cbn [send_loop]; [done|]. pose proof (send_round_moves s now mode k) as Hr.
  destruct (send_round mapOrder s now mode k) as [[s1 [r|k1]]| |]; cbn in *; try done. case_match; [done|]. eapply sat_mono; [apply IH|]. intros [s2 r] Hm2. by etrans.
Qed.

Lemma sendPackets_moves s now : sat (fun '(s', _) => moves s s') (sendPackets mapOrder s now).
Proof.
  unfold sendPackets. destruct (handler_SendMode _); try (by split);
    (eapply sat_bind; [apply send_loop_moves|]; intros [s1 [k|err]] Hm; cbn; [case_match|]; (etrans; [|first [exact Hm|etrans; [exact Hm|]]]); by split).
Qed.

End Moves.

(** ** The connection IDs *)

Section Grows.
Context {C H : Type} `{!SendAlgorithm C} `{!FloatConv} `{!CryptoStreamHandler H}.
Variable mapOrder : gset StreamID -> list StreamID.
Variable error_text : goerr -> bytes.
Implicit Types s : core (C := C) (H := H).
Implicit Types ss : session (C := C) (H := H).

(** The packer writes the connection ID of the session into its packets. *)
Definition in_sync (s : core (C := C) (H := H)) : Prop := pk_destConnID (ev_packer (core_env s)) = core_destConnID s.

(** What all functions of the session keep of the connection IDs. *)
Record ids_le (s s' : core (C := C) (H := H)) : Prop := {
  gr_perspective : core_perspective s' = core_perspective s;
  gr_sync : in_sync s -> in_sync s';
  gr_first : core_receivedFirstPacket s = true -> core_receivedFirstPacket s' = true /\ core_destConnID s' = core_destConnID s;
  gr_server : core_perspective s = PerspectiveServer -> core_destConnID s' = core_destConnID s;
  gr_same : core_receivedFirstPacket s' = false -> core_receivedRetry s' = core_receivedRetry s ->
    core_destConnID s' = core_destConnID s;
  gr_retry : core_receivedRetry s = true -> core_receivedRetry s' = true /\ core_origDestConnID s' = core_origDestConnID s;
  gr_no_retry : core_receivedRetry s' = false -> core_origDestConnID s' = core_origDestConnID s;
  gr_new_retry : core_receivedRetry s = false -> core_receivedRetry s' = true ->
    core_perspective s = PerspectiveClient /\ core_receivedFirstPacket s = false /\ core_origDestConnID s' = core_destConnID s
}.

Definition grows (s s' : core (C := C) (H := H)) : Prop := wle (world_of s) (world_of s') /\ ids_le s s'.

Lemma same_ids s s' :
  pk_destConnID (ev_packer (core_env s')) = pk_destConnID (ev_packer (core_env s)) -> core_perspective s' = core_perspective s ->
  core_destConnID s' = core_destConnID s -> core_origDestConnID s' = core_origDestConnID s ->
  core_receivedRetry s' = core_receivedRetry s -> core_receivedFirstPacket s' = core_receivedFirstPacket s -> ids_le s s'.
Proof. intros E0 E1 E2 E3 E4 E5. unfold in_sync. split; unfold in_sync; try done; try congruence; intros; split; congruence. Qed.

Lemma moves_grows s s' : moves s s' -> grows s s'.
Proof. intros [Hw [Hd _ _] E1 E2 E3 E4 E5]. split; [done|by apply same_ids]. Qed.

#[global] Instance ids_le_preorder : PreOrder ids_le.
Proof.
  split; [intros s; by apply same_ids|]. intros s1 s2 s3 G1 G2. destruct G1 as [P1 Y1 F1 V1 M1 R1 N1 K1], G2 as [P2 Y2 F2 V2 M2 R2 N2 K2].
  split; [congruence|auto|..].
  - intros E. destruct (F1 E) as [E2 D2]. destruct (F2 E2) as [E3 D3]. split; congruence.
  - intros E. rewrite V2 by congruence. auto.
  - intros Ef Er. assert (E2 : core_receivedFirstPacket s2 = false).
    { apply not_true_is_false. intros Q. destruct (F2 Q). congruence. }
    destruct (core_receivedRetry s1) eqn:Q1.
    + destruct (R1 eq_refl) as [Q2 _]. rewrite M2, M1 by congruence. done.
    + assert (Q2 : core_receivedRetry s2 = false). { apply not_true_is_false. intros Q. destruct (R2 Q). congruence. }
      rewrite M2, M1 by congruence. done.
  - intros E. destruct (R1 E) as [E2 D2]. destruct (R2 E2) as [E3 D3]. split; congruence.
  - intros E. assert (Q2 : core_receivedRetry s2 = false). { apply not_true_is_false. intros Q. destruct (R2 Q). congruence. }
    rewrite N2, N1 by done. done.
  - intros E1 E3. destruct (core_receivedRetry s2) eqn:Q2.
    + destruct (K1 E1 eq_refl) as (? & ? & D). destruct (R2 eq_refl) as [_ D2]. by rewrite D2.
    + destruct (K2 eq_refl E3) as (Pc & Ef & D). assert (Ef1 : core_receivedFirstPacket s1 = false).
      { apply not_true_is_false. intros Q. destruct (F1 Q). congruence. }
      split_and!; try congruence. rewrite D. apply M1; congruence.
Qed.

#[global] Instance grows_preorder : PreOrder grows.
Proof. split; [by split|]. intros s1 s2 s3 [] []. split; by etrans. Qed.

Lemma packet_accepted_grows s packet t : grows s (packet_accepted s packet t).
Proof.
  unfold packet_accepted. case_match eqn:E.
  - apply andb_true_iff in E as [[[Hc Hf]%andb_true_iff _]%andb_true_iff _]. apply bool_decide_eq_true in Hc.
    split; [done|]. split; cbn; try done; try congruence; rewrite ?Hc; try done; intros; by destruct (core_receivedFirstPacket s).
  - split; [done|]. split; cbn; try done; intros; try split; done || congruence.
Qed.

Lemma ResetForRetry_no_error (h : sentPacketHandler C) n n' err : ResetForRetry h n n' <> Error err.
Proof. unfold ResetForRetry. cbn. by destruct (hd_initialPackets h). Qed.

Lemma handleRetryPacket_grows s hdr : sat (fun '(s', _) => grows s s') (handleRetryPacket s hdr).
Proof.
  unfold handleRetryPacket. case_match eqn:Ep; [by apply moves_grows|]. apply bool_decide_eq_false in Ep.
  destruct (core_receivedFirstPacket s) eqn:Ef; [by apply moves_grows|]. case_match; [by apply moves_grows|]. case_match; [by apply moves_grows|].
  destruct (core_receivedRetry s) eqn:Er; [by apply moves_grows|]. cbv zeta.
  destruct (ResetForRetry _ _ _) as [h|err|] eqn:Eh; [|exfalso; by eapply ResetForRetry_no_error|done]. cbn.
  assert (Hc : core_perspective s = PerspectiveClient) by (by destruct (core_perspective s)).
  destruct (cs_ChangeConnectionID _ _); (split; [by apply wle_same|]); split; cbn; try done; congruence.
Qed.

(** ** Packets *)

(** A result of a function of the session. *)
Definition grown (ss ss' : session (C := C) (H := H)) : Prop :=
  grows (sess_core ss) (sess_core ss') /\ sess_stopped ss' = sess_stopped ss /\ sess_closed ss' = sess_closed ss /\
  sess_connectionClosePacket ss' = sess_connectionClosePacket ss.

#[global] Instance grown_preorder : PreOrder grown.
Proof. split; [by split|]. intros s1 s2 s3 (G1 & E1 & E2 & E3) (G2 & F1 & F2 & F3). split; [by etrans|]. split_and!; congruence. Qed.

Lemma grown_core ss c : grows (sess_core ss) c -> grown ss (ss <| sess_core := c |>).
Proof. intros Hg. by split. Qed.

Lemma grown_queue ss ss' :
  sess_core ss' = sess_core ss -> sess_stopped ss' = sess_stopped ss -> sess_closed ss' = sess_closed ss ->
  sess_connectionClosePacket ss' = sess_connectionClosePacket ss -> grown ss ss'.
Proof. intros E1 E2 E3 E4. split; [by rewrite E1|done]. Qed.

Lemma handlePacket_grown ss p : grown ss (handlePacket ss p).
Proof.
  unfold handlePacket, handlePacketAfterClosed. cbn.
  destruct (sess_closed ss) eqn:Ec; [|case_match; [by apply grown_queue|done]].
  destruct (sess_connectionClosePacket ss); [destruct (power_of_two _ _)|];
    case_match; (split; [apply moves_grows; by split|done]).
Qed.

Lemma handlePackets_grown ps : forall ss, grown ss (foldl handlePacket ss ps).
Proof. induction ps as [|p ps IH]; intros ss; cbn [foldl]; [done|]. etrans; [apply handlePacket_grown|apply IH]. Qed.

Lemma tryDecrypting_grown ss : grown ss (tryDecryptingQueuedPackets ss).
Proof. unfold tryDecryptingQueuedPackets. etrans; [apply handlePackets_grown|]. by apply grown_queue. Qed.

Lemma handle_frames_grown fuel now lvl : forall ss r ae,
  sat (fun '(ss', _, _) => grown ss ss') (handle_frames fuel ss now lvl r ae).
Proof.
  induction fuel as [|fuel IH]; intros ss r ae; cbn [handle_frames]; [done|].
  destruct (ParseNext _ _ _) as [[[f|] r']|err|]; try done.
  eapply sat_bind; [apply handleFrame_moves|]. intros [[c decrypt] err] Hm. set (ss1 := if decrypt then _ else _).
  assert (G1 : grown ss ss1).
  { subst ss1. destruct decrypt; [|by apply grown_core, moves_grows].
    etrans; [apply (grown_core ss c); by apply moves_grows|apply tryDecrypting_grown]. }
  destruct err; [done|]. eapply sat_mono; [apply IH|]. intros [[ss2 e2] ae2] G2. by etrans.
Qed.

Lemma handleUnpackedPacket_grown ss now packet t : sat (fun '(ss', _) => grown ss ss') (handleUnpackedPacket ss now packet t).
Proof.
  unfold handleUnpackedPacket. destruct (up_data packet) as [|b data]; [done|].
  eapply sat_bind; [apply handle_frames_grown|]. intros [[ss1 err] ae] G1.
  assert (G2 : grown ss ss1) by (etrans; [|exact G1]; apply grown_core, packet_accepted_grows).
  destruct err; [done|]. apply sat_any. intros [acks err]. cbn. etrans; [exact G2|]. apply grown_core, moves_grows. by split.
Qed.

Lemma single_packet_grown ss now p hdr : sat (fun '(ss', _, _) => grown ss ss') (single_packet ss now p hdr).
Proof.
  unfold single_packet. case_match.
  { eapply sat_bind; [apply handleRetryPacket_grows|]. intros [c processed] Hg. by apply grown_core. }
  case_match; [done|]. case_match; [done|]. destruct (Unpack _ _ _ _) as [u packet]. set (ss1 := ss <| sess_core := _ |>).
  assert (G1 : grown ss ss1) by (apply grown_core, moves_grows; by split).
  destruct packet as [packet|err|]; [| |done].
  - eapply sat_bind; [apply handleUnpackedPacket_grown|]. intros [ss2 err] G2.
    assert (G3 : grown ss ss2) by (by etrans). destruct err as [err|]; [|done]. cbn. etrans; [exact G3|].
    apply grown_core, moves_grows, closeLocal_moves.
  - case_match; [|done]. cbn. etrans; [exact G1|]. unfold tryQueueingUndecryptablePacket. repeat case_match; by apply grown_queue.
Qed.

Lemma handleSinglePacket_grown ss now p hdr : sat (fun '(ss', _) => grown ss ss') (handleSinglePacket ss now p hdr).
Proof.
  unfold handleSinglePacket. eapply sat_bind; [apply single_packet_grown|]. intros [[ss1 processed] [|]] G1; [done|].
  unfold Decrement. case_match; [done|]. cbn. etrans; [exact G1|]. by apply grown_queue.
Qed.

Lemma handle_packets_grown fuel now : forall ss p data counter id processed,
  sat (fun '(ss', _) => grown ss ss') (handle_packets fuel ss now p data counter id processed).
Proof.
  induction fuel as [|fuel IH]; intros ss p data counter id processed; cbn [handle_packets]; [done|].
  destruct data as [|b data]; [done|]. destruct (ParsePacket _ _) as [[[hdr pd] rest]|err|]; [|done..]. case_match; [done|].
  eapply sat_bind; [apply handleSinglePacket_grown|]. intros [ss1 was] G1. eapply sat_mono; [apply IH|]. intros [ss2 pr] G2.
  etrans; [|exact G2]. etrans; [|exact G1]. case_match; by apply grown_queue.
Qed.

Lemma handlePacketImpl_grown ss now p : sat (fun '(ss', _) => grown ss ss') (handlePacketImpl ss now p).
Proof.
  unfold handlePacketImpl. eapply sat_bind; [apply handle_packets_grown|]. intros [ss1 processed] G1. cbn. etrans; [exact G1|].
  unfold MaybeRelease. case_match; by apply grown_queue.
Qed.

(** ** A round of the run loop *)

Lemma handleHandshakeComplete_moves s : sat (moves s) (handleHandshakeComplete s).
Proof.
  unfold handleHandshakeComplete. set (s0 := set_world _ _).
  assert (Hm0 : moves s s0).
  { split; try done. apply wle_same; try done. unfold closes. cbn. rewrite List.filter_app. cbn. by rewrite app_nil_r. }
  destruct (core_perspective s0); [|exact Hm0]. destruct (core_newToken s0) as [token|err|]; cbn; try done.
  - etrans; [exact Hm0|apply queueControlFrame_moves].
  - etrans; [exact Hm0|]. etrans; [apply closeLocal_moves|apply queueControlFrame_moves].
Qed.

Lemma run_select_grown ss now wake : sat (fun '(ss', _) => grown ss ss') (run_select ss now wake).
Proof.
  destruct wake; cbn [run_select]; try done.
  - apply grown_core, moves_grows, set_world_moves. by apply wle_same.
  - destruct (sess_receivedPackets ss) as [|p ps]; [done|]. eapply sat_mono; [apply handlePacketImpl_grown|]. intros [ss' go] Hg.
    etrans; [|exact Hg]. by apply grown_queue.
  - eapply sat_bind; [apply handleHandshakeComplete_moves|]. intros c Hm. by apply grown_core, moves_grows.
Qed.

Lemma run_alarm_moves s now : sat (moves s) (run_alarm s now).
Proof.
  unfold run_alarm. case_match; [|done]. apply sat_any. intros [h [err|]]; cbn; [|by split].
  etrans; [|apply closeLocal_moves]. by split.
Qed.

Lemma run_rest_moves s now : sat (moves s) (run_rest mapOrder s now).
Proof.
  unfold run_rest. eapply sat_bind; [apply run_alarm_moves|]. intros s1 G1. apply sat_any. intros due. set (s2 := if due then _ else _).
  assert (G2 : moves s s2) by (etrans; [exact G1|]; subst s2; destruct due; [by split|done]).
  sat_if; [cbn; etrans; [exact G2|]; by split|]. sat_if; [cbn; etrans; [exact G2|]; apply set_world_moves, destroyImpl_wle|].
  sat_if; [cbn; etrans; [exact G2|]; apply set_world_moves, destroyImpl_wle|].
  eapply sat_bind; [apply sendPackets_moves|]. intros [s3 err] G3. cbn. assert (G4 : moves s s3) by (by etrans).
  destruct err; [|done]. etrans; [exact G4|apply closeLocal_moves].
Qed.

End Grows.

(** ** The session over time *)

Section Steps.
Context {C H : Type} `{!SendAlgorithm C} `{!FloatConv} `{!CryptoStreamHandler H}.
Variable mapOrder : gset StreamID -> list StreamID.
Variable error_text : goerr -> bytes.
Implicit Types s : core (C := C) (H := H).
Implicit Types ss : session (C := C) (H := H).

(** The run loop, packets from the network in buffers of their own, the goroutine of the TLS stack, and the calls of the
    application: those that change streams in any way and report it, and those that close the session. *)
Inductive session_step : session (C := C) (H := H) -> session (C := C) (H := H) -> Prop :=
| step_start ss closeFirst ss' :
    sess_stopped ss = false -> run_start error_text ss closeFirst = Ret (Some ss') -> session_step ss ss'
| step_round ss now wake closeFirst ss' : run_round mapOrder error_text ss now wake closeFirst = Ret (Some ss') -> session_step ss ss'
| step_close ss ss' : run_close error_text ss = Ret (Some ss') -> session_step ss ss'
| step_packet ss p :
    sess_refCount ss !! rp_buffer p = None -> bytes_ok (rp_data p) -> Z.of_nat (length (rp_data p)) <= MaxReceivePacketSize ->
    session_step ss (handlePacket (set_refCount ss (rp_buffer p) 1) p)
| step_tls ss h evs c :
    handle_all_events (sess_core ss <| core_crypto := h |>) evs = Ret c -> session_step ss (ss <| sess_core := c |>)
| step_streams ss m c notes :
    session_step ss (on_core ss (fun k =>
      set_wf k (notify_all ((world_of k) <| w_streamsMap := m |> <| w_connFlowController := c |>, ev_framer (core_env k)) notes)))
| step_closeLocal ss e : session_step ss (on_core ss (fun k => core_closeLocal k e))
| step_destroy ss e : session_step ss (on_core ss (fun k => set_world k (destroyImpl (world_of k) e))).

(** Leaving the loop. *)
Record finished (ss ss' : session (C := C) (H := H)) (e : closeError) : Prop := {
  fi_core : grows (sess_core ss) (sess_core ss');
  fi_stopped : sess_stopped ss' = true /\ sess_closed ss' = true;
  fi_packet : sess_connectionClosePacket ss' <> None -> ce_sendClose e = true
}.

Lemma handleCloseError_moves s e :
  sat (fun '(s', packet) => moves s s' /\ (packet <> None -> ce_sendClose e = true)) (handleCloseError error_text s e).
Proof.
  unfold handleCloseError. set (s0 := set_world s _). assert (Hm0 : moves s s0) by (apply set_world_moves; by apply wle_same).
  destruct (ce_sendClose e) eqn:Es; cbn [negb]; [|done]. destruct (ce_remote e); [done|].
  eapply sat_bind with (Q := fun '(s', _, _) => moves s0 s').
  - unfold sendConnectionClose. eapply sat_bind; [apply packing_call_moves; intros; apply PackConnectionClose_keeps; apply _|].
    intros [s1 [packet|err]] G1; [|done]. cbn. etrans; [exact G1|]. apply (conn_Write_moves s1 (pp_raw packet)).
  - intros [[s1 packet] err] G1. cbn. split; [|done]. by etrans.
Qed.

Lemma run_finish_finished ss e : sat (fun ss' => finished ss ss' e) (run_finish error_text ss e).
Proof.
  unfold run_finish. eapply sat_bind; [apply handleCloseError_moves|]. intros [c packet] [Hm Hp]. cbn. split; cbn; try done.
  etrans; [by apply moves_grows|]. apply moves_grows. by split.
Qed.

(** Taking the error out of the channel. *)
Definition taken_out ss : session (C := C) (H := H) := on_core ss (fun c => set_world c ((world_of c) <| w_closeChan := None |>)).

Lemma run_top_cases ss closeFirst :
  sat (fun '(ss', go) => if go : bool then grown ss ss'
                         else exists e, w_closeChan (world_of (sess_core ss)) = Some e /\ finished (taken_out ss) ss' e)
    (run_top error_text ss closeFirst).
Proof.
  unfold run_top. destruct (w_closeChan (world_of (sess_core ss))) as [e|] eqn:Ee; [sat_if|].
  - eapply sat_bind; [apply run_finish_finished|]. intros ss' Hf. cbn. by exists e.
  - eapply sat_bind; [apply handleHandshakeComplete_moves|]. intros c Hm. apply sat_any. intros d. by apply (grown_core ss c), moves_grows.
  - eapply sat_bind with (Q := fun c => moves (sess_core ss) c).
    + destruct (core_handshakeCompleteChan _); try done. apply handleHandshakeComplete_moves.
    + intros c Hm. apply sat_any. intros d. by apply (grown_core ss c), moves_grows.
Qed.

(** Every step goes on, or leaves the loop. *)
Definition steps_to ss ss' : Prop :=
  grown ss ss' \/ exists ss1 e, grown ss ss1 /\ sess_stopped ss = false /\ w_closeChan (world_of (sess_core ss1)) = Some e /\ finished (taken_out ss1) ss' e.

Lemma top_steps ss ss1 closeFirst :
  grown ss ss1 -> sess_stopped ss = false -> sat (fun '(ss', _) => steps_to ss ss') (run_top error_text ss1 closeFirst).
Proof.
  intros Hg Hs. eapply sat_mono; [apply run_top_cases|]. intros [ss' [|]].
  - intros Hg'. left. by etrans.
  - intros (e & Ee & Hf). right. exists ss1, e. done.
Qed.

Lemma session_step_cases ss ss' : session_step ss ss' -> steps_to ss ss'.
Proof.
  intros [ss0 closeFirst ss1 Hns E|ss0 now wake closeFirst ss1 E|ss0 ss1 E|ss0 p Hn Hb Hl|ss0 h evs c E|ss0 m c notes|ss0 e|ss0 e].
  - unfold run_start in E. case_match; [done|]. set (ss2 := hello_written ss0) in E.
    assert (G2 : grown ss0 ss2). { subst ss2. unfold hello_written. case_match; [|done]. apply grown_core, moves_grows, set_world_moves. by apply wle_same. }
    pose proof (top_steps ss0 ss2 closeFirst G2 Hns) as Ht. destruct (run_top _ ss2 closeFirst) as [[ss3 go]| |]; cbn in E; try done.
    injection E as <-. exact Ht.
  - unfold run_round in E. destruct (sess_stopped ss0) eqn:Es; [done|]. cbn [orb] in E. case_match; [done|].
    pose proof (run_select_grown ss0 now wake) as G1. destruct (run_select ss0 now wake) as [[ss2 go]| |]; cbn in E, G1; try done.
    assert (Hr : sat (moves (sess_core ss2)) (if go : bool then run_rest mapOrder (sess_core ss2) now else mret (sess_core ss2))).
    { destruct go; [apply run_rest_moves|done]. }
    destruct (if go then _ else _) as [c| |]; cbn in E, Hr; try done.
    pose proof (top_steps ss0 (ss2 <| sess_core := c |>) closeFirst) as Ht.
    destruct (run_top _ _ closeFirst) as [[ss3 go3]| |]; cbn in E; try done. injection E as <-. apply Ht; [|done].
    etrans; [exact G1|]. by apply grown_core, moves_grows.
  - unfold run_close in E. destruct (w_closeChan _) as [e|] eqn:Ee; [|done]. destruct (sess_stopped ss0) eqn:Es; [done|].
    pose proof (run_finish_finished (taken_out ss0) e) as Hf. unfold taken_out in Hf. 
    destruct (run_finish _ _ _) as [ss2| |] eqn:Er; cbn in E; try done. injection E as <-. right. exists ss0, e. by split_and!.
  - left. etrans; [|apply handlePacket_grown]. by apply grown_queue.
  - left. apply grown_core. pose proof (sat_ret _ _ _ (handle_all_events_moves evs _) E) as Hm. apply moves_grows. etrans; [|exact Hm]. by split.
  - left. apply grown_core, moves_grows, set_wf_moves. etrans; [|apply notify_all_wle]. by apply wle_same.
  - left. apply grown_core, moves_grows, closeLocal_moves.
  - left. apply grown_core, moves_grows, set_world_moves, destroyImpl_wle.
Qed.

(** The invariant: the session leaves its runner with one call, which fits the error it is closed with, and a
    CONNECTION_CLOSE is kept only for an error of this endpoint that is to be sent. *)
Record close_ok (ss : session (C := C) (H := H)) : Prop := {
  ck_open : w_closeOnce (world_of (sess_core ss)) = false ->
    sess_stopped ss = false /\ w_closeChan (world_of (sess_core ss)) = None /\ closes (world_of (sess_core ss)) = [];
  ck_closing : w_closeOnce (world_of (sess_core ss)) = true -> sess_stopped ss = false ->
    exists e, w_closeChan (world_of (sess_core ss)) = Some e /\ closes (world_of (sess_core ss)) = [close_call (world_of (sess_core ss)) e];
  ck_stopped : sess_stopped ss = true ->
    w_closeOnce (world_of (sess_core ss)) = true /\ w_closeChan (world_of (sess_core ss)) = None /\
    exists e, closes (world_of (sess_core ss)) = [close_call (world_of (sess_core ss)) e] /\
      (sess_connectionClosePacket ss <> None -> ce_sendClose e = true);
  ck_closed : sess_closed ss = sess_stopped ss;
  ck_running : sess_stopped ss = false -> sess_connectionClosePacket ss = None
}.

Lemma close_call_src w w' e : w_srcConnID w' = w_srcConnID w -> close_call w' e = close_call w e.
Proof. unfold close_call. by intros ->. Qed.

Lemma grown_close_ok ss ss' : close_ok ss -> grown ss ss' -> close_ok ss'.
Proof.
  intros [Ko Kc Ks Kl Kr] (Hg & E1 & E2 & E3). destruct (proj1 Hg) as [Es Hc Ho]. destruct (w_closeOnce (world_of (sess_core ss))) eqn:Ew.
  - destruct (Hc eq_refl) as (Ew' & Ech & Ecl). split; rewrite ?Ew', ?Ech, ?Ecl, ?E1, ?E2, ?E3; try done.
    + intros _ Hs. destruct (Kc eq_refl Hs) as (e & ? & ?). exists e. by rewrite (close_call_src _ _ _ Es).
    + intros Hs. destruct (Ks Hs) as (_ & ? & e & ? & ?). split_and!; try done. exists e. by rewrite (close_call_src _ _ _ Es).
  - destruct (Ko eq_refl) as (Hs & Hch & Hcl). destruct (Ho eq_refl) as [(Ew' & Ech & Ecl)|(Ew' & e & Ech & _ & Ecl)];
      split; rewrite ?Ew', ?Ech, ?Ecl, ?E1, ?E2, ?E3; try done; try congruence.
    intros _ _. exists e. rewrite Hcl, (close_call_src _ _ _ Es). done.
Qed.

Lemma finished_close_ok ss ss' e :
  close_ok ss -> sess_stopped ss = false -> w_closeChan (world_of (sess_core ss)) = Some e -> finished (taken_out ss) ss' e -> close_ok ss'.
Proof.
  intros [Ko Kc Ks Kl Kr] Hs Ee [Hg [F1 F2] Fp].
  assert (Ew : w_closeOnce (world_of (sess_core ss)) = true). { apply not_false_is_true. intros E. destruct (Ko E) as (_ & E' & _). congruence. }
  destruct (Kc Ew Hs) as (e' & Ee' & Hcl). assert (e' = e) as -> by congruence.
  destruct (proj1 Hg) as [Es Hc _]. destruct (Hc Ew) as (Ew' & Ech & Ecl). cbn in Ech.
  change (closes (world_of (sess_core (taken_out ss)))) with (closes (world_of (sess_core ss))) in Ecl.
  split; rewrite ?Ew', ?Ech, ?F1, ?F2; try done. intros _. split_and!; try done. exists e. rewrite Ecl, Hcl. split; [|done].
  by rewrite (close_call_src _ _ _ Es).
Qed.

Lemma step_close_ok ss ss' : close_ok ss -> session_step ss ss' -> close_ok ss'.
Proof.
  intros Hk Hs. destruct (session_step_cases _ _ Hs) as [Hg|(ss1 & e & Hg & Hn & Ee & Hf)]; [by eapply grown_close_ok|].
  eapply finished_close_ok; [by eapply grown_close_ok| |exact Ee|exact Hf]. destruct Hg as (_ & E & _). congruence.
Qed.

Lemma steps_close_ok ss ss' : close_ok ss -> rtc session_step ss ss' -> close_ok ss'.
Proof. intros Hk Hs. induction Hs; [done|]. eauto using step_close_ok. Qed.

(** C14. A session is closed once: in every state of a session, whatever packets arrive, whatever timers fire, and whatever the
    handshake and the application do, an open session has not told its packet handler anything; one that is being closed, has told
    it once, to retire its connection ID when it will send a CONNECTION_CLOSE and to remove it otherwise; the run loop ends
    only then, and a CONNECTION_CLOSE packet is kept only when the error was to be sent to the peer. *)
Theorem session_closes_once pers a dest src cfg pn v h cc rand token errs now ss :
  rtc session_step (new_session (new_core pers a dest src cfg pn v h cc rand token errs now)) ss -> close_ok ss.
Proof. apply steps_close_ok. by split. Qed.

(** ** Connection IDs *)

Lemma step_ids ss ss' : session_step ss ss' -> ids_le (sess_core ss) (sess_core ss').
Proof.
  intros Hs. destruct (session_step_cases _ _ Hs) as [[[_ Hg] _]|(ss1 & e & [[_ Hg] _] & _ & _ & [[_ Hf] _ _])]; [done|].
  etrans; [exact Hg|]. etrans; [|exact Hf]. by apply same_ids.
Qed.

Lemma steps_ids ss ss' : rtc session_step ss ss' -> ids_le (sess_core ss) (sess_core ss').
Proof. intros Hs. induction Hs as [|ss1 ss2 ss3 H12 _ IH]; [done|]. etrans; [by apply step_ids|done]. Qed.

(** C30. The connection IDs of a session: the packer, the packets that are sent and the session agree on the ID of the
    peer; the ID a server sends to never changes, that of a client only until the first packet of its server
    was accepted; a Retry is accepted at most once, only by a client, only before that packet, and the original ID is then remembered
    for ever. *)
Theorem connection_ids pers a dest src cfg pn v h cc rand token errs now ss ss' :
  rtc session_step (new_session (new_core pers a dest src cfg pn v h cc rand token errs now)) ss -> rtc session_step ss ss' ->
  in_sync (sess_core ss) /\
  (pers = PerspectiveServer \/ core_receivedFirstPacket (sess_core ss) = true -> core_destConnID (sess_core ss') = core_destConnID (sess_core ss)) /\
  (core_receivedRetry (sess_core ss) = true ->
     pers = PerspectiveClient /\ core_origDestConnID (sess_core ss) = dest /\
  core_receivedRetry (sess_core ss') = true /\ core_origDestConnID (sess_core ss') = dest) /\
  (core_receivedRetry (sess_core ss) = false -> core_origDestConnID (sess_core ss) = [] /\
  (core_receivedFirstPacket (sess_core ss) = true -> core_receivedRetry (sess_core ss') = false)).
Proof.
  intros Ha Hb. apply steps_ids in Ha as [P0 Y0 F0 V0 M0 R0 N0 K0]. apply steps_ids in Hb as [P1 Y1 F1 V1 M1 R1 N1 K1]. cbn in *.
  split; [by apply Y0|]. split.
  { intros [E|E]; [apply V1; congruence|by apply F1]. }
  split.
  - intros E. destruct (K0 eq_refl E) as (Ec & _ & Eo). destruct (R1 E) as [E1 E2]. split_and!; congruence.
  - intros E. split; [by apply N0|]. intros Ef. apply not_true_is_false. intros E'. destruct (K1 E E') as (_ & Ef' & _). congruence.
Qed.

End Steps.

(** ** After the end *)

Lemma pow2_exponent b n : 1 < n -> n = 2 ^ b -> 0 < b.
Proof.
  intros Hn ->. apply Z.lt_nge. intros Hl. destruct (Z.eq_dec b 0) as [->|]; [done|]. rewrite Z.pow_neg_r in Hn; lia.
Qed.

Lemma power_of_two_spec fuel n : 1 <= n < 2 ^ Z.of_nat fuel -> power_of_two fuel n = true <-> exists b, n = 2 ^ b.
Proof.
  revert n. induction fuel as [|fuel IH]; intros n Hn; [lia|]. cbn [power_of_two]. rewrite Nat2Z.inj_succ, Z.pow_succ_r in Hn by lia.
  destruct (Z.ltb_spec 1 n) as [H1|H1].
  2: { split; [|done]. intros _. exists 0. lia. }
  pose proof (Z.mod_pos_bound n 2 ltac:(lia)) as Hm. pose proof (Z.div_mod n 2 ltac:(lia)) as Hd.
  destruct (Z.eqb_spec (n mod 2) 0) as [E|E]; cbn [negb].
  - rewrite IH by lia. split.
    + intros [b Hb]. exists (b + 1). assert (0 <= b) by (apply Z.le_ngt; intros Hneg; rewrite Z.pow_neg_r in Hb; lia).
      rewrite Z.pow_add_r by lia. lia.
    + intros [b Hb]. exists (b - 1). assert (0 < b) by (by apply (pow2_exponent b n)).
      replace b with (Z.succ (b - 1)) in Hb by lia. rewrite Z.pow_succ_r in Hb by lia. lia.
  - split; [done|]. intros [b Hb]. exfalso. apply E. assert (0 < b) by (by apply (pow2_exponent b n)).
    rewrite Hb. replace b with (Z.succ (b - 1)) by lia. rewrite Z.pow_succ_r, Z.mul_comm by lia. by apply Z_mod_mult.
Qed.

(** How often the packet was sent again after [n] packets. *)
Definition copies (n : Z) : nat := Z.to_nat (if n =? 0 then 0 else Z.log2 n + 1).

Lemma copies_succ n : 0 <= n -> copies (n + 1) = (copies n + if power_of_two (Z.to_nat (n + 1)) (n + 1) then 1 else 0)%nat.
Proof.
  intros Hn. pose proof (Z.pow_gt_lin_r 2 (n + 1) ltac:(lia) ltac:(lia)) as Hlin.
  pose proof (power_of_two_spec (Z.to_nat (n + 1)) (n + 1)) as Hp. rewrite Z2Nat.id in Hp by lia. specialize (Hp ltac:(lia)).
  unfold copies. rewrite (proj2 (Z.eqb_neq (n + 1) 0)) by lia. destruct (Z.eqb_spec n 0) as [->|Hne]; [done|].
  pose proof (Z.log2_eq_succ_iff_pow2 n ltac:(lia)) as Hl. pose proof (Z.log2_succ_or n) as Ho. pose proof (Z.log2_nonneg n) as Hg.
  change (Z.succ n) with (n + 1) in *. destruct (power_of_two _ _).
  - rewrite (proj2 Hl) by (by apply Hp). lia.
  - destruct Ho as [Ho|Ho]; [exfalso; assert (false = true) by (apply Hp, Hl, Ho); done|]. rewrite Ho. lia.
Qed.

Section Backoff.
Context {C H : Type} `{!SendAlgorithm C} `{!FloatConv} `{!CryptoStreamHandler H}.
Variable mapOrder : gset StreamID -> list StreamID.
Variable error_text : goerr -> bytes.

Definition same_written (s s' : core (C := C) (H := H)) : Prop := core_written s' = core_written s.

Lemma handle_event_written s ev : sat (same_written s) (handle_event s ev).
Proof.
  destruct ev; cbn; try done.
  - unfold processTransportParameters. destruct (parameters_for s data); try done. apply sat_any. intros [m [err|]]; done.
  - unfold dropEncryptionLevel. apply sat_any. intros h. apply sat_any. done.
  - unfold stream_written. destruct encLevel; try done; apply sat_any; intros [str frames]; destruct (core_perspective s), frames; done.
Qed.

Lemma handle_all_events_written evs : forall s, sat (same_written s) (handle_all_events s evs).
Proof.
  induction evs as [|ev evs IH]; intros s; cbn; [done|]. eapply sat_bind; [apply handle_event_written|]. intros s1 E1.
  eapply sat_mono; [apply IH|]. unfold same_written. intros s2 E2. congruence.
Qed.

(** A session that has ended, which had written [b] and keeps the packet [p]. *)
Record ended (b : list bytes) (p : packedPacket) (ss : session (C := C) (H := H)) : Prop := {
  en_stopped : sess_stopped ss = true /\ sess_closed ss = true;
  en_packet : sess_connectionClosePacket ss = Some p;
  en_count : 0 <= sess_packetsReceivedAfterClose ss;
  en_written : core_written (sess_core ss) = b ++ replicate (copies (sess_packetsReceivedAfterClose ss)) (pp_raw p)
}.

Lemma ended_packet b p ss q : ended b p ss -> ended b p (handlePacket ss q).
Proof.
  intros [[E1 E2] Ep Hc Hw]. unfold handlePacket, handlePacketAfterClosed. rewrite E2. cbn. rewrite Ep.
  pose proof (copies_succ _ Hc) as Hs. destruct (power_of_two _ _); case_match; (split; cbn; [done|done|lia|]); rewrite Hs, Hw.
  1,2: rewrite Nat.add_1_r, replicate_S_end, app_assoc; done.
  all: by rewrite Nat.add_0_r.
Qed.

Lemma ended_step b p ss ss' : ended b p ss -> session_step mapOrder error_text ss ss' -> ended b p ss'.
Proof.
  intros He Hst. destruct Hst as [ss0 closeFirst ss1 Hns E|ss0 now wake closeFirst ss1 E|ss0 ss1 E|ss0 q Hn Hb Hl|ss0 h evs c E|ss0 m c notes|ss0 e|ss0 e];
    destruct He as [[E1 E2] Ep Hc Hw].
  - congruence.
  - unfold run_round in E. by rewrite E1 in E.
  - unfold run_close in E. destruct (w_closeChan _); [by rewrite E1 in E|done].
  - apply ended_packet. by split.
  - split; cbn; try done. rewrite <- Hw. apply (sat_ret _ _ _ (handle_all_events_written evs _) E).
  - by split.
  - by split.
  - by split.
Qed.

(** After a session was closed, the packets that still arrive are answered with the CONNECTION_CLOSE packet, but ever more
    rarely: of any number [n] of packets exactly those with the numbers 1, 2, 4, 8, ... are, so that the number of copies grows with the logarithm
    of [n], and nothing else is ever sent. *)
Theorem close_packet_backoff p ss ss' :
  sess_stopped ss = true -> sess_closed ss = true -> sess_connectionClosePacket ss = Some p -> sess_packetsReceivedAfterClose ss = 0 ->
  rtc (session_step mapOrder error_text) ss ss' ->
  core_written (sess_core ss') = core_written (sess_core ss) ++ replicate (copies (sess_packetsReceivedAfterClose ss')) (pp_raw p).
Proof.
  intros E1 E2 Ep En Hs. assert (He : ended (core_written (sess_core ss)) p ss).
  { split; try done; rewrite En; [done|]. cbn. by rewrite app_nil_r. }
  revert He. generalize (core_written (sess_core ss)) as b. clear E1 E2 Ep En. induction Hs as [ss|ss1 ss2 ss3 H12 _ IH]; intros b He; [apply He|].
  apply IH. by eapply ended_step.
Qed.

End Backoff.

(** ** The timer *)

Section Timer.
Context {C H : Type} `{!SendAlgorithm C} `{!FloatConv} `{!CryptoStreamHandler H}.
Implicit Types s : core (C := C) (H := H).

(** When the session wants to be woken up for inactivity: to send a PING, or to give up. *)
Definition idle_deadline s : outcome time :=
  if cfg_KeepAlive (core_config s) && core_handshakeComplete s && negb (core_keepAlivePingSent s)
  then idle ← peer_idle_timeout s; mret (Add (idleTimeoutStartTime s) (idle ÷ 2))
  else mret (Add (idleTimeoutStartTime s) (cfg_IdleTimeout (core_config s))).

(** The alarms of the session, besides. *)
Definition alarms s : list time :=
  List.filter (fun t => negb (IsZero t)) [handler_GetAlarmTimeout (ev_acks (core_env s)); hd_alarm (handler_of s); core_pacingDeadline s] ++
  (if core_handshakeComplete s then [] else [Add (core_sessionCreationTime s) (cfg_HandshakeTimeout (core_config s))]).

Lemma MinTime_min a b : MinTime a b = Z.min a b.
Proof. unfold MinTime, After. destruct (Z.ltb_spec b a); lia. Qed.

Lemma maybeResetTimer_min s idle :
  idle_deadline s = Ret idle ->
  exists d, maybeResetTimer s = Ret d /\ d ∈ idle :: alarms s /\ Forall (fun t => d <= t) (idle :: alarms s).
Proof.
  unfold idle_deadline, maybeResetTimer, alarms. intros E. rewrite E. cbn [mbind outcome_bind]. eexists. split; [reflexivity|].
  rewrite !MinTime_min. destruct (IsZero (handler_GetAlarmTimeout _)) eqn:E1, (IsZero (hd_alarm _)) eqn:E2, (IsZero (core_pacingDeadline s)) eqn:E3,
    (core_handshakeComplete s); cbn [negb List.filter]; rewrite ?E1, ?E2, ?E3; cbn [negb app]; rewrite ?MinTime_min; rewrite !elem_of_cons, ?elem_of_nil, !Forall_cons, ?Forall_nil; lia.
Qed.

(** The timer of a session is set to the earliest of the deadlines that apply: for inactivity, of the ACK that is
    delayed, of loss detection, for the handshake and for pacing. *)
Theorem timer_deadline s idle :
  idle_deadline s = Ret idle ->
  exists d, maybeResetTimer s = Ret d /\ d ∈ idle :: alarms s /\ Forall (fun t => d <= t) (idle :: alarms s).
Proof. apply maybeResetTimer_min. Qed.

(** With keep-alive the timer can be set to the past: when a packet that elicits an ACK was sent after the last
    packet was received, and half of the idle timeout has passed, no PING is sent, but the timer is still set for
    one, to a time that has passed already; the run loop then goes round without waiting until the idle timeout. *)
Theorem keep_alive_spins s idle now :
  cfg_KeepAlive (core_config s) = true -> core_handshakeComplete s = true -> core_keepAlivePingSent s = false ->
  peer_idle_timeout s = Ret idle -> core_firstAckElicitingPacketAfterIdleSentTime s <> zero_time ->
  Add (idleTimeoutStartTime s) (idle ÷ 2) <= now ->
  exists d, maybeResetTimer s = Ret d /\ d <= now /\ keep_alive_due s now = Ret false.
Proof.
  intros Ek Eh Ep Ei Ef Hn. destruct (maybeResetTimer_min s (Add (idleTimeoutStartTime s) (idle ÷ 2))) as (d & Ed & _ & Hd).
  { unfold idle_deadline. by rewrite Ek, Eh, Ep, Ei. }
  exists d. apply Forall_cons_1 in Hd as [Hd _]. split_and!; [done|lia|]. unfold keep_alive_due, IsZero.
  destruct (Z.eqb_spec (core_firstAckElicitingPacketAfterIdleSentTime s) 0); [done|]. by rewrite andb_false_r.
Qed.

(** ** The loop of [sendPackets] ends *)

Variable mapOrder : gset StreamID -> list StreamID.






End Timer.
