(* ===== verification/SessionBuffers.v ===== *)
(** * The session: its packet buffers

    A received datagram lives in a buffer of a pool, which counts its references: a datagram can hold several packets,
    each of which can wait for its keys.  No reference is dropped twice, no buffer goes back to the pool while a packet
    in it still waits, and the two queues of the session are bounded. *)

From S2P Require Import Prelude VarInt Protocol GoFloat Frames SentPacketHandler Headers PacketPacker TransportParameters CryptoSetup Session SessionProperties.

Section Buffers.
Context {C H : Type} `{!SendAlgorithm C} `{!FloatConv} `{!CryptoStreamHandler H}.
Variable mapOrder : gset StreamID -> list StreamID.
Variable error_text : goerr -> bytes.
Implicit Types s : core (C := C) (H := H).
Implicit Types ss : session (C := C) (H := H).

(** ** The invariant *)

(** How many of the packets are in a buffer. *)
Definition cnt (b : nat) (ps : list receivedPacket) : Z := Z.of_nat (length (List.filter (fun p => bool_decide (rp_buffer p = b)) ps)).

Lemma cnt_app b ps qs : cnt b (ps ++ qs) = cnt b ps + cnt b qs.
Proof. unfold cnt. rewrite List.filter_app, length_app. lia. Qed.

Lemma cnt_cons b p ps : cnt b (p :: ps) = (if bool_decide (rp_buffer p = b) then 1 else 0) + cnt b ps.
Proof. unfold cnt. cbn. case_match; cbn; lia. Qed.

Lemma cnt_nonneg b ps : 0 <= cnt b ps.
Proof. unfold cnt. lia. Qed.

Definition held (hand : option nat) (b : nat) : Z := if bool_decide (hand = Some b) then 1 else 0.

Definition packet_ok (p : receivedPacket) : Prop := bytes_ok (rp_data p) /\ Z.of_nat (length (rp_data p)) <= MaxReceivePacketSize.

(** Every packet that waits, and the one that is being handled, has a reference to its buffer; the buffers in the pool
    have none. *)
Record buffers_ok (hand : option nat) (ss : session (C := C) (H := H)) : Prop := {
  bo_uses b : cnt b (sess_receivedPackets ss) + cnt b (sess_undecryptablePackets ss) + held hand b <= refCount ss b;
  bo_pool : NoDup (sess_putBack ss);
  bo_free b : b ∈ sess_putBack ss -> sess_refCount ss !! b = Some 0;
  bo_received : Z.of_nat (length (sess_receivedPackets ss)) <= MaxSessionUnprocessedPackets;
  bo_undecryptable : Z.of_nat (length (sess_undecryptablePackets ss)) <= MaxUndecryptablePackets;
  bo_packets : Forall packet_ok (sess_receivedPackets ss ++ sess_undecryptablePackets ss)
}.

Lemma held_none b : held None b = 0.
Proof. done. Qed.

Lemma drop_hand hand ss : buffers_ok hand ss -> buffers_ok None ss.
Proof. intros [H1 H2 H3 H4 H5 H6]. split; try done. intros b. specialize (H1 b). rewrite held_none. unfold held in H1. case_match; lia. Qed.

Lemma held_known ss b : buffers_ok (Some b) ss -> is_Some (sess_refCount ss !! b).
Proof.
  intros [H1 _ _ _ _ _]. specialize (H1 b). pose proof (cnt_nonneg b (sess_receivedPackets ss)). pose proof (cnt_nonneg b (sess_undecryptablePackets ss)).
  unfold held in H1. rewrite bool_decide_eq_true_2 in H1 by done. unfold refCount in H1. destruct (sess_refCount ss !! b); [eauto|cbn in H1; lia].
Qed.

(** What does not touch the buffers. *)
Record same_queues ss ss' : Prop := {
  sq_received : sess_receivedPackets ss' = sess_receivedPackets ss;
  sq_undecryptable : sess_undecryptablePackets ss' = sess_undecryptablePackets ss;
  sq_refCount : sess_refCount ss' = sess_refCount ss;
  sq_putBack : sess_putBack ss' = sess_putBack ss
}.

#[local] Instance same_queues_preorder : PreOrder same_queues.
Proof. split; [by split|]. intros x y z [] []. split; congruence. Qed.

Lemma same_queues_ok hand ss ss' : same_queues ss ss' -> buffers_ok hand ss -> buffers_ok hand ss'.
Proof. intros [E1 E2 E3 E4] [H1 H2 H3 H4 H5 H6]. split; unfold refCount in *; rewrite ?E1, ?E2, ?E3, ?E4; done. Qed.

Lemma core_ok hand ss c : buffers_ok hand ss -> buffers_ok hand (ss <| sess_core := c |>).
Proof. by apply same_queues_ok. Qed.

(** What keeps the references, and puts nothing back. *)
Definition kept hand ss ss' : Prop :=
  (buffers_ok hand ss -> buffers_ok hand ss') /\ sess_putBack ss' = sess_putBack ss /\ sess_refCount ss' = sess_refCount ss.

#[local] Instance kept_preorder hand : PreOrder (kept hand).
Proof. split; [by split|]. intros x y z (?&?&?) (?&?&?). split_and!; [auto|congruence..]. Qed.

Lemma same_queues_kept hand ss ss' : same_queues ss ss' -> kept hand ss ss'.
Proof. intros Hq. split_and!; [by apply same_queues_ok|apply Hq..]. Qed.

(** ** The queues *)

Lemma handlePacketAfterClosed_same ss : same_queues ss (handlePacketAfterClosed ss).
Proof. unfold handlePacketAfterClosed. repeat case_match; by split. Qed.

(** A packet is queued, or dropped. *)
Lemma handlePacket_queues ss p : exists ss1, same_queues ss ss1 /\
  (handlePacket ss p = ss1 \/
   Z.of_nat (length (sess_receivedPackets ss1)) < MaxSessionUnprocessedPackets /\
   handlePacket ss p = ss1 <| sess_receivedPackets := sess_receivedPackets ss1 ++ [p] |>).
Proof.
  unfold handlePacket. set (ss1 := if sess_closed ss then _ else _). exists ss1. split.
  - subst ss1. case_match; [apply handlePacketAfterClosed_same|done].
  - case_match; zbool; auto.
Qed.

(** The references of the queued packets, and of the next ones. *)
Lemma queue_ok hand ss p qs :
  buffers_ok hand (ss <| sess_undecryptablePackets := p :: qs |>) ->
  buffers_ok hand (handlePacket ss p <| sess_undecryptablePackets := qs |>) /\ sess_putBack (handlePacket ss p) = sess_putBack ss.
Proof.
  intros [H1 H2 H3 H4 H5 H6]. unfold refCount in *. cbn in *. apply Forall_app in H6 as [H6 [H7 H8]%Forall_cons].
  destruct (handlePacket_queues ss p) as (ss1 & [E1 E2 E3 E4] & [->|[Hl ->]]); (split; [|cbn; congruence]);
    split; cbn; unfold refCount; cbn; rewrite ?E1, ?E3, ?E4; try done; try lia.
  - intros b. specialize (H1 b). rewrite cnt_cons in H1. case_match; lia.
  - apply Forall_app; auto.
  - intros b. specialize (H1 b). rewrite cnt_app, cnt_cons in *. change (cnt b []) with 0. lia.
  - rewrite E1 in Hl. rewrite length_app. cbn. lia.
  - by rewrite !Forall_app, Forall_singleton.
Qed.

Lemma tryDecrypting_kept hand ss : kept hand ss (tryDecryptingQueuedPackets ss).
Proof.
  assert (Hq : forall ps ss, (buffers_ok hand (ss <| sess_undecryptablePackets := ps |>) ->
    buffers_ok hand (foldl handlePacket ss ps <| sess_undecryptablePackets := [] |>)) /\
    sess_putBack (foldl handlePacket ss ps) = sess_putBack ss /\ sess_refCount (foldl handlePacket ss ps) = sess_refCount ss).
  { clear ss. induction ps as [|p ps IH]; intros ss; cbn [foldl]; [done|]. destruct (IH (handlePacket ss p)) as (IH1 & IH2 & IH3).
    rewrite IH2, IH3. split.
    - intros Hb. apply IH1. by apply queue_ok.
    - destruct (handlePacket_queues ss p) as (ss1 & [] & [->|[_ ->]]); done. }
  unfold tryDecryptingQueuedPackets. split; [|apply (Hq (sess_undecryptablePackets ss) ss)].
  intros Hb. apply Hq. by destruct ss.
Qed.

Lemma handle_frames_kept hand fuel now lvl : forall ss r ae,
  sat (fun '(ss', _, _) => kept hand ss ss') (handle_frames fuel ss now lvl r ae).
Proof.
  induction fuel as [|fuel IH]; intros ss r ae; cbn [handle_frames]; [done|].
  destruct (ParseNext _ _ _) as [[[f|] r']|err|]; try done. apply sat_any. intros [[c decrypt] err]. set (ss1 := if decrypt then _ else _).
  assert (G1 : kept hand ss ss1).
  { subst ss1. etrans; [by apply (same_queues_kept hand ss (ss <| sess_core := c |>))|]. destruct decrypt; [apply tryDecrypting_kept|done]. }
  destruct err; [done|]. eapply sat_mono; [apply IH|]. intros [[ss2 e2] ae2] G2. by etrans.
Qed.

Lemma handleUnpackedPacket_kept hand ss now packet t : sat (fun '(ss', _) => kept hand ss ss') (handleUnpackedPacket ss now packet t).
Proof.
  unfold handleUnpackedPacket. destruct (up_data packet) as [|b data]; [done|].
  eapply sat_bind; [apply (handle_frames_kept hand)|]. intros [[ss1 err] ae] G1.
  assert (G2 : kept hand ss ss1) by (etrans; [|exact G1]; by apply same_queues_kept).
  destruct err; [done|]. apply sat_any. intros [acks err]. cbn. etrans; [exact G2|]. by apply same_queues_kept.
Qed.

(** A packet that is queued takes the reference with it. *)
Lemma tryQueueing_ok ss p :
  buffers_ok (Some (rp_buffer p)) ss -> packet_ok p -> buffers_ok None (tryQueueingUndecryptablePacket ss p).
Proof.
  intros Hb Hp. pose proof (drop_hand _ _ Hb) as Hn. destruct Hb as [H1 H2 H3 H4 H5 H6]. unfold tryQueueingUndecryptablePacket.
  case_match; [done|]. case_match; zbool; [done|]. split; cbn; try done.
  - intros b. specialize (H1 b). unfold refCount in *. cbn. rewrite cnt_app, cnt_cons, held_none. change (cnt b []) with 0.
    unfold held in H1. repeat case_bool_decide; try lia; congruence.
  - rewrite length_app. cbn. lia.
  - rewrite app_assoc. apply Forall_app. split; [done|]. by apply Forall_singleton.
Qed.

Lemma single_packet_ok ss now p hdr :
  packet_ok p -> buffers_ok (Some (rp_buffer p)) ss ->
  sat (fun '(ss', _, wasQueued) => buffers_ok (if wasQueued : bool then None else Some (rp_buffer p)) ss' /\ sess_putBack ss' = sess_putBack ss /\
      sess_refCount ss' = sess_refCount ss)
    (single_packet ss now p hdr).
Proof.
  intros Hp Hb. unfold single_packet. case_match; [apply sat_any; intros [c processed]; split; [by apply core_ok|done]|].
  case_match; [done|]. case_match; [done|]. destruct (Unpack _ _ _ _) as [u packet]. set (ss1 := ss <| sess_core := _ |>).
  assert (G1 : buffers_ok (Some (rp_buffer p)) ss1) by (by apply core_ok).
  destruct packet as [packet|err|]; [| |done].
  - eapply sat_bind; [apply (handleUnpackedPacket_kept (Some (rp_buffer p)))|]. intros [ss2 err] (G2 & E2 & E3). specialize (G2 G1).
    destruct err as [err|]; [|done]. cbn. split; [by apply core_ok|done].
  - case_match; [|done]. cbn. split; [by apply tryQueueing_ok|]. unfold tryQueueingUndecryptablePacket. by repeat case_match.
Qed.

(** ** Dropping references *)

(** The functions of the session that drop references, without the check of [Decrement]. *)
Definition decrement ss (b : nat) : session (C := C) (H := H) := set_refCount ss b (refCount ss b - 1).

Definition handleSinglePacket' ss (now : time) (p : receivedPacket) (hdr : Header) : outcome (session (C := C) (H := H) * bool) :=
  '(ss, processed, wasQueued) ← single_packet ss now p hdr;
  mret (if wasQueued : bool then ss else decrement ss (rp_buffer p), processed).

Fixpoint handle_packets' (fuel : nat) ss (now : time) (p : receivedPacket) (data : bytes) (first : bool)
    (lastConnID : ConnectionID) (processed : bool) : outcome (session (C := C) (H := H) * bool) :=
  match fuel with
  | O => Panic "out of fuel"
  | S fuel =>
      match data with
      | [] => mret (ss, processed)
      | _ :: _ =>
          match ParsePacket data (connID_Len (w_srcConnID (world_of (sess_core ss)))) with
          | Panic msg => Panic msg
          | Error _ => mret (ss, processed)
          | Ret (hdr, packetData, rest) =>
              if negb first && negb (connID_Equal (hd_DestConnectionID hdr) lastConnID) then mret (ss, processed) else
              let ss := if first then ss else Split ss (rp_buffer p) in
              let p := mkReceivedPacket (rp_rcvTime p) packetData (rp_buffer p) in
              '(ss, wasProcessed) ← handleSinglePacket' ss now p hdr;
              handle_packets' fuel ss now p rest false (hd_DestConnectionID hdr) (processed || wasProcessed)
          end
      end
  end.

Definition handlePacketImpl' ss (now : time) (rp : receivedPacket) : outcome (session (C := C) (H := H) * bool) :=
  '(ss, processed) ← handle_packets' (S (length (rp_data rp))) ss now rp (rp_data rp) true [] false;
  mret (MaybeRelease ss (rp_buffer rp), processed).

Lemma drop_reference_ok ss b :
  buffers_ok (Some b) ss -> b ∉ sess_putBack ss -> Decrement ss b = Ret (decrement ss b) /\ buffers_ok None (decrement ss b).
Proof.
  intros [H1 H2 H3 H4 H5 H6] Hn. unfold Decrement, decrement. pose proof (H1 b) as Hb. unfold held in *. rewrite bool_decide_eq_true_2 in Hb by done.
  pose proof (cnt_nonneg b (sess_receivedPackets ss)). pose proof (cnt_nonneg b (sess_undecryptablePackets ss)). split.
  { rewrite (proj2 (Z.ltb_ge _ _)) by lia. done. }
  split; cbn; try done.
  - intros b'. specialize (H1 b'). rewrite held_none. unfold refCount in *. cbn. destruct (decide (b = b')) as [<-|Hne].
    + rewrite lookup_insert_eq. cbn. lia.
    + rewrite lookup_insert_ne by done. rewrite bool_decide_eq_false_2 in H1 by congruence. done.
  - intros b' Hb'. rewrite lookup_insert_ne; [auto|]. by intros ->.
Qed.

Lemma split_ok ss b : buffers_ok None ss -> b ∉ sess_putBack ss -> buffers_ok (Some b) (Split ss b).
Proof.
  intros [H1 H2 H3 H4 H5 H6] Hn. split; cbn; try done.
  - intros b'. specialize (H1 b'). rewrite held_none in H1. unfold held, refCount in *. cbn. destruct (decide (b = b')) as [<-|Hne].
    + rewrite lookup_insert_eq, bool_decide_eq_true_2 by done. cbn. unfold refCount. lia.
    + rewrite lookup_insert_ne, bool_decide_eq_false_2 by congruence. done.
  - intros b' Hb'. rewrite lookup_insert_ne; [auto|]. by intros ->.
Qed.

Lemma handleSinglePacket_ok ss now p hdr :
  packet_ok p -> buffers_ok (Some (rp_buffer p)) ss -> rp_buffer p ∉ sess_putBack ss ->
  handleSinglePacket ss now p hdr = handleSinglePacket' ss now p hdr /\
  sat (fun '(ss', _) => buffers_ok None ss' /\ sess_putBack ss' = sess_putBack ss /\ is_Some (sess_refCount ss' !! rp_buffer p)) (handleSinglePacket' ss now p hdr).
Proof.
  intros Hp Hb Hn. unfold handleSinglePacket, handleSinglePacket'. pose proof (single_packet_ok ss now p hdr Hp Hb) as Hs.
  destruct (single_packet ss now p hdr) as [[[ss1 processed] [|]]| |]; cbn in *; try done; destruct Hs as (Hs & Ep & Er).
  - rewrite Er. split_and!; try done. by apply held_known.
  - rewrite <- Ep in Hn. destruct (drop_reference_ok _ _ Hs Hn) as [-> Ho]. cbn. rewrite lookup_insert_eq. eauto.
Qed.

(** The packets of a datagram: so short a datagram does not hold 256 packets, which the counter could not count. *)
Lemma handle_packets_ok fuel now : forall ss p data counter id processed,
  0 <= counter -> data = [] \/ 6 * counter + Z.of_nat (length data) <= MaxReceivePacketSize -> bytes_ok data ->
  (counter = 0 -> rp_data p = data) -> buffers_ok (if counter =? 0 then Some (rp_buffer p) else None) ss ->
  rp_buffer p ∉ sess_putBack ss -> is_Some (sess_refCount ss !! rp_buffer p) ->
  handle_packets fuel ss now p data counter id processed = handle_packets' fuel ss now p data (counter =? 0) id processed /\
  sat (fun '(ss', _) => buffers_ok None ss' /\ sess_putBack ss' = sess_putBack ss /\ is_Some (sess_refCount ss' !! rp_buffer p))
    (handle_packets' fuel ss now p data (counter =? 0) id processed).
Proof.
  induction fuel as [|fuel IH]; intros ss p data counter id processed Hc Hl Hok Hp Hb Hn Hk; [done|]. cbn [handle_packets handle_packets'].
  destruct data as [|d data]; [split; [done|]; split; [by eapply drop_hand|done]|]. destruct Hl as [|Hl]; [done|].
  set (dd := d :: data) in *. assert (Hd : (0 < length dd)%nat) by (subst dd; cbn; lia). unfold MaxReceivePacketSize in Hl.
  set (p1 := if 0 <? counter then _ else p).
  assert (Ep1 : rp_data p1 = dd /\ rp_buffer p1 = rp_buffer p /\ rp_rcvTime p1 = rp_rcvTime p).
  { subst p1. destruct (Z.ltb_spec 0 counter); [done|]. split; [apply Hp; lia|done]. }
  destruct Ep1 as (-> & -> & ->). clearbody p1 dd. replace (0 <? counter) with (negb (counter =? 0)).
  2: { destruct (Z.eqb_spec counter 0), (Z.ltb_spec 0 counter); lia || done. }
  pose proof (ParsePacket_any dd (connID_Len (w_srcConnID (world_of (sess_core ss)))) Hok ltac:(unfold connID_Len; lia)) as Ha.
  destruct (ParsePacket dd _) as [[[hdr pd] rest]|err|]; [|split; [done|]; split; [by eapply drop_hand|done]|done].
  destruct (negb (counter =? 0) && negb (connID_Equal _ _)); [split; [done|]; split; [by eapply drop_hand|done]|].
  assert (Hparts : (length pd <= length dd)%nat /\ bytes_ok pd /\ bytes_ok rest /\ (rest = [] \/ (6 + length rest <= length dd)%nat)).
  { destruct Ha as [_ [(_ & -> & ->)|(-> & _ & Hr)]]; [cbn; split_and!; [lia|constructor|constructor|by left]|].
    unfold bytes_ok in *. apply Forall_app in Hok as [H1 H2]. rewrite length_app. split_and!; [lia|done|done|]. destruct Hr; [by left|right; lia]. }
  destruct Hparts as (Hpl & Hpd & Hrest & Hrl). set (p2 := mkReceivedPacket _ _ _).
  set (ss1 := if counter =? 0 then ss else Split ss (rp_buffer p)). replace (if negb (counter =? 0) then Split ss (rp_buffer p) else ss) with ss1.
  2: { subst ss1. by destruct (counter =? 0). }
  assert (Hb1 : buffers_ok (Some (rp_buffer p2)) ss1) by (subst ss1; destruct (counter =? 0); [done|by apply split_ok]).
  assert (E1 : sess_putBack ss1 = sess_putBack ss) by (subst ss1; by destruct (counter =? 0)).
  destruct (handleSinglePacket_ok ss1 now p2 hdr) as [-> Hs]; [split; [done|cbn; unfold MaxReceivePacketSize; lia]|done|by rewrite E1|].
  destruct (handleSinglePacket' ss1 now p2 hdr) as [[ss2 was]| |]; cbn in Hs |- *; try done. destruct Hs as (Hs & E2 & Hk2).
  assert (Hu : uint8 (counter + 1) = counter + 1) by (apply Z.mod_small; lia). rewrite Hu.
  destruct (IH ss2 p2 rest (counter + 1) (hd_DestConnectionID hdr) (processed || was)) as [IH1 IH2].
  - lia.
  - unfold MaxReceivePacketSize. destruct Hrl; [by left|right; lia].
  - done.
  - lia.
  - rewrite (proj2 (Z.eqb_neq _ _)) by lia. done.
  - cbn. congruence.
  - done.
  - rewrite (proj2 (Z.eqb_neq _ _)) in IH1, IH2 by lia. split; [exact IH1|]. rewrite <- E1, <- E2. exact IH2.
Qed.

(** ** The steps of the session *)

Lemma MaybeRelease_ok ss b : buffers_ok None ss -> b ∉ sess_putBack ss -> is_Some (sess_refCount ss !! b) -> buffers_ok None (MaybeRelease ss b).
Proof.
  intros [H1 H2 H3 H4 H5 H6] Hn [n Hs]. unfold MaybeRelease. destruct (Z.eqb_spec (refCount ss b) 0) as [E|E]; [|by split].
  split; cbn; try done.
  - apply NoDup_app. split_and!; [done| |apply NoDup_singleton]. intros b' Hb' ->%list_elem_of_singleton. done.
  - intros b' [Hb'|Hb']%elem_of_app; [auto|]. apply list_elem_of_singleton in Hb' as ->. unfold refCount in E. rewrite Hs in E |- *. cbn in E. by subst n.
Qed.

Lemma take_packet ss p ps :
  buffers_ok None ss -> sess_receivedPackets ss = p :: ps -> buffers_ok (Some (rp_buffer p)) (ss <| sess_receivedPackets := ps |>) /\ packet_ok p.
Proof.
  intros [H1 H2 H3 H4 H5 H6] E. rewrite E in *. cbn in H4. apply Forall_cons in H6 as [Hp H6]. split; [|done]. split; cbn; try done; [|lia].
  intros b. specialize (H1 b). rewrite cnt_cons, held_none in H1. unfold held, refCount in *. cbn. repeat case_bool_decide; congruence || lia.
Qed.

Lemma handlePacketImpl_ok ss now p :
  buffers_ok (Some (rp_buffer p)) ss -> packet_ok p ->
  handlePacketImpl ss now p = handlePacketImpl' ss now p /\ sat (fun '(ss', _) => buffers_ok None ss') (handlePacketImpl ss now p).
Proof.
  intros Hb [Hp Hl]. pose proof (held_known _ _ Hb) as Hk.
  assert (Hn : rp_buffer p ∉ sess_putBack ss).
  { intros He. pose proof (bo_free _ _ Hb _ He) as Hz. pose proof (bo_uses _ _ Hb (rp_buffer p)) as Hu. unfold held, refCount in Hu.
    rewrite Hz, bool_decide_eq_true_2 in Hu by done. cbn in Hu. pose proof (cnt_nonneg (rp_buffer p) (sess_receivedPackets ss)).
    pose proof (cnt_nonneg (rp_buffer p) (sess_undecryptablePackets ss)). lia. }
  unfold handlePacketImpl, handlePacketImpl'.
  destruct (handle_packets_ok (S (length (rp_data p))) now ss p (rp_data p) 0 [] false) as [-> Hs]; try done; [by right|].
  split; [done|]. eapply sat_bind; [exact Hs|]. intros [ss1 processed] (G1 & G2 & G3). cbn. apply MaybeRelease_ok; congruence || done.
Qed.

(** A packet in a buffer of its own. *)
Lemma fresh_packet ss p :
  buffers_ok None ss -> sess_refCount ss !! rp_buffer p = None -> bytes_ok (rp_data p) -> Z.of_nat (length (rp_data p)) <= MaxReceivePacketSize ->
  buffers_ok None (handlePacket (set_refCount ss (rp_buffer p) 1) p).
Proof.
  intros [H1 H2 H3 H4 H5 H6] Hn Hok Hl. set (ss0 := set_refCount ss (rp_buffer p) 1).
  assert (Hr : forall b, refCount ss0 b = refCount ss b + if bool_decide (rp_buffer p = b) then 1 else 0).
  { intros b. unfold ss0, refCount. cbn. case_bool_decide as E; [subst b; rewrite Hn, lookup_insert_eq|rewrite lookup_insert_ne by done]; cbn; lia. }
  assert (Hf : forall b, b ∈ sess_putBack ss -> sess_refCount ss0 !! b = Some 0).
  { intros b Hb. cbn. rewrite lookup_insert_ne; [auto|]. intros E. apply H3 in Hb. congruence. }
  destruct (handlePacket_queues ss0 p) as (ss1 & [E1 E2 E3 E4] & [->|[Hl1 ->]]); split; unfold refCount; cbn; rewrite ?E1, ?E2, ?E3, ?E4; try done.
  - intros b. specialize (H1 b). specialize (Hr b). unfold refCount in *. rewrite Hr. cbn. case_match; lia.
  - intros b. specialize (H1 b). specialize (Hr b). unfold refCount in *. rewrite Hr, cnt_app, cnt_cons. change (cnt b []) with 0. cbn. lia.
  - rewrite E1 in Hl1. rewrite length_app. cbn in *. lia.
  - rewrite <- app_assoc. cbn. apply Forall_app in H6 as [H6 H7]. rewrite Forall_app, Forall_cons. done.
Qed.

Lemma run_top_same ss closeFirst : sat (fun '(ss', _) => same_queues ss ss') (run_top error_text ss closeFirst).
Proof.
  assert (Hf : forall ss e, sat (same_queues ss) (run_finish error_text ss e)).
  { intros ss1 e. unfold run_finish. apply sat_any. by intros [c packet]. }
  unfold run_top. destruct (w_closeChan _) as [e|]; [sat_if|].
  - eapply sat_bind; [apply Hf|]. intros ss1 [E1 E2 E3 E4]. by split.
  - apply sat_any. intros c. apply sat_any. intros d. by split.
  - apply sat_any. intros c. apply sat_any. intros d. by split.
Qed.

Lemma step_buffers ss ss' : buffers_ok None ss -> session_step mapOrder error_text ss ss' -> buffers_ok None ss'.
Proof.
  intros Hb Hst. destruct Hst as [ss0 closeFirst ss1 Hns E|ss0 now wake closeFirst ss1 E|ss0 ss1 E|ss0 p Hn Hok Hl|ss0 h evs c E|ss0 m c notes|ss0 e|ss0 e].
  - unfold run_start in E. case_match; [done|]. pose proof (run_top_same (hello_written ss0) closeFirst) as Hs.
    destruct (run_top _ _ closeFirst) as [[ss2 go]| |]; cbn in E, Hs; try done. injection E as <-.
    eapply same_queues_ok; [|exact Hb]. etrans; [|exact Hs]. unfold hello_written. case_match; by split.
  - unfold run_round in E. case_match; [done|].
    assert (Hs : sat (fun '(ss2, _) => buffers_ok None ss2) (run_select ss0 now wake)).
    { destruct wake; cbn [run_select]; [done|by apply core_ok| |apply sat_any; intros c; by apply core_ok].
      destruct (sess_receivedPackets ss0) as [|p ps] eqn:Ep; [done|]. destruct (take_packet _ _ _ Hb Ep) as [Hb1 Hp1]. by apply handlePacketImpl_ok. }
    destruct (run_select ss0 now wake) as [[ss2 go]| |]; cbn in E, Hs; try done. destruct (if go then _ else _) as [c| |]; cbn in E; try done.
    pose proof (run_top_same (ss2 <| sess_core := c |>) closeFirst) as Ht. destruct (run_top _ _ closeFirst) as [[ss3 go3]| |]; cbn in E, Ht; try done.
    injection E as <-. eapply same_queues_ok; [exact Ht|]. by apply core_ok.
  - unfold run_close in E. destruct (w_closeChan _) as [e|]; [|done]. case_match; [done|]. unfold run_finish in E.
    destruct (handleCloseError _ _ _) as [[c packet]| |]; cbn in E; try done. injection E as <-. eapply same_queues_ok; [|exact Hb]. by split.
  - by apply fresh_packet.
  - by apply core_ok.
  - by apply core_ok.
  - by apply core_ok.
  - by apply core_ok.
Qed.

Lemma steps_buffers ss ss' : rtc (session_step mapOrder error_text) ss ss' -> buffers_ok None ss -> buffers_ok None ss'.
Proof. intros Hs. induction Hs; eauto using step_buffers. Qed.

Lemma queued_not_pooled ss q :
  buffers_ok None ss -> q ∈ sess_receivedPackets ss ++ sess_undecryptablePackets ss -> rp_buffer q ∉ sess_putBack ss.
Proof.
  intros [H1 _ H3 _ _ _] Hq Hp. specialize (H1 (rp_buffer q)). unfold refCount in H1. rewrite (H3 _ Hp), held_none, Z.add_0_r, <- cnt_app in H1.
  apply list_elem_of_split in Hq as (l1 & l2 & E). rewrite E, cnt_app, cnt_cons, bool_decide_eq_true_2 in H1 by done. cbn in H1.
  pose proof (cnt_nonneg (rp_buffer q) l1). pose proof (cnt_nonneg (rp_buffer q) l2). lia.
Qed.

Lemma new_buffers s : buffers_ok None (new_session s).
Proof.
  split; cbn; [intros b; by rewrite held_none|constructor|intros b Hb|done|done|constructor]. by apply not_elem_of_nil in Hb.
Qed.

(** C4. The references to the packet buffers of a session are kept right, in every state a session reaches: no buffer is
    put back into the pool twice, and none while a packet in it still waits to be handled or for its keys; the two queues
    of packets do not grow past their limits; and when the next datagram is handled, whatever packets it is made of, the
    check of [Decrement] for a negative count changes nothing: it is never reached with a count of 0. *)
Theorem buffers_safe pers a dest src cfg pn v h cc rand token errs now ss :
  rtc (session_step mapOrder error_text) (new_session (new_core pers a dest src cfg pn v h cc rand token errs now)) ss ->
  NoDup (sess_putBack ss) /\
  (forall q, q ∈ sess_receivedPackets ss ++ sess_undecryptablePackets ss -> rp_buffer q ∉ sess_putBack ss) /\
  Z.of_nat (length (sess_receivedPackets ss)) <= MaxSessionUnprocessedPackets /\
  Z.of_nat (length (sess_undecryptablePackets ss)) <= MaxUndecryptablePackets /\
  (forall t p ps, sess_receivedPackets ss = p :: ps ->
     handlePacketImpl (ss <| sess_receivedPackets := ps |>) t p = handlePacketImpl' (ss <| sess_receivedPackets := ps |>) t p).
Proof.
  intros Hs. apply steps_buffers in Hs. 2: apply new_buffers.
  split_and!; [apply Hs|intros q; by apply queued_not_pooled|apply Hs|apply Hs|].
  intros t p ps E. destruct (take_packet _ _ _ Hs E) as [Hb1 Hp1]. by apply handlePacketImpl_ok.
Qed.

End Buffers.
