(* ===== verification/SessionExamples.v ===== *)
(** * The session: examples

    A server with the BBR sender is closed, and answers the packets of its client with its CONNECTION_CLOSE; the theorems
    about sessions are applied to it. *)

From S2P Require Import Prelude BBR VarInt Protocol GoFloat AckFrame Frames FrameSorter CryptoStream ReceivedTracker FlowControl SendStream ReceiveStream Stream StreamsMap RTTStats SentHistory SentPacketHandler Headers Framer Aead PacketPacker TransportParameters CryptoSetup Session SessionProperties SessionBuffers.

(** A server with the BBR sender, whose handshake has not begun, and which is closed. *)
#[local] Existing Instance amd64.
#[local] Instance demo_controller : SendAlgorithm bbrSender := bbr_algorithm (fun _ => 0) (fun _ => 0).
#[local] Instance demo_handshake : CryptoStreamHandler system := setup_handler demo_library.

Definition demo_config : config := mkConfig true (30 * Second) (10 * Second) 1000000 2000000 100 100.
Definition demo_core : core (C := bbrSender) (H := system) :=
  new_core PerspectiveServer IPv4Addr [1; 2; 3; 4] [5; 6; 7; 8] demo_config 0 VersionTLS (mkSystem demo_setup [] None Returned [] [] [])
    (NewBBRSender InitialCongestionWindow DefaultBBRMaxCongestionWindow) (fun _ => 1000) (Ret [9]) [] (1 * Second).
Definition demo_text (e : goerr) : bytes := [].

Definition demo_closing : session (C := bbrSender) (H := system) := on_core (new_session demo_core) (fun k => core_closeLocal k (Some EOF)).
Definition demo_closed : session (C := bbrSender) (H := system) :=
  match run_close demo_text demo_closing with Ret (Some ss) => ss | _ => demo_closing end.

Lemma demo_closed_steps : rtc (session_step elements demo_text) (new_session demo_core) demo_closed.
Proof.
  eapply rtc_l; [apply (step_closeLocal _ _ _ (Some EOF))|]. apply rtc_once, step_close. unfold demo_closed.
  assert (E : (match run_close demo_text demo_closing with Ret (Some _) => true | _ => false end) = true) by (vm_compute; reflexivity).
  fold demo_closing. destruct (run_close demo_text demo_closing) as [[ss|]| |]; done.
Qed.

Lemma session_closes_once_witness : sess_stopped demo_closed = true /\ close_ok demo_closed.
Proof. split; [vm_compute; reflexivity|]. eapply session_closes_once. exact demo_closed_steps. Defined.

Lemma connection_ids_witness : in_sync (sess_core demo_closed) /\ core_origDestConnID (sess_core demo_closed) = [].
Proof.
  destruct (connection_ids elements demo_text _ _ _ _ _ _ _ _ _ _ _ _ _ demo_closed demo_closed demo_closed_steps (rtc_refl _ _)) as (H1 & _ & _ & H2).
  split; [exact H1|]. apply H2. vm_compute. reflexivity.
Defined.

(** The client sends three datagrams. *)
Definition demo_datagram (b : nat) : receivedPacket := mkReceivedPacket (2 * Second) [0x45; 5; 6; 7; 8; 9; 0x11] b.
Definition demo_receive (ss : session (C := bbrSender) (H := system)) (b : nat) : session (C := bbrSender) (H := system) :=
  handlePacket (set_refCount ss b 1) (demo_datagram b).
Definition demo_answered : session (C := bbrSender) (H := system) := foldl demo_receive demo_closed [1; 2; 3]%nat.

Lemma demo_receive_step ss b : sess_refCount ss !! b = None -> session_step elements demo_text ss (demo_receive ss b).
Proof.
  intros Hb. apply (step_packet elements demo_text ss (demo_datagram b)); [exact Hb| |cbn; unfold MaxReceivePacketSize; lia].
  cbn. unfold bytes_ok, is_uint8. repeat constructor; lia.
Qed.

Lemma demo_answered_steps : rtc (session_step elements demo_text) demo_closed demo_answered.
Proof.
  unfold demo_answered. cbn [foldl].
  eapply (rtc_l _ _ (demo_receive demo_closed 1)); [apply demo_receive_step; vm_compute; reflexivity|].
  eapply (rtc_l _ _ (demo_receive (demo_receive demo_closed 1) 2)); [apply demo_receive_step; vm_compute; reflexivity|].
  apply rtc_once, demo_receive_step. vm_compute. reflexivity.
Qed.

Lemma close_packet_backoff_witness : exists p,
  sess_connectionClosePacket demo_closed = Some p /\
  core_written (sess_core demo_answered) = core_written (sess_core demo_closed) ++ [pp_raw p; pp_raw p].
Proof.
  assert (Hp : is_Some (sess_connectionClosePacket demo_closed)) by (vm_compute; eauto).
  destruct (sess_connectionClosePacket demo_closed) as [p|] eqn:Ep; [|destruct Hp; discriminate]. exists p. split; [reflexivity|].
  rewrite (close_packet_backoff elements demo_text p demo_closed demo_answered); [|vm_compute; reflexivity|vm_compute; reflexivity|exact Ep|vm_compute; reflexivity|exact demo_answered_steps].
  replace (sess_packetsReceivedAfterClose demo_answered) with 3 by (vm_compute; reflexivity). reflexivity.
Defined.

Lemma buffers_safe_witness :
  length (sess_receivedPackets demo_answered) = 3%nat /\ NoDup (sess_putBack demo_answered).
Proof.
  split; [vm_compute; reflexivity|].
  eapply (buffers_safe elements demo_text _ _ _ _ _ _ _ _ _ _ _ _ _ demo_answered). etrans; [exact demo_closed_steps|exact demo_answered_steps].
Defined.

Lemma timer_deadline_witness : exists d, maybeResetTimer demo_core = Ret d /\ d = 11 * Second.
Proof.
  destruct (timer_deadline demo_core (31 * Second)) as (d & E & _); [vm_compute; reflexivity|]. exists d. split; [exact E|].
  vm_compute in E. injection E as <-. reflexivity.
Defined.

(** Half of its idle timeout of 30 seconds after a client has sent a packet that was lost. *)
Definition demo_waiting : core (C := bbrSender) (H := system) :=
  demo_core <| core_handshakeComplete := true |> <| core_firstAckElicitingPacketAfterIdleSentTime := 2 * Second |>
    <| core_peerParams := Some (zero_params <| tp_IdleTimeout := 30 * Second |>) |>.

Lemma keep_alive_spins_witness : exists d, maybeResetTimer demo_waiting = Ret d /\ d <= 20 * Second /\ keep_alive_due demo_waiting (20 * Second) = Ret false.
Proof.
  apply (keep_alive_spins demo_waiting (30 * Second) (20 * Second)); try (vm_compute; reflexivity).
  - vm_compute. discriminate.
  - vm_compute. discriminate.
Defined.

