(* ===== verification/PacketHandlers.v ===== *)
(** * Routing of datagrams (packet_handler_map.go, multiplexer.go)

    The map from connection IDs to sessions and clients, which reads the datagrams of a socket, and the map of the sockets.
    What a call does to others is a list of [call]s; the timers of retired sessions are part of the state.
    The end of the file has the goroutines that make stateless resets, which share one hash. *)

From S2P Require Import Prelude VarInt Protocol Frames Headers.

Definition MinStatelessResetSize : Z := 1 + 22 + 16.
Definition RetiredConnectionIDDeleteTimeout : duration := 5 * Second.

Section Map.
(** Packet handlers, servers, network addresses and buffers. *)
Context {Hd Sv Addr : Type} (getPerspective : Hd -> Perspective).

(** A [receivedPacket] with its address. *)
Record datagram := mkDatagram {
  dg_remoteAddr : Addr;
  dg_rcvTime : time;
  dg_buffer : nat;
  dg_data : bytes
}.

Inductive call :=
| HandlerPacket (h : Hd) (p : datagram)
| HandlerDestroy (h : Hd) (e : goerr)
| HandlerClose (h : Hd)
| ServerPacket (s : Sv) (p : datagram)
| ServerSetCloseError (s : Sv) (e : goerr)
| GoStatelessReset (p : datagram) (connID : ConnectionID).

Record packetHandlerMap := mkHandlerMap {
  hm_connIDLen : Z;
  hm_handlers : gmap ConnectionID Hd;
  hm_resetTokens : gmap bytes Hd;
  hm_server : option Sv;
  hm_closed : bool;
  hm_statelessResetEnabled : bool;
  hm_timers : list (time * ConnectionID)      (* of the retired sessions, in the order in which they fire *)
}.

#[global] Instance packetHandlerMap_eta : Eta packetHandlerMap := fun m =>
  mkHandlerMap (hm_connIDLen m) (hm_handlers m) (hm_resetTokens m) (hm_server m) (hm_closed m) (hm_statelessResetEnabled m) (hm_timers m).

Definition newPacketHandlerMap (connIDLen : Z) (statelessResetKey : bytes) : packetHandlerMap :=
  mkHandlerMap connIDLen ∅ ∅ None false (0 <? Z.of_nat (length statelessResetKey)) [].

Definition Add (m : packetHandlerMap) (id : ConnectionID) (h : Hd) : packetHandlerMap := m <| hm_handlers := <[id := h]> (hm_handlers m) |>.
Definition Remove (m : packetHandlerMap) (id : ConnectionID) : packetHandlerMap := m <| hm_handlers := delete id (hm_handlers m) |>.
Definition Retire (m : packetHandlerMap) (now : time) (id : ConnectionID) : packetHandlerMap :=
  m <| hm_timers := hm_timers m ++ [(Prelude.Add now RetiredConnectionIDDeleteTimeout, id)] |>.
Definition AddResetToken (m : packetHandlerMap) (token : bytes) (h : Hd) : packetHandlerMap :=
  m <| hm_resetTokens := <[token := h]> (hm_resetTokens m) |>.
Definition RemoveResetToken (m : packetHandlerMap) (token : bytes) : packetHandlerMap :=
  m <| hm_resetTokens := delete token (hm_resetTokens m) |>.
Definition SetServer (m : packetHandlerMap) (s : Sv) : packetHandlerMap := m <| hm_server := Some s |>.

(** A timer of [time.AfterFunc] fires. *)
Definition timer_fires (m : packetHandlerMap) : packetHandlerMap :=
  match hm_timers m with
  | [] => m
  | (_, id) :: timers => Remove (m <| hm_timers := timers |>) id
  end.

(** The handlers that [CloseServer] closes, each in a goroutine, which retires it then; [mapOrder] is the order of the map. *)
Definition CloseServer (m : packetHandlerMap) (mapOrder : gmap ConnectionID Hd -> list (ConnectionID * Hd)) :
    packetHandlerMap * list (ConnectionID * Hd) :=
  (m <| hm_server := None |>, List.filter (fun x => bool_decide (getPerspective x.2 = PerspectiveServer)) (mapOrder (hm_handlers m))).

Definition close (m : packetHandlerMap) (mapOrder : gmap ConnectionID Hd -> list (ConnectionID * Hd)) (e : goerr) :
    packetHandlerMap * list call :=
  if hm_closed m then (m, [])
  else (m <| hm_closed := true |>,
        map (fun x => HandlerDestroy x.2 e) (mapOrder (hm_handlers m)) ++
        match hm_server m with Some s => [ServerSetCloseError s e] | None => [] end).

Definition is_short (data : bytes) : outcome bool :=
  match data with [] => Panic "index out of range" | b0 :: _ => mret (Z.land b0 0x80 =? 0) end.

(** The session of a stateless reset. *)
Definition maybeHandleStatelessReset (m : packetHandlerMap) (data : bytes) : outcome (option Hd) :=
  short ← is_short data;
  (* stateless resets are always short header packets *)
  if negb short then mret None
  else if Z.of_nat (length data) <? MinStatelessResetSize then mret None
  else mret (hm_resetTokens m !! drop (length data - 16) data).

Definition handlePacket (m : packetHandlerMap) (p : datagram) : outcome (list call) :=
  match ParseConnectionID (dg_data p) (hm_connIDLen m) with
  | Panic msg => Panic msg
  | Error _ => mret []
  | Ret connID =>
      reset ← maybeHandleStatelessReset m (dg_data p);
      match reset with
      | Some sess => mret [HandlerDestroy sess (ErrorString "received a stateless reset")]
      | None =>
          match hm_handlers m !! connID with
          | Some handler => mret [HandlerPacket handler p]
          | None =>
              short ← is_short (dg_data p);
              if short : bool then mret [GoStatelessReset p connID]
              else match hm_server m with None => mret [] | Some s => mret [ServerPacket s p] end
          end
      end
  end.

(** [mac] is the HMAC with the key of the map, [rand] the random bytes. *)
Definition GetStatelessResetToken (mac : bytes -> bytes) (rand : bytes) (m : packetHandlerMap) (connID : ConnectionID) : bytes :=
  if negb (hm_statelessResetEnabled m) then take 16 rand else take 16 (mac connID).

(** The packet that is made from the token and random bytes. *)
Definition reset_packet (rand : bytes) (token : bytes) : bytes :=
  match take 23 rand with
  | [] => token
  | b0 :: rest => Z.lor (Z.land b0 0x7f) 0x40 :: rest ++ token
  end.

(** The datagram that is sent, if there is one. *)
Definition maybeSendStatelessReset (mac : bytes -> bytes) (rand : bytes) (m : packetHandlerMap) (p : datagram) (connID : ConnectionID) : option bytes :=
  if negb (hm_statelessResetEnabled m) then None
  (* Don't send a stateless reset in response to very small packets. *)
  else if Z.of_nat (length (dg_data p)) <=? MinStatelessResetSize then None
  else Some (reset_packet rand (GetStatelessResetToken mac [] m connID)).

End Map.
Arguments datagram : clear implicits.
Arguments call : clear implicits.
Arguments packetHandlerMap : clear implicits.

(** ** The sockets (multiplexer.go) *)

Section Multiplexer.
Context {Conn : Type} `{Countable Conn} {Manager : Type}.

Record connManager := mkConnManager {
  mc_connIDLen : Z;
  mc_statelessResetKey : option bytes;       (* nil or a slice *)
  mc_manager : Manager
}.

Definition connMultiplexer : Type := gmap Conn connManager.

(** [bytes.Equal], for which nil is empty. *)
Definition slice_Equal (a b : option bytes) : bool := bool_decide (default [] a = default [] b).

(** [newManager] is the map that is made for a new socket. *)
Definition AddConn (x : connMultiplexer) (newManager : Z -> option bytes -> Manager) (c : Conn) (connIDLen : Z) (statelessResetKey : option bytes) :
    connMultiplexer * (Manager + goerr) :=
  let '(x, p) := match x !! c with
                 | Some p => (x, p)
                 | None => let p := mkConnManager connIDLen statelessResetKey (newManager connIDLen statelessResetKey) in (<[c := p]> x, p)
                 end in
  if negb (mc_connIDLen p =? connIDLen) then
    (x, inr (Errorf "cannot use %d byte connection IDs on a connection that is already using %d byte connction IDs" [connIDLen; mc_connIDLen p]))
  else if match statelessResetKey with None => false | Some _ => negb (slice_Equal (mc_statelessResetKey p) statelessResetKey) end then
    (x, inr (ErrorString "cannot use different stateless reset keys on the same packet conn"))
  else (x, inl (mc_manager p)).

Definition RemoveConn (x : connMultiplexer) (c : Conn) : connMultiplexer * option goerr :=
  match x !! c with
  | None => (x, Some (ErrorString "cannote remove connection, connection is unknown"))
  | Some _ => (delete c x, None)
  end.

End Multiplexer.

(** ** Routing: properties *)

Lemma ParsePacket_first_byte data n hdr packet rest :
  ParsePacket data n = Ret (hdr, packet, rest) -> exists b0 r, data = b0 :: r /\ hd_IsLongHeader hdr = (0 <? Z.land b0 0x80).
Proof.
  unfold ParsePacket. intros E. destruct (parseHeader n data) as [[[h err] r]| |] eqn:Eh; cbn in E; try done.
  assert (Hh : exists b0 r0, data = b0 :: r0 /\ hd_IsLongHeader h = (0 <? Z.land b0 0x80)).
  { unfold parseHeader in Eh. apply reader_bind_Ret in Eh as (st & r0 & [= <- <-] & Eh). apply reader_bind_Ret in Eh as ([h1 err1] & r1 & E1 & Eh).
    assert (E2 : hd_IsLongHeader h = hd_IsLongHeader h1).
    { destruct err1; [by injection Eh as <- _ _|]. by apply reader_bind_Ret in Eh as (len & r2 & _ & [= <- _ _]). }
    rewrite E2. clear -E1. unfold parseHeaderImpl in E1. apply reader_bind_Ret in E1 as (b0 & r0 & E0 & E1). destruct data as [|b r2]; [done|].
    injection E0 as <- <-. exists b, r2. split; [done|]. cbn in E1. destruct (0 <? Z.land b 128) eqn:Eb; cbn in E1.
    - unfold parseLongHeader in E1. apply reader_bind_Ret in E1 as (v & r3 & _ & E1). cbv zeta in E1. case_if_in E1; [done|].
      apply reader_bind_Ret in E1 as (lb & r4 & _ & E1). destruct (decodeConnIDLen lb). apply reader_bind_Ret in E1 as (d & r5 & _ & E1).
      apply reader_bind_Ret in E1 as (s & r6 & _ & E1). apply parse_versioned_keeps in E1 as (_ & E1 & _). exact E1.
    - case_if_in E1; [done|]. apply reader_bind_Ret in E1 as (h2 & r3 & E1 & [= <- <- <-]). unfold parseShortHeader in E1.
      by apply reader_bind_Ret in E1 as (id & r4 & _ & [= <- <-]). }
  destruct Hh as (b0 & r0 & -> & Hl). exists b0, r0. split; [done|]. destruct err; [by injection E as <- <- <-|].
  rewrite <- Hl. destruct (hd_IsLongHeader h) eqn:El; [case_if_in E; [done|]|]; by injection E as <- _ _.
Qed.

(** The cases of [datagrams_routed] after the test for a stateless reset. *)
Ltac routed_cases :=
  cbn [mret outcome_ret mbind outcome_bind negb];
  repeat match goal with
  | |- context [hm_handlers ?m !! ?id] => destruct (hm_handlers m !! id) as [?h|] eqn:?
  | |- context [hm_server ?m] => destruct (hm_server m) eqn:?
  end;
  eexists; (split; [reflexivity|]);
  destruct (ParsePacket _ _) as [[[?hdr ?q] ?r]| |] eqn:?E; cbn [length]; try lia;
  match goal with
  | H : forall hdr q r, _ = Ret _ -> _, E : _ = Ret (?hdr, ?q, ?r) |- _ =>
      let Hl := fresh in let Hi := fresh in destruct (H hdr q r ltac:(first [exact E|reflexivity])) as [Hl Hi]; rewrite ?Hl, ?Hi
  end;
  split_and?; try done.

Section Routing.
Context {Hd Sv Addr : Type}.
Implicit Types m ms mc : packetHandlerMap Hd Sv.
Implicit Types p : datagram Addr.

(** C22. Every datagram is taken care of once: whatever bytes arrive, routing does not panic and makes at most one call; a datagram whose
    header can be parsed goes to the session that is registered for the connection ID in it; but for a stateless
    reset, which ends the session it has the token of. Only packets with a long header that
    belong to no session reach the server, and only packets with a short header are answered with a stateless reset. *)
Theorem datagrams_routed m p :
  bytes_ok (dg_data p) -> 0 <= hm_connIDLen m ->
  exists calls, handlePacket m p = Ret calls /\
  match ParsePacket (dg_data p) (hm_connIDLen m) with
  | Ret (hdr, _, _) =>
      let id := hd_DestConnectionID hdr in
      match calls with
      | [HandlerPacket h q] => q = p /\ hm_handlers m !! id = Some h
      | [HandlerDestroy h _] =>
          hd_IsLongHeader hdr = false /\ exists pre token, dg_data p = pre ++ token /\ length token = 16%nat /\ hm_resetTokens m !! token = Some h
      | [ServerPacket s q] => q = p /\ hd_IsLongHeader hdr = true /\ hm_handlers m !! id = None /\ hm_server m = Some s
      | [GoStatelessReset q id'] => q = p /\ hd_IsLongHeader hdr = false /\ hm_handlers m !! id = None /\ id' = id
      | [] => hd_IsLongHeader hdr = true /\ hm_handlers m !! id = None /\ hm_server m = None
      | _ => False
      end
  | _ => (length calls <= 1)%nat
  end.
Proof.
  intros Hok Hn. unfold handlePacket. pose proof (ParsePacket_any (dg_data p) (hm_connIDLen m) Hok Hn) as Ha.
  pose proof (ParsePacket_first_byte (dg_data p) (hm_connIDLen m)) as Hf. destruct (ParseConnectionID _ _) as [id|err|msg] eqn:Ec.
  - destruct (dg_data p) as [|b0 data] eqn:Ed; [done|]. unfold maybeHandleStatelessReset, is_short. cbn [mbind outcome_bind mret outcome_ret].
    assert (Hb : 0 <= Z.land b0 128) by (apply Z.land_nonneg; lia).
    assert (Hlong : forall hdr q r, ParsePacket (b0 :: data) (hm_connIDLen m) = Ret (hdr, q, r) ->
      hd_IsLongHeader hdr = negb (Z.land b0 128 =? 0) /\ hd_DestConnectionID hdr = id).
    { intros hdr q r E. rewrite E in Ha. destruct Ha as [[= ->] _]. destruct (Hf _ _ _ E) as (? & ? & [= <- <-] & ->). split; [|done].
      destruct (Z.eqb_spec (Z.land b0 128) 0), (Z.ltb_spec 0 (Z.land b0 128)); lia || done. }
    clear Ha Hf Ec. set (dd := b0 :: data) in *. clearbody dd. destruct (Z.land b0 128 =? 0) eqn:Es; cbn [negb] in *.
    + destruct (Z.ltb_spec (Z.of_nat (length dd)) MinStatelessResetSize) as [Hl|Hl].
      * routed_cases.
      * destruct (hm_resetTokens m !! _) as [h|] eqn:Et; routed_cases; exists (take (length dd - 16) dd), (drop (length dd - 16) dd);
          unfold MinStatelessResetSize in Hl; rewrite take_drop, length_drop; split_and!; first [done|lia].
    + routed_cases.
  - exists []. split; [done|]. destruct (ParsePacket _ _) as [[[hdr q] r]| |]; [|cbn; lia..]. destruct Ha as [[=] _].
  - exfalso. clear -Ec. unfold ParseConnectionID in Ec. destruct (dg_data p); [done|]. repeat case_match; done.
Qed.

(** C23. A stateless reset ends the session it is for, and nothing else: when a packet with a short header arrives at a server that has lost the
    session, the datagram it sends, made of random bytes and of the token it once announced for the connection ID,
    is taken by the client for what it is, whatever connection ID it seems to have; and no endpoint ever answers it with another
    stateless reset. *)
Theorem stateless_reset_roundtrip mac rand ms mc p (q : datagram Addr) id sess :
  (forall x, length (mac x) = 32%nat) -> length rand = 23%nat -> hm_statelessResetEnabled ms = true ->
  handlePacket ms p = Ret [GoStatelessReset p id] -> MinStatelessResetSize < Z.of_nat (length (dg_data p)) ->
  hm_resetTokens mc !! GetStatelessResetToken mac [] ms id = Some sess -> 0 <= hm_connIDLen mc <= 38 ->
  exists data, maybeSendStatelessReset mac rand ms p id = Some data /\
    (dg_data q = data -> handlePacket mc q = Ret [HandlerDestroy sess (ErrorString "received a stateless reset")]) /\
    forall mac' rand' m id', dg_data q = data -> maybeSendStatelessReset mac' rand' m q id' = None.
Proof.
  intros Hmac Hrand Hen _ Hlen Htok Hn. unfold maybeSendStatelessReset, reset_packet, GetStatelessResetToken in *. rewrite Hen in *. cbn [negb] in *.
  rewrite (proj2 (Z.leb_gt _ _)) by lia. rewrite take_ge by lia. destruct rand as [|b0 rand]; [done|]. injection Hrand as Hrand.
  set (token := take 16 (mac id)) in *. assert (Ht : length token = 16%nat) by (subst token; rewrite length_take, Hmac; done). clearbody token.
  set (b := Z.lor _ 64). assert (Hb : Z.land b 128 = 0).
  { subst b. apply Z.bits_inj'. intros i Hi. rewrite Z.land_spec, Z.lor_spec, Z.land_spec, Z.bits_0.
    change 128 with (2 ^ 7). change 64 with (2 ^ 6). change 127 with (Z.ones 7). rewrite !Z.pow2_bits_eqb, Z.testbit_ones_nonneg by lia.
    destruct (Z.eqb_spec 7 i) as [<-|]; [|by rewrite andb_false_r]. cbn. by rewrite andb_false_r. }
  clearbody b. assert (Hl : length (b :: rand ++ token) = 39%nat) by (cbn; rewrite length_app, Hrand, Ht; done).
  exists (b :: rand ++ token). split_and!; [done|..].
  - intros Eq. unfold handlePacket, maybeHandleStatelessReset, is_short, ParseConnectionID. rewrite Eq. unfold bytes, byte in *. rewrite Hl, Hb. cbn -[take drop Z.of_nat].
    rewrite (proj2 (Z.ltb_ge _ _)) by lia. cbn -[take drop]. replace (drop 23 (b :: rand ++ token)) with token; [by rewrite Htok|].
    change 23%nat with (S 22). cbn [drop]. by rewrite <- Hrand, drop_app_length.
  - intros mac' rand' m' id' Eq. rewrite Eq. unfold bytes, byte in *. rewrite Hl. destruct (hm_statelessResetEnabled m'); done.
Qed.

End Routing.

(** ** The hash of the stateless reset tokens *)

(** The goroutines that make stateless reset tokens share [statelessResetHasher], which collects what is written to it; none of
    them holds a mutex.  Where a goroutine is in [GetStatelessResetToken]: *)
Inductive resetThread :=
| BeforeWrite (connID : ConnectionID)
| BeforeSum (connID : ConnectionID)
| BeforeReset (token : bytes)
| TokenReturned (token : bytes).

Section Hasher.
Variable mac : bytes -> bytes.

(** One statement of one goroutine; [hashed] is what the hash has collected. *)
Definition thread_step (hashed : bytes) (t : resetThread) : option (bytes * resetThread) :=
  match t with
  | BeforeWrite connID => Some (hashed ++ connID, BeforeSum connID)
  | BeforeSum _ => Some (hashed, BeforeReset (take 16 (mac hashed)))
  | BeforeReset token => Some ([], TokenReturned token)
  | TokenReturned _ => None
  end.

Inductive hasher_step : bytes * list resetThread -> bytes * list resetThread -> Prop :=
| hasher_thread hashed ts i t hashed' t' :
    ts !! i = Some t -> thread_step hashed t = Some (hashed', t') -> hasher_step (hashed, ts) (hashed', <[i := t']> ts).

Ltac thread i := eapply rtc_l; [eapply (hasher_thread _ _ i); reflexivity|cbn].

(** Stateless resets for two sessions at the same time spoil each other: one goroutine alone returns the token of its connection ID, but two of
    them can return, both of them, the token of the two connection IDs put together. *)
Theorem reset_tokens_race a b :
  rtc hasher_step ([], [BeforeWrite a]) ([], [TokenReturned (take 16 (mac a))]) /\
  rtc hasher_step ([], [BeforeWrite a; BeforeWrite b])
    ([], [TokenReturned (take 16 (mac (a ++ b))); TokenReturned (take 16 (mac (a ++ b)))]).
Proof.
  split.
  - do 3 thread 0%nat. apply rtc_refl.
  - do 3 (thread 0%nat; thread 1%nat). apply rtc_refl.
Qed.

End Hasher.
