(* ===== verification/Tokens.v ===== *)
(** * Tokens (handshake/token_generator.go, token_protector.go)

    A server gives a client a token that proves later that the client can receive packets at its address: the address, the
    time and, in a Retry, the connection ID that the client had chosen, sealed under a key that only the server has.
    HKDF, AES-GCM, ASN.1 and the text of IP addresses are those of the Go library: they are parameters, with laws. *)

From S2P Require Import Prelude VarInt Protocol Frames Aead.

(** [net.Addr]: an IP address with a port, or the text of another address. *)
Inductive netAddr := UDPAddr (ip : bytes) (port : Z) | OtherNetAddr (text : bytes).

(** [Time.UnixNano] and [time.Unix(0, n)]: nanoseconds since 1970. *)
Definition unixEpoch : time := 62135596800 * Second.
Definition UnixNano (t : time) : Z := int64 (t - unixEpoch).
Definition Unix (n : Z) : time := unixEpoch + n.

(** The times that [UnixNano] can represent, from 1678 to 2262. *)
Definition unix_time (t : time) : Prop := is_int64 (t - unixEpoch).

Lemma unix_roundtrip t : unix_time t -> Unix (UnixNano t) = t.
Proof. unfold unix_time, Unix, UnixNano. intros Ht. rewrite int64_id by done. lia. Qed.

Definition tokenPrefixIP : byte := 0.
Definition tokenPrefixString : byte := 1.

Record Token := mkToken {
  tk_IsRetryToken : bool;
  tk_RemoteAddr : bytes;                       (* a string *)
  tk_SentTime : time;
  tk_OriginalDestConnectionID : ConnectionID
}.

(** The struct that ASN.1 serializes. *)
Record token := mkAsn1Token {
  at_IsRetryToken : bool;
  at_RemoteAddr : bytes;
  at_Timestamp : Z;
  at_OriginalDestConnectionID : bytes
}.

Record tokenLibrary := mkTokenLibrary {
  hkdf_read : bytes -> bytes -> string -> nat -> bytes;    (* secret, salt, info: the first bytes of the key material *)
  NewGCM : bytes -> outcome cipherAEAD;                    (* of [aes.NewCipher] of the key *)
  asn1_Marshal : token -> outcome bytes;
  asn1_Unmarshal : bytes -> outcome (token * bytes);       (* the value and the rest *)
  ip_String : bytes -> bytes
}.

Section Tokens.
Variable lib : tokenLibrary.

Definition tokenNonceSize : nat := 32.

(** The AEAD of a token, and its nonce: HKDF gives 32 bytes for the key, and the next 12 bytes for the nonce. *)
Definition createAEAD (secret nonce : bytes) : outcome (cipherAEAD * bytes) :=
  let h := hkdf_read lib secret nonce "quic-go token source" 44 in
  aead ← NewGCM lib (take 32 h);
  mret (aead, drop 32 h).

(** [nonce] is random. *)
Definition protector_NewToken (secret nonce data : bytes) : outcome bytes :=
  '(aead, aeadNonce) ← createAEAD secret nonce;
  mret (nonce ++ aead_Seal aead aeadNonce data []).

Definition protector_DecodeToken (secret p : bytes) : outcome bytes :=
  if (length p <? tokenNonceSize)%nat then Error (Errorf "Token too short: %d" [Z.of_nat (length p)]) else
  '(aead, aeadNonce) ← createAEAD secret (take tokenNonceSize p);
  aead_Open aead aeadNonce (drop tokenNonceSize p) [].

Definition addr_String (a : netAddr) : bytes := match a with UDPAddr ip _ => ip_String lib ip | OtherNetAddr text => text end.

Definition encodeRemoteAddr (remoteAddr : netAddr) : bytes :=
  match remoteAddr with UDPAddr ip _ => tokenPrefixIP :: ip | OtherNetAddr text => tokenPrefixString :: text end.

Definition decodeRemoteAddr (data : bytes) : bytes :=
  match data with
  | [] => []
  | b :: rest => if b =? tokenPrefixIP then ip_String lib rest else rest
  end.

Definition NewRetryToken (secret nonce : bytes) (now : time) (raddr : netAddr) (origConnID : ConnectionID) : outcome bytes :=
  data ← asn1_Marshal lib (mkAsn1Token true (encodeRemoteAddr raddr) (UnixNano now) origConnID);
  protector_NewToken secret nonce data.

Definition NewToken (secret nonce : bytes) (now : time) (raddr : netAddr) : outcome bytes :=
  data ← asn1_Marshal lib (mkAsn1Token false (encodeRemoteAddr raddr) (UnixNano now) []);
  protector_NewToken secret nonce data.

(** [None] for an empty token. *)
Definition DecodeToken (secret encrypted : bytes) : outcome (option Token) :=
  match encrypted with
  | [] => mret None
  | _ :: _ =>
      data ← protector_DecodeToken secret encrypted;
      '(t, rest) ← asn1_Unmarshal lib data;
      if negb (Z.of_nat (length rest) =? 0) then Error (Errorf "rest when unpacking token: %d" [Z.of_nat (length rest)]) else
      mret (Some (mkToken (at_IsRetryToken t) (decodeRemoteAddr (at_RemoteAddr t)) (Unix (at_Timestamp t)) (at_OriginalDestConnectionID t)))
  end.

End Tokens.

(** What the documentation of the Go library says: what is marshaled is unmarshaled without a rest, every key of 32
    bytes has an AEAD, HKDF gives as many bytes as are read, and data that are not valid are reported as errors. *)
Class TokenLibraryLaws (lib : tokenLibrary) : Prop := {
  asn1_roundtrip t : is_int64 (at_Timestamp t) -> exists data, asn1_Marshal lib t = Ret data /\ asn1_Unmarshal lib data = Ret (t, []);
  gcm_new key : length key = 32%nat -> exists a, NewGCM lib key = Ret a /\ AEADLaws a /\ forall nonce c ad msg, aead_Open a nonce c ad <> Panic msg;
  asn1_reports data msg : asn1_Unmarshal lib data <> Panic msg;
  hkdf_length secret salt info n : length (hkdf_read lib secret salt info n) = n
}.

Section TokenProofs.
Context (lib : tokenLibrary) `{!TokenLibraryLaws lib}.

Lemma createAEAD_ok secret nonce : exists a n,
  createAEAD lib secret nonce = Ret (a, n) /\ AEADLaws a /\ forall nonce c ad msg, aead_Open a nonce c ad <> Panic msg.
Proof.
  unfold createAEAD. destruct (gcm_new (take 32 (hkdf_read lib secret nonce "quic-go token source" 44))) as (a & E & Ha).
  { by rewrite length_take, hkdf_length. }
  rewrite E. cbn. eauto.
Qed.

Lemma token_roundtrip secret nonce t :
  length nonce = tokenNonceSize -> is_int64 (at_Timestamp t) ->
  exists data p, asn1_Marshal lib t = Ret data /\ protector_NewToken lib secret nonce data = Ret p /\ p <> [] /\
    DecodeToken lib secret p =
      Ret (Some (mkToken (at_IsRetryToken t) (decodeRemoteAddr lib (at_RemoteAddr t)) (Unix (at_Timestamp t)) (at_OriginalDestConnectionID t))).
Proof.
  intros Hn Ht. destruct (asn1_roundtrip t Ht) as (data & Em & Eu). destruct (createAEAD_ok secret nonce) as (a & an & Ea & Ha & _).
  unfold protector_NewToken. rewrite Ea. cbn -[aead_Seal]. set (p := nonce ++ aead_Seal a an data []). exists data, p. split_and!; [done|done| |].
  { destruct nonce; [by cbn in Hn|done]. }
  unfold DecodeToken. destruct p as [|b p'] eqn:Ep; [by destruct nonce|]. rewrite <- Ep. clear b p' Ep. subst p.
  unfold protector_DecodeToken. rewrite (proj2 (Nat.ltb_ge _ _)) by (rewrite length_app; lia).
  rewrite <- Hn, take_app_length, drop_app_length, Ea. cbn. rewrite aead_open_seal. cbn. by rewrite Eu.
Qed.

Lemma DecodeToken_reports secret p msg : DecodeToken lib secret p <> Panic msg.
Proof.
  unfold DecodeToken, protector_DecodeToken. destruct p as [|b p]; [done|]. destruct (_ <? _)%nat; [done|].
  destruct (createAEAD_ok secret (take tokenNonceSize (b :: p))) as (a & n & E & _ & Ho). rewrite E. cbn -[take drop].
  specialize (Ho n (drop tokenNonceSize (b :: p)) []). destruct (aead_Open _ _ _ _) as [data| |msg']; cbn; [|done|by destruct (Ho msg')].
  pose proof (asn1_reports data) as Ha. destruct (asn1_Unmarshal lib data) as [[t rest]| |msg']; cbn; [|done|by destruct (Ha msg')].
  by destruct (negb _).
Qed.

Lemma DecodeToken_some secret p : p <> [] -> DecodeToken lib secret p <> Ret None.
Proof.
  unfold DecodeToken. destruct p as [|b p]; [done|]. intros _. destruct (protector_DecodeToken _ _ _) as [data| |]; cbn; [|done..].
  destruct (asn1_Unmarshal lib data) as [[t rest]| |]; cbn; [|done..]. by destruct (negb _).
Qed.

Lemma remote_addr_roundtrip a : decodeRemoteAddr lib (encodeRemoteAddr a) = addr_String lib a.
Proof. by destruct a. Qed.

Lemma NewRetryToken_ok secret nonce now raddr id :
  length nonce = tokenNonceSize -> unix_time now ->
  exists p, NewRetryToken lib secret nonce now raddr id = Ret p /\ p <> [] /\
    DecodeToken lib secret p = Ret (Some (mkToken true (addr_String lib raddr) now id)).
Proof.
  intros Hn Ht. destruct (token_roundtrip secret nonce (mkAsn1Token true (encodeRemoteAddr raddr) (UnixNano now) id)) as (data & p & E1 & E2 & Hp & E3); [done|apply int64_range|].
  exists p. unfold NewRetryToken. rewrite E1. cbn. split_and!; [done|done|]. rewrite E3. cbn. by rewrite remote_addr_roundtrip, unix_roundtrip.
Qed.

End TokenProofs.
