(* ===== verification/Server.v ===== *)
(** * Accepting connections (server.go)

    What a server does with a packet that belongs to no session: it answers with a Version Negotiation packet, a Retry or a refusal, or it makes a
    session for it.  The configuration, the clock, and random bytes are inputs.  Making a session (newSession and the TLS
    configuration) is a parameter; what it is called with is part of the result.  The last part has the goroutines that
    close a server. *)

From S2P Require Import Prelude VarInt Protocol AckFrame Frames SentHistory SentPacketHandler Headers Aead PacketPacker TransportParameters CryptoSetup Session PacketHandlers Tokens.

Definition DefaultHandshakeTimeout : duration := 10 * Second.
Definition DefaultIdleTimeout : duration := 30 * Second.
Definition DefaultMaxReceiveStreamFlowControlWindow : Z := 6 * Z.shiftl 1 20.
Definition DefaultMaxReceiveConnectionFlowControlWindow : Z := 15 * Z.shiftl 1 20.
Definition DefaultMaxIncomingStreams : Z := 100.
Definition DefaultMaxIncomingUniStreams : Z := 100.
Definition DefaultConnectionIDLength : Z := 4.
Definition TokenValidity : duration := 24 * 3600 * Second.
Definition RetryTokenValidity : duration := 10 * Second.
Definition MaxAcceptQueueSize : Z := 32.
Definition MaxAckDelayInclGranularity : duration := MaxAckDelay + Millisecond.
Definition ServerBusy : Z := 0x2.

(** [Config]; the application's [AcceptToken] can read the clock. *)
Record Config := mkFullConfig {
  fc_Versions : list VersionNumber;
  fc_ConnectionIDLength : Z;
  fc_HandshakeTimeout : duration;
  fc_IdleTimeout : duration;
  fc_AcceptToken : option (time -> netAddr -> option Token -> bool);
  fc_MaxReceiveStreamFlowControlWindow : Z;
  fc_MaxReceiveConnectionFlowControlWindow : Z;
  fc_MaxIncomingStreams : Z;
  fc_MaxIncomingUniStreams : Z;
  fc_StatelessResetKey : option bytes;
  fc_KeepAlive : bool
}.

#[global] Instance Token_eta : Eta Token := fun t =>
  mkToken (tk_IsRetryToken t) (tk_RemoteAddr t) (tk_SentTime t) (tk_OriginalDestConnectionID t).

#[global] Instance Config_eta : Eta Config := fun c =>
  mkFullConfig (fc_Versions c) (fc_ConnectionIDLength c) (fc_HandshakeTimeout c) (fc_IdleTimeout c) (fc_AcceptToken c)
    (fc_MaxReceiveStreamFlowControlWindow c) (fc_MaxReceiveConnectionFlowControlWindow c) (fc_MaxIncomingStreams c)
    (fc_MaxIncomingUniStreams c) (fc_StatelessResetKey c) (fc_KeepAlive c).

Definition zero_config : Config := mkFullConfig [] 0 0 0 None 0 0 0 0 None false.

(** What the session reads of the configuration. *)
Definition session_config (c : Config) : config :=
  mkConfig (fc_KeepAlive c) (fc_IdleTimeout c) (fc_HandshakeTimeout c) (fc_MaxReceiveStreamFlowControlWindow c)
    (fc_MaxReceiveConnectionFlowControlWindow c) (fc_MaxIncomingStreams c) (fc_MaxIncomingUniStreams c).

Definition or_default (x d : Z) : Z := if x =? 0 then d else x.
Definition stream_limit (x d : Z) : Z := if x =? 0 then d else if x <? 0 then 0 else x.

Section Server.
Variable tlib : tokenLibrary.
Variable lib : cryptoLibrary.

Definition defaultAcceptToken (now : time) (clientAddr : netAddr) (token : option Token) : bool :=
  match token with
  | None => false
  | Some token =>
      let validity := if tk_IsRetryToken token then RetryTokenValidity else TokenValidity in
      if After now (Prelude.Add (tk_SentTime token) validity) then false
      else bool_decide (addr_String tlib clientAddr = tk_RemoteAddr token)
  end.

Definition populateServerConfig (config : option Config) : Config :=
  let c := default zero_config config in
  mkFullConfig
    (match fc_Versions c with [] => SupportedVersions | _ => fc_Versions c end)
    (or_default (fc_ConnectionIDLength c) DefaultConnectionIDLength)
    (or_default (fc_HandshakeTimeout c) DefaultHandshakeTimeout)
    (or_default (fc_IdleTimeout c) DefaultIdleTimeout)
    (Some (default defaultAcceptToken (fc_AcceptToken c)))
    (or_default (fc_MaxReceiveStreamFlowControlWindow c) DefaultMaxReceiveStreamFlowControlWindow)
    (or_default (fc_MaxReceiveConnectionFlowControlWindow c) DefaultMaxReceiveConnectionFlowControlWindow)
    (stream_limit (fc_MaxIncomingStreams c) DefaultMaxIncomingStreams)
    (stream_limit (fc_MaxIncomingUniStreams c) DefaultMaxIncomingUniStreams)
    (fc_StatelessResetKey c)
    (fc_KeepAlive c).

(** The check that all versions are actually supported. *)
Fixpoint check_versions (versions : list VersionNumber) : option goerr :=
  match versions with
  | [] => None
  | v :: versions => if negb (IsValidVersion v) then Some (Errorf "%s is not a valid QUIC version" [v]) else check_versions versions
  end.

(** What a session is made with. *)
Record sessionArgs := mkSessionArgs {
  sa_remoteAddr : netAddr;
  sa_clientDestConnID : ConnectionID;
  sa_destConnID : ConnectionID;
  sa_srcConnID : ConnectionID;
  sa_config : config;
  sa_params : TransportParameters;
  sa_version : VersionNumber
}.

Record server := mkServer {
  sv_config : Config;
  sv_secret : bytes;                      (* of the token protector *)
  sv_sessionQueueLen : Z
}.

(** The random bytes of one call: for connection IDs, tokens, reset tokens, and Version Negotiation. *)
Record randomness := mkRandomness {
  rn_connID : nat -> byte;
  rn_nonce : bytes;
  rn_token : bytes;
  rn_negotiation : Z * Z * Z
}.

(** What comes of a packet: the datagrams that are sent back, and the session that is made for it, with its connection ID. *)
Record served := mkServed {
  sd_sent : list bytes;
  sd_session : option (ConnectionID * sessionArgs)
}.

Definition nothing : served := mkServed [] None.

Definition sendVersionNegotiationPacket (s : server) (rnd : randomness) (hdr : Header) : served :=
  let '(t, r, b) := rn_negotiation rnd in
  match ComposeVersionNegotiation t r b (hd_SrcConnectionID hdr) (hd_DestConnectionID hdr) (fc_Versions (sv_config s)) with
  | Ret data => mkServed [data] None
  | _ => nothing
  end.

Definition sendRetry (s : server) (now : time) (rnd : randomness) (remoteAddr : netAddr) (hdr : Header) : outcome served :=
  token ← NewRetryToken tlib (sv_secret s) (rn_nonce rnd) now remoteAddr (hd_DestConnectionID hdr);
  let connID := GenerateConnectionID (fc_ConnectionIDLength (sv_config s)) (rn_connID rnd) in
  let replyHdr := retry_header (hd_Version hdr) connID (hd_SrcConnectionID hdr) (hd_DestConnectionID hdr) token in
  data ← writeHeader [] (toExtendedHeader replyHdr);
  mret (mkServed [data] None).

Definition busy_frame : ConnectionCloseFrame := mkConnectionCloseFrame false ServerBusy [].

(** The header of the refusal. *)
Definition busy_header (hdr : Header) (length : Z) : ExtendedHeader :=
  mkExtendedHeader (zero_header <| hd_IsLongHeader := true |> <| hd_Type := PacketTypeInitial |> <| hd_Version := hd_Version hdr |>
    <| hd_SrcConnectionID := hd_DestConnectionID hdr |> <| hd_DestConnectionID := hd_SrcConnectionID hdr |> <| hd_Length := length |>) 0 4 0 0.

Definition sendServerBusy (hdr : Header) : outcome served :=
  '(sealer, _) ← NewInitialAEAD lib (hd_DestConnectionID hdr) PerspectiveServer;
  l ← Length (FConnectionClose busy_frame);
  let replyHdr := busy_header hdr (4 + l + Overhead sealer) in
  b ← writeHeader [] replyHdr;
  '(b', err) ← Write b (FConnectionClose busy_frame);
  match err with
  | Some err => Error err
  | None => raw ← seal_packet sealer b' (length b) replyHdr; mret (mkServed [raw] None)
  end.

(** The parameters a session is made with; [newSession] can fail. *)
Definition session_params (s : server) (token : bytes) (origDestConnID : ConnectionID) : TransportParameters :=
  mkParams InitialMaxStreamData InitialMaxStreamData InitialMaxStreamData InitialMaxData MaxAckDelayInclGranularity AckDelayExponent 0
    (fc_MaxIncomingUniStreams (sv_config s)) (fc_MaxIncomingStreams (sv_config s)) (fc_IdleTimeout (sv_config s)) true (Some token) origDestConnID.

Section Handling.
(** The routing map, its hash, and the result of making a session. *)
Context {Hd Sv : Type} (m : packetHandlerMap Hd Sv) (mac : bytes -> bytes) (newSession : sessionArgs -> outcome unit).

Definition createNewSession (s : server) (rnd : randomness) (remoteAddr : netAddr)
    (origDestConnID clientDestConnID destConnID srcConnID : ConnectionID) (version : VersionNumber) : outcome sessionArgs :=
  let token := GetStatelessResetToken mac (rn_token rnd) m srcConnID in
  let args := mkSessionArgs remoteAddr clientDestConnID destConnID srcConnID (session_config (sv_config s))
                (session_params s token origDestConnID) version in
  _ ← newSession args;
  mret args.

(** The token of a packet, as the application sees it, and the connection ID in it. *)
Definition decoded_token (s : server) (hdr : Header) : outcome (option Token * ConnectionID) :=
  match hd_Token hdr with
  | [] => mret (None, [])
  | _ :: _ =>
      match DecodeToken tlib (sv_secret s) (hd_Token hdr) with
      | Panic msg => Panic msg
      | Error _ => mret (None, [])
      | Ret None => Panic nil_dereference
      | Ret (Some c) => mret (Some (c <| tk_OriginalDestConnectionID := [] |>), tk_OriginalDestConnectionID c)
      end
  end.

Definition handleInitialImpl (s : server) (now : time) (rnd : randomness) (p : datagram netAddr) (hdr : Header) : outcome served :=
  if (Z.of_nat (length (hd_Token hdr)) =? 0) && (connID_Len (hd_DestConnectionID hdr) <? MinConnectionIDLenInitial) then
    Error (ErrorString "too short connection ID")
  else
  '(token, origDestConnectionID) ← decoded_token s hdr;
  accept ← (match fc_AcceptToken (sv_config s) with
            | None => Panic nil_dereference
            | Some f => mret (f now (dg_remoteAddr p) token)
            end);
  if negb accept then sendRetry s now rnd (dg_remoteAddr p) hdr
  else if MaxAcceptQueueSize <=? sv_sessionQueueLen s then sendServerBusy hdr
  else
  let connID := GenerateConnectionID (fc_ConnectionIDLength (sv_config s)) (rn_connID rnd) in
  args ← createNewSession s rnd (dg_remoteAddr p) origDestConnectionID (hd_DestConnectionID hdr) (hd_SrcConnectionID hdr) connID (hd_Version hdr);
  mret (mkServed [] (Some (connID, args))).

Definition handlePacketImpl (s : server) (now : time) (rnd : randomness) (p : datagram netAddr) : outcome served :=
  if Z.of_nat (length (dg_data p)) <? MinInitialPacketSize then mret nothing else
  match ParsePacket (dg_data p) (fc_ConnectionIDLength (sv_config s)) with
  | Panic msg => Panic msg
  | Error _ => mret nothing
  | Ret (hdr, _, _) =>
      (* Short header packets should never end up here in the first place *)
      if negb (hd_IsLongHeader hdr) then mret nothing
      else if negb (IsSupportedVersion (fc_Versions (sv_config s)) (hd_Version hdr)) then mret (sendVersionNegotiationPacket s rnd hdr)
      else if hd_IsLongHeader hdr && negb (hd_Type hdr =? PacketTypeInitial) then mret nothing
      else
      match handleInitialImpl s now rnd p hdr with
      | Panic msg => Panic msg
      | Error _ => mret nothing
      | Ret r => mret r
      end
  end.

End Handling.

(** A session that was made gets the packet, and is then registered. *)
Definition register {Hd Sv} (m : packetHandlerMap Hd Sv) (sess : Hd) (p : datagram netAddr) (r : served) :
    packetHandlerMap Hd Sv * list (call Hd Sv netAddr) :=
  match sd_session r with
  | Some (connID, _) => (PacketHandlers.Add m connID sess, [HandlerPacket sess p])
  | None => (m, [])
  end.

(** What [listen] reads of the [tls.Config]. *)
Record serverTLSConfig := mkServerTLSConfig {
  st_Certificates : nat;                  (* how many there are *)
  st_NextProtos : list string
}.

(** [setServer] is [SetServer] of the packet handlers; [secret] is random. *)
Definition listen {Conn Manager} `{Countable Conn} (x : connMultiplexer (Conn := Conn) (Manager := Manager))
    (newManager : Z -> option bytes -> Manager) (setServer : Manager -> server -> Manager) (conn : Conn) (tlsConf : option serverTLSConfig)
    (config : option Config) (secret : bytes) : connMultiplexer (Conn := Conn) (Manager := Manager) * outcome (Manager * server) :=
  match tlsConf with
  | None | Some (mkServerTLSConfig O _) => (x, Error (ErrorString "quic: Certificates not set in tls.Config"))
  | Some (mkServerTLSConfig _ []) => (x, Error (ErrorString "quic: NextProtos not set in tls.Config"))
  | Some _ =>
      let config := populateServerConfig config in
      match check_versions (fc_Versions config) with
      | Some err => (x, Error err)
      | None =>
          match AddConn x newManager conn (fc_ConnectionIDLength config) (fc_StatelessResetKey config) with
          | (x, inr err) => (x, Error err)
          | (x, inl sessionHandler) =>
              let s := mkServer config (take 32 secret) 0 in
              (x, mret (setServer sessionHandler s, s))
          end
      end
  end.

End Server.

(** ** Accepting sessions *)

(** A goroutine that offers a session whose handshake is complete, as [setup] starts it, by where it is. *)
Inductive offer :=
| BeforeCount (sess : nat)              (* before sessionQueueLen is increased *)
| Offered (sess : nat)                  (* in the select *)
| OfferDone.                            (* before sessionQueueLen is decreased *)

Record accepting := mkAccepting {
  ac_sessionQueueLen : Z;
  ac_offers : list offer;
  ac_complete : list nat;               (* the sessions that have completed the handshake, the last one first *)
  ac_closed : list nat;                 (* the sessions whose context is done *)
  ac_calls : nat;                       (* the calls of [Accept] that wait *)
  ac_accepted : list nat;
  ac_errorChan : bool;                  (* it is closed *)
  ac_errors : nat                       (* the calls of [Accept] that returned the error of the server *)
}.

#[global] Instance accepting_eta : Eta accepting := fun a =>
  mkAccepting (ac_sessionQueueLen a) (ac_offers a) (ac_complete a) (ac_closed a) (ac_calls a) (ac_accepted a) (ac_errorChan a) (ac_errors a).

Definition start_accepting : accepting := mkAccepting 0 [] [] [] 0 [] false 0.

(** The steps that the goroutines of the server and of its application take by themselves, when no handshake completes, no session is closed, and
    nothing is called: what is already there is brought to an end. *)
Inductive settle_step : accepting -> accepting -> Prop :=
| settle_count a before sess after :
    ac_offers a = before ++ BeforeCount sess :: after ->
    settle_step a (a <| ac_sessionQueueLen := ac_sessionQueueLen a + 1 |> <| ac_offers := before ++ Offered sess :: after |>)
| settle_session a before sess after calls :
    ac_offers a = before ++ Offered sess :: after -> ac_calls a = S calls ->
    settle_step a (a <| ac_offers := before ++ OfferDone :: after |> <| ac_calls := calls |> <| ac_accepted := ac_accepted a ++ [sess] |>)
| settle_closed a before sess after :
    ac_offers a = before ++ Offered sess :: after -> sess ∈ ac_closed a -> settle_step a (a <| ac_offers := before ++ OfferDone :: after |>)
| settle_uncount a before after :
    ac_offers a = before ++ OfferDone :: after ->
    settle_step a (a <| ac_sessionQueueLen := ac_sessionQueueLen a - 1 |> <| ac_offers := before ++ after |>)
| settle_error a calls : ac_errorChan a = true -> ac_calls a = S calls -> settle_step a (a <| ac_calls := calls |> <| ac_errors := S (ac_errors a) |>).

(** All steps: handshakes complete, sessions and the server are closed, [Accept] is called, and the goroutines go on. *)
Inductive accept_step : accepting -> accepting -> Prop :=
| accept_handshake a sess :
    sess ∉ ac_complete a -> accept_step a (a <| ac_complete := sess :: ac_complete a |> <| ac_offers := ac_offers a ++ [BeforeCount sess] |>)
| accept_call a : accept_step a (a <| ac_calls := S (ac_calls a) |>)
| accept_closes a sess : accept_step a (a <| ac_closed := sess :: ac_closed a |>)
| accept_error_chan a : accept_step a (a <| ac_errorChan := true |>)
| accept_settles a a' : settle_step a a' -> accept_step a a'.

(** The sessions that goroutines still have, and the goroutines that are counted. *)
Definition offered (o : offer) : list nat := match o with BeforeCount s | Offered s => [s] | OfferDone => [] end.
Definition counted (o : offer) : Z := match o with BeforeCount _ => 0 | _ => 1 end.
Fixpoint count_offers (l : list offer) : Z := match l with [] => 0 | o :: l => counted o + count_offers l end.

Definition accepting_ok (a : accepting) : Prop :=
  ac_sessionQueueLen a = count_offers (ac_offers a) /\
  exists dropped, ac_accepted a ++ concat (map offered (ac_offers a)) ++ dropped ≡ₚ ac_complete a /\ NoDup (ac_complete a) /\ dropped ⊆ ac_closed a.

Lemma count_offers_app l1 l2 : count_offers (l1 ++ l2) = count_offers l1 + count_offers l2.
Proof. induction l1 as [|o l1 IH]; cbn; [done|]. rewrite IH. lia. Qed.

Lemma settle_step_ok a a' : accepting_ok a -> settle_step a a' -> accepting_ok a'.
Proof.
  intros [Hc (dr & Hp & Hn & Hd)] Hs. unfold accepting_ok.
  destruct Hs as [a l1 s l2 E|a l1 s l2 n E En|a l1 s l2 E Hs|a l1 l2 E|a n En Ec]; cbn;
    try rewrite E in *; rewrite ?map_app, ?concat_app, ?count_offers_app in *; cbn in *.
  - split; [lia|]. by exists dr.
  - split; [lia|]. exists dr. split_and!; [|done|done]. rewrite <- Hp. solve_Permutation.
  - split; [lia|]. exists (s :: dr). split_and!; [|done|set_solver]. rewrite <- Hp. solve_Permutation.
  - split; [lia|]. by exists dr.
  - split; [done|]. by exists dr.
Qed.

Lemma accept_step_ok a a' : accepting_ok a -> accept_step a a' -> accepting_ok a'.
Proof.
  intros Hk Hs. destruct Hs as [a s Hs|a|a s|a|a a' Hs]; [..|by eapply settle_step_ok]; destruct Hk as [Hc (dr & Hp & Hn & Hd)]; unfold accepting_ok; cbn.
  - rewrite map_app, concat_app, count_offers_app. cbn. split; [lia|]. exists dr. split_and!; [|by constructor|done]. rewrite <- Hp. solve_Permutation.
  - split; [done|]. by exists dr.
  - split; [done|]. exists dr. split_and!; [done|done|set_solver].
  - split; [done|]. by exists dr.
Qed.

(** How many steps a goroutine has before it. *)
Definition offer_steps (o : offer) : nat := match o with BeforeCount _ => 3 | Offered _ => 2 | OfferDone => 1 end.
Definition accept_steps (a : accepting) : nat := sum_list (map offer_steps (ac_offers a)) + ac_calls a.

Lemma settle_decreases a a' : settle_step a a' -> (accept_steps a' < accept_steps a)%nat.
Proof.
  unfold accept_steps. destruct 1 as [a l1 s l2 E|a l1 s l2 n E En|a l1 s l2 E _|a l1 l2 E|a n _ En]; cbn; rewrite ?E, ?En, ?map_app, ?sum_list_with_app; cbn;
    rewrite ?sum_list_app; cbn; lia.
Qed.

Lemma settle_terminates a : sn settle_step a.
Proof.
  remember (accept_steps a) as n eqn:En. revert a En. induction n as [n IH] using lt_wf_ind. intros a ->. constructor. intros a' Hs. eapply IH; [by apply settle_decreases|done].
Qed.

(** At rest, every goroutine is in its select. *)
Lemma settled_offers a : nf settle_step a -> Forall (fun o => exists sess, o = Offered sess /\ sess ∉ ac_closed a) (ac_offers a).
Proof.
  intros Hn. apply Forall_forall. intros o (l1 & l2 & E)%list_elem_of_split. destruct o as [sess|sess|].
  - destruct Hn. eexists. by eapply settle_count.
  - exists sess. split; [done|]. intros Hc. destruct Hn. eexists. by eapply settle_closed.
  - destruct Hn. eexists. by eapply settle_uncount.
Qed.

(** C25. The sessions of a server are accepted, in every order of the steps of its goroutines: none is accepted twice, or before its handshake is complete, and
    one that has completed it was accepted, is still held by its goroutine, or was closed.  Left alone, the goroutines come to rest, whatever they
    do first; and then no call of [Accept] waits while a session is offered, or after the server was closed, and the queue length that decides whether a new client is refused is the number of sessions
    that are offered, all of them complete and none of them accepted or closed. *)
Theorem sessions_accepted_once a :
  rtc accept_step start_accepting a ->
  NoDup (ac_accepted a) /\ (forall sess, sess ∈ ac_accepted a -> sess ∈ ac_complete a) /\
  (forall sess, sess ∈ ac_complete a -> sess ∈ ac_accepted a \/ sess ∈ concat (map offered (ac_offers a)) \/ sess ∈ ac_closed a) /\
  sn settle_step a /\
  (nf settle_step a ->
     (ac_calls a <> 0%nat -> ac_offers a = [] /\ ac_errorChan a = false) /\
     exists waiting, ac_offers a = map Offered waiting /\ ac_sessionQueueLen a = Z.of_nat (length waiting) /\ NoDup waiting /\
       forall sess, sess ∈ waiting -> sess ∈ ac_complete a /\ sess ∉ ac_accepted a /\ sess ∉ ac_closed a).
Proof.
  intros Hr. assert (Hk : accepting_ok a).
  { assert (H0 : accepting_ok start_accepting) by (split; [done|exists []; by split_and!; [|constructor|]]). revert H0. induction Hr; eauto using accept_step_ok. }
  destruct Hk as [Hc (dr & Hp & Hn & Hd)]. assert (Hn' := Hn). rewrite <- Hp in Hn'. split_and!.
  - by apply NoDup_app in Hn' as [? _].
  - intros sess Hs. rewrite <- Hp. set_solver.
  - intros sess Hs. rewrite <- Hp in Hs. set_solver.
  - apply settle_terminates.
  - intros Hf. pose proof (settled_offers a Hf) as Ho. split.
    + intros Hcalls. destruct (ac_calls a) as [|calls] eqn:Ec; [done|]. split.
      * destruct (ac_offers a) as [|o l] eqn:Eo; [done|]. apply Forall_cons in Ho as [(sess & -> & _) _]. destruct Hf. eexists. by eapply (settle_session _ []).
      * apply not_true_iff_false. intros He. destruct Hf. eexists. by eapply settle_error.
    + assert (Hw : exists waiting, ac_offers a = map Offered waiting /\ Forall (fun sess => sess ∉ ac_closed a) waiting).
      { clear -Ho. induction Ho as [|o l (sess & -> & Hs) _ (waiting & -> & Hw)]; [by exists []|]. exists (sess :: waiting). split; [done|by constructor]. }
      destruct Hw as (waiting & Eo & Hw). exists waiting. rewrite Eo in Hc, Hp, Hn'.
      assert (Ew : concat (map offered (map Offered waiting)) = waiting) by (clear; induction waiting as [|x l IH]; cbn; [done|by f_equal]). rewrite Ew in Hp, Hn'.
      split_and!; [done| |apply NoDup_app in Hn' as (_ & _ & Hn2); by apply NoDup_app in Hn2 as [? _]|].
      * rewrite Hc. clear. induction waiting as [|x l IH]; cbn; [done|]. rewrite IH. lia.
      * intros sess Hs. rewrite Forall_forall in Hw. split_and!; [rewrite <- Hp; set_solver| |by apply Hw]. apply NoDup_app in Hn' as (_ & Hx & _). intros Ha. apply (Hx sess Ha). set_solver.
Qed.

(** ** Closing a server *)

(** Two goroutines: one is in [server.Close], the other reads from the socket, and is in [packetHandlerMap.close] when that fails. *)
Inductive goroutine := Closer | Listener.

#[global] Instance goroutine_eq_dec : EqDecision goroutine.
Proof. solve_decision. Defined.

(** Where they are. *)
Inductive closerPC :=
| CloserStart               (* before s.mutex.Lock() *)
| CloserLocked
| CloserCloseServer         (* in CloseServer, before h.mutex.Lock() *)
| CloserServerClosed        (* CloseServer has returned *)
| CloserWaits               (* in h.Close(), waits for listen() *)
| CloserFinish
| CloserReturned.

Inductive listenerPC :=
| ListenerReads
| ListenerClose (e : goerr)          (* in close(e), before h.mutex.Lock() *)
| ListenerLocked (e : goerr)
| ListenerSetError (e : goerr)       (* in setCloseError(e), before s.mutex.Lock() *)
| ListenerErrorLocked (e : goerr)
| ListenerErrorSet                   (* setCloseError has returned *)
| ListenerReturned.

Record closing := mkClosing {
  cg_createdPacketConn : bool;
  cg_serverMutex : option goroutine;
  cg_mapMutex : option goroutine;
  cg_closed : bool;                  (* s.closed *)
  cg_serverError : option goerr;
  cg_errorChan : nat;                (* how often it was closed *)
  cg_mapServer : bool;               (* h.server is set *)
  cg_mapClosed : bool;
  cg_closer : closerPC;
  cg_listener : listenerPC
}.

#[global] Instance closing_eta : Eta closing := fun c =>
  mkClosing (cg_createdPacketConn c) (cg_serverMutex c) (cg_mapMutex c) (cg_closed c) (cg_serverError c) (cg_errorChan c) (cg_mapServer c)
    (cg_mapClosed c) (cg_closer c) (cg_listener c).

Definition start_closing (created : bool) : closing := mkClosing created None None false None 0 true false CloserStart ListenerReads.

(** The next statements of [server.Close]; [None] when it waits or has returned.  The sessions that [CloseServer] closes end on their own. *)
Definition closer_next (c : closing) : option closing :=
  match cg_closer c with
  | CloserStart => if cg_serverMutex c then None else Some (c <| cg_serverMutex := Some Closer |> <| cg_closer := CloserLocked |>)
  | CloserLocked =>
      Some (if cg_closed c then c <| cg_serverMutex := None |> <| cg_closer := CloserReturned |> else c <| cg_closer := CloserCloseServer |>)
  | CloserCloseServer =>
      if cg_mapMutex c then None else Some (c <| cg_mapServer := false |> <| cg_closer := CloserServerClosed |>)
  | CloserServerClosed =>
      let c := c <| cg_serverError := Some (default (ErrorString "server closed") (cg_serverError c)) |> in
      Some (c <| cg_closer := if cg_createdPacketConn c then CloserWaits else CloserFinish |>)
  | CloserWaits => match cg_listener c with ListenerReturned => Some (c <| cg_closer := CloserFinish |>) | _ => None end
  | CloserFinish =>
      Some (c <| cg_closed := true |> <| cg_errorChan := S (cg_errorChan c) |> <| cg_serverMutex := None |> <| cg_closer := CloserReturned |>)
  | CloserReturned => None
  end.

(** The next statements of [close] and of [setCloseError]. *)
Definition listener_next (c : closing) : option closing :=
  match cg_listener c with
  | ListenerReads | ListenerReturned => None
  | ListenerClose e => if cg_mapMutex c then None else Some (c <| cg_mapMutex := Some Listener |> <| cg_listener := ListenerLocked e |>)
  | ListenerLocked e =>
      Some (if cg_mapClosed c then c <| cg_mapMutex := None |> <| cg_listener := ListenerReturned |>
            else c <| cg_listener := if cg_mapServer c then ListenerSetError e else ListenerErrorSet |>)
  | ListenerSetError e =>
      if cg_serverMutex c then None else Some (c <| cg_serverMutex := Some Listener |> <| cg_listener := ListenerErrorLocked e |>)
  | ListenerErrorLocked e =>
      let c := if cg_closed c then c
               else c <| cg_closed := true |> <| cg_serverError := Some e |> <| cg_errorChan := S (cg_errorChan c) |> in
      Some (c <| cg_serverMutex := None |> <| cg_listener := ListenerErrorSet |>)
  | ListenerErrorSet => Some (c <| cg_mapClosed := true |> <| cg_mapMutex := None |> <| cg_listener := ListenerReturned |>)
  end.

Inductive closing_step : closing -> closing -> Prop :=
| closing_closer c c' : closer_next c = Some c' -> closing_step c c'
| closing_listener c c' : listener_next c = Some c' -> closing_step c c'
| closing_read_error c e : cg_listener c = ListenerReads -> closing_step c (c <| cg_listener := ListenerClose e |>).

(** Who holds the mutexes, and what that says about the other goroutine. *)
Record closing_ok (c : closing) : Prop := {
  cok_chan : cg_errorChan c = if cg_closed c then 1%nat else 0%nat;
  cok_server : cg_serverMutex c = match cg_closer c with
                                  | CloserLocked | CloserCloseServer | CloserServerClosed | CloserWaits | CloserFinish => Some Closer
                                  | _ => match cg_listener c with ListenerErrorLocked _ => Some Listener | _ => None end
                                  end;
  cok_open : match cg_closer c with
             | CloserCloseServer | CloserServerClosed | CloserWaits | CloserFinish => cg_closed c = false
             | _ => True
             end;
  cok_error : match cg_listener c with
              | ListenerErrorLocked _ => cg_closer c = CloserStart \/ cg_closer c = CloserReturned
              | _ => True
              end
}.

Ltac closing_case :=
  split; cbn in *; subst; try done;
  repeat match goal with |- context [match ?x with _ => _ end] => destruct x end; cbn in *; try done;
  try match goal with H : _ \/ _ |- _ => by destruct H end; auto.

Lemma closing_step_ok c c' : closing_ok c -> closing_step c c' -> closing_ok c'.
Proof.
  intros Hk Hs. destruct Hs as [c c' E|c c' E|c e E]; destruct c as [cr sm mm cl se ec ms mc ca cb], Hk as [K1 K2 K3 K4]; cbn in *.
  - destruct ca; cbn in E; try done; try (destruct sm; [done|]); try (destruct mm; [done|]); try (destruct cb; done); try (destruct cb; try done);
      try (destruct cl); injection E as <-; destruct cr; closing_case.
  - destruct cb; cbn in E; try done; try (destruct mm; [done|]); try (destruct sm; [done|]); try (destruct cl); try (destruct mc, ms);
      injection E as <-; destruct ca; closing_case.
  - subst cb. by split.
Qed.

(** The error of a server is reported once: whatever the order of the statements of [Close] and of the
    goroutine that reads from the socket, [errorChan] is closed at most once, which would be a panic otherwise, and exactly
    when the server counts as closed. *)
Theorem server_error_once created c : rtc closing_step (start_closing created) c -> cg_errorChan c = if cg_closed c then 1%nat else 0%nat.
Proof.
  intros Hs. assert (Hk : closing_ok (start_closing created)) by (by split). revert Hk. induction Hs; [apply cok_chan|]. eauto using closing_step_ok.
Qed.

(** Closing a server while its socket fails deadlocks: [Close] holds the mutex of the server and waits for that of the map, and the
    goroutine of the socket holds the mutex of the map and waits for that of the server. *)
Theorem server_close_deadlocks created e : exists c,
  rtc closing_step (start_closing created) c /\ nf closing_step c /\
  cg_closer c = CloserCloseServer /\ cg_mapMutex c = Some Listener /\ cg_listener c = ListenerSetError e /\ cg_serverMutex c = Some Closer.
Proof.
  exists (mkClosing created (Some Closer) (Some Listener) false None 0 true false CloserCloseServer (ListenerSetError e)). split; [|split; [|done]].
  - eapply rtc_l; [by apply closing_closer|]. eapply rtc_l; [by apply closing_closer|]. eapply rtc_l; [by apply (closing_read_error _ e)|].
    do 2 (eapply rtc_l; [by apply closing_listener|]). apply rtc_refl.
  - intros [c' Hs]. remember (mkClosing _ _ _ _ _ _ _ _ _ _) as c eqn:Ec. destruct Hs as [c c' E|c c' E|c e' E]; subst c; done.
Qed.
