(* ===== verification/ServerProperties.v ===== *)
(** * Accepting connections: properties

    A Retry takes a client from its first packet to a session that it accepts, and only a client that can receive packets at its
    address; a server that is busy is understood by its client; and whatever is received, a server answers with at most one
    datagram. *)

From S2P Require Import Prelude VarInt Protocol GoFloat AckFrame Frames SentHistory SentPacketHandler Headers Aead PacketPacker TransportParameters CryptoSetup Session PacketHandlers Tokens Server.

Section ServerProofs.
Context (tlib : tokenLibrary) `{!TokenLibraryLaws tlib} (lib : cryptoLibrary).
Context {Hd Sv : Type} (m : packetHandlerMap Hd Sv) (mac : bytes -> bytes) (newSession : sessionArgs -> outcome unit).
(** SHA-256 gives 32 bytes. *)
Context (mac_length : forall b, length (mac b) = 32%nat).

Notation handleInitialImpl := (handleInitialImpl tlib lib m mac newSession).
Notation handlePacketImpl := (handlePacketImpl tlib lib m mac newSession).

(** A server with the configuration that [populateServerConfig] makes of one whose numbers are in range. *)
Record config_ok (c : Config) : Prop := {
  fco_version : IsSupportedVersion (fc_Versions c) VersionTLS = true;
  fco_versions : forall v, IsSupportedVersion (fc_Versions c) v = true -> v = VersionTLS;
  fco_connID : 4 <= fc_ConnectionIDLength c <= 18;
  fco_accept : is_Some (fc_AcceptToken c);
  fco_idle : 0 <= fc_IdleTimeout c < 2 ^ 63;
  fco_streams : is_varint (fc_MaxIncomingStreams c);
  fco_uniStreams : is_varint (fc_MaxIncomingUniStreams c)
}.

Record random_ok (rnd : randomness) : Prop := {
  ro_nonce : length (rn_nonce rnd) = tokenNonceSize;
  ro_token : length (rn_token rnd) = 16%nat
}.

(** A datagram that begins with an Initial packet with this header. *)
Record initial (s : server) (p : datagram netAddr) (hdr : Header) : Prop := {
  in_bytes : bytes_ok (dg_data p);
  in_size : MinInitialPacketSize <= Z.of_nat (length (dg_data p));
  in_parsed : exists packet rest, ParsePacket (dg_data p) (fc_ConnectionIDLength (sv_config s)) = Ret (hdr, packet, rest);
  in_long : hd_IsLongHeader hdr = true;
  in_version : hd_Version hdr = VersionTLS;
  in_type : hd_Type hdr = PacketTypeInitial
}.

Lemma initial_ids s p hdr : config_ok (sv_config s) -> initial s p hdr ->
  valid_connID (hd_DestConnectionID hdr) /\ valid_connID (hd_SrcConnectionID hdr).
Proof.
  intros Hc [Hb _ (packet & rest & E) Hl _ _]. eapply ParsePacket_ids; [done| |done..]. pose proof (fco_connID _ Hc). lia.
Qed.

Lemma generated_valid s rnd : config_ok (sv_config s) -> valid_connID (GenerateConnectionID (fc_ConnectionIDLength (sv_config s)) (rn_connID rnd)).
Proof.
  intros Hc. pose proof (fco_connID _ Hc). unfold valid_connID, connID_Len, GenerateConnectionID. rewrite length_map, length_seq. lia.
Qed.

(** An Initial packet reaches [handleInitialImpl]. *)
Lemma handle_initial s now rnd p hdr r : config_ok (sv_config s) -> initial s p hdr ->
  handleInitialImpl s now rnd p hdr = Ret r -> handlePacketImpl s now rnd p = Ret r.
Proof.
  intros Hc [Hb Hs (packet & rest & E) Hl Hv Ht] Er. unfold Server.handlePacketImpl. rewrite (proj2 (Z.ltb_ge _ _)), E by done.
  rewrite Hl, Hv, (fco_version _ Hc), Ht. cbn. by rewrite Er.
Qed.

Lemma sendRetry_sends s now rnd p hdr n : config_ok (sv_config s) -> initial s p hdr -> random_ok rnd -> unix_time now ->
  exists token data rh,
    sendRetry tlib s now rnd (dg_remoteAddr p) hdr = Ret (mkServed [data] None) /\
    token <> [] /\
    DecodeToken tlib (sv_secret s) token = Ret (Some (mkToken true (addr_String tlib (dg_remoteAddr p)) now (hd_DestConnectionID hdr))) /\
    IsVersionNegotiationPacket data = false /\
    ParsePacket data n = Ret (rh, data, []) /\
    hd_IsLongHeader rh = true /\ hd_Type rh = PacketTypeRetry /\ hd_DestConnectionID rh = hd_SrcConnectionID hdr /\
    hd_SrcConnectionID rh = GenerateConnectionID (fc_ConnectionIDLength (sv_config s)) (rn_connID rnd) /\
    hd_OrigDestConnectionID rh = hd_DestConnectionID hdr /\ hd_Token rh = token.
Proof.
  intros Hc Hi [Hn _] Ht. destruct (initial_ids _ _ _ Hc Hi) as [Hdst Hsrc].
  destruct (NewRetryToken_ok tlib (sv_secret s) (rn_nonce rnd) now (dg_remoteAddr p) (hd_DestConnectionID hdr) Hn Ht) as (token & Et & Hne & Ed).
  destruct (retry_parsed _ _ _ token n (generated_valid s rnd Hc) Hsrc Hdst) as (data & ty & Ew & Ev & Ep).
  exists token, data. eexists. unfold sendRetry. rewrite (outcome_bind_eq _ _ _ Et). cbv beta zeta.
  rewrite (in_version _ _ _ Hi), (outcome_bind_eq _ _ _ Ew). split_and!; [done|done|done|done|exact Ep|done..].
Qed.

(** A token is accepted or not by its age and its address. *)
Lemma accepted_token s now p hdr token addr sent orig :
  token <> [] -> hd_Token hdr = token -> DecodeToken tlib (sv_secret s) token = Ret (Some (mkToken true addr sent orig)) ->
  exists t, decoded_token tlib s hdr = Ret (Some t, orig) /\
    defaultAcceptToken tlib now (dg_remoteAddr p) (Some t) =
      bool_decide (now <= sent + RetryTokenValidity /\ addr_String tlib (@dg_remoteAddr netAddr p) = addr).
Proof.
  intros Hne <- Ed. unfold decoded_token. destruct (hd_Token hdr) as [|b l]; [done|]. rewrite Ed. cbn. eexists. split; [done|].
  unfold defaultAcceptToken, After, Prelude.Add. cbn -[Z.add Z.mul RetryTokenValidity].
  destruct (Z.ltb_spec (sent + RetryTokenValidity) now) as [Hlt|Hge]; symmetry.
  - apply bool_decide_eq_false_2. lia.
  - apply bool_decide_ext. naive_solver.
Qed.

(** The parameters of a session can be sent, whatever the connection ID of the first packet was. *)
Lemma session_params_wf s rnd id orig : config_ok (sv_config s) -> random_ok rnd -> valid_connID orig ->
  params_wf PerspectiveServer (session_params s (GetStatelessResetToken mac (rn_token rnd) m id) orig).
Proof.
  intros [_ _ _ _ Hidle Hs Hu] [_ Ht] Ho. split; cbn; try done; try (by vm_compute).
  - intros token [= <-]. unfold GetStatelessResetToken. destruct (negb _); rewrite length_take, ?Ht, ?mac_length; lia.
  - unfold valid_connID in Ho. unfold maxConnectionIDLen. lia.
Qed.

Section Retry.
Context {C H : Type} `{!SendAlgorithm C} `{!FloatConv} `{!CryptoStreamHandler H}.

(** A client that has heard nothing yet from the server it sends to. *)
Record waiting (c : core (C := C) (H := H)) (dest : ConnectionID) : Prop := {
  wt_client : core_perspective c = PerspectiveClient;
  wt_first : core_receivedFirstPacket c = false;
  wt_retry : core_receivedRetry c = false;
  wt_dest : core_destConnID c = dest;
  wt_packets : is_Some (hd_initialPackets (handler_of c))
}.

Lemma retry_accepted c rh dest : waiting c dest -> hd_OrigDestConnectionID rh = dest -> hd_SrcConnectionID rh <> dest ->
  exists c', handleRetryPacket c rh = Ret (c', true) /\
    core_perspective c' = PerspectiveClient /\ core_destConnID c' = hd_SrcConnectionID rh /\ core_origDestConnID c' = dest /\
    pk_token (ev_packer (core_env c')) = hd_Token rh /\ pk_destConnID (ev_packer (core_env c')) = hd_SrcConnectionID rh.
Proof.
  intros [Wp Wf Wr Wd [sp Ws]] Eo Hne. unfold handleRetryPacket, connID_Equal, ResetForRetry. rewrite Wp, Wf, Wr, Wd.
  rewrite bool_decide_eq_false_2 by done. rewrite bool_decide_eq_true_2 by done. rewrite bool_decide_eq_false_2 by done. cbn -[updateLossDetectionAlarm].
  unfold handler_of in Ws |- *. cbn -[updateLossDetectionAlarm] in *. rewrite Ws. cbn -[updateLossDetectionAlarm].
  destruct (cs_ChangeConnectionID _ _); eexists; (split; [reflexivity|done]).
Qed.

(** C7. A Retry takes a client to a session, and nobody else. A server that does not know the address of a client answers the first packet
    with a Retry; the client accepts it, and from then on uses the new connection ID and the token. Whoever presents this
    token later is given a session if they write from the same address, the token is at most ten seconds old, and the server is
    not busy; the session then announces the connection ID of the very first packet, so
    that the client accepts its transport parameters. From another address, or later, no session is made. *)
Theorem retry_validates_address s now rnd p hdr (c : core (C := C) (H := H)) n :
  config_ok (sv_config s) -> fc_AcceptToken (sv_config s) = Some (defaultAcceptToken tlib) ->
  initial s p hdr -> hd_Token hdr = [] -> MinConnectionIDLenInitial <= connID_Len (hd_DestConnectionID hdr) ->
  random_ok rnd -> unix_time now ->
  waiting c (hd_DestConnectionID hdr) ->
  GenerateConnectionID (fc_ConnectionIDLength (sv_config s)) (rn_connID rnd) <> hd_DestConnectionID hdr ->
  exists data rh c',
    handlePacketImpl s now rnd p = Ret (mkServed [data] None) /\
    ParsePacket data n = Ret (rh, data, []) /\ hd_Type rh = PacketTypeRetry /\ hd_DestConnectionID rh = hd_SrcConnectionID hdr /\
    handleRetryPacket c rh = Ret (c', true) /\
    pk_destConnID (ev_packer (core_env c')) = GenerateConnectionID (fc_ConnectionIDLength (sv_config s)) (rn_connID rnd) /\
    forall q now' rnd' p' hdr', let s' := mkServer (sv_config s) (sv_secret s) q in
      initial s' p' hdr' -> hd_Token hdr' = pk_token (ev_packer (core_env c')) -> random_ok rnd' -> unix_time now' ->
      if bool_decide (now' <= now + RetryTokenValidity /\ addr_String tlib (dg_remoteAddr p') = addr_String tlib (dg_remoteAddr p))
      then q < MaxAcceptQueueSize -> (forall args, newSession args = Ret tt) ->
           exists id args params, handlePacketImpl s' now' rnd' p' = Ret (mkServed [] (Some (id, args))) /\
             sa_destConnID args = hd_SrcConnectionID hdr' /\ sa_srcConnID args = id /\
             TransportParameters.Marshal (sa_params args) = Ret params /\
             processTransportParametersForClient c' params = Ret (TransportParameters.received_params (sa_params args))
      else exists retry, handlePacketImpl s' now' rnd' p' = Ret (mkServed [retry] None).
Proof.
  intros Hc Ha Hi Ht Hl Hr Hn Hw Hne.
  destruct (sendRetry_sends s now rnd p hdr n Hc Hi Hr Hn) as (token & data & rh & Es & Htok & Ed & _ & Ep & _ & Ety & Edst & Esrc & Eorig & Etok).
  destruct (retry_accepted c rh _ Hw Eorig) as (c' & Er & Cp & _ & Co & Ct & Cd); [by rewrite Esrc|].
  exists data, rh, c'. split_and!; try done; [|by rewrite Cd|].
  { eapply handle_initial; [done..|]. unfold Server.handleInitialImpl. rewrite Ht. cbn [length]. rewrite (proj2 (Z.ltb_ge _ _)) by done.
    unfold decoded_token. rewrite Ht. cbn. by rewrite Ha. }
  intros q now' rnd' p' hdr' s' Hi' Ht' Hr' Hn'. rewrite Ct, Etok in Ht'.
  destruct (accepted_token s' now' p' hdr' token _ _ _ Htok Ht' Ed) as (t & Edec & Eacc).
  assert (Hshort : (Z.of_nat (length (hd_Token hdr')) =? 0) = false) by (rewrite Ht'; by destruct token).
  assert (Ehi : handleInitialImpl s' now' rnd' p' hdr' = _) by (unfold Server.handleInitialImpl; rewrite Hshort, Edec; cbn [andb mbind outcome_bind]; rewrite (Ha : fc_AcceptToken (sv_config s') = _); cbn [mbind outcome_bind mret outcome_ret]; rewrite Eacc; reflexivity).
  case_bool_decide as Eok; cbn [negb] in Ehi.
  - intros Hq Hnew. rewrite (proj2 (Z.leb_gt _ _)) in Ehi by done. unfold createNewSession in Ehi. rewrite Hnew in Ehi. cbn in Ehi.
    apply handle_initial in Ehi; [|done..]. destruct (initial_ids _ _ _ Hc Hi) as [Hdst _].
    destruct (params_arrive _ _ (session_params_wf s' rnd' (GenerateConnectionID (fc_ConnectionIDLength (sv_config s')) (rn_connID rnd')) _ Hc Hr' Hdst)) as (params & Em & Eu).
    do 2 eexists. exists params. split; [exact Ehi|]. split_and!; [done|done|exact Em|].
    unfold processTransportParametersForClient. rewrite Cp. cbn [Opposite]. rewrite Eu. cbn. rewrite Co. unfold connID_Equal. by rewrite bool_decide_eq_true_2.
  - destruct (sendRetry_sends s' now' rnd' p' hdr' n Hc Hi' Hr' Hn') as (token' & data' & rh' & Es' & _). rewrite Es' in Ehi.
    apply handle_initial in Ehi; [|done..]. by exists data'.
Qed.

End Retry.

(** ** Busy servers *)

Definition busy_bytes : bytes := [0x1c; 0; 2; 0; 0].

Lemma busy_written b : Write b (FConnectionClose busy_frame) = Ret (b ++ busy_bytes, None).
Proof. cbn. by list_simplifier. Qed.

Lemma busy_header_wf hdr : hd_Version hdr = VersionTLS -> valid_connID (hd_DestConnectionID hdr) -> valid_connID (hd_SrcConnectionID hdr) ->
  header_wf (busy_header hdr 25).
Proof. intros Hv Hdst Hsrc. unfold header_wf. cbn. split_and!; try done; tauto. Qed.

Lemma initial_sealer id pers ss os : NewInitialAEAD lib id pers = Ret (ss, os) -> sl_is1RTT ss = false.
Proof.
  unfold NewInitialAEAD, computeSecrets, computeInitialKeyAndIV. destruct pers; cbn; intros E;
    apply outcome_bind_Ret in E as (b1 & _ & E); apply outcome_bind_Ret in E as (b2 & _ & E); by injection E as <- <-.
Qed.

Lemma busy_sent hdr ss os hb raw :
  NewInitialAEAD lib (hd_DestConnectionID hdr) PerspectiveServer = Ret (ss, os) -> AEADLaws (sl_aead ss) ->
  writeHeader [] (busy_header hdr 25) = Ret hb -> seal_packet ss (hb ++ busy_bytes) (length hb) (busy_header hdr 25) = Ret raw ->
  sendServerBusy lib hdr = Ret (mkServed [raw] None).
Proof.
  intros Es La Eh Er. unfold sendServerBusy. rewrite (outcome_bind_eq _ _ _ Es). cbv beta iota. rewrite (outcome_bind_eq _ _ 5 eq_refl). cbv zeta.
  unfold Overhead. rewrite aead_overhead, (outcome_bind_eq _ _ _ Eh), busy_written. cbn [mbind outcome_bind]. by rewrite (outcome_bind_eq _ _ _ Er).
Qed.

(** C27. A refusal is understood. A server whose queue is full answers an Initial packet whose token it accepts with one packet, and
    makes no session; the client finds in it, with the keys that it derived from its own connection ID, a CONNECTION_CLOSE with the
    code SERVER_BUSY and nothing else. *)
Theorem busy_server_understood s now rnd p hdr t orig f ss os sc oc u n :
  config_ok (sv_config s) -> initial s p hdr ->
  MinConnectionIDLenInitial <= connID_Len (hd_DestConnectionID hdr) ->
  decoded_token tlib s hdr = Ret (t, orig) -> fc_AcceptToken (sv_config s) = Some f -> f now (dg_remoteAddr p) t = true ->
  MaxAcceptQueueSize <= sv_sessionQueueLen s ->
  NewInitialAEAD lib (hd_DestConnectionID hdr) PerspectiveServer = Ret (ss, os) ->
  NewInitialAEAD lib (hd_DestConnectionID hdr) PerspectiveClient = Ret (sc, oc) ->
  AEADLaws (sl_aead ss) -> BlockLaws (sl_hpEncrypter ss) ->
  0 <= un_largestRcvdPacketNumber u < 1000 ->
  exists raw h eh u' plain,
    handlePacketImpl s now rnd p = Ret (mkServed [raw] None) /\
    ParsePacket raw n = Ret (h, raw, []) /\
    Unpack (fun _ => Ret oc) u h raw = (u', Ret (mkUnpackedPacket 0 eh EncryptionInitial plain)) /\
    parse_frames (S (length plain)) AckDelayExponent EncryptionInitial plain = Ret [FConnectionClose busy_frame].
Proof.
  intros Hc Hi Hl Et Ha Hf Hq Es Ec La Lb Hu. destruct (initial_ids _ _ _ Hc Hi) as [Hdst Hsrc].
  destruct (initial_keys_match lib _ _ _ _ _ Ec Es) as [_ Hm].
  destruct (sealed_unpacks ss oc (busy_header hdr 25) busy_bytes [] n u (fun _ => Ret oc)) as (hb & raw & h & eh & Eh & Er & Ep & Eu); try done.
  { apply busy_header_wf; [apply Hi|done..]. }
  { by rewrite (initial_sealer _ _ _ _ Es). }
  { cbn. tauto. }
  { cbn. lia. }
  { cbn. lia. }
  rewrite app_nil_r in Ep. exists raw, h, eh. eexists. exists busy_bytes. split_and!; [|done|exact Eu|done].
  eapply handle_initial; [done..|]. unfold Server.handleInitialImpl. rewrite (proj2 (Z.ltb_ge _ _)), andb_false_r by done.
  rewrite (outcome_bind_eq _ _ _ Et). cbv beta iota. rewrite Ha. rewrite (outcome_bind_eq _ _ _ eq_refl), Hf, (proj2 (Z.leb_le _ _)) by done. cbn [negb].
  by eapply busy_sent.
Qed.

(** ** Any datagram *)

Section Total.
(** The keys of a connection ID exist, and [newSession] reports what is wrong. *)
Context (initial_keys : forall id, exists ss os, NewInitialAEAD lib id PerspectiveServer = Ret (ss, os) /\ AEADLaws (sl_aead ss) /\ BlockLaws (sl_hpEncrypter ss)).
Context (newSession_reports : forall args msg, newSession args <> Panic msg).

Lemma sendServerBusy_sends s p hdr : config_ok (sv_config s) -> initial s p hdr -> exists raw, sendServerBusy lib hdr = Ret (mkServed [raw] None).
Proof.
  intros Hc Hi. destruct (initial_ids _ _ _ Hc Hi) as [Hdst Hsrc]. destruct (initial_keys (hd_DestConnectionID hdr)) as (ss & os & Es & La & Lb).
  destruct (header_written _ (busy_header_wf hdr (in_version _ _ _ Hi) Hdst Hsrc)) as (ty & pre & Hw).
  destruct (seal_packet_ok ss (busy_header hdr 25) ty pre busy_bytes La Lb) as (c & raw & Er & _); [cbn; lia..|].
  exists raw. eapply busy_sent; [done..|apply (wr_write _ _ _ Hw [])|exact Er].
Qed.

Lemma decoded_token_total s hdr : exists t orig, decoded_token tlib s hdr = Ret (t, orig).
Proof.
  unfold decoded_token. destruct (hd_Token hdr) as [|b l] eqn:E; [by do 2 eexists|].
  pose proof (DecodeToken_reports tlib (sv_secret s) (b :: l)) as Hp. pose proof (DecodeToken_some tlib (sv_secret s) (b :: l) ltac:(done)) as Hs.
  destruct (DecodeToken _ _ _) as [[t|]| |msg]; [by do 2 eexists|done|by do 2 eexists|by destruct (Hp msg)].
Qed.

(** What comes of an Initial packet. *)
Lemma handleInitialImpl_total s now rnd p hdr f :
  config_ok (sv_config s) -> initial s p hdr -> random_ok rnd -> unix_time now -> fc_AcceptToken (sv_config s) = Some f ->
  exists t orig, decoded_token tlib s hdr = Ret (t, orig) /\
  match handleInitialImpl s now rnd p hdr with
  | Ret r => (sd_session r = None /\ exists data, sd_sent r = [data]) \/
             (sd_sent r = [] /\ f now (dg_remoteAddr p) t = true /\ sv_sessionQueueLen s < MaxAcceptQueueSize /\
              exists id args, sd_session r = Some (id, args) /\ newSession args = Ret tt /\ tp_OriginalConnectionID (sa_params args) = orig)
  | Error _ => True
  | Panic _ => False
  end.
Proof.
  intros Hc Hi Hr Hn Ha. destruct (decoded_token_total s hdr) as (t & orig & Et). exists t, orig. split; [done|].
  unfold Server.handleInitialImpl. destruct (_ && _); [done|]. rewrite (outcome_bind_eq _ _ _ Et). cbv beta iota.
  rewrite Ha, (outcome_bind_eq _ _ _ eq_refl). destruct (f now (dg_remoteAddr p) t) eqn:Ef; cbn [negb].
  - destruct (Z.leb_spec MaxAcceptQueueSize (sv_sessionQueueLen s)) as [Hq|Hq].
    + destruct (sendServerBusy_sends s p hdr Hc Hi) as (raw & ->). left. by split; [|eexists].
    + unfold createNewSession. pose proof (newSession_reports) as Hp. cbv zeta.
      destruct (newSession _) as [[]| |msg] eqn:En; cbn; [|done|by eapply Hp]. right. split_and!; try done. by do 2 eexists.
  - destruct (sendRetry_sends s now rnd p hdr 0 Hc Hi Hr Hn) as (tok & data & rh & -> & _). left. by split; [|eexists].
Qed.

(** C12. Whatever a server receives, it does not panic, and it answers with at most one datagram, none at all to one that is smaller than an
    Initial packet has to be; a session is made for nothing but a supported Initial packet whose token the application
    accepts, and for none while 32 sessions wait to be accepted. *)
Theorem server_answers_any s now rnd p f :
  bytes_ok (dg_data p) -> config_ok (sv_config s) -> random_ok rnd -> unix_time now -> fc_AcceptToken (sv_config s) = Some f ->
  exists r, handlePacketImpl s now rnd p = Ret r /\ (length (sd_sent r) <= 1)%nat /\
    (Z.of_nat (length (dg_data p)) < MinInitialPacketSize -> r = nothing) /\
    match sd_session r with
    | None => True
    | Some (id, args) => sd_sent r = [] /\ newSession args = Ret tt /\ sv_sessionQueueLen s < MaxAcceptQueueSize /\
        exists hdr t, initial s p hdr /\ decoded_token tlib s hdr = Ret (t, tp_OriginalConnectionID (sa_params args)) /\
          f now (dg_remoteAddr p) t = true
    end.
Proof.
  intros Hb Hc Hr Hn Ha. unfold Server.handlePacketImpl. destruct (Z.ltb_spec (Z.of_nat (length (dg_data p))) MinInitialPacketSize) as [Hs|Hs].
  { exists nothing. split_and!; try done. cbn. lia. }
  assert (Hlen : 0 <= fc_ConnectionIDLength (sv_config s)) by (pose proof (fco_connID _ Hc); lia).
  pose proof (ParsePacket_any (dg_data p) _ Hb Hlen) as Hp.
  destruct (ParsePacket _ _) as [[[hdr packet] rest]| |] eqn:Ep; [|exists nothing; split_and!; cbn; done || lia|done]. clear Hp.
  destruct (hd_IsLongHeader hdr) eqn:El; cbn [negb]; [|exists nothing; split_and!; cbn; done || lia].
  destruct (IsSupportedVersion _ _) eqn:Ev; cbn [negb].
  2: { eexists. split; [reflexivity|]. unfold sendVersionNegotiationPacket. destruct (rn_negotiation rnd) as [[x y] z].
       destruct (ComposeVersionNegotiation _ _ _ _ _ _); cbn; split_and!; done || lia. }
  destruct (Z.eqb_spec (hd_Type hdr) PacketTypeInitial) as [Et|Et]; cbn [andb negb]; [|exists nothing; split_and!; cbn; done || lia].
  assert (Hi : initial s p hdr) by (split; [done..|by do 2 eexists|done|by apply (fco_versions _ Hc)|done]).
  destruct (handleInitialImpl_total s now rnd p hdr f Hc Hi Hr Hn Ha) as (t & orig & Ed & Ht).
  destruct (Server.handleInitialImpl _ _ _ _ _ _ _ _ _ _) as [r| |]; [|exists nothing; split_and!; cbn; done || lia|done].
  exists r. split; [done|]. destruct Ht as [(Es & data & Ed')|(Es & Ef & Hq & id & args & Ess & En & Eo)].
  - rewrite Es, Ed'. split_and!; cbn; done || lia.
  - rewrite Ess, Es. split_and!; [cbn; lia|lia|done..|]. exists hdr, t. by rewrite Eo.
Qed.

End Total.

End ServerProofs.

(** ** Sessions that end at once *)

(** The goroutine of the server, which registers a session after [run] was started, and the session, which removes itself when it
    is closed by its peer (with the first packet, say). *)
Record registration (Hd Sv : Type) := mkRegistration {
  rg_map : packetHandlerMap Hd Sv;
  rg_registered : bool;
  rg_ended : bool
}.
Arguments mkRegistration {Hd Sv}.
Arguments rg_map {Hd Sv}.
Arguments rg_registered {Hd Sv}.
Arguments rg_ended {Hd Sv}.

Inductive registration_step {Hd Sv} (sess : Hd) (p : datagram netAddr) (r : served) (id : ConnectionID) :
    registration Hd Sv -> registration Hd Sv -> Prop :=
| server_registers m e : registration_step sess p r id (mkRegistration m false e) (mkRegistration (register m sess p r).1 true e)
| session_ends m g : registration_step sess p r id (mkRegistration m g false) (mkRegistration (PacketHandlers.Remove m id) g true).

(** A session that ends before it is registered is never removed: both goroutines have finished, and the packets of its
    connection ID still go to the session, which handles none of them. *)
Theorem ended_session_registered {Hd Sv} (m : packetHandlerMap Hd Sv) sess p id args :
  exists g, rtc (registration_step sess p (mkServed [] (Some (id, args))) id) (mkRegistration m false false) g /\
    nf (registration_step sess p (mkServed [] (Some (id, args))) id) g /\ rg_ended g = true /\ hm_handlers (rg_map g) !! id = Some sess.
Proof.
  eexists (mkRegistration (PacketHandlers.Add (PacketHandlers.Remove m id) id sess) true true). split_and!; [| |done|apply lookup_insert_eq].
  - eapply rtc_l; [apply session_ends|]. eapply rtc_l; [apply server_registers|]. done.
  - intros [g Hg]. inversion Hg.
Qed.
