(* ===== verification/Client.v ===== *)
(** * Dialing (client.go)

    A client makes a session, hands it the packets that are not Version Negotiation packets, and makes another one when it
    has to change the version.  The goroutines of a dial (the one that dials, the one in which the session runs, and those
    that handle Version Negotiation packets) are the steps of a transition system; the session itself is a parameter: it can end
    with any error and complete the handshake at any time while it runs. *)

From S2P Require Import Prelude VarInt Protocol AckFrame Frames SentHistory SentPacketHandler Headers Aead PacketPacker TransportParameters CryptoSetup Session PacketHandlers Tokens Server.

Definition populateClientConfig (config : option Config) (createdPacketConn : bool) : Config :=
  let c := default zero_config config in
  mkFullConfig
    (match fc_Versions c with [] => SupportedVersions | _ => fc_Versions c end)
    (if (fc_ConnectionIDLength c =? 0) && negb createdPacketConn then DefaultConnectionIDLength else fc_ConnectionIDLength c)
    (or_default (fc_HandshakeTimeout c) DefaultHandshakeTimeout)
    (or_default (fc_IdleTimeout c) DefaultIdleTimeout)
    None
    (or_default (fc_MaxReceiveStreamFlowControlWindow c) DefaultMaxReceiveStreamFlowControlWindow)
    (or_default (fc_MaxReceiveConnectionFlowControlWindow c) DefaultMaxReceiveConnectionFlowControlWindow)
    (stream_limit (fc_MaxIncomingStreams c) DefaultMaxIncomingStreams)
    (stream_limit (fc_MaxIncomingUniStreams c) DefaultMaxIncomingUniStreams)
    (fc_StatelessResetKey c)
    (fc_KeepAlive c).

(** What the client reads of the [tls.Config]. *)
Record tlsConfig := mkTlsConfig {
  tls_ServerName : string;
  tls_NextProtos : list string
}.

(** What a session is made with. *)
Record clientArgs := mkClientArgs {
  ca_destConnID : ConnectionID;
  ca_srcConnID : ConnectionID;
  ca_config : config;
  ca_initialPacketNumber : PacketNumber;
  ca_params : TransportParameters;
  ca_initialVersion : VersionNumber;
  ca_version : VersionNumber
}.

Record client := mkClient {
  cl_createdPacketConn : bool;
  cl_versionNegotiated : bool;                           (* has the server accepted our version *)
  cl_receivedVersionNegotiationPacket : bool;
  cl_negotiatedVersions : list VersionNumber;            (* the list of versions from the version negotiation packet *)
  cl_tlsConf : tlsConfig;
  cl_config : Config;
  cl_srcConnID : ConnectionID;
  cl_destConnID : ConnectionID;
  cl_initialPacketNumber : PacketNumber;
  cl_initialVersion : VersionNumber;
  cl_version : VersionNumber;
  cl_session : option clientArgs
}.

#[global] Instance client_eta : Eta client := fun c =>
  mkClient (cl_createdPacketConn c) (cl_versionNegotiated c) (cl_receivedVersionNegotiationPacket c) (cl_negotiatedVersions c) (cl_tlsConf c)
    (cl_config c) (cl_srcConnID c) (cl_destConnID c) (cl_initialPacketNumber c) (cl_initialVersion c) (cl_version c) (cl_session c).

(** The calls of the session. *)
Inductive sessionCall :=
| SessionPacket (p : datagram netAddr)
| SessionDestroy (e : goerr)
| SessionCloseForRecreating
| SessionClose.

(** [splitHostPort] is [net.SplitHostPort], which gives the host; [srcRand], [r] and [destRand] are the random bytes. *)
Definition newClient (splitHostPort : string -> outcome string) (config : Config) (tlsConf : option tlsConfig) (host : string)
    (createdPacketConn : bool) (srcRand : nat -> byte) (r : byte) (destRand : nat -> byte) : outcome client :=
  let tlsConf := default (mkTlsConfig EmptyString []) tlsConf in
  serverName ← (match tls_ServerName tlsConf with EmptyString => splitHostPort host | s => mret s end);
  let tlsConf := mkTlsConfig serverName (tls_NextProtos tlsConf) in
  match check_versions (fc_Versions config) with
  | Some err => Error err
  | None =>
      match fc_Versions config with
      | [] => Panic "index out of range"
      | version :: _ =>
          mret (mkClient createdPacketConn false false [] tlsConf config
                  (GenerateConnectionID (fc_ConnectionIDLength config) srcRand) (GenerateConnectionIDForInitial r destRand) 0 0 version None)
      end
  end.

(** [Dial], [DialAddr] and their variants, until the client dials: the packet handlers of the socket, and the client. *)
Definition dialContext {Conn Manager} `{Countable Conn} (x : connMultiplexer (Conn := Conn) (Manager := Manager))
    (newManager : Z -> option bytes -> Manager) (pconn : Conn) (splitHostPort : string -> outcome string) (host : string)
    (tlsConf : option tlsConfig) (config : option Config) (createdPacketConn : bool) (srcRand : nat -> byte) (r : byte) (destRand : nat -> byte) :
    connMultiplexer (Conn := Conn) (Manager := Manager) * outcome (Manager * client) :=
  match tlsConf with
  | None | Some (mkTlsConfig _ []) => (x, Error (ErrorString "quic: NextProtos not set in tls.Config"))
  | Some _ =>
      let config := populateClientConfig config createdPacketConn in
      match AddConn x newManager pconn (fc_ConnectionIDLength config) (fc_StatelessResetKey config) with
      | (x, inr err) => (x, Error err)
      | (x, inl packetHandlers) =>
          (x, c ← newClient splitHostPort config tlsConf host createdPacketConn srcRand r destRand; mret (packetHandlers, c))
      end
  end.

Definition client_params (c : client) : TransportParameters :=
  mkParams InitialMaxStreamData InitialMaxStreamData InitialMaxStreamData InitialMaxData MaxAckDelayInclGranularity AckDelayExponent 0
    (fc_MaxIncomingUniStreams (cl_config c)) (fc_MaxIncomingStreams (cl_config c)) (fc_IdleTimeout (cl_config c)) true None [].

(** [newClientSession] can fail; the client is then added to the packet handlers under [srcConnID]. *)
Definition createNewTLSSession (newClientSession : clientArgs -> option goerr) (c : client) : client * option goerr :=
  let args := mkClientArgs (cl_destConnID c) (cl_srcConnID c) (session_config (cl_config c)) (cl_initialPacketNumber c) (client_params c)
                (cl_initialVersion c) (cl_version c) in
  match newClientSession args with
  | Some err => (c, Some err)
  | None => (c <| cl_session := Some args |>, None)
  end.

(** A packet for the session, or for a goroutine of its own. *)
Definition client_handlePacket (c : client) (p : datagram netAddr) : client * sum (list sessionCall) bytes :=
  if IsVersionNegotiationPacket (dg_data p) then (c, inr (dg_data p))
  else (if negb (cl_versionNegotiated c) then c <| cl_versionNegotiated := true |> else c, inl [SessionPacket p]).

(** [nextPN] is what [closeForRecreating] returns. *)
Definition handleVersionNegotiationPacket (c : client) (data : bytes) (nextPN : PacketNumber) : outcome (client * list sessionCall) :=
  match ParsePacket data 0 with
  | Panic msg => Panic msg
  | Error _ => mret (c, [])
  | Ret (hdr, _, _) =>
      (* ignore delayed / duplicated version negotiation packets *)
      if cl_receivedVersionNegotiationPacket c || cl_versionNegotiated c then mret (c, [])
      (* The Version Negotiation packet contains the version that we offered. *)
      else if existsb (fun v => v =? cl_version c) (hd_SupportedVersions hdr) then mret (c, [])
      else match ChooseSupportedVersion (fc_Versions (cl_config c)) (hd_SupportedVersions hdr) with
           | (_, false) => mret (c, [SessionDestroy (Errorf "No compatible QUIC version found. We support %s, server offered %s"
                                                       (fc_Versions (cl_config c) ++ hd_SupportedVersions hdr))])
           | (newVersion, true) =>
               mret (c <| cl_receivedVersionNegotiationPacket := true |> <| cl_negotiatedVersions := hd_SupportedVersions hdr |>
                       <| cl_initialVersion := cl_version c |> <| cl_version := newVersion |> <| cl_initialPacketNumber := nextPN |>,
                     [SessionCloseForRecreating])
           end
  end.

Definition client_Close (c : client) : list sessionCall := match cl_session c with None => [] | Some _ => [SessionClose] end.
Definition client_destroy (c : client) (e : goerr) : list sessionCall := match cl_session c with None => [] | Some _ => [SessionDestroy e] end.
Definition client_GetVersion (c : client) : VersionNumber := cl_version c.
Definition client_getPerspective (c : client) : Perspective := PerspectiveClient.

(** ** A dial *)

Inductive dialPC :=
| DialCreate                          (* in [dial], before the session is made *)
| DialSelect                          (* in the select of [establishSecureConnection] *)
| DialReturned (err : option goerr).

(** The session of the dial, as the client sees it. *)
Inductive sessionRun :=
| NoRun
| Runs
| Ended (e : goerr).                  (* [closeOnce] is done, and [run] returns this error *)

#[global] Instance sessionRun_eq_dec : EqDecision sessionRun.
Proof. solve_decision. Defined.

Record dialing := mkDialing {
  dl_client : client;
  dl_pc : dialPC;
  dl_run : sessionRun;
  dl_errorChan : option goerr;
  dl_complete : bool;                 (* the session has completed the handshake *)
  dl_handshakeChan : nat;             (* how often it was closed *)
  dl_negotiations : list bytes;       (* of the goroutines that handle Version Negotiation packets *)
  dl_sessions : list clientArgs;      (* all sessions that were made *)
  dl_closedConn : bool                (* the packet handlers, and with them the socket, were closed *)
}.

#[global] Instance dialing_eta : Eta dialing := fun d =>
  mkDialing (dl_client d) (dl_pc d) (dl_run d) (dl_errorChan d) (dl_complete d) (dl_handshakeChan d) (dl_negotiations d) (dl_sessions d) (dl_closedConn d).

Definition start_dial (c : client) : dialing := mkDialing c DialCreate NoRun None false 0 [] [] false.

(** A call that closes the session does nothing when the session is closed already; otherwise it waits until [run] has finished. *)
Definition session_call (r : sessionRun) (call : sessionCall) : sessionRun :=
  match r, call with
  | Runs, SessionDestroy e => Ended e
  | Runs, SessionCloseForRecreating => Ended errCloseForRecreating
  | Runs, SessionClose => Ended (ErrorString "NoError")
  | _, _ => r
  end.

Inductive dial_step : dialing -> dialing -> Prop :=
| dial_create newClientSession d c' :
    dl_pc d = DialCreate -> createNewTLSSession newClientSession (dl_client d) = (c', None) ->
    dial_step d (d <| dl_client := c' |> <| dl_pc := DialSelect |> <| dl_run := Runs |> <| dl_errorChan := None |> <| dl_complete := false |>
                   <| dl_sessions := dl_sessions d ++ option_list (cl_session c') |>)
| dial_create_fails newClientSession d c' err :
    dl_pc d = DialCreate -> createNewTLSSession newClientSession (dl_client d) = (c', Some err) -> err <> errCloseForRecreating ->
    dial_step d (d <| dl_client := c' |> <| dl_pc := DialReturned (Some err) |>)
| dial_packet d p c' calls :
    cl_session (dl_client d) <> None -> client_handlePacket (dl_client d) p = (c', inl calls) ->
    dial_step d (d <| dl_client := c' |>)
| dial_negotiation_arrives d p c' data :
    cl_session (dl_client d) <> None -> client_handlePacket (dl_client d) p = (c', inr data) ->
    dial_step d (d <| dl_client := c' |> <| dl_negotiations := dl_negotiations d ++ [data] |>)
| dial_negotiation d before data after nextPN c' calls :
    dl_negotiations d = before ++ data :: after ->
    handleVersionNegotiationPacket (dl_client d) data nextPN = Ret (c', calls) ->
    dial_step d (d <| dl_client := c' |> <| dl_negotiations := before ++ after |> <| dl_run := foldl session_call (dl_run d) calls |>)
| dial_session_ends d e :
    dl_run d = Runs -> e <> errCloseForRecreating -> dial_step d (d <| dl_run := Ended e |>)
| dial_run_returns d e :
    dl_run d = Ended e -> dl_errorChan d = None ->
    dial_step d (d <| dl_errorChan := Some e |>
                   <| dl_closedConn := dl_closedConn d || (negb (bool_decide (e = errCloseForRecreating)) && cl_createdPacketConn (dl_client d)) |>)
| dial_handshake d :
    dl_run d <> NoRun -> dl_errorChan d = None -> dl_complete d = false -> dial_step d (d <| dl_complete := true |> <| dl_handshakeChan := S (dl_handshakeChan d) |>)
| dial_error d e :
    dl_pc d = DialSelect -> dl_errorChan d = Some e ->
    dial_step d (if bool_decide (e = errCloseForRecreating) then d <| dl_pc := DialCreate |> <| dl_errorChan := None |> <| dl_run := NoRun |>
                 else d <| dl_pc := DialReturned (Some e) |>)
| dial_complete d :
    dl_pc d = DialSelect -> (0 < dl_handshakeChan d)%nat -> dial_step d (d <| dl_pc := DialReturned None |>)
| dial_canceled d err :
    dl_pc d = DialSelect -> err <> errCloseForRecreating ->
    dial_step d (d <| dl_run := session_call (dl_run d) SessionClose |> <| dl_pc := DialReturned (Some err) |>).

(** ** Properties *)

(** A Version Negotiation packet changes the version once. *)
Lemma negotiation_cases c data nextPN c' calls :
  handleVersionNegotiationPacket c data nextPN = Ret (c', calls) ->
  c' = c /\ (calls = [] \/ exists e, calls = [SessionDestroy e] /\ e <> errCloseForRecreating) \/
  cl_receivedVersionNegotiationPacket c = false /\ cl_receivedVersionNegotiationPacket c' = true /\ calls = [SessionCloseForRecreating] /\
  cl_version c' ∈ fc_Versions (cl_config c) /\ cl_version c' <> cl_version c /\ cl_session c' = cl_session c /\ cl_config c' = cl_config c.
Proof.
  unfold handleVersionNegotiationPacket. destruct (ParsePacket data 0) as [[[hdr q] rest]| |]; [|intros [= <- <-]; auto|done].
  destruct (cl_receivedVersionNegotiationPacket c || cl_versionNegotiated c) eqn:Er; [intros [= <- <-]; auto|].
  destruct (existsb _ _) eqn:Ex; [intros [= <- <-]; auto|].
  destruct (ChooseSupportedVersion _ _) as [v []] eqn:Ec; intros [= <- <-]; [right|left; split; [done|right; by eexists]].
  apply orb_false_iff in Er as [Er _]. assert (Hc : v ∈ fc_Versions (cl_config c) /\ v ∈ hd_SupportedVersions hdr).
  { clear -Ec. revert Ec. induction (fc_Versions (cl_config c)) as [|w ws IH]; cbn; [done|].
    destruct (existsb _ _) eqn:E; [intros [= ->]|intros E'; destruct (IH E'); by split; [right|]].
    apply existsb_exists in E as (x & Hx & Ex). zbool. subst x. split; [left|by apply list_elem_of_In]. }
  cbn. split_and!; try done; [apply Hc|]. intros ->. apply not_true_iff_false in Ex. apply Ex, existsb_exists. exists (cl_version c).
  split; [by apply list_elem_of_In, Hc|apply Z.eqb_refl].
Qed.

Definition b2n (b : bool) : nat := if b then 1 else 0.

(** A new session will be made. *)
Definition recreating (d : dialing) : bool :=
  match dl_pc d with
  | DialCreate => true
  | DialSelect => bool_decide (dl_run d = Ended errCloseForRecreating) || bool_decide (dl_errorChan d = Some errCloseForRecreating)
  | DialReturned _ => false
  end.

Record dial_ok (c0 : client) (d : dialing) : Prop := {
  do_sessions : (length (dl_sessions d) + b2n (recreating d) <= 1 + b2n (cl_receivedVersionNegotiationPacket (dl_client d)))%nat;
  do_chan : (dl_handshakeChan d + b2n (bool_decide (dl_run d <> NoRun) && negb (dl_complete d)) <= length (dl_sessions d))%nat;
  do_config : cl_config (dl_client d) = cl_config c0;
  do_version : cl_version (dl_client d) ∈ cl_version c0 :: fc_Versions (cl_config c0);
  do_versions : Forall (fun a => ca_version a ∈ cl_version c0 :: fc_Versions (cl_config c0)) (dl_sessions d);
  do_negotiated : cl_receivedVersionNegotiationPacket (dl_client d) = true ->
    exists v, v ∈ fc_Versions (cl_config c0) /\ v <> cl_version c0;
  do_kept : cl_receivedVersionNegotiationPacket (dl_client d) = false -> cl_version (dl_client d) = cl_version c0;
  do_returned : dl_pc d <> DialReturned (Some errCloseForRecreating)
}.

Lemma createNewTLSSession_cases new c c' err : createNewTLSSession new c = (c', err) ->
  match err with
  | Some _ => c' = c
  | None => exists args, c' = c <| cl_session := Some args |> /\ ca_version args = cl_version c
  end.
Proof. unfold createNewTLSSession. destruct (new _); intros [= <- <-]; [done|by eexists]. Qed.

Lemma client_handlePacket_cases c p c' r : client_handlePacket c p = (c', r) ->
  cl_config c' = cl_config c /\ cl_version c' = cl_version c /\
  cl_receivedVersionNegotiationPacket c' = cl_receivedVersionNegotiationPacket c /\ cl_session c' = cl_session c.
Proof. unfold client_handlePacket. destruct (IsVersionNegotiationPacket _); [by intros [= <- <-]|]. by destruct (cl_versionNegotiated c); intros [= <- <-]. Qed.

Lemma b2n_le b : (b2n b <= 1)%nat.
Proof. destruct b; cbn; lia. Qed.

(** The steps that neither make sessions nor end the one that runs. *)
Lemma dial_ok_client c0 d c' ns :
  dial_ok c0 d -> cl_config c' = cl_config (dl_client d) -> cl_version c' = cl_version (dl_client d) ->
  cl_receivedVersionNegotiationPacket c' = cl_receivedVersionNegotiationPacket (dl_client d) ->
  dial_ok c0 (d <| dl_client := c' |> <| dl_negotiations := ns |>).
Proof. intros [K1 K2 K3 K4 K5 K6 K7 K8] E1 E2 E3. split; cbn; rewrite ?E1, ?E2, ?E3; done. Qed.

(** The session ends. *)
Lemma dial_ok_ends c0 d e :
  dial_ok c0 d -> e <> errCloseForRecreating -> dl_run d = Runs -> dial_ok c0 (d <| dl_run := Ended e |>).
Proof.
  intros [K1 K2 K3 K4 K5 K6 K7 K8] He Hr. split; try done.
  - unfold recreating in *. cbn in *. destruct (dl_pc d); try done. rewrite bool_decide_eq_false_2 by naive_solver.
    destruct (bool_decide (dl_errorChan d = _)); [|cbn in *; lia]. by rewrite orb_true_r in K1.
  - cbn in *. rewrite Hr in K2. rewrite bool_decide_eq_true_2 in K2 |- * by done. done.
Qed.

Lemma dial_ok_negotiation c0 d c' ns data pn calls :
  dial_ok c0 d -> handleVersionNegotiationPacket (dl_client d) data pn = Ret (c', calls) ->
  dial_ok c0 (d <| dl_client := c' |> <| dl_negotiations := ns |> <| dl_run := foldl session_call (dl_run d) calls |>).
Proof.
  intros Hk [(-> & [-> |(e & -> & He)])|(Hf & Ht & -> & Hv & Hne & Hsn & Hcf)]%negotiation_cases.
  - by apply (dial_ok_client c0 d).
  - apply (dial_ok_client c0 d (dl_client d) ns) in Hk; [|done..]. cbn. destruct (dl_run d) eqn:Er; cbn.
    + by destruct d; cbn in *; subst.
    + by apply (dial_ok_ends c0 _ e) in Hk.
    + by destruct d; cbn in *; subst.
  - destruct Hk as [K1 K2 K3 K4 K5 K6 K7 K8]. split; cbn; try done.
    + rewrite Ht. rewrite Hf in K1. cbn in *. pose proof (b2n_le (recreating (d <| dl_client := c' |> <| dl_negotiations := ns |> <| dl_run := session_call (dl_run d) SessionCloseForRecreating |>))). cbn in *. lia.
    + by destruct (dl_run d).
    + by rewrite Hcf.
    + right. by rewrite <- K3.
    + intros _. exists (cl_version c'). rewrite <- K3. split; [done|]. by rewrite <- K7.
    + by rewrite Ht.
Qed.

Lemma dial_step_ok c0 d d' : dial_ok c0 d -> dial_step d d' -> dial_ok c0 d'.
Proof.
  intros Hk Hs. pose proof Hk as [K1 K2 K3 K4 K5 K6 K7 K8].
  destruct Hs as [new d c' Hp E|new d c' err Hp E He|d p c' calls Hn E|d p c' data Hn E|d bf data af pn c' calls Hl E|
    d e Hr He|d e Hr He|d Hr He Hc|d e Hp He|d Hp Hc|d err Hp He].
  - apply createNewTLSSession_cases in E as (args & -> & Ev). unfold recreating in K1. rewrite Hp in K1. split; try done.
    + replace (recreating _) with false by done. cbn in *. rewrite length_app. cbn. lia.
    + cbn -[b2n] in *. rewrite length_app, bool_decide_eq_true_2 by done. cbn. lia.
    + cbn. apply Forall_app. split; [done|]. constructor; [by rewrite Ev|done].
  - apply createNewTLSSession_cases in E as ->. unfold recreating in K1. rewrite Hp in K1. split; cbn in *; try done; [lia|congruence].
  - apply client_handlePacket_cases in E as (E1 & E2 & E3 & _). apply (dial_ok_client c0 d c' (dl_negotiations d)) in Hk; [|done..]. by destruct d.
  - apply client_handlePacket_cases in E as (E1 & E2 & E3 & _). by apply (dial_ok_client c0 d c').
  - by eapply dial_ok_negotiation.
  - by apply dial_ok_ends.
  - split; try done. unfold recreating in *. cbn in *. destruct (dl_pc d); try done.
    rewrite Hr, He in K1. rewrite Hr. rewrite (bool_decide_eq_false_2 (None = _)), orb_false_r in K1 by done.
    destruct (decide (e = errCloseForRecreating)) as [->|Hne]; [done|]. rewrite !bool_decide_eq_false_2 in * by congruence. done.
  - split; try done. cbn in *. rewrite andb_false_r. rewrite bool_decide_eq_true_2, Hc in K2 by done. cbn in *. lia.
  - destruct (decide (e = errCloseForRecreating)) as [->|Ee]; [rewrite bool_decide_eq_true_2 by done|rewrite bool_decide_eq_false_2 by done].
    + unfold recreating in K1. rewrite Hp, He in K1. rewrite (bool_decide_eq_true_2 (Some _ = _)), orb_true_r in K1 by done.
      split; try done. cbn in *. rewrite bool_decide_eq_false_2 by naive_solver. cbn. lia.
    + split; try done; cbn in *; [lia|congruence].
  - split; try done. cbn in *. lia.
  - split; try done; cbn in *; [lia| |congruence]. by destruct (dl_run d).
Qed.

Lemma dial_reachable_ok c d :
  cl_receivedVersionNegotiationPacket c = false -> rtc dial_step (start_dial c) d -> dial_ok c d.
Proof.
  intros Hc Hs. assert (Hk : dial_ok c (start_dial c)).
  { split; cbn; try done; [lia|left|by rewrite Hc]. }
  revert Hk. induction Hs; [done|]. eauto using dial_step_ok.
Qed.

(** A dial makes at most two sessions: a second one only after a Version Negotiation packet, and with a version of the configuration that
    the server offers; the error that says so is never returned to the application. *)
Theorem dial_recreates_once c d :
  cl_receivedVersionNegotiationPacket c = false -> rtc dial_step (start_dial c) d ->
  (length (dl_sessions d) <= 2)%nat /\
  Forall (fun a => ca_version a ∈ cl_version c :: fc_Versions (cl_config c)) (dl_sessions d) /\
  dl_pc d <> DialReturned (Some errCloseForRecreating) /\
  ((2 <= length (dl_sessions d))%nat -> cl_receivedVersionNegotiationPacket (dl_client d) = true).
Proof.
  intros Hc Hs. destruct (dial_reachable_ok c d Hc Hs) as [K1 _ _ _ K5 _ _ K8].
  pose proof (b2n_le (cl_receivedVersionNegotiationPacket (dl_client d))). split_and!; [lia|done|done|].
  destruct (cl_receivedVersionNegotiationPacket (dl_client d)); cbn in *; [done|lia].
Qed.

Lemma valid_versions vs : check_versions vs = None -> Forall (fun v => v = VersionTLS) vs.
Proof.
  induction vs as [|v vs IH]; cbn; [done|]. destruct (IsValidVersion v) eqn:E; [|done]. intros Hvs. constructor; [|by apply IH].
  unfold IsValidVersion, IsSupportedVersion in E. cbn -[VersionTLS] in E. destruct (Z.eqb_spec v VersionTLS); [done|].
  by destruct (Z.eqb_spec VersionTLS v).
Qed.

Lemma newClient_ok splitHostPort config tls host created r1 r r2 c :
  newClient splitHostPort config tls host created r1 r r2 = Ret c ->
  cl_config c = config /\ cl_version c = VersionTLS /\ Forall (fun v => v = VersionTLS) (fc_Versions config) /\
  cl_receivedVersionNegotiationPacket c = false /\ cl_session c = None.
Proof.
  unfold newClient. intros E. apply outcome_bind_Ret in E as (name & _ & E). cbv zeta in E.
  destruct (check_versions _) eqn:Ec; [done|]. apply valid_versions in Ec. destruct (fc_Versions config) as [|v vs]; [done|].
  injection E as <-. inversion Ec. cbn. by split_and!.
Qed.

(** C24. A client that [newClient] made dials once: it has one version to offer, so that no Version Negotiation packet makes it start over;
    its sessions all use this version, and the channel that reports a completed handshake is closed at most once, as a second [close] would panic. *)
Theorem client_dials_once splitHostPort config tls host created r1 r r2 c d :
  newClient splitHostPort config tls host created r1 r r2 = Ret c -> rtc dial_step (start_dial c) d ->
  (length (dl_sessions d) <= 1)%nat /\ Forall (fun a => ca_version a = VersionTLS) (dl_sessions d) /\ (dl_handshakeChan d <= 1)%nat /\
  cl_receivedVersionNegotiationPacket (dl_client d) = false.
Proof.
  intros (Ec & Ev & Hv & Hf & _)%newClient_ok Hs. destruct (dial_reachable_ok c d Hf Hs) as [K1 K2 _ _ K5 K6 _ _]. rewrite Ec, Ev in *.
  rewrite Forall_forall in Hv. assert (Hn : cl_receivedVersionNegotiationPacket (dl_client d) = false).
  { apply not_true_iff_false. intros (v & Hin & Hne)%K6. by apply Hne, Hv. }
  rewrite Hn in K1. cbn in K1. split_and!; [lia| |lia|done]. eapply Forall_impl; [exact K5|]. cbn. intros a [->|Ha]%elem_of_cons; [done|by apply Hv].
Qed.

Lemma choose_one v l : ChooseSupportedVersion [v] l = if existsb (fun x => x =? v) l then (v, true) else (0, false).
Proof. cbn. assert (E : existsb (fun x => v =? x) l = existsb (fun x => x =? v) l) by (induction l; cbn; congruence || by rewrite Z.eqb_sym, IHl). by rewrite E. Qed.

Section Negotiation.
Context (tlib : tokenLibrary) (lib : cryptoLibrary) {Hd Sv : Type} (m : packetHandlerMap Hd Sv) (mac : bytes -> bytes)
  (newSession : sessionArgs -> outcome unit).

(** C13. Version negotiation end to end: a server that does not have the version of a packet answers with its versions, and makes no session.
    The client that sent the packet recognizes the answer; it starts over with the first of its versions that the
    server has, or gives up when there is none. An answer that repeats is ignored, and so is one after any other packet
    of the server. *)
Theorem version_negotiation_understood s now rnd p hdr packet rest c remote t0 b0 pn :
  bytes_ok (dg_data p) -> MinInitialPacketSize <= Z.of_nat (length (dg_data p)) -> 0 <= fc_ConnectionIDLength (sv_config s) ->
  ParsePacket (dg_data p) (fc_ConnectionIDLength (sv_config s)) = Ret (hdr, packet, rest) -> hd_IsLongHeader hdr = true ->
  IsSupportedVersion (fc_Versions (sv_config s)) (hd_Version hdr) = false ->
  Forall is_uint32 (fc_Versions (sv_config s)) -> Forall (fun v => reserved v = false) (fc_Versions (sv_config s)) ->
  is_uint8 (rn_negotiation rnd).1.1 ->
  cl_version c = hd_Version hdr -> reserved (cl_version c) = false -> Forall (fun v => reserved v = false) (fc_Versions (cl_config c)) ->
  cl_receivedVersionNegotiationPacket c = false -> cl_versionNegotiated c = false ->
  exists data, handlePacketImpl tlib lib m mac newSession s now rnd p = Ret (mkServed [data] None) /\
    client_handlePacket c (mkDatagram remote t0 b0 data) = (c, inr data) /\
    exists c' calls, handleVersionNegotiationPacket c data pn = Ret (c', calls) /\
      match ChooseSupportedVersion (fc_Versions (cl_config c)) (fc_Versions (sv_config s)) with
      | (v, true) => calls = [SessionCloseForRecreating] /\ cl_version c' = v /\ cl_initialVersion c' = cl_version c /\ cl_initialPacketNumber c' = pn /\
                     handleVersionNegotiationPacket c' data pn = Ret (c', [])
      | (_, false) => c' = c /\ exists e, calls = [SessionDestroy e]
      end.
Proof.
  intros Hb Hlen Hn Ep Hl Hv Hu Hr Ht Ecv Hrv Hrc Hf Hng. destruct (ParsePacket_ids _ _ _ _ _ Hb Hn Ep Hl) as [Hdst Hsrc].
  destruct (rn_negotiation rnd) as [[t r] b] eqn:En.
  destruct (version_negotiation_roundtrip t r b _ _ _ (fc_Versions (cl_config c)) 0 Ht Hsrc Hdst Hu Hr Hrc) as (data & h & Ed & Evn & Eh & _ & _ & _ & _ & Ech).
  destruct (version_negotiation_roundtrip t r b _ _ _ [cl_version c] 0 Ht Hsrc Hdst Hu Hr ltac:(by constructor)) as (data' & h' & Ed' & _ & Eh' & _ & _ & _ & _ & Ech').
  rewrite Ed in Ed'. injection Ed' as <-. rewrite Eh in Eh'. injection Eh' as <-.
  exists data. split; [|split].
  { unfold handlePacketImpl. rewrite (proj2 (Z.ltb_ge _ _)), Ep, Hl, Hv by done. cbn [negb]. unfold sendVersionNegotiationPacket. by rewrite En, Ed. }
  { unfold client_handlePacket. cbn. by rewrite Evn. }
  rewrite !choose_one in Ech'. unfold IsSupportedVersion in Hv. rewrite <- Ecv in Hv. rewrite Hv in Ech'.
  assert (Ex : existsb (fun v => v =? cl_version c) (hd_SupportedVersions h) = false) by (apply not_true_iff_false; intros Ex; by rewrite Ex in Ech').
  unfold handleVersionNegotiationPacket at 1. rewrite Eh, Hf, Hng, Ex, Ech. cbn [orb].
  destruct (ChooseSupportedVersion _ (fc_Versions (sv_config s))) as [v []]; do 2 eexists; (split; [reflexivity|]); [|by split; [|eexists]].
  split_and!; try done. unfold handleVersionNegotiationPacket. by rewrite Eh.
Qed.

End Negotiation.
