(* ===== verification/ServerExamples.v ===== *)
(** * Connecting: examples

    A client dials a server whose Go library is a small one that satisfies the laws; the theorems about routing, accepting and dialing are
    applied to them. *)

From S2P Require Import Prelude BBR VarInt Protocol GoFloat AckFrame Frames SentHistory SentPacketHandler Headers Aead PacketPacker TransportParameters CryptoSetup Session PacketHandlers Tokens Server ServerProperties Client.

#[local] Existing Instance amd64.
#[local] Instance example_controller : SendAlgorithm bbrSender := bbr_algorithm (fun _ => 0) (fun _ => 0).
#[local] Instance example_handshake : CryptoStreamHandler system := setup_handler demo_library.

(** ** A library *)

Definition demo_marshal (t : token) : bytes :=
  Z.b2z (at_IsRetryToken t) :: at_Timestamp t :: Z.of_nat (length (at_RemoteAddr t)) :: at_RemoteAddr t ++ at_OriginalDestConnectionID t.
Definition demo_unmarshal (data : bytes) : outcome (token * bytes) :=
  match data with
  | retry :: timestamp :: n :: rest => Ret (mkAsn1Token (retry =? 1) (take (Z.to_nat n) rest) timestamp (drop (Z.to_nat n) rest), [])
  | _ => Error EOF
  end.
Definition demo_tokens : tokenLibrary :=
  mkTokenLibrary (fun secret salt info n => repeat 0 n) (fun key => Ret demo_aead) (fun t => Ret (demo_marshal t)) demo_unmarshal (fun ip => ip).

#[local] Instance demo_tokens_laws : TokenLibraryLaws demo_tokens.
Proof.
  split.
  - intros [retry addr ts orig] Ht. eexists. split; [reflexivity|]. cbn. rewrite Nat2Z.id, take_app_length, drop_app_length. by destruct retry.
  - intros key _. exists demo_aead. split_and!; [done|apply _|]. intros nonce c ad msg. cbn. by case_bool_decide.
  - intros data msg. cbn. unfold demo_unmarshal. by repeat case_match.
  - intros. cbn. by rewrite repeat_length.
Qed.

(** ** A server, a client, and its first packet *)

Definition demo_mac (b : bytes) : bytes := repeat 9 32.
Lemma demo_mac_length b : length (demo_mac b) = 32%nat.
Proof. done. Qed.
Definition demo_map : packetHandlerMap nat nat := SetServer (newPacketHandlerMap 4 [1]) 0%nat.
Definition demo_newSession (args : sessionArgs) : outcome unit := Ret tt.
Definition demo_server : server := mkServer (populateServerConfig demo_tokens None) [1; 2; 3] 0.
Definition demo_random : randomness := mkRandomness (fun _ => 6) (repeat 1 32) (repeat 2 16) (192, 3, 5).
Definition demo_first : bytes :=
  [0xc3; 0x51; 0x47; 0x4f; 0xff; 0x51; 1; 2; 3; 4; 5; 6; 7; 8; 9; 9; 9; 9; 0; 0x44; 0x9b] ++ repeat 7 1179.
Definition demo_addr : netAddr := UDPAddr [10; 0; 0; 1] 4433.
(** A moment after 1970. *)
Definition demo_now : time := unixEpoch + 1 * Second.

Definition demo_first_packet : datagram netAddr := mkDatagram demo_addr demo_now 1 demo_first.
Definition demo_header : Header :=
  match ParsePacket demo_first 4 with Ret (h, _, _) => h | _ => zero_header end.
Definition demo_client_core : core (C := bbrSender) (H := system) :=
  new_core PerspectiveClient IPv4Addr (hd_DestConnectionID demo_header) [9; 9; 9; 9] (session_config zero_config) 0 VersionTLS
    (mkSystem demo_setup [] None Returned [] [] []) (NewBBRSender InitialCongestionWindow DefaultBBRMaxCongestionWindow) (fun _ => 1000) (Ret [9]) [] (1 * Second).

Lemma demo_config_ok : config_ok (sv_config demo_server).
Proof.
  split; try (by vm_compute); [|by eexists]. intros v Hv. unfold IsSupportedVersion in Hv.
  apply existsb_exists in Hv as (x & [<-|[]] & Ex). by apply Z.eqb_eq in Ex.
Qed.

Lemma demo_random_ok : random_ok demo_random.
Proof. by split. Qed.

Lemma padded_ok l n : bytes_ok l -> bytes_ok (l ++ repeat 7 n).
Proof. intros Hl. apply Forall_app. split; [done|]. apply Forall_forall. intros x Hx%list_elem_of_In%repeat_spec. subst x. unfold is_uint8. lia. Qed.

Lemma demo_first_ok : bytes_ok demo_first.
Proof. apply padded_ok. repeat constructor; unfold is_uint8; lia. Qed.

Lemma demo_initial : initial demo_server demo_first_packet demo_header.
Proof.
  split; [exact demo_first_ok|vm_compute; done|exists demo_first, []; vm_compute; reflexivity|vm_compute; reflexivity..].
Qed.

Lemma demo_waiting : waiting demo_client_core (hd_DestConnectionID demo_header).
Proof. split; [vm_compute; reflexivity..|]. eexists. vm_compute. reflexivity. Qed.

Lemma retry_validates_address_witness : exists data rh c',
  handlePacketImpl demo_tokens demo_library demo_map demo_mac demo_newSession demo_server demo_now demo_random demo_first_packet = Ret (mkServed [data] None) /\
  ParsePacket data 4 = Ret (rh, data, []) /\ handleRetryPacket demo_client_core rh = Ret (c', true).
Proof.
  destruct (retry_validates_address demo_tokens demo_library demo_map demo_mac demo_newSession demo_mac_length demo_server demo_now demo_random
    demo_first_packet demo_header demo_client_core 4) as (data & rh & c' & E1 & E2 & _ & _ & E3 & _); [exact demo_config_ok|reflexivity|exact demo_initial|..].
  - vm_compute. reflexivity.
  - vm_compute. discriminate.
  - exact demo_random_ok.
  - by vm_compute.
  - exact demo_waiting.
  - vm_compute. discriminate.
  - exists data, rh, c'. split; [exact E1|]. split; [exact E2|exact E3].
Defined.

(** A server that accepts everyone, but is busy. *)
Definition demo_busy : server :=
  mkServer (sv_config demo_server <| fc_AcceptToken := Some (fun _ _ _ => true) |>) [1; 2; 3] 32.

Lemma busy_server_understood_witness : exists raw h eh u' plain,
  handlePacketImpl demo_tokens demo_library demo_map demo_mac demo_newSession demo_busy demo_now demo_random demo_first_packet = Ret (mkServed [raw] None) /\
  ParsePacket raw 4 = Ret (h, raw, []) /\
  Unpack (fun _ => Ret (mkOpener demo_aead demo_block false)) (mkPacketUnpacker 0) h raw = (u', Ret (mkUnpackedPacket 0 eh EncryptionInitial plain)) /\
  parse_frames (S (length plain)) AckDelayExponent EncryptionInitial plain = Ret [FConnectionClose busy_frame].
Proof.
  apply (busy_server_understood demo_tokens demo_library demo_map demo_mac demo_newSession demo_busy demo_now demo_random demo_first_packet
    demo_header None [] (fun _ _ _ => true) (mkSealer demo_aead demo_block false) (mkOpener demo_aead demo_block false)
    (mkSealer demo_aead demo_block false) (mkOpener demo_aead demo_block false) (mkPacketUnpacker 0) 4).
  - destruct demo_config_ok. split; done.
  - destruct demo_initial. split; done.
  - vm_compute. discriminate.
  - vm_compute. reflexivity.
  - reflexivity.
  - reflexivity.
  - cbn. unfold MaxAcceptQueueSize. lia.
  - reflexivity.
  - reflexivity.
  - apply demo_aead_laws.
  - apply demo_block_laws.
  - cbn. lia.
Defined.

Lemma demo_keys id : exists ss os, NewInitialAEAD demo_library id PerspectiveServer = Ret (ss, os) /\ AEADLaws (sl_aead ss) /\ BlockLaws (sl_hpEncrypter ss).
Proof. do 2 eexists. split; [reflexivity|]. split; apply _. Qed.

Lemma server_answers_any_witness : exists r,
  handlePacketImpl demo_tokens demo_library demo_map demo_mac demo_newSession demo_server demo_now demo_random demo_first_packet = Ret r /\
  (length (sd_sent r) <= 1)%nat.
Proof.
  destruct (server_answers_any demo_tokens demo_library demo_map demo_mac demo_newSession demo_keys (fun _ _ => ltac:(discriminate)) demo_server demo_now
    demo_random demo_first_packet (defaultAcceptToken demo_tokens)) as (r & E & Hl & _).
  - exact demo_first_ok.
  - exact demo_config_ok.
  - exact demo_random_ok.
  - by vm_compute.
  - reflexivity.
  - exists r. split; [exact E|exact Hl].
Defined.

(** ** Routing *)

Lemma datagrams_routed_witness : exists calls, PacketHandlers.handlePacket demo_map demo_first_packet = Ret calls /\ calls = [ServerPacket 0%nat demo_first_packet].
Proof.
  destruct (datagrams_routed demo_map demo_first_packet demo_first_ok ltac:(cbn; lia)) as (calls & E & _). exists calls. split; [exact E|].
  vm_compute in E. injection E as <-. reflexivity.
Defined.

Definition demo_short : datagram netAddr := mkDatagram demo_addr demo_now 1 (0x45 :: repeat 3 60).
Definition demo_client_map : packetHandlerMap nat nat := AddResetToken (newPacketHandlerMap 0 []) (repeat 9 16) 5%nat.

Lemma stateless_reset_roundtrip_witness : exists data, maybeSendStatelessReset demo_mac (repeat 1 23) demo_map demo_short [3; 3; 3; 3] = Some data /\
  PacketHandlers.handlePacket demo_client_map (mkDatagram demo_addr (2 * Second) 2 data) = Ret [HandlerDestroy 5%nat (ErrorString "received a stateless reset")].
Proof.
  assert (E : maybeSendStatelessReset demo_mac (repeat 1 23) demo_map demo_short [3; 3; 3; 3] = Some ((0x41 :: repeat 1 22) ++ repeat 9 16)) by (vm_compute; reflexivity).
  destruct (stateless_reset_roundtrip demo_mac (repeat 1 23) demo_map demo_client_map demo_short (mkDatagram demo_addr (2 * Second) 2 ((0x41 :: repeat 1 22) ++ repeat 9 16))
    [3; 3; 3; 3] 5%nat) as (data & E1 & H & _); try (vm_compute; reflexivity).
  - by vm_compute.
  - rewrite E in E1. injection E1 as <-. eexists. split; [exact E|]. apply H. reflexivity.
Defined.

(** ** Dialing *)

Definition demo_dialer : client :=
  match newClient (fun host => Ret host) (populateClientConfig None false) None "localhost" false (fun _ => 1) 3 (fun _ => 2) with
  | Ret c => c
  | _ => mkClient false false false [] (mkTlsConfig EmptyString []) zero_config [] [] 0 0 0 None
  end.
Definition demo_dialed : dialing :=
  let c := (createNewTLSSession (fun _ => None) demo_dialer).1 in
  mkDialing c DialSelect Runs None true 1 [] (option_list (cl_session c)) false.

Lemma demo_dial_steps : rtc dial_step (start_dial demo_dialer) demo_dialed.
Proof.
  eapply rtc_l; [by apply (dial_create (fun _ => None) _ (createNewTLSSession (fun _ => None) demo_dialer).1)|].
  eapply rtc_l; [by apply dial_handshake|]. apply rtc_refl.
Qed.

Lemma client_dials_once_witness : dl_handshakeChan demo_dialed = 1%nat /\ (dl_handshakeChan demo_dialed <= 1)%nat.
Proof.
  split; [reflexivity|].
  apply (client_dials_once (fun host => Ret host) (populateClientConfig None false) None "localhost" false (fun _ => 1) 3 (fun _ => 2) demo_dialer demo_dialed);
    [vm_compute; reflexivity|exact demo_dial_steps].
Defined.

Lemma dial_recreates_once_witness : length (dl_sessions demo_dialed) = 1%nat /\ (length (dl_sessions demo_dialed) <= 2)%nat.
Proof. split; [reflexivity|]. apply (dial_recreates_once demo_dialer demo_dialed eq_refl demo_dial_steps). Defined.

(** A client of another version. *)
Definition demo_other : bytes := [0xc3; 0; 0; 0; 77; 0x51; 1; 2; 3; 4; 5; 6; 7; 8; 9; 9; 9; 9; 0; 0x44; 0x9b] ++ repeat 7 1179.
Lemma demo_other_ok : bytes_ok demo_other.
Proof. apply padded_ok. repeat constructor; unfold is_uint8; lia. Qed.
Definition demo_other_client : client := demo_dialer <| cl_version := 77 |> <| cl_config := populateClientConfig None false <| fc_Versions := [77; VersionTLS] |> |>.

Lemma version_negotiation_understood_witness : exists data c' calls,
  handlePacketImpl demo_tokens demo_library demo_map demo_mac demo_newSession demo_server demo_now demo_random (mkDatagram demo_addr demo_now 1 demo_other) =
    Ret (mkServed [data] None) /\
  handleVersionNegotiationPacket demo_other_client data 7 = Ret (c', calls) /\ cl_version c' = VersionTLS.
Proof.
  destruct (version_negotiation_understood demo_tokens demo_library demo_map demo_mac demo_newSession demo_server demo_now demo_random
    (mkDatagram demo_addr demo_now 1 demo_other) (match ParsePacket demo_other 4 with Ret (h, _, _) => h | _ => zero_header end) [] []
    demo_other_client demo_addr (2 * Second) 2%nat 7) as (data & E & _ & c' & calls & E1 & E2).
  - exact demo_other_ok.
  - vm_compute. discriminate.
  - vm_compute. discriminate.
  - vm_compute. reflexivity.
  - vm_compute. reflexivity.
  - vm_compute. reflexivity.
  - repeat constructor; by vm_compute.
  - repeat constructor.
  - by vm_compute.
  - vm_compute. reflexivity.
  - vm_compute. reflexivity.
  - repeat constructor.
  - reflexivity.
  - reflexivity.
  - exists data, c', calls. split; [exact E|]. split; [exact E1|]. apply E2.
Defined.

Lemma server_error_once_witness : exists c, rtc closing_step (start_closing true) c /\ cg_errorChan c = if cg_closed c then 1%nat else 0%nat.
Proof. eexists. split; [apply rtc_refl|]. apply (server_error_once true). apply rtc_refl. Defined.

(** One session was accepted, a second one was closed, and a third one waits. *)
Definition demo_accepting : accepting := mkAccepting 1 [Offered 3] [3; 2; 1]%nat [2%nat] 0 [1%nat] false 0.

Lemma demo_accepting_reachable : rtc accept_step start_accepting demo_accepting.
Proof.
  eapply rtc_l; [apply (accept_handshake _ 1); set_solver|]. eapply rtc_l; [by apply accept_settles, (settle_count _ [] 1 [])|]. eapply rtc_l; [apply accept_call|].
  eapply rtc_l; [by eapply accept_settles, (settle_session _ [] 1 [])|]. eapply rtc_l; [apply (accept_handshake _ 2); cbn; set_solver|].
  eapply rtc_l; [by apply accept_settles, (settle_count _ [OfferDone] 2 [])|]. eapply rtc_l; [apply (accept_closes _ 2)|].
  eapply rtc_l; [by apply accept_settles, (settle_uncount _ [] [Offered 2])|]. eapply rtc_l; [apply (accept_handshake _ 3); cbn; set_solver|].
  eapply rtc_l; [by apply accept_settles, (settle_count _ [Offered 2] 3 [])|]. eapply rtc_l; [apply accept_settles, (settle_closed _ [] 2 [Offered 3]); [done|cbn; set_solver]|].
  eapply rtc_l; [by apply accept_settles, (settle_uncount _ [] [Offered 3])|]. apply rtc_refl.
Qed.

Lemma demo_accepting_settled : nf settle_step demo_accepting.
Proof.
  intros [a' Hs]. remember demo_accepting as a eqn:Ea. destruct Hs as [a l1 s l2 E|a l1 s l2 n E En|a l1 s l2 E Hs|a l1 l2 E|a n En Ec]; subst a; cbn in *; try done;
    destruct l1 as [|? [|]]; simplify_eq/=; set_solver.
Qed.

Lemma sessions_accepted_once_witness :
  NoDup (ac_accepted demo_accepting) /\ exists waiting, ac_offers demo_accepting = map Offered waiting /\ ac_sessionQueueLen demo_accepting = Z.of_nat (length waiting) /\ NoDup waiting /\
    forall sess, sess ∈ waiting -> sess ∈ ac_complete demo_accepting /\ sess ∉ ac_accepted demo_accepting /\ sess ∉ ac_closed demo_accepting.
Proof.
  destruct (sessions_accepted_once demo_accepting demo_accepting_reachable) as (H1 & _ & _ & _ & H2). split; [exact H1|]. apply H2, demo_accepting_settled.
Defined.
