(* ===== verification/Http3Frames.v ===== *)
(** * HTTP/3: frames and bodies (http3/frames.go, body.go)

    The frames are read from a QUIC stream, which is used as an [io.Reader]: a call of Read returns as much as the stream has at that
    moment, and the end of the stream can come with the last bytes or after them.  Both are inputs of the model. *)

From S2P Require Import Prelude VarInt.

(** ** Streams as readers *)

Record stream := mkStream {
  str_data : bytes;                 (* what will arrive and has not been read *)
  str_end : goerr;                  (* what Read returns after that: EOF, or the error of a reset *)
  str_reads : list (nat * bool)     (* for the coming calls: how many bytes there are, and whether EOF comes with the last byte *)
}.

#[global] Instance stream_eta : Eta stream := fun s => mkStream (str_data s) (str_end s) (str_reads s).

(** [Read] with a buffer of [n] bytes. *)
Definition stream_Read (s : stream) (n : Z) : bytes * option goerr * stream :=
  let '(k, fin, reads) := match str_reads s with [] => (length (str_data s), false, []) | (k, fin) :: reads => (k, fin, reads) end in
  let s := s <| str_reads := reads |> in
  if n <=? 0 then ([], match str_data s with [] => if fin : bool then Some (str_end s) else None | _ => None end, s) else
  match str_data s with
  | [] => ([], Some (str_end s), s)
  | data =>
      let m := Z.to_nat (Z.min n (Z.max 1 (Z.of_nat k))) in
      let rest := drop m data in
      (take m data, match rest with [] => if fin && bool_decide (str_end s = EOF) then Some EOF else None | _ => None end, s <| str_data := rest |>)
  end.

(** Programs that read from a stream. *)
Definition sprog (A : Type) : Type := stream -> outcome A * stream.

#[global] Instance sprog_ret : MRet sprog := fun A a s => (Ret a, s).
#[global] Instance sprog_bind : MBind sprog := fun A B k m s =>
  match m s with
  | (Ret a, s) => k a s
  | (Error e, s) => (Error e, s)
  | (Panic msg, s) => (Panic msg, s)
  end.

Definition sfail {A} (e : goerr) : sprog A := fun s => (Error e, s).
Definition spanic {A} (msg : string) : sprog A := fun s => (Panic msg, s).

(** [byteReaderImpl.ReadByte]: a QUIC stream has no ReadByte of its own. *)
Definition stream_ReadByte : sprog byte := fun s =>
  match stream_Read s 1 with
  | (_, Some err, s) => (Error err, s)
  | (b, None, s) => (Ret (default 0 (head b)), s)
  end.

(** [utils.ReadVarInt] of a stream. *)
Definition stream_ReadVarInt : sprog Z :=
  firstByte ← stream_ReadByte;
  let len := Z.shiftl 1 (Z.shiftr (Z.land firstByte 0xc0) 6) in
  let b1 := Z.land firstByte (0xff - 0xc0) in
  if len =? 1 then mret b1 else
  b2 ← stream_ReadByte;
  if len =? 2 then mret (uint64 (b2 + Z.shiftl b1 8)) else
  b3 ← stream_ReadByte;
  b4 ← stream_ReadByte;
  if len =? 4 then mret (uint64 (b4 + Z.shiftl b3 8 + Z.shiftl b2 16 + Z.shiftl b1 24)) else
  b5 ← stream_ReadByte;
  b6 ← stream_ReadByte;
  b7 ← stream_ReadByte;
  b8 ← stream_ReadByte;
  mret (uint64 (b8 + Z.shiftl b7 8 + Z.shiftl b6 16 + Z.shiftl b5 24 + Z.shiftl b4 32 + Z.shiftl b3 40 + Z.shiftl b2 48 + Z.shiftl b1 56)).

(** [io.ReadFull] into a buffer of [n] bytes, of which [acc] has been read; a round reads a byte at least. *)
Fixpoint read_full_loop (fuel : nat) (n : Z) (acc : bytes) : sprog bytes := fun s =>
  if n <=? Z.of_nat (length acc) then (Ret acc, s) else
  match fuel with
  | O => (Panic "out of fuel", s)
  | S fuel =>
      let '(d, err, s) := stream_Read s (n - Z.of_nat (length acc)) in
      let acc := acc ++ d in
      match err with
      | None => read_full_loop fuel n acc s
      | Some e =>
          if n <=? Z.of_nat (length acc) then (Ret acc, s)
          else if (0 <? Z.of_nat (length acc)) && bool_decide (e = EOF) then (Error UnexpectedEOF, s) else (Error e, s)
      end
  end.

Definition stream_ReadFull (n : Z) : sprog bytes := fun s => read_full_loop (S (length (str_data s))) n [] s.

(** [io.CopyN(ioutil.Discard, br, n)]. *)
Fixpoint discard_loop (fuel : nat) (n : Z) : sprog unit := fun s =>
  if n <=? 0 then (Ret tt, s) else
  match fuel with
  | O => (Panic "out of fuel", s)
  | S fuel =>
      let '(d, err, s) := stream_Read s (Z.min 8192 n) in
      let n := n - Z.of_nat (length d) in
      match err with
      | None => discard_loop fuel n s
      | Some e => if n <=? 0 then (Ret tt, s) else (Error e, s)
      end
  end.

Definition discard (n : Z) : sprog unit := fun s => discard_loop (S (length (str_data s))) n s.

(** ** Frames *)

Inductive frame :=
| dataFrame (Length : Z)
| headersFrame (Length : Z)
| settingsFrame (settings : gmap Z Z).

Fixpoint parse_settings (fuel : nat) (settings : gmap Z Z) : reader (gmap Z Z) := fun b =>
  match b with
  | [] => Ret (settings, [])
  | _ =>
      match fuel with
      | O => Panic "out of fuel"
      | S fuel =>
          (id ← ReadVarInt;
           val ← ReadVarInt;
           match settings !! id with
           | Some _ => fail (Errorf "duplicate setting: %d" [id])
           | None => parse_settings fuel (<[id := val]> settings)
           end) b
      end
  end.

Definition parseSettingsFrame (l : Z) : sprog frame :=
  if 8 * Z.shiftl 1 10 <? l then sfail (Errorf "unexpected size for SETTINGS frame: %d" [l]) else fun s =>
  match stream_ReadFull l s with
  | (Error UnexpectedEOF, s) => (Error EOF, s)
  | (Error e, s) => (Error e, s)
  | (Panic msg, s) => (Panic msg, s)
  | (Ret buf, s) =>
      match parse_settings (length buf) ∅ buf with
      | Ret (settings, _) => (Ret (settingsFrame settings), s)
      | Error e => (Error e, s)
      | Panic msg => (Panic msg, s)
      end
  end.

(** A frame that is skipped takes two bytes at least. *)
Fixpoint parse_next (fuel : nat) : sprog frame :=
  match fuel with
  | O => spanic "out of fuel"
  | S fuel =>
      t ← stream_ReadVarInt;
      l ← stream_ReadVarInt;
      if t =? 0x0 then mret (dataFrame l)
      else if t =? 0x1 then mret (headersFrame l)
      else if t =? 0x4 then parseSettingsFrame l
      else
        (* skip over unknown frames *)
        _ ← discard l;
        parse_next fuel
  end.

Definition parseNextFrame : sprog frame := fun s => parse_next (S (length (str_data s))) s.

Definition dataFrame_Write (b : bytes) (l : Z) : outcome bytes :=
  b ← WriteVarInt b 0x0;
  WriteVarInt b l.

Definition headersFrame_Write (b : bytes) (l : Z) : outcome bytes :=
  b ← WriteVarInt b 0x1;
  WriteVarInt b l.

Fixpoint settings_length (l : list (Z * Z)) : outcome Z :=
  match l with
  | [] => mret 0
  | (id, val) :: l => a ← VarIntLen id; b ← VarIntLen val; n ← settings_length l; mret (a + b + n)
  end.

Fixpoint write_settings (b : bytes) (l : list (Z * Z)) : outcome bytes :=
  match l with
  | [] => mret b
  | (id, val) :: l => b ← WriteVarInt b id; b ← WriteVarInt b val; write_settings b l
  end.

(** [order1] and [order2] are the orders of the two iterations over the map. *)
Definition settingsFrame_Write (order1 order2 : gmap Z Z -> list (Z * Z)) (b : bytes) (settings : gmap Z Z) : outcome bytes :=
  b ← WriteVarInt b 0x4;
  l ← settings_length (order1 settings);
  b ← WriteVarInt b l;
  write_settings b (order2 settings).

(** ** Bodies (body.go) *)

Record body := mkBody {
  bd_str : stream;
  bd_isRequest : bool;
  bd_bytesRemainingInFrame : Z
}.

#[global] Instance body_eta : Eta body := fun b => mkBody (bd_str b) (bd_isRequest b) (bd_bytesRemainingInFrame b).

Definition newRequestBody (str : stream) : body := mkBody str true 0.
Definition newResponseBody (str : stream) : body := mkBody str false 0.

(** The loop that finds the next DATA frame, and gives its length. *)
Fixpoint next_data (fuel : nat) : sprog Z :=
  match fuel with
  | O => spanic "out of fuel"
  | S fuel =>
      f ← parseNextFrame;
      match f with
      | headersFrame _ => next_data fuel
      | dataFrame l => mret l
      | settingsFrame _ => sfail (ErrorString "unexpected frame")
      end
  end.

(** [Read] with a buffer of [n] bytes returns bytes and an error, if there is one. *)
Definition body_Read (r : body) (n : Z) : outcome (bytes * option goerr) * body :=
  let '(res, r) := if bd_bytesRemainingInFrame r =? 0 then
                     match next_data (S (length (str_data (bd_str r)))) (bd_str r) with
                     | (Ret l, s) => (Ret tt, r <| bd_str := s |> <| bd_bytesRemainingInFrame := l |>)
                     | (Error e, s) => (Error e, r <| bd_str := s |>)
                     | (Panic msg, s) => (Panic msg, r <| bd_str := s |>)
                     end
                   else (Ret tt, r) in
  match res with
  | Error e => (Ret ([], Some e), r)
  | Panic msg => (Panic msg, r)
  | Ret _ =>
      let '(d, err, s) := stream_Read (bd_str r) (if bd_bytesRemainingInFrame r <? n then bd_bytesRemainingInFrame r else n) in
      (Ret (d, err), r <| bd_str := s |> <| bd_bytesRemainingInFrame := uint64 (bd_bytesRemainingInFrame r - Z.of_nat (length d)) |>)
  end.

(** Does [Close] close the stream? *)
Definition body_Close (r : body) : bool := negb (bd_isRequest r).

(** A reader that calls [Read] until it gets an error; [sizes] are the sizes of its buffers. *)
Fixpoint read_all (fuel : nat) (sizes : nat -> Z) (r : body) : outcome (bytes * goerr) :=
  match fuel with
  | O => Panic "out of fuel"
  | S fuel =>
      match body_Read r (sizes fuel) with
      | (Ret (d, Some e), _) => mret (d, e)
      | (Ret (d, None), r) => '(d', e) ← read_all fuel sizes r; mret (d ++ d', e)
      | (Error e, _) => Error e
      | (Panic msg, _) => Panic msg
      end
  end.

(** ** Reading from a stream: properties *)

Lemma stream_Read_data s n :
  0 < n -> str_data s <> [] -> exists d rest err s', stream_Read s n = (d, err, s') /\ str_data s = d ++ rest /\ d <> [] /\ Z.of_nat (length d) <= n /\
    str_data s' = rest /\ str_end s' = str_end s /\ (err = None \/ err = Some EOF /\ rest = [] /\ str_end s = EOF).
Proof.
  intros Hn Hd. unfold stream_Read. destruct (match str_reads s with [] => _ | _ => _ end) as [[k fin] reads]. rewrite (proj2 (Z.leb_gt _ _)) by lia. cbn.
  destruct (str_data s) as [|b data] eqn:E; [done|]. set (m := Z.to_nat _). assert (Hm : (0 < m)%nat /\ Z.of_nat m <= n) by lia. clearbody m.
  exists (take m (b :: data)), (drop m (b :: data)). do 2 eexists. split; [reflexivity|]. cbn [str_data str_end]. split_and!.
  - by rewrite take_drop.
  - destruct m; [lia|done].
  - rewrite length_take. lia.
  - done.
  - done.
  - destruct (drop m (b :: data)); [|by left]. destruct fin; cbn; [|by left]. case_bool_decide; [by right|by left].
Qed.

Lemma stream_Read_end s n : 0 < n -> str_data s = [] -> exists s', stream_Read s n = ([], Some (str_end s), s') /\ str_data s' = [] /\ str_end s' = str_end s.
Proof.
  intros Hn Hd. unfold stream_Read. destruct (match str_reads s with [] => _ | _ => _ end) as [[k fin] reads]. rewrite (proj2 (Z.leb_gt _ _)) by lia. cbn.
  rewrite Hd. eexists. split; [reflexivity|]. done.
Qed.

(** What every program that reads from a stream does: it does not panic, and takes bytes from the front. *)
Definition reads {A} (p : sprog A) : Prop := forall s, let '(res, s') := p s in
  (forall msg, res <> Panic msg) /\ str_end s' = str_end s /\ exists d, str_data s = d ++ str_data s'.

Lemma reads_bind {A B} (p : sprog A) (k : A -> sprog B) : reads p -> (forall a, reads (k a)) -> reads (p ≫= k).
Proof.
  intros Hp Hk s. unfold mbind, sprog_bind. specialize (Hp s).
  destruct (p s) as [[a|e|msg] s1]; [|by destruct Hp as (_ & ? & ?); split_and!|by destruct Hp as (Hn & _); destruct (Hn msg)].
  destruct Hp as (_ & He & d & Hd). specialize (Hk a s1). destruct (k a s1) as [res s2]. destruct Hk as (Hn & He2 & d2 & Hd2).
  split_and!; [done|by rewrite He2|]. exists (d ++ d2). by rewrite Hd, Hd2, app_assoc.
Qed.

Lemma sprog_bind_ret {A B} (p : sprog A) (k : A -> sprog B) s a s' : p s = (Ret a, s') -> (p ≫= k) s = k a s'.
Proof. unfold mbind, sprog_bind. by intros ->. Qed.

Lemma sprog_bind_error {A B} (p : sprog A) (k : A -> sprog B) s e s' : p s = (Error e, s') -> (p ≫= k) s = (Error e, s').
Proof. unfold mbind, sprog_bind. by intros ->. Qed.

Lemma reads_ret {A} (a : A) : reads (mret a).
Proof. intros s. cbn. split_and!; [done|done|by exists []]. Qed.

Lemma reads_fail {A} e : reads (sfail (A := A) e).
Proof. intros s. cbn. split_and!; [done|done|by exists []]. Qed.

Lemma ReadByte_cases s :
  match str_data s with
  | [] => exists s', stream_ReadByte s = (Error (str_end s), s') /\ str_data s' = [] /\ str_end s' = str_end s
  | b :: rest => exists s', str_data s' = rest /\ str_end s' = str_end s /\
      (stream_ReadByte s = (Ret b, s') \/ stream_ReadByte s = (Error EOF, s') /\ rest = [] /\ str_end s = EOF)
  end.
Proof.
  unfold stream_ReadByte. destruct (str_data s) as [|b rest] eqn:E.
  - destruct (stream_Read_end s 1 ltac:(lia) E) as (s' & -> & ?). by exists s'.
  - destruct (stream_Read_data s 1) as (d & r & err & s' & -> & Hd & Hne & Hl & Hs & He & Herr); [lia|by rewrite E|].
    rewrite E in Hd. destruct d as [|x [|y d]]; [done| |cbn in Hl; lia]. injection Hd as <- ->. exists s'. split_and!; [done|done|].
    destruct Herr as [->|(-> & -> & Hee)]; [by left|by right].
Qed.

Lemma reads_byte : reads stream_ReadByte.
Proof.
  intros s. pose proof (ReadByte_cases s) as Hc. destruct (str_data s) as [|b rest].
  - destruct Hc as (s' & -> & Hd & He). split_and!; [done|done|]. exists []. by rewrite Hd.
  - destruct Hc as (s' & Hd & He & [->|(-> & _ & _)]); (split_and!; [done|done|exists [b]; by rewrite Hd]).
Qed.

Lemma reads_varint : reads stream_ReadVarInt.
Proof.
  unfold stream_ReadVarInt. repeat first [apply reads_bind; [apply reads_byte|intros ?; cbv zeta] | apply reads_ret | case_if].
Qed.

(** A program does what a reader of bytes does; but when the reader takes the last byte of the stream and EOF comes with it, the program
    can miss that byte. *)
Definition follows {A} (p : sprog A) (m : reader A) : Prop :=
  (forall d a rest, m d = Ret (a, rest) -> exists x, d = x ++ rest) /\
  forall s a rest, m (str_data s) = Ret (a, rest) -> exists s', str_data s' = rest /\ str_end s' = str_end s /\
    (p s = (Ret a, s') \/ p s = (Error EOF, s') /\ rest = [] /\ str_end s = EOF).

Lemma follows_bind {A B} (p : sprog A) (m : reader A) (k : A -> sprog B) (h : A -> reader B) :
  follows p m -> (forall a, follows (k a) (h a)) -> follows (p ≫= k) (m ≫= h).
Proof.
  intros [Hs Hf] Hk. split.
  - intros d b rest E. apply reader_bind_Ret in E as (a & r1 & Em & Eh). destruct (Hs _ _ _ Em) as [x ->]. destruct (proj1 (Hk a) _ _ _ Eh) as [y ->].
    exists (x ++ y). by rewrite app_assoc.
  - intros s b rest E. apply reader_bind_Ret in E as (a & r1 & Em & Eh). destruct (Hf s a r1 Em) as (s1 & Hd & He & Hp). unfold mbind, sprog_bind.
    destruct Hp as [->|(-> & -> & Hee)].
    + rewrite <- Hd in Eh. destruct (proj2 (Hk a) s1 b rest Eh) as (s2 & Hd2 & He2 & Hc). rewrite He in Hc, He2. by exists s2.
    + destruct (proj1 (Hk a) _ _ _ Eh) as [x Hx]. symmetry in Hx. apply app_eq_nil in Hx as [_ ->]. exists s1. split_and!; [done|done|by right].
Qed.

Lemma follows_ret {A} (a : A) : follows (mret a) (mret a).
Proof. split; [intros d b rest [= <- <-]; by exists []|]. intros s b rest [= <- <-]. exists s. split_and!; [done|done|by left]. Qed.

Lemma follows_byte : follows stream_ReadByte ReadByte.
Proof.
  split; [intros [|b d] a rest; [done|]; intros [= <- <-]; by exists [b]|]. intros s a rest E. pose proof (ReadByte_cases s) as Hc.
  destruct (str_data s) as [|b r]; [done|]. injection E as <- <-. exact Hc.
Qed.

Lemma follows_varint : follows stream_ReadVarInt ReadVarInt.
Proof.
  unfold stream_ReadVarInt, ReadVarInt. repeat first [apply follows_bind; [apply follows_byte|intros ?; cbv zeta] | apply follows_ret | case_if].
Qed.

Lemma read_varint s i rest : is_varint i -> str_data s = varint_bytes i ++ rest -> exists s', str_data s' = rest /\ str_end s' = str_end s /\
  (stream_ReadVarInt s = (Ret i, s') \/ stream_ReadVarInt s = (Error EOF, s') /\ rest = [] /\ str_end s = EOF).
Proof. intros Hi Hd. apply follows_varint. rewrite Hd. by apply ReadVarInt_varint_bytes. Qed.

(** *** Blocks of bytes *)

Lemma reads_full_loop fuel n acc s :
  (length (str_data s) < fuel)%nat -> let '(res, s') := read_full_loop fuel n acc s in
  (forall msg, res <> Panic msg) /\ str_end s' = str_end s /\ exists d, str_data s = d ++ str_data s' /\
  match res with
  | Ret b => b = acc ++ d /\ Z.of_nat (length b) = Z.max n (Z.of_nat (length acc))
  | _ => str_data s' = [] /\ Z.of_nat (length acc + length d) < n
  end.
Proof.
  revert acc s. induction fuel as [|fuel IH]; intros acc s Hf; [lia|]. cbn [read_full_loop]. destruct (Z.leb_spec n (Z.of_nat (length acc))) as [Hn|Hn].
  { split_and!; [done|done|]. exists []. rewrite app_nil_r. split_and!; [done|done|lia]. }
  destruct (decide (str_data s = [])) as [Hd|Hd].
  { destruct (stream_Read_end s (n - Z.of_nat (length acc)) ltac:(lia) Hd) as (s' & -> & Hd' & He'). rewrite app_nil_r, (proj2 (Z.leb_gt _ _)) by lia.
    case_if; (split_and!; [done|done|exists []; rewrite Hd, Hd'; cbn; split_and!; [done|done|lia]]). }
  destruct (stream_Read_data s (n - Z.of_nat (length acc)) ltac:(lia) Hd) as (d & rest & err & s' & -> & Ed & Hne & Hl & Hd' & He' & Herr).
  assert (Hd0 : (0 < length d)%nat) by (destruct d; [done|cbn; lia]).
  destruct err as [e|].
  - destruct Herr as [|(_ & -> & _)]; [done|]. rewrite app_nil_r in Ed. destruct (Z.leb_spec n (Z.of_nat (length (acc ++ d)))) as [Hm|Hm]; rewrite length_app in Hm.
    + split_and!; [done|done|]. exists d. rewrite Hd', app_nil_r, length_app. split_and!; [done|done|lia].
    + case_if; (split_and!; [done|done|exists d; rewrite Hd', app_nil_r; split_and!; [done|done|lia]]).
  - specialize (IH (acc ++ d) s'). rewrite Ed, length_app, Hd' in *. specialize (IH ltac:(lia)). destruct (read_full_loop fuel n (acc ++ d) s') as [res s2].
    destruct IH as (Hn2 & He2 & d2 & Hd2 & Hres). split_and!; [done|by rewrite He2|]. exists (d ++ d2). rewrite Hd2, app_assoc. split; [done|].
    destruct res; rewrite ?length_app in *; [rewrite app_assoc; split; [apply Hres|lia]|split; [apply Hres|lia]..].
Qed.

Lemma read_full s n d rest : str_data s = d ++ rest -> Z.of_nat (length d) = n ->
  exists s', stream_ReadFull n s = (Ret d, s') /\ str_data s' = rest /\ str_end s' = str_end s.
Proof.
  intros Hd Hn. unfold stream_ReadFull. pose proof (reads_full_loop (S (length (str_data s))) n [] s ltac:(lia)) as Hr.
  destruct (read_full_loop _ n [] s) as [res s']. destruct Hr as (Hp & He & d' & Hd' & Hres). exists s'. destruct res as [b|e|msg].
  - destruct Hres as [-> Hl]. cbn in Hl. rewrite Hd in Hd'. apply app_inj_1 in Hd' as [<- <-]; [done|lia].
  - destruct Hres as [Hnil Hl]. rewrite Hnil, app_nil_r in Hd'. rewrite Hd in Hd'. subst d'. rewrite length_app in Hl. lia.
  - by destruct (Hp msg).
Qed.

Lemma reads_full n : reads (stream_ReadFull n).
Proof.
  intros s. unfold stream_ReadFull. pose proof (reads_full_loop (S (length (str_data s))) n [] s ltac:(lia)) as Hr.
  destruct (read_full_loop _ n [] s) as [res s']. destruct Hr as (Hp & He & d' & Hd' & _). eauto.
Qed.

Lemma reads_discard_loop fuel n s :
  (length (str_data s) < fuel)%nat -> let '(res, s') := discard_loop fuel n s in
  (forall msg, res <> Panic msg) /\ str_end s' = str_end s /\ exists d, str_data s = d ++ str_data s' /\
  match res with
  | Ret _ => Z.of_nat (length d) = Z.max 0 n
  | _ => str_data s' = [] /\ Z.of_nat (length d) < n
  end.
Proof.
  revert n s. induction fuel as [|fuel IH]; intros n s Hf; [lia|]. cbn [discard_loop]. destruct (Z.leb_spec n 0) as [Hn|Hn].
  { split_and!; [done|done|]. exists []. split; [done|cbn; lia]. }
  destruct (decide (str_data s = [])) as [Hd|Hd].
  { destruct (stream_Read_end s (Z.min 8192 n) ltac:(lia) Hd) as (s' & -> & Hd' & He'). cbn [length]. rewrite (proj2 (Z.leb_gt _ _)) by lia.
    split_and!; [done|done|exists []; rewrite Hd, Hd'; cbn; split_and!; [done|done|lia]]. }
  destruct (stream_Read_data s (Z.min 8192 n) ltac:(lia) Hd) as (d & rest & err & s' & -> & Ed & Hne & Hl & Hd' & He' & Herr).
  assert (Hd0 : (0 < length d)%nat) by (destruct d; [done|cbn; lia]).
  destruct err as [e|].
  - destruct Herr as [|(_ & -> & _)]; [done|]. rewrite app_nil_r in Ed. destruct (Z.leb_spec (n - Z.of_nat (length d)) 0) as [Hm|Hm];
      (split_and!; [done|done|]; exists d; rewrite Hd', app_nil_r; split_and!; done || lia).
  - specialize (IH (n - Z.of_nat (length d)) s'). rewrite Ed, length_app, Hd' in *. specialize (IH ltac:(lia)). destruct (discard_loop fuel _ s') as [res s2].
    destruct IH as (Hn2 & He2 & d2 & Hd2 & Hres). split_and!; [done|by rewrite He2|]. exists (d ++ d2). rewrite Hd2, app_assoc, length_app. split; [done|].
    destruct res; [lia|split; [apply Hres|lia]..].
Qed.

Lemma discard_bytes s d rest : str_data s = d ++ rest -> exists s', discard (Z.of_nat (length d)) s = (Ret tt, s') /\ str_data s' = rest /\ str_end s' = str_end s.
Proof.
  intros Hd. unfold discard. pose proof (reads_discard_loop (S (length (str_data s))) (Z.of_nat (length d)) s ltac:(lia)) as Hr.
  destruct (discard_loop _ _ s) as [res s']. destruct Hr as (Hp & He & d' & Hd' & Hres). exists s'. destruct res as [[]|e|msg].
  - rewrite Hd in Hd'. apply app_inj_1 in Hd' as [_ <-]; [done|lia].
  - destruct Hres as [Hnil Hl]. rewrite Hnil, app_nil_r in Hd'. rewrite Hd in Hd'. subst d'. rewrite length_app in Hl. lia.
  - by destruct (Hp msg).
Qed.

Lemma reads_discard n : reads (discard n).
Proof.
  intros s. unfold discard. pose proof (reads_discard_loop (S (length (str_data s))) n s ltac:(lia)) as Hr.
  destruct (discard_loop _ _ s) as [res s']. destruct Hr as (Hp & He & d' & Hd' & _). eauto.
Qed.

(** ** Frames: properties *)

Lemma varint_read_shorter d v r : ReadVarInt d = Ret (v, r) -> (length r < length d)%nat.
Proof.
  unfold ReadVarInt. intros E. apply reader_bind_Ret in E as (b & r1 & Eb & E). destruct d as [|x d]; [done|]. injection Eb as <- <-. cbv zeta in E. case_if_in E.
  { injection E as _ <-. cbn. lia. }
  repeat (apply reader_bind_Ret in E as (? & ? & Eb & E); match type of Eb with ReadByte ?l = _ => destruct l; [discriminate|injection Eb as <- <-] end; try case_if_in E);
    injection E as _ <-; cbn; lia.
Qed.

Lemma ReadVarInt_no_panic d msg : ReadVarInt d <> Panic msg.
Proof.
  assert (Hb : forall A (k : byte -> reader A), (forall b r msg, k b r <> Panic msg) -> forall r msg, (ReadByte ≫= k) r <> Panic msg).
  { intros A k Hk [|b r] msg'; [done|apply Hk]. }
  revert d msg. unfold ReadVarInt. repeat first [apply Hb; intros ?; cbv zeta | case_if | done].
Qed.

Lemma parse_settings_total fuel m b : (length b <= fuel)%nat -> forall msg, parse_settings fuel m b <> Panic msg.
Proof.
  revert m b. induction fuel as [|fuel IH]; intros m b Hf msg; destruct b as [|x b]; [done|cbn in Hf; lia|done|]. cbn [parse_settings].
  intros E. unfold mbind, reader_bind in E. destruct (ReadVarInt (x :: b)) as [[id r1]| |] eqn:E1; [|done|by apply ReadVarInt_no_panic in E1].
  destruct (ReadVarInt r1) as [[val r2]| |] eqn:E2; [|done|by apply ReadVarInt_no_panic in E2]. apply varint_read_shorter in E1, E2.
  destruct (m !! id); [done|]. by apply IH in E; [|cbn in *; lia].
Qed.

Lemma reads_settings l : reads (parseSettingsFrame l).
Proof.
  unfold parseSettingsFrame. case_if; [apply reads_fail|]. intros s. pose proof (reads_full l s) as Hr. destruct (stream_ReadFull l s) as [[buf|e|msg] s'].
  - destruct Hr as (_ & He & Hd). pose proof (parse_settings_total (length buf) ∅ buf ltac:(lia)) as Hp.
    destruct (parse_settings _ ∅ buf) as [[m r]| |msg]; [by split_and!..|by destruct (Hp msg)].
  - destruct e; by destruct Hr as (_ & ? & ?); split_and!.
  - by destruct Hr as (Hn & _); destruct (Hn msg).
Qed.

Lemma varint_split : exists k, stream_ReadVarInt = (stream_ReadByte ≫= k) /\ forall b, reads (k b).
Proof.
  eexists. split; [reflexivity|]. intros b. cbv beta zeta. repeat first [apply reads_bind; [apply reads_byte|intros ?; cbv zeta] | apply reads_ret | case_if].
Qed.

Lemma varint_consumes s v s' : stream_ReadVarInt s = (Ret v, s') -> (length (str_data s') < length (str_data s))%nat.
Proof.
  destruct varint_split as (k & -> & Hk). unfold mbind, sprog_bind. pose proof (ReadByte_cases s) as Hc. destruct (str_data s) as [|b rest].
  { destruct Hc as (s1 & -> & _). discriminate. }
  destruct Hc as (s1 & Hd & He & [->|(-> & _)]); [|discriminate]. intros E. specialize (Hk b s1). rewrite E in Hk. destruct Hk as (_ & _ & d & Hd2).
  rewrite Hd in Hd2. rewrite Hd2. cbn. rewrite length_app. lia.
Qed.

Lemma parse_next_reads fuel s : (length (str_data s) < fuel)%nat -> let '(res, s') := parse_next fuel s in
  (forall msg, res <> Panic msg) /\ str_end s' = str_end s /\ exists d, str_data s = d ++ str_data s'.
Proof.
  revert s. induction fuel as [|fuel IH]; intros s Hf; [lia|]. cbn [parse_next]. unfold mbind at 1, sprog_bind at 1.
  pose proof (reads_varint s) as H1. pose proof (varint_consumes s) as C1. destruct (stream_ReadVarInt s) as [[t|e|msg] s1]; [|by destruct H1 as (_ & ? & ?); split_and!|by destruct H1 as (Hn & _); destruct (Hn msg)].
  specialize (C1 t s1 eq_refl). destruct H1 as (_ & He1 & d1 & Hd1).
  unfold mbind at 1, sprog_bind at 1. pose proof (reads_varint s1) as H2. destruct (stream_ReadVarInt s1) as [[l|e|msg] s2]; [|destruct H2 as (_ & He2 & d2 & Hd2); split_and!; [done|by rewrite He2|exists (d1 ++ d2); by rewrite Hd1, Hd2, app_assoc]|by destruct H2 as (Hn & _); destruct (Hn msg)].
  destruct H2 as (_ & He2 & d2 & Hd2). cbv beta iota.
  assert (Hcont : forall (p : sprog frame), (let '(res, s') := p s2 in (forall msg, res <> Panic msg) /\ str_end s' = str_end s2 /\ exists d, str_data s2 = d ++ str_data s') ->
    let '(res, s') := p s2 in (forall msg, res <> Panic msg) /\ str_end s' = str_end s /\ exists d, str_data s = d ++ str_data s').
  { intros p Hp. destruct (p s2) as [res s']. destruct Hp as (Hn & He3 & d3 & Hd3). split_and!; [done|by rewrite He3, He2|].
    exists (d1 ++ d2 ++ d3). by rewrite Hd1, Hd2, Hd3, !app_assoc. }
  case_if; [apply (Hcont (mret (dataFrame l))), reads_ret|]. case_if; [apply (Hcont (mret (headersFrame l))), reads_ret|].
  case_if; [apply (Hcont (parseSettingsFrame l)), reads_settings|]. apply (Hcont (discard l ≫= fun _ => parse_next fuel)). unfold mbind, sprog_bind.
  pose proof (reads_discard l s2) as H3. destruct (discard l s2) as [[[]|e|msg] s3]; [|by destruct H3 as (_ & ? & ?); split_and!|by destruct H3 as (Hn & _); destruct (Hn msg)].
  destruct H3 as (_ & He3 & d3 & Hd3). specialize (IH s3). rewrite Hd1, Hd2, Hd3, !length_app in *. specialize (IH ltac:(lia)).
  destruct (parse_next fuel s3) as [res s4]. destruct IH as (Hn & He4 & d4 & Hd4). split_and!; [done|by rewrite He4|]. exists (d3 ++ d4). by rewrite Hd4, app_assoc.
Qed.

Lemma reads_frame : reads parseNextFrame.
Proof. intros s. apply parse_next_reads. lia. Qed.

(** A frame as it is on a stream. *)
Definition frame_bytes (t : Z) (payload : bytes) : bytes := varint_bytes t ++ varint_bytes (Z.of_nat (length payload)) ++ payload.

(** The frames of a body: data, and frames of types that are not known. *)
Inductive item := Data (payload : bytes) | Unknown (t : Z) (payload : bytes).

Definition item_bytes (i : item) : bytes := match i with Data p => frame_bytes 0 p | Unknown t p => frame_bytes t p end.
Definition item_data (i : item) : bytes := match i with Data p => p | Unknown _ _ => [] end.
Definition item_ok (i : item) : Prop :=
  match i with
  | Data p => is_varint (Z.of_nat (length p))
  | Unknown t p => is_varint t /\ t ∉ [0; 1; 4] /\ is_varint (Z.of_nat (length p))
  end.

Definition stream_of (items : list item) : bytes := concat (map item_bytes items).
Definition data_of (items : list item) : bytes := concat (map item_data items).

Lemma varint_bytes_nonempty i : is_varint i -> varint_bytes i <> [].
Proof. intros Hi E. pose proof (ReadVarInt_varint_bytes i [] Hi) as Hr. rewrite E in Hr. discriminate. Qed.

(** The type and the length of a frame. *)
Lemma parse_header fuel s t l rest :
  is_varint t -> is_varint l -> str_data s = varint_bytes t ++ varint_bytes l ++ rest -> exists s', str_data s' = rest /\ str_end s' = str_end s /\
  (parse_next (S fuel) s =
     (if t =? 0x0 then mret (dataFrame l) else if t =? 0x1 then mret (headersFrame l) else if t =? 0x4 then parseSettingsFrame l
      else (_ ← discard l; parse_next fuel)) s' \/
   parse_next (S fuel) s = (Error EOF, s') /\ rest = [] /\ str_end s = EOF).
Proof.
  intros Ht Hl Hd. cbn [parse_next].
  destruct (read_varint s t (varint_bytes l ++ rest) Ht Hd) as (s1 & Hd1 & He1 & [E1|(_ & Hnil & _)]).
  2: { apply app_eq_nil in Hnil as [Hnil _]. by apply varint_bytes_nonempty in Hnil. }
  rewrite (sprog_bind_ret _ _ _ _ _ E1). destruct (read_varint s1 l rest Hl Hd1) as (s2 & Hd2 & He2 & [E2|(E2 & -> & He)]); exists s2; rewrite He2, He1 in *.
  - rewrite (sprog_bind_ret _ _ _ _ _ E2). split_and!; [done|done|by left].
  - rewrite (sprog_bind_error _ _ _ _ _ E2). split_and!; [done|done|by right].
Qed.

(** Frames of unknown types are skipped. *)
Lemma parse_unknown fuel s t p rest :
  item_ok (Unknown t p) -> str_data s = frame_bytes t p ++ rest -> exists s', str_data s' = rest /\ str_end s' = str_end s /\
  (parse_next (S fuel) s = parse_next fuel s' \/ parse_next (S fuel) s = (Error EOF, s') /\ rest = [] /\ str_end s = EOF).
Proof.
  intros (Ht & Hn & Hl) Hd. unfold frame_bytes in Hd. rewrite <- !app_assoc in Hd.
  destruct (parse_header fuel s t _ _ Ht Hl Hd) as (s1 & Hd1 & He1 & [E|(E & Hnil & He)]); rewrite E.
  - assert (t <> 0 /\ t <> 1 /\ t <> 4) as (H0 & H1 & H4) by (set_unfold in Hn; naive_solver).
    rewrite (proj2 (Z.eqb_neq _ _) H0), (proj2 (Z.eqb_neq _ _) H1), (proj2 (Z.eqb_neq _ _) H4).
    destruct (discard_bytes s1 p rest Hd1) as (s2 & E2 & Hd2 & He2). rewrite (sprog_bind_ret _ _ _ _ _ E2). exists s2. rewrite He2. split_and!; [done|done|by left].
  - exists s1. apply app_eq_nil in Hnil as [-> ->]. split_and!; [done|done|by right].
Qed.

Lemma frame_bytes_length t p : is_varint t -> (0 < length (frame_bytes t p))%nat.
Proof.
  intros Ht. unfold frame_bytes. pose proof (varint_bytes_nonempty t Ht). destruct (varint_bytes t); [done|cbn; lia].
Qed.

Lemma item_bytes_length i : item_ok i -> (0 < length (item_bytes i))%nat.
Proof. destruct i; cbn [item_bytes item_ok]; intros Hi; apply frame_bytes_length; [done|apply Hi]. Qed.

Lemma stream_of_nil items : Forall item_ok items -> stream_of items = [] -> items = [].
Proof.
  intros Hok Hnil. destruct items as [|i items]; [done|]. apply Forall_cons in Hok as [Hi _]. apply item_bytes_length in Hi. unfold stream_of in Hnil. cbn [map concat] in Hnil.
  apply app_eq_nil in Hnil as [Hnil _]. rewrite Hnil in Hi. cbn in Hi. lia.
Qed.

(** The next frame of a body is the next DATA frame; without one, the body has ended. *)
Lemma parse_items fuel items s :
  Forall item_ok items -> str_data s = stream_of items -> str_end s = EOF -> (length (str_data s) < fuel)%nat -> exists s', str_end s' = EOF /\
  (parse_next fuel s = (Error EOF, s') /\ data_of items = [] \/
   exists p items', parse_next fuel s = (Ret (dataFrame (Z.of_nat (length p))), s') /\ str_data s' = p ++ stream_of items' /\
     is_varint (Z.of_nat (length p)) /\ Forall item_ok items' /\ data_of items = p ++ data_of items' /\ (length (str_data s') < length (str_data s))%nat).
Proof.
  revert s fuel. induction items as [|i items IH]; intros s fuel Hok Hd He Hf; (destruct fuel as [|fuel]; [lia|]).
  - pose proof (ReadByte_cases s) as Hc. rewrite Hd in Hc. destruct Hc as (s' & E & _ & He'). exists s'. rewrite He', He. split; [done|]. left. split; [|done].
    cbn [parse_next]. destruct varint_split as (k & -> & _). rewrite He in E. by rewrite (sprog_bind_error _ _ s EOF s'); [|by rewrite (sprog_bind_error _ _ _ _ _ E)].
  - apply Forall_cons in Hok as [Hi Hok]. unfold stream_of in Hd. cbn [map concat] in Hd. fold (stream_of items) in Hd. destruct i as [p|t p].
    + cbn [item_bytes] in Hd. unfold frame_bytes in Hd. rewrite <- !app_assoc in Hd. destruct (parse_header fuel s 0 _ _ ltac:(done) Hi Hd) as (s1 & Hd1 & He1 & [E|(E & Hnil & _)]).
      * exists s1. split; [congruence|]. right. exists p, items. split_and!; [done|done|done|done|done|]. rewrite Hd, Hd1, !length_app. cbn [length varint_bytes WriteVarInt]. cbn. lia.
      * exists s1. split; [congruence|]. left. split; [done|]. apply app_eq_nil in Hnil as [-> Hnil]. by apply stream_of_nil in Hnil as ->.
    + cbn [item_bytes] in Hd. destruct (parse_unknown fuel s t p _ Hi Hd) as (s1 & Hd1 & He1 & [E|(E & Hnil & _)]).
      * assert (Hlt : (length (str_data s1) < length (str_data s))%nat).
        { rewrite Hd, Hd1, length_app. pose proof (frame_bytes_length t p (proj1 Hi)). lia. }
        destruct (IH s1 fuel Hok Hd1 ltac:(congruence) ltac:(lia)) as (s' & He' & Hc). exists s'. split; [done|]. rewrite E. unfold data_of at 1 2. cbn. fold (data_of items).
        destruct Hc as [Hc|(q & items' & Ep & Hc1 & Hc2 & Hc3 & Hc4 & Hc5)]; [by left|right]. exists q, items'. split; [exact Ep|]. split; [exact Hc1|]. split; [exact Hc2|]. split; [exact Hc3|]. split; [exact Hc4|lia].
      * exists s1. split; [congruence|]. left. split; [done|]. by apply stream_of_nil in Hnil as ->.
Qed.

Lemma next_data_items items s :
  Forall item_ok items -> str_data s = stream_of items -> str_end s = EOF -> exists s', str_end s' = EOF /\
  (next_data (S (length (str_data s))) s = (Error EOF, s') /\ data_of items = [] \/
   exists p items', next_data (S (length (str_data s))) s = (Ret (Z.of_nat (length p)), s') /\ str_data s' = p ++ stream_of items' /\
     is_varint (Z.of_nat (length p)) /\ Forall item_ok items' /\ data_of items = p ++ data_of items' /\ (length (str_data s') < length (str_data s))%nat).
Proof.
  intros Hok Hd He. destruct (parse_items (S (length (str_data s))) items s Hok Hd He ltac:(lia)) as (s' & He' & Hc). exists s'. split; [done|]. cbn [next_data].
  destruct Hc as [[E Hn]|(p & items' & E & Hc)]; [left|right; exists p, items'].
  - split; [|done]. by rewrite (sprog_bind_error _ _ _ _ _ (E : parseNextFrame s = _)).
  - split; [|done]. by rewrite (sprog_bind_ret _ _ _ _ _ (E : parseNextFrame s = _)).
Qed.

(** A call of Read in a DATA frame, of which [p] has not been read. *)
Lemma read_in_frame s p items n :
  str_data s = p ++ stream_of items -> str_end s = EOF -> Forall item_ok items -> 1 <= n ->
  exists d p' err s', stream_Read s (if Z.of_nat (length p) <? n then Z.of_nat (length p) else n) = (d, err, s') /\
    p = d ++ p' /\ str_data s' = p' ++ stream_of items /\ str_end s' = EOF /\ (p <> [] -> d <> []) /\ (err = None \/ err = Some EOF /\ p' = [] /\ items = []).
Proof.
  intros Hd He Hok Hn. destruct (decide (p = [])) as [->|Hp].
  - cbn [length Z.of_nat]. rewrite (proj2 (Z.ltb_lt _ _)) by lia. unfold stream_Read. destruct (match str_reads s with [] => _ | _ => _ end) as [[k fin] rds].
    cbn. exists [], []. do 2 eexists. split; [reflexivity|]. cbn. split_and!; [done|done|done|done|]. rewrite Hd. cbn.
    destruct (stream_of items) eqn:Es; [|by left]. apply stream_of_nil in Es; [|done]. destruct fin; [right|by left]. by rewrite He.
  - assert (0 < Z.of_nat (length p)) by (destruct p; [done|cbn; lia]). set (k := if _ <? _ then _ else _).
    assert (Hk : 0 < k <= Z.of_nat (length p)) by (subst k; case_if; zbool; lia). clearbody k.
    destruct (stream_Read_data s k) as (d & rest & err & s' & -> & Hdr & Hne & Hl & Hd' & He' & Herr); [lia|rewrite Hd; by destruct p|].
    rewrite Hd in Hdr. assert (Ed : d = take (length d) p) by (rewrite <- (take_app_le p (stream_of items)) by lia; by rewrite Hdr, take_app_length).
    exists d, (drop (length d) p), err, s'. split; [done|]. split; [by rewrite Ed at 1; rewrite take_drop|]. split.
    + rewrite Hd'. rewrite <- (drop_app_length d rest), <- Hdr. apply drop_app_le. lia.
    + split; [congruence|]. split; [done|]. destruct Herr as [->|(-> & -> & _)]; [by left|right]. split; [done|].
      rewrite app_nil_r in Hdr. assert (Hl2 : length d = length (p ++ stream_of items)) by (by rewrite Hdr). rewrite length_app in Hl2.
      split; [apply drop_ge; lia|]. apply stream_of_nil; [done|]. apply nil_length_inv. lia.
Qed.

(** Reading a body that is in the middle of a DATA frame. *)
Lemma read_all_data fuel sizes r p items :
  (forall i, 1 <= sizes i) -> str_data (bd_str r) = p ++ stream_of items -> bd_bytesRemainingInFrame r = Z.of_nat (length p) ->
  is_varint (Z.of_nat (length p)) -> Forall item_ok items -> str_end (bd_str r) = EOF -> (length (str_data (bd_str r)) < fuel)%nat ->
  read_all fuel sizes r = Ret (p ++ data_of items, EOF).
Proof.
  intros Hsz. revert r p items. induction fuel as [|fuel IH]; intros r p items Hd Hrem Hv Hok He Hf; [lia|]. cbn [read_all].
  assert (Hstep : forall r1 p1 items1, str_data (bd_str r1) = p1 ++ stream_of items1 -> bd_bytesRemainingInFrame r1 = Z.of_nat (length p1) ->
    is_varint (Z.of_nat (length p1)) -> Forall item_ok items1 -> str_end (bd_str r1) = EOF ->
    (length (str_data (bd_str r1)) <= fuel)%nat -> (p1 = [] -> length (str_data (bd_str r1)) < fuel)%nat ->
    match (let '(d, err, s) := stream_Read (bd_str r1) (if bd_bytesRemainingInFrame r1 <? sizes fuel then bd_bytesRemainingInFrame r1 else sizes fuel) in
           (Ret (d, err), r1 <| bd_str := s |> <| bd_bytesRemainingInFrame := uint64 (bd_bytesRemainingInFrame r1 - Z.of_nat (length d)) |>)) with
    | (Ret (d, Some e), _) => mret (d, e)
    | (Ret (d, None), r) => '(d', e) ← read_all fuel sizes r; mret (d ++ d', e)
    | (Error e, _) => Error e
    | (Panic msg, _) => Panic msg
    end = Ret (p1 ++ data_of items1, EOF)).
  { intros r1 p1 items1 Hd1 Hrem1 Hv1 Hok1 He1 Hf1 Hf2. rewrite Hrem1.
    destruct (read_in_frame (bd_str r1) p1 items1 (sizes fuel) Hd1 He1 Hok1 (Hsz fuel)) as (d & p' & err & s' & -> & Ep & Hd' & He' & Hne & Herr).
    destruct Herr as [->|(-> & -> & ->)]; [|subst p1; cbn; by rewrite !app_nil_r]. subst p1.
    unfold is_varint, maxVarInt8 in Hv1. rewrite length_app in *. rewrite (IH _ p' items1); cbn; [by rewrite app_assoc|done| |unfold is_varint, maxVarInt8; lia|done|done|].
    - rewrite uint64_id by (unfold is_uint64; lia). lia.
    - rewrite Hd'. rewrite Hd1, !length_app in *. destruct d as [|x d]; [|cbn in *; lia]. destruct p' as [|y p']; [|by destruct Hne]. specialize (Hf2 eq_refl). cbn in *. lia. }
  unfold body_Read. destruct (Z.eqb_spec (bd_bytesRemainingInFrame r) 0) as [H0|H0].
  - assert (p = []) as -> by (destruct p; [done|cbn in Hrem; lia]). cbn in Hd. destruct (next_data_items items (bd_str r) Hok Hd He) as (s' & He' & [[-> Hn]|(q & items' & -> & Hd' & Hv' & Hok' & Hdata & Hlt)]).
    + by rewrite Hn.
    + rewrite Hdata. apply (Hstep (r <| bd_str := s' |> <| bd_bytesRemainingInFrame := Z.of_nat (length q) |>) q items'); cbn; done || lia.
  - apply (Hstep r p items); try done; [lia|]. intros ->. cbn in Hrem. lia.
Qed.

(** ** SETTINGS *)

Definition settings_bytes (l : list (Z * Z)) : bytes := concat (map (fun '(id, val) => varint_bytes id ++ varint_bytes val) l).
Definition settings_ok (l : list (Z * Z)) : Prop := Forall (fun '(id, val) => is_varint id /\ is_varint val) l.

Lemma write_settings_bytes b l : settings_ok l -> write_settings b l = Ret (b ++ settings_bytes l).
Proof.
  revert b. induction l as [|[id val] l IH]; intros b Hok; [by cbn; rewrite app_nil_r|]. apply Forall_cons in Hok as [[Hi Hv] Hok]. cbn [write_settings].
  rewrite (outcome_bind_eq _ _ _ (WriteVarInt_app b id Hi)), (outcome_bind_eq _ _ _ (WriteVarInt_app _ val Hv)), IH by done. unfold settings_bytes. cbn. by rewrite <- !app_assoc.
Qed.

Lemma settings_length_bytes l : settings_ok l -> settings_length l = Ret (Z.of_nat (length (settings_bytes l))).
Proof.
  induction l as [|[id val] l IH]; intros Hok; [done|]. apply Forall_cons in Hok as [[Hi Hv] Hok]. cbn [settings_length].
  rewrite (outcome_bind_eq _ _ _ (VarIntLen_length id Hi)), (outcome_bind_eq _ _ _ (VarIntLen_length val Hv)), (outcome_bind_eq _ _ _ (IH Hok)).
  unfold settings_bytes. cbn. rewrite !length_app. cbn. f_equal. lia.
Qed.

Lemma settings_bytes_perm l1 l2 : l1 ≡ₚ l2 -> length (settings_bytes l1) = length (settings_bytes l2).
Proof.
  unfold settings_bytes. induction 1 as [|[i v] l1 l2 _ IH|[i v] [j w] l|l1 l2 l3 _ IH1 _ IH2]; cbn; rewrite ?length_app; lia.
Qed.

Lemma parse_settings_bytes fuel l m :
  settings_ok l -> NoDup l.*1 -> (forall id, id ∈ l.*1 -> m !! id = None) -> (length (settings_bytes l) <= fuel)%nat ->
  parse_settings fuel m (settings_bytes l) = Ret (list_to_map l ∪ m, []).
Proof.
  revert fuel m. induction l as [|[id val] l IH]; intros fuel m Hok Hn Hm Hf.
  { cbn. by rewrite (left_id_L ∅ (∪)); destruct fuel. }
  apply Forall_cons in Hok as [[Hi Hv] Hok]. cbn in Hn. apply NoDup_cons in Hn as [Hni Hn]. unfold settings_bytes in *. cbn [map concat] in *. fold (settings_bytes l) in *.
  rewrite <- app_assoc. pose proof (varint_bytes_nonempty id Hi) as Hne. rewrite !length_app in Hf.
  destruct (varint_bytes id ++ varint_bytes val ++ settings_bytes l) as [|x b] eqn:Eb; [by apply app_eq_nil in Eb as [? _]|].
  assert (0 < length (varint_bytes id))%nat by (destruct (varint_bytes id); [done|cbn; lia]). destruct fuel as [|fuel]; [lia|]. cbn [parse_settings]. rewrite <- Eb.
  rewrite (reader_bind_eq _ _ _ _ _ (ReadVarInt_varint_bytes id _ Hi)), (reader_bind_eq _ _ _ _ _ (ReadVarInt_varint_bytes val _ Hv)), Hm by (by cbn; left).
  rewrite IH; [|done|done| |lia].
  - cbn. f_equal. f_equal. rewrite <- insert_union_l. symmetry. apply insert_union_r. apply not_elem_of_list_to_map. exact Hni.
  - intros j Hj. rewrite lookup_insert_ne; [apply Hm; by cbn; right|]. by intros ->.
Qed.

(** ** The theorems *)

(** The bytes of a frame. *)
Definition write_frame (order1 order2 : gmap Z Z -> list (Z * Z)) (f : frame) : outcome bytes :=
  match f with
  | dataFrame l => dataFrame_Write [] l
  | headersFrame l => headersFrame_Write [] l
  | settingsFrame m => settingsFrame_Write order1 order2 [] m
  end.

Definition frame_ok (f : frame) : Prop :=
  match f with
  | dataFrame l | headersFrame l => is_varint l
  | settingsFrame m => settings_ok (map_to_list m) /\ Z.of_nat (length (settings_bytes (map_to_list m))) <= 8192
  end.

Lemma settings_written order1 order2 m :
  frame_ok (settingsFrame m) -> order1 m ≡ₚ map_to_list m -> order2 m ≡ₚ map_to_list m ->
  let l := Z.of_nat (length (settings_bytes (order2 m))) in
  settings_ok (order2 m) /\ is_varint l /\ l <= 8192 /\ settingsFrame_Write order1 order2 [] m = Ret (varint_bytes 4 ++ varint_bytes l ++ settings_bytes (order2 m)).
Proof.
  intros [Hok Hl] H1 H2 l. assert (Hok1 : settings_ok (order1 m)) by (unfold settings_ok; by rewrite H1). assert (Hok2 : settings_ok (order2 m)) by (unfold settings_ok; by rewrite H2).
  assert (El : Z.of_nat (length (settings_bytes (order1 m))) = l) by (unfold l; f_equal; apply settings_bytes_perm; by rewrite H1, H2).
  assert (Hl2 : 0 <= l <= 8192) by (unfold l; rewrite (settings_bytes_perm _ _ H2); lia). assert (Hv : is_varint l) by (unfold is_varint, maxVarInt8; lia).
  split_and!; [done|exact Hv|lia|]. unfold settingsFrame_Write. rewrite (outcome_bind_eq _ _ _ (WriteVarInt_app [] 4 ltac:(done))).
  rewrite (outcome_bind_eq _ _ _ (settings_length_bytes _ Hok1)), El, (outcome_bind_eq _ _ _ (WriteVarInt_app _ l Hv)), write_settings_bytes by done. by rewrite <- !app_assoc.
Qed.

(** HTTP/3 frames arrive: what is written for a DATA, HEADERS or SETTINGS frame, whatever the orders of the iterations over the settings, is read back
    from a stream, however the stream is cut into calls of Read, after any number of frames of unknown types, and up to the byte where the frame ends. *)
Theorem http3_frame_roundtrip order1 order2 f unknown rest s :
  (forall m, order1 m ≡ₚ map_to_list m) -> (forall m, order2 m ≡ₚ map_to_list m) -> frame_ok f ->
  Forall (fun '(t, p) => item_ok (Unknown t p)) unknown -> rest <> [] ->
  exists b, write_frame order1 order2 f = Ret b /\
    (str_data s = concat (map (fun '(t, p) => frame_bytes t p) unknown) ++ b ++ rest ->
     exists s', parseNextFrame s = (Ret f, s') /\ str_data s' = rest /\ str_end s' = str_end s).
Proof.
  intros H1 H2 Hf Hu Hrest.
  assert (Hb : exists t l p, is_varint t /\ is_varint l /\ write_frame order1 order2 f = Ret (varint_bytes t ++ varint_bytes l ++ p) /\
    forall s0 fuel, str_data s0 = p ++ rest -> exists s', str_data s' = rest /\ str_end s' = str_end s0 /\
      (if t =? 0x0 then mret (dataFrame l) else if t =? 0x1 then mret (headersFrame l) else if t =? 0x4 then parseSettingsFrame l
       else (_ ← discard l; parse_next fuel)) s0 = (Ret f, s')).
  { destruct f as [l|l|m].
    - exists 0, l, []. split; [done|]. split; [exact Hf|]. split; [|intros s0 fuel Hd; by exists s0]. cbn [write_frame]. unfold dataFrame_Write.
      rewrite (outcome_bind_eq _ _ _ (WriteVarInt_app [] 0 ltac:(done))), (WriteVarInt_app _ l Hf), app_nil_r. done.
    - exists 1, l, []. split; [done|]. split; [exact Hf|]. split; [|intros s0 fuel Hd; by exists s0]. cbn [write_frame]. unfold headersFrame_Write.
      rewrite (outcome_bind_eq _ _ _ (WriteVarInt_app [] 1 ltac:(done))), (WriteVarInt_app _ l Hf), app_nil_r. done.
    - destruct (settings_written order1 order2 m Hf (H1 m) (H2 m)) as (Hok & Hl & H8 & E). eexists 4, _, _. split; [done|]. split; [exact Hl|]. split; [exact E|].
      intros s0 fuel Hd. destruct (read_full s0 _ _ _ Hd eq_refl) as (s' & E' & Hd' & He'). exists s'. split; [done|]. split; [done|]. cbn [Z.eqb Pos.eqb].
      unfold parseSettingsFrame. rewrite (proj2 (Z.ltb_ge _ _)) by (change (8 * Z.shiftl 1 10) with 8192; lia). rewrite E'.
      rewrite parse_settings_bytes; [|done|rewrite (H2 m); apply NoDup_fst_map_to_list|intros; apply lookup_empty|lia].
      rewrite (right_id_L ∅ (∪)), (list_to_map_proper (order2 m) (map_to_list m)), list_to_map_to_list; [done|rewrite (H2 m); apply NoDup_fst_map_to_list|apply H2]. }
  destruct Hb as (t & l & p & Ht & Hl & Eb & Hp). exists (varint_bytes t ++ varint_bytes l ++ p). split; [done|]. unfold parseNextFrame. rewrite <- !app_assoc. intros Hd.
  assert (Hfuel : (length (str_data s) < S (length (str_data s)))%nat) by lia. revert Hfuel. generalize (S (length (str_data s))). revert s Hd.
  induction Hu as [|[t0 p0] unknown Hi Hu IH]; intros s Hd fuel Hfuel; (destruct fuel as [|fuel]; [lia|]); cbn [map concat] in Hd; rewrite <- ?app_assoc in Hd.
  - destruct (parse_header fuel s t l (p ++ rest) Ht Hl Hd) as (s1 & Hd1 & He1 & [E|(_ & Hnil & _)]); [|by apply app_eq_nil in Hnil as [_ ?]].
    destruct (Hp s1 fuel Hd1) as (s' & Hd' & He' & E'). exists s'. rewrite E, E', He', He1. done.
  - destruct (parse_unknown fuel s t0 p0 _ Hi Hd) as (s1 & Hd1 & He1 & [E|(_ & Hnil & _)]); [|exfalso; repeat apply app_eq_nil in Hnil as [_ Hnil]; by subst rest].
    destruct (IH s1 Hd1 fuel) as (s' & E' & Hd' & He'); [rewrite Hd1; rewrite Hd, length_app in Hfuel; pose proof (frame_bytes_length t0 p0 (proj1 Hi)); lia|].
    exists s'. rewrite E, E', He', He1. done.
Qed.

(** Whatever a peer sends, the parser of HTTP/3 frames ends without a panic, takes its bytes from the front of the stream, and leaves the rest. *)
Theorem http3_parser_total s : let '(res, s') := parseNextFrame s in
  (forall msg, res <> Panic msg) /\ str_end s' = str_end s /\ exists d, str_data s = d ++ str_data s'.
Proof. apply reads_frame. Qed.

(** A body is what its DATA frames carry: an application that reads until the end, with buffers of any sizes, gets the payloads of the DATA frames
    one after the other and then EOF, whatever frames of unknown types are between them and however the stream is cut into calls of Read. *)
Theorem body_arrives items s sizes :
  Forall item_ok items -> str_data s = stream_of items -> str_end s = EOF -> (forall i, 1 <= sizes i) ->
  read_all (S (length (str_data s))) sizes (newRequestBody s) = Ret (data_of items, EOF) /\
  read_all (S (length (str_data s))) sizes (newResponseBody s) = Ret (data_of items, EOF).
Proof.
  intros Hok Hd He Hs. split; apply (read_all_data _ sizes _ [] items); try done; cbn; lia.
Qed.

(** Trailers become part of the body: after a HEADERS frame the parser goes on with the bytes of the header block, as if they were
    frames. Here a body of three bytes is followed by trailers of four bytes, and the application reads five bytes. *)
Theorem trailers_spoil_body :
  let s := mkStream (frame_bytes 0 [97; 98; 99] ++ frame_bytes 1 [0; 2; 88; 89]) EOF [] in
  read_all 10 (fun _ => 100) (newRequestBody s) = Ret ([97; 98; 99; 88; 89], EOF).
Proof. reflexivity. Qed.
