(* ===== verification/Http3.v ===== *)
(** * HTTP/3: requests and responses (http3/)

    request_writer.go, request.go, response_writer.go, client.go, roundtrip.go and the handling of requests of server.go.  QPACK, the
    checks of header fields, Punycode, URLs and host names belong to libraries, which are parameters; the maps of header
    fields of the Go library, with their canonical keys, are written out.  The handler of the application is a program that can
    read the body, and set header fields, and write. *)

From S2P Require Import Prelude VarInt Http3Frames.

(** ** Texts *)

Definition txt (s : string) : bytes := map (fun c => Z.of_nat (Ascii.nat_of_ascii c)) (String.list_ascii_of_string s).
Arguments txt _ : simpl never.

(** [strings.ToLower] of an ASCII text. *)
Definition lower_byte (c : byte) : byte := if (65 <=? c) && (c <=? 90) then c + 32 else c.
Definition upper_byte (c : byte) : byte := if (97 <=? c) && (c <=? 122) then c - 32 else c.
Definition ToLower (s : bytes) : bytes := map lower_byte s.
Definition EqualFold (a b : bytes) : bool := bool_decide (ToLower a = ToLower b).

Definition TrimPrefix (s prefix : bytes) : bytes := if bool_decide (take (length prefix) s = prefix) then drop (length prefix) s else s.

Fixpoint Join (l : list bytes) (sep : bytes) : bytes :=
  match l with
  | [] => []
  | [x] => x
  | x :: l => x ++ sep ++ Join l sep
  end.

(** [strconv.FormatInt] and [Itoa]: the digits of a number below 10^[fuel]. *)
Fixpoint format_digits (fuel : nat) (n : Z) (acc : bytes) : bytes :=
  match fuel with
  | O => acc
  | S fuel => let acc := 48 + n mod 10 :: acc in if n / 10 =? 0 then acc else format_digits fuel (n / 10) acc
  end.
Definition FormatInt (n : Z) : bytes := if n <? 0 then 45 :: format_digits 20 (- n) [] else format_digits 20 n [].

Fixpoint parse_digits (s : bytes) (acc : Z) : option Z :=
  match s with
  | [] => Some acc
  | c :: s => if (48 <=? c) && (c <=? 57) then parse_digits s (10 * acc + (c - 48)) else None
  end.

(** [strconv.ParseInt(s, 10, 64)] and [Atoi]: a sign, and digits. *)
Definition split_sign (s : bytes) : bool * bytes :=
  match s with
  | c :: ds => if c =? 43 then (false, ds) else if c =? 45 then (true, ds) else (false, s)
  | [] => (false, s)
  end.

Definition ParseInt (s : bytes) : outcome Z :=
  let '(neg, ds) := split_sign s in
  match ds with
  | [] => Error (ErrorText s)
  | _ => match parse_digits ds 0 with
         | None => Error (ErrorText s)
         | Some n => let n := if neg : bool then - n else n in
                     if (MinInt64 <=? n) && (n <=? MaxInt64) then mret n else Error (ErrorText s)
         end
  end.

(** ** Header fields: [http.Header] *)

(** The bytes of a token. *)
Definition is_token_byte (c : byte) : bool :=
  ((48 <=? c) && (c <=? 57)) || ((65 <=? c) && (c <=? 90)) || ((97 <=? c) && (c <=? 122)) || bool_decide (c ∈ txt "!#$%&'*+-.^_`|~").

(** [textproto.CanonicalMIMEHeaderKey]. *)
Fixpoint canonical_loop (upper : bool) (s : bytes) : bytes :=
  match s with
  | [] => []
  | c :: s => let c := if upper then upper_byte c else lower_byte c in c :: canonical_loop (c =? 45) s
  end.
Definition CanonicalHeaderKey (s : bytes) : bytes := if forallb is_token_byte s then canonical_loop true s else s.

Notation Header := (gmap bytes (list bytes)).

Definition Header_Add (h : Header) (k v : bytes) : Header := let k := CanonicalHeaderKey k in <[k := default [] (h !! k) ++ [v]]> h.
Definition Header_Set (h : Header) (k v : bytes) : Header := <[CanonicalHeaderKey k := [v]]> h.
Definition Header_Get (h : Header) (k : bytes) : bytes := match h !! CanonicalHeaderKey k with Some (v :: _) => v | _ => [] end.
Definition Header_Del (h : Header) (k : bytes) : Header := delete (CanonicalHeaderKey k) h.

(** A field of a header block. *)
Definition HeaderField : Type := bytes * bytes.

(** ** What the libraries do *)

Record URL := mkURL {
  url_Scheme : bytes;
  url_Host : bytes;
  url_Opaque : bytes;
  url_RequestURI : bytes                     (* what the method RequestURI returns *)
}.

Record h3Library := mkH3Library {
  qpack_encode : list HeaderField -> bytes;  (* the block that an Encoder writes for these fields *)
  qpack_DecodeFull : bytes -> outcome (list HeaderField);
  IsPseudo : bytes -> bool;
  PunycodeHostPort : bytes -> outcome bytes;
  ValidHeaderFieldName : bytes -> bool;
  ValidHeaderFieldValue : bytes -> bool;
  IsTokenRune : byte -> bool;
  ToASCII : bytes -> outcome bytes;          (* idna *)
  SplitHostPort : bytes -> outcome (bytes * bytes);
  JoinHostPort : bytes -> bytes -> bytes;
  ParseRequestURI : bytes -> outcome URL;
  StatusText : Z -> bytes;
  headerOrder : Header -> list (bytes * list bytes);     (* an iteration over a map *)
  maxAlloc : Z                               (* the longest slice that can be made *)
}.

(** ** Streams that are written to *)

Record writer := mkWriter {
  wr_written : bytes;
  wr_fails : option (nat * goerr);           (* how many writes succeed before this error *)
  wr_closed : bool;
  wr_canceled : option Z                     (* CancelWrite with this error code *)
}.

#[global] Instance writer_eta : Eta writer := fun w => mkWriter (wr_written w) (wr_fails w) (wr_closed w) (wr_canceled w).

Definition stream_Write (w : writer) (p : bytes) : writer * option goerr :=
  match wr_fails w with
  | Some (O, e) => (w, Some e)
  | Some (S n, e) => (w <| wr_written := wr_written w ++ p |> <| wr_fails := Some (n, e) |>, None)
  | None => (w <| wr_written := wr_written w ++ p |>, None)
  end.

Definition stream_CancelWrite (w : writer) (code : Z) : writer :=
  match wr_canceled w with Some _ => w | None => if wr_closed w then w else w <| wr_canceled := Some code |> end.
Definition stream_Close (w : writer) : writer := if wr_canceled w then w else w <| wr_closed := true |>.

Definition errorInternalError : Z := 0x3.
Definition errorRequestCanceled : Z := 0x5.
Definition errorIncompleteRequest : Z := 0x6.
Definition errorEarlyResponse : Z := 0x11.
Definition errorUnexpectedFrame : Z := 0x13.
Definition errorGeneralProtocolError : Z := 0xff.

(** ** Requests *)

(** The body of a request that is sent: what its calls of Read return; EOF after that. *)
Definition source : Type := list (bytes * option goerr).

Record Request := mkRequest {
  rq_Method : bytes;
  rq_URL : option URL;
  rq_Header : option Header;                 (* nil or a map *)
  rq_Host : bytes;
  rq_ContentLength : Z;
  rq_RequestURI : bytes
}.

Section Http3.
Variable lib : h3Library.

Definition hostnameFromRequest (req : Request) : bytes := match rq_URL req with Some u => url_Host u | None => [] end.

Definition authorityAddr (scheme authority : bytes) : bytes :=
  let '(host, port) := match SplitHostPort lib authority with
                       | Ret (host, port) => (host, port)
                       | _ => (authority, if bool_decide (scheme = txt "http") then txt "80" else txt "443")
                       end in
  let host := match ToASCII lib host with Ret a => a | _ => host end in
  (* IPv6 address literal, without a port *)
  if bool_decide (head host = Some 91) && bool_decide (last host = Some 93) then host ++ txt ":" ++ port
  else JoinHostPort lib host port.

(** request_writer.go *)

Definition validPseudoPath (v : bytes) : bool := bool_decide (head v = Some 47) || bool_decide (v = txt "*").

Definition actualContentLength (req : Request) (body : option source) : Z :=
  match body with None => 0 | Some _ => if rq_ContentLength req =? 0 then -1 else rq_ContentLength req end.

Definition shouldSendReqContentLength (method : bytes) (contentLength : Z) : bool :=
  if 0 <? contentLength then true
  else if contentLength <? 0 then false
  else bool_decide (method ∈ [txt "POST"; txt "PUT"; txt "PATCH"]).

(** The check for invalid header fields. *)
Fixpoint check_values (format : string) (k : bytes) (vv : list bytes) : option goerr :=
  match vv with
  | [] => None
  | v :: vv => if negb (ValidHeaderFieldValue lib v) then Some (Errorf format (v ++ k)) else check_values format k vv
  end.

Fixpoint check_headers (nameFormat valueFormat : string) (l : list (bytes * list bytes)) : option goerr :=
  match l with
  | [] => None
  | (k, vv) :: l =>
      if negb (ValidHeaderFieldName lib k) then Some (Errorf nameFormat k)
      else match check_values valueFormat k vv with Some e => Some e | None => check_headers nameFormat valueFormat l end
  end.

(** The fields that one entry of the map becomes, and whether it is the User-Agent. *)
Definition entry_fields (k : bytes) (vv : list bytes) : list HeaderField * bool :=
  if EqualFold k (txt "host") || EqualFold k (txt "content-length") then ([], false)
  else if EqualFold k (txt "connection") || EqualFold k (txt "proxy-connection") || EqualFold k (txt "transfer-encoding") || EqualFold k (txt "upgrade") ||
          EqualFold k (txt "keep-alive") then ([], false)
  else if EqualFold k (txt "user-agent") then
    match vv with
    | [] => ([], true)
    | v :: _ => if bool_decide (v = []) then ([], true) else ([(k, v)], true)
    end
  else (map (fun v => (k, v)) vv, false).

Definition enumerateHeaders (req : Request) (scheme host path : bytes) (addGzipHeader : bool) (trailers : bytes) (contentLength : Z) : list HeaderField :=
  let entries := map (fun e => entry_fields e.1 e.2) (headerOrder lib (default ∅ (rq_Header req))) in
  [(txt ":authority", host); (txt ":method", rq_Method req)] ++
  (if bool_decide (rq_Method req = txt "CONNECT") then [] else [(txt ":path", path); (txt ":scheme", scheme)]) ++
  (if bool_decide (trailers = []) then [] else [(txt "trailer", trailers)]) ++
  concat (map fst entries) ++
  (if shouldSendReqContentLength (rq_Method req) contentLength then [(txt "content-length", FormatInt contentLength)] else []) ++
  (if addGzipHeader then [(txt "accept-encoding", txt "gzip")] else []) ++
  (if existsb snd entries then [] else [(txt "user-agent", txt "quic-go HTTP/3")]).

(** The path of a request. *)
Definition request_path (req : Request) (u : URL) (host : bytes) : outcome bytes :=
  if bool_decide (rq_Method req = txt "CONNECT") then mret [] else
  let path := url_RequestURI u in
  if validPseudoPath path then mret path else
  let path' := TrimPrefix path (url_Scheme u ++ txt "://" ++ host) in
  if validPseudoPath path' then mret path' else
  if bool_decide (url_Opaque u = []) then Error (Errorf "invalid request :path %q" path)
  else Error (Errorf "invalid request :path %q from URL.Opaque = %q" (path ++ url_Opaque u)).

(** The fields that are written to the encoder. *)
Definition encodeHeaders (req : Request) (addGzipHeader : bool) (trailers : bytes) (contentLength : Z) : outcome (list HeaderField) :=
  match rq_URL req with
  | None => Panic nil_dereference
  | Some u =>
      host ← PunycodeHostPort lib (match rq_Host req with [] => url_Host u | h => h end);
      path ← request_path req u host;
      match check_headers "invalid HTTP header name %q" "invalid HTTP header value %q for header %q" (headerOrder lib (default ∅ (rq_Header req))) with
      | Some e => Error e
      | None => mret (map (fun '(name, value) => (ToLower name, value)) (enumerateHeaders req (url_Scheme u) host path addGzipHeader trailers contentLength))
      end
  end.

Definition getHeaders (req : Request) (body : option source) (gzip : bool) : outcome bytes :=
  fields ← encodeHeaders req gzip [] (actualContentLength req body);
  let headerBuf := qpack_encode lib fields in
  buf ← headersFrame_Write [] (Z.of_nat (length headerBuf));
  mret (buf ++ headerBuf).

(** What comes of the goroutine that sends the body: the stream, an error, and whether the body was closed. *)
Fixpoint sendRequestBody (src : source) (w : writer) : outcome (writer * option goerr * bool) :=
  match src with
  | [] => mret (w, None, true)
  | (d, err) :: src =>
      match err with
      | Some EOF => mret (w, None, true)
      | Some e => mret (stream_CancelWrite w errorRequestCanceled, Some e, false)
      | None =>
          buf ← dataFrame_Write [] (Z.of_nat (length d));
          match stream_Write w buf with
          | (w, Some e) => mret (w, Some e, false)
          | (w, None) =>
              match stream_Write w d with
              | (w, Some e) => mret (w, Some e, false)
              | (w, None) => sendRequestBody src w
              end
          end
      end
  end.

(** [WriteRequest], with its goroutine at its end. *)
Definition WriteRequest (w : writer) (req : Request) (body : option source) (gzip : bool) : outcome (writer * option goerr) :=
  match getHeaders req body gzip with
  | Panic msg => Panic msg
  | Error e => mret (w, Some e)
  | Ret headers =>
      match stream_Write w headers with
      | (w, Some e) => mret (w, Some e)
      | (w, None) =>
          match body with
          | None => mret (stream_Close w, None)
          | Some src =>
              '(w, err, _) ← sendRequestBody src w;
              mret (match err with Some _ => w | None => stream_Close w end, None)
          end
      end
  end.

(** request.go *)

Record requestParts := mkRequestParts {
  pt_path : bytes;
  pt_authority : bytes;
  pt_method : bytes;
  pt_contentLength : bytes;
  pt_headers : Header
}.

#[global] Instance requestParts_eta : Eta requestParts := fun p =>
  mkRequestParts (pt_path p) (pt_authority p) (pt_method p) (pt_contentLength p) (pt_headers p).

Definition add_field (p : requestParts) (h : HeaderField) : requestParts :=
  let '(name, value) := h in
  if bool_decide (name = txt ":path") then p <| pt_path := value |>
  else if bool_decide (name = txt ":method") then p <| pt_method := value |>
  else if bool_decide (name = txt ":authority") then p <| pt_authority := value |>
  else if bool_decide (name = txt "content-length") then p <| pt_contentLength := value |>
  else if negb (IsPseudo lib name) then p <| pt_headers := Header_Add (pt_headers p) name value |> else p.

Definition requestFromHeaders (headers : list HeaderField) : outcome Request :=
  let p := foldl add_field (mkRequestParts [] [] [] [] ∅) headers in
  (* concatenate cookie headers *)
  let httpHeaders := match pt_headers p !! txt "Cookie" with
                     | Some (v :: vs) => Header_Set (pt_headers p) (txt "Cookie") (Join (v :: vs) (txt "; "))
                     | _ => pt_headers p
                     end in
  if bool_decide (pt_path p = []) || bool_decide (pt_authority p = []) || bool_decide (pt_method p = []) then
    Error (ErrorString ":path, :authority and :method must not be empty")
  else
  u ← ParseRequestURI lib (pt_path p);
  contentLength ← (match pt_contentLength p with [] => mret 0 | s => ParseInt s end);
  mret (mkRequest (pt_method p) (Some u) (Some httpHeaders) (pt_authority p) contentLength (pt_path p)).

(** ** Responses (response_writer.go) *)

Record responseWriter := mkResponseWriter {
  rw_stream : writer;
  rw_header : Header;
  rw_status : Z;
  rw_headerWritten : bool
}.

#[global] Instance responseWriter_eta : Eta responseWriter := fun w =>
  mkResponseWriter (rw_stream w) (rw_header w) (rw_status w) (rw_headerWritten w).

Definition newResponseWriter (w : writer) : responseWriter := mkResponseWriter w ∅ 0 false.

Definition response_fields (status : Z) (h : Header) : list HeaderField :=
  (txt ":status", FormatInt status) :: concat (map (fun e => map (fun v => (ToLower e.1, v)) e.2) (headerOrder lib h)).

Definition WriteHeader (w : responseWriter) (status : Z) : outcome responseWriter :=
  if rw_headerWritten w then mret w else
  let w := w <| rw_headerWritten := true |> <| rw_status := status |> in
  let headers := qpack_encode lib (response_fields status (rw_header w)) in
  buf ← headersFrame_Write [] (Z.of_nat (length headers));
  (* errors are only logged *)
  mret (w <| rw_stream := (stream_Write (stream_Write (rw_stream w) buf).1 headers).1 |>).

Definition bodyAllowedForStatus (status : Z) : bool :=
  if (100 <=? status) && (status <=? 199) then false
  else if status =? 204 then false
  else if status =? 304 then false
  else true.

(** [Write] after its header. *)
Definition write_data (w : responseWriter) (p : bytes) : outcome (responseWriter * option goerr) :=
  if negb (bodyAllowedForStatus (rw_status w)) then mret (w, Some (ErrorString "http: request method or response status code does not allow body")) else
  buf ← dataFrame_Write [] (Z.of_nat (length p));
  match stream_Write (rw_stream w) buf with
  | (s, Some e) => mret (w <| rw_stream := s |>, Some e)
  | (s, None) => let '(s, err) := stream_Write s p in mret (w <| rw_stream := s |>, err)
  end.

Definition response_Write (w : responseWriter) (p : bytes) : outcome (responseWriter * option goerr) :=
  w ← (if rw_headerWritten w then mret w else WriteHeader w 200);
  write_data w p.

(** ** The server (server.go) *)

(** What a handler does; it changes the header through the map that [Header] returns. *)
Inductive handler :=
| HandlerReturns
| HandlerPanics
| HandlerRead (n : Z) (k : bytes -> option goerr -> handler)
| HandlerHeader (change : Header -> Header) (k : handler)
| HandlerWriteHeader (status : Z) (k : handler)
| HandlerWrite (p : bytes) (k : option goerr -> handler).

(** A response whose [WriteHeader] panicked: it counts as written. *)
Definition header_panicked (w : responseWriter) (status : Z) : responseWriter := w <| rw_headerWritten := true |> <| rw_status := status |>.

(** [ServeHTTP], with the body and the response; a panic of the handler, and of what it calls, is recovered. *)
Fixpoint ServeHTTP (h : handler) (b : body) (w : responseWriter) : bool * body * responseWriter :=
  match h with
  | HandlerReturns => (false, b, w)
  | HandlerPanics => (true, b, w)
  | HandlerRead n k =>
      match body_Read b n with
      | (Ret (d, err), b) => ServeHTTP (k d err) b w
      | (_, b) => (true, b, w)
      end
  | HandlerHeader change k => ServeHTTP k b (w <| rw_header := change (rw_header w) |>)
  | HandlerWriteHeader status k =>
      match WriteHeader w status with Ret w => ServeHTTP k b w | _ => (true, b, header_panicked w status) end
  | HandlerWrite p k =>
      (* response_Write *)
      match (if rw_headerWritten w then mret w else WriteHeader w 200) with
      | Ret w => match write_data w p with Ret (w, err) => ServeHTTP (k err) b w | _ => (true, b, w) end
      | _ => (true, b, header_panicked w 200)
      end
  end.

(** Reading the request from its stream: the request, or an error with the code that the stream is canceled with, if it is. *)
Definition read_request (s : stream) : outcome (Request + goerr * option Z) * stream :=
  match parseNextFrame s with
  | (Panic msg, s) => (Panic msg, s)
  | (Error e, s) => (Ret (inr (e, Some errorRequestCanceled)), s)
  | (Ret (headersFrame l), s) =>
      if maxAlloc lib <? l then (Panic "runtime error: makeslice: len out of range", s) else
      match stream_ReadFull l s with
      | (Panic msg, s) => (Panic msg, s)
      | (Error e, s) => (Ret (inr (e, Some errorIncompleteRequest)), s)
      | (Ret headerBlock, s) =>
          match qpack_DecodeFull lib headerBlock with
          | Panic msg => (Panic msg, s)
          | Error e => (Ret (inr (e, Some errorGeneralProtocolError)), s)
          | Ret hfs =>
              match requestFromHeaders hfs with
              | Panic msg => (Panic msg, s)
              | Error e => (Ret (inr (e, None)), s)
              | Ret req => (Ret (inl req), s)
              end
          end
      end
  | (Ret _, s) => (Ret (inr (ErrorString "expected first frame to be a headers frame", Some errorUnexpectedFrame)), s)
  end.

(** What comes of a request: the stream that was written to, the error, and the code that reading is canceled with. *)
Record handled := mkHandled {
  hl_writer : writer;
  hl_error : option goerr;
  hl_cancelRead : option Z
}.

Definition handleRequest (serve : Request -> handler) (s : stream) (w : writer) : outcome handled :=
  match read_request s with
  | (Panic msg, _) => Panic msg
  | (Error e, _) => Error e
  | (Ret (inr (e, code)), _) => mret (mkHandled (match code with Some c => stream_CancelWrite w c | None => w end) (Some e) None)
  | (Ret (inl req), s) =>
      let '(panicked, b, rw) := ServeHTTP (serve req) (newRequestBody s) (newResponseWriter w) in
      (* read the eof *)
      let readEOF := if panicked : bool then false else match stream_Read (bd_str b) 1 with (_, err, _) => bool_decide (err = Some EOF) end in
      rw ← WriteHeader rw (if panicked then 500 else 200);
      mret (mkHandled (rw_stream rw) None (if readEOF then None else Some errorEarlyResponse))
  end.

(** The goroutine of a request. *)
Definition serve_stream (serve : Request -> handler) (s : stream) (w : writer) : outcome handled :=
  h ← handleRequest serve s w;
  mret (match hl_error h with
        | Some _ => mkHandled (stream_CancelWrite (hl_writer h) errorGeneralProtocolError) (hl_error h) (hl_cancelRead h)
        | None => mkHandled (stream_Close (hl_writer h)) None (hl_cancelRead h)
        end).

(** The type of a control stream and an empty SETTINGS frame: what server and client write first. *)
Definition control_stream : outcome bytes := settingsFrame_Write map_to_list map_to_list [0] ∅.

(** ** The client (client.go) *)

Record Response := mkResponse {
  rs_StatusCode : Z;
  rs_Status : bytes;
  rs_Header : Header;
  rs_ContentLength : Z;
  rs_Uncompressed : bool;                    (* the body is read through a gzip reader *)
  rs_Body : body
}.

(** The loop over the fields of a response: the status, its text, and the header. *)
Fixpoint response_header (hfs : list HeaderField) (status : Z) (text : bytes) (h : Header) : outcome (Z * bytes * Header) :=
  match hfs with
  | [] => mret (status, text, h)
  | (name, value) :: hfs =>
      if bool_decide (name = txt ":status") then
        match ParseInt value with
        | Ret n => response_header hfs n (value ++ txt " " ++ StatusText lib n) h
        | _ => Error (ErrorString "malformed non-numeric status pseudo header")
        end
      else response_header hfs status text (Header_Add h name value)
  end.

Definition response_body (requestGzip : bool) (status : Z) (text : bytes) (h : Header) (s : stream) : Response :=
  if requestGzip && bool_decide (Header_Get h (txt "Content-Encoding") = txt "gzip") then
    mkResponse status text (Header_Del (Header_Del h (txt "Content-Encoding")) (txt "Content-Length")) (-1) true (newResponseBody s)
  else mkResponse status text h 0 false (newResponseBody s).

Definition read_response (requestGzip : bool) (s : stream) : outcome Response :=
  match parseNextFrame s with
  | (Panic msg, _) => Panic msg
  | (Error e, _) => Error e
  | (Ret (headersFrame l), s) =>
      if maxAlloc lib <? l then Panic "runtime error: makeslice: len out of range" else
      match stream_ReadFull l s with
      | (Panic msg, _) => Panic msg
      | (Error e, _) => Error e
      | (Ret headerBlock, s) =>
          hfs ← qpack_DecodeFull lib headerBlock;
          '(status, text, h) ← response_header hfs 0 [] ∅;
          mret (response_body requestGzip status text h s)
      end
  | (Ret _, _) => Error (ErrorString "not a HEADERS frame")
  end.

Section Client.
(** QUIC sessions. *)
Context {Sess : Type}.

Record h3client := mkH3Client {
  hc_hostname : bytes;
  hc_DisableCompression : bool;
  hc_dialOnce : bool;                        (* it is done *)
  hc_handshakeErr : option goerr;
  hc_session : option Sess
}.

#[global] Instance h3client_eta : Eta h3client := fun c =>
  mkH3Client (hc_hostname c) (hc_DisableCompression c) (hc_dialOnce c) (hc_handshakeErr c) (hc_session c).

Definition h3_newClient (hostname : bytes) (DisableCompression : bool) : h3client :=
  mkH3Client (authorityAddr (txt "https") hostname) DisableCompression false None None.

(** [res] is what dialing the connection returns. *)
Definition h3_dial (c : h3client) (res : outcome Sess) : h3client :=
  match res with
  | Ret sess => c <| hc_dialOnce := true |> <| hc_session := Some sess |> <| hc_handshakeErr := None |>
  | Error e => c <| hc_dialOnce := true |> <| hc_session := None |> <| hc_handshakeErr := Some e |>
  | Panic _ => c
  end.

Definition h3_Close (c : h3client) : outcome Sess := match hc_session c with None => Panic nil_dereference | Some sess => mret sess end.

Definition request_gzip (c : h3client) (req : Request) : bool :=
  let h := default ∅ (rq_Header req) in
  negb (hc_DisableCompression c) && negb (bool_decide (rq_Method req = txt "HEAD")) &&
  bool_decide (Header_Get h (txt "Accept-Encoding") = []) && bool_decide (Header_Get h (txt "Range") = []).

(** [RoundTrip]: [dialed] is what dialing returns, [opened] what opening a stream returns, and [s] is the answer of the server. *)
Definition client_RoundTrip (c : h3client) (dialed : outcome Sess) (opened : outcome writer) (s : stream) (req : Request) (body : option source) :
    h3client * outcome (writer * Response) :=
  match rq_URL req with
  | None => (c, Panic nil_dereference)
  | Some u =>
      if negb (bool_decide (url_Scheme u = txt "https")) then (c, Error (ErrorString "http3: unsupported scheme"))
      else if negb (bool_decide (authorityAddr (txt "https") (hostnameFromRequest req) = hc_hostname c)) then
        (c, Error (Errorf "http3 client BUG: RoundTrip called for the wrong client (expected %s, got %s)" (hc_hostname c ++ rq_Host req)))
      else
      let c := if hc_dialOnce c then c else h3_dial c dialed in
      match hc_handshakeErr c with
      | Some e => (c, Error e)
      | None =>
          (c, str ← opened;
              let requestGzip := request_gzip c req in
              '(str, err) ← WriteRequest str req body requestGzip;
              match err with
              | Some e => Error e
              | None => res ← read_response requestGzip s; mret (str, res)
              end)
      end
  end.

(** ** The clients of a RoundTripper (roundtrip.go) *)

Record RoundTripper := mkRoundTripper {
  rt_DisableCompression : bool;
  rt_clients : gmap bytes h3client           (* nil is the empty map *)
}.

#[global] Instance RoundTripper_eta : Eta RoundTripper := fun r => mkRoundTripper (rt_DisableCompression r) (rt_clients r).

Definition ErrNoCachedConn : goerr := ErrorString "http3: no cached connection was available".

Definition getClient (r : RoundTripper) (hostname : bytes) (onlyCached : bool) : RoundTripper * outcome h3client :=
  match rt_clients r !! hostname with
  | Some c => (r, mret c)
  | None =>
      if onlyCached then (r, Error ErrNoCachedConn)
      else let c := h3_newClient hostname (rt_DisableCompression r) in (r <| rt_clients := <[hostname := c]> (rt_clients r) |>, mret c)
  end.

Definition validMethod (method : bytes) : bool := (0 <? Z.of_nat (length method)) && forallb (IsTokenRune lib) method.

(** The check of [RoundTripOpt] before it looks for a client; the error, and whether it closes the body of the request. *)
Definition check_request (req : Request) : option (goerr * bool) :=
  match rq_URL req with
  | None => Some (ErrorString "http3: nil Request.URL", true)
  | Some u =>
      if bool_decide (url_Host u = []) then Some (ErrorString "http3: no Host in request URL", true) else
      match rq_Header req with
      | None => Some (ErrorString "http3: nil Request.Header", true)
      | Some h =>
          if bool_decide (url_Scheme u = txt "https") then
            match check_headers "http3: invalid http header field name %q" "http3: invalid http header field value %q for key %v" (headerOrder lib h) with
            | Some e => Some (e, false)
            | None =>
                if negb (bool_decide (rq_Method req = [])) && negb (validMethod (rq_Method req)) then
                  Some (Errorf "http3: invalid method %q" (rq_Method req), true)
                else None
            end
          else Some (Errorf "http3: unsupported protocol scheme: %s" (url_Scheme u), true)
      end
  end.

Definition RoundTripOpt (r : RoundTripper) (onlyCached : bool) (dialed : outcome Sess) (opened : outcome writer) (s : stream)
    (req : Request) (body : option source) : RoundTripper * outcome (writer * Response) :=
  match check_request req with
  | Some (e, _) => (r, Error e)
  | None =>
      let hostname := authorityAddr (txt "https") (hostnameFromRequest req) in
      match getClient r hostname onlyCached with
      | (r, Ret c) => let '(c, res) := client_RoundTrip c dialed opened s req body in (r <| rt_clients := <[hostname := c]> (rt_clients r) |>, res)
      | (r, Error e) => (r, Error e)
      | (r, Panic msg) => (r, Panic msg)
      end
  end.

(** [closeErr] is what closing a session returns; [order] is the order of the map. *)
Fixpoint close_clients (closeErr : Sess -> option goerr) (l : list (bytes * h3client)) : outcome unit :=
  match l with
  | [] => mret tt
  | (_, c) :: l => sess ← h3_Close c; match closeErr sess with Some e => Error e | None => close_clients closeErr l end
  end.

Definition RoundTripper_Close (closeErr : Sess -> option goerr) (order : gmap bytes h3client -> list (bytes * h3client)) (r : RoundTripper) :
    RoundTripper * outcome unit :=
  match close_clients closeErr (order (rt_clients r)) with
  | Ret _ => (r <| rt_clients := ∅ |>, mret tt)
  | Error e => (r, Error e)
  | Panic msg => (r, Panic msg)
  end.

End Client.
End Http3.
