(* ===== verification/Http3Properties.v ===== *)
(** * HTTP/3: a request and its response

    What the client writes is the request that the handler of the server gets; what the handler writes is the response that the client
    gets, by refinement of a specification of what a response is.  The end of the file has what goes wrong. *)

From S2P Require Import Prelude VarInt Http3Frames Http3.

(** What the documentation of the libraries says; and no slice has more than 2^62 bytes. *)
Class H3LibraryLaws (lib : h3Library) : Prop := {
  qpack_roundtrip fs : qpack_DecodeFull lib (qpack_encode lib fs) = Ret fs;
  qpack_prefix fs : qpack_encode lib fs <> [];
  header_order h : headerOrder lib h ≡ₚ map_to_list h;
  pseudo_colon name : IsPseudo lib name = bool_decide (head name = Some 58);
  alloc_limit : maxAlloc lib <= maxVarInt8
}.

(** ** Texts and keys *)

Lemma parse_format_digits fuel n acc v :
  0 <= n < 10 ^ Z.of_nat fuel -> (0 < fuel)%nat -> parse_digits acc n = Some v -> parse_digits (format_digits fuel n acc) 0 = Some v.
Proof.
  revert n acc. induction fuel as [|fuel IH]; intros n acc Hn Hf Hv; [lia|]. cbn [format_digits]. pose proof (Z.div_mod n 10 ltac:(lia)) as Hdm. pose proof (Z.mod_pos_bound n 10 ltac:(lia)).
  assert (Hstep : forall m, 10 * m + n mod 10 = n -> parse_digits (48 + n mod 10 :: acc) m = Some v).
  { intros m Hm. cbn [parse_digits]. rewrite (proj2 (Z.leb_le _ _)), (proj2 (Z.leb_le _ _)) by lia. cbn [andb]. by replace (10 * m + (48 + n mod 10 - 48)) with n by lia. }
  destruct (Z.eqb_spec (n / 10) 0) as [H0|H0].
  - apply Hstep. lia.
  - assert (0 < n / 10) by (pose proof (Z.div_pos n 10); lia). rewrite Nat2Z.inj_succ, Z.pow_succ_r in Hn by lia. apply IH; [|destruct fuel; [cbn in Hn; lia|lia]|apply Hstep; lia].
    split; [lia|]. apply Z.div_lt_upper_bound; lia.
Qed.

Lemma format_digits_head fuel n acc : (0 < fuel)%nat -> 0 <= n -> exists c l, format_digits fuel n acc = c :: l /\ 48 <= c <= 57.
Proof.
  revert n acc. induction fuel as [|fuel IH]; intros n acc Hf Hn; [lia|]. cbn [format_digits]. pose proof (Z.mod_pos_bound n 10 ltac:(lia)).
  case_if; [do 2 eexists; split; [done|lia]|]. destruct fuel; [do 2 eexists; split; [done|lia]|]. apply IH; [lia|apply Z.div_pos; lia].
Qed.

Lemma ParseInt_FormatInt n : 0 <= n <= MaxInt64 -> ParseInt (FormatInt n) = Ret n.
Proof.
  intros Hn. unfold MaxInt64 in Hn. unfold FormatInt. rewrite (proj2 (Z.ltb_ge _ _)) by lia. destruct (format_digits_head 20 n []) as (c & l & E & Hc); [lia|lia|].
  pose proof (parse_format_digits 20 n [] n ltac:(change (Z.of_nat 20) with 20; lia) ltac:(lia) eq_refl) as Hp. rewrite E in *. unfold ParseInt.
  assert (Hs : split_sign (c :: l) = (false, c :: l)) by (cbn; rewrite (proj2 (Z.eqb_neq c 43)), (proj2 (Z.eqb_neq c 45)) by lia; done).
  rewrite Hs, Hp. unfold MinInt64, MaxInt64. rewrite (proj2 (Z.leb_le _ _)), (proj2 (Z.leb_le _ _)) by lia. done.
Qed.

(** A key of a map of header fields. *)
Definition header_key (k : bytes) : Prop := forallb is_token_byte k = true /\ CanonicalHeaderKey k = k /\ k <> [].

Lemma upper_lower c : upper_byte (lower_byte c) = upper_byte c.
Proof. unfold upper_byte, lower_byte. repeat (case_if; zbool; try lia). Qed.
Lemma lower_lower c : lower_byte (lower_byte c) = lower_byte c.
Proof. unfold lower_byte. repeat (case_if; zbool; try lia). Qed.

Lemma canonical_lower upper s : canonical_loop upper (ToLower s) = canonical_loop upper s.
Proof.
  revert upper. induction s as [|c s IH]; intros upper; [done|]. cbn. rewrite IH. destruct upper; by rewrite ?upper_lower, ?lower_lower.
Qed.

Lemma token_lower c : is_token_byte c = true -> is_token_byte (lower_byte c) = true.
Proof.
  unfold lower_byte. case_if; [|done]. intros _. zbool. unfold is_token_byte.
  rewrite (proj2 (Z.leb_le 97 (c + 32))), (proj2 (Z.leb_le (c + 32) 122)) by lia. cbn. by rewrite !orb_true_r.
Qed.

Lemma canonical_key k : header_key k -> CanonicalHeaderKey (ToLower k) = k.
Proof.
  intros (Ht & Hc & _). assert (Hl : forallb is_token_byte (ToLower k) = true).
  { clear Hc. induction k as [|c k IH]; [done|]. cbn in Ht. apply andb_true_iff in Ht as [Hc Hk].
    change (is_token_byte (lower_byte c) && forallb is_token_byte (ToLower k) = true). by rewrite token_lower, IH. }
  unfold CanonicalHeaderKey in *. rewrite Ht in Hc. rewrite Hl. by rewrite canonical_lower.
Qed.

(** ** The fields of a header block *)

Section Headers.
Context (lib : h3Library) `{!H3LibraryLaws lib}.

(** The values of a key. *)
Definition get (h : Header) (k : bytes) : list bytes := default [] (h !! k).

Definition no_empty (h : Header) : Prop := forall k, h !! k <> Some [].

Definition values (k : bytes) (fs : list HeaderField) : list bytes := map snd (List.filter (fun f => bool_decide (CanonicalHeaderKey f.1 = k)) fs).

Lemma values_app k fs gs : values k (fs ++ gs) = values k fs ++ values k gs.
Proof. unfold values. by rewrite List.filter_app, map_app. Qed.

Lemma values_other k fs : Forall (fun f => CanonicalHeaderKey f.1 <> k) fs -> values k fs = [].
Proof. unfold values. induction 1 as [|f fs Hf _ IH]; [done|]. cbn. by rewrite bool_decide_eq_false_2. Qed.

Lemma get_add h name v k : get (Header_Add h name v) k = get h k ++ (if bool_decide (CanonicalHeaderKey name = k) then [v] else []).
Proof.
  unfold get, Header_Add. cbv zeta. case_bool_decide as E; [subst k; by rewrite lookup_insert_eq|]. rewrite lookup_insert_ne by done. by rewrite app_nil_r.
Qed.

Lemma add_no_empty h name v : no_empty h -> no_empty (Header_Add h name v).
Proof.
  intros Hh k. unfold Header_Add. cbv zeta. destruct (decide (CanonicalHeaderKey name = k)) as [<-|Hne].
  - rewrite lookup_insert_eq. intros [= E]. by apply app_eq_nil in E as [_ ?].
  - rewrite lookup_insert_ne by done. apply Hh.
Qed.

(** The values of a key in the entries of a map, in any order, when an entry gives [g] of its values. *)
Lemma entries_values (g : list bytes -> list bytes) (l : list (bytes * list bytes)) k :
  NoDup l.*1 -> concat (map (fun e => if bool_decide (e.1 = k) then g e.2 else []) l) = from_option g [] ((list_to_map l : Header) !! k).
Proof.
  induction l as [|[k' vv] l IH]; intros Hn; [done|]. cbn in Hn. apply NoDup_cons in Hn as [Hni Hn]. cbn. case_bool_decide as E.
  - subst k'. rewrite lookup_insert_eq. cbn. rewrite IH, (not_elem_of_list_to_map_1 l k) by done. cbn. apply app_nil_r.
  - rewrite lookup_insert_ne by done. by apply IH.
Qed.

(** The fields of the entries of a map, when each entry gives fields under a name with its key, or nothing. *)
Lemma order_values h (fields : bytes -> list bytes -> list HeaderField) g k :
  (forall k' vv, h !! k' = Some vv -> values k (fields k' vv) = if bool_decide (k' = k) then g vv else []) ->
  values k (concat (map (fun e => fields e.1 e.2) (headerOrder lib h))) = from_option g [] (h !! k).
Proof.
  intros Hf. pose proof (header_order h) as Hp. assert (Hn : NoDup (headerOrder lib h).*1) by (rewrite Hp; apply NoDup_fst_map_to_list).
  transitivity (concat (map (fun e => if bool_decide (e.1 = k) then g e.2 else []) (headerOrder lib h))).
  - assert (Hl : Forall (fun e => h !! e.1 = Some e.2) (headerOrder lib h)).
    { rewrite Hp. apply Forall_forall. intros [k' vv] He. by apply elem_of_map_to_list in He. }
    clear Hp Hn. induction Hl as [|[k' vv] l He _ IH]; [done|]. cbn [map concat fst snd] in *. by rewrite values_app, IH, Hf.
  - rewrite entries_values by done. f_equal. rewrite (list_to_map_proper _ (map_to_list h)), list_to_map_to_list; done.
Qed.

(** The fields of one key under its name in small letters. *)
Lemma lower_values k' k vv : header_key k' -> values k (map (fun v => (ToLower k', v)) vv) = if bool_decide (k' = k) then vv else [].
Proof.
  intros Hk. case_bool_decide as E.
  - subst k. induction vv as [|v vv IH]; [done|]. unfold values in *. cbn. rewrite bool_decide_eq_true_2 by (by apply canonical_key). cbn. by rewrite IH.
  - apply values_other. apply Forall_forall. intros f (v & <- & _)%list_elem_of_In%in_map_iff. cbn. by rewrite canonical_key.
Qed.

(** ** Requests *)

(** The fields that the server puts into the header of a request. *)
Definition plain (name : bytes) : bool :=
  negb (bool_decide (name = txt ":path") || bool_decide (name = txt ":method") || bool_decide (name = txt ":authority") || bool_decide (name = txt "content-length")) &&
  negb (IsPseudo lib name).

Lemma add_field_headers p f :
  pt_headers (add_field lib p f) = if plain f.1 then Header_Add (pt_headers p) f.1 f.2 else pt_headers p.
Proof.
  destruct f as [name value]. unfold add_field, plain. cbn [fst snd]. destruct (bool_decide (name = txt ":path")), (bool_decide (name = txt ":method")), (bool_decide (name = txt ":authority")),
    (bool_decide (name = txt "content-length")), (IsPseudo lib name); done.
Qed.

Lemma fields_headers fs p k :
  get (pt_headers (foldl (add_field lib) p fs)) k = get (pt_headers p) k ++ values k (List.filter (fun f => plain f.1) fs).
Proof.
  revert p. induction fs as [|f fs IH]; intros p; cbn [foldl]; [by rewrite app_nil_r|]. rewrite IH, add_field_headers. cbn [List.filter]. destruct (plain f.1) eqn:Ep; [|done].
  rewrite get_add, <- app_assoc. f_equal. unfold values. cbn. by case_bool_decide.
Qed.

Lemma fields_no_empty fs p : no_empty (pt_headers p) -> no_empty (pt_headers (foldl (add_field lib) p fs)).
Proof.
  revert p. induction fs as [|f fs IH]; intros p Hp; [done|]. cbn [foldl]. apply IH. rewrite add_field_headers. case_if; [by apply add_no_empty|done].
Qed.

Lemma token_not_colon k : header_key k -> plain (ToLower k) = negb (bool_decide (ToLower k = txt "content-length")).
Proof.
  intros (Ht & _ & Hne). unfold plain. rewrite pseudo_colon. assert (Hh : head (ToLower k) <> Some 58).
  { destruct k as [|c k]; [done|]. cbn in *. apply andb_true_iff in Ht as [Hc _]. apply token_lower in Hc. intros [= E]. rewrite E in Hc. vm_compute in Hc. discriminate. }
  rewrite (bool_decide_eq_false_2 (head _ = _)) by done. rewrite andb_true_r. f_equal.
  rewrite !(bool_decide_eq_false_2 (ToLower k = txt (String _ _))) by (intros E; by rewrite E in Hh). done.
Qed.

(** The header fields that are not sent: the host and the length are sent in another way, the others belong to a connection. *)
Definition omitted : list bytes :=
  [txt "Host"; txt "Content-Length"; txt "Connection"; txt "Proxy-Connection"; txt "Transfer-Encoding"; txt "Upgrade"; txt "Keep-Alive"].

(** What is sent of the values of a key: of a User-Agent the first value, unless it is empty. *)
Definition sent_entry (k : bytes) (vv : list bytes) : list bytes :=
  if bool_decide (k ∈ omitted) then []
  else if bool_decide (k = txt "User-Agent") then match vv with [] | [] :: _ => [] | v :: _ => [v] end
  else vv.

Lemma fold_key k name : header_key k -> ToLower (txt name) = txt name -> EqualFold k (txt name) = bool_decide (k = CanonicalHeaderKey (txt name)).
Proof.
  intros Hk Hn. unfold EqualFold. rewrite Hn. apply bool_decide_ext. split.
  - intros E. rewrite <- E. by rewrite canonical_key.
  - intros ->. assert (Hl : forall t, ToLower (CanonicalHeaderKey t) = ToLower t).
    { intros t. unfold CanonicalHeaderKey. case_if; [|done]. generalize true. clear. induction t as [|c t IH]; intros b; [done|]. unfold ToLower in *. cbn. rewrite IH. f_equal.
      unfold upper_byte, lower_byte. destruct b; repeat (case_if; zbool; try lia). }
    by rewrite Hl.
Qed.

(** The fields of an entry, and whether it is a User-Agent. *)
Lemma entry_fields_eq k vv : header_key k -> entry_fields k vv = (map (fun v => (k, v)) (sent_entry k vv), bool_decide (k = txt "User-Agent")).
Proof.
  intros Hk. unfold entry_fields. rewrite !fold_key by done.
  change (CanonicalHeaderKey (txt "host")) with (txt "Host"). change (CanonicalHeaderKey (txt "content-length")) with (txt "Content-Length").
  change (CanonicalHeaderKey (txt "connection")) with (txt "Connection"). change (CanonicalHeaderKey (txt "proxy-connection")) with (txt "Proxy-Connection").
  change (CanonicalHeaderKey (txt "transfer-encoding")) with (txt "Transfer-Encoding"). change (CanonicalHeaderKey (txt "upgrade")) with (txt "Upgrade").
  change (CanonicalHeaderKey (txt "keep-alive")) with (txt "Keep-Alive"). change (CanonicalHeaderKey (txt "user-agent")) with (txt "User-Agent").
  unfold sent_entry. destruct (decide (k ∈ omitted)) as [Ho|Ho].
  - rewrite (bool_decide_eq_true_2 (k ∈ omitted)) by done. unfold omitted in Ho. rewrite !elem_of_cons, elem_of_nil in Ho.
    rewrite (bool_decide_eq_false_2 (k = txt "User-Agent")) by (intros ->; vm_compute in Ho; naive_solver).
    repeat destruct Ho as [->|Ho]; done.
  - rewrite (bool_decide_eq_false_2 (k ∈ omitted)) by done. unfold omitted in Ho. rewrite !not_elem_of_cons in Ho. destruct Ho as (? & ? & ? & ? & ? & ? & ? & _).
    rewrite !(bool_decide_eq_false_2 (k = txt (String _ _))) at 1 by done. cbn [orb]. case_bool_decide; [|done]. destruct vv as [|[|c v] vv]; done.
Qed.

Definition lower_fields (fs : list HeaderField) : list HeaderField := map (fun '(name, value) => (ToLower name, value)) fs.

Lemma plain_values k fs : Forall (fun f => CanonicalHeaderKey f.1 = k -> plain f.1 = false) fs -> values k (List.filter (fun f => plain f.1) fs) = [].
Proof.
  induction 1 as [|f fs Hf _ IH]; [done|]. cbn [List.filter]. destruct (plain f.1) eqn:Ep; [|done]. unfold values in *. cbn. case_bool_decide as E; [|done]. discriminate (Hf E).
Qed.

(** The fields that an entry of the header becomes are for its key, and go to the header of the request. *)
Lemma entry_plain k vv : header_key k -> Forall (fun f => plain f.1 = true) (lower_fields (entry_fields k vv).1).
Proof.
  intros Hk. rewrite entry_fields_eq by done. unfold lower_fields. cbn [fst]. rewrite map_map. apply Forall_map, Forall_forall. intros v Hv. cbn. rewrite token_not_colon by done.
  rewrite bool_decide_eq_false_2; [done|]. intros E. assert (Ek : k = txt "Content-Length") by (rewrite <- (canonical_key k Hk), E; reflexivity). subst k. by apply elem_of_nil in Hv.
Qed.

Lemma entry_values k' vv k :
  header_key k' ->
  values k (List.filter (fun f => plain f.1) (lower_fields (entry_fields k' vv).1)) = if bool_decide (k' = k) then sent_entry k vv else [].
Proof.
  intros Hk'. assert (Hf : forall fs, Forall (fun f => plain f.1 = true) fs -> List.filter (fun f : HeaderField => plain f.1) fs = fs).
  { induction 1 as [|f fs Hp _ IH]; [done|]. cbn. by rewrite Hp, IH. }
  rewrite Hf by (by apply entry_plain). rewrite entry_fields_eq by done. unfold lower_fields. cbn [fst]. rewrite map_map, lower_values by done. case_bool_decide; by subst.
Qed.

(** Whether the header has a User-Agent. *)
Lemma user_agent_entry h :
  (forall k' vv, h !! k' = Some vv -> header_key k') ->
  existsb snd (map (fun e => entry_fields e.1 e.2) (headerOrder lib h)) = bool_decide (is_Some (h !! txt "User-Agent")).
Proof.
  intros Hkeys. assert (Hl : forall e, e ∈ headerOrder lib h <-> h !! e.1 = Some e.2).
  { intros [k vv]. rewrite header_order. apply elem_of_map_to_list. }
  apply eq_true_iff_eq. rewrite existsb_exists, bool_decide_eq_true. split.
  - intros (x & (e & <- & He)%in_map_iff & Hx). apply list_elem_of_In, Hl in He. rewrite entry_fields_eq in Hx by eauto. cbn in Hx. apply bool_decide_eq_true in Hx. rewrite <- Hx. by eexists.
  - intros [vv Hv]. exists (entry_fields (txt "User-Agent") vv). split; [|by rewrite entry_fields_eq by eauto].
    apply in_map_iff. exists (txt "User-Agent", vv). split; [done|]. by apply list_elem_of_In, Hl.
Qed.

(** The values of a key that a client sends for a header: its own, and those that it adds. *)
Definition sent_values (gzip : bool) (h : Header) (k : bytes) : list bytes :=
  from_option (sent_entry k) [] (h !! k) ++
  (if gzip && bool_decide (k = txt "Accept-Encoding") then [txt "gzip"] else []) ++
  (if bool_decide (k = txt "User-Agent") && bool_decide (h !! k = None) then [txt "quic-go HTTP/3"] else []).

Lemma added_value (c : bool) name key v k :
  plain (ToLower (txt name)) = true -> CanonicalHeaderKey (ToLower (txt name)) = key ->
  values k (List.filter (fun f => plain f.1) (map (fun '(name, value) => (ToLower name, value)) (if c then [(txt name, v)] else []))) = if c && bool_decide (k = key) then [v] else [].
Proof.
  intros Hp Hk. destruct c; [|done]. cbn [map List.filter fst]. rewrite Hp. unfold values. cbn [List.filter fst]. rewrite Hk. cbn [andb].
  destruct (decide (key = k)) as [->|Hne]; [by rewrite !bool_decide_eq_true_2|]. by rewrite !bool_decide_eq_false_2.
Qed.

(** What the server reads of the fields that a client writes. *)
Lemma request_values req scheme host path gzip n k :
  let h := default ∅ (rq_Header req) in
  (forall k' vv, h !! k' = Some vv -> header_key k') ->
  values k (List.filter (fun f => plain f.1) (lower_fields (enumerateHeaders lib req scheme host path gzip [] n))) = sent_values gzip h k.
Proof.
  intros h Hkeys. unfold enumerateHeaders. cbv zeta. fold h. unfold lower_fields. rewrite !map_app, !List.filter_app, !values_app. fold lower_fields.
  assert (Hpath : plain (txt ":path") = false) by done. assert (Hcl : plain (txt "content-length") = false) by done.
  assert (Hscheme : plain (txt ":scheme") = false) by (unfold plain; by rewrite pseudo_colon, andb_false_r).
  rewrite (plain_values k (map _ [_; _])) by (repeat constructor; cbn; intros _; reflexivity).
  rewrite (plain_values k (map _ (if bool_decide (rq_Method req = _) then _ else _))) by (case_bool_decide; repeat constructor; cbn; intros _; done).
  rewrite (plain_values k (map _ (if shouldSendReqContentLength _ _ then _ else _))) by (case_if; repeat constructor; cbn; intros _; done).
  rewrite (added_value gzip "accept-encoding" (txt "Accept-Encoding")) by (done || (unfold plain; by rewrite pseudo_colon)).
  rewrite user_agent_entry by done. set (ua := bool_decide (is_Some (h !! txt "User-Agent"))).
  replace (if ua then [] else [(txt "user-agent", txt "quic-go HTTP/3")]) with (if negb ua then [(txt "user-agent", txt "quic-go HTTP/3")] else []) by (by destruct ua).
  rewrite (added_value (negb ua) "user-agent" (txt "User-Agent")) by (done || (unfold plain; by rewrite pseudo_colon)).
  case_bool_decide; [|done]. cbn [map List.filter app]. change (values k []) with (@nil bytes). cbn [app]. unfold sent_values. f_equal; [|f_equal].
  - rewrite map_map, <- (order_values h (fun k' vv => List.filter (fun f => plain f.1) (lower_fields (entry_fields k' vv).1)) (sent_entry k)).
    + generalize (headerOrder lib h). intros l. induction l as [|e l IH]; [done|]. cbn [map concat]. rewrite map_app, List.filter_app, !values_app. by rewrite IH.
    + intros k' vv Hl. apply entry_values; eauto.
  - unfold ua. destruct (decide (k = txt "User-Agent")) as [->|Hne]; [|by rewrite (bool_decide_eq_false_2 (k = _)), andb_false_r by done].
    rewrite (bool_decide_eq_true_2 (txt "User-Agent" = _)) by done. by destruct (h !! txt "User-Agent").
Qed.

(** The parts of a request other than its header. *)
Definition same_parts (p q : requestParts) : Prop :=
  pt_path q = pt_path p /\ pt_method q = pt_method p /\ pt_authority q = pt_authority p /\ pt_contentLength q = pt_contentLength p.

Lemma plain_keeps fs p : Forall (fun f => plain f.1 = true) fs -> same_parts p (foldl (add_field lib) p fs).
Proof.
  intros Hf. revert p. induction Hf as [|[name value] fs Hf _ IH]; intros p; [done|]. cbn [foldl]. specialize (IH (add_field lib p (name, value))).
  assert (Hs : same_parts p (add_field lib p (name, value))).
  { unfold plain in Hf. cbn in Hf. unfold add_field, same_parts. rewrite andb_true_iff, negb_true_iff, !orb_false_iff in Hf. destruct Hf as [[[[-> ->] ->] ->] ->]. done. }
  unfold same_parts in *. naive_solver congruence.
Qed.

Lemma entries_plain req :
  (forall k' vv, default ∅ (rq_Header req) !! k' = Some vv -> header_key k') ->
  Forall (fun f => plain f.1 = true) (lower_fields (concat (map fst (map (fun e => entry_fields e.1 e.2) (headerOrder lib (default ∅ (rq_Header req))))))).
Proof.
  intros Hkeys. assert (Hl : Forall (fun e => header_key e.1) (headerOrder lib (default ∅ (rq_Header req)))).
  { rewrite header_order. apply Forall_forall. intros [k' vv] He%elem_of_map_to_list. eauto. }
  induction Hl as [|[k vv] l Hk _ IH]; [constructor|]. cbn [map concat fst snd]. unfold lower_fields in *. rewrite map_app. apply Forall_app. split; [by apply entry_plain|exact IH].
Qed.

Lemma field_scheme p v : add_field lib p (ToLower (txt ":scheme"), v) = p.
Proof.
  change (ToLower (txt ":scheme")) with (txt ":scheme"). unfold add_field. rewrite !bool_decide_eq_false_2 by (vm_compute; discriminate).
  by rewrite pseudo_colon.
Qed.

Lemma request_parts req scheme host path gzip n :
  (forall k' vv, default ∅ (rq_Header req) !! k' = Some vv -> header_key k') -> rq_Method req <> txt "CONNECT" ->
  let p := foldl (add_field lib) (mkRequestParts [] [] [] [] ∅) (lower_fields (enumerateHeaders lib req scheme host path gzip [] n)) in
  pt_path p = path /\ pt_method p = rq_Method req /\ pt_authority p = host /\
  pt_contentLength p = if shouldSendReqContentLength (rq_Method req) n then FormatInt n else [].
Proof.
  intros Hkeys Hm p. subst p. unfold enumerateHeaders. cbv zeta. unfold lower_fields. rewrite !map_app, !foldl_app. rewrite (bool_decide_eq_false_2 (rq_Method req = _)) by done.
  case_bool_decide; [|done]. pose proof (entries_plain req Hkeys) as He. unfold lower_fields in He. set (es := map _ (concat _)) in *.
  match goal with |- context [foldl _ ?q es] => set (p0 := q) end. set (p1 := foldl (add_field lib) p0 es). pose proof (plain_keeps es p0 He) as H1. fold p1 in H1.
  assert (Hp0 : pt_path p0 = path /\ pt_method p0 = rq_Method req /\ pt_authority p0 = host /\ pt_contentLength p0 = []).
  { subst p0. cbn [map foldl]. rewrite field_scheme. split_and!; reflexivity. }
  clearbody p0 p1. match goal with |- context [foldl ?f p1 ?l] => set (p2 := foldl f p1 l) end.
  assert (Hp2 : pt_path p2 = path /\ pt_method p2 = rq_Method req /\ pt_authority p2 = host /\ pt_contentLength p2 = if shouldSendReqContentLength (rq_Method req) n then FormatInt n else []).
  { subst p2. unfold same_parts in H1. case_if; cbn [map foldl]; [|intuition congruence].
    change (add_field lib p1 (ToLower (txt "content-length"), FormatInt n)) with (p1 <| pt_contentLength := FormatInt n |>). cbn. intuition congruence. }
  clearbody p2. match goal with |- context [foldl ?f p2 ?l] => set (p3 := foldl f p2 l) end. assert (Hp3 : same_parts p2 p3).
  { subst p3. destruct gzip; [|done]. apply plain_keeps. repeat constructor. unfold plain. rewrite pseudo_colon. done. }
  clearbody p3. match goal with |- context [foldl ?f p3 ?l] => set (p4 := foldl f p3 l) end. assert (Hp4 : same_parts p3 p4).
  { subst p4. case_if; [done|]. apply plain_keeps. repeat constructor. unfold plain. rewrite pseudo_colon. done. }
  clearbody p4. unfold same_parts in *. intuition congruence.
Qed.

(** The header that the handler gets, for the header that the client was given: cookies are joined. *)
Definition header_received (gzip : bool) (h h' : Header) : Prop :=
  forall k, get h' k =
    if bool_decide (k = txt "Cookie") then match sent_values gzip h k with [] => [] | vs => [Join vs (txt "; ")] end else sent_values gzip h k.

(** The length of the body, as far as the server is told: the one that the client was given, if it is known. *)
Definition length_received (req : Request) (body : option source) : Z := match body with None => 0 | Some _ => Z.max 0 (rq_ContentLength req) end.

Lemma length_header req body :
  rq_ContentLength req <= MaxInt64 ->
  let n := actualContentLength req body in
  match (if shouldSendReqContentLength (rq_Method req) n then FormatInt n else []) with [] => mret 0 | s => ParseInt s end = Ret (length_received req body).
Proof.
  intros Hcl n. assert (Hn : n <= MaxInt64) by (subst n; unfold actualContentLength, MaxInt64 in *; destruct body; [case_if; lia|lia]).
  assert (Hl : length_received req body = if shouldSendReqContentLength (rq_Method req) n then n else 0).
  { unfold length_received, shouldSendReqContentLength. subst n. unfold actualContentLength. destruct body; [|by repeat case_if].
    destruct (Z.eqb_spec (rq_ContentLength req) 0) as [E|E]; [by rewrite E|]. destruct (Z.ltb_spec 0 (rq_ContentLength req)); [lia|].
    destruct (Z.ltb_spec (rq_ContentLength req) 0); lia. }
  rewrite Hl. destruct (shouldSendReqContentLength (rq_Method req) n) eqn:Es; [|done].
  assert (0 <= n) by (unfold shouldSendReqContentLength in Es; repeat case_if_in Es; zbool; lia || done).
  pose proof (ParseInt_FormatInt n ltac:(lia)) as Hpf. destruct (FormatInt n) eqn:Ef; [|done]. discriminate Hpf.
Qed.

Lemma request_read req scheme host path gzip body u :
  let h := default ∅ (rq_Header req) in
  (forall k' vv, h !! k' = Some vv -> header_key k') -> rq_Method req <> txt "CONNECT" -> rq_Method req <> [] -> host <> [] -> path <> [] ->
  ParseRequestURI lib path = Ret u -> rq_ContentLength req <= MaxInt64 ->
  exists h', requestFromHeaders lib (lower_fields (enumerateHeaders lib req scheme host path gzip [] (actualContentLength req body))) =
    Ret (mkRequest (rq_Method req) (Some u) (Some h') host (length_received req body) path) /\ header_received gzip h h'.
Proof.
  intros h Hkeys Hc Hm Hh Hp Hu Hn. unfold requestFromHeaders. cbv zeta. set (n := actualContentLength req body).
  destruct (request_parts req scheme host path gzip n Hkeys Hc) as (E1 & E2 & E3 & E4).
  pose proof (fields_headers (lower_fields (enumerateHeaders lib req scheme host path gzip [] n)) (mkRequestParts [] [] [] [] ∅)) as Hg.
  pose proof (fields_no_empty (lower_fields (enumerateHeaders lib req scheme host path gzip [] n)) (mkRequestParts [] [] [] [] ∅) ltac:(intros k; cbn [pt_headers]; by rewrite lookup_empty)) as Hne.
  set (p := foldl _ _ _) in *. clearbody p. rewrite E1, E2, E3, E4, !bool_decide_eq_false_2 by done. cbn [orb]. rewrite (outcome_bind_eq _ _ _ Hu).
  rewrite (outcome_bind_eq _ _ _ (length_header req body Hn)). eexists. split; [reflexivity|].
  assert (Hget : forall k, get (pt_headers p) k = sent_values gzip h k) by (intros k; rewrite Hg; cbn [pt_headers]; by rewrite request_values).
  intros k. rewrite <- Hget. destruct (decide (k = txt "Cookie")) as [->|Hk].
  - rewrite bool_decide_eq_true_2 by done. specialize (Hne (txt "Cookie")). unfold get at 2. destruct (pt_headers p !! txt "Cookie") as [[|v vs]|] eqn:Ec; [done| |].
    + unfold get, Header_Set. change (CanonicalHeaderKey (txt "Cookie")) with (txt "Cookie"). by rewrite lookup_insert_eq.
    + unfold get. by rewrite Ec.
  - rewrite bool_decide_eq_false_2 by done. destruct (pt_headers p !! txt "Cookie") as [[|v vs]|]; [done| |done]. unfold get, Header_Set. rewrite lookup_insert_ne; [done|].
    intros E. apply Hk. rewrite <- E. reflexivity.
Qed.

(** A CONNECT request has no path, without which the server refuses it. *)
Lemma connect_refused req scheme host path gzip n :
  (forall k' vv, default ∅ (rq_Header req) !! k' = Some vv -> header_key k') -> rq_Method req = txt "CONNECT" ->
  requestFromHeaders lib (lower_fields (enumerateHeaders lib req scheme host path gzip [] n)) = Error (ErrorString ":path, :authority and :method must not be empty").
Proof.
  intros Hkeys Hm. unfold requestFromHeaders. cbv zeta. set (p := foldl _ _ _). assert (Hp : pt_path p = []); [|by rewrite Hp].
  assert (Hnp : forall fs q, Forall (fun f : HeaderField => f.1 <> txt ":path") fs -> pt_path (foldl (add_field lib) q fs) = pt_path q).
  { intros fs q Hf. revert q. induction Hf as [|[name v] fs Hn _ IH]; intros q; [done|]. cbn [foldl]. rewrite IH. unfold add_field. cbn in Hn. rewrite bool_decide_eq_false_2 by done.
    repeat case_if; done. }
  subst p. rewrite Hnp; [done|]. unfold enumerateHeaders. cbv zeta. rewrite (bool_decide_eq_true_2 (rq_Method req = _)) by done. unfold lower_fields. rewrite !map_app. cbn [map app].
  rewrite !Forall_cons, !Forall_app. split_and!; [by vm_compute|by vm_compute|by case_bool_decide; repeat constructor| |..].
  - eapply Forall_impl; [apply (entries_plain req Hkeys)|]. intros [name v] Hpl E. cbn in *. subst name. by vm_compute in Hpl.
  - case_if; repeat constructor; by vm_compute.
  - destruct gzip; repeat constructor; by vm_compute.
  - case_if; repeat constructor; by vm_compute.
Qed.

(** ** The stream of a request *)

Definition new_writer : writer := mkWriter [] None false None.

(** A body that is read in pieces; with the end of the body the reader can return more bytes. *)
Definition source_of (ds : list bytes) (tail : bytes) : source := map (fun d => (d, None)) ds ++ [(tail, Some EOF)].

Lemma dataFrame_bytes l : is_varint l -> dataFrame_Write [] l = Ret (varint_bytes 0 ++ varint_bytes l).
Proof. intros Hl. unfold dataFrame_Write. by rewrite (outcome_bind_eq _ _ _ (WriteVarInt_app [] 0 ltac:(done))), (WriteVarInt_app _ l Hl). Qed.

Lemma headersFrame_bytes l : is_varint l -> headersFrame_Write [] l = Ret (varint_bytes 1 ++ varint_bytes l).
Proof. intros Hl. unfold headersFrame_Write. by rewrite (outcome_bind_eq _ _ _ (WriteVarInt_app [] 1 ltac:(done))), (WriteVarInt_app _ l Hl). Qed.

Lemma frame_panics l : maxVarInt8 < l -> (exists msg, headersFrame_Write [] l = Panic msg) /\ exists msg, dataFrame_Write [] l = Panic msg.
Proof.
  intros Hl. unfold headersFrame_Write, dataFrame_Write. rewrite (outcome_bind_eq _ _ _ (WriteVarInt_app [] 1 ltac:(done))), (outcome_bind_eq _ _ _ (WriteVarInt_app [] 0 ltac:(done))).
  by split; apply WriteVarInt_panics.
Qed.

Lemma body_sent ds tail w :
  wr_fails w = None -> Forall (fun d => is_varint (Z.of_nat (length d))) ds ->
  sendRequestBody (source_of ds tail) w = Ret (w <| wr_written := wr_written w ++ stream_of (map Data ds) |>, None, true).
Proof.
  intros Hw Hd. revert w Hw. induction Hd as [|d ds Hd _ IH]; intros w Hw.
  - cbn. rewrite app_nil_r. by destruct w.
  - unfold source_of. cbn [map app sendRequestBody]. fold (source_of ds tail). rewrite (outcome_bind_eq _ _ _ (dataFrame_bytes _ Hd)). unfold stream_Write. rewrite Hw. cbn. rewrite Hw.
    rewrite IH by (cbn; by rewrite Hw). cbn. unfold stream_of, frame_bytes. cbn. by rewrite <- !app_assoc.
Qed.

(** The first frame of a stream with a header block. *)
Lemma headers_parsed s block rest :
  is_varint (Z.of_nat (length block)) -> block <> [] -> str_data s = frame_bytes 1 block ++ rest ->
  exists s1 s2, parseNextFrame s = (Ret (headersFrame (Z.of_nat (length block))), s1) /\ stream_ReadFull (Z.of_nat (length block)) s1 = (Ret block, s2) /\
    str_data s2 = rest /\ str_end s2 = str_end s.
Proof.
  intros Hl Hb Hd. unfold frame_bytes in Hd. rewrite <- !app_assoc in Hd. unfold parseNextFrame.
  destruct (parse_header (length (str_data s)) s 1 _ _ ltac:(done) Hl Hd) as (s1 & Hd1 & He1 & [E|(_ & Hnil & _)]); [|by apply app_eq_nil in Hnil as [? _]].
  destruct (read_full s1 _ _ _ Hd1 eq_refl) as (s2 & E2 & Hd2 & He2). exists s1, s2. split; [exact E|]. split_and!; [done|done|congruence].
Qed.

(** The path that is requested: what follows the host in the URI, a path or an asterisk. *)
Definition is_path (p : bytes) : Prop := head p = Some 47 \/ p = txt "*".
Definition path_of (u : URL) (host path : bytes) : Prop :=
  is_path path /\ (url_RequestURI u = path \/ ~ is_path (url_RequestURI u) /\ url_RequestURI u = url_Scheme u ++ txt "://" ++ host ++ path).

Lemma is_path_valid p : validPseudoPath p = true <-> is_path p.
Proof. unfold validPseudoPath, is_path. by rewrite orb_true_iff, !bool_decide_eq_true. Qed.

Lemma request_path_of req u host path : rq_Method req <> txt "CONNECT" -> path_of u host path -> request_path req u host = Ret path.
Proof.
  intros Hm [Hp Hu]. unfold request_path. rewrite bool_decide_eq_false_2 by done. apply is_path_valid in Hp. destruct Hu as [->|[Hn Hu]]; [by rewrite Hp|].
  destruct (validPseudoPath (url_RequestURI u)) eqn:E; [by apply is_path_valid in E|]. rewrite Hu. unfold TrimPrefix.
  replace (url_Scheme u ++ txt "://" ++ host ++ path) with ((url_Scheme u ++ txt "://" ++ host) ++ path) by (by rewrite <- !app_assoc).
  rewrite take_app_length, bool_decide_eq_true_2, drop_app_length by done. by rewrite Hp.
Qed.

(** The fields that are written for a header that can be sent. *)
Lemma headers_valid nameFormat valueFormat h :
  (forall k vv, h !! k = Some vv -> ValidHeaderFieldName lib k = true /\ Forall (fun v => ValidHeaderFieldValue lib v = true) vv) ->
  check_headers lib nameFormat valueFormat (headerOrder lib h) = None.
Proof.
  intros Hh. assert (Hl : Forall (fun e => ValidHeaderFieldName lib e.1 = true /\ Forall (fun v => ValidHeaderFieldValue lib v = true) e.2) (headerOrder lib h)).
  { rewrite header_order. apply Forall_forall. intros [k vv] He%elem_of_map_to_list. by apply Hh. }
  induction Hl as [|[k vv] l [Hk Hv] _ IH]; [done|]. cbn [check_headers]. cbn in Hk, Hv. rewrite Hk. cbn [negb].
  assert (Ev : check_values lib valueFormat k vv = None) by (clear -Hv; induction Hv as [|v vv E _ IH]; [done|]; cbn; by rewrite E, IH). by rewrite Ev, IH.
Qed.

Lemma fields_encoded req u host path gzip n :
  rq_URL req = Some u -> PunycodeHostPort lib (match rq_Host req with [] => url_Host u | h => h end) = Ret host ->
  (rq_Method req <> txt "CONNECT" -> path_of u host path) ->
  (forall k vv, default ∅ (rq_Header req) !! k = Some vv -> ValidHeaderFieldName lib k = true /\ Forall (fun v => ValidHeaderFieldValue lib v = true) vv) ->
  exists path', (rq_Method req <> txt "CONNECT" -> path' = path) /\ encodeHeaders lib req gzip [] n = Ret (lower_fields (enumerateHeaders lib req (url_Scheme u) host path' gzip [] n)).
Proof.
  intros Hu Hpc Hp Hh. exists (if bool_decide (rq_Method req = txt "CONNECT") then [] else path). split; [intros Hm; by rewrite bool_decide_eq_false_2|].
  unfold encodeHeaders. rewrite Hu, (outcome_bind_eq _ _ _ Hpc).
  assert (E : request_path req u host = Ret (if bool_decide (rq_Method req = txt "CONNECT") then [] else path)).
  { case_bool_decide as Hm; [unfold request_path; by rewrite bool_decide_eq_true_2|]. apply request_path_of; auto. }
  by rewrite (outcome_bind_eq _ _ _ E), headers_valid.
Qed.

(** C9. A request arrives: what a client writes for a request with a valid header is read by the server as a request with the same method, the host in ASCII, the
    path of the URI, the length of the body if the client knows it, and the same header, but for the fields that belong to the connection, which are left out, the
    User-Agent and Accept-Encoding that the client adds, and the cookies, which are joined; and the handler that reads the body gets what the reader
    of the client returned before the end of the body, and then EOF, however the body is read on both sides and
    however the stream is cut into calls of Read. Bytes that the reader of the client returns together with EOF are not sent. A CONNECT request is written, but the server
    refuses it. *)
Theorem request_arrives req u host path gzip (body : option (list bytes * bytes)) u' :
  let h := default ∅ (rq_Header req) in
  let src := option_map (fun '(ds, tail) => source_of ds tail) body in
  let data := match body with Some (ds, _) => ds | None => [] end in
  rq_URL req = Some u -> PunycodeHostPort lib (match rq_Host req with [] => url_Host u | h => h end) = Ret host ->
  (rq_Method req <> txt "CONNECT" -> path_of u host path /\ ParseRequestURI lib path = Ret u') ->
  (forall k vv, h !! k = Some vv -> header_key k /\ ValidHeaderFieldName lib k = true /\ Forall (fun v => ValidHeaderFieldValue lib v = true) vv) ->
  rq_Method req <> [] -> host <> [] -> rq_ContentLength req <= MaxInt64 ->
  (forall fields, encodeHeaders lib req gzip [] (actualContentLength req src) = Ret fields ->
     is_varint (Z.of_nat (length (qpack_encode lib fields))) /\ Z.of_nat (length (qpack_encode lib fields)) <= maxAlloc lib) ->
  Forall (fun d => is_varint (Z.of_nat (length d))) data ->
  exists w, WriteRequest lib new_writer req src gzip = Ret (w, None) /\ wr_closed w = true /\
    forall s, str_data s = wr_written w -> str_end s = EOF -> exists s',
      if bool_decide (rq_Method req = txt "CONNECT") then
        read_request lib s = (Ret (inr (ErrorString ":path, :authority and :method must not be empty", None)), s')
      else exists h',
        read_request lib s = (Ret (inl (mkRequest (rq_Method req) (Some u') (Some h') host (length_received req src) path)), s') /\
        header_received gzip h h' /\
        forall sizes, (forall i, 1 <= sizes i) -> read_all (S (length (str_data s'))) sizes (newRequestBody s') = Ret (concat data, EOF).
Proof.
  intros h src data Hu Hpc Hpath Hh Hm Hhost Hcl Hlen Hds. assert (Hkeys : forall k vv, h !! k = Some vv -> header_key k) by (intros k vv Hk; by destruct (Hh k vv Hk)).
  destruct (fields_encoded req u host path gzip (actualContentLength req src) Hu Hpc) as (path' & Hp' & Henc); [intros Hc; by destruct (Hpath Hc)|intros k vv Hk; by destruct (Hh k vv Hk)|].
  destruct (Hlen _ Henc) as [Hl Ha]. set (fields := lower_fields _) in *.
  assert (Hget : getHeaders lib req src gzip = Ret (frame_bytes 1 (qpack_encode lib fields))).
  { unfold getHeaders. rewrite (outcome_bind_eq _ _ _ Henc), (outcome_bind_eq _ _ _ (headersFrame_bytes _ Hl)). unfold frame_bytes. by rewrite app_assoc. }
  assert (Hw : exists w, WriteRequest lib new_writer req src gzip = Ret (w, None) /\ wr_closed w = true /\
    wr_written w = frame_bytes 1 (qpack_encode lib fields) ++ stream_of (map Data data)).
  { unfold WriteRequest. rewrite Hget. unfold stream_Write at 1. cbn [wr_fails new_writer]. destruct body as [[ds tail]|]; subst src; cbn [option_map].
    - rewrite body_sent by done. eexists. split; [reflexivity|]. split; reflexivity.
    - eexists. split; [reflexivity|]. cbn. by rewrite app_nil_r. }
  destruct Hw as (w & Hw & Hclosed & Hwr). exists w. split; [done|]. split; [done|]. intros s Hd He. rewrite Hwr in Hd.
  destruct (headers_parsed s _ _ Hl (qpack_prefix fields) Hd) as (s1 & s2 & E1 & E2 & Hd2 & He2). exists s2.
  assert (Hread : read_request lib s = match requestFromHeaders lib fields with Ret req => (Ret (inl req), s2) | Error e => (Ret (inr (e, None)), s2) | Panic msg => (Panic msg, s2) end).
  { unfold read_request. rewrite E1, (proj2 (Z.ltb_ge _ _)) by lia. by rewrite E2, qpack_roundtrip. }
  case_bool_decide as Hc; [by rewrite Hread; unfold fields; rewrite connect_refused|]. destruct (Hpath Hc) as [Hpo Hparse]. specialize (Hp' Hc).
  destruct (request_read req (url_Scheme u) host path gzip src u' Hkeys Hc Hm Hhost) as (h' & Hreq & Hrec); [|done..|].
  { destruct Hpo as [[Hx| ->] _]; [by intros ->|by vm_compute]. }
  exists h'. split_and!; [by rewrite Hread; unfold fields; rewrite Hp', Hreq|done|].
  intros sizes Hs. rewrite (read_all_data _ sizes _ [] (map Data data)); try done; [|by apply Forall_map|cbn; congruence|cbn; lia].
  cbn [app]. unfold data_of. rewrite map_map. cbn [item_data]. by rewrite map_id.
Qed.

(** ** Responses *)

(** What a response is: the header that the handler has set so far, the status and the header that were sent, and the data. *)
Record responseSpec := mkResponseSpec {
  sp_header : Header;
  sp_sent : option (Z * Header);
  sp_data : bytes
}.

#[local] Instance responseSpec_eta : Eta responseSpec := fun r => mkResponseSpec (sp_header r) (sp_sent r) (sp_data r).

Definition no_response : responseSpec := mkResponseSpec ∅ None [].

Definition header_block (status : Z) (h : Header) : bytes := qpack_encode lib (response_fields lib status h).

(** The status and the header are those of the first call; a block that is too long for a frame is a panic. *)
Definition spec_header (sp : responseSpec) (status : Z) : bool * responseSpec :=
  match sp_sent sp with
  | Some _ => (true, sp)
  | None => (Z.of_nat (length (header_block status (sp_header sp))) <=? maxVarInt8, sp <| sp_sent := Some (status, sp_header sp) |>)
  end.

Fixpoint serve_spec (h : handler) (b : body) (sp : responseSpec) : bool * body * responseSpec :=
  match h with
  | HandlerReturns => (false, b, sp)
  | HandlerPanics => (true, b, sp)
  | HandlerRead n k =>
      match body_Read b n with
      | (Ret (d, err), b) => serve_spec (k d err) b sp
      | (_, b) => (true, b, sp)
      end
  | HandlerHeader change k => serve_spec k b (sp <| sp_header := change (sp_header sp) |>)
  | HandlerWriteHeader status k => match spec_header sp status with (true, sp) => serve_spec k b sp | (false, sp) => (true, b, sp) end
  | HandlerWrite p k =>
      match spec_header sp 200 with
      | (false, sp) => (true, b, sp)
      | (true, sp) =>
          if negb (bodyAllowedForStatus (default 200 (fst <$> sp_sent sp))) then
            serve_spec (k (Some (ErrorString "http: request method or response status code does not allow body"))) b sp
          else if Z.of_nat (length p) <=? maxVarInt8 then serve_spec (k None) b (sp <| sp_data := sp_data sp ++ p |>)
          else (true, b, sp)
      end
  end.

(** The response writer has written what the response is, if its header fits in a frame. *)
Definition written (sp : responseSpec) (w : responseWriter) : Prop :=
  rw_header w = sp_header sp /\ wr_fails (rw_stream w) = None /\
  match sp_sent sp with
  | None => rw_headerWritten w = false /\ wr_written (rw_stream w) = [] /\ sp_data sp = []
  | Some (status, h) =>
      rw_headerWritten w = true /\ rw_status w = status /\
      (is_varint (Z.of_nat (length (header_block status h))) -> exists ps, wr_written (rw_stream w) = frame_bytes 1 (header_block status h) ++ stream_of (map Data ps) /\ concat ps = sp_data sp /\
        Forall (fun p => is_varint (Z.of_nat (length p))) ps)
  end.

Lemma length_varint (l : bytes) : Z.of_nat (length l) <= maxVarInt8 -> is_varint (Z.of_nat (length l)).
Proof. unfold is_varint. lia. Qed.

Lemma WriteHeader_written sp w status : written sp w ->
  match spec_header sp status with
  | (true, sp') => exists w', WriteHeader lib w status = Ret w' /\ written sp' w'
  | (false, sp') => exists msg, WriteHeader lib w status = Panic msg /\ written sp' (header_panicked w status)
  end.
Proof.
  intros (Hh & Hf & Hs). unfold spec_header, WriteHeader. destruct (sp_sent sp) as [[st h]|] eqn:Es.
  - destruct Hs as (Hw & Hs). rewrite Hw. exists w. split; [done|]. split_and!; [done|done|]. rewrite Es. by split.
  - destruct Hs as (-> & Hw & Hdata). cbv zeta. fold (header_panicked w status). change (rw_header (header_panicked w status)) with (rw_header w). rewrite Hh. fold (header_block status (sp_header sp)).
    destruct (_ <=? _) eqn:El; zbool.
    + assert (Hfit : is_varint (Z.of_nat (length (header_block status (sp_header sp))))) by (apply length_varint; lia).
      rewrite (outcome_bind_eq _ _ _ (headersFrame_bytes _ Hfit)). eexists. split; [reflexivity|]. split_and!; cbn.
      * done.
      * unfold stream_Write. rewrite Hf. cbn. by rewrite Hf.
      * split; [done|]. split; [done|]. intros _. exists []. split_and!; [|done|constructor]. unfold stream_Write. rewrite Hf. cbn. rewrite Hf. cbn. rewrite Hw, app_nil_r.
        unfold frame_bytes. done.
    + destruct (frame_panics (Z.of_nat (length (header_block status (sp_header sp)))) ltac:(lia)) as [(msg & ->) _]. exists msg. split; [done|].
      split_and!; cbn; [done|done|]. split_and!; [done|done|]. unfold is_varint. lia.
Qed.

Lemma spec_header_sent sp status : exists st h, sp_sent (spec_header sp status).2 = Some (st, h).
Proof. unfold spec_header. destruct (sp_sent sp) as [[st h]|] eqn:E; cbn; eauto. Qed.

Lemma write_data_written sp w p st h : written sp w -> sp_sent sp = Some (st, h) ->
  if negb (bodyAllowedForStatus st) then write_data w p = Ret (w, Some (ErrorString "http: request method or response status code does not allow body"))
  else if Z.of_nat (length p) <=? maxVarInt8 then exists w', write_data w p = Ret (w', None) /\ written (sp <| sp_data := sp_data sp ++ p |>) w'
  else exists msg, write_data w p = Panic msg.
Proof.
  intros (Hh & Hf & Hs) Es. rewrite Es in Hs. destruct Hs as (Hw & Hst & Hs). unfold write_data. rewrite Hst. case_if; [done|]. case_if; zbool.
  - assert (Hp : is_varint (Z.of_nat (length p))) by (apply length_varint; lia). rewrite (outcome_bind_eq _ _ _ (dataFrame_bytes _ Hp)). unfold stream_Write. rewrite Hf. cbn. rewrite Hf.
    eexists. split; [reflexivity|]. split_and!; cbn; [done|done|]. rewrite Es. split_and!; [done|done|]. intros Hl. destruct (Hs Hl) as (ps & Hwr & Hps & Hfp). exists (ps ++ [p]). rewrite Hwr, map_app. unfold stream_of. rewrite map_app, !concat_app. cbn.
    split_and!; [unfold frame_bytes; by rewrite <- !app_assoc, app_nil_r|by rewrite Hps, app_nil_r|by apply Forall_app; split; [|constructor]].
  - destruct (frame_panics (Z.of_nat (length p)) ltac:(lia)) as [_ (msg & ->)]. by exists msg.
Qed.

(** A handler writes the response that it specifies. *)
Lemma serve_refines h b sp w : written sp w ->
  let '(panicked, b', w') := ServeHTTP lib h b w in
  let '(panicked', b'', sp') := serve_spec h b sp in panicked = panicked' /\ b' = b'' /\ written sp' w'.
Proof.
  revert b sp w. induction h as [| |n k IH|change k IH|status k IH|p k IH]; intros b sp w Hw; cbn [ServeHTTP serve_spec].
  - done.
  - done.
  - destruct (body_Read b n) as [[[d err]| |] b']; [by apply IH|done|done].
  - apply IH. destruct Hw as (Hh & Hf & Hs). split_and!; cbn; [by rewrite Hh|done|done].
  - pose proof (WriteHeader_written sp w status Hw) as Hc. destruct (spec_header sp status) as [[] sp']; [destruct Hc as (w' & -> & Hw'); by apply IH|by destruct Hc as (msg & -> & Hw')].
  - assert (E : (if rw_headerWritten w then mret w else WriteHeader lib w 200) = WriteHeader lib w 200) by (unfold WriteHeader; by destruct (rw_headerWritten w)).
    rewrite E. pose proof (WriteHeader_written sp w 200 Hw) as Hc. destruct (spec_header_sent sp 200) as (st & h & Es).
    destruct (spec_header sp 200) as [[] sp']; [|by destruct Hc as (msg & -> & Hw')]. destruct Hc as (w' & -> & Hw'). cbn [snd] in Es.
    pose proof (write_data_written sp' w' p st h Hw' Es) as Hd. rewrite Es. change (default 200 (fst <$> Some (st, h))) with st.
    destruct (negb (bodyAllowedForStatus st)); [rewrite Hd; by apply IH|]. destruct (_ <=? _); [destruct Hd as (w2 & -> & Hw2); by apply IH|by destruct Hd as (msg & ->)].
Qed.

(** The fields of a response, as the client reads them. *)
Lemma response_header_fields fs st text h :
  Forall (fun f => f.1 <> txt ":status") fs -> exists h', response_header lib fs st text h = Ret (st, text, h') /\ forall k, get h' k = get h k ++ values k fs.
Proof.
  intros Hf. revert h. induction Hf as [|[name value] fs Hf _ IH]; intros h; [exists h; split; [done|intros k; by rewrite app_nil_r]|]. cbn [response_header]. cbn [fst] in Hf.
  rewrite bool_decide_eq_false_2 by done. destruct (IH (Header_Add h name value)) as (h' & E & Hg). exists h'. split; [done|]. intros k. rewrite Hg, get_add, <- app_assoc. f_equal.
  unfold values. cbn. by case_bool_decide.
Qed.

Lemma response_read st h :
  0 <= st <= MaxInt64 -> (forall k vv, h !! k = Some vv -> header_key k) ->
  exists text h', response_header lib (response_fields lib st h) 0 [] ∅ = Ret (st, text, h') /\ forall k, get h' k = get h k.
Proof.
  intros Hst Hk. unfold response_fields. cbn [response_header]. rewrite bool_decide_eq_true_2, ParseInt_FormatInt by done.
  set (fs := concat _). assert (Hn : Forall (fun f : HeaderField => f.1 <> txt ":status") fs).
  { subst fs. assert (Hl : Forall (fun e => header_key e.1) (headerOrder lib h)) by (rewrite header_order; apply Forall_forall; intros [k vv] He%elem_of_map_to_list; eauto).
    induction Hl as [|[k vv] l Hkk _ IH]; [constructor|]. cbn [map concat fst snd]. apply Forall_app. split; [|exact IH]. apply Forall_map, Forall_forall. intros v _. cbn.
    intros E. pose proof (token_not_colon k Hkk) as Hp. rewrite E in Hp. unfold plain in Hp. rewrite pseudo_colon in Hp. vm_compute in Hp. discriminate. }
  destruct (response_header_fields fs st (FormatInt st ++ txt " " ++ StatusText lib st) ∅ Hn) as (h' & E & Hg). eexists _, h'. split; [exact E|].
  intros k. rewrite Hg. subst fs. rewrite (order_values h (fun k' vv => map (fun v => (ToLower k', v)) vv) id); [done|]. intros k' vv Hl. apply lower_values. eauto.
Qed.

(** The response that the server sends: the one that the handler specifies; when it sent none, an empty one. *)
Definition response_sent (panicked : bool) (sp : responseSpec) : Z * Header :=
  match sp_sent sp with Some x => x | None => (if panicked then 500 else 200, sp_header sp) end.

(** C8. A response arrives: what a handler does by its calls, in any order and depending on what it reads of the body, is a response with the status of the
    first [WriteHeader], or 200, or 500 after a panic, with the header at that time, and with the data that were written; and that is what the client gets, with
    EOF at the end of the data. *)
Theorem response_arrives serve s req s1 hl :
  read_request lib s = (Ret (inl req), s1) -> handleRequest lib serve s new_writer = Ret hl ->
  let '(panicked, _, sp) := serve_spec (serve req) (newRequestBody s1) no_response in
  let '(status, h) := response_sent panicked sp in
  0 <= status <= MaxInt64 -> (forall k vv, h !! k = Some vv -> header_key k) -> Z.of_nat (length (header_block status h)) <= maxAlloc lib ->
  hl_error hl = None /\ forall s2, str_data s2 = wr_written (hl_writer hl) -> str_end s2 = EOF ->
    exists res, read_response lib false s2 = Ret res /\ rs_StatusCode res = status /\ (forall k, get (rs_Header res) k = get h k) /\
      forall sizes, (forall i, 1 <= sizes i) -> read_all (S (length (str_data (bd_str (rs_Body res))))) sizes (rs_Body res) = Ret (sp_data sp, EOF).
Proof.
  intros Hr Hh. unfold handleRequest in Hh. rewrite Hr in Hh.
  pose proof (serve_refines (serve req) (newRequestBody s1) no_response (newResponseWriter new_writer)) as Hs. specialize (Hs ltac:(by split_and!)).
  destruct (ServeHTTP lib (serve req) (newRequestBody s1) (newResponseWriter new_writer)) as [[pn b'] w']. destruct (serve_spec (serve req) (newRequestBody s1) no_response) as [[pn' b''] sp'].
  destruct Hs as (-> & -> & Hw). apply outcome_bind_Ret in Hh as (w2 & Hw2 & [= <-]). pose proof (WriteHeader_written sp' w' (if pn' then 500 else 200) Hw) as Hwh. rewrite Hw2 in Hwh.
  assert (Hsent : exists status h, response_sent pn' sp' = (status, h) /\ (is_varint (Z.of_nat (length (header_block status h))) ->
    exists ps, wr_written (rw_stream w2) = frame_bytes 1 (header_block status h) ++ stream_of (map Data ps) /\ concat ps = sp_data sp' /\
      Forall (fun p => is_varint (Z.of_nat (length p))) ps)).
  { unfold spec_header in Hwh. unfold response_sent. destruct (sp_sent sp') as [[st h]|] eqn:Es.
    - destruct Hwh as (w3 & [= <-] & _ & _ & Hx). rewrite Es in Hx. destruct Hx as (_ & _ & Hx). eauto.
    - destruct (_ <=? _); [|by destruct Hwh as (msg & [=] & _)]. destruct Hwh as (w3 & [= <-] & _ & _ & Hx). cbn in Hx. destruct Hx as (_ & _ & Hx). eauto. }
  destruct Hsent as (status & h & -> & Hx). intros Hst Hk Hal. split; [done|]. intros s2 Hd He. cbn [hl_writer] in Hd.
  assert (Hv : is_varint (Z.of_nat (length (header_block status h)))) by (apply length_varint; pose proof alloc_limit; lia).
  destruct (Hx Hv) as (ps & Hwr & Hps & Hfp). rewrite Hwr in Hd.
  destruct (headers_parsed s2 _ _ Hv (qpack_prefix _) Hd) as (s3 & s4 & E1 & E2 & Hd4 & He4). destruct (response_read status h Hst Hk) as (text & h' & Eh & Hg).
  eexists. split; [|split; [|split]].
  - unfold read_response. rewrite E1, (proj2 (Z.ltb_ge _ _)) by lia. rewrite E2. unfold header_block. rewrite (outcome_bind_eq _ _ _ (qpack_roundtrip _)), (outcome_bind_eq _ _ _ Eh). reflexivity.
  - done.
  - exact Hg.
  - intros sizes Hs. cbn [rs_Body]. rewrite (read_all_data _ sizes _ [] (map Data ps)); try done; [|by apply Forall_map|cbn; congruence|cbn; lia].
    cbn [app]. unfold data_of. rewrite map_map. cbn [item_data]. by rewrite map_id, Hps.
Qed.

(** ** What goes wrong *)

(** A request takes the server down: a HEADERS frame that announces more bytes than a slice can have makes the goroutine of the
    request panic, before the handler is called and outside of the recovery from its panics. *)
Theorem huge_headers_panic serve l s w :
  maxAlloc lib < l -> is_varint l -> str_data s = varint_bytes 1 ++ varint_bytes l ++ [0] -> exists msg, serve_stream lib serve s w = Panic msg.
Proof.
  intros Hl Hv Hd. unfold serve_stream, handleRequest, read_request, parseNextFrame.
  destruct (parse_header (length (str_data s)) s 1 l [0] ltac:(done) Hv Hd) as (s1 & Hd1 & He1 & [->|(_ & [=] & _)]). cbn. rewrite (proj2 (Z.ltb_lt _ _)) by lia. by eexists.
Qed.

Lemma check_request_url req u : check_request lib req = None -> rq_URL req = Some u -> url_Scheme u = txt "https".
Proof. unfold check_request. intros Hc Eu. rewrite Eu in Hc. repeat case_match; try done. by apply bool_decide_eq_true_1 in H1. Qed.

Lemma failed_roundtrip {Sess} (c : h3client (Sess := Sess)) dialed opened s req body e :
  check_request lib req = None -> authorityAddr lib (txt "https") (hostnameFromRequest req) = hc_hostname c ->
  hc_handshakeErr (if hc_dialOnce c then c else h3_dial c dialed) = Some e ->
  client_RoundTrip lib c dialed opened s req body = (if hc_dialOnce c then c else h3_dial c dialed, Error e).
Proof.
  intros Hc Hh He. unfold client_RoundTrip. destruct (rq_URL req) as [u|] eqn:Eu; [|unfold check_request in Hc; by rewrite Eu in Hc].
  rewrite !bool_decide_eq_true_2 by eauto using check_request_url. cbn [negb]. by rewrite He.
Qed.

(** A dial that fails is never repeated, and after it [Close] panics: the client stays in the map without a session. *)
Theorem failed_dial_poisons {Sess} (req : Request) (body : option source) (e : goerr) (sess : Sess) opened s order closeErr :
  check_request lib req = None ->
  authorityAddr lib (txt "https") (authorityAddr lib (txt "https") (hostnameFromRequest req)) = authorityAddr lib (txt "https") (hostnameFromRequest req) ->
  (forall m, order m ≡ₚ map_to_list m) ->
  let '(r1, res1) := RoundTripOpt lib (mkRoundTripper false ∅) false (Error e) opened s req body in
  let '(r2, res2) := RoundTripOpt lib r1 false (Ret sess) opened s req body in
  res1 = Error e /\ res2 = Error e /\ RoundTripper_Close closeErr order r2 = (r2, Panic nil_dereference).
Proof.
  intros Hc Ha Ho. unfold RoundTripOpt. rewrite Hc. set (host := authorityAddr lib (txt "https") (hostnameFromRequest req)) in *.
  unfold getClient at 1. cbn [rt_clients]. rewrite lookup_empty. cbv beta iota zeta delta [mret outcome_ret].
  rewrite (failed_roundtrip _ _ _ _ _ _ e) by done. unfold getClient. cbn -[insert client_RoundTrip]. rewrite lookup_insert_eq. cbv beta iota zeta delta [mret outcome_ret].
  rewrite (failed_roundtrip _ _ _ _ _ _ e) by done. cbn -[insert]. split_and!; [done|done|].
  unfold RoundTripper_Close. cbn -[insert close_clients]. rewrite !insert_insert_eq, insert_empty.
  match goal with |- context [order ?m] => pose proof (Ho m) as Hp end. rewrite map_to_list_singleton in Hp. apply Permutation_singleton_r in Hp. by rewrite Hp.
Qed.

(** The last piece of a body is lost when it comes together with the end: a reader can return bytes and EOF in one call, and
    whatever the bytes are, the same is sent. *)
Theorem body_tail_lost ps d w :
  sendRequestBody (map (fun p => (p, None)) ps ++ [(d, Some EOF)]) w = sendRequestBody (map (fun p => (p, None)) ps ++ [([], Some EOF)]) w.
Proof.
  revert w. induction ps as [|p ps IH]; intros w; [done|]. cbn [map app sendRequestBody]. destruct (dataFrame_Write [] _) as [buf| |]; [|done|done]. cbn.
  destruct (stream_Write w buf) as [w1 [e|]]; [done|]. destruct (stream_Write w1 p) as [w2 [e|]]; [done|]. apply IH.
Qed.

End Headers.
