(* ===== verification/Http3Server.v ===== *)
(** * HTTP/3: the server and its listener

    http3/server.go: how a server starts to listen, is closed, and announces itself to clients of HTTP/2.  The listener, the resolution of names and what
    the operating system says are parameters. *)

From S2P Require Import Prelude Headers Http3.

Section Server.
Context {L : Type} (lib : h3Library) (LookupPort : bytes -> outcome Z).

Record h3Server := mkH3Server {
  h3_Addr : option bytes;               (* of the http.Server, unless that is nil *)
  h3_port : Z;
  h3_listener : option L;
  h3_closed : bool;
  h3_supportedVersionsAsString : bytes
}.

#[global] Instance h3Server_eta : Eta h3Server := fun s =>
  mkH3Server (h3_Addr s) (h3_port s) (h3_listener s) (h3_closed s) (h3_supportedVersionsAsString s).

Definition nextProtoH3 : string := "h3-20".

(** The protocols of a TLS configuration, which may be nil, with that of HTTP/3. *)
Definition with_h3 (protos : option (list string)) : list string :=
  let protos := default [] protos in
  if existsb (String.eqb nextProtoH3) protos then protos else protos ++ [nextProtoH3].

(** [serveImpl] up to its loop: [listened] is what listening with the protocols of the TLS configuration returns. *)
Definition serveImpl (s : h3Server) (protos : option (list string)) (listened : list string -> outcome L) : h3Server * outcome L :=
  match h3_Addr s with
  | None => (s, Error (ErrorString "use of http3.Server without http.Server"))
  | Some _ =>
      if h3_closed s then (s, Error (ErrorString "Server is already closed")) else
      match h3_listener s with
      | Some _ => (s, Error (ErrorString "ListenAndServe may only be called once"))
      | None =>
          match listened (with_h3 protos) with
          | Ret ln => (s <| h3_listener := Some ln |>, Ret ln)
          | res => (s, res)
          end
      end
  end.

(** [Close]: the listener that it closes, if there is one. *)
Definition h3_server_Close (s : h3Server) : h3Server * option L :=
  let s := s <| h3_closed := true |> in
  match h3_listener s with
  | Some ln => (s <| h3_listener := None |>, Some ln)
  | None => (s, None)
  end.

(** The value of the Alt-Svc header field. *)
Definition alt_svc (port : Z) (versions : bytes) : bytes :=
  txt "quic=" ++ [34] ++ txt ":" ++ FormatInt port ++ [34] ++ txt "; ma=2592000; v=" ++ [34] ++ versions ++ [34].

Definition SetQuicHeaders (s : h3Server) (hdr : Header) : h3Server * outcome Header :=
  match (if h3_port s =? 0 then
           match h3_Addr s with
           | None => Panic nil_dereference
           | Some addr => '(_, portStr) ← SplitHostPort lib addr; portInt ← LookupPort portStr; mret (uint32 portInt)
           end
         else mret (h3_port s)) with
  | Ret port =>
      let versions := if bool_decide (h3_supportedVersionsAsString s = []) then Join (map FormatInt SupportedVersions) (txt ",")
                      else h3_supportedVersionsAsString s in
      (s <| h3_port := port |> <| h3_supportedVersionsAsString := versions |>, Ret (Header_Add hdr (txt "Alt-Svc") (alt_svc port versions)))
  | Error e => (s, Error e)
  | Panic msg => (s, Panic msg)
  end.

(** ** Calls in any order *)

Inductive serverCall :=
| CallServe (protos : option (list string)) (listened : list string -> outcome L)
| CallClose.

(** A server, and the listeners that were opened and closed for it. *)
Record servedBy := mkServedBy {
  sb_server : h3Server;
  sb_opened : list L;
  sb_closed : list L
}.

Definition server_call (x : servedBy) (c : serverCall) : servedBy :=
  match c with
  | CallServe protos listened =>
      let '(s, res) := serveImpl (sb_server x) protos listened in
      mkServedBy s (sb_opened x ++ match res with Ret ln => [ln] | _ => [] end) (sb_closed x)
  | CallClose => let '(s, ln) := h3_server_Close (sb_server x) in mkServedBy s (sb_opened x) (sb_closed x ++ option_list ln)
  end.

(** A server listens once: whatever calls are made, it opens at most one listener and closes it at most once; a server that was closed has closed what it
    opened, and opens nothing any more; and one that listens was not closed. *)
Theorem h3_server_listens_once s calls :
  h3_listener s = None -> h3_closed s = false ->
  let x := foldl server_call (mkServedBy s [] []) calls in
  (length (sb_opened x) <= 1)%nat /\ h3_listener (sb_server x) = (if h3_closed (sb_server x) then None else head (sb_opened x)) /\
  sb_closed x = (if h3_closed (sb_server x) then sb_opened x else []) /\
  (In CallClose calls -> h3_closed (sb_server x) = true).
Proof.
  intros Hl Hc x. set (ok := fun y => (length (sb_opened y) <= 1)%nat /\ h3_listener (sb_server y) = (if h3_closed (sb_server y) then None else head (sb_opened y)) /\
    sb_closed y = (if h3_closed (sb_server y) then sb_opened y else [])).
  assert (Hstep : forall y c, ok y -> ok (server_call y c) /\ (h3_closed (sb_server y) = true \/ c = CallClose -> h3_closed (sb_server (server_call y c)) = true)).
  { intros [[addr port ln [] vs] o cl] c (H1 & H2 & H3); cbn in *; subst ln cl; destruct c as [protos listened|]; cbn.
    - unfold serveImpl. destruct addr; cbn; rewrite app_nil_r; (split; [by split_and!|done]).
    - rewrite app_nil_r. split; [by split_and!|done].
    - unfold serveImpl. destruct addr; cbn; [|rewrite app_nil_r; split; [by split_and!|naive_solver]].
      destruct o as [|ln [|]]; cbn in *; [|split; [by split_and!|naive_solver]|lia].
      destruct (listened _); cbn; (split; [split_and!; cbn; done || lia|naive_solver]).
    - unfold h3_server_Close. cbn. destruct o as [|ln [|]]; cbn in *; [| |lia]; (split; [by split_and!|done]). }
  assert (H0 : ok (mkServedBy s [] [])) by (unfold ok; cbn; rewrite Hl, Hc; by split_and!; [lia| |]).
  assert (Hx : ok x /\ (h3_closed (sb_server (mkServedBy s [] [])) = true \/ In CallClose calls -> h3_closed (sb_server x) = true)).
  { subst x. revert H0. generalize (mkServedBy s [] []). induction calls as [|c calls IH]; intros y Hy; cbn; [naive_solver|].
    destruct (Hstep y c Hy) as [Hy' Hcl]. destruct (IH _ Hy') as [Hok Hi]. split; [exact Hok|]. naive_solver. }
  destruct Hx as [(H1 & H2 & H3) H4]. split_and!; [done..|]. intros Hi. apply H4. by right.
Qed.

(** What a server announces does not change: once [SetQuicHeaders] has found a port, every later call adds the same value to the header, whatever the
    resolution of names would say. *)
Theorem alt_svc_stable s hdr hdr1 s1 hdr2 : SetQuicHeaders s hdr = (s1, Ret hdr1) -> h3_port s1 <> 0 ->
  exists value, hdr1 = Header_Add hdr (txt "Alt-Svc") value /\ SetQuicHeaders s1 hdr2 = (s1, Ret (Header_Add hdr2 (txt "Alt-Svc") value)).
Proof.
  unfold SetQuicHeaders at 1. destruct (if h3_port s =? 0 then _ else _) as [port| |]; [|done|done]. intros [= <- <-] Hp. cbn in Hp. eexists. split; [done|].
  unfold SetQuicHeaders. cbn. rewrite (proj2 (Z.eqb_neq _ _) Hp). cbn. set (v := if bool_decide (h3_supportedVersionsAsString s = []) then _ else _).
  assert (Hv : v <> []) by (subst v; case_bool_decide; [vm_compute; discriminate|done]). by rewrite (bool_decide_eq_false_2 (v = [])).
Qed.

End Server.
