(* ===== verification/Http3Examples.v ===== *)
(** * HTTP/3: examples

    A library that fulfils the laws, with length-prefixed header blocks, and a request with a body, its response and a few frames, at which
    the theorems on HTTP/3 are applied. *)

From S2P Require Import Prelude VarInt Http3Frames Http3 Http3Properties.

(** ** Header blocks *)

Definition text_block (t : bytes) : bytes := Z.of_nat (length t) :: t.

Definition field_block (f : HeaderField) : bytes := text_block f.1 ++ text_block f.2.

Definition block (fs : list HeaderField) : bytes := 0 :: concat (map field_block fs).

Definition read_text (b : bytes) : bytes * bytes :=
  match b with [] => ([], []) | n :: b => (take (Z.to_nat n) b, drop (Z.to_nat n) b) end.

Fixpoint read_fields (fuel : nat) (b : bytes) : list HeaderField :=
  match fuel, b with
  | O, _ | _, [] => []
  | S fuel, _ => let '(name, b) := read_text b in let '(value, b) := read_text b in (name, value) :: read_fields fuel b
  end.

Definition read_block (b : bytes) : outcome (list HeaderField) :=
  match b with [] => Error UnexpectedEOF | _ :: b => Ret (read_fields (length b) b) end.

Lemma read_text_block t rest : read_text (text_block t ++ rest) = (t, rest).
Proof. unfold text_block. cbn. by rewrite Nat2Z.id, take_app_length, drop_app_length. Qed.

Lemma read_fields_block fs fuel : (length (concat (map field_block fs)) <= fuel)%nat -> read_fields fuel (concat (map field_block fs)) = fs.
Proof.
  revert fuel. induction fs as [|[name value] fs IH]; intros fuel Hf; [by destruct fuel|]. cbn [map concat] in *.
  assert (Hl : (0 < length (field_block (name, value)))%nat) by (cbn; lia). rewrite length_app in Hf. destruct fuel as [|fuel]; [lia|].
  destruct (field_block (name, value) ++ concat (map field_block fs)) as [|x l] eqn:E; [done|]. cbn [read_fields]. rewrite <- E.
  unfold field_block at 1. cbn [fst snd]. rewrite <- app_assoc, read_text_block, read_text_block, IH; [done|]. lia.
Qed.

(** ** The library *)

Definition demo_lib : h3Library := mkH3Library
  block read_block (fun name => bool_decide (head name = Some 58)) Ret (fun _ => true) (fun _ => true) is_token_byte Ret
  (fun hostport => Ret (hostport, txt "443")) (fun host _ => host) (fun uri => Ret (mkURL [] [] [] uri)) (fun _ => txt "OK") map_to_list (2 ^ 30).

#[global] Instance demo_laws : H3LibraryLaws demo_lib.
Proof. split; try done. intros fs. cbn. unfold block, read_block. by rewrite read_fields_block. Qed.

(** ** A request and its response *)

Definition demo_url : URL := mkURL (txt "https") (txt "example.org") [] (txt "/upload").
Definition demo_header : Header :=
  list_to_map [(txt "X-Test", [txt "a"; txt "b"]); (txt "Cookie", [txt "c=1"; txt "d=2"]); (txt "User-Agent", [txt "demo"]); (txt "Upgrade", [txt "h2c"])].
Definition demo_request : Request := mkRequest (txt "POST") (Some demo_url) (Some demo_header) [] 5 [].
Definition demo_body : list bytes := [txt "he"; txt "llo"].
Definition demo_tail : bytes := txt "!".
(** What the client writes, as it arrives in pieces of three bytes. *)
Definition demo_written : bytes := match WriteRequest demo_lib new_writer demo_request (Some (source_of demo_body demo_tail)) true with Ret (w, _) => wr_written w | _ => [] end.
Definition demo_stream : stream := mkStream demo_written EOF (repeat (3%nat, false) 40).

(** A handler that sends back what it reads. *)
Definition echo (_ : Request) : handler :=
  HandlerRead 16 (fun d _ => HandlerHeader (fun h => Header_Set (Header_Add h (txt "date") (txt "now")) (txt "content-type") (txt "text/plain")) (HandlerHeader (fun h => Header_Del h (txt "Date")) (HandlerWriteHeader 201 (HandlerWrite d (fun _ => HandlerReturns))))).

Lemma demo_header_ok h (l : list (bytes * list bytes)) (P : bytes -> list bytes -> Prop) :
  map_to_list h = l -> Forall (fun e => P e.1 e.2) l -> forall k vv, h !! k = Some vv -> P k vv.
Proof. intros <- Hl k vv Hk%elem_of_map_to_list. exact (proj1 (Forall_forall _ _) Hl (k, vv) Hk). Qed.

Lemma request_arrives_witness :
  let h := default ∅ (rq_Header demo_request) in
  let src := option_map (fun '(ds, tail) => source_of ds tail) (Some (demo_body, demo_tail)) in
  let data := match Some (demo_body, demo_tail) with Some (ds, _) => ds | None => [] end in
  exists w, WriteRequest demo_lib new_writer demo_request src true = Ret (w, None) /\ wr_closed w = true /\
    forall s, str_data s = wr_written w -> str_end s = EOF -> exists s',
      if bool_decide (rq_Method demo_request = txt "CONNECT") then
        read_request demo_lib s = (Ret (inr (ErrorString ":path, :authority and :method must not be empty", None)), s')
      else exists h',
        read_request demo_lib s = (Ret (inl (mkRequest (rq_Method demo_request) (Some (mkURL [] [] [] (txt "/upload"))) (Some h') (txt "example.org")
          (length_received demo_request src) (txt "/upload"))), s') /\
        header_received true h h' /\
        forall sizes, (forall i, 1 <= sizes i) -> read_all (S (length (str_data s'))) sizes (newRequestBody s') = Ret (concat data, EOF).
Proof.
  refine (request_arrives demo_lib demo_request demo_url (txt "example.org") (txt "/upload") true (Some (demo_body, demo_tail)) (mkURL [] [] [] (txt "/upload"))
    _ _ _ _ _ _ _ _ _).
  - by vm_compute.
  - by vm_compute.
  - intros _. split; [|by vm_compute]. split; [by left|]. by left.
  - eapply (demo_header_ok _ _ (fun k vv => header_key k /\ _ k = true /\ Forall (fun v => _ v = true) vv)); [vm_compute; reflexivity|].
    repeat constructor; by vm_compute.
  - by vm_compute.
  - by vm_compute.
  - by vm_compute.
  - intros fields E. vm_compute in E. injection E as <-. split; by vm_compute.
  - repeat constructor; by vm_compute.
Defined.

(** The response to that request. *)
Definition arrived (s : stream) : option (Request * stream) := match read_request demo_lib s with (Ret (inl req), s1) => Some (req, s1) | _ => None end.
Definition served (s : stream) : option handled := match handleRequest demo_lib echo s new_writer with Ret hl => Some hl | _ => None end.

Lemma arrived_eq s req s1 : arrived s = Some (req, s1) -> read_request demo_lib s = (Ret (inl req), s1).
Proof. unfold arrived. destruct (read_request demo_lib s) as [[[r|]| |] s2]; try discriminate. by intros [= -> ->]. Qed.
Lemma served_eq s hl : served s = Some hl -> handleRequest demo_lib echo s new_writer = Ret hl.
Proof. unfold served. destruct (handleRequest demo_lib echo s new_writer); try discriminate. by intros [= ->]. Qed.

Lemma response_arrives_witness :
  match arrived demo_stream, served demo_stream with
  | Some (req, s1), Some hl =>
      let '(panicked, _, sp) := serve_spec demo_lib (echo req) (newRequestBody s1) no_response in
      let '(status, h) := response_sent panicked sp in
      status = 201 /\ sp_data sp = txt "he" /\ hl_error hl = None /\ forall s2, str_data s2 = wr_written (hl_writer hl) -> str_end s2 = EOF ->
        exists res, read_response demo_lib false s2 = Ret res /\ rs_StatusCode res = status /\ (forall k, get (rs_Header res) k = get h k) /\
          forall sizes, (forall i, 1 <= sizes i) -> read_all (S (length (str_data (bd_str (rs_Body res))))) sizes (rs_Body res) = Ret (sp_data sp, EOF)
  | _, _ => False
  end.
Proof.
  destruct (arrived demo_stream) as [[req s1]|] eqn:E1; [|vm_compute in E1; discriminate]. destruct (served demo_stream) as [hl|] eqn:E2; [|vm_compute in E2; discriminate].
  pose proof (response_arrives demo_lib echo demo_stream req s1 hl (arrived_eq _ _ _ E1) (served_eq _ _ E2)) as H. clear E2. revert H.
  vm_compute in E1. injection E1 as <- <-.
  match goal with |- context [serve_spec ?l ?a ?b ?c] => let x := eval vm_compute in (serve_spec l a b c) in change (serve_spec l a b c) with x end. cbv beta iota zeta.
  cbv beta iota zeta delta [response_sent sp_sent sp_data].
  intros H. split; [reflexivity|]. split; [reflexivity|]. refine (H _ _ _); clear H.
  - by vm_compute.
  - eapply (demo_header_ok _ _ (fun k _ => header_key k)); [vm_compute; reflexivity|repeat constructor; by vm_compute].
  - by vm_compute.
Defined.

(** ** Frames *)

Definition demo_settings : frame := settingsFrame {[6 := 100; 1 := 4096]}.
Definition demo_frames : stream :=
  mkStream (frame_bytes 33 [1; 2] ++ match write_frame map_to_list map_to_list demo_settings with Ret b => b | _ => [] end ++ [9]) EOF [(1%nat, false); (2%nat, true)].

Lemma demo_settings_ok : frame_ok demo_settings.
Proof.
  assert (E : map_to_list ({[6 := 100; 1 := 4096]} : gmap Z Z) = [(6, 100); (1, 4096)]) by (vm_compute; reflexivity).
  unfold demo_settings, frame_ok. rewrite E. split; [repeat constructor; by vm_compute|by vm_compute].
Qed.

Lemma http3_frame_roundtrip_witness :
  exists b, write_frame map_to_list map_to_list demo_settings = Ret b /\
    (str_data demo_frames = concat (map (fun '(t, p) => frame_bytes t p) [(33, [1; 2])]) ++ b ++ [9] ->
     exists s', parseNextFrame demo_frames = (Ret demo_settings, s') /\ str_data s' = [9] /\ str_end s' = str_end demo_frames).
Proof.
  refine (http3_frame_roundtrip map_to_list map_to_list demo_settings [(33, [1; 2])] [9] demo_frames _ _ _ _ _); [done|done|exact demo_settings_ok|apply Forall_singleton; split_and!; [by vm_compute|set_solver|by vm_compute]|done].
Defined.

Definition demo_items : list item := [Data (txt "he"); Unknown 33 [7]; Data []; Data (txt "llo")].

Lemma body_arrives_witness :
  read_all (S (length (stream_of demo_items))) (fun _ => 2) (newRequestBody (mkStream (stream_of demo_items) EOF (repeat (1%nat, true) 20))) = Ret (txt "hello", EOF) /\
  read_all (S (length (stream_of demo_items))) (fun _ => 2) (newResponseBody (mkStream (stream_of demo_items) EOF (repeat (1%nat, true) 20))) = Ret (txt "hello", EOF).
Proof.
  refine (body_arrives demo_items (mkStream (stream_of demo_items) EOF (repeat (1%nat, true) 20)) (fun _ => 2) _ eq_refl eq_refl _); [|done].
  repeat constructor; cbn; try set_solver; by vm_compute.
Defined.

(** ** What goes wrong *)

Lemma failed_dial_poisons_witness :
  let '(r1, res1) := RoundTripOpt demo_lib (mkRoundTripper false ∅) false (Error UnexpectedEOF) (Ret new_writer) demo_stream demo_request None in
  let '(r2, res2) := RoundTripOpt demo_lib r1 false (Ret tt) (Ret new_writer) demo_stream demo_request None in
  res1 = Error UnexpectedEOF /\ res2 = Error UnexpectedEOF /\ RoundTripper_Close (fun _ => None) map_to_list r2 = (r2, Panic nil_dereference).
Proof. apply (failed_dial_poisons demo_lib demo_request None UnexpectedEOF tt (Ret new_writer) demo_stream map_to_list (fun _ => None)); [by vm_compute|by vm_compute|done]. Defined.

Lemma huge_headers_panic_witness : exists msg, serve_stream demo_lib echo (mkStream (varint_bytes 1 ++ varint_bytes (2 ^ 40) ++ [0]) EOF []) new_writer = Panic msg.
Proof. apply (huge_headers_panic demo_lib echo (2 ^ 40)); [by vm_compute|by vm_compute|done]. Defined.
